(* ===== verification/_CoqProject ===== *)
-Q . S2P
Prelude.v
Param.v
Bytes.v
Resmap.v
Clist.v
Utab.v
Ucopy.v
Proc.v
Sched.v
Callout.v
Sig.v
Kern.v
Alloc.v
Bmap.v
Inode.v
Frame.v
Fio.v
Rdwri.v
Namei.v
Pipe.v
Sys2.v
Sys3.v
Fds.v
Sys4.v
Ring.v
Bio.v
Bcache.v
Bspec.v
Bsys.v
Bseq.v
Tty.v
Tqueue.v
Tline.v
Tcount.v
Tspl.v
Qsort.v
Cal.v
Heap.v
Arena.v
Aspec.v
Amap.v
Image.v
Ispec.v
Ibreak.v
Family.v
Kin.v
Args.v
Exec.v
