(* ===== verification/Prelude.v ===== *)
(** * The kernel of v7besm and parts of its C library: a verification in Rocq

    v7besm is Unix Version 7 on the BESM-6, a machine of 48-bit words that addresses words
    and packs six characters in each.  This development models the machine-independent core
    of its kernel, the C files of [kernel], and proves what makes it correct: storage and process
    resources at the bottom, the file system above them, the system calls on top.  Of the C
    library it models the sort, the calendar and the storage allocator.

    ** How the parts fit

    The kernel hands out core and swap from resource maps, keeps terminal characters in
    clists, maps a process by a table of 32 pages, and copies bytes between that map and
    itself.  Processes sleep on channels and are woken, dispatched by priority, sent
    signals, and timed by the clock and its callouts.  The file system reads and writes
    512-word blocks through a buffer cache over the disks; a volume has a superblock with a stack of free
    blocks, an i-list, and files whose blocks an address tree names.  Paths lead through
    directories to inodes, open files lead from descriptors to inodes, pipes are files
    without a name, and the system calls put these together.  A terminal line edits what
    is typed into lines, echoes it, and paces what is printed.  The image of a process grows,
    shrinks, moves in core and goes to the swap area and back, unseen by the process.  A program
    gets its storage from [malloc], which gets it from the kernel by [sbrk] and [brk].

    ** Files

    - This file: C flag words, arrays as lists, the result type of the process routines,
      tactics and rewrite bases ([flags], [fat]).
    - [Param]: words, units and fat pointers ([include/sys/param.h]).
    - [Bytes]: six bytes in a word, and a block of words as bytes.
    - [Resmap]: [malloc] and [mfree] ([kernel/malloc.c]).
    - [Clist]: [getc], [putc], [q_to_b], [b_to_q], [cinit] ([kernel/prim.c]).
    - [Utab]: page tables, [estabur], [physaddr], [physrange] ([kernel/utab.c]).
    - [Ucopy]: [copyinb] and [copyoutb] ([kernel/ucopy.c]) over the word and byte accesses
      of [kernel/usermem.S].
    - [Proc], [Sched]: the process table, [sleep], [wakeup], [setrun], [swtch], [sched], the
      slot and id part of [newproc] ([kernel/slp.c]), [issig] and [fsig] ([kernel/sig.c]).
    - [Callout], [Sig]: [timeout], the callouts and the rest of [clock] ([kernel/clock.c]),
      [psignal] and [signal] ([kernel/sig.c]).
    - [Kern]: the state of the file system code as one record, its computations, and the
      interface [BlockStore] of the buffer cache.  It is written by a script from the list of
      fields.
    - [Alloc]: free blocks ([alloc], [free], [getfs], [badblock], [sbcheck] of
      [kernel/alloc.c]).
    - [Bmap]: the address tree of a file ([bmap] of [kernel/subr.c]).
    - [Inode]: the inode table ([kernel/iget.c]), [ialloc], [ifree] and [update]
      ([kernel/alloc.c]), inode locks ([kernel/pipe.c]).
    - [Frame]: what these leave alone of the calling process.
    - [Fio]: open files, permissions, special files ([kernel/fio.c]), the text table as far
      as inodes are concerned ([kernel/text.c]).
    - [Rdwri]: [readi], [writei], [iomove] ([kernel/rdwri.c]), [passc] and [cpass].
    - [Namei]: [namei] ([kernel/nami.c]), [owner], [maknode], [wdir].
    - [Pipe]: [pipe], [readp], [writep] ([kernel/pipe.c]).
    - [Sys2], [Sys3], [Sys4]: the system calls of [kernel/sys2.c], [sys3.c] and [sys4.c].
    - [Fds]: the descriptor table under sequences of those calls.
    - [Ring]: doubly linked rings in a table of headers.  [Bio]: the buffer cache, its lists,
      the request queues of the devices and the interrupts that finish a request
      ([kernel/dev/bio.c], [binit] of [kernel/main.c]).  [Bcache]: the invariant, and what a
      process may rely on while others run; [Bspec]: what each routine does under it.
      [Bsys]: any number of processes and interrupts, interleaved.  [Bseq]: one process, the
      cache as a memory.
    - [Tty]: the line discipline and the console driver ([kernel/dev/tty.c], [sc.c]) over the
      interface [Queues]; [Tqueue]: three clists on one pool as its instance.  [Tline]: a line
      typed, echoed, edited and read.  [Tcount]: a line under interleaved calls and interrupts.
    - [Qsort]: [qsort] ([lib/libc/gen/qsort.c]).  [Cal]: [gmtime], [localtime], [asctime],
      [ctime] and [mktime] ([lib/libc/gen/ctime.c], [mktime.c]).
    - [Heap]: [malloc], [free], [realloc], [ialloc] ([lib/libc/gen/malloc.c]) over [sbrk] and
      [brk] ([lib/libc/sys]).  [Arena]: the chain of blocks in memory; [Aspec]: what each
      routine does to it; [Amap]: the allocator as a map from pointers to contents.
    - [Image]: [expand], [swapin] ([kernel/slp.c]), [xswap], [xccdec] ([kernel/text.c]), [swap]
      ([kernel/dev/bio.c]), [sbreak] ([kernel/sys1.c]), [grow] ([kernel/sig.c]) over physical
      memory and the swap area.  [Ispec]: what they leave of an image; [Ibreak]: [sbreak] and
      [grow] as the process sees them through its map.
    - [Family]: [fork], [exit], [wait] ([kernel/sys1.c]), the rest of [newproc] and [stop]
      ([kernel/sig.c]) on the process table and the u-areas.  [Kin]: ids, parents and the dead
      over any interleaving.
    - [Args]: the arguments in [exece] and the sizes in [getxfile] ([kernel/sys1.c]).  [Exec]: what
      the new program finds of them.

    ** How the code is modelled

    A pointer into a kernel table is an index and [NULL] is [None]; an access outside a
    table is a result of its own ([None], [Wild], [KWild]) and never a default value.  A C
    [int] is 41 bits and every quantity counted fits, so it is [Z]; where a field is a
    [char] its arithmetic is modulo 256, and where words are packed or shifted they are 48
    bits.  A process that calls [sleep] gives the processor away: the computation ends in
    [Sleeps] with the channel, and what runs after the wakeup is the code from the label
    before.  Interrupt levels make the routines between them atomic and have no counterpart
    but in the buffer cache, where a computation ends in [Intr] wherever the code runs
    at priority 0 (among them the window in [getblk] between its search and its [spl6]) and
    in a sleep otherwise, and goes on from the state it is given back.  The terminal does the
    same at its sleeps.  There the theorems are of the rely/guarantee kind: a routine is right
    whatever the others do that keep the invariant.
    The file system's functions are computations [K S A] over [kern S]; [S] is any type with
    a [BlockStore] instance, a logical store of blocks in which a write is seen by every
    later read and some blocks may fail to read.  Device drivers are parameters.

    Loops that are not structural take fuel: [iget] the number of mounts it can cross,
    [eloop] the entries of the directory, [readi] and [writei] the count (each turn but the
    last moves a byte), [writep] the count, [tloop] the two levels of indirection.  The
    theorems about these show that the fuel given suffices; [namei], [ialloc] and their
    callers take it as an argument, since a path has any length and [ialloc] may not end
    ([ialloc_spins]).  A call of the buffer cache by one process ends with [CALL_FUEL], twice
    [2 * NBUF + 1], since each turn of its loops writes a delayed buffer or finds one.  The
    loops of the terminal that sleep take it as an argument.  The search of the allocator takes
    fuel and [malloc_serves] shows [2 * NWORDS + 6] to be enough; [qsort] recurses as deep as
    there are elements at most; the page loops of [Image] take the number of words, and the loops
    of [Args] the [NCARGS] bytes that arguments may have.

    In [Image] a routine runs as if alone: [uflush], which is assembly, is a parameter that
    writes one page at most, an exchange with the drum may fail, and a process that goes out
    resumes in any later state in which its image and text are on the swap area.  In [Kin] the
    other processes, the interrupts and the dispatcher do between two steps whatever leaves ids,
    parents and the dead alone and the queues in order; [wakeup] and [swtch] are shown to.

    ** What is proved

    - Resources: [malloc]/[mfree] refine sets of units and keep maps canonical; a full map
      overflows.  Clists refine byte queues.  [estabur] accepts what fits and builds the
      table of the image; [physrange] accepts one contiguous run.  The user copies move
      exactly their bytes or none.
    - Processes: on well-formed queues [sleep], [wakeup], [swtch], [setrun], [newproc],
      [sched] do what their comments say; [timeout] and the clock refine absolute deadlines.
    - Volumes: [alloc] and [free] refine a stack of blocks; [bmap] maps and allocates blocks
      without disturbing any other; [itrunc] frees exactly the blocks of a file; inodes are
      in core once; [iupdat] and [iexpand] are inverse; [ialloc] loops for ever on a volume
      whose only free inode is number 1.
    - Files: [readi] and [writei] move exactly the bytes asked for between the user and the
      file, up to the size and the free space, and what was written is read back; beyond the
      largest file [writei] goes wrong.
    - Names, pipes, descriptors: the search of a directory, the permission test, a pipe as a
      FIFO queue, reference counts of open files; two error paths of system calls that are
      wrong ([utime_leaves_locked], [read_negative]).
    - Buffers: to one process the cache and the devices are a memory of blocks, and a flush
      makes the devices agree with it in whatever order their requests finish
      ([cache_is_memory], [flush_is_durable]); any interleaving of processes, interrupts and
      failing transfers keeps the lists, the contents and the locks of buffers right
      ([cache_interleaving]), but for the window in [getblk] ([getblk_race]).
    - Terminals: what is typed is read as an editor of characters leaves it, UTF-8 included
      ([line_typed_read]); the screen agrees with it ([echo_agrees]); the count of lines is
      right however the calls interleave, and no access leaves the line buffer
      ([delimiters_counted]), unless [TIOCSETN] changes
      the mode over a queue in use ([setn_end_of_file]).
    - Families: over any interleaving ids stay unique, every process has a living parent, nobody
      sleeps in [wait] with a dead child ([family_kept]), and the status of the dead reaches the
      parent and nobody else ([status_delivered]).
    - Images: after [sbreak] and [grow] the process sees its new pages zero and every other word
      as it was, whether the image stayed, moved, or went out and came back ([sbreak_correct],
      [grow_correct]).  The arguments and the environment of [exec] reach the new program
      unchanged, through the swap area, wherever its image is ([args_delivered]); a pure program
      may ask for a negative text ([text_sum_unchecked]).
    - C library: [qsort] leaves an ordered permutation ([qsort_sorts]); [mktime] inverts
      [localtime] ([mktime_localtime]) and [ctime] writes the date ([ctime_text]), but not for
      times before 1970 ([ctime_before_table]); live blocks of the allocator keep their contents
      over any calls of which none is refused ([heap_is_map]), and [malloc] ends and serves
      what there is room for ([malloc_serves]).  After a refusal blocks in use may overlap
      ([malloc_overlap]); [sbrk] takes a request past the address space for a small one
      ([sbrk_past_space]).

    ** Not modelled

    The disk, drum and memory drivers ([kernel/dev]), but for what the buffer cache asks of
    them; traps, interrupts, system-call dispatch and machine setup, which are mostly machine
    code or register access ([trap.c], [intr.c], [syscall.c], [machdep.c], [main.c], the
    assembly files); [exec] but for its arguments and sizes ([sys1.c]) with [xalloc], [xexpand] and
    [xfree] ([text.c]), the copy of the image in [newproc] ([slp.c]), and in [fork] and [exit] the
    counts of files, directories and texts, which the models of those keep; signal delivery ([sendsig.c], [ptrace] of [sig.c]), [kctl.c], [acct.c], [prf.c]; the
    rest of the libraries, and the commands.  The buffer cache is not an instance of [BlockStore]: the
    interface lets a changed buffer be released unmarked, as [writei] does after a fault, and
    then the cache and the device differ.  An interrupt inside [canon], which edits a line at
    priority 0, is not modelled; nor are other processes that run while [swap] waits. *)

From Stdlib Require Export ZArith Lia.
From stdpp Require Export base list numbers option sets strings.

Abbreviation last := list.last.

#[global] Open Scope Z_scope.
#[global] Set Default Goal Selector "!".

(** ** C flag words

    The kernel keeps its flags in [int] and [char] words and tests them with
    [x & m].  [x &? m] is the C truth value of [x & m]; [x |: m] is [x | m]
    and [x &~ m] is [x & ~m]. *)

Declare Scope c_scope.
Delimit Scope c_scope with c.

Definition tst (x m : Z) : bool := negb (Z.land x m =? 0).
Definition clr (x m : Z) : Z := Z.land x (Z.lnot m).

Infix "&?" := tst (at level 46, no associativity) : c_scope.
Infix "|:" := Z.lor (at level 48, left associativity) : c_scope.
Infix "&~" := clr (at level 47, left associativity) : c_scope.

#[global] Open Scope c_scope.

(** The rewrite base [flags] evaluates a test of a flag that an update just
    set, cleared or left alone; masks are closed constants, so the side
    conditions are decided by computation. *)

Lemma tst_lor x y m : tst (Z.lor x y) m = tst x m || tst y m.
Proof.
  unfold tst. rewrite Z.land_lor_distr_l, <- negb_andb. f_equal.
  destruct (Z.eqb_spec (Z.lor (Z.land x m) (Z.land y m)) 0) as [H|H].
  - apply Z.lor_eq_0_iff in H as [-> ->]. reflexivity.
  - destruct (Z.eqb_spec (Z.land x m) 0) as [H1|], (Z.eqb_spec (Z.land y m) 0) as [H2|];
      try reflexivity. rewrite H1, H2 in H. contradiction.
Qed.

Lemma tst_clr_same x k m : Z.land (Z.lnot k) m = 0 -> tst (clr x k) m = false.
Proof.
  intros H. unfold tst, clr. rewrite <- Z.land_assoc, H, Z.land_0_r. reflexivity.
Qed.

Lemma tst_clr_other x k m : Z.land (Z.lnot k) m = m -> tst (clr x k) m = tst x m.
Proof. intros H. unfold tst, clr. rewrite <- Z.land_assoc, H. reflexivity. Qed.

(** A one-bit mask tests the bit. *)
Lemma tst_pow2 x k : 0 <= k -> tst x (2 ^ k) = Z.testbit x k.
Proof.
  intros Hk. unfold tst. destruct (Z.testbit x k) eqn:E.
  - apply negb_true_iff, Z.eqb_neq. intros H. apply (f_equal (fun y => Z.testbit y k)) in H.
    by rewrite Z.land_spec, E, Z.pow2_bits_true, Z.bits_0 in H.
  - apply negb_false_iff, Z.eqb_eq. apply Z.bits_inj'. intros i Hi.
    rewrite Z.land_spec, Z.pow2_bits_eqb, Z.bits_0 by done.
    destruct (Z.eqb_spec k i) as [<-|]; [by rewrite E|apply andb_false_r].
Qed.

Lemma tst_0 m : tst 0 m = false.
Proof. reflexivity. Qed.

Create Rewrite HintDb flags.
Create Rewrite HintDb fat.
#[export] Hint Rewrite tst_lor tst_0 : flags.
#[export] Hint Rewrite tst_clr_same tst_clr_other using reflexivity : flags.

(** [flags] normalises flag tests in the goal and the context. *)
Ltac flags := autorewrite with flags in *; simpl in *.

(** ** Booleans from C conditions *)

Ltac bool_cases :=
  repeat match goal with
  | |- context [?a =? ?b] => destruct (Z.eqb_spec a b)
  | |- context [?a <? ?b] => destruct (Z.ltb_spec a b)
  | |- context [?a <=? ?b] => destruct (Z.leb_spec a b)
  | H : context [?a =? ?b] |- _ => destruct (Z.eqb_spec a b)
  | H : context [?a <? ?b] |- _ => destruct (Z.ltb_spec a b)
  | H : context [?a <=? ?b] |- _ => destruct (Z.leb_spec a b)
  end.

(** ** Options

    One step through a monadic bind, without unfolding the computation bound. *)
Lemma obind_step {A B} (m : option A) (f : A -> option B) x r :
  m = Some x -> f x = r -> (m ≫= f) = r.
Proof. intros ->. done. Qed.

(** ** Arrays

    A C array is a list; [a !! i] is [None] outside its bounds, and the
    models propagate that [None] as a wild access. *)

Lemma insert_app_here {A} (l1 l2 : list A) x y :
  <[length l1 := y]> (l1 ++ x :: l2) = l1 ++ y :: l2.
Proof. by rewrite insert_app_r_alt, Nat.sub_diag. Qed.

Lemma lookup_app_here {A} (l1 l2 : list A) x : (l1 ++ x :: l2) !! length l1 = Some x.
Proof. apply list_lookup_middle. done. Qed.

Lemma lookup_app_next {A} (l1 l2 : list A) x y : (l1 ++ x :: y :: l2) !! S (length l1) = Some y.
Proof. rewrite lookup_app_r by lia. by replace (S (length l1) - length l1)%nat with 1%nat by lia. Qed.

(** Move a loop's cursor past one element of the array. *)
Lemma app_snoc {A} (l1 l2 : list A) x : l1 ++ x :: l2 = (l1 ++ [x]) ++ l2.
Proof. by rewrite <- app_assoc. Qed.

Lemma length_snoc {A} (l : list A) x : length (l ++ [x]) = S (length l).
Proof. rewrite length_app. simpl. lia. Qed.

Ltac advance x l := rewrite (app_snoc l _ x), <- (length_snoc l x).

(** ** Kernel computations

    A kernel routine returns, panics, makes a wild access (an index no check
    stopped), or, where the model of a loop is bounded by fuel, runs out of it;
    the theorems show when the last three do not happen. *)

Inductive res (A : Type) : Type :=
  | Ok (a : A)
  | Panic (msg : string)
  | Wild
  | NoFuel.
Arguments Ok {A} a.
Arguments Panic {A} msg.
Arguments Wild {A}.
Arguments NoFuel {A}.

#[global] Instance res_ret : MRet res := fun A a => Ok a.
#[global] Instance res_bind : MBind res := fun A B f m =>
  match m with Ok a => f a | Panic msg => Panic msg | Wild => Wild | NoFuel => NoFuel end.

(** An array access: outside the bounds it is wild. *)
Definition access {A} (l : list A) (i : nat) : res A :=
  match l !! i with Some x => Ok x | None => Wild end.

Lemma access_Ok {A} (l : list A) i x : l !! i = Some x -> access l i = Ok x.
Proof. unfold access. by intros ->. Qed.

Lemma rbind_step {A B} (m : res A) (f : A -> res B) x r :
  m = Ok x -> f x = r -> (m ≫= f) = r.
Proof. intros ->. done. Qed.

(** [run] reduces a bind whose first computation is a value. *)
Ltac run := cbn [mbind res_bind mret res_ret option_bind].
