(* ===== verification/Param.v ===== *)
(** * Machine words, units and fat pointers: [include/sys/param.h]

    The BESM-6 word has 48 bits and is the smallest addressable thing.  An
    [unsigned] is a word; an [int] is a 41-bit signed value in a word, and every
    quantity the kernel counts fits it, so [int] is [Z] here and an overflow
    bound is stated where one matters. *)

From S2P Require Import Prelude.

Definition NBPW : Z := 6.
Definition BSIZE : Z := 3072.
Definition BSIZEW : Z := 512.
Definition PGSH : Z := 10.
Definition PGSZ : Z := 1024.
Definition NPAGE : Z := 32.
Definition USTKPAGE : Z := 28.
Definition USIZE : Z := 1024.
Definition MAXMEM : Z := NPAGE * PGSZ.
Definition INOPB : Z := 32.
Definition INOSHIFT : Z := 5.
Definition INOMASK : Z := 31.
Definition NODEV : Z := -1.

(** ** Words *)

Definition WORD : Z := 2 ^ 48.
Definition word (w : Z) : Prop := 0 <= w < WORD.
Definition wrap (w : Z) : Z := w mod WORD.

(** A [char] has 8 bits. *)
Definition inc8 (x : Z) : Z := (x + 1) mod 256.
Definition dec8 (x : Z) : Z := (x - 1) mod 256.

(** ** Units.  C's [/] truncates towards zero. *)

Definition btow (x : Z) : Z := Z.quot (x + 5) 6.
Definition wtob (x : Z) : Z := x * 6.
Definition pground (x : Z) : Z := Z.land (x + PGSZ - 1) (Z.lnot (PGSZ - 1)).
Definition wtodb (x : Z) : Z := Z.shiftr x 9.
Definition itod (x : Z) : Z := Z.shiftr (x + INOPB - 1) INOSHIFT.
Definition itoo (x : Z) : Z := Z.land (x + INOPB - 1) INOMASK.
Definition major (x : Z) : Z := Z.shiftr x 8.
Definition minor (x : Z) : Z := Z.land x 255.
Definition makedev (x y : Z) : Z := Z.lor (Z.shiftl x 8) y.

(** ** Fat pointers

    Bit 48 is the marker, bits 47-45 the byte's right-shift distance in its
    word (5 is the word's first byte), bits 15-1 the word address. *)

Definition ptrword (p : Z) : Z := Z.land p 32767.
Definition ptrbyte (p : Z) : Z := Z.land (Z.shiftr p 44) 7.

(** The pointer to byte [k] of word [w], and the byte number a pointer names. *)
Definition fat (w k : Z) : Z := 2 ^ 47 + (5 - k) * 2 ^ 44 + w.
Definition byteno (p : Z) : Z := NBPW * ptrword p + (NBPW - 1 - ptrbyte p).
Definition fat_at (n : Z) : Z := fat (n / NBPW) (n mod NBPW).

(** [p + n] on a [char *]: the offset field counts down as the pointer moves up,
    borrowing into the word address when it wraps. *)
Definition padd (p n : Z) : Z := fat_at (byteno p + n).

(** A byte number that a pointer can name: its word has 15 bits. *)
Definition KREACH : Z := 32768.
Definition nameable (n : Z) : Prop := 0 <= n < NBPW * KREACH.

Lemma div_mod_range n m : 0 < m -> m * (n / m) <= n < m * (n / m) + m /\ 0 <= n mod m < m.
Proof. intros. pose proof (Z.mul_div_le n m). pose proof (Z.mul_succ_div_gt n m).
  pose proof (Z.mod_pos_bound n m). lia. Qed.

Lemma pground_pages x : pground x = PGSZ * ((x + 1023) / 1024).
Proof.
  unfold pground, PGSZ. rewrite <- Z.ldiff_land. change (1024 - 1) with (Z.ones 10). replace (x + 1024 - 1) with (x + 1023) by lia.
  rewrite Z.ldiff_ones_r, Z.shiftl_mul_pow2, Z.shiftr_div_pow2 by lia. change (2 ^ 10) with 1024. lia.
Qed.

Lemma ptrword_fat w k : 0 <= w < KREACH -> 0 <= k <= 5 -> ptrword (fat w k) = w.
Proof.
  unfold KREACH, ptrword, fat. intros Hw Hk. change 32767 with (Z.ones 15). rewrite Z.land_ones by lia.
  replace (2 ^ 47 + (5 - k) * 2 ^ 44 + w) with (w + (2 ^ 32 + (5 - k) * 2 ^ 29) * 2 ^ 15) by lia.
  rewrite Z.mod_add by lia. apply Z.mod_small. lia.
Qed.

Lemma ptrbyte_fat w k : 0 <= w < KREACH -> 0 <= k <= 5 -> ptrbyte (fat w k) = 5 - k.
Proof.
  unfold KREACH, ptrbyte, fat. intros Hw Hk. rewrite Z.shiftr_div_pow2 by lia.
  replace (2 ^ 47 + (5 - k) * 2 ^ 44 + w) with (w + (8 + (5 - k)) * 2 ^ 44) by lia.
  rewrite Z.div_add by lia. rewrite (Z.div_small w) by lia.
  change 7 with (Z.ones 3). rewrite Z.land_ones by lia.
  replace (0 + (8 + (5 - k))) with ((5 - k) + 1 * 2 ^ 3) by lia.
  rewrite Z.mod_add by lia. apply Z.mod_small. lia.
Qed.

Lemma nameable_parts n : nameable n -> 0 <= n / 6 < KREACH /\ 0 <= n mod 6 <= 5.
Proof. unfold nameable, NBPW, KREACH. pose proof (div_mod_range n 6). lia. Qed.

Lemma ptrword_at n : nameable n -> ptrword (fat_at n) = n / 6.
Proof. intros [? ?]%nameable_parts. by apply ptrword_fat. Qed.

Lemma ptrbyte_at n : nameable n -> ptrbyte (fat_at n) = 5 - n mod 6.
Proof. intros [? ?]%nameable_parts. by apply ptrbyte_fat. Qed.

Lemma byteno_at n : nameable n -> byteno (fat_at n) = n.
Proof.
  intros Hn. unfold byteno. rewrite ptrword_at, ptrbyte_at by done. unfold NBPW.
  pose proof (Z.div_mod n 6). lia.
Qed.

Lemma padd_at n d : nameable n -> padd (fat_at n) d = fat_at (n + d).
Proof. intros. unfold padd. by rewrite byteno_at. Qed.

#[export] Hint Rewrite ptrword_at ptrbyte_at byteno_at padd_at using assumption : fat.
