(* ===== verification/Bytes.v ===== *)
(** * Bytes in words: a word holds six, the first one leftmost

    Used by the user-memory copies and by everything that reads a disk block as
    bytes. *)

From Stdlib Require Import Btauto.
From S2P Require Import Prelude Param.

(** The byte at shift distance [off], and the same byte replaced (a C [char] store). *)
Definition byte_of (w off : Z) : Z := Z.land (Z.shiftr w (8 * off)) 255.
Definition bytemask (off : Z) : Z := Z.shiftl 255 (8 * off).
Definition set_byte (w off c : Z) : Z := (w &~ bytemask off) |: Z.shiftl (Z.land c 255) (8 * off).

(** ** Bytes of a word *)

Lemma testbit_255 i : 0 <= i -> Z.testbit 255 i = (i <? 8).
Proof. intros. change 255 with (Z.ones 8). by rewrite Z.testbit_ones_nonneg by lia. Qed.

Lemma byte_bits w off i : 0 <= off -> 0 <= i ->
  Z.testbit (byte_of w off) i = Z.testbit w (i + 8 * off) && (i <? 8).
Proof. intros. unfold byte_of. by rewrite Z.land_spec, Z.shiftr_spec, testbit_255 by lia. Qed.

Lemma byte_range w off : 0 <= byte_of w off < 256.
Proof.
  unfold byte_of. change 255 with (Z.ones 8). rewrite Z.land_ones by lia. apply Z.mod_pos_bound. lia.
Qed.

(** A word is its six bytes. *)
Lemma word_bytes a b : word a -> word b ->
  (forall off, 0 <= off <= 5 -> byte_of a off = byte_of b off) -> a = b.
Proof.
  unfold word, WORD. intros Ha Hb H. apply Z.bits_inj'. intros i Hi. destruct (Z.ltb_spec i 48).
  - pose proof (div_mod_range i 8) as [Hd Hm]; [lia|]. specialize (H (i / 8) ltac:(lia)).
    apply (f_equal (fun x => Z.testbit x (i mod 8))) in H. rewrite !byte_bits in H by lia.
    replace (i mod 8 + 8 * (i / 8)) with i in H by (pose proof (Z.div_mod i 8); lia).
    destruct (Z.ltb_spec (i mod 8) 8); [|lia]. by rewrite !andb_true_r in H.
  - rewrite <- (Z.mod_small a (2 ^ 48)), <- (Z.mod_small b (2 ^ 48)) by lia.
    by rewrite !Z.mod_pow2_bits_high by lia.
Qed.

Lemma word_bound a : 0 <= a -> (forall i, 48 <= i -> Z.testbit a i = false) -> word a.
Proof.
  intros Ha H. unfold word, WORD. split; [done|].
  assert (a = a mod 2 ^ 48) as ->; [|apply Z.mod_pos_bound; lia].
  apply Z.bits_inj'. intros i Hi. destruct (Z.ltb_spec i 48).
  - by rewrite Z.mod_pow2_bits_low by lia.
  - rewrite Z.mod_pow2_bits_high by lia. apply H. lia.
Qed.

Lemma word_high a i : word a -> 48 <= i -> Z.testbit a i = false.
Proof.
  unfold word, WORD. intros Ha Hi. rewrite <- (Z.mod_small a (2 ^ 48)) by lia.
  by apply Z.mod_pow2_bits_high; lia.
Qed.

Lemma set_byte_bits w off c i : 0 <= off -> 0 <= i ->
  Z.testbit (set_byte w off c) i =
    if (8 * off <=? i) && (i <? 8 * off + 8) then Z.testbit c (i - 8 * off) else Z.testbit w i.
Proof.
  intros Ho Hi. unfold set_byte, clr, bytemask.
  rewrite Z.lor_spec, Z.land_spec, Z.lnot_spec, !Z.shiftl_spec, Z.land_spec by lia.
  destruct (Z.leb_spec (8 * off) i); simpl.
  - rewrite testbit_255 by lia. bool_cases; try lia; simpl; btauto.
  - rewrite !(Z.testbit_neg_r _ (i - 8 * off)) by lia. simpl. btauto.
Qed.

Lemma set_byte_word w off c : word w -> 0 <= off <= 5 -> word (set_byte w off c).
Proof.
  intros Hw Ho. apply word_bound.
  - unfold set_byte, clr. apply Z.lor_nonneg. split.
    + apply Z.land_nonneg. left. apply Hw.
    + apply Z.shiftl_nonneg, Z.land_nonneg. right. lia.
  - intros i Hi. rewrite set_byte_bits by lia.
    bool_cases; try lia; simpl; apply word_high; done.
Qed.

Lemma byte_set_byte w off c k : 0 <= off -> 0 <= k ->
  byte_of (set_byte w off c) k = if k =? off then Z.land c 255 else byte_of w k.
Proof.
  intros Ho Hk. apply Z.bits_inj'. intros i Hi. rewrite byte_bits, set_byte_bits by lia.
  destruct (Z.ltb_spec i 8) as [Hi8|Hi8]; [rewrite andb_true_r|rewrite andb_false_r].
  - destruct (Z.eqb_spec k off) as [->|]; [rewrite Z.land_spec, testbit_255 by lia|rewrite byte_bits by lia].
    + replace (i + 8 * off - 8 * off) with i by lia. bool_cases; try lia. simpl. by rewrite andb_true_r.
    + bool_cases; try lia; simpl; by rewrite andb_true_r.
  - destruct (k =? off); [rewrite Z.land_spec, testbit_255 by lia|rewrite byte_bits by lia];
      (destruct (Z.ltb_spec i 8); [lia|by rewrite andb_false_r]).
Qed.

(** ** Bytes of a block

    Byte [k] of a list of words, as [((char * )l)[k]]. *)

Definition getb (l : list Z) (k : Z) : Z := byte_of (l !!! Z.to_nat (k / NBPW)) (NBPW - 1 - k mod NBPW).
Definition putb (l : list Z) (k c : Z) : list Z :=
  <[Z.to_nat (k / NBPW) := set_byte (l !!! Z.to_nat (k / NBPW)) (NBPW - 1 - k mod NBPW) c]> l.
Fixpoint putbs (l : list Z) (k : Z) (cs : list Z) : list Z :=
  match cs with
  | [] => l
  | c :: cs => putbs (putb l k c) (k + 1) cs
  end.

(** A byte inside the block. *)
Definition inside (l : list Z) (k : Z) : Prop := 0 <= k < NBPW * Z.of_nat (length l).

Lemma putb_len l k c : length (putb l k c) = length l.
Proof. apply length_insert. Qed.

Lemma putbs_len cs : forall l k, length (putbs l k cs) = length l.
Proof. induction cs as [|c cs IH]; intros l k; [done|]. simpl. by rewrite IH, putb_len. Qed.

Lemma getb_putb l k c j : inside l k -> inside l j -> getb (putb l k c) j = if j =? k then Z.land c 255 else getb l j.
Proof.
  unfold inside, getb, putb, NBPW. intros Hk Hj. pose proof (div_mod_range k 6) as Hdk. pose proof (div_mod_range j 6) as Hdj.
  pose proof (Z.div_mod k 6). pose proof (Z.div_mod j 6).
  destruct (decide (j / 6 = k / 6)) as [E|E].
  - rewrite E, list_lookup_total_insert_eq by lia. rewrite byte_set_byte by lia.
    destruct (Z.eqb_spec (6 - 1 - j mod 6) (6 - 1 - k mod 6)), (Z.eqb_spec j k); lia || done.
  - rewrite list_lookup_total_insert_ne by lia. destruct (Z.eqb_spec j k); [congruence|done].
Qed.

Lemma getb_putbs cs : forall l k j, 0 <= k -> k + Z.of_nat (length cs) <= NBPW * Z.of_nat (length l) -> inside l j ->
  getb (putbs l k cs) j =
    if (k <=? j) && (j <? k + Z.of_nat (length cs)) then Z.land (cs !!! Z.to_nat (j - k)) 255 else getb l j.
Proof.
  induction cs as [|c cs IH]; intros l k j Hk Hl Hj; cbn [putbs length] in *.
  { destruct (Z.leb_spec k j), (Z.ltb_spec j (k + Z.of_nat 0)); lia || done. }
  rewrite IH by (unfold inside in *; rewrite ?putb_len; lia). rewrite getb_putb by (unfold inside in *; lia).
  destruct (Z.leb_spec (k + 1) j), (Z.ltb_spec j (k + 1 + Z.of_nat (length cs))), (Z.eqb_spec j k), (Z.leb_spec k j),
    (Z.ltb_spec j (k + Z.of_nat (Datatypes.S (length cs)))); cbn [andb]; try lia; try done.
  - replace (Z.to_nat (j - k)) with (Datatypes.S (Z.to_nat (j - (k + 1)))) by lia. done.
  - by replace (j - k) with 0 by lia.
Qed.

Lemma getb_range l k : 0 <= getb l k < 256.
Proof. apply byte_range. Qed.

Lemma getb_zeros n k : inside (replicate n 0) k -> getb (replicate n 0) k = 0.
Proof.
  unfold inside, NBPW, getb. rewrite length_replicate. intros Hk. pose proof (div_mod_range k 6).
  rewrite lookup_total_replicate_2 by (unfold NBPW; lia). unfold byte_of. by rewrite Z.shiftr_0_l.
Qed.
