(* ===== verification/Resmap.v ===== *)
(** * Resource maps: [kernel/malloc.c]

    [coremap] and [swapmap] are arrays of [(m_size, m_addr)] pairs, sorted by
    address and terminated by an entry of size 0.  [malloc] and [mfree] are
    translated statement by statement over a list that stands for the C array;
    a pointer is an index, and an access outside the array makes the whole
    operation [None].  The abstract view of a map is the set of units it holds. *)

From S2P Require Import Prelude.

(** ** Data *)

Record map := Map { m_size : Z; m_addr : Z }.

#[export] Instance map_eq_dec : EqDecision map.
Proof. solve_decision. Defined.

Implicit Types (mp l : list map) (bp : nat) (size a : Z).

(** ** Operations *)

Module Code.

(** The [do { ... } while] of lines 26-29: every later entry moves down one. *)
Fixpoint malloc_shift (fuel : nat) mp bp : option (list map) :=
  match fuel with
  | O => None
  | S fuel =>
      e ← mp !! S bp;
      let mp := <[bp := e]> mp in
      if m_size e =? 0 then Some mp else malloc_shift fuel mp (S bp)
  end.

(** The first-fit scan of lines 21-33. *)
Fixpoint malloc_scan (fuel : nat) mp bp size : option (Z * list map) :=
  match fuel with
  | O => None
  | S fuel =>
      e ← mp !! bp;
      if m_size e =? 0 then Some (0, mp)
      else if size <=? m_size e then
        let mp := <[bp := Map (m_size e - size) (m_addr e + size)]> mp in
        if m_size e - size =? 0 then
          mp ← malloc_shift (S fuel) mp bp; Some (m_addr e, mp)
        else Some (m_addr e, mp)
      else malloc_scan fuel mp (S bp) size
  end.

(** Fuel: each turn of either loop moves one entry on, and the array has
    [length mp] of them. *)
Definition malloc mp size : option (Z * list map) :=
  malloc_scan (length mp) mp 0 size.

(** The [for] of line 50: the first entry past address [a]. *)
Fixpoint mfree_scan (fuel : nat) mp bp a : option nat :=
  match fuel with
  | O => None
  | S fuel =>
      e ← mp !! bp;
      if (m_addr e <=? a) && negb (m_size e =? 0)
      then mfree_scan fuel mp (S bp) a else Some bp
  end.

(** The [while] of lines 56-60. *)
Fixpoint mfree_close (fuel : nat) mp bp : option (list map) :=
  match fuel with
  | O => None
  | S fuel =>
      e ← mp !! bp;
      if m_size e =? 0 then Some mp
      else e' ← mp !! S bp; mfree_close fuel (<[bp := e']> mp) (S bp)
  end.

(** The [do { ... } while] of lines 67-74: push the tail up one entry. *)
Fixpoint mfree_open (fuel : nat) mp bp size a : option (list map) :=
  match fuel with
  | O => None
  | S fuel =>
      e ← mp !! bp;
      let mp := <[bp := Map size a]> mp in
      if m_size e =? 0 then Some mp
      else mfree_open fuel mp (S bp) (m_size e) (m_addr e)
  end.

(** Lines 53-61: [bp - 1] ends where the freed run starts. *)
Definition mfree_merge (fuel : nat) mp prev size a : option (list map) :=
  p ← mp !! prev;
  e ← mp !! S prev;
  let mp := <[prev := Map (m_size p + size) (m_addr p)]> mp in
  if a + size =? m_addr e then
    mfree_close fuel (<[prev := Map (m_size p + size + m_size e) (m_addr p)]> mp) (S prev)
  else Some mp.

(** Lines 63-75: it does not. *)
Definition mfree_insert (fuel : nat) mp bp size a : option (list map) :=
  e ← mp !! bp;
  if (a + size =? m_addr e) && negb (m_size e =? 0) then
    Some (<[bp := Map (m_size e + size) (m_addr e - size)]> mp)
  else if negb (size =? 0) then mfree_open fuel mp bp size a
  else Some mp.

(** Lines 50-76, on the map alone. *)
Definition mfree_map mp size a : option (list map) :=
  let fuel := S (length mp) in
  bp ← mfree_scan fuel mp 0 a;
  match bp with
  | O => mfree_insert fuel mp bp size a
  | S prev =>
      p ← mp !! prev;
      if m_addr p + m_size p =? a then mfree_merge fuel mp prev size a
      else mfree_insert fuel mp bp size a
  end.

(** What [mfree] leaves: the map, the scheduler's [runin] flag, and whether
    [wakeup(&runin)] was called. *)
Record mfreed := Mfreed { mf_map : list map; mf_runin : Z; mf_wakeup : bool }.

Definition mfree (is_coremap : bool) (runin : Z) mp size a : option mfreed :=
  let wake := is_coremap && negb (runin =? 0) in
  mp ← mfree_map mp size a;
  Some (Mfreed mp (if wake then 0 else runin) wake).

End Code.
Import Code.

(** ** The well-formed maps

    A live map is a list of entries, a terminator, and whatever the array holds
    beyond it.  The entries have positive sizes and positive addresses, ascend,
    and are separated by at least one unit: adjacent runs are always merged. *)

Definition end_of (e : map) : Z := m_addr e + m_size e.

Fixpoint ascending (lo : Z) l : Prop :=
  match l with
  | [] => True
  | e :: l => lo < m_addr e /\ 0 < m_size e /\ ascending (end_of e) l
  end.

Definition terminator (t : map) : Prop := m_size t = 0.

(** Nothing ever writes a new terminator when the list grows, so {e every}
    entry past the list must have size 0, not only the first. *)
Record wf_map mp l : Prop := {
  wf_tail : exists tail, mp = l ++ tail /\ tail <> [] /\ Forall terminator tail;
  wf_asc : ascending 0 l;
}.

(** The units a list of entries holds. *)
Definition holds l (x : Z) : Prop := exists e, e ∈ l /\ m_addr e <= x < end_of e.

(** ** The list the array stands for

    The specification works on the list of entries alone. *)

Fixpoint fit l size : option (Z * list map) :=
  match l with
  | [] => None
  | e :: l =>
      if size <=? m_size e then
        Some (m_addr e,
              if m_size e =? size then l else Map (m_size e - size) (m_addr e + size) :: l)
      else '(a, l) ← fit l size; Some (a, e :: l)
  end.

(** Put the run [(size, a)] back, merging it with its neighbours. *)
Fixpoint give l size a : list map :=
  match l with
  | [] => [Map size a]
  | e :: l' =>
      if m_addr e <=? a then
        if end_of e =? a then
          match l' with
          | e' :: l'' =>
              if a + size =? m_addr e' then Map (m_size e + size + m_size e') (m_addr e) :: l''
              else Map (m_size e + size) (m_addr e) :: l'
          | [] => [Map (m_size e + size) (m_addr e)]
          end
        else e :: give l' size a
      else if a + size =? m_addr e then Map (m_size e + size) (m_addr e - size) :: l'
      else Map size a :: l
  end.

Abbreviation nonzero := (Forall (fun e => m_size e <> 0)).

Lemma ascending_nonzero lo l : ascending lo l -> nonzero l.
Proof.
  revert lo. induction l as [|e l IH]; intros lo H; [constructor|].
  destruct H as (_ & H & Ha). constructor; [lia | by eapply IH].
Qed.

Lemma ascending_weaken lo lo' l : lo' <= lo -> ascending lo l -> ascending lo' l.
Proof. destruct l as [|e l]; simpl; [done|]. intros ? (? & ? & ?). repeat split; auto; lia. Qed.

(** *** The array loops, on an array split at the loop's cursor *)

Lemma malloc_shift_spec fuel pre x l t rest :
  nonzero l -> terminator t -> (length l < fuel)%nat ->
  malloc_shift fuel (pre ++ x :: l ++ t :: rest) (length pre) = Some (pre ++ l ++ t :: t :: rest).
Proof.
  revert fuel pre x. induction l as [|e l IH]; intros [|fuel] pre x Hl Ht Hf;
    simpl in Hf |- *; try lia.
  - rewrite lookup_app_next. simpl. rewrite Ht. simpl. by rewrite insert_app_here.
  - inversion Hl; subst. rewrite lookup_app_next. simpl.
    destruct (Z.eqb_spec (m_size e) 0); [done|].
    rewrite insert_app_here. advance e pre.
    rewrite IH; [by rewrite <- app_assoc | done | done | lia].
Qed.

Lemma malloc_scan_spec fuel pre l t rest size :
  nonzero l -> terminator t -> (length l < fuel)%nat ->
  malloc_scan fuel (pre ++ l ++ t :: rest) (length pre) size =
    match fit l size with
    | None => Some (0, pre ++ l ++ t :: rest)
    | Some (a, l') =>
        Some (a, pre ++ l' ++ t :: (if bool_decide (length l' = length l) then rest else t :: rest))
    end.
Proof.
  revert fuel pre. induction l as [|e l IH]; intros [|fuel] pre Hl Ht Hf;
    simpl in Hf |- *; try lia.
  - rewrite lookup_app_here. simpl. by rewrite Ht.
  - inversion Hl; subst. rewrite lookup_app_here. simpl.
    destruct (Z.eqb_spec (m_size e) 0); [done|].
    destruct (Z.leb_spec size (m_size e)).
    + destruct (Z.eqb_spec (m_size e) size), (Z.eqb_spec (m_size e - size) 0); try lia;
        rewrite insert_app_here.
      * pose proof (malloc_shift_spec (S fuel) pre
          (Map (m_size e - size) (m_addr e + size)) l t rest ltac:(done) Ht ltac:(lia)) as Hsh.
        simpl in Hsh. rewrite Hsh. simpl.
        rewrite bool_decide_eq_false_2 by lia. done.
      * rewrite bool_decide_eq_true_2 by done. done.
    + advance e pre. rewrite IH by (done || lia).
      destruct (fit l size) as [[a l']|]; simpl; rewrite <- app_assoc; simpl; [|done].
      repeat case_bool_decide; done || lia.
Qed.

Lemma mfree_scan_spec fuel pre l1 x rest a :
  Forall (fun e => m_addr e <= a /\ m_size e <> 0) l1 -> (a < m_addr x \/ terminator x) ->
  (length l1 < fuel)%nat ->
  mfree_scan fuel (pre ++ l1 ++ x :: rest) (length pre) a = Some (length (pre ++ l1)).
Proof.
  revert fuel pre. induction l1 as [|e l1 IH]; intros [|fuel] pre Hl Hx Hf;
    simpl in Hf |- *; try lia.
  - rewrite lookup_app_here, app_nil_r. simpl. unfold terminator in Hx.
    bool_cases; simpl; done || lia.
  - inversion Hl as [|? ? [? ?] ?]; subst. rewrite lookup_app_here. simpl.
    bool_cases; simpl; try lia.
    advance e pre. rewrite IH by (done || lia). by rewrite <- app_assoc.
Qed.

Lemma mfree_open_spec fuel pre l t rest size a :
  nonzero l -> terminator t -> (length l < fuel)%nat ->
  mfree_open fuel (pre ++ l ++ t :: rest) (length pre) size a =
    Some (pre ++ Map size a :: l ++ rest).
Proof.
  revert fuel pre size a. induction l as [|[s' a'] l IH]; intros [|fuel] pre size a Hl Ht Hf;
    simpl in Hf |- *; try lia.
  - rewrite lookup_app_here. simpl. rewrite Ht. simpl. by rewrite insert_app_here.
  - inversion Hl; subst. rewrite lookup_app_here. simpl in *.
    destruct (Z.eqb_spec s' 0); [done|]. rewrite insert_app_here.
    advance (Map size a) pre. rewrite IH by (done || lia). by rewrite <- app_assoc.
Qed.

Lemma mfree_close_spec fuel pre e l t rest :
  nonzero (e :: l) -> terminator t -> (length l + 1 < fuel)%nat ->
  mfree_close fuel (pre ++ e :: l ++ t :: rest) (length pre) = Some (pre ++ l ++ t :: t :: rest).
Proof.
  revert fuel pre e. induction l as [|e' l IH]; intros [|fuel] pre e Hl Ht Hf;
    simpl in Hf |- *; try lia; inversion Hl as [|? ? He Hl']; subst;
    rewrite lookup_app_here; simpl; (destruct (Z.eqb_spec (m_size e) 0); [done|]);
    rewrite lookup_app_next; simpl; rewrite insert_app_here.
  - destruct fuel; [lia|]. simpl. rewrite lookup_app_next. simpl. by rewrite Ht.
  - advance e' pre. rewrite IH by (done || lia). by rewrite <- app_assoc.
Qed.

(** *** Where [a] falls in an ascending list *)

Definition before a (e : map) : Prop := m_addr e <= a /\ m_size e <> 0.
Definition starts_after a l : Prop := match l with [] => True | e :: _ => a < m_addr e end.

Lemma split_at a lo l :
  ascending lo l ->
  exists l1 l2, l = l1 ++ l2 /\ Forall (before a) l1 /\ starts_after a l2.
Proof.
  revert lo. induction l as [|e l IH]; intros lo Hl; [by exists [], []|].
  destruct Hl as (? & ? & Hl). destruct (Z_le_gt_dec (m_addr e) a).
  - destruct (IH _ Hl) as (l1 & l2 & -> & ? & ?). exists (e :: l1), l2.
    split; [done|]. split; [|done]. constructor; [split; lia | done].
  - exists [], (e :: l). split; [done|]. split; [constructor | simpl; lia].
Qed.

Lemma ascending_app lo l1 l2 :
  ascending lo (l1 ++ l2) -> ascending lo l1 /\ exists hi, lo <= hi /\ ascending hi l2.
Proof.
  revert lo. induction l1 as [|e l1 IH]; intros lo H; simpl in *; [split; [done|]; by exists lo|].
  destruct H as (? & ? & H). destruct (IH _ H) as (? & hi & ? & ?).
  split; [done|]. exists hi. unfold end_of in *. split; [lia | done].
Qed.

(** Only the last of the entries at or below [a] can end exactly at [a]. *)
Lemma ends_before lo l1 p a :
  ascending lo (l1 ++ [p]) -> m_addr p <= a ->
  Forall (fun e => m_addr e <= a /\ end_of e <> a) l1.
Proof.
  revert lo. induction l1 as [|e l1 IH]; intros lo H Hp; [constructor|].
  simpl in H. destruct H as (? & ? & H). constructor; [|by eapply IH].
  assert (end_of e < m_addr p).
  { clear - H. revert H. generalize (end_of e). induction l1 as [|x l1 IH]; simpl; intros z H.
    - lia.
    - destruct H as (? & ? & H). apply IH in H. unfold end_of in *. lia. }
  unfold end_of in *. lia.
Qed.

Lemma give_app l1 l2 size a :
  Forall (fun e => m_addr e <= a /\ end_of e <> a) l1 ->
  give (l1 ++ l2) size a = l1 ++ give l2 size a.
Proof.
  induction 1 as [|e l1 [? ?] _ IH]; [done|]. simpl.
  destruct (Z.leb_spec (m_addr e) a); [|lia].
  destruct (Z.eqb_spec (end_of e) a); [done|]. by rewrite IH.
Qed.

Lemma give_head l2 size a :
  starts_after a l2 -> give l2 size a =
    match l2 with
    | e :: l' => if a + size =? m_addr e then Map (m_size e + size) (m_addr e - size) :: l'
                 else Map size a :: l2
    | [] => [Map size a]
    end.
Proof. destruct l2 as [|e l2]; simpl; [done|]. intros. by destruct (Z.leb_spec (m_addr e) a); [lia|]. Qed.

Definition slack (tail : list map) : Prop := tail <> [] /\ Forall terminator tail.

Lemma mfree_insert_spec fuel pre l2 t rest size a :
  starts_after a l2 -> nonzero l2 -> terminator t -> 0 < size -> (length l2 < fuel)%nat ->
  mfree_insert fuel (pre ++ l2 ++ t :: rest) (length pre) size a =
    Some (pre ++ give l2 size a ++
          (if bool_decide (length (give l2 size a) = length l2) then t :: rest else rest)).
Proof.
  intros Hs Hnz Ht Hsize Hf. unfold mfree_insert. rewrite give_head by done.
  destruct l2 as [|e l2]; simpl app; rewrite lookup_app_here; simpl.
  - rewrite Ht. simpl. rewrite andb_false_r.
    destruct (Z.eqb_spec size 0); [lia|]. simpl.
    exact (mfree_open_spec fuel pre [] t rest size a Hnz Ht Hf).
  - inversion Hnz; subst. destruct (Z.eqb_spec (m_size e) 0); [done|].
    destruct (Z.eqb_spec (a + size) (m_addr e)); simpl.
    + by rewrite insert_app_here, bool_decide_eq_true_2.
    + destruct (Z.eqb_spec size 0); [lia|]. simpl.
      rewrite bool_decide_eq_false_2 by lia.
      exact (mfree_open_spec fuel pre (e :: l2) t rest size a Hnz Ht Hf).
Qed.

Lemma mfree_merge_spec fuel pre p l2 t rest size a :
  m_addr p <= a -> end_of p = a -> starts_after a l2 -> nonzero l2 -> terminator t ->
  (length l2 < fuel)%nat ->
  mfree_merge fuel (pre ++ p :: l2 ++ t :: rest) (length pre) size a =
    Some (pre ++ give (p :: l2) size a ++
          (if bool_decide (length (give (p :: l2) size a) = length l2) then t :: t :: rest
           else t :: rest)).
Proof.
  intros Hp Hend Hs Hnz Ht Hf. unfold mfree_merge. rewrite lookup_app_here. simpl.
  destruct (Z.leb_spec (m_addr p) a); [|lia]. rewrite Hend, Z.eqb_refl.
  destruct l2 as [|e l2]; simpl app; rewrite lookup_app_next; simpl; rewrite !insert_app_here.
  - rewrite Ht. destruct (Z.eqb_spec (a + size) (m_addr t)); simpl; [|done].
    destruct fuel; [simpl in Hf; lia|]. simpl. rewrite lookup_app_next. simpl. rewrite Ht.
    simpl. by rewrite Z.add_0_r.
  - apply Forall_cons_iff in Hnz as [He Hnz].
    destruct (Z.eqb_spec (a + size) (m_addr e)); simpl.
    + rewrite bool_decide_eq_true_2 by done.
      advance (Map (m_size p + size + m_size e) (m_addr p)) pre.
      rewrite mfree_close_spec; [by rewrite <- app_assoc | by constructor | done | simpl in Hf; lia].
    + by rewrite bool_decide_eq_false_2 by (simpl; lia).
Qed.

(** The array itself never grows or shrinks. *)

Lemma mfree_open_length fuel mp bp size a mp' :
  mfree_open fuel mp bp size a = Some mp' -> length mp' = length mp.
Proof.
  revert mp bp size a. induction fuel as [|fuel IH]; intros mp bp size a; simpl; [done|].
  destruct (mp !! bp) as [e|]; simpl; [|done]. case_match; intros Hr.
  - simplify_eq. apply length_insert.
  - apply IH in Hr. by rewrite length_insert in Hr.
Qed.

Lemma mfree_close_length fuel mp bp mp' :
  mfree_close fuel mp bp = Some mp' -> length mp' = length mp.
Proof.
  revert mp bp. induction fuel as [|fuel IH]; intros mp bp; simpl; [done|].
  destruct (mp !! bp) as [e|]; simpl; [|done]. case_match; intros Hr.
  - by simplify_eq.
  - destruct (mp !! S bp); simpl in Hr; [|done]. apply IH in Hr. by rewrite length_insert in Hr.
Qed.

Lemma mfree_map_length mp size a mp' :
  mfree_map mp size a = Some mp' -> length mp' = length mp.
Proof.
  assert (Hins : forall fuel bp, mfree_insert fuel mp bp size a = Some mp' -> length mp' = length mp).
  { intros fuel bp. unfold mfree_insert. destruct (mp !! bp); simpl; [|done].
    repeat case_match; intros Hr; simplify_eq; rewrite ?length_insert; try done.
    by eapply mfree_open_length. }
  unfold mfree_map, mfree_merge. generalize (S (length mp)); intros fuel.
  destruct (mfree_scan _ _ _ _) as [[|prev]|]; simpl; try done; [by apply Hins|].
  destruct (mp !! prev) as [p|]; simpl; [|done]. case_match; [|by apply Hins].
  destruct (mp !! S prev); simpl; [|done].
  case_match; intros Hr; [apply mfree_close_length in Hr|simplify_eq]; by rewrite ?length_insert in *.
Qed.

(** The array after [mfree] holds [give l size a], followed by entries of size
    0 only. *)
Lemma mfree_give mp l size a :
  wf_map mp l -> 0 < size ->
  exists tail', mfree_map mp size a = Some (give l size a ++ tail') /\ Forall terminator tail'.
Proof.
  intros [(tail & -> & Htl & Hz) Hasc] Hsize.
  destruct (split_at a 0 l Hasc) as (l1 & l2 & -> & H1 & H2).
  destruct (ascending_app _ _ _ Hasc) as (Hasc1 & hi & _ & Hasc2).
  pose proof (ascending_nonzero _ _ Hasc2) as Hnz2.
  destruct tail as [|t rest]; [done|]. apply Forall_cons_iff in Hz as [Ht Hrest].
  set (mp := (l1 ++ l2) ++ t :: rest) in *.
  unfold mfree_map. cbv zeta.
  assert (Hfuel : (length l1 < S (length mp) /\ length l2 < S (length mp))%nat)
    by (unfold mp; rewrite !length_app; lia).
  revert Hfuel. generalize (S (length mp)). intros fuel [Hf1 Hf2].
  assert (Hscan : mfree_scan fuel mp 0 a = Some (length l1)).
  { unfold mp. rewrite <- app_assoc. destruct l2 as [|e l2].
    - apply (mfree_scan_spec _ [] l1 t rest a); [done | by right | lia].
    - apply (mfree_scan_spec _ [] l1 e (l2 ++ t :: rest) a); [done | by left | lia]. }
  rewrite Hscan. simpl. clear Hscan. unfold mp. clear mp. rewrite <- !app_assoc.
  destruct l1 as [|p l1 _] using rev_ind; simpl.
  - rewrite (mfree_insert_spec _ [] l2 t rest size a) by done. simpl. eexists. split; [done|].
    case_match; [by constructor|done].
  - apply Forall_app in H1 as [_ H1]. apply Forall_cons_iff in H1 as [[Hp _] _].
    pose proof (ends_before _ _ _ _ Hasc1 Hp) as Hbef.
    rewrite length_snoc, <- !app_assoc, give_app by done. cbn [app].
    set (G := give (p :: l2) size a).
    rewrite lookup_app_here. cbn [mbind option_bind]. fold (end_of p).
    destruct (Z.eqb_spec (end_of p) a) as [Hend|Hend].
    + rewrite mfree_merge_spec by done. eexists. split; [rewrite <- app_assoc; reflexivity|].
      case_match; repeat constructor; done.
    + advance p l1. rewrite mfree_insert_spec by done.
      replace G with (p :: give l2 size a).
      2: { unfold G. simpl. destruct (Z.leb_spec (m_addr p) a); [|lia]. by destruct (Z.eqb_spec (end_of p) a). }
      eexists. split; [rewrite <- !app_assoc; reflexivity|]. case_match; [by constructor|done].
Qed.

Lemma mfree_map_spec mp l size a :
  wf_map mp l -> 0 < size -> (length (give l size a) < length mp)%nat ->
  exists tail', mfree_map mp size a = Some (give l size a ++ tail') /\
    length (give l size a ++ tail') = length mp /\ tail' <> [] /\ Forall terminator tail'.
Proof.
  intros Hwf Hsize Hroom. destruct (mfree_give mp l size a Hwf Hsize) as (tail' & Heq & Hz).
  exists tail'. pose proof (mfree_map_length _ _ _ _ Heq) as Hlen. repeat split; try done.
  intros ->. rewrite app_nil_r in Hlen. lia.
Qed.

(** ** The set of units a map holds *)

Lemma holds_nil x : holds [] x <-> False.
Proof. split; [|done]. intros (e & He & _). by apply elem_of_nil in He. Qed.

Lemma holds_cons e l x : holds (e :: l) x <-> m_addr e <= x < end_of e \/ holds l x.
Proof.
  unfold holds. split.
  - intros (f & Hf & ?). apply elem_of_cons in Hf as [->|]; eauto.
  - intros [?|(f & ? & ?)]; [exists e|exists f]; (split; [by constructor|done]).
Qed.

Lemma holds_above lo l x : ascending lo l -> holds l x -> lo < x.
Proof.
  revert lo. induction l as [|e l IH]; intros lo; [by rewrite holds_nil|].
  simpl. rewrite holds_cons. unfold end_of. intros (? & ? & Ha) [?|Hh]; [lia|].
  pose proof (IH _ Ha Hh). unfold end_of in *. lia.
Qed.

(** A new list holds [l] less, or plus, the run of [size] units from [a]. *)
Definition minus l' l size a : Prop :=
  forall x, holds l' x <-> holds l x /\ ~ (a <= x < a + size).
Definition plus l' l size a : Prop :=
  forall x, holds l' x <-> holds l x \/ a <= x < a + size.
Definition contains l size a : Prop := forall x, a <= x < a + size -> holds l x.
Definition disjoint l size a : Prop := forall x, a <= x < a + size -> ~ holds l x.

Lemma fit_spec lo l size a l' :
  ascending lo l -> 0 < size -> fit l size = Some (a, l') ->
  ascending lo l' /\ lo < a /\ contains l size a /\ minus l' l size a.
Proof.
  revert lo l'. induction l as [|e l IH]; intros lo l' Hl Hs; simpl; [done|].
  destruct Hl as (? & ? & Hl). pose proof (fun x => holds_above _ _ x Hl) as Habove.
  destruct (Z.leb_spec size (m_size e)).
  - intros [= <- <-]. unfold minus, contains. setoid_rewrite holds_cons. unfold end_of in *.
    destruct (Z.eqb_spec (m_size e) size).
    + split; [by eapply ascending_weaken, Hl; lia|]. split; [lia|].
      split; intros x; [lia|]. specialize (Habove x). split; [|intuition lia].
      intros Hh. specialize (Habove Hh). split; [by right|lia].
    + split; [simpl; repeat split; try lia; eapply ascending_weaken, Hl; unfold end_of; simpl; lia|].
      split; [lia|]. split; intros x; [lia|]. rewrite holds_cons. unfold end_of. simpl.
      specialize (Habove x). split; [|intuition lia].
      intros [?|Hh]; [lia|]. specialize (Habove Hh). split; [by right|lia].
  - destruct (fit l size) as [[a' l'']|] eqn:Hfit; simpl; [|done]. intros [= <- <-].
    destruct (IH _ _ Hl Hs eq_refl) as (Hasc & Ha & Hc & Hm). unfold end_of in *.
    split; [done|]. split; [lia|]. split; intros x; rewrite !holds_cons; unfold end_of.
    + intros Hx. right. by apply Hc.
    + rewrite (Hm x). intuition lia.
Qed.

Lemma fit_first l size a l' :
  fit l size = Some (a, l') -> exists l1 e l2, l = l1 ++ e :: l2 /\ m_addr e = a /\
    size <= m_size e /\ Forall (fun e => m_size e < size) l1.
Proof.
  revert l'. induction l as [|e l IH]; intros l'; simpl; [done|].
  destruct (Z.leb_spec size (m_size e)).
  - intros [= <- <-]. by exists [], e, l.
  - destruct (fit l size) as [[a' l'']|]; simpl; [|done]. intros [= <- <-].
    destruct (IH _ eq_refl) as (l1 & f & l2 & -> & ? & ? & ?). exists (e :: l1), f, l2.
    repeat split; try done. by constructor.
Qed.

Lemma fit_none l size : fit l size = None -> Forall (fun e => m_size e < size) l.
Proof.
  induction l as [|e l IH]; simpl; [constructor|]. destruct (Z.leb_spec size (m_size e)); [done|].
  destruct (fit l size) as [[? ?]|]; simpl; [done|]. intros _. constructor; auto.
Qed.

Lemma fit_length l size a l' :
  fit l size = Some (a, l') -> length l' = length l \/ S (length l') = length l.
Proof.
  revert l'. induction l as [|e l IH]; intros l'; simpl; [done|].
  destruct (size <=? m_size e).
  - intros [= <- <-]. destruct (m_size e =? size); simpl; lia.
  - destruct (fit l size) as [[? ?]|]; simpl; [|done]. intros [= <- <-].
    destruct (IH _ eq_refl); simpl; lia.
Qed.

Lemma give_spec lo l size a :
  ascending lo l -> lo < a -> 0 < size -> disjoint l size a ->
  ascending lo (give l size a) /\ plus (give l size a) l size a.
Proof.
  unfold plus. revert lo. induction l as [|e l IH]; intros lo Hl Ha Hs Hd; simpl.
  { split; [done|]. intros x. rewrite holds_cons, holds_nil. unfold end_of. simpl. lia. }
  destruct Hl as (? & ? & Hl). pose proof (fun x => holds_above _ _ x Hl) as Habove.
  pose proof (Hd a) as Hda. rewrite holds_cons in Hda.
  pose proof (Hd (m_addr e)) as Hde. rewrite holds_cons in Hde. unfold end_of in *.
  assert (Hd' : disjoint l size a).
  { intros x Hx Hh. apply (Hd x Hx). rewrite holds_cons. by right. }
  destruct (Z.leb_spec (m_addr e) a).
  - destruct (Z.eqb_spec (m_addr e + m_size e) a) as [Heq|].
    + destruct l as [|e' l].
      * split; [simpl; repeat split; try lia|]. intros x. rewrite !holds_cons, holds_nil.
        unfold end_of; simpl. lia.
      * destruct Hl as (? & ? & Hl). pose proof (Hd' (m_addr e')) as Hd2. rewrite holds_cons in Hd2.
        unfold end_of in *.
        destruct (Z.eqb_spec (a + size) (m_addr e')).
        -- split; [simpl; repeat split; try lia; eapply ascending_weaken, Hl; unfold end_of; simpl; lia|].
           intros x. rewrite !holds_cons. unfold end_of; simpl. intuition lia.
        -- split; [simpl; repeat split; unfold end_of; simpl; try lia; done|].
           intros x. rewrite !holds_cons. unfold end_of; simpl. intuition lia.
    + destruct (IH (m_addr e + m_size e)) as [IH1 IH2]; [done|lia|done|done|].
      split; [done|]. intros x. rewrite !holds_cons, IH2. tauto.
  - destruct (Z.eqb_spec (a + size) (m_addr e)).
    + split; [simpl; repeat split; try lia; eapply ascending_weaken, Hl; unfold end_of; simpl; lia|].
      intros x. rewrite !holds_cons. unfold end_of; simpl. intuition lia.
    + split; [simpl; repeat split; unfold end_of; simpl; try lia; done|].
      intros x. rewrite !holds_cons. unfold end_of; simpl. intuition lia.
Qed.

Lemma give_length l size a : (length (give l size a) <= length l + 1)%nat.
Proof.
  induction l as [|e l IH]; simpl; [lia|]. repeat case_match; simpl in *; lia.
Qed.

(** An ascending list is determined by the units it holds. *)
Lemma ascending_head_le lo e l lo' e' l' :
  ascending lo (e :: l) -> ascending lo' (e' :: l') ->
  (forall x, holds (e :: l) x <-> holds (e' :: l') x) ->
  m_addr e' <= m_addr e /\ (m_addr e' = m_addr e -> end_of e' <= end_of e).
Proof.
  intros (_ & He & Hl) (_ & He' & Hl') Heq.
  assert (Hhd : forall x, m_addr e' <= x < end_of e' -> m_addr e <= x < end_of e \/ end_of e < x).
  { intros x Hx. assert (holds (e :: l) x) as Hh by (apply Heq, holds_cons; by left).
    apply holds_cons in Hh as [?|Hh]; [by left|right; by eapply holds_above]. }
  split.
  - assert (holds (e' :: l') (m_addr e)) as Hh by (apply Heq, holds_cons; left; unfold end_of; lia).
    apply holds_cons in Hh as [?|Hh]; [lia|].
    pose proof (holds_above _ _ _ Hl' Hh). unfold end_of in *. lia.
  - intros Ha. pose proof (Hhd (end_of e)) as H. unfold end_of in *. lia.
Qed.

Lemma ascending_canonical lo l lo' l' :
  ascending lo l -> ascending lo' l' -> (forall x, holds l x <-> holds l' x) -> l = l'.
Proof.
  assert (Hnil : forall lo e l, ascending lo (e :: l) -> holds (e :: l) (m_addr e)).
  { intros ? e l0 (_ & ? & _). rewrite holds_cons. left. unfold end_of. lia. }
  revert lo lo' l'. induction l as [|e l IH]; intros lo lo' [|e' l'] Hl Hl' Heq.
  - done.
  - apply Hnil, Heq, holds_nil in Hl'. done.
  - apply Hnil, Heq, holds_nil in Hl. done.
  - destruct (ascending_head_le _ _ _ _ _ _ Hl Hl' Heq) as [H1 H2].
    destruct (ascending_head_le _ _ _ _ _ _ Hl' Hl ltac:(intros; by rewrite Heq)) as [H3 H4].
    destruct Hl as (_ & _ & Hl), Hl' as (_ & _ & Hl').
    assert (e = e') as <- by (destruct e, e'; unfold end_of in *; simpl in *; f_equal; lia).
    f_equal. eapply IH; [done..|]. intros x. specialize (Heq x). rewrite !holds_cons in Heq.
    pose proof (holds_above _ _ x Hl). pose proof (holds_above _ _ x Hl').
    unfold end_of in *. intuition lia.
Qed.

(** *** [malloc] on the array is [fit] on the list *)

Lemma malloc_nofit mp l size :
  wf_map mp l -> fit l size = None -> malloc mp size = Some (0, mp).
Proof.
  intros [(tail & -> & Htl & Hz) Hasc] Hfit. destruct tail as [|t rest]; [done|].
  apply Forall_cons_iff in Hz as [Ht _]. unfold malloc.
  rewrite (malloc_scan_spec _ [] l t rest size); [by rewrite Hfit | | done | ].
  - by eapply ascending_nonzero.
  - rewrite length_app. simpl. lia.
Qed.

Lemma malloc_fit mp l size a l' :
  wf_map mp l -> 0 < size -> fit l size = Some (a, l') ->
  exists mp', malloc mp size = Some (a, mp') /\ wf_map mp' l' /\ length mp' = length mp.
Proof.
  intros [(tail & -> & Htl & Hz) Hasc] Hs Hfit. destruct tail as [|t rest]; [done|].
  apply Forall_cons_iff in Hz as [Ht Hrest]. unfold malloc.
  rewrite (malloc_scan_spec _ [] l t rest size); [rewrite Hfit | | done | ].
  - destruct (fit_spec _ _ _ _ _ Hasc Hs Hfit) as (Hasc' & _).
    eexists. split; [reflexivity|]. split.
    + split; [|done]. eexists. split; [reflexivity|]. split; [done|].
      case_match; repeat constructor; done.
    + apply fit_length in Hfit. simpl. rewrite !length_app. case_bool_decide; simpl; lia.
  - by eapply ascending_nonzero.
  - rewrite length_app. simpl. lia.
Qed.

(** Without a terminator the scan runs off the array. *)
Lemma malloc_scan_off fuel mp bp size :
  Forall (fun e => m_size e <> 0 /\ m_size e < size) mp -> malloc_scan fuel mp bp size = None.
Proof.
  intros Hmp. revert bp. induction fuel as [|fuel IH]; intros bp; simpl; [done|].
  destruct (mp !! bp) as [e|] eqn:He; simpl; [|done].
  apply (Forall_lookup_1 _ _ _ _ Hmp) in He as [? ?]. bool_cases; done || lia.
Qed.

(** ** Theorems *)

(** C27. On a well-formed map [malloc] always terminates inside the array.  It
    returns 0 and leaves the map alone exactly when no entry is large enough;
    otherwise it returns the address of the {e first} entry that is, every unit
    of the run it returns was in the map, and the map that is left is
    well-formed and holds exactly the other units. *)
Theorem malloc_correct mp l size :
  wf_map mp l -> 0 < size ->
  (malloc mp size = Some (0, mp) /\ Forall (fun e => m_size e < size) l) \/
  exists a mp' l', malloc mp size = Some (a, mp') /\ 0 < a /\
    (exists l1 e l2, l = l1 ++ e :: l2 /\ m_addr e = a /\ size <= m_size e /\
                     Forall (fun e => m_size e < size) l1) /\
    contains l size a /\ wf_map mp' l' /\ length mp' = length mp /\ minus l' l size a.
Proof.
  intros Hwf Hs. pose proof (wf_asc _ _ Hwf) as Hasc.
  destruct (fit l size) as [[a l']|] eqn:Hfit.
  - right. destruct (malloc_fit _ _ _ _ _ Hwf Hs Hfit) as (mp' & ? & ? & ?).
    destruct (fit_spec _ _ _ _ _ Hasc Hs Hfit) as (_ & ? & ? & ?).
    exists a, mp', l'. eauto 10 using fit_first.
  - left. eauto using malloc_nofit, fit_none.
Qed.

(** A small map used by the witnesses: 10 units at 100 and 5 at 200, in an
    array of five entries. *)
Definition sample : list map := [Map 10 100; Map 5 200; Map 0 0; Map 0 0; Map 0 0].
Definition sample_list : list map := [Map 10 100; Map 5 200].

Lemma sample_wf : wf_map sample sample_list.
Proof.
  split.
  - exists [Map 0 0; Map 0 0; Map 0 0]. split; [done|]. split; [done|]. repeat constructor.
  - vm_compute. intuition congruence.
Defined.

Lemma malloc_correct_witness :
  (malloc sample 5 = Some (0, sample) /\ Forall (fun e => m_size e < 5) sample_list) \/
  exists a mp' l', malloc sample 5 = Some (a, mp') /\ 0 < a /\
    (exists l1 e l2, sample_list = l1 ++ e :: l2 /\ m_addr e = a /\ 5 <= m_size e /\
                     Forall (fun e => m_size e < 5) l1) /\
    contains sample_list 5 a /\ wf_map mp' l' /\ length mp' = length sample /\
    minus l' sample_list 5 a.
Proof. exact (malloc_correct sample sample_list 5 sample_wf ltac:(lia)). Defined.

(** C28. Freeing a run that the map does not hold, into an array with room for
    it, never leaves the array: the map is well-formed again and holds exactly
    one run more, merged with its neighbours (the result is the only ascending
    list that holds those units).  Freeing core clears [runin] and wakes the
    scheduler exactly when the scheduler was waiting. *)
Theorem mfree_correct is_coremap runin mp l size a :
  wf_map mp l -> 0 < size -> 0 < a -> disjoint l size a ->
  (length l + 1 < length mp)%nat ->
  exists mp' l', mfree is_coremap runin mp size a =
      Some (Mfreed mp' (if is_coremap then 0 else runin) (is_coremap && negb (runin =? 0))) /\
    wf_map mp' l' /\ length mp' = length mp /\ plus l' l size a /\
    forall l'', ascending 0 l'' -> plus l'' l size a -> l'' = l'.
Proof.
  intros Hwf Hs Ha Hd Hroom. pose proof (wf_asc _ _ Hwf) as Hasc.
  destruct (give_spec 0 l size a Hasc Ha Hs Hd) as [Hasc' Hplus].
  destruct (mfree_map_spec mp l size a Hwf Hs) as (tail & Heq & Hlen & Htl & Hz).
  { pose proof (give_length l size a). lia. }
  exists (give l size a ++ tail), (give l size a). split.
  { unfold mfree. rewrite Heq. simpl. do 2 f_equal.
    destruct is_coremap; simpl; [|done]. by destruct (Z.eqb_spec runin 0); subst. }
  split; [split; [by exists tail|done]|]. split; [done|]. split; [done|].
  intros l'' Hasc'' Hplus''. eapply ascending_canonical; [done..|].
  intros x. by rewrite (Hplus'' x), (Hplus x).
Qed.

Lemma mfree_correct_witness :
  exists mp' l', mfree true 1 sample 90 110 = Some (Mfreed mp' 0 true) /\
    wf_map mp' l' /\ length mp' = length sample /\ plus l' sample_list 90 110 /\
    forall l'', ascending 0 l'' -> plus l'' sample_list 90 110 -> l'' = l'.
Proof.
  apply (mfree_correct true 1 sample sample_list 90 110 sample_wf); [lia | lia | | simpl; lia].
  intros x Hx. unfold sample_list. rewrite !holds_cons, holds_nil. unfold end_of. simpl. lia.
Defined.

(** Allocating a run and freeing it again gives back the identical list of
    entries, whatever the first allocation split or removed. *)
Lemma malloc_mfree_roundtrip is_coremap runin mp l size a mp' :
  wf_map mp l -> 0 < size -> malloc mp size = Some (a, mp') -> a <> 0 ->
  exists mp'', option_map mf_map (mfree is_coremap runin mp' size a) = Some mp'' /\ wf_map mp'' l.
Proof.
  intros Hwf Hs Hmal Ha0. pose proof (wf_asc _ _ Hwf) as Hasc.
  destruct (fit l size) as [[a1 l']|] eqn:Hfit.
  2: { rewrite (malloc_nofit _ _ _ Hwf Hfit) in Hmal. by simplify_eq. }
  destruct (malloc_fit _ _ _ _ _ Hwf Hs Hfit) as (mp1 & Hmal1 & Hwf' & Hlen).
  rewrite Hmal1 in Hmal. simplify_eq.
  destruct (fit_spec _ _ _ _ _ Hasc Hs Hfit) as (_ & Ha & Hc & Hm).
  assert (Hd : disjoint l' size a) by (intros x Hx Hh; apply Hm in Hh; tauto).
  destruct (give_spec 0 l' size a (wf_asc _ _ Hwf') Ha Hs Hd) as [Hasc' Hplus].
  assert (Hl : give l' size a = l).
  { eapply ascending_canonical; [done..|]. intros x. rewrite (Hplus x), (Hm x).
    specialize (Hc x). destruct (Z_le_gt_dec a x), (Z_lt_ge_dec x (a + size)); intuition lia. }
  destruct (mfree_map_spec mp' l' size a Hwf' Hs) as (tail & Heq & _ & Htl & Hz).
  { rewrite Hl, Hlen. destruct Hwf as [(t0 & -> & ? & _) _]. rewrite length_app.
    destruct t0; [done|simpl; lia]. }
  rewrite Hl in Heq. exists (l ++ tail). unfold mfree. rewrite Heq. split; [done|].
  split; [by exists tail|done].
Qed.

Lemma malloc_mfree_roundtrip_witness :
  exists mp'', option_map mf_map
      (mfree true 0 [Map 5 200; Map 0 0; Map 0 0; Map 0 0; Map 0 0] 10 100) = Some mp'' /\
    wf_map mp'' sample_list.
Proof.
  apply (malloc_mfree_roundtrip true 0 sample sample_list 10 100
    [Map 5 200; Map 0 0; Map 0 0; Map 0 0; Map 0 0] sample_wf); [lia | reflexivity | lia].
Defined.

(** C32. What a full table does.  When all but one of the array's entries are in
    use, freeing a run with no neighbour to merge with overwrites the last
    terminator: no entry of size 0 is left, and the next [malloc] that finds no
    run large enough walks off the end of the array. *)
Theorem mfree_overflow is_coremap runin mp l size a big :
  wf_map mp l -> 0 < size -> 0 < a -> disjoint l size a ->
  length mp = S (length l) -> length (give l size a) = S (length l) ->
  Forall (fun e => m_size e < big) (give l size a) ->
  exists r, mfree is_coremap runin mp size a = Some r /\
    mf_map r = give l size a /\ malloc (mf_map r) big = None.
Proof.
  intros Hwf Hs Ha Hd Hfull Hgrow Hbig.
  destruct (give_spec 0 l size a (wf_asc _ _ Hwf) Ha Hs Hd) as [Hasc _].
  destruct (mfree_give mp l size a Hwf Hs) as (tail & Heq & _).
  pose proof (mfree_map_length _ _ _ _ Heq) as Hlen. rewrite length_app in Hlen.
  destruct tail; [|simpl in Hlen; lia]. rewrite app_nil_r in Heq.
  unfold mfree. rewrite Heq. eexists. split; [reflexivity|]. split; [done|].
  apply malloc_scan_off, Forall_and; by eauto using ascending_nonzero.
Qed.

(** Two entries in an array of three, and a third run between them. *)
Lemma mfree_overflow_witness :
  exists r, mfree true 0 [Map 10 100; Map 5 200; Map 0 0] 7 150 = Some r /\
    mf_map r = [Map 10 100; Map 7 150; Map 5 200] /\ malloc (mf_map r) 11 = None.
Proof.
  apply (mfree_overflow true 0 [Map 10 100; Map 5 200; Map 0 0] sample_list 7 150 11);
    try reflexivity; try lia.
  - split; [|vm_compute; intuition congruence].
    exists [Map 0 0]. split; [done|]. split; [done|]. repeat constructor.
  - intros x Hx. unfold sample_list. rewrite !holds_cons, holds_nil. unfold end_of. simpl. lia.
  - repeat constructor; simpl; lia.
Defined.
