(* ===== verification/Clist.v ===== *)
(** * Character lists: [kernel/prim.c]

    Every terminal keeps its typed and printing characters in clists: chains of
    blocks of [CBSIZE] characters drawn from the one pool [cfree[NCLIST]].  A
    block pointer is the block's index in [cfree], NULL is [None].  The
    operations pass the pool and the clist they are given explicitly; touching
    a block through NULL or outside the pool makes the operation [None].
    [spl6]/[splx] only hold interrupts off and have no counterpart here. *)

From S2P Require Import Prelude.

Definition CBSIZE : Z := 30.

(** ** Data *)

Record cblock := Cblock { c_next : option nat; c_info : list Z }.

(** The pool and the head of its free list. *)
Record pool := Pool { cfree : list cblock; cfreelist : option nat }.

Record clist := Clist {
  c_cc : Z;            (* character count *)
  c_hd : option nat;   (* block holding the next char out *)
  c_tl : option nat;   (* block holding the next free slot *)
  c_hix : Z;           (* index in c_hd of the next char out *)
  c_tix : Z;           (* index in c_tl of the next free slot *)
}.

Implicit Types (cf : list cblock) (b : nat) (bs fs : list nat) (q : clist) (pl : pool).

(** ** Operations *)

(** [p->c_next = n], the block's characters kept. *)
Definition set_next cf b (n : option nat) : option (list cblock) :=
  k ← cf !! b; Some (<[b := Cblock n (c_info k)]> cf).

(** Lines 73-74 and 80-81: put a block back on the free list. *)
Definition cb_release pl b : option pool :=
  cf ← set_next (cfree pl) b (cfreelist pl); Some (Pool cf (Some b)).

Definition getc pl q : option (Z * pool * clist) :=
  if c_cc q <=? 0 then
    Some (-1, pl, Clist 0 None None (c_hix q) (c_tix q))
  else
    bp ← c_hd q;
    k ← cfree pl !! bp;
    ch ← c_info k !! Z.to_nat (c_hix q);
    let c := Z.land ch 255 in
    let hix := c_hix q + 1 in
    let cc := c_cc q - 1 in
    if cc =? 0 then
      pl ← cb_release pl bp;
      Some (c, pl, Clist cc None None hix (c_tix q))
    else if hix =? CBSIZE then
      pl ← cb_release pl bp;
      Some (c, pl, Clist cc (c_next k) (c_tl q) 0 (c_tix q))
    else Some (c, pl, Clist cc (c_hd q) (c_tl q) hix (c_tix q)).

(** Lines 96-110: take a block off the free list and hang it on the tail.
    [None] inside is the exhausted pool. *)
Definition cb_grow pl q : option (option (pool * clist)) :=
  match cfreelist pl with
  | None => Some None
  | Some bp =>
      k ← cfree pl !! bp;
      cf ← set_next (cfree pl) bp None;
      match c_tl q with
      | None => Some (Some (Pool cf (c_next k), Clist 0 (Some bp) (Some bp) 0 0))
      | Some tl =>
          cf ← set_next cf tl (Some bp);
          Some (Some (Pool cf (c_next k), Clist (c_cc q) (c_hd q) (Some bp) (c_hix q) 0))
      end
  end.

(** Line 112: a [char] keeps the low eight bits of what is stored in it. *)
Definition cb_store pl q (c : Z) : option (Z * pool * clist) :=
  bp ← c_tl q;
  k ← cfree pl !! bp;
  _ ← c_info k !! Z.to_nat (c_tix q);
  let info := <[Z.to_nat (c_tix q) := Z.land c 255]> (c_info k) in
  Some (0, Pool (<[bp := Cblock (c_next k) info]> (cfree pl)) (cfreelist pl),
        Clist (c_cc q + 1) (c_hd q) (c_tl q) (c_hix q) (c_tix q + 1)).

Definition putc (c : Z) pl q : option (Z * pool * clist) :=
  if bool_decide (c_tl q = None) || (c_tix q =? CBSIZE) then
    r ← cb_grow pl q;
    match r with
    | None => Some (-1, pl, q)
    | Some (pl, q) => cb_store pl q c
    end
  else cb_store pl q c.

(** [q_to_b]: the characters moved, in order, stand for the buffer [cp]. *)
Fixpoint q_to_b (cc : nat) pl q : option (list Z * pool * clist) :=
  match cc with
  | O => Some ([], pl, q)
  | S cc =>
      '(c, pl, q) ← getc pl q;
      if c <? 0 then Some ([], pl, q)
      else '(cs, pl, q) ← q_to_b cc pl q; Some (c :: cs, pl, q)
  end.

(** [b_to_q] of the characters [cp]; the result is the number not transferred. *)
Fixpoint b_to_q (cp : list Z) pl q : option (Z * pool * clist) :=
  match cp with
  | [] => Some (0, pl, q)
  | c :: cp' =>
      '(r, pl, q) ← putc c pl q;
      if r <? 0 then Some (Z.of_nat (length cp), pl, q) else b_to_q cp' pl q
  end.

(** The loop of [cinit], lines 153-156, over the blocks of the pool. *)
Fixpoint cinit_loop (n : nat) (cp : nat) pl : option pool :=
  match n with
  | O => Some pl
  | S n => pl ← cb_release pl cp; cinit_loop n (S cp) pl
  end.

(** Lines 157-160: the character devices up to the first empty [cdevsw] row;
    [cdevsw] is given by whether each row's [d_open] is set. *)
Fixpoint count_chrdev (cdevsw : list bool) : Z :=
  match cdevsw with
  | true :: rest => 1 + count_chrdev rest
  | _ => 0
  end.

Definition cinit pl (cdevsw : list bool) : option (pool * Z) :=
  pl ← cinit_loop (length (cfree pl)) 0 pl;
  Some (pl, count_chrdev cdevsw).

(** ** What a clist stands for *)

Definition info cf b : list Z := from_option c_info [] (cf !! b).

(** The blocks [bs], in order, are the NULL-terminated chain that starts at [p]. *)
Fixpoint chain cf (p : option nat) bs : Prop :=
  match bs with
  | [] => p = None
  | b :: bs =>
      p = Some b /\
      exists k, cf !! b = Some k /\ length (c_info k) = Z.to_nat CBSIZE /\ chain cf (c_next k) bs
  end.

Definition flat cf bs : list Z := mjoin (info cf <$> bs).

(** [q], occupying the blocks [bs], holds the characters [cs]. *)
Record holds cf q bs (cs : list Z) : Prop := {
  h_chain : chain cf (c_hd q) bs;
  h_last : c_tl q = last bs;
  h_cc : c_cc q = Z.of_nat (length cs);
  h_empty : cs = [] -> bs = [];
  h_ix : bs <> [] ->
    0 <= c_hix q < CBSIZE /\ 0 < c_tix q <= CBSIZE /\
    c_hix q + Z.of_nat (length cs) = CBSIZE * (Z.of_nat (length bs) - 1) + c_tix q;
  h_chars : cs = take (length cs) (drop (Z.to_nat (c_hix q)) (flat cf bs));
  h_bytes : Forall (fun c => 0 <= c < 256) cs;
}.

(** The clist [q] with the rest of the pool free: [q] holds [cs] in the blocks
    [bs], the free list is [fs], and no block is in both or twice in one. *)
Record inv pl q bs fs (cs : list Z) : Prop := {
  inv_holds : holds (cfree pl) q bs cs;
  inv_free : chain (cfree pl) (cfreelist pl) fs;
  inv_nodup : NoDup (bs ++ fs);
}.

(** Blocks outside the set [xs] are untouched, so every other clist is. *)
Definition agree_off (xs : list nat) cf cf' : Prop := forall b, b ∉ xs -> cf' !! b = cf !! b.

(** ** Chains *)

Lemma cblocks_in cf p bs b : chain cf p bs -> b ∈ bs ->
  exists k, cf !! b = Some k /\ length (c_info k) = Z.to_nat CBSIZE.
Proof.
  revert p. induction bs as [|b0 bs IH]; intros p; simpl; [by intros _ ?%elem_of_nil|].
  intros (_ & k & ? & ? & Hc) [->|?]%elem_of_cons; eauto.
Qed.

Lemma chain_agree cf cf' p bs :
  (forall b, b ∈ bs -> cf' !! b = cf !! b) -> chain cf p bs -> chain cf' p bs.
Proof.
  revert p. induction bs as [|b bs IH]; intros p Hag; simpl; [done|].
  intros (-> & k & Hk & ? & ?). split; [done|]. exists k.
  rewrite Hag by constructor. repeat split; [done..|]. apply IH; [|done].
  intros; apply Hag; by constructor.
Qed.

Lemma flat_agree cf cf' bs :
  (forall b, b ∈ bs -> info cf' b = info cf b) -> flat cf' bs = flat cf bs.
Proof.
  intros Hag. unfold flat. f_equal. apply list_fmap_ext. intros i b Hb.
  apply Hag. eapply list_elem_of_lookup_2; eauto.
Qed.

Lemma flat_cons cf b bs : flat cf (b :: bs) = info cf b ++ flat cf bs.
Proof. done. Qed.

Lemma flat_app cf bs1 bs2 : flat cf (bs1 ++ bs2) = flat cf bs1 ++ flat cf bs2.
Proof. unfold flat. by rewrite fmap_app, join_app. Qed.

Lemma flat_length cf p bs bs' :
  chain cf p (bs ++ bs') -> length (flat cf bs) = (30 * length bs)%nat.
Proof.
  revert p. induction bs as [|b bs IH]; intros p; [done|]. intros (_ & k & Hk & Hlen & Hc).
  rewrite flat_cons, length_app, (IH _ Hc). unfold info. rewrite Hk.
  cbn [from_option length]. rewrite Hlen. unfold CBSIZE. lia.
Qed.

(** Overwriting a block's characters keeps every chain through it. *)
Lemma chain_set_info cf p bs b k i :
  cf !! b = Some k -> length i = Z.to_nat CBSIZE ->
  chain cf p bs -> chain (<[b := Cblock (c_next k) i]> cf) p bs.
Proof.
  intros Hb Hi. revert p. induction bs as [|b' bs IH]; intros p; simpl; [done|].
  intros (-> & k' & Hk' & Hlen & Hc). split; [done|]. destruct (decide (b = b')) as [->|Hne].
  - exists (Cblock (c_next k) i). rewrite list_lookup_insert_eq by by eapply lookup_lt_Some.
    simplify_eq. eauto.
  - exists k'. rewrite list_lookup_insert_ne by done. eauto.
Qed.

(** Relinking the last block of a chain. *)
Lemma chain_snoc cf p bs t b k :
  chain cf p (bs ++ [t]) -> cf !! t = Some k -> t ∉ bs -> t <> b ->
  chain (<[t := Cblock (Some b) (c_info k)]> cf) (Some b) [b] ->
  chain (<[t := Cblock (Some b) (c_info k)]> cf) p (bs ++ [t] ++ [b]).
Proof.
  intros Hc Ht Hnt Hb Hbc. revert p Hc. induction bs as [|b' bs IH]; intros p; simpl.
  - intros (-> & k' & Hk' & Hlen & _). simplify_eq. split; [done|].
    exists (Cblock (Some b) (c_info k)). rewrite list_lookup_insert_eq by by eapply lookup_lt_Some.
    done.
  - intros (-> & k' & Hk' & Hlen & Hc). apply not_elem_of_cons in Hnt as [? ?]. split; [done|].
    exists k'. rewrite list_lookup_insert_ne by done. eauto.
Qed.

Lemma chain_tail_next cf p bs t k :
  chain cf p (bs ++ [t]) -> cf !! t = Some k -> c_next k = None /\ length (c_info k) = Z.to_nat CBSIZE.
Proof.
  revert p. induction bs as [|b bs IH]; intros p; simpl.
  - intros (_ & k' & ? & ? & ?) ?. by simplify_eq.
  - intros (_ & k' & ? & ? & ?) ?. eauto.
Qed.

(** Storing one character in the last block of the chain. *)
Lemma flat_store cf bs t k n c :
  cf !! t = Some k -> t ∉ bs -> (n < length (c_info k))%nat ->
  flat (<[t := Cblock (c_next k) (<[n := c]> (c_info k))]> cf) (bs ++ [t]) =
    <[(length (flat cf bs) + n)%nat := c]> (flat cf (bs ++ [t])).
Proof.
  intros Ht Hnt Hn. rewrite !flat_app, insert_app_r. f_equal.
  - apply flat_agree. intros b Hb. unfold info. rewrite list_lookup_insert_ne; congruence.
  - unfold flat, info. simpl. rewrite !app_nil_r, Ht.
    by rewrite list_lookup_insert_eq by by eapply lookup_lt_Some.
Qed.

Lemma take_drop_snoc (l : list Z) h n c :
  (h + n < length l)%nat ->
  take (S n) (drop h (<[(h + n)%nat := c]> l)) = take n (drop h l) ++ [c].
Proof.
  intros Hl. replace (h + n)%nat with (n + h)%nat in * by lia.
  rewrite drop_insert_ge by lia. replace (n + h - h)%nat with n by lia.
  rewrite (take_S_r _ _ c).
  - by rewrite take_insert_ge by lia.
  - apply list_lookup_insert_eq. rewrite length_drop. lia.
Qed.

Lemma take_drop_app (l1 l2 : list Z) h n :
  (h + n <= length l1)%nat -> take n (drop h (l1 ++ l2)) = take n (drop h l1).
Proof.
  intros. rewrite drop_app_le by lia. apply take_app_le. rewrite length_drop. lia.
Qed.

(** Relinking a block leaves every block's characters alone. *)
Lemma info_set_next cf b k n x :
  cf !! b = Some k -> info (<[b := Cblock n (c_info k)]> cf) x = info cf x.
Proof.
  intros Hb. unfold info. destruct (decide (b = x)) as [->|].
  - by rewrite list_lookup_insert_eq, Hb by by eapply lookup_lt_Some.
  - by rewrite list_lookup_insert_ne.
Qed.

(** ** Storing: the state between finding room and line 112 *)

Record room cf q bs t (cs : list Z) : Prop := {
  r_chain : chain cf (c_hd q) (bs ++ [t]);
  r_last : c_tl q = Some t;
  r_fresh : t ∉ bs;
  r_cc : c_cc q = Z.of_nat (length cs);
  r_ix : 0 <= c_hix q < CBSIZE /\ 0 <= c_tix q < CBSIZE /\
         c_hix q + Z.of_nat (length cs) = CBSIZE * Z.of_nat (length bs) + c_tix q;
  r_chars : cs = take (length cs) (drop (Z.to_nat (c_hix q)) (flat cf (bs ++ [t])));
  r_bytes : Forall (fun c => 0 <= c < 256) cs;
}.

Lemma land_byte c : 0 <= Z.land c 255 < 256.
Proof. change 255 with (Z.ones 8). rewrite Z.land_ones by lia. apply Z.mod_pos_bound. lia. Qed.

Lemma cb_store_room cf fl q bs t cs c :
  room cf q bs t cs ->
  exists cf' q', cb_store (Pool cf fl) q c = Some (0, Pool cf' fl, q') /\
    holds cf' q' (bs ++ [t]) (cs ++ [Z.land c 255]) /\ agree_off [t] cf cf' /\
    (forall p xs, chain cf p xs -> chain cf' p xs).
Proof.
  intros [Hc Htl Hnt Hcc (Hh & Ht & Hpos) Hch Hby]. unfold CBSIZE in *.
  destruct (cblocks_in _ _ _ t Hc ltac:(set_solver)) as (k & Hk & Hlen).
  destruct (lookup_lt_is_Some_2 (c_info k) (Z.to_nat (c_tix q))) as [old Hold];
    [rewrite Hlen; unfold CBSIZE; lia|].
  unfold cb_store. simpl. rewrite Htl. simpl. rewrite Hk. simpl. rewrite Hold. simpl.
  set (info' := <[Z.to_nat (c_tix q) := Z.land c 255]> (c_info k)).
  assert (Hlen' : length info' = Z.to_nat CBSIZE) by (unfold info'; by rewrite length_insert).
  do 2 eexists. split; [reflexivity|]. split; [|split].
  2: { intros b Hb. apply list_lookup_insert_ne. set_solver. }
  2: { intros p xs. by apply chain_set_info. }
  pose proof (flat_length cf (c_hd q) (bs ++ [t]) []) as Hfl.
  rewrite app_nil_r, length_app in Hfl. specialize (Hfl Hc). simpl in Hfl.
  split; simpl.
  - by apply chain_set_info.
  - by rewrite last_snoc.
  - rewrite length_app. simpl. lia.
  - by destruct cs.
  - intros _. rewrite !length_app. simpl. unfold CBSIZE. lia.
  - unfold info'. rewrite length_app, Nat.add_1_r.
    rewrite flat_store by (done || rewrite Hlen; unfold CBSIZE; lia).
    assert (length (flat cf bs) + Z.to_nat (c_tix q) = Z.to_nat (c_hix q) + length cs)%nat as ->.
    { rewrite (flat_length _ _ _ _ Hc). lia. }
    rewrite take_drop_snoc by lia. by rewrite <- Hch.
  - apply Forall_app. split; [done|]. repeat constructor; apply land_byte.
Qed.

(** A clist whose last block has a free slot is ready to store. *)
Lemma holds_room cf q bs cs :
  holds cf q bs cs -> NoDup bs -> c_tl q <> None -> c_tix q <> CBSIZE ->
  exists bs' t, bs = bs' ++ [t] /\ room cf q bs' t cs.
Proof.
  intros [Hc Hl Hcc He Hix Hch Hby] Hnd Htl Htix. rewrite Hl in Htl.
  destruct (last bs) as [t|] eqn:Hlast; [|done]. apply last_Some in Hlast as [bs' ->].
  apply NoDup_app in Hnd as (_ & Hdis & _). exists bs', t. split; [done|].
  destruct (Hix ltac:(by destruct bs')) as (? & ? & Hpos). rewrite length_app in Hpos. simpl in Hpos.
  split; try done.
  - intros Hin. apply (Hdis _ Hin). by apply list_elem_of_singleton.
  - repeat split; try lia.
Qed.

(** Otherwise a block of the free list makes room. *)
Lemma cb_grow_room pl q bs f fs cs :
  inv pl q bs (f :: fs) cs -> (c_tl q = None \/ c_tix q = CBSIZE) ->
  exists cf' q', cb_grow pl q = Some (Some (Pool cf' (head fs), q')) /\
    room cf' q' bs f cs /\ chain cf' (head fs) fs /\ agree_off (bs ++ [f]) (cfree pl) cf'.
Proof.
  destruct pl as [cf fl]. intros [[Hc Hl Hcc He Hix Hch Hby] Hf Hnd] Hfull. simpl in *.
  destruct Hf as (-> & k & Hk & Hklen & Hf).
  assert (Hfbs : f ∉ bs /\ f ∉ fs /\ (forall b, b ∈ bs -> b ∉ fs)).
  { apply NoDup_app in Hnd as (_ & Hdis & Hnd). apply NoDup_cons in Hnd as [? _].
    split; [intros Hin; apply (Hdis _ Hin); by constructor|]. split; [done|].
    intros b Hb Hb'. apply (Hdis _ Hb). by constructor. }
  destruct Hfbs as (Hfb & Hff & Hbf).
  assert (Hnext : c_next k = head fs).
  { destruct fs; simpl in Hf |- *; [done|]. by destruct Hf. }
  set (cf1 := <[f := Cblock None (c_info k)]> cf).
  assert (Hf1 : cf1 !! f = Some (Cblock None (c_info k)))
    by (apply list_lookup_insert_eq; by eapply lookup_lt_Some).
  assert (Hag1 : forall b, b <> f -> cf1 !! b = cf !! b)
    by (intros; by apply list_lookup_insert_ne).
  unfold cb_grow, set_next. simpl. rewrite Hk. simpl. fold cf1. rewrite Hl.
  destruct (last bs) as [t|] eqn:Hlast.
  - apply last_Some in Hlast as [bs' ->].
    assert (Htf : t <> f) by set_solver. destruct (Hix ltac:(by destruct bs')) as (? & ? & Hpos).
    destruct Hfull as [Hfull|Hfull]; [congruence|].
    destruct (cblocks_in _ _ _ t Hc ltac:(set_solver)) as (kt & Hkt & Hktlen).
    rewrite Hag1, Hkt by done. simpl.
    set (cf2 := <[t := Cblock (Some f) (c_info kt)]> cf1).
    assert (Hag2 : forall b, b <> f -> b <> t -> cf2 !! b = cf !! b).
    { intros b ? ?. unfold cf2. by rewrite list_lookup_insert_ne, Hag1. }
    assert (Hc2 : chain cf2 (c_hd q) (bs' ++ [t] ++ [f])).
    { unfold cf2. apply chain_snoc; [|by rewrite Hag1| |done|].
      - eapply chain_agree, Hc. intros b Hb. apply Hag1. set_solver.
      - clear - Hnd. apply NoDup_app in Hnd as (Hnd & _). apply NoDup_app in Hnd as (_ & Hd & _).
        set_solver.
      - simpl. split; [done|]. exists (Cblock None (c_info k)).
        by rewrite list_lookup_insert_ne. }
    rewrite Hnext in Hf |- *. do 2 eexists. split; [reflexivity|]. split; [|split].
    + split; simpl; try done.
      * by rewrite <- app_assoc.
      * rewrite length_app in *. simpl in *. unfold CBSIZE in *. lia.
      * rewrite <- app_assoc, app_assoc, flat_app.
        rewrite (flat_agree cf cf2)
          by (intros; unfold cf2; rewrite info_set_next by (by rewrite Hag1); by apply info_set_next).
        rewrite take_drop_app; [done|]. pose proof (flat_length cf (c_hd q) (bs' ++ [t]) []) as Hfl.
        rewrite app_nil_r in Hfl. rewrite (Hfl Hc). unfold CBSIZE in *. lia.
    + eapply chain_agree, Hf. intros b Hb. apply Hag2; [congruence|]. set_solver.
    + intros b Hb. apply Hag2; set_solver.
  - apply last_None in Hlast as ->. simpl in *.
    assert (cs = []) as ->.
    { rewrite Hch. unfold flat. simpl. by rewrite drop_nil, take_nil. }
    rewrite Hnext in Hf |- *. do 2 eexists. split; [reflexivity|]. split; [|split].
    + split; simpl; try done; try (unfold CBSIZE; lia).
      split; [done|]. by exists (Cblock None (c_info k)).
    + eapply chain_agree, Hf. intros b Hb. apply Hag1. congruence.
    + intros b Hb. apply Hag1. set_solver.
Qed.

(** ** The operations on the queue of characters *)

(** [putc] appends the character (its low eight bits) to the queue, and
    fails, with nothing changed, only when it needs a block and the pool has
    none.  A clist's blocks and the free list still partition the same blocks,
    and blocks of other clists are not touched. *)
Lemma putc_spec c pl q bs fs cs :
  inv pl q bs fs cs ->
  (putc c pl q = Some (-1, pl, q) /\ fs = [] /\ (bs = [] \/ c_tix q = CBSIZE)) \/
  exists pl' q' bs' fs', putc c pl q = Some (0, pl', q') /\
    inv pl' q' bs' fs' (cs ++ [Z.land c 255]) /\
    bs' ++ fs' = bs ++ fs /\ agree_off (bs ++ fs) (cfree pl) (cfree pl').
Proof.
  intros Hinv. pose proof Hinv as [Hh Hf Hnd]. unfold putc.
  destruct (bool_decide (c_tl q = None) || (c_tix q =? CBSIZE)) eqn:Hfull.
  - assert (Hfull' : c_tl q = None \/ c_tix q = CBSIZE).
    { apply orb_true_iff in Hfull as [?%bool_decide_eq_true|?%Z.eqb_eq]; auto. }
    destruct fs as [|f fs].
    + left. unfold cb_grow. rewrite Hf. simpl. split; [done|]. split; [done|].
      destruct Hfull' as [Hn|?]; [left|by right].
      rewrite (h_last _ _ _ _ Hh) in Hn. by apply last_None.
    + right. destruct (cb_grow_room _ _ _ _ _ _ Hinv Hfull') as (cf1 & q1 & -> & Hroom & Hch & Hag).
      simpl. destruct (cb_store_room _ (head fs) _ _ _ _ c Hroom) as (cf2 & q2 & -> & Hh2 & Hag2 & Hchs).
      exists (Pool cf2 (head fs)), q2, (bs ++ [f]), fs. split; [done|].
      split; [split; simpl; [done|by apply Hchs|by rewrite <- app_assoc]|].
      split; [by rewrite <- app_assoc|]. intros b Hb. simpl.
      rewrite (Hag2 b), (Hag b); set_solver.
  - right. apply orb_false_iff in Hfull as [Htl%bool_decide_eq_false Htix%Z.eqb_neq].
    destruct (holds_room _ _ _ _ Hh) as (bs' & t & -> & Hroom); [|done..|].
    { by apply NoDup_app in Hnd as [? _]. }
    destruct pl as [cf fl]. simpl in *.
    destruct (cb_store_room _ fl _ _ _ _ c Hroom) as (cf2 & q2 & -> & Hh2 & Hag2 & Hchs).
    exists (Pool cf2 fl), q2, (bs' ++ [t]), fs. split; [done|].
    split; [split; simpl; [done|by apply Hchs|done]|]. split; [done|].
    intros b Hb. apply Hag2. set_solver.
Qed.

(** Giving a block back: the free list grows by it, the other chains survive. *)
Lemma cb_release_spec cf fl b k fs :
  cf !! b = Some k -> length (c_info k) = Z.to_nat CBSIZE -> chain cf fl fs -> b ∉ fs ->
  exists cf', cb_release (Pool cf fl) b = Some (Pool cf' (Some b)) /\
    chain cf' (Some b) (b :: fs) /\ agree_off [b] cf cf' /\ (forall x, info cf' x = info cf x).
Proof.
  intros Hk Hlen Hch Hb. unfold cb_release, set_next. simpl. rewrite Hk. simpl.
  assert (Hag : forall x, x <> b -> (<[b := Cblock fl (c_info k)]> cf) !! x = cf !! x)
    by (intros; by apply list_lookup_insert_ne).
  eexists. split; [reflexivity|]. split; [|split].
  - simpl. split; [done|]. exists (Cblock fl (c_info k)).
    rewrite list_lookup_insert_eq by by eapply lookup_lt_Some. repeat split; [done|].
    eapply chain_agree, Hch. intros x Hx. apply Hag. congruence.
  - intros x Hx. apply Hag. set_solver.
  - intros x. by apply info_set_next.
Qed.

Lemma clist_nil cf hix tix : holds cf (Clist 0 None None hix tix) [] [].
Proof. split; simpl; done || constructor. Qed.

(** The head of a nonempty clist. *)
Lemma holds_front cf q bs c cs :
  holds cf q bs (c :: cs) ->
  exists b bs' k, bs = b :: bs' /\ c_hd q = Some b /\ cf !! b = Some k /\
    length (c_info k) = Z.to_nat CBSIZE /\ chain cf (c_next k) bs' /\
    c_info k !! Z.to_nat (c_hix q) = Some c /\ Z.land c 255 = c /\
    cs = take (length cs) (drop (S (Z.to_nat (c_hix q))) (flat cf bs)).
Proof.
  intros [Hc Hl Hcc He Hix Hch Hby]. destruct bs as [|b bs'].
  { unfold flat in Hch. simpl in Hch. by rewrite drop_nil in Hch. }
  destruct Hc as (Hhd & k & Hk & Hlen & Hc). exists b, bs', k.
  destruct (Hix ltac:(done)) as ([? ?] & _ & _).
  rewrite flat_cons in *. unfold info in *. rewrite Hk in *. cbn [from_option] in *.
  destruct (lookup_lt_is_Some_2 (c_info k) (Z.to_nat (c_hix q))) as [c0 Hc0];
    [rewrite Hlen; lia|].
  rewrite (drop_S _ c0) in Hch by (rewrite lookup_app_l; [done|rewrite Hlen; lia]).
  simpl in Hch. injection Hch as <- Hch. apply Forall_cons_iff in Hby as [Hb _].
  repeat split; try done. change 255 with (Z.ones 8). rewrite Z.land_ones by lia.
  by apply Z.mod_small.
Qed.

(** [getc] takes the oldest character off the queue, and answers -1 exactly
    when the queue is empty; a block goes back to the pool the moment its last
    character leaves, and no other clist's block is touched. *)
Lemma getc_spec pl q bs fs cs :
  inv pl q bs fs cs ->
  match cs with
  | [] => exists q', getc pl q = Some (-1, pl, q') /\ inv pl q' [] fs []
  | c :: cs' => exists pl' q' bs' fs', getc pl q = Some (c, pl', q') /\
      inv pl' q' bs' fs' cs' /\ bs' ++ fs' ≡ₚ bs ++ fs /\
      agree_off (bs ++ fs) (cfree pl) (cfree pl')
  end.
Proof.
  destruct pl as [cf fl]. intros [Hh Hf Hnd]. simpl in *.
  pose proof Hh as [Hc Hl Hcc He Hix Hch Hby]. destruct cs as [|c cs].
  { rewrite (He eq_refl) in *. unfold getc. rewrite Hcc. simpl.
    eexists. split; [reflexivity|]. split; simpl; [apply clist_nil|done|done]. }
  destruct (holds_front _ _ _ _ _ Hh) as (b & bs' & k & -> & Hhd & Hk & Hlen & Hc' & Hc0 & Hcb & Htl).
  destruct (Hix ltac:(done)) as (? & ? & Hpos). simpl in Hpos.
  assert (Hb : b ∉ bs' /\ b ∉ fs).
  { apply NoDup_cons in Hnd as [Hb _]. set_solver. }
  destruct Hb as [Hbb Hbf].
  assert (Hbs' : forall cf', agree_off [b] cf cf' -> forall x, x ∈ bs' -> cf' !! x = cf !! x).
  { intros cf' Hag x Hx. apply Hag. set_solver. }
  unfold getc. replace (c_cc q - 1) with (Z.of_nat (length cs)) by (simpl in Hcc; lia).
  destruct (Z.leb_spec (c_cc q) 0); [simpl in Hcc; lia|].
  rewrite Hhd. simpl. rewrite Hk. simpl. rewrite Hc0. simpl. rewrite Hcb.
  destruct (cb_release_spec cf fl b k fs Hk Hlen Hf Hbf) as (cf' & Hrel & Hch' & Hag & Hinfo).
  destruct (Z.eqb_spec (Z.of_nat (length cs)) 0).
  - assert (cs = []) as -> by (destruct cs; [done|simpl in *; lia]).
    assert (bs' = []) as -> by (unfold CBSIZE in *; destruct bs'; [done|simpl in *; lia]).
    rewrite Hrel. simpl. exists (Pool cf' (Some b)), (Clist 0 None None (c_hix q + 1) (c_tix q)), [], (b :: fs).
    split; [done|]. split; [split; simpl; [apply clist_nil|done|done]|]. split; [done|].
    intros x Hx. simpl. apply Hag. set_solver.
  - destruct (Z.eqb_spec (c_hix q + 1) CBSIZE) as [Hend|Hend].
    + rewrite Hrel. simpl.
      exists (Pool cf' (Some b)), (Clist (Z.of_nat (length cs)) (c_next k) (c_tl q) 0 (c_tix q)), bs', (b :: fs).
      split; [done|]. split; [split; simpl; [|done|]|split].
      * split; simpl; try done.
        -- eapply chain_agree, Hc'. auto.
        -- rewrite Hl. destruct bs'; [unfold CBSIZE in *; simpl in *; lia|done].
        -- intros ->. simpl in *. lia.
        -- intros _. unfold CBSIZE in *. simpl length in *. lia.
        -- rewrite Htl at 1. rewrite flat_cons.
           replace (S (Z.to_nat (c_hix q))) with (length (info cf b) + 0)%nat.
           2: { unfold info. rewrite Hk. simpl. rewrite Hlen. lia. }
           rewrite drop_app_add, drop_0. f_equal. symmetry. by apply flat_agree.
        -- by apply Forall_cons_iff in Hby as [_ ?].
      * by rewrite <- Permutation_middle.
      * by rewrite <- Permutation_middle.
      * intros x Hx. simpl. apply Hag. set_solver.
    + exists (Pool cf fl), (Clist (Z.of_nat (length cs)) (Some b) (c_tl q) (c_hix q + 1) (c_tix q)), (b :: bs'), fs.
      split; [done|]. split; [split; simpl; [|done|done]|split; [done|intros ? _; done]].
      split; simpl; try done.
      * split; [done|]. eauto.
      * intros ->. simpl in *. lia.
      * intros _. unfold CBSIZE in *. simpl length in *. lia.
      * replace (Z.to_nat (c_hix q + 1)) with (S (Z.to_nat (c_hix q))) by lia. done.
      * by apply Forall_cons_iff in Hby as [_ ?].
Qed.

(** ** The specification: a bounded queue

    A queue over a pool of [N] blocks.  [Put] may be refused only when all but
    at most one block's worth of characters is queued. *)

Inductive op := Put (c : Z) | Get.

Inductive qstep (N : nat) : op -> Z -> list Z -> list Z -> Prop :=
| q_put c cs : qstep N (Put c) 0 cs (cs ++ [Z.land c 255])
| q_full c cs : CBSIZE * (Z.of_nat N - 1) < Z.of_nat (length cs) \/ N = O ->
    qstep N (Put c) (-1) cs cs
| q_get c cs : 0 <= c < 256 -> qstep N Get c (c :: cs) cs
| q_empty : qstep N Get (-1) [] [].

Inductive qsteps (N : nat) : list op -> list Z -> list Z -> list Z -> Prop :=
| qs_nil cs : qsteps N [] [] cs cs
| qs_cons o ops r rs cs cs1 cs2 :
    qstep N o r cs cs1 -> qsteps N ops rs cs1 cs2 -> qsteps N (o :: ops) (r :: rs) cs cs2.

Definition exec (o : op) pl q : option (Z * pool * clist) :=
  match o with Put c => putc c pl q | Get => getc pl q end.

Fixpoint execs (ops : list op) pl q : option (list Z * pool * clist) :=
  match ops with
  | [] => Some ([], pl, q)
  | o :: ops =>
      '(r, pl, q) ← exec o pl q; '(rs, pl, q) ← execs ops pl q; Some (r :: rs, pl, q)
  end.

Lemma exec_step o pl q bs fs cs :
  inv pl q bs fs cs ->
  exists r pl' q' bs' fs' cs', exec o pl q = Some (r, pl', q') /\ inv pl' q' bs' fs' cs' /\
    length (bs' ++ fs') = length (bs ++ fs) /\ qstep (length (bs ++ fs)) o r cs cs'.
Proof.
  intros Hinv. destruct o as [c|]; simpl.
  - destruct (putc_spec c _ _ _ _ _ Hinv)
      as [(-> & -> & Hfull)|(pl' & q' & bs' & fs' & -> & Hinv' & Hp & _)].
    + exists (-1), pl, q, bs, [], cs. split; [done|]. split; [done|]. split; [done|]. constructor.
      rewrite app_nil_r. destruct Hfull as [->|Htix]; [by right|]. destruct bs as [|b bs]; [by right|].
      left. destruct Hinv as [Hh _ _]. destruct (h_ix _ _ _ _ Hh ltac:(done)) as (? & ? & ?). lia.
    + exists 0, pl', q', bs', fs', (cs ++ [Z.land c 255]).
      split; [done|]. split; [done|]. split; [by rewrite Hp|constructor].
  - pose proof (getc_spec _ _ _ _ _ Hinv) as Hg. destruct cs as [|c cs].
    + destruct Hg as (q' & -> & Hinv'). pose proof (inv_holds _ _ _ _ _ Hinv) as Hh.
      rewrite (h_empty _ _ _ _ Hh eq_refl). exists (-1), pl, q', [], fs, [].
      split; [done|]. split; [done|]. split; [done|constructor].
    + destruct Hg as (pl' & q' & bs' & fs' & -> & Hinv' & Hp & _).
      exists c, pl', q', bs', fs', cs. split; [done|]. split; [done|]. split; [by rewrite Hp|].
      constructor. by apply (Forall_inv (h_bytes _ _ _ _ (inv_holds _ _ _ _ _ Hinv))).
Qed.

(** ** Theorems *)

(** C29. Any sequence of [putc] and [getc] on a clist runs without a wild access
    and answers exactly what a first-in first-out queue of bytes answers; [putc]
    is refused only when the pool's blocks are all in the queue. *)
Theorem clist_refines_queue ops pl q bs fs cs :
  inv pl q bs fs cs ->
  exists rs pl' q' bs' fs' cs', execs ops pl q = Some (rs, pl', q') /\
    inv pl' q' bs' fs' cs' /\ qsteps (length (bs ++ fs)) ops rs cs cs'.
Proof.
  revert pl q bs fs cs. induction ops as [|o ops IH]; intros pl q bs fs cs Hinv; simpl.
  - exists [], pl, q, bs, fs, cs. split; [done|]. split; [done|constructor].
  - destruct (exec_step o _ _ _ _ _ Hinv) as (r & pl1 & q1 & bs1 & fs1 & cs1 & -> & Hinv1 & Hlen & Hs).
    simpl. destruct (IH _ _ _ _ _ Hinv1) as (rs & pl' & q' & bs' & fs' & cs' & -> & Hinv' & Hss).
    exists (r :: rs), pl', q', bs', fs', cs'. split; [done|]. split; [done|].
    rewrite Hlen in Hss. by econstructor.
Qed.

(** A pool of three blocks, all free, and an empty clist. *)
Definition blank : cblock := Cblock None (replicate 30 0).
Definition pool3 : pool :=
  Pool [blank; Cblock (Some 0%nat) (replicate 30 0); Cblock (Some 1%nat) (replicate 30 0)] (Some 2%nat).
Definition empty_clist : clist := Clist 0 None None 0 0.

Lemma pool3_inv : inv pool3 empty_clist [] [2; 1; 0]%nat [].
Proof.
  split; simpl; [apply clist_nil| |].
  - repeat (split; [done|eexists; split; [done|]; split; [done|]]). done.
  - repeat constructor; set_solver.
Defined.

Lemma clist_refines_queue_witness :
  exists rs pl' q' bs' fs' cs', execs [Put 104; Put 360; Get; Get; Get] pool3 empty_clist = Some (rs, pl', q') /\
    inv pl' q' bs' fs' cs' /\ qsteps 3 [Put 104; Put 360; Get; Get; Get] rs [] cs'.
Proof. exact (clist_refines_queue _ pool3 empty_clist [] [2; 1; 0]%nat [] pool3_inv). Defined.

Definition bytes (cp : list Z) : list Z := (fun c => Z.land c 255) <$> cp.

Lemma b_to_q_spec cp pl q bs fs cs :
  inv pl q bs fs cs ->
  exists n pl' q' bs' fs', (n <= length cp)%nat /\
    b_to_q cp pl q = Some (Z.of_nat (length cp - n), pl', q') /\
    inv pl' q' bs' fs' (cs ++ bytes (take n cp)) /\ bs' ++ fs' = bs ++ fs /\
    ((n < length cp)%nat -> fs' = []).
Proof.
  revert pl q bs fs cs. induction cp as [|c cp IH]; intros pl q bs fs cs Hinv.
  - exists 0%nat, pl, q, bs, fs. simpl. rewrite app_nil_r. split; [lia|].
    split; [done|]. split; [done|]. split; [done|lia].
  - simpl. destruct (putc_spec c _ _ _ _ _ Hinv)
      as [(-> & -> & _)|(pl1 & q1 & bs1 & fs1 & -> & Hinv1 & Hp & _)]; simpl.
    + exists 0%nat, pl, q, bs, []. simpl. rewrite app_nil_r. split; [lia|]. split; [done|]. eauto.
    + destruct (IH _ _ _ _ _ Hinv1) as (n & pl' & q' & bs' & fs' & Hn & -> & Hinv' & Hp' & Hfull).
      exists (S n), pl', q', bs', fs'. split; [lia|]. split; [done|]. split.
      { by rewrite <- app_assoc in Hinv'. }
      split; [congruence|]. intros. apply Hfull. lia.
Qed.

Lemma q_to_b_spec n pl q bs fs cs :
  inv pl q bs fs cs ->
  exists pl' q' bs' fs', q_to_b n pl q = Some (take n cs, pl', q') /\
    inv pl' q' bs' fs' (drop n cs) /\ bs' ++ fs' ≡ₚ bs ++ fs.
Proof.
  revert pl q bs fs cs. induction n as [|n IH]; intros pl q bs fs cs Hinv; simpl.
  - rewrite drop_0. exists pl, q, bs, fs. split; [done|]. done.
  - pose proof (getc_spec _ _ _ _ _ Hinv) as Hg. destruct cs as [|c cs].
    + destruct Hg as (q' & -> & Hinv'). simpl. exists pl, q', [], fs. split; [done|].
      split; [done|]. by rewrite (h_empty _ _ _ _ (inv_holds _ _ _ _ _ Hinv) eq_refl).
    + destruct Hg as (pl1 & q1 & bs1 & fs1 & -> & Hinv1 & Hp1 & _). simpl.
      pose proof (Forall_inv (h_bytes _ _ _ _ (inv_holds _ _ _ _ _ Hinv))) as Hc. simpl in Hc.
      destruct (Z.ltb_spec c 0); [lia|].
      destruct (IH _ _ _ _ _ Hinv1) as (pl' & q' & bs' & fs' & -> & Hinv' & Hp'). simpl.
      exists pl', q', bs', fs'. split; [done|]. split; [done|]. by rewrite Hp', Hp1.
Qed.

(** What [b_to_q] accepts into an empty clist, [q_to_b] hands back byte for
    byte and in order, and every block used in between is back in the pool.  All
    of the buffer is accepted unless the pool ran dry. *)
Theorem b_to_q_q_to_b cp pl q fs :
  inv pl q [] fs [] ->
  exists n pl1 q1 pl2 q2 fs2, (n <= length cp)%nat /\
    b_to_q cp pl q = Some (Z.of_nat (length cp - n), pl1, q1) /\
    q_to_b n pl1 q1 = Some (bytes (take n cp), pl2, q2) /\
    inv pl2 q2 [] fs2 [] /\ fs2 ≡ₚ fs /\
    ((n < length cp)%nat -> cfreelist pl1 = None).
Proof.
  intros Hinv. destruct (b_to_q_spec cp _ _ _ _ _ Hinv)
    as (n & pl1 & q1 & bs1 & fs1 & Hn & Hb & Hinv1 & Hp1 & Hfull). simpl in *.
  destruct (q_to_b_spec n _ _ _ _ _ Hinv1) as (pl2 & q2 & bs2 & fs2 & Hq & Hinv2 & Hp2).
  assert (Hlen : length (bytes (take n cp)) = n) by (unfold bytes; rewrite length_fmap, length_take; lia).
  rewrite take_ge in Hq by lia. rewrite drop_ge in Hinv2 by lia.
  pose proof (h_empty _ _ _ _ (inv_holds _ _ _ _ _ Hinv2) eq_refl) as ->.
  exists n, pl1, q1, pl2, q2, fs2. split; [done|]. split; [done|]. split; [done|].
  split; [done|]. split.
  - by rewrite <- Hp1.
  - intros H. pose proof (inv_free _ _ _ _ _ Hinv1) as Hf. by rewrite (Hfull H) in Hf.
Qed.

Lemma b_to_q_q_to_b_witness :
  exists n pl1 q1 pl2 q2 fs2, (n <= 4)%nat /\
    b_to_q [104; 101; 108; 512] pool3 empty_clist = Some (Z.of_nat (4 - n), pl1, q1) /\
    q_to_b n pl1 q1 = Some (bytes (take n [104; 101; 108; 512]), pl2, q2) /\
    inv pl2 q2 [] fs2 [] /\ fs2 ≡ₚ [2; 1; 0]%nat /\ ((n < 4)%nat -> cfreelist pl1 = None).
Proof. exact (b_to_q_q_to_b [104; 101; 108; 512] pool3 empty_clist [2; 1; 0]%nat pool3_inv). Defined.

(** The loop of [cinit], when the blocks below [k] are already free. *)
Lemma cinit_loop_spec n k cf fl :
  Forall (fun x => length (c_info x) = Z.to_nat CBSIZE) cf -> (k + n = length cf)%nat ->
  chain cf fl (rev (seq 0 k)) ->
  exists pl, cinit_loop n k (Pool cf fl) = Some pl /\ length (cfree pl) = length cf /\
    chain (cfree pl) (cfreelist pl) (rev (seq 0 (k + n))).
Proof.
  revert k cf fl. induction n as [|n IH]; intros k cf fl Hcf Hk Hch.
  - exists (Pool cf fl). rewrite Nat.add_0_r. done.
  - simpl. destruct (lookup_lt_is_Some_2 cf k) as [b Hb]; [lia|].
    pose proof (Forall_lookup_1 _ _ _ _ Hcf Hb) as Hlen.
    destruct (cb_release_spec cf fl k b _ Hb Hlen Hch) as (cf' & Hrel & Hch' & Hag & Hinfo).
    { rewrite list_elem_of_In, <- in_rev, in_seq. lia. }
    assert (Hlen' : length cf' = length cf).
    { clear - Hrel. unfold cb_release, set_next in Hrel. simpl in Hrel.
      destruct (cf !! k); simpl in Hrel; [|done]. simplify_eq. apply length_insert. }
    rewrite Hrel. simpl. rewrite <- Hlen', <- Nat.add_succ_comm. apply IH.
    + apply Forall_lookup. intros i x Hx. pose proof (Hinfo i) as Hi. unfold info in Hi.
      rewrite Hx in Hi. simpl in Hi. rewrite Hi.
      destruct (lookup_lt_is_Some_2 cf i) as [y Hy]; [rewrite <- Hlen'; by eapply lookup_lt_Some|].
      rewrite Hy. by apply (Forall_lookup_1 _ _ _ _ Hcf Hy).
    + lia.
    + rewrite seq_S, rev_app_distr. done.
Qed.

(** [cinit] strings every block of the pool on the free list, whatever the
    blocks held before, and counts the character devices up to the first empty
    row of [cdevsw]. *)
Lemma cinit_frees_all cf (cdevsw : list bool) :
  Forall (fun x => length (c_info x) = Z.to_nat CBSIZE) cf ->
  exists pl, cinit (Pool cf None) cdevsw = Some (pl, count_chrdev cdevsw) /\
    length (cfree pl) = length cf /\
    inv pl empty_clist [] (rev (seq 0 (length cf))) [].
Proof.
  intros Hcf. destruct (cinit_loop_spec (length cf) 0 cf None Hcf) as (pl & Hl & Hlen & Hch); [done..|].
  exists pl. unfold cinit. simpl. rewrite Hl. split; [done|]. split; [done|].
  split; simpl; [apply clist_nil|done|]. rewrite NoDup_ListNoDup. apply NoDup_rev, seq_NoDup.
Qed.

Lemma cinit_frees_all_witness :
  exists pl, cinit (Pool (replicate 100 blank) None) [true; true; false] = Some (pl, 2) /\
    length (cfree pl) = 100%nat /\ inv pl empty_clist [] (rev (seq 0 100)) [].
Proof.
  apply (cinit_frees_all (replicate 100 blank) [true; true; false]).
  by apply Forall_replicate.
Defined.
