(* ===== verification/Utab.v ===== *)
(** * The per-process address map: [kernel/utab.c]

    The machine maps 32 virtual pages of 1024 words through eight write-only
    page registers РП and four protection registers РЗ.  [u.u_upt[8]] is the
    only readable copy: word [i] scatters the descriptors of pages [4i..4i+3]
    with the [aux] instruction, and its even words carry the protection byte of
    eight pages in the bits the descriptors leave free. *)

From Stdlib Require Import Btauto.
From S2P Require Import Prelude Param.

Definition PGBITS : Z := 10.
Definition ENOMEM : Z := 12.

(** ** The two bit instructions, as the instruction set defines them *)

(** [apx]: gather the bits of [a] under the mask [x] to the top of the word. *)
Fixpoint apx_from (n : nat) (i a x r : Z) : Z :=
  match n with
  | O => r
  | S n =>
      apx_from n (i + 1) a x
        (if Z.testbit x i
         then Z.lor (Z.shiftr r 1) (if Z.testbit a i then 2 ^ 47 else 0) else r)
  end.
Definition apx (a x : Z) : Z := apx_from 48 0 a x 0.

(** [aux]: scatter the top bits of [a], from bit 48 down, under the mask [x]. *)
Fixpoint aux_from (n : nat) (j a x r : Z) : Z :=
  match n with
  | O => r
  | S n =>
      let r := Z.shiftl r 1 in
      if Z.testbit x (Z.of_nat n)
      then aux_from n (j - 1) a x (if Z.testbit a j then Z.lor r 1 else r)
      else aux_from n j a x r
  end.
Definition aux (a x : Z) : Z := aux_from 48 47 a x 0.

(** ** State *)

Record utab := Utab {
  u_upt : list Z;       (* the shadow table, eight words *)
  u_tsize : Z; u_dsize : Z; u_ssize : Z;
  u_error : Z;
  p_addr : Z;           (* u.u_procp->p_addr *)
  x_caddr : option Z;   (* u.u_procp->p_textp->x_caddr, when there is a text *)
  maxmem : Z;
  rp : list Z;          (* what was last written to РП 020-027 *)
  rz : list Z;          (* and to РЗ 030-033 *)
}.

(** ** Operations *)

Definition RPBITS (k : Z) : Z :=
  2 ^ (44 + k) |: 2 ^ (40 + k) |: 2 ^ (36 + k) |: 2 ^ (32 + k) |: 2 ^ (28 + k) |:
  Z.shiftl 31 (5 * k).

Definition rpmask : list Z := [RPBITS 0; RPBITS 1; RPBITS 2; RPBITS 3].

Definition uptget (upt : list Z) (v : Z) : option Z :=
  w ← upt !! Z.to_nat (Z.shiftr v 2);
  m ← rpmask !! Z.to_nat (Z.land v 3);
  Some (Z.shiftr (apx w m) (48 - PGBITS)).

(** One of [sureg]'s three loops: while [a < lim], page [v] maps [a >> PGSH] and
    opens, and both move on.  [pg] is a C array of [NPAGE]; a store past it is a
    wild access.  Fuel: the array can only take [NPAGE] stores. *)
Record walk := Walk { w_pg : list Z; w_prot : Z; w_v : Z; w_a : Z }.

Fixpoint map_pages (fuel : nat) (lim : Z) (w : walk) : option walk :=
  if w_a w <? lim then
    match fuel with
    | O => None
    | S fuel =>
        _ ← w_pg w !! Z.to_nat (w_v w);
        map_pages fuel lim
          (Walk (<[Z.to_nat (w_v w) := Z.shiftr (w_a w) PGSH]> (w_pg w))
                (w_prot w &~ 2 ^ w_v w) (w_v w + 1) (w_a w + PGSZ))
    end
  else Some w.

(** Lines 104-113: word [i] of the table from the pages and the closed bits. *)
Definition upt_word (pg : list Z) (prot i : Z) : Z :=
  let field k :=
    aux (wrap (Z.shiftl (pg !!! Z.to_nat (4 * i + k)) (48 - PGBITS))) (rpmask !!! Z.to_nat k) in
  let w := 0 |: field 0 |: field 1 |: field 2 |: field 3 in
  if Z.land i 1 =? 0 then w |: Z.shiftl (Z.land (Z.shiftr prot (4 * i)) 255) 20 else w.

Definition sureg (u : utab) : option utab :=
  let pg := replicate (Z.to_nat NPAGE) 0 in
  let prot := WORD - 1 in
  let daddr := p_addr u in
  let taddr := default (p_addr u) (x_caddr u) in
  w ← map_pages (Z.to_nat NPAGE) (taddr + u_tsize u) (Walk pg prot 0 taddr);
  w ← map_pages (Z.to_nat NPAGE) (daddr + USIZE + u_dsize u)
        (Walk (w_pg w) (w_prot w) (w_v w) (daddr + USIZE));
  w ← map_pages (Z.to_nat NPAGE) (daddr + USIZE + u_dsize u + u_ssize u)
        (Walk (w_pg w) (w_prot w) USTKPAGE (w_a w));
  let upt := upt_word (w_pg w) (w_prot w) <$> [0; 1; 2; 3; 4; 5; 6; 7] in
  Some {| u_upt := upt; u_tsize := u_tsize u; u_dsize := u_dsize u; u_ssize := u_ssize u;
          u_error := u_error u; p_addr := p_addr u; x_caddr := x_caddr u; maxmem := maxmem u;
          rp := upt; rz := (fun i => upt !!! i) <$> [0; 2; 4; 6]%nat |}.

Definition estabur (nt nd ns : Z) (u : utab) : option (Z * utab) :=
  if (MAXMEM <? nt + nd + ns) || (USTKPAGE * PGSZ <? nt + nd) ||
     ((NPAGE - USTKPAGE) * PGSZ <? ns) || (maxmem u <? nt + nd + ns + USIZE)
  then Some (-1, {| u_upt := u_upt u; u_tsize := u_tsize u; u_dsize := u_dsize u;
                    u_ssize := u_ssize u; u_error := ENOMEM; p_addr := p_addr u;
                    x_caddr := x_caddr u; maxmem := maxmem u; rp := rp u; rz := rz u |})
  else
    u ← sureg {| u_upt := u_upt u; u_tsize := nt; u_dsize := nd; u_ssize := ns;
                 u_error := u_error u; p_addr := p_addr u; x_caddr := x_caddr u;
                 maxmem := maxmem u; rp := rp u; rz := rz u |};
    Some (0, u).

(** Addresses arrive as 15-bit word fields, so [addr >> PGSH] is a page number. *)
Definition physaddr (upt : list Z) (addr : Z) : option Z :=
  pgno ← uptget upt (Z.shiftr addr PGSH);
  Some (if pgno =? 0 then 0 else Z.shiftl pgno PGSH |: Z.land addr (PGSZ - 1)).

(** The loop of [useracc], over the pages [v..last]. *)
Fixpoint all_mapped (n : nat) (upt : list Z) (v : Z) : option bool :=
  match n with
  | O => Some true
  | S n =>
      pgno ← uptget upt v;
      if pgno =? 0 then Some false else all_mapped n upt (v + 1)
  end.

Definition useracc (upt : list Z) (addr count : Z) : option bool :=
  if count =? 0 then Some true
  else if (NPAGE * PGSZ <? addr + count) || (addr + count <? addr) then Some false
  else
    let last := Z.shiftr (addr + count - 1) PGSH in
    let v := Z.shiftr addr PGSH in
    all_mapped (Z.to_nat (last - v + 1)) upt v.

(** The loop of [physrange], over the pages after the first. *)
Fixpoint contiguous (n : nat) (upt : list Z) (first v : Z) : option bool :=
  match n with
  | O => Some true
  | S n =>
      p ← uptget upt v;
      p0 ← uptget upt first;
      if p =? p0 + (v - first) then contiguous n upt first (v + 1) else Some false
  end.

Definition physrange (upt : list Z) (addr count : Z) : option Z :=
  if count =? 0 then Some 0
  else
    ok ← useracc upt addr count;
    if negb ok then Some 0
    else
      let first := Z.shiftr addr PGSH in
      let last := Z.shiftr (addr + count - 1) PGSH in
      ok ← contiguous (Z.to_nat (last - first)) upt first (first + 1);
      if (ok : bool) then physaddr upt addr else Some 0.

(** ** Scatter and gather *)

Lemma apx_from_ext n i a b x r :
  (forall j, Z.testbit x j = true -> Z.testbit a j = Z.testbit b j) ->
  apx_from n i a x r = apx_from n i b x r.
Proof.
  intros H. revert i r. induction n as [|n IH]; intros i r; simpl; [done|].
  destruct (Z.testbit x i) eqn:Hx; [rewrite (H i Hx)|]; apply IH.
Qed.

Lemma apx_ext a b x :
  (forall j, Z.testbit x j = true -> Z.testbit a j = Z.testbit b j) -> apx a x = apx b x.
Proof. exact (apx_from_ext 48 0 a b x 0). Qed.

Lemma apx_from_bound n i a x r : 0 <= r < 2 ^ 48 -> 0 <= apx_from n i a x r < 2 ^ 48.
Proof.
  revert i r. induction n as [|n IH]; intros i r Hr; simpl; [done|]. apply IH.
  destruct (Z.testbit x i); [|done].
  assert (0 <= Z.shiftr r 1 < 2 ^ 47) as Hs.
  { rewrite Z.shiftr_div_pow2 by lia. change (2 ^ 1) with 2. pose proof (div_mod_range r 2). lia. }
  destruct (Z.testbit a i); [|rewrite Z.lor_0_r; lia].
  pose proof (Z.add_lor_land (Z.shiftr r 1) (2 ^ 47)) as H.
  pose proof (Z.land_nonneg (Z.shiftr r 1) (2 ^ 47)). pose proof (Z.lor_nonneg (Z.shiftr r 1) (2 ^ 47)). lia.
Qed.

Lemma apx_bound a x : 0 <= apx a x < 2 ^ 48.
Proof. exact (apx_from_bound 48 0 a x 0 ltac:(lia)). Qed.

(** The descriptor of page [p] as it sits in slot [k] of a table word. *)
Definition field (p k : Z) : Z := aux (wrap (Z.shiftl p (48 - PGBITS))) (rpmask !!! Z.to_nat k).

(** Both instructions act bit by bit, so they distribute over [|]. *)
Lemma apx_from_lor n i a b x r s :
  apx_from n i (Z.lor a b) x (Z.lor r s) = Z.lor (apx_from n i a x r) (apx_from n i b x s).
Proof.
  revert i r s. induction n as [|n IH]; intros i r s; simpl; [done|].
  destruct (Z.testbit x i); [|apply IH]. rewrite <- IH. f_equal.
  rewrite Z.lor_spec, Z.shiftr_lor. apply Z.bits_inj'. intros m _. rewrite !Z.lor_spec.
  destruct (Z.testbit a i), (Z.testbit b i); simpl; rewrite ?Z.bits_0; btauto.
Qed.

Lemma apx_lor a b x : apx (Z.lor a b) x = Z.lor (apx a x) (apx b x).
Proof. apply (apx_from_lor 48 0 a b x 0 0). Qed.

Lemma aux_from_lor n j a b x r s :
  aux_from n j (Z.lor a b) x (Z.lor r s) = Z.lor (aux_from n j a x r) (aux_from n j b x s).
Proof.
  revert j r s. induction n as [|n IH]; intros j r s; simpl; [done|].
  destruct (Z.testbit x (Z.of_nat n)); rewrite <- IH; f_equal; rewrite ?Z.shiftl_lor; [|done].
  rewrite Z.lor_spec. apply Z.bits_inj'. intros m _.
  destruct (Z.testbit a j), (Z.testbit b j); simpl; rewrite !Z.lor_spec; btauto.
Qed.

Lemma aux_lor a b x : aux (Z.lor a b) x = Z.lor (aux a x) (aux b x).
Proof. apply (aux_from_lor 48 47 a b x 0 0). Qed.

Lemma wrap_shiftl_lor p q n :
  wrap (Z.shiftl (Z.lor p q) n) = Z.lor (wrap (Z.shiftl p n)) (wrap (Z.shiftl q n)).
Proof.
  unfold wrap, WORD. rewrite <- !Z.land_ones by lia. by rewrite Z.shiftl_lor, Z.land_lor_distr_l.
Qed.

#[local] Opaque apx aux wrap rpmask.

Lemma field_lor p q k : field (Z.lor p q) k = Z.lor (field p k) (field q k).
Proof. unfold field. by rewrite wrap_shiftl_lor, aux_lor. Qed.

(** Checked on the halves of a descriptor, in every slot: the half can be
    gathered back, and it touches no other slot. *)
Definition slots : list Z := [0; 1; 2; 3].
Definition field_ok (p k : Z) : bool :=
  (Z.shiftr (apx (field p k) (rpmask !!! Z.to_nat k)) (48 - PGBITS) =? p) &&
  forallb (fun j => (j =? k) || (Z.land (field p k) (rpmask !!! Z.to_nat j) =? 0)) slots.

Lemma field_halves :
  forallb (fun p => forallb (field_ok p) slots && forallb (field_ok (Z.shiftl p 5)) slots)
    (seqZ 0 32) = true.
Proof. vm_compute. reflexivity. Qed.

(** No protection byte touches a slot: its eight bits are all outside. *)
Lemma prot_bits :
  forallb (fun k => Z.land (Z.shiftl 255 20) (rpmask !!! Z.to_nat k) =? 0) slots = true.
Proof. vm_compute. reflexivity. Qed.

Lemma in_slots k : 0 <= k < 4 -> In k slots.
Proof. intros. unfold slots. simpl. lia. Qed.

Lemma in_seqZ lo n x : lo <= x < lo + n -> In x (seqZ lo n).
Proof. intros. apply list_elem_of_In, elem_of_seqZ. lia. Qed.

Lemma field_spec p k : 0 <= p < 32 -> 0 <= k < 4 ->
  field_ok p k = true /\ field_ok (Z.shiftl p 5) k = true.
Proof.
  intros Hp Hk. pose proof field_halves as H. rewrite forallb_forall in H.
  specialize (H p (in_seqZ 0 32 p ltac:(lia))). apply andb_true_iff in H as [H1 H2].
  rewrite forallb_forall in H1, H2. split; auto using in_slots.
Qed.

Lemma halves p : 0 <= p < 1024 ->
  exists h l, 0 <= h < 32 /\ 0 <= l < 32 /\ p = Z.lor (Z.shiftl h 5) l.
Proof.
  intros Hp. exists (p / 32), (p mod 32). pose proof (div_mod_range p 32).
  split_and!; try lia. apply Z.bits_inj'. intros i Hi.
  rewrite Z.lor_spec, Z.shiftl_spec by lia. change 32 with (2 ^ 5).
  destruct (Z.ltb_spec i 5).
  - rewrite Z.mod_pow2_bits_low, (Z.testbit_neg_r _ (i - 5)) by lia. done.
  - rewrite Z.mod_pow2_bits_high, Z.div_pow2_bits, orb_false_r by lia. f_equal. lia.
Qed.

Lemma field_gather p k : 0 <= p < 1024 -> 0 <= k < 4 ->
  Z.shiftr (apx (field p k) (rpmask !!! Z.to_nat k)) (48 - PGBITS) = p.
Proof.
  intros (h & l & Hh & Hl & ->)%halves Hk. rewrite field_lor, apx_lor, Z.shiftr_lor.
  destruct (field_spec h k Hh Hk) as [_ [H1 _]%andb_true_iff].
  destruct (field_spec l k Hl Hk) as [[H2 _]%andb_true_iff _].
  apply Z.eqb_eq in H1, H2. by rewrite H1, H2.
Qed.

Lemma field_ok_disjoint p k j : field_ok p k = true -> 0 <= j < 4 -> j <> k ->
  Z.land (field p k) (rpmask !!! Z.to_nat j) = 0.
Proof.
  intros [_ H]%andb_true_iff Hj Hne. rewrite forallb_forall in H.
  specialize (H j (in_slots j Hj)). destruct (Z.eqb_spec j k); [done|]. by apply Z.eqb_eq.
Qed.

Lemma field_disjoint p k j : 0 <= p < 1024 -> 0 <= k < 4 -> 0 <= j < 4 -> j <> k ->
  Z.land (field p k) (rpmask !!! Z.to_nat j) = 0.
Proof.
  intros (h & l & Hh & Hl & ->)%halves Hk Hj Hne. rewrite field_lor, Z.land_lor_distr_l.
  destruct (field_spec h k Hh Hk) as [_ H1], (field_spec l k Hl Hk) as [H2 _].
  by rewrite (field_ok_disjoint _ k j H1 Hj Hne), (field_ok_disjoint _ k j H2 Hj Hne).
Qed.

Lemma prot_disjoint b k : 0 <= b < 256 -> 0 <= k < 4 ->
  Z.land (Z.shiftl b 20) (rpmask !!! Z.to_nat k) = 0.
Proof.
  intros Hb Hk. pose proof prot_bits as H. rewrite forallb_forall in H.
  specialize (H k (in_slots k Hk)). apply Z.eqb_eq in H.
  assert (b = Z.land 255 b) as ->.
  { rewrite Z.land_comm. change 255 with (Z.ones 8). rewrite Z.land_ones by lia.
    symmetry. apply Z.mod_small. lia. }
  rewrite Z.shiftl_land, <- Z.land_assoc, (Z.land_comm (Z.shiftl b 20)), Z.land_assoc, H. done.
Qed.

Lemma testbit_disjoint a x i : Z.land a x = 0 -> Z.testbit x i = true -> Z.testbit a i = false.
Proof.
  intros H Hx. pose proof (Z.land_spec a x i) as Hs. rewrite H, Hx, Z.bits_0 in Hs.
  by destruct (Z.testbit a i).
Qed.

(** Gathering slot [k] out of a table word gives the page that was put there. *)
Lemma uptget_word pg prot i k :
  (forall j, 0 <= j < 4 -> 0 <= pg !!! Z.to_nat (4 * i + j) < 1024) -> 0 <= k < 4 ->
  Z.shiftr (apx (upt_word pg prot i) (rpmask !!! Z.to_nat k)) (48 - PGBITS) =
    pg !!! Z.to_nat (4 * i + k).
Proof.
  intros Hpg Hk. rewrite <- (field_gather (pg !!! Z.to_nat (4 * i + k)) k) by auto. f_equal.
  apply apx_ext. intros b Hb. unfold upt_word.
  fold (field (pg !!! Z.to_nat (4 * i + 0)) 0) (field (pg !!! Z.to_nat (4 * i + 1)) 1)
    (field (pg !!! Z.to_nat (4 * i + 2)) 2) (field (pg !!! Z.to_nat (4 * i + 3)) 3).
  set (x := Z.shiftl (Z.land (Z.shiftr prot (4 * i)) 255) 20).
  assert (Hx : Z.testbit x b = false).
  { eapply testbit_disjoint, Hb. apply prot_disjoint; [|done].
    change 255 with (Z.ones 8). rewrite Z.land_ones by lia. apply Z.mod_pos_bound. lia. }
  assert (Hoff : forall j, 0 <= j < 4 -> j <> k -> Z.testbit (field (pg !!! Z.to_nat (4 * i + j)) j) b = false).
  { intros j Hj Hne. eapply testbit_disjoint, Hb. apply field_disjoint; auto. }
  assert (k = 0 \/ k = 1 \/ k = 2 \/ k = 3) as Hcases by lia.
  destruct (Z.land i 1 =? 0); rewrite ?Z.lor_spec, ?Hx, Z.bits_0, ?orb_false_r;
    destruct Hcases as [-> | [-> | [-> | ->]]];
    rewrite ?(Hoff 0), ?(Hoff 1), ?(Hoff 2), ?(Hoff 3) by lia;
    rewrite ?orb_false_r, ?orb_false_l; reflexivity.
Qed.

(** ** The loops of [sureg] *)

(** What a run of pages [v0, v0+n) from physical address [a0] leaves behind. *)
Definition mapped_run (w w' : walk) (n : Z) : Prop :=
  length (w_pg w') = length (w_pg w) /\
  w_v w' = w_v w + n /\ w_a w' = w_a w + PGSZ * n /\
  (forall v, 0 <= v -> w_pg w' !!! Z.to_nat v =
     if (w_v w <=? v) && (v <? w_v w + n)
     then Z.shiftr (w_a w + PGSZ * (v - w_v w)) PGSH else w_pg w !!! Z.to_nat v) /\
  (forall v, 0 <= v -> Z.testbit (w_prot w') v =
     Z.testbit (w_prot w) v && negb ((w_v w <=? v) && (v <? w_v w + n))).

Lemma testbit_clr x k i : 0 <= k -> 0 <= i ->
  Z.testbit (clr x (2 ^ k)) i = Z.testbit x i && negb (k =? i).
Proof.
  intros. unfold clr. rewrite Z.land_spec, Z.lnot_spec by done.
  by rewrite Z.pow2_bits_eqb.
Qed.

Lemma map_pages_run fuel n w lim :
  lim = w_a w + PGSZ * Z.of_nat n -> (n <= fuel)%nat ->
  0 <= w_v w -> w_v w + Z.of_nat n <= Z.of_nat (length (w_pg w)) ->
  exists w', map_pages fuel lim w = Some w' /\ mapped_run w w' (Z.of_nat n).
Proof.
  revert fuel w. unfold mapped_run, PGSZ. induction n as [|n IH]; intros fuel w Hlim Hf Hv Hlen.
  { exists w. destruct fuel; simpl; bool_cases; try lia; (split; [done|]);
      split_and!; try lia; intros v Hv'; bool_cases; try lia; by rewrite ?andb_true_r. }
  destruct fuel as [|fuel]; [lia|]. simpl. destruct (Z.ltb_spec (w_a w) lim); [|lia].
  destruct (lookup_lt_is_Some_2 (w_pg w) (Z.to_nat (w_v w))) as [x Hx]; [lia|].
  rewrite Hx. simpl.
  edestruct (IH fuel (Walk (<[Z.to_nat (w_v w) := Z.shiftr (w_a w) PGSH]> (w_pg w))
                (w_prot w &~ 2 ^ w_v w) (w_v w + 1) (w_a w + PGSZ)))
    as (w' & Hw' & Hl & Hv1 & Ha1 & Hpg & Hpr); simpl; rewrite ?length_insert; unfold PGSZ; try lia.
  exists w'. split; [exact Hw'|]. simpl in *. rewrite length_insert in Hl.
  unfold PGSZ in *. split_and!; try lia; intros v Hv0.
  - rewrite Hpg by done. destruct (Z.eqb_spec v (w_v w)) as [->|Hne].
    + rewrite list_lookup_total_insert_eq by lia. bool_cases; try lia; simpl. f_equal. lia.
    + rewrite list_lookup_total_insert_ne by lia. bool_cases; try lia; simpl; try done. f_equal. lia.
  - rewrite Hpr, testbit_clr by done. rewrite <- andb_assoc. f_equal. bool_cases; simpl; try done; lia.
Qed.

(** ** The map a process should have

    Text from page 0, data right above it, the stack at page [USTKPAGE]: as
    page counts [tn], [dn], [sn] over the physical pages [tp] (text) and [dp]
    (the u page; data and stack follow it). *)

Record image := Image { tp : Z; dp : Z; tn : Z; dn : Z; sn : Z }.

Definition image_page (m : image) (v : Z) : option Z :=
  if v <? tn m then Some (tp m + v)
  else if v <? tn m + dn m then Some (dp m + 1 + (v - tn m))
  else if (USTKPAGE <=? v) && (v <? USTKPAGE + sn m) then Some (dp m + 1 + dn m + (v - USTKPAGE))
  else None.

(** The image fits the virtual space and the descriptors, and page 0 is no one's. *)
Definition image_ok (m : image) : Prop :=
  0 < tp m /\ 0 < dp m /\ 0 <= tn m /\ 0 <= dn m /\ 0 <= sn m /\
  tn m + dn m <= USTKPAGE /\ sn m <= NPAGE - USTKPAGE /\
  tp m + tn m <= 1024 /\ dp m + 1 + dn m + sn m <= 1024.

(** The virtual half of that: all that [sureg] needs to stay in its array. *)
Definition image_fits (m : image) : Prop :=
  0 <= tn m /\ 0 <= dn m /\ 0 <= sn m /\ tn m + dn m <= USTKPAGE /\ sn m <= NPAGE - USTKPAGE.

Lemma image_ok_fits m : image_ok m -> image_fits m.
Proof. unfold image_ok, image_fits. tauto. Qed.

(** A process whose sizes and addresses are the image's, in words. *)
Definition describes (m : image) (u : utab) : Prop :=
  u_tsize u = PGSZ * tn m /\ u_dsize u = PGSZ * dn m /\ u_ssize u = PGSZ * sn m /\
  p_addr u = PGSZ * dp m /\ default (p_addr u) (x_caddr u) = PGSZ * tp m.

(** A table that maps exactly the image, and closes exactly the other pages. *)
Definition maps (m : image) (upt : list Z) : Prop :=
  forall v, 0 <= v < NPAGE -> uptget upt v = Some (default 0 (image_page m v)).

Definition closes (m : image) (rz : list Z) : Prop :=
  forall v, 0 <= v < NPAGE ->
    exists w, rz !! Z.to_nat (v / 8) = Some w /\
      Z.testbit w (20 + v mod 8) = bool_decide (image_page m v = None).

Lemma shiftr_page a : Z.shiftr (1024 * a) PGSH = a.
Proof.
  unfold PGSH. rewrite Z.shiftr_div_pow2, Z.mul_comm by lia. by rewrite Z.div_mul.
Qed.

(** The three loops together lay the image out. *)
Lemma walk_image fuel m z prot : image_fits m -> (32 <= fuel)%nat -> length z = 32%nat ->
  exists w1 w2 w3,
    map_pages fuel (PGSZ * tp m + PGSZ * tn m) (Walk z prot 0 (PGSZ * tp m)) = Some w1 /\
    map_pages fuel (PGSZ * dp m + USIZE + PGSZ * dn m)
      (Walk (w_pg w1) (w_prot w1) (w_v w1) (PGSZ * dp m + USIZE)) = Some w2 /\
    map_pages fuel (PGSZ * dp m + USIZE + PGSZ * dn m + PGSZ * sn m)
      (Walk (w_pg w2) (w_prot w2) USTKPAGE (w_a w2)) = Some w3 /\
    forall v, 0 <= v < NPAGE ->
      w_pg w3 !!! Z.to_nat v = default (z !!! Z.to_nat v) (image_page m v) /\
      Z.testbit (w_prot w3) v = Z.testbit prot v && bool_decide (image_page m v = None).
Proof.
  intros (Htn & Hdn & Hsn & Htd & Hs) Hf Lz.
  unfold NPAGE, USTKPAGE, PGSZ, USIZE in *.
  destruct (map_pages_run fuel (Z.to_nat (tn m)) (Walk z prot 0 (1024 * tp m))
    (1024 * tp m + 1024 * tn m)) as (w1 & E1 & L1 & V1 & A1 & P1 & Q1);
    cbn [w_a w_v w_pg w_prot] in *; unfold PGSZ in *; try lia.
  rewrite Z2Nat.id in V1, A1, P1, Q1 by lia.
  destruct (map_pages_run fuel (Z.to_nat (dn m)) (Walk (w_pg w1) (w_prot w1) (w_v w1) (1024 * dp m + 1024))
    (1024 * dp m + 1024 + 1024 * dn m)) as (w2 & E2 & L2 & V2 & A2 & P2 & Q2);
    cbn [w_a w_v w_pg w_prot] in *; unfold PGSZ in *; try lia.
  rewrite Z2Nat.id in V2, A2, P2, Q2 by lia.
  destruct (map_pages_run fuel (Z.to_nat (sn m)) (Walk (w_pg w2) (w_prot w2) 28 (w_a w2))
    (1024 * dp m + 1024 + 1024 * dn m + 1024 * sn m)) as (w3 & E3 & L3 & V3 & A3 & P3 & Q3);
    cbn [w_a w_v w_pg w_prot] in *; unfold PGSZ in *; try lia.
  rewrite Z2Nat.id in V3, A3, P3, Q3 by lia.
  exists w1, w2, w3. split_and!; [done..|]. intros v Hv.
  rewrite P3, P2, P1, Q3, Q2, Q1, V1, A2 by lia. unfold image_page, USTKPAGE.
  replace (1024 * dp m + 1024) with (1024 * (dp m + 1)) by lia.
  rewrite <- !Z.mul_add_distr_l, !shiftr_page.
  bool_cases; cbn; try lia; split; try done; try lia;
    by rewrite ?bool_decide_true, ?bool_decide_false, ?andb_true_r, ?andb_false_r.
Qed.

#[local] Opaque map_pages upt_word.

Lemma sureg_walk m u : image_fits m -> describes m u ->
  exists pg prot,
    sureg u = Some
      (let upt := upt_word pg prot <$> [0; 1; 2; 3; 4; 5; 6; 7] in
       {| u_upt := upt; u_tsize := u_tsize u; u_dsize := u_dsize u; u_ssize := u_ssize u;
          u_error := u_error u; p_addr := p_addr u; x_caddr := x_caddr u; maxmem := maxmem u;
          rp := upt; rz := (fun i => upt !!! i) <$> [0; 2; 4; 6]%nat |}) /\
    forall v, 0 <= v < NPAGE ->
      pg !!! Z.to_nat v = default 0 (image_page m v) /\
      Z.testbit prot v = bool_decide (image_page m v = None).
Proof.
  intros Hm (Et & Ed & Es & Ep & Ex).
  destruct (walk_image (Z.to_nat NPAGE) m (replicate (Z.to_nat NPAGE) 0) (WORD - 1) Hm)
    as (w1 & w2 & w3 & E1 & E2 & E3 & Hpg); [done..|].
  exists (w_pg w3), (w_prot w3). split.
  { unfold sureg. cbv zeta. rewrite Ex, Et, Ed, Es, Ep.
    apply (obind_step _ _ w1); [exact E1|]. apply (obind_step _ _ w2); [exact E2|].
    apply (obind_step _ _ w3); [exact E3|]. reflexivity. }
  intros v Hv. destruct (Hpg v Hv) as [-> ->]. unfold NPAGE in *.
  rewrite lookup_total_replicate_2 by lia. replace (WORD - 1) with (Z.ones 48) by reflexivity.
  rewrite Z.ones_spec_low by lia. done.
Qed.

(** ** Reading the table back *)

Lemma page_parts v : 0 <= v < NPAGE ->
  0 <= v / 4 < 8 /\ 0 <= Z.land v 3 < 4 /\ Z.shiftr v 2 = v / 4 /\ 4 * (v / 4) + Z.land v 3 = v.
Proof.
  unfold NPAGE. intros Hv. pose proof (div_mod_range v 4) as [Hd Hm]; [lia|].
  rewrite Z.shiftr_div_pow2 by lia. change 3 with (Z.ones 2). rewrite Z.land_ones by lia.
  change (2 ^ 2) with 4. pose proof (Z.div_mod v 4). lia.
Qed.

Lemma image_page_range m v x : image_ok m -> 0 <= v < NPAGE ->
  image_page m v = Some x -> 0 < x < 1024.
Proof.
  unfold image_ok, image_page, NPAGE, USTKPAGE. intros Hm Hv.
  bool_cases; cbn; intros [= <-]; lia.
Qed.

Lemma image_page_bound m v : image_ok m -> 0 <= v < NPAGE -> 0 <= default 0 (image_page m v) < 1024.
Proof.
  intros Hm Hv. destruct (image_page m v) eqn:E; simpl; [|lia].
  pose proof (image_page_range m v _ Hm Hv E). lia.
Qed.

Lemma table_lookup {A} (f : Z -> A) i : 0 <= i < 8 ->
  (f <$> [0; 1; 2; 3; 4; 5; 6; 7]) !! Z.to_nat i = Some (f i).
Proof.
  intros Hi. assert (i = 0 \/ i = 1 \/ i = 2 \/ i = 3 \/ i = 4 \/ i = 5 \/ i = 6 \/ i = 7) as H by lia.
  destruct H as [-> | [-> | [-> | [-> | [-> | [-> | [-> | ->]]]]]]]; reflexivity.
Qed.

Lemma rpmask_lookup k : 0 <= k < 4 -> rpmask !! Z.to_nat k = Some (rpmask !!! Z.to_nat k).
Proof.
  intros Hk. assert (k = 0 \/ k = 1 \/ k = 2 \/ k = 3) as H by lia.
  destruct H as [-> | [-> | [-> | ->]]]; reflexivity.
Qed.

Lemma table_maps m pg prot : image_ok m ->
  (forall v, 0 <= v < NPAGE -> pg !!! Z.to_nat v = default 0 (image_page m v)) ->
  maps m (upt_word pg prot <$> [0; 1; 2; 3; 4; 5; 6; 7]).
Proof.
  intros Hm Hpg v Hv. destruct (page_parts v Hv) as (Hi & Hk & Hs & Hr). unfold uptget.
  rewrite Hs. apply (obind_step _ _ _ _ (table_lookup (upt_word pg prot) _ Hi)).
  apply (obind_step _ _ _ _ (rpmask_lookup _ Hk)).
  rewrite (uptget_word pg prot (v / 4) (Z.land v 3)); [by rewrite Hr, Hpg| |done].
  intros j Hj. rewrite Hpg by (unfold NPAGE; lia). apply image_page_bound; [done|unfold NPAGE; lia].
Qed.

(** Bits 21-28 of a descriptor word are no slot's. *)
Lemma field_misses_prot p k b : 0 <= p < 1024 -> 0 <= k < 4 -> 0 <= b < 8 ->
  Z.testbit (field p k) (20 + b) = false.
Proof.
  intros Hp Hk Hb.
  assert (forallb (fun p => forallb (fun k => Z.land (field p k) (Z.shiftl 255 20) =? 0) slots &&
            forallb (fun k => Z.land (field (Z.shiftl p 5) k) (Z.shiftl 255 20) =? 0) slots)
          (seqZ 0 32) = true) as H by (vm_compute; reflexivity).
  rewrite forallb_forall in H. destruct (halves p Hp) as (h & l & Hh & Hl & ->).
  pose proof (H h (in_seqZ 0 32 h ltac:(lia))) as [_ H1]%andb_true_iff.
  pose proof (H l (in_seqZ 0 32 l ltac:(lia))) as [H2 _]%andb_true_iff.
  rewrite forallb_forall in H1, H2. specialize (H1 k (in_slots k Hk)). specialize (H2 k (in_slots k Hk)).
  apply Z.eqb_eq in H1, H2. rewrite field_lor, Z.lor_spec.
  assert (Z.testbit (Z.shiftl 255 20) (20 + b) = true) as Hbit.
  { rewrite Z.shiftl_spec by lia. replace (20 + b - 20) with b by lia.
    change 255 with (Z.ones 8). apply Z.ones_spec_low. lia. }
  by rewrite (testbit_disjoint _ _ _ H1 Hbit), (testbit_disjoint _ _ _ H2 Hbit).
Qed.

#[local] Transparent upt_word.
Lemma upt_word_prot pg prot j b :
  (forall v, 0 <= v < NPAGE -> 0 <= pg !!! Z.to_nat v < 1024) -> 0 <= j < 4 -> 0 <= b < 8 ->
  Z.testbit (upt_word pg prot (2 * j)) (20 + b) = Z.testbit prot (8 * j + b).
Proof.
  intros Hpg Hj Hb. unfold upt_word.
  assert (Z.land (2 * j) 1 = 0) as ->.
  { change 1 with (Z.ones 1). rewrite Z.land_ones, Z.mul_comm by lia. apply Z.mod_mul. lia. }
  rewrite Z.eqb_refl. change (aux (wrap (Z.shiftl ?p (48 - PGBITS))) (rpmask !!! Z.to_nat ?k)) with (field p k).
  rewrite !Z.lor_spec, Z.bits_0, Z.shiftl_spec, Z.land_spec, Z.shiftr_spec by lia.
  rewrite !field_misses_prot by (try apply Hpg; unfold NPAGE; lia).
  change 255 with (Z.ones 8). rewrite Z.ones_spec_low by lia. rewrite andb_true_r. simpl. f_equal. lia.
Qed.
#[local] Opaque upt_word.

Lemma table_closes m pg prot : image_ok m ->
  (forall v, 0 <= v < NPAGE -> pg !!! Z.to_nat v = default 0 (image_page m v) /\
     Z.testbit prot v = bool_decide (image_page m v = None)) ->
  closes m ((fun i => (upt_word pg prot <$> [0; 1; 2; 3; 4; 5; 6; 7]) !!! i) <$> [0; 2; 4; 6]%nat).
Proof.
  intros Hm Hpg v Hv. pose proof (div_mod_range v 8) as [Hd Hr]; [lia|].
  assert (0 <= v / 8 < 4) as Hj by (unfold NPAGE in *; lia).
  exists (upt_word pg prot (2 * (v / 8))). split.
  - assert (v / 8 = 0 \/ v / 8 = 1 \/ v / 8 = 2 \/ v / 8 = 3) as H by lia.
    destruct H as [H | [H | [H | H]]]; rewrite H; reflexivity.
  - rewrite upt_word_prot; [| |done|done].
    + replace (8 * (v / 8) + v mod 8) with v by (pose proof (Z.div_mod v 8); lia). by apply Hpg.
    + intros x Hx. destruct (Hpg x Hx) as [-> _]. by apply image_page_bound.
Qed.

(** ** [estabur] *)

Definition fits (nt nd ns maxmem : Z) : Prop :=
  nt + nd + ns <= MAXMEM /\ nt + nd <= USTKPAGE * PGSZ /\
  ns <= (NPAGE - USTKPAGE) * PGSZ /\ nt + nd + ns + USIZE <= maxmem.

(** [estabur] accepts sizes exactly when text, data and stack fit below the
    stack base, above it, and in memory; it then leaves a shadow table that maps
    every one of the 32 virtual pages to the page of the image that belongs
    there and the rest to none, the page registers equal to it, and the
    protection registers closing exactly the unmapped pages.  Otherwise it
    returns -1 with [ENOMEM] and the map untouched. *)
Theorem estabur_correct m nt nd ns u :
  image_ok m ->
  describes m {| u_upt := u_upt u; u_tsize := nt; u_dsize := nd; u_ssize := ns;
                 u_error := u_error u; p_addr := p_addr u; x_caddr := x_caddr u;
                 maxmem := maxmem u; rp := rp u; rz := rz u |} ->
  (fits nt nd ns (maxmem u) ->
     exists u', estabur nt nd ns u = Some (0, u') /\ describes m u' /\
       maps m (u_upt u') /\ rp u' = u_upt u' /\ closes m (rz u') /\ u_error u' = u_error u) /\
  (~ fits nt nd ns (maxmem u) ->
     exists u', estabur nt nd ns u = Some (-1, u') /\ u_error u' = ENOMEM /\
       u_upt u' = u_upt u /\ rp u' = rp u /\ rz u' = rz u /\
       (u_tsize u', u_dsize u', u_ssize u') = (u_tsize u, u_dsize u, u_ssize u)).
Proof.
  intros Hm Hd. unfold fits, estabur.
  destruct (sureg_walk m _ (image_ok_fits m Hm) Hd) as (pg & prot & Hs & Hpg). split; intros Hfit.
  - replace (_ || _ || _ || _) with false by (symmetry; bool_cases; try done; lia).
    eexists. split; [apply (obind_step _ _ _ _ Hs); reflexivity|]. cbn.
    split_and!; try apply Hd; try done.
    + apply table_maps; [done|]. intros v Hv. by apply Hpg.
    + by apply table_closes.
  - replace (_ || _ || _ || _) with true by (symmetry; bool_cases; try done; tauto).
    eexists. by split_and!.
Qed.

(** A shared text of 2 pages at page 40, an image at page 100 with 3 data and 1
    stack pages. *)
Definition image0 : image := Image 40 100 2 3 1.
Definition utab0 : utab := Utab (replicate 8 0) 0 0 0 0 102400 (Some 40960) 100000 [] [].

Lemma estabur_correct_witness :
  exists u', estabur 2048 3072 1024 utab0 = Some (0, u') /\ maps image0 (u_upt u').
Proof.
  destruct (proj1 (estabur_correct image0 2048 3072 1024 utab0
    ltac:(unfold image_ok, USTKPAGE, NPAGE; simpl; lia) ltac:(split_and!; reflexivity))) as (u' & E & _ & H & _).
  { unfold fits, MAXMEM, NPAGE, USTKPAGE, PGSZ, USIZE. simpl. lia. }
  exists u'. split; [exact E|exact H].
Defined.

(** ** Address translation *)

(** Where word [addr] of the process lives, 0 if nowhere. *)
Definition image_word (m : image) (addr : Z) : Z :=
  if addr <? PGSZ * tn m then PGSZ * tp m + addr
  else if addr <? PGSZ * (tn m + dn m) then PGSZ * dp m + USIZE + (addr - PGSZ * tn m)
  else if (PGSZ * USTKPAGE <=? addr) && (addr <? PGSZ * (USTKPAGE + sn m))
  then PGSZ * dp m + USIZE + PGSZ * dn m + (addr - PGSZ * USTKPAGE)
  else 0.

Lemma split_addr addr : 0 <= addr ->
  Z.shiftr addr PGSH = addr / 1024 /\ Z.land addr (PGSZ - 1) = addr mod 1024 /\
  1024 * (addr / 1024) <= addr < 1024 * (addr / 1024) + 1024 /\
  addr = 1024 * (addr / 1024) + addr mod 1024.
Proof.
  intros H. unfold PGSH, PGSZ. rewrite Z.shiftr_div_pow2 by lia. change (1024 - 1) with (Z.ones 10).
  rewrite Z.land_ones by lia. change (2 ^ 10) with 1024.
  pose proof (div_mod_range addr 1024). pose proof (Z.div_mod addr 1024). lia.
Qed.

Lemma join_addr p r : 0 <= p -> 0 <= r < 1024 -> Z.lor (Z.shiftl p PGSH) r = 1024 * p + r.
Proof.
  intros Hp Hr. unfold PGSH.
  assert (Z.land (Z.shiftl p 10) r = 0) as H0.
  { apply Z.bits_inj'. intros i Hi. rewrite Z.land_spec, Z.shiftl_spec, Z.bits_0 by lia.
    destruct (Z.ltb_spec i 10); [by rewrite Z.testbit_neg_r by lia|].
    replace r with (r mod 2 ^ 10) by (apply Z.mod_small; lia).
    rewrite Z.mod_pow2_bits_high by lia. apply andb_false_r. }
  pose proof (Z.add_lor_land (Z.shiftl p 10) r) as H. rewrite H0, Z.shiftl_mul_pow2 in * by lia. lia.
Qed.

(** Through a table that maps an image, [physaddr] sends every word of the
    32-page space to the word of the image that belongs there, and to 0 exactly
    outside text, data and stack. *)
Lemma physaddr_image m upt addr :
  image_ok m -> maps m upt -> 0 <= addr < MAXMEM ->
  physaddr upt addr = Some (image_word m addr) /\
  (image_word m addr = 0 <-> image_page m (addr / PGSZ) = None).
Proof.
  intros Hm Hmap Ha. destruct (split_addr addr) as (Hs & Hl & Hr & He); [lia|].
  assert (0 <= addr / 1024 < NPAGE) as Hv by (unfold MAXMEM, NPAGE, PGSZ in *; lia).
  unfold physaddr. rewrite Hs, Hl, (Hmap _ Hv). cbn [mbind option_bind].
  pose proof (image_page_bound m _ Hm Hv). rewrite join_addr by lia.
  unfold image_ok, image_word, image_page, PGSZ, USTKPAGE, USIZE, NPAGE in *.
  bool_cases; cbn in *; try lia; (split; [f_equal; lia|split; intros; try lia; done]).
Qed.

Lemma physaddr_image_witness :
  exists upt, physaddr upt 2053 = Some 103429.
Proof.
  eexists (upt_word _ _ <$> [0; 1; 2; 3; 4; 5; 6; 7]).
  refine (proj1 (physaddr_image image0 _ 2053 _ _ _)).
  - unfold image_ok, USTKPAGE, NPAGE; simpl; lia.
  - apply (table_maps image0 ((fun v => default 0 (image_page image0 v)) <$> seqZ 0 32) 0).
    + unfold image_ok, USTKPAGE, NPAGE; simpl; lia.
    + intros v Hv. unfold NPAGE in Hv. rewrite list_lookup_total_alt, list_lookup_fmap.
      rewrite (proj2 (lookup_seqZ 0 32 (Z.to_nat v) v)) by lia. reflexivity.
  - unfold MAXMEM, NPAGE, PGSZ; lia.
Defined.

(** ** User ranges *)

(** A whole table: eight words of whatever content answer for 32 pages. *)
Definition maps_some (upt : list Z) : Prop :=
  forall v, 0 <= v < NPAGE -> exists x, uptget upt v = Some x /\ 0 <= x < 1024.

(** The pages [v, v+n) are all mapped, as the loop of [useracc] finds. *)
Lemma all_mapped_spec n upt v : maps_some upt -> 0 <= v -> v + Z.of_nat n <= NPAGE ->
  exists b, all_mapped n upt v = Some b /\
    (b = true <-> forall i, v <= i < v + Z.of_nat n -> uptget upt i <> Some 0).
Proof.
  intros Hupt. revert v. induction n as [|n IH]; intros v Hv Hn; cbn [all_mapped].
  { exists true. split; [done|]. split; [|done]. intros _ i Hi. lia. }
  destruct (Hupt v) as (x & Hx & _); [lia|]. rewrite Hx. cbn [mbind option_bind].
  destruct (Z.eqb_spec x 0) as [->|Hne].
  { exists false. split; [done|]. split; [done|]. intros H. by destruct (H v); [lia|]. }
  destruct (IH (v + 1)) as (b & -> & Hb); [lia..|]. exists b. split; [done|]. rewrite Hb. split.
  - intros H i Hi. destruct (Z.eqb_spec i v) as [->|]; [congruence|]. apply H. lia.
  - intros H i Hi. apply H. lia.
Qed.

Lemma contiguous_spec n upt first v p0 : maps_some upt -> uptget upt first = Some p0 ->
  0 <= v -> v + Z.of_nat n <= NPAGE ->
  exists b, contiguous n upt first v = Some b /\
    (b = true <-> forall i, v <= i < v + Z.of_nat n -> uptget upt i = Some (p0 + (i - first))).
Proof.
  intros Hupt H0. revert v. induction n as [|n IH]; intros v Hv Hn; cbn [contiguous].
  { exists true. split; [done|]. split; [|done]. intros _ i Hi. lia. }
  destruct (Hupt v) as (x & Hx & _); [lia|]. rewrite Hx, H0. cbn [mbind option_bind].
  destruct (Z.eqb_spec x (p0 + (v - first))) as [->|Hne].
  2:{ exists false. split; [done|]. split; [done|]. intros H. rewrite H in Hx by lia. congruence. }
  destruct (IH (v + 1)) as (b & -> & Hb); [lia..|]. exists b. split; [done|]. rewrite Hb. split.
  - intros H i Hi. destruct (Z.eqb_spec i v) as [->|]; [done|]. apply H. lia.
  - intros H i Hi. apply H. lia.
Qed.

Lemma whole_table upt : length upt = 8%nat -> maps_some upt.
Proof.
  intros Hlen v Hv. destruct (page_parts v Hv) as (Hi & Hk & Hs & _). unfold uptget. rewrite Hs.
  destruct (lookup_lt_is_Some_2 upt (Z.to_nat (v / 4))) as [w Hw]; [lia|].
  eexists. split.
  { apply (obind_step _ _ _ _ Hw). apply (obind_step _ _ _ _ (rpmask_lookup _ Hk)). reflexivity. }
  pose proof (apx_bound w (rpmask !!! Z.to_nat (Z.land v 3))) as Hb.
  unfold PGBITS. rewrite Z.shiftr_div_pow2 by lia.
  pose proof (div_mod_range (apx w (rpmask !!! Z.to_nat (Z.land v 3))) (2 ^ (48 - 10))). lia.
Qed.

Lemma physaddr_page upt a p : 0 <= a -> 0 <= p -> uptget upt (a / 1024) = Some p ->
  physaddr upt a = Some (if p =? 0 then 0 else 1024 * p + a mod 1024).
Proof.
  intros Ha Hp Hu. destruct (split_addr a Ha) as (Hs & Hl & _ & _). unfold physaddr.
  rewrite Hs, Hl. apply (obind_step _ _ _ _ Hu).
  pose proof (div_mod_range a 1024). by rewrite join_addr by lia.
Qed.

(** The user words [addr, addr+count) are all there; they are one physical run from [pa]. *)
Definition range_mapped (upt : list Z) (addr count : Z) : Prop :=
  addr + count <= MAXMEM /\ forall i, 0 <= i < count -> physaddr upt (addr + i) <> Some 0.
Definition range_at (upt : list Z) (addr count pa : Z) : Prop :=
  forall i, 0 <= i < count -> physaddr upt (addr + i) = Some (pa + i).

Lemma range_pages upt addr count : length upt = 8%nat -> 0 <= addr -> 0 < count -> addr + count <= MAXMEM ->
  (forall i, 0 <= i < count -> physaddr upt (addr + i) <> Some 0) <->
  (forall v, addr / 1024 <= v <= (addr + count - 1) / 1024 -> uptget upt v <> Some 0).
Proof.
  intros Hlen Ha Hc Hm. unfold MAXMEM, NPAGE, PGSZ in Hm. split.
  - intros H v Hv Hu. pose proof (div_mod_range addr 1024). pose proof (div_mod_range (addr + count - 1) 1024).
    apply (H (Z.max addr (1024 * v) - addr)); [lia|]. rewrite (physaddr_page _ _ 0); [done|lia..|].
    rewrite <- Hu. f_equal. symmetry. apply (Z.div_unique_pos _ 1024 _ (Z.max addr (1024 * v) - 1024 * v)); lia.
  - intros H i Hi. pose proof (div_mod_range (addr + i) 1024) as Hd.
    assert (addr / 1024 <= (addr + i) / 1024 <= (addr + count - 1) / 1024) as Hv
      by (split; apply Z.div_le_mono; lia).
    destruct (whole_table upt Hlen ((addr + i) / 1024)) as (p & Hp & Hb); [unfold NPAGE; lia|].
    rewrite (physaddr_page _ _ p) by (lia || done). specialize (H _ Hv). rewrite Hp in H.
    destruct (Z.eqb_spec p 0); [by subst|]. intros [= E]. lia.
Qed.

Lemma useracc_spec upt addr count : length upt = 8%nat -> 0 <= addr -> 0 < count ->
  exists b, useracc upt addr count = Some b /\ (b = true <-> range_mapped upt addr count).
Proof.
  intros Hlen Ha Hc. unfold useracc, range_mapped. destruct (Z.eqb_spec count 0); [lia|].
  change (NPAGE * PGSZ) with MAXMEM. destruct (Z.ltb_spec MAXMEM (addr + count)); simpl.
  { exists false. split; [done|]. split; [done|lia]. }
  destruct (Z.ltb_spec (addr + count) addr); [lia|].
  destruct (split_addr addr) as (-> & _); [lia|].
  destruct (split_addr (addr + count - 1)) as (-> & _); [lia|].
  pose proof (div_mod_range addr 1024). pose proof (div_mod_range (addr + count - 1) 1024).
  assert (addr / 1024 <= (addr + count - 1) / 1024) by (apply Z.div_le_mono; lia).
  destruct (all_mapped_spec (Z.to_nat ((addr + count - 1) / 1024 - addr / 1024 + 1)) upt (addr / 1024))
    as (b & Hb & Hiff); [by apply whole_table|lia|unfold MAXMEM, NPAGE, PGSZ in *; lia|].
  exists b. split; [done|]. rewrite Hiff, range_pages by done.
  split; [intros H'; split; [done|]|intros [_ H']]; intros v Hv; apply H'; lia.
Qed.

Lemma run_pages upt addr count pa : length upt = 8%nat -> 0 <= addr -> 0 < count ->
  range_mapped upt addr count -> physaddr upt addr = Some pa ->
  (range_at upt addr count pa <->
   forall v, addr / 1024 < v <= (addr + count - 1) / 1024 ->
     exists p0, uptget upt (addr / 1024) = Some p0 /\ uptget upt v = Some (p0 + (v - addr / 1024))).
Proof.
  intros Hlen Ha Hc [Hm Hmap] Hpa. pose proof (proj1 (range_pages _ _ _ Hlen Ha Hc Hm) Hmap) as Hnz.
  unfold MAXMEM, NPAGE, PGSZ in Hm.
  pose proof (div_mod_range addr 1024) as [Hd Hr]; [lia|].
  pose proof (div_mod_range (addr + count - 1) 1024) as [Hd2 _]; [lia|].
  assert (forall v, addr / 1024 <= v <= (addr + count - 1) / 1024 -> exists p, uptget upt v = Some p /\ 0 < p) as Hget.
  { intros v Hv. destruct (whole_table upt Hlen v) as (p & Hp & Hb); [unfold NPAGE; lia|].
    exists p. split; [done|]. specialize (Hnz v Hv). destruct (Z.eqb_spec p 0); [congruence|lia]. }
  destruct (Hget (addr / 1024)) as (p0 & Hp0 & Hp0'); [lia|].
  rewrite (physaddr_page _ _ p0) in Hpa by (lia || done). destruct (Z.eqb_spec p0 0); [lia|].
  injection Hpa as <-. split.
  - intros H v Hv. exists p0. split; [done|]. destruct (Hget v) as (p & Hp & Hp'); [lia|].
    assert ((addr + (1024 * v - addr)) / 1024 = v) as Ev.
    { replace (addr + (1024 * v - addr)) with (v * 1024) by lia. by apply Z.div_mul. }
    specialize (H (1024 * v - addr) ltac:(lia)).
    rewrite (physaddr_page _ _ p) in H; [|lia|lia|by rewrite Ev].
    destruct (Z.eqb_spec p 0); [lia|]. injection H as H.
    replace (addr + (1024 * v - addr)) with (v * 1024) in H by lia. rewrite Z.mod_mul in H by lia.
    rewrite Hp. f_equal. pose proof (Z.div_mod addr 1024). lia.
  - intros H i Hi. pose proof (div_mod_range (addr + i) 1024).
    assert (addr / 1024 <= (addr + i) / 1024 <= (addr + count - 1) / 1024) by (split; apply Z.div_le_mono; lia).
    assert (uptget upt ((addr + i) / 1024) = Some (p0 + ((addr + i) / 1024 - addr / 1024))) as Hu.
    { destruct (Z.eqb_spec ((addr + i) / 1024) (addr / 1024)) as [E|E].
      - rewrite E, Hp0. f_equal. lia.
      - destruct (H ((addr + i) / 1024)) as (q & Hq & ->); [lia|]. congruence. }
    erewrite physaddr_page; [|lia| |exact Hu]; [|lia].
    destruct (Z.eqb_spec (p0 + ((addr + i) / 1024 - addr / 1024)) 0); [lia|].
    f_equal. pose proof (Z.div_mod addr 1024). pose proof (Z.div_mod (addr + i) 1024). lia.
Qed.

Lemma range_at_base upt addr count pa q : 0 < count ->
  physaddr upt addr = Some pa -> range_at upt addr count q -> q = pa.
Proof.
  intros Hc Hpa H. specialize (H 0 ltac:(lia)). rewrite !Z.add_0_r in H. congruence.
Qed.

(** [useracc] answers exactly whether every word of the user's range is
    mapped, and [physrange] gives a device a physical base exactly when the
    range is, moreover, one contiguous physical run; word [addr+i] of the user
    is then word [base+i] of memory.  It never gives 0 as a base. *)
Theorem physrange_correct upt addr count :
  length upt = 8%nat -> 0 <= addr -> 0 < count ->
  exists b pa,
    useracc upt addr count = Some b /\ (b = true <-> range_mapped upt addr count) /\
    physrange upt addr count = Some pa /\
    (pa <> 0 <-> range_mapped upt addr count /\ exists q, range_at upt addr count q) /\
    (pa <> 0 -> range_at upt addr count pa).
Proof.
  intros Hlen Ha Hc. destruct (useracc_spec upt addr count Hlen Ha Hc) as (b & Hb & Hiff).
  exists b. unfold physrange. rewrite Hb. destruct (Z.eqb_spec count 0); [lia|]. cbn [mbind option_bind].
  destruct b; simpl.
  2:{ exists 0. split_and!; try done. split; [done|]. intros [H _]. by apply Hiff in H. }
  pose proof (proj1 Hiff eq_refl) as Hmap. pose proof Hmap as [Hm Hnz].
  destruct (split_addr addr) as (-> & _ & Hr & _); [lia|].
  destruct (split_addr (addr + count - 1)) as (-> & _ & Hr2 & _); [lia|].
  assert (addr / 1024 <= (addr + count - 1) / 1024) by (apply Z.div_le_mono; lia).
  unfold MAXMEM, NPAGE, PGSZ in Hm.
  destruct (whole_table upt Hlen (addr / 1024)) as (p0 & Hp0 & Hb0); [unfold NPAGE; lia|].
  destruct (contiguous_spec (Z.to_nat ((addr + count - 1) / 1024 - addr / 1024)) upt (addr / 1024)
    (addr / 1024 + 1) p0) as (ok & -> & Hok); [by apply whole_table|done|lia|unfold NPAGE; lia|].
  pose proof (physaddr_page upt addr p0 ltac:(lia) ltac:(lia) Hp0) as Hpa.
  set (base := if p0 =? 0 then 0 else _) in Hpa.
  pose proof (Hnz 0 ltac:(lia)) as Hbase. rewrite Z.add_0_r, Hpa in Hbase.
  assert (ok = true <-> range_at upt addr count base) as Hrun.
  { rewrite Hok, (run_pages upt addr count base) by done. split.
    - intros H' v Hv. exists p0. split; [done|]. apply H'. lia.
    - intros H' v Hv. destruct (H' v) as (q & Hq & ->); [lia|]. congruence. }
  destruct ok; cbn [mbind option_bind].
  - exists base. split_and!; try done; [|by intros _; apply Hrun].
    split; [intros _; split; [done|]; exists base; by apply Hrun|]. intros _ ->. done.
  - exists 0. split_and!; try done. split; [done|]. intros [_ [q Hq]].
    rewrite <- (range_at_base upt addr count base q) in Hrun by done. by apply Hrun in Hq.
Qed.

Lemma physrange_correct_witness :
  exists pa, physrange (replicate 8 (RPBITS 0)) 0 1024 = Some pa /\ pa = 1047552.
Proof.
  destruct (physrange_correct (replicate 8 (RPBITS 0)) 0 1024 ltac:(reflexivity) ltac:(lia) ltac:(lia))
    as (b & pa & _ & _ & E & _). exists pa. split; [exact E|].
  vm_compute in E. injection E as <-. reflexivity.
Defined.
