(* ===== verification/Ucopy.v ===== *)
(** * Byte copies across the user boundary: [kernel/ucopy.c], [kernel/usermem.S]

    The kernel runs unmapped, so a kernel address is a physical one; a user
    address goes through the table of [Utab].  Memory is one array of words
    under both, which is what makes overlap a question at all. *)

From Stdlib Require Import Btauto.
From S2P Require Import Prelude Param Bytes Utab.

Record mem := Mem {
  pm : Z -> Z;            (* physical memory, by word *)
  niobulk : Z; nioedge : Z; nioshift : Z;
}.

(** ** Words and bytes *)

(** Address 0 reads as 0 and swallows stores, mapped or not. *)
Definition load (m : Z -> Z) (v pa : Z) : Z := if v =? 0 then 0 else m pa.
Definition store (m : Z -> Z) (v pa x : Z) : Z -> Z :=
  if v =? 0 then m else fun a => if a =? pa then x else m a.


(** ** [usermem.S] *)

Section UserMemory.
Context (upt : list Z).

(** The C integer -1: bits 41 to 1. *)
Definition mone : Z := Z.ones 41.

Definition uload (m : mem) (v : Z) : option Z :=
  pa ← physaddr upt v; Some (load (pm m) v pa).
Definition ustore (m : mem) (v x : Z) : option mem :=
  pa ← physaddr upt v;
  Some (Mem (store (pm m) v pa x) (niobulk m) (nioedge m) (nioshift m)).
Definition kload (m : mem) (w : Z) : Z := load (pm m) w w.
Definition kstore (m : mem) (w x : Z) : mem :=
  Mem (store (pm m) w w x) (niobulk m) (nioedge m) (nioshift m).

(** The floor divide by 6, on 15-bit index registers: it stops at a remainder of
    0, or at one with bit 15 set, taken for an underflow. *)
Fixpoint divword_loop (fuel : nat) (rem quot : Z) : option Z :=
  if rem =? 0 then Some quot
  else
    match fuel with
    | O => None
    | S fuel =>
        let rem := (rem - NBPW) mod 32768 in
        let quot := quot + 1 in
        if rem &? 16384 then Some (quot - 1) else divword_loop fuel rem quot
    end.
Definition divword (nbytes : Z) : option Z := divword_loop (Z.to_nat 8192) (nbytes mod 32768) 0.

Definition fuword (m : mem) (addr : Z) : option Z :=
  ok ← useracc upt (ptrword addr) 1;
  if (ok : bool) then uload m (ptrword addr) else Some mone.

Definition fubyte (m : mem) (addr : Z) : option Z :=
  ok ← useracc upt (ptrword addr) 1;
  if (ok : bool) then
    w ← uload m (ptrword addr);
    Some (byte_of w (ptrbyte addr))
  else Some (-1).

Definition suword (addr value : Z) (m : mem) : option (Z * mem) :=
  ok ← useracc upt (ptrword addr) 1;
  if (ok : bool) then
    m ← ustore m (ptrword addr) value;
    Some (0, m)
  else Some (-1, m).

Definition subyte (addr value : Z) (m : mem) : option (Z * mem) :=
  ok ← useracc upt (ptrword addr) 1;
  if (ok : bool) then
    let off := ptrbyte addr in
    old ← uload m (ptrword addr);
    let cleared := Z.lxor (Z.land old (bytemask off)) old in
    m ← ustore m (ptrword addr) (aux (wrap (Z.shiftl value 40)) (bytemask off) |: cleared);
    Some (0, m)
  else Some (-1, m).

Fixpoint ci_lp (n : nat) (from to : Z) (m : mem) : option mem :=
  match n with
  | O => Some m
  | S n =>
      w ← uload m from;
      ci_lp n ((from + 1) mod 32768) ((to + 1) mod 32768) (kstore m to w)
  end.

Definition copyin (from to nbytes : Z) (m : mem) : option (Z * mem) :=
  nwords ← divword nbytes;
  ok ← useracc upt (ptrword from) nwords;
  if (ok : bool) then
    m ← ci_lp (Z.to_nat nwords) (ptrword from) (ptrword to) m;
    Some (0, m)
  else Some (-1, m).

Fixpoint co_lp (n : nat) (from to : Z) (m : mem) : option mem :=
  match n with
  | O => Some m
  | S n =>
      m ← ustore m to (kload m from);
      co_lp n ((from + 1) mod 32768) ((to + 1) mod 32768) m
  end.

Definition copyout (from to nbytes : Z) (m : mem) : option (Z * mem) :=
  nwords ← divword nbytes;
  ok ← useracc upt (ptrword to) nwords;
  if (ok : bool) then
    m ← co_lp (Z.to_nat nwords) (ptrword from) (ptrword to) m;
    Some (0, m)
  else Some (-1, m).

(** ** [ucopy.c] *)

Definition uspan (up n : Z) : option bool :=
  let k := NBPW - 1 - ptrbyte up in
  useracc upt (ptrword up) (Z.quot (k + n + NBPW - 1) NBPW).

(** The byte loops of both functions move both pointers; an error return is [inl]. *)
Definition moved : Type := mem + (Z * Z * mem).

Fixpoint peel_in (n : nat) (from to : Z) (m : mem) : option moved :=
  match n with
  | O => Some (inr (from, to, m))
  | S n =>
      c ← fubyte m from;
      if c <? 0 then Some (inl m)
      else
        peel_in n (padd from 1) (padd to 1)
          (kstore m (ptrword to) (set_byte (kload m (ptrword to)) (ptrbyte to) c))
  end.

Fixpoint peel_out (n : nat) (from to : Z) (m : mem) : option moved :=
  match n with
  | O => Some (inr (from, to, m))
  | S n =>
      '(r, m) ← subyte to (byte_of (kload m (ptrword from)) (ptrbyte from)) m;
      if r <? 0 then Some (inl m) else peel_out n (padd from 1) (padd to 1) m
  end.

(** The funnels: [n] destination words, [cur] the source word in hand. *)
Fixpoint funnel_in (n : nat) (sh rsh cur up kp : Z) (m : mem) : option mem :=
  match n with
  | O => Some m
  | S n =>
      let up := padd up NBPW in
      nxt ← fuword m up;
      funnel_in n sh rsh nxt up (kp + 1)
        (kstore m kp (wrap (Z.shiftl cur sh) |: Z.shiftr nxt rsh))
  end.

Fixpoint funnel_out (n : nat) (sh rsh cur kp tp : Z) (m : mem) : option (mem + mem) :=
  match n with
  | O => Some (inr m)
  | S n =>
      let kp := kp + 1 in
      let nxt := kload m kp in
      '(r, m) ← suword tp (wrap (Z.shiftl cur sh) |: Z.shiftr nxt rsh) m;
      if r <? 0 then Some (inl m) else funnel_out n sh rsh nxt kp (padd tp NBPW) m
  end.

Definition add_edge (n : Z) (m : mem) : mem := Mem (pm m) (niobulk m) (nioedge m + n) (nioshift m).
Definition add_bulk (n : Z) (m : mem) : mem := Mem (pm m) (niobulk m + n) (nioedge m) (nioshift m).
Definition add_shift (n : Z) (m : mem) : mem := Mem (pm m) (niobulk m) (nioedge m) (nioshift m + n).

(** How many bytes square the destination up. *)
Definition lead_of (to n : Z) : Z :=
  let lead := ptrbyte to + 1 in
  let lead := if lead =? NBPW then 0 else lead in
  if n <? lead then n else lead.

Definition mid_in (from to mid : Z) (m : mem) : option (mem + mem) :=
  if ptrbyte from =? ptrbyte to then
    '(r, m) ← copyin from to mid m;
    if r <? 0 then Some (inl m) else Some (inr (add_bulk mid m))
  else
    let k := NBPW - 1 - ptrbyte from in
    cur ← fuword m from;
    m ← funnel_in (Z.to_nat (Z.quot mid NBPW)) (8 * k) (8 * (NBPW - k)) cur from (ptrword to) m;
    Some (inr (add_shift mid m)).

Definition mid_out (from to mid : Z) (m : mem) : option (mem + mem) :=
  if ptrbyte from =? ptrbyte to then
    '(r, m) ← copyout from to mid m;
    if r <? 0 then Some (inl m) else Some (inr (add_bulk mid m))
  else
    let k := NBPW - 1 - ptrbyte from in
    r ← funnel_out (Z.to_nat (Z.quot mid NBPW)) (8 * k) (8 * (NBPW - k))
          (kload m (ptrword from)) (ptrword from) to m;
    Some (match r with inl m => inl m | inr m => inr (add_shift mid m) end).

(** The three-part shape the two functions share. *)
Definition three_parts (peel : nat -> Z -> Z -> mem -> option moved)
    (middle : Z -> Z -> Z -> mem -> option (mem + mem)) (from to n : Z) (m : mem) : option (Z * mem) :=
  let lead := lead_of to n in
  let n := n - lead in
  r ← peel (Z.to_nat lead) from to (add_edge lead m);
  match r with
  | inl m => Some (-1, m)
  | inr (from, to, m) =>
      let mid := n - Z.rem n NBPW in
      r ← (if mid =? 0 then Some (inr (from, to, n, m))
           else
             r ← middle from to mid m;
             Some (match r with
                   | inl m => inl m
                   | inr m => inr (padd from mid, padd to mid, n - mid, m)
                   end));
      match r with
      | inl m => Some (-1, m)
      | inr (from, to, n, m) =>
          r ← peel (Z.to_nat n) from to (add_edge n m);
          match r with
          | inl m => Some (-1, m)
          | inr (_, _, m) => Some (0, m)
          end
      end
  end.

Definition copyinb (from to n : Z) (m : mem) : option (Z * mem) :=
  if n <=? 0 then Some (0, m)
  else
    ok ← uspan from n;
    if negb ok then Some (-1, m) else three_parts peel_in mid_in from to n m.

Definition copyoutb (from to n : Z) (m : mem) : option (Z * mem) :=
  if n <=? 0 then Some (0, m)
  else
    ok ← uspan to n;
    if negb ok then Some (-1, m) else three_parts peel_out mid_out from to n m.

End UserMemory.

(** The funnel: byte [j] (from the left) of the joined word. *)
Lemma funnel_byte cur nxt k off : word cur -> word nxt -> 1 <= k <= 5 -> 0 <= off <= 5 ->
  byte_of (wrap (Z.shiftl cur (8 * k)) |: Z.shiftr nxt (8 * (6 - k))) off =
    if off <? k then byte_of nxt (off + (6 - k)) else byte_of cur (off - k).
Proof.
  intros Hc Hn Hk Ho. apply Z.bits_inj'. intros i Hi.
  rewrite byte_bits, Z.lor_spec, Z.shiftr_spec by lia. unfold wrap, WORD.
  destruct (Z.ltb_spec i 8) as [Hi8|]; [rewrite andb_true_r|].
  2:{ rewrite andb_false_r. destruct (Z.ltb_spec off k); rewrite byte_bits by lia;
      by (destruct (Z.ltb_spec i 8); [lia|rewrite andb_false_r]). }
  rewrite Z.mod_pow2_bits_low, Z.shiftl_spec by lia.
  destruct (Z.ltb_spec off k); rewrite byte_bits by lia; (destruct (Z.ltb_spec i 8); [|lia]).
  - rewrite (Z.testbit_neg_r cur) by lia. simpl. rewrite andb_true_r. f_equal. lia.
  - rewrite (word_high nxt) by (done || lia). rewrite orb_false_r, andb_true_r. f_equal. lia.
Qed.

Lemma funnel_word cur nxt k : word nxt -> 1 <= k <= 5 ->
  word (wrap (Z.shiftl cur (8 * k)) |: Z.shiftr nxt (8 * (6 - k))).
Proof.
  intros Hn Hk. apply word_bound.
  - apply Z.lor_nonneg. split; [unfold wrap, WORD; apply Z.mod_pos_bound; lia|].
    apply Z.shiftr_nonneg. apply Hn.
  - intros i Hi. unfold wrap, WORD. rewrite Z.lor_spec, Z.mod_pow2_bits_high, Z.shiftr_spec by lia.
    by rewrite word_high by (done || lia).
Qed.

(** [subyte]'s scatter and mask are a byte store. *)
Lemma scatter_nibbles :
  forallb (fun n => forallb (fun off =>
    (aux (wrap (Z.shiftl n 40)) (bytemask off) =? Z.shiftl n (8 * off)) &&
    (aux (wrap (Z.shiftl (Z.shiftl n 4) 40)) (bytemask off) =? Z.shiftl (Z.shiftl n 4) (8 * off)))
    [0; 1; 2; 3; 4; 5]) (seqZ 0 16) = true.
Proof. vm_compute. reflexivity. Qed.

#[local] Opaque aux wrap bytemask.

Lemma scatter_byte c off : 0 <= c < 256 -> 0 <= off <= 5 ->
  aux (wrap (Z.shiftl c 40)) (bytemask off) = Z.shiftl (Z.land c 255) (8 * off).
Proof.
  intros Hc Ho. pose proof scatter_nibbles as H. rewrite forallb_forall in H.
  assert (Hn : forall n, 0 <= n < 16 ->
    aux (wrap (Z.shiftl n 40)) (bytemask off) = Z.shiftl n (8 * off) /\
    aux (wrap (Z.shiftl (Z.shiftl n 4) 40)) (bytemask off) = Z.shiftl (Z.shiftl n 4) (8 * off)).
  { intros n Hn. specialize (H n (in_seqZ 0 16 n ltac:(lia))). rewrite forallb_forall in H.
    specialize (H off ltac:(simpl; lia)). apply andb_true_iff in H as [H1 H2].
    by apply Z.eqb_eq in H1, H2. }
  change 255 with (Z.ones 8). rewrite Z.land_ones, Z.mod_small by lia.
  assert (c = Z.lor (Z.shiftl (c / 16) 4) (c mod 16)) as ->.
  { apply Z.bits_inj'. intros i Hi. rewrite Z.lor_spec, Z.shiftl_spec by lia. change 16 with (2 ^ 4).
    destruct (Z.ltb_spec i 4).
    - rewrite Z.mod_pow2_bits_low, (Z.testbit_neg_r _ (i - 4)) by lia. done.
    - rewrite Z.mod_pow2_bits_high, Z.div_pow2_bits, orb_false_r by lia. f_equal. lia. }
  pose proof (div_mod_range c 16). destruct (Hn (c / 16)) as [_ E1]; [lia|].
  destruct (Hn (c mod 16)) as [E2 _]; [lia|].
  by rewrite wrap_shiftl_lor, aux_lor, E1, E2, Z.shiftl_lor.
Qed.

Lemma subyte_word old off c : 0 <= c < 256 -> 0 <= off <= 5 ->
  aux (wrap (Z.shiftl c 40)) (bytemask off) |: Z.lxor (Z.land old (bytemask off)) old =
    set_byte old off c.
Proof.
  intros Hc Ho. rewrite scatter_byte by done. unfold set_byte. rewrite Z.lor_comm. f_equal.
  unfold clr. apply Z.bits_inj'. intros i Hi.
  rewrite Z.lxor_spec, !Z.land_spec, Z.lnot_spec by done.
  by destruct (Z.testbit old i), (Z.testbit (bytemask off) i).
Qed.

(** ** Copies between two views of memory

    A view sends the words of a window to physical words.  The destination's
    window is injective, misses word 0 and misses the source's. *)

Definition words (m : Z -> Z) : Prop := forall a, word (m a).

(** Byte [B] of a view. *)
Definition view_byte (tr : Z -> Z) (m : Z -> Z) (B : Z) : Z :=
  byte_of (load m (B / 6) (tr (B / 6))) (5 - B mod 6).

Section Copied.
Context (trS trD : Z -> Z) (slo shi dlo dhi : Z).
Context (Dnz : 0 < dlo)
  (Dinj : forall v v', dlo <= v < dhi -> dlo <= v' < dhi -> trD v = trD v' -> v = v')
  (Apart : forall v v', slo <= v < shi -> dlo <= v' < dhi -> trS v <> trD v').

(** From [m] to [m'], exactly bytes [D, D+len) of the destination changed, to
    the source's bytes from [S]. *)
Definition copied (D S len : Z) (m m' : Z -> Z) : Prop :=
  words m' /\
  (forall B, 6 * dlo <= B < 6 * dhi ->
     view_byte trD m' B =
       if (D <=? B) && (B <? D + len) then view_byte trS m (S + (B - D)) else view_byte trD m B) /\
  (forall pa, (forall v, dlo <= v < dhi -> trD v <> pa) -> m' pa = m pa).

Lemma copied_refl D S m : words m -> copied D S 0 m m.
Proof. intros Hm. split_and!; try done. intros B HB. bool_cases; simpl; try done; lia. Qed.

Lemma copied_source D S len m m' B : copied D S len m m' -> 6 * slo <= B < 6 * shi ->
  view_byte trS m' B = view_byte trS m B.
Proof.
  intros (_ & _ & Hf) HB. unfold view_byte, load. rewrite (Hf (trS (B / 6))); [done|].
  intros v Hv E. apply (Apart (B / 6) v); [|done|done]. pose proof (div_mod_range B 6). lia.
Qed.

Lemma copied_trans D S a b m m1 m2 : 0 <= a -> 0 <= b -> 6 * slo <= S -> S + a + b <= 6 * shi ->
  copied D S a m m1 -> copied (D + a) (S + a) b m1 m2 -> copied D S (a + b) m m2.
Proof.
  intros Ha Hb Hs1 Hs2 H1 H2. pose proof H1 as (Hw1 & HB1 & Hf1). destruct H2 as (Hw2 & HB2 & Hf2).
  split_and!; [done| |by intros pa Hpa; rewrite Hf2, Hf1].
  intros B HB. rewrite HB2, HB1 by done.
  destruct (Z.leb_spec (D + a) B), (Z.ltb_spec B (D + a + b)), (Z.leb_spec D B),
    (Z.ltb_spec B (D + a)), (Z.ltb_spec B (D + (a + b))); simpl; try lia; try done.
  rewrite (copied_source _ _ _ _ _ _ H1) by lia. f_equal. lia.
Qed.

Lemma load_store m v x v' : dlo <= v < dhi -> dlo <= v' < dhi ->
  load (store m v (trD v) x) v' (trD v') = if v' =? v then x else load m v' (trD v').
Proof.
  intros Hv Hv'. unfold load, store.
  destruct (Z.eqb_spec v 0), (Z.eqb_spec v' 0); try lia.
  destruct (Z.eqb_spec v' v) as [->|Hne]; [by rewrite Z.eqb_refl|].
  destruct (Z.eqb_spec (trD v') (trD v)) as [E|]; [|done]. by apply Dinj in E.
Qed.

Lemma store_words m v pa x : words m -> word x -> words (store m v pa x).
Proof. intros Hm Hx a. unfold store. destruct (v =? 0); [done|]. by destruct (a =? pa). Qed.

Lemma store_frame m v x pa : dlo <= v < dhi ->
  (forall v, dlo <= v < dhi -> trD v <> pa) -> store m v (trD v) x pa = m pa.
Proof.
  intros Hv Hpa. unfold store. destruct (v =? 0); [done|].
  destruct (Z.eqb_spec pa (trD v)) as [->|]; [by apply Hpa in Hv|done].
Qed.

Lemma load_word m v pa : words m -> word (load m v pa).
Proof. intros Hm. unfold load. destruct (v =? 0); [unfold word, WORD; lia|apply Hm]. Qed.

Lemma copied_byte D S m : words m -> dlo <= D / 6 < dhi ->
  copied D S 1 m (store m (D / 6) (trD (D / 6))
    (set_byte (load m (D / 6) (trD (D / 6))) (5 - D mod 6) (view_byte trS m S))).
Proof.
  intros Hm HD. pose proof (div_mod_range D 6) as [Hd Hr]; [lia|]. split_and!.
  - apply store_words; [done|]. apply set_byte_word; [by apply load_word|lia].
  - intros B HB. pose proof (div_mod_range B 6) as [Hd' Hr']; [lia|].
    unfold view_byte at 1. rewrite load_store by lia.
    destruct (Z.eqb_spec (B / 6) (D / 6)) as [E|E].
    + rewrite byte_set_byte by lia. pose proof (Z.div_mod B 6). pose proof (Z.div_mod D 6).
      destruct (Z.eqb_spec (5 - B mod 6) (5 - D mod 6)).
      * assert (B = D) as -> by lia. bool_cases; try lia; simpl. rewrite Z.sub_diag, Z.add_0_r.
        change 255 with (Z.ones 8). rewrite Z.land_ones by lia. apply Z.mod_small. apply byte_range.
      * unfold view_byte. rewrite E. bool_cases; simpl; try done. lia.
    + unfold view_byte at 2. bool_cases; simpl; try done. exfalso. assert (B = D) by lia. by subst.
  - intros pa Hpa. by apply store_frame.
Qed.

Lemma copied_word D S m x : words m -> word x -> dlo <= D / 6 < dhi -> D mod 6 = 0 ->
  (forall j, 0 <= j < 6 -> byte_of x (5 - j) = view_byte trS m (S + j)) ->
  copied D S 6 m (store m (D / 6) (trD (D / 6)) x).
Proof.
  intros Hm Hx HD H0 Hj. pose proof (Z.div_mod D 6). split_and!.
  - by apply store_words.
  - intros B HB. pose proof (div_mod_range B 6) as [Hd' Hr']; [lia|].
    pose proof (Z.div_mod B 6). unfold view_byte at 1. rewrite load_store by lia.
    destruct (Z.eqb_spec (B / 6) (D / 6)) as [E|E].
    + rewrite Hj by lia. bool_cases; simpl; try lia. f_equal. lia.
    + bool_cases; simpl; try done. lia.
  - intros pa Hpa. by apply store_frame.
Qed.

(** In phase: the source's word as it is. *)
Lemma copied_aligned fw tw m : words m -> dlo <= tw < dhi ->
  copied (6 * tw) (6 * fw) 6 m (store m tw (trD tw) (load m fw (trS fw))).
Proof.
  intros Hm Hw. assert (6 * tw / 6 = tw) as Ed by (rewrite Z.mul_comm; by apply Z.div_mul).
  pose proof (copied_word (6 * tw) (6 * fw) m (load m fw (trS fw))) as H. rewrite Ed in H.
  apply H; [done|by apply load_word|lia|rewrite Z.mul_comm; by apply Z.mod_mul|].
  intros j Hj. unfold view_byte.
  replace ((6 * fw + j) / 6) with fw by (apply (Z.div_unique_pos _ 6 _ j); lia).
  by replace ((6 * fw + j) mod 6) with j by (apply (Z.mod_unique_pos _ 6 fw); lia).
Qed.

(** Out of phase: the two source words joined. *)
Lemma copied_funnel D S m : words m -> S mod 6 <> 0 -> D mod 6 = 0 -> dlo <= D / 6 < dhi ->
  copied D S 6 m (store m (D / 6) (trD (D / 6))
    (wrap (Z.shiftl (load m (S / 6) (trS (S / 6))) (8 * (S mod 6))) |:
     Z.shiftr (load m (S / 6 + 1) (trS (S / 6 + 1))) (8 * (6 - S mod 6)))).
Proof.
  intros Hm Hph H0 HD. pose proof (div_mod_range S 6) as [_ HSm]; [lia|]. pose proof (Z.div_mod S 6) as HSe.
  apply copied_word; [done|by apply funnel_word; [apply load_word|lia]|lia|done|].
  intros j Hj. rewrite funnel_byte by (try apply load_word; try done; lia).
  unfold view_byte. destruct (Z.ltb_spec (5 - j) (S mod 6)).
  - replace ((S + j) / 6) with (S / 6 + 1) by (apply (Z.div_unique_pos _ 6 _ (S mod 6 + j - 6)); lia).
    replace ((S + j) mod 6) with (S mod 6 + j - 6) by (apply (Z.mod_unique_pos _ 6 (S / 6 + 1)); lia).
    f_equal. lia.
  - replace ((S + j) / 6) with (S / 6) by (apply (Z.div_unique_pos _ 6 _ (S mod 6 + j)); lia).
    replace ((S + j) mod 6) with (S mod 6 + j) by (apply (Z.mod_unique_pos _ 6 (S / 6)); lia).
    f_equal. lia.
Qed.

Lemma copied_source_word D S len m m' v : copied D S len m m' -> slo <= v < shi ->
  load m' v (trS v) = load m v (trS v).
Proof.
  intros (_ & _ & Hf) Hv. unfold load. destruct (v =? 0); [done|]. apply Hf.
  intros v' Hv' E. by apply (Apart v v').
Qed.
End Copied.

Lemma add6_div n : (n + 6) / 6 = n / 6 + 1.
Proof. replace (n + 6) with (n + 1 * 6) by lia. by rewrite Z.div_add. Qed.
Lemma add6_mod n : (n + 6) mod 6 = n mod 6.
Proof. replace (n + 6) with (n + 1 * 6) by lia. by rewrite Z.mod_add. Qed.

(** ** The loops *)

Lemma bit15 x : 0 <= x < 32768 -> tst x 16384 = (16384 <=? x).
Proof.
  intros Hx. change 16384 with (2 ^ 14). rewrite tst_pow2 by lia.
  pose proof (div_mod_range x (2 ^ 14) ltac:(lia)).
  destruct (Z.leb_spec (2 ^ 14) x).
  - apply Z.testbit_true; [lia|]. replace (x / 2 ^ 14) with 1 by lia. done.
  - apply Z.testbit_false; [lia|]. replace (x / 2 ^ 14) with 0 by lia. done.
Qed.

Lemma divword_loop_spec fuel rem q : 0 <= rem < 16384 -> rem <= 6 * Z.of_nat fuel ->
  divword_loop fuel rem q = Some (q + rem / 6).
Proof.
  revert rem q. induction fuel as [|fuel IH]; intros rem q Hr Hf; cbn [divword_loop];
    (destruct (Z.eqb_spec rem 0) as [->|]; [by rewrite Z.add_0_r|]); [lia|].
  unfold NBPW. cbv zeta. destruct (Z.leb_spec 6 rem).
  - rewrite (Z.mod_small (rem - 6)), bit15 by lia. destruct (Z.leb_spec 16384 (rem - 6)); [lia|].
    rewrite IH by lia. f_equal. replace rem with (rem - 6 + 1 * 6) at 2 by lia.
    rewrite Z.div_add by lia. lia.
  - replace ((rem - 6) mod 32768) with (rem + 32762)
      by (apply (Z.mod_unique_pos _ _ (-1)); lia).
    rewrite bit15 by lia. destruct (Z.leb_spec 16384 (rem + 32762)); [|lia].
    rewrite Z.div_small by lia. f_equal. lia.
Qed.

Lemma divword_spec n : 0 <= n < 16384 -> divword n = Some (n / 6).
Proof. intros Hn. unfold divword. rewrite Z.mod_small by lia. apply divword_loop_spec; lia. Qed.

Definition same_counts (m m' : mem) : Prop :=
  niobulk m' = niobulk m /\ nioedge m' = nioedge m /\ nioshift m' = nioshift m.

(** Both the word a pointer names and the byte in it, as byte numbers. *)
Lemma fat_parts n lo hi : 6 * lo <= n < 6 * hi -> 0 <= lo -> hi <= 32768 ->
  lo <= n / 6 < hi /\ 0 <= n mod 6 < 6 /\ n = 6 * (n / 6) + n mod 6 /\
  ptrword (fat_at n) = n / 6 /\ ptrbyte (fat_at n) = 5 - n mod 6 /\
  forall d, padd (fat_at n) d = fat_at (n + d).
Proof.
  intros Hn Hl Hh. assert (nameable n) by (unfold nameable, NBPW, KREACH; lia).
  pose proof (div_mod_range n 6). pose proof (Z.div_mod n 6).
  rewrite ptrword_at, ptrbyte_at by done. split_and!; try lia. intros d. by apply padd_at.
Qed.

Section Loops.
Context (upt : list Z).

Definition utr (v : Z) : Z := default 0 (physaddr upt v).

(** The user words [lo, hi) answer. *)
Definition reachable (lo hi : Z) : Prop :=
  (forall v c, lo <= v -> 0 < c -> v + c <= hi -> useracc upt v c = Some true) /\
  (forall v, lo <= v < hi -> physaddr upt v = Some (utr v)).

Context (ulo uhi klo khi : Z) (Hu : 0 <= ulo) (Huh : uhi <= 32768) (Hk : 0 <= klo) (Hkh : khi <= 32768)
  (Hreach : reachable ulo uhi).

Lemma reach1 v : ulo <= v < uhi -> useracc upt v 1 = Some true /\ physaddr upt v = Some (utr v).
Proof. destruct Hreach as [H1 H2]. intros. split; [apply H1; lia|by apply H2]. Qed.

Lemma fubyte_at m F : 6 * ulo <= F < 6 * uhi ->
  fubyte upt m (fat_at F) = Some (view_byte utr (pm m) F).
Proof.
  intros HF. destruct (fat_parts F ulo uhi) as (Hw & _ & _ & Ew & Eb & _); [lia..|].
  destruct (reach1 _ Hw) as [Hacc Hpa]. unfold fubyte, uload. rewrite Ew, Eb.
  apply (obind_step _ _ _ _ Hacc). rewrite Hpa. done.
Qed.

Lemma fuword_at m F : 6 * ulo <= F < 6 * uhi ->
  fuword upt m (fat_at F) = Some (load (pm m) (F / 6) (utr (F / 6))).
Proof.
  intros HF. destruct (fat_parts F ulo uhi) as (Hw & _ & _ & Ew & Eb & _); [lia..|].
  destruct (reach1 _ Hw) as [Hacc Hpa]. unfold fuword, uload. rewrite Ew.
  apply (obind_step _ _ _ _ Hacc). rewrite Hpa. done.
Qed.

Lemma suword_at m T x : 6 * ulo <= T < 6 * uhi ->
  suword upt (fat_at T) x m = Some (0, Mem (store (pm m) (T / 6) (utr (T / 6)) x)
                                         (niobulk m) (nioedge m) (nioshift m)).
Proof.
  intros HT. destruct (fat_parts T ulo uhi) as (Hw & _ & _ & Ew & Eb & _); [lia..|].
  destruct (reach1 _ Hw) as [Hacc Hpa]. unfold suword, ustore. rewrite Ew.
  apply (obind_step _ _ _ _ Hacc). rewrite Hpa. done.
Qed.

Lemma subyte_at m T c : 6 * ulo <= T < 6 * uhi -> 0 <= c < 256 ->
  subyte upt (fat_at T) c m =
    Some (0, Mem (store (pm m) (T / 6) (utr (T / 6))
                    (set_byte (load (pm m) (T / 6) (utr (T / 6))) (5 - T mod 6) c))
                 (niobulk m) (nioedge m) (nioshift m)).
Proof.
  intros HT Hc. destruct (fat_parts T ulo uhi) as (Hw & Hm & _ & Ew & Eb & _); [lia..|].
  destruct (reach1 _ Hw) as [Hacc Hpa]. unfold subyte, ustore, uload. rewrite Ew, Eb.
  apply (obind_step _ _ _ _ Hacc). rewrite Hpa. cbn [mbind option_bind].
  by rewrite subyte_word by lia.
Qed.

Section In.
Context (Hnz : 0 < klo) (Hapart : forall v w, ulo <= v < uhi -> klo <= w < khi -> utr v <> w).
Local Abbreviation copied_in := (copied utr id klo khi).

Lemma in_inj v v' : klo <= v < khi -> klo <= v' < khi -> id v = id v' -> v = v'.
Proof. done. Qed.

Lemma in_trans D S a b m m1 m2 : 0 <= a -> 0 <= b -> 6 * ulo <= S -> S + a + b <= 6 * uhi ->
  copied_in D S a m m1 -> copied_in (D + a) (S + a) b m1 m2 -> copied_in D S (a + b) m m2.
Proof. by apply copied_trans with (slo := ulo) (shi := uhi). Qed.

Lemma peel_in_spec n F T m :
  words (pm m) -> 6 * ulo <= F -> F + Z.of_nat n <= 6 * uhi ->
  6 * klo <= T -> T + Z.of_nat n <= 6 * khi ->
  exists m', peel_in upt n (fat_at F) (fat_at T) m =
      Some (inr (fat_at (F + Z.of_nat n), fat_at (T + Z.of_nat n), m')) /\
    copied_in T F (Z.of_nat n) (pm m) (pm m') /\ same_counts m m'.
Proof.
  revert F T m. induction n as [|n IH]; intros F T m Hm HF1 HF2 HT1 HT2.
  { exists m. rewrite !Z.add_0_r. split_and!; try done. by apply copied_refl. }
  cbn [peel_in]. rewrite fubyte_at by lia. cbn [mbind option_bind].
  pose proof (byte_range (load (pm m) (F / 6) (utr (F / 6))) (5 - F mod 6)) as Hc.
  fold (view_byte utr (pm m) F) in Hc. destruct (Z.ltb_spec (view_byte utr (pm m) F) 0); [lia|].
  destruct (fat_parts F ulo uhi) as (_ & _ & _ & _ & _ & ->); [lia..|].
  destruct (fat_parts T klo khi) as (Hw & _ & _ & -> & -> & ->); [lia..|].
  pose proof (copied_byte utr id klo khi Hnz in_inj T F (pm m) Hm ltac:(lia)) as H1.
  destruct (IH (F + 1) (T + 1)
    (kstore m (T / 6) (set_byte (kload m (T / 6)) (5 - T mod 6) (view_byte utr (pm m) F))))
    as (m' & -> & H2 & Hs); [apply H1|lia..|].
  exists m'. split_and!; [| |done].
  - replace (F + Z.of_nat (S n)) with (F + 1 + Z.of_nat n) by lia.
    by replace (T + Z.of_nat (S n)) with (T + 1 + Z.of_nat n) by lia.
  - replace (Z.of_nat (S n)) with (1 + Z.of_nat n) by lia. eapply in_trans; [lia..| |exact H2]. exact H1.
Qed.

Lemma ci_lp_spec n fw tw m :
  words (pm m) -> ulo <= fw -> fw + Z.of_nat n <= uhi -> klo <= tw -> tw + Z.of_nat n <= khi ->
  exists m', ci_lp upt n (fw mod 32768) (tw mod 32768) m = Some m' /\
    copied_in (6 * tw) (6 * fw) (6 * Z.of_nat n) (pm m) (pm m') /\ same_counts m m'.
Proof.
  revert fw tw m. induction n as [|n IH]; intros fw tw m Hm HF1 HF2 HT1 HT2.
  { exists m. split_and!; try done. by apply copied_refl. }
  cbn [ci_lp]. rewrite !(Z.mod_small fw), !(Z.mod_small tw) by lia. unfold uload.
  destruct (reach1 fw) as [_ ->]; [lia|]. cbn [mbind option_bind].
  pose proof (copied_aligned utr id klo khi Hnz in_inj fw tw (pm m) Hm ltac:(lia)) as H1.
  destruct (IH (fw + 1) (tw + 1) (kstore m tw (load (pm m) fw (utr fw)))) as (m' & -> & H2 & Hs);
    [apply H1|lia..|].
  exists m'. split_and!; [done| |done]. replace (6 * Z.of_nat (S n)) with (6 + 6 * Z.of_nat n) by lia.
  eapply in_trans; [lia..|exact H1|]. by replace (6 * tw + 6) with (6 * (tw + 1)) by lia;
    replace (6 * fw + 6) with (6 * (fw + 1)) by lia.
Qed.

Lemma funnel_in_spec n F T m cur :
  words (pm m) -> F mod 6 <> 0 -> T mod 6 = 0 -> 
  6 * ulo <= F -> F + 6 * Z.of_nat n <= 6 * uhi -> F < 6 * uhi ->
  6 * klo <= T -> T + 6 * Z.of_nat n <= 6 * khi ->
  cur = load (pm m) (F / 6) (utr (F / 6)) ->
  exists m', funnel_in upt n (8 * (F mod 6)) (8 * (6 - F mod 6)) cur (fat_at F) (T / 6) m = Some m' /\
    copied_in T F (6 * Z.of_nat n) (pm m) (pm m') /\ same_counts m m'.
Proof.
  revert F T m cur. induction n as [|n IH]; intros F T m cur Hm Hph H0 HF1 HF2 HF3 HT1 HT2 Hcur.
  { exists m. split_and!; try done. by apply copied_refl. }
  cbn [funnel_in].
  destruct (fat_parts F ulo uhi) as (HFw & HFm & HFe & _ & _ & ->); [lia..|].
  change NBPW with 6. cbv zeta.
  pose proof (div_mod_range (F + 6) 6). pose proof (Z.div_mod T 6).
  rewrite fuword_at, add6_div by (rewrite ?add6_div in *; lia). cbn [mbind option_bind].
  pose proof (copied_funnel utr id klo khi Hnz in_inj T F (pm m) Hm Hph H0 ltac:(lia)) as Hstep.
  rewrite <- Hcur in Hstep.
  destruct (IH (F + 6) (T + 6) (kstore m (T / 6) (wrap (Z.shiftl cur (8 * (F mod 6))) |:
      Z.shiftr (load (pm m) (F / 6 + 1) (utr (F / 6 + 1))) (8 * (6 - F mod 6))))
      (load (pm m) (F / 6 + 1) (utr (F / 6 + 1)))) as (m' & E & H2 & Hs);
    [apply Hstep|by rewrite add6_mod|by rewrite add6_mod|rewrite ?add6_div in *; lia..| |].
  { rewrite add6_div. symmetry.
    eapply (copied_source_word utr id ulo uhi klo khi); [done|exact Hstep|rewrite ?add6_div in *; lia]. }
  rewrite add6_mod, add6_div in E. exists m'. split_and!; [done| |done].
  replace (6 * Z.of_nat (S n)) with (6 + 6 * Z.of_nat n) by lia.
  eapply in_trans; [lia..|exact Hstep|exact H2].
Qed.

Lemma mid_in_spec F T mid m :
  words (pm m) -> 0 < mid < 16384 -> mid mod 6 = 0 -> T mod 6 = 0 ->
  6 * ulo <= F -> F + mid <= 6 * uhi -> 6 * klo <= T -> T + mid <= 6 * khi ->
  exists m', mid_in upt (fat_at F) (fat_at T) mid m = Some (inr m') /\
    copied_in T F mid (pm m) (pm m') /\ nioedge m' = nioedge m /\
    niobulk m' + nioshift m' = niobulk m + nioshift m + mid.
Proof.
  intros Hm Hmid H6 H0 HF1 HF2 HT1 HT2. unfold mid_in.
  destruct (fat_parts F ulo uhi) as (HFw & HFm & HFe & Fw & Fb & _); [lia..|].
  destruct (fat_parts T klo khi) as (HTw & HTm & HTe & Tw & Tb & _); [lia..|].
  pose proof (Z.div_mod mid 6) as Hmd. rewrite Fb, Tb, H0.
  destruct (Z.eqb_spec (5 - F mod 6) (5 - 0)) as [E|E].
  - assert (F mod 6 = 0) as F0 by lia.
    unfold copyin. rewrite divword_spec by lia. cbn [mbind option_bind].
    rewrite Fw, Tw. rewrite (proj1 Hreach (F / 6) (mid / 6)) by lia. cbn [mbind option_bind].
    destruct (ci_lp_spec (Z.to_nat (mid / 6)) (F / 6) (T / 6) m) as (m' & E' & H1 & Hs1 & Hs2 & Hs3); [done|lia..|].
    rewrite !(Z.mod_small (_ / 6) 32768) in E' by lia. rewrite E'. cbn.
    exists (add_bulk mid m'). split_and!; [done| |done|simpl; lia]. simpl.
    replace (6 * (T / 6)) with T in H1 by lia. replace (6 * (F / 6)) with F in H1 by lia.
    by replace (6 * Z.of_nat (Z.to_nat (mid / 6))) with mid in H1 by lia.
  - rewrite fuword_at by lia. cbn [mbind option_bind]. rewrite Tw. change NBPW with 6.
    rewrite Z.quot_div_nonneg by lia. replace (6 - 1 - (5 - F mod 6)) with (F mod 6) by lia.
    destruct (funnel_in_spec (Z.to_nat (mid / 6)) F T m (load (pm m) (F / 6) (utr (F / 6))))
      as (m' & -> & H1 & Hs1 & Hs2 & Hs3); [done|lia|done|lia..|done|].
    exists (add_shift mid m'). cbn. split_and!; [done| |done|lia].
    by replace (6 * Z.of_nat (Z.to_nat (mid / 6))) with mid in H1 by lia.
Qed.
End In.

Section Out.
Context (Hnz : 0 < ulo)
  (Hinj : forall v v', ulo <= v < uhi -> ulo <= v' < uhi -> utr v = utr v' -> v = v')
  (Hapart : forall w v, klo <= w < khi -> ulo <= v < uhi -> id w <> utr v).
Local Abbreviation copied_out := (copied id utr ulo uhi).

Lemma out_trans D S a b m m1 m2 : 0 <= a -> 0 <= b -> 6 * klo <= S -> S + a + b <= 6 * khi ->
  copied_out D S a m m1 -> copied_out (D + a) (S + a) b m1 m2 -> copied_out D S (a + b) m m2.
Proof. by apply copied_trans with (slo := klo) (shi := khi). Qed.

Lemma peel_out_spec n F T m :
  words (pm m) -> 6 * klo <= F -> F + Z.of_nat n <= 6 * khi ->
  6 * ulo <= T -> T + Z.of_nat n <= 6 * uhi ->
  exists m', peel_out upt n (fat_at F) (fat_at T) m =
      Some (inr (fat_at (F + Z.of_nat n), fat_at (T + Z.of_nat n), m')) /\
    copied_out T F (Z.of_nat n) (pm m) (pm m') /\ same_counts m m'.
Proof.
  revert F T m. induction n as [|n IH]; intros F T m Hm HF1 HF2 HT1 HT2.
  { exists m. rewrite !Z.add_0_r. split_and!; try done. by apply copied_refl. }
  cbn [peel_out].
  destruct (fat_parts F klo khi) as (_ & _ & _ & -> & -> & ->); [lia..|].
  destruct (fat_parts T ulo uhi) as (Hw & _ & _ & _ & _ & ->); [lia..|].
  rewrite subyte_at by (lia || apply byte_range). cbn [mbind option_bind]. cbv zeta.
  pose proof (copied_byte id utr ulo uhi Hnz Hinj T F (pm m) Hm ltac:(lia)) as H1.
  match type of H1 with copied _ _ _ _ _ _ _ _ ?f => set (f0 := f) in H1 end.
  destruct (IH (F + 1) (T + 1) (Mem f0 (niobulk m) (nioedge m) (nioshift m))) as (m' & E & H2 & Hs); [apply H1|lia..|].
  exists m'. split_and!; [| |exact Hs].
  - replace (F + Z.of_nat (S n)) with (F + 1 + Z.of_nat n) by lia.
    replace (T + Z.of_nat (S n)) with (T + 1 + Z.of_nat n) by lia. exact E.
  - replace (Z.of_nat (S n)) with (1 + Z.of_nat n) by lia. eapply out_trans; [lia..|exact H1|exact H2].
Qed.

Lemma co_lp_spec n fw tw m :
  words (pm m) -> klo <= fw -> fw + Z.of_nat n <= khi -> ulo <= tw -> tw + Z.of_nat n <= uhi ->
  exists m', co_lp upt n (fw mod 32768) (tw mod 32768) m = Some m' /\
    copied_out (6 * tw) (6 * fw) (6 * Z.of_nat n) (pm m) (pm m') /\ same_counts m m'.
Proof.
  revert fw tw m. induction n as [|n IH]; intros fw tw m Hm HF1 HF2 HT1 HT2.
  { exists m. split_and!; try done. by apply copied_refl. }
  cbn [co_lp]. rewrite !(Z.mod_small fw), !(Z.mod_small tw) by lia. unfold ustore.
  destruct (reach1 tw) as [_ ->]; [lia|]. cbn [mbind option_bind].
  pose proof (copied_aligned id utr ulo uhi Hnz Hinj fw tw (pm m) Hm ltac:(lia)) as H1.
  match type of H1 with copied _ _ _ _ _ _ _ _ ?f => set (f0 := f) in H1 end.
  destruct (IH (fw + 1) (tw + 1) (Mem f0 (niobulk m) (nioedge m) (nioshift m))) as (m' & E & H2 & Hs); [apply H1|lia..|].
  exists m'. split_and!; [exact E| |exact Hs].
  replace (6 * Z.of_nat (S n)) with (6 + 6 * Z.of_nat n) by lia.
  eapply out_trans; [lia..|exact H1|]. by replace (6 * tw + 6) with (6 * (tw + 1)) by lia;
    replace (6 * fw + 6) with (6 * (fw + 1)) by lia.
Qed.

Lemma funnel_out_spec n F T m cur :
  words (pm m) -> F mod 6 <> 0 -> T mod 6 = 0 ->
  6 * klo <= F -> F + 6 * Z.of_nat n <= 6 * khi -> F < 6 * khi ->
  6 * ulo <= T -> T + 6 * Z.of_nat n <= 6 * uhi ->
  cur = load (pm m) (F / 6) (F / 6) ->
  exists m', funnel_out upt n (8 * (F mod 6)) (8 * (6 - F mod 6)) cur (F / 6) (fat_at T) m = Some (inr m') /\
    copied_out T F (6 * Z.of_nat n) (pm m) (pm m') /\ same_counts m m'.
Proof.
  revert F T m cur. induction n as [|n IH]; intros F T m cur Hm Hph H0 HF1 HF2 HF3 HT1 HT2 Hcur.
  { exists m. split_and!; try done. by apply copied_refl. }
  cbn [funnel_out]. cbv zeta.
  pose proof (div_mod_range F 6). pose proof (div_mod_range (F + 6) 6). pose proof (Z.div_mod T 6).
  pose proof (Z.div_mod F 6).
  rewrite suword_at by lia. cbn [mbind option_bind].
  pose proof (copied_funnel id utr ulo uhi Hnz Hinj T F (pm m) Hm Hph H0 ltac:(lia)) as Hstep.
  unfold id in Hstep at 2 3. rewrite <- Hcur in Hstep.
  destruct (fat_parts T ulo uhi) as (_ & _ & _ & _ & _ & ->); [lia..|].
  match type of Hstep with copied _ _ _ _ _ _ _ _ ?f => set (f0 := f) in Hstep end.
  edestruct (IH (F + 6) (T + 6) (Mem f0 (niobulk m) (nioedge m) (nioshift m))) as (m' & E & Hrest & Hs);
    [apply Hstep|by rewrite add6_mod|by rewrite add6_mod|rewrite ?add6_div in *; lia..| |].
  { reflexivity. }
  rewrite add6_mod, add6_div in E. exists m'. split_and!; [|
    replace (6 * Z.of_nat (S n)) with (6 + 6 * Z.of_nat n) by lia; eapply out_trans; [lia..|exact Hstep|exact Hrest]|exact Hs].
  rewrite <- E. simpl Z.ltb. cbv iota. change NBPW with 6. f_equal. symmetry.
  apply (copied_source_word id utr klo khi ulo uhi Hapart _ _ _ _ _ _ Hstep). lia.
Qed.

Lemma mid_out_spec F T mid m :
  words (pm m) -> 0 < mid < 16384 -> mid mod 6 = 0 -> T mod 6 = 0 ->
  6 * klo <= F -> F + mid <= 6 * khi -> 6 * ulo <= T -> T + mid <= 6 * uhi ->
  exists m', mid_out upt (fat_at F) (fat_at T) mid m = Some (inr m') /\
    copied_out T F mid (pm m) (pm m') /\ nioedge m' = nioedge m /\
    niobulk m' + nioshift m' = niobulk m + nioshift m + mid.
Proof.
  intros Hm Hmid H6 H0 HF1 HF2 HT1 HT2. unfold mid_out.
  destruct (fat_parts F klo khi) as (HFw & HFm & HFe & Fw & Fb & _); [lia..|].
  destruct (fat_parts T ulo uhi) as (HTw & HTm & HTe & Tw & Tb & _); [lia..|].
  pose proof (Z.div_mod mid 6) as Hmd. rewrite Fb, Tb, H0.
  destruct (Z.eqb_spec (5 - F mod 6) (5 - 0)) as [E|E].
  - assert (F mod 6 = 0) as F0 by lia.
    unfold copyout. rewrite divword_spec by lia. cbn [mbind option_bind].
    rewrite Fw, Tw. rewrite (proj1 Hreach (T / 6) (mid / 6)) by lia. cbn [mbind option_bind].
    destruct (co_lp_spec (Z.to_nat (mid / 6)) (F / 6) (T / 6) m) as (m' & E' & H1 & Hs1 & Hs2 & Hs3); [done|lia..|].
    rewrite !(Z.mod_small (_ / 6) 32768) in E' by lia. rewrite E'. cbn.
    exists (add_bulk mid m'). split_and!; [done| |done|simpl; lia]. simpl.
    replace (6 * (T / 6)) with T in H1 by lia. replace (6 * (F / 6)) with F in H1 by lia.
    by replace (6 * Z.of_nat (Z.to_nat (mid / 6))) with mid in H1 by lia.
  - rewrite Fw. change NBPW with 6.
    rewrite Z.quot_div_nonneg by lia. replace (6 - 1 - (5 - F mod 6)) with (F mod 6) by lia.
    destruct (funnel_out_spec (Z.to_nat (mid / 6)) F T m (kload m (F / 6)))
      as (m' & -> & H1 & Hs1 & Hs2 & Hs3); [done|lia|done|lia..|done|].
    exists (add_shift mid m'). cbn. split_and!; [done| |done|lia].
    by replace (6 * Z.of_nat (Z.to_nat (mid / 6))) with mid in H1 by lia.
Qed.
End Out.
End Loops.

(** ** The three parts together *)

Lemma lead_of_spec T n lo hi : 6 * lo <= T < 6 * hi -> 0 <= lo -> hi <= 32768 -> 0 < n ->
  let l := lead_of (fat_at T) n in
  0 <= l <= n /\ l <= 5 /\ ((T + l) mod 6 = 0 \/ l = n).
Proof.
  intros HT Hlo Hhi Hn. destruct (fat_parts T lo hi) as (_ & Hm & He & _ & Hb & _); [lia..|].
  unfold lead_of. rewrite Hb. change NBPW with 6.
  destruct (Z.eqb_spec (5 - T mod 6 + 1) 6).
  - destruct (Z.ltb_spec n 0); [lia|]. split_and!; try lia. left. rewrite Z.add_0_r. lia.
  - destruct (Z.ltb_spec n (5 - T mod 6 + 1)); split_and!; try lia. left.
    symmetry. apply (Z.mod_unique_pos _ 6 (T / 6 + 1)); lia.
Qed.

Section Parts.
Context (trS trD : Z -> Z) (slo shi dlo dhi : Z)
  (peel : nat -> Z -> Z -> mem -> option moved)
  (middle : Z -> Z -> Z -> mem -> option (mem + mem))
  (Hslo : 0 <= slo) (Hshi : shi <= 32768) (Hdlo : 0 <= dlo) (Hdhi : dhi <= 32768)
  (Hpeel : forall n F T m,
    words (pm m) -> 6 * slo <= F -> F + Z.of_nat n <= 6 * shi ->
    6 * dlo <= T -> T + Z.of_nat n <= 6 * dhi ->
    exists m', peel n (fat_at F) (fat_at T) m =
        Some (inr (fat_at (F + Z.of_nat n), fat_at (T + Z.of_nat n), m')) /\
      copied trS trD dlo dhi T F (Z.of_nat n) (pm m) (pm m') /\ same_counts m m')
  (Hmiddle : forall F T mid m,
    words (pm m) -> 0 < mid < 16384 -> mid mod 6 = 0 -> T mod 6 = 0 ->
    6 * slo <= F -> F + mid <= 6 * shi -> 6 * dlo <= T -> T + mid <= 6 * dhi ->
    exists m', middle (fat_at F) (fat_at T) mid m = Some (inr m') /\
      copied trS trD dlo dhi T F mid (pm m) (pm m') /\ nioedge m' = nioedge m /\
      niobulk m' + nioshift m' = niobulk m + nioshift m + mid)
  (Htrans : forall D S a b m m1 m2, 0 <= a -> 0 <= b -> 6 * slo <= S -> S + a + b <= 6 * shi ->
    copied trS trD dlo dhi D S a m m1 -> copied trS trD dlo dhi (D + a) (S + a) b m1 m2 ->
    copied trS trD dlo dhi D S (a + b) m m2).

(** What a whole transfer of [n] bytes leaves, memory and counters. *)
Definition transferred (T F n : Z) (m m' : mem) : Prop :=
  copied trS trD dlo dhi T F n (pm m) (pm m') /\
  nioedge m' - nioedge m <= 10 /\
  niobulk m' + nioedge m' + nioshift m' = niobulk m + nioedge m + nioshift m + n.

Lemma three_parts_spec F T n m :
  words (pm m) -> 0 < n < 16384 ->
  6 * slo <= F -> F + n <= 6 * shi -> 6 * dlo <= T -> T + n <= 6 * dhi ->
  exists m', three_parts peel middle (fat_at F) (fat_at T) n m = Some (0, m') /\
    transferred T F n m m'.
Proof.
  intros Hm Hn HF1 HF2 HT1 HT2. unfold three_parts, transferred. change NBPW with 6.
  destruct (lead_of_spec T n dlo dhi) as (Hl & Hl5 & Hlt); [lia..|].
  set (l := lead_of (fat_at T) n) in *.
  destruct (Hpeel (Z.to_nat l) F T (add_edge l m)) as (m1 & -> & H1 & B1 & E1 & S1); [done|lia..|].
  rewrite Z2Nat.id in * by lia. cbn [mbind option_bind]. simpl in H1, B1, E1, S1.
  rewrite Z.rem_mod_nonneg by lia. pose proof (div_mod_range (n - l) 6) as [Hd Hr]; [lia|].
  pose proof (Z.div_mod (n - l) 6) as Hdm. set (r := (n - l) mod 6) in *.
  assert (exists m2, (if n - l - r =? 0 then Some (inr (fat_at (F + l), fat_at (T + l), n - l, m1))
     else r' ← middle (fat_at (F + l)) (fat_at (T + l)) (n - l - r) m1;
          Some (match r' with inl m => inl m
                | inr m => inr (padd (fat_at (F + l)) (n - l - r), padd (fat_at (T + l)) (n - l - r),
                                n - l - (n - l - r), m) end))
     = Some (inr (fat_at (F + (n - r)), fat_at (T + (n - r)), r, m2)) /\
     copied trS trD dlo dhi T F (n - r) (pm m) (pm m2) /\ nioedge m2 = nioedge m1 /\
     niobulk m2 + nioshift m2 = niobulk m1 + nioshift m1 + (n - l - r)) as (m2 & -> & H2 & E2 & BS2).
  { destruct (Z.eqb_spec (n - l - r) 0) as [E0|E0].
    - exists m1. replace (n - r) with l by lia. replace (n - l) with r by lia. split_and!; [done|done|done|lia].
    - destruct (Hmiddle (F + l) (T + l) (n - l - r) m1) as (m2 & -> & H2 & E2 & BS2);
        [apply H1|lia| |lia..|].
      { replace (n - l - r) with ((n - l) / 6 * 6) by lia. by apply Z.mod_mul. }
      exists m2. cbn [mbind option_bind].
      destruct (fat_parts (F + l) slo shi) as (_ & _ & _ & _ & _ & ->); [lia..|].
      destruct (fat_parts (T + l) dlo dhi) as (_ & _ & _ & _ & _ & ->); [lia..|].
      replace (F + l + (n - l - r)) with (F + (n - r)) by lia.
      replace (T + l + (n - l - r)) with (T + (n - r)) by lia.
      replace (n - l - (n - l - r)) with r by lia. split_and!; [done| |done|done].
      replace (n - r) with (l + (n - l - r)) by lia. eapply Htrans; [lia..|exact H1|exact H2]. }
  cbn [mbind option_bind].
  destruct (Hpeel (Z.to_nat r) (F + (n - r)) (T + (n - r)) (add_edge r m2)) as (m3 & -> & H3 & B3 & E3 & S3);
    [apply H2|lia..|].
  exists m3. cbn. simpl in H3, B3, E3, S3. rewrite Z2Nat.id in H3 by lia. split_and!; [done| |lia|lia].
  replace n with (n - r + r) by lia. eapply Htrans; [lia..|exact H2|exact H3].
Qed.
End Parts.

(** ** The two copies *)

(** The user words that bytes [F, F+n) touch. *)
Definition span (F n : Z) : Z := (F + n - 1) / 6 - F / 6 + 1.

Lemma span_bounds F n : 0 <= F -> 0 < n ->
  0 < span F n /\ 6 * (F / 6) <= F /\ F + n <= 6 * (F / 6 + span F n) /\
  Z.quot (F mod 6 + n + 5) 6 = span F n.
Proof.
  intros HF Hn. unfold span. pose proof (div_mod_range F 6). pose proof (div_mod_range (F + n - 1) 6).
  pose proof (Z.div_mod F 6). assert (F / 6 <= (F + n - 1) / 6) by (apply Z.div_le_mono; lia).
  split_and!; try lia. rewrite Z.quot_div_nonneg by lia. symmetry.
  pose proof (Z.div_mod (F + n - 1) 6).
  apply (Z.div_unique_pos _ _ _ ((F + n - 1) mod 6)); lia.
Qed.

(** [uspan] checks exactly the words the transfer touches, a ceiling. *)
Lemma uspan_spec upt F n : length upt = 8%nat -> nameable F -> 0 < n ->
  exists b, uspan upt (fat_at F) n = Some b /\
    (b = true <-> range_mapped upt (F / 6) (span F n)).
Proof.
  intros Hlen HF Hn. unfold uspan. destruct (fat_parts F 0 32768) as (Hw & Hm & _ & -> & -> & _);
    [unfold nameable, NBPW, KREACH in HF; lia..|].
  destruct (span_bounds F n) as (Hs & _ & _ & Hq); [unfold nameable in HF; lia|done|].
  change NBPW with 6. replace (6 - 1 - (5 - F mod 6) + n + 6 - 1) with (F mod 6 + n + 5) by lia.
  rewrite Hq. apply useracc_spec; [done|lia|done].
Qed.

Lemma range_mapped_sub upt a c v d : range_mapped upt a c -> a <= v -> 0 < d -> v + d <= a + c ->
  range_mapped upt v d.
Proof.
  intros [H1 H2] Hv Hd Hle. split; [lia|]. intros i Hi.
  replace (v + i) with (a + (v + i - a)) by lia. apply H2. lia.
Qed.

Lemma range_reachable upt lo hi : length upt = 8%nat -> 0 <= lo ->
  range_mapped upt lo (hi - lo) -> reachable upt lo hi.
Proof.
  intros Hlen Hlo Hmap. split.
  - intros v c Hv Hc Hle. destruct (useracc_spec upt v c) as (b & -> & Hb); [done|lia|done|].
    f_equal. apply Hb. eapply range_mapped_sub; [done|lia..].
  - intros v Hv. destruct Hmap as [Hmem _]. unfold utr.
    destruct (whole_table upt Hlen (v / 1024)) as (p & Hp & Hb).
    { unfold NPAGE, MAXMEM, NPAGE, PGSZ in *. pose proof (div_mod_range v 1024). lia. }
    by rewrite (physaddr_page upt v p) by (lia || done).
Qed.

(** [copyinb], whose middle is a word copy or a two-word funnel shift
    depending on the pointers' phases, is a plain byte copy from user to kernel
    memory: all or nothing on the mapping of the user's range, every destination
    byte the user's, every other byte of memory untouched, every byte counted
    once and at most ten of them one at a time. *)
Theorem copyinb_correct upt F T n m :
  length upt = 8%nat -> words (pm m) -> nameable F ->
  6 <= T -> T + n <= 6 * 32768 -> 0 < n < 16384 ->
  (forall v w, F / 6 <= v < F / 6 + span F n -> T / 6 <= w < T / 6 + span T n ->
     physaddr upt v <> Some w) ->
  (range_mapped upt (F / 6) (span F n) ->
     exists m', copyinb upt (fat_at F) (fat_at T) n m = Some (0, m') /\
       (forall i, 0 <= i < n -> view_byte id (pm m') (T + i) = view_byte (utr upt) (pm m) (F + i)) /\
       (forall B, B < T \/ T + n <= B -> view_byte id (pm m') B = view_byte id (pm m) B) /\
       nioedge m' - nioedge m <= 10 /\
       niobulk m' + nioedge m' + nioshift m' = niobulk m + nioedge m + nioshift m + n) /\
  (~ range_mapped upt (F / 6) (span F n) -> copyinb upt (fat_at F) (fat_at T) n m = Some (-1, m)).
Proof.
  intros Hlen Hm HF HT HTn Hn Hap. unfold copyinb. destruct (Z.leb_spec n 0); [lia|].
  destruct (uspan_spec upt F n) as (b & -> & Hb); [done..|lia|]. cbn [mbind option_bind].
  assert (0 <= F) by (unfold nameable in HF; lia).
  destruct (span_bounds F n) as (Hs & Hs1 & Hs2 & _); [done|lia|].
  destruct (span_bounds T n) as (Ht & Ht1 & Ht2 & _); [lia..|].
  split; intros Hmap; [apply Hb in Hmap as ->|destruct b; [by destruct Hmap; apply Hb|done]].
  assert (range_mapped upt (F / 6) (span F n)) as Hmap by by apply Hb. cbn [negb].
  set (shi := F / 6 + span F n) in *. set (dhi := T / 6 + span T n) in *.
  assert (reachable upt (F / 6) shi) as Hreach.
  { apply range_reachable; [done|pose proof (div_mod_range F 6); lia|]. by replace (shi - F / 6) with (span F n) by lia. }
  pose proof (div_mod_range T 6) as Hd6. pose proof (div_mod_range F 6) as Hd6'.
  assert (dhi <= 32768) as Hdhi.
  { subst dhi. unfold span. pose proof (div_mod_range (T + n - 1) 6). lia. }
  assert (shi <= 32768) as Hshi by (destruct Hmap as [H' _]; unfold MAXMEM, NPAGE, PGSZ in H'; lia).
  assert (forall v w, F / 6 <= v < shi -> T / 6 <= w < dhi -> utr upt v <> id w) as Hap'.
  { intros v w Hv Hw E. apply (Hap v w Hv Hw). unfold id in E. rewrite <- E. apply Hreach. done. }
  destruct (three_parts_spec (utr upt) id (F / 6) shi (T / 6) dhi (peel_in upt) (mid_in upt))
    with (F := F) (T := T) (n := n) (m := m) as (m' & -> & (Hw & HB & Hf) & He & Hc); try lia; try done.
  { intros. apply peel_in_spec with (ulo := F / 6) (uhi := shi); try lia; done. }
  { intros. apply mid_in_spec with (ulo := F / 6) (uhi := shi); try lia; done. }
  { intros. eapply in_trans with (ulo := F / 6) (uhi := shi); try lia; done. }
  exists m'. split_and!; [done| | |done|done].
  - intros i Hi. rewrite HB by lia. bool_cases; try lia. cbn. f_equal. lia.
  - intros B HBr. pose proof (div_mod_range B 6) as HdB.
    destruct (decide (T / 6 <= B / 6 < dhi)) as [Hin|Hout].
    + rewrite HB by lia. bool_cases; try lia; done.
    + unfold view_byte, load. rewrite (Hf (id (B / 6))); [done|]. intros v Hv E. unfold id in E. lia.
Qed.

(** Two pages of user text at physical page 40, a kernel buffer at word 5000;
    bytes 7..26 of the user (out of phase) go to byte 30002 of the kernel. *)
Definition upt0 : list Z := upt_word ([40; 41] ++ replicate 30 0) 0 <$> [0; 1; 2; 3; 4; 5; 6; 7].
Definition mem0 : mem := Mem (fun a => Z.land (a * 123456789) (Z.ones 48)) 0 0 0.

Lemma span_pages upt lo c : length upt = 8%nat -> 0 <= lo -> 0 < c -> lo + c <= MAXMEM ->
  useracc upt lo c = Some true -> range_mapped upt lo c.
Proof.
  intros Hlen Hlo Hc Hm Hacc. destruct (useracc_spec upt lo c Hlen Hlo Hc) as (b & E & Hb).
  apply Hb. congruence.
Qed.

Lemma mem0_words : words (pm mem0).
Proof. intros a. unfold mem0, word, WORD. simpl pm. rewrite Z.land_ones by lia. apply Z.mod_pos_bound. lia. Qed.

Lemma copyinb_correct_witness :
  exists m', copyinb upt0 (fat_at 7) (fat_at 30002) 20 mem0 = Some (0, m') /\
    view_byte id (pm m') 30004 = view_byte (utr upt0) (pm mem0) 9.
Proof.
  destruct (proj1 (copyinb_correct upt0 7 30002 20 mem0 ltac:(reflexivity) mem0_words
    ltac:(unfold nameable, NBPW, KREACH; lia) ltac:(lia) ltac:(lia) ltac:(lia) ltac:(
      intros v w Hv Hw; change (7 / 6) with 1 in Hv; change (span 7 20) with 4 in Hv;
      assert (v = 1 \/ v = 2 \/ v = 3 \/ v = 4) as Hc by lia;
      change (30002 / 6) with 5000 in Hw; change (span 30002 20) with 4 in Hw;
      destruct Hc as [-> | [-> | [-> | ->]]]; vm_compute; intros [= E]; lia)))
    as (m' & E & Hi & _).
  - change (7 / 6) with 1. change (span 7 20) with 4.
    apply span_pages; [reflexivity|lia|lia|vm_compute; discriminate|vm_compute; reflexivity].
  - exists m'. split; [exact E|]. exact (Hi 2 ltac:(lia)).
Defined.

(** [copyoutb] is, the other way round, a plain byte copy from kernel to
    user memory, all or nothing, wherever the user's pages are distinct and are
    not the source. *)
Theorem copyoutb_correct upt F T n m :
  length upt = 8%nat -> words (pm m) -> nameable T ->
  6 <= T -> 0 <= F -> F + n <= 6 * 32768 -> 0 < n < 16384 ->
  (forall v v', T / 6 <= v < T / 6 + span T n -> T / 6 <= v' < T / 6 + span T n ->
     physaddr upt v = physaddr upt v' -> v = v') ->
  (forall w v, F / 6 <= w < F / 6 + span F n -> T / 6 <= v < T / 6 + span T n ->
     physaddr upt v <> Some w) ->
  (range_mapped upt (T / 6) (span T n) ->
     exists m', copyoutb upt (fat_at F) (fat_at T) n m = Some (0, m') /\
       (forall i, 0 <= i < n -> view_byte (utr upt) (pm m') (T + i) = view_byte id (pm m) (F + i)) /\
       (forall B, 6 * (T / 6) <= B < 6 * (T / 6 + span T n) -> B < T \/ T + n <= B ->
          view_byte (utr upt) (pm m') B = view_byte (utr upt) (pm m) B) /\
       (forall pa, (forall v, T / 6 <= v < T / 6 + span T n -> physaddr upt v <> Some pa) ->
          pm m' pa = pm m pa) /\
       nioedge m' - nioedge m <= 10 /\
       niobulk m' + nioedge m' + nioshift m' = niobulk m + nioedge m + nioshift m + n) /\
  (~ range_mapped upt (T / 6) (span T n) -> copyoutb upt (fat_at F) (fat_at T) n m = Some (-1, m)).
Proof.
  intros Hlen Hm HT HT6 HF HFn Hn Hinj Hap. unfold copyoutb. destruct (Z.leb_spec n 0); [lia|].
  destruct (uspan_spec upt T n) as (b & -> & Hb); [done..|lia|]. cbn [mbind option_bind].
  destruct (span_bounds F n) as (Hs & Hs1 & Hs2 & _); [done|lia|].
  destruct (span_bounds T n) as (Ht & Ht1 & Ht2 & _); [lia..|].
  split; intros Hmap; [apply Hb in Hmap as ->|destruct b; [by destruct Hmap; apply Hb|done]].
  assert (range_mapped upt (T / 6) (span T n)) as Hmap by by apply Hb. cbn [negb].
  pose proof (div_mod_range T 6) as Hd6. pose proof (div_mod_range F 6) as Hd6'.
  set (shi := F / 6 + span F n) in *. set (dhi := T / 6 + span T n) in *.
  assert (reachable upt (T / 6) dhi) as Hreach.
  { apply range_reachable; [done|lia|]. by replace (dhi - T / 6) with (span T n) by lia. }
  assert (shi <= 32768) as Hshi.
  { subst shi. unfold span. pose proof (div_mod_range (F + n - 1) 6). lia. }
  assert (dhi <= 32768) as Hdhi by (destruct Hmap as [H' _]; unfold MAXMEM, NPAGE, PGSZ in H'; lia).
  assert (forall v, T / 6 <= v < dhi -> physaddr upt v = Some (utr upt v)) as Hpa by apply Hreach.
  assert (forall w v, F / 6 <= w < shi -> T / 6 <= v < dhi -> id w <> utr upt v) as Hap'.
  { intros w v Hw Hv E. apply (Hap w v Hw Hv). unfold id in E. rewrite E. by apply Hpa. }
  assert (forall v v', T / 6 <= v < dhi -> T / 6 <= v' < dhi -> utr upt v = utr upt v' -> v = v') as Hinj'.
  { intros v v' Hv Hv' E. apply Hinj; [done..|]. by rewrite !Hpa, E. }
  destruct (three_parts_spec id (utr upt) (F / 6) shi (T / 6) dhi (peel_out upt) (mid_out upt))
    with (F := F) (T := T) (n := n) (m := m) as (m' & -> & (Hw & HB & Hf) & He & Hc); try lia; try done.
  { intros. apply peel_out_spec with (ulo := T / 6) (uhi := dhi) (klo := F / 6) (khi := shi); try lia; done. }
  { intros. apply mid_out_spec with (ulo := T / 6) (uhi := dhi) (klo := F / 6) (khi := shi); try lia; done. }
  { intros. eapply out_trans with (ulo := T / 6) (uhi := dhi) (klo := F / 6) (khi := shi); try lia; done. }
  exists m'. split_and!; [done| | | |done|done].
  - intros i Hi. rewrite HB by lia. bool_cases; try lia. cbn. f_equal. lia.
  - intros B HBw HBr. rewrite HB by lia. bool_cases; try lia; done.
  - intros pa Hne. apply Hf. intros v Hv E. apply (Hne v Hv). rewrite <- E. by apply Hpa.
Qed.

Lemma copyoutb_correct_witness :
  exists m', copyoutb upt0 (fat_at 30002) (fat_at 7) 20 mem0 = Some (0, m') /\
    view_byte (utr upt0) (pm m') 9 = view_byte id (pm mem0) 30004.
Proof.
  destruct (proj1 (copyoutb_correct upt0 30002 7 20 mem0 ltac:(reflexivity) mem0_words
    ltac:(unfold nameable, NBPW, KREACH; lia) ltac:(lia) ltac:(lia) ltac:(lia) ltac:(lia)
    ltac:(intros v v' Hv Hv'; change (7 / 6) with 1 in *; change (span 7 20) with 4 in *;
      assert (v = 1 \/ v = 2 \/ v = 3 \/ v = 4) as Hc by lia;
      assert (v' = 1 \/ v' = 2 \/ v' = 3 \/ v' = 4) as Hc' by lia;
      destruct Hc as [-> | [-> | [-> | ->]]], Hc' as [-> | [-> | [-> | ->]]]; vm_compute;
      first [reflexivity|discriminate])
    ltac:(intros w v Hw Hv; change (7 / 6) with 1 in Hv; change (span 7 20) with 4 in Hv;
      assert (v = 1 \/ v = 2 \/ v = 3 \/ v = 4) as Hc by lia;
      change (30002 / 6) with 5000 in Hw; change (span 30002 20) with 4 in Hw;
      destruct Hc as [-> | [-> | [-> | ->]]]; vm_compute; intros [= E]; lia)))
    as (m' & E & Hi & _).
  - change (7 / 6) with 1. change (span 7 20) with 4.
    apply span_pages; [reflexivity|lia|lia|vm_compute; discriminate|vm_compute; reflexivity].
  - exists m'. split; [exact E|]. exact (Hi 2 ltac:(lia)).
Defined.

(** The divide takes a remainder of 16384 or more for an underflow: a count of
    20000 bytes is no words at all. *)
Lemma divword_truncates : divword 20000 = Some 0.
Proof. vm_compute. reflexivity. Qed.
