(* ===== verification/Proc.v ===== *)
(** * The process table: [include/sys/proc.h], [fsig] and [issig] of [kernel/sig.c]

    A pointer into [proc[]] is an index, [NULL] is [None]; [char] fields are
    unsigned 8-bit values. *)

From S2P Require Import Prelude Param.

Definition NPROC : Z := 150.
Definition NSIG : Z := 17.
Definition PSWP : Z := 0.
Definition PZERO : Z := 25.
Definition NZERO : Z := 20.
Definition PUSER : Z := 50.

Definition SSLEEP : Z := 1.
Definition SRUN : Z := 3.
Definition SIDL : Z := 4.
Definition SZOMB : Z := 5.
Definition SSTOP : Z := 6.

Definition SLOAD : Z := 1.
Definition SSYS : Z := 2.
Definition SLOCK : Z := 4.
Definition SSWAP : Z := 8.
Definition STRC : Z := 16.
Definition SWTED : Z := 32.
Definition SULOCK : Z := 64.

Record proc := Proc {
  p_stat : Z;
  p_flag : Z;
  p_pri : Z;  (* priority *)
  p_time : Z;  (* resident time for scheduling *)
  p_cpu : Z;  (* cpu usage for scheduling *)
  p_nice : Z;  (* nice for cpu usage *)
  p_sig : Z;  (* signals pending *)
  p_uid : Z;
  p_pgrp : Z;
  p_pid : Z;
  p_ppid : Z;
  p_addr : Z;  (* of the swappable image *)
  p_size : Z;  (* of the swappable image *)
  p_wchan : Z;  (* event awaited *)
  p_textp : option nat;  (* index in text[] *)
  p_link : option nat;  (* index in proc[] *)
  p_clktim : Z  (* time to alarm *)
}.

Definition set_p_stat (v : Z) (r : proc) : proc :=
  Proc v (p_flag r) (p_pri r) (p_time r) (p_cpu r) (p_nice r) (p_sig r) (p_uid r) (p_pgrp r)
  (p_pid r) (p_ppid r) (p_addr r) (p_size r) (p_wchan r) (p_textp r) (p_link r) (p_clktim r).
Definition set_p_flag (v : Z) (r : proc) : proc :=
  Proc (p_stat r) v (p_pri r) (p_time r) (p_cpu r) (p_nice r) (p_sig r) (p_uid r) (p_pgrp r)
  (p_pid r) (p_ppid r) (p_addr r) (p_size r) (p_wchan r) (p_textp r) (p_link r) (p_clktim r).
Definition set_p_pri (v : Z) (r : proc) : proc :=
  Proc (p_stat r) (p_flag r) v (p_time r) (p_cpu r) (p_nice r) (p_sig r) (p_uid r) (p_pgrp r)
  (p_pid r) (p_ppid r) (p_addr r) (p_size r) (p_wchan r) (p_textp r) (p_link r) (p_clktim r).
Definition set_p_time (v : Z) (r : proc) : proc :=
  Proc (p_stat r) (p_flag r) (p_pri r) v (p_cpu r) (p_nice r) (p_sig r) (p_uid r) (p_pgrp r)
  (p_pid r) (p_ppid r) (p_addr r) (p_size r) (p_wchan r) (p_textp r) (p_link r) (p_clktim r).
Definition set_p_cpu (v : Z) (r : proc) : proc :=
  Proc (p_stat r) (p_flag r) (p_pri r) (p_time r) v (p_nice r) (p_sig r) (p_uid r) (p_pgrp r)
  (p_pid r) (p_ppid r) (p_addr r) (p_size r) (p_wchan r) (p_textp r) (p_link r) (p_clktim r).
Definition set_p_nice (v : Z) (r : proc) : proc :=
  Proc (p_stat r) (p_flag r) (p_pri r) (p_time r) (p_cpu r) v (p_sig r) (p_uid r) (p_pgrp r)
  (p_pid r) (p_ppid r) (p_addr r) (p_size r) (p_wchan r) (p_textp r) (p_link r) (p_clktim r).
Definition set_p_sig (v : Z) (r : proc) : proc :=
  Proc (p_stat r) (p_flag r) (p_pri r) (p_time r) (p_cpu r) (p_nice r) v (p_uid r) (p_pgrp r)
  (p_pid r) (p_ppid r) (p_addr r) (p_size r) (p_wchan r) (p_textp r) (p_link r) (p_clktim r).
Definition set_p_uid (v : Z) (r : proc) : proc :=
  Proc (p_stat r) (p_flag r) (p_pri r) (p_time r) (p_cpu r) (p_nice r) (p_sig r) v (p_pgrp r)
  (p_pid r) (p_ppid r) (p_addr r) (p_size r) (p_wchan r) (p_textp r) (p_link r) (p_clktim r).
Definition set_p_pgrp (v : Z) (r : proc) : proc :=
  Proc (p_stat r) (p_flag r) (p_pri r) (p_time r) (p_cpu r) (p_nice r) (p_sig r) (p_uid r) v
  (p_pid r) (p_ppid r) (p_addr r) (p_size r) (p_wchan r) (p_textp r) (p_link r) (p_clktim r).
Definition set_p_pid (v : Z) (r : proc) : proc :=
  Proc (p_stat r) (p_flag r) (p_pri r) (p_time r) (p_cpu r) (p_nice r) (p_sig r) (p_uid r) (p_pgrp
  r) v (p_ppid r) (p_addr r) (p_size r) (p_wchan r) (p_textp r) (p_link r) (p_clktim r).
Definition set_p_ppid (v : Z) (r : proc) : proc :=
  Proc (p_stat r) (p_flag r) (p_pri r) (p_time r) (p_cpu r) (p_nice r) (p_sig r) (p_uid r) (p_pgrp
  r) (p_pid r) v (p_addr r) (p_size r) (p_wchan r) (p_textp r) (p_link r) (p_clktim r).
Definition set_p_addr (v : Z) (r : proc) : proc :=
  Proc (p_stat r) (p_flag r) (p_pri r) (p_time r) (p_cpu r) (p_nice r) (p_sig r) (p_uid r) (p_pgrp
  r) (p_pid r) (p_ppid r) v (p_size r) (p_wchan r) (p_textp r) (p_link r) (p_clktim r).
Definition set_p_size (v : Z) (r : proc) : proc :=
  Proc (p_stat r) (p_flag r) (p_pri r) (p_time r) (p_cpu r) (p_nice r) (p_sig r) (p_uid r) (p_pgrp
  r) (p_pid r) (p_ppid r) (p_addr r) v (p_wchan r) (p_textp r) (p_link r) (p_clktim r).
Definition set_p_wchan (v : Z) (r : proc) : proc :=
  Proc (p_stat r) (p_flag r) (p_pri r) (p_time r) (p_cpu r) (p_nice r) (p_sig r) (p_uid r) (p_pgrp
  r) (p_pid r) (p_ppid r) (p_addr r) (p_size r) v (p_textp r) (p_link r) (p_clktim r).
Definition set_p_textp (v : option nat) (r : proc) : proc :=
  Proc (p_stat r) (p_flag r) (p_pri r) (p_time r) (p_cpu r) (p_nice r) (p_sig r) (p_uid r) (p_pgrp
  r) (p_pid r) (p_ppid r) (p_addr r) (p_size r) (p_wchan r) v (p_link r) (p_clktim r).
Definition set_p_link (v : option nat) (r : proc) : proc :=
  Proc (p_stat r) (p_flag r) (p_pri r) (p_time r) (p_cpu r) (p_nice r) (p_sig r) (p_uid r) (p_pgrp
  r) (p_pid r) (p_ppid r) (p_addr r) (p_size r) (p_wchan r) (p_textp r) v (p_clktim r).
Definition set_p_clktim (v : Z) (r : proc) : proc :=
  Proc (p_stat r) (p_flag r) (p_pri r) (p_time r) (p_cpu r) (p_nice r) (p_sig r) (p_uid r) (p_pgrp
  r) (p_pid r) (p_ppid r) (p_addr r) (p_size r) (p_wchan r) (p_textp r) (p_link r) v.

(** The scheduler's variables and the part of the u-area it uses. *)
Record sys := Sys {
  proc_tab : list proc;  (* proc[NPROC] *)
  slpque : list (option nat);  (* heads of the sleep queues *)
  runq : option nat;  (* head of the run queue *)
  mpid : Z;
  runin : Z;
  runout : Z;
  runrun : Z;
  curpri : Z;
  nswtch : Z;
  on_q : Z;  (* how often setrq printed its diagnostic *)
  u_procp : nat;  (* the current process *)
  u_signal : list Z  (* u.u_signal[NSIG] of the current process *)
}.

Definition set_proc_tab (v : list proc) (r : sys) : sys :=
  Sys v (slpque r) (runq r) (mpid r) (runin r) (runout r) (runrun r) (curpri r) (nswtch r) (on_q
  r) (u_procp r) (u_signal r).
Definition set_slpque (v : list (option nat)) (r : sys) : sys :=
  Sys (proc_tab r) v (runq r) (mpid r) (runin r) (runout r) (runrun r) (curpri r) (nswtch r) (on_q
  r) (u_procp r) (u_signal r).
Definition set_runq (v : option nat) (r : sys) : sys :=
  Sys (proc_tab r) (slpque r) v (mpid r) (runin r) (runout r) (runrun r) (curpri r) (nswtch r)
  (on_q r) (u_procp r) (u_signal r).
Definition set_mpid (v : Z) (r : sys) : sys :=
  Sys (proc_tab r) (slpque r) (runq r) v (runin r) (runout r) (runrun r) (curpri r) (nswtch r)
  (on_q r) (u_procp r) (u_signal r).
Definition set_runin (v : Z) (r : sys) : sys :=
  Sys (proc_tab r) (slpque r) (runq r) (mpid r) v (runout r) (runrun r) (curpri r) (nswtch r)
  (on_q r) (u_procp r) (u_signal r).
Definition set_runout (v : Z) (r : sys) : sys :=
  Sys (proc_tab r) (slpque r) (runq r) (mpid r) (runin r) v (runrun r) (curpri r) (nswtch r) (on_q
  r) (u_procp r) (u_signal r).
Definition set_runrun (v : Z) (r : sys) : sys :=
  Sys (proc_tab r) (slpque r) (runq r) (mpid r) (runin r) (runout r) v (curpri r) (nswtch r) (on_q
  r) (u_procp r) (u_signal r).
Definition set_curpri (v : Z) (r : sys) : sys :=
  Sys (proc_tab r) (slpque r) (runq r) (mpid r) (runin r) (runout r) (runrun r) v (nswtch r) (on_q
  r) (u_procp r) (u_signal r).
Definition set_nswtch (v : Z) (r : sys) : sys :=
  Sys (proc_tab r) (slpque r) (runq r) (mpid r) (runin r) (runout r) (runrun r) (curpri r) v (on_q
  r) (u_procp r) (u_signal r).
Definition set_on_q (v : Z) (r : sys) : sys :=
  Sys (proc_tab r) (slpque r) (runq r) (mpid r) (runin r) (runout r) (runrun r) (curpri r) (nswtch
  r) v (u_procp r) (u_signal r).
Definition set_u_procp (v : nat) (r : sys) : sys :=
  Sys (proc_tab r) (slpque r) (runq r) (mpid r) (runin r) (runout r) (runrun r) (curpri r) (nswtch
  r) (on_q r) v (u_signal r).
Definition set_u_signal (v : list Z) (r : sys) : sys :=
  Sys (proc_tab r) (slpque r) (runq r) (mpid r) (runin r) (runout r) (runrun r) (curpri r) (nswtch
  r) (on_q r) (u_procp r) v.

(** ** Access to the table *)

Definition getp (p : nat) (s : sys) : res proc := access (proc_tab s) p.
Definition modp (p : nat) (f : proc -> proc) (s : sys) : sys := set_proc_tab (alter f p (proc_tab s)) s.

(** ** Pending signals *)

(** The loop of [fsig]: signal [i] is bit 1 of what is left of the word. *)
Fixpoint fsig_loop (fuel : nat) (i n : Z) : Z :=
  match fuel with
  | O => 0
  | S fuel => if n &? 1 then i else fsig_loop fuel (i + 1) (Z.shiftr n 1)
  end.
Definition fsig (p : proc) : Z := fsig_loop (Z.to_nat (NSIG - 1)) 1 (p_sig p).

(** [issig]'s loop clears one ignored signal a turn; fuel one turn per signal. *)
Fixpoint issig_loop (fuel : nat) (s : sys) : res (Z * sys) :=
  p ← getp (u_procp s) s;
  if p_sig p =? 0 then Ok (0, s)
  else
    match fuel with
    | O => NoFuel
    | S fuel =>
        let n := fsig p in
        act ← access (u_signal s) (Z.to_nat n);
        if negb (act =? 1) || (p_flag p &? STRC) then Ok (n, s)
        else issig_loop fuel (modp (u_procp s) (set_p_sig (p_sig p &~ Z.shiftl 1 (n - 1))) s)
    end.
Definition issig (s : sys) : res (Z * sys) := issig_loop (Z.to_nat NSIG) s.

(** ** Queues threaded through [p_link] *)

Fixpoint chain (tab : list proc) (start : option nat) (l : list nat) : Prop :=
  match l with
  | [] => start = None
  | p :: l => start = Some p /\ exists x, tab !! p = Some x /\ chain tab (p_link x) l
  end.

Lemma chain_in tab st l p : chain tab st l -> p ∈ l -> exists x, tab !! p = Some x.
Proof.
  revert st. induction l as [|a l IH]; intros st H Hp; [set_solver|].
  destruct H as (_ & x & Hx & Hc). apply elem_of_cons in Hp as [->|Hp]; eauto.
Qed.

Lemma chain_app tab st l1 p l2 : chain tab st (l1 ++ p :: l2) ->
  exists x, tab !! p = Some x /\ chain tab (p_link x) l2.
Proof.
  revert st. induction l1 as [|a l1 IH]; intros st; simpl.
  - intros (_ & x & Hx & Hc). eauto.
  - intros (_ & x & Hx & Hc). eauto.
Qed.

(** Updates that leave the chain's links alone leave the chain alone. *)
Lemma chain_alter tab st l f p : (p ∈ l -> forall x, tab !! p = Some x -> p_link (f x) = p_link x) ->
  chain tab st l -> chain (alter f p tab) st l.
Proof.
  revert st. induction l as [|a l IH]; intros st Hf; simpl; [done|].
  intros (-> & x & Hx & Hc). split; [done|].
  assert (chain (alter f p tab) (p_link x) l) by (apply IH; [intros; apply Hf; [by right|done]|done]).
  destruct (decide (a = p)) as [->|Hne].
  - exists (f x). rewrite list_lookup_alter_eq, Hx. split; [done|]. by rewrite Hf by (by left || done).
  - exists x. by rewrite list_lookup_alter_ne.
Qed.

(** Unlinking the element after [q]. *)
Lemma chain_unlink tab st pre q p x l : NoDup (pre ++ q :: p :: l) -> tab !! p = Some x ->
  chain tab st (pre ++ q :: p :: l) -> chain (alter (set_p_link (p_link x)) q tab) st (pre ++ q :: l).
Proof.
  intros Hnd Hx. revert st. induction pre as [|a pre IH]; intros st; simpl.
  - intros (-> & y & Hy & Hl & x' & Hx' & Hc). split; [done|]. simplify_eq.
    exists (set_p_link (p_link x) y). rewrite list_lookup_alter_eq, Hy. split; [done|]. simpl.
    apply chain_alter; [|done]. intros Hq. exfalso. simpl in Hnd.
    apply NoDup_cons in Hnd as [Hq' _]. apply Hq'. by right.
  - simpl in Hnd. apply NoDup_cons in Hnd as [Ha Hnd]. intros (-> & y & Hy & Hc). split; [done|].
    exists y. rewrite list_lookup_alter_ne; [split; [done|]; by apply IH|].
    intros ->. apply Ha. set_solver.
Qed.

(** ** Well-formed queues

    [R] lists the run queue and [Q i] sleep queue [i].  A process on a sleep queue
    waits for a channel that hashes there; one on the run queue waits for nothing:
    so no process is on two queues. *)

Record queues (hash : Z -> Z) (s : sys) (R : list nat) (Q : Z -> list nat) : Prop := Queues {
  q_run : chain (proc_tab s) (runq s) R;
  q_run_nodup : NoDup R;
  q_run_idle : forall p x, p ∈ R -> proc_tab s !! p = Some x -> p_wchan x = 0;
  q_heads : length (slpque s) = 64%nat;
  q_slp : forall i, 0 <= i < 64 -> exists st,
      slpque s !! Z.to_nat i = Some st /\ chain (proc_tab s) st (Q i);
  q_slp_nodup : forall i, 0 <= i < 64 -> NoDup (Q i);
  q_slp_waits : forall i p x, 0 <= i < 64 -> p ∈ Q i -> proc_tab s !! p = Some x ->
      p_wchan x <> 0 /\ hash (p_wchan x) = i /\ p_stat x <> 0 /\ p_stat x <> SZOMB;
}.

(** A process as seen apart from its place in a queue. *)
Definition unlinked (x : proc) : proc := set_p_link None x.

(** The table with the processes of [W] awake and everything else, links apart,
    as it was. *)
Definition wake (x : proc) : proc := set_p_stat SRUN (set_p_wchan 0 x).
Definition awakened (W : list nat) (s s' : sys) : Prop :=
  length (proc_tab s') = length (proc_tab s) /\
  forall p x, proc_tab s !! p = Some x -> exists x', proc_tab s' !! p = Some x' /\
    unlinked x' = unlinked (if decide (p ∈ W) then wake x else x).

Lemma awakened_nil s : awakened [] s s.
Proof. split; [done|]. intros p x Hx. exists x. split; [done|]. by rewrite decide_False by set_solver. Qed.

Lemma wake_idem x : wake (wake x) = wake x.
Proof. done. Qed.

Lemma unlinked_wake x y : unlinked x = unlinked y -> unlinked (wake x) = unlinked (wake y).
Proof. intros H. destruct x, y. unfold unlinked, wake in *. simpl in *. by simplify_eq. Qed.

Lemma awakened_trans W1 W2 s s1 s2 : awakened W1 s s1 -> awakened W2 s1 s2 -> awakened (W1 ++ W2) s s2.
Proof.
  intros [L1 H1] [L2 H2]. split; [congruence|]. intros p x Hx.
  destruct (H1 p x Hx) as (x1 & Hx1 & E1). destruct (H2 p x1 Hx1) as (x2 & Hx2 & E2).
  exists x2. split; [done|]. rewrite E2.
  destruct (decide (p ∈ W1)), (decide (p ∈ W2)), (decide (p ∈ W1 ++ W2)) as [Ha|Ha];
    rewrite elem_of_app in Ha; try tauto.
  - by rewrite (unlinked_wake _ _ E1).
  - by rewrite (unlinked_wake _ _ E1).
Qed.

Lemma awakened_modp p f s : (forall x, unlinked (f x) = unlinked x) -> awakened [] s (modp p f s).
Proof.
  intros Hf. split; [by unfold modp; simpl; rewrite length_alter|]. intros r x Hx.
  rewrite decide_False by set_solver. unfold modp. simpl. destruct (decide (r = p)) as [->|].
  - exists (f x). by rewrite list_lookup_alter_eq, Hx.
  - exists x. by rewrite list_lookup_alter_ne.
Qed.

(** The scheduler's variables other than the queues, [runrun] and [runout]. *)
Definition quiet (s s' : sys) : Prop :=
  runin s' = runin s /\ curpri s' = curpri s /\ mpid s' = mpid s /\ nswtch s' = nswtch s /\
  on_q s' = on_q s /\ u_procp s' = u_procp s /\ u_signal s' = u_signal s.

Lemma quiet_refl s : quiet s s.
Proof. by repeat split. Qed.

Lemma quiet_trans s1 s2 s3 : quiet s1 s2 -> quiet s2 s3 -> quiet s1 s3.
Proof. unfold quiet. intros (? & ? & ? & ? & ? & ? & ?) (? & ? & ? & ? & ? & ? & ?). split_and!; congruence. Qed.

#[export] Hint Resolve quiet_refl awakened_nil : core.

(** A process on no queue. *)
Definition off_queues (p : nat) (R : list nat) (Q : Z -> list nat) : Prop :=
  p ∉ R /\ forall i, 0 <= i < 64 -> p ∉ Q i.

Section Queues.
Context (hash : Z -> Z) (Hhash : forall c, 0 <= hash c < 64).

Lemma queues_bound s R Q p : queues hash s R Q -> p ∈ R -> (p < length (proc_tab s))%nat.
Proof.
  intros Hq Hp. destruct (chain_in _ _ _ _ (q_run _ _ _ _ Hq) Hp) as [x Hx]. by eapply lookup_lt_Some.
Qed.

Lemma nodup_bound (l : list nat) n : NoDup l -> (forall p, p ∈ l -> (p < n)%nat) -> (length l <= n)%nat.
Proof.
  intros Hnd Hl. rewrite <- (length_seq n 0). apply submseteq_length, NoDup_submseteq; [done|].
  intros p Hp. apply elem_of_seq. specialize (Hl p Hp). lia.
Qed.

Lemma queues_run_length s R Q : queues hash s R Q -> (length R <= length (proc_tab s))%nat.
Proof. intros Hq. apply nodup_bound; [apply Hq|]. intros p. by apply (queues_bound s R Q). Qed.

Lemma queues_slp_length s R Q i : queues hash s R Q -> 0 <= i < 64 ->
  (length (Q i) <= length (proc_tab s))%nat.
Proof.
  intros Hq Hi. apply nodup_bound; [by apply Hq|]. intros p Hp.
  destruct (q_slp _ _ _ _ Hq i Hi) as (st & _ & Hc). destruct (chain_in _ _ _ _ Hc Hp) as [x Hx].
  by eapply lookup_lt_Some.
Qed.

(** No process is on two queues. *)
Lemma queues_disjoint s R Q i p : queues hash s R Q -> 0 <= i < 64 -> p ∈ Q i ->
  p ∉ R /\ forall j, 0 <= j < 64 -> j <> i -> p ∉ Q j.
Proof.
  intros Hq Hi Hp. destruct (q_slp _ _ _ _ Hq i Hi) as (st & _ & Hc).
  destruct (chain_in _ _ _ _ Hc Hp) as [x Hx].
  destruct (q_slp_waits _ _ _ _ Hq i p x Hi Hp Hx) as (Hw & Hh & _). split.
  - intros HR. by apply (q_run_idle _ _ _ _ Hq p x HR) in Hx.
  - intros j Hj Hne Hp'. destruct (q_slp_waits _ _ _ _ Hq j p x Hj Hp' Hx) as (_ & Hh' & _). congruence.
Qed.

(** Changing a process that is on no queue. *)
Lemma queues_modp_off s R Q p f : queues hash s R Q -> off_queues p R Q -> queues hash (modp p f s) R Q.
Proof.
  intros [] [HR HQ]. unfold modp. constructor; simpl; try done.
  - apply chain_alter; [done|done].
  - intros r x Hr. rewrite list_lookup_alter_ne; [eauto|]. by intros <-.
  - intros i Hi. destruct (q_slp0 i Hi) as (st & Hst & Hc). exists st. split; [done|].
    apply chain_alter; [|done]. intros Hp. by apply HQ in Hp.
  - intros i r x Hi Hr. rewrite list_lookup_alter_ne; [eauto|]. intros <-. by apply (HQ i).
Qed.

(** Putting such a process, waiting for nothing, at the head of the run queue. *)
Lemma queues_push s R Q p x : queues hash s R Q -> off_queues p R Q ->
  proc_tab s !! p = Some x -> p_wchan x = 0 ->
  queues hash (set_runq (Some p) (modp p (set_p_link (runq s)) s)) (p :: R) Q.
Proof.
  intros Hq Hoff Hx Hw. pose proof (queues_modp_off s R Q p (set_p_link (runq s)) Hq Hoff) as [].
  destruct Hoff as [HR HQ]. constructor; simpl in *; try done.
  - split; [done|]. exists (set_p_link (runq s) x). rewrite list_lookup_alter_eq, Hx. split; [done|]. done.
  - by apply NoDup_cons.
  - intros r y Hr Hy. apply elem_of_cons in Hr as [->|Hr]; [|eauto].
    rewrite list_lookup_alter_eq, Hx in Hy. by injection Hy as <-.
Qed.

(** Taking one off a sleep queue the way [wakeup] does. *)
Definition unlink_slp (i : Z) (q : option nat) (sp : option nat) (s : sys) : sys :=
  match q with
  | None => set_slpque (<[Z.to_nat i := sp]> (slpque s)) s
  | Some q => modp q (set_p_link sp) s
  end.

Lemma queues_unlink s R Q i pre p l x : queues hash s R Q -> 0 <= i < 64 ->
  Q i = pre ++ p :: l -> proc_tab s !! p = Some x ->
  let s' := modp p (set_p_wchan 0) (unlink_slp i (last pre) (p_link x) s) in
  queues hash s' R (fun j => if j =? i then pre ++ l else Q j) /\
  off_queues p R (fun j => if j =? i then pre ++ l else Q j) /\
  exists x', proc_tab s' !! p = Some x' /\ p_wchan x' = 0 /\ unlinked x' = unlinked (set_p_wchan 0 x).
Proof.
  intros Hq Hi HQi Hx s'. pose proof Hq as [].
  assert (p ∈ Q i) as Hp by (rewrite HQi; set_solver).
  pose proof (q_slp_nodup0 i Hi) as Hnd. rewrite HQi in Hnd.
  destruct (queues_disjoint s R Q i p Hq Hi Hp) as [HpR HpQ].
  assert (off_queues p R (fun j => if j =? i then pre ++ l else Q j)) as Hoff.
  { split; [done|]. intros j Hj. destruct (Z.eqb_spec j i) as [->|]; [|by apply HpQ].
    apply NoDup_app in Hnd as (_ & Hd & Hnd). apply NoDup_cons in Hnd as [Hnl _].
    rewrite elem_of_app. intros [H|H]; [|done]. apply (Hd p H). by left. }
  assert (queues hash (unlink_slp i (last pre) (p_link x) s) R (fun j => if j =? i then pre ++ l else Q j)) as Hu.
  { destruct (q_slp0 i Hi) as (st & Hst & Hc). rewrite HQi in Hc.
    destruct (last pre) as [q|] eqn:Hlast; unfold unlink_slp, modp.
    - apply last_Some in Hlast as [pre' ->]. rewrite <- app_assoc in Hc, Hnd. simpl in Hc, Hnd.
      assert (q ∈ Q i) as Hqi by (rewrite HQi; set_solver).
      destruct (queues_disjoint s R Q i q Hq Hi Hqi) as [HqR HqQ].
      constructor; simpl; try done.
      + apply chain_alter; done.
      + intros r y Hr. rewrite list_lookup_alter_ne; [eauto|]. by intros <-.
      + intros j Hj. destruct (Z.eqb_spec j i) as [->|Hne].
        * exists st. split; [done|]. rewrite <- app_assoc. simpl. eapply chain_unlink; [exact Hnd|done|done].
        * destruct (q_slp0 j Hj) as (st' & Hst' & Hc'). exists st'. split; [done|].
          apply chain_alter; [|done]. intros H. by apply HqQ in H.
      + intros j Hj. destruct (Z.eqb_spec j i) as [->|Hne]; [|by apply q_slp_nodup0].
        eapply sublist_NoDup; [exact Hnd|]. rewrite <- app_assoc. apply sublist_app; [done|].
        by apply sublist_skip, sublist_cons.
      + intros j r y Hj Hr Hy. assert (r ∈ Q j) as Hr'.
        { destruct (Z.eqb_spec j i) as [->|]; [|done]. rewrite HQi. set_solver. }
        destruct (decide (r = q)) as [->|Hne].
        * rewrite list_lookup_alter_eq in Hy. destruct (proc_tab s !! q) as [z|] eqn:Hz; [|done].
          injection Hy as <-. by apply (q_slp_waits0 j q z).
        * rewrite list_lookup_alter_ne in Hy by done. eauto.
    - apply last_None in Hlast as ->. simpl in *. destruct Hc as (-> & x' & Hx' & Hc). simplify_eq.
      constructor; simpl; try done.
      + by rewrite length_insert.
      + intros j Hj. destruct (Z.eqb_spec j i) as [->|Hne].
        * exists (p_link x). by rewrite list_lookup_insert_eq by lia.
        * rewrite list_lookup_insert_ne by lia. by apply q_slp0.
      + intros j Hj. destruct (Z.eqb_spec j i) as [->|Hne]; [|by apply q_slp_nodup0].
        by apply NoDup_cons in Hnd as [_ ?].
      + intros j r y Hj Hr Hy. apply (q_slp_waits0 j r y); [done| |done].
        destruct (Z.eqb_spec j i) as [->|]; [rewrite HQi; by right|done]. }
  split_and!; [by apply queues_modp_off|done|].
  assert (exists y, proc_tab (unlink_slp i (last pre) (p_link x) s) !! p = Some y /\ unlinked y = unlinked x)
    as (y & Hy & Hyx).
  { unfold unlink_slp. destruct (last pre) as [q|]; [|by exists x]. unfold modp. simpl.
    destruct (decide (p = q)) as [->|]; [rewrite list_lookup_alter_eq, Hx; by eexists|].
    rewrite list_lookup_alter_ne by done. by exists x. }
  exists (set_p_wchan 0 y). subst s'. unfold modp. simpl. rewrite list_lookup_alter_eq, Hy.
  split_and!; [done|done|]. destruct x, y. unfold unlinked in *. simpl in *. by simplify_eq.
Qed.
End Queues.

(** ** [fsig] and [issig] *)

Definition sigset (n : Z) : Prop := 0 <= n < 2 ^ 16.

Lemma fsig_loop_spec fuel i n : 0 <= n -> n < 2 ^ Z.of_nat fuel -> n <> 0 ->
  exists k, 0 <= k < Z.of_nat fuel /\ fsig_loop fuel i n = i + k /\
    Z.testbit n k = true /\ forall j, 0 <= j < k -> Z.testbit n j = false.
Proof.
  revert i n. induction fuel as [|fuel IH]; intros i n Hn Hb H0; [simpl in Hb; lia|].
  cbn [fsig_loop]. change 1 with (2 ^ 0) at 1. rewrite tst_pow2 by lia.
  destruct (Z.testbit n 0) eqn:E.
  - exists 0. split_and!; [lia|lia|lia|done|lia].
  - assert (Z.shiftr n 1 = n / 2) as Es by (rewrite Z.shiftr_div_pow2 by lia; done).
    pose proof (div_mod_range n 2) as [Hd Hm]; [lia|].
    assert (n mod 2 = 0) as Hm0.
    { rewrite Z.bit0_odd in E. rewrite Zmod_odd, E. done. }
    pose proof (Z.div_mod n 2) as Hdm.
    destruct (IH (i + 1) (Z.shiftr n 1)) as (k & Hk & Ek & Hb1 & Hb2).
    { rewrite Es. lia. }
    { rewrite Es. rewrite Nat2Z.inj_succ, Z.pow_succ_r in Hb by lia. lia. }
    { rewrite Es. lia. }
    exists (k + 1). split_and!; [lia|lia|lia|..].
    + by rewrite Z.shiftr_spec in Hb1 by lia.
    + intros j Hj. destruct (Z.eqb_spec j 0) as [->|]; [done|].
      specialize (Hb2 (j - 1) ltac:(lia)). rewrite Z.shiftr_spec in Hb2 by lia.
      by replace (j - 1 + 1) with j in Hb2 by lia.
Qed.

Lemma fsig_spec p : sigset (p_sig p) -> p_sig p <> 0 ->
  1 <= fsig p <= 16 /\ Z.testbit (p_sig p) (fsig p - 1) = true /\
  forall j, 0 <= j < fsig p - 1 -> Z.testbit (p_sig p) j = false.
Proof.
  intros Hs H0. unfold fsig. change (Z.to_nat (NSIG - 1)) with 16%nat.
  destruct (fsig_loop_spec 16 1 (p_sig p)) as (k & Hk & -> & H1 & H2); [apply Hs..|done|].
  replace (1 + k - 1) with k by lia. split_and!; [lia|lia|done|done].
Qed.

Lemma fsig_0 p : p_sig p = 0 -> fsig p = 0.
Proof. unfold fsig. by intros ->. Qed.

Lemma clear_bit_spec x k i : 0 <= k -> 0 <= i ->
  Z.testbit (clr x (Z.shiftl 1 k)) i = Z.testbit x i && negb (k =? i).
Proof.
  intros. unfold clr. rewrite Z.land_spec, Z.lnot_spec, Z.shiftl_1_l by done. by rewrite Z.pow2_bits_eqb.
Qed.

Lemma clear_bit_sigset x k : sigset x -> 0 <= k -> sigset (clr x (Z.shiftl 1 k)).
Proof.
  unfold sigset. intros Hx _.
  assert (clr x (Z.shiftl 1 k) = clr x (Z.shiftl 1 k) mod 2 ^ 16) as ->; [|apply Z.mod_pos_bound; lia].
  rewrite <- Z.land_ones by lia. unfold clr.
  rewrite <- Z.land_assoc, (Z.land_comm (Z.lnot _)), Z.land_assoc, Z.land_ones by lia.
  by rewrite Z.mod_small.
Qed.

(** [issig] from the current process's pending set [sig], its actions and its
    trace flag: [n] is the answer and [sig'] what is left pending. *)
Definition issig_result (sig : Z) (acts : list Z) (traced : bool) (n sig' : Z) : Prop :=
  sigset sig' /\ 0 <= n <= 16 /\
  (n = 0 -> sig' = 0) /\
  (n <> 0 -> Z.testbit sig (n - 1) = true /\ (acts !! Z.to_nat n <> Some 1 \/ traced = true)) /\
  (forall i, 0 <= i -> Z.testbit sig' i = Z.testbit sig i && negb ((i + 1 <? n) || (n =? 0))) /\
  (forall i, 0 <= i -> Z.testbit sig i = true -> i + 1 < n \/ n = 0 ->
     acts !! Z.to_nat (i + 1) = Some 1 /\ traced = false).

Lemma issig_loop_spec fuel k s x : proc_tab s !! u_procp s = Some x -> sigset (p_sig x) ->
  length (u_signal s) = 17%nat -> (forall i, 0 <= i < k -> Z.testbit (p_sig x) i = false) ->
  0 <= k <= 16 -> 17 <= k + Z.of_nat fuel ->
  exists n sig', issig_loop fuel s =
      Ok (n, set_proc_tab (alter (set_p_sig sig') (u_procp s) (proc_tab s)) s) /\
    issig_result (p_sig x) (u_signal s) (p_flag x &? STRC) n sig'.
Proof.
  revert k s x. induction fuel as [|fuel IH]; intros k s x Hx Hs Hl Hlow Hk Hf; [lia|].
  assert (set_proc_tab (alter (set_p_sig (p_sig x)) (u_procp s) (proc_tab s)) s = s) as Hid.
  { replace (alter (set_p_sig (p_sig x)) (u_procp s) (proc_tab s)) with (proc_tab s); [by destruct s|].
    apply list_eq. intros i. destruct (decide (i = u_procp s)) as [->|].
    - rewrite list_lookup_alter_eq, Hx. simpl. by destruct x.
    - by rewrite list_lookup_alter_ne. }
  cbn [issig_loop]. unfold getp. rewrite (access_Ok _ _ _ Hx). run.
  destruct (Z.eqb_spec (p_sig x) 0) as [E0|E0].
  { exists 0, 0. rewrite E0 in Hid. rewrite Hid. split; [done|].
    split_and!; [done|lia|lia|done|done|..]; intros i Hi.
    - by rewrite Z.bits_0, E0, Z.bits_0.
    - by rewrite E0, Z.bits_0. }
  destruct (fsig_spec x Hs E0) as (Hn & Hbit & Hlo).
  set (n := fsig x) in *.
  destruct (lookup_lt_is_Some_2 (u_signal s) (Z.to_nat n)) as [act Hact]; [lia|].
  rewrite (access_Ok _ _ _ Hact). run.
  destruct (negb (act =? 1) || (p_flag x &? STRC)) eqn:Ego.
  { exists n, (p_sig x). rewrite Hid. split; [done|]. split_and!; [done|lia|lia|lia| | |].
    - intros _. split; [done|]. rewrite Hact. apply orb_true_iff in Ego as [E|E]; [left|by right].
      intros [= ->]. done.
    - intros i Hi. destruct (Z.ltb_spec (i + 1) n); [by rewrite Hlo by lia|].
      destruct (Z.eqb_spec n 0); [lia|]. by rewrite andb_true_r.
    - intros i Hi Ht Hlt. rewrite Hlo in Ht by lia. done. }
  apply orb_false_iff in Ego as [Ea Et]. apply negb_false_iff, Z.eqb_eq in Ea as ->.
  set (sig1 := p_sig x &~ Z.shiftl 1 (n - 1)).
  destruct (IH n (modp (u_procp s) (set_p_sig sig1) s) (set_p_sig sig1 x)) as (m & sig' & E & Hsig' & Hm & H0 & H1 & H2 & H3).
  { unfold modp. simpl. by rewrite list_lookup_alter_eq, Hx. }
  { apply clear_bit_sigset; [done|lia]. }
  { done. }
  { intros i Hi. simpl. unfold sig1. rewrite clear_bit_spec by lia. destruct (Z.eqb_spec (n - 1) i); [apply andb_false_r|].
    by rewrite Hlo by lia. }
  { lia. }
  { assert (k <= n - 1); [|lia]. destruct (Z.leb_spec k (n - 1)); [done|]. rewrite Hlow in Hbit by lia. done. }
  exists m, sig'. simpl in E, H1, H2, H3. rewrite E. split.
  { unfold modp. simpl. rewrite list_alter_alter_eq. done. }
  rewrite Et in *. 
  assert (forall i, 0 <= i -> Z.testbit sig1 i = Z.testbit (p_sig x) i && negb (n - 1 =? i)) as Hs1
    by (intros i Hi; apply clear_bit_spec; lia).
  split_and!; [done|lia|lia|done| | |].
  - intros Hm0. destruct (H1 Hm0) as [Hb Hor]. rewrite Hs1 in Hb by lia.
    apply andb_true_iff in Hb as [Hb _]. done.
  - intros i Hi. rewrite H2, Hs1 by done. destruct (Z.eqb_spec (n - 1) i) as [<-|]; [|by rewrite andb_true_r].
    rewrite Hbit. destruct (Z.eqb_spec m 0); [by rewrite orb_true_r|].
    destruct (Z.ltb_spec (n - 1 + 1) m); [done|]. exfalso.
    destruct (H1 ltac:(done)) as [Hb _]. rewrite Hs1 in Hb by lia.
    destruct (Z.eqb_spec (n - 1) (m - 1)); [by rewrite andb_false_r in Hb|].
    apply andb_true_iff in Hb as [Hb _]. rewrite Hlo in Hb by lia. done.
  - intros i Hi Ht Hlt. destruct (Z.eqb_spec (n - 1) i) as [<-|Hne].
    + replace (n - 1 + 1) with n by lia. done.
    + apply H3; [done| |done]. rewrite Hs1, Ht by done. by destruct (Z.eqb_spec (n - 1) i).
Qed.

Lemma issig_spec s x : proc_tab s !! u_procp s = Some x -> sigset (p_sig x) ->
  length (u_signal s) = 17%nat ->
  exists n sig', issig s = Ok (n, set_proc_tab (alter (set_p_sig sig') (u_procp s) (proc_tab s)) s) /\
    issig_result (p_sig x) (u_signal s) (p_flag x &? STRC) n sig'.
Proof. intros. apply (issig_loop_spec _ 0); try done; try lia. Qed.
