(* ===== verification/Sched.v ===== *)
(** * Sleeping, waking and dispatching: [kernel/slp.c]

    Queues are threaded through [p_link]: 64 sleep queues hashed by the channel,
    and one run queue.  [sleep] and [swtch] give the processor away; what is
    modelled of them is everything up to the context switch and everything from
    it on, the switch itself ([save]/[resume]) being the processor's.  The
    interrupt level brackets ([spl6]/[splx]) make each routine atomic. *)

From S2P Require Import Prelude Param Proc.

Definition SQSIZE : Z := 64.
Definition HASH (x : Z) : Z := Z.land (Z.shiftr x 5) (SQSIZE - 1).

Section Sched.
(** The addresses of the flags [runin] and [runout], which serve as channels. *)
Context (runin_chan runout_chan : Z).

Definition head (i : Z) (s : sys) : res (option nat) := access (slpque s) (Z.to_nat i).
Definition set_head (i : Z) (v : option nat) (s : sys) : sys :=
  set_slpque (<[Z.to_nat i := v]> (slpque s)) s.

(** ** The run queue *)

(** [setrq]'s diagnostic loop: is [p] on the queue from [q] on?  Fuel: a queue
    visits a process once. *)
Fixpoint on_queue (fuel : nat) (p : nat) (q : option nat) (s : sys) : res bool :=
  match q with
  | None => Ok false
  | Some q =>
      match fuel with
      | O => NoFuel
      | S fuel =>
          if bool_decide (q = p) then Ok true
          else x ← getp q s; on_queue fuel p (p_link x) s
      end
  end.

Definition setrq (p : nat) (s : sys) : res sys :=
  dup ← on_queue (length (proc_tab s)) p (runq s) s;
  if (dup : bool) then Ok (set_on_q (on_q s + 1) s)
  else Ok (set_runq (Some p) (modp p (set_p_link (runq s)) s)).

(** ** [setrun] and [wakeup] call each other

    [setrun_with wk] is [setrun] over a given [wakeup]; the nesting goes through
    [wakeup(&runout)], which clears [runout] first, and is bounded by [depth]. *)

Definition setrun_with (wk : Z -> sys -> res sys) (p : nat) (s : sys) : res sys :=
  x ← getp p s;
  if (p_stat x =? 0) || (p_stat x =? SZOMB) then Panic "Running a dead proc"
  else if negb (p_wchan x =? 0) then wk (p_wchan x) s
  else
    s ← setrq p (modp p (set_p_stat SRUN) s);
    let s := if p_pri x <? curpri s then set_runrun (inc8 (runrun s)) s else s in
    if negb (runout s =? 0) && negb (p_flag x &? SLOAD)
    then wk runout_chan (set_runout 0 s)
    else Ok s.

(** The loop of [wakeup] on queue [i], from [p] with predecessor [q]. *)
Fixpoint wake_loop (fuel : nat) (setrun : nat -> sys -> res sys) (i chan : Z)
    (p q : option nat) (s : sys) : res sys :=
  match p with
  | None => Ok s
  | Some p =>
      match fuel with
      | O => NoFuel
      | S fuel =>
          x ← getp p s;
          if (p_wchan x =? chan) && negb (p_stat x =? SZOMB) then
            let sp := p_link x in
            let s := match q with
                     | None => set_head i sp s
                     | Some q => modp q (set_p_link sp) s
                     end in
            s ← setrun p (modp p (set_p_wchan 0) s);
            wake_loop fuel setrun i chan sp q s
          else wake_loop fuel setrun i chan (p_link x) (Some p) s
      end
  end.

Fixpoint wakeup_at (depth : nat) (chan : Z) (s : sys) : res sys :=
  match depth with
  | O => NoFuel
  | S depth =>
      let i := HASH chan in
      p ← head i s;
      wake_loop (2 * length (proc_tab s)) (setrun_with (wakeup_at depth)) i chan p None s
  end.

Definition wakeup (chan : Z) (s : sys) : res sys := wakeup_at 3 chan s.
Definition setrun (p : nat) (s : sys) : res sys := setrun_with wakeup p s.

(** ** [setpri] *)

Definition setpri (pp : nat) (s : sys) : res (Z * sys) :=
  x ← getp pp s;
  let p := Z.quot (Z.land (p_cpu x) 255) 16 in
  let p := p + (PUSER + p_nice x - NZERO) in
  let p := if 127 <? p then 127 else p in
  let s := if p <? curpri s then set_runrun (inc8 (runrun s)) s else s in
  Ok (p, modp pp (set_p_pri (p mod 256)) s).

(** ** [sleep]

    Before the switch: either a signal is already there, and the process
    goes to its [u_qsav] label, or it is queued and the processor is given away. *)

Inductive slept := ToQsav | ToSwtch.

Definition sleep (chan pri : Z) (s : sys) : res (slept * sys) :=
  let rp := u_procp s in
  if chan =? 0 then Panic "zero wchan"
  else
    x ← getp rp s;
    let h := HASH chan in
    first ← head h s;
    let s := modp rp (fun x => set_p_link first (set_p_pri (pri mod 256)
                        (set_p_wchan chan (set_p_stat SSLEEP x)))) s in
    let s := set_head h (Some rp) s in
    if PZERO <? pri then
      '(sig, s) ← issig s;
      if negb (sig =? 0) then
        let s := modp rp (fun x => set_p_stat SRUN (set_p_wchan 0 x)) s in
        x ← getp rp s;
        Ok (ToQsav, set_head h (p_link x) s)
      else
        s ← (if negb (runin s =? 0) then wakeup runin_chan (set_runin 0 s) else Ok s);
        Ok (ToSwtch, s)
    else Ok (ToSwtch, s).

(** After it: [true] when a signal sends the process to [u_qsav]. *)
Definition sleep_resumed (pri : Z) (s : sys) : res (bool * sys) :=
  if PZERO <? pri then '(sig, s) ← issig s; Ok (negb (sig =? 0), s) else Ok (false, s).

(** ** [swtch] *)

(** The search: the best loaded runnable process so far, its predecessor and
    priority. *)
Fixpoint search (fuel : nat) (p q : option nat) (best : option (nat * option nat)) (n : Z) (s : sys) :
    res (option (nat * option nat) * Z) :=
  match p with
  | None => Ok (best, n)
  | Some p =>
      match fuel with
      | O => NoFuel
      | S fuel =>
          x ← getp p s;
          if (p_stat x =? SRUN) && (p_flag x &? SLOAD) && (p_pri x <? n)
          then search fuel (p_link x) (Some p) (Some (p, q)) (p_pri x) s
          else search fuel (p_link x) (Some p) best n s
      end
  end.

(** One turn of the dispatcher's loop: [None] idles and turns again, otherwise
    the process and whether it resumes at [u_ssav]. *)
Definition swtch_turn (s : sys) : res (option (nat * bool) * sys) :=
  let s := set_runrun 0 s in
  '(best, n) ← search (length (proc_tab s)) (runq s) None None 128 s;
  match best with
  | None => Ok (None, s)
  | Some (p, q) =>
      x ← getp p s;
      let s := match q with
               | None => set_runq (p_link x) s
               | Some q => modp q (set_p_link (p_link x)) s
               end in
      let s := set_nswtch (nswtch s + 1) (set_curpri n s) in
      Ok (Some (p, p_flag x &? SSWAP), modp p (fun x => set_p_flag (p_flag x &~ SSWAP) x) s)
  end.

Definition qswtch (s : sys) : res (option (nat * bool) * sys) :=
  s ← setrq (u_procp s) s; swtch_turn s.

(** ** [newproc]: the slot, the process id and the new entry *)

(** The scan for one candidate id: [true] means [goto retry]; the first free
    slot is noted on the way and kept across retries. *)
Fixpoint pid_scan (i : nat) (l : list proc) (mpid : Z) (p : option nat) : bool * option nat :=
  match l with
  | [] => (false, p)
  | x :: l =>
      let p := if (p_stat x =? 0) && bool_decide (p = None) then Some i else p in
      if (p_pid x =? mpid) || (p_pgrp x =? mpid) then (true, p) else pid_scan (S i) l mpid p
  end.

(** Fuel: every refused candidate is some entry's id or group, so two per entry
    are enough, and one more for the wrap at 30000. *)
Fixpoint pid_retry (fuel : nat) (p : option nat) (s : sys) : res (option nat * sys) :=
  match fuel with
  | O => NoFuel
  | S fuel =>
      let s := set_mpid (mpid s + 1) s in
      if 30000 <=? mpid s then pid_retry fuel p (set_mpid 0 s)
      else
        let '(again, p) := pid_scan 0 (proc_tab s) (mpid s) p in
        if (again : bool) then pid_retry fuel p s else Ok (p, s)
  end.

Definition newproc_slot (s : sys) : res (nat * sys) :=
  '(p, s) ← pid_retry (2 * length (proc_tab s) + 2) None s;
  match p with
  | None => Panic "no procs"
  | Some p => Ok (p, s)
  end.

Definition newproc_entry (s : sys) : res (nat * sys) :=
  '(p, s) ← newproc_slot s;
  rip ← getp (u_procp s) s;
  Ok (p, modp p (fun r =>
    Proc SRUN SLOAD (p_pri r) 0 0 (p_nice rip) (p_sig r) (p_uid rip) (p_pgrp rip) (mpid s) (p_pid rip)
      (p_addr r) (p_size r) (p_wchan r) (p_textp rip) (p_link r) 0) s).

(** ** [sched]: whom to swap in, whom to swap out *)

Definition outage_of (x : proc) : Z := p_time x - (p_nice x - NZERO) * 8.

(** The first loop: the runnable process that has been out longest. *)
Fixpoint swapin_scan (i : nat) (l : list proc) (p : option nat) (outage : Z) : option nat * Z :=
  match l with
  | [] => (p, outage)
  | x :: l =>
      if (p_stat x =? SRUN) && negb (p_flag x &? SLOAD) && (outage <? outage_of x)
      then swapin_scan (S i) l (Some i) (outage_of x)
      else swapin_scan (S i) l p outage
  end.

(** The second: the largest of those asleep at bad priority, else the oldest.
    [xlock t] says that text [t] is locked. *)
Fixpoint swapout_scan (xlock : nat -> bool) (i : nat) (l : list proc) (p : option nat) (maxsize inage : Z) :
    option nat * Z * Z :=
  match l with
  | [] => (p, maxsize, inage)
  | x :: l =>
      if (p_stat x =? SZOMB) ||
         negb (Z.land (p_flag x) (SSYS |: SLOCK |: SULOCK |: SLOAD) =? SLOAD)
      then swapout_scan xlock (S i) l p maxsize inage
      else if match p_textp x with Some t => xlock t | None => false end
      then swapout_scan xlock (S i) l p maxsize inage
      else if ((p_stat x =? SSLEEP) && (PZERO <=? p_pri x)) || (p_stat x =? SSTOP) then
        if maxsize <? p_size x then swapout_scan xlock (S i) l (Some i) (p_size x) inage
        else swapout_scan xlock (S i) l p maxsize inage
      else if (maxsize <? 0) && ((p_stat x =? SRUN) || (p_stat x =? SSLEEP)) then
        if inage <? p_time x + p_nice x - NZERO
        then swapout_scan xlock (S i) l (Some i) maxsize (p_time x + p_nice x - NZERO)
        else swapout_scan xlock (S i) l p maxsize inage
      else swapout_scan xlock (S i) l p maxsize inage
  end.

(** One turn of the swapper up to its next sleep or swap: what it decides, given
    whether [swapin] finds core. *)
Inductive sched_step :=
  | SleepRunout                  (* nobody wants in *)
  | SwappedIn (p : nat)
  | SwapOut (p : nat)            (* [xswap(p, 1, 0)], [SLOAD] already cleared *)
  | SleepRunin.

Definition sched (xlock : nat -> bool) (swapin : nat -> bool) (s : sys) : res (sched_step * sys) :=
  match swapin_scan 0 (proc_tab s) None (-20000) with
  | (None, _) => Ok (SleepRunout, set_runout (inc8 (runout s)) s)
  | (Some p, outage) =>
      if swapin p then Ok (SwappedIn p, s)
      else
        let '(v, maxsize, inage) := swapout_scan xlock 0 (proc_tab s) None (-1) (-1) in
        if (0 <=? maxsize) || ((3 <=? outage) && (2 <=? inage)) then
          match v with
          | None => Wild
          | Some v => Ok (SwapOut v, modp v (fun x => set_p_flag (p_flag x &~ SLOAD) x) s)
          end
        else Ok (SleepRunin, set_runin (inc8 (runin s)) s)
  end.
End Sched.

(** ** Queue discipline *)

Lemma HASH_range c : 0 <= HASH c < 64.
Proof.
  unfold HASH, SQSIZE. change (64 - 1) with (Z.ones 6). rewrite Z.land_ones by lia.
  apply Z.mod_pos_bound. lia.
Qed.

Abbreviation wfq := (queues HASH).

Lemma on_queue_spec fuel p st s R : chain (proc_tab s) st R -> (length R <= fuel)%nat ->
  on_queue fuel p st s = Ok (bool_decide (p ∈ R)).
Proof.
  revert st fuel. induction R as [|q R IH]; intros st fuel Hc Hf; simpl in Hc, Hf.
  { subst st. by destruct fuel. }
  destruct Hc as (-> & x & Hx & Hc). destruct fuel as [|fuel]; [lia|]. simpl.
  destruct (decide (q = p)) as [->|Hq].
  { rewrite !bool_decide_true by set_solver. done. }
  rewrite (bool_decide_false (q = p)) by done.
  unfold getp. rewrite (access_Ok _ _ _ Hx). run. rewrite (IH _ fuel Hc) by lia. f_equal.
  apply bool_decide_ext. rewrite elem_of_cons. naive_solver.
Qed.

Lemma setrq_spec p s R Q x : wfq s R Q -> off_queues p R Q ->
  proc_tab s !! p = Some x -> p_wchan x = 0 ->
  exists s', setrq p s = Ok s' /\ wfq s' (p :: R) Q /\ awakened [] s s' /\
    runout s' = runout s /\ runrun s' = runrun s /\ quiet s s'.
Proof.
  intros Hq Hoff Hx Hw. unfold setrq.
  rewrite (on_queue_spec _ p _ s R (q_run _ _ _ _ Hq)) by by eapply queues_run_length.
  rewrite bool_decide_false by apply Hoff. run. eexists. split; [done|].
  split_and!; [by eapply queues_push| |done|done|by repeat split].
  apply awakened_modp. done.
Qed.

Section Wakeup.
Context (runout_chan : Z).

(** [setrun] on a live process that is on no queue and waits for nothing, when
    it does not go on to wake the swapper. *)
Lemma setrun_plain wk p s R Q x : wfq s R Q -> off_queues p R Q ->
  proc_tab s !! p = Some x -> p_wchan x = 0 -> p_stat x <> 0 -> p_stat x <> SZOMB ->
  exists s', awakened [p] s s' /\ wfq s' (p :: R) Q /\ quiet s s' /\ runout s' = runout s /\
    setrun_with runout_chan wk p s =
      if negb (runout s =? 0) && negb (p_flag x &? SLOAD)
      then wk runout_chan (set_runout 0 s') else Ok s'.
Proof.
  intros Hq Hoff Hx Hw Hs0 Hsz. unfold setrun_with, getp. rewrite (access_Ok _ _ _ Hx). run.
  destruct (Z.eqb_spec (p_stat x) 0); [done|]. destruct (Z.eqb_spec (p_stat x) SZOMB); [done|].
  rewrite Hw. simpl.
  assert (proc_tab (modp p (set_p_stat SRUN) s) !! p = Some (set_p_stat SRUN x)) as Hx1.
  { unfold modp. simpl. by rewrite list_lookup_alter_eq, Hx. }
  destruct (setrq_spec p (modp p (set_p_stat SRUN) s) R Q (set_p_stat SRUN x)) as (s1 & -> & Hq1 & Ha & Hr & _ & Hqt);
    [by apply queues_modp_off|done|done|done|]. run.
  set (s2 := if p_pri x <? curpri s1 then _ else _).
  assert (proc_tab s2 = proc_tab s1 /\ slpque s2 = slpque s1 /\ runq s2 = runq s1 /\
    runout s2 = runout s1 /\ quiet s1 s2) as (Et & Es & Er & Eo & Eq).
  { subst s2. destruct (p_pri x <? curpri s1); by repeat split. }
  exists s2. split_and!.
  - split.
    + rewrite Et. destruct Ha as [-> _]. unfold modp. simpl. by rewrite length_alter.
    + intros r y Hy. rewrite Et. destruct Ha as [_ Ha]. destruct (decide (r = p)) as [->|Hne].
      * destruct (Ha p (set_p_stat SRUN x) Hx1) as (z & Hz & Ez). exists z. split; [done|].
        rewrite Ez, decide_False, decide_True by set_solver. rewrite Hx in Hy. injection Hy as <-. unfold wake. simpl.
        destruct x. simpl in *. by subst.
      * destruct (Ha r y) as (z & Hz & Ez); [unfold modp; simpl; by rewrite list_lookup_alter_ne|].
        exists z. split; [done|]. rewrite Ez. by rewrite !decide_False by set_solver.
  - destruct Hq1. constructor; rewrite ?Et, ?Es, ?Er; done.
  - eapply quiet_trans; [|exact Eq]. exact Hqt.
  - by rewrite Eo, Hr.
  - rewrite Eo, Hr. done.
Qed.

Definition waits (s : sys) (chan : Z) (p : nat) : bool :=
  match proc_tab s !! p with Some x => p_wchan x =? chan | None => false end.

(** One turn of [wakeup]'s loop on a process that waits for the channel. *)
Lemma wake_step wk s R Q i pre p l x : wfq s R Q -> 0 <= i < 64 ->
  Q i = pre ++ p :: l -> proc_tab s !! p = Some x ->
  exists s', awakened [p] s s' /\
    wfq s' (p :: R) (fun j => if j =? i then pre ++ l else Q j) /\
    quiet s s' /\ runout s' = runout s /\
    setrun_with runout_chan wk p (modp p (set_p_wchan 0) (unlink_slp i (last pre) (p_link x) s)) =
      if negb (runout s =? 0) && negb (p_flag x &? SLOAD)
      then wk runout_chan (set_runout 0 s') else Ok s'.
Proof.
  intros Hq Hi HQ Hx.
  destruct (queues_unlink HASH HASH_range s R Q i pre p l x Hq Hi HQ Hx) as (Hq1 & Hoff & x1 & Hx1 & Hw1 & E1).
  destruct (q_slp_waits _ _ _ _ Hq i p x Hi) as (_ & _ & Hs0 & Hsz); [rewrite HQ; set_solver|done|].
  assert (p_stat x1 = p_stat x /\ p_flag x1 = p_flag x) as [Est Efl].
  { destruct x, x1. unfold unlinked in E1. simpl in *. by simplify_eq. }
  edestruct (setrun_plain wk p _ _ _ x1 Hq1 Hoff Hx1 Hw1) as (s' & Ha & Hq' & Hqt & Hro & E); [congruence..|].
  assert (quiet s (modp p (set_p_wchan 0) (unlink_slp i (last pre) (p_link x) s)) /\
    runout (modp p (set_p_wchan 0) (unlink_slp i (last pre) (p_link x) s)) = runout s) as [Hqs Hrs].
  { unfold unlink_slp. by destruct (last pre). }
  exists s'. split_and!; [|done|by eapply quiet_trans|congruence|by rewrite E, Hrs, Efl].
  destruct Ha as [HL Ha]. split.
  - rewrite HL. unfold unlink_slp, modp. destruct (last pre); simpl; by rewrite ?length_alter.
  - intros r y Hy. destruct (decide (r = p)) as [->|Hne].
    + destruct (Ha p x1 Hx1) as (z & Hz & Ez). exists z. split; [done|]. rewrite Ez.
      rewrite !decide_True by set_solver. rewrite Hx in Hy. injection Hy as <-.
      by rewrite (unlinked_wake _ _ E1).
    + assert (awakened [] s (unlink_slp i (last pre) (p_link x) s)) as [_ Hu].
      { unfold unlink_slp. destruct (last pre); [by apply awakened_modp|]. split; [done|].
        intros r' y' Hy'. exists y'. split; [done|]. by rewrite decide_False by set_solver. }
      destruct (Hu r y Hy) as (y1 & Hy1 & E2). rewrite decide_False in E2 by set_solver.
      destruct (Ha r y1) as (z & Hz & Ez); [unfold modp; simpl; by rewrite list_lookup_alter_ne|].
      exists z. split; [done|]. rewrite Ez. rewrite !decide_False by set_solver. done.
Qed.

Lemma queues_ext s R Q Q' : (forall i, 0 <= i < 64 -> Q' i = Q i) -> wfq s R Q -> wfq s R Q'.
Proof.
  intros HQ []. constructor; try done.
  - intros i Hi. rewrite HQ by done. eauto.
  - intros i Hi. rewrite HQ by done. eauto.
  - intros i p x Hi. rewrite HQ by done. eauto.
Qed.

Lemma waits_awakened W s s' chan p : awakened W s s' -> p ∉ W -> waits s' chan p = waits s chan p.
Proof.
  intros [HL Ha] Hp. unfold waits. destruct (proc_tab s !! p) as [x|] eqn:Hx.
  - destruct (Ha p x Hx) as (x' & -> & E). rewrite decide_False in E by done.
    f_equal. change (p_wchan x') with (p_wchan (unlinked x')). by rewrite E.
  - rewrite (proj2 (lookup_ge_None (proc_tab s') p)); [done|]. apply lookup_ge_None in Hx. lia.
Qed.

Lemma filter_waits_awakened W s s' chan l : awakened W s s' -> (forall p, p ∈ l -> p ∉ W) ->
  List.filter (waits s' chan) l = List.filter (waits s chan) l /\
  List.filter (fun p => negb (waits s' chan p)) l = List.filter (fun p => negb (waits s chan p)) l.
Proof.
  intros Ha Hl. split; apply List.filter_ext_in; intros p Hp; apply list_elem_of_In in Hp;
    by rewrite (waits_awakened W s s') by auto.
Qed.

(** The queue's element, its waiting and its successor, in one go. *)
Lemma queue_at s R Q i pre p l : wfq s R Q -> 0 <= i < 64 -> Q i = pre ++ p :: l ->
  exists x, proc_tab s !! p = Some x /\ p_link x = hd_error l /\ p_stat x <> SZOMB /\
    waits s (p_wchan x) p = true /\ p ∉ l /\ NoDup l.
Proof.
  intros Hq Hi HQ. destruct (q_slp _ _ _ _ Hq i Hi) as (st & Hst & Hc). rewrite HQ in Hc.
  destruct (chain_app _ _ _ _ _ Hc) as (x & Hx & Hc').
  destruct (q_slp_waits _ _ _ _ Hq i p x Hi) as (_ & _ & _ & Hsz); [rewrite HQ; set_solver|done|].
  pose proof (q_slp_nodup _ _ _ _ Hq i Hi) as Hnd. rewrite HQ in Hnd.
  apply NoDup_app in Hnd as (_ & _ & Hnd). apply NoDup_cons in Hnd as [Hnl Hnd].
  exists x. split_and!; try done.
  - destruct l; [done|]. by destruct Hc' as [-> _].
  - unfold waits. by rewrite Hx, Z.eqb_refl.
Qed.

(** The sleepers on the channel among [l] are in core. *)
Definition loaded (s : sys) (chan : Z) (l : list nat) : Prop :=
  forall p x, p ∈ l -> waits s chan p = true -> proc_tab s !! p = Some x -> (p_flag x &? SLOAD) = true.

Lemma loaded_awakened W s s' chan l : awakened W s s' -> (forall p, p ∈ l -> p ∉ W) -> loaded s chan l -> loaded s' chan l.
Proof.
  intros Ha Hl HL p x' Hp Hw Hx'. rewrite (waits_awakened W s s') in Hw by auto. destruct Ha as [L Ha].
  destruct (lookup_lt_is_Some_2 (proc_tab s) p) as [x Hx]; [rewrite <- L; by eapply lookup_lt_Some|].
  destruct (Ha p x Hx) as (y & Hy & E). rewrite decide_False in E by auto. rewrite Hx' in Hy. injection Hy as <-.
  change (p_flag x') with (p_flag (unlinked x')). rewrite E. by apply (HL p x).
Qed.

(** The loop when nothing wakes the swapper on the way. *)
Lemma wake_loop_plain wk fuel chan i s R Q pre l : wfq s R Q -> 0 <= i < 64 -> Q i = pre ++ l ->
  (length l <= fuel)%nat -> runout s = 0 \/ loaded s chan l ->
  exists s', wake_loop fuel (setrun_with runout_chan wk) i chan (hd_error l) (last pre) s = Ok s' /\
    wfq s' (rev (List.filter (waits s chan) l) ++ R)
      (fun j => if j =? i then pre ++ List.filter (fun p => negb (waits s chan p)) l else Q j) /\
    awakened (List.filter (waits s chan) l) s s' /\ quiet s s' /\ runout s' = runout s.
Proof.
  revert fuel s R Q pre. induction l as [|p l IH]; intros fuel s R Q pre Hq Hi HQ Hf Hro.
  { exists s. split; [by destruct fuel|]. split_and!; try done. eapply queues_ext; [|exact Hq].
    intros j Hj. simpl. destruct (Z.eqb_spec j i) as [->|]; [by rewrite HQ|done]. }
  destruct fuel as [|fuel]; [simpl in Hf; lia|].
  destruct (queue_at s R Q i pre p l Hq Hi HQ) as (x & Hx & Hlink & Hsz & Hself & Hpl & Hndl).
  cbn [wake_loop hd_error]. unfold getp. rewrite (access_Ok _ _ _ Hx). run.
  destruct (Z.eqb_spec (p_stat x) SZOMB); [done|]. rewrite andb_true_r.
  assert (waits s chan p = (p_wchan x =? chan)) as Hw by (unfold waits; by rewrite Hx).
  cbn [List.filter]. rewrite Hw. destruct (p_wchan x =? chan); cbn [negb].
  - destruct (wake_step wk s R Q i pre p l x Hq Hi HQ Hx) as (s1 & Ha & Hq1 & Hqt & Hro1 & E).
    fold (unlink_slp i (last pre) (p_link x) s) (set_head i (p_link x) s) in *.
    unfold unlink_slp in E. fold (set_head i (p_link x) s) in E. rewrite E.
    assert (negb (runout s =? 0) && negb (p_flag x &? SLOAD) = false) as ->.
    { destruct Hro as [-> |HL]; [done|]. rewrite (HL p x) by (done || set_solver). apply andb_false_r. }
    run. rewrite Hlink.
    destruct (IH fuel s1 (p :: R) _ pre Hq1 Hi) as (s' & -> & Hq' & Ha' & Hqt' & Hro');
      [by rewrite Z.eqb_refl|simpl in Hf; lia| |].
    { destruct Hro as [Hro|HL]; [left; congruence|right]. apply (loaded_awakened [p] s); [done|set_solver|]. intros r y Hr. apply HL. set_solver. }
    destruct (filter_waits_awakened _ s s1 chan l Ha) as [E1 E2]; [set_solver|]. rewrite E1, E2 in *.
    exists s'. split_and!; [done| | |by eapply quiet_trans|congruence].
    + eapply queues_ext; [|simpl; rewrite <- app_assoc; exact Hq']. intros j Hj. cbn beta.
      by destruct (j =? i).
    + eapply (awakened_trans [p]); done.
  - destruct (IH fuel s R Q (pre ++ [p]) Hq Hi) as (s' & E & Hq' & Ha' & Hqt' & Hro');
      [by rewrite <- app_assoc|simpl in Hf; lia| |].
    { destruct Hro as [Hro|HL]; [by left|right]. intros r y Hr. apply HL. set_solver. }
    rewrite last_snoc in E. rewrite Hlink. exists s'. split_and!; try done.
    eapply queues_ext; [|exact Hq']. intros j Hj. cbn beta. by rewrite <- app_assoc.
Qed.

Lemma wakeup_at_plain d chan s R Q : wfq s R Q -> runout s = 0 \/ loaded s chan (Q (HASH chan)) ->
  let i := HASH chan in
  exists s', wakeup_at runout_chan (S d) chan s = Ok s' /\
    wfq s' (rev (List.filter (waits s chan) (Q i)) ++ R)
      (fun j => if j =? i then List.filter (fun p => negb (waits s chan p)) (Q i) else Q j) /\
    awakened (List.filter (waits s chan) (Q i)) s s' /\ quiet s s' /\ runout s' = runout s.
Proof.
  intros Hq Hro i. pose proof (HASH_range chan) as Hi. fold i in Hi. cbn [wakeup_at]. cbv zeta. fold i.
  destruct (q_slp _ _ _ _ Hq i Hi) as (st & Hst & Hc). unfold head. rewrite (access_Ok _ _ _ Hst). run.
  replace st with (hd_error (Q i)) by (destruct (Q i); [done|by destruct Hc as [-> _]]).
  pose proof (queues_slp_length HASH s R Q i Hq Hi).
  destruct (wake_loop_plain (wakeup_at runout_chan d) (2 * length (proc_tab s)) chan i s R Q [] (Q i))
    as (s' & E & Hrest); [done|done|done|lia|done|]. exists s'. split; [exact E|exact Hrest].
Qed.

(** A queue without the processes of [W]. *)
Definition out (W l : list nat) : list nat := List.filter (fun p => negb (bool_decide (p ∈ W))) l.

(** What a [wakeup] leaves, the swapper's wakeup on the way included: [W] are the
    processes woken. *)
Definition woke (chan : Z) (s : sys) (R : list nat) (Q : Z -> list nat) (s' : sys) (W : list nat) : Prop :=
  wfq s' (W ++ R) (fun j => out W (Q j)) /\
  awakened W s s' /\ quiet s s' /\
  (forall p, p ∈ Q (HASH chan) -> waits s chan p = true -> p ∈ W) /\
  (forall p, p ∈ W -> (p ∈ Q (HASH chan) /\ waits s chan p = true) \/
     (p ∈ Q (HASH runout_chan) /\ waits s runout_chan p = true /\ runout s <> 0)).

Lemma filter_all {A} (f : A -> bool) l : (forall x, x ∈ l -> f x = true) -> List.filter f l = l.
Proof.
  induction l as [|a l IH]; intros H; simpl; [done|]. rewrite H by set_solver.
  f_equal. apply IH. set_solver.
Qed.

Lemma elem_of_filter_b (f : nat -> bool) l p : p ∈ List.filter f l <-> f p = true /\ p ∈ l.
Proof. rewrite !list_elem_of_In, List.filter_In. tauto. Qed.

Lemma wakeup_plain_woke d chan s R Q : wfq s R Q -> runout s = 0 \/ loaded s chan (Q (HASH chan)) ->
  exists s', wakeup_at runout_chan (S d) chan s = Ok s' /\ runout s' = runout s /\
    woke chan s R Q s' (rev (List.filter (waits s chan) (Q (HASH chan)))).
Proof.
  intros Hq Hro. pose proof (HASH_range chan) as Hi.
  destruct (wakeup_at_plain d chan s R Q Hq Hro) as (s' & E & Hq' & Ha & Hqt & Hro').
  exists s'. split_and!; [done|done|]. set (F := List.filter (waits s chan) (Q (HASH chan))) in *.
  assert (forall p, p ∈ rev F <-> waits s chan p = true /\ p ∈ Q (HASH chan)) as HF.
  { intros p. rewrite list_elem_of_In, <- in_rev, <- list_elem_of_In. apply elem_of_filter_b. }
  split_and!; [| |done|by intros; apply HF|by intros p [? ?]%HF; left].
  - eapply queues_ext; [|exact Hq']. intros j Hj. cbn beta. destruct (Z.eqb_spec j (HASH chan)) as [->|Hne].
    + apply List.filter_ext_in. intros p Hp. apply list_elem_of_In in Hp. f_equal.
      destruct (waits s chan p) eqn:Hw; [apply bool_decide_eq_true|apply bool_decide_eq_false];
        rewrite HF; [done|]. intros [? _]. congruence.
    + apply filter_all. intros p Hp. apply negb_true_iff, bool_decide_eq_false. rewrite HF.
      intros [_ Hp']. destruct (queues_disjoint HASH s R Q _ p Hq Hi Hp') as [_ Hd]. by apply (Hd j).
  - destruct Ha as [HL Ha]. split; [done|]. intros p x Hx. destruct (Ha p x Hx) as (x' & Hx' & E').
    exists x'. split; [done|]. rewrite E'.
    assert (p ∈ F <-> p ∈ rev F) as HFr by (rewrite !list_elem_of_In; apply in_rev).
    destruct (decide (p ∈ F)), (decide (p ∈ rev F)); tauto.
Qed.

Lemma out_app W1 W2 l : out (W1 ++ W2) l = out W1 (out W2 l).
Proof.
  unfold out. induction l as [|a l IH]; simpl; [done|].
  assert (bool_decide (a ∈ W1 ++ W2) = bool_decide (a ∈ W1) || bool_decide (a ∈ W2)) as ->.
  { rewrite <- bool_decide_or. apply bool_decide_ext, elem_of_app. }
  destruct (bool_decide (a ∈ W2)); simpl; rewrite ?orb_true_r, ?orb_false_r; [done|].
  destruct (bool_decide (a ∈ W1)); simpl; by rewrite IH.
Qed.

Lemma out_none W l : (forall p, p ∈ l -> p ∉ W) -> out W l = l.
Proof. intros H. apply filter_all. intros p Hp. by rewrite bool_decide_false by auto. Qed.

Lemma out_one p pre l : p ∉ pre -> p ∉ l -> out [p] (pre ++ p :: l) = pre ++ l.
Proof.
  intros Hp Hl. unfold out. rewrite List.filter_app. cbn [List.filter].
  rewrite bool_decide_true by set_solver. cbn [negb].
  fold (out [p] pre) (out [p] l). rewrite !out_none; [done|set_solver..].
Qed.

Lemma rotate p (W R : list nat) : W ++ p :: R = (W ++ [p]) ++ R.
Proof. by rewrite <- app_assoc. Qed.

(** After one process is woken: the queues and the waiting of the others. *)
Lemma step_out s R Q i pre p l : wfq s R Q -> 0 <= i < 64 -> Q i = pre ++ p :: l ->
  forall j, 0 <= j < 64 -> out [p] (Q j) = if j =? i then pre ++ l else Q j.
Proof.
  intros Hq Hi HQ j Hj. pose proof (q_slp_nodup _ _ _ _ Hq i Hi) as Hnd. rewrite HQ in Hnd.
  destruct (Z.eqb_spec j i) as [->|Hne].
  - rewrite HQ. apply NoDup_app in Hnd as (_ & Hd & [Hl _]%NoDup_cons).
    apply out_one; [|done]. intros Hp. apply (Hd p Hp). by left.
  - apply out_none. intros r Hr Hrp. apply list_elem_of_singleton in Hrp as ->.
    assert (p ∈ Q i) as Hp by (rewrite HQ; set_solver).
    destruct (queues_disjoint HASH s R Q i p Hq Hi Hp) as [_ Hd]. by apply (Hd j).
Qed.

Lemma awakened_ext W W' s s' : (forall p, p ∈ W <-> p ∈ W') -> awakened W s s' -> awakened W' s s'.
Proof.
  intros HW [HL Ha]. split; [done|]. intros p x Hx. destruct (Ha p x Hx) as (x' & Hx' & E).
  exists x'. split; [done|]. rewrite E. destruct (decide (p ∈ W)), (decide (p ∈ W')); try done;
    exfalso; rewrite HW in *; done.
Qed.

Lemma elem_rev (l : list nat) p : p ∈ rev l <-> p ∈ l.
Proof. rewrite !list_elem_of_In. symmetry. apply in_rev. Qed.

(** What the loop from [l] on leaves. *)
Definition loop_woke (chan : Z) (l : list nat) (s : sys) (R : list nat) (Q : Z -> list nat)
    (s' : sys) (W : list nat) : Prop :=
  wfq s' (W ++ R) (fun j => out W (Q j)) /\ awakened W s s' /\ quiet s s' /\
  (forall p, p ∈ l -> waits s chan p = true -> p ∈ W) /\
  (forall p, p ∈ W -> (p ∈ l /\ waits s chan p = true) \/
     (p ∈ Q (HASH runout_chan) /\ waits s runout_chan p = true /\ runout s <> 0)).

(** The plain loop in those terms. *)
Lemma wake_loop_plain_woke wk fuel chan s R Q pre l : let i := HASH chan in
  wfq s R Q -> Q i = pre ++ l -> (length l <= fuel)%nat -> runout s = 0 ->
  exists s', wake_loop fuel (setrun_with runout_chan wk) i chan (hd_error l) (last pre) s = Ok s' /\
    loop_woke chan l s R Q s' (rev (List.filter (waits s chan) l)).
Proof.
  intros i Hq HQ Hf Hro. pose proof (HASH_range chan) as Hi. fold i in Hi.
  destruct (wake_loop_plain wk fuel chan i s R Q pre l Hq Hi HQ Hf (or_introl Hro)) as (s' & E & Hq' & Ha & Hqt & _).
  exists s'. split; [done|]. set (F := List.filter (waits s chan) l) in *.
  assert (forall p, p ∈ rev F <-> waits s chan p = true /\ p ∈ l) as HF
    by (intros p; rewrite elem_rev; apply elem_of_filter_b).
  split_and!; [|eapply awakened_ext; [|exact Ha]; intros; by rewrite elem_rev|done|by intros; apply HF|
    by intros p [? ?]%HF; left].
  pose proof (q_slp_nodup _ _ _ _ Hq i Hi) as Hnd. rewrite HQ in Hnd. apply NoDup_app in Hnd as (_ & Hd & _).
  eapply queues_ext; [|exact Hq']. intros j Hj. cbn beta. destruct (Z.eqb_spec j i) as [->|Hne].
  - rewrite HQ. unfold out. rewrite List.filter_app. f_equal.
    + apply out_none. intros p Hp. rewrite HF. intros [_ Hl]. by apply (Hd p).
    + apply List.filter_ext_in. intros p Hp%list_elem_of_In. f_equal.
      destruct (waits s chan p) eqn:Hw; [apply bool_decide_eq_true|apply bool_decide_eq_false];
        rewrite HF; [done|]. intros [? _]. congruence.
  - apply out_none. intros p Hp. rewrite HF. intros [_ Hl].
    destruct (queues_disjoint HASH s R Q i p Hq Hi) as [_ Hdj]; [rewrite HQ; set_solver|]. by apply (Hdj j).
Qed.

(** One process woken, then what [loop_woke] says of the rest. *)
Lemma loop_woke_cons chan s R Q pre p l s1 s' W : let i := HASH chan in
  wfq s R Q -> Q i = pre ++ p :: l -> waits s chan p = true ->
  awakened [p] s s1 -> quiet s s1 -> (runout s1 <> 0 -> runout s <> 0) ->
  loop_woke chan l s1 (p :: R) (fun j => if j =? i then pre ++ l else Q j) s' W ->
  loop_woke chan (p :: l) s R Q s' (W ++ [p]).
Proof.
  intros i Hq HQ Hw Ha Hqt Hro (Hq' & Ha' & Hqt' & HW1 & HW2).
  pose proof (HASH_range chan) as Hi. fold i in Hi. pose proof (HASH_range runout_chan) as Hj.
  destruct (queue_at s R Q i pre p l Hq Hi HQ) as (x & Hx & _ & _ & _ & Hpl & _).
  assert (forall k, 0 <= k < 64 -> p ∉ out [p] (Q k)) as Hpj.
  { intros k Hk Hp%elem_of_filter_b. rewrite bool_decide_true in Hp by set_solver. by destruct Hp. }
  pose proof (step_out s R Q i pre p l Hq Hi HQ) as Hout.
  assert (forall r c, r <> p -> waits s1 c r = waits s c r) as Hws.
  { intros r c Hr. apply (waits_awakened [p]); [done|set_solver]. }
  split_and!.
  - rewrite <- rotate. eapply queues_ext; [|exact Hq']. intros k Hk. cbn beta.
    by rewrite out_app, (step_out s R Q i pre p l Hq Hi HQ k Hk).
  - eapply awakened_ext; [|eapply awakened_trans; [exact Ha|exact Ha']]. set_solver.
  - by eapply quiet_trans.
  - intros r Hr Hwr. apply elem_of_cons in Hr as [->|Hr]; [set_solver|]. rewrite elem_of_app. left.
    apply HW1; [done|]. rewrite Hws; [done|]. by intros ->.
  - intros r Hr. apply elem_of_app in Hr as [Hr|Hr%list_elem_of_singleton]; [|subst; left; split; [set_solver|done]].
    destruct (HW2 r Hr) as [[H1 H2]|(H1 & H2 & H3)].
    + left. split; [by right|]. rewrite <- Hws; [done|]. by intros ->.
    + right. rewrite <- (Hout _ Hj) in H1. assert (r <> p) by (intros ->; by apply (Hpj _ Hj)).
      split_and!; [by apply elem_of_filter_b in H1 as [_ ?]|by rewrite <- Hws|by apply Hro].
Qed.

(** The swapper's wakeup in the middle of the loop, then the rest of it. *)
Lemma loop_woke_swapper chan d fuel s R Q pre l : let i := HASH chan in
  HASH runout_chan <> i -> wfq s R Q -> Q i = pre ++ l -> (length l <= fuel)%nat -> runout s <> 0 ->
  exists s' W,
    (s2 ← wakeup_at runout_chan (S d) runout_chan (set_runout 0 s);
     wake_loop fuel (setrun_with runout_chan (wakeup_at runout_chan (S d))) i chan (hd_error l) (last pre) s2)
      = Ok s' /\ loop_woke chan l s R Q s' W.
Proof.
  intros i Hh Hq HQ Hf Hro. pose proof (HASH_range chan) as Hi. fold i in Hi.
  destruct (wakeup_plain_woke d runout_chan (set_runout 0 s) R Q) as (s2 & -> & Hro2 & Hq2 & Ha2 & Hqt2 & _ & HW0);
    [by destruct Hq|by left|]. run.
  set (W0 := rev _) in *.
  assert (forall r, r ∈ W0 -> r ∈ Q (HASH runout_chan) /\ waits s runout_chan r = true) as HW0'.
  { intros r Hr. destruct (HW0 r Hr) as [?|(_ & _ & ?)]; done. }
  assert (forall r, r ∈ pre ++ l -> r ∉ W0) as HpreW.
  { intros r Hr Hr0. apply HW0' in Hr0 as [Hr0 _].
    destruct (queues_disjoint HASH s R Q i r Hq Hi) as [_ Hd]; [by rewrite HQ|].
    apply (Hd (HASH runout_chan)); [apply HASH_range|done|done]. }
  destruct (wake_loop_plain_woke (wakeup_at runout_chan (S d)) fuel chan s2 (W0 ++ R) (fun k => out W0 (Q k)) pre l)
    as (s' & E & Hq3 & Ha3 & Hqt3 & H3 & H4); [done|by fold i; rewrite HQ, out_none|done|done|].
  fold i in E. rewrite E. set (F := rev (List.filter (waits s2 chan) l)) in *. exists s', (F ++ W0). split; [done|].
  assert (forall r, r ∈ l -> waits s2 chan r = waits s chan r) as Hws.
  { intros r Hr. apply (waits_awakened W0 (set_runout 0 s)); [done|]. apply HpreW. set_solver. }
  split_and!.
  - rewrite <- app_assoc. eapply queues_ext; [|exact Hq3]. intros k Hk. cbn beta. apply out_app.
  - eapply awakened_ext; [|eapply (awakened_trans W0 F (set_runout 0 s)); [exact Ha2|exact Ha3]]. set_solver.
  - eapply quiet_trans; [|exact Hqt3]. eapply quiet_trans; [|exact Hqt2]. by repeat split.
  - intros p Hp Hw. rewrite elem_of_app. left. apply H3; [done|]. by rewrite Hws.
  - intros p [Hp|Hp]%elem_of_app.
    + destruct (H4 p Hp) as [[? ?]|(_ & _ & ?)]; [|done]. left. split; [done|]. by rewrite <- Hws.
    + right. destruct (HW0' p Hp). done.
Qed.

(** The loop in general: the swapper's channel hashes elsewhere. *)
Lemma wake_loop_woke d chan s R Q pre l fuel : let i := HASH chan in
  HASH runout_chan <> i -> wfq s R Q -> Q i = pre ++ l -> (length l <= fuel)%nat ->
  exists s' W,
    wake_loop fuel (setrun_with runout_chan (wakeup_at runout_chan (S d))) i chan
      (hd_error l) (last pre) s = Ok s' /\ loop_woke chan l s R Q s' W.
Proof.
  intros i Hh. pose proof (HASH_range chan) as Hi. fold i in Hi.
  revert fuel s R Q pre. induction l as [|p l IH]; intros fuel s R Q pre Hq HQ Hf.
  { exists s, []. split; [by destruct fuel|]. split_and!; try done; [|set_solver..].
    eapply queues_ext; [|exact Hq]. intros k Hk. apply out_none. set_solver. }
  destruct fuel as [|fuel]; [simpl in Hf; lia|]. simpl in Hf.
  destruct (queue_at s R Q i pre p l Hq Hi HQ) as (x & Hx & Hlink & Hsz & Hself & Hpl & Hndl).
  cbn [wake_loop hd_error]. unfold getp. rewrite (access_Ok _ _ _ Hx). run.
  destruct (Z.eqb_spec (p_stat x) SZOMB); [done|]. rewrite andb_true_r.
  assert (waits s chan p = (p_wchan x =? chan)) as Hw by (unfold waits; by rewrite Hx).
  destruct (p_wchan x =? chan).
  2:{ destruct (IH fuel s R Q (pre ++ [p]) Hq) as (s' & W & E & Hq' & Ha & Hqt & HW1 & HW2);
        [by rewrite <- app_assoc|lia|]. rewrite last_snoc in E. rewrite Hlink. exists s', W.
      split; [done|]. unfold loop_woke. split_and!; [done..| |].
      { intros r [->|Hr]%elem_of_cons Hwr; [congruence|by apply HW1]. }
      intros r Hr. destruct (HW2 r Hr) as [[? ?]|?]; [left; split; [set_solver|done]|by right]. }
  destruct (wake_step (wakeup_at runout_chan (S d)) s R Q i pre p l x Hq Hi HQ Hx)
    as (s1 & Ha & Hq1 & Hqt & Hro1 & E).
  unfold unlink_slp in E. fold (set_head i (p_link x) s) in E. rewrite E, Hlink. clear E.
  assert (runout s1 <> 0 -> runout s <> 0) as Hro' by congruence.
  destruct (negb (runout s =? 0) && negb (p_flag x &? SLOAD)) eqn:Htrig.
  - apply andb_true_iff in Htrig as [Hrn _]. apply negb_true_iff, Z.eqb_neq in Hrn.
    destruct (loop_woke_swapper chan d fuel s1 (p :: R) (fun j => if j =? i then pre ++ l else Q j) pre l)
      as (s' & W & E & HL); [done|done|fold i; by rewrite Z.eqb_refl|lia|congruence|].
    exists s', (W ++ [p]). split; [exact E|]. by eapply loop_woke_cons.
  - run. destruct (IH fuel s1 (p :: R) _ pre Hq1) as (s' & W & E & HL); [by rewrite Z.eqb_refl|lia|].
    exists s', (W ++ [p]). split; [exact E|]. by eapply loop_woke_cons.
Qed.
(** A walk along a chain where nobody waits for the channel. *)
Lemma wake_loop_idle fuel sr i chan s l : forall st q, chain (proc_tab s) st l -> (forall p, p ∈ l -> waits s chan p = false) ->
  (length l <= fuel)%nat -> wake_loop fuel sr i chan st q s = Ok s.
Proof.
  revert fuel. induction l as [|p l IH]; intros fuel st q Hc Hw Hf; [simpl in Hc; subst; by destruct fuel|].
  destruct Hc as (-> & x & Hx & Hc). destruct fuel as [|fuel]; [simpl in Hf; lia|]. simpl in Hf. cbn [wake_loop].
  unfold getp. rewrite (access_Ok _ _ _ Hx). run. specialize (Hw p ltac:(set_solver)) as Hp. unfold waits in Hp. rewrite Hx in Hp. rewrite Hp.
  cbn [andb]. apply IH; [done| |lia]. intros r Hr. apply Hw. by right.
Qed.

(** The rest of a queue after a wakeup of [W], where nobody waits for [chan] any more: its next
    process is still in the queue, or is now in the run queue; the loop ends either way. *)
Lemma wake_loop_rest fuel sr chan i s R Q s' W pre l q : chan <> 0 -> 0 <= i < 64 -> Q i = pre ++ l -> awakened W s s' ->
  wfq s' (W ++ R) (fun j => out W (Q j)) -> (forall p, p ∈ l -> waits s chan p = false) -> (length (proc_tab s') <= fuel)%nat ->
  wake_loop fuel sr i chan (hd_error l) q s' = Ok s'.
Proof.
  intros Hc Hi HQ Ha Hq Hw Hf. destruct l as [|r l]; [by destruct fuel|]. destruct (decide (r ∈ W)) as [Hr|Hr].
  - assert (r ∈ W ++ R) as (a & b & Hab)%list_elem_of_split by set_solver. pose proof (q_run _ _ _ _ Hq) as Hch. rewrite Hab in Hch.
    destruct (chain_app _ _ _ _ _ Hch) as (x & Hx & Hch'). pose proof (queues_run_length _ _ _ _ Hq) as HL. rewrite Hab, length_app in HL. simpl in HL.
    apply (wake_loop_idle _ _ _ _ _ (r :: b)); [split; [done|by exists x]| |simpl; lia].
    intros p Hp. unfold waits. destruct (proc_tab s' !! p) as [y|] eqn:Hy; [|done].
    rewrite (q_run_idle _ _ _ _ Hq p y) by (done || (rewrite Hab; set_solver)). apply Z.eqb_neq. done.
  - destruct (q_slp _ _ _ _ Hq i Hi) as (st & _ & Hch). cbn beta in Hch. pose proof (queues_slp_length HASH _ _ _ i Hq Hi) as HL. cbn beta in HL.
    assert (out W (Q i) = out W pre ++ r :: out W l) as E.
    { rewrite HQ. unfold out. rewrite List.filter_app. cbn [List.filter]. by rewrite (bool_decide_false (r ∈ W)). }
    rewrite E in Hch, HL. destruct (chain_app _ _ _ _ _ Hch) as (x & Hx & Hch'). rewrite length_app in HL. simpl in HL.
    apply (wake_loop_idle _ _ _ _ _ (r :: out W l)); [split; [done|by exists x]| |simpl; lia].
    intros p Hp. assert (p ∈ r :: l /\ p ∉ W) as [Hpl HpW].
    { apply elem_of_cons in Hp as [->|Hp]; [set_solver|]. apply elem_of_filter_b in Hp as [Hp ?]. split; [set_solver|].
      intros Hin. by rewrite bool_decide_true in Hp. }
    rewrite (waits_awakened W s s') by done. by apply Hw.
Qed.

(** No two of [l] wait for the channel. *)
Definition sole (s : sys) (chan : Z) (l : list nat) : Prop :=
  forall p q, p ∈ l -> q ∈ l -> waits s chan p = true -> waits s chan q = true -> p = q.

(** The loop over a queue with one sleeper on the channel, whatever bucket [runout] has. *)
Lemma wake_loop_sole d chan s R Q pre l fuel : let i := HASH chan in
  wfq s R Q -> Q i = pre ++ l -> (length l + length (proc_tab s) <= fuel)%nat -> sole s chan l ->
  exists s' W,
    wake_loop fuel (setrun_with runout_chan (wakeup_at runout_chan (S d))) i chan
      (hd_error l) (last pre) s = Ok s' /\ loop_woke chan l s R Q s' W.
Proof.
  intros i. pose proof (HASH_range chan) as Hi. fold i in Hi.
  revert fuel s R Q pre. induction l as [|p l IH]; intros fuel s R Q pre Hq HQ Hf Hso.
  { exists s, []. split; [by destruct fuel|]. split_and!; try done; [|set_solver..].
    eapply queues_ext; [|exact Hq]. intros k Hk. apply out_none. set_solver. }
  destruct fuel as [|fuel]; [simpl in Hf; lia|]. simpl in Hf.
  destruct (queue_at s R Q i pre p l Hq Hi HQ) as (x & Hx & Hlink & Hsz & Hself & Hpl & Hndl).
  cbn [wake_loop hd_error]. unfold getp. rewrite (access_Ok _ _ _ Hx). run.
  destruct (Z.eqb_spec (p_stat x) SZOMB); [done|]. rewrite andb_true_r.
  assert (waits s chan p = (p_wchan x =? chan)) as Hw by (unfold waits; by rewrite Hx).
  destruct (Z.eqb_spec (p_wchan x) chan) as [Ec|Ec].
  2:{ destruct (IH fuel s R Q (pre ++ [p]) Hq) as (s' & W & E & Hq' & Ha & Hqt & HW1 & HW2);
        [by rewrite <- app_assoc|lia|intros r1 r2 ? ?; apply (Hso r1 r2); by right|]. rewrite last_snoc in E. rewrite Hlink. exists s', W.
      split; [done|]. unfold loop_woke. split_and!; [done..| |].
      { intros r [->|Hr]%elem_of_cons Hwr; [congruence|by apply HW1]. }
      intros r Hr. destruct (HW2 r Hr) as [[? ?]|?]; [left; split; [set_solver|done]|by right]. }
  destruct (q_slp_waits _ _ _ _ Hq i p x Hi ltac:(rewrite HQ; set_solver) Hx) as (Hc0 & _). rewrite Ec in Hc0.
  assert (forall r, r ∈ l -> waits s chan r = false) as Hrest.
  { intros r Hr. destruct (waits s chan r) eqn:E; [|done]. assert (p = r) as -> by (apply (Hso p r); [set_solver..|done|done]). done. }
  destruct (wake_step (wakeup_at runout_chan (S d)) s R Q i pre p l x Hq Hi HQ Hx) as (s1 & Ha & Hq1 & Hqt & Hro1 & E).
  unfold unlink_slp in E. fold (set_head i (p_link x) s) in E. rewrite E, Hlink. clear E.
  assert (runout s1 <> 0 -> runout s <> 0) as Hro' by congruence.
  assert (forall r, r ∈ l -> waits s1 chan r = false) as Hrest1.
  { intros r Hr. rewrite (waits_awakened [p] s s1 chan r Ha); [by apply Hrest|set_solver]. }
  assert (length (proc_tab s1) = length (proc_tab s)) as L1 by apply Ha.
  destruct (negb (runout s =? 0) && negb (p_flag x &? SLOAD)) eqn:Htrig.
  - apply andb_true_iff in Htrig as [Hrn _]. apply negb_true_iff, Z.eqb_neq in Hrn.
    destruct (wakeup_plain_woke d runout_chan (set_runout 0 s1) (p :: R) (fun j => if j =? i then pre ++ l else Q j))
      as (s2 & E2 & Hro2 & Hq2 & Ha2 & Hqt2 & _ & HW0); [by destruct Hq1|by left|]. rewrite E2. run. set (W0 := rev _) in *.
    exists s2, (W0 ++ [p]). split.
    + apply (wake_loop_rest _ _ chan i (set_runout 0 s1) (p :: R) (fun j => if j =? i then pre ++ l else Q j) s2 W0 pre l); try done.
      * by rewrite Z.eqb_refl.
      * destruct Ha2 as [-> _]. cbn. lia.
    + apply (loop_woke_cons chan s R Q pre p l s1); [done|done|by rewrite Hw|done|done|done|]. fold i. split_and!; [done|done| | |].
      * eapply quiet_trans; [|exact Hqt2]. by repeat split.
      * intros r Hr Hwr. by rewrite Hrest1 in Hwr.
      * intros r Hr. destruct (HW0 r Hr) as [[H1 H2]|(_ & _ & ?)]; [|done]. right. split_and!; [done|done|congruence].
  - run. exists s1, ([] ++ [p]). split.
    + apply (wake_loop_rest _ _ chan i s1 (p :: R) (fun j => if j =? i then pre ++ l else Q j) s1 [] pre l); try done.
      * by rewrite Z.eqb_refl.
      * eapply queues_ext; [|exact Hq1]. intros k Hk. cbn beta. apply out_none. set_solver.
      * lia.
    + apply (loop_woke_cons chan s R Q pre p l s1); [done|done|by rewrite Hw|done|done|done|]. fold i. split_and!; [|apply awakened_nil|done| |set_solver].
      * eapply queues_ext; [|exact Hq1]. intros k Hk. cbn beta. apply out_none. set_solver.
      * intros r Hr Hwr. by rewrite Hrest1 in Hwr.
Qed.
End Wakeup.

(** When a wakeup of [chan] reaches everybody: the swapper is not to be woken on the way, or
    sleeps in another bucket, or the channel has one sleeper. *)
Definition reaches (runout_chan chan : Z) (s : sys) (Q : Z -> list nat) : Prop :=
  runout s = 0 \/ HASH runout_chan <> HASH chan \/ loaded s chan (Q (HASH chan)) \/ sole s chan (Q (HASH chan)).

Lemma wakeup_woke runout_chan chan s R Q :
  wfq s R Q -> reaches runout_chan chan s Q ->
  exists s' W, wakeup runout_chan chan s = Ok s' /\ woke runout_chan chan s R Q s' W.
Proof.
  intros Hq Hr.
  assert (forall st, slpque s !! Z.to_nat (HASH chan) = Some st -> chain (proc_tab s) st (Q (HASH chan)) -> st = hd_error (Q (HASH chan))) as Hst.
  { intros st _ Hc. destruct (Q (HASH chan)); [done|by destruct Hc as [-> _]]. }
  pose proof (HASH_range chan) as Hi. pose proof (queues_slp_length HASH s R Q _ Hq Hi). destruct Hr as [Hro|[Hh|[HL|Hso]]].
  - destruct (wakeup_plain_woke runout_chan 2 chan s R Q Hq (or_introl Hro)) as (s' & E & _ & Hw). eauto.
  - unfold wakeup. cbn [wakeup_at]. cbv zeta. destruct (q_slp _ _ _ _ Hq _ Hi) as (st & Hs & Hc). unfold head. rewrite (access_Ok _ _ _ Hs). run.
    rewrite (Hst st Hs Hc). destruct (wake_loop_woke runout_chan 1 chan s R Q [] (Q (HASH chan)) (2 * length (proc_tab s)))
      as (s' & W & E & HW); [done|done|done|lia|]. exists s', W. split; [exact E|exact HW].
  - destruct (wakeup_plain_woke runout_chan 2 chan s R Q Hq (or_intror HL)) as (s' & E & _ & Hw). eauto.
  - unfold wakeup. cbn [wakeup_at]. cbv zeta. destruct (q_slp _ _ _ _ Hq _ Hi) as (st & Hs & Hc). unfold head. rewrite (access_Ok _ _ _ Hs). run.
    rewrite (Hst st Hs Hc). destruct (wake_loop_sole runout_chan 1 chan s R Q [] (Q (HASH chan)) (2 * length (proc_tab s)))
      as (s' & W & E & HW); [done|done|lia|done|]. exists s', W. split; [exact E|exact HW].
Qed.

(** C26. [wakeup(chan)] puts every process sleeping on [chan] on the run queue,
    runnable, and leaves every other sleeper where it was -- except that the
    swapper's sleepers are woken on the way when a swapped-out process is made
    runnable and [runout] asks for it.  It always terminates, and the queues stay
    disjoint chains.  This holds when [runout] is clear, or hashes to another bucket than
    [chan], or every sleeper on [chan] is in core, or there is just one; with two sleepers, one
    of them swapped out, in the bucket of a [runout] that is set, one may be left asleep:
    [wakeup_lost]. *)
Theorem wakeup_correct runout_chan chan s R Q :
  wfq s R Q ->
  runout s = 0 \/ HASH runout_chan <> HASH chan \/ loaded s chan (Q (HASH chan)) \/ sole s chan (Q (HASH chan)) ->
  exists s' W, wakeup runout_chan chan s = Ok s' /\ woke runout_chan chan s R Q s' W.
Proof. apply wakeup_woke. Qed.

(** ** Small systems to run the definitions on *)

Definition proc0 : proc := Proc 0 0 0 0 0 20 0 0 0 0 0 0 0 0 None None 0.
Definition sleeper (chan flag : Z) (link : option nat) : proc :=
  Proc SSLEEP flag 30 0 0 20 0 0 0 0 0 0 0 chan None link 0.
(** Process 0 (the swapper) sleeps on channel 1000, processes 1 (swapped out)
    and 2 on [chan]; all on one sleep queue if [chan] hashes with 1000. *)
Definition sys_of (tab : list proc) (heads : list (option nat)) (run : option nat) (out : Z) : sys :=
  Sys tab heads run 7 0 out 0 50 0 0 3 (replicate 17 0).

Definition sys1 : sys :=
  sys_of [sleeper 1000 1 None; sleeper 2000 0 (Some 2%nat); sleeper 2000 1 None; proc0]
    (<[31%nat := Some 0%nat]> (<[62%nat := Some 1%nat]> (replicate 64 None))) None 1.
Definition Q1 (i : Z) : list nat := if i =? 31 then [0%nat] else if i =? 62 then [1%nat; 2%nat] else [].

Lemma sys1_wf : wfq sys1 [] Q1.
Proof.
  constructor.
  - done.
  - constructor.
  - set_solver.
  - done.
  - intros i Hi. unfold Q1.
    destruct (Z.eqb_spec i 31) as [->|]; [|destruct (Z.eqb_spec i 62) as [->|]].
    + exists (Some 0%nat). split; [reflexivity|]. simpl. eauto.
    + exists (Some 1%nat). split; [reflexivity|]. simpl. eauto 10.
    + exists None. split; [|done]. cbn [slpque sys1 sys_of]. unfold sys1, sys_of. cbn [slpque]. rewrite !list_lookup_insert_ne by lia.
      apply lookup_replicate_2. lia.
  - intros i _. unfold Q1. destruct (i =? 31), (i =? 62); apply (bool_decide_unpack _); reflexivity.
  - intros i p x Hi Hp. unfold Q1 in Hp. destruct (Z.eqb_spec i 31) as [->|].
    + apply list_elem_of_singleton in Hp as ->. intros [= <-]. by vm_compute.
    + destruct (Z.eqb_spec i 62) as [->|]; [|set_solver].
      apply elem_of_cons in Hp as [->|Hp]; [|apply list_elem_of_singleton in Hp as ->];
        intros [= <-]; by vm_compute.
Qed.

Lemma wakeup_correct_witness :
  exists s' W, wakeup 1000 2000 sys1 = Ok s' /\ woke 1000 2000 sys1 [] Q1 s' W.
Proof.
  apply (wakeup_correct 1000 2000 sys1 [] Q1).
  - exact sys1_wf.
  - right. left. vm_compute. discriminate.
Defined.

(** The nested wakeup and the outer loop share a queue when [chan] and [&runout]
    hash alike, and the outer loop then follows a link of the run queue: process
    2 stays asleep on a channel that was just woken. *)
Definition sys2 : sys :=
  sys_of [sleeper 1000 1 (Some 2%nat); sleeper 1001 0 (Some 0%nat); sleeper 1001 1 None; proc0]
    (<[31%nat := Some 1%nat]> (replicate 64 None)) None 1.

Theorem wakeup_lost :
  match wakeup 1000 1001 sys2 with
  | Ok s' => (fun x => (p_stat x, p_wchan x)) <$> proc_tab s' !! 2%nat = Some (SSLEEP, 1001)
  | _ => False
  end.
Proof. vm_compute. reflexivity. Qed.

(** ** [sleep] *)

(** The current process at the head of the queue of its channel. *)
Definition enqueued (p : nat) (h : Z) (Q : Z -> list nat) (j : Z) : list nat :=
  if j =? h then p :: Q j else Q j.

Lemma queues_enqueue s R Q p x chan pri first : wfq s R Q -> off_queues p R Q -> proc_tab s !! p = Some x ->
  chan <> 0 -> slpque s !! Z.to_nat (HASH chan) = Some first ->
  wfq (set_head (HASH chan) (Some p)
        (modp p (fun x => set_p_link first (set_p_pri pri (set_p_wchan chan (set_p_stat SSLEEP x)))) s))
    R (enqueued p (HASH chan) Q).
Proof.
  intros Hq Hoff Hx Hc Hfirst. pose proof (HASH_range chan) as Hh. set (h := HASH chan) in *.
  set (f := fun x => _). pose proof (queues_modp_off HASH s R Q p f Hq Hoff) as [Hrun Hrnd Hidle Hheads Hslp Hsnd Hwt].
  destruct Hoff as [HR HQ]. unfold set_head, modp, enqueued in *. constructor; simpl in *; try done.
  - by rewrite length_insert.
  - intros j Hj. destruct (Z.eqb_spec j h) as [->|Hne].
    + exists (Some p). split; [by rewrite list_lookup_insert_eq by lia|]. split; [done|].
      exists (f x). rewrite list_lookup_alter_eq, Hx. split; [done|]. simpl.
      destruct (Hslp h Hj) as (st & Hst & Hch). by rewrite Hfirst in Hst; injection Hst as <-.
    + rewrite list_lookup_insert_ne by lia. by apply Hslp.
  - intros j Hj. destruct (Z.eqb_spec j h) as [->|Hne]; [|by apply Hsnd].
    apply NoDup_cons. split; [by apply HQ|by apply Hsnd].
  - intros j r y Hj Hr Hy. destruct (Z.eqb_spec j h) as [->|Hne]; [|by eapply Hwt].
    apply elem_of_cons in Hr as [->|Hr]; [|by eapply Hwt].
    rewrite list_lookup_alter_eq, Hx in Hy. injection Hy as <-. simpl. done.
Qed.

(** Changing neither link, channel nor status moves nobody. *)
Lemma queues_flag s R Q p f : wfq s R Q ->
  (forall x, p_link (f x) = p_link x /\ p_wchan (f x) = p_wchan x /\ p_stat (f x) = p_stat x) ->
  wfq (modp p f s) R Q.
Proof.
  intros [Hrun Hrnd Hidle Hheads Hslp Hsnd Hwt] Hf.
  assert (forall r y, alter f p (proc_tab s) !! r = Some y ->
      exists z, proc_tab s !! r = Some z /\ p_wchan y = p_wchan z /\ p_stat y = p_stat z) as Hal.
  { intros r y Hy. destruct (decide (r = p)) as [->|].
    - rewrite list_lookup_alter_eq in Hy. destruct (proc_tab s !! p) as [z|]; [|done].
      exists z. injection Hy as <-. split; [done|]. by apply Hf.
    - rewrite list_lookup_alter_ne in Hy by done. eauto. }
  unfold modp. constructor; cbn [proc_tab set_proc_tab runq slpque]; try done.
  - apply chain_alter; [|done]. intros. apply Hf.
  - intros r y Hr (z & Hz & -> & _)%Hal. eauto.
  - intros i Hi. destruct (Hslp i Hi) as (st & Hst & Hc). exists st. split; [done|].
    apply chain_alter; [|done]. intros. apply Hf.
  - intros i r y Hi Hr (z & Hz & -> & ->)%Hal. eauto.
Qed.

Lemma queues_sig s R Q p sig : wfq s R Q -> wfq (set_proc_tab (alter (set_p_sig sig) p (proc_tab s)) s) R Q.
Proof. intros Hq. by apply (queues_flag s R Q p (set_p_sig sig)). Qed.

(** A process at the head of its queue, taken off again. *)
Lemma queues_dequeue s R Q p h x : wfq s R (enqueued p h Q) -> 0 <= h < 64 -> proc_tab s !! p = Some x ->
  off_queues p R Q ->
  wfq (set_head h (p_link x) (modp p (fun x => set_p_stat SRUN (set_p_wchan 0 x)) s)) R Q.
Proof.
  intros [Hrun Hrnd Hidle Hheads Hslp Hsnd Hwt] Hh Hx [HR HQ]. unfold set_head, modp, enqueued in *. constructor; simpl; try done.
  - by apply chain_alter.
  - intros r y Hr. rewrite list_lookup_alter_ne; [eauto|]. by intros <-.
  - by rewrite length_insert.
  - intros j Hj. destruct (Hslp j Hj) as (st & Hst & Hc). destruct (Z.eqb_spec j h) as [->|Hne].
    + exists (p_link x). rewrite list_lookup_insert_eq by lia. split; [done|].
      destruct Hc as (_ & x' & Hx' & Hc). simplify_eq. apply chain_alter; [|done]. intros Hp. by apply HQ in Hp.
    + exists st. rewrite list_lookup_insert_ne by lia. split; [done|]. by apply chain_alter.
  - intros j Hj. specialize (Hsnd j Hj). destruct (j =? h); [by apply NoDup_cons in Hsnd as [_ ?]|done].
  - intros j r y Hj Hr Hy. rewrite list_lookup_alter_ne in Hy by (intros <-; by apply (HQ j)).
    apply (Hwt j r y); [done| |done]. destruct (j =? h); [by right|done].
Qed.

(** What [sleep] leaves of the table: of its own entry the identity. *)
Definition same_but (p : nat) (s s' : sys) : Prop :=
  (forall r, r <> p -> proc_tab s' !! r = proc_tab s !! r) /\
  (forall x, proc_tab s !! p = Some x -> exists x', proc_tab s' !! p = Some x' /\
     p_pid x' = p_pid x /\ p_ppid x' = p_ppid x /\ (sigset (p_sig x) -> sigset (p_sig x'))) /\
  length (proc_tab s') = length (proc_tab s) /\ mpid s' = mpid s /\ u_procp s' = u_procp s /\
  u_signal s' = u_signal s /\ runout s' = runout s.

Lemma same_but_alter p f s s' : proc_tab s' = alter f p (proc_tab s) ->
  (forall x, proc_tab s !! p = Some x -> p_pid (f x) = p_pid x /\ p_ppid (f x) = p_ppid x /\ (sigset (p_sig x) -> sigset (p_sig (f x)))) ->
  mpid s' = mpid s -> u_procp s' = u_procp s -> u_signal s' = u_signal s -> runout s' = runout s -> same_but p s s'.
Proof.
  intros E Hf Em Eu Es Eo. unfold same_but. rewrite E. split; [|split; [|split; [apply length_alter|done]]].
  - intros r Hr. by rewrite list_lookup_alter_ne.
  - intros x Hx. exists (f x). rewrite list_lookup_alter_eq, Hx. split; [done|]. by apply Hf.
Qed.

(** The wakeup of the swapper on [runin] reaches it when [chan] has a new sleeper. *)
Definition sleep_reaches (runin_chan runout_chan chan : Z) (s : sys) (Q : Z -> list nat) : Prop :=
  runout s = 0 \/ HASH runout_chan <> HASH runin_chan \/
  chan <> runin_chan /\ (loaded s runin_chan (Q (HASH runin_chan)) \/ sole s runin_chan (Q (HASH runin_chan))).

Lemma waits_same_but p s s' c r : same_but p s s' -> r <> p -> waits s' c r = waits s c r.
Proof. intros [Hs _] Hr. unfold waits. by rewrite Hs. Qed.

Lemma sleep_reached runin_chan runout_chan chan s Q p s' x : sleep_reaches runin_chan runout_chan chan s Q -> same_but p s s' ->
  proc_tab s' !! p = Some x -> p_wchan x = chan -> (forall k, 0 <= k < 64 -> p ∉ Q k) ->
  reaches runout_chan runin_chan (set_runin 0 s') (enqueued p (HASH chan) Q).
Proof.
  intros Hr Hsb Hx Hw HQ. pose proof (HASH_range runin_chan) as Hk. set (k := HASH runin_chan) in *.
  assert (chan <> runin_chan -> forall r, r ∈ enqueued p (HASH chan) Q k -> waits s' runin_chan r = true -> r <> p /\ r ∈ Q k /\ waits s runin_chan r = true) as Hin.
  { intros Hc r Hin Hwr. assert (r <> p) as Hne by (intros ->; unfold waits in Hwr; rewrite Hx, Hw in Hwr; lia).
    rewrite (waits_same_but p s s' _ _ Hsb Hne) in Hwr. unfold enqueued in Hin. split_and!; [done| |done]. case_match; set_solver. }
  destruct Hr as [Hr|[Hr|[Hc [HL|Hso]]]].
  - left. cbn. destruct Hsb as (_ & _ & _ & _ & _ & _ & ->). done.
  - right. by left.
  - right. right. left. intros r y Hr Hwr Hy. destruct (Hin Hc r Hr Hwr) as (Hne & H1 & H2). apply (HL r y H1 H2).
    destruct Hsb as [Hs _]. rewrite <- Hs; done.
  - right. right. right. intros r1 r2 H1 H2 W1 W2. destruct (Hin Hc r1 H1 W1) as (_ & ? & ?), (Hin Hc r2 H2 W2) as (_ & ? & ?). by apply Hso.
Qed.

Lemma sleep_spec runin_chan runout_chan chan pri s R Q x :
  let p := u_procp s in
  wfq s R Q -> off_queues p R Q -> proc_tab s !! p = Some x ->
  sigset (p_sig x) -> length (u_signal s) = 17%nat -> chan <> 0 -> 0 <= pri < 256 ->
  sleep_reaches runin_chan runout_chan chan s Q ->
  exists r s', sleep runin_chan runout_chan chan pri s = Ok (r, s') /\
    match r with
    | ToQsav =>
        PZERO < pri /\ wfq s' R Q /\
        (exists n sig', n <> 0 /\ issig_result (p_sig x) (u_signal s) (p_flag x &? STRC) n sig') /\
        (exists x', proc_tab s' !! p = Some x' /\ p_stat x' = SRUN /\ p_wchan x' = 0) /\ same_but p s s'
    | ToSwtch =>
        exists s1, wfq s1 R (enqueued p (HASH chan) Q) /\ runin s1 = runin s /\
          (exists x', proc_tab s1 !! p = Some x' /\ p_stat x' = SSLEEP /\ p_wchan x' = chan /\ p_pri x' = pri) /\ same_but p s s1 /\
          (pri <= PZERO \/ runin s = 0 -> s' = s1) /\
          (PZERO < pri -> runin s <> 0 ->
             exists W, woke runout_chan runin_chan (set_runin 0 s1) R (enqueued p (HASH chan) Q) s' W)
    end.
Proof.
  intros p Hq Hoff Hx Hsig Hus Hc Hpri Hro. pose proof (HASH_range chan) as Hh.
  unfold sleep. fold p. destruct (Z.eqb_spec chan 0) as [|_]; [done|]. unfold getp. rewrite (access_Ok _ _ _ Hx). run.
  destruct (q_slp _ _ _ _ Hq _ Hh) as (first & Hfirst & _). unfold head. rewrite (access_Ok _ _ _ Hfirst). run.
  rewrite (Z.mod_small pri) by lia.
  pose proof (queues_enqueue s R Q p x chan pri first Hq Hoff Hx Hc Hfirst) as Hq1.
  set (f := fun x => set_p_link _ _) in *. set (s1 := set_head (HASH chan) (Some p) (modp p f s)) in *.
  assert (proc_tab s1 !! p = Some (f x)) as Hx1.
  { unfold s1, modp. simpl. by rewrite list_lookup_alter_eq, Hx. }
  destruct (Z.ltb_spec PZERO pri) as [Hp|Hp].
  2:{ eexists ToSwtch, s1. split; [done|]. exists s1. split_and!; [done|done|by exists (f x)|by eapply same_but_alter|done|lia]. }
  destruct (issig_spec s1 (f x)) as (n & sig' & -> & Hres); [done..|]. run. cbv zeta.
  set (s2 := set_proc_tab _ s1). pose proof (queues_sig s1 R _ (u_procp s1) sig' Hq1) as Hq2. fold s2 in Hq2.
  assert (proc_tab s2 !! p = Some (set_p_sig sig' (f x))) as Hx2.
  { unfold s2. cbn [proc_tab set_proc_tab]. change (u_procp s1) with p. by rewrite list_lookup_alter_eq, Hx1. }
  assert (same_but p s s2) as Hsb.
  { apply (same_but_alter p (fun x => set_p_sig sig' (f x))); try done; [|intros y _; split_and!; try done; intros _; apply Hres].
    unfold s2. cbn [proc_tab set_proc_tab]. unfold s1, modp. cbn. by rewrite list_alter_alter_eq. }
  destruct (Z.eqb_spec n 0) as [->|Hn]; cbn [negb].
  - destruct (Z.eqb_spec (runin s2) 0) as [Hr0|Hr0]; cbn [negb].
    + run. exists ToSwtch, s2. split; [done|]. exists s2.
      split_and!; [done|done|by eexists|done|done|]. intros _ H. by destruct H.
    + destruct (wakeup_woke runout_chan runin_chan (set_runin 0 s2) R (enqueued p (HASH chan) Q))
        as (s' & W & -> & HW); [by destruct Hq2|by eapply (sleep_reached _ _ _ s Q p s2); [..|apply Hoff]|]. run.
      exists ToSwtch, s'. split; [done|]. exists s2. split_and!; [done|done|by eexists|done| |eauto].
      intros [?|?]; [lia|done].
  - assert (proc_tab (modp p (fun x => set_p_stat SRUN (set_p_wchan 0 x)) s2) !! p =
      Some (set_p_stat SRUN (set_p_wchan 0 (set_p_sig sig' (f x))))) as Hx3.
    { unfold modp. cbn [proc_tab set_proc_tab]. by rewrite list_lookup_alter_eq, Hx2. }
    rewrite (access_Ok _ _ _ Hx3). run.
    pose proof (queues_dequeue s2 R Q p (HASH chan) _ Hq2 Hh Hx2 Hoff) as Hq3.
    eexists ToQsav, _. split; [reflexivity|]. split_and!; [done|exact Hq3|by exists n, sig'|by eexists|].
    apply (same_but_alter p (fun x => set_p_stat SRUN (set_p_wchan 0 (set_p_sig sig' (f x))))); try done; [|intros y _; split_and!; try done; intros _; apply Hres].
    unfold s2, s1, set_head, modp. cbn. by rewrite !list_alter_alter_eq.
Qed.

(** [sleep] puts the current process at the head of its channel's queue and
    gives the processor away; at an interruptible priority a pending signal that is
    not ignored takes it off again, leaving the queues exactly as they were, and
    otherwise the swapper waiting on [runin] is woken first. *)
Theorem sleep_correct runin_chan runout_chan chan pri s R Q x :
  let p := u_procp s in
  wfq s R Q -> off_queues p R Q -> proc_tab s !! p = Some x ->
  sigset (p_sig x) -> length (u_signal s) = 17%nat -> chan <> 0 -> 0 <= pri < 256 ->
  sleep_reaches runin_chan runout_chan chan s Q ->
  exists r s', sleep runin_chan runout_chan chan pri s = Ok (r, s') /\
    match r with
    | ToQsav =>
        PZERO < pri /\ wfq s' R Q /\
        (exists n sig', n <> 0 /\ issig_result (p_sig x) (u_signal s) (p_flag x &? STRC) n sig') /\
        exists x', proc_tab s' !! p = Some x' /\ p_stat x' = SRUN /\ p_wchan x' = 0
    | ToSwtch =>
        exists s1, wfq s1 R (enqueued p (HASH chan) Q) /\ runin s1 = runin s /\
          (exists x', proc_tab s1 !! p = Some x' /\ p_stat x' = SSLEEP /\ p_wchan x' = chan /\ p_pri x' = pri) /\
          (pri <= PZERO \/ runin s = 0 -> s' = s1) /\
          (PZERO < pri -> runin s <> 0 ->
             exists W, woke runout_chan runin_chan (set_runin 0 s1) R (enqueued p (HASH chan) Q) s' W)
    end.
Proof.
  intros p Hq Hoff Hx Hsig Hus Hc Hpri Hro.
  destruct (sleep_spec runin_chan runout_chan chan pri s R Q x) as ([] & s' & E & H); try done; [exists ToQsav|exists ToSwtch]; exists s'; (split; [done|]).
  - tauto.
  - destruct H as (s1 & ? & ? & ? & _ & ?). exists s1. tauto.
Qed.

Lemma sleep_correct_witness :
  exists r s', sleep 900 1000 2000 40 sys1 = Ok (r, s') /\ r = ToSwtch.
Proof.
  destruct (sleep_correct 900 1000 2000 40 sys1 [] Q1 proc0 sys1_wf) as (r & s' & E & _).
  - split; [set_solver|]. intros i Hi. unfold Q1. destruct (i =? 31), (i =? 62); set_solver.
  - reflexivity.
  - unfold sigset; simpl; lia.
  - reflexivity.
  - lia.
  - lia.
  - right. left. vm_compute. discriminate.
  - exists r, s'. split; [exact E|]. vm_compute in E. congruence.
Defined.

(** ** [swtch] *)

Definition ready (s : sys) (p : nat) (n : Z) : Prop :=
  exists x, proc_tab s !! p = Some x /\ p_stat x = SRUN /\ (p_flag x &? SLOAD) = true /\ p_pri x = n.

(** The best of the queue's part [done] seen so far. *)
Definition best_of (s : sys) (done : list nat) (best : option (nat * option nat)) (n : Z) : Prop :=
  match best with
  | None => n = 128 /\ forall r m, r ∈ done -> ready s r m -> 128 <= m
  | Some (p, q) => exists a b, done = a ++ p :: b /\ q = last a /\ ready s p n /\ n < 128 /\
      (forall r m, r ∈ a -> ready s r m -> n < m) /\ (forall r m, r ∈ b -> ready s r m -> n <= m)
  end.

Lemma best_of_skip s done best n p : best_of s done best n -> (forall m, ready s p m -> n <= m) ->
  best_of s (done ++ [p]) best n.
Proof.
  destruct best as [[r q]|]; simpl.
  - intros (a & b & -> & Hq & Hr & Hn & Ha & Hb) Hp. exists a, (b ++ [p]).
    split_and!; try done; [by rewrite <- app_assoc|]. intros r' m [Hr'|Hr'%list_elem_of_singleton]%elem_of_app;
      [by apply Hb|subst; apply Hp].
  - intros [-> H] Hp. split; [done|]. intros r m [Hr|Hr%list_elem_of_singleton]%elem_of_app;
      [by apply H|subst; apply Hp].
Qed.

Lemma best_of_take s done best n p m : best_of s done best n -> ready s p m -> m < n ->
  best_of s (done ++ [p]) (Some (p, last done)) m.
Proof.
  intros Hb Hp Hm. exists done, []. split_and!; try done; [..|set_solver].
  - destruct best as [[r q]|]; simpl in Hb; [destruct Hb as (a & b & _ & _ & _ & ? & _); lia|destruct Hb; lia].
  - intros r k Hr Hk. destruct best as [[r' q]|]; simpl in Hb; [|destruct Hb as [-> Hb]; specialize (Hb r k Hr Hk); lia].
    destruct Hb as (a & b & -> & _ & Hr' & _ & Ha & Hb).
    apply elem_of_app in Hr as [Hr|[->|Hr]%elem_of_cons]; [specialize (Ha r k Hr Hk); lia| |specialize (Hb r k Hr Hk); lia].
    destruct Hr' as (x & Hx & _ & _ & <-), Hk as (y & Hy & _ & _ & <-). simplify_eq. lia.
Qed.

Lemma search_spec fuel s done rest st best n : chain (proc_tab s) st rest -> (length rest <= fuel)%nat ->
  best_of s done best n ->
  exists best' n', search fuel st (last done) best n s = Ok (best', n') /\ best_of s (done ++ rest) best' n'.
Proof.
  revert fuel done st best n. induction rest as [|p rest IH]; intros fuel done st best n Hc Hf Hb.
  { simpl in Hc. subst st. exists best, n. rewrite app_nil_r. by destruct fuel. }
  destruct Hc as (-> & x & Hx & Hc). destruct fuel as [|fuel]; [simpl in Hf; lia|]. simpl in Hf.
  cbn [search]. unfold getp. rewrite (access_Ok _ _ _ Hx). run.
  rewrite (app_snoc done rest p). rewrite <- (last_snoc p done).
  destruct ((p_stat x =? SRUN) && (p_flag x &? SLOAD) && (p_pri x <? n)) eqn:E.
  - apply andb_true_iff in E as [[E1 E2]%andb_true_iff E3]. apply Z.eqb_eq in E1. apply Z.ltb_lt in E3.
    apply IH; [done|lia|]. eapply best_of_take; [done| |done]. by exists x.
  - apply IH; [done|lia|]. apply best_of_skip; [done|]. intros m (y & Hy & H1 & H2 & H3). simplify_eq.
    rewrite H1, H2, Z.eqb_refl in E. by apply Z.ltb_ge in E.
Qed.

(** Taking a process off the run queue. *)
Lemma queues_unrun s R Q a p b x : wfq s R Q -> R = a ++ p :: b -> proc_tab s !! p = Some x ->
  wfq (match last a with None => set_runq (p_link x) s | Some q => modp q (set_p_link (p_link x)) s end)
    (a ++ b) Q.
Proof.
  intros [Hrun Hrnd Hidle Hheads Hslp Hsnd Hwt] -> Hx. 
  assert (NoDup (a ++ b)) as Hnd'.
  { eapply sublist_NoDup; [exact Hrnd|]. apply sublist_app; [done|]. by apply sublist_cons. }
  destruct (last a) as [q|] eqn:Hl.
  - apply last_Some in Hl as [a' ->]. rewrite <- app_assoc in Hrun, Hrnd, Hidle. simpl in Hrun, Hrnd.
    assert (forall r y, alter (set_p_link (p_link x)) q (proc_tab s) !! r = Some y ->
      exists z, proc_tab s !! r = Some z /\ p_wchan y = p_wchan z /\ p_stat y = p_stat z) as Hal.
    { intros r y Hy. destruct (decide (r = q)) as [->|].
      - rewrite list_lookup_alter_eq in Hy. destruct (proc_tab s !! q) as [z|]; [|done].
        exists z. by injection Hy as <-.
      - rewrite list_lookup_alter_ne in Hy by done. eauto. }
    unfold modp. constructor; cbn [proc_tab set_proc_tab runq slpque]; try done.
    + rewrite <- app_assoc. simpl. by eapply chain_unlink.
    + intros r y Hr (z & Hz & -> & _)%Hal. apply (Hidle r z); [|done]. set_solver.
    + intros i Hi. destruct (Hslp i Hi) as (st & Hst & Hc). exists st. split; [done|].
      apply chain_alter; [|done]. intros Hq. destruct (chain_in _ _ _ _ Hc Hq) as [z Hz].
      destruct (Hwt i q z Hi Hq Hz) as [Hw _]. destruct Hw. apply (Hidle q z); [set_solver|done].
    + intros i r y Hi Hr (z & Hz & -> & ->)%Hal. by eapply Hwt.
  - apply last_None in Hl as ->. simpl in *. destruct Hrun as (Hr & x' & Hx' & Hc). simplify_eq.
    constructor; cbn [proc_tab set_runq runq slpque]; try done. intros r y Hr'. apply Hidle. by right.
Qed.


(** What the dispatcher leaves of the table. *)
Definition dispatched (p : nat) (s s' : sys) : Prop :=
  length (proc_tab s') = length (proc_tab s) /\
  (forall r x, proc_tab s !! r = Some x -> exists x', proc_tab s' !! r = Some x' /\
     unlinked x' = unlinked (if decide (r = p) then set_p_flag (p_flag x &~ SSWAP) x else x)) /\
  mpid s' = mpid s /\ u_signal s' = u_signal s /\ u_procp s' = u_procp s.

Lemma dispatched_unlink p q l s : dispatched p s (modp p (fun x => set_p_flag (p_flag x &~ SSWAP) x)
  (match q with Some q => modp q (set_p_link l) s | None => set_runq l s end)).
Proof.
  split; [|split; [|by destruct q]].
  - unfold modp. destruct q; cbn; by rewrite ?length_alter.
  - intros r x Hx. unfold modp. destruct q as [q|]; cbn [proc_tab set_proc_tab set_runq].
    + destruct (decide (r = p)), (decide (q = r)); subst;
        repeat (rewrite list_lookup_alter_eq || rewrite list_lookup_alter_ne by done); rewrite Hx; eexists; split; reflexivity.
    + destruct (decide (r = p)); subst;
        repeat (rewrite list_lookup_alter_eq || rewrite list_lookup_alter_ne by done); rewrite Hx; eexists; split; reflexivity.
Qed.

Lemma swtch_spec s R Q : wfq s R Q ->
  exists r s', swtch_turn s = Ok (r, s') /\
    match r with
    | None => s' = set_runrun 0 s /\ forall p n, p ∈ R -> ready s p n -> 128 <= n
    | Some (p, ssav) => exists a b n, R = a ++ p :: b /\ ready s p n /\ n < 128 /\
        (forall r m, r ∈ a -> ready s r m -> n < m) /\ (forall r m, r ∈ b -> ready s r m -> n <= m) /\
        wfq s' (a ++ b) Q /\ off_queues p (a ++ b) Q /\ curpri s' = n /\ runrun s' = 0 /\
        nswtch s' = nswtch s + 1 /\
        exists x x', proc_tab s !! p = Some x /\ proc_tab s' !! p = Some x' /\
          ssav = (p_flag x &? SSWAP) /\ p_flag x' = p_flag x &~ SSWAP /\ dispatched p s s'
    end.
Proof.
  intros Hq. unfold swtch_turn. cbv zeta. set (s0 := set_runrun 0 s).
  assert (wfq s0 R Q) as Hq0 by by destruct Hq.
  destruct (search_spec (length (proc_tab s0)) s0 [] R (runq s0) None 128) as (best & n & E & Hb);
    [apply Hq|by eapply queues_run_length|split; [done|set_solver]|].
  simpl (last []) in E. rewrite E. run. destruct best as [[p q]|]; simpl in Hb.
  2:{ exists None, s0. split; [done|]. split; [done|]. intros p m Hp Hr. by apply (proj2 Hb p m). }
  destruct Hb as (a & b & HR & -> & Hr & Hn & Ha & Hb). pose proof Hr as (x & Hx & Hst & Hld & Hpri).
  unfold getp. rewrite (access_Ok _ _ _ Hx). run. eexists (Some (p, _)), _. split; [reflexivity|].
  pose proof (queues_unrun s0 R Q a p b x Hq0 HR Hx) as Hq1.
  set (s1 := match last a with None => _ | Some q => _ end) in *.
  exists a, b, n. split_and!; try done.
  - apply queues_flag; [|done]. by destruct Hq1.
  - subst R. pose proof (q_run_nodup _ _ _ _ Hq) as Hnd. apply NoDup_app in Hnd as (_ & Hd & [Hpb _]%NoDup_cons).
    split; [rewrite elem_of_app; intros [H|H]; [apply (Hd p H); by left|done]|].
    intros i Hi Hp. destruct (queues_disjoint HASH s _ Q i p Hq Hi Hp) as [HR _]. set_solver.
  - subst s1. by destruct (last a).
  - subst s1. by destruct (last a).
  - assert (proc_tab s1 !! p = Some x \/ exists l, proc_tab s1 !! p = Some (set_p_link l x)) as Hx1.
    { subst s1. destruct (last a) as [q|]; [|by left]. unfold modp. cbn [proc_tab set_proc_tab].
      destruct (decide (p = q)) as [->|]; [right; rewrite list_lookup_alter_eq, Hx; by eexists|left].
      by rewrite list_lookup_alter_ne. }
    exists x. unfold modp. cbn [proc_tab set_proc_tab set_nswtch set_curpri].
    destruct Hx1 as [Hx1|[l Hx1]]; eexists; rewrite list_lookup_alter_eq, Hx1; (split_and!; try done);
      exact (dispatched_unlink p (last a) (p_link x) s0).
Qed.


(** The dispatcher takes off the run queue the loaded runnable process of the
    best priority, the first of the queue among equals, and leaves the other
    queues as they were; it idles only when there is none. *)
Theorem swtch_correct s R Q : wfq s R Q ->
  exists r s', swtch_turn s = Ok (r, s') /\
    match r with
    | None => s' = set_runrun 0 s /\ forall p n, p ∈ R -> ready s p n -> 128 <= n
    | Some (p, ssav) => exists a b n, R = a ++ p :: b /\ ready s p n /\ n < 128 /\
        (forall r m, r ∈ a -> ready s r m -> n < m) /\ (forall r m, r ∈ b -> ready s r m -> n <= m) /\
        wfq s' (a ++ b) Q /\ off_queues p (a ++ b) Q /\ curpri s' = n /\ runrun s' = 0 /\
        nswtch s' = nswtch s + 1 /\
        exists x x', proc_tab s !! p = Some x /\ proc_tab s' !! p = Some x' /\
          ssav = (p_flag x &? SSWAP) /\ p_flag x' = p_flag x &~ SSWAP
    end.
Proof.
  intros Hq. destruct (swtch_spec s R Q Hq) as ([[p ssav]|] & s' & E & H); eexists _, s'; (split; [exact E|]); [|done].
  destruct H as (a & b & n & ? & ? & ? & ? & ? & ? & ? & ? & ? & ? & x & x' & ? & ? & ? & ? & _). exists a, b, n.
  split_and!; try done. by exists x, x'.
Qed.

(** Two loaded runnable processes, the second the better. *)
Definition runner (pri : Z) (link : option nat) : proc :=
  Proc SRUN SLOAD pri 0 0 20 0 0 0 0 0 0 0 0 None link 0.
Definition sys3 : sys := sys_of [runner 60 (Some 1%nat); runner 55 None] (replicate 64 None) (Some 0%nat) 0.

Lemma sys3_wf : wfq sys3 [0%nat; 1%nat] (fun _ => []).
Proof.
  constructor; try done.
  - simpl. eauto 10.
  - apply (bool_decide_unpack _). reflexivity.
  - intros p x Hp. apply elem_of_cons in Hp as [->|Hp]; [|apply list_elem_of_singleton in Hp as ->]; by intros [= <-].
  - intros i Hi. exists None. split; [|done]. apply lookup_replicate_2. lia.
  - intros i _. constructor.
  - intros i p x _ Hp. set_solver.
Qed.

Lemma swtch_correct_witness :
  exists r s', swtch_turn sys3 = Ok (r, s') /\ r = Some (1%nat, false) /\ runq s' = Some 0%nat.
Proof.
  destruct (swtch_correct sys3 [0%nat; 1%nat] (fun _ => []) sys3_wf) as (r & s' & E & _). exists r, s'.
  split; [exact E|]. vm_compute in E. injection E as <- <-. split; reflexivity.
Defined.

(** ** [newproc]'s process id *)

Definition first_free (tab : list proc) : option nat := fst <$> list_find (fun x => p_stat x = 0) tab.
Definition ids (tab : list proc) : list Z := (p_pid <$> tab) ++ (p_pgrp <$> tab).

Lemma elem_ids m x l : m ∈ ids (x :: l) <-> p_pid x = m \/ p_pgrp x = m \/ m ∈ ids l.
Proof. unfold ids. cbn [fmap list_fmap app]. rewrite elem_of_cons, !elem_of_app, elem_of_cons. naive_solver. Qed.

Lemma pid_used m x l : bool_decide (m ∈ ids (x :: l)) =
  (p_pid x =? m) || (p_pgrp x =? m) || bool_decide (m ∈ ids l).
Proof.
  destruct (Z.eqb_spec (p_pid x) m); [by rewrite bool_decide_true by (apply elem_ids; tauto)|].
  destruct (Z.eqb_spec (p_pgrp x) m); [by rewrite bool_decide_true by (apply elem_ids; tauto)|].
  simpl. apply bool_decide_ext. rewrite elem_ids. tauto.
Qed.

Lemma pid_scan_some i l m q : pid_scan i l m (Some q) = (bool_decide (m ∈ ids l), Some q).
Proof.
  revert i. induction l as [|x l IH]; intros i; [done|]. cbn [pid_scan].
  rewrite (bool_decide_false (Some q = None)), andb_false_r, pid_used by done.
  destruct ((p_pid x =? m) || (p_pgrp x =? m)); [done|]. apply IH.
Qed.

Lemma pid_scan_none i l m : let F := (fun j => i + j)%nat <$> first_free l in
  exists p, pid_scan i l m None = (bool_decide (m ∈ ids l), p) /\ (p = None \/ p = F) /\ (m ∉ ids l -> p = F).
Proof.
  revert i. induction l as [|x l IH]; intros i; [simpl; eauto|]. cbn [pid_scan].
  rewrite (bool_decide_true (None = None)), andb_true_r, pid_used by done.
  unfold first_free. simpl. destruct (Z.eqb_spec (p_stat x) 0) as [H0|H0].
  - rewrite decide_True by done. simpl. rewrite pid_scan_some. exists (Some i).
    rewrite Nat.add_0_r. destruct ((p_pid x =? m) || (p_pgrp x =? m)); split_and!; auto.
  - rewrite decide_False by done. destruct (IH (S i)) as (p & E & H1 & H2). rewrite E.
    assert ((fun j => i + j)%nat <$> (fst <$> (prod_map S id <$> list_find (fun x => p_stat x = 0) l)) =
      (fun j => S i + j)%nat <$> first_free l) as ->.
    { unfold first_free. destruct (list_find _ l) as [[j y]|]; simpl; [f_equal; lia|done]. }
    destruct ((p_pid x =? m) || (p_pgrp x =? m)) eqn:Eu.
    + exists None. split_and!; [done|by left|]. rewrite elem_ids. intros H. apply orb_true_iff in Eu as [E'|E'];
        apply Z.eqb_eq in E'; tauto.
    + exists p. split_and!; [done|done|]. rewrite elem_ids. tauto.
Qed.

(** The k-th candidate after [m]. *)
Definition cand (m k : Z) : Z := (m + k) mod 29999 + 1.

Lemma pid_retry_spec k fuel p s : let tab := proc_tab s in let m := mpid s in
  0 <= m <= 29999 -> k < 29999 -> 0 <= k ->
  (forall j, 0 <= j < k -> cand m j ∈ ids tab) -> cand m k ∉ ids tab ->
  (if m + k <? 29999 then k + 1 else k + 2) <= Z.of_nat fuel ->
  p = None \/ p = first_free tab -> 
  pid_retry fuel p s = Ok (first_free tab, set_mpid (cand m k) s).
Proof.
  revert k p s. induction fuel as [|fuel IH]; intros k p s tab m Hm Hk Hk0 Hin Hout Hf Hp.
  { destruct (m + k <? 29999); lia. }
  cbn [pid_retry]. cbv zeta. cbn [mpid set_mpid proc_tab]. fold m tab.
  destruct (Z.leb_spec 30000 (m + 1)).
  { assert (m = 29999) as Em by lia.
    assert (forall j, cand 0 j = cand m j) as Hc.
    { intros j. unfold cand. rewrite Em. replace (29999 + j) with (j + 1 * 29999) by lia.
      by rewrite Z.mod_add, Z.add_0_l by lia. }
    rewrite (IH k) with (s := set_mpid 0 (set_mpid (m + 1) s)); cbn [mpid set_mpid proc_tab]; fold tab.
    - rewrite Hc. done.
    - lia.
    - done.
    - done.
    - intros j Hj. rewrite Hc. by apply Hin.
    - by rewrite Hc.
    - destruct (Z.ltb_spec (0 + k) 29999), (Z.ltb_spec (m + k) 29999); lia.
    - done. }
  assert (cand m 0 = m + 1) as Hc0 by (unfold cand; rewrite Z.add_0_r, Z.mod_small; lia).
  assert (exists p', pid_scan 0 tab (m + 1) p = (bool_decide (m + 1 ∈ ids tab), p') /\
    (p' = None \/ p' = first_free tab) /\ (m + 1 ∉ ids tab -> p' = first_free tab)) as (p' & -> & Hp' & Hff).
  { destruct p as [q|].
    - exists (Some q). rewrite pid_scan_some. destruct Hp as [?|Hp]; [done|]. auto.
    - destruct (pid_scan_none 0 tab (m + 1)) as (p' & E & H1 & H2). exists p'.
      replace ((fun j => 0 + j)%nat <$> first_free tab) with (first_free tab) in * by by destruct (first_free tab).
      auto. }
  destruct (Z.eqb_spec k 0) as [->|Hk'].
  - rewrite Hc0 in Hout. rewrite bool_decide_false by done. rewrite Hff by done. by rewrite Hc0.
  - assert (m + 1 ∈ ids tab) as H1 by (rewrite <- Hc0; apply Hin; lia).
    rewrite bool_decide_true by done.
    assert (forall j, cand (m + 1) j = cand m (j + 1)) as Hc.
    { intros j. unfold cand. do 2 f_equal. lia. }
    rewrite (IH (k - 1)); cbn [mpid set_mpid proc_tab]; fold tab.
    + rewrite Hc. by replace (k - 1 + 1) with k by lia.
    + lia.
    + lia.
    + lia.
    + intros j Hj. rewrite Hc. apply Hin. lia.
    + rewrite Hc. by replace (k - 1 + 1) with k by lia.
    + destruct (Z.ltb_spec (m + k) 29999), (Z.ltb_spec (m + 1 + (k - 1)) 29999); lia.
    + done.
Qed.

Lemma cand_free m l : 0 <= m -> Z.of_nat (length l) < 29999 ->
  exists k, 0 <= k <= Z.of_nat (length l) /\ cand m k ∉ l /\ forall j, 0 <= j < k -> cand m j ∈ l.
Proof.
  intros Hm Hl.
  assert (exists n, (n <= length l)%nat /\ cand m (Z.of_nat n) ∉ l) as (n & Hn & Hout).
  { destruct (decide (Exists (fun n => cand m (Z.of_nat n) ∉ l) (seq 0 (S (length l))))) as [He|He].
    - apply Exists_exists in He as (n & Hn & H). apply elem_of_seq in Hn. exists n. split; [lia|done].
    - exfalso. assert (((fun n => cand m (Z.of_nat n)) <$> seq 0 (S (length l))) ⊆+ l) as Hsub.
      { apply NoDup_submseteq.
        - apply NoDup_fmap_2_strong; [|apply NoDup_seq]. intros x y Hx Hy E.
          apply elem_of_seq in Hx, Hy. unfold cand in E.
          assert ((m + Z.of_nat x) mod 29999 = (m + Z.of_nat y) mod 29999) as E' by lia.
          pose proof (Z.div_mod (m + Z.of_nat x) 29999). pose proof (Z.div_mod (m + Z.of_nat y) 29999).
          assert ((m + Z.of_nat x) / 29999 = (m + Z.of_nat y) / 29999); [nia|lia].
        - intros c Hc. apply list_elem_of_fmap in Hc as (n & -> & Hn).
          destruct (decide (cand m (Z.of_nat n) ∈ l)) as [|Hno]; [done|]. exfalso. apply He.
          apply Exists_exists. eauto. }
      apply submseteq_length in Hsub. rewrite length_fmap, length_seq in Hsub. lia. }
  clear Hl. revert Hn Hout. induction (lt_wf n) as [n _ IH]. intros Hn Hout.
  destruct (decide (Forall (fun j => cand m (Z.of_nat j) ∈ l) (seq 0 n))) as [Hall|Hnot].
  - exists (Z.of_nat n). split_and!; [lia|lia|done|]. intros j Hj. rewrite Forall_forall in Hall.
    replace j with (Z.of_nat (Z.to_nat j)) by lia. apply Hall, elem_of_seq. lia.
  - apply not_Forall_Exists in Hnot; [|intros; apply _]. apply Exists_exists in Hnot as (j & Hj & Hno).
    apply elem_of_seq in Hj. apply (IH j); [lia|lia|done].
Qed.

(** [newproc] numbers the child with an id that no process has as its id or
    as its group, between 1 and 29999, and puts it in the first free slot of the
    table with the parent's identity and its own clocks at zero; the search for
    the id always ends.  With no free slot it panics. *)
Theorem newproc_correct s rip :
  0 <= mpid s <= 29999 -> 2 * Z.of_nat (length (proc_tab s)) < 29999 ->
  proc_tab s !! u_procp s = Some rip ->
  match first_free (proc_tab s) with
  | None => newproc_entry s = Panic "no procs"
  | Some p => exists s' r x, newproc_entry s = Ok (p, s') /\
      proc_tab s !! p = Some r /\ p_stat r = 0 /\
      1 <= mpid s' <= 29999 /\ mpid s' ∉ ids (proc_tab s) /\
      proc_tab s' = <[p := x]> (proc_tab s) /\
      p_pid x = mpid s' /\ p_ppid x = p_pid rip /\ p_stat x = SRUN /\ p_flag x = SLOAD /\
      (p_uid x, p_pgrp x, p_nice x, p_textp x) = (p_uid rip, p_pgrp rip, p_nice rip, p_textp rip) /\
      (p_time x, p_cpu x, p_clktim x) = (0, 0, 0) /\ (p_wchan x, p_sig x) = (p_wchan r, p_sig r) /\
      s' = set_proc_tab (proc_tab s') (set_mpid (mpid s') s)
  end.
Proof.
  intros Hm Hn Hrip. assert (length (ids (proc_tab s)) = 2 * length (proc_tab s))%nat as Hlen.
  { unfold ids. rewrite length_app, !length_fmap. lia. }
  destruct (cand_free (mpid s) (ids (proc_tab s))) as (k & Hk & Hout & Hin); [lia|lia|].
  unfold newproc_entry, newproc_slot.
  rewrite (pid_retry_spec k) by (try done; try lia; try (destruct (mpid s + k <? 29999); lia); by left). run.
  destruct (first_free (proc_tab s)) as [p|] eqn:Hff; [|done]. cbv zeta.
  run. unfold getp. cbn [proc_tab set_mpid u_procp]. rewrite (access_Ok _ _ _ Hrip). run.
  unfold first_free in Hff. destruct (list_find _ (proc_tab s)) as [[j r]|] eqn:Hl; [|done].
  injection Hff as ->. apply list_find_Some in Hl as (Hr & Hr0 & _).
  eexists _, r, _. split; [reflexivity|]. split_and!; [done|done|..].
  - cbn. unfold cand. pose proof (Z.mod_pos_bound (mpid s + k) 29999). lia.
  - cbn. unfold cand. pose proof (Z.mod_pos_bound (mpid s + k) 29999). lia.
  - done.
  - unfold modp. cbn [proc_tab set_proc_tab set_mpid]. apply list_eq. intros i.
    destruct (decide (i = p)) as [->|].
    + rewrite list_lookup_alter_eq, Hr, list_lookup_insert_eq by (by eapply lookup_lt_Some). reflexivity.
    + by rewrite list_lookup_alter_ne, list_lookup_insert_ne by done.
  - done.
  - done.
  - done.
  - done.
  - done.
  - done.
  - done.
  - done.
Qed.

Lemma newproc_correct_witness :
  first_free (proc_tab sys1) = Some 3%nat /\ exists s', newproc_entry sys1 = Ok (3%nat, s') /\ mpid s' = 8.
Proof.
  pose proof (newproc_correct sys1 proc0 ltac:(simpl; lia) ltac:(simpl; lia) eq_refl) as H.
  split; [reflexivity|]. change (first_free (proc_tab sys1)) with (Some 3%nat) in H.
  destruct H as (s' & r & x & E & _). exists s'. split; [exact E|].
  vm_compute in E. injection E as <-. reflexivity.
Defined.

(** ** The swapper's choice *)

Lemma swapin_scan_spec i l p out : 
  let r := swapin_scan i l p out in
  (forall k x, l !! k = Some x -> p_stat x = SRUN -> (p_flag x &? SLOAD) = false -> outage_of x <= snd r) /\
  out <= snd r /\
  ((r = (p, out)) \/ exists k x, l !! k = Some x /\ p_stat x = SRUN /\ (p_flag x &? SLOAD) = false /\
     r = (Some (i + k)%nat, outage_of x) /\ out < outage_of x).
Proof.
  revert i p out. induction l as [|x l IH]; intros i p out; cbn [swapin_scan].
  { split_and!; [done|simpl; lia|by left]. }
  destruct ((p_stat x =? SRUN) && negb (p_flag x &? SLOAD) && (out <? outage_of x)) eqn:E.
  - apply andb_true_iff in E as [[E1 E2]%andb_true_iff E3]. apply Z.eqb_eq in E1. apply Z.ltb_lt in E3.
    apply negb_true_iff in E2. destruct (IH (S i) (Some i) (outage_of x)) as (H1 & H2 & H3). split_and!; [|lia|].
    + intros [|k] y Hy; simpl in Hy; [injection Hy as <-; lia|eauto].
    + right. destruct H3 as [->|(k & y & Hy & Hs & Hf & -> & Hlt)].
      * exists 0%nat, x. rewrite Nat.add_0_r. done.
      * exists (S k), y. replace (i + S k)%nat with (S i + k)%nat by lia. split_and!; try done. lia.
  - destruct (IH (S i) p out) as (H1 & H2 & H3). split_and!; [|lia|].
    + intros [|k] y Hy Hs Hf; simpl in Hy; [injection Hy as <-|by eapply H1].
      rewrite Hs, Hf, Z.eqb_refl in E. simpl in E. apply Z.ltb_ge in E. lia.
    + destruct H3 as [->|(k & y & Hy & Hs & Hf & -> & Hlt)]; [by left|right].
      exists (S k), y. replace (i + S k)%nat with (S i + k)%nat by lia. done.
Qed.

Section Swapout.
Context (xlock : nat -> bool).

Definition swappable (x : proc) : bool :=
  negb (p_stat x =? SZOMB) && (Z.land (p_flag x) (SSYS |: SLOCK |: SULOCK |: SLOAD) =? SLOAD) &&
  negb (match p_textp x with Some t => xlock t | None => false end).
Definition bad_sleep (x : proc) : bool :=
  ((p_stat x =? SSLEEP) && (PZERO <=? p_pri x)) || (p_stat x =? SSTOP).
Definition active (x : proc) : bool := (p_stat x =? SRUN) || (p_stat x =? SSLEEP).
Definition age (x : proc) : Z := p_time x + p_nice x - NZERO.

(** What the second loop knows after the entries [l]. *)
Definition victim_of (l : list proc) (v : option nat) (maxsize inage : Z) : Prop :=
  -1 <= inage /\
  (forall k x, l !! k = Some x -> swappable x = true -> bad_sleep x = true -> p_size x <= maxsize) /\
  ((0 <= maxsize /\ exists k x, l !! k = Some x /\ swappable x = true /\ bad_sleep x = true /\
      p_size x = maxsize /\ v = Some k) \/
   (maxsize = -1 /\
    (forall k x, l !! k = Some x -> swappable x = true -> active x = true -> age x <= inage) /\
    ((inage = -1 /\ v = None) \/
     exists k x, l !! k = Some x /\ swappable x = true /\ active x = true /\ age x = inage /\ v = Some k))).

Lemma lookup_snoc_cases {A} (l : list A) y k x : (l ++ [y]) !! k = Some x ->
  l !! k = Some x \/ (k = length l /\ x = y).
Proof.
  intros H. destruct (decide (k < length l)%nat).
  - left. by rewrite lookup_app_l in H by lia.
  - right. rewrite lookup_app_r in H by lia. destruct (k - length l)%nat eqn:E; simpl in H; [|done].
    injection H as <-. split; [lia|done].
Qed.

Lemma lookup_snoc_old {A} (l : list A) y k x : l !! k = Some x -> (l ++ [y]) !! k = Some x.
Proof. apply lookup_app_l_Some. Qed.

(** An entry that is not swappable, or too small, or too young, changes nothing. *)
Lemma victim_skip l v ms ia x : victim_of l v ms ia ->
  (swappable x = true -> bad_sleep x = true -> p_size x <= ms) ->
  (ms = -1 -> swappable x = true -> active x = true -> age x <= ia) ->
  victim_of (l ++ [x]) v ms ia.
Proof.
  intros (Hia & Hsz & Hc) H1 H2. split_and!; [done|..].
  - intros k y [Hy|[_ ->]]%lookup_snoc_cases; [by eapply Hsz|done].
  - destruct Hc as [(H0 & k & y & Hy & Hr)|(H0 & Ha & Hv)].
    + left. split; [done|]. exists k, y. split; [by apply lookup_snoc_old|done].
    + right. split_and!; [done| |].
      * intros k y [Hy|[_ ->]]%lookup_snoc_cases; [by eapply Ha|by apply H2].
      * destruct Hv as [?|(k & y & Hy & Hr)]; [by left|right]. exists k, y. split; [by apply lookup_snoc_old|done].
Qed.

Lemma swapout_scan_spec l l2 v ms ia :
  (forall x, x ∈ l2 -> 0 <= p_size x) -> victim_of l v ms ia ->
  exists v' ms' ia', swapout_scan xlock (length l) l2 v ms ia = (v', ms', ia') /\ victim_of (l ++ l2) v' ms' ia'.
Proof.
  revert l v ms ia. induction l2 as [|x l2 IH]; intros l v ms ia Hsz Hv.
  { exists v, ms, ia. by rewrite app_nil_r. }
  rewrite (app_snoc l l2 x). cbn [swapout_scan]. rewrite <- (length_snoc l x).
  assert (0 <= p_size x) as Hx by (apply Hsz; set_solver).
  assert (forall y, y ∈ l2 -> 0 <= p_size y) as Hsz' by (intros; apply Hsz; set_solver).
  destruct ((p_stat x =? SZOMB) || _) eqn:E1.
  { assert (swappable x = false) as Hn.
    { unfold swappable. apply orb_true_iff in E1 as [->|E]; [done|]. apply negb_true_iff in E.
      by rewrite E, andb_false_r. }
    apply IH; [done|]. apply victim_skip; [done|congruence..]. }
  apply orb_false_iff in E1 as [E1 E1']. apply negb_false_iff in E1'.
  destruct (match p_textp x with Some t => xlock t | None => false end) eqn:E2.
  { assert (swappable x = false) as Hn by (unfold swappable; by rewrite E2, andb_false_r).
    apply IH; [done|]. apply victim_skip; [done|congruence..]. }
  assert (swappable x = true) as Hsw by (unfold swappable; by rewrite E1, E1', E2).
  fold (bad_sleep x) (active x) (age x).
  destruct (bad_sleep x) eqn:E3.
  - destruct (Z.ltb_spec ms (p_size x)).
    + apply IH; [done|]. destruct Hv as (Hia & Hall & Hc). split_and!; [done|..].
      * intros k y [Hy|[_ ->]]%lookup_snoc_cases Hs Hb; [specialize (Hall k y Hy Hs Hb); lia|lia].
      * left. split; [done|]. exists (length l), x. by rewrite lookup_app_here.
    + apply IH; [done|]. apply victim_skip; [done|done|lia].
  - destruct ((ms <? 0) && active x) eqn:E4.
    + apply andb_true_iff in E4 as [E4 E5]. apply Z.ltb_lt in E4. destruct (Z.ltb_spec ia (age x)).
      * apply IH; [done|]. destruct Hv as (Hia & Hall & Hc). split_and!; [lia|..].
        -- intros k y [Hy|[_ ->]]%lookup_snoc_cases Hs Hb; [by eapply Hall|congruence].
        -- right. destruct Hc as [[? _]|(Hms & Ha & _)]; [lia|]. split_and!; [done| |right].
           ++ intros k y [Hy|[_ ->]]%lookup_snoc_cases Hs Hb; [specialize (Ha k y Hy Hs Hb); lia|lia].
           ++ exists (length l), x. by rewrite lookup_app_here.
      * apply IH; [done|]. apply victim_skip; [done|congruence|lia].
    + apply IH; [done|]. apply victim_skip; [done|congruence|]. intros -> _ Ha. by rewrite Ha in E4.
Qed.

(** The swapper brings in the runnable swapped-out process that has been out
    longest (its nice counted against it); when there is no core for it, it evicts
    the largest process asleep at a bad priority or stopped, and only if there is
    none the one longest in core, after 2 seconds in and 3 out; it never picks a
    zombie, a locked or system process, or one whose text is locked. *)
Theorem sched_correct swapin s :
  (forall x, x ∈ proc_tab s -> 0 <= p_size x) ->
  (forall x, x ∈ proc_tab s -> -20000 < outage_of x) ->
  exists r s', sched xlock swapin s = Ok (r, s') /\
    let wants x := p_stat x = SRUN /\ (p_flag x &? SLOAD) = false in
    match r with
    | SleepRunout => forall x, x ∈ proc_tab s -> ~ wants x
    | SwappedIn p => swapin p = true /\ exists x, proc_tab s !! p = Some x /\ wants x /\
        forall y, y ∈ proc_tab s -> wants y -> outage_of y <= outage_of x
    | SwapOut v => exists x, proc_tab s !! v = Some x /\ swappable x = true /\
        ((bad_sleep x = true /\ forall y, y ∈ proc_tab s -> swappable y = true -> bad_sleep y = true -> p_size y <= p_size x) \/
         (active x = true /\ 2 <= age x /\
          (forall y, y ∈ proc_tab s -> swappable y = true -> bad_sleep y = true -> False) /\
          (forall y, y ∈ proc_tab s -> swappable y = true -> active y = true -> age y <= age x) /\
          exists y, y ∈ proc_tab s /\ wants y /\ 3 <= outage_of y)) /\
        (exists x', proc_tab s' !! v = Some x' /\ p_flag x' = p_flag x &~ SLOAD)
    | SleepRunin => runin s' = inc8 (runin s) /\
        forall y, y ∈ proc_tab s -> swappable y = true -> bad_sleep y = true -> False
    end.
Proof.
  intros Hsz Hout. unfold sched. pose proof (swapin_scan_spec 0 (proc_tab s) None (-20000)) as (H1 & H2 & H3).
  destruct (swapin_scan 0 (proc_tab s) None (-20000)) as [p out] eqn:Es. simpl in H1, H2.
  destruct H3 as [[= -> ->]|(k & x & Hx & Hst & Hfl & [= -> ->] & Hlt)].
  { eexists SleepRunout, _. split; [done|]. intros x Hx [Hs Hf]. pose proof (Hout x Hx).
    apply list_elem_of_lookup in Hx as [k Hk]. specialize (H1 k x Hk Hs Hf). lia. }
  simpl. destruct (swapin k) eqn:Ein.
  { eexists (SwappedIn k), _. split; [done|]. split; [done|]. exists x. split_and!; try done.
    intros y [j Hj]%list_elem_of_lookup [Hs Hf]. by eapply H1. }
  destruct (swapout_scan_spec [] (proc_tab s) None (-1) (-1)) as (v & ms & ia & E & Hia & Hall & Hc).
  { done. }
  { split_and!; [lia|done|]. right. split_and!; [done|done|by left]. }
  simpl in E, Hall, Hc. rewrite E.
  assert (ms = -1 -> forall y, y ∈ proc_tab s -> swappable y = true -> bad_sleep y = true -> False) as Hnobad.
  { intros Hms y Hy Hs Hb. pose proof (Hsz y Hy). apply list_elem_of_lookup in Hy as [j Hj].
    specialize (Hall j y Hj Hs Hb). lia. }
  assert (forall j y, proc_tab s !! j = Some y -> exists y',
    proc_tab (modp j (fun x => set_p_flag (p_flag x &~ SLOAD) x) s) !! j = Some y' /\ p_flag y' = p_flag y &~ SLOAD) as Hmod.
  { intros j y Hj. unfold modp. cbn [proc_tab set_proc_tab]. rewrite list_lookup_alter_eq, Hj. by eexists. }
  destruct Hc as [(H0 & j & y & Hj & Hs & Hb & <- & ->)|(-> & Ha & Hv)].
  - destruct (Z.leb_spec 0 (p_size y)); [|lia]. simpl. eexists (SwapOut j), _. split; [done|].
    exists y. split_and!; try done; [left|by apply Hmod]. split; [done|]. intros z [i Hi]%list_elem_of_lookup. by eapply Hall.
  - simpl. destruct (Z.leb_spec 3 (outage_of x)), (Z.leb_spec 2 ia); simpl.
    2-4: eexists SleepRunin, _; split; [done|]; split; [done|]; by apply Hnobad.
    destruct Hv as [[-> _]|(j & y & Hj & Hs & Hac & <- & ->)]; [lia|].
    eexists (SwapOut j), _. split; [done|]. exists y. split_and!; try done; [right|by apply Hmod].
    split_and!; [done|done|by apply Hnobad| |].
    + intros z [i Hi]%list_elem_of_lookup. by eapply Ha.
    + exists x. split_and!; [by eapply list_elem_of_lookup_2|done|done|done].
Qed.
End Swapout.

Lemma sched_correct_witness :
  exists r s', sched (fun _ => false) (fun _ => false) sys1 = Ok (r, s') /\ r = SleepRunout.
Proof.
  destruct (sched_correct (fun _ => false) (fun _ => false) sys1) as (r & s' & E & _).
  - intros x Hx. repeat (apply elem_of_cons in Hx as [->|Hx]; [simpl; lia|]). set_solver.
  - intros x Hx. unfold outage_of, NZERO. repeat (apply elem_of_cons in Hx as [->|Hx]; [simpl; lia|]). set_solver.
  - exists r, s'. split; [exact E|]. vm_compute in E. congruence.
Defined.
