(* ===== verification/Callout.v ===== *)
(** * Callouts: [timeout] and the callout part of [clock] ([kernel/clock.c])

    The table holds, in order, the ticks each entry waits beyond the one before
    it; a NULL function ends it.  A pointer into the table is an index, and an
    index past [NCALL] is a wild access.  Functions and arguments are numbers, 0
    being NULL. *)

From S2P Require Import Prelude Param.

Definition NCALL : Z := 20.

Record callo := Callo { c_time : Z; c_arg : Z; c_func : Z }.
Abbreviation table := (list callo).

(** ** [timeout] *)

(** The search of the place: skip what is due no later, keeping what is left of [t].
    Fuel: one turn per entry of the table. *)
Fixpoint find_slot (fuel : nat) (tab : table) (p1 : nat) (t : Z) : res (nat * Z) :=
  match fuel with
  | O => Wild
  | S fuel =>
      e ← access tab p1;
      if negb (c_func e =? 0) && (c_time e <=? t)
      then find_slot fuel tab (S p1) (t - c_time e) else Ok (p1, t)
  end.

(** [while (p2->c_func != 0) p2++]. *)
Fixpoint find_end (fuel : nat) (tab : table) (p2 : nat) : res nat :=
  match fuel with
  | O => Wild
  | S fuel => e ← access tab p2; if negb (c_func e =? 0) then find_end fuel tab (S p2) else Ok p2
  end.

(** The entries [p1..p1+n) move one place up, the last first. *)
Fixpoint shift_up (n : nat) (p1 : nat) (tab : table) : res table :=
  match n with
  | O => Ok tab
  | S n =>
      e ← access tab (p1 + n)%nat;
      _ ← access tab (p1 + n + 1)%nat;
      shift_up n p1 (<[(p1 + n + 1)%nat := e]> tab)
  end.

Definition timeout (fun_ arg tim : Z) (tab : table) : res table :=
  '(p1, t) ← find_slot (S (length tab)) tab 0 tim;
  if NCALL - 1 <=? Z.of_nat p1 then Panic "Timeout table overflow"
  else
    e ← access tab p1;
    let tab := <[p1 := Callo (c_time e - t) (c_arg e) (c_func e)]> tab in
    p2 ← find_end (S (length tab)) tab p1;
    tab ← shift_up (p2 - p1 + 1) p1 tab;
    Ok (<[p1 := Callo t arg fun_]> tab).

(** ** The callout part of [clock] *)

Section Clock.
(** What calling function [f] on argument [a] does to the table. *)
Context (call : Z -> Z -> table -> res table).

(** Find the first entry that is not yet due, and tick it. *)
Fixpoint first_waiting (fuel : nat) (tab : table) (p2 : nat) : res nat :=
  match fuel with
  | O => Wild
  | S fuel =>
      e ← access tab p2;
      if (c_time e <=? 0) && negb (c_func e =? 0) then first_waiting fuel tab (S p2) else Ok p2
  end.

(** Call what is due, from [p1] on; the calls made are logged in order.  Fuel:
    one turn per entry of the table. *)
Fixpoint fire (fuel : nat) (p1 : nat) (log : list (Z * Z)) (tab : table) : res (nat * list (Z * Z) * table) :=
  match fuel with
  | O => NoFuel
  | S fuel =>
      e ← access tab p1;
      if negb (c_func e =? 0) && (c_time e <=? 0) then
        tab ← call (c_func e) (c_arg e) tab;
        fire fuel (S p1) (log ++ [(c_func e, c_arg e)]) tab
      else Ok (p1, log, tab)
  end.

(** Move the rest down over what was called, the NULL included. *)
Fixpoint compact (fuel : nat) (p1 p2 : nat) (tab : table) : res table :=
  match fuel with
  | O => Wild
  | S fuel =>
      e ← access tab p1;
      d ← access tab p2;
      let tab := <[p2 := Callo (c_time d) (c_arg d) (c_func e)]> tab in
      if c_func e =? 0 then Ok tab
      else compact fuel (S p1) (S p2) (<[p2 := Callo (c_time e) (c_arg e) (c_func e)]> tab)
  end.

(** [BASEPRI(0)] is the constant 0 on this machine, so its two early exits from
    [clock] are never taken. *)
Definition callouts (tab : table) : res (list (Z * Z) * table) :=
  e0 ← access tab 0;
  if c_func e0 =? 0 then Ok ([], tab)
  else
    p2 ← first_waiting (S (length tab)) tab 0;
    e ← access tab p2;
    let tab := <[p2 := Callo (c_time e - 1) (c_arg e) (c_func e)]> tab in
    e0 ← access tab 0;
    if c_time e0 <=? 0 then
      '(p1, log, tab) ← fire (S (length tab)) 0 [] tab;
      tab ← compact (S (length tab)) p1 0 tab;
      Ok (log, tab)
    else Ok ([], tab).
End Clock.

(** ** The table as a list of deadlines *)

(** [tab] holds the entries [L], then the NULL. *)
Definition holds (tab : table) (L : list callo) : Prop :=
  length tab = Z.to_nat NCALL /\ Forall (fun e => c_func e <> 0 /\ 0 <= c_time e) L /\
  exists e0 J, tab = L ++ e0 :: J /\ c_func e0 = 0.

(** An armed callout: ticks to go, function, argument. *)
Definition armed : Type := Z * Z * Z.

Fixpoint deadlines (base : Z) (L : list callo) : list armed :=
  match L with
  | [] => []
  | e :: L => (base + c_time e, c_func e, c_arg e) :: deadlines (base + c_time e) L
  end.

(** Behind everything due no later. *)
Fixpoint arm (x : armed) (l : list armed) : list armed :=
  match l with
  | [] => [x]
  | y :: l => if y.1.1 <=? x.1.1 then y :: arm x l else x :: y :: l
  end.

(** One tick: what was already due stays due. *)
Definition tick (x : armed) : armed := (Z.max 0 (x.1.1 - 1), x.1.2, x.2).

(** [timeout] on the entries. *)
Fixpoint insert_rel (t f a : Z) (L : list callo) : list callo :=
  match L with
  | [] => [Callo t a f]
  | e :: L =>
      if c_time e <=? t then e :: insert_rel (t - c_time e) f a L
      else Callo t a f :: Callo (c_time e - t) (c_arg e) (c_func e) :: L
  end.

Lemma deadlines_insert base t f a L :
  deadlines base (insert_rel t f a L) = arm (base + t, f, a) (deadlines base L).
Proof.
  revert base t. induction L as [|e L IH]; intros base t; [done|]. cbn [insert_rel deadlines arm fst snd].
  replace (base + c_time e <=? base + t) with (c_time e <=? t)
    by (destruct (Z.leb_spec (c_time e) t), (Z.leb_spec (base + c_time e) (base + t)); lia).
  destruct (c_time e <=? t); cbn [deadlines c_time c_func c_arg].
  - rewrite IH. by replace (base + c_time e + (t - c_time e)) with (base + t) by lia.
  - replace (base + t + (c_time e - t)) with (base + c_time e) by lia. done.
Qed.

Lemma insert_rel_ok t f a L : f <> 0 -> 0 <= t ->
  Forall (fun e => c_func e <> 0 /\ 0 <= c_time e) L ->
  Forall (fun e => c_func e <> 0 /\ 0 <= c_time e) (insert_rel t f a L).
Proof.
  intros Hf. revert t. induction L as [|e L IH]; intros t Ht HL; cbn [insert_rel]; [by constructor|].
  apply Forall_cons_iff in HL as [He HL]. destruct (Z.leb_spec (c_time e) t).
  - constructor; [done|]. apply IH; [lia|done].
  - constructor; [done|]. constructor; [|done]. simpl. split; [apply He|lia].
Qed.

Lemma length_insert_rel t f a L : length (insert_rel t f a L) = S (length L).
Proof.
  revert t. induction L as [|e L IH]; intros t; cbn [insert_rel]; [done|].
  destruct (c_time e <=? t); simpl; [by rewrite IH|done].
Qed.

(** The head of the rest waits that much less. *)
Definition later (t : Z) (e : callo) : callo := Callo (c_time e - t) (c_arg e) (c_func e).
Definition later_head (t : Z) (L : list callo) : list callo :=
  match L with [] => [] | e :: L => later t e :: L end.

Lemma find_slot_spec fuel pre L e0 J t : c_func e0 = 0 ->
  Forall (fun e => c_func e <> 0 /\ 0 <= c_time e) L -> 0 <= t -> (length L < fuel)%nat ->
  exists L1 L2 t', L = L1 ++ L2 /\ 0 <= t' /\
    find_slot fuel (pre ++ L ++ e0 :: J) (length pre) t = Ok (length (pre ++ L1), t') /\
    forall f a, insert_rel t f a L = L1 ++ Callo t' a f :: later_head t' L2.
Proof.
  intros H0. revert fuel pre t. induction L as [|e L IH]; intros fuel pre t HL Ht Hf;
    (destruct fuel as [|fuel]; [simpl in Hf; lia|]); cbn [find_slot].
  - exists [], [], t. simpl. rewrite (access_Ok _ _ e0) by apply lookup_app_here. run.
    rewrite H0. rewrite app_nil_r. by split_and!.
  - apply Forall_cons_iff in HL as [[He Het] HL]. simpl (_ ++ _).
    rewrite (access_Ok _ _ e) by apply lookup_app_here. run.
    destruct (Z.eqb_spec (c_func e) 0); [done|]. cbn [negb andb insert_rel].
    destruct (Z.leb_spec (c_time e) t).
    + rewrite (app_snoc pre _ e), <- (length_snoc pre e).
      destruct (IH fuel (pre ++ [e]) (t - c_time e)) as (L1 & L2 & t' & -> & Ht' & E & Hi); [done|lia|simpl in Hf; lia|].
      exists (e :: L1), L2, t'. rewrite E, <- app_assoc. split_and!; try done. intros f a. by rewrite Hi.
    + exists [], (e :: L), t. rewrite app_nil_r. done.
Qed.

Lemma find_end_spec fuel pre L e0 J : c_func e0 = 0 -> Forall (fun e => c_func e <> 0) L ->
  (length L < fuel)%nat -> find_end fuel (pre ++ L ++ e0 :: J) (length pre) = Ok (length (pre ++ L)).
Proof.
  intros H0. revert fuel pre. induction L as [|e L IH]; intros fuel pre HL Hf;
    (destruct fuel as [|fuel]; [simpl in Hf; lia|]); cbn [find_end].
  - simpl. rewrite (access_Ok _ _ e0) by apply lookup_app_here. run. rewrite H0, app_nil_r. done.
  - apply Forall_cons_iff in HL as [He HL]. simpl (_ ++ _). rewrite (access_Ok _ _ e) by apply lookup_app_here. run.
    destruct (Z.eqb_spec (c_func e) 0); [done|]. cbn [negb].
    rewrite (app_snoc pre _ e), <- (length_snoc pre e), IH by (done || simpl in Hf; lia).
    by rewrite <- app_assoc.
Qed.

(** The entry past the last is overwritten, the one at [p1] is left twice. *)
Lemma shift_up_spec pre M j J : M <> [] ->
  exists h M', M = h :: M' /\
  shift_up (length M) (length pre) (pre ++ M ++ j :: J) = Ok (pre ++ h :: M ++ J).
Proof.
  revert j J. induction M as [|x M IH] using rev_ind; intros j J HM; [done|]. clear HM.
  rewrite length_app, Nat.add_comm. cbn [Nat.add length shift_up].
  assert (forall K, (pre ++ (M ++ [x]) ++ K) !! (length pre + length M)%nat = Some x) as Hl.
  { intros K. rewrite lookup_app_r, <- app_assoc by lia. replace (length pre + length M - length pre)%nat with (length M) by lia.
    apply lookup_app_here. }
  rewrite (access_Ok _ (length pre + length M)%nat x (Hl _)). run.
  assert (length pre + length M + 1 = length (pre ++ M ++ [x]))%nat as El by (rewrite !length_app; simpl; lia).
  rewrite (app_assoc pre (M ++ [x])), El. rewrite (access_Ok _ _ j) by apply lookup_app_here.
  run. rewrite insert_app_here, <- !app_assoc. simpl.
  destruct M as [|h M].
  - exists x, []. done.
  - destruct (IH x (x :: J)) as (h' & M' & [= <- <-] & E); [done|].
    exists h, (M ++ [x]). split; [done|]. simpl in E |- *. rewrite E. done.
Qed.

(** [timeout] with room for one more entry. *)
Lemma timeout_spec f a t tab L : holds tab L -> f <> 0 -> 0 <= t -> Z.of_nat (length L) < NCALL - 1 ->
  exists tab', timeout f a t tab = Ok tab' /\ holds tab' (insert_rel t f a L).
Proof.
  intros (Hlen & HL & e0 & J & -> & H0) Hf Ht Hroom. unfold timeout.
  pose proof Hlen as Hlen'. rewrite length_app in Hlen'. simpl in Hlen'.
  destruct (find_slot_spec (S (length (L ++ e0 :: J))) [] L e0 J t) as (L1 & L2 & t' & -> & Ht' & E & Hi);
    [done|done|done|rewrite length_app; lia|]. cbn [app length] in E. rewrite E. run.
  rewrite length_app in Hroom, Hlen'. destruct (Z.leb_spec (NCALL - 1) (Z.of_nat (length L1))); [lia|].
  apply Forall_app in HL as [HL1 HL2].
  assert (exists h M, L2 ++ [e0] = h :: M /\ M ++ J = tail (L2 ++ e0 :: J)) as (h & M & Eh & EM).
  { destruct L2 as [|e L2]; [by exists e0, []|exists e, (L2 ++ [e0])]. simpl. by rewrite <- app_assoc. }
  assert ((L1 ++ L2) ++ e0 :: J = L1 ++ h :: M ++ J) as ->.
  { rewrite <- app_assoc. f_equal. rewrite app_comm_cons, <- Eh, <- app_assoc. done. }
  rewrite (access_Ok _ _ h) by apply lookup_app_here. run. rewrite insert_app_here. fold (later t' h).
  assert (exists e1, later t' h :: M = later_head t' L2 ++ [e1] /\ c_func e1 = 0) as (e1 & EM' & H1).
  { destruct L2 as [|e L2]; simpl in Eh; injection Eh as <- <-; [by exists (later t' e0)|by exists e0]. }
  assert (Forall (fun e => c_func e <> 0) (later_head t' L2)) as HL2'.
  { destruct L2 as [|e L2]; [done|]. apply Forall_cons_iff in HL2 as [[He _] HL2]. constructor; [done|].
    eapply Forall_impl; [exact HL2|]. by intros ? []. }
  assert (L1 ++ later t' h :: M ++ J = L1 ++ later_head t' L2 ++ e1 :: J) as ->.
  { f_equal. rewrite app_comm_cons, EM', <- app_assoc. done. }
  assert (length (later_head t' L2) = length L2) as Hll by by destruct L2.
  rewrite find_end_spec; [|done|done|rewrite !length_app; lia]. run.
  rewrite length_app, Hll. replace (length L1 + length L2 - length L1 + 1)%nat with (length (later_head t' L2 ++ [e1]))
    by (rewrite length_app, Hll; simpl; lia).
  assert (length J <> 0%nat) as HJ by (unfold NCALL in *; lia). destruct J as [|j J]; [done|].
  destruct (shift_up_spec L1 (later_head t' L2 ++ [e1]) j J) as (g & M' & Eg & Es); [by destruct (later_head t' L2)|].
  rewrite <- app_assoc in Es. simpl in Es. rewrite Es. run. rewrite insert_app_here, <- app_assoc.
  eexists. split; [reflexivity|]. split_and!.
  - rewrite <- Hlen. rewrite !length_app. simpl. rewrite !length_app. simpl. rewrite Hll.
    apply (f_equal length) in Eh. rewrite length_app in Eh. simpl in Eh. lia.
  - apply insert_rel_ok; [done|done|]. by apply Forall_app.
  - exists e1, J. split; [|done]. rewrite Hi, <- !app_assoc. simpl. by rewrite <- ?app_assoc.
Qed.

(** While there is room, [timeout(f, a, t)] arms the callout to go off in
    exactly [t] ticks, behind everything due no later, and changes no other
    callout's deadline. *)
Theorem timeout_correct f a t tab L :
  holds tab L -> f <> 0 -> 0 <= t -> Z.of_nat (length L) < NCALL - 1 ->
  exists tab' L', timeout f a t tab = Ok tab' /\ holds tab' L' /\
    deadlines 0 L' = arm (t, f, a) (deadlines 0 L).
Proof.
  intros H Hf Ht Hroom. destruct (timeout_spec f a t tab L H Hf Ht Hroom) as (tab' & E & H').
  exists tab', (insert_rel t f a L). split_and!; [done|done|]. by rewrite deadlines_insert.
Qed.

Definition table0 : table := [Callo 3 30 300; Callo 0 31 301; Callo 4 32 302] ++ replicate 17 (Callo 0 0 0).

Lemma holds0 : holds table0 [Callo 3 30 300; Callo 0 31 301; Callo 4 32 302].
Proof. split_and!; [done|repeat constructor; simpl; lia|]. by exists (Callo 0 0 0), (replicate 16 (Callo 0 0 0)). Qed.

Lemma timeout_correct_witness :
  exists tab', timeout 305 35 5 table0 = Ok tab' /\
    take 4 tab' = [Callo 3 30 300; Callo 0 31 301; Callo 2 35 305; Callo 2 32 302].
Proof.
  destruct (timeout_correct 305 35 5 table0 _ holds0 ltac:(lia) ltac:(lia) ltac:(reflexivity)) as (tab' & L' & E & _).
  exists tab'. split; [exact E|]. vm_compute in E. injection E as <-. reflexivity.
Defined.

(** The overflow check looks at where the entry goes, not at whether one fits: in a
    table of 19 callouts, one due before the last moves the NULL past the end. *)
Theorem timeout_overruns : timeout 305 35 0 (replicate 19 (Callo 1 30 300) ++ [Callo 0 0 0]) = Wild.
Proof. vm_compute. reflexivity. Qed.

(** ** A tick *)

Definition waiting (L : list callo) : Prop := match L with [] => True | e :: _ => 0 < c_time e end.

(** The entries already due, and the rest. *)
Lemma split_due L : Forall (fun e => c_func e <> 0 /\ 0 <= c_time e) L ->
  exists Z W, L = Z ++ W /\ Forall (fun e => c_func e <> 0 /\ c_time e = 0) Z /\ waiting W /\
    Forall (fun e => c_func e <> 0 /\ 0 <= c_time e) W.
Proof.
  induction L as [|e L IH]; intros HL; [by exists [], []|]. pose proof HL as [[He Ht] HL']%Forall_cons_iff.
  destruct (Z.eqb_spec (c_time e) 0) as [E|E].
  - destruct (IH HL') as (Z & W & -> & HZ & HW & HWf). exists (e :: Z), W. split_and!; try done.
    by constructor.
  - exists [], (e :: L). split_and!; try done. simpl. lia.
Qed.

Lemma first_waiting_spec fuel pre Z W e0 J : Forall (fun e => c_func e <> 0 /\ c_time e = 0) Z ->
  waiting W -> (length Z < fuel)%nat -> c_func e0 = 0 ->
  first_waiting fuel (pre ++ Z ++ W ++ e0 :: J) (length pre) = Ok (length (pre ++ Z)).
Proof.
  intros HZ HW Hf H0. revert fuel pre Hf. induction Z as [|e Z IH]; intros fuel pre Hf;
    (destruct fuel as [|fuel]; [simpl in Hf; lia|]); cbn [first_waiting].
  - rewrite app_nil_r. destruct W as [|w W]; simpl; rewrite (access_Ok _ _ _ (lookup_app_here _ _ _)); run.
    + rewrite H0. by rewrite andb_false_r.
    + simpl in HW. destruct (Z.leb_spec (c_time w) 0); [lia|done].
  - apply Forall_cons_iff in HZ as [[He Ht] HZ]. simpl (_ ++ _).
    rewrite (access_Ok _ _ _ (lookup_app_here _ _ _)). run. rewrite Ht.
    destruct (Z.eqb_spec (c_func e) 0); [done|]. cbn [negb andb Z.leb Z.compare].
    rewrite (app_snoc pre _ e), <- (length_snoc pre e), IH by (done || simpl in Hf; lia). by rewrite <- app_assoc.
Qed.

Lemma deadlines_app base L1 L2 : Forall (fun e => c_time e = 0) L1 ->
  deadlines base (L1 ++ L2) = deadlines base L1 ++ deadlines base L2.
Proof.
  induction L1 as [|e L1 IH]; intros H; [done|]. apply Forall_cons_iff in H as [He H]. simpl.
  rewrite He, !Z.add_0_r. by rewrite IH.
Qed.

Lemma deadlines_shift base d L : deadlines (base + d) L =
  (fun x : armed => (x.1.1 + d, x.1.2, x.2)) <$> deadlines base L.
Proof.
  revert base. induction L as [|e L IH]; intros base; [done|]. simpl.
  replace (base + d + c_time e) with (base + c_time e + d) by lia. by rewrite IH.
Qed.

Lemma deadlines_low base L x : Forall (fun e => c_func e <> 0 /\ 0 <= c_time e) L ->
  x ∈ deadlines base L -> base <= x.1.1.
Proof.
  revert base. induction L as [|e L IH]; intros base HL Hx; [set_solver|].
  apply Forall_cons_iff in HL as [[_ He] HL]. simpl in Hx. apply elem_of_cons in Hx as [->|Hx]; [simpl; lia|].
  apply IH in Hx; [lia|done].
Qed.

(** Ticking the first waiting entry ticks every deadline. *)
Lemma deadlines_tick Z W : Forall (fun e => c_func e <> 0 /\ c_time e = 0) Z -> waiting W ->
  Forall (fun e => c_func e <> 0 /\ 0 <= c_time e) W ->
  deadlines 0 (Z ++ later_head 1 W) = tick <$> deadlines 0 (Z ++ W).
Proof.
  intros HZ HW HWf. assert (Forall (fun e => c_time e = 0) Z) as HZ' by (eapply Forall_impl; [exact HZ|]; by intros ? []).
  rewrite !deadlines_app, fmap_app by done. f_equal.
  - clear HW HWf. induction Z as [|e Z IH]; [done|]. simpl. apply Forall_cons_iff in HZ' as [He HZ'], HZ as [_ HZ].
    rewrite He. simpl. unfold tick at 1. simpl. f_equal. by apply IH.
  - destruct W as [|w W]; [done|]. simpl. simpl in HW. apply Forall_cons_iff in HWf as [_ HWf].
    unfold tick at 1. simpl. rewrite Z.max_r by lia. f_equal.
    replace (c_time w - 1) with (c_time w + -1) by lia. rewrite ?Z.add_0_l, (deadlines_shift (c_time w) (-1)).
    apply list_fmap_ext. intros i x Hx. apply list_elem_of_lookup_2, deadlines_low in Hx; [|done].
    unfold tick. f_equal. f_equal. lia.
Qed.

Section Fire.
(** What each function arms when it is called. *)
Context (reqs : Z -> Z -> list armed)
  (Hreqs : forall f a x, x ∈ reqs f a -> 1 <= x.1.1 /\ x.1.2 <> 0).

Fixpoint arm_all (l : list armed) (tab : table) : res table :=
  match l with
  | [] => Ok tab
  | x :: l => tab ← timeout x.1.2 x.2 x.1.1 tab; arm_all l tab
  end.
Definition call (f a : Z) (tab : table) : res table := arm_all (reqs f a) tab.

Lemma insert_due t f a Z W : 0 <= t -> Forall (fun e => c_func e <> 0 /\ c_time e = 0) Z ->
  insert_rel t f a (Z ++ W) = Z ++ insert_rel t f a W.
Proof.
  intros Ht HZ. induction Z as [|e Z IH]; [done|]. apply Forall_cons_iff in HZ as [[_ He] HZ]. simpl.
  rewrite He. destruct (Z.leb_spec 0 t); [|lia]. rewrite Z.sub_0_r. by rewrite IH.
Qed.

Lemma insert_waiting t f a W : 1 <= t -> waiting W -> waiting (insert_rel t f a W).
Proof. intros Ht HW. destruct W as [|w W]; simpl; [lia|]. simpl in HW. destruct (c_time w <=? t); simpl; lia. Qed.

Lemma arm_all_spec l tab Z W : (forall x, x ∈ l -> 1 <= x.1.1 /\ x.1.2 <> 0) ->
  Forall (fun e => c_func e <> 0 /\ c_time e = 0) Z -> waiting W -> holds tab (Z ++ W) ->
  Z.of_nat (length (Z ++ W) + length l) <= NCALL - 1 ->
  exists tab' W', arm_all l tab = Ok tab' /\ holds tab' (Z ++ W') /\ waiting W' /\
    length W' = (length W + length l)%nat /\ deadlines 0 W' = foldl (fun d x => arm x d) (deadlines 0 W) l.
Proof.
  intros Hl HZ. revert tab W. induction l as [|[[t f] a] l IH]; intros tab W HW Hh Hroom.
  { exists tab, W. simpl. split_and!; try done; lia. }
  destruct (Hl (t, f, a)) as [Ht Hf]; [set_solver|]. simpl in Ht, Hf, Hroom. cbn [arm_all fst snd].
  destruct (timeout_spec f a t tab (Z ++ W)) as (tab1 & -> & Hh1); [done|done|lia|lia|]. run.
  rewrite insert_due in Hh1 by (done || lia).
  destruct (IH ltac:(set_solver) tab1 (insert_rel t f a W)) as (tab' & W' & -> & Hh' & HW' & Hlen & Hd).
  { by apply insert_waiting. }
  { done. }
  { rewrite length_app, length_insert_rel. rewrite length_app in Hroom. lia. }
  exists tab', W'. rewrite length_insert_rel in Hlen. split_and!; try done; [simpl; lia|].
  by rewrite Hd, deadlines_insert.
Qed.

Definition called (L : list callo) : list (Z * Z) := (fun e => (c_func e, c_arg e)) <$> L.
Definition rearmed (log : list (Z * Z)) : list armed := log ≫= fun c => reqs c.1 c.2.

Lemma fire_spec fuel tab D Z W log :
  Forall (fun e => c_func e <> 0 /\ c_time e = 0) (D ++ Z) -> waiting W -> holds tab ((D ++ Z) ++ W) ->
  Z.of_nat (length ((D ++ Z) ++ W) + length (rearmed (called Z))) <= NCALL - 1 -> (length Z < fuel)%nat ->
  exists tab' W', fire call fuel (length D) log tab = Ok (length (D ++ Z), log ++ called Z, tab') /\
    holds tab' ((D ++ Z) ++ W') /\ deadlines 0 W' = foldl (fun d x => arm x d) (deadlines 0 W) (rearmed (called Z)).
Proof.
  revert fuel tab D W log. induction Z as [|e Z IH]; intros fuel tab D W log HDZ HW Hh Hroom Hf;
    (destruct fuel as [|fuel]; [simpl in Hf; lia|]); cbn [fire].
  - rewrite !app_nil_r in *. exists tab, W. pose proof Hh as (_ & _ & e0 & J & E & H0). subst tab.
    split_and!; [|done|done]. destruct W as [|w W]; rewrite <- app_assoc; simpl;
      rewrite (access_Ok _ _ _ (lookup_app_here _ _ _)); run.
    + by rewrite H0.
    + simpl in HW. destruct (Z.leb_spec (c_time w) 0); [lia|]. by rewrite andb_false_r.
  - pose proof Hh as (_ & _ & e0 & J & E & H0).
    assert (tab !! length D = Some e) as He.
    { rewrite E, <- !app_assoc. simpl. apply lookup_app_here. }
    rewrite (access_Ok _ _ _ He). run.
    assert (c_func e <> 0 /\ c_time e = 0) as [Hef Het].
    { rewrite Forall_forall in HDZ. apply HDZ. set_solver. }
    destruct (Z.eqb_spec (c_func e) 0); [done|]. rewrite Het. cbn [negb andb Z.leb Z.compare].
    assert (rearmed (called (e :: Z)) = reqs (c_func e) (c_arg e) ++ rearmed (called Z)) as Er by done.
    rewrite Er in Hroom. rewrite (length_app (reqs _ _)) in Hroom.
    destruct (arm_all_spec (reqs (c_func e) (c_arg e)) tab (D ++ e :: Z) W) as (tab1 & W1 & E1 & Hh1 & HW1 & Hl1 & Hd1);
      [apply Hreqs|done|done|done|lia|].
    fold (call (c_func e) (c_arg e) tab) in E1. rewrite E1. run. rewrite <- (length_snoc D e), (app_snoc D Z e).
    destruct (IH fuel tab1 (D ++ [e]) W1 (log ++ [(c_func e, c_arg e)])) as (tab' & W' & -> & Hh' & Hd').
    { by rewrite <- app_assoc. }
    { done. }
    { by rewrite <- (app_assoc D). }
    { rewrite !length_app in *. simpl in *. lia. }
    { simpl in Hf. lia. }
    exists tab', W'. split_and!; [cbn [called fmap list_fmap]; rewrite <- !app_assoc; reflexivity|done|]. rewrite Hd', Hd1, Er. by rewrite foldl_app.
Qed.

Lemma compact_spec fuel P G W e0 J : G <> [] -> c_func e0 = 0 -> Forall (fun e => c_func e <> 0) W ->
  (length W < fuel)%nat ->
  exists e0' J', compact fuel (length (P ++ G)) (length P) (P ++ G ++ W ++ e0 :: J) = Ok (P ++ W ++ e0' :: J') /\
    c_func e0' = 0 /\ length (P ++ G ++ W ++ e0 :: J) = length (P ++ W ++ e0' :: J').
Proof.
  intros HG H0 HW. revert fuel P G HG. induction W as [|w W IH]; intros fuel P G HG Hf;
    (destruct fuel as [|fuel]; [simpl in Hf; lia|]); cbn [compact]; (destruct G as [|g G]; [done|]).
  - simpl. assert (P ++ g :: G ++ e0 :: J = (P ++ g :: G) ++ e0 :: J) as E by (by rewrite <- app_assoc).
    rewrite E, (access_Ok _ _ _ (lookup_app_here (P ++ g :: G) _ _)), <- E. run.
    rewrite (access_Ok _ _ _ (lookup_app_here P _ _)). run. rewrite H0, insert_app_here. simpl.
    eexists _, _. split_and!; [reflexivity|done|]. rewrite !length_app. simpl. rewrite !length_app. done.
  - apply Forall_cons_iff in HW as [Hw HW].
    assert (P ++ (g :: G) ++ (w :: W) ++ e0 :: J = (P ++ g :: G) ++ w :: W ++ e0 :: J) as E by (by rewrite <- app_assoc).
    rewrite E, (access_Ok _ _ _ (lookup_app_here (P ++ g :: G) _ _)), <- E. run. simpl (_ ++ _).
    rewrite (access_Ok _ _ _ (lookup_app_here P _ _)). run.
    rewrite insert_app_here. destruct (Z.eqb_spec (c_func w) 0); [done|]. rewrite insert_app_here.
    destruct (IH HW fuel (P ++ [w]) (G ++ [w])) as (e0' & J' & E' & H0' & Hl); [by destruct G|simpl in Hf; lia|].
    exists e0', J'. replace (Callo (c_time w) (c_arg w) (c_func w)) with w by by destruct w.
    rewrite <- !app_assoc in E'. simpl in E'. rewrite <- !app_assoc in Hl. simpl in Hl.
    split_and!; [|done|].
    + rewrite <- E'. f_equal; rewrite !length_app; simpl; rewrite ?length_app; simpl; lia.
    + rewrite !length_app in *. simpl in *. rewrite !length_app in *. simpl in *. lia.
Qed.

Definition due (x : armed) : bool := x.1.1 <=? 0.

Lemma filter_due Z W : Forall (fun e => c_func e <> 0 /\ c_time e = 0) Z -> waiting W ->
  Forall (fun e => c_func e <> 0 /\ 0 <= c_time e) W ->
  List.filter due (deadlines 0 (Z ++ W)) = deadlines 0 Z /\
  List.filter (fun x => negb (due x)) (deadlines 0 (Z ++ W)) = deadlines 0 W /\
  (fun x : armed => (x.1.2, x.2)) <$> deadlines 0 Z = called Z.
Proof.
  intros HZ HW HWf. induction Z as [|e Z IH].
  - simpl. assert (forall x, x ∈ deadlines 0 W -> due x = false) as Hd.
    { destruct W as [|w W]; [set_solver|]. simpl in HW |- *. apply Forall_cons_iff in HWf as [_ HWf].
      intros x [->|Hx]%elem_of_cons; apply Z.leb_gt; [simpl; lia|].
      apply deadlines_low in Hx; [lia|done]. }
    split_and!; [| |done].
    + induction (deadlines 0 W) as [|x l IHl]; [done|]. simpl. rewrite Hd by set_solver. apply IHl. set_solver.
    + induction (deadlines 0 W) as [|x l IHl]; [done|]. simpl. rewrite Hd by set_solver. simpl. f_equal.
      apply IHl. set_solver.
  - apply Forall_cons_iff in HZ as [[_ He] HZ]. destruct (IH HZ) as (H1 & H2 & H3).
    cbn [app deadlines]. replace (0 + c_time e) with 0 by lia. cbn [List.filter].
    change (due (0, c_func e, c_arg e)) with true. cbn [negb fmap list_fmap fst snd]. rewrite H1, H2.
    split_and!; [done|done|]. cbn [called fmap list_fmap]. f_equal. exact H3.
Qed.

Lemma callouts_spec tab L : holds tab L ->
  let now := tick <$> deadlines 0 L in
  let log := (fun x : armed => (x.1.2, x.2)) <$> List.filter due now in
  Z.of_nat (length L + length (rearmed log)) <= NCALL - 1 ->
  exists tab' L', callouts call tab = Ok (log, tab') /\ holds tab' L' /\
    deadlines 0 L' = foldl (fun d x => arm x d) (List.filter (fun x => negb (due x)) now) (rearmed log).
Proof.
  intros Hh now log Hroom. assert (now = tick <$> deadlines 0 L) as Enow by done.
  assert (log = (fun x : armed => (x.1.2, x.2)) <$> List.filter due now) as Elog by done. clearbody log now.
  pose proof Hh as (Hlen & HL & e0 & J & -> & H0). unfold callouts.
  destruct L as [|e L].
  { subst. rewrite (access_Ok _ _ e0) by done. run. rewrite H0. exists (e0 :: J), []. split_and!; try done. }
  rewrite (access_Ok _ _ e) by done. run. pose proof HL as [[He _] _]%Forall_cons_iff.
  destruct (Z.eqb_spec (c_func e) 0) as [|_]; [done|].
  destruct (split_due _ HL) as (Z & W & EL & HZ & HW & HWf). rewrite EL in *.
  rewrite <- app_assoc. pose proof (first_waiting_spec (S (length (Z ++ W ++ e0 :: J))) [] Z W e0 J) as Ef.
  cbn [app length] in Ef. rewrite Ef by (done || rewrite length_app; lia). run. clear Ef.
  assert (exists x K, W ++ e0 :: J = x :: K /\ exists e1, later 1 x :: K = later_head 1 W ++ e1 :: J /\ c_func e1 = 0)
    as (x & K & EK & e1 & EK' & H1).
  { destruct W as [|w W]; [exists e0, J; split; [done|]; by exists (later 1 e0)|].
    exists w, (W ++ e0 :: J). split; [done|]. by exists e0. }
  rewrite EK, (access_Ok _ _ _ (lookup_app_here Z _ _)). run. rewrite insert_app_here. fold (later 1 x).
  rewrite EK', app_assoc.
  assert (Forall (fun e => c_func e <> 0 /\ 0 <= c_time e) (Z ++ later_head 1 W)) as HL1.
  { apply Forall_app. split; [eapply Forall_impl; [exact HZ|]; simpl; intros ? []; lia|].
    destruct W as [|w W]; [done|]. apply Forall_cons_iff in HWf as [[Hw _] HWf]. constructor; [|done].
    simpl in HW |- *. split; [done|lia]. }
  pose proof (deadlines_tick Z W HZ HW HWf) as Hnow. rewrite <- Enow in Hnow. clear Enow.
  assert (holds ((Z ++ later_head 1 W) ++ e1 :: J) (Z ++ later_head 1 W)) as Hh1.
  { split_and!; [|done|by exists e1, J]. rewrite <- Hlen. rewrite !length_app. by destruct W. }
  assert (length (Z ++ later_head 1 W) = length (Z ++ W)) as Hl1 by (rewrite !length_app; by destruct W).
  rewrite <- Hl1 in Hroom. clear EK EK' Hh Hlen HL. revert Hh1 HL1 Hroom Hnow. clear Hl1.
  assert (Z ++ later_head 1 W <> []) as Hne by (intros E; destruct Z; [destruct W|]; done).
  revert Hne. generalize (Z ++ later_head 1 W) as L1. clear EL HZ HW HWf. intros L1 Hne Hh1 HL1 Hroom Hnow.
  destruct (split_due _ HL1) as (Z1 & W1 & EL1 & HZ1 & HW1 & HWf1). subst L1.
  destruct (filter_due Z1 W1 HZ1 HW1 HWf1) as (Hf1 & Hf2 & Hf3). rewrite Hnow in Hf1, Hf2.
  rewrite Hf1, Hf3 in Elog.
  rewrite Elog, Hf2. rewrite Elog in Hroom. clear Elog.
  destruct Z1 as [|z Z1].
  - destruct W1 as [|w W1]; [done|]. cbn [app]. rewrite (access_Ok _ _ w) by done. run. simpl in HW1.
    destruct (Z.leb_spec (c_time w) 0); [lia|]. eexists _, (w :: W1). split_and!; [reflexivity|exact Hh1|done].
  - simpl (_ ++ _). rewrite (access_Ok _ _ z) by done. run. pose proof HZ1 as [[_ Hz] _]%Forall_cons_iff.
    rewrite Hz. cbn [Z.leb Z.compare]. change (z :: (Z1 ++ W1) ++ e1 :: J) with (((z :: Z1) ++ W1) ++ e1 :: J).
    destruct (fire_spec (S (length (((z :: Z1) ++ W1) ++ e1 :: J))) (((z :: Z1) ++ W1) ++ e1 :: J) [] (z :: Z1) W1 [])
      as (tab' & W' & E & Hh' & Hd'); [done|done|done|exact Hroom|rewrite !length_app; simpl; lia|].
    cbn [app length] in E |- *. rewrite E. run.
    destruct Hh' as (Hlen' & HL' & e2 & J2 & -> & H2). apply Forall_app in HL' as [_ HLW].
    destruct (compact_spec (S (length (((z :: Z1) ++ W') ++ e2 :: J2))) [] (z :: Z1) W' e2 J2) as (e3 & J3 & E3 & H3 & Hl3);
      [done|done|eapply Forall_impl; [exact HLW|]; by intros ? []|rewrite !length_app; simpl; lia|].
    rewrite <- app_assoc in *. cbn [app length] in *. rewrite E3. run.
    eexists _, W'. split_and!; [reflexivity| |done]. split_and!; [congruence|done|by exists e3, J3].
Qed.

(** C31. At a tick every callout comes one tick nearer (those already due stay
    due); exactly the ones then due are called, in the order they were armed to
    go off, and are gone; all the others keep their deadlines, and whatever the
    called functions armed is in its place among them. *)
Theorem callouts_correct tab L : holds tab L ->
  let now := tick <$> deadlines 0 L in
  let log := (fun x : armed => (x.1.2, x.2)) <$> List.filter due now in
  Z.of_nat (length L + length (rearmed log)) <= NCALL - 1 ->
  exists tab' L', callouts call tab = Ok (log, tab') /\ holds tab' L' /\
    deadlines 0 L' = foldl (fun d x => arm x d) (List.filter (fun x => negb (due x)) now) (rearmed log).
Proof. apply callouts_spec. Qed.
End Fire.

(** A tick that calls two callouts, the second of which arms itself again. *)
Lemma callouts_correct_witness :
  exists tab' L', callouts (call (fun f a => if f =? 301 then [(2, 301, a)] else []))
      ([Callo 1 30 300; Callo 0 31 301; Callo 4 32 302] ++ replicate 17 (Callo 0 0 0))
      = Ok ([(300, 30); (301, 31)], tab') /\ holds tab' L' /\
    deadlines 0 L' = [(2, 301, 31); (4, 302, 32)].
Proof.
  refine (callouts_correct (fun f a => if f =? 301 then [(2, 301, a)] else []) _ _
    [Callo 1 30 300; Callo 0 31 301; Callo 4 32 302] _ _).
  - intros f a x Hx. destruct (f =? 301); [|set_solver]. apply list_elem_of_singleton in Hx as ->. simpl. lia.
  - split_and!; [done|repeat constructor; simpl; lia|]. by exists (Callo 0 0 0), (replicate 16 (Callo 0 0 0)).
  - vm_compute. discriminate.
Defined.
