(* ===== verification/Sig.v ===== *)
(** * Sending signals: [psignal] and [signal] of [kernel/sig.c]; the clock
    interrupt: [clock] of [kernel/clock.c] *)

From S2P Require Import Prelude Param Proc Sched Callout.

Definition SIGALRM : Z := 14.

Section Sig.
Context (runout_chan : Z).

(** ** [psignal] and [signal] *)

Definition psignal (p : nat) (sig : Z) (s : sys) : res sys :=
  if (sig <? 0) || (NSIG <=? sig) then Ok s
  else
    x ← getp p s;
    let s := if sig =? 0 then s else modp p (set_p_sig (p_sig x |: Z.shiftl 1 (sig - 1))) s in
    let pri := if PUSER <? p_pri x then PUSER else p_pri x in
    let s := if PUSER <? p_pri x then modp p (set_p_pri PUSER) s else s in
    if (p_stat x =? SSLEEP) && (PZERO <? pri) then setrun runout_chan p s else Ok s.

(** The loop over the table, from entry [i] on. *)
Fixpoint signal_loop (n i : nat) (pgrp sig : Z) (s : sys) : res sys :=
  match n with
  | O => Ok s
  | S n =>
      p ← getp i s;
      s ← (if p_pgrp p =? pgrp then psignal i sig s else Ok s);
      signal_loop n (S i) pgrp sig s
  end.

Definition signal (pgrp sig : Z) (s : sys) : res sys :=
  if pgrp =? 0 then Ok s else signal_loop (length (proc_tab s)) 0 pgrp sig s.

(** ** [clock] *)

Definition HZ : Z := 250.
Definition CPUTICK : Z := 4.

Record clk := Clk {
  c_tab : table; c_sys : sys;
  lbolt : Z; time : Z;
  dk_busy : Z; dk_time : list Z; idling : Z;
  u_utime : Z; u_stime : Z;
}.

Context (runin_chan lbolt_chan : Z) (call : Z -> Z -> table -> res table).

(** The once-a-second treatment of one process. *)
Definition age_cpu (x : proc) : Z :=
  let a := Z.quot (Z.land (p_cpu x) 255 * 8) 10 + p_nice x - NZERO in
  let a := if a <? 0 then 0 else a in
  if 255 <? a then 255 else a.

Definition second_one (pp : nat) (s : sys) : res sys :=
  x ← getp pp s;
  if negb (p_stat x =? 0) && (p_stat x <? SZOMB) then
    let s := if p_time x =? 127 then s else modp pp (set_p_time (inc8 (p_time x))) s in
    s ← (if p_clktim x =? 0 then Ok s
         else
           let s := modp pp (set_p_clktim (p_clktim x - 1)) s in
           if p_clktim x - 1 =? 0 then psignal pp SIGALRM s else Ok s);
    let s := modp pp (set_p_cpu (age_cpu x)) s in
    x ← getp pp s;
    if PUSER <=? p_pri x then '(_, s) ← setpri pp s; Ok s else Ok s
  else Ok s.

Fixpoint second_loop (n pp : nat) (s : sys) : res sys :=
  match n with
  | O => Ok s
  | S n => s ← second_one pp s; second_loop n (S pp) s
  end.

(** Every second: the lightning bolt, the aging, the swapper's jab. *)
Definition second (s : sys) : res sys :=
  let s := set_runrun (inc8 (runrun s)) s in
  s ← wakeup runout_chan lbolt_chan s;
  s ← second_loop (length (proc_tab s)) 0 s;
  if runin s =? 0 then Ok s else wakeup runout_chan runin_chan (set_runin 0 s).

(** The slot of the [dk_time] histogram a tick belongs to. *)
Definition dk_slot (usermode : bool) (nice dk_busy idling : Z) : Z :=
  Z.land dk_busy 7 +
  if usermode then (if NZERO <? nice then 8 else 0)
  else 16 + (if idling =? 0 then 0 else 8).

(** [usermode] is [USERMODE(tr->spsw)]. *)
Definition clock (usermode : bool) (c : clk) : res (list (Z * Z) * clk) :=
  '(log, tab) ← callouts call (c_tab c);
  let s := c_sys c in
  x ← getp (u_procp s) s;
  let a := dk_slot usermode (p_nice x) (dk_busy c) (idling c) in
  t ← access (dk_time c) (Z.to_nat a);
  let dk := <[Z.to_nat a := t + 1]> (dk_time c) in
  let ut := if usermode then u_utime c + 1 else u_utime c in
  let st := if usermode then u_stime c else u_stime c + 1 in
  let s := if negb (lbolt c &? (CPUTICK - 1))
           then modp (u_procp s) (set_p_cpu (if inc8 (p_cpu x) =? 0 then 255 else inc8 (p_cpu x))) s
           else s in
  let lb := lbolt c + 1 in
  if HZ <=? lb then
    s ← second s;
    Ok (log, Clk tab s (lb - HZ) (time c + 1) (dk_busy c) dk (idling c) ut st)
  else Ok (log, Clk tab s lb (time c) (dk_busy c) dk (idling c) ut st).
End Sig.

(** ** Signals *)

(** The entry after [psignal]'s updates, before any wakeup. *)
Definition signalled (sig : Z) (x : proc) : proc :=
  let x' := if sig =? 0 then x else set_p_sig (p_sig x |: Z.shiftl 1 (sig - 1)) x in
  if PUSER <? p_pri x then set_p_pri PUSER x' else x'.

Lemma alter_id (p : nat) (tab : list proc) : alter (fun x => x) p tab = tab.
Proof.
  apply list_eq. intros i. destruct (decide (i = p)) as [->|].
  - rewrite list_lookup_alter_eq. by destruct (tab !! p).
  - by rewrite list_lookup_alter_ne.
Qed.

Lemma alter_at (p : nat) (tab : list proc) x f g : tab !! p = Some x -> f x = g x -> alter f p tab = alter g p tab.
Proof.
  intros Hx E. apply list_eq. intros i. destruct (decide (i = p)) as [->|].
  - by rewrite !list_lookup_alter_eq, Hx; simpl; rewrite E.
  - by rewrite !list_lookup_alter_ne.
Qed.

Lemma set_tab_twice a b s : set_proc_tab a (set_proc_tab b s) = set_proc_tab a s.
Proof. done. Qed.

Lemma modp_signalled p sig x s : proc_tab s !! p = Some x ->
  (if PUSER <? p_pri x
   then modp p (set_p_pri PUSER) (if sig =? 0 then s else modp p (set_p_sig (p_sig x |: Z.shiftl 1 (sig - 1))) s)
   else if sig =? 0 then s else modp p (set_p_sig (p_sig x |: Z.shiftl 1 (sig - 1))) s) =
  modp p (signalled sig) s.
Proof.
  intros Hx. unfold modp, signalled. cbv zeta.
  assert (set_proc_tab (proc_tab s) s = s) as Hid by by destruct s.
  destruct (sig =? 0), (PUSER <? p_pri x) eqn:Ep; rewrite ?set_tab_twice;
    cbn [proc_tab set_proc_tab]; rewrite ?list_alter_alter_eq.
  2:{ rewrite <- Hid at 1. rewrite <- (alter_id p (proc_tab s)) at 1. f_equal.
      apply (alter_at p _ x); [done|]. by rewrite Ep. }
  all: f_equal; apply (alter_at p _ x); [done|]; simpl; by rewrite Ep.
Qed.

Lemma signalled_fields sig x : p_link (signalled sig x) = p_link x /\ p_wchan (signalled sig x) = p_wchan x /\
  p_stat (signalled sig x) = p_stat x /\ p_flag (signalled sig x) = p_flag x.
Proof. unfold signalled. by destruct (sig =? 0), (PUSER <? p_pri x). Qed.

Lemma queues_signalled s R Q p sig : wfq s R Q -> wfq (modp p (signalled sig) s) R Q.
Proof.
  intros Hq. apply queues_flag; [done|]. intros y. destruct (signalled_fields sig y) as (? & ? & ? & ?). done.
Qed.

Lemma lookup_modp p f s x : proc_tab s !! p = Some x -> proc_tab (modp p f s) !! p = Some (f x).
Proof. intros Hx. unfold modp. cbn [proc_tab set_proc_tab]. by rewrite list_lookup_alter_eq, Hx. Qed.

(** A signal that wakes is a [wakeup] of the channel. *)
Lemma psignal_wakes runout_chan p sig s R Q x :
  wfq s R Q -> proc_tab s !! p = Some x -> 0 <= sig < NSIG ->
  (p_stat x = SSLEEP -> p ∈ Q (HASH (p_wchan x))) ->
  psignal runout_chan p sig s =
    if (p_stat x =? SSLEEP) && (PZERO <? Z.min (p_pri x) PUSER)
    then wakeup runout_chan (p_wchan x) (modp p (signalled sig) s) else Ok (modp p (signalled sig) s).
Proof.
  intros Hq Hx Hsig Hslp. unfold psignal.
  destruct (Z.ltb_spec sig 0); [lia|]. destruct (Z.leb_spec NSIG sig); [lia|]. cbn [orb].
  unfold getp. rewrite (access_Ok _ _ _ Hx). run. rewrite (modp_signalled p sig x s Hx).
  assert ((if PUSER <? p_pri x then PUSER else p_pri x) = Z.min (p_pri x) PUSER) as ->
    by (destruct (Z.ltb_spec PUSER (p_pri x)); lia).
  destruct ((p_stat x =? SSLEEP) && (PZERO <? Z.min (p_pri x) PUSER)) eqn:E; [|done].
  apply andb_true_iff in E as [Est _]. apply Z.eqb_eq in Est. specialize (Hslp Est).
  destruct (signalled_fields sig x) as (_ & Ew & Es & _). pose proof (HASH_range (p_wchan x)) as Hh.
  destruct (q_slp_waits _ _ _ _ Hq _ p x Hh Hslp Hx) as (Hw & _ & Hs0 & Hsz).
  unfold setrun, setrun_with, getp. rewrite (access_Ok _ _ _ (lookup_modp p _ s x Hx)). run. rewrite Es, Ew.
  destruct (Z.eqb_spec (p_stat x) 0); [done|]. destruct (Z.eqb_spec (p_stat x) SZOMB); [done|].
  by destruct (Z.eqb_spec (p_wchan x) 0).
Qed.

Lemma psignal_spec runout_chan p sig s R Q x :
  wfq s R Q -> proc_tab s !! p = Some x -> 0 <= sig < NSIG ->
  (p_stat x = SSLEEP -> p ∈ Q (HASH (p_wchan x))) ->
  runout s = 0 \/ HASH runout_chan <> HASH (p_wchan x) ->
  exists s', psignal runout_chan p sig s = Ok s' /\
    if (p_stat x =? SSLEEP) && (PZERO <? Z.min (p_pri x) PUSER)
    then exists W, p ∈ W /\ woke runout_chan (p_wchan x) (modp p (signalled sig) s) R Q s' W
    else s' = modp p (signalled sig) s.
Proof.
  intros Hq Hx Hsig Hslp Hro. rewrite (psignal_wakes runout_chan p sig s R Q x) by done.
  destruct ((p_stat x =? SSLEEP) && (PZERO <? Z.min (p_pri x) PUSER)) eqn:E; [|by eexists].
  apply andb_true_iff in E as [Est _]. apply Z.eqb_eq in Est. specialize (Hslp Est).
  destruct (wakeup_woke runout_chan (p_wchan x) _ R Q (queues_signalled s R Q p sig Hq)) as (s' & W & -> & HW); [destruct Hro; [by left|right; by left]|].
  exists s'. split; [done|]. exists W. split; [|done]. destruct HW as (_ & _ & _ & HW & _).
  apply HW; [done|]. unfold waits. rewrite (lookup_modp p _ s x Hx).
  destruct (signalled_fields sig x) as (_ & -> & _). by rewrite Z.eqb_refl.
Qed.

(** [psignal] marks the signal pending, raises the process to at least
    [PUSER], and wakes it (with everybody on its channel) exactly when it sleeps
    at an interruptible priority; a number out of range does nothing. *)
Theorem psignal_correct runout_chan p sig s R Q x :
  wfq s R Q -> proc_tab s !! p = Some x ->
  (p_stat x = SSLEEP -> p ∈ Q (HASH (p_wchan x))) ->
  runout s = 0 \/ HASH runout_chan <> HASH (p_wchan x) ->
  exists s' x', psignal runout_chan p sig s = Ok s' /\ proc_tab s' !! p = Some x' /\
    (sig < 0 \/ NSIG <= sig -> s' = s) /\
    (0 <= sig < NSIG ->
       (forall i, 0 <= i -> Z.testbit (p_sig x') i = Z.testbit (p_sig x) i || (i + 1 =? sig)) /\
       p_pri x' = Z.min (p_pri x) PUSER /\
       (p_stat x = SSLEEP /\ PZERO < p_pri x' -> p_stat x' = SRUN /\ p_wchan x' = 0) /\
       (~ (p_stat x = SSLEEP /\ PZERO < p_pri x') -> p_stat x' = p_stat x /\ p_wchan x' = p_wchan x)).
Proof.
  intros Hq Hx Hslp Hro. destruct (decide (0 <= sig < NSIG)) as [Hs|Hs].
  2:{ exists s, x. split_and!; [|done|done|lia]. unfold psignal.
      destruct (Z.ltb_spec sig 0), (Z.leb_spec NSIG sig); try done; lia. }
  destruct (psignal_spec runout_chan p sig s R Q x Hq Hx Hs Hslp Hro) as (s' & E & H').
  assert (proc_tab (modp p (signalled sig) s) !! p = Some (signalled sig x)) as Hx1.
  { unfold modp. cbn [proc_tab set_proc_tab]. by rewrite list_lookup_alter_eq, Hx. }
  assert (forall i, 0 <= i -> Z.testbit (p_sig (signalled sig x)) i = Z.testbit (p_sig x) i || (i + 1 =? sig)) as Hbit.
  { intros i Hi. assert (p_sig (signalled sig x) = if sig =? 0 then p_sig x else p_sig x |: Z.shiftl 1 (sig - 1)) as ->
      by (unfold signalled; by destruct (sig =? 0), (PUSER <? p_pri x)).
    destruct (Z.eqb_spec sig 0) as [->|]; [destruct (Z.eqb_spec (i + 1) 0); [lia|by rewrite orb_false_r]|].
    rewrite Z.lor_spec, Z.shiftl_1_l, Z.pow2_bits_eqb by lia. f_equal.
    destruct (Z.eqb_spec (sig - 1) i), (Z.eqb_spec (i + 1) sig); try done; lia. }
  assert (p_pri (signalled sig x) = Z.min (p_pri x) PUSER) as Hpri.
  { unfold signalled. destruct (sig =? 0), (Z.ltb_spec PUSER (p_pri x)); simpl; lia. }
  destruct ((p_stat x =? SSLEEP) && (PZERO <? Z.min (p_pri x) PUSER)) eqn:Ew.
  - destruct H' as (W & HpW & _ & [_ Ha] & _). destruct (Ha p _ Hx1) as (x' & Hx' & E').
    rewrite decide_True in E' by done. exists s', x'. split_and!; [done|done|lia|]. intros _.
    apply andb_true_iff in Ew as [E1 E2]. apply Z.eqb_eq in E1. apply Z.ltb_lt in E2.
    assert (p_sig x' = p_sig (signalled sig x) /\ p_pri x' = p_pri (signalled sig x) /\ p_stat x' = SRUN /\ p_wchan x' = 0)
      as (-> & -> & -> & ->).
    { destruct x', (signalled sig x). unfold unlinked, wake in E'. simpl in *. by simplify_eq. }
    split_and!; [done|done|done|]. rewrite Hpri. tauto.
  - exists s', (signalled sig x). subst s'. split_and!; [done|done|lia|]. intros _.
    destruct (signalled_fields sig x) as (_ & -> & -> & _). split_and!; [done|done| |done].
    intros [H1 H2]. rewrite Hpri in H2. rewrite H1, Z.eqb_refl in Ew. simpl in Ew.
    apply Z.ltb_ge in Ew. lia.
Qed.

Lemma psignal_correct_witness :
  exists s' x', psignal 1000 2 15 sys1 = Ok s' /\ proc_tab s' !! 2%nat = Some x' /\ p_sig x' = 16384 /\ p_stat x' = SRUN.
Proof.
  destruct (psignal_correct 1000 2 15 sys1 [] Q1 (sleeper 2000 1 None) sys1_wf eq_refl) as (s' & x' & E & Hx & _).
  - intros _. vm_compute HASH. unfold Q1. simpl. set_solver.
  - right. vm_compute. discriminate.
  - exists s', x'. split; [exact E|]. split; [exact Hx|].
    vm_compute in E. injection E as <-. injection Hx as <-. split; reflexivity.
Defined.

(** [issig] answers with the lowest pending signal that is not ignored (any,
    for a traced process), having cleared exactly the ignored ones below it, and
    with 0, nothing left pending, when there is none. *)
Theorem issig_correct s x : proc_tab s !! u_procp s = Some x -> sigset (p_sig x) ->
  length (u_signal s) = 17%nat ->
  exists n sig', issig s = Ok (n, set_proc_tab (alter (set_p_sig sig') (u_procp s) (proc_tab s)) s) /\
    issig_result (p_sig x) (u_signal s) (p_flag x &? STRC) n sig'.
Proof. apply issig_spec. Qed.

(** Signals 2, 3 and 15 pending, 2 ignored. *)
Definition sys4 : sys :=
  Sys [Proc SRUN SLOAD 50 0 0 20 16390 0 0 0 0 0 0 0 None None 0] (replicate 64 None) None 7 0 0 0 50 0 0 0
    (<[2%nat := 1]> (replicate 17 0)).

Lemma issig_correct_witness :
  exists n s', issig sys4 = Ok (n, s') /\ n = 3 /\ p_sig <$> proc_tab s' !! 0%nat = Some 16388.
Proof.
  destruct (issig_correct sys4 (Proc SRUN SLOAD 50 0 0 20 16390 0 0 0 0 0 0 0 None None 0) eq_refl
    ltac:(unfold sigset; simpl; lia) eq_refl) as (n & sig' & E & _).
  eexists n, _. split; [exact E|]. vm_compute in E. injection E as <- <-. split; reflexivity.
Defined.

(** ** The clock *)

Definition sleepers_queued (s : sys) (Q : Z -> list nat) : Prop :=
  forall p x, proc_tab s !! p = Some x -> p_stat x = SSLEEP -> p ∈ Q (HASH (p_wchan x)).

(** The scheduler's state between interrupts: queues in order, every sleeper on
    its queue, the swapper not waiting for work. *)
Definition settled (n : nat) (s : sys) : Prop :=
  runout s = 0 /\ length (proc_tab s) = n /\ exists R Q, wfq s R Q /\ sleepers_queued s Q.

Lemma settled_modp n p f s : settled n s ->
  (forall x, p_link (f x) = p_link x /\ p_wchan (f x) = p_wchan x /\ p_stat (f x) = p_stat x) ->
  settled n (modp p f s).
Proof.
  intros (Hro & Hn & R & Q & Hq & Hsq) Hf. split_and!; [done|unfold modp; simpl; by rewrite length_alter|].
  exists R, Q. split; [by apply queues_flag|]. intros r y Hy Hst. unfold modp in Hy. cbn [proc_tab set_proc_tab] in Hy.
  destruct (decide (r = p)) as [->|]; [|rewrite list_lookup_alter_ne in Hy by done; by apply Hsq].
  rewrite list_lookup_alter_eq in Hy. destruct (proc_tab s !! p) as [x|] eqn:Hx; [|done]. injection Hy as <-.
  destruct (Hf x) as (_ & -> & Est). rewrite Est in Hst. by apply Hsq.
Qed.

Lemma settled_vars n s s' : settled n s -> proc_tab s' = proc_tab s -> slpque s' = slpque s -> runq s' = runq s ->
  runout s' = runout s -> settled n s'.
Proof.
  intros (Hro & Hn & R & Q & [] & Hsq) E1 E2 E3 E4. split_and!; [congruence|congruence|].
  exists R, Q. split; [constructor; rewrite ?E1, ?E2, ?E3; done|]. unfold sleepers_queued. by rewrite E1.
Qed.

Lemma settled_wakeup n runout_chan chan s : settled n s ->
  exists s', wakeup runout_chan chan s = Ok s' /\ settled n s' /\ quiet s s'.
Proof.
  intros (Hro & Hn & R & Q & Hq & Hsq).
  destruct (wakeup_plain_woke runout_chan 2 chan s R Q Hq (or_introl Hro)) as (s' & E & Hro' & Hw).
  exists s'. destruct Hw as (Hq' & [HL Ha] & Hqt & _ & _). split_and!; [done| |done].
  split_and!; [congruence|congruence|]. eexists _, _. split; [exact Hq'|]. intros p y Hy Hst.
  destruct (lookup_lt_is_Some_2 (proc_tab s) p) as [x Hx]; [rewrite <- HL; by eapply lookup_lt_Some|].
  destruct (Ha p x Hx) as (y' & Hy' & Ey). rewrite Hy in Hy'. injection Hy' as <-.
  destruct (decide (p ∈ _)) as [Hin|Hnin].
  - destruct y, x. unfold unlinked, wake in Ey. simpl in *. simplify_eq.
  - assert (p_stat y = p_stat x /\ p_wchan y = p_wchan x) as [E1 E2].
    { destruct y, x. unfold unlinked in Ey. simpl in *. by simplify_eq. }
    rewrite E2. apply elem_of_filter_b. split; [by rewrite bool_decide_false|]. apply Hsq; congruence.
Qed.

Lemma settled_psignal n runout_chan p s : settled n s -> (p < n)%nat ->
  exists s', psignal runout_chan p SIGALRM s = Ok s' /\ settled n s' /\ quiet s s'.
Proof.
  intros Hs Hp. pose proof Hs as (Hro & Hn & R & Q & Hq & Hsq).
  destruct (lookup_lt_is_Some_2 (proc_tab s) p) as [x Hx]; [lia|].
  rewrite (psignal_wakes runout_chan p SIGALRM s R Q x Hq Hx) by (unfold SIGALRM, NSIG; (lia || by apply Hsq)).
  assert (settled n (modp p (signalled SIGALRM) s)) as Hs1.
  { apply settled_modp; [done|]. intros y. destruct (signalled_fields SIGALRM y) as (? & ? & ? & ?). done. }
  destruct (_ && _).
  - destruct (settled_wakeup n runout_chan (p_wchan x) _ Hs1) as (s' & E & Hs' & Hqt). exists s'.
    split_and!; [done|done|]. eapply quiet_trans; [|exact Hqt]. by repeat split.
  - eexists. split_and!; [done|done|by repeat split].
Qed.

Lemma settled_one n runout_chan p s : settled n s -> (p < n)%nat ->
  exists s', second_one runout_chan p s = Ok s' /\ settled n s' /\ runin s' = runin s /\ u_procp s' = u_procp s.
Proof.
  intros Hs Hp. pose proof Hs as (_ & Hn & _). destruct (lookup_lt_is_Some_2 (proc_tab s) p) as [x Hx]; [lia|].
  unfold second_one, getp. rewrite (access_Ok _ _ _ Hx). run.
  destruct (negb (p_stat x =? 0) && (p_stat x <? SZOMB)); [|by eexists].
  set (s1 := if p_time x =? 127 then s else _).
  assert (settled n s1 /\ runin s1 = runin s /\ u_procp s1 = u_procp s) as (Hs1 & Hr1 & Hu1).
  { subst s1. destruct (p_time x =? 127); [done|]. split_and!; [by apply settled_modp|done|done]. }
  clearbody s1.
  assert (exists s2, (if p_clktim x =? 0 then Ok s1
    else if p_clktim x - 1 =? 0
         then psignal runout_chan p SIGALRM (modp p (set_p_clktim (p_clktim x - 1)) s1)
         else Ok (modp p (set_p_clktim (p_clktim x - 1)) s1)) = Ok s2 /\ settled n s2 /\ runin s2 = runin s1 /\ u_procp s2 = u_procp s1)
    as (s2 & -> & Hs2 & Hr2 & Hu2).
  { assert (settled n (modp p (set_p_clktim (p_clktim x - 1)) s1)) as Hm by (by apply settled_modp).
    destruct (p_clktim x =? 0); [by eexists|]. destruct (p_clktim x - 1 =? 0); [|by eexists].
    destruct (settled_psignal n runout_chan p _ Hm Hp) as (s2 & -> & ? & (? & _ & _ & _ & _ & ? & _)). by eexists. }
  run. pose proof (settled_modp n p (set_p_cpu (age_cpu x)) s2 Hs2 ltac:(done)) as Hs3.
  set (s3 := modp p _ s2) in *. pose proof Hs3 as (_ & Hn3 & _).
  destruct (lookup_lt_is_Some_2 (proc_tab s3) p) as [y Hy]; [lia|]. rewrite (access_Ok _ _ _ Hy). run.
  assert (runin s3 = runin s /\ u_procp s3 = u_procp s) as [Hr3 Hu3] by (unfold s3; simpl; split; congruence).
  destruct (PUSER <=? p_pri y); [|by eexists]. unfold setpri, getp. rewrite (access_Ok _ _ _ Hy). run.
  eexists. split; [done|].
  match goal with |- context [if ?b then set_runrun _ _ else _] => destruct b end; split_and!; try done;
    (apply settled_modp; [|done]; try done; by eapply settled_vars).
Qed.

Lemma settled_loop n runout_chan k pp s : settled n s -> (pp + k <= n)%nat ->
  exists s', second_loop runout_chan k pp s = Ok s' /\ settled n s' /\ runin s' = runin s /\ u_procp s' = u_procp s.
Proof.
  revert pp s. induction k as [|k IH]; intros pp s Hs Hk; [by eexists|]. cbn [second_loop].
  destruct (settled_one n runout_chan pp s Hs) as (s1 & -> & Hs1 & Hr1 & Hu1); [lia|]. run.
  destruct (IH (S pp) s1 Hs1) as (s2 & -> & Hs2 & Hr2 & Hu2); [lia|]. eexists. split_and!; [done|done|congruence|congruence].
Qed.

Lemma settled_second n runout_chan runin_chan lbolt_chan s : settled n s ->
  exists s', second runout_chan runin_chan lbolt_chan s = Ok s' /\ settled n s' /\ runin s' = 0.
Proof.
  intros Hs. unfold second. cbv zeta.
  destruct (settled_wakeup n runout_chan lbolt_chan (set_runrun (inc8 (runrun s)) s)) as (s1 & -> & Hs1 & Hq1);
    [by eapply settled_vars|]. run. pose proof Hs1 as (_ & Hn1 & _).
  destruct (settled_loop n runout_chan (length (proc_tab s1)) 0 s1 Hs1) as (s2 & -> & Hs2 & _); [lia|]. run.
  destruct (Z.eqb_spec (runin s2) 0); [by eexists|].
  destruct (settled_wakeup n runout_chan runin_chan (set_runin 0 s2)) as (s3 & -> & Hs3 & (Hr & _));
    [by eapply settled_vars|]. by eexists.
Qed.

Definition ticks (c : clk) : Z := HZ * time c + lbolt c.

Lemma dk_slot_range um nice busy idl : 0 <= dk_slot um nice busy idl < 32.
Proof.
  unfold dk_slot. change 7 with (Z.ones 3). rewrite Z.land_ones by lia.
  pose proof (Z.mod_pos_bound busy (2 ^ 3)). destruct um, (NZERO <? nice), (idl =? 0); lia.
Qed.

(** How many ticks the histogram has counted. *)
Definition total (l : list Z) : Z := foldr Z.add 0 l.

Lemma total_insert l i x : l !! i = Some x -> total (<[i := x + 1]> l) = total l + 1.
Proof.
  revert i. induction l as [|y l IH]; intros [|i] H; simpl in *; try done.
  - injection H as ->. lia.
  - rewrite IH by done. lia.
Qed.

Section ClockCorrect.
Context (reqs : Z -> Z -> list armed)
  (Hreqs : forall f a x, x ∈ reqs f a -> 1 <= x.1.1 /\ x.1.2 <> 0).

(** The clock interrupt always returns: it counts exactly one tick of the
    date ([HZ] ticks a second, [lbolt] below [HZ]), charges it to exactly one of
    user and system time and to one slot of the [dk_time] histogram, calls exactly
    the callouts that are due, charges the current process's [p_cpu] one tick in
    four, saturating at 255, and leaves the scheduler's queues in order. *)
Theorem clock_correct runout_chan runin_chan lbolt_chan usermode n c L x :
  settled n (c_sys c) -> proc_tab (c_sys c) !! u_procp (c_sys c) = Some x -> 0 <= p_cpu x <= 255 ->
  0 <= lbolt c < HZ -> length (dk_time c) = 32%nat -> holds (c_tab c) L ->
  let now := tick <$> deadlines 0 L in
  let log := (fun x : armed => (x.1.2, x.2)) <$> List.filter due now in
  Z.of_nat (length L + length (rearmed reqs log)) <= NCALL - 1 ->
  exists c', clock runout_chan runin_chan lbolt_chan (call reqs) usermode c = Ok (log, c') /\
    ticks c' = ticks c + 1 /\ 0 <= lbolt c' < HZ /\
    (if usermode then u_utime c' = u_utime c + 1 /\ u_stime c' = u_stime c
     else u_utime c' = u_utime c /\ u_stime c' = u_stime c + 1) /\
    total (dk_time c') = total (dk_time c) + 1 /\
    (exists L', holds (c_tab c') L') /\ settled n (c_sys c') /\
    (lbolt c + 1 < HZ -> exists x', proc_tab (c_sys c') !! u_procp (c_sys c) = Some x' /\
       p_cpu x' = if lbolt c mod 4 =? 0 then Z.min 255 (p_cpu x + 1) else p_cpu x).
Proof.
  intros Hs Hx Hcpu Hlb Hdk Hh now log Hroom. unfold clock.
  destruct (callouts_spec reqs Hreqs (c_tab c) L Hh Hroom) as (tab' & L' & -> & Hh' & _). run.
  unfold getp. rewrite (access_Ok _ _ _ Hx). run.
  pose proof (dk_slot_range usermode (p_nice x) (dk_busy c) (idling c)) as Hsl.
  set (a := dk_slot _ _ _ _) in *. destruct (lookup_lt_is_Some_2 (dk_time c) (Z.to_nat a)) as [t Ht]; [lia|].
  rewrite (access_Ok _ _ _ Ht). run.
  set (s1 := if negb (lbolt c &? (CPUTICK - 1)) then _ else _).
  assert (settled n s1) as Hs1 by (subst s1; destruct (negb _); [by apply settled_modp|done]).
  assert (exists x', proc_tab s1 !! u_procp (c_sys c) = Some x' /\
    p_cpu x' = if lbolt c mod 4 =? 0 then Z.min 255 (p_cpu x + 1) else p_cpu x) as Hcpu'.
  { assert (tst (lbolt c) (CPUTICK - 1) = negb (lbolt c mod 4 =? 0)) as Et.
    { unfold tst. change (CPUTICK - 1) with (Z.ones 2). by rewrite Z.land_ones by lia. }
    subst s1. rewrite Et, negb_involutive. destruct (lbolt c mod 4 =? 0); [|by exists x].
    eexists. split; [by apply lookup_modp|]. simpl. unfold inc8.
    destruct (Z.eqb_spec (p_cpu x) 255) as [->|]; [done|]. rewrite Z.mod_small by lia.
    destruct (Z.eqb_spec (p_cpu x + 1) 0); lia. }
  clearbody s1. unfold ticks, HZ in *. destruct (Z.leb_spec 250 (lbolt c + 1)).
  - destruct (settled_second n runout_chan runin_chan lbolt_chan s1 Hs1) as (s2 & -> & Hs2 & _). run.
    eexists. split; [done|]. simpl. split_and!; [lia|lia|lia|by destruct usermode|by apply total_insert|by exists L'|done|lia].
  - eexists. split; [done|]. simpl. split_and!; [lia|lia|lia|by destruct usermode|by apply total_insert|by exists L'|done|done].
Qed.
End ClockCorrect.

(** The last tick of a second, with the callouts of [table0]. *)
Definition clk0 : clk := Clk table0 (set_u_procp 0 sys3) 249 1000 0 (replicate 32 0) 0 5 6.

Lemma sys3_settled : settled 2 sys3.
Proof.
  split_and!; [done|done|]. exists [0%nat; 1%nat], (fun _ => []). split; [exact sys3_wf|].
  intros [|[|p]] x Hx; simpl in Hx; simplify_eq; by intros ?.
Qed.

Lemma clock_correct_witness :
  exists c', clock 1000 2000 3000 (call (fun _ _ => [])) true clk0
      = Ok ([], c') /\ ticks c' = 250 * 1001.
Proof.
  destruct (clock_correct (fun _ _ => []) ltac:(set_solver) 1000 2000 3000 true 2
    clk0 _ (runner 60 (Some 1%nat))
    ltac:(eapply settled_vars; [exact sys3_settled|reflexivity..]) eq_refl ltac:(simpl; lia) ltac:(unfold HZ; simpl; lia) eq_refl
    holds0 ltac:(vm_compute; discriminate)) as (c' & E & Ht & _).
  exists c'. split; [exact E|exact Ht].
Defined.
