(* ===== verification/Kern.v ===== *)
(** * The file system's kernel state

    One record for what the file-system code of the kernel reads and writes, the
    computations over it, and the interface of the buffer cache below it.  A
    pointer into a table is an index, [NULL] is [None]. *)

From S2P Require Import Prelude Param Resmap.

Definition NADDR : Z := 8.
Definition NLEVEL : Z := 2.
Definition NINDIR : Z := 512.
Definition NMASK : Z := 511.
Definition NSHIFT : Z := 9.
Definition ROOTINO : Z := 2.
Definition NMOUNT : Z := 8.
Definition NINODE : Z := 24.
Definition SUPERB : Z := 0.
Definition NICINOD : Z := 160.
Definition NICFREE : Z := 320.
Definition FS_MAGIC : Z := 0xBE50006F11E5.

Definition EPERM : Z := 1.
Definition ENOENT : Z := 2.
Definition EIO : Z := 5.
Definition ENXIO : Z := 6.
Definition EBADF : Z := 9.
Definition EACCES : Z := 13.
Definition EFAULT : Z := 14.
Definition EINVAL : Z := 22.
Definition EMFILE : Z := 24.
Definition ETXTBSY : Z := 26.
Definition ENOTDIR : Z := 20.
Definition ENFILE : Z := 23.
Definition EFBIG : Z := 27.
Definition ENOSPC : Z := 28.
Definition EROFS : Z := 30.
Definition ESRCH : Z := 3.
Definition ENOTBLK : Z := 15.
Definition EBUSY : Z := 16.
Definition EEXIST : Z := 17.
Definition EXDEV : Z := 18.
Definition EISDIR : Z := 21.
Definition ESPIPE : Z := 29.
Definition EPIPE : Z := 32.

Definition ILOCK : Z := 1.
Definition IUPD : Z := 2.
Definition IACC : Z := 4.
Definition IMOUNT : Z := 8.
Definition IWANT : Z := 16.
Definition ITEXT : Z := 32.
Definition ICHG : Z := 64.

Definition IFMT : Z := 61440.
Definition IFDIR : Z := 16384.
Definition IFCHR : Z := 8192.
Definition IFBLK : Z := 24576.
Definition IFREG : Z := 32768.
Definition IFMPC : Z := 12288.
Definition IFMPB : Z := 28672.
Definition ISVTX : Z := 512.
Definition IREAD : Z := 256.
Definition IWRITE : Z := 128.
Definition IEXEC : Z := 64.

(** What a process can sleep on here. *)
Inductive chan :=
  | ChFlock (dev : Z)      (* &fp->s_flock *)
  | ChIlock (dev : Z)      (* &fp->s_ilock *)
  | ChInode (ip : nat)
  | ChPipe (ip : nat) (k : Z)    (* CHANOF(ip, k) *)
  | ChText (xp : nat)
  | ChUser.                (* &u *)

(** ** Data *)

(** [struct filsys], with the word each field is at. *)
Record filsys := Filsys {
  s_magic : Z;  (* 0 *)
  s_bsize : Z;  (* 1 *)
  s_inopb : Z;  (* 2 *)
  s_naddr : Z;  (* 3 *)
  s_isize : Z;  (* 4: blocks up to the end of the i-list *)
  s_fsize : Z;  (* 5: blocks of the volume *)
  s_time : Z;  (* 6 *)
  s_tfree : Z;  (* 7 *)
  s_tinode : Z;  (* 8 *)
  s_flock : Z;  (* 9 *)
  s_ilock : Z;  (* 10 *)
  s_fmod : Z;  (* 11 *)
  s_ronly : Z;  (* 12 *)
  s_nfree : Z;  (* 13 *)
  s_free : list Z;  (* 14..333 *)
  s_ninode : Z;  (* 334 *)
  s_inode : list Z;  (* 335..494 *)
  s_fill : list Z  (* 495..511 *)
}.

Definition set_s_magic (v : Z) (r : filsys) : filsys :=
  Filsys v (s_bsize r) (s_inopb r) (s_naddr r) (s_isize r) (s_fsize r) (s_time r) (s_tfree r)
  (s_tinode r) (s_flock r) (s_ilock r) (s_fmod r) (s_ronly r) (s_nfree r) (s_free r) (s_ninode r)
  (s_inode r) (s_fill r).
Definition set_s_bsize (v : Z) (r : filsys) : filsys :=
  Filsys (s_magic r) v (s_inopb r) (s_naddr r) (s_isize r) (s_fsize r) (s_time r) (s_tfree r)
  (s_tinode r) (s_flock r) (s_ilock r) (s_fmod r) (s_ronly r) (s_nfree r) (s_free r) (s_ninode r)
  (s_inode r) (s_fill r).
Definition set_s_inopb (v : Z) (r : filsys) : filsys :=
  Filsys (s_magic r) (s_bsize r) v (s_naddr r) (s_isize r) (s_fsize r) (s_time r) (s_tfree r)
  (s_tinode r) (s_flock r) (s_ilock r) (s_fmod r) (s_ronly r) (s_nfree r) (s_free r) (s_ninode r)
  (s_inode r) (s_fill r).
Definition set_s_naddr (v : Z) (r : filsys) : filsys :=
  Filsys (s_magic r) (s_bsize r) (s_inopb r) v (s_isize r) (s_fsize r) (s_time r) (s_tfree r)
  (s_tinode r) (s_flock r) (s_ilock r) (s_fmod r) (s_ronly r) (s_nfree r) (s_free r) (s_ninode r)
  (s_inode r) (s_fill r).
Definition set_s_isize (v : Z) (r : filsys) : filsys :=
  Filsys (s_magic r) (s_bsize r) (s_inopb r) (s_naddr r) v (s_fsize r) (s_time r) (s_tfree r)
  (s_tinode r) (s_flock r) (s_ilock r) (s_fmod r) (s_ronly r) (s_nfree r) (s_free r) (s_ninode r)
  (s_inode r) (s_fill r).
Definition set_s_fsize (v : Z) (r : filsys) : filsys :=
  Filsys (s_magic r) (s_bsize r) (s_inopb r) (s_naddr r) (s_isize r) v (s_time r) (s_tfree r)
  (s_tinode r) (s_flock r) (s_ilock r) (s_fmod r) (s_ronly r) (s_nfree r) (s_free r) (s_ninode r)
  (s_inode r) (s_fill r).
Definition set_s_time (v : Z) (r : filsys) : filsys :=
  Filsys (s_magic r) (s_bsize r) (s_inopb r) (s_naddr r) (s_isize r) (s_fsize r) v (s_tfree r)
  (s_tinode r) (s_flock r) (s_ilock r) (s_fmod r) (s_ronly r) (s_nfree r) (s_free r) (s_ninode r)
  (s_inode r) (s_fill r).
Definition set_s_tfree (v : Z) (r : filsys) : filsys :=
  Filsys (s_magic r) (s_bsize r) (s_inopb r) (s_naddr r) (s_isize r) (s_fsize r) (s_time r) v
  (s_tinode r) (s_flock r) (s_ilock r) (s_fmod r) (s_ronly r) (s_nfree r) (s_free r) (s_ninode r)
  (s_inode r) (s_fill r).
Definition set_s_tinode (v : Z) (r : filsys) : filsys :=
  Filsys (s_magic r) (s_bsize r) (s_inopb r) (s_naddr r) (s_isize r) (s_fsize r) (s_time r)
  (s_tfree r) v (s_flock r) (s_ilock r) (s_fmod r) (s_ronly r) (s_nfree r) (s_free r) (s_ninode r)
  (s_inode r) (s_fill r).
Definition set_s_flock (v : Z) (r : filsys) : filsys :=
  Filsys (s_magic r) (s_bsize r) (s_inopb r) (s_naddr r) (s_isize r) (s_fsize r) (s_time r)
  (s_tfree r) (s_tinode r) v (s_ilock r) (s_fmod r) (s_ronly r) (s_nfree r) (s_free r) (s_ninode
  r) (s_inode r) (s_fill r).
Definition set_s_ilock (v : Z) (r : filsys) : filsys :=
  Filsys (s_magic r) (s_bsize r) (s_inopb r) (s_naddr r) (s_isize r) (s_fsize r) (s_time r)
  (s_tfree r) (s_tinode r) (s_flock r) v (s_fmod r) (s_ronly r) (s_nfree r) (s_free r) (s_ninode
  r) (s_inode r) (s_fill r).
Definition set_s_fmod (v : Z) (r : filsys) : filsys :=
  Filsys (s_magic r) (s_bsize r) (s_inopb r) (s_naddr r) (s_isize r) (s_fsize r) (s_time r)
  (s_tfree r) (s_tinode r) (s_flock r) (s_ilock r) v (s_ronly r) (s_nfree r) (s_free r) (s_ninode
  r) (s_inode r) (s_fill r).
Definition set_s_ronly (v : Z) (r : filsys) : filsys :=
  Filsys (s_magic r) (s_bsize r) (s_inopb r) (s_naddr r) (s_isize r) (s_fsize r) (s_time r)
  (s_tfree r) (s_tinode r) (s_flock r) (s_ilock r) (s_fmod r) v (s_nfree r) (s_free r) (s_ninode
  r) (s_inode r) (s_fill r).
Definition set_s_nfree (v : Z) (r : filsys) : filsys :=
  Filsys (s_magic r) (s_bsize r) (s_inopb r) (s_naddr r) (s_isize r) (s_fsize r) (s_time r)
  (s_tfree r) (s_tinode r) (s_flock r) (s_ilock r) (s_fmod r) (s_ronly r) v (s_free r) (s_ninode
  r) (s_inode r) (s_fill r).
Definition set_s_free (v : list Z) (r : filsys) : filsys :=
  Filsys (s_magic r) (s_bsize r) (s_inopb r) (s_naddr r) (s_isize r) (s_fsize r) (s_time r)
  (s_tfree r) (s_tinode r) (s_flock r) (s_ilock r) (s_fmod r) (s_ronly r) (s_nfree r) v (s_ninode
  r) (s_inode r) (s_fill r).
Definition set_s_ninode (v : Z) (r : filsys) : filsys :=
  Filsys (s_magic r) (s_bsize r) (s_inopb r) (s_naddr r) (s_isize r) (s_fsize r) (s_time r)
  (s_tfree r) (s_tinode r) (s_flock r) (s_ilock r) (s_fmod r) (s_ronly r) (s_nfree r) (s_free r) v
  (s_inode r) (s_fill r).
Definition set_s_inode (v : list Z) (r : filsys) : filsys :=
  Filsys (s_magic r) (s_bsize r) (s_inopb r) (s_naddr r) (s_isize r) (s_fsize r) (s_time r)
  (s_tfree r) (s_tinode r) (s_flock r) (s_ilock r) (s_fmod r) (s_ronly r) (s_nfree r) (s_free r)
  (s_ninode r) v (s_fill r).
Definition set_s_fill (v : list Z) (r : filsys) : filsys :=
  Filsys (s_magic r) (s_bsize r) (s_inopb r) (s_naddr r) (s_isize r) (s_fsize r) (s_time r)
  (s_tfree r) (s_tinode r) (s_flock r) (s_ilock r) (s_fmod r) (s_ronly r) (s_nfree r) (s_free r)
  (s_ninode r) (s_inode r) v.

(** [struct mount]. *)
Record mount := Mount {
  m_dev : Z;
  m_bufp : option filsys;  (* the in-core superblock *)
  m_inodp : option nat  (* index in inode[] *)
}.

Definition set_m_dev (v : Z) (r : mount) : mount :=
  Mount v (m_bufp r) (m_inodp r).
Definition set_m_bufp (v : option filsys) (r : mount) : mount :=
  Mount (m_dev r) v (m_inodp r).
Definition set_m_inodp (v : option nat) (r : mount) : mount :=
  Mount (m_dev r) (m_bufp r) v.

(** [struct inode]. *)
Record inode := Inode {
  i_flag : Z;
  i_count : Z;
  i_dev : Z;
  i_number : Z;
  i_mode : Z;
  i_nlink : Z;
  i_uid : Z;
  i_gid : Z;
  i_size : Z;
  i_addr : list Z;  (* i_un.i_addr[NADDR]; i_rdev is i_addr[0] *)
  i_lastr : Z
}.

Definition set_i_flag (v : Z) (r : inode) : inode :=
  Inode v (i_count r) (i_dev r) (i_number r) (i_mode r) (i_nlink r) (i_uid r) (i_gid r) (i_size r)
  (i_addr r) (i_lastr r).
Definition set_i_count (v : Z) (r : inode) : inode :=
  Inode (i_flag r) v (i_dev r) (i_number r) (i_mode r) (i_nlink r) (i_uid r) (i_gid r) (i_size r)
  (i_addr r) (i_lastr r).
Definition set_i_dev (v : Z) (r : inode) : inode :=
  Inode (i_flag r) (i_count r) v (i_number r) (i_mode r) (i_nlink r) (i_uid r) (i_gid r) (i_size
  r) (i_addr r) (i_lastr r).
Definition set_i_number (v : Z) (r : inode) : inode :=
  Inode (i_flag r) (i_count r) (i_dev r) v (i_mode r) (i_nlink r) (i_uid r) (i_gid r) (i_size r)
  (i_addr r) (i_lastr r).
Definition set_i_mode (v : Z) (r : inode) : inode :=
  Inode (i_flag r) (i_count r) (i_dev r) (i_number r) v (i_nlink r) (i_uid r) (i_gid r) (i_size r)
  (i_addr r) (i_lastr r).
Definition set_i_nlink (v : Z) (r : inode) : inode :=
  Inode (i_flag r) (i_count r) (i_dev r) (i_number r) (i_mode r) v (i_uid r) (i_gid r) (i_size r)
  (i_addr r) (i_lastr r).
Definition set_i_uid (v : Z) (r : inode) : inode :=
  Inode (i_flag r) (i_count r) (i_dev r) (i_number r) (i_mode r) (i_nlink r) v (i_gid r) (i_size
  r) (i_addr r) (i_lastr r).
Definition set_i_gid (v : Z) (r : inode) : inode :=
  Inode (i_flag r) (i_count r) (i_dev r) (i_number r) (i_mode r) (i_nlink r) (i_uid r) v (i_size
  r) (i_addr r) (i_lastr r).
Definition set_i_size (v : Z) (r : inode) : inode :=
  Inode (i_flag r) (i_count r) (i_dev r) (i_number r) (i_mode r) (i_nlink r) (i_uid r) (i_gid r) v
  (i_addr r) (i_lastr r).
Definition set_i_addr (v : list Z) (r : inode) : inode :=
  Inode (i_flag r) (i_count r) (i_dev r) (i_number r) (i_mode r) (i_nlink r) (i_uid r) (i_gid r)
  (i_size r) v (i_lastr r).
Definition set_i_lastr (v : Z) (r : inode) : inode :=
  Inode (i_flag r) (i_count r) (i_dev r) (i_number r) (i_mode r) (i_nlink r) (i_uid r) (i_gid r)
  (i_size r) (i_addr r) v.

(** [struct file]. *)
Record file := File {
  f_flag : Z;
  f_count : Z;
  f_inode : option nat;
  f_offset : Z
}.

Definition set_f_flag (v : Z) (r : file) : file :=
  File v (f_count r) (f_inode r) (f_offset r).
Definition set_f_count (v : Z) (r : file) : file :=
  File (f_flag r) v (f_inode r) (f_offset r).
Definition set_f_inode (v : option nat) (r : file) : file :=
  File (f_flag r) (f_count r) v (f_offset r).
Definition set_f_offset (v : Z) (r : file) : file :=
  File (f_flag r) (f_count r) (f_inode r) v.

(** [struct text]. *)
Record text := Text {
  x_daddr : Z;  (* in blocks of the swap device *)
  x_caddr : Z;
  x_size : Z;  (* in words *)
  x_iptr : option nat;
  x_count : Z;
  x_ccount : Z;
  x_flag : Z
}.

Definition set_x_daddr (v : Z) (r : text) : text :=
  Text v (x_caddr r) (x_size r) (x_iptr r) (x_count r) (x_ccount r) (x_flag r).
Definition set_x_caddr (v : Z) (r : text) : text :=
  Text (x_daddr r) v (x_size r) (x_iptr r) (x_count r) (x_ccount r) (x_flag r).
Definition set_x_size (v : Z) (r : text) : text :=
  Text (x_daddr r) (x_caddr r) v (x_iptr r) (x_count r) (x_ccount r) (x_flag r).
Definition set_x_iptr (v : option nat) (r : text) : text :=
  Text (x_daddr r) (x_caddr r) (x_size r) v (x_count r) (x_ccount r) (x_flag r).
Definition set_x_count (v : Z) (r : text) : text :=
  Text (x_daddr r) (x_caddr r) (x_size r) (x_iptr r) v (x_ccount r) (x_flag r).
Definition set_x_ccount (v : Z) (r : text) : text :=
  Text (x_daddr r) (x_caddr r) (x_size r) (x_iptr r) (x_count r) v (x_flag r).
Definition set_x_flag (v : Z) (r : text) : text :=
  Text (x_daddr r) (x_caddr r) (x_size r) (x_iptr r) (x_count r) (x_ccount r) v.

(** The state. *)
Record kern (S : Type) := Kern {
  store : S;  (* the disks, through the buffer cache *)
  mounts : list mount;  (* mount[NMOUNT] *)
  inodes : list inode;  (* inode[NINODE] *)
  time : Z;
  updlock : Z;
  rablock : Z;
  u_error : Z;
  u_uid : Z;
  u_gid : Z;
  u_cmask : Z;
  u_pdir : option nat;
  u_base : Z;  (* as a byte number *)
  u_count : Z;
  u_offset : Z;
  u_segflg : Z;
  umem : Z -> Z;  (* the user's bytes *)
  umap : Z -> bool;  (* the user's bytes that are mapped *)
  kmem : Z -> Z;  (* the kernel's bytes *)
  u_cdir : nat;
  u_rdir : option nat;
  rootdir : nat;
  u_dbuf : list Z;
  u_dent : list Z;  (* its four words *)
  u_dirp : Z;  (* as a byte number *)
  files : list file;  (* file[NFILE] *)
  u_ofile : list (option nat);
  u_pofile : list Z;
  u_r_val1 : Z;
  u_r_val2 : Z;
  u_acflag : Z;
  u_ruid : Z;
  u_rgid : Z;
  p_uid : Z;  (* of *u.u_procp, as the next four *)
  p_pid : Z;
  p_ppid : Z;
  p_nice : Z;
  p_clktim : Z;
  texts : list text;  (* text[NTEXT] *)
  swapmap : list map;
  mpxip : option nat;
  lbolt : Z;
  psignals : list Z;  (* what psignal() sent to u.u_procp *)
  printfs : list string;  (* what printf() printed *)
  prdevs : list (string * Z);  (* what prdev() printed *)
  wakes : list chan  (* what wakeup() was called on *)
}.
Arguments Kern {S}.
Arguments store {S}.
Arguments mounts {S}.
Arguments inodes {S}.
Arguments time {S}.
Arguments updlock {S}.
Arguments rablock {S}.
Arguments u_error {S}.
Arguments u_uid {S}.
Arguments u_gid {S}.
Arguments u_cmask {S}.
Arguments u_pdir {S}.
Arguments u_base {S}.
Arguments u_count {S}.
Arguments u_offset {S}.
Arguments u_segflg {S}.
Arguments umem {S}.
Arguments umap {S}.
Arguments kmem {S}.
Arguments u_cdir {S}.
Arguments u_rdir {S}.
Arguments rootdir {S}.
Arguments u_dbuf {S}.
Arguments u_dent {S}.
Arguments u_dirp {S}.
Arguments files {S}.
Arguments u_ofile {S}.
Arguments u_pofile {S}.
Arguments u_r_val1 {S}.
Arguments u_r_val2 {S}.
Arguments u_acflag {S}.
Arguments u_ruid {S}.
Arguments u_rgid {S}.
Arguments p_uid {S}.
Arguments p_pid {S}.
Arguments p_ppid {S}.
Arguments p_nice {S}.
Arguments p_clktim {S}.
Arguments texts {S}.
Arguments swapmap {S}.
Arguments mpxip {S}.
Arguments lbolt {S}.
Arguments psignals {S}.
Arguments printfs {S}.
Arguments prdevs {S}.
Arguments wakes {S}.

Definition set_store {S : Type} (v : S) (r : kern S) : kern S :=
  Kern v (mounts r) (inodes r) (time r) (updlock r) (rablock r) (u_error r) (u_uid r) (u_gid r)
  (u_cmask r) (u_pdir r) (u_base r) (u_count r) (u_offset r) (u_segflg r) (umem r) (umap r) (kmem
  r) (u_cdir r) (u_rdir r) (rootdir r) (u_dbuf r) (u_dent r) (u_dirp r) (files r) (u_ofile r)
  (u_pofile r) (u_r_val1 r) (u_r_val2 r) (u_acflag r) (u_ruid r) (u_rgid r) (p_uid r) (p_pid r)
  (p_ppid r) (p_nice r) (p_clktim r) (texts r) (swapmap r) (mpxip r) (lbolt r) (psignals r)
  (printfs r) (prdevs r) (wakes r).
Definition set_mounts {S : Type} (v : list mount) (r : kern S) : kern S :=
  Kern (store r) v (inodes r) (time r) (updlock r) (rablock r) (u_error r) (u_uid r) (u_gid r)
  (u_cmask r) (u_pdir r) (u_base r) (u_count r) (u_offset r) (u_segflg r) (umem r) (umap r) (kmem
  r) (u_cdir r) (u_rdir r) (rootdir r) (u_dbuf r) (u_dent r) (u_dirp r) (files r) (u_ofile r)
  (u_pofile r) (u_r_val1 r) (u_r_val2 r) (u_acflag r) (u_ruid r) (u_rgid r) (p_uid r) (p_pid r)
  (p_ppid r) (p_nice r) (p_clktim r) (texts r) (swapmap r) (mpxip r) (lbolt r) (psignals r)
  (printfs r) (prdevs r) (wakes r).
Definition set_inodes {S : Type} (v : list inode) (r : kern S) : kern S :=
  Kern (store r) (mounts r) v (time r) (updlock r) (rablock r) (u_error r) (u_uid r) (u_gid r)
  (u_cmask r) (u_pdir r) (u_base r) (u_count r) (u_offset r) (u_segflg r) (umem r) (umap r) (kmem
  r) (u_cdir r) (u_rdir r) (rootdir r) (u_dbuf r) (u_dent r) (u_dirp r) (files r) (u_ofile r)
  (u_pofile r) (u_r_val1 r) (u_r_val2 r) (u_acflag r) (u_ruid r) (u_rgid r) (p_uid r) (p_pid r)
  (p_ppid r) (p_nice r) (p_clktim r) (texts r) (swapmap r) (mpxip r) (lbolt r) (psignals r)
  (printfs r) (prdevs r) (wakes r).
Definition set_time {S : Type} (v : Z) (r : kern S) : kern S :=
  Kern (store r) (mounts r) (inodes r) v (updlock r) (rablock r) (u_error r) (u_uid r) (u_gid r)
  (u_cmask r) (u_pdir r) (u_base r) (u_count r) (u_offset r) (u_segflg r) (umem r) (umap r) (kmem
  r) (u_cdir r) (u_rdir r) (rootdir r) (u_dbuf r) (u_dent r) (u_dirp r) (files r) (u_ofile r)
  (u_pofile r) (u_r_val1 r) (u_r_val2 r) (u_acflag r) (u_ruid r) (u_rgid r) (p_uid r) (p_pid r)
  (p_ppid r) (p_nice r) (p_clktim r) (texts r) (swapmap r) (mpxip r) (lbolt r) (psignals r)
  (printfs r) (prdevs r) (wakes r).
Definition set_updlock {S : Type} (v : Z) (r : kern S) : kern S :=
  Kern (store r) (mounts r) (inodes r) (time r) v (rablock r) (u_error r) (u_uid r) (u_gid r)
  (u_cmask r) (u_pdir r) (u_base r) (u_count r) (u_offset r) (u_segflg r) (umem r) (umap r) (kmem
  r) (u_cdir r) (u_rdir r) (rootdir r) (u_dbuf r) (u_dent r) (u_dirp r) (files r) (u_ofile r)
  (u_pofile r) (u_r_val1 r) (u_r_val2 r) (u_acflag r) (u_ruid r) (u_rgid r) (p_uid r) (p_pid r)
  (p_ppid r) (p_nice r) (p_clktim r) (texts r) (swapmap r) (mpxip r) (lbolt r) (psignals r)
  (printfs r) (prdevs r) (wakes r).
Definition set_rablock {S : Type} (v : Z) (r : kern S) : kern S :=
  Kern (store r) (mounts r) (inodes r) (time r) (updlock r) v (u_error r) (u_uid r) (u_gid r)
  (u_cmask r) (u_pdir r) (u_base r) (u_count r) (u_offset r) (u_segflg r) (umem r) (umap r) (kmem
  r) (u_cdir r) (u_rdir r) (rootdir r) (u_dbuf r) (u_dent r) (u_dirp r) (files r) (u_ofile r)
  (u_pofile r) (u_r_val1 r) (u_r_val2 r) (u_acflag r) (u_ruid r) (u_rgid r) (p_uid r) (p_pid r)
  (p_ppid r) (p_nice r) (p_clktim r) (texts r) (swapmap r) (mpxip r) (lbolt r) (psignals r)
  (printfs r) (prdevs r) (wakes r).
Definition set_u_error {S : Type} (v : Z) (r : kern S) : kern S :=
  Kern (store r) (mounts r) (inodes r) (time r) (updlock r) (rablock r) v (u_uid r) (u_gid r)
  (u_cmask r) (u_pdir r) (u_base r) (u_count r) (u_offset r) (u_segflg r) (umem r) (umap r) (kmem
  r) (u_cdir r) (u_rdir r) (rootdir r) (u_dbuf r) (u_dent r) (u_dirp r) (files r) (u_ofile r)
  (u_pofile r) (u_r_val1 r) (u_r_val2 r) (u_acflag r) (u_ruid r) (u_rgid r) (p_uid r) (p_pid r)
  (p_ppid r) (p_nice r) (p_clktim r) (texts r) (swapmap r) (mpxip r) (lbolt r) (psignals r)
  (printfs r) (prdevs r) (wakes r).
Definition set_u_uid {S : Type} (v : Z) (r : kern S) : kern S :=
  Kern (store r) (mounts r) (inodes r) (time r) (updlock r) (rablock r) (u_error r) v (u_gid r)
  (u_cmask r) (u_pdir r) (u_base r) (u_count r) (u_offset r) (u_segflg r) (umem r) (umap r) (kmem
  r) (u_cdir r) (u_rdir r) (rootdir r) (u_dbuf r) (u_dent r) (u_dirp r) (files r) (u_ofile r)
  (u_pofile r) (u_r_val1 r) (u_r_val2 r) (u_acflag r) (u_ruid r) (u_rgid r) (p_uid r) (p_pid r)
  (p_ppid r) (p_nice r) (p_clktim r) (texts r) (swapmap r) (mpxip r) (lbolt r) (psignals r)
  (printfs r) (prdevs r) (wakes r).
Definition set_u_gid {S : Type} (v : Z) (r : kern S) : kern S :=
  Kern (store r) (mounts r) (inodes r) (time r) (updlock r) (rablock r) (u_error r) (u_uid r) v
  (u_cmask r) (u_pdir r) (u_base r) (u_count r) (u_offset r) (u_segflg r) (umem r) (umap r) (kmem
  r) (u_cdir r) (u_rdir r) (rootdir r) (u_dbuf r) (u_dent r) (u_dirp r) (files r) (u_ofile r)
  (u_pofile r) (u_r_val1 r) (u_r_val2 r) (u_acflag r) (u_ruid r) (u_rgid r) (p_uid r) (p_pid r)
  (p_ppid r) (p_nice r) (p_clktim r) (texts r) (swapmap r) (mpxip r) (lbolt r) (psignals r)
  (printfs r) (prdevs r) (wakes r).
Definition set_u_cmask {S : Type} (v : Z) (r : kern S) : kern S :=
  Kern (store r) (mounts r) (inodes r) (time r) (updlock r) (rablock r) (u_error r) (u_uid r)
  (u_gid r) v (u_pdir r) (u_base r) (u_count r) (u_offset r) (u_segflg r) (umem r) (umap r) (kmem
  r) (u_cdir r) (u_rdir r) (rootdir r) (u_dbuf r) (u_dent r) (u_dirp r) (files r) (u_ofile r)
  (u_pofile r) (u_r_val1 r) (u_r_val2 r) (u_acflag r) (u_ruid r) (u_rgid r) (p_uid r) (p_pid r)
  (p_ppid r) (p_nice r) (p_clktim r) (texts r) (swapmap r) (mpxip r) (lbolt r) (psignals r)
  (printfs r) (prdevs r) (wakes r).
Definition set_u_pdir {S : Type} (v : option nat) (r : kern S) : kern S :=
  Kern (store r) (mounts r) (inodes r) (time r) (updlock r) (rablock r) (u_error r) (u_uid r)
  (u_gid r) (u_cmask r) v (u_base r) (u_count r) (u_offset r) (u_segflg r) (umem r) (umap r) (kmem
  r) (u_cdir r) (u_rdir r) (rootdir r) (u_dbuf r) (u_dent r) (u_dirp r) (files r) (u_ofile r)
  (u_pofile r) (u_r_val1 r) (u_r_val2 r) (u_acflag r) (u_ruid r) (u_rgid r) (p_uid r) (p_pid r)
  (p_ppid r) (p_nice r) (p_clktim r) (texts r) (swapmap r) (mpxip r) (lbolt r) (psignals r)
  (printfs r) (prdevs r) (wakes r).
Definition set_u_base {S : Type} (v : Z) (r : kern S) : kern S :=
  Kern (store r) (mounts r) (inodes r) (time r) (updlock r) (rablock r) (u_error r) (u_uid r)
  (u_gid r) (u_cmask r) (u_pdir r) v (u_count r) (u_offset r) (u_segflg r) (umem r) (umap r) (kmem
  r) (u_cdir r) (u_rdir r) (rootdir r) (u_dbuf r) (u_dent r) (u_dirp r) (files r) (u_ofile r)
  (u_pofile r) (u_r_val1 r) (u_r_val2 r) (u_acflag r) (u_ruid r) (u_rgid r) (p_uid r) (p_pid r)
  (p_ppid r) (p_nice r) (p_clktim r) (texts r) (swapmap r) (mpxip r) (lbolt r) (psignals r)
  (printfs r) (prdevs r) (wakes r).
Definition set_u_count {S : Type} (v : Z) (r : kern S) : kern S :=
  Kern (store r) (mounts r) (inodes r) (time r) (updlock r) (rablock r) (u_error r) (u_uid r)
  (u_gid r) (u_cmask r) (u_pdir r) (u_base r) v (u_offset r) (u_segflg r) (umem r) (umap r) (kmem
  r) (u_cdir r) (u_rdir r) (rootdir r) (u_dbuf r) (u_dent r) (u_dirp r) (files r) (u_ofile r)
  (u_pofile r) (u_r_val1 r) (u_r_val2 r) (u_acflag r) (u_ruid r) (u_rgid r) (p_uid r) (p_pid r)
  (p_ppid r) (p_nice r) (p_clktim r) (texts r) (swapmap r) (mpxip r) (lbolt r) (psignals r)
  (printfs r) (prdevs r) (wakes r).
Definition set_u_offset {S : Type} (v : Z) (r : kern S) : kern S :=
  Kern (store r) (mounts r) (inodes r) (time r) (updlock r) (rablock r) (u_error r) (u_uid r)
  (u_gid r) (u_cmask r) (u_pdir r) (u_base r) (u_count r) v (u_segflg r) (umem r) (umap r) (kmem
  r) (u_cdir r) (u_rdir r) (rootdir r) (u_dbuf r) (u_dent r) (u_dirp r) (files r) (u_ofile r)
  (u_pofile r) (u_r_val1 r) (u_r_val2 r) (u_acflag r) (u_ruid r) (u_rgid r) (p_uid r) (p_pid r)
  (p_ppid r) (p_nice r) (p_clktim r) (texts r) (swapmap r) (mpxip r) (lbolt r) (psignals r)
  (printfs r) (prdevs r) (wakes r).
Definition set_u_segflg {S : Type} (v : Z) (r : kern S) : kern S :=
  Kern (store r) (mounts r) (inodes r) (time r) (updlock r) (rablock r) (u_error r) (u_uid r)
  (u_gid r) (u_cmask r) (u_pdir r) (u_base r) (u_count r) (u_offset r) v (umem r) (umap r) (kmem
  r) (u_cdir r) (u_rdir r) (rootdir r) (u_dbuf r) (u_dent r) (u_dirp r) (files r) (u_ofile r)
  (u_pofile r) (u_r_val1 r) (u_r_val2 r) (u_acflag r) (u_ruid r) (u_rgid r) (p_uid r) (p_pid r)
  (p_ppid r) (p_nice r) (p_clktim r) (texts r) (swapmap r) (mpxip r) (lbolt r) (psignals r)
  (printfs r) (prdevs r) (wakes r).
Definition set_umem {S : Type} (v : Z -> Z) (r : kern S) : kern S :=
  Kern (store r) (mounts r) (inodes r) (time r) (updlock r) (rablock r) (u_error r) (u_uid r)
  (u_gid r) (u_cmask r) (u_pdir r) (u_base r) (u_count r) (u_offset r) (u_segflg r) v (umap r)
  (kmem r) (u_cdir r) (u_rdir r) (rootdir r) (u_dbuf r) (u_dent r) (u_dirp r) (files r) (u_ofile
  r) (u_pofile r) (u_r_val1 r) (u_r_val2 r) (u_acflag r) (u_ruid r) (u_rgid r) (p_uid r) (p_pid r)
  (p_ppid r) (p_nice r) (p_clktim r) (texts r) (swapmap r) (mpxip r) (lbolt r) (psignals r)
  (printfs r) (prdevs r) (wakes r).
Definition set_umap {S : Type} (v : Z -> bool) (r : kern S) : kern S :=
  Kern (store r) (mounts r) (inodes r) (time r) (updlock r) (rablock r) (u_error r) (u_uid r)
  (u_gid r) (u_cmask r) (u_pdir r) (u_base r) (u_count r) (u_offset r) (u_segflg r) (umem r) v
  (kmem r) (u_cdir r) (u_rdir r) (rootdir r) (u_dbuf r) (u_dent r) (u_dirp r) (files r) (u_ofile
  r) (u_pofile r) (u_r_val1 r) (u_r_val2 r) (u_acflag r) (u_ruid r) (u_rgid r) (p_uid r) (p_pid r)
  (p_ppid r) (p_nice r) (p_clktim r) (texts r) (swapmap r) (mpxip r) (lbolt r) (psignals r)
  (printfs r) (prdevs r) (wakes r).
Definition set_kmem {S : Type} (v : Z -> Z) (r : kern S) : kern S :=
  Kern (store r) (mounts r) (inodes r) (time r) (updlock r) (rablock r) (u_error r) (u_uid r)
  (u_gid r) (u_cmask r) (u_pdir r) (u_base r) (u_count r) (u_offset r) (u_segflg r) (umem r) (umap
  r) v (u_cdir r) (u_rdir r) (rootdir r) (u_dbuf r) (u_dent r) (u_dirp r) (files r) (u_ofile r)
  (u_pofile r) (u_r_val1 r) (u_r_val2 r) (u_acflag r) (u_ruid r) (u_rgid r) (p_uid r) (p_pid r)
  (p_ppid r) (p_nice r) (p_clktim r) (texts r) (swapmap r) (mpxip r) (lbolt r) (psignals r)
  (printfs r) (prdevs r) (wakes r).
Definition set_u_cdir {S : Type} (v : nat) (r : kern S) : kern S :=
  Kern (store r) (mounts r) (inodes r) (time r) (updlock r) (rablock r) (u_error r) (u_uid r)
  (u_gid r) (u_cmask r) (u_pdir r) (u_base r) (u_count r) (u_offset r) (u_segflg r) (umem r) (umap
  r) (kmem r) v (u_rdir r) (rootdir r) (u_dbuf r) (u_dent r) (u_dirp r) (files r) (u_ofile r)
  (u_pofile r) (u_r_val1 r) (u_r_val2 r) (u_acflag r) (u_ruid r) (u_rgid r) (p_uid r) (p_pid r)
  (p_ppid r) (p_nice r) (p_clktim r) (texts r) (swapmap r) (mpxip r) (lbolt r) (psignals r)
  (printfs r) (prdevs r) (wakes r).
Definition set_u_rdir {S : Type} (v : option nat) (r : kern S) : kern S :=
  Kern (store r) (mounts r) (inodes r) (time r) (updlock r) (rablock r) (u_error r) (u_uid r)
  (u_gid r) (u_cmask r) (u_pdir r) (u_base r) (u_count r) (u_offset r) (u_segflg r) (umem r) (umap
  r) (kmem r) (u_cdir r) v (rootdir r) (u_dbuf r) (u_dent r) (u_dirp r) (files r) (u_ofile r)
  (u_pofile r) (u_r_val1 r) (u_r_val2 r) (u_acflag r) (u_ruid r) (u_rgid r) (p_uid r) (p_pid r)
  (p_ppid r) (p_nice r) (p_clktim r) (texts r) (swapmap r) (mpxip r) (lbolt r) (psignals r)
  (printfs r) (prdevs r) (wakes r).
Definition set_rootdir {S : Type} (v : nat) (r : kern S) : kern S :=
  Kern (store r) (mounts r) (inodes r) (time r) (updlock r) (rablock r) (u_error r) (u_uid r)
  (u_gid r) (u_cmask r) (u_pdir r) (u_base r) (u_count r) (u_offset r) (u_segflg r) (umem r) (umap
  r) (kmem r) (u_cdir r) (u_rdir r) v (u_dbuf r) (u_dent r) (u_dirp r) (files r) (u_ofile r)
  (u_pofile r) (u_r_val1 r) (u_r_val2 r) (u_acflag r) (u_ruid r) (u_rgid r) (p_uid r) (p_pid r)
  (p_ppid r) (p_nice r) (p_clktim r) (texts r) (swapmap r) (mpxip r) (lbolt r) (psignals r)
  (printfs r) (prdevs r) (wakes r).
Definition set_u_dbuf {S : Type} (v : list Z) (r : kern S) : kern S :=
  Kern (store r) (mounts r) (inodes r) (time r) (updlock r) (rablock r) (u_error r) (u_uid r)
  (u_gid r) (u_cmask r) (u_pdir r) (u_base r) (u_count r) (u_offset r) (u_segflg r) (umem r) (umap
  r) (kmem r) (u_cdir r) (u_rdir r) (rootdir r) v (u_dent r) (u_dirp r) (files r) (u_ofile r)
  (u_pofile r) (u_r_val1 r) (u_r_val2 r) (u_acflag r) (u_ruid r) (u_rgid r) (p_uid r) (p_pid r)
  (p_ppid r) (p_nice r) (p_clktim r) (texts r) (swapmap r) (mpxip r) (lbolt r) (psignals r)
  (printfs r) (prdevs r) (wakes r).
Definition set_u_dent {S : Type} (v : list Z) (r : kern S) : kern S :=
  Kern (store r) (mounts r) (inodes r) (time r) (updlock r) (rablock r) (u_error r) (u_uid r)
  (u_gid r) (u_cmask r) (u_pdir r) (u_base r) (u_count r) (u_offset r) (u_segflg r) (umem r) (umap
  r) (kmem r) (u_cdir r) (u_rdir r) (rootdir r) (u_dbuf r) v (u_dirp r) (files r) (u_ofile r)
  (u_pofile r) (u_r_val1 r) (u_r_val2 r) (u_acflag r) (u_ruid r) (u_rgid r) (p_uid r) (p_pid r)
  (p_ppid r) (p_nice r) (p_clktim r) (texts r) (swapmap r) (mpxip r) (lbolt r) (psignals r)
  (printfs r) (prdevs r) (wakes r).
Definition set_u_dirp {S : Type} (v : Z) (r : kern S) : kern S :=
  Kern (store r) (mounts r) (inodes r) (time r) (updlock r) (rablock r) (u_error r) (u_uid r)
  (u_gid r) (u_cmask r) (u_pdir r) (u_base r) (u_count r) (u_offset r) (u_segflg r) (umem r) (umap
  r) (kmem r) (u_cdir r) (u_rdir r) (rootdir r) (u_dbuf r) (u_dent r) v (files r) (u_ofile r)
  (u_pofile r) (u_r_val1 r) (u_r_val2 r) (u_acflag r) (u_ruid r) (u_rgid r) (p_uid r) (p_pid r)
  (p_ppid r) (p_nice r) (p_clktim r) (texts r) (swapmap r) (mpxip r) (lbolt r) (psignals r)
  (printfs r) (prdevs r) (wakes r).
Definition set_files {S : Type} (v : list file) (r : kern S) : kern S :=
  Kern (store r) (mounts r) (inodes r) (time r) (updlock r) (rablock r) (u_error r) (u_uid r)
  (u_gid r) (u_cmask r) (u_pdir r) (u_base r) (u_count r) (u_offset r) (u_segflg r) (umem r) (umap
  r) (kmem r) (u_cdir r) (u_rdir r) (rootdir r) (u_dbuf r) (u_dent r) (u_dirp r) v (u_ofile r)
  (u_pofile r) (u_r_val1 r) (u_r_val2 r) (u_acflag r) (u_ruid r) (u_rgid r) (p_uid r) (p_pid r)
  (p_ppid r) (p_nice r) (p_clktim r) (texts r) (swapmap r) (mpxip r) (lbolt r) (psignals r)
  (printfs r) (prdevs r) (wakes r).
Definition set_u_ofile {S : Type} (v : list (option nat)) (r : kern S) : kern S :=
  Kern (store r) (mounts r) (inodes r) (time r) (updlock r) (rablock r) (u_error r) (u_uid r)
  (u_gid r) (u_cmask r) (u_pdir r) (u_base r) (u_count r) (u_offset r) (u_segflg r) (umem r) (umap
  r) (kmem r) (u_cdir r) (u_rdir r) (rootdir r) (u_dbuf r) (u_dent r) (u_dirp r) (files r) v
  (u_pofile r) (u_r_val1 r) (u_r_val2 r) (u_acflag r) (u_ruid r) (u_rgid r) (p_uid r) (p_pid r)
  (p_ppid r) (p_nice r) (p_clktim r) (texts r) (swapmap r) (mpxip r) (lbolt r) (psignals r)
  (printfs r) (prdevs r) (wakes r).
Definition set_u_pofile {S : Type} (v : list Z) (r : kern S) : kern S :=
  Kern (store r) (mounts r) (inodes r) (time r) (updlock r) (rablock r) (u_error r) (u_uid r)
  (u_gid r) (u_cmask r) (u_pdir r) (u_base r) (u_count r) (u_offset r) (u_segflg r) (umem r) (umap
  r) (kmem r) (u_cdir r) (u_rdir r) (rootdir r) (u_dbuf r) (u_dent r) (u_dirp r) (files r)
  (u_ofile r) v (u_r_val1 r) (u_r_val2 r) (u_acflag r) (u_ruid r) (u_rgid r) (p_uid r) (p_pid r)
  (p_ppid r) (p_nice r) (p_clktim r) (texts r) (swapmap r) (mpxip r) (lbolt r) (psignals r)
  (printfs r) (prdevs r) (wakes r).
Definition set_u_r_val1 {S : Type} (v : Z) (r : kern S) : kern S :=
  Kern (store r) (mounts r) (inodes r) (time r) (updlock r) (rablock r) (u_error r) (u_uid r)
  (u_gid r) (u_cmask r) (u_pdir r) (u_base r) (u_count r) (u_offset r) (u_segflg r) (umem r) (umap
  r) (kmem r) (u_cdir r) (u_rdir r) (rootdir r) (u_dbuf r) (u_dent r) (u_dirp r) (files r)
  (u_ofile r) (u_pofile r) v (u_r_val2 r) (u_acflag r) (u_ruid r) (u_rgid r) (p_uid r) (p_pid r)
  (p_ppid r) (p_nice r) (p_clktim r) (texts r) (swapmap r) (mpxip r) (lbolt r) (psignals r)
  (printfs r) (prdevs r) (wakes r).
Definition set_u_r_val2 {S : Type} (v : Z) (r : kern S) : kern S :=
  Kern (store r) (mounts r) (inodes r) (time r) (updlock r) (rablock r) (u_error r) (u_uid r)
  (u_gid r) (u_cmask r) (u_pdir r) (u_base r) (u_count r) (u_offset r) (u_segflg r) (umem r) (umap
  r) (kmem r) (u_cdir r) (u_rdir r) (rootdir r) (u_dbuf r) (u_dent r) (u_dirp r) (files r)
  (u_ofile r) (u_pofile r) (u_r_val1 r) v (u_acflag r) (u_ruid r) (u_rgid r) (p_uid r) (p_pid r)
  (p_ppid r) (p_nice r) (p_clktim r) (texts r) (swapmap r) (mpxip r) (lbolt r) (psignals r)
  (printfs r) (prdevs r) (wakes r).
Definition set_u_acflag {S : Type} (v : Z) (r : kern S) : kern S :=
  Kern (store r) (mounts r) (inodes r) (time r) (updlock r) (rablock r) (u_error r) (u_uid r)
  (u_gid r) (u_cmask r) (u_pdir r) (u_base r) (u_count r) (u_offset r) (u_segflg r) (umem r) (umap
  r) (kmem r) (u_cdir r) (u_rdir r) (rootdir r) (u_dbuf r) (u_dent r) (u_dirp r) (files r)
  (u_ofile r) (u_pofile r) (u_r_val1 r) (u_r_val2 r) v (u_ruid r) (u_rgid r) (p_uid r) (p_pid r)
  (p_ppid r) (p_nice r) (p_clktim r) (texts r) (swapmap r) (mpxip r) (lbolt r) (psignals r)
  (printfs r) (prdevs r) (wakes r).
Definition set_u_ruid {S : Type} (v : Z) (r : kern S) : kern S :=
  Kern (store r) (mounts r) (inodes r) (time r) (updlock r) (rablock r) (u_error r) (u_uid r)
  (u_gid r) (u_cmask r) (u_pdir r) (u_base r) (u_count r) (u_offset r) (u_segflg r) (umem r) (umap
  r) (kmem r) (u_cdir r) (u_rdir r) (rootdir r) (u_dbuf r) (u_dent r) (u_dirp r) (files r)
  (u_ofile r) (u_pofile r) (u_r_val1 r) (u_r_val2 r) (u_acflag r) v (u_rgid r) (p_uid r) (p_pid r)
  (p_ppid r) (p_nice r) (p_clktim r) (texts r) (swapmap r) (mpxip r) (lbolt r) (psignals r)
  (printfs r) (prdevs r) (wakes r).
Definition set_u_rgid {S : Type} (v : Z) (r : kern S) : kern S :=
  Kern (store r) (mounts r) (inodes r) (time r) (updlock r) (rablock r) (u_error r) (u_uid r)
  (u_gid r) (u_cmask r) (u_pdir r) (u_base r) (u_count r) (u_offset r) (u_segflg r) (umem r) (umap
  r) (kmem r) (u_cdir r) (u_rdir r) (rootdir r) (u_dbuf r) (u_dent r) (u_dirp r) (files r)
  (u_ofile r) (u_pofile r) (u_r_val1 r) (u_r_val2 r) (u_acflag r) (u_ruid r) v (p_uid r) (p_pid r)
  (p_ppid r) (p_nice r) (p_clktim r) (texts r) (swapmap r) (mpxip r) (lbolt r) (psignals r)
  (printfs r) (prdevs r) (wakes r).
Definition set_p_uid {S : Type} (v : Z) (r : kern S) : kern S :=
  Kern (store r) (mounts r) (inodes r) (time r) (updlock r) (rablock r) (u_error r) (u_uid r)
  (u_gid r) (u_cmask r) (u_pdir r) (u_base r) (u_count r) (u_offset r) (u_segflg r) (umem r) (umap
  r) (kmem r) (u_cdir r) (u_rdir r) (rootdir r) (u_dbuf r) (u_dent r) (u_dirp r) (files r)
  (u_ofile r) (u_pofile r) (u_r_val1 r) (u_r_val2 r) (u_acflag r) (u_ruid r) (u_rgid r) v (p_pid
  r) (p_ppid r) (p_nice r) (p_clktim r) (texts r) (swapmap r) (mpxip r) (lbolt r) (psignals r)
  (printfs r) (prdevs r) (wakes r).
Definition set_p_pid {S : Type} (v : Z) (r : kern S) : kern S :=
  Kern (store r) (mounts r) (inodes r) (time r) (updlock r) (rablock r) (u_error r) (u_uid r)
  (u_gid r) (u_cmask r) (u_pdir r) (u_base r) (u_count r) (u_offset r) (u_segflg r) (umem r) (umap
  r) (kmem r) (u_cdir r) (u_rdir r) (rootdir r) (u_dbuf r) (u_dent r) (u_dirp r) (files r)
  (u_ofile r) (u_pofile r) (u_r_val1 r) (u_r_val2 r) (u_acflag r) (u_ruid r) (u_rgid r) (p_uid r)
  v (p_ppid r) (p_nice r) (p_clktim r) (texts r) (swapmap r) (mpxip r) (lbolt r) (psignals r)
  (printfs r) (prdevs r) (wakes r).
Definition set_p_ppid {S : Type} (v : Z) (r : kern S) : kern S :=
  Kern (store r) (mounts r) (inodes r) (time r) (updlock r) (rablock r) (u_error r) (u_uid r)
  (u_gid r) (u_cmask r) (u_pdir r) (u_base r) (u_count r) (u_offset r) (u_segflg r) (umem r) (umap
  r) (kmem r) (u_cdir r) (u_rdir r) (rootdir r) (u_dbuf r) (u_dent r) (u_dirp r) (files r)
  (u_ofile r) (u_pofile r) (u_r_val1 r) (u_r_val2 r) (u_acflag r) (u_ruid r) (u_rgid r) (p_uid r)
  (p_pid r) v (p_nice r) (p_clktim r) (texts r) (swapmap r) (mpxip r) (lbolt r) (psignals r)
  (printfs r) (prdevs r) (wakes r).
Definition set_p_nice {S : Type} (v : Z) (r : kern S) : kern S :=
  Kern (store r) (mounts r) (inodes r) (time r) (updlock r) (rablock r) (u_error r) (u_uid r)
  (u_gid r) (u_cmask r) (u_pdir r) (u_base r) (u_count r) (u_offset r) (u_segflg r) (umem r) (umap
  r) (kmem r) (u_cdir r) (u_rdir r) (rootdir r) (u_dbuf r) (u_dent r) (u_dirp r) (files r)
  (u_ofile r) (u_pofile r) (u_r_val1 r) (u_r_val2 r) (u_acflag r) (u_ruid r) (u_rgid r) (p_uid r)
  (p_pid r) (p_ppid r) v (p_clktim r) (texts r) (swapmap r) (mpxip r) (lbolt r) (psignals r)
  (printfs r) (prdevs r) (wakes r).
Definition set_p_clktim {S : Type} (v : Z) (r : kern S) : kern S :=
  Kern (store r) (mounts r) (inodes r) (time r) (updlock r) (rablock r) (u_error r) (u_uid r)
  (u_gid r) (u_cmask r) (u_pdir r) (u_base r) (u_count r) (u_offset r) (u_segflg r) (umem r) (umap
  r) (kmem r) (u_cdir r) (u_rdir r) (rootdir r) (u_dbuf r) (u_dent r) (u_dirp r) (files r)
  (u_ofile r) (u_pofile r) (u_r_val1 r) (u_r_val2 r) (u_acflag r) (u_ruid r) (u_rgid r) (p_uid r)
  (p_pid r) (p_ppid r) (p_nice r) v (texts r) (swapmap r) (mpxip r) (lbolt r) (psignals r)
  (printfs r) (prdevs r) (wakes r).
Definition set_texts {S : Type} (v : list text) (r : kern S) : kern S :=
  Kern (store r) (mounts r) (inodes r) (time r) (updlock r) (rablock r) (u_error r) (u_uid r)
  (u_gid r) (u_cmask r) (u_pdir r) (u_base r) (u_count r) (u_offset r) (u_segflg r) (umem r) (umap
  r) (kmem r) (u_cdir r) (u_rdir r) (rootdir r) (u_dbuf r) (u_dent r) (u_dirp r) (files r)
  (u_ofile r) (u_pofile r) (u_r_val1 r) (u_r_val2 r) (u_acflag r) (u_ruid r) (u_rgid r) (p_uid r)
  (p_pid r) (p_ppid r) (p_nice r) (p_clktim r) v (swapmap r) (mpxip r) (lbolt r) (psignals r)
  (printfs r) (prdevs r) (wakes r).
Definition set_swapmap {S : Type} (v : list map) (r : kern S) : kern S :=
  Kern (store r) (mounts r) (inodes r) (time r) (updlock r) (rablock r) (u_error r) (u_uid r)
  (u_gid r) (u_cmask r) (u_pdir r) (u_base r) (u_count r) (u_offset r) (u_segflg r) (umem r) (umap
  r) (kmem r) (u_cdir r) (u_rdir r) (rootdir r) (u_dbuf r) (u_dent r) (u_dirp r) (files r)
  (u_ofile r) (u_pofile r) (u_r_val1 r) (u_r_val2 r) (u_acflag r) (u_ruid r) (u_rgid r) (p_uid r)
  (p_pid r) (p_ppid r) (p_nice r) (p_clktim r) (texts r) v (mpxip r) (lbolt r) (psignals r)
  (printfs r) (prdevs r) (wakes r).
Definition set_mpxip {S : Type} (v : option nat) (r : kern S) : kern S :=
  Kern (store r) (mounts r) (inodes r) (time r) (updlock r) (rablock r) (u_error r) (u_uid r)
  (u_gid r) (u_cmask r) (u_pdir r) (u_base r) (u_count r) (u_offset r) (u_segflg r) (umem r) (umap
  r) (kmem r) (u_cdir r) (u_rdir r) (rootdir r) (u_dbuf r) (u_dent r) (u_dirp r) (files r)
  (u_ofile r) (u_pofile r) (u_r_val1 r) (u_r_val2 r) (u_acflag r) (u_ruid r) (u_rgid r) (p_uid r)
  (p_pid r) (p_ppid r) (p_nice r) (p_clktim r) (texts r) (swapmap r) v (lbolt r) (psignals r)
  (printfs r) (prdevs r) (wakes r).
Definition set_lbolt {S : Type} (v : Z) (r : kern S) : kern S :=
  Kern (store r) (mounts r) (inodes r) (time r) (updlock r) (rablock r) (u_error r) (u_uid r)
  (u_gid r) (u_cmask r) (u_pdir r) (u_base r) (u_count r) (u_offset r) (u_segflg r) (umem r) (umap
  r) (kmem r) (u_cdir r) (u_rdir r) (rootdir r) (u_dbuf r) (u_dent r) (u_dirp r) (files r)
  (u_ofile r) (u_pofile r) (u_r_val1 r) (u_r_val2 r) (u_acflag r) (u_ruid r) (u_rgid r) (p_uid r)
  (p_pid r) (p_ppid r) (p_nice r) (p_clktim r) (texts r) (swapmap r) (mpxip r) v (psignals r)
  (printfs r) (prdevs r) (wakes r).
Definition set_psignals {S : Type} (v : list Z) (r : kern S) : kern S :=
  Kern (store r) (mounts r) (inodes r) (time r) (updlock r) (rablock r) (u_error r) (u_uid r)
  (u_gid r) (u_cmask r) (u_pdir r) (u_base r) (u_count r) (u_offset r) (u_segflg r) (umem r) (umap
  r) (kmem r) (u_cdir r) (u_rdir r) (rootdir r) (u_dbuf r) (u_dent r) (u_dirp r) (files r)
  (u_ofile r) (u_pofile r) (u_r_val1 r) (u_r_val2 r) (u_acflag r) (u_ruid r) (u_rgid r) (p_uid r)
  (p_pid r) (p_ppid r) (p_nice r) (p_clktim r) (texts r) (swapmap r) (mpxip r) (lbolt r) v
  (printfs r) (prdevs r) (wakes r).
Definition set_printfs {S : Type} (v : list string) (r : kern S) : kern S :=
  Kern (store r) (mounts r) (inodes r) (time r) (updlock r) (rablock r) (u_error r) (u_uid r)
  (u_gid r) (u_cmask r) (u_pdir r) (u_base r) (u_count r) (u_offset r) (u_segflg r) (umem r) (umap
  r) (kmem r) (u_cdir r) (u_rdir r) (rootdir r) (u_dbuf r) (u_dent r) (u_dirp r) (files r)
  (u_ofile r) (u_pofile r) (u_r_val1 r) (u_r_val2 r) (u_acflag r) (u_ruid r) (u_rgid r) (p_uid r)
  (p_pid r) (p_ppid r) (p_nice r) (p_clktim r) (texts r) (swapmap r) (mpxip r) (lbolt r) (psignals
  r) v (prdevs r) (wakes r).
Definition set_prdevs {S : Type} (v : list (string * Z)) (r : kern S) : kern S :=
  Kern (store r) (mounts r) (inodes r) (time r) (updlock r) (rablock r) (u_error r) (u_uid r)
  (u_gid r) (u_cmask r) (u_pdir r) (u_base r) (u_count r) (u_offset r) (u_segflg r) (umem r) (umap
  r) (kmem r) (u_cdir r) (u_rdir r) (rootdir r) (u_dbuf r) (u_dent r) (u_dirp r) (files r)
  (u_ofile r) (u_pofile r) (u_r_val1 r) (u_r_val2 r) (u_acflag r) (u_ruid r) (u_rgid r) (p_uid r)
  (p_pid r) (p_ppid r) (p_nice r) (p_clktim r) (texts r) (swapmap r) (mpxip r) (lbolt r) (psignals
  r) (printfs r) v (wakes r).
Definition set_wakes {S : Type} (v : list chan) (r : kern S) : kern S :=
  Kern (store r) (mounts r) (inodes r) (time r) (updlock r) (rablock r) (u_error r) (u_uid r)
  (u_gid r) (u_cmask r) (u_pdir r) (u_base r) (u_count r) (u_offset r) (u_segflg r) (umem r) (umap
  r) (kmem r) (u_cdir r) (u_rdir r) (rootdir r) (u_dbuf r) (u_dent r) (u_dirp r) (files r)
  (u_ofile r) (u_pofile r) (u_r_val1 r) (u_r_val2 r) (u_acflag r) (u_ruid r) (u_rgid r) (p_uid r)
  (p_pid r) (p_ppid r) (p_nice r) (p_clktim r) (texts r) (swapmap r) (mpxip r) (lbolt r) (psignals
  r) (printfs r) (prdevs r) v.

(** Nothing mounted, nothing open. *)
Definition kern0 {S : Type} (st : S) : kern S :=
  Kern st [] [] 0 0 0 0 0 0 0 None 0 0 0 0 (fun _ => 0) (fun _ => false) (fun _ => 0) O None O []
  [] 0 [] [] [] 0 0 0 0 0 0 0 0 0 0 [] [] None 0 [] [] [] [].

(** ** The buffer cache, as the file system sees it

    A logical store of blocks of [BSIZEW] words.  Reading may fail, always on the
    same blocks; [bs_getblk] gives a buffer for a block without reading it, so
    its contents are whatever they are; a write, synchronous or delayed, is
    visible to every later read; [bs_drop] releases a buffer that was changed and not
    written, which the cache may or may not show again. *)

Inductive how := Sync | Delayed | Async.

Class BlockStore (S : Type) := {
  bs_get : S -> Z -> Z -> list Z;
  bs_fails : S -> Z -> Z -> bool;
  bs_read : Z -> Z -> S -> list Z * S;
  bs_getblk : Z -> Z -> S -> list Z * S;
  bs_write : how -> Z -> Z -> list Z -> S -> S;
  bs_drop : Z -> Z -> list Z -> S -> S;
  bs_read_get : forall d b s, bs_fails s d b = false -> (bs_read d b s).1 = bs_get s d b;
  bs_read_pure : forall d b s d' b', bs_get (bs_read d b s).2 d' b' = bs_get s d' b';
  bs_getblk_pure : forall d b s d' b', bs_get (bs_getblk d b s).2 d' b' = bs_get s d' b';
  bs_getblk_len : forall d b s, length (bs_getblk d b s).1 = 512%nat;
  bs_write_get : forall h d b x s d' b',
    bs_get (bs_write h d b x s) d' b' = if (d' =? d) && (b' =? b) then x else bs_get s d' b';
  bs_drop_get : forall d b x s d' b', bs_get (bs_drop d b x s) d' b' = bs_get s d' b' \/
    (d' = d /\ b' = b /\ bs_get (bs_drop d b x s) d' b' = x);
  bs_read_fails : forall d b s d' b', bs_fails (bs_read d b s).2 d' b' = bs_fails s d' b';
  bs_getblk_fails : forall d b s d' b', bs_fails (bs_getblk d b s).2 d' b' = bs_fails s d' b';
  bs_write_fails : forall h d b x s d' b', bs_fails (bs_write h d b x s) d' b' = bs_fails s d' b';
  bs_drop_fails : forall d b x s d' b', bs_fails (bs_drop d b x s) d' b' = bs_fails s d' b';
}.

(** A store that is a function and a set of bad blocks. *)
Record fstore := Fstore { f_get : Z -> Z -> list Z; f_bad : Z -> Z -> bool }.
#[global, refine] Instance fstore_store : BlockStore fstore := {|
  bs_get := f_get;
  bs_fails := f_bad;
  bs_read := fun d b s => (f_get s d b, s);
  bs_getblk := fun d b s => (replicate 512 0, s);
  bs_write := fun _ d b x s =>
    Fstore (fun d' b' => if (d' =? d) && (b' =? b) then x else f_get s d' b') (f_bad s);
  bs_drop := fun d b x s =>
    Fstore (fun d' b' => if (d' =? d) && (b' =? b) then x else f_get s d' b') (f_bad s);
|}.
Proof.
  all: try done. intros d b x s d' b'. simpl. destruct (Z.eqb_spec d' d), (Z.eqb_spec b' b); auto.
Defined.

(** ** Computations *)

Inductive kres (S A : Type) : Type :=
  | Done (a : A) (s : kern S)
  | Sleeps (c : chan) (s : kern S)     (* gives the processor away on [c] *)
  | KPanic (msg : string)
  | KWild
  | KNoFuel.
Arguments Done {S A} a s.
Arguments Sleeps {S A} c s.
Arguments KPanic {S A} msg.
Arguments KWild {S A}.
Arguments KNoFuel {S A}.

Definition K (S A : Type) : Type := kern S -> kres S A.

#[global] Instance k_ret {S} : MRet (K S) := fun A a s => Done a s.
#[global] Instance k_bind {S} : MBind (K S) := fun A B f m s =>
  match m s with
  | Done a s => f a s
  | Sleeps c s => Sleeps c s
  | KPanic msg => KPanic msg
  | KWild => KWild
  | KNoFuel => KNoFuel
  end.

Definition gets {S A} (f : kern S -> A) : K S A := fun s => Done (f s) s.
Definition puts {S} (f : kern S -> kern S) : K S unit := fun s => Done tt (f s).
Definition sleep {S A} (c : chan) : K S A := fun s => Sleeps c s.
Definition panic {S A} (msg : string) : K S A := fun _ => KPanic msg.
Definition wild {S A} : K S A := fun _ => KWild.
Definition nofuel {S A} : K S A := fun _ => KNoFuel.
Definition at_ {S A} (l : list A) (i : nat) : K S A := match l !! i with Some x => mret x | None => wild end.

Definition wakeup {S} (c : chan) : K S unit := puts (fun s => set_wakes (wakes s ++ [c]) s).
Definition prdev {S} (msg : string) (dev : Z) : K S unit := puts (fun s => set_prdevs (prdevs s ++ [(msg, dev)]) s).
Definition printf {S} (msg : string) : K S unit := puts (fun s => set_printfs (printfs s ++ [msg]) s).
Definition psignal_self {S} (sig : Z) : K S unit := puts (fun s => set_psignals (psignals s ++ [sig]) s).
Definition error {S} (e : Z) : K S unit := puts (set_u_error e).

(** ** Buffers

    A buffer is held by one process from [bread] or [getblk] to its release, so
    it is a value here. *)

Record buf := Buf { b_dev : Z; b_blkno : Z; b_data : list Z; b_err : bool }.

Section Buffers.
Context {S : Type} `{BlockStore S}.

(** On an error [iowait] has [geterror] set [u.u_error]. *)
Definition bread (dev bno : Z) : K S buf := fun s =>
  let bad := bs_fails (store s) dev bno in
  let '(data, st) := bs_read dev bno (store s) in
  let s := set_store st s in
  Done (Buf dev bno data bad) (if bad then set_u_error EIO s else s).

Definition getblk (dev bno : Z) : K S buf := fun s =>
  let '(data, st) := bs_getblk dev bno (store s) in
  Done (Buf dev bno data false) (set_store st s).

Definition bput (h : how) (b : buf) : K S unit :=
  puts (fun s => set_store (bs_write h (b_dev b) (b_blkno b) (b_data b) (store s)) s).
Definition bwrite : buf -> K S unit := bput Sync.
Definition bdwrite : buf -> K S unit := bput Delayed.
Definition bawrite : buf -> K S unit := bput Async.
Definition brelse (b : buf) : K S unit := mret tt.
(** [brelse] of a buffer whose contents were changed. *)
Definition bdrop (b : buf) : K S unit :=
  puts (fun s => set_store (bs_drop (b_dev b) (b_blkno b) (b_data b) (store s)) s).
(** It starts the writes that are due; no block reads differently for it. *)
Definition bflush (dev : Z) : K S unit := mret tt.

Definition clrbuf (b : buf) : buf := Buf (b_dev b) (b_blkno b) (replicate (Z.to_nat BSIZEW) 0) (b_err b).
End Buffers.
