(* ===== verification/Alloc.v ===== *)
(** * Free blocks: [getfs], [badblock], [sbcheck], [alloc] and [free] of
    [kernel/alloc.c]

    The superblock in core holds up to [NICFREE] free block numbers; entry 0
    names a free block whose first words hold the next batch, or is 0. *)

From S2P Require Import Prelude Param Kern.

Section Alloc.
Context {S : Type} `{BlockStore S}.

(** ** The superblock of a device *)

Fixpoint find_mount (i : nat) (l : list mount) (dev : Z) : option nat :=
  match l with
  | [] => None
  | m :: l => if bool_decide (m_bufp m <> None) && (m_dev m =? dev) then Some i else find_mount (i + 1) l dev
  end.

(** The superblock [fp] points to is the one in entry [mp] of the mount table. *)
Definition fp (mp : nat) : K S filsys :=
  l ← gets mounts; m ← at_ l mp;
  match m_bufp m with Some f => mret f | None => wild end.
Definition modfp (mp : nat) (f : filsys -> filsys) : K S unit :=
  puts (fun s => set_mounts (alter (fun m => set_m_bufp (f <$> m_bufp m) m) mp (mounts s)) s).

Definition getfs (dev : Z) : K S nat :=
  l ← gets mounts;
  match find_mount 0 l dev with
  | None => panic "no fs"
  | Some mp =>
      f ← fp mp;
      (if (NICFREE <? s_nfree f) || (NICINOD <? s_ninode f)
       then prdev "bad count" dev;; modfp mp (fun f => set_s_ninode 0 (set_s_nfree 0 f))
       else mret tt);;
      mret mp
  end.

Definition badblock (mp : nat) (bn dev : Z) : K S bool :=
  f ← fp mp;
  if (bn <? s_isize f) || (s_fsize f <=? bn) then prdev "bad block" dev;; mret true else mret false.

(** The mount-time test; 0 is a plausible superblock. *)
Definition sbcheck (f : filsys) (dev : Z) : K S Z :=
  if negb (s_magic f =? FS_MAGIC) then prdev "not a filesystem" dev;; mret 1
  else if negb (s_bsize f =? BSIZEW) || negb (s_inopb f =? INOPB) || negb (s_naddr f =? NADDR)
  then prdev "filesystem geometry mismatch" dev;; mret 1
  else if (s_isize f <=? SUPERB) || (s_fsize f <=? s_isize f)
  then prdev "bad filesystem size" dev;; mret 1
  else if (s_nfree f <? 0) || (NICFREE <? s_nfree f) || (s_ninode f <? 0) || (NICINOD <? s_ninode f)
  then prdev "bad free count" dev;; mret 1
  else mret 0.

(** ** [alloc] *)

Definition nospace (mp : nat) (dev : Z) : K S (option buf) :=
  modfp mp (fun f => set_s_fmod 1 (set_s_tfree 0 (set_s_nfree 0 f)));;
  prdev "no space" dev;; error ENOSPC;; mret None.

(** The [do ... while (badblock(...))] loop: [None] goes to [nospace].  Fuel: every
    turn takes an entry off the list. *)
Fixpoint pop_free (fuel : nat) (mp : nat) (dev : Z) : K S (option Z) :=
  f ← fp mp;
  if s_nfree f <=? 0 then mret None
  else if NICFREE <? s_nfree f then prdev "Bad free count" dev;; mret None
  else
    match fuel with
    | O => nofuel
    | Datatypes.S fuel =>
        modfp mp (set_s_nfree (s_nfree f - 1));;
        bno ← at_ (s_free f) (Z.to_nat (s_nfree f - 1));
        if bno =? 0 then mret None
        else
          bad ← badblock mp bno dev;
          if (bad : bool) then pop_free fuel mp dev else mret (Some bno)
    end.

(** Refill the list from the block [bno] just taken. *)
Definition refill (mp : nat) (dev bno : Z) : K S unit :=
  modfp mp (fun f => set_s_flock (s_flock f + 1) f);;
  bp ← bread dev bno;
  (if b_err bp then mret tt
   else
     n ← at_ (b_data bp) 0;
     modfp mp (fun f => set_s_free (take 320 (drop 1 (b_data bp))) (set_s_nfree n f)));;
  brelse bp;;
  modfp mp (set_s_flock 0);;
  wakeup (ChFlock dev).

Definition alloc (dev : Z) : K S (option buf) :=
  mp ← getfs dev;
  f ← fp mp;
  if negb (s_flock f =? 0) then sleep (ChFlock dev)
  else
    got ← pop_free (Z.to_nat NICFREE) mp dev;
    match got with
    | None => nospace mp dev
    | Some bno =>
        f ← fp mp;
        (if s_nfree f <=? 0 then refill mp dev bno else mret tt);;
        f' ← fp mp;
        if (s_nfree f <=? 0) && (s_nfree f' <=? 0) then nospace mp dev
        else
          bp ← getblk dev bno;
          modfp mp (fun f => set_s_tfree (s_tfree f - 1) (set_s_fmod 1 f));;
          mret (Some (clrbuf bp))
    end.

(** ** [free] *)

(** Write the full list into the block [bno] and start a new one. *)
Definition spill (mp : nat) (dev bno : Z) : K S unit :=
  modfp mp (fun f => set_s_flock (s_flock f + 1) f);;
  bp ← getblk dev bno;
  f ← fp mp;
  let data := s_nfree f :: s_free f ++ replicate 191 0 in
  modfp mp (set_s_nfree 0);;
  bwrite (Buf (b_dev bp) (b_blkno bp) data (b_err bp));;
  modfp mp (set_s_flock 0);;
  wakeup (ChFlock dev).

(** The last step of [free]: [fp->s_free[fp->s_nfree++] = bno], and one more free block. *)
Definition put_last (b : Z) (f : filsys) : filsys :=
  set_s_fmod 1 (set_s_tfree (s_tfree f + 1)
    (set_s_nfree (s_nfree f + 1) (set_s_free (<[Z.to_nat (s_nfree f) := b]> (s_free f)) f))).

Definition free (dev bno : Z) : K S unit :=
  mp ← getfs dev;
  modfp mp (set_s_fmod 1);;
  f ← fp mp;
  if negb (s_flock f =? 0) then sleep (ChFlock dev)
  else
    bad ← badblock mp bno dev;
    if (bad : bool) then mret tt
    else
      (if s_nfree f <=? 0 then modfp mp (fun f => set_s_free (<[0%nat := 0]> (s_free f)) (set_s_nfree 1 f))
       else mret tt);;
      f ← fp mp;
      (if NICFREE <=? s_nfree f then spill mp dev bno else mret tt);;
      f ← fp mp;
      _ ← at_ (s_free f) (Z.to_nat (s_nfree f));
      modfp mp (put_last bno).

(** ** Access to a mounted superblock *)

(** [dev] is mounted in entry [mp] with superblock [f]. *)
Definition mounted (dev : Z) (mp : nat) (f : filsys) (s : kern S) : Prop :=
  find_mount 0 (mounts s) dev = Some mp /\ exists m, mounts s !! mp = Some m /\ m_bufp m = Some f.

Definition upd (mp : nat) (g : filsys -> filsys) (s : kern S) : kern S :=
  set_mounts (alter (fun m => set_m_bufp (g <$> m_bufp m) m) mp (mounts s)) s.

Lemma find_mount_alter i l dev g mp :
  find_mount i (alter (fun m => set_m_bufp (g <$> m_bufp m) m) mp l) dev = find_mount i l dev.
Proof.
  revert i mp. induction l as [|m l IH]; intros i [|mp]; simpl; try done.
  - by destruct (m_bufp m).
  - unfold alter in IH. by rewrite IH.
Qed.

Lemma mounted_upd dev mp f g s : mounted dev mp f s -> mounted dev mp (g f) (upd mp g s).
Proof.
  intros [Hf (m & Hm & Hb)]. split; [simpl; by rewrite find_mount_alter|].
  exists (set_m_bufp (Some (g f)) m). simpl. rewrite list_lookup_alter_eq, Hm. simpl. by rewrite Hb.
Qed.

Lemma mounted_same dev mp f s s' : mounted dev mp f s -> mounts s' = mounts s -> mounted dev mp f s'.
Proof. unfold mounted. by intros ? ->. Qed.

Lemma fp_run dev mp f s : mounted dev mp f s -> fp mp s = Done f s.
Proof.
  intros [_ (m & Hm & Hb)]. unfold fp, mbind, k_bind, gets, at_. rewrite Hm. unfold mret, k_ret. by rewrite Hb.
Qed.

Lemma kbind_run {A B} (m : K S A) (f : A -> K S B) a s s' : m s = Done a s' -> (m ≫= f) s = f a s'.
Proof. unfold mbind, k_bind. by intros ->. Qed.

Lemma kret_run {A B} (a : A) (f : A -> K S B) s : (mret a ≫= f) s = f a s.
Proof. done. Qed.

Lemma modfp_run mp g s : modfp mp g s = Done tt (upd mp g s).
Proof. done. Qed.

(** Step over the first computation of a bind, given what it returns. *)
Ltac step_with H := rewrite (kbind_run _ _ _ _ _ H).

Lemma getfs_run dev mp f s : mounted dev mp f s -> s_nfree f <= NICFREE -> s_ninode f <= NICINOD ->
  getfs dev s = Done mp s.
Proof.
  intros Hm Hn Hi. unfold getfs, mbind at 1, k_bind at 1, gets. pose proof Hm as [-> _].
  step_with (fp_run dev mp f s Hm). destruct (Z.ltb_spec NICFREE (s_nfree f)); [lia|].
  by destruct (Z.ltb_spec NICINOD (s_ninode f)); [lia|].
Qed.

Lemma badblock_run dev mp f s bn : mounted dev mp f s -> s_isize f <= bn < s_fsize f ->
  badblock mp bn dev s = Done false s.
Proof.
  intros Hm Hb. unfold badblock. step_with (fp_run dev mp f s Hm).
  destruct (Z.ltb_spec bn (s_isize f)), (Z.leb_spec (s_fsize f) bn); lia || done.
Qed.

(** ** The free list *)

(** [batch] is the list in hand, entry 0 first; the blocks come off it in the
    order of the second list.  [g] gives a block's contents. *)
Inductive chained (g : Z -> list Z) : list Z -> list Z -> Prop :=
  | ch_end tl : chained g (0 :: tl) (rev tl)
  | ch_more b tl n data L : b <> 0 -> g b = n :: data -> 1 <= n <= NICFREE -> (320 <= length data)%nat ->
      chained g (take (Z.to_nat n) data) L -> chained g (b :: tl) (rev tl ++ b :: L).

Lemma chained_ext g g' batch L : chained g batch L -> (forall b, b ∈ L -> g' b = g b) -> chained g' batch L.
Proof.
  induction 1 as [|b tl n data L Hb Hg Hn Hl Hc IH]; intros Hext; [constructor|].
  econstructor; [done|rewrite Hext by set_solver; done|done|done|]. apply IH. set_solver.
Qed.

(** The free blocks of [dev], in the order [alloc] gives them out. *)
Definition free_blocks (dev : Z) (f : filsys) (s : kern S) (L : list Z) : Prop :=
  length (s_free f) = 320%nat /\ s_ninode f <= NICINOD /\
  ((s_nfree f = 0 /\ L = []) \/
   (1 <= s_nfree f <= NICFREE /\
    chained (bs_get (store s) dev) (take (Z.to_nat (s_nfree f)) (s_free f)) L)) /\
  NoDup L /\ 0 < s_isize f /\ (forall b, b ∈ L -> s_isize f <= b < s_fsize f).

Lemma batch_last (l : list Z) n : 2 <= n -> (Z.to_nat n <= length l)%nat ->
  exists h tl x, take (Z.to_nat n) l = h :: tl ++ [x] /\ take (Z.to_nat (n - 1)) l = h :: tl /\
    l !! Z.to_nat (n - 1) = Some x.
Proof.
  intros Hn Hl. destruct (lookup_lt_is_Some_2 l (Z.to_nat (n - 1))) as [x Hx]; [lia|].
  destruct l as [|h l]; [simpl in Hl; lia|].
  exists h, (take (Z.to_nat (n - 2)) l), x.
  replace (Z.to_nat n) with (Datatypes.S (Z.to_nat (n - 1))) by lia.
  replace (Z.to_nat (n - 1)) with (Datatypes.S (Z.to_nat (n - 2))) in * by lia. simpl in Hx.
  split_and!; [|done|done]. simpl. f_equal. by apply take_S_r.
Qed.

(** Taking the last entry. *)
Lemma pop_free_run dev mp f s k x : mounted dev mp f s -> 1 <= s_nfree f <= NICFREE ->
  s_free f !! Z.to_nat (s_nfree f - 1) = Some x -> x <> 0 -> s_isize f <= x < s_fsize f ->
  pop_free (Datatypes.S k) mp dev s = Done (Some x) (upd mp (set_s_nfree (s_nfree f - 1)) s).
Proof.
  intros Hm Hn Hx Hx0 Hr. simpl. step_with (fp_run dev mp f s Hm).
  destruct (Z.leb_spec (s_nfree f) 0); [lia|]. destruct (Z.ltb_spec NICFREE (s_nfree f)); [lia|].
  step_with (modfp_run mp (set_s_nfree (s_nfree f - 1)) s).
  unfold mbind at 1, k_bind at 1, at_. rewrite Hx. unfold mret at 1, k_ret at 1.
  destruct (Z.eqb_spec x 0); [done|].
  pose proof (mounted_upd _ _ _ (set_s_nfree (s_nfree f - 1)) _ Hm) as Hm'.
  by step_with (badblock_run dev mp _ _ x Hm' Hr).
Qed.

(** The end of the list: entry 0 is 0. *)
Lemma pop_free_end dev mp f s k : mounted dev mp f s -> s_nfree f = 1 -> s_free f !! 0%nat = Some 0 ->
  pop_free (Datatypes.S k) mp dev s = Done None (upd mp (set_s_nfree 0) s).
Proof.
  intros Hm Hn H0. simpl. step_with (fp_run dev mp f s Hm). rewrite Hn.
  change (1 <=? 0) with false. change (NICFREE <? 1) with false. cbv iota.
  step_with (modfp_run mp (set_s_nfree (1 - 1)) s). unfold mbind at 1, k_bind at 1, at_.
  change (Z.to_nat (1 - 1)) with 0%nat. by rewrite H0.
Qed.

Lemma bread_run dev b s : bs_fails (store s) dev b = false ->
  bread dev b s = Done (Buf dev b (bs_get (store s) dev b) false) (set_store (bs_read dev b (store s)).2 s).
Proof.
  intros Hb. unfold bread. rewrite <- (bs_read_get dev b (store s) Hb).
  destruct (bs_read dev b (store s)) as [data st]. by rewrite Hb.
Qed.

Lemma getblk_run dev b s :
  getblk dev b s = Done (Buf dev b (bs_getblk dev b (store s)).1 false) (set_store (bs_getblk dev b (store s)).2 s).
Proof. unfold getblk. by destruct (bs_getblk dev b (store s)). Qed.

Lemma refill_run dev mp f s b n data : mounted dev mp f s -> bs_fails (store s) dev b = false ->
  bs_get (store s) dev b = n :: data ->
  exists s', refill mp dev b s = Done tt s' /\
    mounted dev mp (set_s_flock 0 (set_s_free (take 320 data) (set_s_nfree n f))) s' /\
    store s' = (bs_read dev b (store s)).2 /\ inodes s' = inodes s /\ u_error s' = u_error s /\
    prdevs s' = prdevs s /\ wakes s' = wakes s ++ [ChFlock dev].
Proof.
  intros Hm Hb Hg. unfold refill. eexists. split.
  - step_with (modfp_run mp (fun f => set_s_flock (s_flock f + 1) f) s).
    rewrite (kbind_run _ _ _ _ _ (bread_run dev b (upd mp (fun f => set_s_flock (s_flock f + 1) f) s) Hb)).
    cbn [b_err b_data]. cbn [store upd set_mounts]. rewrite Hg. reflexivity.
  - split; [|done].
    pose proof (mounted_upd _ _ _ (fun f => set_s_flock (s_flock f + 1) f) _ Hm) as Hm'.
    eapply (mounted_upd _ _ _ (fun f => set_s_free (take 320 data) (set_s_nfree n f))) in Hm'.
    eapply (mounted_upd _ _ _ (set_s_flock 0)) in Hm'.
    eapply mounted_same; [exact Hm'|done].
Qed.

(** What an operation on the free list leaves alone. *)
Definition same_files (s s' : kern S) : Prop :=
  (forall d b, bs_get (store s') d b = bs_get (store s) d b) /\
  (forall d b, bs_fails (store s') d b = bs_fails (store s) d b) /\
  inodes s' = inodes s /\ prdevs s' = prdevs s.

Lemma free_blocks_cons dev f s x L : free_blocks dev f s (x :: L) ->
  1 <= s_nfree f <= NICFREE /\ s_free f !! Z.to_nat (s_nfree f - 1) = Some x /\ x <> 0 /\
  s_isize f <= x < s_fsize f /\ (x ∉ L) /\
  ((2 <= s_nfree f /\ chained (bs_get (store s) dev) (take (Z.to_nat (s_nfree f - 1)) (s_free f)) L) \/
   (s_nfree f = 1 /\ exists n data, bs_get (store s) dev x = n :: data /\ 1 <= n <= NICFREE /\
      (320 <= length data)%nat /\ chained (bs_get (store s) dev) (take (Z.to_nat n) data) L)).
Proof.
  intros (Hl & _ & [[_ [=]]|[Hn Hc]] & [HxL Hnd]%NoDup_cons & Hi & Hr).
  assert (Hx := Hr x ltac:(set_solver)). split_and!; try lia; try done.
  - destruct (decide (s_nfree f = 1)) as [E|].
    + rewrite E in *. destruct (s_free f) as [|h tl]; [simpl in Hl; lia|].
      change (take (Z.to_nat 1) (h :: tl)) with [h] in Hc. by inversion Hc; subst.
    + destruct (batch_last (s_free f) (s_nfree f)) as (h & tl & y & E & _ & Hy); [lia|unfold NICFREE in *; lia|].
      rewrite E in Hc. inversion Hc as [? E1|? ? ? ? ? ? ? ? ? ? E1]; subst; rewrite rev_unit in *; simplify_eq/=;
        done.
  - destruct (decide (s_nfree f = 1)) as [E|]; [right|left].
    + split; [done|]. rewrite E in *. destruct (s_free f) as [|h tl]; [simpl in Hl; lia|].
      change (take (Z.to_nat 1) (h :: tl)) with [h] in Hc. inversion Hc; subst. eauto 10.
    + split; [lia|].
      destruct (batch_last (s_free f) (s_nfree f)) as (h & tl & y & E & -> & Hy); [lia|unfold NICFREE in *; lia|].
      rewrite E in Hc. inversion Hc; subst; rewrite rev_unit in *; simplify_eq/=; econstructor; eauto.
Qed.

Lemma alloc_run dev mp f s x L : mounted dev mp f s -> free_blocks dev f s (x :: L) -> s_flock f = 0 ->
  (forall b, b ∈ x :: L -> bs_fails (store s) dev b = false) ->
  exists s' f', alloc dev s = Done (Some (Buf dev x (replicate 512 0) false)) s' /\ mounted dev mp f' s' /\
    free_blocks dev f' s' L /\ s_tfree f' = s_tfree f - 1 /\ s_flock f' = 0 /\ s_fmod f' = 1 /\
    (x ∉ L) /\ same_files s s' /\ u_error s' = u_error s.
Proof.
  intros Hm HF Hlk Hrd. destruct (free_blocks_cons _ _ _ _ _ HF) as (Hn & Hx & Hx0 & Hr & HxL & Hcase).
  destruct HF as (Hl & Hi & _ & [_ Hnd]%NoDup_cons & His & Hrng).
  assert (HrL : forall b, b ∈ L -> s_isize f <= b < s_fsize f) by (intros; apply Hrng; set_solver).
  unfold alloc. step_with (getfs_run dev mp f s Hm ltac:(lia) Hi). step_with (fp_run dev mp f s Hm).
  rewrite Hlk. cbn [Z.eqb negb]. change (Z.to_nat NICFREE) with 320%nat.
  step_with (pop_free_run dev mp f s 319 x Hm Hn Hx Hx0 Hr). cbv beta iota.
  pose proof (mounted_upd _ _ _ (set_s_nfree (s_nfree f - 1)) _ Hm) as Hm1.
  step_with (fp_run dev mp _ _ Hm1).
  change (s_nfree (set_s_nfree (s_nfree f - 1) f)) with (s_nfree f - 1).
  destruct Hcase as [[Hn2 Hc]|(Hn1 & n & data & Hg & Hnn & Hld & Hc)].
  - destruct (Z.leb_spec (s_nfree f - 1) 0); [lia|]. cbv iota.
    rewrite kret_run. step_with (fp_run dev mp _ _ Hm1). cbn [andb].
    step_with (getblk_run dev x (upd mp (set_s_nfree (s_nfree f - 1)) s)).
    match goal with |- context [modfp mp ?g] => pose proof (mounted_upd _ _ _ g _ Hm1) as Hm2 end.
    eexists _, _. split; [reflexivity|]. split; [eapply mounted_same; [exact Hm2|done]|].
    split_and!; try done.
    + split; [done|]. split; [done|]. split_and!; try done. right. split; [simpl; lia|]. simpl.
      eapply chained_ext; [exact Hc|]. intros b _. apply bs_getblk_pure.
    + split_and!; try done; intros; [apply bs_getblk_pure|apply bs_getblk_fails].
  - destruct (Z.leb_spec (s_nfree f - 1) 0); [|lia]. cbv iota.
    destruct (refill_run dev mp _ _ x n data Hm1) as (s1 & Hrf & Hm2 & Hst & Hin & Hue & Hpr & _);
      [apply Hrd; set_solver|done|].
    step_with Hrf. step_with (fp_run dev mp _ _ Hm2). change (s_nfree (set_s_flock 0 _)) with n.
    destruct (Z.leb_spec n 0); [lia|]. cbn [andb]. step_with (getblk_run dev x s1).
    match goal with |- context [modfp mp ?g] => pose proof (mounted_upd _ _ _ g _ Hm2) as Hm3 end.
    assert (Hget : forall d b, bs_get (bs_getblk dev x (store s1)).2 d b = bs_get (store s) d b).
    { intros. by rewrite bs_getblk_pure, Hst, bs_read_pure. }
    eexists _, _. split; [reflexivity|]. split; [eapply mounted_same; [exact Hm3|done]|].
    split_and!; try done.
    + split; [simpl; rewrite length_take; lia|]. split; [done|]. split_and!; try done. right. split; [simpl; lia|].
      simpl. rewrite take_take, Nat.min_l by (unfold NICFREE in *; lia).
      eapply chained_ext; [exact Hc|]. intros b _. apply Hget.
    + split_and!; try done. intros; simpl. by rewrite bs_getblk_fails, Hst, bs_read_fails.
Qed.

(** An empty list: no space. *)
Lemma alloc_none dev mp f s : mounted dev mp f s -> free_blocks dev f s [] -> s_flock f = 0 ->
  exists s' f', alloc dev s = Done None s' /\ mounted dev mp f' s' /\ free_blocks dev f' s' [] /\
    s_tfree f' = 0 /\ s_flock f' = 0 /\ u_error s' = ENOSPC /\ store s' = store s /\ inodes s' = inodes s /\
    s_fmod f' = 1.
Proof.
  intros Hm (Hl & Hi & Hc & _ & His & _) Hlk.
  assert (Hpop : exists g, pop_free 320 mp dev s = Done None (upd mp g s) /\ s_isize (g f) = s_isize f /\
    s_free (g f) = s_free f /\ s_ninode (g f) = s_ninode f /\ s_flock (g f) = 0 /\ s_nfree f <= NICFREE).
  { destruct Hc as [[Hn _]|[Hn Hc]].
    - exists id. simpl. step_with (fp_run dev mp f s Hm). rewrite Hn. split; [|done].
      cbn [Z.leb Z.compare]. unfold mret, k_ret. f_equal. unfold upd. destruct s; simpl. f_equal.
      rewrite list_alter_id; [done|]. intros [? [?|] ?]; done.
    - exists (set_s_nfree 0). split; [|by split_and!; try lia].
      destruct (decide (s_nfree f = 1)) as [E|].
      + apply (pop_free_end dev mp f s 319 Hm E). rewrite E in Hc. destruct (s_free f) as [|h tl]; [done|].
        change (take (Z.to_nat 1) (h :: tl)) with [h] in Hc. by inversion Hc; subst.
      + destruct (batch_last (s_free f) (s_nfree f)) as (h & tl & y & E & _ & Hy); [lia|unfold NICFREE in *; lia|].
        rewrite E in Hc. inversion Hc as [? E1 E2|? ? ? ? ? ? ? ? ? ? E1 E2]; subst; rewrite rev_unit in *; done. }
  destruct Hpop as (g & Hpop & G1 & G2 & G3 & G4 & Hn). unfold alloc.
  step_with (getfs_run dev mp f s Hm ltac:(lia) Hi). step_with (fp_run dev mp f s Hm).
  rewrite Hlk. cbn [Z.eqb negb]. change (Z.to_nat NICFREE) with 320%nat. step_with Hpop. unfold nospace.
  pose proof (mounted_upd _ _ _ g _ Hm) as Hm1.
  match goal with |- context [modfp mp ?g] => pose proof (mounted_upd _ _ _ g _ Hm1) as Hm2 end.
  eexists _, _. split; [reflexivity|]. split; [eapply mounted_same; [exact Hm2|done]|].
  split_and!; try done. unfold free_blocks. cbn [s_free s_ninode s_nfree s_isize set_s_fmod set_s_tfree set_s_nfree].
  rewrite G1, G2, G3. split_and!; [done|done|by left|constructor|done|]. by intros ? ?%not_elem_of_nil.
Qed.

Lemma chained_snoc g batch L b : chained g batch L -> chained g (batch ++ [b]) (b :: L).
Proof.
  destruct 1; cbn [app]; [rewrite <- rev_unit; constructor|].
  rewrite (app_comm_cons (rev _)), <- rev_unit. by econstructor.
Qed.

Lemma chained_nonempty g batch L : chained g batch L -> batch <> [].
Proof. by destruct 1. Qed.

Lemma spill_run dev mp f s b : mounted dev mp f s ->
  exists s', spill mp dev b s = Done tt s' /\ mounted dev mp (set_s_flock 0 (set_s_nfree 0 f)) s' /\
    (forall d' b', bs_get (store s') d' b' = if (d' =? dev) && (b' =? b)
       then s_nfree f :: s_free f ++ replicate 191 0 else bs_get (store s) d' b') /\
    (forall d' b', bs_fails (store s') d' b' = bs_fails (store s) d' b') /\
    inodes s' = inodes s /\ u_error s' = u_error s /\ prdevs s' = prdevs s /\ wakes s' = wakes s ++ [ChFlock dev].
Proof.
  intros Hm. unfold spill. step_with (modfp_run mp (fun f => set_s_flock (s_flock f + 1) f) s).
  pose proof (mounted_upd _ _ _ (fun f => set_s_flock (s_flock f + 1) f) _ Hm) as Hm1.
  step_with (getblk_run dev b (upd mp (fun f => set_s_flock (s_flock f + 1) f) s)).
  eapply mounted_same in Hm1; [step_with (fp_run dev mp _ _ Hm1)|done].
  pose proof (mounted_upd _ _ _ (set_s_nfree 0) _ Hm1) as Hm2.
  pose proof (mounted_upd _ _ _ (set_s_flock 0) _ Hm2) as Hm3.
  eexists. split; [reflexivity|]. split; [eapply mounted_same; [exact Hm3|done]|].
  split_and!; try done; intros; simpl.
  - rewrite bs_write_get. destruct ((d' =? dev) && (b' =? b)); [done|]. apply bs_getblk_pure.
  - by rewrite bs_write_fails, bs_getblk_fails.
Qed.

Lemma put_last_run dev mp f s b : mounted dev mp f s -> 0 <= s_nfree f < NICFREE -> length (s_free f) = 320%nat ->
  (f ← fp mp; _ ← at_ (s_free f) (Z.to_nat (s_nfree f)); modfp mp (put_last b)) s = Done tt (upd mp (put_last b) s).
Proof.
  intros Hm Hn Hl. step_with (fp_run dev mp f s Hm). unfold mbind, k_bind, at_.
  destruct (lookup_lt_is_Some_2 (s_free f) (Z.to_nat (s_nfree f))) as [y ->]; [unfold NICFREE in *; lia|done].
Qed.

Lemma take_put (l : list Z) n b : 0 <= n -> (Z.to_nat n < length l)%nat ->
  take (Z.to_nat (n + 1)) (<[Z.to_nat n := b]> l) = take (Z.to_nat n) l ++ [b].
Proof.
  intros Hn Hl. replace (Z.to_nat (n + 1)) with (Datatypes.S (Z.to_nat n)) by lia.
  erewrite take_S_r; [|by apply list_lookup_insert_eq]. by rewrite take_insert_ge by lia.
Qed.

Lemma free_run dev mp f s b L : mounted dev mp f s -> free_blocks dev f s L -> s_flock f = 0 ->
  s_isize f <= b < s_fsize f -> b ∉ L ->
  exists s' f', free dev b s = Done tt s' /\ mounted dev mp f' s' /\ free_blocks dev f' s' (b :: L) /\
    s_tfree f' = s_tfree f + 1 /\ s_flock f' = 0 /\ s_fmod f' = 1 /\ u_error s' = u_error s /\
    inodes s' = inodes s /\ prdevs s' = prdevs s /\
    (forall d' b', (d', b') <> (dev, b) -> bs_get (store s') d' b' = bs_get (store s) d' b') /\
    (forall d' b', bs_fails (store s') d' b' = bs_fails (store s) d' b') /\
    s_isize f' = s_isize f /\ s_fsize f' = s_fsize f.
Proof.
  intros Hm (Hl & Hi & Hc & Hnd & His & Hr) Hlk Hb HbL.
  assert (Hn : s_nfree f <= NICFREE) by (unfold NICFREE in *; lia).
  assert (HrL : forall c, c ∈ b :: L -> s_isize f <= c < s_fsize f) by (intros c [->|]%elem_of_cons; auto).
  assert (HND : NoDup (b :: L)) by by constructor.
  unfold free. step_with (getfs_run dev mp f s Hm Hn Hi). step_with (modfp_run mp (set_s_fmod 1) s).
  pose proof (mounted_upd _ _ _ (set_s_fmod 1) _ Hm) as Hm1. step_with (fp_run dev mp _ _ Hm1).
  change (s_flock (set_s_fmod 1 f)) with (s_flock f). rewrite Hlk. cbn [Z.eqb negb].
  step_with (badblock_run dev mp _ _ b Hm1 Hb). cbv iota. change (s_nfree (set_s_fmod 1 f)) with (s_nfree f).
  destruct Hc as [[Hz ->]|[Hn1 Hc]].
  - rewrite Hz. change (0 <=? 0) with true. cbv iota.
    match goal with |- context [modfp mp ?g] => step_with (modfp_run mp g (upd mp (set_s_fmod 1) s));
      pose proof (mounted_upd _ _ _ g _ Hm1) as Hm2 end.
    step_with (fp_run dev mp _ _ Hm2). change (NICFREE <=? _) with false. cbv iota. rewrite kret_run.
    rewrite (put_last_run dev mp _ _ b Hm2) by (simpl; unfold NICFREE; rewrite ?length_insert; lia).
    eexists _, _. split; [reflexivity|]. split; [apply (mounted_upd _ _ _ (put_last b) _ Hm2)|].
    split_and!; try done. split_and!; try done; [by rewrite <- Hl; simpl; rewrite !length_insert|]. right.
    split; [by unfold NICFREE|]. simpl. destruct (s_free f) as [|h [|h' tl]]; try (simpl in Hl; lia).
    simpl. apply (ch_end _ [b]).
  - destruct (Z.leb_spec (s_nfree f) 0); [lia|]. rewrite kret_run. step_with (fp_run dev mp _ _ Hm1).
    change (s_nfree (set_s_fmod 1 f)) with (s_nfree f). destruct (Z.leb_spec NICFREE (s_nfree f)).
    + destruct (spill_run dev mp _ _ b Hm1) as (s1 & Hsp & Hm2 & Hget & Hfl & Hin & Hue & Hpr & _).
      step_with Hsp. rewrite (put_last_run dev mp _ _ b Hm2) by (simpl; unfold NICFREE; lia).
      eexists _, _. split; [reflexivity|]. split; [apply (mounted_upd _ _ _ (put_last b) _ Hm2)|].
      assert (Hoth : forall d' b', (d', b') <> (dev, b) -> bs_get (store s1) d' b' = bs_get (store s) d' b').
      { intros d' b' Hne. rewrite Hget. by destruct (Z.eqb_spec d' dev), (Z.eqb_spec b' b); simplify_eq/=. }
      split_and!; try done. split_and!; try done; [by rewrite <- Hl; simpl; rewrite !length_insert|]. right.
      split; [by unfold NICFREE|]. destruct (s_free f) as [|h tl] eqn:Ef; [simpl in Hl; lia|]. simpl. rewrite Ef. simpl.
      apply (ch_more _ b [] 320 ((h :: tl) ++ replicate 191 0) L); [lia| |by unfold NICFREE| |].
      * rewrite Hget, !Z.eqb_refl. simpl. replace (s_nfree f) with 320 by (unfold NICFREE in *; lia). by rewrite Ef.
      * rewrite length_app. lia.
      * rewrite take_app_le by (rewrite Hl; lia). replace (s_nfree f) with 320 in Hc by (unfold NICFREE in *; lia).
        eapply chained_ext; [exact Hc|]. intros c Hc'. apply Hoth. set_solver.
    + rewrite kret_run. rewrite (put_last_run dev mp _ _ b Hm1) by (simpl; lia).
      eexists _, _. split; [reflexivity|]. split; [apply (mounted_upd _ _ _ (put_last b) _ Hm1)|].
      split_and!; try done. split_and!; try done; [by rewrite <- Hl; simpl; rewrite !length_insert|]. right.
      split; [simpl; lia|]. simpl. rewrite take_put by (unfold NICFREE in *; lia). by apply chained_snoc.
Qed.

(** C6. The free blocks of a mounted file system are a stack: with a list [x :: L]
    (entries in the superblock, the rest in chain blocks on the disk) [alloc] returns a
    zeroed buffer for [x], which is no longer on the list, leaves the list [L], counts
    [s_tfree] down by one and changes no block, also when it has to read the next batch
    of the list out of [x]; on an empty list it returns [NULL] with [ENOSPC]. *)
Theorem alloc_correct dev mp f s L :
  mounted dev mp f s -> free_blocks dev f s L -> s_flock f = 0 ->
  (forall b, b ∈ L -> bs_fails (store s) dev b = false) ->
  exists s' f', mounted dev mp f' s' /\ s_flock f' = 0 /\ s_fmod f' = 1 /\ inodes s' = inodes s /\
    (forall d b, bs_get (store s') d b = bs_get (store s) d b) /\
    match L with
    | x :: L' => alloc dev s = Done (Some (Buf dev x (replicate 512 0) false)) s' /\ free_blocks dev f' s' L' /\
        (x ∉ L') /\ s_tfree f' = s_tfree f - 1 /\ u_error s' = u_error s
    | [] => alloc dev s = Done None s' /\ free_blocks dev f' s' [] /\ s_tfree f' = 0 /\ u_error s' = ENOSPC
    end.
Proof.
  intros Hm HF Hl Hr. destruct L as [|x L'].
  - destruct (alloc_none dev mp f s Hm HF Hl) as (s' & f' & E & Hm' & HF' & T & F & U & St & I & M).
    exists s', f'. by rewrite St.
  - destruct (alloc_run dev mp f s x L' Hm HF Hl Hr) as (s' & f' & E & Hm' & HF' & T & F & M & X & (G & _ & I & _) & U).
    by exists s', f'.
Qed.

(** C7. [free] of a data block [b] that is not on the free list puts it in front of the
    list, counts [s_tfree] up by one and changes no block but [b] itself: whether [b] goes
    into the superblock, starts a new list after the end mark, or takes a full
    superblock's 320 entries to the disk. *)
Theorem free_correct dev mp f s b L :
  mounted dev mp f s -> free_blocks dev f s L -> s_flock f = 0 ->
  s_isize f <= b < s_fsize f -> b ∉ L ->
  exists s' f', free dev b s = Done tt s' /\ mounted dev mp f' s' /\ free_blocks dev f' s' (b :: L) /\
    s_tfree f' = s_tfree f + 1 /\ s_flock f' = 0 /\ s_fmod f' = 1 /\ u_error s' = u_error s /\
    inodes s' = inodes s /\
    (forall d' b', (d', b') <> (dev, b) -> bs_get (store s') d' b' = bs_get (store s) d' b').
Proof.
  intros Hm HF Hl Hb HbL.
  destruct (free_run dev mp f s b L Hm HF Hl Hb HbL) as (s' & f' & ? & ? & ? & ? & ? & ? & ? & ? & ? & ? & _).
  by exists s', f'.
Qed.

(** ** Mounting *)

(** What [sbcheck] accepts. *)
Definition plausible (f : filsys) : Prop :=
  s_magic f = FS_MAGIC /\ s_bsize f = BSIZEW /\ s_inopb f = INOPB /\ s_naddr f = NADDR /\
  SUPERB < s_isize f < s_fsize f /\ 0 <= s_nfree f <= NICFREE /\ 0 <= s_ninode f <= NICINOD.

Lemma sbcheck_spec f dev s :
  (plausible f /\ sbcheck f dev s = Done 0 s) \/
  (~ plausible f /\ exists msg, sbcheck f dev s = Done 1 (set_prdevs (prdevs s ++ [(msg, dev)]) s)).
Proof.
  unfold sbcheck, plausible.
  repeat match goal with |- context [if ?c then _ else _] => destruct c eqn:? end;
    [right..|left]; (split; [lia|by try eexists]).
Qed.

(** A superblock that [sbcheck] accepts keeps block 0 out of the data area and needs
    none of [getfs]'s repair: [getfs] finds it without touching it, and [badblock] refuses
    every block number that is not past the i-list and on the volume, 0 among them.  One
    that it refuses has a wrong magic, geometry, size or count. *)
Theorem sbcheck_correct dev mp f s : mounted dev mp f s ->
  (sbcheck f dev s = Done 0 s /\ plausible f /\ getfs dev s = Done mp s /\
   forall bn, exists bad s', badblock mp bn dev s = Done bad s' /\
     (bad = true <-> ~ (s_isize f <= bn < s_fsize f)) /\ (bn = 0 -> bad = true)) \/
  (~ plausible f /\ exists s', sbcheck f dev s = Done 1 s').
Proof.
  intros Hm. destruct (sbcheck_spec f dev s) as [[Hp E]|[Hp [msg E]]]; [left|right; eauto].
  pose proof Hp as (? & ? & ? & ? & Hs & ? & ?). split_and!; [done|done|apply (getfs_run dev mp f); lia || done|].
  intros bn. unfold SUPERB in *. unfold badblock. step_with (fp_run dev mp f s Hm).
  destruct (Z.ltb_spec bn (s_isize f)), (Z.leb_spec (s_fsize f) bn); cbn [orb];
    (eexists _, _; split; [reflexivity|]; split; [split|]; intros; lia || done).
Qed.

(** ** The volume as its users see it *)

(** [dev] is mounted in entry [mp], unlocked and readable, with the free blocks [L]. *)
Definition volume (dev : Z) (mp : nat) (L : list Z) (s : kern S) : Prop :=
  exists f, mounted dev mp f s /\ free_blocks dev f s L /\ s_flock f = 0 /\
    forall b, bs_fails (store s) dev b = false.

Lemma volume_free dev mp L s b : volume dev mp L s -> b ∈ L -> b <> 0.
Proof. intros (f & _ & (_ & _ & _ & _ & ? & Hr) & _) Hb. specialize (Hr b Hb). lia. Qed.

Lemma volume_nodup dev mp L s : volume dev mp L s -> NoDup L.
Proof. by intros (f & _ & (_ & _ & _ & ? & _) & _). Qed.

(** It depends on the superblock and the blocks of the list. *)
Lemma volume_ext dev mp L s s' : volume dev mp L s -> mounts s' = mounts s ->
  (forall b, b ∈ L -> bs_get (store s') dev b = bs_get (store s) dev b) ->
  (forall b, bs_fails (store s') dev b = bs_fails (store s) dev b) -> volume dev mp L s'.
Proof.
  intros (f & Hm & (F1 & F2 & F3 & F4 & F5 & F6) & Hk & Hf) HM HG HF. exists f.
  split; [by eapply mounted_same|]. split_and!; try done; [|intros; by rewrite HF].
  split_and!; try done. destruct F3 as [F3|[Hn Hc]]; [by left|right]. split; [done|].
  eapply chained_ext; [exact Hc|done].
Qed.

Lemma alloc_vol dev mp L s : volume dev mp L s -> exists s', inodes s' = inodes s /\
  (forall d b, bs_get (store s') d b = bs_get (store s) d b) /\
  match L with
  | x :: L' => alloc dev s = Done (Some (Buf dev x (replicate 512 0) false)) s' /\ volume dev mp L' s' /\
      u_error s' = u_error s
  | [] => alloc dev s = Done None s' /\ volume dev mp [] s' /\ u_error s' = ENOSPC
  end.
Proof.
  intros (f & Hm & HF & Hk & Hf). destruct L as [|x L'].
  - destruct (alloc_none dev mp f s Hm HF Hk) as (s' & f' & E & Hm' & HF' & T & F & U & St & I & M).
    exists s'. rewrite St. split_and!; try done. exists f'. by rewrite St.
  - destruct (alloc_run dev mp f s x L' Hm HF Hk) as (s' & f' & E & Hm' & HF' & T & F & M & X & (G & B & I & _) & U);
      [auto|]. exists s'. split_and!; try done. exists f'. split_and!; try done. intros. by rewrite B.
Qed.

(** The same with the range of its data blocks, which is what [free] checks. *)
Definition sized (dev : Z) (mp : nat) (lo hi : Z) (L : list Z) (s : kern S) : Prop :=
  exists f, mounted dev mp f s /\ free_blocks dev f s L /\ s_flock f = 0 /\
    (forall b, bs_fails (store s) dev b = false) /\ s_isize f = lo /\ s_fsize f = hi.

Lemma sized_volume dev mp lo hi L s : sized dev mp lo hi L s -> volume dev mp L s.
Proof. intros (f & ? & ? & ? & ? & _). by exists f. Qed.

Lemma sized_ext dev mp lo hi L s s' : sized dev mp lo hi L s -> mounts s' = mounts s ->
  (forall b, bs_get (store s') dev b = bs_get (store s) dev b) ->
  (forall b, bs_fails (store s') dev b = bs_fails (store s) dev b) -> sized dev mp lo hi L s'.
Proof.
  intros (f & Hm & (F1 & F2 & F3 & F4 & F5 & F6) & Hk & Hf & E1 & E2) HM HG HF. exists f.
  split; [by eapply mounted_same|]. split_and!; try done; [|intros; by rewrite HF].
  split_and!; try done. destruct F3 as [F3|[Hn Hc]]; [by left|right]. split; [done|].
  eapply chained_ext; [exact Hc|done].
Qed.

Lemma free_sized dev mp lo hi L s b : sized dev mp lo hi L s -> lo <= b < hi -> (b ∉ L) ->
  exists s', free dev b s = Done tt s' /\ sized dev mp lo hi (b :: L) s' /\ inodes s' = inodes s /\
    u_error s' = u_error s /\
    forall d' b', (d', b') <> (dev, b) -> bs_get (store s') d' b' = bs_get (store s) d' b'.
Proof.
  intros (f & Hm & HF & Hk & Hf & <- & <-) Hb HbL.
  destruct (free_run dev mp f s b L Hm HF Hk Hb HbL)
    as (s' & f' & E & Hm' & HF' & _ & Hk' & _ & U & I & _ & G & F & I1 & I2).
  exists s'. split_and!; try done. exists f'. split_and!; try done. intros. by rewrite F.
Qed.
End Alloc.

(** ** Witnesses *)

(** A volume of 100 blocks whose free list is block 50, holding the rest, then 60. *)
Definition fs1 : filsys :=
  Filsys FS_MAGIC BSIZEW INOPB NADDR 3 100 0 2 0 0 0 0 0 1 (50 :: replicate 319 0) 0 (replicate 160 0)
    (replicate 17 0).
Definition disk1 : fstore :=
  Fstore (fun _ b => if b =? 50 then 2 :: 0 :: 60 :: replicate 509 0 else replicate 512 0) (fun _ _ => false).
Definition kern1 : kern fstore :=
  set_mounts [Mount 0 None None; Mount 7 (Some fs1) None] (kern0 disk1).

Lemma kern1_mounted : mounted 7 1 fs1 kern1.
Proof. split; [done|]. by eexists. Qed.

Lemma kern1_free : free_blocks 7 fs1 kern1 [50; 60].
Proof.
  split; [done|]. split; [done|]. split_and!; [right|repeat constructor; set_solver|done|set_solver by (simpl; lia)].
  split; [done|]. change (take _ _) with [50]. apply (ch_more _ 50 [] 2 (0 :: 60 :: replicate 509 0) [60]); try done.
  - simpl. lia.
  - apply (ch_end _ [60]).
Qed.

Lemma alloc_correct_witness : exists s' f', mounted 7 1 f' s' /\ s_tfree f' = 1 /\
  alloc 7 kern1 = Done (Some (Buf 7 50 (replicate 512 0) false)) s' /\ free_blocks 7 f' s' [60].
Proof.
  destruct (alloc_correct 7 1 fs1 kern1 [50; 60]) as (s' & f' & ? & ? & ? & ? & ? & ? & ? & ? & ? & ?);
    [apply kern1_mounted|apply kern1_free|done|done|]. by exists s', f'.
Defined.

Lemma free_correct_witness : exists s' f', free 7 70 kern1 = Done tt s' /\ mounted 7 1 f' s' /\
  free_blocks 7 f' s' [70; 50; 60].
Proof.
  destruct (free_correct 7 1 fs1 kern1 70 [50; 60]) as (s' & f' & ? & ? & ? & ?);
    [apply kern1_mounted|apply kern1_free|done|done|set_solver|]. by exists s', f'.
Defined.

Lemma sbcheck_correct_witness : sbcheck fs1 7 kern1 = Done 0 kern1 /\ getfs 7 kern1 = Done 1%nat kern1.
Proof.
  destruct (sbcheck_correct 7 1 fs1 kern1 kern1_mounted) as [(? & ? & ? & ?)|[Hn _]]; [done|].
  exfalso. apply Hn. by unfold plausible.
Defined.
