(* ===== verification/Bmap.v ===== *)
(** * The block map of a file: [bmap] of [kernel/subr.c] *)

From S2P Require Import Prelude Param Kern Alloc.

Section Bmap.
Context {S : Type} `{BlockStore S}.

Definition getip (ip : nat) : K S inode := l ← gets inodes; at_ l ip.
Definition modip (ip : nat) (f : inode -> inode) : K S unit := puts (fun s => set_inodes (alter f ip (inodes s)) s).

(** [bp = alloc(dev)], its number, [bdwrite(bp)]; [None] is [NULL]. *)
Definition balloc (dev : Z) : K S (option Z) :=
  bp ← alloc dev;
  match bp with
  | None => mret None
  | Some bp => bdwrite bp;; mret (Some (b_blkno bp))
  end.

(** How many levels of indirection: [j], the shift and the block number left. *)
Fixpoint level (j : nat) (sh nb bn : Z) : nat * Z * Z :=
  match j with
  | O => (O, sh, bn)
  | Datatypes.S j' =>
      let sh := sh + NSHIFT in
      let nb := Z.shiftl nb NSHIFT in
      if bn <? nb then (j, sh, bn) else level j' sh nb (bn - nb)
  end.

(** The address in entry [i] of the inode, allocated when it is 0; [None] returns -1. *)
Definition inode_addr (ip : nat) (i : nat) (rd : bool) : K S (option Z) :=
  x ← getip ip;
  nb ← at_ (i_addr x) i;
  if nb =? 0 then
    if rd then mret None
    else
      got ← balloc (i_dev x);
      match got with
      | None => mret None
      | Some nb =>
          modip ip (fun x => set_i_flag (i_flag x |: (IUPD |: ICHG)) (set_i_addr (<[i := nb]> (i_addr x)) x));;
          mret (Some nb)
      end
  else mret (Some nb).

(** One indirect block [nb], entry [i]: what [bmap] returns early, or the address
    there, allocated when it is 0, with the block. *)
Definition indirect (dev nb i : Z) (rd : bool) : K S (Z + Z * list Z) :=
  bp ← bread dev nb;
  if b_err bp then brelse bp;; mret (inl 0)
  else
    nb ← at_ (b_data bp) (Z.to_nat i);
    if nb =? 0 then
      if rd then brelse bp;; mret (inl (-1))
      else
        got ← balloc dev;
        match got with
        | None => brelse bp;; mret (inl (-1))
        | Some nb =>
            let bap := <[Z.to_nat i := nb]> (b_data bp) in
            bdwrite (Buf (b_dev bp) (b_blkno bp) bap (b_err bp));;
            mret (inr (nb, bap))
        end
    else brelse bp;; mret (inr (nb, b_data bp)).

(** [n] levels of them, with the index into the last one. *)
Fixpoint fetch (n : nat) (dev nb sh bn : Z) (rd : bool) (i : Z) (bap : list Z) : K S (Z + Z * Z * list Z) :=
  match n with
  | O => mret (inr (nb, i, bap))
  | Datatypes.S n =>
      let sh := sh - NSHIFT in
      let i := Z.land (Z.shiftr bn sh) NMASK in
      r ← indirect dev nb i rd;
      match r with
      | inl v => mret (inl v)
      | inr (nb, bap) => fetch n dev nb sh bn rd i bap
      end
  end.

(** [rd] is [rwflg == B_READ]. *)
Definition bmap (ip : nat) (bn : Z) (rd : bool) : K S Z :=
  if bn <? 0 then error EFBIG;; mret 0
  else
    x ← getip ip;
    let dev := i_dev x in
    puts (set_rablock 0);;
    if bn <? NADDR - NLEVEL then
      got ← inode_addr ip (Z.to_nat bn) rd;
      match got with
      | None => mret (-1)
      | Some nb =>
          (if bn <? NADDR - NLEVEL - 1
           then x ← getip ip; r ← at_ (i_addr x) (Z.to_nat (bn + 1)); puts (set_rablock r)
           else mret tt);;
          mret nb
      end
    else
      let '(j, sh, bn) := level (Z.to_nat NLEVEL) 0 1 (bn - (NADDR - NLEVEL)) in
      if (j =? 0)%nat then error EFBIG;; mret 0
      else
        got ← inode_addr ip (Z.to_nat NADDR - j) rd;
        match got with
        | None => mret (-1)
        | Some nb =>
            r ← fetch (Z.to_nat NLEVEL + 1 - j) dev nb sh bn rd 0 [];
            match r with
            | inl v => mret v
            | inr (nb, i, bap) =>
                (if i <? NINDIR - 1
                 then r ← at_ bap (Z.to_nat (i + 1)); puts (set_rablock r)
                 else mret tt);;
                mret nb
            end
        end.

End Bmap.

(** ** Specification

    [blk g addr bn] is the block that holds block [bn] of a file with the addresses
    [addr] on a disk with contents [g]; 0 is a hole. *)

Definition FILEMAX : Z := 6 + 512 + 512 * 512.

Definition through (g : Z -> list Z) (b i : Z) : Z := if b =? 0 then 0 else g b !!! Z.to_nat i.

Definition blk (g : Z -> list Z) (addr : list Z) (bn : Z) : Z :=
  if bn <? 6 then addr !!! Z.to_nat bn
  else if bn <? 6 + 512 then through g (addr !!! 6%nat) (bn - 6)
  else through g (through g (addr !!! 7%nat) ((bn - 518) / 512)) ((bn - 518) mod 512).

(** The indirect blocks of a file. *)
Definition entries (g : Z -> list Z) (b : Z) : list Z := if b =? 0 then [] else g b.
Definition meta (g : Z -> list Z) (addr : list Z) : list Z :=
  filter (fun b => b <> 0) (addr !!! 6%nat :: addr !!! 7%nat :: entries g (addr !!! 7%nat)).

(** There are 8 addresses; the indirect blocks are all different, whole, and not on
    the free list [L]. *)
Record tree_ok (g : Z -> list Z) (addr L : list Z) : Prop := {
  t_len : length addr = 8%nat;
  t_nodup : NoDup (meta g addr);
  t_meta : forall m, m ∈ meta g addr -> (m ∉ L) /\ length (g m) = 512%nat;
}.

Lemma elem_meta g addr m :
  m ∈ meta g addr <-> m <> 0 /\ (m = addr !!! 6%nat \/ m = addr !!! 7%nat \/ m ∈ entries g (addr !!! 7%nat)).
Proof. unfold meta. rewrite list_elem_of_filter. set_solver. Qed.

Lemma entry_meta g addr L i : tree_ok g addr L -> 0 <= i < 512 -> through g (addr !!! 7%nat) i <> 0 ->
  through g (addr !!! 7%nat) i ∈ meta g addr.
Proof.
  intros T Hi Hn. apply elem_meta. split; [done|]. right; right. unfold through, entries in *.
  destruct (Z.eqb_spec (addr !!! 7%nat) 0); [done|]. apply list_elem_of_lookup_total_2.
  destruct (t_meta _ _ _ T (addr !!! 7%nat)) as [_ ->]; [|lia]. apply elem_meta. auto.
Qed.

(** Only the indirect blocks matter. *)
Lemma meta_ext g g' addr : (forall m, m ∈ meta g addr -> g' m = g m) -> meta g' addr = meta g addr.
Proof.
  intros E. unfold meta, entries. destruct (Z.eqb_spec (addr !!! 7%nat) 0); [done|].
  rewrite E; [done|]. apply elem_meta. auto.
Qed.

Lemma through_ext g g' b i : (b <> 0 -> g' b = g b) -> through g' b i = through g b i.
Proof. unfold through. intros E. destruct (Z.eqb_spec b 0); [done|]. by rewrite E. Qed.

Lemma blk_ext g g' addr L bn : tree_ok g addr L -> (forall m, m ∈ meta g addr -> g' m = g m) ->
  0 <= bn < FILEMAX -> blk g' addr bn = blk g addr bn.
Proof.
  intros T E Hb. unfold FILEMAX in Hb. unfold blk. destruct (bn <? 6); [done|]. destruct (Z.ltb_spec bn (6 + 512)).
  - apply through_ext. intros. apply E, elem_meta. auto.
  - pose proof (div_mod_range (bn - 518) 512). rewrite (through_ext g g' (addr !!! 7%nat)).
    + apply through_ext. intros Hn. apply E. by eapply entry_meta; [exact T|lia|].
    + intros. apply E, elem_meta. auto.
Qed.

(** A tree takes a block [x] off the free list, as data or as an indirect block. *)
Lemma tree_grow g g' addr addr' x L : tree_ok g addr (x :: L) -> (x ∉ L) -> length addr' = 8%nat ->
  meta g' addr' = meta g addr \/ (meta g' addr' ≡ₚ x :: meta g addr /\ length (g' x) = 512%nat) ->
  (forall m, m ∈ meta g addr -> length (g' m) = length (g m)) -> tree_ok g' addr' L.
Proof.
  intros [Hl Hnd Hm] Hx Hl' Hc Hg. destruct Hc as [Hc|[Hc Hgx]].
  - split; rewrite ?Hc; [done|done|]. intros m Hmm. destruct (Hm m Hmm). rewrite Hg by done. set_solver.
  - assert (x ∉ meta g addr) by (intros [Hin _]%Hm; set_solver). split; [done|rewrite Hc; by constructor|].
    intros m. rewrite Hc. intros [->|Hmm]%elem_of_cons; [done|]. destruct (Hm m Hmm). rewrite Hg by done. set_solver.
Qed.

(** Entry [i] of the addresses is set: a data block, *)
Lemma blk_set_direct g addr i x bn : (i < 6)%nat -> length addr = 8%nat -> 0 <= bn ->
  blk g (<[i := x]> addr) bn = if bn =? Z.of_nat i then x else blk g addr bn.
Proof.
  intros Hi Hl Hb. unfold blk. rewrite (list_lookup_total_insert_ne addr i 6), (list_lookup_total_insert_ne addr i 7) by lia.
  destruct (Z.ltb_spec bn 6), (Z.eqb_spec bn (Z.of_nat i)); try lia; try done.
  - subst. rewrite Nat2Z.id. apply list_lookup_total_insert_eq. lia.
  - apply list_lookup_total_insert_ne. lia.
Qed.

Lemma meta_set_direct g addr i x : (i < 6)%nat -> meta g (<[i := x]> addr) = meta g addr.
Proof. intros Hi. unfold meta. by rewrite !list_lookup_total_insert_ne by lia. Qed.

(** or an indirect block of zeros, which maps nothing. *)
Definition zeros : list Z := replicate 512 0.

Lemma through_zeros g b i : (b <> 0 -> g b = zeros) -> 0 <= i < 512 -> through g b i = 0.
Proof.
  unfold through. intros E Hi. destruct (Z.eqb_spec b 0); [done|]. rewrite E by done.
  apply lookup_total_replicate_2. lia.
Qed.

Lemma filter_zeros : filter (fun b => b <> 0) zeros = [].
Proof. done. Qed.

Lemma blk_set_root g addr i x bn : (6 <= i < 8)%nat -> length addr = 8%nat -> addr !!! i = 0 -> g x = zeros ->
  0 <= bn < FILEMAX -> blk g (<[i := x]> addr) bn = blk g addr bn.
Proof.
  intros Hi Hl H0 Hx Hb. unfold FILEMAX in Hb. pose proof (div_mod_range (bn - 518) 512). unfold blk. destruct (Z.ltb_spec bn 6); [apply list_lookup_total_insert_ne; lia|].
  assert (i = 6%nat \/ i = 7%nat) as [-> | ->] by lia.
  - rewrite list_lookup_total_insert_eq, (list_lookup_total_insert_ne addr 6 7), H0 by lia.
    destruct (Z.ltb_spec bn (6 + 512)); [|done]. by rewrite through_zeros by (lia || done).
  - rewrite list_lookup_total_insert_eq, (list_lookup_total_insert_ne addr 7 6), H0 by lia.
    destruct (Z.ltb_spec bn (6 + 512)); [done|]. by rewrite (through_zeros g x) by (lia || done).
Qed.

Lemma meta_set_root g addr i x : (6 <= i < 8)%nat -> length addr = 8%nat -> addr !!! i = 0 -> g x = zeros ->
  x <> 0 -> meta g (<[i := x]> addr) ≡ₚ x :: meta g addr.
Proof.
  intros Hi Hl H0 Hx Hx0. unfold meta. assert (i = 6%nat \/ i = 7%nat) as [-> | ->] by lia.
  - rewrite list_lookup_total_insert_eq, (list_lookup_total_insert_ne addr 6 7), H0 by lia.
    by rewrite (filter_cons_True _ x), (filter_cons_False _ 0) by auto.
  - rewrite list_lookup_total_insert_eq, (list_lookup_total_insert_ne addr 7 6), H0 by lia.
    unfold entries. destruct (Z.eqb_spec x 0); [done|]. change (0 =? 0) with true. cbv iota. rewrite Hx.
    rewrite !filter_cons, filter_zeros. rewrite (decide_False _ (P := 0 <> 0)) by auto.
    rewrite (decide_True _ (P := x <> 0)) by auto. case_decide; [apply Permutation_swap|done].
Qed.

(** Entry [i] of an indirect block [m] is set.  The other indirect blocks stay. *)
Definition changed (g g' : Z -> list Z) (addr : list Z) (m i x : Z) : Prop :=
  g' m = <[Z.to_nat i := x]> (g m) /\ forall b, b ∈ meta g addr -> b <> m -> g' b = g b.

Lemma through_changed g g' addr m i x j : changed g g' addr m i x -> m <> 0 -> 0 <= i < 512 -> 0 <= j ->
  length (g m) = 512%nat -> through g' m j = if j =? i then x else through g m j.
Proof.
  intros [Hm _] H0 Hi Hj Hl. unfold through. destruct (Z.eqb_spec m 0); [done|]. rewrite Hm.
  destruct (Z.eqb_spec j i) as [->|]; [apply list_lookup_total_insert_eq; lia|].
  apply list_lookup_total_insert_ne. lia.
Qed.

Lemma filter_nz_inj (l : list Z) i j : NoDup (filter (fun b => b <> 0) l) ->
  (i < length l)%nat -> (j < length l)%nat -> l !!! i = l !!! j -> l !!! i <> 0 -> i = j.
Proof.
  revert i j. induction l as [|a l IH]; intros i j Hnd Hi Hj E Hn; [simpl in Hi; lia|].
  assert (Hin : forall k, (k < length l)%nat -> a = l !!! k -> a ∈ l).
  { intros k Hk ->. by apply list_elem_of_lookup_total_2. }
  destruct i as [|i], j as [|j]; simpl in *; [done| | |].
  - rewrite filter_cons_True in Hnd by done. apply NoDup_cons in Hnd as [Hnd _].
    destruct Hnd. apply list_elem_of_filter. split; [done|]. apply (Hin j); [lia|done].
  - rewrite filter_cons_True in Hnd by congruence. apply NoDup_cons in Hnd as [Hnd _].
    destruct Hnd. apply list_elem_of_filter. split; [congruence|]. apply (Hin i); [lia|done].
  - f_equal. apply IH; try done; try lia. rewrite filter_cons in Hnd. case_decide; [|done].
    by apply NoDup_cons in Hnd as [_ Hnd].
Qed.

(** The indirect blocks are different. *)
Section Tree.
Context (g : Z -> list Z) (addr L : list Z) (T : tree_ok g addr L).
Notation a6 := (addr !!! 6%nat).
Notation a7 := (addr !!! 7%nat).

Lemma root_len m : m ∈ meta g addr -> length (g m) = 512%nat.
Proof. apply (t_meta _ _ _ T). Qed.

Lemma a7_len : a7 <> 0 -> entries g a7 = g a7 /\ length (g a7) = 512%nat.
Proof.
  intros H0. unfold entries. destruct (Z.eqb_spec a7 0); [done|]. split; [done|]. apply root_len, elem_meta. auto.
Qed.

Lemma a6_a7 : a6 <> 0 -> a6 <> a7.
Proof.
  intros H0 E. enough (0%nat = 1%nat) by done.
  eapply (filter_nz_inj (a6 :: a7 :: entries g a7)); [apply (t_nodup _ _ _ T)|simpl; lia..|done|done].
Qed.

Lemma through_entry k : through g a7 k <> 0 -> a7 <> 0 /\ through g a7 k = g a7 !!! Z.to_nat k.
Proof. unfold through. by destruct (Z.eqb_spec a7 0). Qed.

Lemma leaf_roots k : 0 <= k < 512 -> through g a7 k <> 0 -> through g a7 k <> a6 /\ through g a7 k <> a7.
Proof.
  intros Hk Hn. destruct (through_entry k Hn) as [H0 E]. destruct (a7_len H0) as [El Hl].
  assert (Hi : forall i, (a6 :: a7 :: entries g a7) !!! i = through g a7 k -> (i < 2)%nat -> False).
  { intros i Hi Hi2. enough (i = Datatypes.S (Datatypes.S (Z.to_nat k))) by lia.
    apply (filter_nz_inj (a6 :: a7 :: entries g a7)); [apply (t_nodup _ _ _ T)| | |simpl|congruence];
      rewrite ?El; simpl; try lia. by rewrite <- E, <- Hi, El. }
  split; intros E'; [apply (Hi 0%nat)|apply (Hi 1%nat)]; auto; lia.
Qed.

Lemma leaf_inj k k' : 0 <= k < 512 -> 0 <= k' < 512 -> through g a7 k <> 0 -> through g a7 k = through g a7 k' ->
  k = k'.
Proof.
  intros Hk Hk' Hn E. destruct (through_entry k Hn) as [H0 E1]. rewrite E in Hn.
  destruct (through_entry k' Hn) as [_ E2]. destruct (a7_len H0) as [El Hl].
  enough (Datatypes.S (Datatypes.S (Z.to_nat k)) = Datatypes.S (Datatypes.S (Z.to_nat k'))) by lia.
  apply (filter_nz_inj (a6 :: a7 :: entries g a7)); [apply (t_nodup _ _ _ T)|rewrite El; simpl; lia..| |];
    simpl; rewrite El; congruence.
Qed.

Lemma blk_changed_single g' i x bn : a6 <> 0 -> changed g g' addr a6 i x -> 0 <= i < 512 -> 0 <= bn < FILEMAX ->
  blk g' addr bn = if bn =? 6 + i then x else blk g addr bn.
Proof.
  intros H0 Hc Hi Hb. unfold FILEMAX in Hb. pose proof (div_mod_range (bn - 518) 512).
  assert (H6 : a6 ∈ meta g addr) by (apply elem_meta; auto). unfold blk.
  destruct (Z.ltb_spec bn 6); [destruct (Z.eqb_spec bn (6 + i)); [lia|done]|].
  destruct (Z.ltb_spec bn (6 + 512)).
  - rewrite (through_changed g g' addr a6 i x) by (lia || auto using root_len).
    destruct (Z.eqb_spec (bn - 6) i), (Z.eqb_spec bn (6 + i)); lia || done.
  - destruct (Z.eqb_spec bn (6 + i)); [lia|]. pose proof (a6_a7 H0). destruct Hc as [_ Hc].
    rewrite (through_ext g g' a7) by (intros; apply Hc; [apply elem_meta; auto|congruence]).
    apply through_ext. intros Hn. apply Hc; [apply (entry_meta _ _ L); [done|lia|done]|].
    apply leaf_roots; [lia|done].
Qed.

Lemma meta_changed g' m i x : changed g g' addr m i x -> m <> a7 -> meta g' addr = meta g addr.
Proof.
  intros [_ Hc] Hm. unfold meta, entries. destruct (Z.eqb_spec a7 0); [done|]. rewrite Hc; [done| |done].
  apply elem_meta. auto.
Qed.

Lemma blk_changed_leaf g' k i x bn : 0 <= k < 512 -> through g a7 k <> 0 ->
  changed g g' addr (through g a7 k) i x -> 0 <= i < 512 -> 0 <= bn < FILEMAX ->
  blk g' addr bn = if bn =? 518 + 512 * k + i then x else blk g addr bn.
Proof.
  intros Hk Hn Hc Hi Hb. unfold FILEMAX in Hb. pose proof (div_mod_range (bn - 518) 512).
  pose proof (Z.div_mod (bn - 518) 512). pose proof (entry_meta g addr L k T Hk Hn) as Hm.
  destruct (leaf_roots k Hk Hn) as [Hn6 Hn7]. unfold blk.
  destruct (Z.ltb_spec bn 6); [destruct (Z.eqb_spec bn (518 + 512 * k + i)); [lia|done]|].
  destruct (Z.ltb_spec bn (6 + 512)).
  - destruct (Z.eqb_spec bn (518 + 512 * k + i)); [lia|]. destruct Hc as [_ Hc].
    apply through_ext. intros. apply Hc; [apply elem_meta; auto|congruence].
  - rewrite (through_ext g g' a7) by (intros; apply Hc; [apply elem_meta; auto|congruence]).
    destruct (Z.eqb_spec ((bn - 518) / 512) k) as [Ek|Hk'].
    + rewrite Ek, (through_changed g g' addr _ i x) by (lia || auto using root_len).
      destruct (Z.eqb_spec ((bn - 518) mod 512) i), (Z.eqb_spec bn (518 + 512 * k + i)); lia || done.
    + destruct (Z.eqb_spec bn (518 + 512 * k + i)) as [E|].
      { destruct Hk'. rewrite E. replace (518 + 512 * k + i - 518) with (i + k * 512) by lia.
        rewrite Z.div_add, Z.div_small by lia. lia. }
      apply through_ext. intros Hn'. apply Hc; [apply (entry_meta _ _ L); [done|lia|done]|].
      intros E. destruct Hk'. apply leaf_inj; [lia|lia|done|done].
Qed.

Lemma blk_changed_root g' i x bn : a7 <> 0 -> through g a7 i = 0 -> changed g g' addr a7 i x -> g' x = zeros ->
  0 <= i < 512 -> 0 <= bn < FILEMAX -> blk g' addr bn = blk g addr bn.
Proof.
  intros H0 Hz Hc Hx Hi Hb. unfold FILEMAX in Hb. pose proof (div_mod_range (bn - 518) 512).
  unfold blk. destruct (Z.ltb_spec bn 6); [done|]. destruct (Z.ltb_spec bn (6 + 512)).
  - apply through_ext. intros Hn. apply Hc; [apply elem_meta; auto|]. by apply a6_a7.
  - rewrite (through_changed g g' addr a7 i x) by (lia || auto; by apply a7_len).
    destruct (Z.eqb_spec ((bn - 518) / 512) i) as [->|Hk].
    + rewrite (through_zeros g' x) by (lia || done). rewrite Hz. by unfold through.
    + apply through_ext. intros Hn. apply Hc; [apply (entry_meta _ _ L); [done|lia|done]|].
      apply leaf_roots; [lia|done].
Qed.

Lemma meta_changed_root g' i x : a7 <> 0 -> through g a7 i = 0 -> changed g g' addr a7 i x -> 0 <= i < 512 ->
  x <> 0 -> meta g' addr ≡ₚ x :: meta g addr.
Proof.
  intros H0 Hz [Hc _] Hi Hx. destruct (a7_len H0) as [_ Hl].
  assert (Hp : filter (fun b => b <> 0) (g' a7) ≡ₚ x :: filter (fun b => b <> 0) (g a7)).
  { rewrite Hc. unfold through in Hz. destruct (Z.eqb_spec a7 0); [done|].
    rewrite insert_take_drop by lia.
    rewrite <- (take_drop_middle (g a7) (Z.to_nat i) 0) at 3 by (rewrite list_lookup_lookup_total_lt by lia; congruence).
    rewrite !filter_app, filter_cons_True, (filter_cons_False _ 0) by auto. by rewrite Permutation_middle. }
  unfold meta, entries. destruct (Z.eqb_spec a7 0); [done|]. rewrite !filter_cons.
  repeat case_decide; rewrite Hp; try done.
  - rewrite (Permutation_swap x a7). by rewrite (Permutation_swap x a6).
  - by rewrite (Permutation_swap x a7).
Qed.
End Tree.

(** ** [bmap] on a mounted volume *)

Lemma alter_same {A} (f : A -> A) (l : list A) i x : l !! i = Some x -> f x = x -> alter f i l = l.
Proof.
  intros Hx Hf. etrans; [apply (list_alter_ext f id l l)|by apply list_alter_id]; [|done].
  intros y Hy. by simplify_eq.
Qed.

Section Run.
Context {S : Type} `{BlockStore S}.

Lemma balloc_run dev mp L s : volume dev mp L s -> exists s', inodes s' = inodes s /\
  match L with
  | x :: L' => balloc dev s = Done (Some x) s' /\ volume dev mp L' s' /\ u_error s' = u_error s /\
      forall d b, bs_get (store s') d b = if (d =? dev) && (b =? x) then zeros else bs_get (store s) d b
  | [] => balloc dev s = Done None s' /\ volume dev mp [] s' /\ u_error s' = ENOSPC /\
      forall d b, bs_get (store s') d b = bs_get (store s) d b
  end.
Proof.
  intros V. pose proof (volume_nodup _ _ _ _ V) as Hnd.
  destruct (alloc_vol dev mp L s V) as (s1 & I & G & C). unfold balloc. destruct L as [|x L'].
  - destruct C as (E & V' & U). exists s1. split; [done|]. rewrite (kbind_run _ _ _ _ _ E). done.
  - destruct C as (E & V' & U). apply NoDup_cons in Hnd as [Hx _].
    exists (set_store (bs_write Delayed dev x zeros (store s1)) s1). split; [done|].
    assert (W : forall d b, bs_get (store (set_store (bs_write Delayed dev x zeros (store s1)) s1)) d b =
      if (d =? dev) && (b =? x) then zeros else bs_get (store s) d b).
    { intros. simpl. rewrite bs_write_get. by rewrite G. }
    rewrite (kbind_run _ _ _ _ _ E). split_and!; try done. eapply volume_ext; [exact V'|done| |].
    + intros b Hb. rewrite W, G. destruct (Z.eqb_spec b x); [set_solver|]. by rewrite andb_false_r.
    + intros. apply bs_write_fails.
Qed.

Notation disk dev s := (bs_get (store s) dev).

(** Inode [ip] is a file on the volume with the addresses [addr]. *)
Record file_in (dev : Z) (mp ip : nat) (s : kern S) (addr L : list Z) : Prop := {
  fi_volume : volume dev mp L s;
  fi_inode : exists x, inodes s !! ip = Some x /\ i_dev x = dev /\ i_addr x = addr;
  fi_tree : tree_ok (disk dev s) addr L;
}.

(** The file may have taken blocks off the free list.  Nothing else is touched: not
    the rest of the inode, not a block that is neither free nor an indirect block of
    the file, and no block of the file is mapped elsewhere than before, but [tgt]. *)
Record step (dev : Z) (mp ip : nat) (tgt : option Z) (s : kern S) (addr L : list Z)
    (s' : kern S) (addr' L' : list Z) : Prop := {
  st_file : file_in dev mp ip s' addr' L';
  st_free : exists taken, L = taken ++ L';
  st_inodes : exists fl, inodes s' = alter (fun x => set_i_flag (i_flag x |: fl) (set_i_addr addr' x)) ip (inodes s);
  st_store : forall d b, d <> dev \/ (b ∉ meta (disk dev s) addr) /\ (b ∉ L) ->
    bs_get (store s') d b = bs_get (store s) d b;
  st_meta : forall m, m ∈ meta (disk dev s') addr' -> m ∈ meta (disk dev s) addr \/ m ∈ L;
  st_blk : forall bn, 0 <= bn < FILEMAX -> Some bn <> tgt -> blk (disk dev s') addr' bn = blk (disk dev s) addr bn;
}.

(** An address that was [old] is now [nb]: as it was, or a free block, zeroed. *)
Definition found (dev old nb : Z) (s : kern S) (addr L : list Z) (s' : kern S) (addr' L' : list Z) : Prop :=
  nb <> 0 /\ u_error s' = u_error s /\
  ((old = nb /\ addr' = addr /\ L' = L /\ forall b, disk dev s' b = disk dev s b) \/
   (old = 0 /\ nb ∈ L /\ disk dev s' nb = zeros /\ nb ∉ L')).

Lemma step_trans dev mp ip t s1 a1 L1 s2 a2 L2 s3 a3 L3 :
  step dev mp ip None s1 a1 L1 s2 a2 L2 -> step dev mp ip t s2 a2 L2 s3 a3 L3 -> step dev mp ip t s1 a1 L1 s3 a3 L3.
Proof.
  intros [F1 [T1 E1] [f1 I1] S1 M1 B1] [F2 [T2 E2] [f2 I2] S2 M2 B2]. split; [done| | | | |].
  - exists (T1 ++ T2). by rewrite <- app_assoc, <- E2.
  - exists (f1 |: f2). rewrite I2, I1, list_alter_alter_eq. apply list_alter_ext; [|done]. intros x _. simpl.
    by rewrite Z.lor_assoc.
  - intros d b Hb. rewrite S2, S1; [done|done|]. destruct Hb as [|[Hb1 Hb2]]; [by left|right].
    split; [intros [|]%M1; done|]. rewrite E1 in Hb2. set_solver.
  - intros m [|Hm]%M2; [by apply M1|]. right. rewrite E1. set_solver.
  - intros bn Hb Ht. rewrite B2, B1; done.
Qed.

(** Nothing moved. *)
Lemma step_same dev mp ip t s addr L s' : file_in dev mp ip s addr L -> volume dev mp L s' -> inodes s' = inodes s ->
  (forall d b, bs_get (store s') d b = bs_get (store s) d b) -> step dev mp ip t s addr L s' addr L.
Proof.
  intros [V [x (Hx & Hd & Ha)] T] V' HI HG.
  assert (HE : forall m, m ∈ meta (disk dev s) addr -> disk dev s' m = disk dev s m) by auto.
  pose proof (meta_ext _ _ _ HE) as HME. split.
  - split; [done|by exists x; rewrite HI|]. destruct T as [T1 T2 T3].
    split; rewrite ?HME; auto. intros m Hm. rewrite HG. auto.
  - by exists [].
  - exists 0. rewrite HI. symmetry. eapply alter_same; [exact Hx|]. rewrite Z.lor_0_r, <- Ha. by destruct x.
  - auto.
  - rewrite HME. auto.
  - intros bn Hb _. by apply (blk_ext _ _ _ L).
Qed.

Lemma getip_run ip (s : kern S) x : inodes s !! ip = Some x -> getip ip s = Done x s.
Proof. intros Hx. unfold getip, mbind, k_bind, gets, at_. by rewrite Hx. Qed.

Lemma at_run {A} (l : list A) i a s : l !! i = Some a -> at_ (S := S) l i s = Done a s.
Proof. unfold at_. by intros ->. Qed.

(** What a fresh block changes. *)
Lemma fresh_disk dev mp s s' addr x L : file_in dev mp s.1 s.2 addr (x :: L) ->
  (forall d b, bs_get (store s') d b = if (d =? dev) && (b =? x) then zeros else bs_get (store s.2) d b) ->
  x <> 0 /\ (x ∉ L) /\ disk dev s' x = zeros /\ (x ∉ meta (disk dev s.2) addr) /\
  (forall m, m ∈ meta (disk dev s.2) addr -> disk dev s' m = disk dev s.2 m) /\
  (forall d b, d <> dev \/ b <> x -> bs_get (store s') d b = bs_get (store s.2) d b).
Proof.
  intros [V _ [_ _ T]] G. pose proof (volume_nodup _ _ _ _ V) as [Hx _]%NoDup_cons.
  assert (x ∉ meta (disk dev s.2) addr) by (intros [Hm _]%T; set_solver). split_and!; try done.
  - eapply volume_free; [exact V|set_solver].
  - by rewrite G, !Z.eqb_refl.
  - intros m Hm. rewrite G. destruct (Z.eqb_spec m x); [by subst|]. by rewrite andb_false_r.
  - intros d b Hb. rewrite G. destruct (Z.eqb_spec d dev), (Z.eqb_spec b x); try done. by destruct Hb.
Qed.

Lemma inode_addr_write dev mp ip s addr L i : file_in dev mp ip s addr L -> (i < 8)%nat ->
  exists r s' addr' L', inode_addr ip i false s = Done r s' /\
    step dev mp ip (if (i <? 6)%nat then Some (Z.of_nat i) else None) s addr L s' addr' L' /\
    match r with
    | Some nb => addr' !!! i = nb /\ found dev (addr !!! i) nb s addr L s' addr' L' /\
        ((i < 6)%nat -> addr !!! i = 0 -> nb ∉ meta (disk dev s') addr')
    | None => addr !!! i = 0 /\ addr' = addr /\ L' = [] /\ u_error s' = ENOSPC /\ step dev mp ip None s addr L s' addr' L'
    end.
Proof.
  intros F Hi. pose proof F as [V (x & Hx & Hd & Ha) T]. pose proof (t_len _ _ _ T) as Hl.
  assert (Hlk : i_addr x !! i = Some (addr !!! i)) by (rewrite Ha; apply list_lookup_lookup_total_lt; lia).
  unfold inode_addr. rewrite (kbind_run _ _ _ _ _ (getip_run _ _ _ Hx)), (kbind_run _ _ _ _ _ (at_run _ _ _ _ Hlk)).
  destruct (Z.eqb_spec (addr !!! i) 0) as [H0|H0].
  2:{ exists (Some (addr !!! i)), s, addr, L. split; [done|]. split; [by apply step_same|].
    split; [done|]. split; [|done]. split; [done|]. split; [done|]. by left. }
  rewrite Hd. destruct (balloc_run dev mp L s V) as (s1 & I & C). destruct L as [|y L'].
  { destruct C as (E & V' & U & G). rewrite (kbind_run _ _ _ _ _ E). exists None, s1, addr, [].
    split; [done|]. split; [by apply step_same|]. split_and!; try done. by apply step_same. }
  destruct C as (E & V' & U & G). rewrite (kbind_run _ _ _ _ _ E). cbv beta iota.
  destruct (fresh_disk dev mp (ip, s) s1 addr y L' F G) as (Hy0 & HyL & Hyz & Hym & Hme & Hot). simpl in *.
  exists (Some y), (set_inodes (alter (fun x => set_i_flag (i_flag x |: (IUPD |: ICHG)) (set_i_addr (<[i := y]> (i_addr x)) x)) ip (inodes s1)) s1),
    (<[i := y]> addr), L'. split; [done|].
  assert (HL : length (<[i := y]> addr) = 8%nat) by by rewrite length_insert.
  assert (T1 : tree_ok (disk dev s1) addr (y :: L')).
  { destruct T as [? T2 T3]. pose proof (meta_ext _ _ _ Hme) as HM. split; rewrite ?HM; auto. intros m Hm. rewrite Hme by done. auto. }
  assert (HM : meta (disk dev s1) (<[i := y]> addr) = meta (disk dev s) addr \/
    (meta (disk dev s1) (<[i := y]> addr) ≡ₚ y :: meta (disk dev s) addr /\ length (disk dev s1 y) = 512%nat)).
  { rewrite <- (meta_ext _ _ _ Hme). destruct (decide (i < 6)%nat); [left; by apply meta_set_direct|right].
    split; [|by rewrite Hyz]. apply meta_set_root; [lia|done|done|done|done]. }
  split; [|split; [by apply list_lookup_total_insert_eq; lia|]]; [split|].
  - split.
    + eapply volume_ext; [exact V'|done|done|done].
    + eexists. split; [simpl; rewrite list_lookup_alter_eq, I, Hx; reflexivity|]. simpl. by rewrite Ha.
    + eapply tree_grow; [exact T|done|done|exact HM|]. intros m Hm. simpl. by rewrite Hme.
  - by exists [y].
  - exists (IUPD |: ICHG). simpl. rewrite I. apply list_alter_ext; [|done]. intros z Hz. rewrite Hx in Hz. simplify_eq. done.
  - intros d b Hb. apply Hot. set_solver.
  - intros m Hm. simpl in Hm. destruct HM as [HM|[HM _]]; rewrite HM in Hm; set_solver.
  - intros bn Hb Ht. simpl. rewrite <- (blk_ext (disk dev s) (disk dev s1) addr (y :: L')) by done.
    destruct (Nat.ltb_spec i 6).
    + rewrite blk_set_direct by lia. destruct (Z.eqb_spec bn (Z.of_nat i)); [congruence|done].
    + by apply blk_set_root; [lia|..].
  - split; [split; [done|]; split; [done|]; right; split_and!; [done|set_solver|done|done]|].
    intros Hi6 _. simpl. rewrite meta_set_direct by done. by rewrite (meta_ext _ _ _ Hme).
Qed.

Lemma volume_read dev mp L s b : volume dev mp L s -> exists s1, inodes s1 = inodes s /\ u_error s1 = u_error s /\
  bread dev b s = Done (Buf dev b (disk dev s b) false) s1 /\ volume dev mp L s1 /\
  mounts s1 = mounts s /\ forall d b, bs_get (store s1) d b = bs_get (store s) d b.
Proof.
  intros V. pose proof V as (f & _ & _ & _ & Hf). eexists. split; [|split; [|split; [apply bread_run, Hf|]]]; [done|done|].
  split; [|split; [done|intros; apply bs_read_pure]].
  eapply volume_ext; [exact V|done|intros; apply bs_read_pure|intros; apply bs_read_fails].
Qed.

Lemma indirect_write dev mp ip s addr L m i : file_in dev mp ip s addr L -> m ∈ meta (disk dev s) addr -> 0 <= i < 512 ->
  exists r s' L', indirect dev m i false s = Done r s' /\ volume dev mp L' s' /\ inodes s' = inodes s /\
  match r with
  | inl v => v = -1 /\ disk dev s m !!! Z.to_nat i = 0 /\ L = [] /\ L' = [] /\ u_error s' = ENOSPC /\
      forall d b, bs_get (store s') d b = bs_get (store s) d b
  | inr (nb, bap) => nb <> 0 /\ u_error s' = u_error s /\ length bap = 512%nat /\
      ((disk dev s m !!! Z.to_nat i = nb /\ L' = L /\ forall d b, bs_get (store s') d b = bs_get (store s) d b) \/
       (disk dev s m !!! Z.to_nat i = 0 /\ L = nb :: L' /\ forall d b, bs_get (store s') d b =
          if (d =? dev) && (b =? m) then <[Z.to_nat i := nb]> (disk dev s m)
          else if (d =? dev) && (b =? nb) then zeros else bs_get (store s) d b))
  end.
Proof.
  intros [V _ T] Hm Hi. destruct (t_meta _ _ _ T m Hm) as [HmL Hlen].
  destruct (volume_read dev mp L s m V) as (s1 & I1 & U1 & E1 & V1 & M1 & G1).
  unfold indirect. rewrite (kbind_run _ _ _ _ _ E1). cbn [b_err b_data b_dev b_blkno].
  assert (Hlk : disk dev s m !! Z.to_nat i = Some (disk dev s m !!! Z.to_nat i)) by (apply list_lookup_lookup_total_lt; lia).
  rewrite (kbind_run _ _ _ _ _ (at_run _ _ _ _ Hlk)). destruct (Z.eqb_spec (disk dev s m !!! Z.to_nat i) 0) as [H0|H0].
  2:{ eexists (inr (_, _)), s1, L. split; [reflexivity|]. split_and!; try done. left. auto. }
  destruct (balloc_run dev mp L s1 V1) as (s2 & I2 & C). destruct L as [|y L']; destruct C as (E2 & V2 & U2 & G2);
    rewrite (kbind_run _ _ _ _ _ E2).
  { eexists (inl _), s2, []. split; [reflexivity|]. split_and!; try done; [congruence|]. intros. by rewrite G2. }
  pose proof (volume_nodup _ _ _ _ V) as [Hy _]%NoDup_cons.
  eexists (inr (_, _)), (set_store (bs_write Delayed dev m (<[Z.to_nat i:=y]> (disk dev s m)) (store s2)) s2), L'.
  split; [reflexivity|]. split_and!; try done.
  - eapply volume_ext; [exact V2|done| |intros; apply bs_write_fails]. intros b Hb. simpl. rewrite bs_write_get.
    destruct (Z.eqb_spec b m); [set_solver|]. by rewrite andb_false_r.
  - simpl. congruence.
  - eapply volume_free; [exact V|set_solver].
  - simpl. congruence.
  - by rewrite length_insert.
  - right. split_and!; try done. intros d b. simpl. by rewrite bs_write_get, G2, G1.
Qed.

(** A write into an indirect block, given what it does to the map. *)
Lemma indirect_step dev mp ip s addr s' m i nb L tgt : file_in dev mp ip s addr (nb :: L) ->
  m ∈ meta (disk dev s) addr -> volume dev mp L s' -> inodes s' = inodes s ->
  (forall d b, bs_get (store s') d b = if (d =? dev) && (b =? m) then <[Z.to_nat i := nb]> (disk dev s m)
     else if (d =? dev) && (b =? nb) then zeros else bs_get (store s) d b) ->
  meta (disk dev s') addr = meta (disk dev s) addr \/ meta (disk dev s') addr ≡ₚ nb :: meta (disk dev s) addr ->
  (forall bn, 0 <= bn < FILEMAX -> Some bn <> tgt -> blk (disk dev s') addr bn = blk (disk dev s) addr bn) ->
  step dev mp ip tgt s addr (nb :: L) s' addr L.
Proof.
  intros [V [x (Hx & Hd & Ha)] T] Hm V' I G HM HB. pose proof (volume_nodup _ _ _ _ V) as [Hy _]%NoDup_cons.
  assert (Hnm : nb <> m) by (intros ->; destruct (t_meta _ _ _ T m Hm); set_solver). split; [split| | | | |]; try done.
  - by exists x; rewrite I.
  - eapply tree_grow; [exact T|done|apply (t_len _ _ _ T)| |].
    + destruct HM as [HM|HM]; [by left|right]. split; [done|]. rewrite G, !Z.eqb_refl.
      by destruct (Z.eqb_spec nb m).
    + intros b Hb. rewrite G, Z.eqb_refl. destruct (Z.eqb_spec b m) as [->|]; cbn [andb]; [by rewrite length_insert|].
      destruct (Z.eqb_spec b nb) as [->|]; [|done]. destruct (t_meta _ _ _ T nb Hb). set_solver.
  - by exists [nb].
  - exists 0. rewrite I. symmetry. eapply alter_same; [exact Hx|]. rewrite Z.lor_0_r, <- Ha. by destruct x.
  - intros d b Hb. rewrite G. destruct (Z.eqb_spec d dev), (Z.eqb_spec b m), (Z.eqb_spec b nb); subst; try done;
      destruct Hb as [|[? ?]]; set_solver.
  - intros b Hb. destruct HM as [HM|HM]; rewrite HM in Hb; set_solver.
Qed.

Lemma indirect_changed dev s s' addr m i nb L mp ip : file_in dev mp ip s addr (nb :: L) ->
  (forall d b, bs_get (store s') d b = if (d =? dev) && (b =? m) then <[Z.to_nat i := nb]> (disk dev s m)
     else if (d =? dev) && (b =? nb) then zeros else bs_get (store s) d b) ->
  changed (disk dev s) (disk dev s') addr m i nb.
Proof.
  intros [_ _ T] G. split; [by rewrite G, !Z.eqb_refl|]. intros b Hb Hne. rewrite G, Z.eqb_refl.
  destruct (Z.eqb_spec b m), (Z.eqb_spec b nb); subst; try done. destruct (t_meta _ _ _ T nb Hb). set_solver.
Qed.

(** The last indirect block: [pos] gives the block of the file its entry [i] is for. *)
Definition leaf_at (g : Z -> list Z) (addr : list Z) (m bn i : Z) : Prop :=
  m <> 0 /\ 0 <= i < 512 /\
  ((m = addr !!! 6%nat /\ bn = 6 + i) \/
   (exists k, 0 <= k < 512 /\ m = through g (addr !!! 7%nat) k /\ bn = 518 + 512 * k + i)).

Lemma leaf_facts g addr L m bn i : tree_ok g addr L -> leaf_at g addr m bn i ->
  m ∈ meta g addr /\ m <> addr !!! 7%nat /\ 0 <= bn < FILEMAX /\ blk g addr bn = g m !!! Z.to_nat i /\
  forall g' x, changed g g' addr m i x ->
    blk g' addr bn = x /\ forall b, 0 <= b < FILEMAX -> Some b <> Some bn -> blk g' addr b = blk g addr b.
Proof.
  intros T (Hm0 & Hi & [[-> ->]|(k & Hk & -> & ->)]).
  - assert (Hb : 0 <= 6 + i < FILEMAX) by (unfold FILEMAX; lia). split_and!; try (by apply elem_meta; auto);
      try (by eapply a6_a7); try lia.
    + unfold blk. destruct (Z.ltb_spec (6 + i) 6), (Z.ltb_spec (6 + i) (6 + 512)); try lia. unfold through.
      destruct (Z.eqb_spec (addr !!! 6%nat) 0); [done|]. by replace (6 + i - 6) with i by lia.
    + intros g' x Hc. split; [|intros b Hb' Hne]; erewrite blk_changed_single; eauto.
      * by rewrite Z.eqb_refl.
      * destruct (Z.eqb_spec b (6 + i)); [congruence|done].
  - assert (Hb : 0 <= 518 + 512 * k + i < FILEMAX) by (unfold FILEMAX; lia).
    split_and!; try (by eapply entry_meta); try (by eapply leaf_roots); try lia.
    + unfold blk. destruct (Z.ltb_spec (518 + 512 * k + i) 6), (Z.ltb_spec (518 + 512 * k + i) (6 + 512)); try lia.
      replace (518 + 512 * k + i - 518) with (i + k * 512) by lia.
      rewrite Z.div_add, Z.mod_add, Z.div_small, Z.mod_small by lia. rewrite Z.add_0_l.
      unfold through at 1. by destruct (Z.eqb_spec (through g (addr !!! 7%nat) k) 0).
    + intros g' x Hc. split; [|intros b Hb' Hne]; erewrite blk_changed_leaf; eauto.
      * by rewrite Z.eqb_refl.
      * destruct (Z.eqb_spec b (518 + 512 * k + i)); [congruence|done].
Qed.

(** What [bmap] for writing does with block [bn] of the file: a block, its own or a new
    one of zeros, or no space. *)
Definition write_result (dev : Z) (mp ip : nat) (bn r : Z) (s : kern S) (addr L : list Z) (s' : kern S)
    (addr' L' : list Z) : Prop :=
  (step dev mp ip (Some bn) s addr L s' addr' L' /\ blk (disk dev s') addr' bn = r /\ r <> 0 /\
   u_error s' = u_error s /\
   (blk (disk dev s) addr bn = r \/
    blk (disk dev s) addr bn = 0 /\ r ∈ L /\ disk dev s' r = zeros /\ (r ∉ L') /\ r ∉ meta (disk dev s') addr')) \/
  (r = -1 /\ step dev mp ip None s addr L s' addr' L' /\ blk (disk dev s) addr bn = 0 /\ L' = [] /\ u_error s' = ENOSPC).

Lemma leaf_write dev mp ip s addr L m bn i : file_in dev mp ip s addr L -> leaf_at (disk dev s) addr m bn i ->
  exists r s' L', indirect dev m i false s = Done r s' /\
    match r with
    | inl v => v = -1 /\ write_result dev mp ip bn (-1) s addr L s' addr L'
    | inr (nb, bap) => length bap = 512%nat /\ write_result dev mp ip bn nb s addr L s' addr L'
    end.
Proof.
  intros F Hlf. pose proof F as [V _ T]. destruct (leaf_facts _ _ _ _ _ _ T Hlf) as (Hm & H7 & Hb & Eb & HB).
  destruct Hlf as (_ & Hi & _).
  destruct (indirect_write dev mp ip s addr L m i F Hm Hi) as (r & s' & L' & E & V' & I & C).
  exists r, s', L'. split; [done|]. destruct r as [v|[nb bap]].
  - destruct C as (-> & H0 & -> & -> & U & G). split; [done|]. right. split_and!; try done; [by apply step_same|congruence].
  - destruct C as (Hn & U & Hl & [(Eo & -> & G)|(H0 & -> & G)]); (split; [done|]); left.
    + assert (St : step dev mp ip (Some bn) s addr L s' addr L) by by apply step_same.
      assert (blk (disk dev s') addr bn = blk (disk dev s) addr bn) by (apply (blk_ext _ _ _ L); auto).
      split_and!; try done; [congruence|left; congruence].
    + pose proof (indirect_changed _ _ _ _ _ _ _ _ _ _ F G) as Hc. destruct (HB _ _ Hc) as [Hb1 Hb2].
      split_and!; try done.
      * eapply indirect_step; eauto. left. by eapply meta_changed.
      * pose proof (volume_nodup _ _ _ _ V) as [Hy _]%NoDup_cons.
        right. split_and!; [congruence|set_solver| |done|].
        -- rewrite G, Z.eqb_refl. destruct (Z.eqb_spec nb m) as [->|]; [|by rewrite Z.eqb_refl].
           destruct (t_meta _ _ _ T m Hm). set_solver.
        -- rewrite (meta_changed _ _ _ _ _ _ Hc H7). intros [Hn' _]%(t_meta _ _ _ T). set_solver.
Qed.

(** The double indirect block. *)
Lemma root_write dev mp ip s addr L i : file_in dev mp ip s addr L -> addr !!! 7%nat <> 0 -> 0 <= i < 512 ->
  exists r s' L', indirect dev (addr !!! 7%nat) i false s = Done r s' /\ step dev mp ip None s addr L s' addr L' /\
    match r with
    | inl v => v = -1 /\ through (disk dev s) (addr !!! 7%nat) i = 0 /\ L' = [] /\ u_error s' = ENOSPC
    | inr (nb, bap) => through (disk dev s') (addr !!! 7%nat) i = nb /\ nb <> 0 /\ u_error s' = u_error s
    end.
Proof.
  intros F H7 Hi. pose proof F as [V _ T]. assert (Hm : addr !!! 7%nat ∈ meta (disk dev s) addr) by (apply elem_meta; auto).
  destruct (indirect_write dev mp ip s addr L _ i F Hm Hi) as (r & s' & L' & E & V' & I & C).
  exists r, s', L'. split; [done|]. unfold through. destruct (Z.eqb_spec (addr !!! 7%nat) 0); [done|].
  destruct r as [v|[nb bap]].
  - destruct C as (-> & H0 & -> & -> & U & G). split; [by apply step_same|done].
  - destruct C as (Hn & U & Hl & [(Eo & -> & G)|(H0 & -> & G)]).
    + split; [by apply step_same|]. by rewrite G.
    + pose proof (indirect_changed _ _ _ _ _ _ _ _ _ _ F G) as Hc.
      assert (Hz : through (disk dev s) (addr !!! 7%nat) i = 0).
      { unfold through. by destruct (Z.eqb_spec (addr !!! 7%nat) 0). }
      assert (Hx : disk dev s' nb = zeros).
      { rewrite G, Z.eqb_refl. destruct (Z.eqb_spec nb (addr !!! 7%nat)) as [->|]; [|by rewrite Z.eqb_refl].
        destruct (t_meta _ _ _ T _ Hm). set_solver. }
      split.
      * eapply indirect_step; eauto; [right; by eapply meta_changed_root|intros; by eapply blk_changed_root].
      * destruct Hc as [-> _]. split_and!; try done. apply list_lookup_total_insert_eq.
        destruct (a7_len _ _ _ T H7) as [_ ->]. lia.
Qed.

Lemma step_rablock dev mp ip t s addr L s' addr' L' r : step dev mp ip t s addr L s' addr' L' ->
  step dev mp ip t s addr L (set_rablock r s') addr' L'.
Proof. intros [[V F T] E I St M B]. split; [split|..]; try done. Qed.

Lemma write_rablock dev mp ip bn v s addr L s' addr' L' r : write_result dev mp ip bn v s addr L s' addr' L' ->
  write_result dev mp ip bn v s addr L (set_rablock r s') addr' L'.
Proof. intros [(St & ?)|(? & St & ?)]; [left|right]; split_and!; try tauto; by apply step_rablock. Qed.

(** A step that maps nothing, then a result. *)
Lemma write_after dev mp ip bn v s1 a1 L1 s2 a2 L2 s3 a3 L3 : step dev mp ip None s1 a1 L1 s2 a2 L2 ->
  u_error s2 = u_error s1 -> 0 <= bn < FILEMAX ->
  write_result dev mp ip bn v s2 a2 L2 s3 a3 L3 -> write_result dev mp ip bn v s1 a1 L1 s3 a3 L3.
Proof.
  intros St U Hb [(S2 & B2 & Hv & U2 & O)|(Hv & S2 & B2 & O)].
  - left. split; [by eapply step_trans|]. split; [done|]. split; [done|]. split; [congruence|]. pose proof (st_blk _ _ _ _ _ _ _ _ _ _ St bn Hb) as E.
    destruct O as [O|(O & Ov & Oz)]; rewrite E in O by done; [by left|right]. split; [done|]. split; [|done].
    destruct (st_free _ _ _ _ _ _ _ _ _ _ St) as [T ->]. set_solver.
  - right. split; [done|]. split; [by eapply step_trans|]. split; [|done]. by rewrite (st_blk _ _ _ _ _ _ _ _ _ _ St bn Hb) in B2.
Qed.

Lemma level_spec b : level (Z.to_nat NLEVEL) 0 1 b =
  if b <? 512 then (2%nat, 9, b) else if b - 512 <? 262144 then (1%nat, 18, b - 512) else (0%nat, 18, b - 512 - 262144).
Proof. reflexivity. Qed.

Lemma index_low b : Z.land (Z.shiftr b (9 - NSHIFT)) NMASK = b mod 512.
Proof. change (9 - NSHIFT) with 0. rewrite Z.shiftr_0_r. change NMASK with (Z.ones 9). by rewrite Z.land_ones. Qed.

Lemma index_high b : 0 <= b < 262144 -> Z.land (Z.shiftr b (18 - NSHIFT)) NMASK = b / 512.
Proof.
  intros Hb. change (18 - NSHIFT) with 9. rewrite Z.shiftr_div_pow2 by lia. change NMASK with (Z.ones 9).
  rewrite Z.land_ones by lia. change (2 ^ 9) with 512. pose proof (div_mod_range b 512). apply Z.mod_small. lia.
Qed.

(** The read-ahead block after the last indirect block. *)
Lemma ahead_run bap i (s : kern S) : 0 <= i < 512 -> length bap = 512%nat ->
  exists s', (if i <? NINDIR - 1 then r ← at_ bap (Z.to_nat (i + 1)); puts (set_rablock r) else mret tt) s = Done tt s' /\
    (s' = s \/ exists r, s' = set_rablock r s).
Proof.
  intros Hi Hl. destruct (Z.ltb_spec i (NINDIR - 1)); [|eauto]. unfold NINDIR in *.
  destruct (lookup_lt_is_Some_2 bap (Z.to_nat (i + 1))) as [r Hr]; [lia|].
  rewrite (kbind_run _ _ _ _ _ (at_run _ _ _ _ Hr)). eexists. split; [reflexivity|]. eauto.
Qed.

Lemma direct_blk g addr bn : 0 <= bn < 6 -> blk g addr bn = addr !!! Z.to_nat bn.
Proof. intros. unfold blk. by destruct (Z.ltb_spec bn 6); [|lia]. Qed.

Lemma bmap_direct_write dev mp ip s addr L bn : file_in dev mp ip s addr L -> 0 <= bn < 6 ->
  exists r s' addr' L', bmap ip bn false s = Done r s' /\ write_result dev mp ip bn r s addr L s' addr' L'.
Proof.
  intros F Hb. pose proof F as [V (x & Hx & Hd & Ha) T]. unfold bmap. destruct (Z.ltb_spec bn 0); [lia|].
  rewrite (kbind_run _ _ _ _ _ (getip_run _ _ _ Hx)). cbv zeta.
  match goal with |- context [(puts ?f ≫= _) s] => rewrite (kbind_run (puts f) _ tt s (f s) eq_refl) end.
  destruct (Z.ltb_spec bn (NADDR - NLEVEL)); [|unfold NADDR, NLEVEL in *; lia].
  assert (S0 : step dev mp ip None s addr L (set_rablock 0 s) addr L) by by apply step_same.
  pose proof (st_file _ _ _ _ _ _ _ _ _ _ S0) as F0.
  destruct (inode_addr_write dev mp ip _ addr L (Z.to_nat bn) F0) as (r & s1 & addr' & L' & E & St & C); [lia|].
  rewrite (kbind_run _ _ _ _ _ E).
  replace (Nat.ltb (Z.to_nat bn) 6) with true in St by (symmetry; apply Nat.ltb_lt; lia). rewrite Z2Nat.id in St by lia.
  destruct r as [nb|].
  - destruct C as [Ea [(Hn & U & O) Hnm]]. destruct (fi_inode _ _ _ _ _ _ (st_file _ _ _ _ _ _ _ _ _ _ St)) as (x1 & Hx1 & _ & Ha1).
    assert (Hah : exists s2, (if bn <? NADDR - NLEVEL - 1
      then x ← getip ip; r ← at_ (i_addr x) (Z.to_nat (bn + 1)); puts (set_rablock r) else mret tt) s1 = Done tt s2 /\
      (s2 = s1 \/ exists r, s2 = set_rablock r s1)).
    { destruct (Z.ltb_spec bn (NADDR - NLEVEL - 1)); [|eauto]. rewrite (kbind_run _ _ _ _ _ (getip_run _ _ _ Hx1)).
      pose proof (t_len _ _ _ (fi_tree _ _ _ _ _ _ (st_file _ _ _ _ _ _ _ _ _ _ St))) as Hl.
      destruct (lookup_lt_is_Some_2 (i_addr x1) (Z.to_nat (bn + 1))) as [r Hr]; [rewrite Ha1; lia|].
      rewrite (kbind_run _ _ _ _ _ (at_run _ _ _ _ Hr)). eexists. split; [reflexivity|]. eauto. }
    destruct Hah as (s2 & Eh & Hs2). rewrite (kbind_run _ _ _ _ _ Eh). exists nb, s2, addr', L'. split; [done|].
    assert (W : write_result dev mp ip bn nb s addr L s1 addr' L').
    { eapply write_after; [exact S0|done|unfold FILEMAX; lia|]. left. rewrite !direct_blk by lia.
      split_and!; try done. destruct O as [(O & _)|(O & O1 & O2 & O3)]; [by left|right].
      split_and!; try done. apply Hnm; [lia|done]. }
    destruct Hs2 as [->|[r ->]]; [done|by apply write_rablock].
  - destruct C as (Hz & -> & -> & U & St'). exists (-1), s1, addr, []. split; [done|].
    eapply write_after; [exact S0|done|unfold FILEMAX; lia|]. right. by rewrite direct_blk by lia.
Qed.

(** The last level, with what [bmap] does after it. *)
Definition last_level (r : Z + Z * Z * list Z) : K S Z :=
  match r with
  | inl v => mret v
  | inr (nb, i, bap) =>
      (if i <? NINDIR - 1 then r ← at_ bap (Z.to_nat (i + 1)); puts (set_rablock r) else mret tt);; mret nb
  end.

Lemma fetch_S n dev nb sh bn rd i bap :
  fetch (Datatypes.S n) dev nb sh bn rd i bap =
  (r ← indirect (S := S) dev nb (Z.land (Z.shiftr bn (sh - NSHIFT)) NMASK) rd;
   match r with
   | inl v => mret (inl v)
   | inr (nb, bap) => fetch n dev nb (sh - NSHIFT) bn rd (Z.land (Z.shiftr bn (sh - NSHIFT)) NMASK) bap
   end).
Proof. done. Qed.

Lemma fetch_one dev mp ip s addr L m bn b : file_in dev mp ip s addr L -> leaf_at (disk dev s) addr m bn (b mod 512) ->
  forall i bap, exists r s' L', (fetch 1 dev m 9 b false i bap ≫= last_level) s = Done r s' /\
    write_result dev mp ip bn r s addr L s' addr L'.
Proof.
  intros F Hlf i bap. destruct (leaf_write dev mp ip s addr L m bn _ F Hlf) as (r & s1 & L' & E & C).
  rewrite fetch_S, index_low. destruct Hlf as (_ & Hi & _). unfold mbind at 1, k_bind at 1.
  rewrite (kbind_run _ _ _ _ _ E). destruct r as [v|[nb bap']].
  - destruct C as [-> W]. by exists (-1), s1, L'.
  - destruct C as [Hl W]. simpl. destruct (ahead_run bap' (b mod 512) s1 Hi Hl) as (s2 & Ea & Hs2).
    exists nb, s2, L'. split; [unfold mret, k_ret; by rewrite (kbind_run _ _ _ _ _ Ea)|].
    destruct Hs2 as [->|[r ->]]; [done|by apply write_rablock].
Qed.

Lemma fetch_two dev mp ip s addr L b : file_in dev mp ip s addr L -> addr !!! 7%nat <> 0 -> 0 <= b < 262144 ->
  forall i bap, exists r s' L', (fetch 2 dev (addr !!! 7%nat) 18 b false i bap ≫= last_level) s = Done r s' /\
    write_result dev mp ip (518 + b) r s addr L s' addr L'.
Proof.
  intros F H7 Hb i bap. pose proof (div_mod_range b 512) as Hd. pose proof (Z.div_mod b 512) as Hm.
  destruct (root_write dev mp ip s addr L (b / 512) F H7) as (r & s1 & L1 & E & St & C); [lia|].
  assert (Hblk : through (disk dev s) (addr !!! 7%nat) (b / 512) = 0 -> blk (disk dev s) addr (518 + b) = 0).
  { unfold blk. intros Hz. destruct (Z.ltb_spec (518 + b) 6), (Z.ltb_spec (518 + b) (6 + 512)); try lia.
    replace (518 + b - 518) with b by lia. by rewrite Hz. }
  rewrite fetch_S. rewrite index_high by done. unfold mbind at 1, k_bind at 1. rewrite (kbind_run _ _ _ _ _ E).
  destruct r as [v|[nb bap']].
  - destruct C as (-> & Hz & -> & U). exists (-1), s1, []. split; [done|]. right. auto.
  - destruct C as (En & Hn & U).
    destruct (fetch_one dev mp ip s1 addr L1 nb (518 + b) b (st_file _ _ _ _ _ _ _ _ _ _ St)) with (i := b / 512) (bap := bap')
      as (r & s2 & L2 & E2 & W).
    { split; [done|]. split; [lia|]. right. exists (b / 512). split_and!; lia || done. }
    exists r, s2, L2. split; [exact E2|]. eapply write_after; [exact St|done|unfold FILEMAX; lia|done].
Qed.

Lemma bmap_indirect_write dev mp ip s addr L bn : file_in dev mp ip s addr L -> 6 <= bn < FILEMAX ->
  exists r s' addr' L', bmap ip bn false s = Done r s' /\ write_result dev mp ip bn r s addr L s' addr' L'.
Proof.
  intros F Hb. pose proof F as [V (x & Hx & Hd & Ha) T]. unfold bmap. destruct (Z.ltb_spec bn 0); [lia|].
  rewrite (kbind_run _ _ _ _ _ (getip_run _ _ _ Hx)). cbv zeta.
  match goal with |- context [(puts ?f ≫= _) s] => rewrite (kbind_run (puts f) _ tt s (f s) eq_refl) end.
  destruct (Z.ltb_spec bn (NADDR - NLEVEL)); [unfold NADDR, NLEVEL in *; lia|].
  assert (S0 : step dev mp ip None s addr L (set_rablock 0 s) addr L) by by apply step_same.
  pose proof (st_file _ _ _ _ _ _ _ _ _ _ S0) as F0.
  change (NADDR - NLEVEL) with 6. rewrite level_spec.
  assert (Hroot : forall j, (6 <= j < 8)%nat -> exists r s1 addr' L', inode_addr ip j false (set_rablock 0 s) = Done r s1 /\
    step dev mp ip None s addr L s1 addr' L' /\
    match r with
    | Some nb => addr' !!! j = nb /\ nb <> 0 /\ u_error s1 = u_error s
    | None => addr !!! j = 0 /\ L' = [] /\ u_error s1 = ENOSPC
    end).
  { intros j Hj. destruct (inode_addr_write dev mp ip _ addr L j F0) as (r & s1 & addr' & L' & E & St & C); [lia|].
    exists r, s1, addr', L'. split; [done|]. replace (Nat.ltb j 6) with false in St by (symmetry; apply Nat.ltb_ge; lia).
    split; [by eapply step_trans|]. destruct r; [|tauto]. destruct C as [? [(? & ? & _) _]]. done. }
  unfold FILEMAX in Hb. destruct (Z.ltb_spec (bn - 6) 512).
  - destruct (Hroot 6%nat) as (r & s1 & addr' & L' & E & St & C); [lia|]. cbn [Nat.eqb].
    change (Z.to_nat NADDR - 2)%nat with 6%nat. rewrite (kbind_run _ _ _ _ _ E). destruct r as [nb|].
    + destruct C as (En & Hn & U). change (Z.to_nat NLEVEL + 1 - 2)%nat with 1%nat. rewrite Hd.
      assert (Hlf : leaf_at (disk dev s1) addr' nb bn ((bn - 6) mod 512)).
      { rewrite Z.mod_small by lia. split; [done|]. split; [lia|]. left. split; [done|lia]. }
      destruct (fetch_one _ _ _ _ _ _ _ _ _ (st_file _ _ _ _ _ _ _ _ _ _ St) Hlf 0 []) as (r & s2 & L2 & E2 & W).
      exists r, s2, addr', L2. split; [exact E2|]. eapply write_after; [exact St|done|unfold FILEMAX; lia|done].
    + destruct C as (Hz & -> & U). exists (-1), s1, addr', []. split; [done|]. right. split_and!; try done.
      unfold blk. destruct (Z.ltb_spec bn 6), (Z.ltb_spec bn (6 + 512)); try lia. by rewrite Hz.
  - destruct (Z.ltb_spec (bn - 6 - 512) 262144); [|lia].
    destruct (Hroot 7%nat) as (r & s1 & addr' & L' & E & St & C); [lia|]. cbn [Nat.eqb].
    change (Z.to_nat NADDR - 1)%nat with 7%nat. rewrite (kbind_run _ _ _ _ _ E). destruct r as [nb|].
    + destruct C as (En & Hn & U). change (Z.to_nat NLEVEL + 1 - 1)%nat with 2%nat. rewrite Hd. subst nb.
      destruct (fetch_two _ _ _ _ _ _ (bn - 6 - 512) (st_file _ _ _ _ _ _ _ _ _ _ St) Hn ltac:(lia) 0 [])
        as (r & s2 & L2 & E2 & W).
      replace (518 + (bn - 6 - 512)) with bn in W by lia.
      exists r, s2, addr', L2. split; [exact E2|]. eapply write_after; [exact St|done|unfold FILEMAX; lia|done].
    + destruct C as (Hz & -> & U). exists (-1), s1, addr', []. split; [done|]. right. split_and!; try done.
      unfold blk. destruct (Z.ltb_spec bn 6), (Z.ltb_spec bn (6 + 512)); try lia. by rewrite Hz.
Qed.

(** ** For reading *)

Record unchanged (dev : Z) (mp : nat) (L : list Z) (s s' : kern S) : Prop := {
  un_volume : volume dev mp L s';
  un_inodes : inodes s' = inodes s;
  un_error : u_error s' = u_error s;
  un_store : forall d b, bs_get (store s') d b = bs_get (store s) d b;
  un_mounts : mounts s' = mounts s;
}.

Lemma unchanged_trans dev mp L s1 s2 s3 : unchanged dev mp L s1 s2 -> unchanged dev mp L s2 s3 -> unchanged dev mp L s1 s3.
Proof. intros [] []. split; [done|congruence|congruence| |congruence]. intros. congruence. Qed.

Lemma unchanged_rablock dev mp L s s' r : unchanged dev mp L s s' -> unchanged dev mp L s (set_rablock r s').
Proof. by intros []. Qed.

Lemma indirect_read dev mp L s m i : volume dev mp L s -> length (disk dev s m) = 512%nat -> 0 <= i < 512 ->
  exists s', unchanged dev mp L s s' /\ indirect dev m i true s =
    Done (if disk dev s m !!! Z.to_nat i =? 0 then inl (-1) else inr (disk dev s m !!! Z.to_nat i, disk dev s m)) s'.
Proof.
  intros V Hl Hi. destruct (volume_read dev mp L s m V) as (s1 & I1 & U1 & E1 & V1 & M1 & G1). exists s1. split; [done|].
  unfold indirect. rewrite (kbind_run _ _ _ _ _ E1). cbn [b_err b_data b_dev b_blkno].
  assert (Hlk : disk dev s m !! Z.to_nat i = Some (disk dev s m !!! Z.to_nat i)) by (apply list_lookup_lookup_total_lt; lia).
  rewrite (kbind_run _ _ _ _ _ (at_run _ _ _ _ Hlk)). by destruct (Z.eqb_spec (disk dev s m !!! Z.to_nat i) 0).
Qed.

Lemma fetch_one_read dev mp L s m b i bap : volume dev mp L s -> length (disk dev s m) = 512%nat -> 
  exists s', unchanged dev mp L s s' /\ (fetch 1 dev m 9 b true i bap ≫= last_level) s =
    Done (if disk dev s m !!! Z.to_nat (b mod 512) =? 0 then -1 else disk dev s m !!! Z.to_nat (b mod 512)) s'.
Proof.
  intros V Hl. pose proof (div_mod_range b 512) as Hb.
  destruct (indirect_read dev mp L s m (b mod 512) V Hl) as (s1 & U & E); [lia|].
  rewrite fetch_S, index_low. unfold mbind at 1, k_bind at 1. rewrite (kbind_run _ _ _ _ _ E).
  destruct (Z.eqb_spec (disk dev s m !!! Z.to_nat (b mod 512)) 0); [by exists s1|]. simpl.
  destruct (ahead_run (disk dev s m) (b mod 512) s1) as (s2 & Ea & Hs2); [lia|done|].
  exists s2. split; [|unfold mret, k_ret; by rewrite (kbind_run _ _ _ _ _ Ea)].
  destruct Hs2 as [->|[r ->]]; [done|by apply unchanged_rablock].
Qed.

Lemma inode_addr_read dev mp ip s addr L i : file_in dev mp ip s addr L -> (i < 8)%nat ->
  inode_addr ip i true s = Done (if addr !!! i =? 0 then None else Some (addr !!! i)) s.
Proof.
  intros [V (x & Hx & Hd & Ha) T] Hi. pose proof (t_len _ _ _ T) as Hl.
  assert (Hlk : i_addr x !! i = Some (addr !!! i)) by (rewrite Ha; apply list_lookup_lookup_total_lt; lia).
  unfold inode_addr. rewrite (kbind_run _ _ _ _ _ (getip_run _ _ _ Hx)), (kbind_run _ _ _ _ _ (at_run _ _ _ _ Hlk)).
  by destruct (Z.eqb_spec (addr !!! i) 0).
Qed.

Lemma bmap_read_run dev mp ip s addr L bn : file_in dev mp ip s addr L -> 0 <= bn < FILEMAX ->
  exists s', unchanged dev mp L s s' /\
    bmap ip bn true s = Done (if blk (disk dev s) addr bn =? 0 then -1 else blk (disk dev s) addr bn) s'.
Proof.
  intros F Hb. pose proof F as [V (x & Hx & Hd & Ha) T]. unfold bmap. destruct (Z.ltb_spec bn 0); [lia|].
  rewrite (kbind_run _ _ _ _ _ (getip_run _ _ _ Hx)). cbv zeta.
  match goal with |- context [(puts ?f ≫= _) s] => rewrite (kbind_run (puts f) _ tt s (f s) eq_refl) end.
  assert (U0 : unchanged dev mp L s (set_rablock 0 s)) by done.
  assert (F0 : file_in dev mp ip (set_rablock 0 s) addr L) by (split; [done|by exists x|done]).
  unfold FILEMAX in Hb. unfold blk. change (NADDR - NLEVEL) with 6. destruct (Z.ltb_spec bn 6).
  { rewrite (kbind_run _ _ _ _ _ (inode_addr_read dev mp ip _ addr L (Z.to_nat bn) F0 ltac:(lia))).
    destruct (Z.eqb_spec (addr !!! Z.to_nat bn) 0); [by exists (set_rablock 0 s)|].
    destruct (Z.ltb_spec bn (6 - 1)); [|by exists (set_rablock 0 s)].
    destruct (lookup_lt_is_Some_2 (i_addr x) (Z.to_nat (bn + 1))) as [r Hr]; [rewrite Ha, (t_len _ _ _ T); lia|].
    eexists. split; [|rewrite (kbind_run _ _ tt _ (set_rablock r (set_rablock 0 s))); [done|]].
    - by apply unchanged_rablock.
    - by rewrite (kbind_run _ _ _ _ _ (getip_run ip (set_rablock 0 s) _ Hx)), (kbind_run _ _ _ _ _ (at_run _ _ _ _ Hr)). }
  rewrite level_spec. destruct (Z.ltb_spec (bn - 6) 512), (Z.ltb_spec bn (6 + 512)); try lia.
  - cbn [Nat.eqb]. rewrite (kbind_run _ _ _ _ _ (inode_addr_read dev mp ip _ addr L 6 F0 ltac:(lia))). unfold through.
    destruct (Z.eqb_spec (addr !!! 6%nat) 0); [by exists (set_rablock 0 s)|]. rewrite Hd.
    destruct (fetch_one_read dev mp L (set_rablock 0 s) (addr !!! 6%nat) (bn - 6) 0 []) as (s2 & U & E);
      [done|apply (root_len _ _ _ T), elem_meta; auto|]. rewrite Z.mod_small in E by lia.
    exists s2. split; [by eapply unchanged_trans|exact E].
  - destruct (Z.ltb_spec (bn - 6 - 512) 262144); [|lia]. cbn [Nat.eqb].
    rewrite (kbind_run _ _ _ _ _ (inode_addr_read dev mp ip _ addr L 7 F0 ltac:(lia))).
    destruct (Z.eqb_spec (addr !!! 7%nat) 0) as [E7|E7]; [exists (set_rablock 0 s); by rewrite E7|]. rewrite Hd.
    pose proof (div_mod_range (bn - 6 - 512) 512). destruct (a7_len _ _ _ T E7) as [_ Hl7].
    destruct (indirect_read dev mp L (set_rablock 0 s) (addr !!! 7%nat) ((bn - 6 - 512) / 512)) as (s1 & U & E); [done|done|lia|].
    change (Z.to_nat NLEVEL + 1 - 1)%nat with 2%nat. rewrite fetch_S, index_high by lia.
    replace (bn - 518) with (bn - 6 - 512) by lia. set (k := (bn - 6 - 512) / 512) in *.
    assert (Hth : through (disk dev s) (addr !!! 7%nat) k = disk dev s (addr !!! 7%nat) !!! Z.to_nat k).
    { unfold through. by destruct (Z.eqb_spec (addr !!! 7%nat) 0). }
    unfold mbind at 1, k_bind at 1. rewrite (kbind_run _ _ _ _ _ E). change (disk dev (set_rablock 0 s)) with (disk dev s).
    rewrite Hth. destruct (Z.eqb_spec (disk dev s (addr !!! 7%nat) !!! Z.to_nat k) 0) as [Ek|Ek].
    + rewrite Ek. exists s1. split; [by eapply unchanged_trans|done].
    + destruct (fetch_one_read dev mp L s1 (disk dev s (addr !!! 7%nat) !!! Z.to_nat k) (bn - 6 - 512) k (disk dev s (addr !!! 7%nat)))
        as (s2 & U2 & E2); [apply U|rewrite (un_store _ _ _ _ _ U); rewrite <- Hth in *; apply (root_len _ _ _ T);
        eapply entry_meta; [exact T|lia|done]|].
      exists s2. split; [by eapply unchanged_trans; [eapply unchanged_trans|]|]. rewrite !(un_store _ _ _ _ _ U) in E2.
      unfold through. destruct (Z.eqb_spec (disk dev s (addr !!! 7%nat) !!! Z.to_nat k) 0); [done|]. exact E2.
Qed.

(** Beyond the largest file, for reading as for writing. *)
Lemma bmap_far ip bn rd s x : inodes s !! ip = Some x -> FILEMAX <= bn ->
  bmap ip bn rd s = Done 0 (set_u_error EFBIG (set_rablock 0 s)).
Proof.
  intros Hx Hb. unfold FILEMAX in Hb. unfold bmap. destruct (Z.ltb_spec bn 0); [lia|].
  rewrite (kbind_run _ _ _ _ _ (getip_run _ _ _ Hx)). cbv zeta.
  match goal with |- context [(puts ?f ≫= _) s] => rewrite (kbind_run (puts f) _ tt s (f s) eq_refl) end.
  change (NADDR - NLEVEL) with 6. rewrite level_spec.
  by destruct (Z.ltb_spec bn 6), (Z.ltb_spec (bn - 6) 512), (Z.ltb_spec (bn - 6 - 512) 262144); try lia.
Qed.

(** [bmap] for reading gives the block that the file's addresses and indirect
    blocks name for block [bn], or -1 for a hole, and changes nothing that a later
    operation can see; past the double indirect block, or below 0, it returns 0 with
    [EFBIG]. *)
Theorem bmap_read_correct dev mp ip s addr L bn : file_in dev mp ip s addr L ->
  exists s', (forall d b, bs_get (store s') d b = bs_get (store s) d b) /\ inodes s' = inodes s /\
    (0 <= bn < FILEMAX ->
       bmap ip bn true s = Done (if blk (disk dev s) addr bn =? 0 then -1 else blk (disk dev s) addr bn) s' /\
       volume dev mp L s' /\ u_error s' = u_error s) /\
    (bn < 0 \/ FILEMAX <= bn -> forall rd, bmap ip bn rd s = Done 0 s' /\ u_error s' = EFBIG).
Proof.
  intros F. destruct (decide (0 <= bn < FILEMAX)) as [Hb|Hb].
  - destruct (bmap_read_run dev mp ip s addr L bn F Hb) as (s' & [V I U G] & E). exists s'. split_and!; try done. lia.
  - destruct F as [V (x & Hx & _ & _) T]. destruct (Z.ltb_spec bn 0) as [Hlt|Hge].
    + exists (set_u_error EFBIG s). split_and!; try done. intros _ rd. unfold bmap.
      by destruct (Z.ltb_spec bn 0); [|lia].
    + exists (set_u_error EFBIG (set_rablock 0 s)). split_and!; try done. intros _ rd. by rewrite (bmap_far ip bn rd s x Hx) by lia.
Qed.

Lemma bmap_write_run dev mp ip s addr L bn : file_in dev mp ip s addr L -> 0 <= bn < FILEMAX ->
  exists r s' addr' L', bmap ip bn false s = Done r s' /\ write_result dev mp ip bn r s addr L s' addr' L'.
Proof.
  intros F Hb. destruct (Z.lt_ge_cases bn 6); [apply bmap_direct_write|apply bmap_indirect_write]; done || lia.
Qed.

(** C5. [bmap] for writing returns the block that holds block [bn] of the file: the one
    it has, or one taken off the free list and zeroed, with the indirect blocks it needs.
    The file's other blocks stay where they were, the indirect blocks stay distinct and
    off the free list, and no block of the disk is written that was not free or an
    indirect block of this file.  When the free list runs out it returns -1 with
    [ENOSPC] and no block of the file has moved. *)
Theorem bmap_write_correct dev mp ip s addr L bn : file_in dev mp ip s addr L -> 0 <= bn < FILEMAX ->
  exists r s' addr' L', bmap ip bn false s = Done r s' /\ write_result dev mp ip bn r s addr L s' addr' L'.
Proof. apply bmap_write_run. Qed.
End Run.

(** A file of one block on the volume of [kern1]. *)
Definition file1 : inode := Inode ILOCK 1 7 5 IFREG 1 0 0 3072 [11; 0; 0; 0; 0; 0; 0; 0] 0.
Definition kern2 : kern fstore := set_inodes [file1] kern1.

Lemma kern2_file : file_in 7 1 0 kern2 [11; 0; 0; 0; 0; 0; 0; 0] [50; 60].
Proof.
  split; [|by exists file1|].
  - exists fs1. split; [apply kern1_mounted|]. split; [apply kern1_free|]. done.
  - split; [done|apply NoDup_nil_2|]. by intros m ?%not_elem_of_nil.
Qed.

Lemma bmap_read_correct_witness : exists s', bmap 0 0 true kern2 = Done 11 s' /\ bmap 0 300000 true kern2 =
  Done 0 (set_u_error EFBIG (set_rablock 0 kern2)).
Proof.
  destruct (bmap_read_correct 7 1 0 kern2 _ _ 0 kern2_file) as (s' & _ & _ & E & _).
  exists s'. split; [by apply E|done].
Defined.

Lemma bmap_write_correct_witness : exists r s' addr' L', bmap 0 6 false kern2 = Done r s' /\
  write_result 7 1 0 6 r kern2 [11; 0; 0; 0; 0; 0; 0; 0] [50; 60] s' addr' L'.
Proof. apply (bmap_write_correct 7 1 0 kern2 _ _ 6 kern2_file). by unfold FILEMAX. Defined.
