(* ===== verification/Inode.v ===== *)
(** * Inodes: [kernel/iget.c], [ialloc], [ifree] and [update] of [kernel/alloc.c],
    [plock] and [prele] of [kernel/pipe.c] *)

From S2P Require Import Prelude Param Kern Alloc Bmap.

Section Inode.
Context {S : Type} `{BlockStore S}.

(** ** Locks *)

Definition plock (ip : nat) : K S unit :=
  x ← getip ip;
  if i_flag x &? ILOCK then modip ip (fun x => set_i_flag (i_flag x |: IWANT) x);; sleep (ChInode ip)
  else modip ip (fun x => set_i_flag (i_flag x |: ILOCK) x).

Definition prele (ip : nat) : K S unit :=
  modip ip (fun x => set_i_flag (i_flag x &~ ILOCK) x);;
  x ← getip ip;
  if i_flag x &? IWANT
  then modip ip (fun x => set_i_flag (i_flag x &~ IWANT) x);; wakeup (ChInode ip)
  else mret tt.

(** ** Freeing a file's blocks *)

(** The loop of [tloop] over entries [n - 1] down to 0 of the indirect block [bn]; [bp]
    is its buffer while it is held, [nested] what to do with an entry when [f1] is set.
    The result is false when a read failed and [tloop] returned. *)
Fixpoint tloop_loop (n : nat) (nested : option (Z -> K S unit)) (dev bn : Z) (bp : option buf) : K S bool :=
  match n with
  | O => (match bp with Some b => brelse b | None => mret tt end);; mret true
  | Datatypes.S i =>
      b ← (match bp with Some b => mret b | None => bread dev bn end);
      if bool_decide (bp = None) && b_err b then brelse b;; mret false
      else
        nb ← at_ (b_data b) i;
        if nb =? 0 then tloop_loop i nested dev bn (Some b)
        else
          match nested with
          | Some tloop => brelse b;; tloop nb;; tloop_loop i nested dev bn None
          | None => free dev nb;; tloop_loop i nested dev bn (Some b)
          end
  end.

(** Fuel is the depth of the nesting: the second flag of a nested call is 0, so it is
    at most 2. *)
Fixpoint tloop (fuel : nat) (dev bn : Z) (f1 f2 : bool) : K S unit :=
  let nested := if f1 then Some (fun nb => match fuel with O => nofuel | Datatypes.S fuel => tloop fuel dev nb f2 false end)
                else None in
  go ← tloop_loop (Z.to_nat NINDIR) nested dev bn None;
  if (go : bool) then free dev bn else mret tt.

(** Entries [n - 1] down to 0 of the inode. *)
Fixpoint itrunc_loop (n : nat) (ip : nat) (dev : Z) : K S unit :=
  match n with
  | O => mret tt
  | Datatypes.S i =>
      x ← getip ip;
      bn ← at_ (i_addr x) i;
      (if bn =? 0 then mret tt
       else
         modip ip (fun x => set_i_addr (<[i := 0]> (i_addr x)) x);;
         if (Z.of_nat i =? NADDR - 2) then tloop 2 dev bn false false
         else if (Z.of_nat i =? NADDR - 1) then tloop 2 dev bn true false
         else free dev bn);;
      itrunc_loop i ip dev
  end.

Definition itrunc (ip : nat) : K S unit :=
  x ← getip ip;
  let i := Z.land (i_mode x) IFMT in
  if negb (i =? IFREG) && negb (i =? IFDIR) then mret tt
  else
    itrunc_loop (Z.to_nat NADDR) ip (i_dev x);;
    modip ip (fun x => set_i_flag (i_flag x |: (ICHG |: IUPD)) (set_i_size 0 x)).

(** ** The inode on the disk: 16 words *)

Definition iexpand (ip : nat) (d : list Z) (o : nat) : K S unit :=
  m ← at_ d (o + 0); l ← at_ d (o + 1); u ← at_ d (o + 2); g ← at_ d (o + 3); z ← at_ d (o + 4);
  modip ip (fun x => set_i_addr (take 8 (drop (o + 8) d)) (set_i_size z (set_i_gid g (set_i_uid u
    (set_i_nlink l (set_i_mode m x)))))).

(** [dp += itoo(ino)]. *)
Definition dinode_at (ino : Z) : nat := 16 * Z.to_nat (itoo ino).

(** The words of inode [x] over the ones in [d] at [o]. *)
Definition dinode_put (x : inode) (now ta tm : Z) (o : nat) (d : list Z) : list Z :=
  let w i v d := <[(o + i)%nat := v]> d in
  let d := w 0%nat (i_mode x) d in
  let d := w 1%nat (i_nlink x) d in
  let d := w 2%nat (i_uid x) d in
  let d := w 3%nat (i_gid x) d in
  let d := w 4%nat (i_size x) d in
  let d := list_inserts (o + 8) (take 8 (i_addr x)) d in
  let d := if i_flag x &? IACC then w 5%nat ta d else d in
  let d := if i_flag x &? IUPD then w 6%nat tm d else d in
  if i_flag x &? ICHG then w 7%nat now d else d.

Definition iupdat (ip : nat) (ta tm : Z) : K S unit :=
  x ← getip ip;
  if i_flag x &? (IUPD |: IACC |: ICHG) then
    mp ← getfs (i_dev x);
    f ← fp mp;
    if negb (s_ronly f =? 0) then mret tt
    else
      bp ← bread (i_dev x) (itod (i_number x));
      if b_err bp then brelse bp
      else
        now ← gets time;
        modip ip (fun x => set_i_flag (i_flag x &~ (IUPD |: IACC |: ICHG)) x);;
        bdwrite (Buf (b_dev bp) (b_blkno bp) (dinode_put x now ta tm (dinode_at (i_number x)) (b_data bp)) false)
  else mret tt.

(** ** [ifree] and [iput] *)

(** [fp->s_inode[fp->s_ninode++] = ino]. *)
Definition push_ino (ino : Z) (f : filsys) : filsys :=
  set_s_ninode (s_ninode f + 1) (set_s_inode (<[Z.to_nat (s_ninode f) := ino]> (s_inode f)) f).

Definition ifree (dev ino : Z) : K S unit :=
  mp ← getfs dev;
  modfp mp (fun f => set_s_fmod 1 (set_s_tinode (s_tinode f + 1) f));;
  f ← fp mp;
  if negb (s_ilock f =? 0) then mret tt
  else if NICINOD <=? s_ninode f then mret tt
  else
    _ ← at_ (s_inode f) (Z.to_nat (s_ninode f));
    modfp mp (push_ino ino).

Definition iput (ip : nat) : K S unit :=
  x ← getip ip;
  (if i_count x =? 1 then
     modip ip (fun x => set_i_flag (i_flag x |: ILOCK) x);;
     (if i_nlink x <=? 0 then
        itrunc ip;;
        modip ip (fun x => set_i_flag (i_flag x |: (IUPD |: ICHG)) (set_i_mode 0 x));;
        x ← getip ip;
        ifree (i_dev x) (i_number x)
      else mret tt);;
     now ← gets time;
     iupdat ip now now;;
     prele ip;;
     modip ip (fun x => set_i_number 0 (set_i_flag 0 x))
   else mret tt);;
  modip ip (fun x => set_i_count (dec8 (i_count x)) x);;
  prele ip.

(** ** [iget] *)

(** The search: the slot that holds the inode, or else the first unused one. *)
Fixpoint iget_scan (i : nat) (l : list inode) (dev ino : Z) (oip : option nat) : nat + option nat :=
  match l with
  | [] => inr oip
  | x :: l =>
      if (ino =? i_number x) && (dev =? i_dev x) then inl i
      else iget_scan (i + 1) l dev ino
             (if bool_decide (oip = None) && (i_count x =? 0) then Some i else oip)
  end.

(** The mount whose [m_inodp] is [ip]. *)
Definition mounted_on (ip : nat) (l : list mount) : option mount :=
  snd <$> list_find (fun m => m_inodp m = Some ip) l.

(** One turn from the label [loop]; [again] is [goto loop] at a mounted root. *)
Definition iget_turn (again : Z -> Z -> K S (option nat)) (dev ino : Z) : K S (option nat) :=
  l ← gets inodes;
  match iget_scan 0 l dev ino None with
  | inl ip =>
      x ← getip ip;
      if i_flag x &? ILOCK then
        modip ip (fun x => set_i_flag (i_flag x |: IWANT) x);; sleep (ChInode ip)
      else if i_flag x &? IMOUNT then
        ms ← gets mounts;
        match mounted_on ip ms with
        | None => panic "no imt"
        | Some m => again (m_dev m) ROOTINO
        end
      else
        modip ip (fun x => set_i_flag (i_flag x |: ILOCK) (set_i_count (inc8 (i_count x)) x));;
        mret (Some ip)
  | inr None => error ENFILE;; mret None
  | inr (Some ip) =>
      modip ip (fun x => set_i_lastr 0 (set_i_count (inc8 (i_count x)) (set_i_flag ILOCK
        (set_i_number ino (set_i_dev dev x)))));;
      bp ← bread dev (itod ino);
      if b_err bp then brelse bp;; iput ip;; mret None
      else iexpand ip (b_data bp) (dinode_at ino);; brelse bp;; mret (Some ip)
  end.

(** Fuel: each turn after the first goes to the root of a mounted file system. *)
Fixpoint iget (fuel : nat) (dev ino : Z) : K S (option nat) :=
  iget_turn (match fuel with O => fun _ _ => nofuel | Datatypes.S fuel => iget fuel end) dev ino.

(** ** [ialloc] *)

(** The inodes of one block of the i-list from slot [k], [n] of them: the free ones that
    are not in core go into [s_inode].  The result is the next i-number. *)
Fixpoint iscan_block (n k : nat) (mp : nat) (dev : Z) (d : list Z) (ino : Z) : K S Z :=
  match n with
  | O => mret ino
  | Datatypes.S n =>
      mode ← at_ d (16 * k);
      l ← gets inodes;
      if negb (mode =? 0) || existsb (fun x => (dev =? i_dev x) && (ino =? i_number x)) l
      then iscan_block n (k + 1) mp dev d (ino + 1)
      else
        f ← fp mp;
        _ ← at_ (s_inode f) (Z.to_nat (s_ninode f));
        modfp mp (push_ino ino);;
        f ← fp mp;
        if NICINOD <=? s_ninode f then mret ino else iscan_block n (k + 1) mp dev d (ino + 1)
  end.

(** [n] blocks of the i-list from [adr]. *)
Fixpoint iscan (n : nat) (mp : nat) (dev adr ino : Z) : K S unit :=
  match n with
  | O => mret tt
  | Datatypes.S n =>
      bp ← bread dev adr;
      if b_err bp then brelse bp;; iscan n mp dev (adr + 1) (ino + INOPB)
      else
        ino ← iscan_block (Z.to_nat INOPB) 0 mp dev (b_data bp) ino;
        brelse bp;;
        f ← fp mp;
        if NICINOD <=? s_ninode f then mret tt else iscan n mp dev (adr + 1) ino
  end.

Definition ialloc_refill (mp : nat) (dev : Z) : K S unit :=
  modfp mp (fun f => set_s_ilock (s_ilock f + 1) f);;
  f ← fp mp;
  iscan (Z.to_nat (s_isize f - (SUPERB + 1))) mp dev (SUPERB + 1) 1;;
  modfp mp (set_s_ilock 0);;
  wakeup (ChIlock dev).

(** One turn from the label [loop]; [again] is [goto loop]. *)
Definition ialloc_turn (again : K S (option nat)) (mp : nat) (dev : Z) : K S (option nat) :=
  f ← fp mp;
  if 0 <? s_ninode f then
    modfp mp (set_s_ninode (s_ninode f - 1));;
    ino ← at_ (s_inode f) (Z.to_nat (s_ninode f - 1));
    if ino <? ROOTINO then again
    else
      ip ← iget (Z.to_nat NMOUNT) dev ino;
      match ip with
      | None => mret None
      | Some ip =>
          x ← getip ip;
          if i_mode x =? 0 then
            modip ip (set_i_addr (replicate 8 0));;
            modfp mp (fun f => set_s_tinode (s_tinode f - 1) (set_s_fmod 1 f));;
            mret (Some ip)
          else iput ip;; again
      end
  else
    ialloc_refill mp dev;;
    f ← fp mp;
    if 0 <? s_ninode f then again
    else prdev "Out of inodes" dev;; error ENOSPC;; mret None.

(** Every [goto loop] takes fuel. *)
Fixpoint ialloc_loop (fuel : nat) (mp : nat) (dev : Z) : K S (option nat) :=
  ialloc_turn (match fuel with O => nofuel | Datatypes.S fuel => ialloc_loop fuel mp dev end) mp dev.

Definition ialloc (fuel : nat) (dev : Z) : K S (option nat) :=
  mp ← getfs dev;
  f ← fp mp;
  if negb (s_ilock f =? 0) then sleep (ChIlock dev) else ialloc_loop fuel mp dev.

(** ** [update] *)

(** The superblock as words. *)
Definition filsys_words (f : filsys) : list Z :=
  [s_magic f; s_bsize f; s_inopb f; s_naddr f; s_isize f; s_fsize f; s_time f; s_tfree f; s_tinode f; s_flock f;
   s_ilock f; s_fmod f; s_ronly f; s_nfree f] ++ s_free f ++ s_ninode f :: s_inode f ++ s_fill f.

(** Entries [mp] to [mp + n - 1] of the mount table. *)
Fixpoint update_supers (n mp : nat) : K S unit :=
  match n with
  | O => mret tt
  | Datatypes.S n =>
      l ← gets mounts;
      m ← at_ l mp;
      (match m_bufp m with
       | None => mret tt
       | Some f =>
           if (s_fmod f =? 0) || negb (s_ilock f =? 0) || negb (s_flock f =? 0) || negb (s_ronly f =? 0) then mret tt
           else
             bp ← getblk (m_dev m) SUPERB;
             if b_err bp then mret tt
             else
               now ← gets time;
               modfp mp (fun f => set_s_time now (set_s_fmod 0 f));;
               f ← fp mp;
               bwrite (Buf (b_dev bp) (b_blkno bp) (filsys_words f) (b_err bp))
       end);;
      update_supers n (mp + 1)
  end.

Fixpoint update_inodes (n ip : nat) : K S unit :=
  match n with
  | O => mret tt
  | Datatypes.S n =>
      x ← getip ip;
      (if negb (i_flag x &? ILOCK) && negb (i_count x =? 0) then
         modip ip (fun x => set_i_count (inc8 (i_count x)) (set_i_flag (i_flag x |: ILOCK) x));;
         now ← gets time;
         iupdat ip now now;;
         iput ip
       else mret tt);;
      update_inodes n (ip + 1)
  end.

Definition update : K S unit :=
  lk ← gets updlock;
  if negb (lk =? 0) then mret tt
  else
    puts (set_updlock (lk + 1));;
    ms ← gets mounts;
    update_supers (length ms) 0;;
    l ← gets inodes;
    update_inodes (length l) 0;;
    puts (set_updlock 0);;
    bflush NODEV.
End Inode.

(** ** The inode table *)

(** No inode is in core twice. *)
Definition table_ok (l : list inode) : Prop :=
  forall i j x y, l !! i = Some x -> l !! j = Some y -> i_number x <> 0 -> i_number x = i_number y ->
    i_dev x = i_dev y -> i = j.

Definition is_inode (dev ino : Z) (x : inode) : Prop := i_number x = ino /\ i_dev x = dev.
#[global] Instance is_inode_dec dev ino x : Decision (is_inode dev ino x) := _.

(** The first unused slot. *)
Definition first_unused (l : list inode) : option nat := fst <$> list_find (fun x => i_count x = 0) l.

Lemma iget_scan_spec dev ino l : forall i oip,
  match list_find (is_inode dev ino) l with
  | Some (j, _) => iget_scan i l dev ino oip = inl (i + j)%nat
  | None => iget_scan i l dev ino oip =
      inr (match oip with Some o => Some o | None => (fun j => i + j)%nat <$> first_unused l end)
  end.
Proof.
  induction l as [|x l IH]; intros i oip; [by destruct oip|]. cbn [list_find iget_scan]. unfold first_unused. cbn [list_find].
  case_decide as Hx.
  - destruct Hx as [-> ->]. rewrite !Z.eqb_refl. apply (f_equal inl). lia.
  - assert (E : (ino =? i_number x) && (dev =? i_dev x) = false).
    { destruct (Z.eqb_spec ino (i_number x)), (Z.eqb_spec dev (i_dev x)); try done. by destruct Hx. }
    rewrite E. specialize (IH (i + 1)%nat (if bool_decide (oip = None) && (i_count x =? 0) then Some i else oip)).
    destruct (list_find (is_inode dev ino) l) as [[j y]|]; cbn [fmap option_fmap option_map prod_map]; rewrite IH.
    + apply (f_equal inl). simpl. lia.
    + f_equal. destruct oip as [o|]; [done|]. cbn [bool_decide]. rewrite bool_decide_eq_true_2 by done. cbn [andb].
      case_decide as Hc; [rewrite Hc; simpl; apply (f_equal Some); lia|]. destruct (Z.eqb_spec (i_count x) 0); [done|].
      unfold first_unused. destruct (list_find _ l) as [[j y]|]; simpl; [apply (f_equal Some); lia|done].
Qed.

Lemma scan_found dev ino l ip x : table_ok l -> ino <> 0 -> l !! ip = Some x -> is_inode dev ino x ->
  iget_scan 0 l dev ino None = inl ip.
Proof.
  intros T H0 Hx Hi. pose proof (iget_scan_spec dev ino l 0 None) as Hs.
  destruct (list_find (is_inode dev ino) l) as [[j y]|] eqn:E.
  - rewrite Hs. apply list_find_Some in E as (Hy & Hi' & _). simpl. f_equal.
    destruct Hi, Hi'. apply (T j ip y x); congruence.
  - apply list_find_None in E. rewrite Forall_forall in E. destruct (E x); [|done]. by eapply list_elem_of_lookup_2.
Qed.

Lemma scan_unused dev ino l : (forall x, x ∈ l -> ~ is_inode dev ino x) ->
  iget_scan 0 l dev ino None = inr (first_unused l).
Proof.
  intros Hn. pose proof (iget_scan_spec dev ino l 0 None) as Hs.
  destruct (list_find (is_inode dev ino) l) as [[j y]|] eqn:E.
  - apply list_find_Some in E as (Hy & Hi & _). destruct (Hn y); [|done]. by eapply list_elem_of_lookup_2.
  - rewrite Hs. by destruct (first_unused l).
Qed.

(** ** The inode on the disk *)

(** Inode [x] with the fields of the words [d] at [o]. *)
Definition inode_of (d : list Z) (o : nat) (x : inode) : inode :=
  set_i_addr (take 8 (drop (o + 8) d)) (set_i_size (d !!! (o + 4)%nat) (set_i_gid (d !!! (o + 3)%nat)
    (set_i_uid (d !!! (o + 2)%nat) (set_i_nlink (d !!! (o + 1)%nat) (set_i_mode (d !!! (o + 0)%nat) x))))).

Lemma dinode_at_bound ino : (dinode_at ino <= 496)%nat.
Proof.
  unfold dinode_at, itoo. change INOMASK with (Z.ones 5). rewrite Z.land_ones by lia.
  pose proof (Z.mod_pos_bound (ino + INOPB - 1) (2 ^ 5)). lia.
Qed.

Ltac ins_len := repeat first [rewrite length_insert | rewrite length_inserts].

Lemma dinode_put_len x now ta tm o d : length (dinode_put x now ta tm o d) = length d.
Proof. unfold dinode_put. repeat case_match; by ins_len. Qed.

Lemma dinode_put_other x now ta tm o d j : (j < o \/ o + 16 <= j)%nat -> length (i_addr x) = 8%nat ->
  dinode_put x now ta tm o d !! j = d !! j.
Proof.
  intros Hj Hl. unfold dinode_put.
  assert (Hi : forall d, list_inserts (o + 8) (take 8 (i_addr x)) d !! j = d !! j).
  { intros. destruct Hj; [apply list_lookup_inserts_lt; lia|apply list_lookup_inserts_ge; rewrite length_take; lia]. }
  repeat case_match; repeat (first [rewrite Hi | rewrite list_lookup_insert_ne by lia]); done.
Qed.

Lemma dinode_put_get x now ta tm o d y : (o + 16 <= length d)%nat -> length (i_addr x) = 8%nat ->
  inode_of (dinode_put x now ta tm o d) o y =
    set_i_addr (i_addr x) (set_i_size (i_size x) (set_i_gid (i_gid x) (set_i_uid (i_uid x)
      (set_i_nlink (i_nlink x) (set_i_mode (i_mode x) y))))).
Proof.
  intros Hl Ha. unfold inode_of.
  assert (Hw : forall i v, (i < 5)%nat -> [i_mode x; i_nlink x; i_uid x; i_gid x; i_size x] !! i = Some v ->
    dinode_put x now ta tm o d !!! (o + i)%nat = v).
  { intros i v Hi Hv. apply list_lookup_total_correct. unfold dinode_put.
    destruct i as [|[|[|[|[|]]]]]; simplify_eq/=; try lia;
    repeat case_match; repeat (first [rewrite list_lookup_insert_eq by (ins_len; lia) | rewrite list_lookup_insert_ne by lia
      | rewrite list_lookup_inserts_lt by lia]); done. }
  rewrite (Hw 0%nat (i_mode x)), (Hw 1%nat (i_nlink x)), (Hw 2%nat (i_uid x)), (Hw 3%nat (i_gid x)), (Hw 4%nat (i_size x)) by (done || lia).
  f_equal. apply list_eq. intros k. destruct (decide (k < 8)%nat) as [Hk|Hk].
  - rewrite lookup_take_lt, lookup_drop by lia. unfold dinode_put.
    destruct (lookup_lt_is_Some_2 (i_addr x) k) as [v Hv]; [lia|]. rewrite Hv.
    repeat case_match; repeat (rewrite list_lookup_insert_ne by lia);
      (rewrite list_lookup_inserts by (ins_len; rewrite ?length_take; lia);
       replace (o + 8 + k - (o + 8))%nat with k by lia; by rewrite lookup_take_lt by lia).
  - rewrite !lookup_ge_None_2; [done|lia|]. rewrite length_take. lia.
Qed.

(** ** The operations on a mounted volume *)

Section Run.
Context {S : Type} `{BlockStore S}.
Notation disk dev s := (bs_get (store s) dev).

Lemma modip_run ip f (s : kern S) : modip ip f s = Done tt (set_inodes (alter f ip (inodes s)) s).
Proof. done. Qed.

Lemma kgets_run {A B} (g : kern S -> A) (f : A -> K S B) s : (gets g ≫= f) s = f (g s) s.
Proof. done. Qed.

Lemma iget_unfold fuel dev ino :
  iget (S := S) fuel dev ino = iget_turn (match fuel with O => fun _ _ => nofuel | Datatypes.S fuel => iget fuel end) dev ino.
Proof. by destruct fuel. Qed.

Lemma ialloc_loop_unfold fuel mp dev : ialloc_loop (S := S) fuel mp dev =
  ialloc_turn (match fuel with O => nofuel | Datatypes.S fuel => ialloc_loop fuel mp dev end) mp dev.
Proof. by destruct fuel. Qed.

(** A mounted superblock whose counts are in range. *)
Definition super (dev : Z) (mp : nat) (f : filsys) (s : kern S) : Prop :=
  mounted dev mp f s /\ s_nfree f <= NICFREE /\ s_ninode f <= NICINOD.

Lemma super_getfs dev mp f s : super dev mp f s -> getfs dev s = Done mp s.
Proof. intros (Hm & ? & ?). by apply (getfs_run dev mp f). Qed.

Lemma super_same dev mp f s s' : super dev mp f s -> mounts s' = mounts s -> super dev mp f s'.
Proof. intros (Hm & ? & ?) E. split; [by eapply mounted_same|done]. Qed.

Lemma iupdat_run dev mp f s ip x ta tm : super dev mp f s -> s_ronly f = 0 -> inodes s !! ip = Some x -> i_dev x = dev ->
  (i_flag x &? (IUPD |: IACC |: ICHG)) = true -> bs_fails (store s) dev (itod (i_number x)) = false ->
  exists s', iupdat ip ta tm s = Done tt s' /\
    inodes s' = alter (fun x => set_i_flag (i_flag x &~ (IUPD |: IACC |: ICHG)) x) ip (inodes s) /\
    mounts s' = mounts s /\ u_error s' = u_error s /\ time s' = time s /\
    (forall d b, bs_fails (store s') d b = bs_fails (store s) d b) /\
    forall d b, bs_get (store s') d b = if (d =? dev) && (b =? itod (i_number x))
      then dinode_put x (time s) ta tm (dinode_at (i_number x)) (disk dev s (itod (i_number x)))
      else bs_get (store s) d b.
Proof.
  intros Hs Hro Hx Hd Hfl Hrd. unfold iupdat. rewrite (kbind_run _ _ _ _ _ (getip_run _ _ _ Hx)), Hfl, Hd.
  rewrite (kbind_run _ _ _ _ _ (super_getfs _ _ _ _ Hs)), (kbind_run _ _ _ _ _ (fp_run dev mp f s (proj1 Hs))), Hro.
  change (negb (0 =? 0)) with false. cbv iota. rewrite (kbind_run _ _ _ _ _ (bread_run _ _ _ Hrd)). cbn [b_err b_data b_dev b_blkno].
  eexists. split; [reflexivity|]. split_and!; try done; intros d b; simpl.
  - by rewrite bs_write_fails, bs_read_fails.
  - rewrite bs_write_get. destruct ((d =? dev) && (b =? itod (i_number x))); [done|]. apply bs_read_pure.
Qed.

Lemma iexpand_run ip d o (s : kern S) : (o + 16 <= length d)%nat ->
  iexpand ip d o s = Done tt (set_inodes (alter (inode_of d o) ip (inodes s)) s).
Proof.
  intros Hl. assert (Hw : forall i, (i < 16)%nat -> d !! (o + i)%nat = Some (d !!! (o + i)%nat)).
  { intros. apply list_lookup_lookup_total_lt. lia. }
  unfold iexpand. rewrite (kbind_run _ _ _ _ _ (at_run _ _ _ _ (Hw 0%nat ltac:(lia)))),
    (kbind_run _ _ _ _ _ (at_run _ _ _ _ (Hw 1%nat ltac:(lia)))), (kbind_run _ _ _ _ _ (at_run _ _ _ _ (Hw 2%nat ltac:(lia)))),
    (kbind_run _ _ _ _ _ (at_run _ _ _ _ (Hw 3%nat ltac:(lia)))), (kbind_run _ _ _ _ _ (at_run _ _ _ _ (Hw 4%nat ltac:(lia)))).
  apply modip_run.
Qed.

(** What [iget] makes of a slot it loads. *)
Definition loaded (dev ino : Z) (d : list Z) (x : inode) : inode :=
  inode_of d (dinode_at ino) (set_i_lastr 0 (set_i_count (inc8 (i_count x)) (set_i_flag ILOCK
    (set_i_number ino (set_i_dev dev x))))).

Lemma iget_load fuel dev ino s ip : (forall x, x ∈ inodes s -> ~ is_inode dev ino x) ->
  first_unused (inodes s) = Some ip -> bs_fails (store s) dev (itod ino) = false ->
  length (disk dev s (itod ino)) = 512%nat ->
  exists s', iget fuel dev ino s = Done (Some ip) s' /\
    inodes s' = alter (loaded dev ino (disk dev s (itod ino))) ip (inodes s) /\
    mounts s' = mounts s /\ u_error s' = u_error s /\
    (forall d b, bs_get (store s') d b = bs_get (store s) d b) /\
    (forall d b, bs_fails (store s') d b = bs_fails (store s) d b).
Proof.
  intros Hn Hu Hrd Hl. pose proof (scan_unused _ _ _ Hn) as Hsc. rewrite Hu in Hsc.
  pose proof (dinode_at_bound ino) as Hb.
  rewrite iget_unfold. unfold iget_turn. rewrite kgets_run, Hsc.
  match goal with |- context [(modip ip ?f ≫= _) _] => rewrite (kbind_run _ _ _ _ _ (modip_run ip f s)) end.
  match goal with |- context [set_inodes ?l s] =>
    rewrite (kbind_run _ _ _ _ _ (bread_run dev (itod ino) (set_inodes l s) Hrd)); cbn [b_err b_data store set_inodes] end.
  rewrite (kbind_run _ _ _ _ _ (iexpand_run ip (disk dev s (itod ino)) (dinode_at ino) _ ltac:(lia))). eexists. split; [reflexivity|].
  split_and!; try done; [simpl; by rewrite list_alter_alter_eq|intros; apply bs_read_pure|intros; apply bs_read_fails].
Qed.

Lemma iget_in_core fuel dev ino s ip x : table_ok (inodes s) -> ino <> 0 -> inodes s !! ip = Some x -> is_inode dev ino x ->
  iget fuel dev ino s =
    if i_flag x &? ILOCK then
      Sleeps (ChInode ip) (set_inodes (alter (fun x => set_i_flag (i_flag x |: IWANT) x) ip (inodes s)) s)
    else if i_flag x &? IMOUNT then
      match mounted_on ip (mounts s), fuel with
      | None, _ => KPanic "no imt"
      | Some m, O => KNoFuel
      | Some m, Datatypes.S fuel => iget fuel (m_dev m) ROOTINO s
      end
    else Done (Some ip) (set_inodes (alter (fun x => set_i_flag (i_flag x |: ILOCK)
      (set_i_count (inc8 (i_count x)) x)) ip (inodes s)) s).
Proof.
  intros T H0 Hx Hi. pose proof (scan_found _ _ _ _ _ T H0 Hx Hi) as Hsc.
  rewrite iget_unfold. unfold iget_turn. rewrite kgets_run, Hsc, (kbind_run _ _ _ _ _ (getip_run _ _ _ Hx)).
  destruct (i_flag x &? ILOCK); [done|]. destruct (i_flag x &? IMOUNT); [|done]. rewrite kgets_run.
  by destruct (mounted_on ip (mounts s)), fuel.
Qed.

Lemma table_ok_load dev ino d l ip x : table_ok l -> (forall x, x ∈ l -> ~ is_inode dev ino x) -> l !! ip = Some x ->
  table_ok (alter (loaded dev ino d) ip l).
Proof.
  intros T Hn Hx i j y z Hy Hz H0 E1 E2. destruct (decide (i = ip)) as [->|Hi], (decide (j = ip)) as [->|Hj]; try done.
  - rewrite list_lookup_alter_eq, Hx in Hy. rewrite list_lookup_alter_ne in Hz by done. simplify_eq/=.
    destruct (Hn z); [by eapply list_elem_of_lookup_2|done].
  - rewrite list_lookup_alter_eq, Hx in Hz. rewrite list_lookup_alter_ne in Hy by done. simplify_eq/=.
    destruct (Hn y); [by eapply list_elem_of_lookup_2|done].
  - rewrite list_lookup_alter_ne in Hy, Hz by done. by eapply T.
Qed.

(** ** Running out of inodes *)

(** [di_mode] of inode [ino] on the disk [g]. *)
Definition dmode (g : Z -> list Z) (ino : Z) : Z := g (itod ino) !!! dinode_at ino.

Lemma dinode_slot adr k : 1 <= adr -> (k < 32)%nat ->
  itod (32 * (adr - 1) + Z.of_nat k + 1) = adr /\ dinode_at (32 * (adr - 1) + Z.of_nat k + 1) = (16 * k)%nat.
Proof.
  intros Ha Hk. unfold itod, dinode_at, itoo, INOPB, INOSHIFT.
  replace (32 * (adr - 1) + Z.of_nat k + 1 + 32 - 1) with (Z.of_nat k + adr * 32) by lia.
  rewrite Z.shiftr_div_pow2 by lia. change (2 ^ 5) with 32. change INOMASK with (Z.ones 5).
  rewrite Z.land_ones by lia. change (2 ^ 5) with 32. rewrite Z.div_add, Z.mod_add, Z.div_small, Z.mod_small by lia. lia.
Qed.

Lemma iscan_block_S n k mp dev d ino : iscan_block (S := S) (Datatypes.S n) k mp dev d ino =
  (mode ← at_ d (16 * k);
   l ← gets inodes;
   if negb (mode =? 0) || existsb (fun x => (dev =? i_dev x) && (ino =? i_number x)) l
   then iscan_block n (k + 1) mp dev d (ino + 1)
   else
     f ← fp mp;
     _ ← at_ (s_inode f) (Z.to_nat (s_ninode f));
     modfp mp (push_ino ino);;
     f ← fp mp;
     if NICINOD <=? s_ninode f then mret ino else iscan_block n (k + 1) mp dev d (ino + 1)).
Proof. done. Qed.

(** Slots whose inode is in use are passed over. *)
Lemma iscan_block_skip n mp dev d (s : kern S) : forall k ino,
  (forall j, (k <= j < k + n)%nat -> exists m, d !! (16 * j)%nat = Some m /\ m <> 0) ->
  iscan_block n k mp dev d ino s = Done (ino + Z.of_nat n) s.
Proof.
  induction n as [|n IH]; intros k ino Hd; [simpl; unfold mret, k_ret; by rewrite Z.add_0_r|].
  destruct (Hd k) as (m & Hm & Hm0); [lia|]. rewrite iscan_block_S, (kbind_run _ _ _ _ _ (at_run _ _ _ _ Hm)), kgets_run.
  destruct (Z.eqb_spec m 0); [done|]. cbn [negb orb]. rewrite IH by (intros; apply Hd; lia). f_equal. lia.
Qed.

(** Blocks of the i-list from [adr] whose inodes are all in use. *)
Definition all_used (dev adr n : Z) (s : kern S) : Prop :=
  forall a k, adr <= a < adr + n -> (k < 32)%nat -> exists m, disk dev s a !! (16 * k)%nat = Some m /\ m <> 0.

Definition same_view (s s' : kern S) : Prop :=
  mounts s' = mounts s /\ inodes s' = inodes s /\
  (forall d b, bs_get (store s') d b = bs_get (store s) d b) /\
  (forall d b, bs_fails (store s') d b = bs_fails (store s) d b).

Lemma bread_view dev b s : bs_fails (store s) dev b = false -> exists s1, same_view s s1 /\
  bread dev b s = Done (Buf dev b (disk dev s b) false) s1.
Proof.
  intros Hf. eexists. split; [|apply bread_run, Hf]. split_and!; try done; intros; [apply bs_read_pure|apply bs_read_fails].
Qed.

Lemma iscan_skip n mp f dev : forall adr ino s, mounted dev mp f s -> s_ninode f < NICINOD ->
  (forall b, bs_fails (store s) dev b = false) -> all_used dev adr (Z.of_nat n) s ->
  exists s', iscan n mp dev adr ino s = Done tt s' /\ same_view s s'.
Proof.
  induction n as [|n IH]; intros adr ino s Hm Hn Hf Hu; [by exists s|]. cbn [iscan].
  destruct (bread_view dev adr s (Hf adr)) as (s1 & (M1 & I1 & G1 & F1) & E1).
  rewrite (kbind_run _ _ _ _ _ E1). cbn [b_err b_data].
  rewrite (kbind_run _ _ _ _ _ (iscan_block_skip (Z.to_nat INOPB) mp dev (disk dev s adr) s1 0 ino
    ltac:(intros j Hj; apply Hu; [lia|change (Z.to_nat INOPB) with 32%nat in Hj; lia]))).
  assert (Hm1 : mounted dev mp f s1) by by eapply mounted_same. unfold brelse. rewrite kret_run.
  rewrite (kbind_run _ _ _ _ _ (fp_run _ _ _ _ Hm1)). destruct (Z.leb_spec NICINOD (s_ninode f)); [lia|].
  destruct (IH (adr + 1) (ino + Z.of_nat (Z.to_nat INOPB)) s1) as (s2 & E2 & M2 & I2 & G2 & F2); try done.
  - intros. by rewrite F1.
  - intros a k Ha Hk. rewrite G1. apply Hu; [lia|done].
  - exists s2. split; [done|]. split_and!; congruence || (intros; congruence).
Qed.

(** The volume has no free inode but 1, which is not in core; the list in the superblock
    is empty or holds just 1. *)
Definition stuck (dev : Z) (mp : nat) (s : kern S) : Prop := exists f,
  super dev mp f s /\ s_ilock f = 0 /\ length (s_inode f) = 160%nat /\ 2 <= s_isize f /\
  (s_ninode f = 0 \/ s_ninode f = 1 /\ s_inode f !! 0%nat = Some 1) /\
  (forall b, bs_fails (store s) dev b = false) /\
  disk dev s 1 !! 0%nat = Some 0 /\
  (forall k, (0 < k < 32)%nat -> exists m, disk dev s 1 !! (16 * k)%nat = Some m /\ m <> 0) /\
  all_used dev 2 (s_isize f - 2) s /\ (forall x, x ∈ inodes s -> ~ is_inode dev 1 x).

Lemma in_core_false (l : list inode) dev ino : (forall x, x ∈ l -> ~ is_inode dev ino x) ->
  existsb (fun x => (dev =? i_dev x) && (ino =? i_number x)) l = false.
Proof.
  intros Hn. apply not_true_is_false. intros (x & Hx & Hc)%existsb_exists. apply (Hn x).
  - by apply list_elem_of_In.
  - unfold is_inode. lia.
Qed.

(** The refill of a stuck volume finds inode 1. *)
Lemma stuck_refill dev mp f s : mounted dev mp f s -> s_ninode f = 0 -> length (s_inode f) = 160%nat -> 2 <= s_isize f ->
  (forall b, bs_fails (store s) dev b = false) -> disk dev s 1 !! 0%nat = Some 0 ->
  (forall k, (0 < k < 32)%nat -> exists m, disk dev s 1 !! (16 * k)%nat = Some m /\ m <> 0) ->
  all_used dev 2 (s_isize f - 2) s -> (forall x, x ∈ inodes s -> ~ is_inode dev 1 x) ->
  exists s', ialloc_refill mp dev s = Done tt s' /\ mounted dev mp (set_s_ilock 0 (push_ino 1 f)) s' /\
    inodes s' = inodes s /\ (forall d b, bs_get (store s') d b = bs_get (store s) d b) /\
    (forall d b, bs_fails (store s') d b = bs_fails (store s) d b).
Proof.
  intros Hm Hn Hl Hi Hf H1 Hk Hu Hc. unfold ialloc_refill.
  rewrite (kbind_run _ _ _ _ _ (modfp_run mp (fun f => set_s_ilock (s_ilock f + 1) f) s)).
  pose proof (mounted_upd _ _ _ (fun f => set_s_ilock (s_ilock f + 1) f) _ Hm) as Hm1.
  rewrite (kbind_run _ _ _ _ _ (fp_run _ _ _ _ Hm1)). cbn [s_isize set_s_ilock].
  replace (Z.to_nat (s_isize f - (SUPERB + 1))) with (Datatypes.S (Z.to_nat (s_isize f - 2))) by (unfold SUPERB; lia).
  change (SUPERB + 1) with 1. set (s1 := upd mp _ s) in *.
  destruct (bread_view dev 1 s1 (Hf 1)) as (s2 & (M2 & I2 & G2 & F2) & E2).
  assert (Hm2 : mounted dev mp (set_s_ilock (s_ilock f + 1) f) s2) by by eapply mounted_same.
  pose proof (mounted_upd _ _ _ (push_ino 1) _ Hm2) as Hm3.
  assert (Hblk : iscan_block 32 0 mp dev (disk dev s1 1) 1 s2 = Done 33 (upd mp (push_ino 1) s2)).
  { rewrite (iscan_block_S 31), (kbind_run _ _ _ _ _ (at_run _ _ _ _ H1)), kgets_run, in_core_false by (rewrite I2; done).
    change (negb (0 =? 0) || false) with false. cbv iota. rewrite (kbind_run _ _ _ _ _ (fp_run _ _ _ _ Hm2)).
    cbn [s_inode s_ninode set_s_ilock]. rewrite Hn.
    destruct (lookup_lt_is_Some_2 (s_inode f) (Z.to_nat 0)) as [y Hy]; [rewrite Hl; lia|].
    rewrite (kbind_run _ _ _ _ _ (at_run _ _ _ _ Hy)).
    rewrite (kbind_run _ _ _ _ _ (modfp_run mp (push_ino 1) s2)), (kbind_run _ _ _ _ _ (fp_run _ _ _ _ Hm3)).
    cbn [s_ninode push_ino set_s_ninode set_s_inode set_s_ilock]. rewrite Hn. change (NICINOD <=? 0 + 1) with false. cbv iota.
    rewrite (iscan_block_skip 31); [done|]. intros j Hj. apply Hk. lia. }
  destruct (iscan_skip (Z.to_nat (s_isize f - 2)) mp _ dev 2 33 _ Hm3) as (s4 & E4 & M4 & I4 & G4 & F4).
  { cbn [s_ninode push_ino set_s_ninode set_s_inode set_s_ilock]. rewrite Hn. by unfold NICINOD. }
  { intros. simpl. by rewrite F2. }
  { rewrite Z2Nat.id by lia. intros a k Ha Hk'. simpl. rewrite G2. by apply Hu. }
  assert (Hm4 : mounted dev mp (push_ino 1 (set_s_ilock (s_ilock f + 1) f)) s4) by by eapply mounted_same.
  assert (Escan : iscan (Datatypes.S (Z.to_nat (s_isize f - 2))) mp dev 1 1 s1 = Done tt s4).
  { cbn [iscan]. rewrite (kbind_run _ _ _ _ _ E2). cbn [b_err b_data]. change (Z.to_nat INOPB) with 32%nat.
    rewrite (kbind_run _ _ _ _ _ Hblk). unfold brelse. rewrite kret_run, (kbind_run _ _ _ _ _ (fp_run _ _ _ _ Hm3)).
    cbn [s_ninode push_ino set_s_ninode set_s_inode set_s_ilock]. rewrite Hn. exact E4. }
  rewrite (kbind_run _ _ _ _ _ Escan). pose proof (mounted_upd _ _ _ (set_s_ilock 0) _ Hm4) as Hm5.
  eexists. split; [reflexivity|]. split; [eapply mounted_same; [exact Hm5|done]|].
  split_and!; simpl; [by rewrite I4; simpl; rewrite I2|intros; by rewrite G4; simpl; rewrite G2|intros; by rewrite F4; simpl; rewrite F2].
Qed.

Lemma stuck_turn dev mp s : stuck dev mp s -> exists s', stuck dev mp s' /\
  forall again, ialloc_turn again mp dev s = again s'.
Proof.
  intros (f & (Hm & Hnf & Hni) & Hil & Hl & Hi & Hn & Hf & H1 & Hk & Hu & Hc). destruct Hn as [Hn|[Hn Hh]].
  - destruct (stuck_refill dev mp f s) as (s1 & E & Hm1 & I1 & G1 & F1); try done. exists s1. split.
    + exists (set_s_ilock 0 (push_ino 1 f)). cbn [s_ninode push_ino set_s_ninode set_s_inode set_s_ilock s_inode s_isize s_ilock s_nfree].
      split; [by split; [|split; simpl; rewrite ?Hn; unfold NICINOD]|]. split_and!; try done.
      * by rewrite length_insert.
      * right. rewrite Hn. split; [done|]. apply list_lookup_insert_eq. lia.
      * intros. by rewrite F1.
      * by rewrite G1.
      * intros. rewrite G1. auto.
      * intros a k Ha Hk'. rewrite G1. by apply Hu.
      * by rewrite I1.
    + intros again. unfold ialloc_turn. rewrite (kbind_run _ _ _ _ _ (fp_run _ _ _ _ Hm)), Hn. change (0 <? 0) with false.
      cbv iota. rewrite (kbind_run _ _ _ _ _ E), (kbind_run _ _ _ _ _ (fp_run _ _ _ _ Hm1)).
      cbn [s_ninode push_ino set_s_ninode set_s_inode set_s_ilock]. by rewrite Hn.
  - pose proof (mounted_upd _ _ _ (set_s_ninode 0) _ Hm) as Hm1. exists (upd mp (set_s_ninode 0) s). split.
    + exists (set_s_ninode 0 f). split_and!; try done. by left.
    + intros again. unfold ialloc_turn. rewrite (kbind_run _ _ _ _ _ (fp_run _ _ _ _ Hm)), Hn. change (0 <? 1) with true.
      cbv iota. change (1 - 1) with 0. rewrite (kbind_run _ _ _ _ _ (modfp_run _ _ _)).
      by rewrite (kbind_run _ _ _ _ _ (at_run _ _ _ _ Hh)).
Qed.

(** C33. [ialloc] does not return on a volume that has no free inode but number 1, which
    [mkfs] leaves with [di_mode] 0: the search through the i-list puts 1 in [s_inode], the
    test against [ROOTINO] throws it away, and the search starts again. *)
Theorem ialloc_spins dev mp s : stuck dev mp s -> forall fuel, ialloc fuel dev s = KNoFuel.
Proof.
  intros Hs fuel. pose proof Hs as (f & Hsu & Hil & _). unfold ialloc.
  rewrite (kbind_run _ _ _ _ _ (super_getfs _ _ _ _ Hsu)), (kbind_run _ _ _ _ _ (fp_run _ _ _ _ (proj1 Hsu))), Hil.
  change (negb (0 =? 0)) with false. cbv iota. clear f Hsu Hil. revert s Hs.
  induction fuel as [|fuel IH]; intros s Hs; destruct (stuck_turn _ _ _ Hs) as (s' & Hs' & E);
    rewrite ialloc_loop_unfold, E; [done|by apply IH].
Qed.

(** [ialloc] with a good i-number on top of [s_inode] (at least [ROOTINO], free on the
    disk, not in core) returns that inode, locked, in the first unused slot of the table,
    with mode 0 and no blocks, takes the number off the list and counts [s_tinode] down. *)
Theorem ialloc_correct fuel dev mp f s ino ip x : super dev mp f s -> s_ilock f = 0 -> 0 < s_ninode f ->
  s_inode f !! Z.to_nat (s_ninode f - 1) = Some ino -> ROOTINO <= ino ->
  (forall y, y ∈ inodes s -> ~ is_inode dev ino y) -> first_unused (inodes s) = Some ip -> inodes s !! ip = Some x ->
  bs_fails (store s) dev (itod ino) = false -> length (disk dev s (itod ino)) = 512%nat ->
  dmode (disk dev s) ino = 0 ->
  exists s' y, ialloc fuel dev s = Done (Some ip) s' /\ inodes s' = <[ip := y]> (inodes s) /\
    is_inode dev ino y /\ i_mode y = 0 /\ i_addr y = replicate 8 0 /\ i_flag y = ILOCK /\ i_count y = inc8 (i_count x) /\
    mounted dev mp (set_s_tinode (s_tinode f - 1) (set_s_fmod 1 (set_s_ninode (s_ninode f - 1) f))) s' /\
    (forall d b, bs_get (store s') d b = bs_get (store s) d b).
Proof.
  intros Hs Hil Hn Hino Hr Hc Hu Hx Hrd Hl H0. unfold ialloc.
  rewrite (kbind_run _ _ _ _ _ (super_getfs _ _ _ _ Hs)), (kbind_run _ _ _ _ _ (fp_run _ _ _ _ (proj1 Hs))), Hil.
  change (negb (0 =? 0)) with false. cbv iota. rewrite ialloc_loop_unfold. unfold ialloc_turn.
  rewrite (kbind_run _ _ _ _ _ (fp_run _ _ _ _ (proj1 Hs))). destruct (Z.ltb_spec 0 (s_ninode f)); [|lia].
  rewrite (kbind_run _ _ _ _ _ (modfp_run mp (set_s_ninode (s_ninode f - 1)) s)), (kbind_run _ _ _ _ _ (at_run _ _ _ _ Hino)).
  destruct (Z.ltb_spec ino ROOTINO); [lia|]. pose proof (mounted_upd _ _ _ (set_s_ninode (s_ninode f - 1)) _ (proj1 Hs)) as Hm1.
  destruct (iget_load (Z.to_nat NMOUNT) dev ino (upd mp (set_s_ninode (s_ninode f - 1)) s) ip Hc Hu Hrd Hl)
    as (s1 & E1 & I1 & M1 & U1 & G1 & F1). simpl in I1, G1.
  assert (Hy : inodes s1 !! ip = Some (loaded dev ino (disk dev s (itod ino)) x)) by (by rewrite I1, list_lookup_alter_eq, Hx).
  rewrite (kbind_run _ _ _ _ _ E1). cbv beta iota. rewrite (kbind_run _ _ _ _ _ (getip_run _ _ _ Hy)).
  change (i_mode (loaded dev ino (disk dev s (itod ino)) x)) with (disk dev s (itod ino) !!! (dinode_at ino + 0)%nat).
  rewrite Nat.add_0_r. fold (dmode (disk dev s) ino). rewrite H0. change (0 =? 0) with true. cbv iota.
  assert (Hm2 : mounted dev mp (set_s_ninode (s_ninode f - 1) f) s1) by by eapply mounted_same.
  pose proof (mounted_upd _ _ _ (fun f => set_s_tinode (s_tinode f - 1) (set_s_fmod 1 f)) _ Hm2) as Hm3.
  eexists _, (set_i_addr (replicate 8 0) (loaded dev ino (disk dev s (itod ino)) x)). split; [reflexivity|].
  split_and!; try done.
  - simpl. rewrite I1, list_alter_alter_eq. apply list_eq. intros j. destruct (decide (j = ip)) as [->|Hj].
    + rewrite list_lookup_alter_eq, Hx, list_lookup_insert_eq; [done|]. by eapply lookup_lt_Some.
    + by rewrite list_lookup_alter_ne, list_lookup_insert_ne.
  - simpl. rewrite Nat.add_0_r. exact H0.
Qed.

(** C24. [iget] of an inode that is in core takes the slot that holds it: it waits with
    [IWANT] set while the slot is locked, goes on at the root of the file system mounted
    there, or else counts one more reference and locks the slot.  An inode that is not in
    core is read from its place in the i-list into the first slot without references,
    changes no block, and keeps the table free of duplicates; with no such slot the result
    is [NULL] with [ENFILE]. *)
Theorem iget_correct fuel dev ino s : table_ok (inodes s) -> ino <> 0 ->
  bs_fails (store s) dev (itod ino) = false -> length (disk dev s (itod ino)) = 512%nat ->
  (forall ip x, inodes s !! ip = Some x -> is_inode dev ino x ->
     ((i_flag x &? ILOCK) = true -> iget fuel dev ino s =
        Sleeps (ChInode ip) (set_inodes (alter (fun x => set_i_flag (i_flag x |: IWANT) x) ip (inodes s)) s)) /\
     ((i_flag x &? ILOCK) = false -> (i_flag x &? IMOUNT) = true -> forall m, mounted_on ip (mounts s) = Some m ->
        iget (Datatypes.S fuel) dev ino s = iget fuel (m_dev m) ROOTINO s) /\
     ((i_flag x &? ILOCK) = false -> (i_flag x &? IMOUNT) = false -> iget fuel dev ino s =
        Done (Some ip) (set_inodes (alter (fun x => set_i_flag (i_flag x |: ILOCK)
          (set_i_count (inc8 (i_count x)) x)) ip (inodes s)) s))) /\
  ((forall x, x ∈ inodes s -> ~ is_inode dev ino x) ->
     match first_unused (inodes s) with
     | None => iget fuel dev ino s = Done None (set_u_error ENFILE s)
     | Some ip => exists s', iget fuel dev ino s = Done (Some ip) s' /\
         inodes s' = alter (loaded dev ino (disk dev s (itod ino))) ip (inodes s) /\ table_ok (inodes s') /\
         mounts s' = mounts s /\ (forall d b, bs_get (store s') d b = bs_get (store s) d b)
     end).
Proof.
  intros T H0 Hrd Hl. split.
  - intros ip x Hx Hi. split_and!.
    + intros Hk. by rewrite (iget_in_core fuel dev ino s ip x T H0 Hx Hi), Hk.
    + intros Hk Hmt m Hmo. by rewrite (iget_in_core (Datatypes.S fuel) dev ino s ip x T H0 Hx Hi), Hk, Hmt, Hmo.
    + intros Hk Hmt. by rewrite (iget_in_core fuel dev ino s ip x T H0 Hx Hi), Hk, Hmt.
  - intros Hn. destruct (first_unused (inodes s)) as [ip|] eqn:Hu.
    + destruct (iget_load fuel dev ino s ip Hn Hu Hrd Hl) as (s' & E & I & M & _ & G & _). exists s'. split_and!; try done.
      rewrite I. unfold first_unused in Hu. destruct (list_find _ _) as [[j x]|] eqn:Hfd; [|done]. simplify_eq/=.
      apply list_find_Some in Hfd as (Hx & _). by eapply table_ok_load.
    + rewrite iget_unfold. unfold iget_turn. rewrite kgets_run, (scan_unused _ _ _ Hn), Hu. done.
Qed.

(** [iupdat] of a changed inode on a writable volume puts mode, links, owner, group,
    size and addresses into its 16 words of the i-list, where [iget] reads them back, and
    changes no other inode of the block and no other block; the change flags are cleared. *)
Theorem iupdat_correct dev mp f s ip x ta tm : super dev mp f s -> s_ronly f = 0 -> inodes s !! ip = Some x ->
  i_dev x = dev -> (i_flag x &? (IUPD |: IACC |: ICHG)) = true ->
  bs_fails (store s) dev (itod (i_number x)) = false -> length (disk dev s (itod (i_number x))) = 512%nat ->
  length (i_addr x) = 8%nat ->
  exists s', iupdat ip ta tm s = Done tt s' /\
    inodes s' = alter (fun x => set_i_flag (i_flag x &~ (IUPD |: IACC |: ICHG)) x) ip (inodes s) /\
    (forall y, inode_of (disk dev s' (itod (i_number x))) (dinode_at (i_number x)) y =
       set_i_addr (i_addr x) (set_i_size (i_size x) (set_i_gid (i_gid x) (set_i_uid (i_uid x)
         (set_i_nlink (i_nlink x) (set_i_mode (i_mode x) y)))))) /\
    (forall n k, itod n = itod (i_number x) -> itoo n <> itoo (i_number x) -> 0 <= k < 16 ->
       disk dev s' (itod n) !! (dinode_at n + Z.to_nat k)%nat = disk dev s (itod n) !! (dinode_at n + Z.to_nat k)%nat) /\
    (forall d b, (d, b) <> (dev, itod (i_number x)) -> bs_get (store s') d b = bs_get (store s) d b).
Proof.
  intros Hs Hro Hx Hd Hfl Hrd Hl Ha.
  destruct (iupdat_run dev mp f s ip x ta tm Hs Hro Hx Hd Hfl Hrd) as (s' & E & I & _ & _ & _ & _ & G).
  pose proof (dinode_at_bound (i_number x)). exists s'. split_and!; try done.
  - intros y. rewrite G, !Z.eqb_refl. apply dinode_put_get; [lia|done].
  - intros n k Hn Ho Hk. rewrite Hn, G, !Z.eqb_refl. apply dinode_put_other; [|done].
    unfold dinode_at, itoo in *. change INOMASK with (Z.ones 5) in *. rewrite !Z.land_ones in * by lia.
    pose proof (Z.mod_pos_bound (n + INOPB - 1) (2 ^ 5)). pose proof (Z.mod_pos_bound (i_number x + INOPB - 1) (2 ^ 5)). lia.
  - intros d b Hne. rewrite G. destruct (Z.eqb_spec d dev), (Z.eqb_spec b (itod (i_number x))); try done. congruence.
Qed.
End Run.

(** ** [itrunc] *)

Definition nz (l : list Z) : list Z := filter (fun b => b <> 0) l.

(** The blocks of a file, in the order in which they come off the free list after
    [itrunc]: an indirect block before the blocks it names. *)
Definition leaf_blocks (g : Z -> list Z) (b : Z) : list Z := b :: nz (g b).
Definition double_blocks (g : Z -> list Z) (b : Z) : list Z := b :: (nz (g b) ≫= leaf_blocks g).
Definition entry_blocks (g : Z -> list Z) (i : nat) (b : Z) : list Z :=
  if b =? 0 then [] else if (i =? 6)%nat then leaf_blocks g b else if (i =? 7)%nat then double_blocks g b else [b].
Definition file_blocks (g : Z -> list Z) (addr : list Z) (n : nat) : list Z :=
  mjoin (imap (entry_blocks g) (take n addr)).

Section Trunc.
Context {S : Type} `{BlockStore S}.
Context (dev : Z) (mp : nat) (lo hi : Z).
Notation disk s := (bs_get (store s) dev).

(** The blocks [B] went from use to the free list, which was [L]. *)
Record freed (B L : list Z) (s s' : kern S) : Prop := {
  fr_vol : sized dev mp lo hi (B ++ L) s';
  fr_inodes : inodes s' = inodes s;
  fr_error : u_error s' = u_error s;
  fr_store : forall d b, ~ (d = dev /\ b ∈ B) -> bs_get (store s') d b = bs_get (store s) d b;
}.

(** [B] can be freed. *)
Definition freeable (B L : list Z) : Prop := NoDup (B ++ L) /\ forall b, b ∈ B -> lo <= b < hi.

Lemma freeable_app B1 B2 L : freeable (B2 ++ B1) L -> freeable B1 L /\ freeable B2 (B1 ++ L).
Proof.
  intros [Hn Hr]. rewrite <- app_assoc in Hn. pose proof Hn as (_ & _ & Hn1)%NoDup_app.
  split; split; try done; set_solver.
Qed.

Lemma freed_nil L s : sized dev mp lo hi L s -> freed [] L s s.
Proof. by split. Qed.

Lemma freed_trans B1 B2 L s1 s2 s3 : freed B1 L s1 s2 -> freed B2 (B1 ++ L) s2 s3 -> freed (B2 ++ B1) L s1 s3.
Proof.
  intros [V1 I1 U1 G1] [V2 I2 U2 G2]. split; [by rewrite <- app_assoc|congruence|congruence|].
  intros d b Hb. rewrite G2, G1; set_solver.
Qed.

Lemma free_freed b L s : sized dev mp lo hi L s -> freeable [b] L ->
  exists s', free dev b s = Done tt s' /\ freed [b] L s s'.
Proof.
  intros V [[Hb _]%NoDup_cons Hr].
  destruct (free_sized dev mp lo hi L s b V (Hr b ltac:(set_solver)) Hb) as (s' & E & V' & I & U & G).
  exists s'. split; [done|]. split; try done. intros d c Hc. apply G. intros ?. simplify_eq. set_solver.
Qed.

Lemma tloop_loop_S i nested bn bp : tloop_loop (S := S) (Datatypes.S i) nested dev bn bp =
  (b ← (match bp with Some b => mret b | None => bread dev bn end);
   if bool_decide (bp = None) && b_err b then brelse b;; mret false
   else
     nb ← at_ (b_data b) i;
     if nb =? 0 then tloop_loop i nested dev bn (Some b)
     else
       match nested with
       | Some tloop => brelse b;; tloop nb;; tloop_loop i nested dev bn None
       | None => free dev nb;; tloop_loop i nested dev bn (Some b)
       end).
Proof. done. Qed.

Lemma tloop_unfold fuel bn f1 f2 : tloop (S := S) fuel dev bn f1 f2 =
  (go ← tloop_loop (Z.to_nat NINDIR) (if f1 then Some (fun nb => match fuel with
     | O => nofuel | Datatypes.S fuel => tloop fuel dev nb f2 false end) else None) dev bn None;
   if (go : bool) then free dev bn else mret tt).
Proof. by destruct fuel. Qed.

(** Without a buffer the block is read first. *)
Lemma tloop_loop_read i nested bn L s : sized dev mp lo hi L s -> exists s1, freed [] L s s1 /\
  tloop_loop (Datatypes.S i) nested dev bn None s =
  tloop_loop (Datatypes.S i) nested dev bn (Some (Buf dev bn (disk s bn) false)) s1.
Proof.
  intros V. pose proof V as (f & _ & _ & _ & Hf & _). destruct (bread_view dev bn s (Hf bn)) as (s1 & (M & I & G & F) & E).
  exists s1. split.
  - split; [by eapply sized_ext|done| |auto]. apply (f_equal (fun r => match r with Done _ t => u_error t | _ => 0 end)) in E.
    rewrite (bread_run dev bn s (Hf bn)) in E. by simpl in E.
  - rewrite !tloop_loop_S, (kbind_run _ _ _ _ _ E), kret_run. cbn [b_err]. by rewrite !andb_false_r.
Qed.

Lemma nz_snoc (d : list Z) n : (n < length d)%nat ->
  nz (take (Datatypes.S n) d) = nz (take n d) ++ (if d !!! n =? 0 then [] else [d !!! n]).
Proof.
  intros Hn. rewrite (take_S_r d n (d !!! n)) by (by apply list_lookup_lookup_total_lt). unfold nz. rewrite filter_app.
  f_equal. destruct (Z.eqb_spec (d !!! n) 0); [by rewrite filter_cons_False by auto|by rewrite filter_cons_True].
Qed.

(** The entries of an indirect block in hand. *)
Lemma leaf_loop d bn n : forall L s, (n <= length d)%nat -> sized dev mp lo hi L s -> freeable (nz (take n d)) L ->
  exists s', tloop_loop n None dev bn (Some (Buf dev bn d false)) s = Done true s' /\ freed (nz (take n d)) L s s'.
Proof.
  induction n as [|n IH]; intros L s Hn V HB; [exists s; split; [done|by apply freed_nil]|].
  rewrite tloop_loop_S, kret_run. cbn [b_err b_data]. rewrite andb_false_r.
  rewrite (kbind_run _ _ _ _ _ (at_run _ _ _ _ (list_lookup_lookup_total_lt d n ltac:(lia)))).
  rewrite nz_snoc in * by lia. destruct (Z.eqb_spec (d !!! n) 0) as [E0|E0].
  - rewrite app_nil_r in *. apply IH; [lia|done|done].
  - apply freeable_app in HB as [HB1 HB2]. destruct (free_freed _ _ _ V HB1) as (s1 & E1 & F1).
    rewrite (kbind_run _ _ _ _ _ E1). destruct (IH _ s1 ltac:(lia) (fr_vol _ _ _ _ F1) HB2) as (s2 & E2 & F2).
    exists s2. split; [done|]. by eapply freed_trans.
Qed.

Lemma tloop_leaf fuel f2 bn L s : sized dev mp lo hi L s -> length (disk s bn) = 512%nat -> freeable (leaf_blocks (disk s) bn) L ->
  exists s', tloop fuel dev bn false f2 s = Done tt s' /\ freed (leaf_blocks (disk s) bn) L s s'.
Proof.
  intros V Hl HB. unfold leaf_blocks in *. change (bn :: nz (disk s bn)) with ([bn] ++ nz (disk s bn)) in *.
  apply freeable_app in HB as [HB1 HB2].
  destruct (tloop_loop_read 511 None bn L s V) as (s0 & F0 & E0).
  destruct (leaf_loop (disk s bn) bn 512 L s0) as (s1 & E1 & F1);
    [lia|apply F0|by rewrite take_ge by lia|]. rewrite take_ge in F1 by lia.
  pose proof (freed_trans _ _ _ _ _ _ F0 F1) as F01. rewrite app_nil_r in F01.
  destruct (free_freed bn _ s1 (fr_vol _ _ _ _ F01) HB2) as (s2 & E2 & F2).
  exists s2. split; [|by eapply freed_trans].
  assert (E : tloop_loop 512 None dev bn None s = Done true s1) by (rewrite E0; exact E1).
  rewrite tloop_unfold. change (Z.to_nat NINDIR) with 512%nat. cbv iota. rewrite (kbind_run _ _ _ _ _ E). exact E2.
Qed.

Lemma freeable_disjoint B1 B2 L b : freeable (B2 ++ B1) L -> b ∈ B2 -> b ∉ B1.
Proof. intros [Hn _] Hb. rewrite <- app_assoc in Hn. apply NoDup_app in Hn as (_ & Hd & _). specialize (Hd b Hb). set_solver. Qed.

Lemma leaf_head g e (l : list Z) : e ∈ l -> e ∈ l ≫= leaf_blocks g.
Proof. intros He. apply list_elem_of_bind. exists e. split; [|done]. unfold leaf_blocks. set_solver. Qed.

(** The entries of the double indirect block [bn], [g] being the blocks before. *)
Lemma double_loop g fuel bn n : forall L s bp, (n <= length (g bn))%nat -> sized dev mp lo hi L s ->
  bp = None \/ bp = Some (Buf dev bn (g bn) false) ->
  let B := nz (take n (g bn)) ≫= leaf_blocks g in
  freeable B L -> (bn ∉ B) -> disk s bn = g bn ->
  (forall e, e ∈ nz (take n (g bn)) -> disk s e = g e /\ length (g e) = 512%nat) ->
  exists s', tloop_loop n (Some (fun nb => tloop fuel dev nb false false)) dev bn bp s = Done true s' /\ freed B L s s'.
Proof.
  induction n as [|n IH]; intros L s bp Hn V Hbp B HB Hbn Eg He.
  { exists s. split; [by destruct Hbp as [->| ->]|by apply freed_nil]. }
  assert (Hrd : exists s0, freed [] L s s0 /\
    tloop_loop (Datatypes.S n) (Some (fun nb => tloop fuel dev nb false false)) dev bn bp s =
    tloop_loop (Datatypes.S n) (Some (fun nb => tloop fuel dev nb false false)) dev bn (Some (Buf dev bn (g bn) false)) s0).
  { destruct Hbp as [->| ->]; [rewrite <- Eg; by apply tloop_loop_read|]. exists s. split; [by apply freed_nil|done]. }
  destruct Hrd as (s0 & F0 & ->). pose proof (fr_vol _ _ _ _ F0) as V0.
  assert (G0 : forall b, disk s0 b = disk s b) by (intros; apply (fr_store _ _ _ _ F0); set_solver).
  enough (exists s', tloop_loop (Datatypes.S n) (Some (fun nb => tloop fuel dev nb false false)) dev bn
    (Some (Buf dev bn (g bn) false)) s0 = Done true s' /\ freed B L s0 s') as (s' & E & F).
  { exists s'. split; [done|]. pose proof (freed_trans _ _ _ _ _ _ F0 F) as F'. by rewrite app_nil_r in F'. }
  rewrite tloop_loop_S, kret_run. cbn [b_err b_data]. rewrite andb_false_r.
  rewrite (kbind_run _ _ _ _ _ (at_run _ _ _ _ (list_lookup_lookup_total_lt (g bn) n ltac:(lia)))).
  unfold B in *. clear B. rewrite nz_snoc in * by lia. destruct (Z.eqb_spec (g bn !!! n) 0) as [E0|E0].
  - rewrite app_nil_r in *. apply IH; [lia|done|by right|done|done|by rewrite G0|]. intros e He'. rewrite G0. auto.
  - rewrite bind_app in *. cbn [mbind list_bind] in *. rewrite app_nil_r in *.
    set (e := g bn !!! n) in *. destruct (He e) as [Ee Hle]; [set_solver|].
    pose proof HB as [HB1 HB2]%freeable_app.
    assert (El : leaf_blocks (disk s0) e = leaf_blocks g e) by (unfold leaf_blocks; by rewrite G0, Ee).
    destruct (tloop_leaf fuel false e L s0 V0) as (s1 & E1 & F1); [by rewrite G0, Ee|by rewrite El|].
    rewrite El in F1. unfold brelse. rewrite kret_run, (kbind_run _ _ _ _ _ E1).
    destruct (IH (leaf_blocks g e ++ L) s1 None) as (s2 & E2 & F2); [lia|apply F1|by left|done|set_solver| | |].
    + rewrite (fr_store _ _ _ _ F1) by set_solver. by rewrite G0.
    + intros c Hc. rewrite (fr_store _ _ _ _ F1), G0; [apply He; set_solver|]. intros [_ Hc'].
      eapply freeable_disjoint; [exact HB| |exact Hc']. by apply leaf_head.
    + exists s2. split; [done|]. by eapply freed_trans.
Qed.

Lemma tloop_double bn L s : sized dev mp lo hi L s -> length (disk s bn) = 512%nat ->
  (forall e, e ∈ nz (disk s bn) -> length (disk s e) = 512%nat) -> freeable (double_blocks (disk s) bn) L ->
  exists s', tloop 2 dev bn true false s = Done tt s' /\ freed (double_blocks (disk s) bn) L s s'.
Proof.
  intros V Hl He HB. unfold double_blocks in *.
  change (bn :: (nz (disk s bn) ≫= leaf_blocks (disk s))) with ([bn] ++ (nz (disk s bn) ≫= leaf_blocks (disk s))) in *.
  assert (Hbn : bn ∉ nz (disk s bn) ≫= leaf_blocks (disk s)) by (eapply freeable_disjoint; [exact HB|set_solver]).
  apply freeable_app in HB as [HB1 HB2].
  destruct (double_loop (disk s) 1 bn 512 L s None) as (s1 & E1 & F1); rewrite ?take_ge in * by lia; auto; [lia|].
  destruct (free_freed bn _ s1 (fr_vol _ _ _ _ F1) HB2) as (s2 & E2 & F2).
  exists s2. split; [|by eapply freed_trans]. rewrite tloop_unfold. change (Z.to_nat NINDIR) with 512%nat. cbv iota.
  rewrite (kbind_run _ _ _ _ _ E1). exact E2.
Qed.

Lemma file_blocks_S g addr n : (n < length addr)%nat ->
  file_blocks g addr (Datatypes.S n) = file_blocks g addr n ++ entry_blocks g n (addr !!! n).
Proof.
  intros Hn. unfold file_blocks. rewrite (take_S_r addr n (addr !!! n)) by (by apply list_lookup_lookup_total_lt).
  rewrite imap_app, join_app. simpl. by rewrite length_take, app_nil_r, Nat.add_0_r, Nat.min_l by lia.
Qed.

(** The indirect blocks are whole. *)
Definition whole (g : Z -> list Z) (addr : list Z) (n : nat) : Prop :=
  ((6 < n)%nat -> addr !!! 6%nat <> 0 -> length (g (addr !!! 6%nat)) = 512%nat) /\
  ((7 < n)%nat -> addr !!! 7%nat <> 0 -> length (g (addr !!! 7%nat)) = 512%nat /\
     forall e, e ∈ nz (g (addr !!! 7%nat)) -> length (g e) = 512%nat).

Lemma bind_ext_in {A B} (f k : A -> list B) (l : list A) : (forall e, e ∈ l -> f e = k e) -> l ≫= f = l ≫= k.
Proof.
  induction l as [|e l IH]; intros E; [done|]. rewrite !bind_cons. rewrite E by set_solver. f_equal. apply IH. set_solver.
Qed.

(** One entry of the inode. *)
Lemma entry_run g addr L s i : sized dev mp lo hi L s -> (i < 8)%nat -> addr !!! i <> 0 -> whole g addr (Datatypes.S i) ->
  freeable (entry_blocks g i (addr !!! i)) L -> (forall b, b ∈ entry_blocks g i (addr !!! i) -> disk s b = g b) ->
  exists s', (if Z.of_nat i =? NADDR - 2 then tloop 2 dev (addr !!! i) false false
    else if Z.of_nat i =? NADDR - 1 then tloop 2 dev (addr !!! i) true false else free dev (addr !!! i)) s = Done tt s' /\
    freed (entry_blocks g i (addr !!! i)) L s s'.
Proof.
  intros V Hi Hb [W6 W7] HB Ha. unfold entry_blocks in *. destruct (Z.eqb_spec (addr !!! i) 0); [done|].
  change (NADDR - 2) with 6. change (NADDR - 1) with 7.
  destruct (Nat.eqb_spec i 6) as [->|]; [|destruct (Nat.eqb_spec i 7) as [->|]].
  - assert (E : leaf_blocks (disk s) (addr !!! 6%nat) = leaf_blocks g (addr !!! 6%nat)).
    { unfold leaf_blocks. rewrite Ha; [done|]. unfold leaf_blocks. set_solver. }
    rewrite <- E in *. apply tloop_leaf; [done| |done]. rewrite Ha; [apply W6; [lia|done]|]. unfold leaf_blocks. set_solver.
  - destruct W7 as [W7 W8]; [lia|done|].
    assert (E7 : disk s (addr !!! 7%nat) = g (addr !!! 7%nat)) by (apply Ha; unfold double_blocks; set_solver).
    assert (Ee : forall e, e ∈ nz (g (addr !!! 7%nat)) -> disk s e = g e).
    { intros e He. apply Ha. unfold double_blocks. apply elem_of_cons. right. by apply leaf_head. }
    assert (E : double_blocks (disk s) (addr !!! 7%nat) = double_blocks g (addr !!! 7%nat)).
    { unfold double_blocks. rewrite E7. f_equal. apply bind_ext_in. intros e He. unfold leaf_blocks. by rewrite Ee. }
    rewrite <- E in *. apply tloop_double; [done|by rewrite E7| |done]. intros e. rewrite E7. intros He. rewrite Ee by done. auto.
  - destruct (Z.eqb_spec (Z.of_nat i) 6), (Z.eqb_spec (Z.of_nat i) 7); try lia. by apply free_freed.
Qed.

Lemma itrunc_loop_run g addr ip : length addr = 8%nat -> forall n L s x, (n <= 8)%nat -> inodes s !! ip = Some x ->
  take n (i_addr x) = take n addr -> length (i_addr x) = 8%nat -> sized dev mp lo hi L s -> whole g addr n ->
  freeable (file_blocks g addr n) L -> (forall b, b ∈ file_blocks g addr n -> disk s b = g b) ->
  exists s', itrunc_loop n ip dev s = Done tt s' /\ sized dev mp lo hi (file_blocks g addr n ++ L) s' /\
    inodes s' = <[ip := set_i_addr (replicate n 0 ++ drop n (i_addr x)) x]> (inodes s) /\ u_error s' = u_error s /\
    forall d b, ~ (d = dev /\ b ∈ file_blocks g addr n) -> bs_get (store s') d b = bs_get (store s) d b.
Proof.
  intros Hl. induction n as [|n IH]; intros L s x Hn Hx Ht Hlx V W HB Ha.
  { exists s. split_and!; try done. symmetry. simpl. apply list_insert_id. rewrite Hx. f_equal. by destruct x. }
  assert (Hxn : i_addr x !! n = Some (addr !!! n)).
  { rewrite <- (lookup_take_lt (i_addr x) (Datatypes.S n)), Ht, lookup_take_lt by lia. apply list_lookup_lookup_total_lt. lia. }
  assert (Ht' : take n (i_addr x) = take n addr).
  { apply (f_equal (take n)) in Ht. by rewrite !take_take, !Nat.min_l in Ht by lia. }
  rewrite file_blocks_S in * by lia. pose proof HB as [HB1 HB2]%freeable_app.
  assert (W' : whole g addr n) by (destruct W as [W1 W2]; split; intros; [apply W1|apply W2]; auto; lia).
  cbn [itrunc_loop]. rewrite (kbind_run _ _ _ _ _ (getip_run _ _ _ Hx)), (kbind_run _ _ _ _ _ (at_run _ _ _ _ Hxn)).
  assert (Hdrop : forall v (l : list Z), length l = 8%nat -> replicate n 0 ++ drop n (<[n := v]> l) = replicate n 0 ++ v :: drop (Datatypes.S n) l).
  { intros v l Hl'. f_equal. rewrite (drop_S _ v n); [by rewrite drop_insert_lt by lia|]. apply list_lookup_insert_eq. lia. }
  destruct (Z.eqb_spec (addr !!! n) 0) as [E0|E0].
  - rewrite kret_run. replace (entry_blocks g n (addr !!! n)) with (@nil Z) in * by (unfold entry_blocks; by rewrite E0).
    rewrite app_nil_r in *. destruct (IH L s x) as (s' & E & V' & I & U & G); try done; [lia|]. exists s'. split_and!; try done.
    rewrite I. f_equal. f_equal. rewrite (drop_S _ _ _ Hxn), E0. rewrite replicate_S_end, <- app_assoc. done.
  - set (s1 := set_inodes (alter (fun x => set_i_addr (<[n := 0]> (i_addr x)) x) ip (inodes s)) s).
    destruct (entry_run g addr L s1 n) as (s2 & E2 & [V2 I2 U2 G2]); [exact V|lia|done|done|done|
      intros b Hb; apply Ha, elem_of_app; by right|].
    assert (Hx2 : inodes s2 !! ip = Some (set_i_addr (<[n := 0]> (i_addr x)) x)).
    { rewrite I2. simpl. by rewrite list_lookup_alter_eq, Hx. }
    destruct (IH (entry_blocks g n (addr !!! n) ++ L) s2 _ ltac:(lia) Hx2) as (s3 & E3 & V3 & I3 & U3 & G3); try done.
    + simpl. by rewrite take_insert_ge by lia.
    + simpl. by rewrite length_insert.
    + intros b Hb. rewrite G2; [apply Ha, elem_of_app; by left|]. intros [_ Hb']. by eapply freeable_disjoint.
    + exists s3. split_and!.
      * assert (E12 : (modip ip (fun x => set_i_addr (<[n := 0]> (i_addr x)) x);;
          (if Z.of_nat n =? NADDR - 2 then tloop 2 dev (addr !!! n) false false
           else if Z.of_nat n =? NADDR - 1 then tloop 2 dev (addr !!! n) true false else free dev (addr !!! n))) s = Done tt s2)
          by exact E2.
        by rewrite (kbind_run _ _ _ _ _ E12).
      * by rewrite <- app_assoc.
      * rewrite I3, I2. change (inodes s1) with (alter (fun x => set_i_addr (<[n := 0]> (i_addr x)) x) ip (inodes s)). apply list_eq. intros j. destruct (decide (j = ip)) as [->|Hj].
        -- rewrite !list_lookup_insert_eq by (rewrite ?length_alter; by eapply lookup_lt_Some).
           transitivity (Some (set_i_addr (replicate n 0 ++ drop n (<[n := 0]> (i_addr x))) x)); [done|].
           by rewrite Hdrop, replicate_S_end, <- app_assoc.
        -- by rewrite !list_lookup_insert_ne, list_lookup_alter_ne.
      * by rewrite U3, U2.
      * intros d b Hb. rewrite G3, G2; [done| |]; intros [Hd Hb']; apply Hb; (split; [done|]); apply elem_of_app; auto.
Qed.

(** C25. [itrunc] of a regular file or directory gives back all its blocks and no other:
    the free list gains the direct blocks, then each indirect block followed by what it
    names, in front of what was there; the inode has no addresses and size 0 and is marked
    changed; no block outside the file is written.  Other kinds of inode are left alone. *)
Theorem itrunc_correct ip s x L : inodes s !! ip = Some x -> i_dev x = dev -> length (i_addr x) = 8%nat ->
  sized dev mp lo hi L s -> whole (disk s) (i_addr x) 8 -> freeable (file_blocks (disk s) (i_addr x) 8) L ->
  (Z.land (i_mode x) IFMT <> IFREG -> Z.land (i_mode x) IFMT <> IFDIR -> itrunc ip s = Done tt s) /\
  (Z.land (i_mode x) IFMT = IFREG \/ Z.land (i_mode x) IFMT = IFDIR ->
   exists s', itrunc ip s = Done tt s' /\ sized dev mp lo hi (file_blocks (disk s) (i_addr x) 8 ++ L) s' /\
     inodes s' = <[ip := set_i_flag (i_flag x |: (ICHG |: IUPD)) (set_i_size 0 (set_i_addr (replicate 8 0) x))]> (inodes s) /\
     u_error s' = u_error s /\
     forall d b, ~ (d = dev /\ b ∈ file_blocks (disk s) (i_addr x) 8) -> bs_get (store s') d b = bs_get (store s) d b).
Proof.
  intros Hx Hd Hl V W HB. unfold itrunc. rewrite (kbind_run _ _ _ _ _ (getip_run _ _ _ Hx)). cbv zeta. split.
  - intros H1 H2. destruct (Z.eqb_spec (Z.land (i_mode x) IFMT) IFREG), (Z.eqb_spec (Z.land (i_mode x) IFMT) IFDIR); done.
  - intros Hm. replace (negb (Z.land (i_mode x) IFMT =? IFREG) && negb (Z.land (i_mode x) IFMT =? IFDIR)) with false
      by (destruct Hm as [-> | ->]; done).
    destruct (itrunc_loop_run (disk s) (i_addr x) ip Hl 8 L s x) as (s1 & E & V1 & I1 & U1 & G1); try done.
    rewrite Hd. change (Z.to_nat NADDR) with 8%nat. rewrite (kbind_run _ _ _ _ _ E), modip_run.
    eexists. split; [reflexivity|]. split_and!; try done. simpl. rewrite I1. apply list_eq. intros j.
    pose proof (lookup_lt_Some _ _ _ Hx) as Hlt. destruct (decide (j = ip)) as [->|Hj].
    + rewrite list_lookup_alter_eq, !list_lookup_insert_eq by done. rewrite drop_ge by lia. done.
    + by rewrite list_lookup_alter_ne, !list_lookup_insert_ne.
Qed.
End Trunc.

(** ** Witnesses *)

(** One block of the i-list: inode 1 free, the others in use. *)
Definition ilist1 : list Z := replicate 16 0 ++ mjoin (replicate 31 (32768 :: replicate 15 0)).
Definition disk2 : fstore := Fstore (fun _ b => if b =? 1 then ilist1 else replicate 512 0) (fun _ _ => false).
Definition fs2 : filsys :=
  Filsys FS_MAGIC BSIZEW INOPB NADDR 2 100 0 0 0 0 0 0 0 0 (replicate 320 0) 0 (replicate 160 0) (replicate 17 0).
Definition blank : inode := Inode 0 0 0 0 0 0 0 0 0 (replicate 8 0) 0.
Definition kern3 : kern fstore := set_inodes [blank] (set_mounts [Mount 7 (Some fs2) None] (kern0 disk2)).

Lemma kern3_super : super 7 0 fs2 kern3.
Proof. split; [|done]. split; [done|]. by eexists. Qed.

Lemma ilist1_used k : (0 < k < 32)%nat -> exists m, ilist1 !! (16 * k)%nat = Some m /\ m <> 0.
Proof.
  intros Hk. exists 32768. split; [|done].
  assert (Hall : forallb (fun k => bool_decide (ilist1 !! (16 * k)%nat = Some 32768)) (seq 1 31) = true) by reflexivity.
  rewrite forallb_forall in Hall. specialize (Hall k ltac:(apply in_seq; lia)). by apply bool_decide_eq_true in Hall.
Qed.

Lemma ialloc_spins_witness : ialloc 1000 7 kern3 = KNoFuel.
Proof.
  refine (ialloc_spins 7 0 kern3 _ 1000). exists fs2. split; [apply kern3_super|]. split_and!; try done.
  - by left.
  - apply ilist1_used.
  - intros a k Ha. simpl in Ha. lia.
  - intros x ->%list_elem_of_singleton [? _]. done.
Defined.

Definition kern4 : kern fstore := set_mounts [Mount 7 (Some (set_s_ninode 1 (set_s_inode (40 :: replicate 159 0)
  (set_s_isize 3 fs2)))) None] kern3.

Lemma ialloc_correct_witness : exists s' y, ialloc 0 7 kern4 = Done (Some 0%nat) s' /\ inodes s' = [y] /\
  is_inode 7 40 y /\ i_mode y = 0.
Proof.
  destruct (ialloc_correct 0 7 0 (set_s_ninode 1 (set_s_inode (40 :: replicate 159 0) (set_s_isize 3 fs2))) kern4 40 0 blank)
    as (s' & y & ? & ? & ? & ? & _); try done.
  - split; [|done]. split; [done|]. by eexists.
  - intros x ->%list_elem_of_singleton [? _]. done.
  - by exists s', y.
Defined.

Lemma iget_correct_witness : exists s', iget 0 7 2 kern3 = Done (Some 0%nat) s' /\
  inodes s' = [loaded 7 2 ilist1 blank] /\ table_ok (inodes s').
Proof.
  destruct (iget_correct 0 7 2 kern3) as [_ Hn]; try done.
  - intros [|i] [|j] x y Hx Hy; done.
  - destruct Hn as (s' & ? & ? & ? & _); [|by exists s']. intros x ->%list_elem_of_singleton [? _]. done.
Defined.

Definition kern5 : kern fstore := set_inodes [set_i_dev 7 (set_i_flag IUPD file1)] kern3.

Lemma iupdat_correct_witness : exists s', iupdat 0 10 20 kern5 = Done tt s' /\
  i_size (inode_of (bs_get (store s') 7 1) (dinode_at 5) blank) = 3072.
Proof.
  destruct (iupdat_correct 7 0 fs2 kern5 0 (set_i_dev 7 (set_i_flag IUPD file1)) 10 20) as (s' & E & _ & G & _); try done.
  - apply kern3_super.
  - exists s'. split; [done|]. change (itod _) with 1 in G. change (dinode_at _) with (dinode_at 5) in G. by rewrite G.
Defined.

Lemma itrunc_correct_witness : exists s', itrunc 0 kern2 = Done tt s' /\ sized 7 1 3 100 [11; 50; 60] s'.
Proof.
  destruct (itrunc_correct 7 1 3 100 0 kern2 file1 [50; 60]) as [_ (s' & E & V & _)]; try done.
  - exists fs1. split; [apply kern1_mounted|]. split; [apply kern1_free|]. done.
  - split; [repeat constructor; set_solver|]. simpl. set_solver by lia.
  - by left.
  - by exists s'.
Defined.
