(* ===== verification/Frame.v ===== *)
(** * What the file system leaves alone

    None of the operations on blocks, the free list and inodes touches the caller's
    transfer variables, memory, open files or identity.  One predicate over
    computations, closed under their constructors, shows it for all of them. *)

From S2P Require Import Prelude Param Kern Alloc Bmap Inode.

(** The part of the state that belongs to the calling process. *)
Definition user {S} (s : kern S) :=
  (u_uid s, u_gid s, u_cmask s, u_base s, u_count s, u_offset s, u_segflg s, umem s, umap s, kmem s,
   (u_cdir s, u_rdir s, rootdir s, u_dbuf s, u_dent s, u_dirp s, u_pdir s),
   (files s, u_ofile s, u_pofile s, u_r_val1 s, u_r_val2 s, u_acflag s)).

(** Without the transfer variables and the user's memory. *)
Definition rest {S} (s : kern S) :=
  (u_uid s, u_gid s, u_cmask s, kmem s,
   (u_cdir s, u_rdir s, rootdir s, u_dbuf s, u_dent s, u_dirp s, u_pdir s),
   (files s, u_ofile s, u_pofile s, u_r_val1 s, u_r_val2 s, u_acflag s)).

Lemma user_rest {S} (s s' : kern S) : user s' = user s -> rest s' = rest s.
Proof. unfold user, rest. intros E. by injection E as -> -> -> _ _ _ _ _ _ -> -> -> -> -> -> -> -> -> -> -> -> -> ->. Qed.

Definition keeps {S A} (m : K S A) : Prop :=
  forall s, match m s with Done _ s' | Sleeps _ s' => user s' = user s | _ => True end.

Create HintDb keeps.

Section Closure.
Context {S : Type} `{BlockStore S}.

Lemma keeps_ret {A} (a : A) : keeps (S := S) (mret a).
Proof. done. Qed.

Lemma keeps_bind {A B} (m : K S A) (f : A -> K S B) : keeps m -> (forall a, keeps (f a)) -> keeps (m ≫= f).
Proof.
  intros Hm Hf s. unfold mbind, k_bind. specialize (Hm s). destruct (m s) as [a s'| | | |]; try done.
  specialize (Hf a s'). destruct (f a s'); congruence || done.
Qed.

Lemma keeps_gets {A} (f : kern S -> A) : keeps (gets f).
Proof. done. Qed.

Lemma keeps_puts (f : kern S -> kern S) : (forall s, user (f s) = user s) -> keeps (puts f).
Proof. intros Hf s. apply Hf. Qed.

Lemma keeps_sleep {A} c : keeps (S := S) (A := A) (sleep c).
Proof. done. Qed.
Lemma keeps_panic {A} msg : keeps (S := S) (A := A) (panic msg).
Proof. done. Qed.
Lemma keeps_nofuel {A} : keeps (S := S) (A := A) nofuel.
Proof. done. Qed.
Lemma keeps_wild {A} : keeps (S := S) (A := A) wild.
Proof. done. Qed.

Lemma keeps_at {A} (l : list A) i : keeps (S := S) (at_ l i).
Proof. intros s. unfold at_. by destruct (l !! i). Qed.

Lemma keeps_wakeup c : keeps (S := S) (wakeup c).
Proof. done. Qed.
Lemma keeps_prdev msg dev : keeps (S := S) (prdev msg dev).
Proof. done. Qed.
Lemma keeps_error e : keeps (S := S) (error e).
Proof. done. Qed.

Lemma keeps_bread dev b : keeps (bread dev b).
Proof. intros s. unfold bread. destruct (bs_read dev b (store s)). by destruct (bs_fails (store s) dev b). Qed.
Lemma keeps_getblk dev b : keeps (getblk dev b).
Proof. intros s. unfold getblk. by destruct (bs_getblk dev b (store s)). Qed.
Lemma keeps_bput h b : keeps (bput h b).
Proof. done. Qed.
Lemma keeps_brelse b : keeps (S := S) (brelse b).
Proof. done. Qed.
Lemma keeps_bdrop b : keeps (bdrop b).
Proof. done. Qed.
Lemma keeps_modfp mp f : keeps (S := S) (modfp mp f).
Proof. done. Qed.
Lemma keeps_modip ip f : keeps (S := S) (modip ip f).
Proof. done. Qed.
End Closure.

#[export] Hint Resolve keeps_ret keeps_gets keeps_sleep keeps_panic keeps_nofuel keeps_wild keeps_at keeps_wakeup
  keeps_prdev keeps_error keeps_bread keeps_getblk keeps_bput keeps_brelse keeps_bdrop keeps_modfp keeps_modip : keeps.

(** Goes down a computation along its binds and branches. *)
Ltac keeps_step :=
  match goal with
  | |- forall _, _ => intros
  | |- keeps (_ ≫= _) => apply keeps_bind
  | |- keeps (let '(_, _) := ?p in _) => destruct p
  | |- keeps (match ?x with _ => _ end) => destruct x
  | |- keeps (puts _) => apply keeps_puts; done
  | |- keeps _ => solve [eauto with keeps]
  end.
Ltac keeps := cbv zeta; repeat (cbv zeta; keeps_step).

Section Keeps.
Context {S : Type} `{BlockStore S}.

Lemma keeps_fp mp : keeps (S := S) (fp mp).
Proof. unfold fp. keeps. Qed.
#[local] Hint Resolve keeps_fp : keeps.

Lemma keeps_getfs dev : keeps (S := S) (getfs dev).
Proof. unfold getfs. keeps. Qed.
#[local] Hint Resolve keeps_getfs : keeps.

Lemma keeps_badblock mp bn dev : keeps (S := S) (badblock mp bn dev).
Proof. unfold badblock. keeps. Qed.
#[local] Hint Resolve keeps_badblock : keeps.

Lemma keeps_pop_free n mp dev : keeps (S := S) (pop_free n mp dev).
Proof. induction n; cbn [pop_free]; keeps. Qed.
#[local] Hint Resolve keeps_pop_free : keeps.

Lemma keeps_alloc dev : keeps (alloc dev).
Proof. unfold alloc, refill, nospace. keeps. Qed.
#[local] Hint Resolve keeps_alloc : keeps.

Lemma keeps_free dev b : keeps (free dev b).
Proof. unfold free, spill. keeps. Qed.
#[local] Hint Resolve keeps_free : keeps.

Lemma keeps_getip ip : keeps (S := S) (getip ip).
Proof. unfold getip. keeps. Qed.
#[local] Hint Resolve keeps_getip : keeps.

Lemma keeps_balloc dev : keeps (balloc dev).
Proof. unfold balloc. keeps. Qed.
#[local] Hint Resolve keeps_balloc : keeps.

Lemma keeps_indirect dev nb i rd : keeps (indirect dev nb i rd).
Proof. unfold indirect. keeps. Qed.
#[local] Hint Resolve keeps_indirect : keeps.

Lemma keeps_fetch n : forall dev nb sh bn rd i bap, keeps (fetch n dev nb sh bn rd i bap).
Proof. induction n; intros; cbn [fetch]; keeps. Qed.
#[local] Hint Resolve keeps_fetch : keeps.

Lemma keeps_bmap ip bn rd : keeps (bmap ip bn rd).
Proof. unfold bmap, inode_addr. keeps. Qed.

Lemma keeps_prele ip : keeps (S := S) (prele ip).
Proof. unfold prele. keeps. Qed.
Lemma keeps_plock ip : keeps (S := S) (plock ip).
Proof. unfold plock. keeps. Qed.
#[local] Hint Resolve keeps_prele keeps_plock : keeps.

Lemma keeps_tloop_loop n nested dev : (forall f b, nested = Some f -> keeps (f b)) ->
  forall bn bp, keeps (tloop_loop n nested dev bn bp).
Proof. intros Hn. induction n; intros; cbn [tloop_loop]; keeps; by apply Hn. Qed.

Lemma keeps_tloop fuel : forall dev bn f1 f2, keeps (tloop fuel dev bn f1 f2).
Proof.
  induction fuel as [|fuel IH]; intros; rewrite tloop_unfold; apply keeps_bind;
    try (intros []; eauto with keeps); apply keeps_tloop_loop; intros f b Hf; destruct f1; simplify_eq; eauto with keeps.
Qed.
#[local] Hint Resolve keeps_tloop : keeps.

Lemma keeps_itrunc_loop n ip dev : keeps (itrunc_loop n ip dev).
Proof. induction n; cbn [itrunc_loop]; keeps. Qed.
#[local] Hint Resolve keeps_itrunc_loop : keeps.

Lemma keeps_itrunc ip : keeps (itrunc ip).
Proof. unfold itrunc. keeps. Qed.
#[local] Hint Resolve keeps_itrunc : keeps.

Lemma keeps_iupdat ip ta tm : keeps (iupdat ip ta tm).
Proof. unfold iupdat, bdwrite. keeps. Qed.
#[local] Hint Resolve keeps_iupdat : keeps.

Lemma keeps_iput ip : keeps (iput ip).
Proof. unfold iput, ifree. keeps. Qed.
#[local] Hint Resolve keeps_iput : keeps.

Lemma keeps_iget fuel : forall dev ino, keeps (iget fuel dev ino).
Proof. induction fuel; intros; rewrite iget_unfold; unfold iget_turn, iexpand; keeps. Qed.
End Keeps.

#[export] Hint Resolve keeps_fp keeps_getfs keeps_badblock keeps_alloc keeps_free keeps_getip keeps_balloc keeps_bmap
  keeps_prele keeps_plock keeps_itrunc keeps_iupdat keeps_iput keeps_iget : keeps.
