(* ===== verification/Fio.v ===== *)
(** * Open files and permissions: [kernel/fio.c], and the text table of [kernel/text.c]
    as far as it concerns inodes

    The tables [file[NFILE]] and [u_ofile[NOFILE]] are lists of that length; a pointer into
    one is an index.  The drivers' entry points are a record of computations. *)

From S2P Require Import Prelude Param Resmap Kern Alloc Bmap Inode Frame.

Definition FREAD : Z := 1.
Definition FWRITE : Z := 2.
Definition FPIPE : Z := 4.
Definition FMP : Z := 24.
Definition NOFILE : nat := 20.
Definition NFILE : nat := 50.
Definition NTEXT : nat := 40.
Definition XLOCK : Z := 8.
Definition XWANT : Z := 16.
Definition ASU : Z := 2.

Section Fio.
Context {S : Type} `{BlockStore S}.

(** A loop over a table. *)
Fixpoint kfor {A} (l : list A) (f : A -> K S unit) : K S unit :=
  match l with
  | [] => mret tt
  | a :: l => f a;; kfor l f
  end.

(** ** Shared text *)

Definition gettext (xp : nat) : K S text := l ← gets texts; at_ l xp.
Definition modtext (xp : nat) (f : text -> text) : K S unit := puts (fun s => set_texts (alter f xp (texts s)) s).

Definition xlock (xp : nat) : K S unit :=
  x ← gettext xp;
  if x_flag x &? XLOCK then modtext xp (fun x => set_x_flag (x_flag x |: XWANT) x);; sleep (ChText xp)
  else modtext xp (fun x => set_x_flag (x_flag x |: XLOCK) x).

Definition xunlock (xp : nat) : K S unit :=
  x ← gettext xp;
  (if x_flag x &? XWANT then wakeup (ChText xp) else mret tt);;
  modtext xp (fun x => set_x_flag (x_flag x &~ (XLOCK |: XWANT)) x).

(** [mfree(swapmap, size, a)] *)
Definition swap_free (size a : Z) : K S unit :=
  l ← gets swapmap;
  match Resmap.Code.mfree_map l size a with
  | Some l => puts (set_swapmap l)
  | None => wild
  end.

Definition xuntext (xp : nat) : K S unit :=
  xlock xp;;
  x ← gettext xp;
  if negb (x_count x =? 0) then xunlock xp
  else
    modtext xp (fun x => set_x_iptr None (set_x_flag (x_flag x &~ XLOCK) x));;
    swap_free (wtodb (x_size x)) (x_daddr x);;
    match x_iptr x with
    | None => wild
    | Some ip =>
        modip ip (fun y => set_i_flag (i_flag y &~ ITEXT) y);;
        y ← getip ip;
        if i_flag y &? ILOCK then modip ip (fun y => set_i_count (dec8 (i_count y)) y)
        else iput ip
    end.

Definition xrele (ip : nat) : K S unit :=
  y ← getip ip;
  if i_flag y &? ITEXT then
    kfor (seq 0 NTEXT) (fun xp => x ← gettext xp; if bool_decide (x_iptr x = Some ip) then xuntext xp else mret tt)
  else mret tt.

Definition xumount (dev : Z) : K S unit :=
  kfor (seq 0 NTEXT) (fun xp =>
    x ← gettext xp;
    match x_iptr x with
    | None => mret tt
    | Some ip => y ← getip ip; if dev =? i_dev y then xuntext xp else mret tt
    end).

(** ** Descriptors *)

Definition getfile (fp : nat) : K S file := l ← gets files; at_ l fp.
Definition modfile (fp : nat) (f : file -> file) : K S unit := puts (fun s => set_files (alter f fp (files s)) s).
Definition set_ofile (i : nat) (v : option nat) : K S unit := puts (fun s => set_u_ofile (<[i := v]> (u_ofile s)) s).
Definition set_pofile (i : nat) (v : Z) : K S unit := puts (fun s => set_u_pofile (<[i := v]> (u_pofile s)) s).

Definition getf (f : Z) : K S (option nat) :=
  l ← gets u_ofile;
  match (if (0 <=? f) && (f <? Z.of_nat NOFILE) then l !! Z.to_nat f else Some None) with
  | None => wild
  | Some (Some fp) => mret (Some fp)
  | Some None => error EBADF;; mret None
  end.

Definition suser : K S bool :=
  uid ← gets u_uid;
  if uid =? 0 then puts (fun s => set_u_acflag (u_acflag s |: ASU) s);; mret true
  else error EPERM;; mret false.

(** The first [NULL] of the table. *)
Fixpoint first_null (i : nat) (l : list (option nat)) : option nat :=
  match l with
  | [] => None
  | None :: _ => Some i
  | Some _ :: l => first_null (Datatypes.S i) l
  end.

Definition ufalloc : K S Z :=
  l ← gets u_ofile;
  match first_null 0 l with
  | Some i => puts (set_u_r_val1 (Z.of_nat i));; set_pofile i 0;; mret (Z.of_nat i)
  | None => error EMFILE;; mret (-1)
  end.

Fixpoint unused_file (i : nat) (l : list file) : option nat :=
  match l with
  | [] => None
  | f :: l => if f_count f =? 0 then Some i else unused_file (Datatypes.S i) l
  end.

Definition falloc : K S (option nat) :=
  i ← ufalloc;
  if i <? 0 then mret None
  else
    l ← gets files;
    match unused_file 0 l with
    | Some fp =>
        set_ofile (Z.to_nat i) (Some fp);;
        modfile fp (fun f => set_f_offset 0 (set_f_count (inc8 (f_count f)) f));;
        mret (Some fp)
    | None => printf "no file";; error ENFILE;; mret None
    end.

(** ** Permissions *)

Definition access (ip : nat) (mode : Z) : K S Z :=
  stop ← (if mode =? IWRITE then
            x ← getip ip;
            mp ← getfs (i_dev x);
            f ← fp mp;
            if negb (s_ronly f =? 0) then error EROFS;; mret true
            else
              (if i_flag x &? ITEXT then xrele ip else mret tt);;
              x ← getip ip;
              if i_flag x &? ITEXT then error ETXTBSY;; mret true else mret false
          else mret false);
  if (stop : bool) then mret 1
  else
    uid ← gets u_uid;
    if uid =? 0 then mret 0
    else
      x ← getip ip;
      gid ← gets u_gid;
      let m := if negb (uid =? i_uid x)
               then let m := Z.shiftr mode 3 in if negb (gid =? i_gid x) then Z.shiftr m 3 else m
               else mode in
      if i_mode x &? m then mret 0 else error EACCES;; mret 1.

(** ** Special files *)

Record drivers := Drivers {
  nchrdev : Z; nblkdev : Z;
  cd_open : Z -> Z -> K S unit; cd_close : Z -> Z -> K S unit;
  bd_open : Z -> Z -> K S unit; bd_close : Z -> Z -> K S unit;
}.

Definition is_char (mode : Z) : bool := (Z.land mode IFMT =? IFCHR) || (Z.land mode IFMT =? IFMPC).
Definition is_block (mode : Z) : bool := (Z.land mode IFMT =? IFBLK) || (Z.land mode IFMT =? IFMPB).

Context (dv : drivers).

Definition openi (ip : nat) (rw : Z) : K S unit :=
  x ← getip ip;
  dev ← at_ (i_addr x) 0;
  let maj := major dev in
  if is_char (i_mode x) then
    if (maj <? 0) || (nchrdev dv <=? maj) then error ENXIO else cd_open dv dev rw
  else if is_block (i_mode x) then
    if (maj <? 0) || (nblkdev dv <=? maj) then error ENXIO else bd_open dv dev rw
  else mret tt.

(** Another open file has the inode. *)
Definition in_use (ip : nat) (l : list file) : bool :=
  existsb (fun f => negb (f_count f =? 0) && bool_decide (f_inode f = Some ip)) l.

Definition closef (fp : option nat) : K S unit :=
  match fp with
  | None => mret tt
  | Some fp =>
      f ← getfile fp;
      if 1 <? f_count f then modfile fp (fun f => set_f_count (dec8 (f_count f)) f)
      else
        match f_inode f with
        | None => wild
        | Some ip =>
            let flag := f_flag f in
            x ← getip ip;
            dev ← at_ (i_addr x) 0;
            plock ip;;
            modfile fp (set_f_count 0);;
            (if flag &? FPIPE then
               modip ip (fun x => set_i_mode (i_mode x &~ (IREAD |: IWRITE)) x);;
               wakeup (ChPipe ip 1);; wakeup (ChPipe ip 2)
             else mret tt);;
            iput ip;;
            let close :=
              if is_char (i_mode x) then Some (cd_close dv)
              else if is_block (i_mode x) then Some (bd_close dv) else None in
            match close with
            | None => mret tt
            | Some cfunc =>
                l ← gets files;
                if negb (flag &? FMP) && in_use ip l then mret tt else cfunc dev flag
            end
        end
  end.
End Fio.
Arguments drivers : clear implicits.

(** ** Who may do what *)

(** The permission bits of a mode, three for the owner, three for the group and three for
    the others: bit 2 reads, bit 1 writes, bit 0 executes. *)
Inductive right := Read | Write | Execute.
#[export] Instance right_eq_dec : EqDecision right.
Proof. solve_decision. Defined.
Definition right_bit (r : right) : Z := match r with Read => 2 | Write => 1 | Execute => 0 end.
Definition right_mode (r : right) : Z := match r with Read => IREAD | Write => IWRITE | Execute => IEXEC end.

(** The super-user may do everything; anyone else what the class he is in may. *)
Definition allows (uid gid : Z) (x : inode) (r : right) : bool :=
  (uid =? 0) ||
  Z.testbit (i_mode x)
    (right_bit r + (if uid =? i_uid x then 6 else if gid =? i_gid x then 3 else 0)).

Lemma alter_insert {A} (g : A -> A) (l : list A) i a : l !! i = Some a -> alter g i l = <[i := g a]> l.
Proof.
  intros Ha. apply list_eq. intros j. destruct (decide (j = i)) as [->|].
  - rewrite list_lookup_alter_eq, Ha, list_lookup_insert_eq; [done|by eapply lookup_lt_Some].
  - by rewrite list_lookup_alter_ne, list_lookup_insert_ne.
Qed.

Section Access.
Context {S : Type} `{BlockStore S}.

(** The two shifts pick the bit of the class. *)
Lemma class_bit uid gid x r :
  (i_mode x &? (if negb (uid =? i_uid x)
     then let m := Z.shiftr (right_mode r) 3 in if negb (gid =? i_gid x) then Z.shiftr m 3 else m
     else right_mode r)) =
  Z.testbit (i_mode x) (right_bit r + (if uid =? i_uid x then 6 else if gid =? i_gid x then 3 else 0)).
Proof. rewrite <- tst_pow2 by (destruct r, (uid =? i_uid x), (gid =? i_gid x); done). by destruct r, (uid =? i_uid x), (gid =? i_gid x). Qed.

Lemma access_run ip x mp f r s : inodes s !! ip = Some x -> mounted (i_dev x) mp f s -> s_nfree f <= NICFREE ->
  s_ninode f <= NICINOD -> (i_flag x &? ITEXT) = false ->
  access ip (right_mode r) s =
    if bool_decide (r = Write) && negb (s_ronly f =? 0) then Done 1 (set_u_error EROFS s)
    else if allows (u_uid s) (u_gid s) x r then Done 0 s
    else Done 1 (set_u_error EACCES s).
Proof.
  intros Hx Hm Hn Hi Ht. unfold access. set (ro := bool_decide (r = Write) && negb (s_ronly f =? 0)).
  rewrite (kbind_run _ _ ro s (if ro then set_u_error EROFS s else s)).
  - destruct ro; [done|]. rewrite kgets_run. unfold allows. destruct (u_uid s =? 0); [done|]. cbn [orb].
    rewrite (kbind_run _ _ _ _ _ (getip_run _ _ _ Hx)), kgets_run. cbv zeta. rewrite <- class_bit.
    by destruct (i_mode x &? _).
  - unfold ro. destruct r; [done| |done]. change (right_mode Write =? IWRITE) with true. cbv iota.
    rewrite (kbind_run _ _ _ _ _ (getip_run _ _ _ Hx)), (kbind_run _ _ _ _ _ (getfs_run _ _ _ _ Hm Hn Hi)),
      (kbind_run _ _ _ _ _ (fp_run _ _ _ _ Hm)).
    destruct (s_ronly f =? 0); cbn [negb andb bool_decide]; [|done].
    rewrite Ht, kret_run, (kbind_run _ _ _ _ _ (getip_run _ _ _ Hx)), Ht. done.
Qed.

(** ** Writing on a shared text *)

(** The entry of the text table that has the inode. *)
Record text_of (ip xp : nat) (t : text) (s : kern S) : Prop := {
  to_entry : texts s !! xp = Some t;
  to_inode : x_iptr t = Some ip;
  to_only : forall i t', texts s !! i = Some t' -> x_iptr t' = Some ip -> i = xp;
  to_length : length (texts s) = NTEXT;
}.

(** The entry was locked, looked at and let go. *)
Definition text_dropped (xp : nat) (t : text) (s : kern S) : kern S :=
  set_texts (<[xp := set_x_flag (x_flag t &~ (XLOCK |: XWANT)) t]> (texts s))
    (set_wakes (wakes s ++ if x_flag t &? XWANT then [ChText xp] else []) s).

(** The entry is gone, its swap space is in the map [l], and the inode is no text any more
    and has one reference less. *)
Definition text_freed (ip : nat) (x : inode) (xp : nat) (t : text) (l : list Resmap.map) (s : kern S) : kern S :=
  set_inodes (<[ip := set_i_count (dec8 (i_count x)) (set_i_flag (i_flag x &~ ITEXT) x)]> (inodes s))
    (set_swapmap l (set_texts (<[xp := set_x_iptr None t]> (texts s)) s)).

(** What the bits say. *)
Definition granted (x : inode) (r : right) (s : kern S) : kres S Z :=
  if allows (u_uid s) (u_gid s) x r then Done 0 s else Done 1 (set_u_error EACCES s).

Lemma kfor_none {A} (l : list A) f (s : kern S) : (forall a, a ∈ l -> f a s = Done tt s) -> kfor l f s = Done tt s.
Proof.
  induction l as [|a l IH]; intros Hf; [done|]. cbn [kfor]. rewrite (kbind_run _ _ _ _ _ (Hf a ltac:(set_solver))).
  apply IH. set_solver.
Qed.

Lemma kfor_app {A} (l1 l2 : list A) f (s : kern S) : kfor (l1 ++ l2) f s = (kfor l1 f;; kfor l2 f) s.
Proof.
  revert s. induction l1 as [|a l IH]; intros s; [done|]. cbn [kfor app]. unfold mbind, k_bind. by destruct (f a s) as [[] s1| | | |].
Qed.

(** The one turn of a loop over a table that does something. *)
Lemma kfor_one n k f (s : kern S) : (k < n)%nat -> (forall a, (a < k)%nat -> f a s = Done tt s) ->
  (forall s', f k s = Done tt s' -> forall a, (k < a < n)%nat -> f a s' = Done tt s') -> kfor (seq 0 n) f s = f k s.
Proof.
  intros Hk H1 H2. replace n with (k + Datatypes.S (n - Datatypes.S k))%nat by lia. rewrite seq_app, kfor_app.
  rewrite (kbind_run _ _ tt s s) by (apply kfor_none; intros a [? ?]%elem_of_seq; apply H1; lia). cbn [kfor seq Nat.add].
  unfold mbind, k_bind. destruct (f k s) as [[] s1| | | |] eqn:E; try done. apply kfor_none. intros a [? ?]%elem_of_seq. eapply H2; [done|lia].
Qed.

Lemma gettext_run i t (s : kern S) : texts s !! i = Some t -> gettext i s = Done t s.
Proof. intros Ht. unfold gettext. rewrite kgets_run. by apply at_run. Qed.

Lemma lock_dropped n : (n |: XLOCK) &~ (XLOCK |: XWANT) = n &~ (XLOCK |: XWANT).
Proof.
  unfold clr. apply Z.bits_inj'. intros i Hi. rewrite !Z.land_spec, !Z.lor_spec, !Z.lnot_spec, !Z.lor_spec by lia.
  destruct (Z.testbit n i), (Z.testbit XLOCK i), (Z.testbit XWANT i); done.
Qed.

Lemma lock_taken n : (n &? XLOCK) = false -> (n |: XLOCK) &~ XLOCK = n.
Proof.
  intros Hn. unfold tst in Hn. apply negb_false_iff, Z.eqb_eq in Hn. unfold clr. apply Z.bits_inj'. intros i Hi.
  pose proof (f_equal (fun z => Z.testbit z i) Hn) as Hb. cbv beta in Hb. rewrite Z.land_spec, Z.bits_0 in Hb.
  rewrite Z.land_spec, Z.lor_spec, Z.lnot_spec by lia. destruct (Z.testbit n i), (Z.testbit XLOCK i); done.
Qed.

(** xuntext() of an entry of a locked inode, on each of its ways. *)
Lemma xuntext_run ip x xp t s : texts s !! xp = Some t -> x_iptr t = Some ip -> inodes s !! ip = Some x ->
  (x_flag t &? XLOCK = true -> xuntext xp s = Sleeps (ChText xp) (set_texts (<[xp := set_x_flag (x_flag t |: XWANT) t]> (texts s)) s)) /\
  (x_flag t &? XLOCK = false -> x_count t <> 0 -> xuntext xp s = Done tt (text_dropped xp t s)) /\
  (x_flag t &? XLOCK = false -> x_count t = 0 -> i_flag x &? ILOCK = true -> forall l,
    Resmap.Code.mfree_map (swapmap s) (wtodb (x_size t)) (x_daddr t) = Some l -> xuntext xp s = Done tt (text_freed ip x xp t l s)).
Proof.
  intros Ht Hi Hx. assert (Halt : forall g, alter g xp (texts s) = <[xp := g t]> (texts s)) by (intros g; by apply alter_insert).
  assert (Hlt : (xp < length (texts s))%nat) by (by eapply lookup_lt_Some).
  assert (Hlock : x_flag t &? XLOCK = false -> xlock xp s = Done tt (set_texts (<[xp := set_x_flag (x_flag t |: XLOCK) t]> (texts s)) s)).
  { intros Hl. unfold xlock. rewrite (kbind_run _ _ _ _ _ (gettext_run _ _ _ Ht)), Hl. unfold modtext, puts. by rewrite Halt. }
  split_and!.
  - intros Hl. unfold xuntext, xlock. unfold mbind at 1, k_bind at 1. rewrite (kbind_run _ _ _ _ _ (gettext_run _ _ _ Ht)), Hl.
    unfold modtext. unfold mbind, k_bind, puts, sleep. by rewrite Halt.
  - intros Hl Hc. unfold xuntext. rewrite (kbind_run _ _ _ _ _ (Hlock Hl)).
    set (s1 := set_texts _ s). assert (Ht1 : texts s1 !! xp = Some (set_x_flag (x_flag t |: XLOCK) t)) by (by apply list_lookup_insert_eq).
    rewrite (kbind_run _ _ _ _ _ (gettext_run _ _ _ Ht1)). cbn [x_count set_x_flag]. rewrite (proj2 (Z.eqb_neq _ _) Hc). cbn [negb].
    unfold xunlock. rewrite (kbind_run _ _ _ _ _ (gettext_run _ _ _ Ht1)). cbn [x_flag set_x_flag].
    rewrite tst_lor. change (XLOCK &? XWANT) with false. rewrite orb_false_r. unfold text_dropped, modtext, wakeup, mbind, k_bind, puts.
    destruct (x_flag t &? XWANT); cbn; (rewrite (alter_insert _ _ _ _ Ht1)); cbn; rewrite list_insert_insert_eq, lock_dropped, ?app_nil_r; by destruct s.
  - intros Hl Hc Hk l Hm. unfold xuntext. rewrite (kbind_run _ _ _ _ _ (Hlock Hl)).
    set (s1 := set_texts _ s). assert (Ht1 : texts s1 !! xp = Some (set_x_flag (x_flag t |: XLOCK) t)) by (by apply list_lookup_insert_eq).
    rewrite (kbind_run _ _ _ _ _ (gettext_run _ _ _ Ht1)). cbn [x_count set_x_flag]. rewrite Hc. cbn [negb Z.eqb].
    unfold modtext. unfold mbind at 1, k_bind at 1, puts at 1. rewrite (alter_insert _ _ _ _ Ht1). cbn [x_flag set_x_flag x_size x_daddr x_iptr].
    rewrite lock_taken, Hi by done. unfold swap_free. unfold mbind at 1, k_bind at 1. rewrite kgets_run. cbn [swapmap set_texts s1].
    rewrite Hm. unfold puts at 1. unfold mbind at 1, k_bind at 1. rewrite modip_run. cbn [inodes set_swapmap set_texts s1].
    rewrite (alter_insert _ _ _ _ Hx). set (y := set_i_flag _ x).
    match goal with |- context [(getip ip ≫= _) ?s2] => assert (Hy : inodes s2 !! ip = Some y) by (cbn; apply list_lookup_insert_eq; by eapply lookup_lt_Some) end.
    rewrite (kbind_run _ _ _ _ _ (getip_run _ _ _ Hy)). unfold y at 1. cbn [i_flag set_i_flag]. rewrite tst_clr_other, Hk by done.
    rewrite modip_run. cbn [inodes set_inodes]. rewrite (alter_insert _ _ _ _ ltac:(exact Hy)). cbn. rewrite !list_insert_insert_eq. by destruct s, t.
Qed.

(** A right that is not writing does not look at the volume. *)
Lemma access_other ip x r s : inodes s !! ip = Some x -> r <> Write -> access ip (right_mode r) s = granted x r s.
Proof.
  intros Hx Hr. unfold access. replace (right_mode r =? IWRITE) with false by (by destruct r). rewrite kret_run, kgets_run.
  unfold granted, allows. destruct (u_uid s =? 0); [done|]. cbn [orb]. rewrite (kbind_run _ _ _ _ _ (getip_run _ _ _ Hx)), kgets_run. cbv zeta.
  rewrite <- class_bit. by destruct (i_mode x &? _).
Qed.

(** Writing on a text: what xrele() leaves decides. *)
Lemma access_text ip x mp f s s1 : inodes s !! ip = Some x -> mounted (i_dev x) mp f s -> s_nfree f <= NICFREE ->
  s_ninode f <= NICINOD -> s_ronly f = 0 -> i_flag x &? ITEXT = true ->
  (xrele ip s = Done tt s1 -> (exists y, inodes s1 !! ip = Some y /\ i_flag y &? ITEXT = true) ->
     access ip (right_mode Write) s = Done 1 (set_u_error ETXTBSY s1)) /\
  (xrele ip s = Done tt s1 -> forall y, inodes s1 !! ip = Some y -> i_flag y &? ITEXT = false ->
     access ip (right_mode Write) s = granted y Write s1) /\
  (forall c s', xrele ip s = Sleeps c s' -> access ip (right_mode Write) s = Sleeps c s').
Proof.
  intros Hx Hm Hn Hi Hro Ht. unfold access. change (right_mode Write =? IWRITE) with true. cbv iota. split_and!.
  - intros Hr (y & Hy & Hyt). rewrite (kbind_run _ _ true s (set_u_error ETXTBSY s1)); [done|].
    rewrite (kbind_run _ _ _ _ _ (getip_run _ _ _ Hx)), (kbind_run _ _ _ _ _ (getfs_run _ _ _ _ Hm Hn Hi)), (kbind_run _ _ _ _ _ (fp_run _ _ _ _ Hm)), Hro.
    cbn [negb Z.eqb]. rewrite Ht, (kbind_run _ _ _ _ _ Hr), (kbind_run _ _ _ _ _ (getip_run _ _ _ Hy)), Hyt. done.
  - intros Hr y Hy Hyt. rewrite (kbind_run _ _ false s s1).
    + rewrite kgets_run. unfold granted, allows. destruct (u_uid s1 =? 0); [done|]. cbn [orb].
      rewrite (kbind_run _ _ _ _ _ (getip_run _ _ _ Hy)), kgets_run. cbv zeta. rewrite <- class_bit. by destruct (i_mode y &? _).
    + rewrite (kbind_run _ _ _ _ _ (getip_run _ _ _ Hx)), (kbind_run _ _ _ _ _ (getfs_run _ _ _ _ Hm Hn Hi)), (kbind_run _ _ _ _ _ (fp_run _ _ _ _ Hm)), Hro.
      cbn [negb Z.eqb]. rewrite Ht, (kbind_run _ _ _ _ _ Hr), (kbind_run _ _ _ _ _ (getip_run _ _ _ Hy)), Hyt. done.
  - intros c s' Hr. unfold mbind at 1, k_bind at 1.
    rewrite (kbind_run _ _ _ _ _ (getip_run _ _ _ Hx)), (kbind_run _ _ _ _ _ (getfs_run _ _ _ _ Hm Hn Hi)), (kbind_run _ _ _ _ _ (fp_run _ _ _ _ Hm)), Hro.
    cbn [negb Z.eqb]. rewrite Ht. unfold mbind, k_bind. by rewrite Hr.
Qed.

(** The loop of xrele() over a table that has the inode once, or not at all. *)
Lemma xrele_none ip s : length (texts s) = NTEXT -> (forall i t, texts s !! i = Some t -> x_iptr t <> Some ip) ->
  kfor (seq 0 NTEXT) (fun xp => x ← gettext xp; if bool_decide (x_iptr x = Some ip) then xuntext xp else mret tt) s = Done tt s.
Proof.
  intros Hlen Hno. apply kfor_none. intros a [_ Ha]%elem_of_seq. destruct (lookup_lt_is_Some_2 (texts s) a) as [t Ht]; [lia|].
  rewrite (kbind_run _ _ _ _ _ (gettext_run _ _ _ Ht)), bool_decide_eq_false_2; [done|by eapply Hno].
Qed.

Lemma xrele_one ip xp t x s : text_of ip xp t s -> inodes s !! ip = Some x -> i_flag x &? ITEXT = true ->
  (forall s', xuntext xp s = Done tt s' -> forall i, i <> xp -> texts s' !! i = texts s !! i) -> xrele ip s = xuntext xp s.
Proof.
  intros [Ht Hi Ho Hl] Hx Hf Hs. unfold xrele. rewrite (kbind_run _ _ _ _ _ (getip_run _ _ _ Hx)), Hf.
  assert (Hxp : (xp < NTEXT)%nat) by (rewrite <- Hl; by eapply lookup_lt_Some).
  assert (Hk : (x ← gettext xp; if bool_decide (x_iptr x = Some ip) then xuntext xp else mret tt) s = xuntext xp s).
  { rewrite (kbind_run _ _ _ _ _ (gettext_run _ _ _ Ht)), bool_decide_eq_true_2 by done. done. }
  assert (Hskip : forall a s', (a < NTEXT)%nat -> a <> xp -> texts s' !! a = texts s !! a ->
    (x ← gettext a; if bool_decide (x_iptr x = Some ip) then xuntext a else mret tt) s' = Done tt s').
  { intros a s' Ha Hne E. destruct (lookup_lt_is_Some_2 (texts s) a) as [t' Ht']; [lia|].
    rewrite (kbind_run _ _ _ _ _ (gettext_run _ _ _ (eq_trans E Ht'))), bool_decide_eq_false_2; [done|]. intros E'. by apply Hne, (Ho a t'). }
  rewrite (kfor_one NTEXT xp); [exact Hk|done| |].
  - intros a Ha. apply Hskip; [lia|lia|done].
  - intros s' Hs' a Ha. rewrite Hk in Hs'. apply Hskip; [lia|lia|]. apply (Hs s' Hs'). lia.
Qed.

(** C30. [access] refuses writing on a volume mounted read-only with [EROFS] before it looks at
    anything else.  A right other than writing, and writing on an inode that is no shared
    text, it grants exactly when the caller is the super-user or the bit of his class (owner,
    group or others) is set, and refuses with [EACCES] otherwise.  Writing on a shared text
    waits while the text is locked; it is refused with [ETXTBSY], to the super-user too, while
    a process runs the text or when no entry of the table has the inode; and a text that
    nobody runs is taken out of the table, its swap space freed, and then the bits decide. *)
Theorem access_correct ip x mp f r s : inodes s !! ip = Some x -> mounted (i_dev x) mp f s -> s_nfree f <= NICFREE ->
  s_ninode f <= NICINOD ->
  (r = Write -> s_ronly f <> 0 -> access ip (right_mode r) s = Done 1 (set_u_error EROFS s)) /\
  (r <> Write \/ s_ronly f = 0 /\ i_flag x &? ITEXT = false -> access ip (right_mode r) s = granted x r s) /\
  (r = Write -> s_ronly f = 0 -> i_flag x &? ITEXT = true ->
    (length (texts s) = NTEXT -> (forall i t, texts s !! i = Some t -> x_iptr t <> Some ip) ->
       access ip (right_mode r) s = Done 1 (set_u_error ETXTBSY s)) /\
    (forall xp t, text_of ip xp t s ->
      (x_flag t &? XLOCK = true -> access ip (right_mode r) s =
         Sleeps (ChText xp) (set_texts (<[xp := set_x_flag (x_flag t |: XWANT) t]> (texts s)) s)) /\
      (x_flag t &? XLOCK = false -> x_count t <> 0 ->
         access ip (right_mode r) s = Done 1 (set_u_error ETXTBSY (text_dropped xp t s))) /\
      (x_flag t &? XLOCK = false -> x_count t = 0 -> i_flag x &? ILOCK = true -> forall l,
         Resmap.Code.mfree_map (swapmap s) (wtodb (x_size t)) (x_daddr t) = Some l ->
         access ip (right_mode r) s = granted x r (text_freed ip x xp t l s)))).
Proof.
  intros Hx Hm Hn Hi. split_and!.
  - intros -> Hro. unfold access. change (right_mode Write =? IWRITE) with true. cbv iota.
    rewrite (kbind_run _ _ true s (set_u_error EROFS s)); [done|].
    rewrite (kbind_run _ _ _ _ _ (getip_run _ _ _ Hx)), (kbind_run _ _ _ _ _ (getfs_run _ _ _ _ Hm Hn Hi)), (kbind_run _ _ _ _ _ (fp_run _ _ _ _ Hm)).
    by rewrite (proj2 (Z.eqb_neq _ _) Hro).
  - intros Hr. destruct (decide (r = Write)) as [-> |Hr']; [|by apply access_other].
    destruct Hr as [Hr|[Hro Ht]]; [done|]. rewrite (access_run ip x mp f Write s Hx Hm Hn Hi Ht), Hro. done.
  - intros -> Hro Htext. pose proof (fun s1 => access_text ip x mp f s s1 Hx Hm Hn Hi Hro Htext) as Ha.
    split.
    + intros Hlen Hno. apply (proj1 (Ha s)). { unfold xrele. rewrite (kbind_run _ _ _ _ _ (getip_run _ _ _ Hx)), Htext. by apply xrele_none. }
      by exists x.
    + intros xp t Hto. destruct (xuntext_run ip x xp t s (to_entry _ _ _ _ Hto) (to_inode _ _ _ _ Hto) Hx) as (H1 & H2 & H3).
      pose proof (xrele_one ip xp t x s Hto Hx Htext) as Hx'. split_and!.
      * intros Hl. apply (proj2 (proj2 (Ha s))). rewrite Hx'; [by rewrite H1|]. intros s' E. by rewrite H1 in E.
      * intros Hl Hc. apply (proj1 (Ha _)); [|by exists x]. rewrite Hx'; [by rewrite H2|]. intros s' E i Hne. rewrite H2 in E by done.
        injection E as <-. by apply list_lookup_insert_ne.
      * intros Hl Hc Hk l Hml. rewrite (proj1 (proj2 (Ha (text_freed ip x xp t l s)))) with (y := set_i_count (dec8 (i_count x)) (set_i_flag (i_flag x &~ ITEXT) x)); try done.
        -- rewrite Hx'; [by rewrite (H3 Hl Hc Hk l Hml)|]. intros s' E i Hne. rewrite (H3 Hl Hc Hk l Hml) in E. injection E as <-.
           by apply list_lookup_insert_ne.
        -- cbn. apply list_lookup_insert_eq. by eapply lookup_lt_Some.
        -- cbn [i_flag set_i_count set_i_flag]. by rewrite tst_clr_same.
Qed.
End Access.

(** A file that a process runs. *)
Definition running1 : text := Text 0 0 8 (Some 0%nat) 1 1 0.
Definition text_file : inode := set_i_flag (ILOCK |: ITEXT) file1.
Definition kern_text : kern _ := set_u_uid 0 (set_inodes (<[0%nat := text_file]> (inodes kern2))
  (set_texts (running1 :: replicate 39 (Text 0 0 0 None 0 0 0)) kern2)).

Lemma access_correct_witness :
  access 0 IWRITE (set_u_uid 9 (set_u_gid 3 kern2)) = Done 1 (set_u_error EACCES (set_u_uid 9 (set_u_gid 3 kern2))) /\
  access 0 IWRITE kern_text = Done 1 (set_u_error ETXTBSY (text_dropped 0 running1 kern_text)).
Proof.
  split.
  - apply (access_correct 0 file1 1 fs1 Write (set_u_uid 9 (set_u_gid 3 kern2))); try done; [split; [done|by eexists]|by right].
  - apply (access_correct 0 text_file 1 fs1 Write kern_text); try done; [split; [done|by eexists]|].
    split; try done. intros [|i] t Hi Ht; [done|]. cbn [texts kern_text set_u_uid set_inodes set_texts] in Hi.
    apply lookup_replicate in Hi as [-> _]. done.
Defined.
