(* ===== verification/Rdwri.v ===== *)
(** * Reading and writing files: [kernel/rdwri.c], [passc] and [cpass] of [kernel/subr.c]

    [u_base] is a byte number; [umem] and [kmem] are the user's and the kernel's bytes.
    That a user copy moves exactly its bytes, or none when a page is missing, is what
    [Ucopy] shows of [copyinb] and [copyoutb]. *)

From S2P Require Import Prelude Param Bytes Kern Alloc Bmap Inode Frame.

Section Rdwri.
Context {S : Type} `{BlockStore S}.

(** ** One byte at a time *)

Definition set_at (m : Z -> Z) (a c : Z) : Z -> Z := fun b => if b =? a then c else m b.

(** [u_count--; u_offset++; u_base++] *)
Definition advance_by (n : Z) (s : kern S) : kern S :=
  set_u_count (u_count s - n) (set_u_offset (u_offset s + n) (set_u_base (u_base s + n) s)).

Definition passc (c : Z) : K S Z :=
  seg ← gets u_segflg; base ← gets u_base;
  ok ← (if negb (seg =? 0) then puts (fun s => set_kmem (set_at (kmem s) base (Z.land c 255)) s);; mret true
        else
          mapped ← gets (fun s => umap s base);
          if (mapped : bool) then puts (fun s => set_umem (set_at (umem s) base (Z.land c 255)) s);; mret true
          else error EFAULT;; mret false);
  if (ok : bool) then
    puts (advance_by 1);;
    n ← gets u_count;
    mret (if n =? 0 then -1 else 0)
  else mret (-1).

Definition cpass : K S Z :=
  n ← gets u_count;
  if n =? 0 then mret (-1)
  else
    seg ← gets u_segflg; base ← gets u_base;
    c ← (if negb (seg =? 0) then gets (fun s => Some (kmem s base))
         else
           mapped ← gets (fun s => umap s base);
           if (mapped : bool) then gets (fun s => Some (umem s base)) else error EFAULT;; mret None);
    match c with
    | None => mret (-1)
    | Some c => puts (advance_by 1);; mret (Z.land c 255)
    end.

(** ** [iomove]

    Between byte [o] of a buffer and the area at [u_base]; the result is the buffer's
    contents. *)

Definition user_bytes (s : kern S) (a n : Z) : list Z := umem s <$> seqZ a n.
Definition user_mapped (s : kern S) (a n : Z) : bool := forallb (umap s) (seqZ a n).

Fixpoint iomove_in (n : nat) (d : list Z) (o : Z) : K S (list Z) :=
  match n with
  | O => mret d
  | Datatypes.S n =>
      t ← cpass;
      if t <? 0 then mret d else iomove_in n (putb d o t) (o + 1)
  end.

Fixpoint iomove_out (n : nat) (d : list Z) (o : Z) : K S unit :=
  match n with
  | O => mret tt
  | Datatypes.S n =>
      t ← passc (getb d o);
      if t <? 0 then mret tt else iomove_out n d (o + 1)
  end.

(** [wr] is [flag == B_WRITE]. *)
Definition iomove (d : list Z) (o n : Z) (wr : bool) : K S (list Z) :=
  if n =? 0 then mret d
  else
    seg ← gets u_segflg;
    if negb (seg =? 1) then
      base ← gets u_base;
      ok ← gets (fun s => user_mapped s base n);
      if (ok : bool) then
        bs ← gets (fun s => user_bytes s base n);
        (if wr then mret tt
         else puts (fun s => set_umem (fun b => if (base <=? b) && (b <? base + n) then getb d (o + (b - base)) else umem s b) s));;
        puts (advance_by n);;
        mret (if wr then putbs d o bs else d)
      else error EFAULT;; mret d
    else if wr then iomove_in (Z.to_nat n) d o
    else iomove_out (Z.to_nat n) d o;; mret d.

(** ** [readi] and [writei] *)

(** [bdevsw] and [cdevsw] are tables of the drivers' functions; [resid dev bn] is what a
    failed read of a block left in [b_resid]. *)
Context (cdev_read cdev_write : Z -> K S unit) (resid : Z -> Z -> Z).

Definition geteblk : K S buf := mret (Buf NODEV 0 [] false).

(** The read-ahead only brings a block into the cache. *)
Definition breada (dev bn ra : Z) : K S buf :=
  (if ra =? 0 then mret tt else puts (fun s => set_store (bs_read dev ra (store s)).2 s));;
  bread dev bn.

Definition b_resid (bp : buf) : Z := if b_err bp then resid (b_dev bp) (b_blkno bp) else 0.

Definition is_special (type : Z) : bool := (type =? IFBLK) || (type =? IFMPB).

(** What one turn reads: device, block and number of bytes; [None] returns. *)
Definition readi_where (ip : nat) (type lbn n : Z) : K S (option (Z * Z * Z)) :=
  x ← getip ip;
  if is_special type then
    puts (set_rablock (lbn + 1));;
    rdev ← at_ (i_addr x) 0;
    mret (Some (rdev, lbn, n))
  else
    off ← gets u_offset;
    let diff := i_size x - off in
    if diff <=? 0 then mret None
    else
      bn ← bmap ip lbn true;
      e ← gets u_error;
      if negb (e =? 0) then mret None
      else mret (Some (i_dev x, bn, if diff <? n then diff else n)).

(** The [do] loop.  Fuel: every turn but the last moves at least one byte. *)
Fixpoint readi_loop (fuel : nat) (ip : nat) (type : Z) : K S unit :=
  off ← gets u_offset;
  cnt ← gets u_count;
  let lbn := Z.quot off BSIZE in
  let on := Z.rem off BSIZE in
  w ← readi_where ip type lbn (Z.min (BSIZE - on) cnt);
  match w with
  | None => mret tt
  | Some (dev, bn, n) =>
      x ← getip ip;
      ra ← gets rablock;
      bp ← (if bn <? 0 then bp ← geteblk; mret (clrbuf bp)
            else if i_lastr x + 1 =? lbn then breada dev bn ra
            else bread dev bn);
      modip ip (set_i_lastr lbn);;
      let n := Z.min n (BSIZE - wtob (b_resid bp)) in
      (if negb (n =? 0) then _ ← iomove (b_data bp) on n false; mret tt else mret tt);;
      brelse bp;;
      e ← gets u_error;
      cnt ← gets u_count;
      if (e =? 0) && negb (cnt =? 0) && (0 <? n)
      then match fuel with O => nofuel | Datatypes.S fuel => readi_loop fuel ip type end
      else mret tt
  end.

Definition readi (ip : nat) : K S unit :=
  cnt ← gets u_count;
  if cnt =? 0 then mret tt
  else
    off ← gets u_offset;
    if off <? 0 then error EINVAL
    else
      modip ip (fun x => set_i_flag (i_flag x |: IACC) x);;
      x ← getip ip;
      let type := Z.land (i_mode x) IFMT in
      if (type =? IFCHR) || (type =? IFMPC) then rdev ← at_ (i_addr x) 0; cdev_read rdev
      else readi_loop (Z.to_nat cnt) ip type.

(** Where one turn writes; [None] returns. *)
Definition writei_where (ip : nat) (type bn : Z) : K S (option (Z * Z)) :=
  x ← getip ip;
  if is_special type then rdev ← at_ (i_addr x) 0; mret (Some (rdev, bn))
  else
    bn ← bmap ip bn false;
    if bn <? 0 then mret None else mret (Some (i_dev x, bn)).

Fixpoint writei_loop (fuel : nat) (ip : nat) (type : Z) : K S unit :=
  off ← gets u_offset;
  cnt ← gets u_count;
  let on := Z.rem off BSIZE in
  let n := Z.min (BSIZE - on) cnt in
  w ← writei_where ip type (Z.quot off BSIZE);
  match w with
  | None => mret tt
  | Some (dev, bn) =>
      bp ← (if n =? BSIZE then getblk dev bn else bread dev bn);
      d ← iomove (b_data bp) on n true;
      e ← gets u_error;
      (if negb (e =? 0) then bdrop (Buf (b_dev bp) (b_blkno bp) d (b_err bp))
       else bdwrite (Buf (b_dev bp) (b_blkno bp) d (b_err bp)));;
      x ← getip ip;
      off ← gets u_offset;
      (if (i_size x <? off) && ((type =? IFDIR) || (type =? IFREG)) then modip ip (set_i_size off) else mret tt);;
      modip ip (fun x => set_i_flag (i_flag x |: (IUPD |: ICHG)) x);;
      e ← gets u_error;
      cnt ← gets u_count;
      if (e =? 0) && negb (cnt =? 0)
      then match fuel with O => nofuel | Datatypes.S fuel => writei_loop fuel ip type end
      else mret tt
  end.

Definition writei (ip : nat) : K S unit :=
  off ← gets u_offset;
  if off <? 0 then error EINVAL
  else
    x ← getip ip;
    let type := Z.land (i_mode x) IFMT in
    if (type =? IFCHR) || (type =? IFMPC) then
      modip ip (fun x => set_i_flag (i_flag x |: (IUPD |: ICHG)) x);;
      rdev ← at_ (i_addr x) 0;
      cdev_write rdev
    else
      cnt ← gets u_count;
      if cnt =? 0 then mret tt else writei_loop (Z.to_nat cnt) ip type.
End Rdwri.

(** ** The bytes of a file *)

(** Byte [k] of the file; a hole reads as zeros. *)
Definition fbyte (g : Z -> list Z) (addr : list Z) (k : Z) : Z :=
  let b := blk g addr (k / BSIZE) in if b =? 0 then 0 else getb (g b) (k mod BSIZE).

(** The mapped blocks are whole. *)
Definition blocks_whole (g : Z -> list Z) (addr : list Z) : Prop :=
  forall bn, 0 <= bn < FILEMAX -> 0 <= blk g addr bn /\ (blk g addr bn <> 0 -> length (g (blk g addr bn)) = 512%nat).

Lemma user_fields {S} (s s' : kern S) : user s' = user s ->
  u_base s' = u_base s /\ u_count s' = u_count s /\ u_offset s' = u_offset s /\ u_segflg s' = u_segflg s /\
  umem s' = umem s /\ umap s' = umap s /\ kmem s' = kmem s.
Proof. unfold user. intros E. by injection E. Qed.

Lemma keeps_done {S A} (m : K S A) s a s' : keeps m -> m s = Done a s' -> user s' = user s.
Proof. intros Hk E. specialize (Hk s). by rewrite E in Hk. Qed.

Lemma mapped_sub {S} (s : kern S) a n b m : user_mapped s a n = true -> a <= b -> b + m <= a + n -> user_mapped s b m = true.
Proof.
  unfold user_mapped. rewrite !forallb_forall. intros Hm Ha Hb x Hx%list_elem_of_In%elem_of_seqZ. apply Hm.
  apply list_elem_of_In, elem_of_seqZ. lia.
Qed.

Section Read.
Context {S : Type} `{BlockStore S}.
Context (cdev_read cdev_write : Z -> K S unit) (resid : Z -> Z -> Z).
Context (dev : Z) (mp ip : nat).
Notation disk s := (bs_get (store s) dev).

(** The user's area for the rest of the transfer is there, nothing has failed. *)
Record ready (s : kern S) : Prop := {
  rd_error : u_error s = 0;
  rd_seg : u_segflg s <> 1;
  rd_offset : 0 <= u_offset s;
  rd_mapped : user_mapped s (u_base s) (u_count s) = true;
}.

(** [n] bytes of the file went to the user, and nothing else happened. *)
Record moved (addr L : list Z) (x : inode) (n : Z) (s s' : kern S) : Prop := {
  mv_count : u_count s' = u_count s - n;
  mv_offset : u_offset s' = u_offset s + n;
  mv_base : u_base s' = u_base s + n;
  mv_seg : u_segflg s' = u_segflg s;
  mv_map : umap s' = umap s;
  mv_error : u_error s' = u_error s;
  mv_mem : forall b, umem s' b = if (u_base s <=? b) && (b <? u_base s + n)
    then fbyte (disk s) addr (u_offset s + (b - u_base s)) else umem s b;
  mv_inode : exists v, inodes s' = <[ip := set_i_lastr v x]> (inodes s);
  mv_store : forall d b, bs_get (store s') d b = bs_get (store s) d b;
  mv_volume : volume dev mp L s';
  mv_rest : rest s' = rest s;
}.

Lemma fbyte_ext g g' addr L k : tree_ok g addr L -> (forall b, g' b = g b) -> 0 <= k < FILEMAX * BSIZE ->
  fbyte g' addr k = fbyte g addr k.
Proof.
  intros T E Hk. unfold fbyte. pose proof (div_mod_range k BSIZE ltac:(done)) as Hd. unfold BSIZE in *.
  rewrite (blk_ext g g' addr L) by (auto; lia). by rewrite E.
Qed.

Lemma moved_trans addr L x n1 n2 s1 s2 s3 v : tree_ok (disk s1) addr L -> 0 <= n1 -> 0 <= n2 -> 0 <= u_offset s1 ->
  u_offset s1 + n1 + n2 <= FILEMAX * BSIZE ->
  moved addr L x n1 s1 s2 -> moved addr L (set_i_lastr v x) n2 s2 s3 -> moved addr L x (n1 + n2) s1 s3.
Proof.
  intros T H1 H2 H0 Hm [C1 O1 B1 S1 M1 E1 U1 [v1 I1] G1 V1 X1] [C2 O2 B2 S2 M2 E2 U2 [v2 I2] G2 V2 X2].
  split; try congruence; try lia.
  - intros b. rewrite U2, B1, O1, U1.
    destruct (Z.leb_spec (u_base s1) b), (Z.ltb_spec b (u_base s1 + n1)), (Z.leb_spec (u_base s1 + n1) b),
      (Z.ltb_spec b (u_base s1 + n1 + n2)), (Z.ltb_spec b (u_base s1 + (n1 + n2))); cbn [andb]; try lia; try done.
    rewrite (fbyte_ext (disk s1) (disk s2) addr L) by (auto; lia). f_equal. lia.
  - exists v2. rewrite I2, I1. by rewrite list_insert_insert_eq.
Qed.

(** The buffer for block [lbn] of the file. *)
Lemma read_block addr L s lbn lastr ra : file_in dev mp ip s addr L -> blocks_whole (disk s) addr -> 0 <= lbn < FILEMAX ->
  let b := blk (disk s) addr lbn in let bn := if b =? 0 then -1 else b in
  exists bp s', (if bn <? 0 then bp ← geteblk; mret (clrbuf bp) else if (lastr : bool) then breada dev bn ra else bread dev bn) s = Done bp s' /\
    b_err bp = false /\ length (b_data bp) = 512%nat /\
    (forall o, 0 <= o < BSIZE -> getb (b_data bp) o = fbyte (disk s) addr (lbn * BSIZE + o)) /\
    unchanged dev mp L s s' /\ user s' = user s.
Proof.
  intros F Hw Hb b bn. destruct (Hw lbn Hb) as [Hb0 Hwl]. fold b in Hb0, Hwl.
  assert (Hfb : forall o, 0 <= o < BSIZE -> fbyte (disk s) addr (lbn * BSIZE + o) = if b =? 0 then 0 else getb (disk s b) o).
  { intros o Ho. unfold fbyte. rewrite (Z.add_comm _ o), Z.div_add, Z.mod_add, Z.div_small, Z.mod_small by (unfold BSIZE in *; lia). done. }
  unfold bn. destruct (Z.eqb_spec b 0) as [E|E].
  - exists (Buf NODEV 0 (replicate 512 0) false), s. split; [done|]. split_and!; try done.
    + intros o Ho. rewrite Hfb by done. apply (getb_zeros 512). unfold inside. rewrite length_replicate. unfold BSIZE, NBPW in *. lia.
    + by split; [apply F|..].
  - destruct (Z.ltb_spec b 0); [lia|].
    assert (Hrd : forall s1, unchanged dev mp L s s1 -> user s1 = user s -> exists bp s', bread dev b s1 = Done bp s' /\
      b_err bp = false /\ b_data bp = disk s b /\ unchanged dev mp L s s' /\ user s' = user s).
    { intros s1 U1 K1. destruct (volume_read dev mp L s1 b (un_volume _ _ _ _ _ U1)) as (s2 & I2 & E2 & R2 & V2 & M2 & G2).
      eexists _, s2. split; [exact R2|]. split; [done|]. split; [apply U1|]. split; [by eapply unchanged_trans|].
      rewrite <- K1. by eapply (keeps_done (bread dev b)); [apply keeps_bread|]. }
    assert (Hfin : exists bp s', (if lastr then breada dev b ra else bread dev b) s = Done bp s' /\
      b_err bp = false /\ b_data bp = disk s b /\ unchanged dev mp L s s' /\ user s' = user s).
    { assert (U0 : unchanged dev mp L s s) by by split; [apply F|..]. destruct lastr; [|by apply Hrd].
      unfold breada. destruct (Z.eqb_spec ra 0); [rewrite kret_run; by apply Hrd|].
      rewrite (kbind_run _ _ tt _ (set_store (bs_read dev ra (store s)).2 s)) by done. apply Hrd; [|done].
      split; try done; [|intros; apply bs_read_pure].
      eapply volume_ext; [apply F|done|intros; apply bs_read_pure|intros; apply bs_read_fails]. }
    destruct Hfin as (bp & s' & R & Eb & Ed & U & K). exists bp, s'. split; [exact R|]. rewrite Ed. split_and!; try done.
    + by apply Hwl.
    + intros o Ho. by rewrite Hfb.
Qed.

Lemma iomove_to_user d o n (s : kern S) : n <> 0 -> u_segflg s <> 1 -> user_mapped s (u_base s) n = true ->
  iomove d o n false s = Done d (advance_by n (set_umem (fun b => if (u_base s <=? b) && (b <? u_base s + n)
    then getb d (o + (b - u_base s)) else umem s b) s)).
Proof.
  intros Hn Hs Hm. unfold iomove. destruct (Z.eqb_spec n 0); [lia|]. rewrite kgets_run.
  destruct (Z.eqb_spec (u_segflg s) 1); [done|]. cbn [negb]. rewrite !kgets_run, Hm. done.
Qed.

Lemma readi_loop_unfold fuel type : readi_loop resid fuel ip type =
  (off ← gets u_offset;
   cnt ← gets u_count;
   w ← readi_where (S := S) ip type (Z.quot off BSIZE) (Z.min (BSIZE - Z.rem off BSIZE) cnt);
   match w with
   | None => mret tt
   | Some (dev, bn, n) =>
       x ← getip ip;
       ra ← gets rablock;
       bp ← (if bn <? 0 then bp ← geteblk; mret (clrbuf bp)
             else if i_lastr x + 1 =? Z.quot off BSIZE then breada dev bn ra
             else bread dev bn);
       modip ip (set_i_lastr (Z.quot off BSIZE));;
       (if negb (Z.min n (BSIZE - wtob (b_resid resid bp)) =? 0)
        then _ ← iomove (b_data bp) (Z.rem off BSIZE) (Z.min n (BSIZE - wtob (b_resid resid bp))) false; mret tt else mret tt);;
       brelse bp;;
       e ← gets u_error;
       cnt ← gets u_count;
       if (e =? 0) && negb (cnt =? 0) && (0 <? Z.min n (BSIZE - wtob (b_resid resid bp)))
       then match fuel with O => nofuel | Datatypes.S fuel => readi_loop resid fuel ip type end
       else mret tt
   end).
Proof. by destruct fuel. Qed.

Lemma readi_turn fuel type addr L x s : file_in dev mp ip s addr L -> blocks_whole (disk s) addr ->
  inodes s !! ip = Some x -> is_special type = false -> i_size x <= FILEMAX * BSIZE -> ready s ->
  u_count s <> 0 -> u_offset s < i_size x ->
  let n := Z.min (Z.min (BSIZE - u_offset s mod BSIZE) (u_count s)) (i_size x - u_offset s) in
  exists s', moved addr L x n s s' /\ readi_loop resid fuel ip type s =
    if (u_count s - n =? 0) || (n <=? 0) then Done tt s'
    else match fuel with O => KNoFuel | Datatypes.S fuel => readi_loop resid fuel ip type s' end.
Proof.
  intros F Hw Hx Ht Hsz [Re Rs Ro Rm] Hc Hoff n. pose proof F as [V (x' & Hx' & Hd & Ha) T].
  assert (x' = x) as -> by congruence. pose proof (div_mod_range (u_offset s) BSIZE ltac:(done)) as [Hq Hr].
  pose proof (Z.div_mod (u_offset s) BSIZE ltac:(done)) as Hdm.
  set (lbn := u_offset s / BSIZE) in *. set (on := u_offset s mod BSIZE) in *.
  assert (Hlbn : 0 <= lbn < FILEMAX) by (unfold BSIZE in *; lia).
  assert (Hn : n <> 0 /\ n <= u_count s /\ n <= BSIZE - on /\ n <= i_size x - u_offset s) by (unfold n; lia).
  rewrite readi_loop_unfold, !kgets_run. rewrite (Z.quot_div_nonneg (u_offset s)), (Z.rem_mod_nonneg (u_offset s)) by (done || lia).
  fold lbn on.
  destruct (bmap_read_run dev mp ip s addr L lbn F Hlbn) as (s1 & U1 & E1).
  pose proof (keeps_done _ _ _ _ (keeps_bmap ip lbn true) E1) as K1.
  assert (Hwh : readi_where ip type lbn (Z.min (BSIZE - on) (u_count s)) s =
    Done (Some (dev, if blk (disk s) addr lbn =? 0 then -1 else blk (disk s) addr lbn, n)) s1).
  { unfold readi_where. rewrite (kbind_run _ _ _ _ _ (getip_run _ _ _ Hx)), Ht, kgets_run.
    destruct (Z.leb_spec (i_size x - u_offset s) 0); [lia|]. rewrite (kbind_run _ _ _ _ _ E1), kgets_run.
    rewrite (un_error _ _ _ _ _ U1), Re. cbn [negb Z.eqb]. unfold mret, k_ret. rewrite Hd. repeat f_equal. unfold n.
    destruct (Z.ltb_spec (i_size x - u_offset s) (Z.min (BSIZE - on) (u_count s))); lia. }
  rewrite (kbind_run _ _ _ _ _ Hwh). cbv beta iota.
  assert (Hx1 : inodes s1 !! ip = Some x) by (by rewrite (un_inodes _ _ _ _ _ U1)).
  rewrite (kbind_run _ _ _ _ _ (getip_run _ _ _ Hx1)), kgets_run.
  assert (F1 : file_in dev mp ip s1 addr L).
  { split; [apply U1|by exists x|]. destruct T as [T1 T2 T3].
    assert (M1 : meta (disk s1) addr = meta (disk s) addr) by (apply meta_ext; intros; apply U1).
    split; rewrite ?M1; auto. intros m Hm. rewrite (un_store _ _ _ _ _ U1). auto. }
  assert (Eblk : forall bn, 0 <= bn < FILEMAX -> blk (disk s1) addr bn = blk (disk s) addr bn).
  { intros bn Hbn. apply (blk_ext _ _ _ L); [done|intros; apply U1|done]. }
  assert (Hw1 : blocks_whole (disk s1) addr).
  { intros bn Hbn. rewrite Eblk by done. rewrite (un_store _ _ _ _ _ U1). by apply Hw. }
  destruct (read_block addr L s1 lbn (i_lastr x + 1 =? lbn) (rablock s1) F1 Hw1 Hlbn) as (bp & s2 & E2 & Eb & El & Hby & U2 & K2).
  rewrite Eblk in E2 by done. rewrite (kbind_run _ _ _ _ _ E2).
  rewrite (kbind_run _ _ _ _ _ (modip_run ip (set_i_lastr lbn) s2)). unfold b_resid. rewrite Eb.
  change (BSIZE - wtob 0) with BSIZE. rewrite (Z.min_l n BSIZE) by (unfold BSIZE in *; lia).
  destruct (Z.eqb_spec n 0); [lia|]. cbn [negb].
  set (s3 := set_inodes (alter (set_i_lastr lbn) ip (inodes s2)) s2).
  destruct (user_fields s s2 ltac:(by rewrite K2)) as (Ub & Uc & Uo & Us & Um & Up & _).
  assert (E3 := iomove_to_user (b_data bp) on n s3 ltac:(lia) ltac:(by simpl; rewrite Us)).
  rewrite (kbind_run (_ ← iomove (b_data bp) on n false; mret tt) _ tt s3 _
    ltac:(rewrite (kbind_run _ _ _ _ _ (E3 ltac:(simpl; rewrite Ub; eapply mapped_sub;
      [unfold user_mapped in *; simpl; rewrite Up; exact Rm|lia|lia]))); reflexivity)).
  unfold brelse. rewrite kret_run, !kgets_run.
  cbn [u_error u_count advance_by set_u_count set_u_offset set_u_base set_umem s3 set_inodes].
  rewrite (un_error _ _ _ _ _ U2), (un_error _ _ _ _ _ U1), Re, Uc. change (0 =? 0) with true. cbn [andb].
  replace (0 <? n) with (negb (n <=? 0)) by (by rewrite Z.leb_antisym, negb_involutive). rewrite <- negb_orb.
  exists (advance_by n (set_umem (fun b => if (u_base s3 <=? b) && (b <? u_base s3 + n)
    then getb (b_data bp) (on + (b - u_base s3)) else umem s3 b) s3)). split.
  - split; simpl; try congruence.
    + rewrite (un_error _ _ _ _ _ U2), (un_error _ _ _ _ _ U1). done.
    + intros b. rewrite Ub, Um. destruct (Z.leb_spec (u_base s) b), (Z.ltb_spec b (u_base s + n)); cbn [andb]; try done.
      rewrite Hby by lia. replace (lbn * BSIZE + (on + (b - u_base s))) with (u_offset s + (b - u_base s)) by lia.
      apply (fbyte_ext _ _ _ L); [done|intros; apply U1|lia].
    + exists lbn. rewrite (un_inodes _ _ _ _ _ U2), (un_inodes _ _ _ _ _ U1). apply list_eq. intros j.
      destruct (decide (j = ip)) as [->|Hj].
      * rewrite list_lookup_alter_eq, Hx, list_lookup_insert_eq; [done|]. by eapply lookup_lt_Some.
      * by rewrite list_lookup_alter_ne, list_lookup_insert_ne.
    + intros. by rewrite (un_store _ _ _ _ _ U2), (un_store _ _ _ _ _ U1).
    + eapply volume_ext; [apply (un_volume _ _ _ _ _ U2)|done|done|done].
    + apply (user_rest s s2). by rewrite K2.
  - destruct ((u_count s - n =? 0) || (n <=? 0)); cbn [negb]; [done|]. by destruct fuel.
Qed.

(** A move keeps the file as it was. *)
Lemma moved_file addr L x n s s' : file_in dev mp ip s addr L -> blocks_whole (disk s) addr -> inodes s !! ip = Some x ->
  moved addr L x n s s' -> file_in dev mp ip s' addr L /\ blocks_whole (disk s') addr /\
    exists v, inodes s' !! ip = Some (set_i_lastr v x).
Proof.
  intros [V (x' & Hx' & Hd & Ha) T] Hw Hx M. assert (x' = x) as -> by congruence.
  destruct (mv_inode _ _ _ _ _ _ M) as [v Hv]. pose proof (mv_store _ _ _ _ _ _ M) as G.
  assert (Hx2 : inodes s' !! ip = Some (set_i_lastr v x)).
  { rewrite Hv. apply list_lookup_insert_eq. by eapply lookup_lt_Some. }
  split_and!; [split| |by exists v].
  - apply M.
  - by exists (set_i_lastr v x).
  - destruct T as [T1 T2 T3]. assert (M1 : meta (disk s') addr = meta (disk s) addr) by (apply meta_ext; intros; apply G).
    split; rewrite ?M1; auto. intros m Hm. rewrite G. auto.
  - intros bn Hb. rewrite (blk_ext (disk s) (disk s') addr L) by auto. rewrite G. by apply Hw.
Qed.

Lemma moved_ready addr L x n s s' : 0 <= n -> ready s -> moved addr L x n s s' -> ready s'.
Proof.
  intros Hn [R1 R2 R3 R4] [C O B Sg M E _ _ _ _ _]. split; [congruence|congruence|lia|].
  unfold user_mapped in *. rewrite M, B, C. eapply (mapped_sub s); [exact R4|lia|lia].
Qed.

Lemma readi_loop_run fuel type addr L : is_special type = false -> forall x s, file_in dev mp ip s addr L ->
  blocks_whole (disk s) addr -> inodes s !! ip = Some x -> i_size x <= FILEMAX * BSIZE -> ready s ->
  0 < u_count s <= Z.of_nat fuel ->
  exists s', readi_loop resid fuel ip type s = Done tt s' /\
    moved addr L x (Z.min (u_count s) (Z.max 0 (i_size x - u_offset s))) s s'.
Proof.
  intros Ht. induction fuel as [|fuel IH]; intros x s F Hw Hx Hsz R Hc; [lia|].
  destruct (Z.lt_ge_cases (u_offset s) (i_size x)) as [Hoff|Hoff].
  - destruct (readi_turn (Datatypes.S fuel) type addr L x s F Hw Hx Ht Hsz R ltac:(lia) Hoff) as (s1 & M1 & E1).
    set (n := Z.min _ (i_size x - u_offset s)) in *. rewrite E1.
    pose proof (Z.mod_pos_bound (u_offset s) BSIZE ltac:(done)).
    assert (Hn : 0 < n /\ n <= u_count s /\ n <= i_size x - u_offset s) by (unfold n; lia).
    destruct (Z.leb_spec n 0); [lia|]. rewrite orb_false_r. destruct (Z.eqb_spec (u_count s - n) 0) as [E0|E0].
    + exists s1. split; [done|]. by replace (Z.min (u_count s) (Z.max 0 (i_size x - u_offset s))) with n by lia.
    + destruct (moved_file _ _ _ _ _ _ F Hw Hx M1) as (F1 & Hw1 & v & Hx1).
      pose proof (moved_ready addr L x n s s1 ltac:(lia) R M1) as R1.
      pose proof (mv_count _ _ _ _ _ _ M1) as C1. pose proof (mv_offset _ _ _ _ _ _ M1) as O1.
      destruct (IH _ s1 F1 Hw1 Hx1 Hsz R1 ltac:(lia)) as (s2 & E2 & M2). exists s2. split; [done|].
      cbn [i_size set_i_lastr] in M2.
      replace (Z.min (u_count s) (Z.max 0 (i_size x - u_offset s)))
        with (n + Z.min (u_count s1) (Z.max 0 (i_size x - u_offset s1))) by lia.
      eapply moved_trans; [apply F|lia|lia|apply R| |exact M1|exact M2]. lia.
  - exists s. rewrite readi_loop_unfold, !kgets_run. split.
    + unfold readi_where. rewrite (kbind_run _ _ None s s); [done|]. rewrite (kbind_run _ _ _ _ _ (getip_run _ _ _ Hx)), Ht, kgets_run.
      by destruct (Z.leb_spec (i_size x - u_offset s) 0); [|lia].
    + replace (Z.min (u_count s) (Z.max 0 (i_size x - u_offset s))) with 0 by lia. split; try lia; try done.
      * intros b. destruct (Z.leb_spec (u_base s) b), (Z.ltb_spec b (u_base s + 0)); cbn [andb]; lia || done.
      * exists (i_lastr x). rewrite list_insert_id; [done|]. rewrite Hx. by destruct x.
      * apply F.
Qed.

Lemma readi_run addr L x s : file_in dev mp ip s addr L -> blocks_whole (disk s) addr -> inodes s !! ip = Some x ->
  Z.land (i_mode x) IFMT = IFREG \/ Z.land (i_mode x) IFMT = IFDIR -> 0 <= i_size x <= FILEMAX * BSIZE -> ready s ->
  0 < u_count s ->
  exists s', readi cdev_read resid ip s = Done tt s' /\
    moved addr L (set_i_flag (i_flag x |: IACC) x) (Z.min (u_count s) (Z.max 0 (i_size x - u_offset s)))
      (set_inodes (alter (fun x => set_i_flag (i_flag x |: IACC) x) ip (inodes s)) s) s'.
Proof.
  intros F Hw Hx Ht Hsz R Hc. unfold readi. rewrite kgets_run. destruct (Z.eqb_spec (u_count s) 0); [lia|].
  rewrite kgets_run. destruct (Z.ltb_spec (u_offset s) 0); [destruct R; lia|].
  rewrite (kbind_run _ _ _ _ _ (modip_run ip (fun x => set_i_flag (i_flag x |: IACC) x) s)).
  set (s1 := set_inodes _ s). assert (Hx1 : inodes s1 !! ip = Some (set_i_flag (i_flag x |: IACC) x)).
  { simpl. by rewrite list_lookup_alter_eq, Hx. }
  rewrite (kbind_run _ _ _ _ _ (getip_run _ _ _ Hx1)). cbv zeta. cbn [i_mode set_i_flag].
  replace ((Z.land (i_mode x) IFMT =? IFCHR) || (Z.land (i_mode x) IFMT =? IFMPC)) with false by (by destruct Ht as [-> | ->]).
  pose proof F as [V (x' & Hx' & Hd & Ha) T]. assert (x' = x) as -> by congruence.
  destruct (readi_loop_run (Z.to_nat (u_count s)) (Z.land (i_mode x) IFMT) addr L) with (x := set_i_flag (i_flag x |: IACC) x) (s := s1)
    as (s' & E & M); try done.
  - unfold is_special. by destruct Ht as [-> | ->].
  - split; [done| |done]. by eexists.
  - simpl. lia.
  - by destruct R.
  - simpl. lia.
  - by exists s'.
Qed.

(** C3. [readi] of a regular file or directory into a mapped user area returns with as
    many bytes moved as the request and the size allow: byte [i] of the area is byte
    [u_offset + i] of the file, holes reading as zeros, the rest of the user's memory and
    every block are untouched, and [u_offset], [u_base] and [u_count] account for the
    bytes moved. *)
Theorem readi_correct addr L x s : file_in dev mp ip s addr L -> blocks_whole (disk s) addr -> inodes s !! ip = Some x ->
  Z.land (i_mode x) IFMT = IFREG \/ Z.land (i_mode x) IFMT = IFDIR -> 0 <= i_size x <= FILEMAX * BSIZE -> ready s ->
  0 < u_count s ->
  exists s', readi cdev_read resid ip s = Done tt s' /\
    moved addr L (set_i_flag (i_flag x |: IACC) x) (Z.min (u_count s) (Z.max 0 (i_size x - u_offset s)))
      (set_inodes (alter (fun x => set_i_flag (i_flag x |: IACC) x) ip (inodes s)) s) s'.
Proof. apply readi_run. Qed.
End Read.

(** ** Writing *)

(** The data blocks of a file are whole, different from each other, and neither indirect
    blocks nor free. *)
Record data_ok (g : Z -> list Z) (addr L : list Z) : Prop := {
  d_whole : blocks_whole g addr;
  d_inj : forall bn bn', 0 <= bn < FILEMAX -> 0 <= bn' < FILEMAX -> blk g addr bn <> 0 ->
    blk g addr bn = blk g addr bn' -> bn = bn';
  d_sep : forall bn, 0 <= bn < FILEMAX -> blk g addr bn <> 0 -> (blk g addr bn ∉ meta g addr) /\ (blk g addr bn ∉ L);
}.

Lemma data_ok_ext g g' addr L : tree_ok g addr L -> (forall b, g' b = g b) -> data_ok g addr L -> data_ok g' addr L.
Proof.
  intros T E [Dw Di Ds]. assert (Eb : forall c, 0 <= c < FILEMAX -> blk g' addr c = blk g addr c) by (intros; apply (blk_ext _ _ _ L); auto).
  assert (EM : meta g' addr = meta g addr) by (apply meta_ext; auto). split.
  - intros c Hc. rewrite Eb, E by done. by apply Dw.
  - intros c c' Hc Hc'. rewrite !Eb by done. by apply Di.
  - intros c Hc. rewrite EM, Eb by done. by apply Ds.
Qed.

(** The blocks that are the file's or free. *)
Definition owned (g : Z -> list Z) (addr L : list Z) (b : Z) : Prop :=
  b ∈ meta g addr \/ b ∈ L \/ exists bn, 0 <= bn < FILEMAX /\ blk g addr bn = b.

Lemma fbyte_block g addr k : 0 <= k < FILEMAX * BSIZE ->
  0 <= k / BSIZE < FILEMAX /\ 0 <= k mod BSIZE < BSIZE /\ k = BSIZE * (k / BSIZE) + k mod BSIZE /\
  fbyte g addr k = if blk g addr (k / BSIZE) =? 0 then 0 else getb (g (blk g addr (k / BSIZE))) (k mod BSIZE).
Proof.
  intros Hk. pose proof (div_mod_range k BSIZE ltac:(done)). pose proof (Z.div_mod k BSIZE ltac:(done)).
  unfold BSIZE in *. split_and!; lia || done.
Qed.

Lemma zeros_byte o : 0 <= o < BSIZE -> getb zeros o = 0.
Proof. intros Ho. apply (getb_zeros 512). unfold inside. rewrite length_replicate. unfold BSIZE, NBPW in *. lia. Qed.

Section Write.
Context {S : Type} `{BlockStore S}.
Context (cdev_write : Z -> K S unit).
Context (dev : Z) (mp ip : nat).
Notation disk s := (bs_get (store s) dev).

(** A block for [bn] leaves every byte of the file as it was. *)
Lemma bmap_bytes bn r s addr L s' addr' L' : file_in dev mp ip s addr L -> data_ok (disk s) addr L -> 0 <= bn < FILEMAX ->
  step dev mp ip (Some bn) s addr L s' addr' L' -> blk (disk s') addr' bn = r -> r <> 0 ->
  blk (disk s) addr bn = r \/
    blk (disk s) addr bn = 0 /\ r ∈ L /\ disk s' r = zeros /\ (r ∉ L') /\ r ∉ meta (disk s') addr' ->
  data_ok (disk s') addr' L' /\ 0 < r /\ length (disk s' r) = 512%nat /\
  (forall k, 0 <= k < FILEMAX * BSIZE -> fbyte (disk s') addr' k = fbyte (disk s) addr k) /\
  (forall b, owned (disk s') addr' L' b -> owned (disk s) addr L b).
Proof.
  intros F [Dw Di Ds] Hb St Er Hr0 Ho. pose proof St as [F' [T ET] _ G M B].
  assert (Hother : forall c, 0 <= c < FILEMAX -> c <> bn -> blk (disk s') addr' c = blk (disk s) addr c) by (intros; apply B; congruence).
  assert (Hsep : forall c, 0 <= c < FILEMAX -> blk (disk s) addr c <> 0 ->
    (blk (disk s) addr c ∉ meta (disk s') addr') /\ (blk (disk s) addr c ∉ L') /\
    disk s' (blk (disk s) addr c) = disk s (blk (disk s) addr c)).
  { intros c Hc Hc0. destruct (Ds c Hc Hc0) as [D1 D2]. split_and!.
    - intros [|]%M; done.
    - rewrite ET in D2. set_solver.
    - apply G. by right. }
  assert (Hr : 0 < r /\ length (disk s' r) = 512%nat /\ (r ∉ L') /\ r ∉ meta (disk s') addr').
  { destruct Ho as [Ho|(Ho & Ho1 & Ho2 & Ho3 & Ho4)].
    - destruct (Hsep bn Hb ltac:(congruence)) as (H1 & H2 & H3). destruct (Dw bn Hb) as [W1 W2].
      rewrite Ho in *. rewrite H3. split_and!; try done; [lia|]. by apply W2.
    - pose proof (fi_volume _ _ _ _ _ _ F) as (f & _ & (_ & _ & _ & _ & Hi & Hrg) & _). specialize (Hrg r Ho1).
      rewrite Ho2. split_and!; done || lia. }
  destruct Hr as (Hr1 & Hr2 & Hr3 & Hr4).
  assert (Hnew : forall c, 0 <= c < FILEMAX -> c <> bn -> blk (disk s) addr c <> 0 -> blk (disk s) addr c <> r).
  { intros c Hc Hne Hc0 E. destruct Ho as [Ho|(Ho & Ho1 & _)].
    - apply Hne, Di; try done. congruence.
    - destruct (Ds c Hc Hc0) as [_ HL]. by rewrite E in HL. }
  split_and!; try done.
  - split.
    + intros c Hc. destruct (decide (c = bn)) as [->|Hne]; [rewrite Er; split; [lia|done]|].
      rewrite Hother by done. destruct (Dw c Hc) as [W1 W2]. split; [done|]. intros Hc0.
      destruct (Hsep c Hc Hc0) as (_ & _ & ->). auto.
    + intros c c' Hc Hc' Hc0 E. destruct (decide (c = bn)) as [->|Hne], (decide (c' = bn)) as [->|Hne']; try done.
      * rewrite Er, Hother in E by done. destruct (Hnew c' Hc' Hne'); [congruence|done].
      * rewrite Er, Hother in E by done. rewrite Hother in Hc0 by done. by destruct (Hnew c Hc Hne Hc0).
      * rewrite !Hother in E by done. rewrite Hother in Hc0 by done. by apply Di.
    + intros c Hc Hc0. destruct (decide (c = bn)) as [->|Hne]; [by rewrite Er|].
      rewrite Hother in * by done. by destruct (Hsep c Hc Hc0) as (? & ? & _).
  - intros k Hk. destruct (fbyte_block (disk s') addr' k Hk) as (K1 & K2 & _ & ->).
    destruct (fbyte_block (disk s) addr k Hk) as (_ & _ & _ & ->).
    destruct (decide (k / BSIZE = bn)) as [->|Hne].
    + rewrite Er. destruct (Z.eqb_spec r 0); [done|]. destruct Ho as [Ho|(Ho & _ & Hz & _)].
      * rewrite Ho. destruct (Z.eqb_spec r 0); [done|]. destruct (Hsep bn Hb ltac:(congruence)) as (_ & _ & H3).
        by rewrite Ho in H3; rewrite H3.
      * rewrite Ho, Hz. by apply zeros_byte.
    + rewrite Hother by done. destruct (Z.eqb_spec (blk (disk s) addr (k / BSIZE)) 0); [done|].
      by destruct (Hsep _ K1 ltac:(done)) as (_ & _ & ->).
  - intros b [Hm|[Hl|(c & Hc & E)]].
    + apply M in Hm as [|]; [by left|by right; left].
    + right; left. rewrite ET. set_solver.
    + destruct (decide (c = bn)) as [->|Hne].
      * rewrite Er in E. subst b. destruct Ho as [Ho|(_ & Ho & _)]; [right; right; by exists bn|by right; left].
      * right; right. exists c. by rewrite <- Hother.
Qed.

(** Storing [d] in the block of [bn]. *)
Lemma store_bytes g g' addr L bn d : tree_ok g addr L -> data_ok g addr L -> 0 <= bn < FILEMAX -> blk g addr bn <> 0 ->
  length d = 512%nat -> (forall b, g' b = if b =? blk g addr bn then d else g b) ->
  tree_ok g' addr L /\ data_ok g' addr L /\ (forall b, owned g' addr L b -> owned g addr L b) /\
  forall k, 0 <= k < FILEMAX * BSIZE -> fbyte g' addr k = if k / BSIZE =? bn then getb d (k mod BSIZE) else fbyte g addr k.
Proof.
  intros T [Dw Di Ds] Hb Hr Hd Hg. destruct (Ds bn Hb Hr) as [Hm _].
  assert (Em : forall m, m ∈ meta g addr -> g' m = g m).
  { intros m Hm'. rewrite Hg. destruct (Z.eqb_spec m (blk g addr bn)); [by subst|done]. }
  pose proof (meta_ext _ _ _ Em) as EM.
  assert (Eb : forall c, 0 <= c < FILEMAX -> blk g' addr c = blk g addr c) by (intros; by apply (blk_ext _ _ _ L)).
  split_and!.
  - destruct T as [T1 T2 T3]. split; rewrite ?EM; auto. intros m Hm'. rewrite Em by done. auto.
  - split.
    + intros c Hc. rewrite Eb by done. destruct (Dw c Hc) as [W1 W2]. split; [done|]. intros Hc0. rewrite Hg.
      destruct (Z.eqb_spec (blk g addr c) (blk g addr bn)); auto.
    + intros c c' Hc Hc'. rewrite !Eb by done. by apply Di.
    + intros c Hc. rewrite EM, Eb by done. by apply Ds.
  - intros b. unfold owned. rewrite EM. intros [|[|(c & Hc & E)]]; auto. right; right. exists c. by rewrite <- Eb.
  - intros k Hk. destruct (fbyte_block g' addr k Hk) as (K1 & K2 & _ & ->). destruct (fbyte_block g addr k Hk) as (_ & _ & _ & ->).
    rewrite Eb by done. destruct (Z.eqb_spec (k / BSIZE) bn) as [->|Hne].
    + destruct (Z.eqb_spec (blk g addr bn) 0); [done|]. by rewrite Hg, Z.eqb_refl.
    + destruct (Z.eqb_spec (blk g addr (k / BSIZE)) 0); [done|]. rewrite Hg.
      destruct (Z.eqb_spec (blk g addr (k / BSIZE)) (blk g addr bn)) as [E|]; [|done]. destruct Hne. by apply Di.
Qed.

(** A step that maps nothing leaves every byte, too. *)
Lemma step_bytes s addr L s' addr' L' : data_ok (disk s) addr L -> step dev mp ip None s addr L s' addr' L' ->
  data_ok (disk s') addr' L' /\
  (forall k, 0 <= k < FILEMAX * BSIZE -> fbyte (disk s') addr' k = fbyte (disk s) addr k) /\
  (forall b, owned (disk s') addr' L' b -> owned (disk s) addr L b).
Proof.
  intros [Dw Di Ds] [F' [T ET] _ G M B].
  assert (Hall : forall c, 0 <= c < FILEMAX -> blk (disk s') addr' c = blk (disk s) addr c) by (intros; by apply B).
  assert (Hsep : forall c, 0 <= c < FILEMAX -> blk (disk s) addr c <> 0 -> disk s' (blk (disk s) addr c) = disk s (blk (disk s) addr c)).
  { intros c Hc Hc0. apply G. right. by apply Ds. }
  split_and!.
  - split.
    + intros c Hc. rewrite Hall by done. destruct (Dw c Hc) as [W1 W2]. split; [done|]. intros Hc0. rewrite Hsep by done. auto.
    + intros c c' Hc Hc'. rewrite !Hall by done. by apply Di.
    + intros c Hc. rewrite Hall by done. intros Hc0. destruct (Ds c Hc Hc0) as [D1 D2]. split; [intros [|]%M; done|].
      rewrite ET in D2. set_solver.
  - intros k Hk. destruct (fbyte_block (disk s') addr' k Hk) as (K1 & K2 & _ & ->).
    destruct (fbyte_block (disk s) addr k Hk) as (_ & _ & _ & ->). rewrite Hall by done.
    destruct (Z.eqb_spec (blk (disk s) addr (k / BSIZE)) 0); [done|]. by rewrite Hsep.
  - intros b [Hm|[Hl|(c & Hc & E)]].
    + apply M in Hm as [|]; [by left|by right; left].
    + right; left. rewrite ET. set_solver.
    + right; right. exists c. by rewrite <- Hall.
Qed.

(** [n] bytes went from the user into the file. *)
Record wrote (x : inode) (n : Z) (s : kern S) (addr L : list Z) (s' : kern S) (addr' L' : list Z) : Prop := {
  wr_count : u_count s' = u_count s - n;
  wr_offset : u_offset s' = u_offset s + n;
  wr_base : u_base s' = u_base s + n;
  wr_seg : u_segflg s' = u_segflg s;
  wr_map : umap s' = umap s;
  wr_mem : umem s' = umem s;
  wr_file : file_in dev mp ip s' addr' L';
  wr_data : data_ok (disk s') addr' L';
  wr_bytes : forall k, 0 <= k < FILEMAX * BSIZE -> fbyte (disk s') addr' k =
    if (u_offset s <=? k) && (k <? u_offset s + n) then Z.land (umem s (u_base s + (k - u_offset s))) 255
    else fbyte (disk s) addr k;
  wr_inode : exists fl, inodes s' = <[ip := set_i_size (if n =? 0 then i_size x else Z.max (i_size x) (u_offset s + n))
    (set_i_flag (i_flag x |: fl) (set_i_addr addr' x))]> (inodes s);
  wr_free : exists T, L = T ++ L';
  wr_owned : forall b, owned (disk s') addr' L' b -> owned (disk s) addr L b;
  wr_store : forall d b, d <> dev \/ ~ owned (disk s) addr L b -> bs_get (store s') d b = bs_get (store s) d b;
  wr_rest : rest s' = rest s;
}.

Lemma wrote_trans x n1 n2 s1 a1 L1 s2 a2 L2 s3 a3 L3 : 0 < n1 -> 0 <= n2 -> 0 <= u_offset s1 ->
  u_offset s1 + n1 + n2 <= FILEMAX * BSIZE ->
  wrote x n1 s1 a1 L1 s2 a2 L2 -> (forall y, inodes s2 !! ip = Some y -> wrote y n2 s2 a2 L2 s3 a3 L3) ->
  inodes s1 !! ip = Some x -> wrote x (n1 + n2) s1 a1 L1 s3 a3 L3.
Proof.
  intros H1 H2 H0 Hm [C1 O1 B1 S1 M1 U1 F1 D1 By1 [f1 I1] [T1 E1] W1 G1 X1] HW Hx.
  assert (Hy : inodes s2 !! ip = Some (set_i_size (Z.max (i_size x) (u_offset s1 + n1)) (set_i_flag (i_flag x |: f1) (set_i_addr a2 x)))).
  { rewrite I1, list_lookup_insert_eq by (by eapply lookup_lt_Some). by destruct (Z.eqb_spec n1 0); [lia|]. }
  destruct (HW _ Hy) as [C2 O2 B2 S2 M2 U2 F2 D2 By2 [f2 I2] [T2 E2] W2 G2 X2].
  split; try congruence; try lia; try done.
  - intros k Hk. rewrite By2, By1, O1, B1, U1 by done.
    destruct (Z.leb_spec (u_offset s1) k), (Z.ltb_spec k (u_offset s1 + n1)), (Z.leb_spec (u_offset s1 + n1) k),
      (Z.ltb_spec k (u_offset s1 + n1 + n2)), (Z.ltb_spec k (u_offset s1 + (n1 + n2))); cbn [andb]; try lia; try done.
    by replace (u_base s1 + n1 + (k - (u_offset s1 + n1))) with (u_base s1 + (k - u_offset s1)) by lia.
  - exists (f1 |: f2). rewrite I2, I1, list_insert_insert_eq. destruct (Z.eqb_spec (n1 + n2) 0); [lia|]. f_equal.
    unfold set_i_size, set_i_flag, set_i_addr. cbn. f_equal; [by rewrite Z.lor_assoc|].
    destruct (Z.eqb_spec n2 0); lia.
  - exists (T1 ++ T2). by rewrite E1, E2, app_assoc.
  - intros b Hb. auto.
  - intros d b Hb. rewrite G2, G1; [done|done|]. destruct Hb as [|Hb]; [by left|right]. auto.
Qed.

(** The buffer a turn writes into: read first when only a part of it changes. *)
Lemma write_block L s r n : volume dev mp L s -> length (disk s r) = 512%nat ->
  exists d s', (if n =? BSIZE then getblk dev r else bread dev r) s = Done (Buf dev r d false) s' /\
    length d = 512%nat /\ (n <> BSIZE -> d = disk s r) /\ unchanged dev mp L s s' /\ user s' = user s.
Proof.
  intros V Hl. destruct (Z.eqb_spec n BSIZE).
  - eexists _, (set_store (bs_getblk dev r (store s)).2 s). unfold getblk. rewrite (surjective_pairing (bs_getblk dev r (store s))).
    split; [reflexivity|]. split; [apply bs_getblk_len|]. split; [done|]. split; [|done].
    split; try done; [|intros; apply bs_getblk_pure].
    eapply volume_ext; [exact V|done|intros; apply bs_getblk_pure|intros; apply bs_getblk_fails].
  - destruct (volume_read dev mp L s r V) as (s1 & I1 & E1 & R1 & V1 & M1 & G1). eexists _, s1.
    split; [exact R1|]. split_and!; try done. by eapply keeps_done; [apply keeps_bread|].
Qed.

Lemma iomove_from_user d o n (s : kern S) : 0 < n -> u_segflg s <> 1 -> user_mapped s (u_base s) n = true ->
  iomove d o n true s = Done (putbs d o (user_bytes s (u_base s) n)) (advance_by n s).
Proof.
  intros Hn Hs Hm. unfold iomove. destruct (Z.eqb_spec n 0); [lia|]. rewrite kgets_run.
  destruct (Z.eqb_spec (u_segflg s) 1); [done|]. cbn [negb]. rewrite !kgets_run, Hm. done.
Qed.

Lemma user_bytes_at (s : kern S) a n k : 0 <= k < n -> user_bytes s a n !!! Z.to_nat k = umem s (a + k).
Proof.
  intros Hk. unfold user_bytes. apply list_lookup_total_correct. rewrite list_lookup_fmap, lookup_seqZ_lt by lia. simpl. f_equal. f_equal. lia.
Qed.

Lemma writei_loop_unfold fuel type : writei_loop fuel ip type =
  (off ← gets u_offset;
   cnt ← gets u_count;
   w ← writei_where (S := S) ip type (Z.quot off BSIZE);
   match w with
   | None => mret tt
   | Some (dev, bn) =>
       bp ← (if Z.min (BSIZE - Z.rem off BSIZE) cnt =? BSIZE then getblk dev bn else bread dev bn);
       d ← iomove (b_data bp) (Z.rem off BSIZE) (Z.min (BSIZE - Z.rem off BSIZE) cnt) true;
       e ← gets u_error;
       (if negb (e =? 0) then bdrop (Buf (b_dev bp) (b_blkno bp) d (b_err bp))
        else bdwrite (Buf (b_dev bp) (b_blkno bp) d (b_err bp)));;
       x ← getip ip;
       off ← gets u_offset;
       (if (i_size x <? off) && ((type =? IFDIR) || (type =? IFREG)) then modip ip (set_i_size off) else mret tt);;
       modip ip (fun x => set_i_flag (i_flag x |: (IUPD |: ICHG)) x);;
       e ← gets u_error;
       cnt ← gets u_count;
       if (e =? 0) && negb (cnt =? 0)
       then match fuel with O => nofuel | Datatypes.S fuel => writei_loop fuel ip type end
       else mret tt
   end).
Proof. by destruct fuel. Qed.

(** The bytes of block [bn] after [n] user bytes went in at [on]. *)
Lemma putbs_bytes d on n (s : kern S) o : length d = 512%nat -> 0 <= on -> 0 < n -> on + n <= BSIZE -> 0 <= o < BSIZE ->
  getb (putbs d on (user_bytes s (u_base s) n)) o =
    if (on <=? o) && (o <? on + n) then Z.land (umem s (u_base s + (o - on))) 255 else getb d o.
Proof.
  intros Hl Ho Hn Hm Hi. assert (El : Z.of_nat (length (user_bytes s (u_base s) n)) = n).
  { unfold user_bytes. rewrite length_fmap, length_seqZ. lia. }
  rewrite getb_putbs; rewrite ?El, ?Hl; unfold inside, BSIZE, NBPW in *; try (rewrite ?Hl; lia).
  destruct (Z.leb_spec on o), (Z.ltb_spec o (on + n)); cbn [andb]; try done. by rewrite user_bytes_at by lia.
Qed.

(** The state after one turn of [writei]. *)
Definition put_turn (r : Z) (d : list Z) (on n : Z) (x : inode) (s : kern S) : kern S :=
  set_inodes (<[ip := set_i_flag (i_flag x |: (IUPD |: ICHG)) (set_i_size (Z.max (i_size x) (u_offset s + n)) x)]> (inodes s))
    (set_store (bs_write Delayed dev r (putbs d on (user_bytes s (u_base s) n)) (store s)) (advance_by n s)).

Lemma writei_tail {A} (k : K S A) (fin : A) type x s r d on n : type = IFREG \/ type = IFDIR -> inodes s !! ip = Some x ->
  ready s -> 0 < n <= u_count s ->
  (d ← iomove d on n true;
   e ← gets u_error;
   (if negb (e =? 0) then bdrop (Buf dev r d false) else bdwrite (Buf dev r d false));;
   x ← getip ip;
   off ← gets u_offset;
   (if (i_size x <? off) && ((type =? IFDIR) || (type =? IFREG)) then modip ip (set_i_size off) else mret tt);;
   modip ip (fun x => set_i_flag (i_flag x |: (IUPD |: ICHG)) x);;
   e ← gets u_error;
   cnt ← gets u_count;
   if (e =? 0) && negb (cnt =? 0) then k else mret fin) s =
  if u_count s - n =? 0 then Done fin (put_turn r d on n x s) else k (put_turn r d on n x s).
Proof.
  intros Ht Hx [Re Rs Ro Rm] Hn.
  assert (Hm : user_mapped s (u_base s) n = true) by (by eapply mapped_sub; [exact Rm|lia|lia]).
  rewrite (kbind_run _ _ _ _ _ (iomove_from_user d on n s ltac:(lia) Rs Hm)), kgets_run. simpl u_error. rewrite Re. cbn [negb Z.eqb].
  set (d' := putbs _ _ _).
  rewrite (kbind_run _ _ tt _ (set_store (bs_write Delayed dev r d' (store s)) (advance_by n s))) by done.
  set (s2 := set_store _ _). assert (Hx2 : inodes s2 !! ip = Some x) by done.
  rewrite (kbind_run _ _ _ _ _ (getip_run _ _ _ Hx2)), kgets_run.
  assert (Hsz : (if (i_size x <? u_offset s2) && ((type =? IFDIR) || (type =? IFREG)) then modip ip (set_i_size (u_offset s2)) else mret tt) s2 =
    Done tt (set_inodes (alter (set_i_size (Z.max (i_size x) (u_offset s + n))) ip (inodes s2)) s2)).
  { replace ((type =? IFDIR) || (type =? IFREG)) with true by (by destruct Ht as [-> | ->]). rewrite andb_true_r.
    destruct (Z.ltb_spec (i_size x) (u_offset s2)) as [Hlt|Hge]; simpl in *.
    - rewrite modip_run. by rewrite Z.max_r by lia.
    - rewrite Z.max_l by lia. assert (alter (set_i_size (i_size x)) ip (inodes s) = inodes s) as ->; [|done].
      apply list_eq. intros j. destruct (decide (j = ip)) as [->|]; [|by rewrite list_lookup_alter_ne].
      rewrite list_lookup_alter_eq, Hx. by destruct x. }
  rewrite (kbind_run _ _ _ _ _ Hsz), (kbind_run _ _ _ _ _ (modip_run _ _ _)), !kgets_run.
  match goal with |- context [u_error ?t] => change (u_error t) with (u_error s) end.
  match goal with |- context [u_count ?t =? 0] => change (u_count t) with (u_count s - n) end.
  rewrite Re. cbn [Z.eqb andb].
  match goal with |- (if _ then k else mret fin) ?t = _ => assert (t = put_turn r d on n x s) as -> end.
  { unfold put_turn, s2. simpl. unfold set_inodes, set_store. simpl. f_equal. rewrite list_alter_alter_eq. apply list_eq. intros j.
    destruct (decide (j = ip)) as [->|]; [|by rewrite list_lookup_alter_ne, list_lookup_insert_ne].
    rewrite list_lookup_alter_eq, Hx, list_lookup_insert_eq by (by eapply lookup_lt_Some). done. }
  destruct (u_count s - n =? 0); reflexivity.
Qed.

(** Putting user bytes into the mapped block of [bn] writes them into the file. *)
Lemma put_turn_wrote s addr L x s1 a1 L1 bn r s2 d n : 0 <= u_offset s -> 0 < n -> u_offset s mod BSIZE + n <= BSIZE ->
  u_offset s + n <= FILEMAX * BSIZE -> bn = u_offset s / BSIZE ->
  inodes s !! ip = Some x -> (exists fl, inodes s1 = alter (fun x => set_i_flag (i_flag x |: fl) (set_i_addr a1 x)) ip (inodes s)) ->
  user s1 = user s -> file_in dev mp ip s1 a1 L1 -> data_ok (disk s1) a1 L1 -> (exists T, L = T ++ L1) ->
  blk (disk s1) a1 bn = r -> r <> 0 ->
  (forall k, 0 <= k < FILEMAX * BSIZE -> fbyte (disk s1) a1 k = fbyte (disk s) addr k) ->
  (forall b, owned (disk s1) a1 L1 b -> owned (disk s) addr L b) ->
  (forall d b, d <> dev \/ ~ owned (disk s) addr L b -> bs_get (store s1) d b = bs_get (store s) d b) ->
  length d = 512%nat -> (n <> BSIZE -> d = disk s1 r) -> unchanged dev mp L1 s1 s2 -> user s2 = user s1 ->
  forall x2, inodes s2 !! ip = Some x2 ->
  wrote x n s addr L (put_turn r d (u_offset s mod BSIZE) n x2 s2) a1 L1.
Proof.
  intros Ho Hn Hon Hmax -> Hx [fl I1] K1 F1 D1 Hfree Er Hr0 By Ow St Hl Hd U2 K2 x2 Hx2.
  destruct (user_fields s s2 ltac:(congruence)) as (Ub & Uc & Uo & Us & Um & Up & _).
  assert (Hx1 : x2 = set_i_flag (i_flag x |: fl) (set_i_addr a1 x)).
  { rewrite (un_inodes _ _ _ _ _ U2), I1, list_lookup_alter_eq, Hx in Hx2. by injection Hx2. }
  set (on := u_offset s mod BSIZE) in *. set (lbn := u_offset s / BSIZE) in *.
  pose proof (Z.div_mod (u_offset s) BSIZE ltac:(done)) as Hdm. fold on lbn in Hdm.
  pose proof (Z.mod_pos_bound (u_offset s) BSIZE ltac:(done)) as Hon'. fold on in Hon'.
  assert (Hlbn : 0 <= lbn < FILEMAX) by (unfold BSIZE in *; lia).
  set (s3 := put_turn r d on n x2 s2). set (d' := putbs d on (user_bytes s2 (u_base s2) n)).
  assert (Hg : forall b, disk s3 b = if b =? blk (disk s1) a1 lbn then d' else disk s1 b).
  { intros b. simpl. rewrite bs_write_get, Z.eqb_refl, Er. cbn [andb]. by destruct (b =? r); [|apply U2]. }
  destruct (store_bytes (disk s1) (disk s3) a1 L1 lbn d' ltac:(apply F1) D1 Hlbn ltac:(congruence)
    ltac:(unfold d'; by rewrite putbs_len) Hg) as (T3 & D3 & O3 & B3).
  split; try (simpl; congruence).
  - pose proof F1 as [V1 (y & Hy & Hyd & Hya) _]. split; [|exists (set_i_flag (i_flag x2 |: (IUPD |: ICHG)) (set_i_size (Z.max (i_size x2) (u_offset s2 + n)) x2))|done].
    + eapply volume_ext; [apply (un_volume _ _ _ _ _ U2)|done| |intros; apply bs_write_fails].
      intros b Hb. simpl. rewrite bs_write_get. destruct (Z.eqb_spec b r); [|by rewrite andb_false_r].
      subst b. destruct (d_sep _ _ _ D1 lbn Hlbn ltac:(congruence)) as [_ Hs]. by rewrite Er in Hs.
    + simpl. rewrite list_lookup_insert_eq by (by eapply lookup_lt_Some). split; [done|].
      rewrite (un_inodes _ _ _ _ _ U2) in Hx2. assert (y = x2) as -> by congruence. done.
  - done.
  - intros k Hk. rewrite B3 by done. pose proof (Z.div_mod k BSIZE ltac:(done)) as Hk2.
    pose proof (Z.mod_pos_bound k BSIZE ltac:(done)) as Hk3.
    destruct (Z.eqb_spec (k / BSIZE) lbn) as [E|E].
    + rewrite E in Hk2. unfold d'. rewrite putbs_bytes by (done || lia). rewrite Ub, Um.
      destruct (Z.leb_spec on (k mod BSIZE)), (Z.ltb_spec (k mod BSIZE) (on + n)), (Z.leb_spec (u_offset s) k), (Z.ltb_spec k (u_offset s + n));
        cbn [andb]; try lia.
      * by replace (u_base s + (k mod BSIZE - on)) with (u_base s + (k - u_offset s)) by lia.
      * rewrite <- By by done. destruct (fbyte_block (disk s1) a1 k Hk) as (_ & _ & _ & ->). rewrite E, Er.
        destruct (Z.eqb_spec r 0); [done|]. rewrite Hd by (unfold BSIZE in *; lia). done.
      * rewrite <- By by done. destruct (fbyte_block (disk s1) a1 k Hk) as (_ & _ & _ & ->). rewrite E, Er.
        destruct (Z.eqb_spec r 0); [done|]. rewrite Hd by (unfold BSIZE in *; lia). done.
    + rewrite By by done. destruct (Z.leb_spec (u_offset s) k), (Z.ltb_spec k (u_offset s + n)); cbn [andb]; try done.
      destruct E. unfold BSIZE in *. lia.
  - exists (fl |: (IUPD |: ICHG)). destruct (Z.eqb_spec n 0); [lia|]. simpl. rewrite (un_inodes _ _ _ _ _ U2), I1.
    apply list_eq. intros j. destruct (decide (j = ip)) as [->|Hj].
    + rewrite !list_lookup_insert_eq by (rewrite ?length_alter; by eapply lookup_lt_Some). f_equal. rewrite Hx1, Uo.
      unfold set_i_size, set_i_flag, set_i_addr. cbn. f_equal. by rewrite <- Z.lor_assoc.
    + by rewrite !list_lookup_insert_ne, list_lookup_alter_ne.
  - auto.
  - intros d0 b Hb. simpl. rewrite bs_write_get, (un_store _ _ _ _ _ U2), St by done.
    destruct (Z.eqb_spec d0 dev), (Z.eqb_spec b r); cbn [andb]; try done. destruct Hb as [|Hb]; [done|]. destruct Hb. subst. apply Ow.
    right; right. by exists lbn.
  - apply (user_rest s s2). congruence.
Qed.

Lemma writei_turn fuel type addr L x s : file_in dev mp ip s addr L -> data_ok (disk s) addr L -> inodes s !! ip = Some x ->
  type = IFREG \/ type = IFDIR -> ready s -> 0 < u_count s -> u_offset s + u_count s <= FILEMAX * BSIZE ->
  let n := Z.min (BSIZE - u_offset s mod BSIZE) (u_count s) in
  exists s' addr' L',
    (wrote x n s addr L s' addr' L' /\ u_error s' = 0 /\ writei_loop fuel ip type s =
       if u_count s - n =? 0 then Done tt s'
       else match fuel with O => KNoFuel | Datatypes.S fuel => writei_loop fuel ip type s' end) \/
    (wrote x 0 s addr L s' addr' L' /\ u_error s' = ENOSPC /\ L' = [] /\ writei_loop fuel ip type s = Done tt s').
Proof.
  intros F D Hx Ht R Hc Hmax n. pose proof R as [Re Rs Ro Rm].
  pose proof (div_mod_range (u_offset s) BSIZE ltac:(done)) as [Hq Hr].
  pose proof (Z.div_mod (u_offset s) BSIZE ltac:(done)) as Hdm.
  set (lbn := u_offset s / BSIZE) in *. set (on := u_offset s mod BSIZE) in *.
  assert (Hlbn : 0 <= lbn < FILEMAX) by (unfold BSIZE in *; lia).
  assert (Hn : 0 < n <= u_count s /\ n <= BSIZE - on) by (unfold n; lia).
  rewrite writei_loop_unfold, !kgets_run. rewrite (Z.quot_div_nonneg (u_offset s)), (Z.rem_mod_nonneg (u_offset s)) by (done || lia).
  fold lbn on n. destruct (bmap_write_run dev mp ip s addr L lbn F Hlbn) as (r & s1 & a1 & L1 & E1 & W1).
  pose proof (keeps_done _ _ _ _ (keeps_bmap ip lbn false) E1) as K1.
  assert (Hwh : writei_where ip type lbn s = Done (if r <? 0 then None else Some (dev, r)) s1).
  { unfold writei_where. rewrite (kbind_run _ _ _ _ _ (getip_run _ _ _ Hx)).
    replace (is_special type) with false by (by destruct Ht as [-> | ->]). rewrite (kbind_run _ _ _ _ _ E1).
    pose proof F as [_ (x' & Hx' & Hd & _) _]. assert (x' = x) as -> by congruence. rewrite Hd. by destruct (r <? 0). }
  rewrite (kbind_run _ _ _ _ _ Hwh). cbv beta iota.
  destruct W1 as [(St & Er & Hr0 & Ee & Ho)|(-> & St & Hb0 & -> & Ee)].
  - destruct (bmap_bytes lbn r s addr L s1 a1 L1 F D Hlbn St Er Hr0 Ho) as (D1 & Hr1 & Hl1 & By & Ow).
    destruct (Z.ltb_spec r 0); [lia|]. pose proof St as [F1 Hfree I1 G1 _ _].
    destruct (write_block L1 s1 r n ltac:(apply F1) Hl1) as (d & s2 & E2 & Hl & Hd & U2 & K2).
    rewrite (kbind_run _ _ _ _ _ E2). destruct (user_fields s s2 ltac:(congruence)) as (Ub & Uc & Uo & Us & Um & Up & _).
    assert (exists x2, inodes s2 !! ip = Some x2) as [x2 Hx2].
    { destruct I1 as [fl I1]. rewrite (un_inodes _ _ _ _ _ U2), I1, list_lookup_alter_eq, Hx. by eexists. }
    assert (R2 : ready s2).
    { split; [rewrite (un_error _ _ _ _ _ U2); congruence|congruence|lia|]. unfold user_mapped in *. by rewrite Up, Ub, Uc. }
    exists (put_turn r d on n x2 s2), a1, L1. left. split_and!.
    + eapply put_turn_wrote; try done; try lia.
      intros d0 b Hb. apply G1. destruct Hb as [|Hb]; [by left|right]. split; intros ?; apply Hb; [by left|by right; left].
    + simpl. rewrite (un_error _ _ _ _ _ U2). congruence.
    + cbn [b_data b_dev b_blkno b_err]. rewrite (writei_tail _ tt type x2 s2 r d on n Ht Hx2 R2 ltac:(lia)), Uc. by destruct fuel.
  - destruct (step_bytes s addr L s1 a1 [] D St) as (D1 & By & Ow). pose proof St as [F1 Hfree [fl I1] G1 _ _].
    destruct (user_fields s s1 K1) as (Ub & Uc & Uo & Us & Um & Up & _).
    exists s1, a1, []. right. split_and!; try done. split; try congruence; try done; try lia.
    + intros k Hk. rewrite By by done. by destruct (Z.leb_spec (u_offset s) k), (Z.ltb_spec k (u_offset s + 0)); cbn [andb]; try lia.
    + exists fl. simpl. rewrite I1. apply list_eq. intros j. destruct (decide (j = ip)) as [->|].
      * rewrite list_lookup_alter_eq, Hx, list_lookup_insert_eq by (by eapply lookup_lt_Some). by destruct x.
      * by rewrite list_lookup_alter_ne, list_lookup_insert_ne.
    + intros d0 b Hb. apply G1. destruct Hb as [|Hb]; [by left|right]. split; intros ?; apply Hb; [by left|by right; left].
    + by apply user_rest.
Qed.

Lemma wrote_ready x n s addr L s' addr' L' : 0 <= n -> ready s -> wrote x n s addr L s' addr' L' -> u_error s' = 0 -> ready s'.
Proof.
  intros Hn [R1 R2 R3 R4] [C O B Sg M Me _ _ _ _ _ _ _ _] E. split; [done|congruence|lia|].
  unfold user_mapped in *. rewrite M, B, C. eapply (mapped_sub s); [exact R4|lia|lia].
Qed.

(** How a write ends: with everything written, or with the volume full. *)
Definition write_ends (x : inode) (s : kern S) (addr L : list Z) (s' : kern S) (addr' L' : list Z) : Prop :=
  exists m, 0 <= m <= u_count s /\ wrote x m s addr L s' addr' L' /\
    (m = u_count s /\ u_error s' = 0 \/ m < u_count s /\ u_error s' = ENOSPC /\ L' = []).

Lemma writei_loop_run fuel type : type = IFREG \/ type = IFDIR -> forall addr L x s, file_in dev mp ip s addr L ->
  data_ok (disk s) addr L -> inodes s !! ip = Some x -> ready s -> 0 < u_count s <= Z.of_nat fuel ->
  u_offset s + u_count s <= FILEMAX * BSIZE ->
  exists s' addr' L', writei_loop fuel ip type s = Done tt s' /\ write_ends x s addr L s' addr' L'.
Proof.
  intros Ht. induction fuel as [|fuel IH]; intros addr L x s F D Hx R Hc Hmax; [lia|].
  pose proof (Z.mod_pos_bound (u_offset s) BSIZE ltac:(done)) as Hon.
  destruct (writei_turn (Datatypes.S fuel) type addr L x s F D Hx Ht R ltac:(lia) Hmax) as (s1 & a1 & L1 & [(W & Ee & E)|(W & Ee & -> & E)]).
  - set (n := Z.min _ _) in *. assert (Hn : 0 < n <= u_count s) by (unfold n; lia). rewrite E.
    destruct (Z.eqb_spec (u_count s - n) 0) as [E0|E0].
    + exists s1, a1, L1. split; [done|]. exists n. split; [lia|]. split; [done|]. left. split; [lia|done].
    + pose proof (wr_count _ _ _ _ _ _ _ _ W) as C1. pose proof (wr_offset _ _ _ _ _ _ _ _ W) as O1.
      pose proof (wr_inode _ _ _ _ _ _ _ _ W) as [fl I1]. pose proof (lookup_lt_Some _ _ _ Hx) as Hlt.
      destruct (inodes s1 !! ip) as [x1|] eqn:Hx1; [|rewrite I1, list_lookup_insert_eq in Hx1 by exact Hlt; done].
      assert (R1 : ready s1) by (eapply wrote_ready; [|exact R|exact W|exact Ee]; lia).
      destruct (IH a1 L1 x1 s1 (wr_file _ _ _ _ _ _ _ _ W) (wr_data _ _ _ _ _ _ _ _ W) Hx1 R1 ltac:(lia) ltac:(lia)) as (s2 & a2 & L2 & E2 & m & Hm & W2 & Hend).
      exists s2, a2, L2. split; [done|]. exists (n + m). split; [lia|]. split.
      * eapply wrote_trans; [lia|lia|apply R|lia|exact W| |exact Hx]. intros y Hy. assert (y = x1) as -> by congruence. exact W2.
      * destruct Hend as [[Hm1 He]|(Hm1 & He & Hl)]; [left|right]; (split; [lia|done]).
  - exists s1, a1, []. split; [done|]. exists 0. split; [lia|]. split; [done|]. right. split; [lia|done].
Qed.

Lemma writei_run addr L x s : file_in dev mp ip s addr L -> data_ok (disk s) addr L -> inodes s !! ip = Some x ->
  Z.land (i_mode x) IFMT = IFREG \/ Z.land (i_mode x) IFMT = IFDIR -> ready s -> 0 < u_count s ->
  u_offset s + u_count s <= FILEMAX * BSIZE ->
  exists s' addr' L', writei cdev_write ip s = Done tt s' /\ write_ends x s addr L s' addr' L'.
Proof.
  intros F D Hx Ht R Hc Hmax. unfold writei. rewrite kgets_run. destruct (Z.ltb_spec (u_offset s) 0); [destruct R; lia|].
  rewrite (kbind_run _ _ _ _ _ (getip_run _ _ _ Hx)). cbv zeta.
  replace ((Z.land (i_mode x) IFMT =? IFCHR) || (Z.land (i_mode x) IFMT =? IFMPC)) with false by (by destruct Ht as [-> | ->]).
  rewrite kgets_run. destruct (Z.eqb_spec (u_count s) 0); [lia|]. apply writei_loop_run; try done. lia.
Qed.

(** C2. [writei] to a regular file or directory, from a mapped user area and within the
    largest file, returns; it has written the first [m] bytes of the area at [u_offset] on,
    every other byte of the file is as it was, holes included, the size has grown to the end
    of what was written, and no block that was not the file's or free has changed.  Either
    all was written, or the free list ran out, the error is [ENOSPC], and [u_count] is what
    is left. *)
Theorem writei_correct addr L x s : file_in dev mp ip s addr L -> data_ok (disk s) addr L -> inodes s !! ip = Some x ->
  Z.land (i_mode x) IFMT = IFREG \/ Z.land (i_mode x) IFMT = IFDIR -> ready s -> 0 < u_count s ->
  u_offset s + u_count s <= FILEMAX * BSIZE ->
  exists s' addr' L', writei cdev_write ip s = Done tt s' /\ write_ends x s addr L s' addr' L'.
Proof. apply writei_run. Qed.

(** C34. Beyond the largest file [bmap] has set [EFBIG] and returned block 0, not -1, so
    [writei] goes on: it copies the user's bytes into the buffer of block 0 of the volume,
    the superblock, and lets the buffer go, not written but changed, and it sets the size
    of the file to the end of the bytes it did not write, more than any file can have. *)
Theorem writei_efbig L x s : volume dev mp L s -> length (disk s 0) = 512%nat -> inodes s !! ip = Some x -> i_dev x = dev ->
  Z.land (i_mode x) IFMT = IFREG -> ready s -> 0 < u_count s -> FILEMAX * BSIZE <= u_offset s -> i_size x <= FILEMAX * BSIZE ->
  let n := Z.min (BSIZE - u_offset s mod BSIZE) (u_count s) in
  exists d s0 s' x', writei cdev_write ip s = Done tt s' /\ u_error s' = EFBIG /\ length d = 512%nat /\
    store s' = bs_drop dev 0 (putbs d (u_offset s mod BSIZE) (user_bytes s (u_base s) n)) s0 /\
    inodes s' !! ip = Some x' /\ i_addr x' = i_addr x /\ i_size x' = u_offset s + n /\ FILEMAX * BSIZE < i_size x'.
Proof.
  intros V Hl Hx Hd Ht [Re Rs Ro Rm] Hc Hoff Hsz n. pose proof (Z.mod_pos_bound (u_offset s) BSIZE ltac:(done)) as Hon.
  assert (Hn : 0 < n <= u_count s) by (unfold n; lia). assert (Hq : FILEMAX <= u_offset s / BSIZE) by (apply Z.div_le_lower_bound; [done|unfold BSIZE in *; lia]).
  set (s1 := set_u_error EFBIG (set_rablock 0 s)).
  assert (V1 : volume dev mp L s1) by (by eapply volume_ext; [exact V|..]).
  destruct (write_block L s1 0 n V1 Hl) as (d & s2 & E2 & Hd2 & _ & U2 & K2).
  destruct (user_fields s s2 ltac:(by rewrite K2)) as (Ub & Uc & Uo & Us & Um & Up & _).
  assert (Hx2 : inodes s2 !! ip = Some x) by (by rewrite (un_inodes _ _ _ _ _ U2)).
  assert (Hm : user_mapped s2 (u_base s2) n = true).
  { unfold user_mapped. rewrite Up, Ub. eapply (mapped_sub s); [exact Rm|lia|lia]. }
  unfold writei. rewrite kgets_run. destruct (Z.ltb_spec (u_offset s) 0); [lia|].
  rewrite (kbind_run _ _ _ _ _ (getip_run _ _ _ Hx)). cbv zeta. rewrite Ht. change ((IFREG =? IFCHR) || (IFREG =? IFMPC)) with false.
  cbv iota. rewrite kgets_run. destruct (Z.eqb_spec (u_count s) 0); [lia|].
  rewrite writei_loop_unfold, !kgets_run, (Z.quot_div_nonneg (u_offset s)), (Z.rem_mod_nonneg (u_offset s)) by (done || lia). fold n.
  assert (Hwh : writei_where ip IFREG (u_offset s / BSIZE) s = Done (Some (dev, 0)) s1).
  { unfold writei_where. rewrite (kbind_run _ _ _ _ _ (getip_run _ _ _ Hx)). change (is_special IFREG) with false. cbv iota.
    rewrite (kbind_run _ _ _ _ _ (bmap_far ip _ false s x Hx Hq)). by rewrite Hd. }
  rewrite (kbind_run _ _ _ _ _ Hwh). cbv beta iota. rewrite (kbind_run _ _ _ _ _ E2). cbn [b_data b_dev b_blkno b_err].
  rewrite (kbind_run _ _ _ _ _ (iomove_from_user d _ n s2 ltac:(lia) ltac:(congruence) Hm)), kgets_run.
  change (u_error (advance_by n s2)) with (u_error s2). rewrite (un_error _ _ _ _ _ U2). change (negb (u_error s1 =? 0)) with true. cbv iota.
  set (d' := putbs _ _ _). set (s3 := set_store (bs_drop dev 0 d' (store s2)) (advance_by n s2)). rewrite (kbind_run _ _ tt _ s3) by done.
  assert (Hx3 : inodes s3 !! ip = Some x) by done.
  rewrite (kbind_run _ _ _ _ _ (getip_run _ _ _ Hx3)), kgets_run. change (u_offset s3) with (u_offset s2 + n). rewrite Uo.
  destruct (Z.ltb_spec (i_size x) (u_offset s + n)); [|lia]. change ((IFREG =? IFDIR) || (IFREG =? IFREG)) with true. cbn [andb].
  rewrite !(kbind_run _ _ _ _ _ (modip_run _ _ _)), !kgets_run.
  match goal with |- context [u_error ?t] => change (u_error t) with (u_error s2) end. rewrite (un_error _ _ _ _ _ U2).
  change (u_error s1 =? 0) with false. cbn [andb].
  eexists d, _, _, _. split; [reflexivity|]. split; [simpl; by rewrite (un_error _ _ _ _ _ U2)|]. split; [done|].
  split; [|split; [simpl; rewrite !list_lookup_alter_eq, Hx2; reflexivity|simpl; split_and!; try done; lia]].
  simpl. unfold d', user_bytes. rewrite Um, Ub. reflexivity.
Qed.

End Write.

(** ** What was written is what is read *)

Section Roundtrip.
Context {S : Type} `{BlockStore S}.
Context (cdev_read cdev_write : Z -> K S unit) (resid : Z -> Z -> Z).
Context (dev : Z) (mp ip : nat).

(** The transfer variables as the next system call sets them. *)
Definition request (base off n : Z) (s : kern S) : kern S :=
  set_u_base base (set_u_offset off (set_u_count n s)).

(** C4. A write followed by a read of the same bytes of the file gives them back: when
    [writei] has left no error, a [readi] of as much at the same offset, into any mapped area
    of the user, returns and moves all of it, and every byte read is the low byte of the
    one written. *)
Theorem write_read_roundtrip addr L x s to : file_in dev mp ip s addr L -> data_ok (bs_get (store s) dev) addr L ->
  inodes s !! ip = Some x -> Z.land (i_mode x) IFMT = IFREG \/ Z.land (i_mode x) IFMT = IFDIR ->
  0 <= i_size x <= FILEMAX * BSIZE -> ready s -> 0 < u_count s -> u_offset s + u_count s <= FILEMAX * BSIZE ->
  user_mapped s to (u_count s) = true ->
  exists s', writei cdev_write ip s = Done tt s' /\
    (u_error s' = 0 -> exists s'', readi cdev_read resid ip (request to (u_offset s) (u_count s) s') = Done tt s'' /\
       u_count s'' = 0 /\ u_error s'' = 0 /\
       forall i, 0 <= i < u_count s -> umem s'' (to + i) = Z.land (umem s (u_base s + i)) 255).
Proof.
  intros F D Hx Ht Hsz R Hc Hmax Hto.
  destruct (writei_run cdev_write dev mp ip addr L x s F D Hx Ht R Hc Hmax) as (s1 & a1 & L1 & E1 & m & Hm & W & Hend).
  exists s1. split; [done|]. intros He. destruct Hend as [[-> _]|(_ & He' & _)]; [|by rewrite He in He'].
  pose proof W as [C O B Sg M Me F1 D1 By [fl I1] _ _ _ _].
  assert (Hx1 : inodes s1 !! ip = Some (set_i_size (Z.max (i_size x) (u_offset s + u_count s)) (set_i_flag (i_flag x |: fl) (set_i_addr a1 x)))).
  { rewrite I1, list_lookup_insert_eq by (by eapply lookup_lt_Some). by destruct (Z.eqb_spec (u_count s) 0); [lia|]. }
  set (s2 := request to (u_offset s) (u_count s) s1).
  assert (F2 : file_in dev mp ip s2 a1 L1).
  { destruct F1 as [V1 X1 T1]. split; [|done|done]. by eapply volume_ext; [exact V1|..]. }
  destruct (readi_run cdev_read resid dev mp ip a1 L1 _ s2 F2 (d_whole _ _ _ D1) Hx1 Ht) as (s3 & E3 & [C3 _ _ _ _ Ee3 U3 _ _ _ _]); simpl.
  - destruct R. lia.
  - destruct R. split; simpl; [done|congruence|done|]. unfold user_mapped in *. simpl. by rewrite M.
  - done.
  - simpl in C3, Ee3, U3. exists s3. split; [done|]. split; [lia|]. split; [congruence|]. intros i Hi. rewrite U3.
    destruct (Z.leb_spec to (to + i)), (Z.ltb_spec (to + i) (to + Z.min (u_count s) (Z.max 0 (Z.max (i_size x) (u_offset s + u_count s) - u_offset s)))); try lia.
    cbn [andb]. destruct R as [_ _ Ro _]. rewrite By by lia. replace (to + i - to) with i by lia.
    destruct (Z.leb_spec (u_offset s) (u_offset s + i)), (Z.ltb_spec (u_offset s + i) (u_offset s + u_count s)); try lia. cbn [andb].
    by replace (u_offset s + i - u_offset s) with i by lia.
Qed.
End Roundtrip.

(** ** A file to read and write: [kern2] with the user's area mapped *)

Definition kern_rw (base off n : Z) : kern fstore :=
  request base off n (set_umap (fun _ => true) (set_umem (fun b => b mod 256) kern2)).

Lemma kern_rw_mapped base off n a k : user_mapped (kern_rw base off n) a k = true.
Proof. unfold user_mapped. by apply forallb_forall. Qed.

Lemma kern_rw_file base off n : file_in 7 1 0 (kern_rw base off n) [11; 0; 0; 0; 0; 0; 0; 0] [50; 60].
Proof. destruct kern2_file as [V X T]. split; [by eapply volume_ext; [exact V|..]|exact X|exact T]. Qed.

Lemma file1_blk g bn : 0 <= bn -> blk g [11; 0; 0; 0; 0; 0; 0; 0] bn = if bn =? 0 then 11 else 0.
Proof.
  intros Hb. unfold blk. destruct (Z.ltb_spec bn 6); [|destruct (Z.eqb_spec bn 0); [lia|]; by destruct (bn <? 6 + 512)].
  assert (bn = 0 \/ bn = 1 \/ bn = 2 \/ bn = 3 \/ bn = 4 \/ bn = 5) as Hc by lia. by repeat destruct Hc as [-> |Hc]; [..|rewrite Hc].
Qed.

Lemma kern_rw_data base off n : data_ok (bs_get (store (kern_rw base off n)) 7) [11; 0; 0; 0; 0; 0; 0; 0] [50; 60].
Proof.
  split.
  - intros bn Hb. rewrite file1_blk by lia. by destruct (Z.eqb_spec bn 0).
  - intros bn bn' Hb Hb'. rewrite !file1_blk by lia. destruct (Z.eqb_spec bn 0), (Z.eqb_spec bn' 0); lia || done.
  - intros bn Hb. rewrite file1_blk by lia. destruct (Z.eqb_spec bn 0); [|done]. intros _. split; [by apply not_elem_of_nil|set_solver].
Qed.

Lemma kern_rw_ready base off n : 0 <= off -> ready (kern_rw base off n).
Proof. intros Ho. split; try done. apply kern_rw_mapped. Qed.

Lemma readi_correct_witness : exists s', readi (fun _ => mret tt) (fun _ _ => 0) 0 (kern_rw 6000 3000 100) = Done tt s' /\ u_count s' = 28.
Proof.
  destruct (readi_correct (fun _ => mret tt) (fun _ _ => 0) 7 1 0 _ _ file1 (kern_rw 6000 3000 100) (kern_rw_file _ _ _)
    (d_whole _ _ _ (kern_rw_data _ _ _)) eq_refl) as (s' & E & M).
  - by left.
  - done.
  - by apply kern_rw_ready.
  - done.
  - exists s'. split; [done|]. by rewrite (mv_count _ _ _ _ _ _ _ _ _ M).
Defined.

Lemma writei_correct_witness : exists s' addr' L', writei (fun _ => mret tt) 0 (kern_rw 6000 3000 100) = Done tt s' /\
  write_ends 7 1 0 file1 (kern_rw 6000 3000 100) [11; 0; 0; 0; 0; 0; 0; 0] [50; 60] s' addr' L'.
Proof.
  apply (writei_correct (fun _ => mret tt) 7 1 0 _ _ file1 (kern_rw 6000 3000 100) (kern_rw_file _ _ _) (kern_rw_data _ _ _) eq_refl); try done.
  by left.
Defined.

Lemma writei_efbig_witness : exists s' x', writei (fun _ => mret tt) 0 (kern_rw 6000 (FILEMAX * BSIZE) 100) = Done tt s' /\
  inodes s' !! 0%nat = Some x' /\ FILEMAX * BSIZE < i_size x'.
Proof.
  destruct (writei_efbig (fun _ => mret tt) 7 1 0 [50; 60] file1 (kern_rw 6000 (FILEMAX * BSIZE) 100) (fi_volume _ _ _ _ _ _ (kern_rw_file _ _ _))
    eq_refl eq_refl eq_refl eq_refl) as (d & s0 & s' & x' & E & _ & _ & _ & Hx & _ & _ & Hs).
  - by apply kern_rw_ready.
  - done.
  - done.
  - done.
  - by exists s', x'.
Defined.

Lemma write_read_roundtrip_witness : exists s', writei (fun _ => mret tt) 0 (kern_rw 6000 3000 100) = Done tt s' /\
  (u_error s' = 0 -> exists s'', readi (fun _ => mret tt) (fun _ _ => 0) 0 (request 9000 3000 100 s') = Done tt s'' /\
     umem s'' 9001 = Z.land (6001 mod 256) 255).
Proof.
  destruct (write_read_roundtrip (fun _ => mret tt) (fun _ => mret tt) (fun _ _ => 0) 7 1 0 _ _ file1 (kern_rw 6000 3000 100) 9000
    (kern_rw_file _ _ _) (kern_rw_data _ _ _) eq_refl) as (s' & E & Hr); try done.
  - by left.
  - exists s'. split; [done|]. intros He. destruct (Hr He) as (s'' & E2 & _ & _ & Hu). exists s''. split; [exact E2|].
    by apply (Hu 1).
Defined.
