(* ===== verification/Namei.v ===== *)
(** * Path names: [kernel/nami.c], [owner] of [kernel/fio.c], [maknode] and [wdir] of
    [kernel/iget.c]

    [u_dbuf] holds_block [DIRSIZ] bytes, [u_dent] the four words of a [struct direct]: the
    i-number, then the name, six bytes a word. *)

From S2P Require Import Prelude Param Bytes Resmap Kern Alloc Bmap Inode Frame Fio Rdwri.

Definition DIRSIZ : nat := 18.
Definition DIRWORDS : nat := 4.
Definition DIRENTSZ : Z := 24.
Definition DIRSHIFT : Z := 7.
Definition DIRMASK : Z := 127.
Definition SLASH : Z := 47.
Definition BANG : Z := 33.
Definition DOT : Z := 46.

(** [d_name[i]] of an entry. *)
Definition d_name (dent : list Z) (i : Z) : Z := getb dent (NBPW + i).

(** The entry's name is the one in [u_dbuf]. *)
Definition same_name (dbuf dent : list Z) : bool :=
  forallb (fun i => bool_decide (dbuf !! Z.to_nat i = Some (d_name dent i))) (seqZ 0 (Z.of_nat DIRSIZ)).

(** Entry [on] of a directory block. *)
Definition dent_at (d : list Z) (on : Z) : list Z := take DIRWORDS (drop (DIRWORDS * Z.to_nat on) d).

(** How the search of one directory ended. *)
Inductive sought := Ended (eo : Z) | Failed | Matched.

(** Where [namei] goes on: it returns, at [seloop], or at [cloop]. *)
Inductive next := Ret (r : option nat) | SeLoop (dp : nat) | CLoop (dp : nat).

Section Namei.
Context {S : Type} `{BlockStore S}.

(** ** Characters *)

Definition schar : K S Z :=
  p ← gets u_dirp;
  c ← gets (fun s => kmem s p);
  puts (set_u_dirp (p + 1));;
  mret (Z.land c 255).

Definition uchar : K S Z :=
  p ← gets u_dirp;
  puts (set_u_dirp (p + 1));;
  mapped ← gets (fun s => umap s p);
  if (mapped : bool) then c ← gets (fun s => umem s p); mret (Z.land c 255)
  else error EFAULT;; mret (-1).

Context (func : K S Z).

(** [while (c == '/') c = ( *func)();]  Fuel: a path of that many characters. *)
Fixpoint skip_slashes (fuel : nat) (c : Z) : K S Z :=
  if c =? SLASH then
    match fuel with O => nofuel | Datatypes.S fuel => c ← func; skip_slashes fuel c end
  else mret c.

(** Gathers a component into [u_dbuf] from [cp] on; the result is the character after it and
    how far [cp] got. *)
Fixpoint gather (fuel : nat) (cp : nat) (c : Z) : K S (Z * nat) :=
  e ← gets u_error;
  if negb (c =? SLASH) && negb (c =? 0) && (e =? 0) then
    mpx ← gets mpxip;
    if negb (bool_decide (mpx = None)) && (c =? BANG) then mret (c, cp)
    else
      (if (cp <? DIRSIZ)%nat then puts (fun s => set_u_dbuf (<[cp := Z.land c 255]> (u_dbuf s)) s) else mret tt);;
      match fuel with
      | O => nofuel
      | Datatypes.S fuel => c ← func; gather fuel (if (cp <? DIRSIZ)%nat then (cp + 1)%nat else cp) c
      end
  else mret (c, cp).

(** Zeros from [cp] to the end. *)
Definition pad (cp : nat) : K S unit :=
  puts (fun s => set_u_dbuf (take cp (u_dbuf s) ++ replicate (DIRSIZ - cp) 0) s).

(** ** The search of a directory *)

(** From [eloop].  Fuel: every turn takes the next entry. *)
Fixpoint eloop (fuel : nat) (dp : nat) (eo : Z) (bp : option buf) : K S sought :=
  off ← gets u_offset;
  x ← getip dp;
  if i_size x <=? off then mret (Ended eo)
  else
    let ent := Z.quot off DIRENTSZ in
    let on := Z.land ent DIRMASK in
    bp ← (match bp with
          | Some b => if on =? 0 then brelse b;; mret None else mret (Some b)
          | None => mret None
          end);
    r ← (match bp with
         | Some b => mret (Some b)
         | None =>
             bn ← bmap dp (Z.shiftr ent DIRSHIFT) true;
             b ← bread (i_dev x) bn;
             if b_err b then brelse b;; mret None else mret (Some b)
         end);
    match r with
    | None => mret Failed
    | Some b =>
        let dent := dent_at (b_data b) on in
        puts (fun s => set_u_offset (u_offset s + DIRENTSZ) (set_u_dent dent s));;
        d_ino ← at_ dent 0;
        off ← gets u_offset;
        dbuf ← gets u_dbuf;
        let again eo := match fuel with O => nofuel | Datatypes.S fuel => eloop fuel dp eo (Some b) end in
        if d_ino =? 0 then again (if eo =? 0 then off else eo)
        else if same_name dbuf dent then mret Matched
        else again eo
    end.

(** Every entry of a directory of this size, and the end. *)
Definition entries_fuel (size : Z) : nat := Z.to_nat ((size + DIRENTSZ - 1) / DIRENTSZ).

(** The mount whose root [d] is. *)
Definition mount_above (d : Z) (l : list mount) : option mount :=
  snd <$> list_find (fun m => m_bufp m <> None /\ m_dev m = d) (drop 1 l).

Definition namei_out (dp : nat) : K S next := iput dp;; mret (Ret None).

(** From [seloop], with the component in [u_dbuf] and [c] the character after it. *)
Definition seloop (flag : Z) (dp : nat) (c : Z) : K S next :=
  x ← getip dp;
  (if negb (Z.land (i_mode x) IFMT =? IFDIR) then error ENOTDIR else mret tt);;
  access dp IEXEC;;
  e ← gets u_error;
  if negb (e =? 0) then namei_out dp
  else
    puts (fun s => set_u_segflg 1 (set_u_offset 0 s));;
    r ← eloop (entries_fuel (i_size x)) dp 0 None;
    match r with
    | Failed => namei_out dp
    | Ended eo =>
        if (flag =? 1) && (c =? 0) then
          a ← access dp IWRITE;
          if negb (a =? 0) then namei_out dp
          else
            puts (set_u_pdir (Some dp));;
            (if negb (eo =? 0) then puts (set_u_offset (eo - DIRENTSZ))
             else modip dp (fun x => set_i_flag (i_flag x |: (IUPD |: ICHG)) x));;
            mret (Ret None)
        else error ENOENT;; namei_out dp
    | Matched =>
        if (flag =? 2) && (c =? 0) then
          a ← access dp IWRITE;
          if negb (a =? 0) then namei_out dp else mret (Ret (Some dp))
        else
          dent ← gets u_dent;
          d_ino ← at_ dent 0;
          ms ← gets mounts;
          let d := i_dev x in
          match (if (d_ino =? ROOTINO) && (i_number x =? ROOTINO) && (d_name dent 1 =? DOT)
                 then mount_above d ms else None) with
          | Some m =>
              iput dp;;
              match m_inodp m with
              | None => wild
              | Some dp =>
                  modip dp (fun x => set_i_count (inc8 (i_count x)) x);;
                  plock dp;;
                  mret (SeLoop dp)
              end
          | None =>
              iput dp;;
              dp ← iget (Z.to_nat NMOUNT) d d_ino;
              match dp with
              | None => mret (Ret None)
              | Some dp => mret (CLoop dp)
              end
          end
    end.

(** From [cloop], or from [seloop] when [again] is set.  Fuel: one for a component, one for
    the root of a mounted file system, and as many as the path has characters for each
    component. *)
Fixpoint namei_walk (fuel : nat) (flag : Z) (again : bool) (dp : nat) (c : Z) : K S (option nat) :=
  let continue (c : Z) (r : next) :=
    match r with
    | Ret r => mret r
    | SeLoop dp => match fuel with O => nofuel | Datatypes.S fuel => namei_walk fuel flag true dp c end
    | CLoop dp => match fuel with O => nofuel | Datatypes.S fuel => namei_walk fuel flag false dp c end
    end in
  if again then r ← seloop flag dp c; continue c r
  else
    e ← gets u_error;
    if negb (e =? 0) then iput dp;; mret None
    else if c =? 0 then mret (Some dp)
    else
      '(c, cp) ← gather fuel 0 c;
      pad cp;;
      c ← skip_slashes fuel c;
      mpx ← gets mpxip;
      match mpx with
      | Some ip =>
          if c =? BANG then
            iput dp;; plock ip;; modip ip (fun x => set_i_count (inc8 (i_count x)) x);; mret (Some ip)
          else r ← seloop flag dp c; continue c r
      | None => r ← seloop flag dp c; continue c r
      end.

Definition namei (fuel : nat) (flag : Z) : K S (option nat) :=
  cdir ← gets u_cdir;
  c ← func;
  rdir ← gets u_rdir;
  root ← gets rootdir;
  let dp := if c =? SLASH then default root rdir else cdir in
  x ← getip dp;
  _ ← iget (Z.to_nat NMOUNT) (i_dev x) (i_number x);
  c ← skip_slashes fuel c;
  (if (c =? 0) && negb (flag =? 0) then error ENOENT else mret tt);;
  namei_walk fuel flag false dp c.
End Namei.

Section Names.
Context {S : Type} `{BlockStore S}.

(** ** [owner] *)

Definition owner (fuel : nat) : K S (option nat) :=
  ip ← namei uchar fuel 0;
  match ip with
  | None => mret None
  | Some ip =>
      uid ← gets u_uid;
      x ← getip ip;
      if uid =? i_uid x then mret (Some ip)
      else
        su ← suser;
        if (su : bool) then mret (Some ip) else iput ip;; mret None
  end.

(** ** Making a file *)

(** [UDENT] is the kernel address of [u.u_dent]. *)
Context (cdev_write : Z -> K S unit) (UDENT : Z).

(** What the kernel's bytes at [UDENT] are. *)
Definition expose_dent (s : kern S) : kern S :=
  set_kmem (fun b => if (UDENT <=? b) && (b <? UDENT + DIRENTSZ) then getb (u_dent s) (b - UDENT) else kmem s b) s.

(** Writes [u.u_dent] to directory [pd] at [u_offset]. *)
Definition write_dent (pd : nat) : K S unit :=
  puts (fun s => expose_dent (set_u_base UDENT (set_u_count DIRENTSZ s)));;
  writei cdev_write pd.

Definition wdir (ip : nat) : K S unit :=
  pd ← gets u_pdir;
  match pd with
  | None => wild
  | Some pd =>
      p ← getip pd;
      (if i_nlink p <=? 0 then error ENOTDIR
       else
         x ← getip ip;
         puts (fun s => set_u_segflg 1 (set_u_dent (i_number x :: putbs [0; 0; 0] 0 (u_dbuf s)) s));;
         write_dent pd);;
      iput pd
  end.

Definition maknode (fuel : nat) (mode : Z) : K S (option nat) :=
  pd ← gets u_pdir;
  match pd with
  | None => wild
  | Some pd =>
      p ← getip pd;
      ip ← ialloc fuel (i_dev p);
      match ip with
      | None => iput pd;; mret None
      | Some ip =>
          let mode := if Z.land mode IFMT =? 0 then mode |: IFREG else mode in
          mask ← gets u_cmask; uid ← gets u_uid; gid ← gets u_gid;
          modip ip (fun x => set_i_gid gid (set_i_uid uid (set_i_nlink 1 (set_i_mode (mode &~ mask)
            (set_i_flag (i_flag x |: (IACC |: (IUPD |: ICHG))) x)))));;
          wdir ip;;
          mret (Some ip)
      end
  end.
End Names.

(** ** What a directory holds_block *)

(** Entry [i] of the directory. *)
Definition entry (g : Z -> list Z) (addr : list Z) (i : Z) : list Z :=
  dent_at (g (blk g addr (i / 128))) (i mod 128).

Definition d_ino (dent : list Z) : Z := dent !!! 0%nat.

(** Entry [i] names an inode, and its name is the one sought. *)
Definition hit (g : Z -> list Z) (addr dbuf : list Z) (i : Z) : bool :=
  negb (d_ino (entry g addr i) =? 0) && same_name dbuf (entry g addr i).

(** [eo] is past the first empty one of the entries before [n]; 0 when all are in use. *)
Definition first_empty (g : Z -> list Z) (addr : list Z) (n eo : Z) : Prop :=
  (eo = 0 /\ forall i, 0 <= i < n -> d_ino (entry g addr i) <> 0) \/
  (exists i, 0 <= i < n /\ d_ino (entry g addr i) = 0 /\ eo = DIRENTSZ * (i + 1) /\
     forall j, 0 <= j < i -> d_ino (entry g addr j) <> 0).

(** [n] entries in whole blocks. *)
Definition directory (g : Z -> list Z) (addr : list Z) (n : Z) : Prop :=
  0 <= n <= FILEMAX * 128 /\ forall bn, 0 <= bn -> bn * 128 < n -> 0 < blk g addr bn /\ length (g (blk g addr bn)) = 512%nat.

Lemma dent_len d on : length d = 512%nat -> 0 <= on < 128 -> length (dent_at d on) = 4%nat.
Proof. intros Hd Ho. unfold dent_at, DIRWORDS. rewrite length_take, length_drop. lia. Qed.

Section Search.
Context {S : Type} `{BlockStore S}.
Context (dev : Z) (mp dp : nat).
Notation disk s := (bs_get (store s) dev).

(** A search changes nothing but [u_dent], [u_offset] and [rablock]. *)
Definition looked (L : list Z) (s s' : kern S) : Prop :=
  unchanged dev mp L s s' /\ user s' = user (set_u_dent (u_dent s') (set_u_offset (u_offset s') s)).

Lemma user_offset_dent o d (s s' : kern S) : user s' = user s ->
  user (set_u_dent d (set_u_offset o s')) = user (set_u_dent d (set_u_offset o s)).
Proof. unfold user. simpl. intros E. injection E as -> -> -> -> -> _ -> -> -> -> -> -> -> -> _ -> -> -> -> -> -> -> ->. done. Qed.

Lemma looked_trans L s1 s2 s3 : looked L s1 s2 -> looked L s2 s3 -> looked L s1 s3.
Proof.
  intros [U1 K1] [U2 K2]. split; [by eapply unchanged_trans|]. rewrite K2.
  by rewrite (user_offset_dent _ _ _ _ K1).
Qed.
Lemma eloop_unfold fuel eo bp : eloop fuel dp eo bp =
  (off ← gets u_offset;
   x ← getip dp;
   if i_size x <=? off then mret (Ended eo)
   else
     bp ← (match bp with
           | Some b => if Z.land (Z.quot off DIRENTSZ) DIRMASK =? 0 then brelse b;; mret None else mret (Some b)
           | None => mret None
           end);
     r ← (match bp with
          | Some b => mret (Some b)
          | None =>
              bn ← bmap dp (Z.shiftr (Z.quot off DIRENTSZ) DIRSHIFT) true;
              b ← bread (S := S) (i_dev x) bn;
              if b_err b then brelse b;; mret None else mret (Some b)
          end);
     match r with
     | None => mret Failed
     | Some b =>
         puts (fun s => set_u_offset (u_offset s + DIRENTSZ) (set_u_dent (dent_at (b_data b) (Z.land (Z.quot off DIRENTSZ) DIRMASK)) s));;
         ino ← at_ (dent_at (b_data b) (Z.land (Z.quot off DIRENTSZ) DIRMASK)) 0;
         off' ← gets u_offset;
         dbuf ← gets u_dbuf;
         let again eo := match fuel with O => nofuel | Datatypes.S fuel => eloop fuel dp eo (Some b) end in
         if ino =? 0 then again (if eo =? 0 then off' else eo)
         else if same_name dbuf (dent_at (b_data b) (Z.land (Z.quot off DIRENTSZ) DIRMASK)) then mret Matched
         else again eo
     end).
Proof. by destruct fuel. Qed.

(** The buffer a turn works on. *)
Definition holds_block (s : kern S) (addr : list Z) (e : Z) (bp : option buf) : Prop :=
  forall b, bp = Some b -> e mod 128 <> 0 -> b_data b = disk s (blk (disk s) addr (e / 128)).

Lemma read_entry_block s addr L x n e : file_in dev mp dp s addr L -> inodes s !! dp = Some x -> directory (disk s) addr n ->
  0 <= e < n -> exists b s', (bn ← bmap dp (e / 128) true; b ← bread (i_dev x) bn; if b_err b then brelse b;; mret None else mret (Some b)) s =
    Done (Some b) s' /\ b_data b = disk s (blk (disk s) addr (e / 128)) /\ unchanged dev mp L s s' /\ user s' = user s.
Proof.
  intros F Hx [Hn Hd] He. pose proof (div_mod_range e 128 ltac:(lia)) as [Hq Hr]. pose proof (Z.div_mod e 128 ltac:(lia)) as Hdm.
  destruct (Hd (e / 128) ltac:(lia) ltac:(lia)) as [Hb0 _].
  destruct (bmap_read_run dev mp dp s addr L (e / 128) F ltac:(lia)) as (s1 & U1 & E1).
  pose proof (keeps_done _ _ _ _ (keeps_bmap dp (e / 128) true) E1) as K1.
  destruct (Z.eqb_spec (blk (disk s) addr (e / 128)) 0); [lia|]. rewrite (kbind_run _ _ _ _ _ E1).
  pose proof F as [_ (x' & Hx' & Hdv & _) _]. assert (x' = x) as -> by congruence. rewrite Hdv.
  destruct (volume_read dev mp L s1 (blk (disk s) addr (e / 128)) (un_volume _ _ _ _ _ U1)) as (s2 & I2 & E2 & R2 & V2 & M2 & G2).
  rewrite (kbind_run _ _ _ _ _ R2). eexists _, s2. split; [done|]. split; [apply U1|].
  split; [by eapply unchanged_trans|]. rewrite <- K1. by eapply (keeps_done (bread dev _)); [apply keeps_bread|].
Qed.

Lemma eloop_turn fuel eo bp s addr L x n e : file_in dev mp dp s addr L -> inodes s !! dp = Some x -> directory (disk s) addr n ->
  i_size x = DIRENTSZ * n -> u_offset s = DIRENTSZ * e -> 0 <= e < n -> holds_block s addr e bp ->
  exists b s', looked L s s' /\ u_offset s' = DIRENTSZ * (e + 1) /\ u_dent s' = entry (disk s) addr e /\ holds_block s' addr (e + 1) (Some b) /\
    eloop fuel dp eo bp s =
      let again eo := match fuel with O => KNoFuel | Datatypes.S fuel => eloop fuel dp eo (Some b) s' end in
      if d_ino (entry (disk s) addr e) =? 0 then again (if eo =? 0 then DIRENTSZ * (e + 1) else eo)
      else if same_name (u_dbuf s) (entry (disk s) addr e) then Done Matched s' else again eo.
Proof.
  intros F Hx D Hsz Hoff He Hh. pose proof D as [Hn Hd].
  pose proof (div_mod_range e 128 ltac:(lia)) as [Hq Hr]. pose proof (Z.div_mod e 128 ltac:(lia)) as Hdm.
  assert (Hent : Z.quot (u_offset s) DIRENTSZ = e).
  { rewrite Hoff, Z.mul_comm. apply Z.quot_mul. done. }
  assert (Hon : Z.land e DIRMASK = e mod 128) by (change DIRMASK with (Z.ones 7); by rewrite Z.land_ones).
  assert (Hsh : Z.shiftr e DIRSHIFT = e / 128) by (by rewrite Z.shiftr_div_pow2).
  destruct (Hd (e / 128) ltac:(lia) ltac:(lia)) as [Hb0 Hbl].
  rewrite eloop_unfold, kgets_run, (kbind_run _ _ _ _ _ (getip_run _ _ _ Hx)), Hsz, Hoff.
  destruct (Z.leb_spec (DIRENTSZ * n) (DIRENTSZ * e)); [unfold DIRENTSZ in *; lia|]. rewrite <- Hoff, Hent, Hon, Hsh.
  set (bp' := match bp with Some b => if e mod 128 =? 0 then None else Some b | None => None end).
  rewrite (kbind_run _ _ bp' s s) by (unfold bp'; destruct bp as [b|]; [by destruct (e mod 128 =? 0)|done]).
  assert (exists b s1, (match bp' with Some b => mret (Some b) | None => bn ← bmap dp (e / 128) true; b ← bread (i_dev x) bn;
      if b_err b then brelse b;; mret None else mret (Some b) end : K S (option buf)) s = Done (Some b) s1 /\
    b_data b = disk s (blk (disk s) addr (e / 128)) /\ unchanged dev mp L s s1 /\ user s1 = user s) as (b & s1 & E1 & Eb & U1 & K1).
  { destruct bp' as [b|] eqn:Ebp; [|by eapply read_entry_block]. exists b, s. split; [done|]. split.
    - unfold bp' in Ebp. destruct bp as [b'|]; [|done]. destruct (Z.eqb_spec (e mod 128) 0); [done|]. simplify_eq. by apply Hh.
    - split; [by split; [apply F|..]|done]. }
  rewrite (kbind_run _ _ _ _ _ E1), Eb. fold (entry (disk s) addr e).
  set (s2 := set_u_offset (u_offset s1 + DIRENTSZ) (set_u_dent (entry (disk s) addr e) s1)).
  rewrite (kbind_run _ _ tt _ s2) by done.
  assert (He4 : length (entry (disk s) addr e) = 4%nat) by (by apply dent_len).
  assert (Hi : entry (disk s) addr e !! 0%nat = Some (d_ino (entry (disk s) addr e))).
  { apply list_lookup_lookup_total_lt. lia. }
  rewrite (kbind_run _ _ _ _ _ (at_run _ _ _ s2 Hi)), !kgets_run.
  assert (Ho1 : u_offset s1 = u_offset s /\ u_dbuf s1 = u_dbuf s) by (unfold user in K1; by injection K1).
  destruct Ho1 as [Ho1 Hb1].
  exists b, s2. split; [|split; [|split; [done|split]]].
  - split; [|simpl; rewrite <- (user_offset_dent _ _ _ _ K1); done].
    destruct U1 as [V1 I1 Ee1 G1 M1]. by split.
  - simpl. rewrite Ho1, Hoff. unfold DIRENTSZ. lia.
  - intros b' Eq Hne. injection Eq as <-. change (disk s2) with (disk s1).
    assert (Hg : forall c, disk s1 c = disk s c) by (intros; apply U1).
    assert (e / 128 = (e + 1) / 128) as Hsame.
    { pose proof (Z.div_mod (e + 1) 128 ltac:(lia)). pose proof (Z.mod_pos_bound (e + 1) 128 ltac:(lia)). lia. }
    rewrite <- Hsame, Hg, (blk_ext (disk s) (disk s1) addr L); [done|apply F|auto|lia].
  - cbv zeta. change (u_dbuf s2) with (u_dbuf s1). change (u_offset s2) with (u_offset s1 + DIRENTSZ). rewrite Hb1, Ho1, Hoff.
    replace (DIRENTSZ * e + DIRENTSZ) with (DIRENTSZ * (e + 1)) by (unfold DIRENTSZ; lia).
    destruct (d_ino (entry (disk s) addr e) =? 0); [by destruct fuel|]. destruct (same_name _ _); [done|by destruct fuel].
Qed.

Lemma looked_file L s s' addr x n : looked L s s' -> file_in dev mp dp s addr L -> inodes s !! dp = Some x -> directory (disk s) addr n ->
  file_in dev mp dp s' addr L /\ inodes s' !! dp = Some x /\ directory (disk s') addr n /\
  (forall i, 0 <= i < n -> entry (disk s') addr i = entry (disk s) addr i) /\ u_dbuf s' = u_dbuf s.
Proof.
  intros [[V I _ G _] K] [_ (y & Hy & Hd) T] Hx [Hn D].
  assert (Hblk : forall bn, 0 <= bn < FILEMAX -> blk (disk s') addr bn = blk (disk s) addr bn).
  { intros. apply (blk_ext _ _ _ L); [done|intros; apply G|done]. }
  split_and!; [split|..].
  - done.
  - exists y. by rewrite I.
  - destruct T as [T1 T2 T3]. assert (M1 : meta (disk s') addr = meta (disk s) addr) by (apply meta_ext; intros; apply G).
    split; rewrite ?M1; auto. intros m Hm. rewrite G. auto.
  - by rewrite I.
  - split; [done|]. intros bn H0 Hb. rewrite Hblk, G by lia. auto.
  - intros i Hi. unfold entry. pose proof (Z.div_mod i 128 ltac:(lia)). pose proof (Z.mod_pos_bound i 128 ltac:(lia)).
    rewrite Hblk by lia. by rewrite G.
  - unfold user in K. by injection K.
Qed.

(** How a search of entries [e .. n - 1] ends. *)
Definition search_ends (addr L : list Z) (n e : Z) (s : kern S) (r : sought) (s' : kern S) : Prop :=
  looked L s s' /\
  ((exists i, e <= i < n /\ hit (disk s) addr (u_dbuf s) i = true /\ (forall j, e <= j < i -> hit (disk s) addr (u_dbuf s) j = false) /\
      r = Matched /\ u_dent s' = entry (disk s) addr i /\ u_offset s' = DIRENTSZ * (i + 1)) \/
   ((forall j, e <= j < n -> hit (disk s) addr (u_dbuf s) j = false) /\ u_offset s' = DIRENTSZ * n /\
      exists eo, r = Ended eo /\ first_empty (disk s) addr n eo)).

Lemma first_empty_next g addr e eo : 0 <= e -> first_empty g addr e eo ->
  first_empty g addr (e + 1) (if d_ino (entry g addr e) =? 0 then if eo =? 0 then DIRENTSZ * (e + 1) else eo else eo).
Proof.
  unfold DIRENTSZ. intros He [[-> Ha]|(i & Hi & Hi0 & -> & Hj)].
  - destruct (Z.eqb_spec (d_ino (entry g addr e)) 0) as [E|E]; [right; exists e; split_and!; try done; lia|left].
    split; [done|]. intros j Hj. destruct (decide (j = e)) as [->|]; [done|]. apply Ha. lia.
  - right. exists i. split; [lia|]. split; [done|]. destruct (d_ino (entry g addr e) =? 0); [|done].
    split; [|done]. unfold DIRENTSZ. destruct (Z.eqb_spec (24 * (i + 1)) 0); lia.
Qed.

Lemma first_empty_ext g g' addr n eo : (forall i, 0 <= i < n -> entry g' addr i = entry g addr i) ->
  first_empty g addr n eo -> first_empty g' addr n eo.
Proof.
  intros Hg [[-> Ha]|(i & Hi & Hi0 & -> & Hj)]; [left|right].
  - split; [done|]. intros j Hj. rewrite Hg by done. auto.
  - exists i. rewrite Hg by done. split_and!; try done; try lia. intros j Hj'. rewrite Hg by lia. by apply Hj.
Qed.

Lemma search_cons addr L n e s s1 r s' : looked L s s1 -> 0 <= e < n ->
  (forall i, 0 <= i < n -> entry (disk s1) addr i = entry (disk s) addr i) -> u_dbuf s1 = u_dbuf s ->
  hit (disk s) addr (u_dbuf s) e = false -> search_ends addr L n (e + 1) s1 r s' -> search_ends addr L n e s r s'.
Proof.
  intros Hl He Hg Hb Hh [Hl' Hc].
  assert (Hhit : forall j, 0 <= j < n -> hit (disk s1) addr (u_dbuf s1) j = hit (disk s) addr (u_dbuf s) j).
  { intros j Hj. unfold hit. by rewrite Hg, Hb. }
  split; [by eapply looked_trans|]. destruct Hc as [(i & Hi & Hhi & Hj & -> & Hd & Ho)|(Hj & Ho & eo & -> & He2)].
  - left. exists i. rewrite Hhit in Hhi by lia. rewrite Hg in Hd by lia. split_and!; try done; [lia|lia|].
    intros j Hj'. destruct (decide (j = e)) as [->|]; [done|]. rewrite <- Hhit by lia. apply Hj. lia.
  - right. split_and!; [|done|].
    + intros j Hj'. destruct (decide (j = e)) as [->|]; [done|]. rewrite <- Hhit by lia. apply Hj. lia.
    + exists eo. split; [done|]. eapply first_empty_ext; [|exact He2]. intros i Hi. symmetry. by apply Hg.
Qed.

Lemma eloop_run fuel : forall eo bp s addr L x n e, file_in dev mp dp s addr L -> inodes s !! dp = Some x -> directory (disk s) addr n ->
  i_size x = DIRENTSZ * n -> u_offset s = DIRENTSZ * e -> 0 <= e <= n -> n - e <= Z.of_nat fuel -> holds_block s addr e bp ->
  first_empty (disk s) addr e eo ->
  exists r s', eloop fuel dp eo bp s = Done r s' /\ search_ends addr L n e s r s'.
Proof.
  induction fuel as [|fuel IH]; intros eo bp s addr L x n e F Hx D Hsz Hoff He Hf Hh Heo;
    (destruct (decide (e = n)) as [->|Hne];
      [exists (Ended eo), s; rewrite eloop_unfold, kgets_run, (kbind_run _ _ _ _ _ (getip_run _ _ _ Hx)), Hsz, Hoff, Z.leb_refl;
       split; [done|]; split; [split; [by split; [apply F|..]|by destruct s]|]; right; split_and!; [lia|done|by exists eo]|]); [lia|].
  destruct (eloop_turn (Datatypes.S fuel) eo bp s addr L x n e F Hx D Hsz Hoff ltac:(lia) Hh) as (b & s1 & Hl & Ho1 & Hd1 & Hh1 & E1).
  destruct (looked_file L s s1 addr x n Hl F Hx D) as (F1 & Hx1 & D1 & Hg & Hb).
  rewrite E1. cbv zeta. set (eo1 := if eo =? 0 then DIRENTSZ * (e + 1) else eo).
  pose proof (first_empty_next (disk s) addr e eo ltac:(lia) Heo) as Hnext. fold eo1 in Hnext.
  assert (Hnext1 : first_empty (disk s1) addr (e + 1) (if d_ino (entry (disk s) addr e) =? 0 then eo1 else eo)).
  { eapply first_empty_ext; [|exact Hnext]. intros i Hi. apply Hg. lia. }
  assert (Hgo : hit (disk s) addr (u_dbuf s) e = false -> exists r s', eloop fuel dp (if d_ino (entry (disk s) addr e) =? 0 then eo1 else eo) (Some b) s1 = Done r s' /\
    search_ends addr L n e s r s').
  { intros Hhit. destruct (IH _ (Some b) s1 addr L x n (e + 1) F1 Hx1 D1 Hsz Ho1 ltac:(lia) ltac:(lia) Hh1 Hnext1) as (r & s' & E & Hs).
    exists r, s'. split; [done|]. eapply search_cons; try done. lia. }
  unfold hit in Hgo. destruct (Z.eqb_spec (d_ino (entry (disk s) addr e)) 0) as [E0|E0]; [by apply Hgo|].
  destruct (same_name (u_dbuf s) (entry (disk s) addr e)) eqn:Hs; [|by apply Hgo].
  exists Matched, s1. split; [done|]. split; [done|]. left. exists e. split_and!; try done; try lia.
  unfold hit. rewrite Hs. by destruct (Z.eqb_spec (d_ino (entry (disk s) addr e)) 0).
Qed.

(** Where a new entry will go. *)
Definition create_at (eo : Z) (s : kern S) : kern S :=
  let s := set_u_pdir (Some dp) s in
  if negb (eo =? 0) then set_u_offset (eo - DIRENTSZ) s
  else set_inodes (alter (fun x => set_i_flag (i_flag x |: (IUPD |: ICHG)) x) dp (inodes s)) s.

(** The caller may write directory [x] on a volume with superblock [f]; or else the error. *)
Definition dir_writable (s : kern S) (x : inode) (f : filsys) : option Z :=
  if negb (s_ronly f =? 0) then Some EROFS else if allows (u_uid s) (u_gid s) x Write then None else Some EACCES.

(** The directory is open to the caller and nothing is wrong with its volume. *)
Record searchable (s : kern S) (addr L : list Z) (x : inode) (f : filsys) (n : Z) : Prop := {
  se_file : file_in dev mp dp s addr L;
  se_inode : inodes s !! dp = Some x;
  se_dir : Z.land (i_mode x) IFMT = IFDIR;
  se_entries : directory (disk s) addr n;
  se_size : i_size x = DIRENTSZ * n;
  se_exec : allows (u_uid s) (u_gid s) x Execute = true;
  se_text : (i_flag x &? ITEXT) = false;
  se_mounted : mounted dev mp f s;
  se_counts : s_nfree f <= NICFREE /\ s_ninode f <= NICINOD;
  se_error : u_error s = 0;
}.

Lemma write_access s addr L x f n s1 : searchable s addr L x f n -> looked L (set_u_segflg 1 (set_u_offset 0 s)) s1 ->
  access dp IWRITE s1 = match dir_writable s x f with None => Done 0 s1 | Some e => Done 1 (set_u_error e s1) end.
Proof.
  intros [F Hx _ _ _ _ Ht Hm [Hn Hi] _] [[V I _ _ M] K].
  assert (Hu : u_uid s1 = u_uid s /\ u_gid s1 = u_gid s) by (unfold user in K; by injection K). destruct Hu as [Hu1 Hu2].
  pose proof F as [_ (y & Hy & Hd & _) _]. assert (y = x) as -> by congruence.
  change IWRITE with (right_mode Write). rewrite (access_run dp x mp f Write s1); try done.
  - unfold dir_writable. rewrite Hu1, Hu2. cbn [bool_decide andb]. destruct (negb (s_ronly f =? 0)); [done|]. by destruct (allows _ _ _ _).
  - by rewrite I.
  - rewrite Hd. by eapply mounted_same.
Qed.

(** C21. The search of one directory by [namei] finds the first entry in use whose name is
    the component sought, across block boundaries and empty slots.  Found and to be deleted
    ([flag] 2, the last component), it returns the directory if the caller may write it,
    with the entry in [u_dent]; found otherwise, it goes on with the inode named.  Not found
    and to be created ([flag] 1), it returns NULL without an error when the directory may be
    written, [u_pdir] set and [u_offset] at the first empty slot, or at the end when there is
    none; not found otherwise is [ENOENT].  The search itself changes no inode and no block. *)
Theorem seloop_correct flag c s addr L x f n : searchable s addr L x f n ->
  exists r s1, search_ends addr L n 0 (set_u_segflg 1 (set_u_offset 0 s)) r s1 /\
    let refused (e : Z) := namei_out dp (set_u_error e s1) in
    match r with
    | Failed => False
    | Ended eo =>
        seloop flag dp c s =
          if (flag =? 1) && (c =? 0) then
            match dir_writable s x f with None => Done (Ret None) (create_at eo s1) | Some e => refused e end
          else refused ENOENT
    | Matched =>
        if (flag =? 2) && (c =? 0) then
          seloop flag dp c s = match dir_writable s x f with None => Done (Ret (Some dp)) s1 | Some e => refused e end
        else
          (d_ino (u_dent s1) =? ROOTINO) && (i_number x =? ROOTINO) && (d_name (u_dent s1) 1 =? DOT) = false ->
          seloop flag dp c s =
            (iput dp;;
             ip ← iget (Z.to_nat NMOUNT) dev (d_ino (u_dent s1));
             match ip with None => mret (Ret None) | Some ip => mret (CLoop ip) end) s1
    end.
Proof.
  intros Hs. pose proof Hs as [F Hx Hdir D Hsz Hex Ht Hm [Hn Hi] He].
  pose proof F as [_ (y & Hy & Hd & _) _]. assert (y = x) as -> by congruence.
  set (s0 := set_u_segflg 1 (set_u_offset 0 s)).
  assert (F0 : file_in dev mp dp s0 addr L) by (destruct F as [V X T]; split; [by eapply volume_ext; [exact V|..]|exact X|exact T]).
  assert (Hfuel : n - 0 <= Z.of_nat (entries_fuel (i_size x))).
  { unfold entries_fuel. rewrite Hsz. destruct D as [Dn _]. unfold DIRENTSZ. rewrite Z2Nat.id by (apply Z.div_pos; lia).
    enough (n <= (24 * n + 24 - 1) / 24) by lia. apply Z.div_le_lower_bound; lia. }
  destruct (eloop_run (entries_fuel (i_size x)) 0 None s0 addr L x n 0 F0 Hx D Hsz eq_refl) as (r & s1 & E1 & H1);
    [destruct D; lia|done|done|left; split; [done|lia]|].
  exists r, s1. split; [done|]. pose proof H1 as [Hl Hc]. pose proof (write_access s addr L x f n s1 Hs Hl) as Hw.
  assert (Hx1 : inodes s1 !! dp = Some x) by (destruct Hl as [[_ I _ _ _] _]; by rewrite I).
  unfold seloop. rewrite (kbind_run _ _ _ _ _ (getip_run _ _ _ Hx)), Hdir. change (negb (IFDIR =? IFDIR)) with false. cbv iota.
  rewrite kret_run.   change IEXEC with (right_mode Execute).
  rewrite (kbind_run _ _ 0 s s) by (rewrite (access_run dp x mp f Execute s), Hex; try done; by rewrite Hd).
  rewrite kgets_run, He. cbn [negb Z.eqb]. rewrite (kbind_run _ _ tt s s0) by done. rewrite (kbind_run _ _ _ _ _ E1). cbv zeta.
  destruct Hc as [(i & Hin & Hhit & _ & -> & Hent & _)|(_ & _ & eo & -> & _)].
  - destruct ((flag =? 2) && (c =? 0)).
    + destruct (dir_writable s x f); by rewrite (kbind_run _ _ _ _ _ Hw).
    + intros Hroot. rewrite !kgets_run.
      assert (Hi1 : u_dent s1 !! 0%nat = Some (d_ino (u_dent s1))).
      { rewrite Hent. apply list_lookup_lookup_total_lt. unfold entry. destruct D as [Dn D].
        pose proof (Z.div_mod i 128 ltac:(lia)). pose proof (Z.mod_pos_bound i 128 ltac:(lia)). destruct (D (i / 128) ltac:(lia) ltac:(lia)).
        rewrite dent_len; [lia|done|done]. }
      rewrite (kbind_run _ _ _ _ _ (at_run _ _ _ _ Hi1)), kgets_run, Hroot, Hd. done.
  - destruct ((flag =? 1) && (c =? 0)); [|done]. destruct (dir_writable s x f); rewrite (kbind_run _ _ _ _ _ Hw); [done|].
    cbn [negb Z.eqb]. rewrite (kbind_run _ _ tt s1 (set_u_pdir (Some dp) s1)) by done. unfold create_at. by destruct (negb (eo =? 0)).
Qed.

End Search.

(** ** A directory with an empty slot between two entries *)

Definition name_words (cs : list Z) : list Z := putbs [0; 0; 0] 0 cs.
Definition dir1_block : list Z :=
  (2 :: name_words [46]) ++ [0; 0; 0; 0] ++ (5 :: name_words [97; 98]) ++ replicate 500 0.
Definition dir1 : inode := Inode ILOCK 1 7 2 (IFDIR |: 511) 2 0 0 72 [11; 0; 0; 0; 0; 0; 0; 0] 0.
Definition kern_dir (name : list Z) : kern fstore :=
  set_u_dbuf (name ++ replicate (18 - length name) 0) (set_u_uid 9 (set_inodes [dir1]
    (set_store (Fstore (fun d b => if b =? 11 then dir1_block else f_get disk1 d b) (fun _ _ => false)) kern2))).

Lemma kern_dir_searchable name : searchable 7 1 0 (kern_dir name) [11; 0; 0; 0; 0; 0; 0; 0] [50; 60] dir1 fs1 3.
Proof.
  split; try done.
  - destruct kern2_file as [V _ _]. split; [|by exists dir1|].
    + eapply volume_ext; [exact V|done| |done]. intros b Hb. apply elem_of_cons in Hb as [->|Hb]; [done|].
      apply elem_of_cons in Hb as [->|Hb]; [done|by apply not_elem_of_nil in Hb].
    + split; [done|apply NoDup_nil_2|]. by intros m ?%not_elem_of_nil.
  - split; [done|]. intros bn H0 Hb. assert (bn = 0) as -> by lia. done.
  - split; [done|]. by eexists.
Qed.

Lemma seloop_correct_witness : exists s', seloop 1 0 0 (kern_dir [120]) = Done (Ret None) s' /\ u_offset s' = 24.
Proof.
  destruct (seloop_correct 7 1 0 1 0 (kern_dir [120]) _ _ _ _ _ (kern_dir_searchable [120])) as (r & s1 & [_ Hs] & Hc).
  destruct Hs as [(i & Hi & Hh & _)|(_ & _ & eo & -> & He)].
  - assert (i = 0 \/ i = 1 \/ i = 2) as Ei by lia. by repeat destruct Ei as [-> |Ei]; [..|rewrite Ei in Hh].
  - eexists. split; [exact Hc|]. destruct He as [[-> Ha]|(i & Hi & Hi0 & -> & Hj)].
    + by destruct (Ha 1 ltac:(lia)).
    + assert (i = 0 \/ i = 1 \/ i = 2) as Ei by lia. destruct Ei as [-> |[-> | ->]]; [done|done|].
      by destruct (Hj 1 ltac:(lia)).
Defined.
