(* ===== verification/Pipe.v ===== *)
(** * Pipes: [kernel/pipe.c]

    A pipe is a file without a name: writers append at [i_size], readers take at the
    reader's [f_offset], and when the reader has caught up both go back to 0.  A process
    that sleeps goes on at the label [loop], with its local count [c]. *)

From S2P Require Import Prelude Param Bytes Resmap Kern Alloc Bmap Inode Frame Fio Rdwri.

Definition PIPSIZ : Z := 4096.
Definition SIGPIPE : Z := 13.

Section Pipe.
Context {S : Type} `{BlockStore S}.
Context (cdev_read cdev_write : Z -> K S unit) (resid : Z -> Z -> Z).

(** [pipedev] is the device pipes live on. *)
Definition pipe (fuel : nat) (pipedev : Z) : K S unit :=
  ip ← ialloc fuel pipedev;
  match ip with
  | None => mret tt
  | Some ip =>
      rf ← falloc;
      match rf with
      | None => iput ip
      | Some rf =>
          r ← gets u_r_val1;
          wf ← falloc;
          match wf with
          | None =>
              modfile rf (set_f_count 0);;
              set_ofile (Z.to_nat r) None;;
              iput ip
          | Some wf =>
              w ← gets u_r_val1;
              puts (fun s => set_u_r_val1 r (set_u_r_val2 w s));;
              modfile wf (fun f => set_f_inode (Some ip) (set_f_flag (FWRITE |: FPIPE) f));;
              modfile rf (fun f => set_f_inode (Some ip) (set_f_flag (FREAD |: FPIPE) f));;
              modip ip (fun x => set_i_flag (IACC |: (IUPD |: ICHG)) (set_i_mode IFREG (set_i_count 2 x)))
          end
      end
  end.

Definition pipe_inode (fp : nat) : K S nat :=
  f ← getfile fp;
  match f_inode f with None => wild | Some ip => mret ip end.

Definition readp (fp : nat) : K S unit :=
  ip ← pipe_inode fp;
  plock ip;;
  x ← getip ip;
  if i_size x =? 0 then
    prele ip;;
    x ← getip ip;
    if i_count x <? 2 then mret tt
    else modip ip (fun x => set_i_mode (i_mode x |: IREAD) x);; sleep (ChPipe ip 2)
  else
    f ← getfile fp;
    puts (set_u_offset (f_offset f));;
    readi cdev_read resid ip;;
    off ← gets u_offset;
    modfile fp (set_f_offset off);;
    x ← getip ip;
    (if off =? i_size x then
       modfile fp (set_f_offset 0);;
       modip ip (set_i_size 0);;
       x ← getip ip;
       if i_mode x &? IWRITE
       then modip ip (fun x => set_i_mode (i_mode x &~ IWRITE) x);; wakeup (ChPipe ip 1)
       else mret tt
     else mret tt);;
    prele ip.

(** One turn of [writep] from the label [loop], with [c] bytes to go: it returns, has to
    sleep on [CHANOF(ip, 1)] and then take the turn again, or goes to [loop] with fewer. *)
Inductive wturn := WReturn | WWait | WAgain (c : Z).

Definition writep_turn (ip : nat) (c : Z) : K S wturn :=
  plock ip;;
  if c =? 0 then prele ip;; puts (set_u_count 0);; mret WReturn
  else
    x ← getip ip;
    if i_count x <? 2 then prele ip;; error EPIPE;; psignal_self SIGPIPE;; mret WReturn
    else if PIPSIZ <=? i_size x then
      modip ip (fun x => set_i_mode (i_mode x |: IWRITE) x);; prele ip;; mret WWait
    else
      puts (fun s => set_u_count (Z.min c PIPSIZ) (set_u_offset (i_size x) s));;
      writei cdev_write ip;;
      prele ip;;
      x ← getip ip;
      (if i_mode x &? IREAD
       then modip ip (fun x => set_i_mode (i_mode x &~ IREAD) x);; wakeup (ChPipe ip 2)
       else mret tt);;
      mret (WAgain (c - Z.min c PIPSIZ)).

(** Turns until it returns, or sleeps.  Fuel: every turn writes [PIPSIZ] bytes or the last
    ones. *)
Fixpoint writep_loop (fuel : nat) (ip : nat) (c : Z) : K S unit :=
  t ← writep_turn ip c;
  match t with
  | WReturn => mret tt
  | WWait => sleep (ChPipe ip 1)
  | WAgain c => match fuel with O => nofuel | Datatypes.S fuel => writep_loop fuel ip c end
  end.

Definition writep (fp : nat) : K S unit :=
  ip ← pipe_inode fp;
  c ← gets u_count;
  writep_loop (Z.to_nat c + 1) ip c.
End Pipe.

(** ** The queue *)

Section Fifo.
Context {S : Type} `{BlockStore S}.
Context (cdev_read cdev_write : Z -> K S unit) (resid : Z -> Z -> Z).
Context (dev : Z) (mp ip : nat).
Notation disk s := (bs_get (store s) dev).

(** Inode [ip] is a pipe with both ends open; its reader is open file [rf].  It is empty
    only with size 0. *)
Record pipe_ok (rf : nat) (addr L : list Z) (x : inode) (f : file) (s : kern S) : Prop := {
  pp_file : file_in dev mp ip s addr L;
  pp_data : data_ok (disk s) addr L;
  pp_inode : inodes s !! ip = Some x;
  pp_reg : Z.land (i_mode x) IFMT = IFREG;
  pp_ends : i_count x = 2;
  pp_reader : files s !! rf = Some f /\ f_inode f = Some ip;
  pp_offset : 0 <= f_offset f;
  pp_size : f_offset f < i_size x < 2 * PIPSIZ \/ f_offset f = 0 /\ i_size x = 0;
}.

(** The bytes in the pipe. *)
Definition contents (s : kern S) (addr : list Z) (x : inode) (f : file) : list Z :=
  fbyte (disk s) addr <$> seqZ (f_offset f) (i_size x - f_offset f).

(** The user's area. *)
Definition ours (s : kern S) := (u_base s, u_segflg s, umap s, umem s).

(** Only inode [ip] and [wakes] differ. *)
Definition touched (x : inode) (s s' : kern S) : Prop := exists w, s' = set_wakes w (set_inodes (<[ip := x]> (inodes s)) s).

Lemma touched_at x s s' y : inodes s !! ip = Some y -> touched x s s' -> inodes s' !! ip = Some x.
Proof. intros Hy [w ->]. simpl. apply list_lookup_insert_eq. by eapply lookup_lt_Some. Qed.

Lemma touched_trans x y s1 s2 s3 : touched x s1 s2 -> touched y s2 s3 -> touched y s1 s3.
Proof. intros [w ->] [v ->]. exists v. simpl. by rewrite list_insert_insert_eq. Qed.

Lemma touched_modip g s x : inodes s !! ip = Some x -> exists s', modip ip g s = Done tt s' /\ touched (g x) s s'.
Proof. intros Hx. eexists. split; [done|]. exists (wakes s). by rewrite (alter_insert _ _ _ _ Hx). Qed.

Lemma touched_wakeup ch s x : inodes s !! ip = Some x -> exists s', wakeup ch s = Done tt s' /\ touched x s s'.
Proof. intros Hx. eexists. split; [done|]. exists (wakes s ++ [ch]). simpl. by rewrite (list_insert_id _ _ _ Hx). Qed.

Lemma plock_run s x : inodes s !! ip = Some x -> (i_flag x &? ILOCK) = false ->
  exists s', plock ip s = Done tt s' /\ touched (set_i_flag (i_flag x |: ILOCK) x) s s'.
Proof.
  intros Hx Hl. unfold plock. rewrite (kbind_run _ _ _ _ _ (getip_run _ _ _ Hx)), Hl.
  by apply (touched_modip (fun x => set_i_flag (i_flag x |: ILOCK) x)).
Qed.

Lemma prele_run s x : inodes s !! ip = Some x ->
  exists fl s', prele ip s = Done tt s' /\ touched (set_i_flag fl x) s s' /\ (fl &? ILOCK) = false.
Proof.
  intros Hx. unfold prele. destruct (touched_modip (fun x => set_i_flag (i_flag x &~ ILOCK) x) s x Hx) as (s1 & E1 & T1).
  pose proof (touched_at _ _ _ _ Hx T1) as Hx1. rewrite (kbind_run _ _ _ _ _ E1), (kbind_run _ _ _ _ _ (getip_run _ _ _ Hx1)).
  destruct (_ &? IWANT).
  - destruct (touched_modip (fun x => set_i_flag (i_flag x &~ IWANT) x) s1 _ Hx1) as (s2 & E2 & T2).
    destruct (touched_wakeup (ChInode ip) s2 _ (touched_at _ _ _ _ Hx1 T2)) as (s3 & E3 & T3).
    rewrite (kbind_run _ _ _ _ _ E2), E3. eexists _, s3. split; [done|]. split.
    + eapply touched_trans; [exact T1|]. eapply touched_trans; [exact T2|]. exact T3.
    + simpl. rewrite tst_clr_other by done. by apply tst_clr_same.
  - eexists _, s1. split; [done|]. split; [exact T1|]. by apply tst_clr_same.
Qed.

(** A pipe stays one, with its contents, when other fields of its inode change. *)
Lemma touched_pipe rf addr L x f s s' y : pipe_ok rf addr L x f s -> touched y s s' -> i_dev y = i_dev x -> i_addr y = i_addr x ->
  Z.land (i_mode y) IFMT = Z.land (i_mode x) IFMT -> i_count y = i_count x -> i_size y = i_size x ->
  pipe_ok rf addr L y f s' /\ contents s' addr y f = contents s addr x f.
Proof.
  intros [F D Hx Hr Hc Hf Ho Hz] T Hd Ha Hm Hc' Hs. pose proof (touched_at _ _ _ _ Hx T) as Hy. destruct T as [w ->].
  split; [|unfold contents; by rewrite Hs]. split; simpl; try done; [|congruence|congruence|by rewrite Hs].
  destruct F as [V (x' & Hx' & Hd' & Ha') Tr]. assert (x' = x) as -> by congruence.
  split; [by eapply volume_ext; [exact V|..]| |done]. exists y. split; [done|]. split; congruence.
Qed.
Lemma getfile_run fp g (s : kern S) : files s !! fp = Some g -> getfile fp s = Done g s.
Proof. intros Hg. unfold getfile, mbind, k_bind, gets, at_. by rewrite Hg. Qed.

Lemma pipe_inode_run fp g (s : kern S) : files s !! fp = Some g -> f_inode g = Some ip -> pipe_inode fp s = Done ip s.
Proof. intros Hg Hi. unfold pipe_inode. by rewrite (kbind_run _ _ _ _ _ (getfile_run _ _ _ Hg)), Hi. Qed.

Lemma pipe_reg_mode x : Z.land (i_mode x) IFMT = IFREG -> Z.land (i_mode x) IFMT = IFREG \/ Z.land (i_mode x) IFMT = IFDIR.
Proof. by left. Qed.

(** The bytes appended. *)
Lemma wrote_contents rf addr L x f s x2 s2 m s' addr' L' : pipe_ok rf addr L x f s -> pipe_ok rf addr L x2 f s2 ->
  contents s2 addr x2 f = contents s addr x f -> i_size x2 = i_size x -> i_size x < PIPSIZ -> 0 <= m <= PIPSIZ ->
  u_offset s2 = i_size x -> wrote dev mp ip x2 m s2 addr L s' addr' L' ->
  exists y, pipe_ok rf addr' L' y f s' /\
    contents s' addr' y f = contents s addr x f ++ ((fun b => Z.land (umem s2 b) 255) <$> seqZ (u_base s2) m).
Proof.
  intros P P2 Ec Es Hlt Hm Ho [C O B Sg M Me F' D' By [fl I'] _ _ _ X]. pose proof P2 as [F2 D2 Hx2 Hr2 Hc2 Hf2 Ho2 Hz2].
  set (y := set_i_size (if m =? 0 then i_size x2 else Z.max (i_size x2) (u_offset s2 + m)) (set_i_flag (i_flag x2 |: fl) (set_i_addr addr' x2))) in *.
  assert (Hsz : i_size y = i_size x + m).
  { unfold y. simpl. destruct (Z.eqb_spec m 0); lia. }
  assert (Hff : files s' = files s2) by (unfold rest in X; by injection X).
  assert (Hx' : inodes s' !! ip = Some y) by (rewrite I'; apply list_lookup_insert_eq; by eapply lookup_lt_Some).
  assert (Hle : 0 <= f_offset f <= i_size x) by (destruct Hz2; lia). exists y. split.
  - split; try done; [by rewrite Hff|]. rewrite Hsz. unfold PIPSIZ in *. lia.
  - rewrite <- Ec. unfold contents. rewrite Hsz, Es. replace (i_size x + m - f_offset f) with ((i_size x - f_offset f) + m) by lia.
    rewrite seqZ_app, fmap_app by lia. f_equal.
    + apply list_fmap_ext. intros j k Hk. apply list_elem_of_lookup_2, elem_of_seqZ in Hk.
      rewrite By by (unfold FILEMAX, BSIZE, PIPSIZ in *; lia).
      destruct (Z.leb_spec (u_offset s2) k), (Z.ltb_spec k (u_offset s2 + m)); cbn [andb]; lia || done.
    + apply list_eq. intros j. rewrite !list_lookup_fmap. replace (f_offset f + (i_size x - f_offset f)) with (i_size x) by lia.
      destruct (decide (Z.of_nat j < m)) as [Hj|Hj]; [|by rewrite !lookup_seqZ_ge by lia].
      rewrite !lookup_seqZ_lt by lia. simpl. f_equal. rewrite By by (unfold FILEMAX, BSIZE, PIPSIZ in *; lia).
      destruct (Z.leb_spec (u_offset s2) (i_size x + Z.of_nat j)), (Z.ltb_spec (i_size x + Z.of_nat j) (u_offset s2 + m)); try lia.
      cbn [andb]. do 2 f_equal. lia.
Qed.

Lemma pipe_same rf addr L x f s s' : pipe_ok rf addr L x f s -> store s' = store s -> mounts s' = mounts s ->
  inodes s' = inodes s -> files s' = files s -> pipe_ok rf addr L x f s'.
Proof.
  intros [F D Hx Hr Hc Hf Ho Hz] ES EM EI EF. split; rewrite ?ES, ?EI, ?EF; try done.
  destruct F as [V X T]. split; [|by rewrite EI|by rewrite ES]. eapply volume_ext; [exact V|done|by rewrite ES|by rewrite ES].
Qed.

(** The wakeup of a sleeping reader or writer: a mode bit goes. *)
Lemma wake_run rf addr L x f s bit ch : pipe_ok rf addr L x f s -> Z.land (Z.lnot bit) IFMT = IFMT -> exists s' y,
  (if i_mode x &? bit then modip ip (fun x => set_i_mode (i_mode x &~ bit) x);; wakeup ch else mret tt) s = Done tt s' /\
  pipe_ok rf addr L y f s' /\ i_flag y = i_flag x /\ contents s' addr y f = contents s addr x f /\
  u_error s' = u_error s /\ u_count s' = u_count s /\ rest s' = rest s /\ umem s' = umem s /\ ours s' = ours s.
Proof.
  intros P Hb. destruct (i_mode x &? bit); [|by exists s, x]. pose proof (pp_inode _ _ _ _ _ _ P) as Hx.
  destruct (touched_modip (fun x => set_i_mode (i_mode x &~ bit) x) s x Hx) as (s1 & E1 & T1).
  pose proof (touched_at _ _ _ _ Hx T1) as Hx1. destruct (touched_wakeup ch s1 _ Hx1) as (s2 & E2 & T2).
  rewrite (kbind_run _ _ _ _ _ E1). pose proof (touched_trans _ _ _ _ _ T1 T2) as T.
  destruct (touched_pipe _ _ _ _ _ _ _ _ P T) as [P' C']; try done.
  { simpl. unfold clr. by rewrite <- Z.land_assoc, Hb. }
  exists s2, (set_i_mode (i_mode x &~ bit) x). split; [done|]. split; [done|]. split; [done|]. split; [done|]. by destruct T as [w ->].
Qed.

Lemma release_run rf addr L x f s : pipe_ok rf addr L x f s -> exists s' y, prele ip s = Done tt s' /\ pipe_ok rf addr L y f s' /\
  (i_flag y &? ILOCK) = false /\ contents s' addr y f = contents s addr x f /\ i_mode y = i_mode x /\
  u_error s' = u_error s /\ u_count s' = u_count s /\ rest s' = rest s /\ umem s' = umem s /\ ours s' = ours s.
Proof.
  intros P. destruct (prele_run s x (pp_inode _ _ _ _ _ _ P)) as (fl & s1 & E1 & T1 & Hl).
  destruct (touched_pipe _ _ _ _ _ _ _ _ P T1) as [P1 C1]; try done.
  exists s1, (set_i_flag fl x). split_and!; try done; by destruct T1 as [w ->].
Qed.

(** The bytes of the user's area from [a] on. *)
Definition area (s : kern S) (a n : Z) : list Z := (fun b => Z.land (umem s b) 255) <$> seqZ a n.

(** With nothing to go the writer returns. *)
Lemma turn_return rf addr L x f s : pipe_ok rf addr L x f s -> (i_flag x &? ILOCK) = false ->
  exists s' y, writep_turn cdev_write ip 0 s = Done WReturn s' /\ pipe_ok rf addr L y f s' /\ (i_flag y &? ILOCK) = false /\
    contents s' addr y f = contents s addr x f /\ u_error s' = u_error s /\ u_count s' = 0.
Proof.
  intros P Hl. pose proof (pp_inode _ _ _ _ _ _ P) as Hx. destruct (plock_run s x Hx Hl) as (s1 & E1 & T1).
  destruct (touched_pipe _ _ _ _ _ _ _ _ P T1) as [P1 C1]; try done.
  unfold writep_turn. rewrite (kbind_run _ _ _ _ _ E1). change (0 =? 0) with true. cbv iota.
  destruct (release_run _ _ _ _ _ _ P1) as (s2 & y & E2 & P2 & Hl2 & C2 & _ & Ee2 & _).
  rewrite (kbind_run _ _ _ _ _ E2). exists (set_u_count 0 s2), y. split; [done|]. split; [by eapply pipe_same|]. split; [done|].
  split; [by rewrite <- C1, <- C2|]. split; [|done]. simpl. rewrite Ee2. by destruct T1 as [w ->].
Qed.

(** At a full pipe the writer asks for a wakeup and waits; nothing is lost. *)
Lemma turn_wait rf addr L x f s c : pipe_ok rf addr L x f s -> (i_flag x &? ILOCK) = false -> c <> 0 -> PIPSIZ <= i_size x ->
  exists s' y, writep_turn cdev_write ip c s = Done WWait s' /\ pipe_ok rf addr L y f s' /\ (i_flag y &? ILOCK) = false /\
    i_mode y &? IWRITE = true /\ contents s' addr y f = contents s addr x f /\ u_error s' = u_error s /\ ours s' = ours s.
Proof.
  intros P Hl Hc Hfull. pose proof (pp_inode _ _ _ _ _ _ P) as Hx. destruct (plock_run s x Hx Hl) as (s1 & E1 & T1).
  destruct (touched_pipe _ _ _ _ _ _ _ _ P T1) as [P1 C1]; try done. set (x1 := set_i_flag _ x) in *.
  destruct (touched_modip (fun x => set_i_mode (i_mode x |: IWRITE) x) s1 x1 (pp_inode _ _ _ _ _ _ P1)) as (s2 & E2 & T2).
  destruct (touched_pipe _ _ _ _ _ _ _ _ P1 T2) as [P2 C2]; try done.
  { simpl. by rewrite Z.land_lor_distr_l, Z.lor_0_r. }
  destruct (release_run _ _ _ _ _ _ P2) as (s3 & y & E3 & P3 & Hl3 & C3 & Hm3 & Ee3 & _ & _ & _ & Eo3). exists s3, y. split_and!; try done.
  - unfold writep_turn. rewrite (kbind_run _ _ _ _ _ E1), (proj2 (Z.eqb_neq c 0) Hc), (kbind_run _ _ _ _ _ (getip_run _ _ _ (pp_inode _ _ _ _ _ _ P1))).
    rewrite (pp_ends _ _ _ _ _ _ P1). change (2 <? 2) with false. cbv iota. change (i_size x1) with (i_size x). rewrite (proj2 (Z.leb_le _ _) Hfull).
    by rewrite (kbind_run _ _ _ _ _ E2), (kbind_run _ _ _ _ _ E3).
  - rewrite Hm3. simpl. by rewrite tst_lor, orb_true_r.
  - by rewrite C3, C2, C1.
  - rewrite Ee3. destruct T2 as [? ->], T1 as [? ->]. done.
  - rewrite Eo3. destruct T2 as [? ->], T1 as [? ->]. done.
Qed.

(** Otherwise it appends up to [PIPSIZ] bytes, and goes on with the rest. *)
Lemma turn_append rf addr L x f s c : pipe_ok rf addr L x f s -> (i_flag x &? ILOCK) = false -> i_size x < PIPSIZ -> 0 < c ->
  u_error s = 0 -> u_segflg s <> 1 -> user_mapped s (u_base s) (Z.min c PIPSIZ) = true ->
  exists m s' addr' L' y, writep_turn cdev_write ip c s = Done (WAgain (c - Z.min c PIPSIZ)) s' /\ pipe_ok rf addr' L' y f s' /\ (i_flag y &? ILOCK) = false /\
    contents s' addr' y f = contents s addr x f ++ area s (u_base s) m /\ ours s' = (u_base s + m, u_segflg s, umap s, umem s) /\
    (m = Z.min c PIPSIZ /\ u_error s' = 0 \/ 0 <= m < Z.min c PIPSIZ /\ u_error s' = ENOSPC /\ L' = []).
Proof.
  intros P Hl Hsz Hc He Hseg Hmap. set (k := Z.min c PIPSIZ) in *. assert (Hk : 0 < k <= PIPSIZ) by (unfold k, PIPSIZ; lia).
  pose proof (pp_inode _ _ _ _ _ _ P) as Hx.
  destruct (plock_run s x Hx Hl) as (s1 & E1 & T1). destruct (touched_pipe _ _ _ _ _ _ _ _ P T1) as [P1 C1]; try done.
  set (x1 := set_i_flag _ x) in *. set (s2 := set_u_count k (set_u_offset (i_size x) s1)).
  assert (P2 : pipe_ok rf addr L x1 f s2) by (by eapply pipe_same).
  assert (Hsame : u_base s2 = u_base s /\ umem s2 = umem s /\ umap s2 = umap s /\ u_error s2 = u_error s /\ u_segflg s2 = u_segflg s)
    by (destruct T1 as [w ->]; done). destruct Hsame as (Hb2 & Hm2 & Hp2 & He2 & Hs2).
  assert (Hx2 : inodes s2 !! ip = Some x1) by apply P2.
  pose proof (pp_size _ _ _ _ _ _ P) as Hz. pose proof (pp_offset _ _ _ _ _ _ P) as Ho.
  destruct (writei_run cdev_write dev mp ip addr L x1 s2 (pp_file _ _ _ _ _ _ P2) (pp_data _ _ _ _ _ _ P2) Hx2
    (pipe_reg_mode _ (pp_reg _ _ _ _ _ _ P2))) as (s3 & a3 & L3 & E3 & m & Hm & W & Hend).
  { split; [congruence|congruence|simpl; lia|]. unfold user_mapped. change (u_count s2) with k. by rewrite Hp2, Hb2. }
  { simpl. lia. } { simpl. unfold FILEMAX, BSIZE, PIPSIZ in *. lia. } change (u_count s2) with k in *.
  destruct (wrote_contents rf addr L x f s x1 s2 m s3 a3 L3 P P2 C1 eq_refl Hsz ltac:(lia) eq_refl W) as (y & P3 & C3).
  destruct (release_run _ _ _ _ _ _ P3) as (s4 & y4 & E4 & P4 & Hl4 & C4 & Hy4 & Ee4 & _ & _ & _ & Eo4).
  destruct (wake_run rf a3 L3 y4 f s4 IREAD (ChPipe ip 2) P4 eq_refl) as (s5 & y5 & E5 & P5 & Hf5 & C5 & Ee5 & _ & _ & _ & Eo5).
  exists m, s5, a3, L3, y5. split_and!; try done.
  - unfold writep_turn. rewrite (kbind_run _ _ _ _ _ E1), (proj2 (Z.eqb_neq c 0) ltac:(lia)).
    rewrite (kbind_run _ _ _ _ _ (getip_run _ _ _ (pp_inode _ _ _ _ _ _ P1))).
    rewrite (pp_ends _ _ _ _ _ _ P1). change (2 <? 2) with false. cbv iota. change (i_size x1) with (i_size x).
    rewrite (proj2 (Z.leb_gt _ _) Hsz). fold k. rewrite (kbind_run _ _ tt s1 s2) by done.
    by rewrite (kbind_run _ _ _ _ _ E3), (kbind_run _ _ _ _ _ E4), (kbind_run _ _ _ _ _ (getip_run _ _ _ (pp_inode _ _ _ _ _ _ P4))), (kbind_run _ _ _ _ _ E5).
  - by rewrite Hf5.
  - unfold area. rewrite C5, C4, C3, Hm2, Hb2. done.
  - rewrite Eo5, Eo4. unfold ours. destruct W as [_ _ WB WS WM WE _ _ _ _ _ _ _ _]. rewrite WB, WS, WM, WE, Hb2, Hs2, Hp2, Hm2. done.
  - destruct Hend as [[-> Hu]|(Hlt & Hu & ->)]; [left|right]; (split; [lia || done|]); [|split; [|done]]; congruence.
Qed.

(** What happens while the writer sleeps: readers take [out], nobody else writes, and its user's area stays. *)
Definition drained (rf : nat) (s1 s2 : kern S) (out : list Z) : Prop := exists addr L x f addr' L' x' f',
  pipe_ok rf addr L x f s1 /\ pipe_ok rf addr' L' x' f' s2 /\ (i_flag x' &? ILOCK) = false /\
  contents s1 addr x f = out ++ contents s2 addr' x' f' /\ u_error s2 = u_error s1 /\ ours s2 = ours s1.

(** A whole write of [c] bytes: the turns of [writep], with what readers take while it
    sleeps.  A turn that met [ENOSPC] is the last one with bytes to go. *)
Inductive writing (rf : nat) : Z -> kern S -> list Z -> kern S -> Prop :=
  | wg_return c s s' : writep_turn cdev_write ip c s = Done WReturn s' -> writing rf c s [] s'
  | wg_wait c s s1 s2 out out' s' : writep_turn cdev_write ip c s = Done WWait s1 -> drained rf s1 s2 out ->
      writing rf c s2 out' s' -> writing rf c s (out ++ out') s'
  | wg_again c s c' s1 out s' : writep_turn cdev_write ip c s = Done (WAgain c') s1 -> u_error s1 = 0 \/ c' = 0 ->
      writing rf c' s1 out s' -> writing rf c s out s'.

Lemma pipe_unique rf addr L x f addr' L' x' f' s : pipe_ok rf addr L x f s -> pipe_ok rf addr' L' x' f' s -> contents s addr x f = contents s addr' x' f'.
Proof.
  intros P P'. destruct (fi_inode _ _ _ _ _ _ (pp_file _ _ _ _ _ _ P)) as (z & Hz & _ & <-). destruct (fi_inode _ _ _ _ _ _ (pp_file _ _ _ _ _ _ P')) as (z' & Hz' & _ & <-).
  pose proof (pp_inode _ _ _ _ _ _ P). pose proof (pp_inode _ _ _ _ _ _ P'). destruct (pp_reader _ _ _ _ _ _ P), (pp_reader _ _ _ _ _ _ P'). by simplify_eq.
Qed.

Lemma area_split (s : kern S) a m n : 0 <= m -> 0 <= n -> area s a (m + n) = area s a m ++ area s (a + m) n.
Proof. intros Hm Hn. unfold area. by rewrite seqZ_app, fmap_app. Qed.

(** With nothing to go a write is over. *)
Lemma writing_end rf addr L x f s out s' : pipe_ok rf addr L x f s -> (i_flag x &? ILOCK) = false -> writing rf 0 s out s' ->
  exists y, pipe_ok rf addr L y f s' /\ (i_flag y &? ILOCK) = false /\ u_count s' = 0 /\ out ++ contents s' addr y f = contents s addr x f /\ u_error s' = u_error s.
Proof.
  intros P Hl Hw. destruct (turn_return _ _ _ _ _ _ P Hl) as (s1 & y & E & P1 & Hl1 & C1 & Ee & Hc).
  inversion Hw as [c0 ? ? E1|c0 ? ? ? ? ? ? E1|c0 ? ? ? ? ? E1]; subst; rewrite E in E1; try done. injection E1 as <-. exists y. by split_and!.
Qed.

(** What a turn comes to. *)
Definition turned (c : Z) (x : inode) : wturn :=
  if c =? 0 then WReturn else if PIPSIZ <=? i_size x then WWait else WAgain (c - Z.min c PIPSIZ).

Lemma mapped_part (s : kern S) a n m : 0 <= m <= n -> user_mapped s a n = true -> user_mapped s a m = true /\ user_mapped s (a + m) (n - m) = true.
Proof.
  intros Hm. unfold user_mapped. replace n with (m + (n - m)) at 1 by lia. rewrite seqZ_app by lia. rewrite forallb_app. by intros []%andb_true_iff.
Qed.

Lemma writing_run rf c s out s' : writing rf c s out s' -> forall addr L x f, pipe_ok rf addr L x f s -> (i_flag x &? ILOCK) = false -> 0 <= c ->
  u_error s = 0 -> u_segflg s <> 1 -> user_mapped s (u_base s) c = true ->
  exists m addr' L' y f', pipe_ok rf addr' L' y f' s' /\ (i_flag y &? ILOCK) = false /\ u_count s' = 0 /\
    out ++ contents s' addr' y f' = contents s addr x f ++ area s (u_base s) m /\
    (m = c /\ u_error s' = 0 \/ 0 <= m < c /\ u_error s' = ENOSPC).
Proof.
  intros Hw. induction Hw as [c s s' E|c s s1 s2 out out' s' E Hd Hw IH|c s c' s1 out s' E Hok Hw IH]; intros addr L x f P Hl Hc He Hseg Hmap.
  - assert (c = 0) as ->.
    { destruct (Z.eq_dec c 0) as [|Hn]; [done|exfalso]. destruct (Z_lt_le_dec (i_size x) PIPSIZ) as [Hs|Hs].
      - destruct (turn_append _ _ _ _ _ _ c P Hl Hs ltac:(lia) He Hseg) as (m & s1 & a & L1 & y & E1 & _); [by apply (mapped_part _ _ c); [unfold PIPSIZ; lia|]|congruence].
      - destruct (turn_wait _ _ _ _ _ _ c P Hl Hn Hs) as (s1 & y & E1 & _). congruence. }
    destruct (writing_end _ _ _ _ _ _ _ _ P Hl (wg_return _ _ _ _ E)) as (y & P1 & Hl1 & Hc1 & C1 & Ee1).
    exists 0, addr, L, y, f. split_and!; try done; [|left; split; [done|congruence]]. unfold area. by rewrite C1, app_nil_r.
  - assert (Hn : c <> 0) by (intros ->; destruct (turn_return _ _ _ _ _ _ P Hl) as (? & ? & E1 & _); congruence).
    assert (Hs : PIPSIZ <= i_size x).
    { destruct (Z_lt_le_dec (i_size x) PIPSIZ) as [Hs|Hs]; [exfalso|done].
      destruct (turn_append _ _ _ _ _ _ c P Hl Hs ltac:(lia) He Hseg) as (m & s3 & a & L1 & y & E1 & _); [by apply (mapped_part _ _ c); [unfold PIPSIZ; lia|]|congruence]. }
    destruct (turn_wait _ _ _ _ _ _ c P Hl Hn Hs) as (s3 & y & E3 & P3 & Hl3 & _ & C3 & Ee3 & Eo3). rewrite E in E3. injection E3 as <-.
    destruct Hd as (a1 & L1 & x1 & f1 & a2 & L2 & x2 & f2 & Q1 & Q2 & Hl2 & C2 & Ee2 & Eo2). rewrite Eo3 in Eo2. injection Eo2 as Eb Es Em Eu.
    destruct (IH a2 L2 x2 f2 Q2 Hl2 Hc) as (m & a' & L' & y' & f' & P' & Hl' & Hc' & C' & Hm); [congruence|congruence|unfold user_mapped; by rewrite Eb, Em|].
    exists m, a', L', y', f'. split_and!; try done. rewrite <- app_assoc, C', app_assoc, <- C2, (pipe_unique _ _ _ _ _ _ _ _ _ _ Q1 P3), C3.
    unfold area. by rewrite Eb, Eu.
  - assert (Hn : c <> 0) by (intros ->; destruct (turn_return _ _ _ _ _ _ P Hl) as (? & ? & E1 & _); congruence).
    assert (Hs : i_size x < PIPSIZ).
    { destruct (Z_lt_le_dec (i_size x) PIPSIZ) as [Hs|Hs]; [done|exfalso]. destruct (turn_wait _ _ _ _ _ _ c P Hl Hn Hs) as (? & ? & E1 & _). congruence. }
    set (k := Z.min c PIPSIZ) in *. assert (Hk : 0 < k <= c) by (unfold k, PIPSIZ; lia). destruct (mapped_part _ _ c k ltac:(lia) Hmap) as [M1 M2].
    destruct (turn_append _ _ _ _ _ _ c P Hl Hs ltac:(lia) He Hseg M1) as (m & s3 & a & L1 & y & E1 & P1 & Hl1 & C1 & Eo & Hm).
    rewrite E in E1. injection E1 as -> <-. fold k in IH, Hok, Hw. injection Eo as Eb Es Em Eu. destruct Hm as [[-> Hu]|(Hlt & Hu & _)].
    + fold k in Eb, C1. destruct (IH a L1 y f P1 Hl1 ltac:(lia) Hu) as (m' & a' & L' & y' & f' & P' & Hl' & Hc' & C' & Hm'); [congruence|unfold user_mapped; by rewrite Eb, Em|].
      exists (k + m'), a', L', y', f'. split_and!; try done; [|destruct Hm' as [[-> ?]|[? ?]]; [left|right]; (split; [lia|done])].
      rewrite C', C1, <- app_assoc. f_equal. rewrite area_split by lia. f_equal. unfold area. by rewrite Eb, Eu.
    + destruct Hok as [|H0]; [rewrite Hu in *; done|]. rewrite H0 in Hw. destruct (writing_end _ _ _ _ _ _ _ _ P1 Hl1 Hw) as (y' & P' & Hl' & Hc' & C' & Ee').
      exists m, a, L1, y', f. split_and!; try done; [by rewrite C', C1|]. right. split; [lia|congruence].
Qed.

(** C19. A write to a pipe with a reader appends, whatever its length.  A turn of [writep]
    always comes to an end: it returns when no byte is left, waits when the pipe is full, and
    otherwise takes the next [PIPSIZ] bytes or the rest.  When readers take [out] from
    the front while the writer sleeps, then by the time it returns what they took and what
    the pipe holds are what the pipe held first and then, in order, all bytes of the
    user's area; or as many as the volume had room for, with [ENOSPC] in the last turn.  The
    pipe is left unlocked, and never holds [2 * PIPSIZ] bytes. *)
Theorem writep_appends rf addr L x f c s : pipe_ok rf addr L x f s -> (i_flag x &? ILOCK) = false -> 0 <= c ->
  u_error s = 0 -> u_segflg s <> 1 -> user_mapped s (u_base s) c = true ->
  (exists s1, writep_turn cdev_write ip c s = Done (turned c x) s1) /\
  (forall out s', writing rf c s out s' -> exists m addr' L' y f', pipe_ok rf addr' L' y f' s' /\ (i_flag y &? ILOCK) = false /\ u_count s' = 0 /\
    out ++ contents s' addr' y f' = contents s addr x f ++ area s (u_base s) m /\
    (m = c /\ u_error s' = 0 \/ 0 <= m < c /\ u_error s' = ENOSPC)).
Proof.
  intros P Hl Hc He Hseg Hmap. split; [|intros out s' Hw; by eapply writing_run].
  unfold turned. destruct (Z.eqb_spec c 0) as [->|Hn]; [destruct (turn_return _ _ _ _ _ _ P Hl) as (s1 & y & E & _); by exists s1|].
  destruct (Z.leb_spec PIPSIZ (i_size x)) as [Hs|Hs]; [destruct (turn_wait _ _ _ _ _ _ c P Hl Hn Hs) as (s1 & y & E & _); by exists s1|].
  destruct (turn_append _ _ _ _ _ _ c P Hl Hs ltac:(lia) He Hseg) as (m & s1 & a & L1 & y & E & _); [by apply (mapped_part _ _ c); [unfold PIPSIZ; lia|]|by exists s1].
Qed.

Lemma moved_pipe rf addr L x f n s s' : pipe_ok rf addr L x f s -> moved dev mp ip addr L x n s s' ->
  exists v, pipe_ok rf addr L (set_i_lastr v x) f s' /\ contents s' addr (set_i_lastr v x) f = contents s addr x f.
Proof.
  intros [F D Hx Hr Hc Hf Ho Hz] M. destruct (moved_file dev mp ip _ _ _ _ _ _ F (d_whole _ _ _ D) Hx M) as (F' & _ & v & Hx').
  pose proof (mv_store _ _ _ _ _ _ _ _ _ M) as G. pose proof (mv_rest _ _ _ _ _ _ _ _ _ M) as X.
  assert (Hff : files s' = files s) by (unfold rest in X; by injection X).
  exists v. split; [split; try done|].
  - eapply data_ok_ext; [apply F|intros; apply G|done].
  - by rewrite Hff.
  - unfold contents. simpl. apply list_fmap_ext. intros j k Hk. apply list_elem_of_lookup_2, elem_of_seqZ in Hk.
    apply (fbyte_ext _ _ _ L); [apply F|intros; apply G|]. unfold FILEMAX, BSIZE, PIPSIZ in *. lia.
Qed.

(** The reader's offset moves, the rest of the pipe stays. *)
Lemma reader_run rf addr L x f s n : pipe_ok rf addr L x f s -> 0 <= n -> f_offset f + n < i_size x ->
  exists s', modfile rf (set_f_offset (f_offset f + n)) s = Done tt s' /\ s' = set_files (alter (set_f_offset (f_offset f + n)) rf (files s)) s /\
    pipe_ok rf addr L x (set_f_offset (f_offset f + n) f) s' /\
    contents s' addr x (set_f_offset (f_offset f + n) f) = drop (Z.to_nat n) (contents s addr x f).
Proof.
  intros [F D Hx Hr Hc [Hf Hfi] Ho Hz] Hn Hlt. eexists. split; [done|]. split; [done|]. split.
  - split; simpl; try done; [| |lia|lia].
    + destruct F as [V X T]. split; [by eapply volume_ext; [exact V|..]|done|done].
    + split; [|done]. by rewrite list_lookup_alter_eq, Hf.
  - unfold contents. simpl. rewrite <- fmap_drop. f_equal. apply list_eq. intros j. rewrite lookup_drop.
    destruct (decide (Z.of_nat j < i_size x - f_offset f - n)).
    + rewrite !lookup_seqZ_lt by lia. f_equal. lia.
    + by rewrite !lookup_seqZ_ge by lia.
Qed.

(** The reader has caught up: both go back to 0. *)
Lemma emptied_run rf addr L x f s o : pipe_ok rf addr L x f s ->
  pipe_ok rf addr L (set_i_size 0 x) (set_f_offset 0 f)
    (set_inodes (alter (set_i_size 0) ip (inodes s)) (set_files (alter (set_f_offset 0) rf (alter (set_f_offset o) rf (files s))) s)).
Proof.
  intros [F D Hx Hr Hc [Hf Hfi] Ho Hz]. split; simpl; try done; [| | |by right].
  - destruct F as [V (x' & Hx' & Hd & Ha) T]. assert (x' = x) as -> by congruence.
    split; [by eapply volume_ext; [exact V|..]| |done]. exists (set_i_size 0 x). simpl. by rewrite list_lookup_alter_eq, Hx.
  - by rewrite list_lookup_alter_eq, Hx.
  - by rewrite !list_lookup_alter_eq, Hf.
Qed.

(** What [readp] does once it has read [n] bytes. *)
Lemma readp_tail rf addr L x f s n : pipe_ok rf addr L x f s -> 0 < n -> f_offset f + n <= i_size x -> u_offset s = f_offset f + n ->
  exists s' y f', (off ← gets u_offset;
    modfile rf (set_f_offset off);;
    x ← getip ip;
    (if off =? i_size x then
       modfile rf (set_f_offset 0);;
       modip ip (set_i_size 0);;
       x ← getip ip;
       if i_mode x &? IWRITE
       then modip ip (fun x => set_i_mode (i_mode x &~ IWRITE) x);; wakeup (ChPipe ip 1)
       else mret tt
     else mret tt);;
    prele ip) s = Done tt s' /\ pipe_ok rf addr L y f' s' /\ (i_flag y &? ILOCK) = false /\
  contents s' addr y f' = drop (Z.to_nat n) (contents s addr x f) /\ u_error s' = u_error s /\ u_count s' = u_count s /\ umem s' = umem s.
Proof.
  intros P Hn Hle Ho. pose proof (pp_inode _ _ _ _ _ _ P) as Hx. rewrite kgets_run, Ho.
  destruct (Z.eqb_spec (f_offset f + n) (i_size x)) as [Heq|Hne].
  - set (s1 := set_files (alter (set_f_offset (f_offset f + n)) rf (files s)) s). rewrite (kbind_run _ _ tt s s1) by done.
    assert (Hx1 : inodes s1 !! ip = Some x) by done. rewrite (kbind_run _ _ _ _ _ (getip_run _ _ _ Hx1)).
    destruct (Z.eqb_spec (f_offset f + n) (i_size x)); [|done].
    pose proof (emptied_run rf addr L x f s (f_offset f + n) P) as P2.
    set (s2 := set_inodes (alter (set_i_size 0) ip (inodes s)) (set_files (alter (set_f_offset 0) rf (alter (set_f_offset (f_offset f + n)) rf (files s))) s)) in *.
    destruct (wake_run _ _ _ _ _ s2 IWRITE (ChPipe ip 1) P2 eq_refl) as (s3 & y & E3 & P3 & Hf3 & C3 & Ee3 & Ec3 & _ & Eu3 & _).
    rewrite (kbind_run _ _ tt s1 s3).
    2:{ rewrite (kbind_run _ _ tt s1 (set_files (alter (set_f_offset 0) rf (files s1)) s1)) by done.
        rewrite (kbind_run _ _ tt _ s2) by done. rewrite (kbind_run _ _ _ _ _ (getip_run _ _ _ (pp_inode _ _ _ _ _ _ P2))). exact E3. }
    destruct (release_run _ _ _ _ _ _ P3) as (s4 & y4 & E4 & P4 & Hl4 & C4 & _ & Ee4 & Ec4 & _ & Eu4 & _).
    exists s4, y4, (set_f_offset 0 f). split_and!; try done; [|by rewrite Ee4, Ee3|by rewrite Ec4, Ec3|by rewrite Eu4, Eu3].
    rewrite C4, C3. unfold contents. simpl. rewrite <- fmap_drop, drop_ge; [done|]. rewrite length_seqZ. lia.
  - destruct (reader_run rf addr L x f s n P ltac:(lia) ltac:(lia)) as (s1 & E1 & -> & P1 & C1). rewrite (kbind_run _ _ _ _ _ E1).
    rewrite (kbind_run _ _ _ _ _ (getip_run _ _ _ (pp_inode _ _ _ _ _ _ P1))). destruct (Z.eqb_spec (f_offset f + n) (i_size x)); [done|].
    rewrite kret_run. destruct (release_run _ _ _ _ _ _ P1) as (s4 & y4 & E4 & P4 & Hl4 & C4 & _ & Ee4 & Ec4 & _ & Eu4 & _).
    exists s4, y4, (set_f_offset (f_offset f + n) f). split_and!; try done. by rewrite C4, C1.
Qed.

Lemma readp_run rf addr L x f s : pipe_ok rf addr L x f s -> (i_flag x &? ILOCK) = false -> i_size x <> 0 -> 0 < u_count s ->
  u_error s = 0 -> u_segflg s <> 1 -> user_mapped s (u_base s) (u_count s) = true ->
  let q := contents s addr x f in let n := Z.min (u_count s) (Z.of_nat (length q)) in
  exists s' y f', readp cdev_read resid rf s = Done tt s' /\ pipe_ok rf addr L y f' s' /\ (i_flag y &? ILOCK) = false /\
    contents s' addr y f' = drop (Z.to_nat n) q /\ u_count s' = u_count s - n /\ u_error s' = 0 /\
    forall b, umem s' b = if (u_base s <=? b) && (b <? u_base s + n) then q !!! Z.to_nat (b - u_base s) else umem s b.
Proof.
  intros P Hl Hsz Hc He Hseg Hmap q n. pose proof P as [F D Hx Hr Hcn [Hf Hfi] Ho Hz].
  assert (Hlen : Z.of_nat (length q) = i_size x - f_offset f) by (unfold q, contents; rewrite length_fmap, length_seqZ; lia).
  destruct (plock_run s x Hx Hl) as (s1 & E1 & T1). destruct (touched_pipe _ _ _ _ _ _ _ _ P T1) as [P1 C1]; try done.
  set (x1 := set_i_flag _ x) in *. set (s2 := set_u_offset (f_offset f) s1).
  assert (P2 : pipe_ok rf addr L x1 f s2) by (by eapply pipe_same).
  assert (Hsame : u_base s2 = u_base s /\ umem s2 = umem s /\ umap s2 = umap s /\ u_error s2 = u_error s /\ u_segflg s2 = u_segflg s /\
    u_count s2 = u_count s /\ store s2 = store s) by (destruct T1 as [w ->]; done). destruct Hsame as (Hb2 & Hm2 & Hp2 & He2 & Hs2 & Hc2 & Hst).
  destruct (readi_run cdev_read resid dev mp ip addr L x1 s2 (pp_file _ _ _ _ _ _ P2) (d_whole _ _ _ (pp_data _ _ _ _ _ _ P2))
    (pp_inode _ _ _ _ _ _ P2) (pipe_reg_mode _ (pp_reg _ _ _ _ _ _ P2))) as (s3 & E3 & M).
  { simpl. unfold FILEMAX, BSIZE, PIPSIZ in *. lia. }
  { split; [congruence|congruence|simpl; lia|]. unfold user_mapped. by rewrite Hp2, Hb2, Hc2. }
  { lia. }
  set (x2 := set_i_flag (i_flag x1 |: IACC) x1) in *. change (i_size x1) with (i_size x) in M. change (u_offset s2) with (f_offset f) in M.
  replace (Z.min (u_count s2) (Z.max 0 (i_size x - f_offset f))) with n in M by (rewrite Hc2; lia).
  set (s2' := set_inodes _ s2) in *.
  assert (T2 : touched x2 s2 s2').
  { exists (wakes s2). unfold s2', x2. by rewrite (alter_insert _ _ _ _ (pp_inode _ _ _ _ _ _ P2)). }
  destruct (touched_pipe _ _ _ _ _ _ _ _ P2 T2) as [P2' C2']; try done.
  destruct (moved_pipe _ _ _ _ _ _ _ _ P2' M) as (v & P3 & C3). pose proof M as [MC MO _ _ _ ME MU _ _ _ _].
  destruct (readp_tail rf addr L _ f s3 n P3) as (s4 & y & f' & E4 & P4 & Hl4 & C4 & Ee4 & Ec4 & Eu4).
  { lia. } { simpl. lia. } { rewrite MO. done. }
  exists s4, y, f'. split_and!; try done.
  - unfold readp. rewrite (kbind_run _ _ _ _ _ (pipe_inode_run _ _ _ Hf Hfi)), (kbind_run _ _ _ _ _ E1).
    rewrite (kbind_run _ _ _ _ _ (getip_run _ _ _ (pp_inode _ _ _ _ _ _ P1))). change (i_size x1) with (i_size x).
    destruct (Z.eqb_spec (i_size x) 0); [done|]. destruct (pp_reader _ _ _ _ _ _ P1) as [Hf1 _].
    rewrite (kbind_run _ _ _ _ _ (getfile_run _ _ _ Hf1)), (kbind_run _ _ tt s1 s2) by done. rewrite (kbind_run _ _ _ _ _ E3). exact E4.
  - rewrite C4, C3, C2'. f_equal. exact C1.
  - rewrite Ec4, MC. change (u_count s2') with (u_count s2). by rewrite Hc2.
  - rewrite Ee4, ME. change (u_error s2') with (u_error s2). congruence.
  - intros b. rewrite Eu4, MU. change (u_base s2') with (u_base s2). change (umem s2') with (umem s2). rewrite Hb2, Hm2.
    destruct (Z.leb_spec (u_base s) b), (Z.ltb_spec b (u_base s + n)); cbn [andb]; try done.
    symmetry. apply list_lookup_total_correct. unfold q, contents. rewrite list_lookup_fmap, lookup_seqZ_lt by lia. simpl. f_equal.
    change (store s1) with (store s2). rewrite Hst. f_equal. lia.
Qed.

(** C20. A read from a pipe that holds something takes from its front: [readp] returns with
    the first bytes of the pipe, as many as asked for and as there are, in the user's area
    in their order, nothing else of the user's memory changed, and what stays in the pipe is
    the rest; when that is nothing the file is empty and a waiting writer is woken. *)
Theorem readp_takes rf addr L x f s : pipe_ok rf addr L x f s -> (i_flag x &? ILOCK) = false -> i_size x <> 0 -> 0 < u_count s ->
  u_error s = 0 -> u_segflg s <> 1 -> user_mapped s (u_base s) (u_count s) = true ->
  let q := contents s addr x f in let n := Z.min (u_count s) (Z.of_nat (length q)) in
  exists s' y f', readp cdev_read resid rf s = Done tt s' /\ pipe_ok rf addr L y f' s' /\ (i_flag y &? ILOCK) = false /\
    contents s' addr y f' = drop (Z.to_nat n) q /\ u_count s' = u_count s - n /\ u_error s' = 0 /\
    forall b, umem s' b = if (u_base s <=? b) && (b <? u_base s + n) then q !!! Z.to_nat (b - u_base s) else umem s b.
Proof. apply readp_run. Qed.

(** A reader that runs while the writer sleeps, with a user's area of its own. *)
Lemma readp_drains rf addr L x f s1 sr sr' s2 : pipe_ok rf addr L x f s1 -> (i_flag x &? ILOCK) = false -> i_size x <> 0 ->
  store sr = store s1 -> mounts sr = mounts s1 -> inodes sr = inodes s1 -> files sr = files s1 ->
  0 < u_count sr -> u_error sr = 0 -> u_segflg sr <> 1 -> user_mapped sr (u_base sr) (u_count sr) = true ->
  readp cdev_read resid rf sr = Done tt sr' ->
  store s2 = store sr' -> mounts s2 = mounts sr' -> inodes s2 = inodes sr' -> files s2 = files sr' -> u_error s2 = u_error s1 -> ours s2 = ours s1 ->
  drained rf s1 s2 (take (Z.to_nat (u_count sr)) (contents s1 addr x f)).
Proof.
  intros P Hl Hz E1 E2 E3 E4 Hc He Hseg Hmap Er F1 F2 F3 F4 Ee Eo. assert (Pr : pipe_ok rf addr L x f sr) by (by eapply pipe_same).
  assert (Cr : contents sr addr x f = contents s1 addr x f) by (unfold contents; by rewrite E1).
  destruct (readp_run _ _ _ _ _ _ Pr Hl Hz Hc He Hseg Hmap) as (s' & y & f' & E' & P' & Hl' & C' & _). rewrite Er in E'. injection E' as <-.
  exists addr, L, x, f, addr, L, y, f'. split_and!; try done; [by eapply pipe_same|].
  assert (C2 : contents s2 addr y f' = contents sr' addr y f') by (unfold contents; by rewrite F1). rewrite C2, C', Cr.
  set (q := contents s1 addr x f). destruct (Z.min_spec (u_count sr) (Z.of_nat (length q))) as [[? ->]|[? ->]]; [by rewrite take_drop|].
  by rewrite take_ge, Nat2Z.id, drop_all, app_nil_r by lia.
Qed.

End Fifo.

(** ** A pipe with six bytes in it *)

Definition pipe1 : inode := Inode IACC 2 7 5 IFREG 0 0 0 10 [11; 0; 0; 0; 0; 0; 0; 0] 0.
Definition reader1 : file := File (FREAD |: FPIPE) 1 (Some 0%nat) 4.
Definition writer1 : file := File (FWRITE |: FPIPE) 1 (Some 0%nat) 0.
Definition kern_pipe (base n : Z) : kern fstore := set_files [reader1; writer1] (set_inodes [pipe1] (kern_rw base 0 n)).

Lemma kern_pipe_ok base n : pipe_ok 7 1 0 0 [11; 0; 0; 0; 0; 0; 0; 0] [50; 60] pipe1 reader1 (kern_pipe base n).
Proof.
  split; try done; [|apply kern_rw_data|by left].
  destruct (kern_rw_file base 0 n) as [V _ T]. split; [by eapply volume_ext; [exact V|..]|by exists pipe1|exact T].
Qed.

(** A write of a hundred bytes: one turn that appends, one that returns. *)
Lemma kern_pipe_writes : exists s', writing (fun _ => mret tt) 7 1 0 0 100 (kern_pipe 6000 100) [] s'.
Proof.
  destruct (turn_append (fun _ => mret tt) 7 1 0 0 _ _ _ _ (kern_pipe 6000 100) 100 (kern_pipe_ok 6000 100)) as (m & s1 & a & L & y & E1 & P1 & Hl1 & _); try done.
  destruct (turn_return (fun _ => mret tt) 7 1 0 0 _ _ _ _ s1 P1 Hl1) as (s2 & y2 & E2 & _). exists s2.
  eapply wg_again; [exact E1|by right|]. by apply wg_return.
Qed.

Lemma writep_appends_witness : exists s' m addr y f, writing (fun _ => mret tt) 7 1 0 0 100 (kern_pipe 6000 100) [] s' /\ u_count s' = 0 /\
  contents 7 s' addr y f = contents 7 (kern_pipe 6000 100) [11; 0; 0; 0; 0; 0; 0; 0] pipe1 reader1 ++ area (kern_pipe 6000 100) 6000 m.
Proof.
  destruct kern_pipe_writes as (s' & Hw).
  destruct (writep_appends (fun _ => mret tt) 7 1 0 0 _ _ _ _ 100 (kern_pipe 6000 100) (kern_pipe_ok 6000 100)) as [_ Ht]; try done.
  destruct (Ht _ _ Hw) as (m & a & L & y & f & _ & _ & Hc & C & _). exists s', m, a, y, f. by split_and!.
Defined.

Lemma readp_takes_witness : exists s', readp (fun _ => mret tt) (fun _ _ => 0) 0 (kern_pipe 6000 100) = Done tt s' /\ u_count s' = 94.
Proof.
  destruct (readp_takes (fun _ => mret tt) (fun _ _ => 0) 7 1 0 0 _ _ _ _ (kern_pipe 6000 100) (kern_pipe_ok 6000 100)) as (s' & y & f & E & _ & _ & _ & Hc & _);
    try done. by exists s'.
Defined.
