(* ===== verification/Sys2.v ===== *)
(** * System calls on open files: [kernel/sys2.c]

    A call's arguments are parameters; what it returns to the user is in [u_r_val1] and
    [u_r_val2] ([u_r.r_off] is the same word as the first), its error in [u_error]. *)

From S2P Require Import Prelude Param Bytes Resmap Kern Alloc Bmap Inode Frame Fio Rdwri Namei Pipe.

Section Sys2.
Context {S : Type} `{BlockStore S}.
Context (cdev_read cdev_write : Z -> K S unit) (resid : Z -> Z -> Z) (dv : drivers S) (UDENT : Z).
(** Fuel for the characters of a path and for the searches of [ialloc]. *)
Context (fuel : nat).

(** Not a special file: [(ip->i_mode & (IFCHR & IFBLK)) == 0]. *)
Definition lockable (x : inode) : bool := negb (i_mode x &? Z.land IFCHR IFBLK).

Definition rdwr (mode fdes cbuf count : Z) : K S unit :=
  fp ← getf fdes;
  match fp with
  | None => mret tt
  | Some fp =>
      f ← getfile fp;
      if negb (f_flag f &? mode) then error EBADF
      else
        puts (fun s => set_u_segflg 0 (set_u_count count (set_u_base cbuf s)));;
        (if f_flag f &? FPIPE then
           if mode =? FREAD then readp cdev_read resid fp else writep cdev_write fp
         else
           ip ← pipe_inode fp;
           puts (set_u_offset (if f_flag f &? FMP then 0 else f_offset f));;
           x ← getip ip;
           (if lockable x then plock ip else mret tt);;
           (if mode =? FREAD then readi cdev_read resid ip else writei cdev_write ip);;
           x ← getip ip;
           (if lockable x then prele ip else mret tt);;
           f ← getfile fp;
           if negb (f_flag f &? FMP)
           then left ← gets u_count; modfile fp (fun f => set_f_offset (f_offset f + (count - left)) f)
           else mret tt);;
        left ← gets u_count;
        puts (set_u_r_val1 (count - left))
  end.

Definition read : Z -> Z -> Z -> K S unit := rdwr FREAD.
Definition write : Z -> Z -> Z -> K S unit := rdwr FWRITE.

(** The calls of [access] matter for the error they leave. *)
Definition open1 (ip : nat) (mode trf : Z) : K S unit :=
  (if negb (trf =? 2) then
     (if mode &? FREAD then _ ← access ip IREAD; mret tt else mret tt);;
     if mode &? FWRITE then
       _ ← access ip IWRITE;
       x ← getip ip;
       if Z.land (i_mode x) IFMT =? IFDIR then error EISDIR else mret tt
     else mret tt
   else mret tt);;
  e ← gets u_error;
  if negb (e =? 0) then iput ip
  else
    (if trf =? 1 then itrunc ip else mret tt);;
    prele ip;;
    fp ← falloc;
    match fp with
    | None => iput ip
    | Some fp =>
        modfile fp (fun f => set_f_inode (Some ip) (set_f_flag (Z.land mode (FREAD |: FWRITE)) f));;
        i ← gets u_r_val1;
        openi dv ip (Z.land mode FWRITE);;
        e ← gets u_error;
        if e =? 0 then mret tt
        else
          set_ofile (Z.to_nat i) None;;
          modfile fp (fun f => set_f_count (dec8 (f_count f)) f);;
          iput ip
    end.

Definition open (rwmode : Z) : K S unit :=
  ip ← namei uchar fuel 0;
  match ip with
  | None => mret tt
  | Some ip => open1 ip (rwmode + 1) 0
  end.

Definition creat (fmode : Z) : K S unit :=
  ip ← namei uchar fuel 1;
  match ip with
  | Some ip => open1 ip FWRITE 1
  | None =>
      e ← gets u_error;
      if negb (e =? 0) then mret tt
      else
        ip ← maknode cdev_write UDENT fuel (Z.land fmode 4095 &~ ISVTX);
        match ip with
        | None => mret tt
        | Some ip => open1 ip FWRITE 2
        end
  end.

Definition close (fdes : Z) : K S unit :=
  fp ← getf fdes;
  match fp with
  | None => mret tt
  | Some fp =>
      set_ofile (Z.to_nat fdes) None;;
      set_pofile (Z.to_nat fdes) 0;;
      closef dv (Some fp)
  end.

Definition seek (fdes off sbase : Z) : K S unit :=
  fp ← getf fdes;
  match fp with
  | None => mret tt
  | Some fp =>
      f ← getfile fp;
      if f_flag f &? (FPIPE |: FMP) then error ESPIPE
      else
        off ← (if sbase =? 1 then mret (off + f_offset f)
               else if sbase =? 2 then ip ← pipe_inode fp; x ← getip ip; mret (off + i_size x)
               else mret off);
        modfile fp (set_f_offset off);;
        puts (set_u_r_val1 off)
  end.

Definition link (linkname : Z) : K S unit :=
  ip ← namei uchar fuel 0;
  match ip with
  | None => mret tt
  | Some ip =>
      x ← getip ip;
      ok ← (if Z.land (i_mode x) IFMT =? IFDIR then suser else mret true);
      (if (ok : bool) then
         prele ip;;
         puts (set_u_dirp linkname);;
         xp ← namei uchar fuel 1;
         match xp with
         | Some xp => error EEXIST;; iput xp
         | None =>
             e ← gets u_error;
             if negb (e =? 0) then mret tt
             else
               pd ← gets u_pdir;
               match pd with
               | None => wild
               | Some pd =>
                   p ← getip pd;
                   x ← getip ip;
                   if negb (i_dev p =? i_dev x) then iput pd;; error EXDEV
                   else
                     wdir cdev_write UDENT ip;;
                     e ← gets u_error;
                     if e =? 0 then modip ip (fun x => set_i_flag (i_flag x |: ICHG) (set_i_nlink (i_nlink x + 1) x))
                     else mret tt
               end
         end
       else mret tt);;
      iput ip
  end.

Definition mknod (fmode dev : Z) : K S unit :=
  su ← suser;
  ip ← (if (su : bool) then namei uchar fuel 1 else mret None);
  match ip with
  | Some ip => error EEXIST;; iput ip
  | None =>
      e ← gets u_error;
      if negb (e =? 0) then mret tt
      else
        ip ← maknode cdev_write UDENT fuel fmode;
        match ip with
        | None => mret tt
        | Some ip =>
            modip ip (fun x => set_i_addr (<[0%nat := dev]> (i_addr x)) x);;
            iput ip
        end
  end.

Definition saccess (fmode : Z) : K S unit :=
  svuid ← gets u_uid; svgid ← gets u_gid;
  puts (fun s => set_u_gid (u_rgid s) (set_u_uid (u_ruid s) s));;
  ip ← namei uchar fuel 0;
  (match ip with
   | None => mret tt
   | Some ip =>
       (if fmode &? Z.shiftr IREAD 6 then _ ← access ip IREAD; mret tt else mret tt);;
       (if fmode &? Z.shiftr IWRITE 6 then _ ← access ip IWRITE; mret tt else mret tt);;
       (if fmode &? Z.shiftr IEXEC 6 then _ ← access ip IEXEC; mret tt else mret tt);;
       iput ip
   end);;
  puts (fun s => set_u_gid svgid (set_u_uid svuid s)).
End Sys2.

(** ** A negative count *)

Section Negative.
Context {S : Type} `{BlockStore S}.
Context (cdev_read cdev_write : Z -> K S unit) (resid : Z -> Z -> Z).
Context (dev : Z) (mp ip : nat).
Notation disk s := (bs_get (store s) dev).

Lemma file_in_with s s' addr L y : file_in dev mp ip s addr L -> store s' = store s -> mounts s' = mounts s ->
  inodes s' !! ip = Some y -> i_dev y = dev -> i_addr y = addr -> file_in dev mp ip s' addr L.
Proof.
  intros [V X T] ES EM Hy Hd Ha. split; [|by exists y|by rewrite ES].
  eapply volume_ext; [exact V|done|by rewrite ES|by rewrite ES].
Qed.

(** Inside the file [readi] moves the offset by the count, whatever its sign. *)
Lemma readi_negative addr L x s : file_in dev mp ip s addr L -> blocks_whole (disk s) addr -> inodes s !! ip = Some x ->
  Z.land (i_mode x) IFMT = IFREG -> i_size x <= FILEMAX * BSIZE -> ready s -> u_count s < 0 -> u_offset s < i_size x ->
  exists s', readi cdev_read resid ip s = Done tt s' /\
    moved dev mp ip addr L (set_i_flag (i_flag x |: IACC) x) (u_count s)
      (set_inodes (alter (fun x => set_i_flag (i_flag x |: IACC) x) ip (inodes s)) s) s'.
Proof.
  intros F Hw Hx Ht Hsz R Hc Ho. unfold readi. rewrite kgets_run. destruct (Z.eqb_spec (u_count s) 0); [lia|].
  rewrite kgets_run. destruct (Z.ltb_spec (u_offset s) 0); [destruct R; lia|].
  rewrite (kbind_run _ _ _ _ _ (modip_run ip (fun x => set_i_flag (i_flag x |: IACC) x) s)).
  set (s1 := set_inodes _ s). set (x1 := set_i_flag (i_flag x |: IACC) x).
  assert (Hx1 : inodes s1 !! ip = Some x1) by (simpl; by rewrite list_lookup_alter_eq, Hx).
  rewrite (kbind_run _ _ _ _ _ (getip_run _ _ _ Hx1)). cbv zeta. change (i_mode x1) with (i_mode x). rewrite Ht.
  change ((IFREG =? IFCHR) || (IFREG =? IFMPC)) with false. cbv iota.
  pose proof F as [_ (x' & Hx' & Hd & Ha) _]. assert (x' = x) as -> by congruence.
  assert (F1 : file_in dev mp ip s1 addr L) by (by eapply file_in_with).
  assert (R1 : ready s1) by (by destruct R).
  destruct (readi_turn resid dev mp ip (Z.to_nat (u_count s)) IFREG addr L x1 s1 F1 Hw Hx1 eq_refl Hsz R1) as (s2 & M & E); [done|done|].
  change (u_count s1) with (u_count s) in *. change (u_offset s1) with (u_offset s) in *. change (i_size x1) with (i_size x) in *.
  pose proof (Z.mod_pos_bound (u_offset s) BSIZE ltac:(done)).
  replace (Z.min (Z.min (BSIZE - u_offset s mod BSIZE) (u_count s)) (i_size x - u_offset s)) with (u_count s) in * by lia.
  exists s2. split; [|done]. rewrite E, Z.sub_diag. done.
Qed.

(** No call checks that the count is not negative.  [read] of a regular file with a
    negative count, the offset inside the file, returns without an error, its value is that
    negative number, and it has moved the file's offset back by as much: a [read] of -k is
    a seek. *)
Theorem read_negative fdes fp f x addr L cbuf count s : 0 <= fdes < Z.of_nat NOFILE -> u_ofile s !! Z.to_nat fdes = Some (Some fp) ->
  files s !! fp = Some f -> f_inode f = Some ip -> (f_flag f &? FREAD) = true -> (f_flag f &? FPIPE) = false -> (f_flag f &? FMP) = false ->
  file_in dev mp ip s addr L -> blocks_whole (disk s) addr -> inodes s !! ip = Some x -> Z.land (i_mode x) IFMT = IFREG ->
  (i_flag x &? ILOCK) = false -> i_size x <= FILEMAX * BSIZE -> u_error s = 0 -> count < 0 -> 0 <= f_offset f < i_size x ->
  exists s' f', read cdev_read cdev_write resid fdes cbuf count s = Done tt s' /\ u_error s' = 0 /\ u_r_val1 s' = count /\
    files s' !! fp = Some f' /\ f_offset f' = f_offset f + count /\ forall b, umem s' b = umem s b.
Proof.
  intros Hfd Hof Hf Hfi Hrd Hpi Hmp F Hw Hx Ht Hl Hsz He Hc Ho.
  assert (Hlk : forall y, i_mode y = i_mode x -> lockable y = true).
  { intros y Hy. unfold lockable. rewrite Hy. change (Z.land IFCHR IFBLK) with (2 ^ 13). rewrite tst_pow2 by done.
    assert (Hb : Z.testbit (Z.land (i_mode x) IFMT) 13 = false) by (by rewrite Ht). rewrite Z.land_spec in Hb.
    by destruct (Z.testbit (i_mode x) 13). }
  set (s2 := set_u_offset (f_offset f) (set_u_segflg 0 (set_u_count count (set_u_base cbuf s)))).
  destruct (plock_run ip s2 x Hx Hl) as (s3 & E3 & T3). set (x3 := set_i_flag (i_flag x |: ILOCK) x) in *.
  pose proof (touched_at ip x3 s2 s3 x Hx T3) as Hx3.
  assert (Hs3 : store s3 = store s /\ mounts s3 = mounts s /\ u_count s3 = count /\ u_offset s3 = f_offset f /\ u_error s3 = 0 /\
    u_segflg s3 = 0 /\ umem s3 = umem s /\ files s3 = files s) by (by destruct T3 as [w ->]).
  destruct Hs3 as (ES & EM & EC & EO & EE & EG & EU & EF).
  pose proof F as [_ (x' & Hx' & Hd & Ha) _]. assert (x' = x) as -> by congruence.
  assert (F3 : file_in dev mp ip s3 addr L) by (by eapply file_in_with).
  destruct (readi_negative addr L x3 s3 F3) as (s4 & E4 & M4); [by rewrite ES|done|done|done| |lia|simpl; lia|].
  { split; [done|lia|lia|]. unfold user_mapped. rewrite EC. by rewrite seqZ_nil by lia. }
  pose proof M4 as [MC MO _ _ _ ME MU [v MI] _ _ MX].
  set (x4 := set_i_flag (i_flag x3 |: IACC) x3) in *.
  assert (Hx4 : inodes s4 !! ip = Some (set_i_lastr v x4)).
  { rewrite MI. apply list_lookup_insert_eq. simpl. rewrite length_alter. by eapply lookup_lt_Some. }
  destruct (prele_run ip s4 _ Hx4) as (fl & s5 & E5 & T5 & _).
  assert (Hs5 : files s5 = files s /\ u_count s5 = 0 /\ u_error s5 = 0 /\ forall b, umem s5 b = umem s b).
  { assert (EF4 : files s4 = files s) by (rewrite <- EF; unfold rest in MX; by injection MX).
    destruct T5 as [w ->]. simpl. simpl in MC, ME, MU. split_and!; [done|lia|congruence|]. intros b. rewrite MU, EU, EC.
    by destruct (Z.leb_spec (u_base s3) b), (Z.ltb_spec b (u_base s3 + count)); try lia. }
  destruct Hs5 as (EF5 & EC5 & EE5 & EU5).
  eexists _, (set_f_offset (f_offset f + count) f). split.
  - unfold read, rdwr. rewrite (kbind_run _ _ (Some fp) s s).
    2:{ unfold getf. rewrite kgets_run. destruct (Z.leb_spec 0 fdes), (Z.ltb_spec fdes (Z.of_nat NOFILE)); try lia. cbn [andb]. by rewrite Hof. }
    rewrite (kbind_run _ _ _ _ _ (getfile_run _ _ _ Hf)), Hrd. cbn [negb].
    match goal with |- context [(puts ?g ≫= _) s] => rewrite (kbind_run (puts g) _ tt s (g s) eq_refl) end. rewrite Hpi.
    set (s1 := set_u_segflg 0 _). assert (Hf1 : files s1 !! fp = Some f) by done.
    rewrite (kbind_run _ _ tt s1 (set_files (alter (fun g => set_f_offset (f_offset g + (count - 0)) g) fp (files s5)) s5)).
    + rewrite kgets_run. match goal with |- context [u_count ?t] => change (u_count t) with (u_count s5) end. by rewrite EC5.
    + rewrite (kbind_run _ _ _ _ _ (pipe_inode_run _ _ _ _ Hf1 Hfi)), Hmp. cbv iota. rewrite (kbind_run _ _ tt s1 s2) by done.
      assert (Hx2 : inodes s2 !! ip = Some x) by done.
      rewrite (kbind_run _ _ _ _ _ (getip_run _ _ _ Hx2)), (Hlk x eq_refl), (kbind_run _ _ _ _ _ E3).
      change (FREAD =? FREAD) with true. cbv iota. rewrite (kbind_run _ _ _ _ _ E4), (kbind_run _ _ _ _ _ (getip_run _ _ _ Hx4)).
      rewrite (Hlk (set_i_lastr v x4) eq_refl), (kbind_run _ _ _ _ _ E5).
      assert (Hf5 : files s5 !! fp = Some f) by (by rewrite EF5).
      rewrite (kbind_run _ _ _ _ _ (getfile_run _ _ _ Hf5)), Hmp. cbn [negb]. rewrite kgets_run, EC5. done.
  - simpl. split_and!; try done; [lia|]. rewrite list_lookup_alter_eq, EF5, Hf. simpl. by rewrite Z.sub_0_r.
Qed.
End Negative.

Definition kern_fd : kern fstore :=
  set_u_ofile [Some 0%nat] (set_files [File FREAD 1 (Some 0%nat) 100] (set_inodes [set_i_flag 0 file1] (kern_rw 0 0 0))).

Lemma read_negative_witness : exists s' f', read (fun _ => mret tt) (fun _ => mret tt) (fun _ _ => 0) 0 6000 (-40) kern_fd = Done tt s' /\
  u_r_val1 s' = -40 /\ files s' !! 0%nat = Some f' /\ f_offset f' = 60.
Proof.
  destruct (read_negative (fun _ => mret tt) (fun _ => mret tt) (fun _ _ => 0) 7 1 0 0 0 (File FREAD 1 (Some 0%nat) 100) (set_i_flag 0 file1)
    [11; 0; 0; 0; 0; 0; 0; 0] [50; 60] 6000 (-40) kern_fd) as (s' & f' & E & _ & Hr & Hf & Ho & _); try done.
  - eapply (file_in_with 7 1 0 (kern_rw 0 0 0)); [apply kern_rw_file|done..].
  - apply (kern_rw_data 0 0 0).
  - by exists s', f'.
Defined.
