(* ===== verification/Sys3.v ===== *)
(** * System calls on files and volumes: [kernel/sys3.c], and [ioctl] of [kernel/dev/tty.c]

    A structure goes to the user word by word ([copyout] of [kernel/usermem.S] moves whole
    words, all of them or none); an [int] is the low 41 bits of its word. *)

From S2P Require Import Prelude Param Bytes Resmap Kern Alloc Bmap Inode Frame Fio Rdwri Namei Pipe.

Definition int_word (z : Z) : Z := z mod 2 ^ 41.

Definition FIOCLEX : Z := 26113.
Definition FIONCLEX : Z := 26114.
Definition TIOCSETP : Z := 29705.
Definition TIOCGETP : Z := 29704.
Definition EXCLOSE : Z := 1.
Definition ENOTTY : Z := 25.

Section Sys3.
Context {S : Type} `{BlockStore S}.
Context (dv : drivers S) (fuel : nat).

(** [copyout(&ws, to, sizeof ws) < 0] sets [EFAULT]; [to] is a byte number, of which the
    word counts. *)
Definition copyout_words (ws : list Z) (to : Z) : K S unit :=
  let a := NBPW * (to / NBPW) in
  let n := NBPW * Z.of_nat (length ws) in
  ok ← gets (fun s => user_mapped s a n);
  if (ok : bool) then
    puts (fun s => set_umem (fun b => if (a <=? b) && (b <? a + n) then getb ws (b - a) else umem s b) s)
  else error EFAULT.

(** [struct stat]. *)
Definition stat1 (ip : nat) (ub pipeadj : Z) : K S unit :=
  now ← gets time;
  iupdat ip now now;;
  x ← getip ip;
  rdev ← at_ (i_addr x) 0;
  bp ← bread (i_dev x) (itod (i_number x));
  let o := dinode_at (i_number x) in
  atime ← at_ (b_data bp) (o + 5);
  mtime ← at_ (b_data bp) (o + 6);
  ctime ← at_ (b_data bp) (o + 7);
  brelse bp;;
  copyout_words (int_word <$> [i_dev x; i_number x; i_mode x; i_nlink x; i_uid x; i_gid x; rdev; i_size x - pipeadj;
                         atime; mtime; ctime]) ub.

Definition fstat (fdes sb : Z) : K S unit :=
  fp ← getf fdes;
  match fp with
  | None => mret tt
  | Some fp =>
      f ← getfile fp;
      ip ← pipe_inode fp;
      stat1 ip sb (if f_flag f &? FPIPE then f_offset f else 0)
  end.

Definition stat (sb : Z) : K S unit :=
  ip ← namei uchar fuel 0;
  match ip with
  | None => mret tt
  | Some ip => stat1 ip sb 0;; iput ip
  end.

(** The low six bits of [fdes] are the descriptor; bit 6 says [fdes2] is wanted. *)
Definition dup (fdes fdes2 : Z) : K S unit :=
  let m := fdes &~ 63 in
  let fdes := Z.land fdes 63 in
  fp ← getf fdes;
  match fp with
  | None => mret tt
  | Some fp =>
      i ← (if negb (m &? 64) then ufalloc
           else if (fdes2 <? 0) || (Z.of_nat NOFILE <=? fdes2) then error EBADF;; mret (-1)
           else puts (set_u_r_val1 fdes2);; mret fdes2);
      if i <? 0 then mret tt
      else if negb (i =? fdes) then
        l ← gets u_ofile;
        old ← at_ l (Z.to_nat i);
        closef dv old;;
        set_ofile (Z.to_nat i) (Some fp);;
        set_pofile (Z.to_nat i) 0;;
        modfile fp (fun f => set_f_count (inc8 (f_count f)) f)
      else mret tt
  end.

(** [d_ioctl] is the routine of [cdevsw]. *)
Definition ioctl (d_ioctl : Z -> Z -> Z -> Z -> K S unit) (fdes cmd cmarg : Z) : K S unit :=
  fp ← getf fdes;
  match fp with
  | None => mret tt
  | Some fp =>
      l ← gets u_pofile;
      if cmd =? FIOCLEX then v ← at_ l (Z.to_nat fdes); set_pofile (Z.to_nat fdes) (v |: EXCLOSE)
      else if cmd =? FIONCLEX then v ← at_ l (Z.to_nat fdes); set_pofile (Z.to_nat fdes) (v &~ EXCLOSE)
      else
        f ← getfile fp;
        ip ← pipe_inode fp;
        x ← getip ip;
        if negb (is_char (i_mode x)) then error ENOTTY
        else dev ← at_ (i_addr x) 0; d_ioctl dev cmd cmarg (f_flag f)
  end.

Definition stty (d_ioctl : Z -> Z -> Z -> Z -> K S unit) (fdes arg : Z) : K S unit := ioctl d_ioctl fdes TIOCSETP arg.
Definition gtty (d_ioctl : Z -> Z -> Z -> Z -> K S unit) (fdes arg : Z) : K S unit := ioctl d_ioctl fdes TIOCGETP arg.

Definition getmdev : K S Z :=
  ip ← namei uchar fuel 0;
  match ip with
  | None => mret NODEV
  | Some ip =>
      x ← getip ip;
      (if negb (Z.land (i_mode x) IFMT =? IFBLK) then error ENOTBLK else mret tt);;
      dev ← at_ (i_addr x) 0;
      (if (major dev <? 0) || (nblkdev dv <=? major dev) then error ENXIO else mret tt);;
      iput ip;;
      mret dev
  end.

(** The search of [mount[]]: [None] when [dev] is mounted, else the first free slot. *)
Fixpoint free_mount (i : nat) (l : list mount) (dev : Z) (smp : option nat) : option (option nat) :=
  match l with
  | [] => Some smp
  | m :: l =>
      match m_bufp m with
      | Some _ => if dev =? m_dev m then None else free_mount (Datatypes.S i) l dev smp
      | None => free_mount (Datatypes.S i) l dev (match smp with None => Some i | _ => smp end)
      end
  end.

(** The words of a superblock, as [filsys_words] writes them. *)
Definition filsys_of (w : list Z) : option filsys :=
  match take 14 w, w !! 334%nat with
  | [m; b; i; a; isz; fs; t; tf; ti; fl; il; fm; ro; nf], Some ni =>
      Some (Filsys m b i a isz fs t tf ti fl il fm ro nf (take 320 (drop 14 w)) ni (take 160 (drop 335 w)) (drop 495 w))
  | _, _ => None
  end.

Definition smount (freg ronly : Z) : K S unit :=
  dev ← getmdev;
  e ← gets u_error;
  if negb (e =? 0) then mret tt
  else
    puts (set_u_dirp freg);;
    ip ← namei uchar fuel 0;
    match ip with
    | None => mret tt
    | Some ip =>
        let out := error EBUSY;; iput ip in
        let out1 := iput ip in
        x ← getip ip;
        if negb (i_count x =? 1) || (i_mode x &? Z.land IFBLK IFCHR) then out
        else
          l ← gets mounts;
          match free_mount 0 l dev None with
          | None | Some None => out
          | Some (Some mp) =>
              bd_open dv dev (if ronly =? 0 then 1 else 0);;
              e ← gets u_error;
              if negb (e =? 0) then out
              else
                bp ← bread dev SUPERB;
                e ← gets u_error;
                if negb (e =? 0) then brelse bp;; out1
                else
                  match filsys_of (b_data bp) with
                  | None => wild
                  | Some f =>
                      bad ← sbcheck f dev;
                      if negb (bad =? 0) then brelse bp;; error EINVAL;; out1
                      else
                        let f := set_s_ronly (Z.land ronly 1) (set_s_flock 0 (set_s_ilock 0 f)) in
                        puts (fun s => set_mounts (alter (fun _ => Mount dev (Some f) (Some ip)) mp (mounts s)) s);;
                        brelse bp;;
                        modip ip (fun x => set_i_flag (i_flag x |: IMOUNT) x);;
                        prele ip
                  end
          end
    end.

Definition sumount : K S unit :=
  dev ← getmdev;
  e ← gets u_error;
  if negb (e =? 0) then mret tt
  else
    xumount dev;;
    update;;
    l ← gets mounts;
    match find_mount 0 l dev with
    | None => error EINVAL
    | Some mp =>
        t ← gets inodes;
        if existsb (fun x => negb (i_number x =? 0) && (dev =? i_dev x)) t then error EBUSY
        else
          bd_close dv dev 0;;
          l ← gets mounts;
          m ← at_ l mp;
          match m_inodp m with
          | None => wild
          | Some ip =>
              modip ip (fun x => set_i_flag (i_flag x &~ IMOUNT) x);;
              plock ip;;
              iput ip;;
              puts (fun s => set_mounts (alter (set_m_bufp None) mp (mounts s)) s)
          end
    end.

Definition statfs (buf : Z) : K S unit :=
  ip ← namei uchar fuel 0;
  match ip with
  | None => mret tt
  | Some ip =>
      x ← getip ip;
      l ← gets mounts;
      match find_mount 0 l (i_dev x) with
      | None => error ENXIO;; iput ip
      | Some mp =>
          f ← Alloc.fp mp;
          iput ip;;
          copyout_words (int_word <$> [s_fsize f; s_isize f; s_tfree f; s_tinode f]) buf
      end
  end.
End Sys3.
