(* ===== verification/Fds.v ===== *)
(** * The descriptor table

    [f_count] of an open file is the number of descriptors that refer to it, in this
    process and in all others: [falloc], [open1], [close] and [dup] keep it so.  A step
    relation over the four, and the invariant by induction on it. *)

From stdpp Require Import relations.
From S2P Require Import Prelude Param Bytes Resmap Kern Alloc Bmap Inode Frame Fio Rdwri Namei Pipe Sys2 Sys3.

(** Descriptors of [l] that refer to file [fp]. *)
Definition refs (fp : nat) (l : list (option nat)) : Z := Z.of_nat (length (filter (fun o => o = Some fp) l)).

(** The references are counted; [others fp] are those of other processes. *)
Record counted (others : nat -> Z) (l : list (option nat)) (fs : list file) : Prop := {
  ct_len : length l = NOFILE;
  ct_valid : forall i fp, l !! i = Some (Some fp) -> is_Some (fs !! fp);
  ct_count : forall fp f, fs !! fp = Some f -> f_count f = refs fp l + others fp /\ 0 <= others fp /\ f_count f < 256;
}.

Definition b2z (b : bool) : Z := if b then 1 else 0.

Lemma refs_cons fp o l : refs fp (o :: l) = b2z (bool_decide (o = Some fp)) + refs fp l.
Proof. unfold refs. rewrite filter_cons. case_decide; [rewrite bool_decide_true by done|rewrite bool_decide_false by done]; simpl; lia. Qed.

Lemma refs_insert fp l i o v : l !! i = Some o ->
  refs fp (<[i := v]> l) = refs fp l - b2z (bool_decide (o = Some fp)) + b2z (bool_decide (v = Some fp)).
Proof.
  revert i. induction l as [|a l IH]; intros i Hi; [done|]. destruct i as [|i]; simpl in Hi |- *.
  - simplify_eq. rewrite !refs_cons. lia.
  - rewrite !refs_cons, (IH i Hi). lia.
Qed.

Lemma refs_nonneg fp l : 0 <= refs fp l.
Proof. unfold refs. lia. Qed.

Lemma refs_pos fp l i : l !! i = Some (Some fp) -> 0 < refs fp l.
Proof. intros Hi. pose proof (refs_insert fp l i (Some fp) None Hi) as E. pose proof (refs_nonneg fp (<[i:=None]> l)). rewrite bool_decide_true in E by done. simpl in E. lia. Qed.

(** A descriptor and the counts change together. *)
Lemma counted_move others l fs fs' i o v : counted others l fs -> l !! i = Some o -> length fs' = length fs ->
  (forall fp, v = Some fp -> is_Some (fs !! fp)) ->
  (forall fp f f', fs !! fp = Some f -> fs' !! fp = Some f' ->
     f_count f' = f_count f - b2z (bool_decide (o = Some fp)) + b2z (bool_decide (v = Some fp)) /\ f_count f' < 256) ->
  counted others (<[i := v]> l) fs'.
Proof.
  intros [Hl Hv Hc] Hi Hlen Hvv Hg. split.
  - by rewrite length_insert.
  - intros j fp Hj. apply lookup_lt_is_Some. rewrite Hlen. apply lookup_lt_is_Some.
    destruct (decide (j = i)) as [->|Hne]; [|rewrite list_lookup_insert_ne in Hj by done; by eapply Hv].
    rewrite list_lookup_insert_eq in Hj by (by eapply lookup_lt_Some). simplify_eq. by apply Hvv.
  - intros fp f' Hf'. destruct (lookup_lt_is_Some_2 fs fp) as [f Hf]; [rewrite <- Hlen; by eapply lookup_lt_Some|].
    destruct (Hc fp f Hf) as (E & Ho & _). destruct (Hg fp f f' Hf Hf') as [E2 Hlt]. rewrite (refs_insert fp l i o v Hi). lia.
Qed.

(** Fields of open files that are not counts may change. *)
Lemma counted_same others l fs fs' : counted others l fs -> length fs' = length fs ->
  (forall fp f f', fs !! fp = Some f -> fs' !! fp = Some f' -> f_count f' = f_count f) -> counted others l fs'.
Proof.
  intros [Hl Hv Hc] Hlen Hg. split; [done| |].
  - intros i fp Hi. apply lookup_lt_is_Some. rewrite Hlen. apply lookup_lt_is_Some. by eapply Hv.
  - intros fp f' Hf'. destruct (lookup_lt_is_Some_2 fs fp) as [f Hf]; [rewrite <- Hlen; by eapply lookup_lt_Some|].
    rewrite (Hg fp f f' Hf Hf'). by apply Hc.
Qed.

Lemma alter_nth {A} (h : A -> A) (l : list A) i j a : l !! j = Some a -> alter h i l !! j = Some (if decide (i = j) then h a else a).
Proof. intros Hj. case_decide as E; [subst; by rewrite list_lookup_alter_eq, Hj|by rewrite list_lookup_alter_ne]. Qed.

Lemma first_null_spec l : forall k i, first_null k l = Some i -> exists j, i = (k + j)%nat /\ l !! j = Some None.
Proof.
  induction l as [|[o|] l IH]; intros k i Hi; [done| |].
  - destruct (IH _ _ Hi) as (j & -> & Hj). exists (Datatypes.S j). split; [lia|done].
  - simpl in Hi. simplify_eq. exists 0%nat. split; [lia|done].
Qed.

Lemma unused_file_spec l : forall k fp, unused_file k l = Some fp -> exists j f, fp = (k + j)%nat /\ l !! j = Some f /\ f_count f = 0.
Proof.
  induction l as [|f l IH]; intros k fp Hi; [done|]. simpl in Hi. destruct (Z.eqb_spec (f_count f) 0).
  - simplify_eq. exists 0%nat, f. split_and!; lia || done.
  - destruct (IH _ _ Hi) as (j & g & -> & Hj & Hg). exists (Datatypes.S j), g. split; [lia|done].
Qed.

Section Fds.
Context {S : Type} `{BlockStore S}.
Context (others : nat -> Z).

Definition fds_ok (s : kern S) : Prop := counted others (u_ofile s) (files s).

Lemma kbind_inv {A B} (m : K S A) (f : A -> K S B) s b s' : (m ≫= f) s = Done b s' -> exists a s1, m s = Done a s1 /\ f a s1 = Done b s'.
Proof. unfold mbind, k_bind. destruct (m s) as [a s1| | | |]; try done. eauto. Qed.

Lemma user_fds (s s' : kern S) : user s' = user s -> files s' = files s /\ u_ofile s' = u_ofile s.
Proof. unfold user. intros E. by injection E. Qed.

(** [falloc] takes a file nobody refers to. *)
Lemma falloc_inv r s s' : fds_ok s -> falloc s = Done r s' -> fds_ok s' /\ length (files s') = length (files s) /\
  match r with
  | None => files s' = files s /\ u_ofile s' = u_ofile s
  | Some fp => exists i f, u_ofile s !! i = Some None /\ u_r_val1 s' = Z.of_nat i /\ u_ofile s' = <[i := Some fp]> (u_ofile s) /\
      files s !! fp = Some f /\ f_count f = 0 /\ refs fp (u_ofile s) = 0 /\ others fp = 0 /\
      files s' = alter (fun f => set_f_offset 0 (set_f_count (inc8 (f_count f)) f)) fp (files s)
  end.
Proof.
  unfold fds_ok. intros C E. apply kbind_inv in E as (n & s1 & E1 & E). unfold ufalloc in E1. rewrite kgets_run in E1.
  destruct (first_null 0 (u_ofile s)) as [i|] eqn:Hi; [|by injection E1 as <- <-; injection E as <- <-].
  destruct (first_null_spec _ _ _ Hi) as (j & -> & Hj). cbn [Nat.add] in *.
  injection E1 as <- <-. destruct (Z.ltb_spec (Z.of_nat j) 0); [lia|]. rewrite kgets_run in E. simpl (files _) in E.
  destruct (unused_file 0 (files s)) as [fp|] eqn:Hu; [|by injection E as <- <-].
  destruct (unused_file_spec _ _ _ Hu) as (k & f & -> & Hf & Hf0). cbn [Nat.add] in *.
  injection E as <- <-. simpl (files _). simpl (u_ofile _). simpl (u_r_val1 _). rewrite Nat2Z.id.
  destruct (ct_count _ _ _ C k f Hf) as (Ec & Ho & _). pose proof (refs_nonneg k (u_ofile s)).
  split; [|split; [by rewrite length_alter|exists j, f; split_and!; try done; lia]].
  eapply counted_move; [done|exact Hj|by rewrite length_alter|by intros fp [= <-]; eexists|].
  intros fp g g' Hg Hg'. rewrite (alter_nth _ _ _ _ _ Hg) in Hg'. rewrite bool_decide_false by done.
  destruct (ct_count _ _ _ C fp g Hg) as (_ & _ & Hlt). case_decide as Ek; simplify_eq/=.
  - rewrite bool_decide_true by done. rewrite Hf0. done.
  - rewrite bool_decide_false by congruence. simpl. lia.
Qed.
(** ** What leaves the table alone *)

Lemma keeps_modtext xp f : keeps (S := S) (modtext xp f).
Proof. done. Qed.
Lemma keeps_gettext xp : keeps (S := S) (gettext xp).
Proof. unfold gettext. keeps. Qed.
#[local] Hint Resolve keeps_modtext keeps_gettext : keeps.

Lemma keeps_xlock xp : keeps (S := S) (xlock xp).
Proof. unfold xlock. keeps. Qed.
Lemma keeps_xunlock xp : keeps (S := S) (xunlock xp).
Proof. unfold xunlock. keeps. Qed.
Lemma keeps_swap_free n a : keeps (S := S) (swap_free n a).
Proof. unfold swap_free. keeps. Qed.
#[local] Hint Resolve keeps_xlock keeps_xunlock keeps_swap_free : keeps.

Lemma keeps_xuntext xp : keeps (xuntext xp).
Proof. unfold xuntext. keeps. Qed.
#[local] Hint Resolve keeps_xuntext : keeps.

Lemma keeps_kfor {A} (l : list A) (f : A -> K S unit) : (forall a, keeps (f a)) -> keeps (kfor l f).
Proof. intros Hf. induction l; cbn [kfor]; keeps. Qed.

Lemma keeps_xrele ip : keeps (xrele ip).
Proof. unfold xrele. keeps. apply keeps_kfor. keeps. Qed.
#[local] Hint Resolve keeps_xrele : keeps.

Lemma keeps_access ip mode : keeps (access ip mode).
Proof. unfold access. keeps. Qed.

(** The drivers do not touch the process's files. *)
Context (dv : drivers S).
Context (Hdv : forall d a, keeps (cd_open dv d a) /\ keeps (cd_close dv d a) /\ keeps (bd_open dv d a) /\ keeps (bd_close dv d a)).

Lemma keeps_openi ip rw : keeps (openi dv ip rw).
Proof. unfold openi. keeps; apply Hdv. Qed.

Lemma keeps_inv {A} (m : K S A) s a s' : keeps m -> m s = Done a s' -> files s' = files s /\ u_ofile s' = u_ofile s.
Proof. intros Hk E. apply user_fds. by eapply keeps_done. Qed.

(** [closef] takes one off the count, when there is one. *)
Lemma closef_inv fp f s s' : files s !! fp = Some f -> 0 < f_count f < 256 -> closef dv (Some fp) s = Done tt s' ->
  u_ofile s' = u_ofile s /\ exists f', f_count f' = f_count f - 1 /\ files s' = <[fp := f']> (files s).
Proof.
  intros Hf Hc E. unfold closef in E. rewrite (kbind_run _ _ _ _ _ (getfile_run _ _ _ Hf)) in E.
  destruct (Z.ltb_spec 1 (f_count f)).
  - injection E as <-. split; [done|]. exists (set_f_count (dec8 (f_count f)) f). simpl. rewrite (alter_insert _ _ _ _ Hf).
    split; [|done]. unfold dec8. apply Z.mod_small. lia.
  - destruct (f_inode f) as [ip|]; [|done]. apply kbind_inv in E as (x & s1 & E1 & E). apply kbind_inv in E as (d & s2 & E2 & E).
    apply kbind_inv in E as ([] & s3 & E3 & E).
    destruct (keeps_inv _ _ _ _ (keeps_getip ip) E1) as [F1 O1]. destruct (keeps_inv _ _ _ _ (keeps_at _ _) E2) as [F2 O2].
    destruct (keeps_inv _ _ _ _ (keeps_plock ip) E3) as [F3 O3].
    set (s4 := set_files (alter (set_f_count 0) fp (files s3)) s3). rewrite (kbind_run _ _ tt s3 s4) in E by done.
    assert (Hk : keeps (
            (if f_flag f &? FPIPE then
               modip ip (fun x => set_i_mode (i_mode x &~ (IREAD |: IWRITE)) x);;
               wakeup (ChPipe ip 1);; wakeup (ChPipe ip 2)
             else mret tt);;
            iput ip;;
            match (if is_char (i_mode x) then Some (cd_close dv)
              else if is_block (i_mode x) then Some (bd_close dv) else None) with
            | None => mret tt
            | Some cfunc =>
                l ← gets files;
                if negb (f_flag f &? FMP) && in_use ip l then mret tt else cfunc d (f_flag f)
            end)).
    { destruct (is_char (i_mode x)); [|destruct (is_block (i_mode x))]; keeps; apply Hdv. }
    destruct (keeps_inv _ _ _ _ Hk E) as [F5 O5]. split; [rewrite O5; simpl; congruence|].
    exists (set_f_count 0 f). split; [simpl; lia|]. rewrite F5. simpl. rewrite F3, F2, F1. by apply alter_insert.
Qed.

Lemma getf_inv fd r (s s' : kern S) : getf fd s = Done r s' -> match r with
  | None => files s' = files s /\ u_ofile s' = u_ofile s
  | Some fp => s' = s /\ 0 <= fd < Z.of_nat NOFILE /\ u_ofile s !! Z.to_nat fd = Some (Some fp)
  end.
Proof.
  unfold getf. rewrite kgets_run. destruct (Z.leb_spec 0 fd), (Z.ltb_spec fd (Z.of_nat NOFILE)); cbn [andb];
    try (intros E; by injection E as <- <-).
  destruct (u_ofile s !! Z.to_nat fd) as [[fp|]|]; intros E; [by injection E as <- <-|by injection E as <- <-|done].
Qed.

Lemma counted_pos l fs i fp f : counted others l fs -> l !! i = Some (Some fp) -> fs !! fp = Some f -> 0 < f_count f < 256.
Proof. intros C Hi Hf. destruct (ct_count _ _ _ C fp f Hf) as (E & Ho & Hlt). pose proof (refs_pos fp l i Hi). lia. Qed.

(** A reference goes. *)
Lemma counted_drop l fs i fp f f' : counted others l fs -> l !! i = Some (Some fp) -> fs !! fp = Some f -> f_count f' = f_count f - 1 ->
  counted others (<[i := None]> l) (<[fp := f']> fs).
Proof.
  intros C Hi Hf E. eapply counted_move; [done|exact Hi|by rewrite length_insert|done|].
  intros fp' g g' Hg Hg'. destruct (ct_count _ _ _ C fp' g Hg) as (_ & _ & Hlt). rewrite (bool_decide_false (None = Some fp')) by done.
  destruct (decide (fp' = fp)) as [->|Hne].
  - rewrite list_lookup_insert_eq in Hg' by (by eapply lookup_lt_Some). simplify_eq. rewrite bool_decide_true by done. simpl. lia.
  - rewrite list_lookup_insert_ne in Hg' by done. simplify_eq. rewrite bool_decide_false by congruence. simpl. lia.
Qed.

Lemma close_inv fd s s' : fds_ok s -> close dv fd s = Done tt s' -> fds_ok s'.
Proof.
  unfold fds_ok. intros C E. apply kbind_inv in E as (r & s1 & E1 & E). pose proof (getf_inv _ _ _ _ E1) as Hg.
  destruct r as [fp|]; [|injection E as <-; by destruct Hg as [-> ->]]. destruct Hg as (-> & Hfd & Hl).
  apply kbind_inv in E as ([] & s2 & E2 & E). apply kbind_inv in E as ([] & s3 & E3 & E). injection E2 as <-. injection E3 as <-.
  destruct (ct_valid _ _ _ C _ _ Hl) as [f Hf]. pose proof (counted_pos _ _ _ _ _ C Hl Hf) as Hp.
  apply closef_inv with (f := f) in E as (O & f' & Hc & F); [|done|done]. rewrite O, F. simpl. by eapply counted_drop.
Qed.

(** A reference more. *)
Lemma counted_add l fs i fp f : counted others l fs -> l !! i = Some None -> fs !! fp = Some f -> f_count f < 255 ->
  counted others (<[i := Some fp]> l) (alter (fun f => set_f_count (inc8 (f_count f)) f) fp fs).
Proof.
  intros C Hi Hf Hroom. eapply counted_move; [done|exact Hi|by rewrite length_alter|by intros ? [= <-]; eexists|].
  intros fp' g g' Hg Hg'. destruct (ct_count _ _ _ C fp' g Hg) as (Eg & Ho & Hlt). rewrite (bool_decide_false (None = Some fp')) by done.
  rewrite (alter_nth _ _ _ _ _ Hg) in Hg'. pose proof (refs_nonneg fp' l). case_decide as Ek; simplify_eq/=.
  - rewrite bool_decide_true by done. simpl. unfold inc8. rewrite Z.mod_small; lia.
  - rewrite bool_decide_false by congruence. simpl. lia.
Qed.

(** A file with 256 references, whose count is 0. *)
Definition wrapped (s : kern S) : Prop :=
  exists fp f, files s !! fp = Some f /\ f_count f = 0 /\ refs fp (u_ofile s) + others fp = 256.

(** The reference more of [dup] is counted, unless it is the 256th: then the count is 0. *)
Lemma dup_inv a b s s' : fds_ok s -> dup dv a b s = Done tt s' -> fds_ok s' \/ wrapped s'.
Proof.
  unfold fds_ok. intros C E. apply kbind_inv in E as (r & s1 & E1 & E). pose proof (getf_inv _ _ _ _ E1) as Hg.
  destruct r as [fp|]; [|left; injection E as <-; by destruct Hg as [-> ->]]. destruct Hg as (-> & Hfd & Hl).
  apply kbind_inv in E as (i & s2 & E2 & E). destruct (ct_valid _ _ _ C _ _ Hl) as [f Hf].
  assert (H2 : files s2 = files s /\ u_ofile s2 = u_ofile s).
  { destruct (negb _); [|destruct ((b <? 0) || _); by injection E2 as <- <-]. unfold ufalloc in E2. rewrite kgets_run in E2.
    destruct (first_null 0 (u_ofile s)); by injection E2 as <- <-. }
  destruct H2 as [F2 O2]. destruct (i <? 0); [left; injection E as <-; by rewrite F2, O2|].
  destruct (Z.eqb_spec i (Z.land a 63)) as [Ei|Ei]; cbn [negb] in E; [left; injection E as <-; by rewrite F2, O2|].
  rewrite kgets_run, O2 in E. apply kbind_inv in E as (old & s3 & E3 & E). unfold at_ in E3.
  destruct (u_ofile s !! Z.to_nat i) as [o|] eqn:Ho; [|done]. injection E3 as <- <-.
  apply kbind_inv in E as ([] & s4 & E4 & E). apply kbind_inv in E as ([] & s5 & E5 & E). apply kbind_inv in E as ([] & s6 & E6 & E).
  injection E5 as <-. injection E6 as <-. injection E as <-. simpl.
  assert (H4 : u_ofile s4 = u_ofile s /\ counted others (<[Z.to_nat i := None]> (u_ofile s)) (files s4) /\
    exists f4, files s4 !! fp = Some f4).
  { destruct o as [old|].
    - destruct (ct_valid _ _ _ C _ _ Ho) as [g Hg]. pose proof (counted_pos _ _ _ _ _ C Ho Hg) as Hp.
      apply closef_inv with (f := g) in E4 as (O4 & g' & Hc & F4); [|by rewrite F2|done]. rewrite O4, F4, O2, F2. split; [done|].
      split; [by eapply counted_drop|]. destruct (decide (fp = old)) as [->|Hne].
      + exists g'. by rewrite list_lookup_insert_eq by (by eapply lookup_lt_Some).
      + exists f. by rewrite list_lookup_insert_ne.
    - injection E4 as <-. rewrite F2, O2. split; [done|]. rewrite list_insert_id by done. split; [done|]. by exists f. }
  destruct H4 as (O4 & C4 & f4 & Hf4). rewrite O4. assert (Hi : <[Z.to_nat i := None]> (u_ofile s) !! Z.to_nat i = Some None)
    by (apply list_lookup_insert_eq; by eapply lookup_lt_Some).
  destruct (decide (f_count f4 < 255)) as [Hr4|Hr4].
  - left. rewrite <- (list_insert_insert_eq (u_ofile s) (Z.to_nat i) (Some fp) None). by eapply counted_add.
  - right. destruct (ct_count _ _ _ C4 fp f4 Hf4) as (Ec & Hoth & Hlt). assert (E5 : f_count f4 = 255) by lia.
    exists fp, (set_f_count (inc8 (f_count f4)) f4). cbn. split; [by rewrite list_lookup_alter_eq, Hf4|]. split; [by rewrite E5|].
    rewrite <- (list_insert_insert_eq (u_ofile s) (Z.to_nat i) (Some fp) None), (refs_insert fp _ _ None _ Hi).
    rewrite bool_decide_false, bool_decide_true by done. unfold b2z. lia.
Qed.

Lemma open1_inv ip mode trf s s' : fds_ok s -> open1 dv ip mode trf s = Done tt s' -> fds_ok s'.
Proof.
  unfold fds_ok. intros C E. pose proof keeps_access. unfold open1 in E. apply kbind_inv in E as ([] & s1 & E1 & E).
  apply keeps_inv in E1 as [F1 O1]; [|keeps]. rewrite kgets_run in E. destruct (negb (u_error s1 =? 0)).
  { apply keeps_inv in E as [F2 O2]; [|apply keeps_iput]. by rewrite F2, O2, F1, O1. }
  apply kbind_inv in E as ([] & s2 & E2 & E). apply keeps_inv in E2 as [F2 O2]; [|keeps].
  apply kbind_inv in E as ([] & s3 & E3 & E). apply keeps_inv in E3 as [F3 O3]; [|apply keeps_prele].
  apply kbind_inv in E as (r & s4 & E4 & E).
  assert (C3 : fds_ok s3) by (unfold fds_ok; by rewrite F3, O3, F2, O2, F1, O1).
  pose proof (falloc_inv _ _ _ C3 E4) as (C4 & _ & H4). destruct r as [fp|].
  - destruct H4 as (i & f & Hi & Hv & O4 & Hf & Hc0 & _ & _ & F4).
    apply kbind_inv in E as ([] & s5 & E5 & E). injection E5 as <-. rewrite kgets_run in E. simpl (u_r_val1 _) in E. rewrite Hv in E.
    apply kbind_inv in E as ([] & s6 & E6 & E). apply keeps_inv in E6 as [F6 O6]; [|apply keeps_openi]. simpl in F6, O6.
    set (fs5 := alter _ fp (files s4)) in F6.
    assert (C5 : counted others (u_ofile s4) fs5).
    { eapply counted_same; [exact C4|unfold fs5; by rewrite length_alter|]. intros k g g' Hg Hg'. unfold fs5 in Hg'.
      rewrite (alter_nth _ _ _ _ _ Hg) in Hg'. by case_decide; simplify_eq. }
    rewrite kgets_run in E. destruct (u_error s6 =? 0); [injection E as <-; by rewrite F6, O6|].
    apply kbind_inv in E as ([] & s7 & E7 & E). apply kbind_inv in E as ([] & s8 & E8 & E). injection E7 as <-. injection E8 as <-.
    apply keeps_inv in E as [F9 O9]; [|apply keeps_iput]. rewrite F9, O9. simpl. rewrite F6, O6, Nat2Z.id.
    assert (Hl : u_ofile s4 !! i = Some (Some fp)) by (rewrite O4; apply list_lookup_insert_eq; by eapply lookup_lt_Some).
    destruct (ct_valid _ _ _ C5 _ _ Hl) as [f5 Hf5]. pose proof (counted_pos _ _ _ _ _ C5 Hl Hf5).
    rewrite (alter_insert _ _ _ _ Hf5). eapply counted_drop; [done|exact Hl|exact Hf5|]. simpl. unfold dec8. apply Z.mod_small. lia.
  - destruct H4 as [F4 O4]. apply keeps_inv in E as [F5 O5]; [|apply keeps_iput]. by rewrite F5, O5.
Qed.

Lemma ioctl_inv d_ioctl a b c s s' : (forall w x y z, keeps (d_ioctl w x y z)) -> fds_ok s -> ioctl d_ioctl a b c s = Done tt s' -> fds_ok s'.
Proof.
  unfold fds_ok. intros Hd C E. apply kbind_inv in E as (r & s1 & E1 & E). pose proof (getf_inv _ _ _ _ E1) as Hg.
  destruct r as [fp|]; [|injection E as <-; by destruct Hg as [-> ->]]. destruct Hg as (-> & _ & _). rewrite kgets_run in E.
  assert (Hset : forall f, (v ← at_ (u_pofile s) (Z.to_nat a); set_pofile (Z.to_nat a) (f v)) s = Done tt s' ->
    files s' = files s /\ u_ofile s' = u_ofile s).
  { intros f Ef. apply kbind_inv in Ef as (v & s2 & E2 & E3). injection E3 as <-. destruct (keeps_inv _ _ _ _ (keeps_at _ _) E2) as [F O]. simpl. by rewrite F, O. }
  destruct (b =? FIOCLEX); [destruct (Hset (fun v => v |: EXCLOSE) E) as [-> ->]; done|].
  destruct (b =? FIONCLEX); [destruct (Hset (fun v => v &~ EXCLOSE) E) as [-> ->]; done|].
  apply keeps_inv in E as [-> ->]; [done|]. unfold pipe_inode, getfile. keeps.
Qed.

(** ** The steps, in any order *)

Inductive fd_step : kern S -> kern S -> Prop :=
  | step_falloc r s s' : falloc s = Done r s' -> fd_step s s'
  | step_open ip mode trf s s' : open1 dv ip mode trf s = Done tt s' -> fd_step s s'
  | step_close fd s s' : close dv fd s = Done tt s' -> fd_step s s'
  | step_dup a b s s' : dup dv a b s = Done tt s' -> fd_step s s'
  | step_ioctl d_ioctl a b c s s' : (forall w x y z, keeps (d_ioctl w x y z)) -> ioctl d_ioctl a b c s = Done tt s' -> fd_step s s'
  | step_frame s s' : user s' = user s -> fd_step s s'.

(** The counts are right: a file is free exactly when nobody refers to it. *)
Definition files_ok (s : kern S) : Prop := fds_ok s /\
  forall fp f, files s !! fp = Some f -> (f_count f = 0 <-> others fp = 0 /\ forall i, u_ofile s !! i <> Some (Some fp)).

Lemma fds_files s : fds_ok s -> files_ok s.
Proof.
  intros C. split; [done|]. intros fp f Hf. destruct (ct_count _ _ _ C fp f Hf) as (E & Ho & _). pose proof (refs_nonneg fp (u_ofile s)). split.
  - intros Hz. split; [lia|]. intros i Hi. pose proof (refs_pos fp _ i Hi). lia.
  - intros [Hz Hn]. enough (refs fp (u_ofile s) = 0) by lia. unfold refs. destruct (filter _ _) as [|o l] eqn:El; [done|].
    assert (o ∈ filter (fun o => o = Some fp) (u_ofile s)) as Hin by (rewrite El; apply elem_of_cons; by left).
    apply list_elem_of_filter in Hin as [-> Hin]. apply list_elem_of_lookup in Hin as [i Hi]. by destruct (Hn i).
Qed.

(** C22. Through any sequence of [falloc], [open1], [close], [dup] and [ioctl] calls of a process,
    error paths included, and whatever happens in between that leaves the tables alone, the count of
    every open file is exactly the number of descriptors that refer to it, those of the
    other processes included, so that no file a descriptor refers to is ever free and none that
    nobody refers to is in use -- or else some [dup] on the way, from a state in which all this
    held, made the 256th reference to a file, and left its count 0. *)
Theorem fds_invariant s s' : rtc fd_step s s' -> fds_ok s ->
  files_ok s' \/
  exists s1 s2 a b, rtc fd_step s s1 /\ files_ok s1 /\ dup dv a b s1 = Done tt s2 /\ wrapped s2 /\ rtc fd_step s2 s'.
Proof.
  induction 1 as [s|s1 s2 s3 Hst Hsts IH]; intros C; [left; by apply fds_files|].
  assert (H2 : fds_ok s2 \/ exists a b, dup dv a b s1 = Done tt s2 /\ wrapped s2).
  { destruct Hst as [r ? ? E|ip mode trf ? ? E|fd ? ? E|a b ? ? E|dio a b c ? ? Hd E|? ? E].
    - left. by eapply falloc_inv.
    - left. by eapply open1_inv.
    - left. by eapply close_inv.
    - destruct (dup_inv a b _ _ C E) as [?|W]; [by left|right; by exists a, b].
    - left. by eapply ioctl_inv.
    - left. apply user_fds in E as [F O]. unfold fds_ok. by rewrite F, O. }
  destruct H2 as [C2|(a & b & E & W)].
  - destruct (IH C2) as [?|(t1 & t2 & a & b & R1 & F1 & E & W & R2)]; [by left|right]. exists t1, t2, a, b. split; [by eapply rtc_l|done].
  - right. exists s1, s2, a, b. split; [apply rtc_refl|]. split; [by apply fds_files|]. done.
Qed.

End Fds.

(** ** An empty table, a [falloc] and a [dup] *)

Definition no_drivers : drivers fstore :=
  Drivers 0 0 (fun _ _ => mret tt) (fun _ _ => mret tt) (fun _ _ => mret tt) (fun _ _ => mret tt).
Definition kern_fds (n : Z) : kern fstore :=
  set_u_pofile (replicate 20 0) (set_u_ofile (if n =? 0 then replicate 20 None else Some 0%nat :: replicate 19 None)
    (set_files (File 0 n None 0 :: replicate 49 (File 0 0 None 0)) kern2)).

Definition state_of {A} (r : kres fstore A) : kern fstore := match r with Done _ s => s | _ => kern2 end.
Definition kern_fds1 : kern fstore := state_of (falloc (kern_fds 0)).
Definition kern_fds2 : kern fstore := state_of (dup no_drivers 0 0 kern_fds1).

Lemma kern_fds_steps : rtc (fd_step no_drivers) (kern_fds 0) kern_fds2.
Proof.
  eapply rtc_l; [apply (step_falloc _ (Some 0%nat) _ kern_fds1); vm_compute; reflexivity|].
  eapply rtc_l; [|apply rtc_refl]. apply (step_dup _ 0 0). vm_compute. reflexivity.
Qed.

Lemma kern_fds_ok : fds_ok (fun _ => 0) (kern_fds 0).
Proof.
  split; [done| |].
  - intros i fp Hi. change (u_ofile (kern_fds 0)) with (replicate 20 (None : option nat)) in Hi. by apply lookup_replicate in Hi as [? _].
  - intros fp f Hf. unfold refs. change (u_ofile (kern_fds 0)) with (replicate 20 (None : option nat)).
    assert (Ha : Forall (fun f => f_count f = 0) (files (kern_fds 0))) by (vm_compute; repeat constructor).
    by rewrite (Forall_lookup_1 _ _ _ _ Ha Hf).
Qed.

Lemma no_drivers_keep d a : keeps (cd_open no_drivers d a) /\ keeps (cd_close no_drivers d a) /\
  keeps (bd_open no_drivers d a) /\ keeps (bd_close no_drivers d a).
Proof. by repeat split. Qed.

Lemma fds_invariant_witness : files_ok (fun _ => 0) kern_fds2 \/
  exists s1 s2 a b, rtc (fd_step no_drivers) (kern_fds 0) s1 /\ files_ok (fun _ => 0) s1 /\ dup no_drivers a b s1 = Done tt s2 /\
    wrapped (fun _ => 0) s2 /\ rtc (fd_step no_drivers) s2 kern_fds2.
Proof. apply (fds_invariant (fun _ => 0) no_drivers no_drivers_keep (kern_fds 0) kern_fds2 kern_fds_steps kern_fds_ok). Defined.

(** With 255 references one more makes the count 0: the file is free for [falloc] while
    descriptors refer to it. *)
Lemma dup_wraps : u_ofile (state_of (dup no_drivers 0 0 (kern_fds 255))) !! 1%nat = Some (Some 0%nat) /\
  unused_file 0 (files (state_of (dup no_drivers 0 0 (kern_fds 255)))) = Some 0%nat.
Proof. split; vm_compute; reflexivity. Qed.
