(* ===== verification/Sys4.v ===== *)
(** * System calls on the process and on names: [kernel/sys4.c]

    [kill], [ssig] and [times] work on the tables of [Sig] and are not here. *)

From S2P Require Import Prelude Param Bytes Resmap Kern Alloc Bmap Inode Frame Fio Rdwri Namei Pipe Sys3.

Definition NZERO : Z := 20.
Definition HZ : Z := 250.
Definition TIMEZONE : Z := 0.
Definition DSTFLAG : Z := 0.

Section Sys4.
Context {S : Type} `{BlockStore S}.
Context (cdev_write : Z -> K S unit) (UDENT : Z) (fuel : nat).

(** ** Time *)

Definition gtime : K S unit := now ← gets time; puts (set_u_r_val1 now).

Definition ftime (tp : Z) : K S unit :=
  now ← gets time;
  ms ← gets lbolt;
  let late := HZ <? ms in
  let ms := if late then ms - HZ else ms in
  copyout_words (int_word <$> [if late then now + 1 else now; Z.quot (1000 * ms) HZ; TIMEZONE; DSTFLAG]) tp.

Definition stime (t : Z) : K S unit := su ← suser; if (su : bool) then puts (set_time t) else mret tt.

(** ** Identity *)

Definition setuid (uid : Z) : K S unit :=
  ruid ← gets u_ruid;
  ok ← (if ruid =? uid then mret true else suser);
  if (ok : bool) then puts (fun s => set_u_ruid uid (set_p_uid uid (set_u_uid uid s))) else mret tt.

Definition getuid : K S unit := puts (fun s => set_u_r_val2 (u_uid s) (set_u_r_val1 (u_ruid s) s)).

Definition setgid (gid : Z) : K S unit :=
  rgid ← gets u_rgid;
  ok ← (if rgid =? gid then mret true else suser);
  if (ok : bool) then puts (fun s => set_u_rgid gid (set_u_gid gid s)) else mret tt.

Definition getgid : K S unit := puts (fun s => set_u_r_val2 (u_gid s) (set_u_r_val1 (u_rgid s) s)).

Definition getpid : K S unit := puts (fun s => set_u_r_val2 (p_ppid s) (set_u_r_val1 (p_pid s) s)).

Definition sync : K S unit := update.

Definition nice (niceness : Z) : K S unit :=
  ok ← (if niceness <? 0 then suser else mret true);
  old ← gets p_nice;
  let n := (if (ok : bool) then niceness else 0) + old in
  let n := if 2 * NZERO <=? n then 2 * NZERO - 1 else n in
  puts (set_p_nice (if n <? 0 then 0 else n)).

Definition profil (pcscale : Z) : K S unit :=
  if 1 <? pcscale mod 2 ^ 41 then error EINVAL else mret tt.

Definition alarm (deltat : Z) : K S unit :=
  c ← gets p_clktim;
  puts (set_p_clktim deltat);;
  puts (set_u_r_val1 c).

Definition pause : K S unit := sleep ChUser.

Definition umask (mask : Z) : K S unit :=
  t ← gets u_cmask;
  puts (set_u_cmask (Z.land mask 511));;
  puts (set_u_r_val1 t).

(** ** Names *)

Definition unlink : K S unit :=
  pp ← namei uchar fuel 2;
  match pp with
  | None => mret tt
  | Some pp =>
      p ← getip pp;
      dent ← gets u_dent;
      ino ← at_ dent 0;
      ip ← (if i_number p =? ino then modip pp (fun x => set_i_count (inc8 (i_count x)) x);; mret (Some pp)
            else iget (Z.to_nat NMOUNT) (i_dev p) ino);
      (match ip with
       | None => mret tt
       | Some ip =>
           x ← getip ip;
           ok ← (if Z.land (i_mode x) IFMT =? IFDIR then suser else mret true);
           (if negb ok then mret tt
            else if negb (i_dev x =? i_dev p) then error EBUSY
            else
              (if i_flag x &? ITEXT then xrele ip else mret tt);;
              x ← getip ip;
              if (i_flag x &? ITEXT) && (i_nlink x =? 1) then error ETXTBSY
              else
                puts (fun s => set_u_offset (u_offset s - DIRENTSZ) (set_u_dent (<[0%nat := 0]> (u_dent s)) s));;
                write_dent cdev_write UDENT pp;;
                modip ip (fun x => set_i_flag (i_flag x |: ICHG) (set_i_nlink (i_nlink x - 1) x)));;
           iput ip
       end);;
      iput pp
  end.

(** [set] stores the new directory in [u_cdir] or [u_rdir], [get] is the old one. *)
Definition chdirec (get : kern S -> option nat) (set : nat -> kern S -> kern S) : K S unit :=
  ip ← namei uchar fuel 0;
  match ip with
  | None => mret tt
  | Some ip =>
      x ← getip ip;
      if negb (Z.land (i_mode x) IFMT =? IFDIR) then error ENOTDIR;; iput ip
      else
        a ← access ip IEXEC;
        if negb (a =? 0) then iput ip
        else
          prele ip;;
          old ← gets get;
          (match old with None => mret tt | Some dp => plock dp;; iput dp end);;
          puts (set ip)
  end.

Definition chdir : K S unit := chdirec (fun s => Some (u_cdir s)) set_u_cdir.
Definition chroot : K S unit :=
  su ← suser; if (su : bool) then chdirec u_rdir (fun ip => set_u_rdir (Some ip)) else mret tt.

Definition chmod (fmode : Z) : K S unit :=
  ip ← owner fuel;
  match ip with
  | None => mret tt
  | Some ip =>
      uid ← gets u_uid;
      let fmode := if uid =? 0 then fmode else fmode &~ ISVTX in
      modip ip (fun x => set_i_flag (i_flag x |: ICHG) (set_i_mode (i_mode x &~ 4095 |: Z.land fmode 4095) x));;
      x ← getip ip;
      (if (i_flag x &? ITEXT) && negb (i_mode x &? ISVTX) then xrele ip else mret tt);;
      iput ip
  end.

Definition chown (uid gid : Z) : K S unit :=
  su ← suser;
  if (su : bool) then
    ip ← owner fuel;
    match ip with
    | None => mret tt
    | Some ip =>
        modip ip (fun x => set_i_flag (i_flag x |: ICHG) (set_i_gid gid (set_i_uid uid x)));;
        iput ip
    end
  else mret tt.

(** [copyin] of [n] words; [None] when a word is not mapped. *)
Definition copyin_words (from : Z) (n : nat) : K S (option (list Z)) :=
  let a := NBPW * (from / NBPW) in
  ok ← gets (fun s => user_mapped s a (NBPW * Z.of_nat n));
  if (ok : bool) then
    bs ← gets (fun s => user_bytes s a (NBPW * Z.of_nat n));
    mret (Some (putbs (replicate n 0) 0 bs))
  else mret None.

Definition utime_tail (ip : nat) (tptr : Z) : K S unit :=
  tv ← copyin_words tptr 2;
  match tv with
  | None => error EFAULT
  | Some tv =>
      ta ← at_ tv 0; tm ← at_ tv 1;
      modip ip (fun x => set_i_flag (i_flag x |: (IACC |: (IUPD |: ICHG))) x);;
      iupdat ip ta tm;;
      iput ip
  end.

Definition utime (tptr : Z) : K S unit :=
  ip ← owner fuel;
  match ip with
  | None => mret tt
  | Some ip => utime_tail ip tptr
  end.
End Sys4.

(** ** The error path of [utime] *)

Section Utime.
Context {S : Type} `{BlockStore S}.

(** C35. When the two times cannot be read from the user, [utime] returns [EFAULT] without
    releasing the inode that [owner] found and locked: it stays locked and its count stays
    up, so that every later [iget] of the file, by any process, goes to sleep on it. *)
Theorem utime_leaves_locked fuel tptr s ip s1 x : owner fuel s = Done (Some ip) s1 -> inodes s1 !! ip = Some x ->
  (i_flag x &? ILOCK) = true -> table_ok (inodes s1) -> i_number x <> 0 ->
  user_mapped s1 (NBPW * (tptr / NBPW)) (NBPW * 2) = false ->
  exists s', utime fuel tptr s = Done tt s' /\ u_error s' = EFAULT /\ inodes s' = inodes s1 /\
    forall n, exists s'', iget n (i_dev x) (i_number x) s' = Sleeps (ChInode ip) s''.
Proof.
  intros Ho Hx Hl T Hn Hm. exists (set_u_error EFAULT s1). split_and!; try done.
  - unfold utime, utime_tail. rewrite (kbind_run _ _ _ _ _ Ho), (kbind_run _ _ None s1 s1); [done|].
    unfold copyin_words. rewrite kgets_run. change (Z.of_nat 2) with 2. by rewrite Hm.
  - intros n. eexists. rewrite (iget_in_core n _ _ (set_u_error EFAULT s1) ip x T Hn Hx); [by rewrite Hl|done].
Qed.
End Utime.

(** A process in directory [dir1], the path "" at 100, nothing else of its memory mapped. *)
Definition kern_utime : kern fstore :=
  set_u_dirp 100 (set_umap (fun b => b =? 100) (set_inodes [set_i_flag 0 dir1] (kern_rw 0 0 0))).

Lemma utime_leaves_locked_witness : exists s', utime 1 600 (set_umem (fun _ => 0) kern_utime) = Done tt s' /\ u_error s' = EFAULT.
Proof.
  destruct (utime_leaves_locked 1 600 (set_umem (fun _ => 0) kern_utime) 0 _ (set_i_flag ILOCK (set_i_count 2 dir1)) eq_refl eq_refl eq_refl)
    as (s' & E & Ee & _); [|done|done|by exists s'].
  intros i j y z Hi Hj. by destruct i as [|i], j as [|j].
Defined.
