(* ===== verification/Ring.v ===== *)
(** * Circular doubly linked lists

    The kernel threads its buffers on rings: a head node whose forward and backward
    links lead round the members and back to itself.  [f] and [b] are the two link
    fields as functions of the node; [ring f b h l] says that the members, in forward
    order from the head [h], are [l]. *)

From S2P Require Import Prelude.

Section Ring.
Context {N : Type} `{EqDecision N}.
Implicit Types (f b : N -> N) (x y z h : N) (l : list N).

(** From [x] through [l] to [y], both ways. *)
Fixpoint seg f b x l y : Prop :=
  match l with
  | [] => f x = y /\ b y = x
  | z :: l => (f x = z /\ b z = x) /\ seg f b z l y
  end.

Definition ring f b h l : Prop := NoDup (h :: l) /\ seg f b h l h.

(** A store into the field of one node. *)
Definition upd (g : N -> N) x y : N -> N := fun z => if decide (z = x) then y else g z.

Lemma upd_same g x y : upd g x y x = y.
Proof. unfold upd. by rewrite decide_True. Qed.

Lemma upd_other g x y z : z <> x -> upd g x y z = g z.
Proof. intros. unfold upd. by rewrite decide_False. Qed.

Lemma seg_app f b x l1 z l2 y : seg f b x (l1 ++ z :: l2) y <-> seg f b x l1 z /\ seg f b z l2 y.
Proof. revert x. induction l1 as [|a l1 IH]; intros x; simpl; [tauto|]. rewrite IH. tauto. Qed.

Lemma seg_ext f b f' b' x l y :
  (forall z, z ∈ x :: l -> f' z = f z) -> (forall z, z ∈ l ++ [y] -> b' z = b z) ->
  seg f b x l y -> seg f' b' x l y.
Proof.
  revert x. induction l as [|a l IH]; intros x Hf Hb; simpl.
  - rewrite Hf, Hb by (simpl; set_solver). done.
  - rewrite Hf, Hb by (simpl; set_solver). intros [? ?]. split; [done|].
    apply IH; [| |done]; intros z Hz; [apply Hf|apply Hb]; simpl; set_solver.
Qed.

Lemma ring_ext f b f' b' h l :
  (forall z, z ∈ h :: l -> f' z = f z) -> (forall z, z ∈ h :: l -> b' z = b z) ->
  ring f b h l -> ring f' b' h l.
Proof. intros Hf Hb [? Hs]. split; [done|]. eapply seg_ext; [| |done]; set_solver. Qed.

Lemma seg_rev f b x l y : seg f b x l y -> seg b f y (rev l) x.
Proof.
  revert x. induction l as [|a l IH]; intros x; simpl; [tauto|]. intros [[? ?] Hs].
  apply seg_app. split; [by apply IH|]. done.
Qed.

Lemma ring_rev f b h l : ring f b h l -> ring b f h (rev l).
Proof.
  intros [Hn Hs]. split; [|by apply seg_rev].
  inversion_clear Hn as [|? ? H1 H2]. constructor.
  - intros H. apply H1, list_elem_of_In, in_rev, list_elem_of_In. done.
  - by rewrite <- (Permutation_rev l).
Qed.

(** ** Walking *)

Lemma seg_head f b x l y : seg f b x l y -> f x = default y (head l).
Proof. destruct l; simpl; tauto. Qed.

Lemma ring_empty f b h l : ring f b h l -> f h = h <-> l = [].
Proof.
  intros [Hn Hs]. rewrite (seg_head _ _ _ _ _ Hs). destruct l as [|a l]; simpl; [done|].
  split; [|done]. intros ->. apply NoDup_cons in Hn as [Hn _]. set_solver.
Qed.

Lemma ring_first f b h x l : ring f b h (x :: l) -> f h = x.
Proof. intros [_ [[? _] _]]. done. Qed.

Lemma seg_last f b x l y : seg f b x l y -> b y ∈ x :: l.
Proof.
  revert x. induction l as [|c l IH]; intros x; simpl.
  - intros [_ ->]. set_solver.
  - intros [_ Hs]. specialize (IH _ Hs). set_solver.
Qed.

Lemma ring_back f b h l : ring f b h l -> b h ∈ h :: l.
Proof. intros [_ Hs]. by eapply seg_last. Qed.

Lemma ring_forw f b h l : ring f b h l -> f h ∈ h :: l.
Proof.
  intros [_ Hs]. rewrite (seg_head _ _ _ _ _ Hs). destruct l as [|a l]; simpl; set_solver.
Qed.

(** The neighbours of a member. *)
Lemma ring_links f b h l1 z l2 : ring f b h (l1 ++ z :: l2) ->
  f z ∈ h :: l1 ++ l2 /\ b z ∈ h :: l1 ++ l2 /\ f z <> z /\ b z <> z /\ z ∉ h :: l1 ++ l2.
Proof.
  intros [Hn Hs]. apply seg_app in Hs as [H1 H2].
  assert (Hz : z ∉ h :: l1 ++ l2).
  { rewrite app_comm_cons, NoDup_app in Hn. destruct Hn as (? & Hd & [? ?]%NoDup_cons). set_solver. }
  apply seg_last in H1. apply seg_head in H2.
  assert (Hf : f z ∈ h :: l1 ++ l2) by (rewrite H2; destruct l2; simpl; set_solver).
  split_and!; [done|set_solver|by intros Hq; rewrite Hq in Hf|intros Hq; rewrite Hq in H1; set_solver|done].
Qed.

(** ** Unlinking [z]: [z->back->forw = z->forw; z->forw->back = z->back] *)

(** The step over [z], left and right of it. *)
Lemma seg_unlink_l f b x l z : NoDup (x :: l) -> z ∉ x :: l -> seg f b x l z ->
  forall y, y ∉ l -> seg (upd f (b z) y) (upd b y (b z)) x l y.
Proof.
  revert x. induction l as [|a l IH]; intros x Hn Hz Hs y Hy; simpl in *.
  - destruct Hs as [? ->]. by rewrite !upd_same.
  - destruct Hs as [[Hf Hb] Hs]. apply NoDup_cons in Hn as [Hx Hn].
    pose proof (seg_last _ _ _ _ _ Hs) as Hbz.
    split; [|apply IH; set_solver]. assert (x <> b z) by (intros ->; done).
    rewrite !upd_other by set_solver. done.
Qed.

Lemma ring_unlink f b h l1 z l2 : ring f b h (l1 ++ z :: l2) ->
  ring (upd f (b z) (f z)) (upd b (f z) (b z)) h (l1 ++ l2).
Proof.
  intros [Hn Hs]. apply seg_app in Hs as [H1 H2].
  assert (Hz : z ∉ h :: l1 ++ l2 /\ NoDup (h :: l1 ++ l2)).
  { rewrite app_comm_cons, NoDup_app in Hn. rewrite app_comm_cons, NoDup_app.
    destruct Hn as (? & Hd & [? ?]%NoDup_cons). split; [set_solver|].
    split_and!; [done| |done]. intros x Hx Hx2. apply (Hd x Hx). set_solver. }
  destruct Hz as [Hz Hn']. split; [done|].
  assert (Hl1 : NoDup (h :: l1)) by (rewrite app_comm_cons, NoDup_app in Hn'; tauto).
  assert (Hzl : z ∉ h :: l1) by set_solver.
  destruct l2 as [|y l2]; simpl in H2.
  - destruct H2 as [Hf Hb]. rewrite app_nil_r, Hf. apply seg_unlink_l; [done..|].
    apply NoDup_cons in Hl1. tauto.
  - destruct H2 as [[Hf Hb] H2]. rewrite Hf. apply seg_app. split.
    + apply seg_unlink_l; [done..|]. rewrite app_comm_cons, NoDup_app in Hn'.
      destruct Hn' as (_ & Hd & _). intros Hy. apply (Hd y); set_solver.
    + pose proof (seg_last _ _ _ _ _ H1) as Hbz.
      rewrite app_comm_cons, NoDup_app in Hn'. destruct Hn' as (_ & Hd & Hn2).
      apply NoDup_cons in Hn2 as [Hy Hn2].
      eapply seg_ext; [| |exact H2]; intros x Hx; apply upd_other; intros ->.
      * apply (Hd _ Hbz). done.
      * apply elem_of_app in Hx as [Hx|Hx]; [done|]. apply list_elem_of_singleton in Hx as ->.
        apply (Hd h); set_solver.
Qed.

(** ** Linking [z] after the head *)

Lemma ring_push f b h l z : ring f b h l -> z ∉ h :: l ->
  ring (upd (upd f z (f h)) h z) (upd (upd b z h) (f h) z) h (z :: l).
Proof.
  intros [Hn Hs] Hz. split.
  - apply NoDup_cons in Hn as [? ?]. rewrite !NoDup_cons. set_solver.
  - assert (Hzh : z <> h) by set_solver. simpl. rewrite upd_same.
    destruct l as [|y l]; simpl in *.
    + destruct Hs as [Hf Hb]. rewrite Hf. rewrite (upd_other _ h z z) by done. rewrite !upd_same.
      by rewrite (upd_other _ h z z), upd_same by done.
    + destruct Hs as [[Hf Hb] Hs]. rewrite Hf.
      apply NoDup_cons in Hn as [Hh Hn]. apply NoDup_cons in Hn as [Hy Hn].
      rewrite (upd_other _ y z z), (upd_other _ h z z), !upd_same by set_solver.
      split; [done|]. split; [done|]. eapply seg_ext; [| |exact Hs]; intros x Hx.
      * rewrite !upd_other; set_solver.
      * rewrite !upd_other; [done| |]; apply elem_of_app in Hx; set_solver.
Qed.

(** ... and before it. *)
Lemma ring_push_back f b h l z : ring f b h l -> z ∉ h :: l ->
  ring (upd (upd f z h) (b h) z) (upd (upd b z (b h)) h z) h (l ++ [z]).
Proof.
  intros Hr Hz. apply ring_rev in Hr. apply (ring_push _ _ _ _ z) in Hr.
  - apply ring_rev in Hr. simpl in Hr. by rewrite rev_involutive in Hr.
  - rewrite elem_of_cons, list_elem_of_In, <- in_rev, <- list_elem_of_In, <- elem_of_cons. done.
Qed.

End Ring.
