(* ===== verification/Bio.v ===== *)
(** * The buffer cache: [kernel/dev/bio.c]

    Blocks of the devices are kept in [NBUF] buffers.  A buffer is on two rings: the
    chain of its device (or of [bfreelist]), and, when nobody holds it, the list of
    available buffers in the order of their last use.  A routine gets a buffer marked
    [B_BUSY] and releases it, at once or by a write the device finishes later.

    The headers are a store of records linked by pointers, as in C.  A routine runs until
    it sleeps, takes an interrupt or returns; what comes after a sleep is a function of
    the state the process wakes up in, so that other processes and the devices can be
    given any behaviour in between.  A device is the queue of the requests it has
    accepted, any of which it may finish, with or without an error, at any interrupt. *)

From stdpp Require Import relations.
From S2P Require Import Prelude Param Utab Kern Ring.

Definition NBUF : nat := 16.
Definition nblkdev : Z := 2.
Definition PSWP : Z := 0.
Definition PRIBIO : Z := 20.

Definition B_READ : Z := 1.
Definition B_DONE : Z := 2.
Definition B_ERROR : Z := 4.
Definition B_BUSY : Z := 8.
Definition B_PHYS : Z := 16.
Definition B_WANTED : Z := 64.
Definition B_AGE : Z := 128.
Definition B_ASYNC : Z := 256.
Definition B_DELWRI : Z := 512.
Definition B_TAPE : Z := 1024.
Definition SLOCK : Z := 4.

(** ** Data *)

(** The buffer headers there are. *)
Inductive ref :=
  | NoBuf                (* NULL *)
  | Bfreelist
  | Tab (m : Z)          (* bdevsw[m].d_tab *)
  | Swbuf1
  | Swbuf2
  | Raw (m : Z)          (* rmdbuf, rmbbuf *)
  | Bufp (i : nat).      (* &buf[i] *)

#[global] Instance ref_eq_dec : EqDecision ref.
Proof. solve_decision. Defined.

(** [struct buf], less [b_addr], which names [buffers[i]] for good. *)
Record buf := Hdr {
  b_flags : Z;
  b_forw : ref;
  b_back : ref;
  av_forw : ref;
  av_back : ref;
  b_dev : Z;
  b_wcount : Z;  (* transfer count, in words *)
  b_blkno : Z;
  b_error : Z;
  b_resid : Z;  (* words not transferred *)
  b_paddr : Z  (* valid with B_PHYS *)
}.

Definition set_b_flags (v : Z) (r : buf) : buf :=
  Hdr v (b_forw r) (b_back r) (av_forw r) (av_back r) (b_dev r) (b_wcount r) (b_blkno r) (b_error
  r) (b_resid r) (b_paddr r).
Definition set_b_forw (v : ref) (r : buf) : buf :=
  Hdr (b_flags r) v (b_back r) (av_forw r) (av_back r) (b_dev r) (b_wcount r) (b_blkno r) (b_error
  r) (b_resid r) (b_paddr r).
Definition set_b_back (v : ref) (r : buf) : buf :=
  Hdr (b_flags r) (b_forw r) v (av_forw r) (av_back r) (b_dev r) (b_wcount r) (b_blkno r) (b_error
  r) (b_resid r) (b_paddr r).
Definition set_av_forw (v : ref) (r : buf) : buf :=
  Hdr (b_flags r) (b_forw r) (b_back r) v (av_back r) (b_dev r) (b_wcount r) (b_blkno r) (b_error
  r) (b_resid r) (b_paddr r).
Definition set_av_back (v : ref) (r : buf) : buf :=
  Hdr (b_flags r) (b_forw r) (b_back r) (av_forw r) v (b_dev r) (b_wcount r) (b_blkno r) (b_error
  r) (b_resid r) (b_paddr r).
Definition set_b_dev (v : Z) (r : buf) : buf :=
  Hdr (b_flags r) (b_forw r) (b_back r) (av_forw r) (av_back r) v (b_wcount r) (b_blkno r)
  (b_error r) (b_resid r) (b_paddr r).
Definition set_b_wcount (v : Z) (r : buf) : buf :=
  Hdr (b_flags r) (b_forw r) (b_back r) (av_forw r) (av_back r) (b_dev r) v (b_blkno r) (b_error
  r) (b_resid r) (b_paddr r).
Definition set_b_blkno (v : Z) (r : buf) : buf :=
  Hdr (b_flags r) (b_forw r) (b_back r) (av_forw r) (av_back r) (b_dev r) (b_wcount r) v (b_error
  r) (b_resid r) (b_paddr r).
Definition set_b_error (v : Z) (r : buf) : buf :=
  Hdr (b_flags r) (b_forw r) (b_back r) (av_forw r) (av_back r) (b_dev r) (b_wcount r) (b_blkno r)
  v (b_resid r) (b_paddr r).
Definition set_b_resid (v : Z) (r : buf) : buf :=
  Hdr (b_flags r) (b_forw r) (b_back r) (av_forw r) (av_back r) (b_dev r) (b_wcount r) (b_blkno r)
  (b_error r) v (b_paddr r).
Definition set_b_paddr (v : Z) (r : buf) : buf :=
  Hdr (b_flags r) (b_forw r) (b_back r) (av_forw r) (av_back r) (b_dev r) (b_wcount r) (b_blkno r)
  (b_error r) (b_resid r) v.
(** [io_info]. *)
Record iocount := Iocount {
  nread : Z;
  nreada : Z;
  ncache : Z;
  nwrite : Z;
  bufcount : list Z
}.

Definition set_nread (v : Z) (r : iocount) : iocount :=
  Iocount v (nreada r) (ncache r) (nwrite r) (bufcount r).
Definition set_nreada (v : Z) (r : iocount) : iocount :=
  Iocount (nread r) v (ncache r) (nwrite r) (bufcount r).
Definition set_ncache (v : Z) (r : iocount) : iocount :=
  Iocount (nread r) (nreada r) v (nwrite r) (bufcount r).
Definition set_nwrite (v : Z) (r : iocount) : iocount :=
  Iocount (nread r) (nreada r) (ncache r) v (bufcount r).
Definition set_bufcount (v : list Z) (r : iocount) : iocount :=
  Iocount (nread r) (nreada r) (ncache r) (nwrite r) v.
(** What the buffer code shares: the headers and blocks, and the devices below. *)
Record bst := Bst {
  hd : ref -> buf;  (* every buffer header *)
  buffers : nat -> list Z;  (* buffers[NBUF][BSIZEW] *)
  pmem : Z -> Z;  (* the physical words of the images *)
  platter : Z -> Z -> Z;  (* a word of a device *)
  dq : list ref;  (* what the drivers have to do *)
  io_info : iocount;
  wakes : list ref  (* wakeup()s, in order *)
}.

Definition set_hd (v : ref -> buf) (r : bst) : bst :=
  Bst v (buffers r) (pmem r) (platter r) (dq r) (io_info r) (wakes r).
Definition set_buffers (v : nat -> list Z) (r : bst) : bst :=
  Bst (hd r) v (pmem r) (platter r) (dq r) (io_info r) (wakes r).
Definition set_pmem (v : Z -> Z) (r : bst) : bst :=
  Bst (hd r) (buffers r) v (platter r) (dq r) (io_info r) (wakes r).
Definition set_platter (v : Z -> Z -> Z) (r : bst) : bst :=
  Bst (hd r) (buffers r) (pmem r) v (dq r) (io_info r) (wakes r).
Definition set_dq (v : list ref) (r : bst) : bst :=
  Bst (hd r) (buffers r) (pmem r) (platter r) v (io_info r) (wakes r).
Definition set_io_info (v : iocount) (r : bst) : bst :=
  Bst (hd r) (buffers r) (pmem r) (platter r) (dq r) v (wakes r).
Definition set_wakes (v : list ref) (r : bst) : bst :=
  Bst (hd r) (buffers r) (pmem r) (platter r) (dq r) (io_info r) v.
(** What belongs to the process that runs. *)
Record upriv := Upriv {
  u_error : Z;
  u_base : Z;
  u_count : Z;
  u_offset : Z;
  u_tsize : Z;
  u_dsize : Z;
  u_upt : list Z;  (* the shadow page table *)
  p_flag : Z  (* u.u_procp->p_flag *)
}.

Definition set_u_error (v : Z) (r : upriv) : upriv :=
  Upriv v (u_base r) (u_count r) (u_offset r) (u_tsize r) (u_dsize r) (u_upt r) (p_flag r).
Definition set_u_base (v : Z) (r : upriv) : upriv :=
  Upriv (u_error r) v (u_count r) (u_offset r) (u_tsize r) (u_dsize r) (u_upt r) (p_flag r).
Definition set_u_count (v : Z) (r : upriv) : upriv :=
  Upriv (u_error r) (u_base r) v (u_offset r) (u_tsize r) (u_dsize r) (u_upt r) (p_flag r).
Definition set_u_offset (v : Z) (r : upriv) : upriv :=
  Upriv (u_error r) (u_base r) (u_count r) v (u_tsize r) (u_dsize r) (u_upt r) (p_flag r).
Definition set_u_tsize (v : Z) (r : upriv) : upriv :=
  Upriv (u_error r) (u_base r) (u_count r) (u_offset r) v (u_dsize r) (u_upt r) (p_flag r).
Definition set_u_dsize (v : Z) (r : upriv) : upriv :=
  Upriv (u_error r) (u_base r) (u_count r) (u_offset r) (u_tsize r) v (u_upt r) (p_flag r).
Definition set_u_upt (v : list Z) (r : upriv) : upriv :=
  Upriv (u_error r) (u_base r) (u_count r) (u_offset r) (u_tsize r) (u_dsize r) v (p_flag r).
Definition set_p_flag (v : Z) (r : upriv) : upriv :=
  Upriv (u_error r) (u_base r) (u_count r) (u_offset r) (u_tsize r) (u_dsize r) (u_upt r) v.

Definition upd_hd (r : ref) (g : buf -> buf) (s : bst) : bst :=
  set_hd (fun x => if decide (x = r) then g (hd s r) else hd s x) s.

(** [r->b_flags |= m] and [r->b_flags &= ~m]. *)
Definition bor (r : ref) (m : Z) : bst -> bst := upd_hd r (fun h => set_b_flags (b_flags h |: m) h).
Definition bclr (r : ref) (m : Z) : bst -> bst := upd_hd r (fun h => set_b_flags (b_flags h &~ m) h).

Definition has (s : bst) (r : ref) (m : Z) : bool := b_flags (hd s r) &? m.

(** ** Releasing a buffer *)

Definition bwakeup (c : ref) (s : bst) : bst := set_wakes (wakes s ++ [c]) s.

(** Lines 173-179 and 179-185: before or after the head of the available list. *)
Definition av_first (bp : ref) (s : bst) : bst :=
  let f := av_forw (hd s Bfreelist) in
  let s := upd_hd f (set_av_back bp) s in
  let s := upd_hd bp (set_av_forw (av_forw (hd s Bfreelist))) s in
  let s := upd_hd Bfreelist (set_av_forw bp) s in
  upd_hd bp (set_av_back Bfreelist) s.

Definition av_last (bp : ref) (s : bst) : bst :=
  let k := av_back (hd s Bfreelist) in
  let s := upd_hd k (set_av_forw bp) s in
  let s := upd_hd bp (set_av_back (av_back (hd s Bfreelist))) s in
  let s := upd_hd Bfreelist (set_av_back bp) s in
  upd_hd bp (set_av_forw Bfreelist) s.

Definition brelse (bp : ref) (s : bst) : bst :=
  let s := if has s bp B_WANTED then bwakeup bp s else s in
  let s := if has s Bfreelist B_WANTED then bwakeup Bfreelist (bclr Bfreelist B_WANTED s) else s in
  let s := if has s bp B_ERROR then upd_hd bp (set_b_dev NODEV) s else s in
  let s := if has s bp B_AGE then av_first bp s else av_last bp s in
  bclr bp (B_WANTED |: B_BUSY |: B_ASYNC |: B_AGE) s.

Definition iodone (bp : ref) (s : bst) : bst :=
  let s := bor bp B_DONE s in
  if has s bp B_ASYNC then brelse bp s
  else bwakeup bp (bclr bp B_WANTED s).

Definition notavail (bp : ref) (s : bst) : bst :=
  let s := upd_hd (av_back (hd s bp)) (set_av_forw (av_forw (hd s bp))) s in
  let s := upd_hd (av_forw (hd s bp)) (set_av_back (av_back (hd s bp))) s in
  bor bp B_BUSY s.

(** ** The devices

    [bdevsw] has the disks, major 0, and the drums, major 1, and both keep their
    header there.  A strategy routine refuses a request that does not fit the device
    ([refuse]) and queues any other one. *)

Definition d_tab (m : Z) : ref := if (0 <=? m) && (m <? nblkdev) then Tab m else NoBuf.

(** [bufpaddr]: word [j] of what a request moves, in core. *)
Definition core_word (s : bst) (r : ref) (j : Z) : Z :=
  if has s r B_PHYS then pmem s (b_paddr (hd s r) + j)
  else match r with Bufp i => default 0 (buffers s i !! Z.to_nat j) | _ => 0 end.

(** [k] words of request [r] go between the device and core. *)
Definition dev_word (s : bst) (r : ref) (j : Z) : Z :=
  platter s (b_dev (hd s r)) (b_blkno (hd s r) * BSIZEW + j).

Definition to_core (r : ref) (k : Z) (s : bst) : bst :=
  if has s r B_PHYS then
    let a := b_paddr (hd s r) in
    set_pmem (fun w => if (a <=? w) && (w <? a + k) then dev_word s r (w - a) else pmem s w) s
  else match r with
  | Bufp i => set_buffers (fun x => if decide (x = i) then
      imap (fun j w => if Z.of_nat j <? k then dev_word s r (Z.of_nat j) else w) (buffers s i)
      else buffers s x) s
  | _ => s
  end.

Definition to_platter (r : ref) (k : Z) (s : bst) : bst :=
  let a := b_blkno (hd s r) * BSIZEW in
  set_platter (fun d w => if (d =? b_dev (hd s r)) && (a <=? w) && (w <? a + k)
                          then core_word s r (w - a) else platter s d w) s.

Definition transfer (r : ref) (k : Z) (s : bst) : bst :=
  if has s r B_READ then to_core r k s else to_platter r k s.

(** The device is through with [r]: all of it went, or an error stopped it after [k]
    words. *)
Definition finish (r : ref) (err : option Z) (s : bst) : bst :=
  let s := set_dq (filter (.≠ r) (dq s)) s in
  let n := b_wcount (hd s r) in
  match err with
  | None => iodone r (upd_hd r (set_b_resid 0) (transfer r n s))
  | Some k => iodone r (upd_hd r (set_b_resid (n - k)) (bor r B_ERROR (transfer r k s)))
  end.

(** What an interrupt may do. *)
Inductive io_step (s : bst) : bst -> Prop :=
  | io_finish r err : r ∈ dq s ->
      match err with None => True | Some k => 0 <= k <= b_wcount (hd s r) end ->
      io_step s (finish r err s).

Definition io : bst -> bst -> Prop := rtc io_step.

(** ** Computations

    [Intr] is a point where interrupts may come, [Asleep] a sleep; both go on from whatever
    state they are resumed in.  [Intr true] is the one stretch of [getblk] where it matters
    which interrupt comes, between its search and its [spl6()]. *)

Inductive bres (A : Type) : Type :=
  | Val (a : A) (u : upriv) (s : bst)
  | Intr (w : bool) (s : bst) (k : bst -> bres A)
  | Asleep (c : ref) (pri : Z) (s : bst) (k : bst -> bres A)
  | BPanic (msg : string)
  | BWild
  | BNoFuel.
Arguments Val {A} a u s.
Arguments Intr {A} w s k.
Arguments Asleep {A} c pri s k.
Arguments BPanic {A} msg.
Arguments BWild {A}.
Arguments BNoFuel {A}.

Definition B (A : Type) : Type := upriv -> bst -> bres A.

Fixpoint bres_bind {A C} (r : bres A) (f : A -> B C) : bres C :=
  match r with
  | Val a u s => f a u s
  | Intr w s k => Intr w s (fun s => bres_bind (k s) f)
  | Asleep c p s k => Asleep c p s (fun s => bres_bind (k s) f)
  | BPanic msg => BPanic msg
  | BWild => BWild
  | BNoFuel => BNoFuel
  end.

#[global] Instance b_ret : MRet B := fun A a u s => Val a u s.
#[global] Instance b_bind : MBind B := fun A C f m u s => bres_bind (m u s) f.

Definition interrupts (w : bool) : B unit := fun u s => Intr w s (fun s => Val tt u s).
Definition spl0 : B unit := interrupts false.
Definition bsleep (c : ref) (pri : Z) : B unit := fun u s => Asleep c pri s (fun s => Val tt u s).
Definition bpanic {A} (msg : string) : B A := fun _ _ => BPanic msg.
Definition bwild {A} : B A := fun _ _ => BWild.
Definition bnofuel {A} : B A := fun _ _ => BNoFuel.
Definition bget {A} (f : bst -> A) : B A := fun u s => Val (f s) u s.
Definition bput (f : bst -> bst) : B unit := fun u s => Val tt u (f s).
Definition uput (f : upriv -> upriv) : B unit := fun u s => Val tt (f u) s.

Definition count (f : iocount -> iocount) : B unit := bput (fun s => set_io_info (f (io_info s)) s).

(** ** The routines *)

Section Routines.

(** The requests the strategy routine of a major refuses. *)
Context (refuse : Z -> buf -> bool).

(** What [bdevsw[m].d_strategy] does with a request. *)
Definition launch (m : Z) (bp : ref) (s : bst) : bst :=
  if refuse m (hd s bp) then
    iodone bp (upd_hd bp (fun h => set_b_resid (b_wcount h) h) (bor bp B_ERROR s))
  else set_dq (dq s ++ [bp]) s.

(** The call; when it returns the transfer may be over already, or have failed. *)
Definition strategy (m : Z) (bp : ref) : B unit :=
  if (m <? 0) || (nblkdev <=? m) then bwild else bput (launch m bp);; interrupts false.

Definition geterror (bp : ref) : B unit :=
  h ← bget (fun s => hd s bp);
  if b_flags h &? B_ERROR then uput (set_u_error (if b_error h =? 0 then EIO else b_error h))
  else mret tt.

(** [while ((bp->b_flags & m) == 0) sleep(bp, pri)]. *)
Fixpoint await (fuel : nat) (bp : ref) (pri : Z) : B unit :=
  match fuel with
  | O => bnofuel
  | S fuel =>
      done ← bget (fun s => has s bp B_DONE);
      if (done : bool) then mret tt
      else bsleep bp pri;; await fuel bp pri
  end.

Definition iowait (fuel : nat) (bp : ref) : B unit :=
  await fuel bp PRIBIO;; spl0;; geterror bp.

Definition bwrite (fuel : nat) (bp : ref) : B unit :=
  flag ← bget (fun s => b_flags (hd s bp));
  bput (bclr bp (B_READ |: B_DONE |: B_ERROR |: B_DELWRI |: B_AGE));;
  bput (upd_hd bp (set_b_wcount BSIZEW));;
  count (fun c => set_nwrite (nwrite c + 1) c);;
  dev ← bget (fun s => b_dev (hd s bp));
  strategy (major dev) bp;;
  if negb (flag &? B_ASYNC) then iowait fuel bp;; bput (brelse bp)
  else if flag &? B_DELWRI then bput (bor bp B_AGE)
  else geterror bp.

Definition bawrite (fuel : nat) (bp : ref) : B unit :=
  bput (bor bp B_ASYNC);; bwrite fuel bp.

Definition bdwrite (fuel : nat) (bp : ref) : B unit :=
  dp ← bget (fun s => d_tab (major (b_dev (hd s bp))));
  tape ← bget (fun s => has s dp B_TAPE);
  if (tape : bool) then bawrite fuel bp
  else bput (bor bp (B_DELWRI |: B_DONE));; bput (brelse bp).

(** A walk of [dp]'s chain from [bp] to the first header that passes [test]. *)
Fixpoint scan (fuel : nat) (s : bst) (dp bp : ref) (test : buf -> bool) : option (option ref) :=
  if decide (bp = dp) then Some None
  else match fuel with
  | O => None
  | S fuel => if test (hd s bp) then Some (Some bp) else scan fuel s dp (b_forw (hd s bp)) test
  end.

Definition is_blk (dev blkno : Z) (h : buf) : bool := (b_blkno h =? blkno) && (b_dev h =? dev).

Definition find_blk (dev blkno : Z) (s : bst) : option (option ref) :=
  let dp := d_tab (major dev) in scan NBUF s dp (b_forw (hd s dp)) (is_blk dev blkno).

Definition incore (dev blkno : Z) : B bool :=
  r ← bget (find_blk dev blkno);
  match r with
  | Some r => mret (bool_decide (r <> None))
  | None => bnofuel
  end.

(** How many buffers were used after [bp], counted in [io_info.bufcount]. *)
Fixpoint av_depth (fuel : nat) (s : bst) (dp : ref) : nat :=
  match fuel with
  | O => O
  | S fuel => if decide (dp = Bfreelist) then O else S (av_depth fuel s (av_forw (hd s dp)))
  end.

Definition count_depth (bp : ref) (s : bst) : bst :=
  let i := av_depth NBUF s (av_forw (hd s bp)) in
  if (i <? NBUF)%nat then
    set_io_info (set_bufcount (alter (fun n => n + 1) i (bufcount (io_info s))) (io_info s)) s
  else s.

(** Off its chain, and first on the chain of [dp]. *)
Definition unchain (bp : ref) (s : bst) : bst :=
  let s := upd_hd (b_back (hd s bp)) (set_b_forw (b_forw (hd s bp))) s in
  upd_hd (b_forw (hd s bp)) (set_b_back (b_back (hd s bp))) s.

Definition enchain (dp bp : ref) (s : bst) : bst :=
  let s := upd_hd bp (set_b_forw (b_forw (hd s dp))) s in
  let s := upd_hd bp (set_b_back dp) s in
  let s := upd_hd (b_forw (hd s dp)) (set_b_back bp) s in
  upd_hd dp (set_b_forw bp) s.

(** The oldest available buffer, written out first when its write is due: [None] then. *)
Definition oldest (fuel : nat) : B (option ref) :=
  bp ← bget (fun s => av_forw (hd s Bfreelist));
  bput (notavail bp);;
  delwri ← bget (fun s => has s bp B_DELWRI);
  if (delwri : bool) then bput (bor bp B_ASYNC);; bwrite fuel bp;; mret None
  else mret (Some bp).

Fixpoint getblk_loop (fuel : nat) (dev blkno : Z) : B ref :=
  match fuel with
  | O => bnofuel
  | S fuel =>
      spl0;;
      let dp := d_tab (major dev) in
      if decide (dp = NoBuf) then bpanic "devtab"
      else
        r ← bget (find_blk dev blkno);
        match r with
        | None => bnofuel
        | Some (Some bp) =>
            interrupts true;;
            busy ← bget (fun s => has s bp B_BUSY);
            if (busy : bool) then
              bput (bor bp B_WANTED);;
              bsleep bp (PRIBIO + 1);;
              getblk_loop fuel dev blkno
            else
              spl0;;
              bput (count_depth bp);;
              bput (notavail bp);;
              mret bp
        | Some None =>
            interrupts true;;
            f ← bget (fun s => av_forw (hd s Bfreelist));
            if decide (f = Bfreelist) then
              bput (bor Bfreelist B_WANTED);;
              bsleep Bfreelist (PRIBIO + 1);;
              getblk_loop fuel dev blkno
            else
              spl0;;
              o ← oldest fuel;
              match o with
              | None => getblk_loop fuel dev blkno
              | Some bp =>
                  bput (upd_hd bp (set_b_flags B_BUSY));;
                  bput (unchain bp);;
                  bput (enchain dp bp);;
                  bput (upd_hd bp (fun h => set_b_blkno blkno (set_b_dev dev h)));;
                  mret bp
              end
        end
  end.

Definition getblk (fuel : nat) (dev blkno : Z) : B ref :=
  if (major dev <? 0) || (nblkdev <=? major dev) then bpanic "blkdev"
  else getblk_loop fuel dev blkno.

Fixpoint wait_avail (fuel : nat) : B unit :=
  match fuel with
  | O => bnofuel
  | S fuel =>
      f ← bget (fun s => av_forw (hd s Bfreelist));
      if decide (f = Bfreelist) then
        bput (bor Bfreelist B_WANTED);;
        bsleep Bfreelist (PRIBIO + 1);;
        wait_avail fuel
      else mret tt
  end.

Fixpoint geteblk (fuel : nat) : B ref :=
  match fuel with
  | O => bnofuel
  | S fuel =>
      wait_avail fuel;;
      spl0;;
      o ← oldest fuel;
      match o with
      | None => geteblk fuel
      | Some bp =>
          bput (upd_hd bp (set_b_flags B_BUSY));;
          bput (unchain bp);;
          bput (enchain Bfreelist bp);;
          bput (upd_hd bp (set_b_dev NODEV));;
          mret bp
      end
  end.

(** [bp->b_flags |= m; bp->b_wcount = BSIZEW; strategy(bp)]. *)
Definition start_read (dev : Z) (bp : ref) (m : Z) : B unit :=
  bput (bor bp m);;
  bput (upd_hd bp (set_b_wcount BSIZEW));;
  strategy (major dev) bp.

Definition bread (fuel : nat) (dev blkno : Z) : B ref :=
  bp ← getblk fuel dev blkno;
  done ← bget (fun s => has s bp B_DONE);
  if (done : bool) then
    count (fun c => set_ncache (ncache c + 1) c);;
    mret bp
  else
    start_read dev bp B_READ;;
    count (fun c => set_nread (nread c + 1) c);;
    iowait fuel bp;;
    mret bp.

(** The two parts of [breada]: the block, unless it is in core, and the one after. *)
Definition breada_first (fuel : nat) (dev blkno : Z) : B (option ref) :=
  here ← incore dev blkno;
  if (here : bool) then mret None
  else
    bp ← getblk fuel dev blkno;
    done ← bget (fun s => has s bp B_DONE);
    (if (done : bool) then mret tt
     else start_read dev bp B_READ;;
          count (fun c => set_nread (nread c + 1) c));;
    mret (Some bp).

Definition breada_ahead (fuel : nat) (dev rablkno : Z) : B unit :=
  if rablkno =? 0 then mret tt
  else
    here ← incore dev rablkno;
    if (here : bool) then mret tt
    else
      rabp ← getblk fuel dev rablkno;
      done ← bget (fun s => has s rabp B_DONE);
      if (done : bool) then bput (brelse rabp)
      else start_read dev rabp (B_READ |: B_ASYNC);;
           count (fun c => set_nreada (nreada c + 1) c).

Definition breada (fuel : nat) (dev blkno rablkno : Z) : B ref :=
  bp ← breada_first fuel dev blkno;
  breada_ahead fuel dev rablkno;;
  match bp with
  | None => bread fuel dev blkno
  | Some bp => iowait fuel bp;; mret bp
  end.

Definition clrbuf (i : nat) : bst -> bst := fun s =>
  upd_hd (Bufp i) (set_b_resid 0)
    (set_buffers (fun x => if decide (x = i) then replicate (Z.to_nat BSIZEW) 0 else buffers s x) s).

(** The first available buffer with a write due on [dev]. *)
Fixpoint due (fuel : nat) (s : bst) (bp : ref) (dev : Z) : option (option ref) :=
  if decide (bp = Bfreelist) then Some None
  else match fuel with
  | O => None
  | S fuel =>
      let h := hd s bp in
      if (b_flags h &? B_DELWRI) && ((dev =? NODEV) || (dev =? b_dev h)) then Some (Some bp)
      else due fuel s (av_forw h) dev
  end.

Fixpoint bflush (fuel : nat) (dev : Z) : B unit :=
  match fuel with
  | O => bnofuel
  | S fuel =>
      r ← bget (fun s => due NBUF s (av_forw (hd s Bfreelist)) dev);
      match r with
      | None => bnofuel
      | Some None => spl0
      | Some (Some bp) =>
          bput (bor bp B_ASYNC);;
          bput (notavail bp);;
          bwrite fuel bp;;
          bflush fuel dev
      end
  end.

(** ** Swapping and raw transfers *)

(** The first loop of [swap] and of [physio]: the header is taken. *)
Fixpoint take_header (fuel : nat) (bp : ref) (pri : Z) : B unit :=
  match fuel with
  | O => bnofuel
  | S fuel =>
      busy ← bget (fun s => has s bp B_BUSY);
      if (busy : bool) then
        bput (bor bp B_WANTED);;
        bsleep bp pri;;
        take_header fuel bp pri
      else mret tt
  end.

(** Lines 413-414 and 487-490: the header is given back. *)
Definition drop_header (bp : ref) : B unit :=
  wanted ← bget (fun s => has s bp B_WANTED);
  (if (wanted : bool) then bput (bwakeup bp) else mret tt);;
  spl0;;
  bput (bclr bp (B_BUSY |: B_WANTED)).

Context (swapdev swplo : Z).

(** One transfer of at most a page at a time; [err] latches an error. *)
Fixpoint swap_loop (fuel : nat) (bp : ref) (blkno coreaddr count rdflg err : Z) : B Z :=
  if count =? 0 then mret err
  else match fuel with
  | O => bnofuel
  | S fuel =>
      let tcount := if PGSZ <? count then PGSZ else count in
      bput (upd_hd bp (fun h =>
        set_b_paddr coreaddr (set_b_blkno (swplo + blkno) (set_b_wcount tcount
          (set_b_dev swapdev (set_b_flags (B_BUSY |: B_PHYS |: rdflg) h))))));;
      strategy (major swapdev) bp;;
      await fuel bp PSWP;;
      e ← bget (fun s => Z.land (b_flags (hd s bp)) B_ERROR);
      swap_loop fuel bp (blkno + wtodb tcount) (coreaddr + tcount) (count - tcount) rdflg (err |: e)
  end.

Definition swap (fuel : nat) (blkno coreaddr count rdflg : Z) : B unit :=
  bp ← bget (fun s => if has s Swbuf1 B_BUSY && negb (has s Swbuf2 B_WANTED) then Swbuf2 else Swbuf1);
  take_header fuel bp (PSWP + 1);;
  err ← swap_loop fuel bp blkno coreaddr count rdflg 0;
  drop_header bp;;
  if err =? 0 then mret tt else bpanic "IO err in swap".

(** The tests of [physio] before it takes the header: the physical address. *)
Definition physio_addr (u : upriv) : option Z :=
  if negb (ptrbyte (u_base u) =? 5) || negb (Z.rem (u_count u) NBPW =? 0) then None
  else
    let base := ptrword (u_base u) in
    let nw := Z.quot (u_count u) NBPW in
    if (nw =? 0) || (wrap (base + nw) <? base) then None
    else if base <? u_tsize u then None
    else if (u_tsize u + u_dsize u <? base + nw) && (base <? USTKPAGE * PGSZ) then None
    else match physrange (u_upt u) base nw with
    | None | Some 0 => None
    | Some pa => Some pa
    end.

Definition physio (fuel : nat) (bp : ref) (dev rw : Z) : B unit := fun u s =>
  match physio_addr u with
  | None => uput (set_u_error EFAULT) u s
  | Some pa =>
      (take_header fuel bp (PRIBIO + 1);;
       bput (upd_hd bp (fun h =>
         set_b_error 0 (set_b_wcount (Z.quot (u_count u) NBPW) (set_b_blkno (wtodb (btow (u_offset u)))
           (set_b_paddr pa (set_b_dev dev (set_b_flags (B_BUSY |: B_PHYS |: rw) h)))))));;
       uput (fun u => set_p_flag (p_flag u |: SLOCK) u);;
       strategy (major dev) bp;;
       await fuel bp PRIBIO;;
       uput (fun u => set_p_flag (p_flag u &~ SLOCK) u);;
       drop_header bp;;
       resid ← bget (fun s => b_resid (hd s bp));
       uput (set_u_count (wtob resid));;
       geterror bp) u s
  end.

End Routines.

(** Steps that only look at the state or change it. *)
Lemma bget_bind {A C} (f : bst -> A) (k : A -> B C) u s : (bget f ≫= k) u s = k (f s) u s.
Proof. reflexivity. Qed.

Lemma bput_bind {C} (f : bst -> bst) (k : unit -> B C) u s : (bput f ≫= k) u s = k tt u (f s).
Proof. reflexivity. Qed.

Ltac steps := cbv beta zeta; repeat (rewrite bget_bind || rewrite bput_bind; cbv beta zeta).

(** ** The start: [binit] of [kernel/main.c] *)

Definition binit_buf (i : nat) (s : bst) : bst :=
  let bp := Bufp i in
  let s := upd_hd bp (set_b_dev NODEV) s in
  let s := upd_hd bp (set_b_back Bfreelist) s in
  let s := upd_hd bp (set_b_forw (b_forw (hd s Bfreelist))) s in
  let s := upd_hd (b_forw (hd s Bfreelist)) (set_b_back bp) s in
  let s := upd_hd Bfreelist (set_b_forw bp) s in
  let s := upd_hd bp (set_b_flags B_BUSY) s in
  brelse bp s.

Definition binit (s : bst) : bst :=
  let s := upd_hd Bfreelist (fun h =>
    set_b_forw Bfreelist (set_b_back Bfreelist (set_av_forw Bfreelist (set_av_back Bfreelist h)))) s in
  let s := fold_left (fun s i => binit_buf i s) (seq 0 NBUF) s in
  fold_left (fun s m => upd_hd (Tab m) (fun h => set_b_back (Tab m) (set_b_forw (Tab m) h)) s)
    (seqZ 0 nblkdev) s.

(** ** A processor with one process

    The state the machine starts in, with the static headers zero, and the run of a
    computation in which an interrupt comes only when the process sleeps and finishes the
    request at the head of the queue; [bad] says which transfers fail. *)

Definition hdr0 : buf := Hdr 0 NoBuf NoBuf NoBuf NoBuf 0 0 0 0 0 0.
Definition bst0 (p : Z -> Z -> Z) : bst :=
  Bst (fun _ => hdr0) (fun _ => replicate (Z.to_nat BSIZEW) 0) (fun _ => 0) p []
    (Iocount 0 0 0 0 (replicate NBUF 0)) [].

Fixpoint alone {A} (bad : buf -> option Z) (r : bres A) : option (A * upriv * bst) :=
  match r with
  | Val a u s => Some (a, u, s)
  | Intr _ s k => alone bad (k s)
  | Asleep _ _ s k =>
      match dq s with
      | [] => None
      | r :: _ => alone bad (k (finish r (bad (hd s r)) s))
      end
  | _ => None
  end.
