(* ===== verification/Bcache.v ===== *)
(** * The buffer cache: invariant and interference

    What holds of the buffers whenever no routine of [Bio] is in the middle of an update,
    what a process may rely on while it sleeps, and what it guarantees the others. *)

From stdpp Require Import relations.
From S2P Require Import Prelude Param Utab Kern Ring Bio.

Implicit Types (s : bst) (r : ref) (i j : nat) (H : list ref).

(** ** Contents *)

(** Block [b] of device [d] as it is on the device. *)
Definition block s (d b : Z) : list Z :=
  (fun j => platter s d (b * BSIZEW + Z.of_nat j)) <$> seq 0 (Z.to_nat BSIZEW).

(** The header of buffer [i], without its links. *)
Definition bdev s i : Z := b_dev (hd s (Bufp i)).
Definition bblk s i : Z := b_blkno (hd s (Bufp i)).
Definition flag s i m : bool := has s (Bufp i) m.

Definition names s (d b : Z) i : Prop := d <> NODEV /\ bdev s i = d /\ bblk s i = b.

(** A buffer whose words count: read or written, or on its way to the device. *)
Definition valid s i : bool :=
  (flag s i B_DONE && negb (flag s i B_ERROR)) || (bool_decide (Bufp i ∈ dq s) && negb (flag s i B_READ)).

(** Block [b] of device [d] as a process sees it. *)
Definition holder s (d b : Z) : option nat :=
  fst <$> list_find (fun i => names s d b i /\ valid s i = true) (seq 0 NBUF).
Definition view s (d b : Z) : list Z :=
  match holder s d b with Some i => buffers s i | None => block s d b end.

(** ** The invariant *)

Definition heads : list ref := [Bfreelist; Tab 0; Tab 1].

(** Each buffer is on one chain. *)
Definition parted (cl : ref -> list nat) : Prop :=
  forall i h h', h ∈ heads -> h' ∈ heads -> i ∈ cl h -> i ∈ cl h' -> h = h'.

(** The two kinds of rings. *)
Record linked s (av : list nat) (cl : ref -> list nat) : Prop := {
  ln_av : ring (fun r => av_forw (hd s r)) (fun r => av_back (hd s r)) Bfreelist (Bufp <$> av);
  ln_cl h : h ∈ heads -> ring (fun r => b_forw (hd s r)) (fun r => b_back (hd s r)) h (Bufp <$> cl h);
}.

(** The interrupts that may come, when [quiet] none with an error. *)
Inductive ioq_step (quiet : bool) s : bst -> Prop :=
  | ioq_finish r err : r ∈ dq s -> (quiet = true -> err = None) ->
      match err with None => True | Some k => 0 <= k <= b_wcount (hd s r) end ->
      ioq_step quiet s (finish r err s).
Definition ioq (quiet : bool) : bst -> bst -> Prop := rtc (ioq_step quiet).

Lemma ioq_weaken q w s s' : ioq (q || w) s s' -> ioq q s s'.
Proof.
  induction 1 as [|s1 s2 s3 [r err Hr Hq Hk] _ IH]; [apply rtc_refl|]. eapply rtc_l; [|exact IH].
  constructor; try done. intros ->. by apply Hq.
Qed.

Section Invariant.

(** The blocks kept for transfers that do not go through the cache, and whether nothing
    goes wrong: no transfer fails, and nobody else writes. *)
Context (raw : Z -> Z -> bool) (quiet : bool).

(** A request in a driver's queue. *)
Definition req_ok s r : Prop :=
  has s r B_BUSY = true /\ has s r B_DONE = false /\ has s r B_ERROR = false /\
  match r with
  | Bufp i => (i < NBUF)%nat /\ bdev s i <> NODEV /\ b_wcount (hd s r) = BSIZEW /\ flag s i B_DELWRI = false
  | Swbuf1 | Swbuf2 | Raw _ => has s r B_PHYS = true /\ has s r B_ASYNC = false /\
      forall b, b_blkno (hd s r) * BSIZEW - BSIZEW < b * BSIZEW < b_blkno (hd s r) * BSIZEW + b_wcount (hd s r) ->
        raw (b_dev (hd s r)) b = true
  | _ => False
  end.

(** Buffer [i]: it is available when it is not busy, on the chain of its device, and when
    it is available its block on the device is up to date or will be. *)
Record fit s (av : list nat) (cl : ref -> list nat) i : Prop := {
  fi_av : i ∈ av <-> flag s i B_BUSY = false;
  fi_dev : bdev s i <> NODEV ->
    0 <= major (bdev s i) < nblkdev /\ i ∈ cl (Tab (major (bdev s i))) /\ raw (bdev s i) (bblk s i) = false;
  fi_buf : flag s i B_PHYS = false /\ length (buffers s i) = Z.to_nat BSIZEW;
  fi_idle : i ∈ av -> flag s i B_ASYNC = false /\ (flag s i B_ERROR = true -> bdev s i = NODEV) /\
    (flag s i B_DELWRI = true -> flag s i B_DONE = true /\ bdev s i <> NODEV);
  fi_clean : i ∈ av -> bdev s i <> NODEV -> flag s i B_DONE = true -> flag s i B_DELWRI = false ->
    buffers s i = block s (bdev s i) (bblk s i);
  fi_good : quiet = true -> bdev s i <> NODEV -> flag s i B_ERROR = false;
}.

(** Every buffer is on one chain, and holds a block alone. *)
Record sound s (av : list nat) (cl : ref -> list nat) : Prop := {
  so_part : parted cl;
  so_all i : (exists h, h ∈ heads /\ i ∈ cl h) <-> (i < NBUF)%nat;
  so_av i : i ∈ av -> (i < NBUF)%nat;
  so_fit i : (i < NBUF)%nat -> fit s av cl i;
  so_uniq i j : (i < NBUF)%nat -> (j < NBUF)%nat -> bdev s i <> NODEV -> bdev s i = bdev s j ->
    bblk s i = bblk s j -> i = j;
  so_dq : NoDup (dq s);
  so_req r : r ∈ dq s -> req_ok s r;
}.

Definition binv s : Prop := exists av cl, linked s av cl /\ sound s av cl.

(** ** Interference *)

(** Somebody has [r]: busy, and not on its way to being released. *)
Definition held s r : Prop := has s r B_BUSY = true /\ r ∉ dq s.
Definition mine s r : Prop := has s r B_BUSY = true /\ (r ∈ dq s -> has s r B_ASYNC = false).

(** Equal but for the links and the two bits anybody may set. *)
Definition SOFT : Z := B_WANTED |: B_AGE.

Definition alike (h h' : buf) : Prop :=
  b_dev h' = b_dev h /\ b_wcount h' = b_wcount h /\ b_blkno h' = b_blkno h /\ b_error h' = b_error h /\
  b_resid h' = b_resid h /\ b_paddr h' = b_paddr h /\ b_flags h' &~ SOFT = b_flags h &~ SOFT.

(** The words in core and on the device are the same. *)
Definition same_words s s' r : Prop :=
  match r with
  | Bufp i => buffers s' i = buffers s i /\
      ((i < NBUF)%nat -> bdev s i <> NODEV -> block s' (bdev s i) (bblk s i) = block s (bdev s i) (bblk s i))
  | _ => True
  end.

(** A transfer of [r] that ended: [err] says how. *)
Definition ended (err : bool) s s' r : Prop :=
  b_dev (hd s' r) = b_dev (hd s r) /\ b_blkno (hd s' r) = b_blkno (hd s r) /\
  b_error (hd s' r) = b_error (hd s r) /\
  b_flags (hd s' r) &~ SOFT = (b_flags (hd s r) |: (if err then B_DONE |: B_ERROR else B_DONE)) &~ SOFT /\
  match r with
  | Bufp i => (i < NBUF)%nat -> err = false -> buffers s' i = block s' (bdev s i) (bblk s i) /\
      if flag s i B_READ then block s' (bdev s i) (bblk s i) = block s (bdev s i) (bblk s i)
      else buffers s' i = buffers s i
  | _ => True
  end.

(** What happens to a header that somebody has. *)
Definition kept s s' r : Prop :=
  (held s r -> held s' r /\ alike (hd s r) (hd s' r) /\ same_words s s' r) /\
  (r ∈ dq s -> has s r B_ASYNC = false ->
     (r ∈ dq s' /\ alike (hd s r) (hd s' r) /\ same_words s s' r) \/
     (held s' r /\ exists err, ended err s s' r)).

(** No block reads otherwise than before, when nothing goes wrong. *)
Definition calm s s' : Prop := quiet = true ->
  forall d b, d <> NODEV -> raw d b = false -> view s' d b = view s d b.

(** While a process that has [H] sleeps. *)
Definition rely H s s' : Prop := binv s' /\ (forall r, r ∈ H -> kept s s' r) /\ calm s s'.

(** Between two sleeps a process that has [H] does nothing to what others have, and has
    [H'] in the end. *)
Definition guar H H' s s' : Prop := binv s' /\ (forall r, r ∉ H -> kept s s' r) /\
  (forall r, r ∈ H' -> mine s' r /\ (r ∈ H \/ ~ mine s r)).

(** [r] runs from [s], with the process having [H], never fails and ends in [Q]; no
    transfer fails during [Intr true], and the fuel is only to be had when others let it. *)
Fixpoint wp {A} (x : bres A) H s (Q : A -> upriv -> list ref -> bst -> Prop) : Prop :=
  match x with
  | Val a u s1 => exists H', guar H H' s s1 /\ Q a u H' s1
  | Intr w s1 k => exists H', guar H H' s s1 /\ forall s2, ioq (quiet || w) s1 s2 -> wp (k s2) H' s2 Q
  | Asleep _ _ s1 k => exists H', guar H H' s s1 /\ forall s2, rely H' s1 s2 -> wp (k s2) H' s2 Q
  | BPanic _ | BWild => False
  | BNoFuel => True
  end.

End Invariant.
(** ** Stores into headers *)

Lemma hd_upd r g s x : hd (upd_hd r g s) x = if decide (x = r) then g (hd s r) else hd s x.
Proof. reflexivity. Qed.

Lemma hd_upd_field {A} (p : buf -> A) r g s x : (forall h, p (g h) = p h) -> p (hd (upd_hd r g s) x) = p (hd s x).
Proof. intros Hp. rewrite hd_upd. case_decide; subst; by rewrite ?Hp. Qed.

Lemma alike_refl h : alike h h.
Proof. by repeat split. Qed.
#[local] Hint Resolve alike_refl : core.

Lemma alike_trans h1 h2 h3 : alike h1 h2 -> alike h2 h3 -> alike h1 h3.
Proof. unfold alike. intuition congruence. Qed.

Lemma alike_flag h h' m : alike h h' -> Z.land (Z.lnot SOFT) m = m -> (b_flags h' &? m) = (b_flags h &? m).
Proof.
  intros (_ & _ & _ & _ & _ & _ & E) Hm. rewrite <- (tst_clr_other _ SOFT m Hm), E.
  by apply tst_clr_other.
Qed.

(** ** The available list and the chains *)

Lemma bufp_fresh i h l : h ∈ heads -> i ∉ l -> Bufp i ∉ h :: (Bufp <$> l).
Proof. unfold heads. intros Hh Hi. rewrite elem_of_cons, list_elem_of_fmap. set_solver. Qed.

(** Stores that keep a link field keep its rings. *)
Lemma linked_ext s s' av cl :
  (forall x, av_forw (hd s' x) = av_forw (hd s x) /\ av_back (hd s' x) = av_back (hd s x) /\
    b_forw (hd s' x) = b_forw (hd s x) /\ b_back (hd s' x) = b_back (hd s x)) ->
  linked s av cl -> linked s' av cl.
Proof.
  intros He [Ha Hc]. split.
  - eapply ring_ext; [..|exact Ha]; intros z _; apply He.
  - intros h Hh. eapply ring_ext; [..|exact (Hc h Hh)]; intros z _; apply He.
Qed.

(** Only the available list changes. *)
Lemma linked_av s s' av av' cl : linked s av cl ->
  (forall x, b_forw (hd s' x) = b_forw (hd s x) /\ b_back (hd s' x) = b_back (hd s x)) ->
  ring (fun r => av_forw (hd s' r)) (fun r => av_back (hd s' r)) Bfreelist (Bufp <$> av') ->
  linked s' av' cl.
Proof.
  intros [_ Hc] He Ha. split; [done|]. intros h Hh.
  eapply ring_ext; [..|exact (Hc h Hh)]; intros z _; apply He.
Qed.

Ltac fields := intros; rewrite ?hd_upd; repeat (case_decide; subst; simpl); try congruence.

Lemma linked_av_last s av cl i : linked s av cl -> i ∉ av -> linked (av_last (Bufp i) s) (av ++ [i]) cl.
Proof.
  intros Hl Hi. pose proof (ln_av _ _ _ Hl) as Hr.
  assert (Hf : Bufp i ∉ Bfreelist :: (Bufp <$> av)) by (by apply bufp_fresh; [left|]).
  pose proof (ring_back _ _ _ _ Hr) as Hb. apply (ring_push_back _ _ _ _ (Bufp i)) in Hr; [|done].
  unfold av_last. eapply linked_av; [done|..].
  - intros x. split; by rewrite !hd_upd_field.
  - rewrite fmap_app. eapply ring_ext; [..|exact Hr]; intros z _; unfold upd; fields.
Qed.

Lemma linked_av_first s av cl i : linked s av cl -> i ∉ av -> linked (av_first (Bufp i) s) (i :: av) cl.
Proof.
  intros Hl Hi. pose proof (ln_av _ _ _ Hl) as Hr.
  assert (Hf : Bufp i ∉ Bfreelist :: (Bufp <$> av)) by (by apply bufp_fresh; [left|]).
  pose proof (ring_forw _ _ _ _ Hr) as Hb. apply (ring_push _ _ _ _ (Bufp i)) in Hr; [|done].
  unfold av_first. eapply linked_av; [done|..].
  - intros x. split; by rewrite !hd_upd_field.
  - eapply ring_ext; [..|exact Hr]; intros z _; unfold upd; fields.
Qed.

Lemma linked_notavail s l1 l2 cl i : linked s (l1 ++ i :: l2) cl -> linked (notavail (Bufp i) s) (l1 ++ l2) cl.
Proof.
  intros Hl. pose proof (ln_av _ _ _ Hl) as Hr. rewrite fmap_app in Hr. simpl in Hr.
  pose proof (ring_links _ _ _ _ _ _ Hr) as (_ & _ & Hf & Hb & _).
  apply ring_unlink in Hr. unfold notavail, bor. eapply linked_av; [done|..].
  - intros x. split; by rewrite !hd_upd_field.
  - rewrite fmap_app. eapply ring_ext; [..|exact Hr]; intros z _; unfold upd; fields.
Qed.

Lemma filter_ne_id {A} `{EqDecision A} (i : A) (l : list A) : i ∉ l -> filter (.≠ i) l = l.
Proof.
  induction l as [|a l IH]; intros Hi; [done|]. rewrite filter_cons_True by set_solver.
  rewrite IH by set_solver. done.
Qed.

Lemma filter_ne_cons {A} `{EqDecision A} (i : A) (l : list A) : i ∉ l -> filter (.≠ i) (i :: l) = l.
Proof. intros Hi. rewrite filter_cons_False by (intros Hx; by apply Hx). by apply filter_ne_id. Qed.

Lemma filter_ne_app i (l1 l2 : list nat) : NoDup (l1 ++ i :: l2) -> filter (.≠ i) (l1 ++ i :: l2) = l1 ++ l2.
Proof.
  rewrite NoDup_app, NoDup_cons. intros (H1 & Hd & H2 & H3).
  rewrite filter_app, filter_cons_False by (intros []; done).
  rewrite !filter_ne_id; [done|done|]. intros Hi. apply (Hd i Hi). set_solver.
Qed.

(** Only the chains change. *)
Lemma linked_chains s s' av cl cl' : linked s av cl ->
  (forall x, av_forw (hd s' x) = av_forw (hd s x) /\ av_back (hd s' x) = av_back (hd s x)) ->
  (forall h, h ∈ heads -> ring (fun r => b_forw (hd s' r)) (fun r => b_back (hd s' r)) h (Bufp <$> cl' h)) ->
  linked s' av cl'.
Proof.
  intros [Ha _] He Hc. split; [|done]. eapply ring_ext; [..|exact Ha]; intros z _; apply He.
Qed.

(** A node of one chain is not on another. *)
Lemma chains_apart cl h h' x : parted cl -> h ∈ heads -> h' ∈ heads -> h <> h' ->
  x ∈ h :: (Bufp <$> cl h) -> x ∈ h' :: (Bufp <$> cl h') -> False.
Proof.
  intros Hp Hh Hh' Hne. rewrite !elem_of_cons, !list_elem_of_fmap. unfold heads in *.
  intros [->|(i & -> & Hi)] [Hx|(j & Hx & Hj)]; [done|subst; set_solver|set_solver|].
  simplify_eq. by eapply Hne, Hp.
Qed.

Lemma linked_unchain s av cl h0 i : linked s av cl -> parted cl -> h0 ∈ heads -> i ∈ cl h0 ->
  linked (unchain (Bufp i) s) av (fun h => filter (.≠ i) (cl h)).
Proof.
  intros Hl Hp Hh0 Hi. eapply linked_chains; [done| |].
  { intros x. unfold unchain. split; by rewrite !hd_upd_field. }
  intros h Hh. pose proof (ln_cl _ _ _ Hl _ Hh0) as Hr0.
  pose proof Hi as (l1 & l2 & E)%list_elem_of_split. rewrite E, fmap_app in Hr0. simpl in Hr0.
  pose proof (ring_links _ _ _ _ _ _ Hr0) as (Hf & Hb & Hfz & Hbz & _).
  unfold unchain. destruct (decide (h = h0)) as [->|Hne].
  - assert (Hn : NoDup (cl h0)).
    { destruct (ln_cl _ _ _ Hl _ Hh0) as [[_ Hn]%NoDup_cons _]. by apply NoDup_fmap_1 in Hn. }
    rewrite E in Hn |- *. rewrite filter_ne_app, fmap_app by done. apply ring_unlink in Hr0.
    eapply ring_ext; [..|exact Hr0]; intros z _; unfold upd; fields.
  - assert (Hin : i ∉ cl h) by (intros ?; eapply Hne, Hp; eauto).
    rewrite filter_ne_id by done.
    assert (Hs : forall x, x ∈ h0 :: (Bufp <$> l1) ++ (Bufp <$> l2) -> x ∈ h0 :: (Bufp <$> cl h0)).
    { intros x. rewrite E, fmap_app. simpl. set_solver. }
    eapply ring_ext; [..|exact (ln_cl _ _ _ Hl _ Hh)]; intros z Hz; fields;
      exfalso; (eapply chains_apart; [exact Hp|exact Hh|exact Hh0|exact Hne|exact Hz|apply Hs; first [exact Hf|exact Hb]]).
Qed.

Lemma linked_enchain s av cl h i : linked s av cl -> parted cl -> h ∈ heads ->
  (forall h', h' ∈ heads -> i ∉ cl h') ->
  linked (enchain h (Bufp i) s) av (fun x => if decide (x = h) then i :: cl h else cl x).
Proof.
  intros Hl Hp Hh Hi. eapply linked_chains; [done| |].
  { intros x. unfold enchain. split; by rewrite !hd_upd_field. }
  intros h' Hh'. pose proof (ln_cl _ _ _ Hl _ Hh) as Hr.
  pose proof (bufp_fresh i h (cl h) Hh (Hi h Hh)) as Hfr. pose proof (ring_forw _ _ _ _ Hr) as Hf.
  simpl in Hf. assert (Hhi : h <> Bufp i) by set_solver.
  assert (Hfi : b_forw (hd s h) <> Bufp i) by (intros Hq; rewrite Hq in Hf; done).
  unfold enchain. case_decide as Hd; subst.
  - apply (ring_push _ _ _ _ (Bufp i)) in Hr; [|done].
    eapply ring_ext; [..|exact Hr]; intros z _; unfold upd; fields.
  - eapply ring_ext; [..|exact (ln_cl _ _ _ Hl _ Hh')]; intros z Hz; fields; exfalso.
    all: first [by apply (bufp_fresh i h' (cl h') Hh' (Hi h' Hh'))|
      by eapply (chains_apart cl h h'); [..|exact Hf|exact Hz]|
      eapply (chains_apart cl h h'); [..|left|exact Hz]; done].
Qed.

(** ** An operation on one header *)

(** Every other header keeps all but its links, [B_WANTED] and [B_AGE]. *)
Record frame r s s' : Prop := {
  fr_hd x : x <> r -> alike (hd s x) (hd s' x);
  fr_buf j : Bufp j <> r -> buffers s' j = buffers s j;
  fr_dq x : x <> r -> x ∈ dq s' <-> x ∈ dq s;
}.

Lemma frame_refl r s : frame r s s.
Proof. by split. Qed.

Lemma frame_trans r s1 s2 s3 : frame r s1 s2 -> frame r s2 s3 -> frame r s1 s3.
Proof.
  intros [H1 H2 H3] [H4 H5 H6]. split.
  - intros x Hx. exact (alike_trans _ _ _ (H1 x Hx) (H4 x Hx)).
  - intros j Hj. by rewrite H5, H2.
  - intros x Hx. by rewrite H6, H3.
Qed.

Section Frame.
Context (raw : Z -> Z -> bool) (quiet : bool).

(** The blocks of the device, but for the one [r] is for. *)
Definition spares r s s' : Prop := forall d b, raw d b = false ->
  (forall i, r = Bufp i -> bdev s i = d -> bblk s i = b -> False) -> block s' d b = block s d b.

Lemma frame_flag r s s' x m : frame r s s' -> x <> r -> Z.land (Z.lnot SOFT) m = m -> has s' x m = has s x m.
Proof. intros Hf Hx Hm. apply alike_flag; [by apply Hf|done]. Qed.

Lemma frame_names r s s' j : frame r s s' -> Bufp j <> r -> bdev s' j = bdev s j /\ bblk s' j = bblk s j.
Proof. intros Hf Hj. destruct (fr_hd _ _ _ Hf _ Hj) as (? & _ & ? & _). done. Qed.

Lemma sound_apart r s av cl i j : sound raw quiet s av cl -> (i < NBUF)%nat -> (j < NBUF)%nat -> r = Bufp i -> Bufp j <> r ->
  bdev s j <> NODEV -> bdev s i = bdev s j -> bblk s i = bblk s j -> False.
Proof. intros Hs Hi Hj -> Hne Hd Ed Eb. apply Hne. f_equal. eapply so_uniq; eauto; congruence. Qed.

(** A block some other buffer is for. *)
Lemma spares_other r s s' av cl j : sound raw quiet s av cl -> spares r s s' -> (forall i, r = Bufp i -> (i < NBUF)%nat) ->
  (j < NBUF)%nat -> Bufp j <> r -> bdev s j <> NODEV ->
  block s' (bdev s j) (bblk s j) = block s (bdev s j) (bblk s j).
Proof.
  intros Hs Hp Hr Hj Hne Hd. apply Hp; [by apply (fi_dev _ _ _ _ _ _ (so_fit _ _ _ _ _ Hs j Hj))|].
  intros i E Ed Eb. exact (sound_apart r s av cl i j Hs (Hr i E) Hj E Hne Hd Ed Eb).
Qed.

Lemma fit_other r s s' av av' cl cl' j : sound raw quiet s av cl -> frame r s s' -> spares r s s' ->
  (forall i, r = Bufp i -> (i < NBUF)%nat) -> (j < NBUF)%nat -> Bufp j <> r ->
  (j ∈ av' <-> j ∈ av) -> (forall h, h ∈ heads -> j ∈ cl h -> j ∈ cl' h) ->
  fit raw quiet s' av' cl' j.
Proof.
  intros Hs Hf Hp Hr Hj Hne Hav Hcl. destruct (so_fit _ _ _ _ _ Hs j Hj) as [F1 F2 F3 F4 F5 F6].
  destruct (frame_names _ _ _ _ Hf Hne) as [Ed Eb].
  pose proof (fun m => frame_flag _ _ _ _ m Hf Hne) as Hfl. unfold flag in *.
  split; unfold flag; rewrite ?Ed, ?Eb, ?Hav, ?Hfl by done.
  - done.
  - intros Hd. destruct (F2 Hd) as (Hm & Hin & Hraw). split_and!; [lia|lia| |done].
    apply Hcl; [|done]. unfold heads, nblkdev in *.
    assert (Hc : major (bdev s j) = 0 \/ major (bdev s j) = 1) by lia. destruct Hc as [-> | ->]; set_solver.
  - by rewrite (fr_buf _ _ _ Hf).
  - done.
  - intros Hi Hd. rewrite ?Hfl by done. intros. rewrite (fr_buf _ _ _ Hf) by done.
    erewrite spares_other by done. by apply F5.
  - done.
Qed.

Lemma req_other r s s' x : frame r s s' -> x <> r -> req_ok raw s x -> req_ok raw s' x.
Proof.
  intros Hf Hx. destruct (fr_hd _ _ _ Hf x Hx) as (Ed & Ew & Eb & _).
  pose proof (fun m => frame_flag _ _ _ _ m Hf Hx) as Hfl.
  unfold req_ok. rewrite !Hfl, ?Ew, ?Eb, ?Ed by done. destruct x; try done.
  unfold bdev, flag. by rewrite Hfl, Ed.
Qed.

Lemma sound_step r s s' av av' cl cl' : sound raw quiet s av cl -> frame r s s' -> spares r s s' ->
  parted cl' -> (forall i, (exists h, h ∈ heads /\ i ∈ cl' h) <-> (i < NBUF)%nat) ->
  (forall j h, Bufp j <> r -> h ∈ heads -> j ∈ cl h -> j ∈ cl' h) ->
  (forall j, Bufp j <> r -> j ∈ av' <-> j ∈ av) ->
  NoDup (dq s') -> (r ∈ dq s' -> req_ok raw s' r) ->
  (forall i, r = Bufp i -> (i < NBUF)%nat /\ fit raw quiet s' av' cl' i /\
    forall j, (j < NBUF)%nat -> j <> i -> bdev s' i <> NODEV -> bdev s j = bdev s' i -> bblk s j = bblk s' i -> False) ->
  sound raw quiet s' av' cl'.
Proof.
  intros Hs Hf Hp H1 H2 H3 H4 H5 H6 H7.
  assert (Hr : forall i, r = Bufp i -> (i < NBUF)%nat) by (intros i E; by apply H7).
  split; [done|done| | | |done|].
  - intros i Hi. destruct (decide (Bufp i = r)) as [E|Hne]; [by apply Hr|].
    apply (so_av _ _ _ _ _ Hs). by apply H4.
  - intros i Hi. destruct (decide (Bufp i = r)) as [E|Hne]; [by apply H7|].
    eapply fit_other; eauto.
  - intros i j Hi Hj Hd Ed Eb.
    destruct (decide (Bufp i = r)) as [Ei|Hi'], (decide (Bufp j = r)) as [Ej|Hj'].
    + congruence.
    + destruct (frame_names _ _ _ _ Hf Hj') as [E1 E2]. destruct (decide (j = i)) as [|Hne]; [done|].
      destruct (H7 i (eq_sym Ei)) as (_ & _ & Hu). edestruct (Hu j); congruence.
    + destruct (frame_names _ _ _ _ Hf Hi') as [E1 E2]. destruct (decide (j = i)) as [|Hne]; [done|].
      destruct (H7 j (eq_sym Ej)) as (_ & _ & Hu). edestruct (Hu i); congruence.
    + destruct (frame_names _ _ _ _ Hf Hi') as [E1 E2], (frame_names _ _ _ _ Hf Hj') as [E3 E4].
      eapply so_uniq; eauto; congruence.
  - intros x Hx. destruct (decide (x = r)) as [->|Hne]; [by apply H6|].
    eapply req_other; [done..|]. apply (so_req _ _ _ _ _ Hs). by apply (fr_dq _ _ _ Hf).
Qed.

(** What others have is kept. *)
Lemma kept_frame r s s' av cl x : sound raw quiet s av cl -> frame r s s' -> spares r s s' ->
  (forall i, r = Bufp i -> (i < NBUF)%nat) -> x <> r -> kept s s' x.
Proof.
  intros Hs Hf Hp Hr Hx. pose proof (fr_hd _ _ _ Hf x Hx) as Ha.
  assert (Hw : same_words s s' x).
  { destruct x; try done. simpl. split; [by apply Hf|]. intros. eapply spares_other; eauto. }
  split.
  - intros [Hb Hq]. split; [|done]. split; [by erewrite frame_flag|]. by rewrite (fr_dq _ _ _ Hf).
  - intros Hq _. left. split; [by apply (fr_dq _ _ _ Hf)|done].
Qed.

End Frame.

(** ** What the updates leave alone *)

Lemma frame_upd r g s : frame r s (upd_hd r g s).
Proof. split; [|done|done]. intros x Hx. rewrite hd_upd, decide_False by done. done. Qed.

Lemma frame_link r x g s : (forall h, alike h (g h)) -> frame r s (upd_hd x g s).
Proof. intros Hg. split; [|done|done]. intros y Hy. rewrite hd_upd. case_decide; subst; done. Qed.

Lemma frame_same r s s' : hd s' = hd s -> buffers s' = buffers s -> dq s' = dq s -> frame r s s'.
Proof. intros E1 E2 E3. split; intros; by rewrite ?E1, ?E2, ?E3. Qed.

Lemma alike_soft h m : Z.land m SOFT = m -> alike h (set_b_flags (b_flags h &~ m) h) /\
  alike h (set_b_flags (b_flags h |: m) h).
Proof.
  intros Hm. split; repeat split; try done; simpl; unfold clr.
  - rewrite <- Z.land_assoc, <- Z.lnot_lor. do 2 f_equal. rewrite <- Hm. apply Z.bits_inj'. intros k Hk.
    rewrite Z.lor_spec, Z.land_spec. by destruct (Z.testbit m k), (Z.testbit SOFT k).
  - rewrite Z.land_lor_distr_l. rewrite <- Hm at 1. rewrite <- Z.land_assoc, Z.land_lnot_diag, Z.land_0_r.
    apply Z.lor_0_r.
Qed.

(** [frames] goes through a sequence of stores. *)
Ltac frames :=
  repeat match goal with
  | |- frame ?r ?s ?s => apply frame_refl
  | |- frame ?r ?s (if ?b then _ else _) => destruct b
  | |- frame ?r ?s (upd_hd ?r ?g ?s1) => apply (frame_trans r s s1); [|apply frame_upd]
  | |- frame ?r ?s (upd_hd ?x ?g ?s1) =>
      apply (frame_trans r s s1); [|apply frame_link; intros; first [by apply alike_soft|by repeat split]]
  | |- frame ?r ?s (bor _ _ _) => unfold bor
  | |- frame ?r ?s (bclr _ _ _) => unfold bclr
  | |- frame ?r ?s (bwakeup _ ?s1) => apply (frame_trans r s s1); [|by apply frame_same]
  end.

Lemma brelse_frame bp s : frame bp s (brelse bp s).
Proof. unfold brelse, av_first, av_last. cbv zeta. frames. Qed.

Lemma iodone_frame bp s : frame bp s (iodone bp s).
Proof.
  unfold iodone. cbv zeta. case_match; frames.
  eapply frame_trans; [|apply brelse_frame]. frames.
Qed.

Lemma notavail_frame bp s : frame bp s (notavail bp s).
Proof. unfold notavail. cbv zeta. frames. Qed.

Lemma unchain_frame bp s : frame bp s (unchain bp s).
Proof. unfold unchain. cbv zeta. frames. Qed.

Lemma enchain_frame dp bp s : frame bp s (enchain dp bp s).
Proof. unfold enchain. cbv zeta. frames. Qed.

(** The header released. *)
Definition pay (h : buf) := (b_flags h, b_dev h, b_wcount h, b_blkno h, b_error h, b_resid h, b_paddr h).

Lemma pay_upd r g s x : (forall h, pay (g h) = pay h) -> pay (hd (upd_hd r g s) x) = pay (hd s x).
Proof. apply hd_upd_field. Qed.

Lemma av_first_pay bp s x : pay (hd (av_first bp s) x) = pay (hd s x).
Proof. unfold av_first. cbv zeta. by rewrite !pay_upd. Qed.
Lemma av_last_pay bp s x : pay (hd (av_last bp s) x) = pay (hd s x).
Proof. unfold av_last. cbv zeta. by rewrite !pay_upd. Qed.
Lemma unchain_pay bp s x : pay (hd (unchain bp s) x) = pay (hd s x).
Proof. unfold unchain. cbv zeta. by rewrite !pay_upd. Qed.
Lemma enchain_pay dp bp s x : pay (hd (enchain dp bp s) x) = pay (hd s x).
Proof. unfold enchain. cbv zeta. by rewrite !pay_upd. Qed.

Definition REL : Z := B_WANTED |: B_BUSY |: B_ASYNC |: B_AGE.

Lemma brelse_pay bp s : bp <> Bfreelist ->
  pay (hd (brelse bp s) bp) =
    (b_flags (hd s bp) &~ REL, if has s bp B_ERROR then NODEV else b_dev (hd s bp), b_wcount (hd s bp),
     b_blkno (hd s bp), b_error (hd s bp), b_resid (hd s bp), b_paddr (hd s bp)).
Proof.
  intros Hne. unfold brelse. cbv zeta.
  set (s1 := if has s bp B_WANTED then bwakeup bp s else s).
  assert (E1 : hd s1 bp = hd s bp) by (unfold s1; by case_match).
  set (s2 := if has s1 Bfreelist B_WANTED then _ else s1).
  assert (E2 : hd s2 bp = hd s bp).
  { unfold s2. case_match; [|done]. unfold bwakeup, bclr. simpl. by rewrite decide_False. }
  set (s3 := if has s2 bp B_ERROR then _ else s2).
  assert (E3 : hd s3 bp = if has s bp B_ERROR then set_b_dev NODEV (hd s bp) else hd s bp).
  { unfold s3, has. rewrite E2. case_match; [|done]. by rewrite hd_upd, decide_True, E2. }
  set (s4 := if has s3 bp B_AGE then _ else _).
  assert (E4 : pay (hd s4 bp) = pay (hd s3 bp)).
  { unfold s4. destruct (has s3 bp B_AGE); [apply av_first_pay|apply av_last_pay]. }
  unfold bclr. rewrite hd_upd, decide_True by done. rewrite E3 in E4.
  destruct (hd s4 bp). unfold pay in *. simpl in *. by case_match; simplify_eq/=.
Qed.

(** Headers apart, the routines below change nothing shared but the counters. *)
Definition rest_same s s' : Prop := buffers s' = buffers s /\ dq s' = dq s /\ platter s' = platter s /\ pmem s' = pmem s.

Lemma rest_upd r g s : rest_same s (upd_hd r g s).
Proof. done. Qed.

Lemma brelse_rest bp s : rest_same s (brelse bp s).
Proof. unfold brelse. cbv zeta. repeat case_match; done. Qed.

Lemma block_same s s' d b : platter s' = platter s -> block s' d b = block s d b.
Proof. unfold block. by intros ->. Qed.

Lemma linked_brelse s av cl i : linked s av cl -> i ∉ av ->
  exists av', linked (brelse (Bufp i) s) av' cl /\ forall j, j ∈ av' <-> j = i \/ j ∈ av.
Proof.
  intros Hl Hi. unfold brelse. cbv zeta.
  set (s1 := if has s _ B_WANTED then _ else s). set (s2 := if has s1 Bfreelist _ then _ else s1).
  set (s3 := if has s2 _ B_ERROR then _ else s2).
  assert (Hl3 : linked s3 av cl).
  { eapply linked_ext; [|exact Hl]. intros x. unfold s3, s2, s1, bwakeup, bclr.
    repeat case_match; simpl; repeat (case_decide; subst; simpl); done. }
  destruct (has s3 (Bufp i) B_AGE).
  - exists (i :: av). split; [|set_solver]. eapply linked_ext; [|by apply linked_av_first].
    intros x. unfold bclr. by rewrite !hd_upd_field.
  - exists (av ++ [i]). split; [|set_solver]. eapply linked_ext; [|by apply linked_av_last].
    intros x. unfold bclr. by rewrite !hd_upd_field.
Qed.

(** A store that keeps the links. *)
Definition unlinks (g : buf -> buf) : Prop := forall h, av_forw (g h) = av_forw h /\ av_back (g h) = av_back h /\
  b_forw (g h) = b_forw h /\ b_back (g h) = b_back h.

Lemma linked_upd r g s av cl : unlinks g -> linked s av cl -> linked (upd_hd r g s) av cl.
Proof.
  intros Hg. apply linked_ext. intros x. rewrite !hd_upd_field; [done|..]; intros h; apply Hg.
Qed.

Lemma linked_hd s s' av cl : hd s' = hd s -> linked s av cl -> linked s' av cl.
Proof. intros E. apply linked_ext. intros x. by rewrite E. Qed.

(** ** Preservation *)

Section Ops.
Context (raw : Z -> Z -> bool) (quiet : bool).
Abbreviation binv := (binv raw quiet).
Abbreviation sound := (sound raw quiet).
Abbreviation fit := (fit raw quiet).
Abbreviation spares := (spares raw).

Lemma spares_same r s s' : platter s' = platter s -> spares r s s'.
Proof. intros E d b _ _. by apply block_same. Qed.

(** A buffer that is held is not available. *)
Lemma busy_not_av s av cl i : sound s av cl -> flag s i B_BUSY = true -> i ∉ av.
Proof.
  intros Hs Hb Hi. pose proof (so_av _ _ _ _ _ Hs i Hi) as Hlt.
  apply (fi_av _ _ _ _ _ _ (so_fit _ _ _ _ _ Hs i Hlt)) in Hi. congruence.
Qed.

Lemma pay_fields h' f d w b e rs pa : pay h' = (f, d, w, b, e, rs, pa) ->
  b_flags h' = f /\ b_dev h' = d /\ b_wcount h' = w /\ b_blkno h' = b /\ b_error h' = e /\ b_resid h' = rs /\ b_paddr h' = pa.
Proof. unfold pay. intros [=]. done. Qed.

(** A change to a header somebody has, which leaves it busy and for the same block. *)
Lemma binv_step r s s' : binv s -> frame r s s' -> spares r s s' ->
  (forall av cl, linked s av cl -> linked s' av cl) -> NoDup (dq s') -> (r ∈ dq s' -> req_ok raw s' r) ->
  (forall i, r = Bufp i -> (i < NBUF)%nat /\ flag s i B_BUSY = true /\ flag s' i B_BUSY = true /\
    flag s' i B_PHYS = false /\ length (buffers s' i) = Z.to_nat BSIZEW /\
    bdev s' i = bdev s i /\ bblk s' i = bblk s i /\
    (quiet = true -> bdev s i <> NODEV -> flag s' i B_ERROR = false)) ->
  binv s'.
Proof.
  intros (av & cl & Hl & Hs) Hf Hp Hln Hq Hreq Hi. exists av, cl. split; [by apply Hln|].
  eapply (sound_step raw quiet r); [exact Hs|done|done|apply Hs|apply Hs|done|done|done|done|].
  intros i E. destruct (Hi i E) as (Hlt & Hb & Hb' & Hph & Hlen & Hd & Hbk & Hgd).
  pose proof (busy_not_av _ _ _ _ Hs Hb) as Hav. pose proof (so_fit _ _ _ _ _ Hs i Hlt) as F.
  split; [done|]. split.
  - split; [|by rewrite Hd, Hbk; apply F|done|done|done|by rewrite Hd]. by rewrite Hb'.
  - intros j Hj Hne Hnd Ed Eb. apply Hne, (so_uniq _ _ _ _ _ Hs j i); congruence.
Qed.

(** What a buffer must satisfy to be released. *)
Definition ready s i : Prop :=
  (flag s i B_DELWRI = true -> flag s i B_DONE = true /\ flag s i B_ERROR = false /\ bdev s i <> NODEV) /\
  (flag s i B_DELWRI = false -> flag s i B_DONE = true -> flag s i B_ERROR = false -> bdev s i <> NODEV ->
     buffers s i = block s (bdev s i) (bblk s i)).

Lemma binv_brelse s i : binv s -> (i < NBUF)%nat -> flag s i B_BUSY = true -> Bufp i ∉ dq s -> ready s i ->
  binv (brelse (Bufp i) s).
Proof.
  intros (av & cl & Hl & Hs) Hi Hb Hnq [Hdel Hcl].
  pose proof (busy_not_av _ _ _ _ Hs Hb) as Hav. pose proof (so_fit _ _ _ _ _ Hs i Hi) as F.
  destruct (linked_brelse _ _ _ _ Hl Hav) as (av' & Hl' & Hin).
  destruct (brelse_rest (Bufp i) s) as (Ebuf & Eq & Ep & _).
  pose proof (pay_fields _ _ _ _ _ _ _ _ (brelse_pay (Bufp i) s ltac:(done))) as (Ef & Ed & _ & Eb & _).
  assert (Hfl : forall m, Z.land (Z.lnot REL) m = m -> flag (brelse (Bufp i) s) i m = flag s i m).
  { intros m Hm. unfold flag, has. rewrite Ef. by apply tst_clr_other. }
  exists av', cl. split; [done|].
  eapply (sound_step raw quiet (Bufp i)); [exact Hs|apply brelse_frame|by apply spares_same|apply Hs|apply Hs|done| | | |].
  - intros j Hj. rewrite Hin. split; [intros [->|]; done|auto].
  - rewrite Eq. apply Hs.
  - rewrite Eq. done.
  - intros k [= <-]. split; [done|]. split.
    + split; unfold bdev, bblk; rewrite ?Ed, ?Eb, ?Ebuf.
      * split; [intros _|intros _; apply Hin; auto]. unfold flag, has. rewrite Ef. by apply tst_clr_same.
      * case_match; [done|]. apply F.
      * rewrite Hfl by done. apply F.
      * intros _. rewrite (Hfl B_ERROR), (Hfl B_DELWRI), (Hfl B_DONE) by done. fold (flag s i B_ERROR).
        split; [unfold flag, has; rewrite Ef; by apply tst_clr_same|].
        split; [by intros ->|]. intros HD. destruct (Hdel HD) as (? & -> & ?). done.
      * intros _. rewrite (Hfl B_DELWRI), (Hfl B_DONE) by done. fold (flag s i B_ERROR).
        destruct (flag s i B_ERROR) eqn:EE; [done|]. intros Hnd HD HW.
        rewrite (block_same s _ _ _ Ep). by apply Hcl.
      * intros _. rewrite (Hfl B_ERROR) by done. fold (flag s i B_ERROR). by destruct (flag s i B_ERROR).
    + intros j Hj Hne. unfold bdev, bblk. rewrite Ed, Eb. case_match; [done|].
      intros Hnd Ed' Eb'. apply Hne, (so_uniq _ _ _ _ _ Hs j i); unfold bdev, bblk; congruence.
Qed.

Lemma pay_flags h h' : pay h = pay h' -> b_flags h = b_flags h'.
Proof. intros [=]. done. Qed.

Lemma notavail_pay bp s : pay (hd (notavail bp s) bp) =
  (b_flags (hd s bp) |: B_BUSY, b_dev (hd s bp), b_wcount (hd s bp),
   b_blkno (hd s bp), b_error (hd s bp), b_resid (hd s bp), b_paddr (hd s bp)).
Proof.
  unfold notavail, bor. cbv zeta. set (s1 := upd_hd (av_back _) _ s). set (s2 := upd_hd (av_forw _) _ s1).
  assert (E : pay (hd s2 bp) = pay (hd s bp)) by (unfold s2, s1; by rewrite !pay_upd).
  rewrite hd_upd, decide_True by done. destruct (hd s2 bp). unfold pay in *. simpl in *. by simplify_eq/=.
Qed.

Lemma binv_notavail s i : binv s -> (i < NBUF)%nat -> flag s i B_BUSY = false -> binv (notavail (Bufp i) s).
Proof.
  intros (av & cl & Hl & Hs) Hi Hb. pose proof (so_fit _ _ _ _ _ Hs i Hi) as F.
  assert (Hav : i ∈ av) by (by apply (fi_av _ _ _ _ _ _ F)).
  apply list_elem_of_split in Hav as (l1 & l2 & ->).
  pose proof (ln_av _ _ _ Hl) as Hr. rewrite fmap_app, fmap_cons in Hr.
  apply ring_links in Hr as (_ & _ & _ & _ & Hz).
  assert (Hni : i ∉ l1 ++ l2).
  { intros Hin. apply Hz. rewrite elem_of_cons, <- fmap_app. right. by apply list_elem_of_fmap_2. }
  apply linked_notavail in Hl.
  pose proof (pay_fields _ _ _ _ _ _ _ _ (notavail_pay (Bufp i) s)) as (Ef & Ed & _ & Eb & _).
  exists (l1 ++ l2), cl. split; [done|].
  eapply (sound_step raw quiet (Bufp i)); [exact Hs|apply notavail_frame|by apply spares_same|apply Hs|apply Hs|done| |apply Hs| |].
  - intros j Hj. rewrite !elem_of_app, elem_of_cons. assert (j <> i) by congruence. tauto.
  - intros Hq. apply (so_req _ _ _ _ _ Hs) in Hq as [Hq _]. unfold flag in Hb. congruence.
  - intros k [= <-]. split; [done|]. split.
    + split; [|unfold bdev, bblk; rewrite Ed, Eb; apply F| |done|done|].
      * split; [done|]. unfold flag, has. rewrite Ef. by flags; rewrite orb_true_r.
      * unfold flag, has. rewrite Ef. destruct F as [_ _ [F3 F4] _ _ _]. split; [|done].
        flags. unfold flag, has in F3. by rewrite F3.
      * unfold flag, has, bdev. rewrite Ef, Ed, tst_lor, orb_false_r. apply F.
    + intros j Hj Hne. unfold bdev, bblk. rewrite Ed, Eb. intros Hnd Ed' Eb'.
      apply Hne, (so_uniq _ _ _ _ _ Hs j i); unfold bdev, bblk; congruence.
Qed.

(** The chains after buffer [i] went to the chain of [h]. *)
Definition rechained (h : ref) i (cl : ref -> list nat) : ref -> list nat :=
  fun x => if decide (x = h) then i :: filter (.≠ i) (cl h) else filter (.≠ i) (cl x).

Lemma rechained_in h i cl x j : j ∈ rechained h i cl x <-> (x = h /\ j = i) \/ (j <> i /\ j ∈ cl x).
Proof.
  unfold rechained. case_decide; subst; rewrite ?elem_of_cons, list_elem_of_filter; [|naive_solver].
  destruct (decide (j = i)); naive_solver.
Qed.

(** [getblk] and [geteblk] turn the buffer they took over to [d], [b]. *)
Lemma binv_grab s i h g d b : binv s -> (i < NBUF)%nat -> flag s i B_BUSY = true -> Bufp i ∉ dq s -> h ∈ heads ->
  (forall x, b_flags (g x) = b_flags x /\ b_dev (g x) = d /\ b_forw (g x) = b_forw x /\ b_back (g x) = b_back x /\
     av_forw (g x) = av_forw x /\ av_back (g x) = av_back x) ->
  (d <> NODEV -> 0 <= major d < nblkdev /\ h = Tab (major d) /\ raw d b = false /\ (forall x, b_blkno (g x) = b) /\
     forall j, (j < NBUF)%nat -> ~ names s d b j) ->
  let s' := upd_hd (Bufp i) g (enchain h (Bufp i) (unchain (Bufp i) (upd_hd (Bufp i) (set_b_flags B_BUSY) s))) in
  binv s' /\ frame (Bufp i) s s' /\ rest_same s s' /\ b_flags (hd s' (Bufp i)) = B_BUSY.
Proof.
  intros (av & cl & Hl & Hs) Hi Hb Hnq Hh Hg Hd s'. pose proof (so_fit _ _ _ _ _ Hs i Hi) as F.
  pose proof (busy_not_av _ _ _ _ Hs Hb) as Hav.
  set (s1 := upd_hd (Bufp i) (set_b_flags B_BUSY) s) in *.
  set (s2 := unchain (Bufp i) s1) in *. set (s3 := enchain h (Bufp i) s2) in *.
  assert (Hl1 : linked s1 av cl) by (eapply linked_ext; [|done]; intros x; unfold s1; by rewrite !hd_upd_field).
  destruct (proj2 (so_all _ _ _ _ _ Hs i) Hi) as (h0 & Hh0 & Hi0).
  pose proof (so_part _ _ _ _ _ Hs) as Hp.
  pose proof (linked_unchain _ _ _ _ _ Hl1 Hp Hh0 Hi0) as Hl2.
  assert (Hl3 : linked s3 av (rechained h i cl)).
  { apply (linked_enchain _ _ _ h i Hl2); [|done|].
    - intros k x y Hx Hy [_ ?]%list_elem_of_filter [_ ?]%list_elem_of_filter. eauto.
    - intros x Hx [? _]%list_elem_of_filter. done. }
  assert (Hpay : pay (hd s3 (Bufp i)) = pay (set_b_flags B_BUSY (hd s (Bufp i)))).
  { unfold s3, s2, s1. by rewrite enchain_pay, unchain_pay, hd_upd, decide_True. }
  assert (Ei : hd s' (Bufp i) = g (hd s3 (Bufp i))) by (unfold s'; by rewrite hd_upd, decide_True).
  assert (Ef : b_flags (hd s' (Bufp i)) = B_BUSY).
  { rewrite Ei. destruct (Hg (hd s3 (Bufp i))) as [-> _]. exact (pay_flags _ _ Hpay). }
  assert (Ed : bdev s' i = d) by (unfold bdev; rewrite Ei; apply Hg).
  assert (Hfr : frame (Bufp i) s s').
  { unfold s'. eapply frame_trans; [|apply frame_upd]. eapply frame_trans; [|apply enchain_frame].
    eapply frame_trans; [|apply unchain_frame]. apply frame_upd. }
  split; [|done]. exists av, (rechained h i cl). split.
  { eapply linked_ext; [|exact Hl3]. intros x. unfold s'. rewrite !hd_upd_field; [done|..]; intros; apply Hg. }
  eapply (sound_step raw quiet (Bufp i)); [exact Hs|done|by apply spares_same| | | |done|apply Hs|done|].
  - intros k x y Hx Hy. rewrite !rechained_in. intros [[-> ->]|[? ?]] [[-> Hk]|[? ?]]; try done. eauto.
  - intros k. rewrite <- (so_all _ _ _ _ _ Hs k). setoid_rewrite rechained_in. split.
    + intros (x & Hx & [[-> ->]|[? ?]]); eauto.
    + intros (x & Hx & Hk). destruct (decide (k = i)) as [->|]; eauto 10.
  - intros j x Hj Hx Hin. apply rechained_in. right. split; [congruence|done].
  - intros k [= <-]. split; [done|]. split.
    + split; [|rewrite Ed|unfold flag, has; rewrite Ef; split; [done|apply F]|done|done|unfold flag, has; by rewrite Ef].
      * split; [done|]. unfold flag, has. by rewrite Ef.
      * intros Hnd. destruct (Hd Hnd) as (? & -> & ? & Hgb & _). split; [done|].
        split; [apply rechained_in; by left|]. unfold bblk. by rewrite Ei, Hgb.
    + intros j Hj Hne Hnd. unfold bblk. rewrite Ed in Hnd |- *. destruct (Hd Hnd) as (_ & _ & _ & Hgb & Hno).
      rewrite Ei, Hgb. intros E1 E2. by apply (Hno j Hj).
Qed.

(** ** The devices *)

Lemma transfer_hd r k s : hd (transfer r k s) = hd s.
Proof. unfold transfer, to_core, to_platter. cbv zeta. repeat case_match; done. Qed.

Lemma transfer_dq r k s : dq (transfer r k s) = dq s.
Proof. unfold transfer, to_core, to_platter. cbv zeta. repeat case_match; done. Qed.

Lemma transfer_set_dq r k q s : transfer r k (set_dq q s) = set_dq q (transfer r k s).
Proof.
  unfold transfer. change (has (set_dq q s) r B_READ) with (has s r B_READ). destruct (has s r B_READ); [|done].
  unfold to_core. change (has (set_dq q s) r B_PHYS) with (has s r B_PHYS).
  destruct (has s r B_PHYS); [done|]. by destruct r.
Qed.

Lemma transfer_frame r k s : frame r s (transfer r k s).
Proof.
  split.
  - intros x _. by rewrite transfer_hd.
  - intros j Hj. unfold transfer, to_core, to_platter. cbv zeta. repeat case_match; simpl; try done.
    rewrite decide_False; [done|]. congruence.
  - intros x _. by rewrite transfer_dq.
Qed.

Lemma lookup_block s d b j : (j < 512)%nat -> block s d b !! j = Some (platter s d (b * BSIZEW + Z.of_nat j)).
Proof. intros Hj. unfold block. rewrite list_lookup_fmap, lookup_seq_lt by (unfold BSIZEW; lia). done. Qed.

Lemma length_block s d b : length (block s d b) = Z.to_nat BSIZEW.
Proof. unfold block. by rewrite length_fmap, length_seq. Qed.

Lemma block_ext s s' d b :
  (forall j, (j < 512)%nat -> platter s' d (b * BSIZEW + Z.of_nat j) = platter s d (b * BSIZEW + Z.of_nat j)) ->
  block s' d b = block s d b.
Proof.
  intros E. unfold block. apply list_fmap_ext. intros n j Hj. apply lookup_seq in Hj as [-> Hj]. apply E.
  unfold BSIZEW in Hj. lia.
Qed.

(** What a request writes is its own. *)
Lemma transfer_spares r k s : req_ok raw s r -> k <= b_wcount (hd s r) -> spares r s (transfer r k s).
Proof.
  intros (_ & _ & _ & Hr) Hk d b Hraw Hno. unfold transfer. destruct (has s r B_READ).
  { apply block_same. unfold to_core. cbv zeta. destruct (has s r B_PHYS); [done|]. by destruct r. }
  apply block_ext. intros j Hj. unfold to_platter, BSIZEW in *. simpl.
  destruct (Z.eqb_spec d (b_dev (hd s r))) as [->|]; [|done]. bool_cases; try done. exfalso.
  destruct r as [| | | | | |i]; try done.
  1,2,3: destruct Hr as (_ & _ & Hr); rewrite Hr in Hraw; [done|lia].
  destruct Hr as (_ & _ & Hw & _). apply (Hno i); [done|done|]. unfold bblk. lia.
Qed.

Lemma transfer_length r k s i : length (buffers (transfer r k s) i) = length (buffers s i).
Proof.
  unfold transfer, to_core, to_platter. cbv zeta. repeat case_match; simpl; try done.
  case_decide; subst; [by rewrite length_imap|done].
Qed.

Lemma transfer_read i s : flag s i B_PHYS = false -> length (buffers s i) = Z.to_nat BSIZEW ->
  flag s i B_READ = true -> buffers (transfer (Bufp i) BSIZEW s) i = block s (bdev s i) (bblk s i).
Proof.
  unfold flag. intros Hp Hl Hr. unfold transfer, to_core. rewrite Hr, Hp. simpl. rewrite decide_True by done.
  apply list_eq. intros j. destruct (decide (j < 512)%nat) as [Hj|Hj].
  - rewrite list_lookup_imap, lookup_block by done.
    destruct (lookup_lt_is_Some_2 (buffers s i) j) as [x Hx]; [rewrite Hl; unfold BSIZEW; lia|].
    rewrite Hx. simpl. unfold BSIZEW at 1. bool_cases; [done|lia].
  - rewrite !lookup_ge_None_2; [done|rewrite length_block|rewrite length_imap, Hl]; unfold BSIZEW; lia.
Qed.

Lemma transfer_write i s : flag s i B_PHYS = false -> length (buffers s i) = Z.to_nat BSIZEW ->
  flag s i B_READ = false -> block (transfer (Bufp i) BSIZEW s) (bdev s i) (bblk s i) = buffers s i.
Proof.
  unfold flag. intros Hp Hl Hr. unfold transfer. rewrite Hr.
  apply list_eq. intros j. destruct (decide (j < 512)%nat) as [Hj|Hj].
  - rewrite lookup_block by done. unfold to_platter, core_word. simpl. rewrite Hp.
    fold (bdev s i). fold (bblk s i). unfold BSIZEW. rewrite Z.eqb_refl. simpl. bool_cases; [|lia..]. simpl.
    replace (bblk s i * 512 + Z.of_nat j - bblk s i * 512) with (Z.of_nat j) by lia. rewrite Nat2Z.id.
    destruct (lookup_lt_is_Some_2 (buffers s i) j) as [x Hx]; [rewrite Hl; unfold BSIZEW; lia|]. by rewrite Hx.
  - rewrite !lookup_ge_None_2; [done|rewrite Hl|rewrite length_block]; unfold BSIZEW; lia.
Qed.

(** The header after the transfer, before [iodone]. *)
Definition arrived r (err : option Z) s : bst :=
  let s1 := transfer r (default (b_wcount (hd s r)) err) (set_dq (filter (.≠ r) (dq s)) s) in
  upd_hd r (set_b_resid (b_wcount (hd s r) - default (b_wcount (hd s r)) err))
    (match err with None => s1 | Some _ => bor r B_ERROR s1 end).

Lemma finish_arrived r err s : finish r err s = iodone r (arrived r err s).
Proof.
  unfold finish, arrived. destruct err; simpl; [|by rewrite Z.sub_diag].
  done.
Qed.

(** ... and with [B_DONE], as [iodone] goes on with it. *)
Definition donehd r err s : bst := bor r B_DONE (arrived r err s).

Definition err_bits (err : option Z) : Z :=
  match err with Some _ => B_ERROR |: B_DONE | None => B_DONE end.

Lemma finish_done r err s : finish r err s =
  let s' := donehd r err s in if has s' r B_ASYNC then brelse r s' else bwakeup r (bclr r B_WANTED s').
Proof. by rewrite finish_arrived. Qed.

Lemma donehd_pay r err s : pay (hd (donehd r err s) r) =
  (b_flags (hd s r) |: err_bits err, b_dev (hd s r), b_wcount (hd s r), b_blkno (hd s r), b_error (hd s r),
   b_wcount (hd s r) - default (b_wcount (hd s r)) err, b_paddr (hd s r)).
Proof.
  unfold donehd, arrived, bor. cbv zeta. rewrite !hd_upd, !decide_True by done.
  destruct err; simpl; rewrite ?hd_upd, ?decide_True, transfer_hd by done; unfold pay; simpl; [|done].
  by rewrite Z.lor_assoc.
Qed.

Lemma donehd_dq r err s : dq (donehd r err s) = filter (.≠ r) (dq s).
Proof.
  unfold donehd, arrived, bor. cbv zeta. by destruct err; simpl; rewrite transfer_dq.
Qed.

Lemma donehd_buffers r err s i : buffers (donehd r err s) i =
  buffers (transfer r (default (b_wcount (hd s r)) err) s) i.
Proof.
  unfold donehd, arrived, bor. cbv zeta. rewrite transfer_set_dq. by destruct err.
Qed.

Lemma donehd_block r err s d b : block (donehd r err s) d b = block (transfer r (default (b_wcount (hd s r)) err) s) d b.
Proof.
  apply block_same. unfold donehd, arrived, bor. cbv zeta. rewrite transfer_set_dq. by destruct err.
Qed.

Lemma donehd_frame r err s : frame r s (donehd r err s).
Proof.
  unfold donehd, arrived. cbv zeta. rewrite transfer_set_dq. set (s1 := transfer _ _ s).
  apply (frame_trans r s s1); [apply transfer_frame|].
  apply (frame_trans r s1 (set_dq (filter (.≠ r) (dq s)) s1)); [|by destruct err; frames].
  split; [done|done|]. intros x Hx. unfold s1. simpl. rewrite transfer_dq, list_elem_of_filter. tauto.
Qed.

Lemma linked_donehd r err s av cl : linked s av cl -> linked (donehd r err s) av cl.
Proof.
  apply linked_ext. intros x. unfold donehd, arrived, bor. cbv zeta. rewrite !hd_upd_field by done.
  by destruct err; rewrite ?hd_upd_field, transfer_hd by done.
Qed.

Definition err_ok s r (err : option Z) : Prop :=
  match err with None => True | Some k => 0 <= k <= b_wcount (hd s r) end.

Lemma donehd_spares r err s : req_ok raw s r -> err_ok s r err -> spares r s (donehd r err s).
Proof.
  intros Hr Hk d b Hraw Hno. rewrite donehd_block. apply transfer_spares; [done| |done|done].
  destruct err; simpl in *; lia.
Qed.

Lemma donehd_flag r err s m : has (donehd r err s) r m = has s r m || (err_bits err &? m).
Proof.
  pose proof (pay_fields _ _ _ _ _ _ _ _ (donehd_pay r err s)) as (Ef & _). unfold has. rewrite Ef.
  apply tst_lor.
Qed.

Lemma donehd_names r err s i : r = Bufp i -> bdev (donehd r err s) i = bdev s i /\ bblk (donehd r err s) i = bblk s i.
Proof.
  intros ->. pose proof (pay_fields _ _ _ _ _ _ _ _ (donehd_pay (Bufp i) err s)) as (_ & Ed & _ & Eb & _). done.
Qed.

(** The buffer of a transfer that went through has what is on the device. *)
Lemma donehd_clean s i : req_ok raw s (Bufp i) -> flag s i B_PHYS = false -> length (buffers s i) = Z.to_nat BSIZEW ->
  buffers (donehd (Bufp i) None s) i = block (donehd (Bufp i) None s) (bdev s i) (bblk s i) /\
  if flag s i B_READ then block (donehd (Bufp i) None s) (bdev s i) (bblk s i) = block s (bdev s i) (bblk s i)
  else buffers (donehd (Bufp i) None s) i = buffers s i.
Proof.
  intros (_ & _ & _ & _ & _ & Hw & _) Hp Hl. rewrite donehd_block, donehd_buffers. simpl. rewrite Hw.
  destruct (flag s i B_READ) eqn:ER.
  - assert (E : block (transfer (Bufp i) BSIZEW s) (bdev s i) (bblk s i) = block s (bdev s i) (bblk s i)).
    { unfold flag in ER. apply block_same. unfold transfer, to_core. rewrite ER. by case_match. }
    rewrite E. split; [by apply transfer_read|done].
  - rewrite transfer_write by done. unfold flag in ER. unfold transfer, to_platter. by rewrite ER.
Qed.

Lemma binv_donehd s r err : binv s -> r ∈ dq s -> err_ok s r err -> (quiet = true -> err = None) -> binv (donehd r err s).
Proof.
  intros Hi Hr Hk Hqe. pose proof Hi as (av & cl & Hl & Hs). pose proof (so_req _ _ _ _ _ Hs r Hr) as Hreq.
  eapply (binv_step r); [done|apply donehd_frame|by apply donehd_spares|intros; by apply linked_donehd| | |].
  - rewrite donehd_dq. apply NoDup_filter, Hs.
  - rewrite donehd_dq, list_elem_of_filter. tauto.
  - intros i ->. destruct Hreq as (Hb & _ & He & Hlt & _). pose proof (so_fit _ _ _ _ _ Hs i Hlt) as F.
    destruct (fi_buf _ _ _ _ _ _ F) as [Hp Hlen]. unfold flag in *. rewrite !donehd_flag, Hb, Hp, He.
    rewrite donehd_buffers, transfer_length. destruct (donehd_names (Bufp i) err s i eq_refl).
    split_and!; try done; [by destruct err|]. intros Hq _. by rewrite (Hqe Hq).
Qed.

Lemma finish_frame r err s : frame r s (finish r err s).
Proof.
  rewrite finish_done. cbv zeta. apply (frame_trans r s _ _ (donehd_frame r err s)).
  destruct (has _ r B_ASYNC); [apply brelse_frame|frames].
Qed.

Lemma finish_rest r err s : rest_same (donehd r err s) (finish r err s).
Proof. rewrite finish_done. cbv zeta. case_match; [apply brelse_rest|done]. Qed.

Lemma finish_spares r err s : req_ok raw s r -> err_ok s r err -> spares r s (finish r err s).
Proof.
  intros Hr Hk d b Hraw Hno. destruct (finish_rest r err s) as (_ & _ & Ep & _).
  rewrite (block_same _ _ _ _ Ep). by apply (donehd_spares r err).
Qed.

Lemma err_bits_done err m : Z.land B_ERROR m = 0 -> (err_bits err &? m) = (B_DONE &? m).
Proof. intros Hm. destruct err; simpl; [|done]. rewrite tst_lor. unfold tst at 1. by rewrite Hm. Qed.

(** A request that is not asynchronous goes back to who waits for it. *)
Lemma finish_sync s r err : binv s -> r ∈ dq s -> err_ok s r err -> has s r B_ASYNC = false ->
  held (finish r err s) r /\ ended (bool_decide (err <> None)) s (finish r err s) r.
Proof.
  intros (av & cl & Hl & Hs) Hr Hk Ha. pose proof (so_req _ _ _ _ _ Hs r Hr) as Hreq.
  pose proof (pay_fields _ _ _ _ _ _ _ _ (donehd_pay r err s)) as (Ef & Ed & _ & Eb & Ee & _).
  destruct (finish_rest r err s) as (Ebuf & Eq & Ep & _).
  assert (Eh : hd (finish r err s) r = set_b_flags (b_flags (hd (donehd r err s) r) &~ B_WANTED) (hd (donehd r err s) r)).
  { rewrite finish_done. cbv zeta. rewrite donehd_flag, Ha, err_bits_done by done. simpl. by rewrite decide_True. }
  assert (Ef' : b_flags (hd (finish r err s) r) = b_flags (hd (donehd r err s) r) &~ B_WANTED) by (by rewrite Eh).
  split.
  - split; [|rewrite Eq, donehd_dq, list_elem_of_filter; tauto].
    unfold has. rewrite Ef', tst_clr_other, Ef, tst_lor by done. destruct Hreq as [Hb _].
    unfold has in Hb. by rewrite Hb.
  - unfold ended. rewrite Ef', Ef, Eh. split_and!; [exact Ed|exact Eb|exact Ee| |].
    + unfold clr. rewrite <- Z.land_assoc. by destruct err.
    + destruct r; try done. intros Hi He. destruct err; [by rewrite bool_decide_eq_true_2 in He|].
      rewrite Ebuf, (block_same _ _ _ _ Ep). pose proof (so_fit _ _ _ _ _ Hs _ Hi) as F.
      apply donehd_clean; [done|apply F..].
Qed.

Lemma io_binv s r err : binv s -> r ∈ dq s -> err_ok s r err -> (quiet = true -> err = None) -> binv (finish r err s).
Proof.
  intros Hi Hr Hk Hqe. pose proof Hi as (av & cl & Hl & Hs). pose proof (so_req _ _ _ _ _ Hs r Hr) as Hreq.
  pose proof (binv_donehd _ _ _ Hi Hr Hk Hqe) as Hd. rewrite finish_done. cbv zeta.
  assert (Hnq : r ∉ dq (donehd r err s)) by (rewrite donehd_dq, list_elem_of_filter; tauto).
  assert (Hb : has (donehd r err s) r B_BUSY = true) by (rewrite donehd_flag; destruct Hreq as [-> _]; done).
  destruct (has (donehd r err s) r B_ASYNC) eqn:Ha.
  - rewrite donehd_flag, err_bits_done, orb_false_r in Ha by done.
    destruct r as [| | | | | |i]; try (destruct Hreq as (_ & _ & _ & ?); naive_solver congruence).
    pose proof Hreq as (_ & Hdone & Herr & Hlt & Hnd & Hw & Hdel). pose proof (so_fit _ _ _ _ _ Hs i Hlt) as F.
    apply binv_brelse; [done|done|done|done|]. destruct (donehd_names (Bufp i) err s i eq_refl) as [Ed Eb].
    unfold ready, flag in *. rewrite !donehd_flag, Hdel, Herr, Ed, Eb. split.
    + by destruct err.
    + intros _ _ He _. destruct err; [done|]. apply donehd_clean; [done|apply F..].
  - eapply (binv_step r); [exact Hd|frames|by apply spares_same| | |done|].
    + intros av' cl' Hl'. apply (linked_hd (bclr r B_WANTED (donehd r err s))); [done|]. by apply linked_upd.
    + destruct Hd as (? & ? & _ & Hd). apply Hd.
    + intros i ->. destruct Hreq as (_ & _ & _ & Hlt & _). pose proof Hd as (? & ? & _ & Hd').
      pose proof (so_fit _ _ _ _ _ Hd' i Hlt) as F. destruct (fi_buf _ _ _ _ _ _ F) as [Hp Hlen].
      pose proof (fi_good _ _ _ _ _ _ F) as Hgd. set (s3 := donehd (Bufp i) err s) in *. clearbody s3. unfold flag, has, bdev, bblk in *. simpl.
      rewrite decide_True by done. simpl. rewrite !tst_clr_other by done. done.
Qed.

Lemma finish_kept s r err x : binv s -> r ∈ dq s -> err_ok s r err -> kept s (finish r err s) x.
Proof.
  intros Hi Hr Hk. pose proof Hi as (av & cl & Hl & Hs). pose proof (so_req _ _ _ _ _ Hs r Hr) as Hreq.
  destruct (decide (x = r)) as [->|Hne].
  - split; [intros [_ ?]; done|]. intros _ Ha. right.
    destruct (finish_sync _ _ _ Hi Hr Hk Ha) as [? ?]. eauto.
  - eapply kept_frame; [exact Hs|apply finish_frame|by apply finish_spares| |done].
    intros i ->. by destruct Hreq as (_ & _ & _ & ? & _).
Qed.

(** ** The view of a block *)

#[local] Instance names_dec s d b i : Decision (names s d b i).
Proof. unfold names. apply _. Defined.

Lemma view_valid s av cl d b i : sound s av cl -> (i < NBUF)%nat -> names s d b i -> valid s i = true ->
  view s d b = buffers s i.
Proof.
  intros Hs Hi Hn Hv. unfold view, holder. destruct (list_find _ _) as [[k j]|] eqn:E; simpl.
  - apply list_find_Some in E as (Hk & [Hn' Hv'] & _). apply lookup_seq in Hk as [-> Hk]. simpl in *.
    destruct Hn as (Hd & E1 & E2), Hn' as (_ & E3 & E4).
    assert (k = i) as ->; [|done]. eapply (so_uniq _ _ _ _ _ Hs); [done|done|..]; congruence.
  - apply list_find_None in E. rewrite Forall_forall in E.
    exfalso. apply (E i); [apply elem_of_seq; lia|done].
Qed.

Lemma view_block s d b : (forall i, (i < NBUF)%nat -> names s d b i -> valid s i = false) -> view s d b = block s d b.
Proof.
  intros Hn. unfold view, holder. destruct (list_find _ _) as [[k j]|] eqn:E; simpl; [|done].
  apply list_find_Some in E as (Hk & [Hn' Hv'] & _). apply lookup_seq in Hk as [-> Hk]. simpl in *.
  rewrite (Hn k) in Hv'; done.
Qed.

(** What buffer [i] makes of the block. *)
Definition through s i d b : list Z :=
  if decide (names s d b i) then if valid s i then buffers s i else block s d b else block s d b.

Lemma valid_other r s s' j : frame r s s' -> Bufp j <> r -> valid s' j = valid s j.
Proof.
  intros Hf Hj. unfold valid, flag. rewrite !(frame_flag _ _ _ _ _ Hf Hj) by done.
  f_equal. f_equal. apply bool_decide_ext. by apply (fr_dq _ _ _ Hf).
Qed.

Lemma names_other r s s' j d b : frame r s s' -> Bufp j <> r -> names s' d b j <-> names s d b j.
Proof. intros Hf Hj. unfold names. by destruct (frame_names _ _ _ _ Hf Hj) as [-> ->]. Qed.

(** The view changes through the buffer an operation is on, if at all. *)
Lemma view_step i s s' av cl av' cl' d b : sound s av cl -> sound s' av' cl' -> frame (Bufp i) s s' ->
  spares (Bufp i) s s' -> (i < NBUF)%nat -> d <> NODEV -> raw d b = false ->
  (names s d b i \/ names s' d b i ->
   (forall j, (j < NBUF)%nat -> j <> i -> names s d b j -> valid s j = false) -> through s' i d b = through s i d b) ->
  view s' d b = view s d b.
Proof.
  intros Hs Hs' Hf Hp Hi Hd Hraw Ht.
  destruct (decide (Exists (fun j => j <> i /\ names s d b j /\ valid s j = true) (seq 0 NBUF))) as [HE|HE].
  - apply Exists_exists in HE as (j & [_ Hj]%elem_of_seq & Hne & Hn & Hv).
    assert (Hne' : Bufp j <> Bufp i) by congruence.
    rewrite (view_valid s av cl d b j Hs Hj Hn Hv).
    rewrite (view_valid s' av' cl' d b j Hs' Hj); [by apply Hf|by eapply names_other|by erewrite valid_other].
  - assert (Hno : forall j, (j < NBUF)%nat -> j <> i -> names s d b j -> valid s j = false).
    { intros j Hj Hne Hn. destruct (valid s j) eqn:Hv; [|done]. exfalso. apply HE, Exists_exists.
      exists j. split; [apply elem_of_seq; lia|done]. }
    assert (Hno' : forall j, (j < NBUF)%nat -> j <> i -> names s' d b j -> valid s' j = false).
    { intros j Hj Hne. assert (Hne' : Bufp j <> Bufp i) by congruence.
      erewrite names_other, valid_other by done. by apply Hno. }
    assert (Hvt : forall z av cl, sound z av cl ->
      (forall j, (j < NBUF)%nat -> j <> i -> names z d b j -> valid z j = false) -> view z d b = through z i d b).
    { intros z za zc Hz Hzn. unfold through. destruct (decide (names z d b i)) as [Hn|Hn]; [destruct (valid z i) eqn:Hv|].
      - by eapply view_valid.
      - apply view_block. intros j Hj Hnj. destruct (decide (j = i)) as [->|]; [done|by apply Hzn].
      - apply view_block. intros j Hj Hnj. destruct (decide (j = i)) as [->|]; [done|by apply Hzn]. }
    rewrite (Hvt _ _ _ Hs Hno), (Hvt _ _ _ Hs' Hno').
    destruct (decide (names s d b i \/ names s' d b i)) as [Hn|Hn]; [by apply Ht|].
    unfold through. rewrite !decide_False by tauto. apply Hp; [done|]. intros k [= <-] E1 E2.
    apply Hn. left. done.
Qed.

(** ** Interference, composed *)

Lemma alike_clr h h' m : alike h h' -> (b_flags h' |: m) &~ SOFT = (b_flags h |: m) &~ SOFT.
Proof.
  intros (_ & _ & _ & _ & _ & _ & E). unfold clr in *. by rewrite !Z.land_lor_distr_l, E.
Qed.

Lemma alike_names h h' : alike h h' -> b_dev h' = b_dev h /\ b_blkno h' = b_blkno h.
Proof. by intros (? & _ & ? & _). Qed.

Lemma same_words_trans s1 s2 s3 r : alike (hd s1 r) (hd s2 r) -> same_words s1 s2 r -> same_words s2 s3 r -> same_words s1 s3 r.
Proof.
  intros Ha. destruct r; try done. simpl. intros [E1 E2] [E3 E4]. split; [congruence|]. intros Hi Hd.
  apply alike_names in Ha as [E5 E6]. unfold bdev, bblk in *. rewrite E5, E6 in E4. rewrite E4, E2; done.
Qed.

Lemma ended_trans_l s1 s2 s3 r err : alike (hd s1 r) (hd s2 r) -> same_words s1 s2 r ->
  (forall i, r = Bufp i -> bdev s1 i <> NODEV) -> ended err s2 s3 r -> ended err s1 s3 r.
Proof.
  intros Ha Hw Hn (E1 & E2 & E3 & E4 & E5). pose proof (alike_names _ _ Ha) as [Ed Eb].
  pose proof Ha as (_ & _ & _ & Ee & _ & _ & _). split_and!; [congruence..| |].
  - rewrite E4. by apply alike_clr.
  - destruct r as [| | | | | |i]; try done. intros Hi He. destruct (E5 Hi He) as [E6 E7].
    destruct Hw as [Hw1 Hw2]. unfold flag, has, bdev, bblk in *.
    rewrite (alike_flag _ _ B_READ Ha), Ed, Eb in * by done. split; [done|]. case_match; [|congruence].
    rewrite E7. apply Hw2; [done|by apply (Hn i)].
Qed.

Lemma ended_trans_r s1 s2 s3 r err : ended err s1 s2 r -> alike (hd s2 r) (hd s3 r) -> same_words s2 s3 r ->
  (forall i, r = Bufp i -> bdev s1 i <> NODEV) -> ended err s1 s3 r.
Proof.
  intros (E1 & E2 & E3 & E4 & E5) Ha Hw Hn. pose proof (alike_names _ _ Ha) as [Ed Eb].
  pose proof Ha as (_ & _ & _ & Ee & _ & _ & Ef). split_and!; [congruence..|].
  destruct r as [| | | | | |i]; try done. intros Hi He. destruct (E5 Hi He) as [E6 E7].
  destruct Hw as [Hw1 Hw2]. unfold bdev, bblk in *. rewrite E1, E2 in Hw2.
  specialize (Hw2 Hi (Hn i eq_refl)). rewrite Hw1, Hw2. split; [done|]. by case_match; congruence.
Qed.

Lemma kept_trans s1 s2 s3 r : binv s1 -> kept s1 s2 r -> kept s2 s3 r -> kept s1 s3 r.
Proof.
  intros (av & cl & _ & Hs) [A1 B1] [A2 B2]. split.
  - intros Hh. destruct (A1 Hh) as (Hh2 & Ha & Hw). destruct (A2 Hh2) as (Hh3 & Ha' & Hw').
    split; [done|]. split; [by eapply alike_trans|by eapply same_words_trans].
  - intros Hq Has. assert (Hn : forall i, r = Bufp i -> bdev s1 i <> NODEV).
    { intros i ->. by destruct (so_req _ _ _ _ _ Hs _ Hq) as (_ & _ & _ & _ & ? & _). }
    destruct (B1 Hq Has) as [(Hq2 & Ha & Hw)|(Hh2 & err & He)].
    + assert (Has2 : has s2 r B_ASYNC = false) by (unfold has; by rewrite (alike_flag _ _ B_ASYNC Ha)).
      destruct (B2 Hq2 Has2) as [(Hq3 & Ha' & Hw')|(Hh3 & err & He)].
      * left. split; [done|]. split; [by eapply alike_trans|by eapply same_words_trans].
      * right. split; [done|]. exists err. by eapply ended_trans_l.
    + destruct (A2 Hh2) as (Hh3 & Ha' & Hw'). right. split; [done|]. exists err. by eapply ended_trans_r.
Qed.

Lemma kept_mine s s' r : kept s s' r -> mine s r -> mine s' r.
Proof.
  intros [A1 B1] [Hb Ha]. destruct (decide (r ∈ dq s)) as [Hq|Hq].
  - destruct (B1 Hq (Ha Hq)) as [(Hq' & Hal & _)|([Hb' Hq'] & _)]; [|by split].
    split; [|intros _]; unfold has; rewrite (alike_flag _ _ _ Hal) by done; [done|by apply Ha].
  - destruct (A1 (conj Hb Hq)) as ([Hb' Hq'] & _). by split.
Qed.

Lemma kept_free s s' r : binv s -> has s r B_BUSY = false -> kept s s' r.
Proof.
  intros (av & cl & _ & Hs) Hb. split; [intros [? _]; congruence|].
  intros Hq. destruct (so_req _ _ _ _ _ Hs _ Hq) as [? _]. congruence.
Qed.

Lemma kept_unowned s s' r : binv s -> ~ mine s r -> kept s s' r.
Proof.
  intros Hi Hm. pose proof Hi as (av & cl & _ & Hs). split.
  - intros [Hb Hq]. exfalso. by apply Hm.
  - intros Hq Ha. exfalso. apply Hm. split; [|done]. by apply (so_req _ _ _ _ _ Hs _ Hq).
Qed.

Abbreviation guar := (guar raw quiet).

Lemma guar_trans H H1 H2 s s1 s2 : binv s -> guar H H1 s s1 -> guar H1 H2 s1 s2 -> guar H H2 s s2.
Proof.
  intros Hi (Hi1 & K1 & O1) (Hi2 & K2 & O2). split; [done|]. split.
  - intros r Hr. destruct (decide (r ∈ H1)) as [Hr1|Hr1].
    + destruct (O1 r Hr1) as [_ [|Hm]]; [done|]. by apply kept_unowned.
    + eapply kept_trans; eauto.
  - intros r Hr. destruct (O2 r Hr) as [Hm [Hr1|Hn]]; [by split; [|apply O1]|].
    split; [done|]. destruct (decide (r ∈ H)) as [|Hr0]; [by left|]. right. intros Hm0.
    apply Hn. eapply kept_mine; eauto.
Qed.

Lemma guar_refl H s : binv s -> (forall r, r ∈ H -> mine s r) -> guar H H s s.
Proof.
  intros Hi Hm. split; [done|]. split; [|auto]. intros r _. split.
  - intros Hh. split; [done|]. split; [done|]. by destruct r.
  - intros Hq _. left. split; [done|]. split; [done|]. by destruct r.
Qed.

(** An operation on a header the process has, or takes. *)
Lemma guar_step H H' s s' r : binv s -> binv s' -> frame r s s' -> spares r s s' ->
  (forall i, r = Bufp i -> (i < NBUF)%nat) -> (forall x, x ∈ H -> mine s x) ->
  r ∈ H \/ has s r B_BUSY = false -> (forall x, x ∈ H' -> x = r \/ x ∈ H) -> (r ∈ H' -> mine s' r) ->
  guar H H' s s'.
Proof.
  intros Hi Hi' Hf Hp Hr Hm Hrh Hh' Hmr. pose proof Hi as (av & cl & _ & Hs).
  assert (Hk : forall x, x <> r -> kept s s' x) by (intros; by eapply kept_frame).
  split; [done|]. split.
  - intros x Hx. destruct (decide (x = r)) as [->|]; [|by apply Hk].
    destruct Hrh; [done|by apply kept_free].
  - intros x Hx. destruct (decide (x = r)) as [->|Hne].
    + split; [by apply Hmr|]. destruct Hrh as [|Hb]; [by left|]. right. intros [? _]. congruence.
    + destruct (Hh' x Hx) as [|Hx']; [done|]. split; [|by left]. eapply kept_mine; [by apply Hk|by apply Hm].
Qed.

(** ** Interrupts *)

(** A buffer nobody has, before and after. *)
Definition undisturbed s s' i : Prop :=
  flag s' i B_BUSY = false /\ alike (hd s (Bufp i)) (hd s' (Bufp i)) /\ buffers s' i = buffers s i.

Lemma finish_idle s r err i : binv s -> r ∈ dq s -> flag s i B_BUSY = false -> undisturbed s (finish r err s) i.
Proof.
  intros (av & cl & _ & Hs) Hr Hb. assert (Hne : Bufp i <> r).
  { intros <-. destruct (so_req _ _ _ _ _ Hs _ Hr) as [? _]. unfold flag in Hb. congruence. }
  pose proof (finish_frame r err s) as Hf. split; [|split; [by apply Hf|by apply Hf]].
  unfold flag. by erewrite frame_flag.
Qed.

Lemma undisturbed_trans s1 s2 s3 i : undisturbed s1 s2 i -> (flag s2 i B_BUSY = false -> undisturbed s2 s3 i) -> undisturbed s1 s3 i.
Proof.
  intros (Hb & Ha & Hw) H3. destruct (H3 Hb) as (Hb' & Ha' & Hw'). split; [done|].
  split; [by eapply alike_trans|congruence].
Qed.

Lemma finish_dev r err s i : bdev (finish r err s) i = bdev s i \/ bdev (finish r err s) i = NODEV.
Proof.
  destruct (decide (Bufp i = r)) as [<-|Hne].
  - rewrite finish_done. cbv zeta. destruct (donehd_names (Bufp i) err s i eq_refl) as [Ed _]. case_match.
    + pose proof (pay_fields _ _ _ _ _ _ _ _ (brelse_pay (Bufp i) (donehd (Bufp i) err s) ltac:(done))) as (_ & E & _).
      unfold bdev in *. rewrite E. case_match; auto.
    + left. rewrite <- Ed. unfold bdev, bwakeup, bclr. simpl hd. by rewrite decide_True.
  - left. by apply (frame_names _ _ _ _ (finish_frame r err s)).
Qed.

Lemma finish_blk r err s i : bblk (finish r err s) i = bblk s i.
Proof.
  destruct (decide (Bufp i = r)) as [<-|Hne].
  - rewrite finish_done. cbv zeta. destruct (donehd_names (Bufp i) err s i eq_refl) as [_ Eb]. rewrite <- Eb. case_match.
    + pose proof (pay_fields _ _ _ _ _ _ _ _ (brelse_pay (Bufp i) (donehd (Bufp i) err s) ltac:(done))) as (_ & _ & _ & E & _).
      unfold bblk in *. by rewrite E.
    + unfold bblk, bwakeup, bclr. simpl hd. by rewrite decide_True.
  - by apply (frame_names _ _ _ _ (finish_frame r err s)).
Qed.

Lemma io_facts s s' : binv s -> ioq quiet s s' ->
  binv s' /\ (forall r, kept s s' r) /\ (forall i, flag s i B_BUSY = false -> undisturbed s s' i) /\
  (forall d b i, names s' d b i -> names s d b i).
Proof.
  intros Hi Hio. revert Hi. induction Hio as [s|s1 s2 s3 Hst Hio IH]; intros Hi.
  - split; [done|]. split; [|split; [|done]].
    + intros r. by apply (guar_refl [] s Hi ltac:(set_solver)); set_solver.
    + intros i Hb. done.
  - destruct Hst as [r err Hr Hqe Hk].
    destruct (IH (io_binv _ _ _ Hi Hr Hk Hqe)) as (Hi3 & HK & HU & HN). split; [done|].
    split; [intros x; eapply kept_trans; [done|by apply finish_kept|done]|]. split.
    + intros i Hb. eapply undisturbed_trans; [by apply finish_idle|]. apply HU.
    + intros d b i Hn. apply HN in Hn as (Hd & E1 & E2). rewrite finish_blk in E2.
      split; [done|]. split; [|done]. destruct (finish_dev r err s1 i); congruence.
Qed.

(** When no transfer fails no buffer loses its block. *)
Lemma finish_dev_kept s r i : binv s -> r ∈ dq s -> bdev (finish r None s) i = bdev s i.
Proof.
  intros (av & cl & _ & Hs) Hr. destruct (decide (Bufp i = r)) as [<-|Hne]; [|by apply (frame_names _ _ _ _ (finish_frame r None s))].
  destruct (so_req _ _ _ _ _ Hs _ Hr) as (_ & _ & He & _). destruct (donehd_names (Bufp i) None s i eq_refl) as [Ed _].
  rewrite finish_done. cbv zeta. case_match.
  - pose proof (pay_fields _ _ _ _ _ _ _ _ (brelse_pay (Bufp i) (donehd (Bufp i) None s) ltac:(done))) as (_ & E & _).
    unfold bdev in *. rewrite E, donehd_flag, He. done.
  - rewrite <- Ed. unfold bdev, bwakeup, bclr. simpl hd. by rewrite decide_True.
Qed.

Lemma ioq_names s s' d b i : binv s -> ioq true s s' -> names s' d b i <-> names s d b i.
Proof.
  intros Hi Hio. revert Hi. induction Hio as [|s1 s2 s3 [r err Hr Hqe Hk] Hio IH]; [done|]. intros Hi.
  rewrite (Hqe eq_refl) in *. rewrite IH by (by apply io_binv). unfold names. by rewrite finish_dev_kept, finish_blk.
Qed.

(** ** Operations that change no view *)

Definition viewsame s s' : Prop := forall d b, d <> NODEV -> raw d b = false -> view s' d b = view s d b.

Lemma viewsame_trans s1 s2 s3 : viewsame s1 s2 -> viewsame s2 s3 -> viewsame s1 s3.
Proof. intros H1 H2 d b Hd Hr. rewrite H2, H1; done. Qed.

Lemma view_through i s s' : binv s -> binv s' -> frame (Bufp i) s s' -> spares (Bufp i) s s' -> (i < NBUF)%nat ->
  (forall d b, d <> NODEV -> names s d b i \/ names s' d b i -> through s' i d b = through s i d b) -> viewsame s s'.
Proof.
  intros (av & cl & _ & Hs) (av' & cl' & _ & Hs') Hf Hp Hi Ht d b Hd Hr. eapply view_step; eauto.
Qed.

Lemma view_keep i s s' : binv s -> binv s' -> frame (Bufp i) s s' -> platter s' = platter s -> (i < NBUF)%nat ->
  bdev s' i = bdev s i -> bblk s' i = bblk s i -> valid s' i = valid s i ->
  (valid s i = true -> buffers s' i = buffers s i) -> viewsame s s'.
Proof.
  intros Hi Hi' Hf Hp Hlt Ed Eb Hv Hw. apply (view_through i); [done|done|done|by apply spares_same|done|].
  intros d b Hd _. assert (Hn : names s' d b i <-> names s d b i) by (unfold names; by rewrite Ed, Eb).
  unfold through. rewrite Hv, (block_same s s') by done.
  destruct (decide (names s' d b i)), (decide (names s d b i)); try tauto. destruct (valid s i); auto.
Qed.

Lemma valid_ext s s' i : (forall m, m = B_DONE \/ m = B_ERROR \/ m = B_READ -> flag s' i m = flag s i m) ->
  dq s' = dq s -> valid s' i = valid s i.
Proof. intros Hf Hq. unfold valid. rewrite !Hf, Hq by auto. done. Qed.

Lemma view_brelse s i : binv s -> (i < NBUF)%nat -> flag s i B_BUSY = true -> Bufp i ∉ dq s -> ready s i ->
  viewsame s (brelse (Bufp i) s).
Proof.
  intros Hi Hlt Hb Hnq Hr. pose proof (binv_brelse _ _ Hi Hlt Hb Hnq Hr) as Hi'.
  destruct (brelse_rest (Bufp i) s) as (Ebuf & Eq & Ep & _).
  pose proof (pay_fields _ _ _ _ _ _ _ _ (brelse_pay (Bufp i) s ltac:(done))) as (Ef & Ed & _ & Eb & _).
  assert (Hv : valid (brelse (Bufp i) s) i = valid s i).
  { apply valid_ext; [|done]. intros m Hm. unfold flag, has. rewrite Ef.
    destruct Hm as [-> | [-> | ->]]; by apply tst_clr_other. }
  destruct (has s (Bufp i) B_ERROR) eqn:He.
  - apply (view_through i); [done|done|apply brelse_frame|by apply spares_same|done|]. intros d b Hd _.
    unfold through. rewrite Hv, (block_same s), Ebuf by done.
    assert (Hn : ~ names (brelse (Bufp i) s) d b i) by (intros (_ & E & _); unfold bdev in E; congruence).
    assert (valid s i = false) as ->; [|by destruct (decide (names (brelse _ s) d b i)), (decide (names s d b i))].
    unfold valid, flag. rewrite He, (bool_decide_eq_false_2 _ Hnq). by rewrite andb_false_r.
  - apply (view_keep i); try done; [apply brelse_frame|]. intros _. by rewrite Ebuf.
Qed.

Lemma view_notavail s i : binv s -> (i < NBUF)%nat -> flag s i B_BUSY = false -> viewsame s (notavail (Bufp i) s).
Proof.
  intros Hi Hlt Hb. pose proof (pay_fields _ _ _ _ _ _ _ _ (notavail_pay (Bufp i) s)) as (Ef & Ed & _ & Eb & _).
  apply (view_keep i); try done; [by apply binv_notavail|apply notavail_frame|]. apply valid_ext; [|done].
  intros m Hm. unfold flag, has. rewrite Ef, tst_lor. by destruct Hm as [-> | [-> | ->]]; rewrite orb_false_r.
Qed.

(** Taking over a buffer whose block is on the device. *)
Lemma view_taken s s' i : binv s -> binv s' -> frame (Bufp i) s s' -> rest_same s s' -> (i < NBUF)%nat ->
  b_flags (hd s' (Bufp i)) = B_BUSY -> Bufp i ∉ dq s ->
  (valid s i = true -> bdev s i <> NODEV -> buffers s i = block s (bdev s i) (bblk s i)) -> viewsame s s'.
Proof.
  intros Hi Hi' Hf (Ebuf & Eq & Ep & _) Hlt Ef Hnq Hcl.
  apply (view_through i); [done|done|done|by apply spares_same|done|]. intros d b Hd _.
  assert (valid s' i = false) as Hv.
  { unfold valid, flag, has. rewrite Ef, Eq, (bool_decide_eq_false_2 _ Hnq). done. }
  assert (E1 : through s' i d b = block s d b).
  { unfold through. rewrite Hv, (block_same s) by done. by case_decide. }
  rewrite E1. unfold through. case_decide as Hn; [|done]. destruct (valid s i); [|done].
  destruct Hn as (_ & <- & <-). symmetry. by apply Hcl.
Qed.


(** A transfer that does not go through the cache. *)
Lemma view_phys r s s' : binv s -> binv s' -> frame r s s' -> spares r s s' -> (forall i, r <> Bufp i) -> viewsame s s'.
Proof.
  intros (av & cl & _ & Hs) (av' & cl' & _ & Hs') Hf Hp Hne d b Hd Hraw.
  assert (Hb : block s' d b = block s d b) by (apply Hp; [done|]; intros i E; by destruct (Hne i)).
  destruct (decide (Exists (fun j => names s d b j /\ valid s j = true) (seq 0 NBUF))) as [HE|HE].
  - apply Exists_exists in HE as (j & [_ Hj]%elem_of_seq & Hn & Hv). pose proof (not_eq_sym (Hne j)) as Hj'.
    rewrite (view_valid s av cl d b j Hs Hj Hn Hv).
    rewrite (view_valid s' av' cl' d b j Hs' Hj); [by apply Hf|by eapply names_other|by erewrite valid_other].
  - assert (Hno : forall j, (j < NBUF)%nat -> names s d b j -> valid s j = false).
    { intros j Hj Hn. destruct (valid s j) eqn:Hv; [|done]. exfalso. apply HE, Exists_exists.
      exists j. split; [apply elem_of_seq; lia|done]. }
    rewrite !view_block; [done|done|]. intros j Hj. pose proof (not_eq_sym (Hne j)) as Hj'.
    erewrite names_other, valid_other by done. by apply Hno.
Qed.

Lemma view_donehd s i : binv s -> Bufp i ∈ dq s -> viewsame s (donehd (Bufp i) None s).
Proof.
  intros Hi Hr. pose proof Hi as (av & cl & _ & Hs). pose proof (so_req _ _ _ _ _ Hs _ Hr) as Hreq.
  pose proof Hreq as (Hb & Hdn & He & Hlt & Hnd & Hw & _). pose proof (so_fit _ _ _ _ _ Hs i Hlt) as F.
  destruct (fi_buf _ _ _ _ _ _ F) as [Hph Hlen]. destruct (donehd_clean _ _ Hreq Hph Hlen) as [E1 E2].
  apply (view_through i); [done|by apply binv_donehd|apply donehd_frame|by apply donehd_spares|done|].
  destruct (donehd_names (Bufp i) None s i eq_refl) as [Ed Eb].
  assert (Hv' : valid (donehd (Bufp i) None s) i = true).
  { unfold valid, flag. rewrite !donehd_flag, Hdn, He. done. }
  assert (Hv : valid s i = negb (flag s i B_READ)).
  { unfold valid, flag. rewrite Hdn, (bool_decide_eq_true_2 _ Hr). done. }
  intros d b Hd Hn. assert (Hnn : names s d b i /\ names (donehd (Bufp i) None s) d b i).
  { unfold names in *. rewrite Ed, Eb in *. tauto. }
  destruct Hnn as [Hn1 Hn2]. unfold through. rewrite !decide_True, Hv', Hv by done.
  destruct Hn1 as (_ & <- & <-). revert E2. destruct (flag s i B_READ); cbn [negb]; intros; congruence.
Qed.

(** A transfer that went through changes no view. *)
Lemma view_finish s r : binv s -> r ∈ dq s -> viewsame s (finish r None s).
Proof.
  intros Hi Hr. pose proof Hi as (av & cl & _ & Hs). pose proof (so_req _ _ _ _ _ Hs r Hr) as Hreq.
  pose proof (io_binv s r None Hi Hr I (fun _ => eq_refl)) as Hi'.
  assert (Hc : (exists i, r = Bufp i) \/ forall i, r <> Bufp i) by (destruct r; eauto; by right).
  destruct Hc as [[i ->]|Hne].
  - apply (viewsame_trans _ _ _ (view_donehd _ _ Hi Hr)). rewrite finish_done in *. cbv zeta in *.
    pose proof (binv_donehd s (Bufp i) None Hi Hr I (fun _ => eq_refl)) as Hd.
    pose proof Hreq as (Hb & Hdn & He & Hlt & Hnd & Hw & Hdel). pose proof (so_fit _ _ _ _ _ Hs i Hlt) as F.
    destruct (fi_buf _ _ _ _ _ _ F) as [Hph Hlen].
    assert (Hnq : Bufp i ∉ dq (donehd (Bufp i) None s)) by (rewrite donehd_dq, list_elem_of_filter; tauto).
    assert (Hb' : flag (donehd (Bufp i) None s) i B_BUSY = true) by (unfold flag; by rewrite donehd_flag, Hb).
    destruct (donehd_names (Bufp i) None s i eq_refl) as [Ed Eb].
    destruct (has (donehd (Bufp i) None s) (Bufp i) B_ASYNC).
    + apply view_brelse; try done. unfold ready, flag. rewrite !donehd_flag, Ed, Eb, Hdn, He.
      unfold flag in Hdel. rewrite Hdel. split; [done|]. intros _ _ _ _. by apply donehd_clean.
    + set (s3 := donehd (Bufp i) None s) in *. clearbody s3. apply (view_keep i); try done; [frames|..].
      1,2: unfold bdev, bblk; simpl; by rewrite decide_True.
      apply valid_ext; [|done]. intros m Hm. unfold flag, has. simpl. rewrite decide_True by done. simpl.
      by destruct Hm as [-> | [-> | ->]]; apply tst_clr_other.
  - apply (view_phys r); [done|done|apply finish_frame|by apply finish_spares|done].
Qed.
End Ops.
