(* ===== verification/Bspec.v ===== *)
(** * The buffer cache: what its routines do

    The routines of [Bio] keep the invariant of [Bcache] whatever the devices and the
    other processes do while they sleep, and return what they promise. *)

From stdpp Require Import relations.
From S2P Require Import Prelude Param Utab Kern Ring Bio Bcache.

Implicit Types (s : bst) (r : ref) (i j : nat) (H : list ref).

#[local] Hint Resolve alike_refl : core.

Section Spec.
Context (raw : Z -> Z -> bool) (quiet : bool).
Abbreviation binv := (binv raw quiet).
Abbreviation sound := (sound raw quiet).
Abbreviation spares := (spares raw).
Abbreviation guar := (guar raw quiet).
Abbreviation viewsame := (viewsame raw).

(** ** Rules *)


Abbreviation calm := (calm raw quiet).
Abbreviation rely := (rely raw quiet).
Abbreviation wp := (wp raw quiet).
Abbreviation ioq := (ioq quiet).

Lemma calm_refl s : calm s s.
Proof. done. Qed.

Lemma calm_trans s1 s2 s3 : calm s1 s2 -> calm s2 s3 -> calm s1 s3.
Proof. intros H1 H2 Hq d b Hd Hr. rewrite H2, H1; done. Qed.

Lemma ioq_calm s s' : binv s -> ioq s s' -> calm s s'.
Proof.
  intros Hi Hio. revert Hi. induction Hio as [|s1 s2 s3 [r err Hr Hqe Hk] Hio IH]; intros Hi; [done|].
  pose proof (io_binv _ _ _ _ _ Hi Hr Hk Hqe) as Hi2. eapply calm_trans; [|by apply IH].
  intros Hq. rewrite (Hqe Hq) in *. by eapply view_finish.
Qed.

Definition owned H s : Prop := binv s /\ forall r, r ∈ H -> mine s r.

Lemma owned_guar H H' s s' : guar H H' s s' -> owned H' s'.
Proof. intros (Hi & _ & Ho). split; [done|]. intros r Hr. by apply Ho. Qed.

Lemma owned_rely H s s' : owned H s -> rely H s s' -> owned H s'.
Proof. intros [Hi Hm] (Hi' & Hk & _). split; [done|]. intros r Hr. eapply kept_mine; eauto. Qed.

Lemma owned_io H s s' : owned H s -> ioq s s' -> owned H s'.
Proof.
  intros [Hi Hm] Hio. destruct (io_facts _ _ _ _ Hi Hio) as (Hi' & Hk & _). split; [done|].
  intros r Hr. eapply kept_mine; eauto.
Qed.

Lemma wp_extend {A} (x : bres A) H H1 s s1 Q : binv s -> guar H H1 s s1 -> wp x H1 s1 Q -> wp x H s Q.
Proof.
  intros Hi Hg. destruct x; simpl; try done; intros (H' & Hg' & HQ); exists H'; split; try done; by eapply guar_trans.
Qed.

Lemma wp_mono {A} (x : bres A) H s (Q R : A -> upriv -> list ref -> bst -> Prop) :
  (forall a u H' s', owned H' s' -> Q a u H' s' -> R a u H' s') -> wp x H s Q -> wp x H s R.
Proof.
  intros HQ. revert H s. induction x as [a u s1|w s1 k IH|c p s1 k IH|msg| |]; intros H s; simpl; try done.
  - intros (H' & Hg & Hq). exists H'. split; [done|]. apply HQ; [by eapply owned_guar|done].
  - intros (H' & Hg & Hk). exists H'. split; [done|]. intros s2 Hio. apply IH. auto.
  - intros (H' & Hg & Hk). exists H'. split; [done|]. intros s2 Hr. apply IH. auto.
Qed.

Lemma wp_bind {A C} (x : bres A) (f : A -> B C) H s Q : binv s ->
  wp x H s (fun a u H1 s1 => wp (f a u s1) H1 s1 Q) -> wp (bres_bind x f) H s Q.
Proof.
  revert H s. induction x as [a u s1|w s1 k IH|c p s1 k IH|msg| |]; intros H s Hi; simpl; try done.
  - intros (H' & Hg & Hq). by eapply wp_extend.
  - intros (H' & Hg & Hk). exists H'. split; [done|]. intros s2 Hio. apply IH; [|auto].
    destruct Hg as [Hi1 _]. apply (io_facts raw quiet s1); [done|by eapply ioq_weaken].
  - intros (H' & Hg & Hk). exists H'. split; [done|]. intros s2 Hr. apply IH; [apply Hr|auto].
Qed.

Lemma wp_ret {A} (a : A) u H s (Q : A -> upriv -> list ref -> bst -> Prop) : owned H s -> Q a u H s -> wp (Val a u s) H s Q.
Proof. intros [Hi Hm] HQ. exists H. split; [by apply guar_refl|done]. Qed.

(** Waiting: the process goes on from any state that it may find. *)
Lemma wp_spl0 {C} (f : unit -> B C) u H s Q : owned H s ->
  (forall s', ioq s s' -> calm s s' -> owned H s' -> wp (f tt u s') H s' Q) -> wp ((spl0 ≫= f) u s) H s Q.
Proof.
  intros [Hi Hm] Hk. exists H. split; [by apply guar_refl|]. intros s2 Hio%ioq_weaken.
  apply Hk; [done|by eapply ioq_calm|by eapply owned_io].
Qed.

(** Where no transfer fails every buffer keeps its block. *)
Lemma wp_window {C} (f : unit -> B C) u H s Q : owned H s ->
  (forall s', ioq s s' -> calm s s' -> owned H s' -> (forall d b i, names s' d b i <-> names s d b i) -> wp (f tt u s') H s' Q) ->
  wp ((interrupts true ≫= f) u s) H s Q.
Proof.
  intros [Hi Hm] Hk. exists H. split; [by apply guar_refl|]. intros s2 Hio. pose proof (ioq_weaken _ _ _ _ Hio) as Hio'.
  apply Hk; [done|by eapply ioq_calm|by eapply owned_io|]. rewrite orb_true_r in Hio. intros d b i. by eapply ioq_names.
Qed.

Lemma wp_sleep {C} (f : unit -> B C) c p u H s Q : owned H s ->
  (forall s', rely H s s' -> owned H s' -> wp (f tt u s') H s' Q) -> wp ((bsleep c p ≫= f) u s) H s Q.
Proof.
  intros [Hi Hm] Hk. exists H. split; [by apply guar_refl|]. intros s2 Hr. apply Hk; [done|]. by eapply owned_rely.
Qed.


(** ** Looking for a buffer *)

Lemma short_chain (l : list nat) : NoDup l -> (forall i, i ∈ l -> (i < NBUF)%nat) -> (length l <= NBUF)%nat.
Proof.
  intros Hn Hlt. rewrite <- (length_seq NBUF 0). apply submseteq_length, NoDup_submseteq; [done|].
  intros i Hi. apply elem_of_seq. specialize (Hlt i Hi). lia.
Qed.

Lemma chain_short s av cl h : linked s av cl -> sound s av cl -> h ∈ heads -> NoDup (cl h) /\ (length (cl h) <= NBUF)%nat.
Proof.
  intros Hl Hs Hh. destruct (ln_cl _ _ _ Hl h Hh) as [[_ Hn]%NoDup_cons _]. apply NoDup_fmap_1 in Hn.
  split; [done|]. apply short_chain; [done|]. intros i Hi. apply (so_all _ _ _ _ _ Hs). eauto.
Qed.

Lemma avail_short s av cl : linked s av cl -> sound s av cl -> NoDup av /\ (length av <= NBUF)%nat.
Proof.
  intros Hl Hs. destruct (ln_av _ _ _ Hl) as [[_ Hn]%NoDup_cons _]. apply NoDup_fmap_1 in Hn.
  split; [done|]. apply short_chain; [done|]. apply Hs.
Qed.

(** A walk over the rest of a ring. *)
Lemma scan_spec s h l x fuel test :
  seg (fun r => b_forw (hd s r)) (fun r => b_back (hd s r)) x (Bufp <$> l) h -> h ∈ heads -> (length l <= fuel)%nat ->
  (exists i, scan fuel s h (b_forw (hd s x)) test = Some (Some (Bufp i)) /\ i ∈ l /\ test (hd s (Bufp i)) = true) \/
  (scan fuel s h (b_forw (hd s x)) test = Some None /\ forall i, i ∈ l -> test (hd s (Bufp i)) = false).
Proof.
  revert x fuel. induction l as [|i l IH]; intros x fuel; simpl.
  - intros [-> _] _ _. right. split; [|set_solver]. by destruct fuel; simpl; rewrite decide_True.
  - intros [[-> _] Hs] Hh Hf. destruct fuel as [|fuel]; [lia|]. simpl.
    rewrite decide_False by (intros <-; unfold heads in Hh; set_solver).
    destruct (test (hd s (Bufp i))) eqn:Ht.
    + left. exists i. set_solver.
    + destruct (IH (Bufp i) fuel Hs Hh ltac:(lia)) as [(j & -> & Hj & Htj)|(-> & Hno)]; [left; exists j; set_solver|].
      right. set_solver.
Qed.

Lemma d_tab_valid dev : 0 <= major dev < nblkdev -> d_tab (major dev) = Tab (major dev) /\ Tab (major dev) ∈ heads.
Proof.
  unfold d_tab, nblkdev, heads. intros Hm. assert (Hc : major dev = 0 \/ major dev = 1) by lia.
  destruct Hc as [-> | ->]; split; try done; set_solver.
Qed.

Lemma major_nodev dev : 0 <= major dev -> dev <> NODEV.
Proof. intros Hm ->. by cbv in Hm. Qed.

(** The search of [getblk] and [incore] finds the buffer of the block if there is one. *)
Lemma find_blk_spec s dev blkno : binv s -> 0 <= major dev < nblkdev ->
  (exists i, find_blk dev blkno s = Some (Some (Bufp i)) /\ (i < NBUF)%nat /\ names s dev blkno i) \/
  (find_blk dev blkno s = Some None /\ forall i, (i < NBUF)%nat -> ~ names s dev blkno i).
Proof.
  intros (av & cl & Hl & Hs) Hm. destruct (d_tab_valid _ Hm) as [Ht Hh]. pose proof (major_nodev dev ltac:(lia)) as Hd.
  unfold find_blk. rewrite Ht. destruct (chain_short _ _ _ _ Hl Hs Hh) as [_ Hsh].
  destruct (ln_cl _ _ _ Hl _ Hh) as [_ Hsg].
  destruct (scan_spec _ _ _ _ _ (is_blk dev blkno) Hsg Hh Hsh) as [(i & -> & Hi & Hb)|(-> & Hno)].
  - left. exists i. split; [done|]. split; [apply (so_all _ _ _ _ _ Hs); eauto|].
    unfold is_blk in Hb. apply andb_true_iff in Hb as [?%Z.eqb_eq ?%Z.eqb_eq]. done.
  - right. split; [done|]. intros i Hi (_ & Ed & Eb). pose proof (so_fit _ _ _ _ _ Hs i Hi) as F.
    destruct (fi_dev _ _ _ _ _ _ F ltac:(congruence)) as (_ & Hin & _). rewrite Ed in Hin. specialize (Hno i Hin).
    unfold is_blk, bdev, bblk in *. by rewrite Ed, Eb, !Z.eqb_refl in Hno.
Qed.

(** The head of the available list. *)
Lemma first_avail s : binv s ->
  av_forw (hd s Bfreelist) = Bfreelist \/
  exists i, av_forw (hd s Bfreelist) = Bufp i /\ (i < NBUF)%nat /\ flag s i B_BUSY = false.
Proof.
  intros (av & cl & Hl & Hs). destruct (ln_av _ _ _ Hl) as [_ Hsg]. apply seg_head in Hsg. simpl in Hsg.
  destruct av as [|i av]; [by left|]. right. exists i. split; [done|].
  assert (Hi : i ∈ i :: av) by set_solver. pose proof (so_av _ _ _ _ _ Hs i Hi) as Hlt.
  split; [done|]. by apply (fi_av _ _ _ _ _ _ (so_fit _ _ _ _ _ Hs i Hlt)).
Qed.

(** A buffer nobody has can be taken as it is. *)
Lemma idle_ready s i : binv s -> (i < NBUF)%nat -> flag s i B_BUSY = false ->
  ready s i /\ flag s i B_ASYNC = false /\ (flag s i B_ERROR = true -> bdev s i = NODEV) /\ Bufp i ∉ dq s.
Proof.
  intros (av & cl & Hl & Hs) Hi Hb. pose proof (so_fit _ _ _ _ _ Hs i Hi) as F.
  assert (Hav : i ∈ av) by (by apply (fi_av _ _ _ _ _ _ F)).
  destruct (fi_idle _ _ _ _ _ _ F Hav) as (Ha & He & Hd). split_and!; [|done|done|].
  - split.
    + intros HD. destruct (Hd HD) as [? Hnd]. split; [done|]. split; [|done].
      destruct (flag s i B_ERROR); [|done]. by specialize (He eq_refl).
    + intros HD HN _ Hnd. by apply (fi_clean _ _ _ _ _ _ F).
  - intros Hq. destruct (so_req _ _ _ _ _ Hs _ Hq) as [? _]. unfold flag in Hb. congruence.
Qed.

(** ** Changes nobody minds *)

Lemma soft_step s s' : binv s -> (forall x, alike (hd s x) (hd s' x)) -> rest_same s s' ->
  (forall av cl, linked s av cl -> linked s' av cl) ->
  binv s' /\ (forall x, kept s s' x) /\ viewsame s s'.
Proof.
  intros Hi Ha (Eb & Eq & Ep & Em) Hln. pose proof Hi as (av & cl & Hl & Hs).
  assert (Hf : forall r, frame r s s') by (intros r; split; intros; rewrite ?Eb, ?Eq; done).
  assert (Hi' : binv s').
  { eapply (binv_step raw quiet NoBuf); [done|done|by apply spares_same|done|rewrite Eq; apply Hs| |done].
    rewrite Eq. intros Hq. by destruct (so_req _ _ _ _ _ Hs _ Hq) as (_ & _ & _ & []). }
  split; [done|]. split.
  - intros x. destruct (decide (x = NoBuf)) as [->|Hne].
    + eapply (kept_frame raw quiet Bfreelist); [done|done|by apply spares_same|done|done].
    + eapply (kept_frame raw quiet NoBuf); [done|done|by apply spares_same|done|done].
  - eapply (view_phys raw quiet NoBuf); [done|done|done|by apply spares_same|done].
Qed.

Lemma guar_all H s s' : owned H s -> binv s' -> (forall x, kept s s' x) -> guar H H s s'.
Proof.
  intros [Hi Hm] Hi' Hk. split; [done|]. split; [done|]. intros r Hr. split; [|by left].
  eapply kept_mine; [done|by apply Hm].
Qed.

Lemma calm_same s s' : viewsame s s' -> calm s s'.
Proof. by intros Hv _. Qed.

(** A bit of [SOFT] of any header. *)
Lemma guar_soft H s r m : Z.land m SOFT = m -> owned H s -> guar H H s (bor r m s) /\ calm s (bor r m s).
Proof.
  intros Hm Ho. destruct (soft_step s (bor r m s)) as (Hi' & Hk & Hv).
  - apply Ho.
  - intros x. unfold bor. rewrite hd_upd. case_decide; subst; [by apply alike_soft|done].
  - done.
  - intros av cl. by apply linked_upd.
  - split; [by apply guar_all|by apply calm_same].
Qed.

(** The counters. *)
Lemma guar_count H s s' : hd s' = hd s -> rest_same s s' -> owned H s -> guar H H s s' /\ calm s s'.
Proof.
  intros Eh Er Ho. destruct (soft_step s s') as (Hi' & Hk & Hv).
  - apply Ho.
  - intros x. by rewrite Eh.
  - done.
  - intros av cl. by apply linked_hd.
  - split; [by apply guar_all|by apply calm_same].
Qed.

(** ** A header the process holds *)

Definition holds H s i : Prop := owned H s /\ Bufp i ∈ H /\ (i < NBUF)%nat /\ held s (Bufp i).

Lemma holds_buf H s i : holds H s i -> flag s i B_BUSY = true /\ flag s i B_PHYS = false /\
  length (buffers s i) = Z.to_nat BSIZEW.
Proof.
  intros ([(av & cl & _ & Hs) _] & _ & Hi & [Hb _]). pose proof (so_fit _ _ _ _ _ Hs i Hi) as F.
  split; [done|]. apply F.
Qed.

(** Stores into its fields, links apart, that leave it held for the same block. *)
Lemma guar_touch H s s' i : holds H s i -> frame (Bufp i) s s' -> dq s' = dq s -> platter s' = platter s ->
  (forall av cl, linked s av cl -> linked s' av cl) -> flag s' i B_BUSY = true -> flag s' i B_PHYS = false ->
  length (buffers s' i) = Z.to_nat BSIZEW -> bdev s' i = bdev s i -> bblk s' i = bblk s i ->
  (quiet = true -> flag s' i B_ERROR = true -> flag s i B_ERROR = true) ->
  guar H H s s' /\ holds H s' i.
Proof.
  intros Hh Hf Eq Ep Hln Hb Hp Hlen Ed Eb Hgd. pose proof (holds_buf _ _ _ Hh) as (Hb0 & _).
  destruct Hh as (Ho & Hin & Hi & [_ Hnq]). pose proof Ho as [Hinv Hm]. pose proof Hinv as (av & cl & Hl & Hs).
  assert (Hinv' : binv s').
  { eapply (binv_step raw quiet (Bufp i)); [done|done|by apply spares_same|done| | |].
    - rewrite Eq. apply Hs.
    - by rewrite Eq.
    - intros k [= <-]. split_and!; try done. intros Hq Hnd.
      pose proof (fi_good _ _ _ _ _ _ (so_fit _ _ _ _ _ Hs i Hi) Hq Hnd) as Hg0.
      destruct (flag s' i B_ERROR); [|done]. by rewrite (Hgd Hq eq_refl) in Hg0. }
  assert (Hg : guar H H s s').
  { eapply (guar_step raw quiet _ _ _ _ (Bufp i)); try done; [by apply spares_same|by intros k [= <-]|by left|by right|].
    intros _. split; [done|]. by rewrite Eq. }
  split; [done|]. split; [by eapply owned_guar|]. split; [done|]. split; [done|]. split; [done|by rewrite Eq].
Qed.

(** The same for a store into the header alone. *)
Lemma guar_hdr H s i g : holds H s i -> unlinks g ->
  (forall h, b_dev (g h) = b_dev h /\ b_blkno (g h) = b_blkno h /\
     (b_flags h &? B_BUSY = true -> b_flags (g h) &? B_BUSY = true) /\
     (quiet = true -> b_flags (g h) &? B_ERROR = true -> b_flags h &? B_ERROR = true) /\ (b_flags (g h) &? B_PHYS) = (b_flags h &? B_PHYS)) ->
  guar H H s (upd_hd (Bufp i) g s) /\ holds H (upd_hd (Bufp i) g s) i.
Proof.
  intros Hh Hg Hk. pose proof (holds_buf _ _ _ Hh) as (Hb0 & Hp0 & Hlen). unfold flag, has in *.
  destruct (Hk (hd s (Bufp i))) as (Ed & Eb & Hb & Hgd & Hp).
  apply guar_touch; [done|apply frame_upd|done|done|intros; by apply linked_upd| | |done| | |];
    unfold flag, has, bdev, bblk; rewrite hd_upd, decide_True by done; [by apply Hb|by rewrite Hp|done|done|done].
Qed.

(** ** A request *)

Context (refuse : Z -> buf -> bool).
Context (nofault : quiet = true -> forall m h, refuse m h = false).

(** The request made in [s0] waits in a queue or has ended. *)
Definition underway s0 s r : Prop :=
  (r ∈ dq s /\ alike (hd s0 r) (hd s r) /\ same_words s0 s r) \/ (held s r /\ exists err, ended err s0 s r).

Lemma underway_kept s0 s s' r : binv s -> has s0 r B_ASYNC = false -> (forall i, r = Bufp i -> bdev s0 i <> NODEV) ->
  underway s0 s r -> kept s s' r -> underway s0 s' r.
Proof.
  intros Hi Has Hn [(Hq & Ha & Hw)|(Hh & err & He)] [K1 K2].
  - assert (Has' : has s r B_ASYNC = false) by (unfold has; by rewrite (alike_flag _ _ B_ASYNC Ha)).
    destruct (K2 Hq Has') as [(Hq' & Ha' & Hw')|(Hh' & err & He)].
    + left. split; [done|]. split; [by eapply alike_trans|by eapply same_words_trans].
    + right. split; [done|]. exists err. by eapply ended_trans_l.
  - destruct (K1 Hh) as (Hh' & Ha' & Hw'). right. split; [done|]. exists err. by eapply ended_trans_r.
Qed.

Lemma ended_flag err s s' r m : ended err s s' r -> Z.land (Z.lnot SOFT) m = m ->
  has s' r m = has s r m || ((if err then B_DONE |: B_ERROR else B_DONE) &? m).
Proof.
  intros (_ & _ & _ & E & _) Hm. unfold has. rewrite <- (tst_clr_other _ SOFT m Hm), E, tst_clr_other by done.
  apply tst_lor.
Qed.

(** It is over when [B_DONE] is on. *)
Lemma underway_done s0 s r : binv s -> underway s0 s r -> has s r B_DONE = true ->
  held s r /\ exists err, ended err s0 s r.
Proof.
  intros (av & cl & _ & Hs) [(Hq & _)|?] Hd; [|done].
  destruct (so_req _ _ _ _ _ Hs _ Hq) as (_ & ? & _). congruence.
Qed.

Lemma underway_wait s0 s r : underway s0 s r -> has s r B_DONE = false -> r ∈ dq s.
Proof.
  intros [(Hq & _)|(_ & err & He)] Hd; [done|]. rewrite (ended_flag _ _ _ _ B_DONE He) in Hd by done.
  apply orb_false_iff in Hd as [_ Hd]. by destruct err.
Qed.

(** The request is refused: the header after [B_ERROR] and [B_DONE] went on. *)
Definition refused i s : bst :=
  bor (Bufp i) B_DONE (upd_hd (Bufp i) (fun h => set_b_resid (b_wcount h) h) (bor (Bufp i) B_ERROR s)).

Lemma refused_hd i s : hd (refused i s) (Bufp i) =
  set_b_flags ((b_flags (hd s (Bufp i)) |: B_ERROR) |: B_DONE) (set_b_resid (b_wcount (hd s (Bufp i))) (hd s (Bufp i))).
Proof. unfold refused, bor. by rewrite !hd_upd, !decide_True by done. Qed.

Lemma refuse_loud m h : refuse m h = true -> quiet = false.
Proof. intros Hr. destruct (Bool.bool_dec quiet true) as [Hq|Hq]; [by rewrite nofault in Hr|by destruct quiet]. Qed.

Lemma refused_holds H s i : quiet = false -> holds H s i -> guar H H s (refused i s) /\ holds H (refused i s) i.
Proof.
  intros Hqf Hh. pose proof (holds_buf _ _ _ Hh) as (Hb & Hp & Hlen). unfold flag, has in *.
  apply guar_touch; try done; [..|congruence].
  - unfold refused. frames.
  - intros av cl Hl. unfold refused, bor. by repeat apply linked_upd.
  - unfold flag, has. rewrite refused_hd. simpl. by rewrite !tst_lor, Hb.
  - unfold flag, has. rewrite refused_hd. simpl. by rewrite !tst_lor, Hp.
  - unfold bdev. by rewrite refused_hd.
  - unfold bblk. by rewrite refused_hd.
Qed.

Definition enqueued i s : bst := set_dq (dq s ++ [Bufp i]) s.

Lemma enqueued_ok H s i : holds H s i -> req_ok raw s (Bufp i) ->
  binv (enqueued i s) /\ frame (Bufp i) s (enqueued i s) /\
  forall H', (forall x, x ∈ H' -> x ∈ H) -> (Bufp i ∈ H' -> flag s i B_ASYNC = false) -> guar H H' s (enqueued i s).
Proof.
  intros (Ho & Hin & Hi & [Hb Hnq]) Hreq. pose proof Ho as [Hinv Hm]. pose proof Hinv as (av & cl & Hl & Hs).
  assert (Hf : frame (Bufp i) s (enqueued i s)).
  { split; [done|done|]. intros x Hx. simpl. rewrite elem_of_app, list_elem_of_singleton. tauto. }
  assert (Hinv' : binv (enqueued i s)).
  { eapply (binv_step raw quiet (Bufp i)); [done|done|by apply spares_same| | |done|].
    - intros ? ?. by apply linked_hd.
    - simpl. apply NoDup_app. split; [apply Hs|]. split; [|by apply NoDup_singleton].
      intros x Hx ->%list_elem_of_singleton. done.
    - intros k [= <-]. pose proof (so_fit _ _ _ _ _ Hs i Hi) as F. destruct (fi_buf _ _ _ _ _ _ F).
      split_and!; try done. apply F. }
  split; [done|]. split; [done|]. intros H' Hsub Ha.
  eapply (guar_step raw quiet _ _ _ _ (Bufp i)); [done|done|done|by apply spares_same|by intros k [= <-]|done|by left|by right; auto|].
  intros Hin'. split; [done|]. intros _. by apply Ha.
Qed.

Lemma launch_sync H s i m : holds H s i -> req_ok raw s (Bufp i) -> flag s i B_ASYNC = false ->
  guar H H s (launch refuse m (Bufp i) s) /\ underway s (launch refuse m (Bufp i) s) (Bufp i).
Proof.
  intros Hh Hreq Ha. unfold launch. destruct (refuse m (hd s (Bufp i))) eqn:Er.
  - apply refuse_loud in Er. destruct (refused_holds _ _ _ Er Hh) as [Hg1 Hh1]. unfold iodone. fold (refused i s). cbv zeta.
    assert (Ea : has (refused i s) (Bufp i) B_ASYNC = false).
    { unfold has. rewrite refused_hd. simpl. rewrite !tst_lor. unfold flag, has in Ha. by rewrite Ha. }
    rewrite Ea. pose proof (holds_buf _ _ _ Hh1) as (Hb1 & Hp1 & Hlen1). unfold flag, has in *.
    assert (E : hd (bwakeup (Bufp i) (bclr (Bufp i) B_WANTED (refused i s))) (Bufp i) =
      set_b_flags (b_flags (hd (refused i s) (Bufp i)) &~ B_WANTED) (hd (refused i s) (Bufp i))).
    { change (hd (bclr (Bufp i) B_WANTED (refused i s)) (Bufp i) =
        set_b_flags (b_flags (hd (refused i s) (Bufp i)) &~ B_WANTED) (hd (refused i s) (Bufp i))).
      unfold bclr. by rewrite hd_upd, decide_True. }
    destruct (guar_touch H (refused i s) (bwakeup (Bufp i) (bclr (Bufp i) B_WANTED (refused i s))) i) as [Hg2 Hh2];
      try done; unfold flag, has, bdev, bblk; rewrite ?E; try done; try (intros; congruence).
    + frames.
    + intros av cl Hl. apply (linked_hd (bclr (Bufp i) B_WANTED (refused i s))); [done|]. by apply linked_upd.
    + cbn [b_flags set_b_flags]. by rewrite tst_clr_other.
    + cbn [b_flags set_b_flags]. by rewrite tst_clr_other.
    + split; [eapply guar_trans; [apply Hh|done|done]|]. right. split; [apply Hh2|]. exists true.
      unfold ended. rewrite E, refused_hd. simpl. split_and!; try done.
      unfold clr. by rewrite <- Z.land_assoc, <- Z.lor_assoc.
  - destruct (enqueued_ok _ _ _ Hh Hreq) as (Hi' & Hf & Hg). split; [by apply Hg|].
    left. split; [simpl; set_solver|]. done.
Qed.

(** An asynchronous request is given up. *)
Lemma launch_async H H' s i m : holds H s i -> req_ok raw s (Bufp i) -> flag s i B_ASYNC = true ->
  (forall x, x ∈ H' -> x ∈ H /\ x <> Bufp i) -> guar H H' s (launch refuse m (Bufp i) s).
Proof.
  intros Hh Hreq Ha Hsub. unfold launch. destruct (refuse m (hd s (Bufp i))) eqn:Er.
  - apply refuse_loud in Er. destruct (refused_holds _ _ _ Er Hh) as [Hg1 Hh1]. unfold iodone. fold (refused i s). cbv zeta.
    assert (Ef : forall k, flag (refused i s) i k = flag s i k || (B_ERROR &? k) || (B_DONE &? k)).
    { intros k. unfold flag, has. rewrite refused_hd. simpl. by rewrite !tst_lor. }
    assert (Ea : has (refused i s) (Bufp i) B_ASYNC = true).
    { fold (flag (refused i s) i B_ASYNC). by rewrite Ef, Ha. }
    rewrite Ea. pose proof (holds_buf _ _ _ Hh1) as (Hb1 & Hp1 & Hlen1).
    pose proof Hh1 as (Ho1 & Hin1 & Hi1 & [_ Hnq1]). destruct Hreq as (_ & _ & _ & _ & _ & _ & Hdel).
    assert (Hr : ready (refused i s) i).
    { unfold ready. rewrite !Ef, Hdel. split; [done|]. intros _ _ He. by rewrite orb_true_r in He. }
    eapply guar_trans; [apply Hh|exact Hg1|].
    eapply (guar_step raw quiet _ _ _ _ (Bufp i)); [apply Ho1|apply binv_brelse; try done; apply Ho1|apply brelse_frame| |
      by intros k [= <-]|apply Ho1|by left|by right; apply Hsub|].
    + apply spares_same, brelse_rest.
    + intros Hin. by destruct (Hsub _ Hin).
  - destruct (enqueued_ok _ _ _ Hh Hreq) as (Hi' & Hf & Hg). apply Hg; [by apply Hsub|].
    intros Hin. by destruct (Hsub _ Hin).
Qed.

(** Block [bdev s i], [bblk s i] reads as [x] from then on. *)
Definition wrote s s' (d b : Z) (x : list Z) : Prop := forall d' b', d' <> NODEV -> raw d' b' = false ->
  view s' d' b' = if (d' =? d) && (b' =? b) then x else view s d' b'.

Lemma valid_enqueued s i : valid (enqueued i s) i = (flag s i B_DONE && negb (flag s i B_ERROR)) || negb (flag s i B_READ).
Proof. unfold valid. rewrite (bool_decide_eq_true_2 (Bufp i ∈ dq (enqueued i s))) by (simpl; set_solver). done. Qed.

Lemma view_enqueued_read H s i : holds H s i -> req_ok raw s (Bufp i) -> flag s i B_READ = true -> viewsame s (enqueued i s).
Proof.
  intros Hh Hreq Hr. destruct (enqueued_ok _ _ _ Hh Hreq) as (Hi' & Hf & _).
  destruct Hh as ([Hinv _] & _ & Hi & [_ Hnq]). apply (view_keep raw quiet i); try done.
  rewrite valid_enqueued, Hr. unfold valid. rewrite (bool_decide_eq_false_2 _ Hnq). done.
Qed.

Lemma view_enqueued_write H s i : holds H s i -> req_ok raw s (Bufp i) -> flag s i B_READ = false ->
  wrote s (enqueued i s) (bdev s i) (bblk s i) (buffers s i).
Proof.
  intros Hh Hreq Hr d b Hd Hraw. destruct (enqueued_ok _ _ _ Hh Hreq) as (Hi' & Hf & _).
  destruct Hh as ([Hinv _] & _ & Hi & [_ Hnq]). pose proof Hi' as (av' & cl' & _ & Hs').
  pose proof Hinv as (av & cl & _ & Hs).
  destruct (Z.eqb_spec d (bdev s i)) as [Ed|Ed], (Z.eqb_spec b (bblk s i)) as [Eb|Eb]; simpl.
  { rewrite (view_valid raw quiet _ av' cl' d b i Hs' Hi); [done|done|]. by rewrite valid_enqueued, Hr, orb_true_r. }
  all: eapply (view_step raw quiet i); [exact Hs|exact Hs'|done|by apply spares_same|done|done|done|].
  all: intros [(_ & E1 & E2)|(_ & E1 & E2)]; unfold bdev, bblk in *; simpl in *; congruence.
Qed.

(** ** Waiting for a transfer *)

Definition sync_req s0 r : Prop := has s0 r B_ASYNC = false /\ has s0 r B_ERROR = false /\
  forall i, r = Bufp i -> bdev s0 i <> NODEV.

Lemma underway_rely s0 H s s' r : owned H s -> sync_req s0 r -> r ∈ H -> underway s0 s r -> rely H s s' -> underway s0 s' r.
Proof.
  intros [Hi _] (Ha & _ & Hn) Hr Hu (_ & Hk & _). eapply underway_kept; eauto.
Qed.

Lemma underway_io s0 s s' r : binv s -> sync_req s0 r -> underway s0 s r -> ioq s s' -> underway s0 s' r.
Proof.
  intros Hi (Ha & _ & Hn) Hu Hio. destruct (io_facts _ _ _ _ Hi Hio) as (_ & Hk & _). eapply underway_kept; eauto.
Qed.

Lemma await_spec s0 r pri fuel u H s : owned H s -> r ∈ H -> sync_req s0 r -> underway s0 s r ->
  wp (await fuel r pri u s) H s (fun _ u' H' s' => u' = u /\ H' = H /\ held s' r /\ (exists err, ended err s0 s' r) /\ calm s s').
Proof.
  intros Ho Hr Hsr Hu. revert s Ho Hu. induction fuel as [|fuel IH]; intros s Ho Hu; [done|]. simpl.
  unfold mbind, b_bind at 1. simpl. destruct (has s r B_DONE) eqn:Hd.
  - apply wp_ret; [done|]. destruct (underway_done _ _ _ (proj1 Ho) Hu Hd). split_and!; try done. 
  - apply wp_sleep; [done|]. intros s' Hrel Ho'.
    eapply wp_mono; [|apply IH; [done|by apply (underway_rely s0 H s)]].
    intros a u' H' s2 _ (-> & -> & Hh & He & Hc). split_and!; try done. eapply calm_trans; [apply Hrel|done].
Qed.

(** The error number [geterror] gives to the process. *)
Definition errno_of (h : buf) : Z := if b_error h =? 0 then EIO else b_error h.
Definition told (err : bool) (h : buf) (u : upriv) : upriv := if err then set_u_error (errno_of h) u else u.

Lemma geterror_run r u s : geterror r u s = Val tt (told (has s r B_ERROR) (hd s r) u) s.
Proof. unfold geterror, told, has, mbind, b_bind, bget. simpl. by case_match. Qed.

Lemma ended_error err s0 s r : ended err s0 s r -> has s0 r B_ERROR = false -> has s r B_ERROR = err.
Proof. intros He H0. rewrite (ended_flag _ _ _ _ B_ERROR He), H0 by done. by destruct err. Qed.

Lemma iowait_spec s0 r fuel u H s : owned H s -> r ∈ H -> sync_req s0 r -> underway s0 s r ->
  wp (iowait fuel r u s) H s (fun _ u' H' s' => exists err, u' = told err (hd s0 r) u /\ H' = H /\ held s' r /\
    ended err s0 s' r /\ calm s s').
Proof.
  intros Ho Hr Hsr Hu. apply wp_bind; [apply Ho|].
  eapply wp_mono; [|by apply (await_spec s0)]. intros [] u' H' s1 Ho1 (-> & -> & Hh & (err & He) & Hc).
  apply wp_spl0; [done|]. intros s2 Hio Hc2 Ho2. rewrite geterror_run. apply wp_ret; [done|].
  destruct (io_facts _ _ _ _ (proj1 Ho1) Hio) as (_ & Hk & _). destruct (proj1 (Hk r) Hh) as (Hh2 & Ha2 & Hw2).
  assert (He2 : ended err s0 s2 r) by (eapply ended_trans_r; [done..|apply Hsr]).
  exists err. rewrite (ended_error _ _ _ _ He2) by apply Hsr. split_and!; try done.
  - unfold told, errno_of. destruct err; [|done]. by destruct He2 as (_ & _ & -> & _).
  - by eapply calm_trans.
Qed.

(** ** Writing *)

Abbreviation without H r := (filter (.≠ r) H).

(** Releasing a buffer. *)
Lemma brelse_guar H s i : holds H s i -> ready s i ->
  guar H (without H (Bufp i)) s (brelse (Bufp i) s) /\ viewsame s (brelse (Bufp i) s).
Proof.
  intros Hh Hr. pose proof (holds_buf _ _ _ Hh) as (Hb & _). destruct Hh as ([Hinv Hm] & Hin & Hi & [_ Hnq]).
  pose proof (binv_brelse raw quiet _ _ Hinv Hi Hb Hnq Hr) as Hinv'. split; [|by eapply view_brelse].
  eapply (guar_step raw quiet _ _ _ _ (Bufp i)); [done|done|apply brelse_frame|apply spares_same, brelse_rest|
    by intros k [= <-]|done|by left| |].
  - intros x [_ ?]%list_elem_of_filter. by right.
  - intros [? _]%list_elem_of_filter. done.
Qed.

Lemma view_elsewhere s s' i d b : binv s -> binv s' -> frame (Bufp i) s s' -> platter s' = platter s -> (i < NBUF)%nat ->
  bdev s' i = bdev s i -> bblk s' i = bblk s i -> d <> NODEV -> raw d b = false ->
  ~ (d = bdev s i /\ b = bblk s i) -> view s' d b = view s d b.
Proof.
  intros (av & cl & _ & Hs) (av' & cl' & _ & Hs') Hf Hp Hi Ed Eb Hd Hraw Hne.
  eapply (view_step raw quiet i); [exact Hs|exact Hs'|done|by apply spares_same|done|done|done|].
  intros [(_ & E1 & E2)|(_ & E1 & E2)]; exfalso; apply Hne; split; congruence.
Qed.

(** The header [bwrite] gives to the driver. *)
Definition outgoing i s : bst :=
  set_io_info (set_nwrite (nwrite (io_info s) + 1) (io_info s))
    (upd_hd (Bufp i) (set_b_wcount BSIZEW) (bclr (Bufp i) (B_READ |: B_DONE |: B_ERROR |: B_DELWRI |: B_AGE) s)).

Lemma outgoing_hd i s : hd (outgoing i s) (Bufp i) = set_b_wcount BSIZEW (set_b_flags
  (b_flags (hd s (Bufp i)) &~ (B_READ |: B_DONE |: B_ERROR |: B_DELWRI |: B_AGE)) (hd s (Bufp i))).
Proof. unfold outgoing, bclr. simpl. by rewrite !decide_True by done. Qed.

Lemma outgoing_frame i s : frame (Bufp i) s (outgoing i s).
Proof.
  unfold outgoing. match goal with |- frame _ _ (set_io_info _ ?x) => apply (frame_trans _ _ x) end; [frames|by apply frame_same].
Qed.

Lemma outgoing_names i s : bdev (outgoing i s) i = bdev s i /\ bblk (outgoing i s) i = bblk s i.
Proof. unfold bdev, bblk. by rewrite outgoing_hd. Qed.

Lemma outgoing_holds H s i : holds H s i -> guar H H s (outgoing i s) /\ holds H (outgoing i s) i.
Proof.
  intros Hh. pose proof (holds_buf _ _ _ Hh) as (Hb & Hp & Hlen). unfold flag, has in *.
  apply guar_touch; try done; [apply outgoing_frame| | | |apply outgoing_names..|].
  - intros av cl Hl. apply (linked_hd (upd_hd (Bufp i) (set_b_wcount BSIZEW) (bclr (Bufp i)
      (B_READ |: B_DONE |: B_ERROR |: B_DELWRI |: B_AGE) s))); [done|]. unfold bclr. by repeat apply linked_upd.
  - unfold flag, has. rewrite outgoing_hd. simpl. by rewrite tst_clr_other.
  - unfold flag, has. rewrite outgoing_hd. simpl. by rewrite tst_clr_other.
  - intros _. unfold flag, has. rewrite outgoing_hd. simpl. by rewrite tst_clr_same.
Qed.

Lemma outgoing_flag i s m : flag (outgoing i s) i m =
  (b_flags (hd s (Bufp i)) &~ (B_READ |: B_DONE |: B_ERROR |: B_DELWRI |: B_AGE)) &? m.
Proof. unfold flag, has. by rewrite outgoing_hd. Qed.

Lemma outgoing_req H s i : holds H s i -> bdev s i <> NODEV -> req_ok raw (outgoing i s) (Bufp i).
Proof.
  intros Hh Hd. pose proof (holds_buf _ _ _ Hh) as (Hb & _). pose proof Hh as (_ & _ & Hi & _).
  unfold req_ok. rewrite (proj1 (outgoing_names i s)). fold (flag (outgoing i s) i B_BUSY).
  fold (flag (outgoing i s) i B_DONE). fold (flag (outgoing i s) i B_ERROR).
  rewrite !outgoing_flag, outgoing_hd. unfold flag, has in Hb. rewrite tst_clr_other by done.
  rewrite !tst_clr_same by done. done.
Qed.

(** The write seen from before. *)
Lemma outgoing_wrote H s i s' : holds H s i -> wrote (outgoing i s) s' (bdev s i) (bblk s i) (buffers s i) ->
  wrote s s' (bdev s i) (bblk s i) (buffers s i).
Proof.
  intros Hh Hw d b Hd Hraw. rewrite (Hw d b Hd Hraw).
  destruct (outgoing_holds _ _ _ Hh) as [(Hi' & _) _]. destruct Hh as ([Hinv _] & _ & Hi & _).
  destruct (outgoing_names i s) as [Ed Eb].
  destruct (Z.eqb_spec d (bdev s i)), (Z.eqb_spec b (bblk s i)); simpl; [done|..];
    (apply (view_elsewhere s (outgoing i s) i); [done|done|apply outgoing_frame|done|done|done|done|done|done|tauto]).
Qed.

Lemma wrote_same s s' s'' d b x : wrote s s' d b x -> viewsame s' s'' -> wrote s s'' d b x.
Proof. intros Hw Hv d' b' Hd Hr. rewrite (Hv d' b' Hd Hr). by apply Hw. Qed.

Lemma strategy_run m r u s : 0 <= m < nblkdev -> strategy refuse m r u s = spl0 u (launch refuse m r s).
Proof. intros Hm. unfold strategy. by bool_cases; simpl; try lia. Qed.

Lemma holds_major H s i : holds H s i -> bdev s i <> NODEV -> 0 <= major (bdev s i) < nblkdev.
Proof.
  intros ([(av & cl & _ & Hs) _] & _ & Hi & _) Hd. by apply (fi_dev _ _ _ _ _ _ (so_fit _ _ _ _ _ Hs i Hi)).
Qed.

(** What a write leaves behind. *)
Definition wrote_out i s u u' s' : Prop :=
  (quiet = true -> wrote s s' (bdev s i) (bblk s i) (buffers s i)) /\ (exists err h, u' = told err h u) /\
  (flag s i B_ASYNC = false -> exists err, u' = told err (hd s (Bufp i)) u /\
     (err = false -> block s' (bdev s i) (bblk s i) = buffers s i)) /\
  (flag s i B_ASYNC = true -> flag s i B_DELWRI = true -> u' = u).

Lemma bwrite_run H s i fuel u : holds H s i -> bdev s i <> NODEV ->
  bwrite refuse fuel (Bufp i) u s =
  (spl0;; if negb (flag s i B_ASYNC) then iowait fuel (Bufp i);; bput (brelse (Bufp i))
   else if flag s i B_DELWRI then bput (bor (Bufp i) B_AGE) else geterror (Bufp i))
    u (launch refuse (major (bdev s i)) (Bufp i) (outgoing i s)).
Proof.
  intros Hh Hd. pose proof (holds_major _ _ _ Hh Hd) as Hm.
  change (bwrite refuse fuel (Bufp i) u s) with (bres_bind
    (strategy refuse (major (b_dev (hd (outgoing i s) (Bufp i)))) (Bufp i) u (outgoing i s)) (fun _ =>
    if negb (flag s i B_ASYNC) then iowait fuel (Bufp i);; bput (brelse (Bufp i))
    else if flag s i B_DELWRI then bput (bor (Bufp i) B_AGE) else geterror (Bufp i))).
  rewrite outgoing_hd. cbn [b_dev set_b_wcount set_b_flags]. fold (bdev s i). by rewrite strategy_run.
Qed.

Lemma calm_launch H s i m : quiet = true -> launch refuse m (Bufp i) s = enqueued i s.
Proof. intros Hq. unfold launch. by rewrite nofault. Qed.

Lemma bwrite_async H s i fuel u : holds H s i -> bdev s i <> NODEV -> flag s i B_ASYNC = true ->
  wp (bwrite refuse fuel (Bufp i) u s) H s (fun _ u' H' s' => H' = without H (Bufp i) /\ wrote_out i s u u' s').
Proof.
  intros Hh Hd Ha. rewrite (bwrite_run H) by done. rewrite Ha. cbn [negb].
  destruct (outgoing_holds _ _ _ Hh) as [Hg1 Hh1]. pose proof (outgoing_req _ _ _ Hh Hd) as Hreq.
  assert (Ha1 : flag (outgoing i s) i B_ASYNC = true).
  { rewrite outgoing_flag, tst_clr_other by done. exact Ha. }
  set (s2 := launch refuse (major (bdev s i)) (Bufp i) (outgoing i s)).
  assert (Hg2 : guar H (without H (Bufp i)) s s2).
  { eapply guar_trans; [apply Hh|exact Hg1|]. apply launch_async; [done|done|done|].
    by intros x [? ?]%list_elem_of_filter. }
  assert (Hw : quiet = true -> wrote s s2 (bdev s i) (bblk s i) (buffers s i)).
  { intros Hq. unfold s2. rewrite (calm_launch H) by done. apply (outgoing_wrote H); [done|].
    destruct (outgoing_names i s) as [Ed Eb]. rewrite <- Ed, <- Eb. apply (view_enqueued_write H (outgoing i s)); [done|done|].
    rewrite outgoing_flag. by apply tst_clr_same. }
  eapply wp_extend; [apply Hh|exact Hg2|]. apply wp_spl0; [by eapply owned_guar|]. intros s3 Hio Hc3 Ho3.
  assert (Hw3 : quiet = true -> wrote s s3 (bdev s i) (bblk s i) (buffers s i)).
  { intros Hq. eapply wrote_same; [by apply Hw|exact (Hc3 Hq)]. }
  destruct (flag s i B_DELWRI) eqn:Hdw.
  - exists (without H (Bufp i)). destruct (guar_soft _ s3 (Bufp i) B_AGE eq_refl Ho3) as [Hg4 Hc4].
    split; [done|]. split; [done|]. split_and!; [|by exists false, hdr0|congruence|done].
    intros Hq. eapply wrote_same; [by apply Hw3|exact (Hc4 Hq)].
  - rewrite geterror_run. apply wp_ret; [done|]. split; [done|]. split_and!; [done|eauto|congruence|congruence].
Qed.

Lemma bwrite_sync H s i fuel u : holds H s i -> bdev s i <> NODEV -> flag s i B_ASYNC = false ->
  wp (bwrite refuse fuel (Bufp i) u s) H s (fun _ u' H' s' => H' = without H (Bufp i) /\ wrote_out i s u u' s').
Proof.
  intros Hh Hd Ha. rewrite (bwrite_run H) by done. rewrite Ha. cbn [negb].
  destruct (outgoing_holds _ _ _ Hh) as [Hg1 Hh1]. pose proof (outgoing_req _ _ _ Hh Hd) as Hreq.
  destruct (outgoing_names i s) as [Ed Eb].
  assert (Ha1 : flag (outgoing i s) i B_ASYNC = false).
  { rewrite outgoing_flag, tst_clr_other by done. exact Ha. }
  set (s2 := launch refuse (major (bdev s i)) (Bufp i) (outgoing i s)).
  destruct (launch_sync _ _ _ (major (bdev s i)) Hh1 Hreq Ha1) as [Hg2 Hu]. fold s2 in Hg2, Hu.
  assert (Hw : quiet = true -> wrote s s2 (bdev s i) (bblk s i) (buffers s i)).
  { intros Hq. unfold s2. rewrite (calm_launch H) by done. apply (outgoing_wrote H); [done|].
    rewrite <- Ed, <- Eb. apply (view_enqueued_write H (outgoing i s)); [done|done|]. rewrite outgoing_flag. by apply tst_clr_same. }
  assert (Hg : guar H H s s2) by (eapply guar_trans; [apply Hh|done|done]).
  pose proof Hreq as (Hrb & _ & Hre & Hri & Hrd & _ & Hrdel).
  assert (Hsr : sync_req (outgoing i s) (Bufp i)) by (split; [done|]; split; [done|]; by intros k [= <-]).
  eapply wp_extend; [apply Hh|exact Hg|]. apply wp_spl0; [by eapply owned_guar|]. intros s2' Hio Hc2 Ho2.
  assert (Hu' : underway (outgoing i s) s2' (Bufp i)) by (eapply underway_io; [apply Hg|done|done|done]).
  apply wp_bind; [apply Ho2|].
  eapply wp_mono; [|apply (iowait_spec (outgoing i s)); [done|apply Hh|done|done]].
  intros [] u' H' s3 Ho3 (err & -> & -> & Hh3 & He3 & Hc3).
  assert (Hho : holds H s3 i) by (split; [done|]; split; [apply Hh|done]).
  pose proof He3 as (Ed3 & Eb3 & _ & _ & Hwd). fold (bdev s3 i) (bdev (outgoing i s) i) in Ed3.
  fold (bblk s3 i) (bblk (outgoing i s) i) in Eb3.
  assert (Hr3 : ready s3 i).
  { unfold ready, flag. rewrite (ended_flag _ _ _ _ B_DELWRI He3), (ended_error _ _ _ _ He3 Hre) by done.
    fold (flag (outgoing i s) i B_DELWRI). rewrite Hrdel. split; [by destruct err|].
    intros _ _ -> _. rewrite Ed3, Eb3. by apply Hwd. }
  destruct (brelse_guar _ _ _ Hho Hr3) as [Hg4 Hv4]. exists (without H (Bufp i)). split; [done|]. split; [done|].
  split_and!.
  - intros Hq. eapply wrote_same; [eapply wrote_same; [eapply wrote_same; [by apply Hw|exact (Hc2 Hq)]|exact (Hc3 Hq)]|done].
  - eauto.
  - intros _. exists err. split; [unfold told, errno_of; by rewrite outgoing_hd|]. intros ->.
    destruct (brelse_rest (Bufp i) s3) as (_ & _ & Ep & _). rewrite (block_same _ _ _ _ Ep).
    destruct (Hwd Hri eq_refl) as [E1 E2]. rewrite Ed, Eb in E1. rewrite <- E1.
    assert (Hnr : flag (outgoing i s) i B_READ = false) by (rewrite outgoing_flag; by apply tst_clr_same).
    rewrite Hnr in E2. exact E2.
  - congruence.
Qed.

(** [bwrite], [bawrite] and [bdwrite] of a buffer the process holds. *)
Lemma bwrite_spec H s i fuel u : holds H s i -> bdev s i <> NODEV ->
  wp (bwrite refuse fuel (Bufp i) u s) H s (fun _ u' H' s' => H' = without H (Bufp i) /\ wrote_out i s u u' s').
Proof. intros. destruct (flag s i B_ASYNC) eqn:?; [by apply bwrite_async|by apply bwrite_sync]. Qed.

(** ** Taking a buffer *)

Lemma notavail_guar H s i : owned H s -> (i < NBUF)%nat -> flag s i B_BUSY = false ->
  let s' := notavail (Bufp i) s in
  guar H (Bufp i :: H) s s' /\ holds (Bufp i :: H) s' i /\ viewsame s s' /\ ready s' i /\
  (forall m, (B_BUSY &? m) = false -> flag s' i m = flag s i m) /\ (forall d b j, names s' d b j <-> names s d b j).
Proof.
  intros Ho Hi Hb s'. pose proof Ho as [Hinv Hm]. destruct (idle_ready _ _ Hinv Hi Hb) as (Hr & _ & _ & Hnq).
  pose proof (binv_notavail raw quiet _ _ Hinv Hi Hb) as Hinv'.
  pose proof (pay_fields _ _ _ _ _ _ _ _ (notavail_pay (Bufp i) s)) as (Ef & Ed & _ & Eb & _). fold s' in Ef, Ed, Eb.
  assert (Hfl : forall m, (B_BUSY &? m) = false -> flag s' i m = flag s i m).
  { intros m E. unfold flag, has. by rewrite Ef, tst_lor, E, orb_false_r. }
  assert (Hb' : has s' (Bufp i) B_BUSY = true) by (unfold has; by rewrite Ef, tst_lor, orb_true_r).
  assert (Hg : guar H (Bufp i :: H) s s').
  { eapply (guar_step raw quiet _ _ _ _ (Bufp i)); [done|done|apply notavail_frame|by apply spares_same|by intros k [= <-]|
      done|by right| |].
    - intros x. rewrite elem_of_cons. tauto.
    - intros _. split; [done|]. done. }
  split; [done|]. split.
  { split; [by eapply owned_guar|]. split; [set_solver|]. done. }
  split; [by eapply view_notavail|]. split; [|split; [done|]].
  - unfold ready, bdev, bblk. rewrite !Hfl, Ed, Eb by done. exact Hr.
  - intros d b j. unfold names. destruct (decide (j = i)) as [->|Hne].
    + unfold bdev, bblk. by rewrite Ed, Eb.
    + destruct (frame_names (Bufp i) s s' j) as [-> ->]; [apply notavail_frame|congruence|done].
Qed.

Lemma valid_held s i : Bufp i ∉ dq s -> valid s i = flag s i B_DONE && negb (flag s i B_ERROR).
Proof. intros Hq. unfold valid. by rewrite (bool_decide_eq_false_2 _ Hq), orb_false_r. Qed.

(** The buffer taken is given to another block. *)
Lemma grab_guar H s i h g d b : holds H s i -> ready s i -> flag s i B_DELWRI = false -> h ∈ heads ->
  (forall x, b_flags (g x) = b_flags x /\ b_dev (g x) = d /\ b_forw (g x) = b_forw x /\ b_back (g x) = b_back x /\
     av_forw (g x) = av_forw x /\ av_back (g x) = av_back x) ->
  (d <> NODEV -> 0 <= major d < nblkdev /\ h = Tab (major d) /\ raw d b = false /\ (forall x, b_blkno (g x) = b) /\
     forall j, (j < NBUF)%nat -> ~ names s d b j) ->
  let s' := upd_hd (Bufp i) g (enchain h (Bufp i) (unchain (Bufp i) (upd_hd (Bufp i) (set_b_flags B_BUSY) s))) in
  guar H H s s' /\ holds H s' i /\ b_flags (hd s' (Bufp i)) = B_BUSY /\ viewsame s s' /\ bdev s' i = d /\
  (d <> NODEV -> bblk s' i = b).
Proof.
  intros Hh Hr Hdw Hhd Hg Hd s'. pose proof (holds_buf _ _ _ Hh) as (Hb & _).
  destruct Hh as (Ho & Hin & Hi & [_ Hnq]). pose proof Ho as [Hinv Hm].
  destruct (binv_grab raw quiet s i h g d b Hinv Hi Hb Hnq Hhd Hg Hd) as (Hinv' & Hf & Hrs & Ef). fold s' in Hinv', Hf, Hrs, Ef.
  pose proof Hrs as (Ebuf & Eq & Ep & _).
  assert (Hb' : has s' (Bufp i) B_BUSY = true) by (unfold has; by rewrite Ef).
  assert (Hgu : guar H H s s').
  { eapply (guar_step raw quiet _ _ _ _ (Bufp i)); [done|done|done|by apply spares_same|by intros k [= <-]|
      done|by left|by right|]. intros _. split; [done|]. by rewrite Eq. }
  assert (Ei : forall x, hd s' (Bufp i) = g x \/ exists y, hd s' (Bufp i) = g y).
  { intros x. right. unfold s'. rewrite hd_upd, decide_True by done. eauto. }
  destruct (Ei hdr0) as [E|[y E]].
  all: split; [done|]; split; [split; [by eapply owned_guar|]; split; [done|]; split; [done|]; split; [done|by rewrite Eq]|].
  all: split; [done|]; split; [|unfold bdev, bblk; rewrite E; split; [apply Hg|intros Hnd; by apply Hd]].
  all: eapply (view_taken raw quiet _ _ i); [done|done|done|done|done|done|done|].
  all: rewrite valid_held by done; intros [H1 H2%negb_true_iff]%andb_true_iff Hnd; by apply Hr.
Qed.

Lemma not_mine H s r : owned H s -> has s r B_BUSY = false -> r ∉ H.
Proof. intros [_ Hm] Hb Hr. destruct (Hm r Hr) as [? _]. congruence. Qed.

Lemma wrote_view s s' i d b : binv s -> (i < NBUF)%nat -> names s d b i -> valid s i = true ->
  wrote s s' d b (buffers s i) -> viewsame s s'.
Proof.
  intros (av & cl & _ & Hs) Hi Hn Hv Hw d' b' Hd Hraw. rewrite (Hw d' b' Hd Hraw).
  destruct (Z.eqb_spec d' d) as [->|], (Z.eqb_spec b' b) as [->|]; simpl; try done. symmetry. by eapply view_valid.
Qed.

(** A write that was delayed is started. *)
Lemma write_behind H s i fuel u : holds (Bufp i :: H) s i -> Bufp i ∉ H -> ready s i -> flag s i B_DELWRI = true ->
  flag s i B_ASYNC = true ->
  wp (bwrite refuse fuel (Bufp i) u s) (Bufp i :: H) s (fun _ u' H' s' => u' = u /\ H' = H /\ calm s s').
Proof.
  intros Hh Hni Hr Hdw Ha. destruct (proj1 Hr Hdw) as (Hdn & Her & Hnd).
  eapply wp_mono; [|by apply bwrite_spec]. intros [] u' H' s' _ (-> & Hw & _ & _ & Hu). split; [by apply Hu|]. split.
  - by apply filter_ne_cons.
  - intros Hq. eapply (wrote_view s s' i (bdev s i) (bblk s i)); [apply Hh|apply Hh|done| |by apply Hw].
    rewrite valid_held by apply Hh. by rewrite Hdn, Her.
Qed.

(** Bits are set in the flags of a buffer the process holds. *)
Lemma set_bits H s i m : holds H s i -> (m &? B_PHYS) = false -> (m &? B_ERROR) = false ->
  let s' := bor (Bufp i) m s in
  guar H H s s' /\ holds H s' i /\ frame (Bufp i) s s' /\ bdev s' i = bdev s i /\ bblk s' i = bblk s i /\
  forall k, flag s' i k = flag s i k || (m &? k).
Proof.
  intros Hh Hm Hme s'. destruct (guar_hdr H s i (fun h => set_b_flags (b_flags h |: m) h) Hh) as [Hg Hh']; [done| |].
  { intros h. simpl. rewrite !tst_lor, Hm, Hme, !orb_false_r. split_and!; [done|done|by intros ->|done|done]. }
  split; [done|]. split; [done|]. split; [unfold s'; frames|].
  unfold bdev, bblk, flag, has, s', bor. rewrite hd_upd, decide_True by done. split_and!; [done|done|].
  intros k. simpl. apply tst_lor.
Qed.

(** [B_ASYNC] goes on, and the buffer is still to be written. *)
Lemma set_async H s i : holds H s i -> ready s i -> flag s i B_DELWRI = true ->
  let s' := bor (Bufp i) B_ASYNC s in
  guar H H s s' /\ holds H s' i /\ ready s' i /\ flag s' i B_DELWRI = true /\ flag s' i B_ASYNC = true /\ viewsame s s'.
Proof.
  intros Hh Hr Hdw s'. destruct (set_bits H s i B_ASYNC Hh eq_refl eq_refl) as (Hg & Hh' & Hfr & Ed & Eb & Hf).
  fold s' in Hg, Hh', Hfr, Ed, Eb, Hf. split; [done|]. split; [done|]. split_and!.
  - unfold ready. rewrite !Hf, Hdw, Ed. split; [|done]. intros _. destruct (proj1 Hr Hdw) as (-> & -> & ?). done.
  - by rewrite Hf, Hdw.
  - by rewrite Hf, orb_true_r.
  - apply (view_keep raw quiet i); [apply Hh|apply Hh'|done|done|apply Hh|done|done| |done].
    apply valid_ext; [|done]. intros m Hm. rewrite Hf. by destruct Hm as [-> | [-> | ->]]; rewrite orb_false_r.
Qed.

(** The oldest available buffer is taken, or its write is started. *)
Lemma oldest_spec H s fuel u : owned H s -> av_forw (hd s Bfreelist) <> Bfreelist ->
  wp (oldest refuse fuel u s) H s (fun o u' H' s' => u' = u /\ calm s s' /\
    match o with
    | None => H' = H
    | Some r => exists i, r = Bufp i /\ Bufp i ∉ H /\ H' = Bufp i :: H /\ holds H' s' i /\ ready s' i /\ flag s' i B_DELWRI = false /\
        forall d b j, names s' d b j <-> names s d b j
    end).
Proof.
  intros Ho Hav. destruct (first_avail _ (proj1 Ho)) as [|(i & Ei & Hi & Hb)]; [done|].
  destruct (notavail_guar _ _ _ Ho Hi Hb) as (Hg & Hh & Hv & Hr & Hfl & Hn).
  unfold oldest, mbind, b_bind, bget, bput. simpl bres_bind. rewrite Ei.
  change (has (notavail (Bufp i) s) (Bufp i) B_DELWRI) with (flag (notavail (Bufp i) s) i B_DELWRI).
  set (s1 := notavail (Bufp i) s) in *.
  destruct (flag s1 i B_DELWRI) eqn:Hdw; cycle 1.
  { simpl. exists (Bufp i :: H). split; [done|]. split; [done|]. split; [by apply calm_same|].
    exists i. split_and!; try done. by eapply not_mine. }
  simpl. destruct (set_async _ _ _ Hh Hr Hdw) as (Hg2 & Hh2 & Hr2 & Hdw2 & Ha2 & Hv2).
  set (s2 := bor (Bufp i) B_ASYNC s1) in *.
  assert (Hgs : guar H (Bufp i :: H) s s2) by (eapply guar_trans; [apply Ho|done|done]).
  eapply wp_extend; [apply Ho|exact Hgs|]. apply wp_bind; [apply Hgs|].
  eapply wp_mono; [|apply write_behind; [done|by eapply not_mine|done|done|done]].
  intros [] u' H' s3 Ho3 (-> & -> & Hc). apply wp_ret; [done|]. split; [done|]. split; [|done].
  eapply calm_trans; [by apply calm_same|]. eapply calm_trans; [by apply calm_same|done].
Qed.

(** ** [getblk] *)

(** A buffer for the block, busy and the caller's; it can be released as it is. *)
Definition got (dev blkno : Z) s u H (r : ref) (u' : upriv) H' s' : Prop :=
  exists i, r = Bufp i /\ u' = u /\ H' = Bufp i :: H /\ Bufp i ∉ H /\ holds H' s' i /\ names s' dev blkno i /\ ready s' i /\
    flag s' i B_ERROR = false /\ flag s' i B_ASYNC = false /\ calm s s'.

Lemma got_calm dev blkno s s1 u H r u' H' s' : calm s s1 -> got dev blkno s1 u H r u' H' s' -> got dev blkno s u H r u' H' s'.
Proof.
  intros Hc (i & -> & -> & -> & Hni & Hh & Hn & Hr & He & Ha & Hc'). exists i. split_and!; try done. by eapply calm_trans.
Qed.

(** The buffer was found and nobody has it. *)
Lemma take_found H s dev blkno i u : owned H s -> (i < NBUF)%nat -> names s dev blkno i -> flag s i B_BUSY = false ->
  wp ((bput (count_depth (Bufp i));; bput (notavail (Bufp i));; mret (Bufp i)) u s) H s (got dev blkno s u H).
Proof.
  intros Ho Hi Hn Hb. set (s1 := count_depth (Bufp i) s).
  assert (E1 : hd s1 = hd s /\ rest_same s s1) by (unfold s1, count_depth; cbv zeta; by case_match).
  destruct E1 as [E1 E2]. destruct (guar_count H s s1 E1 E2 Ho) as [Hg1 Hc1].
  pose proof (owned_guar _ _ _ _ Hg1) as Ho1.
  assert (Hb1 : flag s1 i B_BUSY = false) by (unfold flag, has; by rewrite E1).
  destruct (idle_ready _ _ (proj1 Ho1) Hi Hb1) as (_ & Ha & He & _).
  destruct (notavail_guar _ _ _ Ho1 Hi Hb1) as (Hg2 & Hh & Hv & Hr & Hfl & Hnm).
  assert (Hn1 : names s1 dev blkno i) by (unfold names, bdev, bblk; by rewrite E1).
  exists (Bufp i :: H). split; [eapply guar_trans; [apply Ho|exact Hg1|exact Hg2]|].
  exists i. rewrite !Hfl by done. split_and!; try done.
  - by eapply not_mine.
  - by apply Hnm.
  - destruct (flag s1 i B_ERROR); [|done]. destruct Hn1 as (Hnd & Ed & _). specialize (He eq_refl). congruence.
  - eapply calm_trans; [exact Hc1|by apply calm_same].
Qed.

Lemma avail_io s s' : binv s -> ioq s s' -> av_forw (hd s Bfreelist) <> Bfreelist -> av_forw (hd s' Bfreelist) <> Bfreelist.
Proof.
  intros Hi Hio Hav. destruct (first_avail _ Hi) as [|(i & _ & Hlt & Hb)]; [done|].
  destruct (io_facts _ _ _ _ Hi Hio) as ((av & cl & Hl & Hs) & _ & Hu & _). destruct (Hu i Hb) as [Hb' _].
  apply (fi_av _ _ _ _ _ _ (so_fit _ _ _ _ _ Hs i Hlt)) in Hb'. intros Hq.
  apply (ring_empty _ _ _ _ (ln_av _ _ _ Hl)) in Hq. destruct av; [set_solver|done].
Qed.

(** A buffer taken over for the block. *)
Lemma take_over H s dev blkno i u : holds (Bufp i :: H) s i -> Bufp i ∉ H -> ready s i -> flag s i B_DELWRI = false ->
  0 <= major dev < nblkdev -> raw dev blkno = false -> (forall j, (j < NBUF)%nat -> ~ names s dev blkno j) ->
  wp ((bput (upd_hd (Bufp i) (set_b_flags B_BUSY));; bput (unchain (Bufp i));; bput (enchain (d_tab (major dev)) (Bufp i));;
    bput (upd_hd (Bufp i) (fun h => set_b_blkno blkno (set_b_dev dev h)));; mret (Bufp i)) u s) (Bufp i :: H) s
    (got dev blkno s u H).
Proof.
  intros Hh Hni Hr Hdw Hm Hraw Hno. destruct (d_tab_valid _ Hm) as [Et Hhd]. rewrite Et.
  pose proof (major_nodev dev ltac:(lia)) as Hd.
  destruct (grab_guar _ s i (Tab (major dev)) (fun h => set_b_blkno blkno (set_b_dev dev h)) dev blkno Hh Hr Hdw Hhd)
    as (Hg & Hh' & Ef & Hv & Ed & Eb); [done|done|].
  eexists. split; [exact Hg|]. exists i. unfold flag, has, ready, flag, has. rewrite Ef.
  split_and!; try done; [split; [done|]; split; [done|by apply Eb]|by apply calm_same].
Qed.

(** Somebody is to be waited for. *)
Lemma wp_want {C} (f : unit -> B C) r c p u H s Q : owned H s ->
  (forall s', calm s s' -> owned H s' -> wp (f tt u s') H s' Q) ->
  wp (((bput (bor r B_WANTED);; bsleep c p) ≫= f) u s) H s Q.
Proof.
  intros Ho Hk. destruct (guar_soft H s r B_WANTED eq_refl Ho) as [Hg Hc]. eapply wp_extend; [apply Ho|exact Hg|].
  apply (wp_sleep f c p); [by eapply owned_guar|]. intros s' Hrel Ho'. apply Hk; [|done].
  eapply calm_trans; [exact Hc|apply Hrel].
Qed.

Ltac since Hc := eapply wp_mono; [intros ? ? ? ?; intros _; exact (got_calm _ _ _ _ _ _ _ _ _ _ Hc)|].

Lemma getblk_loop_spec H s dev blkno fuel u : owned H s -> 0 <= major dev < nblkdev -> raw dev blkno = false ->
  wp (getblk_loop refuse fuel dev blkno u s) H s (got dev blkno s u H).
Proof.
  intros Ho Hm Hraw. revert s Ho. induction fuel as [|fuel IH]; intros s Ho; [done|].
  cbn [getblk_loop]. apply wp_spl0; [done|]. intros s0 Hio0 Hc0 Ho0. destruct (d_tab_valid _ Hm) as [Et _]. rewrite Et.
  since Hc0. clear s Ho Hio0 Hc0. cbv zeta. rewrite decide_False by done. steps.
  destruct (find_blk_spec s0 dev blkno (proj1 Ho0) Hm) as [(i & -> & Hi & Hn0)|(-> & Hno0)];
    (apply wp_window; [done|]; intros s1 _ Hc1 Ho1 Hn1; since Hc1; steps).
  - assert (Hn : names s1 dev blkno i) by (by apply Hn1). destruct (has s1 (Bufp i) B_BUSY) eqn:Hb; steps.
    + apply (wp_want (fun _ => getblk_loop refuse fuel dev blkno)); [done|]. intros s3 Hc3 Ho3. since Hc3. by apply IH.
    + apply wp_spl0; [done|]. intros s2 Hio2 Hc2 Ho2. since Hc2.
      destruct (io_facts _ _ _ _ (proj1 Ho1) Hio2) as (_ & _ & Hun & _). destruct (Hun i Hb) as (Hb2 & Ha & _).
      apply take_found; [done|done| |done]. destruct (alike_names _ _ Ha) as [Ed Eb]. unfold names, bdev, bblk in *.
      by rewrite Ed, Eb.
  - assert (Hno : forall i, (i < NBUF)%nat -> ~ names s1 dev blkno i) by (intros i Hi Hn; by apply (Hno0 i Hi), Hn1).
    case_decide as Hav; steps.
    + apply (wp_want (fun _ => getblk_loop refuse fuel dev blkno)); [done|]. intros s3 Hc3 Ho3. since Hc3. by apply IH.
    + apply wp_spl0; [done|]. intros s2 Hio2 Hc2 Ho2. since Hc2.
      destruct (io_facts _ _ _ _ (proj1 Ho1) Hio2) as (_ & _ & _ & Hnm).
      apply wp_bind; [apply Ho2|]. eapply wp_mono; [|apply oldest_spec; [done|by eapply avail_io; [apply Ho1|..]]].
      intros [r|] u' H' s3 Ho3 (-> & Hc3 & Hq); since Hc3.
      * destruct Hq as (i & -> & Hni & -> & Hh & Hr & Hdw & Hn3). rewrite <- Et.
        apply take_over; try done. intros j Hj Hn. apply (Hno j Hj), Hnm, Hn3, Hn.
      * subst H'. by apply IH.
Qed.

Lemma getblk_spec H s dev blkno fuel u : owned H s -> 0 <= major dev < nblkdev -> raw dev blkno = false ->
  wp (getblk refuse fuel dev blkno u s) H s (got dev blkno s u H).
Proof.
  intros Ho Hm Hraw. unfold getblk. assert (E : (major dev <? 0) || (nblkdev <=? major dev) = false) by (bool_cases; simpl; lia).
  rewrite E. by apply getblk_loop_spec.
Qed.

(** ** Reading *)

(** The header given to the driver for a read. *)
Definition incoming (m : Z) i s : bst := upd_hd (Bufp i) (set_b_wcount BSIZEW) (bor (Bufp i) m s).

Lemma incoming_hd m i s : hd (incoming m i s) (Bufp i) =
  set_b_wcount BSIZEW (set_b_flags (b_flags (hd s (Bufp i)) |: m) (hd s (Bufp i))).
Proof. unfold incoming, bor. by rewrite !hd_upd, !decide_True by done. Qed.

Lemma incoming_flag m i s k : flag (incoming m i s) i k = flag s i k || (m &? k).
Proof. unfold flag, has. rewrite incoming_hd. simpl. apply tst_lor. Qed.

Lemma incoming_names m i s : bdev (incoming m i s) i = bdev s i /\ bblk (incoming m i s) i = bblk s i.
Proof. unfold bdev, bblk. by rewrite incoming_hd. Qed.

(** The state of a buffer whose read is to be started. *)
Lemma incoming_ok H s i m : holds H s i -> (m &? B_PHYS) = false -> (m &? B_DONE) = false -> (m &? B_ERROR) = false ->
  (m &? B_DELWRI) = false -> ready s i -> flag s i B_DONE = false -> flag s i B_ERROR = false -> bdev s i <> NODEV ->
  guar H H s (incoming m i s) /\ holds H (incoming m i s) i /\ req_ok raw (incoming m i s) (Bufp i) /\
  viewsame s (incoming m i s).
Proof.
  intros Hh Hm1 Hm2 Hm3 Hm4 Hr Hd He Hnd. pose proof (holds_buf _ _ _ Hh) as (Hb & Hp & Hlen).
  destruct (incoming_names m i s) as [Ed Eb].
  assert (Hdw : flag s i B_DELWRI = false).
  { destruct (flag s i B_DELWRI) eqn:E; [|done]. destruct (proj1 Hr E) as [? _]. congruence. }
  assert (Hfr : frame (Bufp i) s (incoming m i s)) by (unfold incoming; frames).
  destruct (guar_touch H s (incoming m i s) i) as [Hg Hh']; try done.
  - intros av cl Hl. unfold incoming, bor. by repeat apply linked_upd.
  - by rewrite incoming_flag, Hb.
  - by rewrite incoming_flag, Hp, Hm1.
  - by rewrite incoming_flag, He, Hm3.
  - split; [done|]. split; [done|]. split.
    + unfold req_ok. rewrite Ed. fold (flag (incoming m i s) i B_BUSY).
      fold (flag (incoming m i s) i B_DONE). fold (flag (incoming m i s) i B_ERROR).
      rewrite !incoming_flag, Hb, Hd, He, Hdw, Hm2, Hm3, Hm4, incoming_hd. split_and!; try done. apply Hh.
    + apply (view_keep raw quiet i); try done; [apply Hh|apply Hh'|apply Hh|].
      rewrite !valid_held, !incoming_flag, Hd, Hm2 by apply Hh. done.
Qed.

(** A buffer with the contents of the block, unless there was an error. *)
Definition read_in (dev blkno : Z) s u H (r : ref) (u' : upriv) H' s' : Prop :=
  exists i, r = Bufp i /\ H' = Bufp i :: H /\ Bufp i ∉ H /\ holds H' s' i /\ names s' dev blkno i /\ ready s' i /\
    flag s' i B_DONE = true /\ flag s' i B_ASYNC = false /\ calm s s' /\
    if flag s' i B_ERROR then u_error u' <> 0 else u' = u /\ buffers s' i = view s' dev blkno.

Lemma told_error h u : u_error (told true h u) <> 0.
Proof. unfold told, errno_of. simpl. by bool_cases. Qed.

(** A read under way that ends. *)
Lemma read_wait H s0 s i dev blkno fuel u : owned (Bufp i :: H) s -> (i < NBUF)%nat -> names s0 dev blkno i ->
  flag s0 i B_READ = true -> flag s0 i B_ASYNC = false -> flag s0 i B_ERROR = false -> flag s0 i B_DELWRI = false ->
  underway s0 s (Bufp i) -> Bufp i ∉ H ->
  wp ((iowait fuel (Bufp i);; mret (Bufp i)) u s) (Bufp i :: H) s (read_in dev blkno s u H).
Proof.
  intros Ho Hi (Hnd & Ed0 & Eb0) Hrd Ha Her Hdw Hu Hni. apply wp_bind; [apply Ho|].
  eapply wp_mono; [|apply (iowait_spec s0); [done|set_solver| |done]].
  2: { split; [done|]. split; [done|]. intros k [= <-]. congruence. }
  intros [] u' H' s1 Ho1 (err & -> & -> & Hh & He & Hc). apply wp_ret; [done|].
  pose proof He as (Ed & Eb & _ & _ & Hw). fold (bdev s1 i) (bdev s0 i) in Ed. fold (bblk s1 i) (bblk s0 i) in Eb.
  assert (Hf : forall m, Z.land (Z.lnot SOFT) m = m ->
    flag s1 i m = flag s0 i m || ((if err then B_DONE |: B_ERROR else B_DONE) &? m)) by (intros; by apply ended_flag).
  assert (Hdn : flag s1 i B_DONE = true) by (rewrite Hf by done; destruct err; by rewrite orb_true_r).
  assert (Hee : flag s1 i B_ERROR = err) by (by apply (ended_error _ s0)).
  assert (Hh1 : holds (Bufp i :: H) s1 i) by (split; [done|]; split; [set_solver|done]).
  assert (Hn1 : names s1 dev blkno i) by (split; [done|]; split; congruence).
  assert (Hcl : err = false -> buffers s1 i = block s1 dev blkno).
  { intros ->. destruct (Hw Hi eq_refl) as [E _]. by rewrite Ed0, Eb0 in E. }
  exists i. split_and!; try done.
  - unfold ready. rewrite (Hf B_DELWRI), Hdw, Hee by done. split; [by destruct err|].
    intros _ _ -> _. rewrite Ed, Eb, Ed0, Eb0. by apply Hcl.
  - rewrite Hf, Ha by done. by destruct err.
  - rewrite Hee. destruct err; [apply told_error|]. split; [done|]. symmetry.
    destruct (proj1 Ho1) as (av & cl & _ & Hs). eapply view_valid; [done|done|done|].
    rewrite valid_held by apply Hh1. by rewrite Hdn, Hee.
Qed.

Lemma read_in_calm dev blkno s s1 u H r u' H' s' : calm s s1 -> read_in dev blkno s1 u H r u' H' s' -> read_in dev blkno s u H r u' H' s'.
Proof.
  intros Hc (i & -> & -> & Hni & Hh & Hn & Hr & Hd & Ha & Hc' & He). exists i. split_and!; try done. by eapply calm_trans.
Qed.

Lemma view_of H s i dev blkno : holds H s i -> names s dev blkno i -> flag s i B_DONE = true -> flag s i B_ERROR = false ->
  buffers s i = view s dev blkno.
Proof.
  intros Hh Hn Hd He. pose proof Hh as ([(av & cl & _ & Hs) _] & _ & Hi & [_ Hnq]). symmetry.
  eapply view_valid; [done|done|done|]. rewrite valid_held by done. by rewrite Hd, He.
Qed.

Lemma start_read_run dev i m u s : 0 <= major dev < nblkdev ->
  start_read refuse dev (Bufp i) m u s = spl0 u (launch refuse (major dev) (Bufp i) (incoming m i s)).
Proof. intros Hm. unfold start_read. steps. by rewrite strategy_run. Qed.

Lemma count_run f u s : count f u s = Val tt u (set_io_info (f (io_info s)) s).
Proof. reflexivity. Qed.

(** A buffer from [getblk] whose block is to be read. *)
Definition unread (dev blkno : Z) H s i : Prop := holds H s i /\ names s dev blkno i /\ ready s i /\
  flag s i B_ERROR = false /\ flag s i B_ASYNC = false /\ flag s i B_DONE = false.

Lemma unread_delwri dev blkno H s i : unread dev blkno H s i -> flag s i B_DELWRI = false.
Proof.
  intros (_ & _ & Hr & _ & _ & Hd). destruct (flag s i B_DELWRI) eqn:E; [|done].
  destruct (proj1 Hr E) as [? _]. congruence.
Qed.

(** Its read is started, and counted by [f]; the process waits for it later. *)
Definition reading (dev blkno : Z) H s i : Prop := owned H s /\ exists s0, names s0 dev blkno i /\
  flag s0 i B_READ = true /\ flag s0 i B_ASYNC = false /\ flag s0 i B_ERROR = false /\ flag s0 i B_DELWRI = false /\
  underway s0 s (Bufp i).

Lemma reading_kept H s s' i dev blkno : binv s -> owned H s' -> reading dev blkno H s i -> kept s s' (Bufp i) ->
  reading dev blkno H s' i.
Proof.
  intros Hi Ho (_ & s0 & Hn & H1 & H2 & H3 & H4 & Hu) Hk. split; [done|]. exists s0. split_and!; try done.
  eapply underway_kept; [done|done| |done|done]. intros k [= <-]. destruct Hn as (? & ? & _). congruence.
Qed.

Lemma launched_read H s i dev blkno : unread dev blkno H s i -> 0 <= major dev < nblkdev ->
  let s' := launch refuse (major dev) (Bufp i) (incoming B_READ i s) in
  guar H H s s' /\ calm s s' /\ reading dev blkno H s' i.
Proof.
  intros Hun Hm s'. pose proof (unread_delwri _ _ _ _ _ Hun) as Hdw. destruct Hun as (Hh & Hn & Hr & He & Ha & Hd).
  pose proof Hn as (Hnd & Ed & Eb).
  destruct (incoming_ok H s i B_READ Hh) as (Hg1 & Hh1 & Hreq & Hv1); try done; [congruence|].
  assert (Ha1 : flag (incoming B_READ i s) i B_ASYNC = false) by (by rewrite incoming_flag, Ha).
  destruct (launch_sync _ _ _ (major dev) Hh1 Hreq Ha1) as [Hg2 Hu]. fold s' in Hg2, Hu.
  assert (Hv2 : calm (incoming B_READ i s) s').
  { intros Hq. unfold s'. rewrite (calm_launch H) by done. eapply view_enqueued_read; [done|done|].
    by rewrite incoming_flag, orb_true_r. }
  assert (Hg : guar H H s s') by (eapply guar_trans; [apply Hh|exact Hg1|exact Hg2]).
  split; [done|]. split; [eapply calm_trans; [by apply calm_same|exact Hv2]|].
  split; [by eapply owned_guar|]. exists (incoming B_READ i s). rewrite !incoming_flag, He, Ha, Hdw, orb_true_r.
  destruct (incoming_names B_READ i s) as [E1 E2]. split_and!; try done.
  split; [done|]; split; congruence.
Qed.

(** The read is started and counted. *)
Lemma wp_start_read {C} (k : B C) H s i dev blkno f u Q : unread dev blkno H s i -> 0 <= major dev < nblkdev ->
  (forall s', calm s s' -> reading dev blkno H s' i -> wp (k u s') H s' Q) ->
  wp (bres_bind (start_read refuse dev (Bufp i) B_READ u s) (fun _ u s => k u (set_io_info (f (io_info s)) s))) H s Q.
Proof.
  intros Hun Hm Hk. destruct (launched_read _ _ _ _ _ Hun Hm) as (Hg1 & Hc1 & Hrd). rewrite start_read_run by done.
  pose proof Hun as (Hh & _). eapply wp_extend; [apply Hh|exact Hg1|].
  apply (wp_spl0 (fun _ u s => k u (set_io_info (f (io_info s)) s)) u); [apply Hrd|]. intros s2 Hio Hc2 Ho2.
  destruct (io_facts _ _ _ _ (proj1 Hg1) Hio) as (_ & Hkp & _).
  pose proof (reading_kept _ _ _ _ _ _ (proj1 Hg1) Ho2 Hrd (Hkp _)) as Hrd2.
  set (s3 := set_io_info (f (io_info s2)) s2). destruct (guar_count H s2 s3) as [Hg3 Hc3]; [done|done|done|].
  destruct (soft_step s2 s3) as (_ & Hk3 & _); [apply Ho2|done|done|intros ? ?; by apply linked_hd|].
  eapply wp_extend; [apply Ho2|exact Hg3|]. apply Hk.
  - eapply calm_trans; [exact Hc1|]. eapply calm_trans; [exact Hc2|exact Hc3].
  - eapply reading_kept; [apply Ho2|by eapply owned_guar|done|done].
Qed.

Lemma reading_wait H s i dev blkno fuel u : reading dev blkno (Bufp i :: H) s i -> (i < NBUF)%nat -> Bufp i ∉ H ->
  wp ((iowait fuel (Bufp i);; mret (Bufp i)) u s) (Bufp i :: H) s (read_in dev blkno s u H).
Proof. intros (Ho & s0 & Hn & H1 & H2 & H3 & H4 & Hu) Hi Hni. by apply (read_wait H s0). Qed.

(** [bread] returns the block, whatever happens while it waits. *)
Lemma bread_spec H s dev blkno fuel u : owned H s -> 0 <= major dev < nblkdev -> raw dev blkno = false ->
  wp (bread refuse fuel dev blkno u s) H s (read_in dev blkno s u H).
Proof.
  intros Ho Hm Hraw. apply wp_bind; [apply Ho|]. eapply wp_mono; [|by apply getblk_spec].
  intros r u' H' s1 Ho1 (i & -> & -> & -> & Hni & Hh & Hn & Hr & He & Ha & Hc). steps.
  eapply wp_mono; [intros a u' H' s'; intros _; exact (read_in_calm _ _ _ _ _ _ _ _ _ _ Hc)|].
  change (has s1 (Bufp i) B_DONE) with (flag s1 i B_DONE). destruct (flag s1 i B_DONE) eqn:Hd.
  - set (s2 := set_io_info (set_ncache (ncache (io_info s1) + 1) (io_info s1)) s1).
    destruct (guar_count (Bufp i :: H) s1 s2) as [Hg2 Hc2]; [done|done|done|].
    exists (Bufp i :: H). split; [done|]. assert (He2 : flag s2 i B_ERROR = false) by exact He.
    assert (Hr2 : names s2 dev blkno i /\ ready s2 i /\ flag s2 i B_DONE = true /\ flag s2 i B_ASYNC = false) by exact (conj Hn (conj Hr (conj Hd Ha))).
    assert (Hh2 : holds (Bufp i :: H) s2 i) by (split; [by eapply owned_guar|]; split; [set_solver|apply Hh]).
    change (read_in dev blkno s1 u H (Bufp i) u (Bufp i :: H) s2). clearbody s2.
    destruct Hr2 as (? & ? & ? & ?). exists i. rewrite He2. split_and!; try done. by eapply view_of.
  - assert (Hun : unread dev blkno (Bufp i :: H) s1 i) by (by split_and!).
    eapply (wp_start_read (iowait fuel (Bufp i);; mret (Bufp i)) _ _ _ _ _ (fun c => set_nread (nread c + 1) c)); [done|done|]. intros s2 Hc2 Hrd.
    eapply wp_mono; [intros a u' H' s'; intros _; exact (read_in_calm _ _ _ _ _ _ _ _ _ _ Hc2)|].
    apply (reading_wait H _ i dev blkno fuel u Hrd); [apply Hh|done].
Qed.

(** ** What a process keeps while it does something else *)

Lemma guar_aside H H' s s' r : binv s -> mine s r -> (r ∉ H) -> guar H H' s s' ->
  guar (r :: H) (r :: H') s s' /\ kept s s' r /\ (r ∉ H').
Proof.
  intros Hi Hm Hr (Hi' & Hk & Ho). pose proof (Hk r Hr) as Hkr.
  assert (Hr' : r ∉ H') by (intros Hin; destruct (Ho r Hin) as [_ [|]]; done).
  split; [|done]. split; [done|]. split.
  - intros x Hx. apply Hk. set_solver.
  - intros x [-> | Hx]%elem_of_cons.
    + split; [by eapply kept_mine|left; set_solver].
    + destruct (Ho x Hx) as [? [|]]; split; try done; [left; set_solver|by right].
Qed.

Lemma wp_aside {A} (x : bres A) r H s Q : binv s -> mine s r -> (r ∉ H) -> wp x H s Q ->
  wp x (r :: H) s (fun a u H' s' => exists H0, H' = r :: H0 /\ (r ∉ H0) /\ Q a u H0 s' /\ kept s s' r).
Proof.
  revert H s. induction x as [a u s1|w s1 k IH|c p s1 k IH|msg| |]; intros H s Hi Hm Hr; simpl; try done.
  - intros (H' & Hg & HQ). destruct (guar_aside _ _ _ _ _ Hi Hm Hr Hg) as (Hg' & Hk & Hr').
    exists (r :: H'). split; [done|]. eauto.
  - intros (H' & Hg & HQ). destruct (guar_aside _ _ _ _ _ Hi Hm Hr Hg) as (Hg' & Hk & Hr').
    exists (r :: H'). split; [done|]. intros s2 Hio. pose proof (proj1 Hg) as Hi1.
    destruct (io_facts _ _ _ _ Hi1 (ioq_weaken _ _ _ _ Hio)) as (Hi2 & Hk2 & _). pose proof (kept_mine _ _ _ Hk Hm) as Hm1.
    eapply wp_mono; [|apply IH; [done|by eapply kept_mine|done|by apply HQ]].
    intros a u H2 s3 _ (H0 & -> & Hr0 & HQ0 & Hk3). exists H0. split_and!; try done.
    eapply (kept_trans raw quiet _ _ _ _ Hi); [exact Hk|]. eapply (kept_trans raw quiet); [done|apply Hk2|done].
  - intros (H' & Hg & HQ). destruct (guar_aside _ _ _ _ _ Hi Hm Hr Hg) as (Hg' & Hk & Hr').
    exists (r :: H'). split; [done|]. intros s2 (Hi2 & Hk2 & Hc2). pose proof (proj1 Hg) as Hi1.
    pose proof (kept_mine _ _ _ Hk Hm) as Hm1. assert (Hkr : kept s1 s2 r) by (apply Hk2; set_solver).
    eapply wp_mono; [|apply IH; [done|by eapply kept_mine|done|apply HQ; split_and!; try done; set_solver]].
    intros a u H2 s3 _ (H0 & -> & Hr0 & HQ0 & Hk3). exists H0. split_and!; try done.
    eapply (kept_trans raw quiet _ _ _ _ Hi); [exact Hk|]. eapply (kept_trans raw quiet); [done|exact Hkr|done].
Qed.

(** ** Reading ahead *)

Lemma incore_run s dev blkno u : binv s -> 0 <= major dev < nblkdev ->
  exists here : bool, incore dev blkno u s = Val here u s.
Proof.
  intros Hi Hm. unfold incore. steps. destruct (find_blk_spec s dev blkno Hi Hm) as [(i & -> & _)|(-> & _)]; eauto.
Qed.

Lemma ahead_spec H s dev rablkno fuel u : owned H s -> 0 <= major dev < nblkdev ->
  (rablkno <> 0 -> raw dev rablkno = false) ->
  wp (breada_ahead refuse fuel dev rablkno u s) H s (fun _ u' H' s' => u' = u /\ H' = H /\ calm s s').
Proof.
  intros Ho Hm Hraw. unfold breada_ahead. destruct (Z.eqb_spec rablkno 0) as [|Hne]; [by apply wp_ret|].
  destruct (incore_run s dev rablkno u (proj1 Ho) Hm) as [here E].
  unfold mbind, b_bind at 1. rewrite E. cbn [bres_bind]. destruct here; [by apply wp_ret|].
  apply wp_bind; [apply Ho|]. eapply wp_mono; [|by apply getblk_spec; auto].
  intros r u' H' s1 Ho1 (i & -> & -> & -> & Hni & Hh & Hn & Hr & He & Ha & Hc). steps.
  assert (Hwo : without (Bufp i :: H) (Bufp i) = H).
  { by apply filter_ne_cons. }
  change (has s1 (Bufp i) B_DONE) with (flag s1 i B_DONE). destruct (flag s1 i B_DONE) eqn:Hd.
  - destruct (brelse_guar _ _ _ Hh Hr) as [Hg Hv]. rewrite Hwo in Hg. exists H. split; [done|].
    split_and!; try done. eapply calm_trans; [exact Hc|by apply calm_same].
  - destruct Hn as (Hnd & Ed & Eb).
    destruct (incoming_ok (Bufp i :: H) s1 i (B_READ |: B_ASYNC) Hh) as (Hg1 & Hh1 & Hreq & Hv1); try done; [congruence|].
    assert (Ha1 : flag (incoming (B_READ |: B_ASYNC) i s1) i B_ASYNC = true) by (by rewrite incoming_flag, orb_true_r).
    unfold mbind, b_bind. rewrite (start_read_run dev i _ u s1 Hm).
    set (s2 := incoming (B_READ |: B_ASYNC) i s1) in *. set (s3 := launch refuse (major dev) (Bufp i) s2).
    assert (Hg2 : guar (Bufp i :: H) H s2 s3).
    { apply launch_async; [done|done|done|]. intros x Hx. split; [set_solver|]. by intros ->. }
    assert (Hc2 : calm s2 s3).
    { intros Hq. unfold s3. rewrite (calm_launch H) by done. eapply view_enqueued_read; [done|done|].
      unfold s2. by rewrite incoming_flag, orb_true_r. }
    assert (Hg : guar (Bufp i :: H) H s1 s3) by (eapply guar_trans; [apply Hh|exact Hg1|exact Hg2]).
    eapply wp_extend; [apply Hh|exact Hg|].
    apply (wp_spl0 (fun _ => count (fun c => set_nreada (nreada c + 1) c))); [by eapply owned_guar|]. intros s4 Hio Hc4 Ho4. rewrite count_run.
    destruct (guar_count H s4 (set_io_info (set_nreada (nreada (io_info s4) + 1) (io_info s4)) s4)) as [Hg5 Hc5]; [done|done|done|].
    exists H. split; [done|]. split_and!; try done. eapply calm_trans; [exact Hc|]. eapply calm_trans; [by apply calm_same|].
    eapply calm_trans; [exact Hc2|]. eapply calm_trans; [exact Hc4|exact Hc5].
Qed.

(** A buffer the process holds stays as it is. *)
Lemma holds_kept H s s' i : holds H s i -> owned H s' -> kept s s' (Bufp i) ->
  holds H s' i /\ (forall d b, names s' d b i <-> names s d b i) /\ (ready s i -> ready s' i) /\
  (forall m, Z.land (Z.lnot SOFT) m = m -> flag s' i m = flag s i m) /\ buffers s' i = buffers s i.
Proof.
  intros (Ho & Hin & Hi & Hh) Ho' [Hk _]. destruct (Hk Hh) as (Hh' & Ha & Hw1 & Hw2).
  destruct (alike_names _ _ Ha) as [Ed Eb].
  assert (Hf : forall m, Z.land (Z.lnot SOFT) m = m -> flag s' i m = flag s i m) by (intros; by apply alike_flag).
  split; [done|]. split; [intros; unfold names, bdev, bblk; by rewrite Ed, Eb|]. split; [|done].
  intros [R1 R2]. unfold ready, bdev, bblk in *. rewrite !Hf, Ed, Eb, Hw1 by done. split; [done|].
  intros H1 H2 H3 H4. rewrite Hw2 by done. by apply R2.
Qed.

(** A block that is there. *)
Definition present (dev blkno : Z) H s i : Prop := holds H s i /\ names s dev blkno i /\ ready s i /\
  flag s i B_ERROR = false /\ flag s i B_ASYNC = false /\ flag s i B_DONE = true.

Lemma present_kept dev blkno H s s' i : present dev blkno H s i -> owned H s' -> kept s s' (Bufp i) -> present dev blkno H s' i.
Proof.
  intros (Hh & Hn & Hr & He & Ha & Hd) Ho Hk. destruct (holds_kept _ _ _ _ Hh Ho Hk) as (Hh' & Hn' & Hr' & Hf & _).
  unfold present. rewrite !Hf, Hn' by done. split_and!; try done. by apply Hr'.
Qed.

Lemma present_read dev blkno H s s' i u : present dev blkno (Bufp i :: H) s' i -> (Bufp i ∉ H) -> calm s s' ->
  read_in dev blkno s u H (Bufp i) u (Bufp i :: H) s'.
Proof.
  intros (Hh & Hn & Hr & He & Ha & Hd) Hni Hc. exists i. rewrite He. split_and!; try done. by eapply view_of.
Qed.

Lemma present_wait H s i dev blkno fuel u : present dev blkno (Bufp i :: H) s i -> (Bufp i ∉ H) ->
  wp ((iowait fuel (Bufp i);; mret (Bufp i)) u s) (Bufp i :: H) s (read_in dev blkno s u H).
Proof.
  intros Hp Hni. pose proof Hp as ((Ho & _) & _ & _ & _ & _ & Hd). apply wp_bind; [apply Ho|].
  unfold iowait. apply wp_bind; [apply Ho|]. destruct fuel as [|fuel]; [done|]. cbn [await]. steps.
  change (has s (Bufp i) B_DONE) with (flag s i B_DONE). rewrite Hd. apply wp_ret; [done|].
  apply wp_spl0; [done|]. intros s2 Hio Hc Ho2. rewrite geterror_run. apply wp_ret; [done|].
  destruct (io_facts _ _ _ _ (proj1 Ho) Hio) as (_ & Hk & _).
  pose proof (present_kept _ _ _ _ _ _ Hp Ho2 (Hk _)) as Hp2. apply wp_ret; [done|].
  pose proof Hp2 as (_ & _ & _ & He & _). unfold flag in He. rewrite He. by apply present_read.
Qed.

(** What the first part of [breada] leaves for the second. *)
Lemma first_spec H s dev blkno fuel u : owned H s -> 0 <= major dev < nblkdev -> raw dev blkno = false ->
  wp (breada_first refuse fuel dev blkno u s) H s (fun o u' H' s' => u' = u /\ calm s s' /\
    match o with
    | None => H' = H
    | Some r => exists i, r = Bufp i /\ H' = Bufp i :: H /\ (Bufp i ∉ H) /\ (i < NBUF)%nat /\ mine s' r /\
        (present dev blkno H' s' i \/ reading dev blkno H' s' i)
    end).
Proof.
  intros Ho Hm Hraw. unfold breada_first.
  destruct (incore_run s dev blkno u (proj1 Ho) Hm) as [here E].
  unfold mbind, b_bind at 1. rewrite E. cbn [bres_bind]. destruct here; [by apply wp_ret|].
  apply wp_bind; [apply Ho|]. eapply wp_mono; [|by apply getblk_spec].
  intros r u' H' s1 Ho1 (i & -> & -> & -> & Hni & Hh & Hn & Hr & He & Ha & Hc). steps.
  change (has s1 (Bufp i) B_DONE) with (flag s1 i B_DONE). destruct (flag s1 i B_DONE) eqn:Hd.
  - apply wp_ret; [done|]. split_and!; try done. exists i. split_and!; try done; [apply Hh|apply Ho1; set_solver|].
    left. by split_and!.
  - assert (Hun : unread dev blkno (Bufp i :: H) s1 i) by (by split_and!).
    apply wp_bind; [apply Ho1|].
    eapply (wp_start_read (mret tt) _ _ _ _ _ (fun c => set_nread (nread c + 1) c)); [done|done|]. intros s2 Hc2 Hrd.
    apply wp_ret; [apply Hrd|]. apply wp_ret; [apply Hrd|]. split; [done|]. split; [by eapply calm_trans|].
    exists i. split_and!; try done; [apply Hh| |by right]. apply Hrd. set_solver.
Qed.

(** [breada] returns the block as [bread] does. *)
Lemma breada_spec H s dev blkno rablkno fuel u : owned H s -> 0 <= major dev < nblkdev -> raw dev blkno = false ->
  (rablkno <> 0 -> raw dev rablkno = false) ->
  wp (breada refuse fuel dev blkno rablkno u s) H s (read_in dev blkno s u H).
Proof.
  intros Ho Hm Hraw Hrr. apply wp_bind; [apply Ho|]. eapply wp_mono; [|by apply first_spec].
  intros [r|] u1 H1 s1 Ho1 (-> & Hc1 & Hq); (eapply wp_mono; [intros a u' H' s'; intros _; exact (read_in_calm _ _ _ _ _ _ _ _ _ _ Hc1)|]).
  - destruct Hq as (i & -> & -> & Hni & Hi & Hmi & Hst). apply wp_bind; [apply Ho1|].
    assert (Ho0 : owned H s1) by (split; [apply Ho1|]; intros x Hx; apply Ho1; set_solver).
    eapply wp_mono; [|apply wp_aside; [apply Ho1|done|done|by apply ahead_spec]].
    intros [] u' H' s2 Ho2 (H0 & -> & _ & (-> & -> & Hc2) & Hk).
    eapply wp_mono; [intros a u' H' s'; intros _; exact (read_in_calm _ _ _ _ _ _ _ _ _ _ Hc2)|].
    destruct Hst as [Hp|Hrd].
    + apply present_wait; [|done]. by eapply present_kept.
    + apply reading_wait; [|done|done]. eapply reading_kept; [apply Ho1|done|done|done].
  - subst H1. apply wp_bind; [apply Ho1|]. eapply wp_mono; [|by apply ahead_spec].
    intros [] u' H' s2 Ho2 (-> & -> & Hc2).
    eapply wp_mono; [intros a u' H' s'; intros _; exact (read_in_calm _ _ _ _ _ _ _ _ _ _ Hc2)|]. by apply bread_spec.
Qed.

(** ** Delayed and asynchronous writes *)

Lemma wrote_from s s1 s2 i : binv s -> binv s1 -> frame (Bufp i) s s1 -> platter s1 = platter s -> (i < NBUF)%nat ->
  bdev s1 i = bdev s i -> bblk s1 i = bblk s i -> forall x,
  wrote s1 s2 (bdev s1 i) (bblk s1 i) x -> wrote s s2 (bdev s i) (bblk s i) x.
Proof.
  intros Hi Hi1 Hf Hp Hlt Ed Eb x Hw d b Hd Hraw. rewrite (Hw d b Hd Hraw), Ed, Eb.
  destruct (Z.eqb_spec d (bdev s i)), (Z.eqb_spec b (bblk s i)); simpl; [done|..];
    (apply (view_elsewhere s s1 i); try done; tauto).
Qed.

(** What the three ways to write a buffer have in common. *)
Definition put_out i s u H u' H' s' : Prop := H' = without H (Bufp i) /\ (exists err h, u' = told err h u) /\
  (quiet = true -> wrote s s' (bdev s i) (bblk s i) (buffers s i)).

Lemma bwrite_put H s i fuel u : holds H s i -> bdev s i <> NODEV ->
  wp (bwrite refuse fuel (Bufp i) u s) H s (fun _ => put_out i s u H).
Proof.
  intros Hh Hd. eapply wp_mono; [|by apply bwrite_spec]. by intros [] u' H' s' _ (-> & Hw & Hu & _).
Qed.

Lemma bawrite_put H s i fuel u : holds H s i -> bdev s i <> NODEV ->
  wp (bawrite refuse fuel (Bufp i) u s) H s (fun _ => put_out i s u H).
Proof.
  intros Hh Hd. destruct (set_bits H s i B_ASYNC Hh eq_refl eq_refl) as (Hg & Hh' & Hf & Ed & Eb & _).
  unfold bawrite. steps. eapply wp_extend; [apply Hh|exact Hg|].
  eapply wp_mono; [|apply bwrite_put; [done|congruence]]. intros [] u' H' s2 _ (-> & Hu & Hw).
  split_and!; try done. intros Hq. specialize (Hw Hq).
  eapply (wrote_from s (bor (Bufp i) B_ASYNC s)); [apply Hh|apply Hh'|done|done|apply Hh|done|done|done].
Qed.

Lemma bdwrite_put H s i fuel u : holds H s i -> bdev s i <> NODEV -> flag s i B_ERROR = false ->
  wp (bdwrite refuse fuel (Bufp i) u s) H s (fun _ => put_out i s u H).
Proof.
  intros Hh Hnd He. unfold bdwrite. steps. destruct (has s (d_tab _) B_TAPE); [by apply bawrite_put|]. steps.
  destruct (set_bits H s i (B_DELWRI |: B_DONE) Hh eq_refl eq_refl) as (Hg & Hh' & Hf & Ed & Eb & Hfl).
  set (s1 := bor (Bufp i) (B_DELWRI |: B_DONE) s) in *. eapply wp_extend; [apply Hh|exact Hg|].
  assert (Hr : ready s1 i).
  { unfold ready. rewrite !Hfl, He, !orb_true_r, Ed. split; [done|by intros ?]. }
  destruct (brelse_guar _ _ _ Hh' Hr) as [Hg2 Hv2]. exists (without H (Bufp i)). split; [done|].
  split_and!; [done|by exists false, hdr0|]. intros _.
  eapply (wrote_from s s1); [apply Hh|apply Hh'|done|done|apply Hh|done|done|].
  intros d b Hd Hraw. rewrite (Hv2 d b Hd Hraw). pose proof Hh' as ([(av & cl & _ & Hs) _] & _ & Hi & [_ Hnq]).
  destruct (Z.eqb_spec d (bdev s1 i)) as [E1|], (Z.eqb_spec b (bblk s1 i)) as [E2|]; simpl; [|done..].
  change (buffers s i) with (buffers s1 i). eapply view_valid; [done|done|by rewrite E1, E2; split; [congruence|]|].
  rewrite valid_held by done. by rewrite !Hfl, He, orb_true_r.
Qed.

(** ** A buffer for no block *)

Lemma wait_avail_spec H s fuel u : owned H s ->
  wp (wait_avail fuel u s) H s (fun _ u' H' s' => u' = u /\ H' = H /\ calm s s' /\ av_forw (hd s' Bfreelist) <> Bfreelist).
Proof.
  revert s. induction fuel as [|fuel IH]; intros s Ho; [done|]. cbn [wait_avail]. steps. case_decide as Hav.
  - apply (wp_want (fun _ => wait_avail fuel)); [done|]. intros s1 Hc Ho1. eapply wp_mono; [|by apply IH].
    intros [] u' H' s' _ (-> & -> & Hc' & Hav'). split_and!; try done. by eapply calm_trans.
  - by apply wp_ret.
Qed.

Lemma geteblk_spec H s fuel u : owned H s ->
  wp (geteblk refuse fuel u s) H s (fun r u' H' s' => exists i, r = Bufp i /\ u' = u /\ H' = Bufp i :: H /\ (Bufp i ∉ H) /\
    holds H' s' i /\ bdev s' i = NODEV /\ ready s' i /\ calm s s').
Proof.
  revert s. induction fuel as [|fuel IH]; intros s Ho; [done|]. cbn [geteblk]. apply wp_bind; [apply Ho|].
  eapply wp_mono; [|by apply wait_avail_spec]. intros [] u1 H1 s1 Ho1 (-> & -> & Hc1 & Hav).
  apply wp_spl0; [done|]. intros s2 Hio Hc2 Ho2. apply wp_bind; [apply Ho2|].
  eapply wp_mono; [|apply oldest_spec; [done|by eapply avail_io; [apply Ho1|..]]].
  intros [r|] u' H' s3 Ho3 (-> & Hc3 & Hq).
  - destruct Hq as (i & -> & Hni & -> & Hh & Hr & Hdw & _). steps.
    destruct (grab_guar _ s3 i Bfreelist (set_b_dev NODEV) NODEV 0 Hh Hr Hdw) as (Hg & Hh' & Ef & Hv & Ed & _);
      [by left|done|done|].
    eexists. split; [exact Hg|]. exists i. split_and!; try done.
    + unfold ready, flag, has. rewrite Ef. done.
    + eapply calm_trans; [exact Hc1|]. eapply calm_trans; [exact Hc2|]. eapply calm_trans; [exact Hc3|by apply calm_same].
  - subst H'. eapply wp_mono; [|by apply IH]. intros r u' H' s' _ (i & -> & -> & -> & Hni & Hh & Ed & Hr & Hc).
    exists i. split_and!; try done. eapply calm_trans; [exact Hc1|]. eapply calm_trans; [exact Hc2|].
    eapply calm_trans; [exact Hc3|exact Hc].
Qed.

(** ** Flushing *)

Lemma due_spec s l x fuel dev :
  seg (fun r => av_forw (hd s r)) (fun r => av_back (hd s r)) x (Bufp <$> l) Bfreelist -> (length l <= fuel)%nat ->
  (exists i, due fuel s (av_forw (hd s x)) dev = Some (Some (Bufp i)) /\ i ∈ l /\ flag s i B_DELWRI = true) \/
  (due fuel s (av_forw (hd s x)) dev = Some None /\
   forall i, i ∈ l -> flag s i B_DELWRI = true -> dev <> NODEV /\ dev <> bdev s i).
Proof.
  revert x fuel. induction l as [|i l IH]; intros x fuel; simpl.
  - intros [-> _] _. right. split; [|set_solver]. by destruct fuel.
  - intros [[-> _] Hs] Hf. destruct fuel as [|fuel]; [lia|]. simpl.
    change (b_flags (hd s (Bufp i)) &? B_DELWRI) with (flag s i B_DELWRI). fold (bdev s i).
    destruct (flag s i B_DELWRI && _) eqn:Ht.
    + left. exists i. apply andb_true_iff in Ht as [Ht _]. set_solver.
    + destruct (IH (Bufp i) fuel Hs ltac:(lia)) as [(j & -> & Hj & Htj)|(-> & Hno)]; [left; exists j; set_solver|].
      right. split; [done|]. intros j [-> | Hj]%elem_of_cons Hd; [|by apply Hno].
      rewrite Hd in Ht. simpl in Ht. apply orb_false_iff in Ht as [?%Z.eqb_neq ?%Z.eqb_neq]. done.
Qed.

(** No write is due on [dev] but of buffers somebody has. *)
Definition flushed dev s : Prop := forall i, (i < NBUF)%nat -> flag s i B_BUSY = false -> flag s i B_DELWRI = true ->
  dev <> NODEV /\ dev <> bdev s i.

Lemma finish_delwri s r err i : binv s -> r ∈ dq s -> flag (finish r err s) i B_DELWRI = true ->
  flag (finish r err s) i B_BUSY = false -> flag s i B_BUSY = false /\ flag s i B_DELWRI = true /\ bdev (finish r err s) i = bdev s i.
Proof.
  intros (av & cl & _ & Hs) Hr Hd Hb. pose proof (finish_frame r err s) as Hf.
  destruct (decide (Bufp i = r)) as [<-|Hne].
  - exfalso. destruct (so_req _ _ _ _ _ Hs _ Hr) as (_ & _ & _ & _ & _ & _ & Hdw).
    assert (E : flag (donehd (Bufp i) err s) i B_DELWRI = false).
    { unfold flag. rewrite donehd_flag. unfold flag in Hdw. rewrite Hdw. by destruct err. }
    rewrite finish_done in Hd. cbv zeta in Hd. destruct (has (donehd _ _ s) (Bufp i) B_ASYNC).
    + pose proof (pay_fields _ _ _ _ _ _ _ _ (brelse_pay (Bufp i) (donehd (Bufp i) err s) ltac:(done))) as (Ef & _).
      unfold flag, has in Hd, E. rewrite Ef, tst_clr_other in Hd by done. congruence.
    + set (s3 := donehd (Bufp i) err s) in *. clearbody s3. unfold flag, has, bclr in Hd, E. simpl in Hd.
      rewrite decide_True in Hd by done. simpl in Hd. rewrite tst_clr_other in Hd by done. congruence.
  - unfold flag in *. rewrite (frame_flag _ _ _ _ _ Hf Hne) in Hd by done.
    rewrite (frame_flag _ _ _ _ _ Hf Hne) in Hb by done. split_and!; try done.
    by apply (frame_names _ _ _ _ Hf).
Qed.

Lemma flushed_io dev s s' : binv s -> ioq s s' -> flushed dev s -> flushed dev s'.
Proof.
  intros Hi Hio. revert Hi. induction Hio as [|s1 s2 s3 [r err Hr Hqe Hk] Hio IH]; [done|]. intros Hi Hfl.
  apply IH; [by eapply io_binv|]. intros i Hlt Hb Hd. destruct (finish_delwri _ _ _ _ Hi Hr Hd Hb) as (Hb0 & Hd0 & ->).
  by apply Hfl.
Qed.

(** [notavail] after [B_ASYNC] went on does as [B_ASYNC] after [notavail]. *)
Lemma notavail_links r s x :
  av_forw (hd (notavail r s) x) = (if decide (x = av_back (hd s r)) then av_forw (hd s r) else av_forw (hd s x)) /\
  av_back (hd (notavail r s) x) = (if decide (x = av_forw (hd s r)) then av_back (hd s r) else av_back (hd s x)) /\
  b_forw (hd (notavail r s) x) = b_forw (hd s x) /\ b_back (hd (notavail r s) x) = b_back (hd s x).
Proof.
  unfold notavail, bor. cbv zeta. set (s1 := upd_hd (av_back (hd s r)) _ s).
  assert (E1 : av_forw (hd s1 r) = av_forw (hd s r)) by (unfold s1; rewrite hd_upd; by case_decide).
  assert (E2 : av_back (hd s1 r) = av_back (hd s r)) by (unfold s1; by rewrite hd_upd_field).
  rewrite E1, E2. split_and!.
  - rewrite !hd_upd_field by done. unfold s1. rewrite hd_upd. by case_decide.
  - rewrite hd_upd_field by done. rewrite hd_upd. case_decide; subst; [done|]. unfold s1. by rewrite hd_upd_field.
  - unfold s1. by rewrite !hd_upd_field.
  - unfold s1. by rewrite !hd_upd_field.
Qed.

Lemma async_notavail s i : let s1 := bor (Bufp i) B_ASYNC (notavail (Bufp i) s) in
  let s2 := notavail (Bufp i) (bor (Bufp i) B_ASYNC s) in
  (forall x, pay (hd s2 x) = pay (hd s1 x)) /\ (forall av cl, linked s1 av cl -> linked s2 av cl) /\ rest_same s1 s2.
Proof.
  cbv zeta. split; [|split; [|done]].
  - intros x. assert (Hn : forall s, pay (hd (notavail (Bufp i) s) x) = if decide (x = Bufp i)
      then pay (set_b_flags (b_flags (hd s (Bufp i)) |: B_BUSY) (hd s (Bufp i))) else pay (hd s x)).
    { clear s. intros s. case_decide as E; subst; [apply notavail_pay|]. unfold notavail, bor. cbv zeta.
      rewrite hd_upd, decide_False by done. by rewrite !pay_upd. }
    rewrite Hn. unfold bor. rewrite !hd_upd. specialize (Hn s). destruct (decide (x = Bufp i)) as [->|E]; [|by rewrite Hn].
    rewrite decide_True by done.
    destruct (hd (notavail (Bufp i) s) (Bufp i)). unfold pay in *. simpl in *. simplify_eq/=.
    by rewrite <- !Z.lor_assoc, (Z.lor_comm B_ASYNC).
  - intros av cl. apply linked_ext. intros x.
    destruct (notavail_links (Bufp i) (bor (Bufp i) B_ASYNC s) x) as (-> & -> & -> & ->).
    unfold bor. rewrite !hd_upd_field by done. destruct (notavail_links (Bufp i) s x) as (-> & -> & -> & ->). done.
Qed.

Lemma pay_alike h h' : pay h' = pay h -> alike h h'.
Proof. intros [=]. repeat split; try done. congruence. Qed.

Lemma bflush_spec H s dev fuel u : owned H s ->
  wp (bflush refuse fuel dev u s) H s (fun _ u' H' s' => u' = u /\ H' = H /\ calm s s' /\ flushed dev s').
Proof.
  revert s. induction fuel as [|fuel IH]; intros s Ho; [done|]. cbn [bflush]. steps.
  pose proof (proj1 Ho) as (av & cl & Hl & Hs). destruct (avail_short _ _ _ Hl Hs) as [_ Hsh].
  destruct (ln_av _ _ _ Hl) as [_ Hsg].
  destruct (due_spec s av Bfreelist NBUF dev Hsg Hsh) as [(i & -> & Hi & Hd)|(-> & Hno)]; cycle 1.
  { exists H. split; [apply guar_refl; apply Ho|]. intros s2 Hio%ioq_weaken. pose proof (ioq_calm _ _ (proj1 Ho) Hio) as Hc. apply wp_ret; [by eapply owned_io|].
    split_and!; try done. eapply flushed_io; [apply Ho|done|]. intros i Hlt Hb Hd. apply Hno; [|done].
    by apply (fi_av _ _ _ _ _ _ (so_fit _ _ _ _ _ Hs i Hlt)). }
  steps. pose proof (so_av _ _ _ _ _ Hs i Hi) as Hlt.
  assert (Hb : flag s i B_BUSY = false) by (by apply (fi_av _ _ _ _ _ _ (so_fit _ _ _ _ _ Hs i Hlt))).
  assert (Hni : Bufp i ∉ H) by (by eapply not_mine).
  destruct (notavail_guar _ _ _ Ho Hlt Hb) as (Hg1 & Hh1 & Hv1 & Hr1 & Hf1 & _).
  assert (Hd1 : flag (notavail (Bufp i) s) i B_DELWRI = true) by (by rewrite Hf1).
  destruct (set_async _ _ _ Hh1 Hr1 Hd1) as (Hg2 & Hh2 & Hr2 & Hd2 & Ha2 & Hv2).
  destruct (async_notavail s i) as (Hpay & Hln & Hrs).
  set (s2 := bor (Bufp i) B_ASYNC (notavail (Bufp i) s)) in *.
  set (s3 := notavail (Bufp i) (bor (Bufp i) B_ASYNC s)) in *.
  destruct (soft_step s2 s3) as (Hi3 & Hk3 & Hv3); [apply Hh2|intros x; by apply pay_alike|done|done|].
  pose proof (guar_all _ _ _ (proj1 Hh2) Hi3 Hk3) as Hg3. pose proof (owned_guar _ _ _ _ Hg3) as Ho3.
  destruct (holds_kept _ _ _ _ Hh2 Ho3 (Hk3 _)) as (Hh3 & _ & Hr3 & Hf3 & _).
  assert (Hg : guar H (Bufp i :: H) s s3).
  { eapply guar_trans; [apply Ho|exact Hg1|]. eapply guar_trans; [apply Hh1|exact Hg2|exact Hg3]. }
  eapply wp_extend; [apply Ho|exact Hg|]. apply wp_bind; [done|].
  eapply wp_mono; [|apply write_behind; [done|done|by apply Hr3|by rewrite Hf3|by rewrite Hf3]].
  intros [] u' H' s4 Ho4 (-> & -> & Hc4). eapply wp_mono; [|by apply IH].
  intros [] u' H' s' _ (-> & -> & Hc & Hfl). split_and!; try done.
  eapply calm_trans; [|exact Hc]. eapply calm_trans; [|exact Hc4]. apply calm_same.
  eapply viewsame_trans; [exact Hv1|]. eapply viewsame_trans; [exact Hv2|exact Hv3].
Qed.
End Spec.
