(* ===== verification/Bsys.v ===== *)
(** * The buffer cache: any processes, any interleaving

    Processes that read, write and flush blocks, stepped one at a time over the shared
    buffers: a process keeps the processor until it sleeps, interrupts come whenever the
    priority allows them, and a transfer may fail. *)

From stdpp Require Import relations.
From S2P Require Import Prelude Param Utab Kern Ring Bio Bcache Bspec.

Implicit Types (s : bst) (r : ref) (i j : nat) (H : list ref).

(** ** After [binit] *)

Definition binit_chains (h : ref) : list nat :=
  if decide (h = Bfreelist) then rev (seq 0 NBUF) else [].

Lemma binit_linked p : linked (binit (bst0 p)) (seq 0 NBUF) binit_chains.
Proof.
  split.
  - split; [apply NoDup_cons; split; [|apply NoDup_fmap_2; [by intros ? ? [=]|apply NoDup_seq]]|].
    + intros (k & ? & _)%list_elem_of_fmap. done.
    + vm_compute. repeat split.
  - intros h Hh. assert (Hc : h = Bfreelist \/ h = Tab 0 \/ h = Tab 1) by (unfold heads in Hh; set_solver).
    destruct Hc as [-> | [-> | ->]]; split.
    + apply NoDup_cons. split; [by intros (k & ? & _)%list_elem_of_fmap|].
      apply NoDup_fmap_2; [by intros ? ? [=]|]. vm_compute. repeat (apply NoDup_cons_2; [set_solver|]). apply NoDup_nil_2.
    + vm_compute. repeat split.
    + apply NoDup_singleton.
    + vm_compute. repeat split.
    + apply NoDup_singleton.
    + vm_compute. repeat split.
Qed.

Lemma binit_header p i : (i < NBUF)%nat -> flag (binit (bst0 p)) i B_BUSY = false /\ bdev (binit (bst0 p)) i = NODEV /\
  b_flags (hd (binit (bst0 p)) (Bufp i)) = 0.
Proof. intros Hi. do 16 (destruct i as [|i]; [vm_compute; done|]). unfold NBUF in Hi. lia. Qed.

Lemma binit_binv raw quiet p : binv raw quiet (binit (bst0 p)).
Proof.
  exists (seq 0 NBUF), binit_chains. split; [apply binit_linked|]. pose proof (binit_header p) as Hh.
  assert (Hq : dq (binit (bst0 p)) = []) by (vm_compute; reflexivity).
  assert (Hb : buffers (binit (bst0 p)) = buffers (bst0 p)) by (vm_compute; reflexivity).
  revert Hq Hb Hh. generalize (binit (bst0 p)). intros s Hq Hb Hh. split.
  - intros i h h' _ _. unfold binit_chains. repeat case_decide; subst; [done|..]; intros H1 H2;
      (by apply not_elem_of_nil in H1) || (by apply not_elem_of_nil in H2).
  - intros i. unfold binit_chains. split.
    + intros (h & _ & Hi). case_decide; [|by apply not_elem_of_nil in Hi]. apply list_elem_of_In, in_rev, list_elem_of_In, elem_of_seq in Hi. lia.
    + intros Hi. exists Bfreelist. split; [by left|]. rewrite decide_True by done.
      apply list_elem_of_In, in_rev. rewrite rev_involutive. apply list_elem_of_In, elem_of_seq. lia.
  - intros i Hi%elem_of_seq. lia.
  - intros i Hi. destruct (Hh i Hi) as (H1 & H2 & H3). unfold flag, has in *. rewrite H3 in H1.
    split; unfold flag, has; rewrite ?H2, ?H3; try done.
    + split; [done|]. intros _. apply elem_of_seq. lia.
    + rewrite Hb. split; [done|]. apply length_replicate.
  - intros i j Hi _ Hd. destruct (Hh i Hi) as (_ & H2 & _). congruence.
  - rewrite Hq. apply NoDup_nil_2.
  - rewrite Hq. intros r Hr. by apply not_elem_of_nil in Hr.
Qed.

(** ** Calls on blocks *)

Definition fill (r : ref) (x : list Z) (s : bst) : bst :=
  match r with
  | Bufp i => set_buffers (fun j => if decide (j = i) then x else buffers s j) s
  | _ => s
  end.

Definition words (r : ref) (s : bst) : list Z := match r with Bufp i => buffers s i | _ => [] end.

Inductive call :=
  | Read (d b : Z)
  | Reada (d b ra : Z)
  | Write (h : how) (d b : Z) (x : list Z)
  | Flush (d : Z).

Section Calls.
Context (refuse : Z -> buf -> bool).

(** The words of a buffer that was read, [None] when there was an error. *)
Definition release (bp : ref) : B (option (list Z)) :=
  err ← bget (fun s => has s bp B_ERROR);
  x ← bget (words bp);
  bput (brelse bp);;
  mret (if (err : bool) then None else Some x).

Definition put_block (h : how) (fuel : nat) (bp : ref) : B unit :=
  match h with Sync => bwrite refuse fuel bp | Delayed => bdwrite refuse fuel bp | Async => bawrite refuse fuel bp end.

Definition do_call (fuel : nat) (c : call) : B (option (list Z)) :=
  match c with
  | Read d b => bp ← bread refuse fuel d b; release bp
  | Reada d b ra => bp ← breada refuse fuel d b ra; release bp
  | Write h d b x =>
      bp ← getblk refuse fuel d b;
      bput (fill bp x);;
      put_block h fuel bp;;
      mret None
  | Flush d => bflush refuse fuel d;; mret None
  end.

Fixpoint do_calls (fuel : nat) (cs : list call) : B (list (option (list Z))) :=
  match cs with
  | [] => mret []
  | c :: cs => a ← do_call fuel c; l ← do_calls fuel cs; mret (a :: l)
  end.

Context (raw : Z -> Z -> bool) (quiet : bool).
Context (nofault : quiet = true -> forall m h, refuse m h = false).

Definition blk_ok (d b : Z) : Prop := 0 <= major d < nblkdev /\ raw d b = false.

Definition call_ok (c : call) : Prop :=
  match c with
  | Read d b => blk_ok d b
  | Reada d b ra => blk_ok d b /\ (ra <> 0 -> raw d ra = false)
  | Write _ d b x => blk_ok d b /\ length x = Z.to_nat BSIZEW
  | Flush _ => True
  end.

(** What a call returns and does to the blocks, when nothing goes wrong. *)
Definition call_result (c : call) s (a : option (list Z)) s' : Prop :=
  match c with
  | Read d b | Reada d b _ => a = Some (view s d b) /\ viewsame raw s s'
  | Write _ d b x => a = None /\ wrote raw s s' d b x
  | Flush d => a = None /\ viewsame raw s s' /\ flushed d s'
  end.

Abbreviation owned := (owned raw quiet).
Abbreviation wp := (wp raw quiet).
Abbreviation holds := (holds raw quiet).

Lemma release_spec H s0 s1 u0 u dev blkno r H' : read_in raw quiet dev blkno s0 u0 H r u H' s1 -> raw dev blkno = false ->
  wp (release r u s1) H' s1 (fun a _ H1 s' => H1 = H /\
    (quiet = true -> a = Some (view s0 dev blkno) /\ viewsame raw s0 s')).
Proof.
  intros (i & -> & -> & Hni & Hh & Hn & Hr & Hd & Ha & Hc & He) Hraw.
  destruct (brelse_guar raw quiet _ _ _ Hh Hr) as [Hg Hv].
  change (release (Bufp i) u s1) with (Val (if flag s1 i B_ERROR then None else Some (buffers s1 i)) u (brelse (Bufp i) s1)).
  eexists. split; [exact Hg|]. split.
  { by apply filter_ne_cons. }
  intros Hq. pose proof Hn as (Hnd & Ed & _). destruct Hh as ([(av & cl & _ & Hs) _] & _ & Hi & _).
  pose proof (fi_good _ _ _ _ _ _ (so_fit _ _ _ _ _ Hs i Hi) Hq ltac:(congruence)) as Hge. rewrite Hge in *.
  destruct He as [_ He]. split.
  - rewrite He. f_equal. by apply Hc.
  - eapply viewsame_trans; [exact (Hc Hq)|exact Hv].
Qed.

(** A buffer from [getblk], filled. *)
Lemma fill_holds H s i x : holds H s i -> length x = Z.to_nat BSIZEW -> flag s i B_ERROR = false ->
  let s' := fill (Bufp i) x s in
  guar raw quiet H H s s' /\ holds H s' i /\ frame (Bufp i) s s' /\ buffers s' i = x.
Proof.
  intros Hh Hx He s'. pose proof (holds_buf _ _ _ _ _ Hh) as (Hb & Hp & _).
  assert (Hf : frame (Bufp i) s s').
  { split; [intros; apply alike_refl| |done]. intros j Hj. simpl. rewrite decide_False; [done|congruence]. }
  assert (Ex : buffers s' i = x) by (simpl; by rewrite decide_True).
  destruct (guar_touch raw quiet H s s' i) as [Hg Hh']; try done.
  - intros av cl. by apply linked_hd.
  - by rewrite Ex.
Qed.

Lemma call_spec c fuel H s u : call_ok c -> owned H s ->
  wp (do_call fuel c u s) H s (fun a _ H' s' => H' = H /\ (quiet = true -> call_result c s a s')).
Proof.
  intros Hc Ho. destruct c as [d b|d b ra|h d b x|d]; simpl do_call; (apply wp_bind; [apply Ho|]).
  - destruct Hc as [Hm Hraw]. eapply wp_mono; [|by apply bread_spec].
    intros r u' H' s1 Ho1 Hrd. by eapply release_spec.
  - destruct Hc as [[Hm Hraw] Hra]. eapply wp_mono; [|by apply breada_spec].
    intros r u' H' s1 Ho1 Hrd. by eapply release_spec.
  - destruct Hc as [[Hm Hraw] Hx]. eapply wp_mono; [|by apply getblk_spec].
    intros r u' H' s1 Ho1 (i & -> & -> & -> & Hni & Hh & Hn & Hr & He & Ha & Hcm). steps.
    destruct (fill_holds _ _ _ _ Hh Hx He) as (Hg & Hh2 & Hf & Ex). set (s2 := fill (Bufp i) x s1) in *.
    pose proof Hn as (Hnd & Ed & Eb).
    assert (Hput : wp (put_block h fuel (Bufp i) u s2) (Bufp i :: H) s2 (fun _ => put_out raw quiet i s2 u (Bufp i :: H))).
    { destruct h; [apply bwrite_put|apply bdwrite_put|apply bawrite_put]; try done; by rewrite <- Ed in Hnd. }
    eapply wp_extend; [apply Ho1|exact Hg|]. apply wp_bind; [apply Hh2|].
    eapply wp_mono; [|exact Hput]. intros [] u' H' s3 Ho3 (-> & _ & Hw). apply wp_ret; [done|].
    split; [by apply filter_ne_cons|]. intros Hq. split; [done|]. specialize (Hw Hq).
    change (bdev s2 i) with (bdev s1 i) in Hw. change (bblk s2 i) with (bblk s1 i) in Hw. rewrite Ex in Hw.
    eapply (wrote_from raw quiet s1 s2 s3 i) in Hw; [|apply Ho1|apply Hh2|done|done|apply Hh|done|done].
    rewrite Ed, Eb in Hw. intros d' b' Hd' Hr'. rewrite (Hw d' b' Hd' Hr'). case_match; [done|]. by apply Hcm.
  - eapply wp_mono; [|by apply bflush_spec]. intros [] u' H' s1 Ho1 (-> & -> & Hcm & Hfl).
    apply wp_ret; [done|]. split; [done|]. intros Hq. split; [done|]. split; [exact (Hcm Hq)|done].
Qed.

Lemma calls_spec cs fuel H s u : Forall call_ok cs -> owned H s ->
  wp (do_calls fuel cs u s) H s (fun _ _ H' _ => H' = H).
Proof.
  revert s u. induction cs as [|c cs IH]; intros s u Hc Ho; [by apply wp_ret|]. apply Forall_cons in Hc as [Hc Hcs].
  apply wp_bind; [apply Ho|]. eapply wp_mono; [|by apply call_spec]. intros a u1 H1 s1 Ho1 (-> & _).
  apply wp_bind; [apply Ho1|]. eapply wp_mono; [|by apply IH]. intros l u2 H2 s2 Ho2 ->. by apply wp_ret.
Qed.

End Calls.

(** ** Processes and interrupts *)

(** A process is done, goes on with [k] when it gets the processor, or came to a bad end;
    [Starved] is one whose loops ran out of the fuel given to them. *)
Inductive thread (A : Type) :=
  | Fin
  | At (k : bst -> bres A)
  | Crashed
  | Starved.
Arguments Fin {A}.
Arguments At {A} k.
Arguments Crashed {A}.
Arguments Starved {A}.

(** [running] has the processor and goes on before anybody else; the flag is that of its
    [Intr]. *)
Record conf (A : Type) := Conf { shared : bst; running : option (nat * bool); procs : list (thread A) }.
Arguments Conf {A} shared running procs.
Arguments shared {A} c.
Arguments running {A} c.
Arguments procs {A} c.

Definition settle {A} (j : nat) (x : bres A) s (ps : list (thread A)) : conf A :=
  match x with
  | Val _ _ s' => Conf s' None (<[j := Fin]> ps)
  | Intr w s' k => Conf s' (Some (j, w)) (<[j := At k]> ps)
  | Asleep _ _ s' k => Conf s' None (<[j := At k]> ps)
  | BPanic _ | BWild => Conf s None (<[j := Crashed]> ps)
  | BNoFuel => Conf s None (<[j := Starved]> ps)
  end.

(** No transfer fails while the running process is between the search of [getblk] and its
    [spl6()]. *)
Definition spared (cur : option (nat * bool)) : bool := match cur with Some (_, w) => w | None => false end.

Inductive sys_step {A} : conf A -> conf A -> Prop :=
  | sys_intr s s' cur ps : ioq_step (spared cur) s s' -> sys_step (Conf s cur ps) (Conf s' cur ps)
  | sys_go s cur ps j k : cur = None \/ (exists w, cur = Some (j, w)) -> ps !! j = Some (At k) ->
      sys_step (Conf s cur ps) (settle j (k s) s ps).

Section System.
Context (raw : Z -> Z -> bool).
Context {A : Type}.
Implicit Types (c : conf A) (p : thread A) (Hs : list (list ref)).

Abbreviation wp := (wp raw false).
Abbreviation rely := (rely raw false).
Abbreviation binv := (binv raw false).

Definition anything (a : A) (u : upriv) H s : Prop := True.

(** What process [j] with [H] needs of the state. *)
Definition proc_ok s (cur : option (nat * bool)) (j : nat) H p : Prop :=
  match p with
  | Fin | Starved => True
  | Crashed => False
  | At k => if decide (fst <$> cur = Some j) then forall s', ioq (spared cur) s s' -> wp (k s') H s' anything
            else forall s', rely H s s' -> wp (k s') H s' anything
  end.

Definition apart Hs : Prop := forall j1 j2 H1 H2 r, Hs !! j1 = Some H1 -> Hs !! j2 = Some H2 -> r ∈ H1 -> r ∈ H2 -> j1 = j2.

Definition sys_inv c : Prop := binv (shared c) /\ exists Hs, length Hs = length (procs c) /\ apart Hs /\
  (forall j H r, Hs !! j = Some H -> r ∈ H -> mine (shared c) r) /\
  forall j H p, Hs !! j = Some H -> procs c !! j = Some p -> proc_ok (shared c) (running c) j H p.

Lemma rely_trans H s1 s2 s3 : binv s1 -> rely H s1 s2 -> rely H s2 s3 -> rely H s1 s3.
Proof.
  intros Hi (Hi2 & Hk2 & _) (Hi3 & Hk3 & _). split; [done|]. split; [|done].
  intros r Hr. eapply kept_trans; [exact Hi|by apply Hk2|by apply Hk3].
Qed.

(** An interrupt. *)
Lemma sys_inv_intr s s' cur ps : sys_inv (Conf s cur ps) -> ioq_step (spared cur) s s' -> sys_inv (Conf s' cur ps).
Proof.
  intros (Hi & Hs & Hl & Ha & Hm & Hp) Hst. simpl in *. pose proof (rtc_once _ _ Hst) as Hio0.
  assert (Hio : ioq false s s') by exact (ioq_weaken false _ _ _ Hio0).
  destruct (io_facts _ _ _ _ Hi Hio) as (Hi' & Hkp & _). split; [done|]. exists Hs. split_and!; try done; simpl.
  - intros j H x Hj Hx. eapply kept_mine; [apply Hkp|by eapply Hm].
  - intros j H p Hj Hpj. specialize (Hp j H p Hj Hpj). destruct p as [|k| |]; try done. simpl in *. case_decide.
    + intros s2 H2. apply Hp. etrans; [exact Hio0|exact H2].
    + intros s2 H2. apply Hp. eapply rely_trans; [done| |done]. by split.
Qed.

(** A process runs until it gives the processor away. *)
Lemma sys_inv_go s cur ps j k : sys_inv (Conf s cur ps) -> cur = None \/ (exists w, cur = Some (j, w)) -> ps !! j = Some (At k) ->
  sys_inv (settle j (k s) s ps).
Proof.
  intros (Hi & Hs & Hl & Ha & Hm & Hp) Hcur Hj. simpl in *.
  destruct (lookup_lt_is_Some_2 Hs j) as [H HH]; [rewrite Hl; by eapply lookup_lt_Some|].
  assert (Hwp : wp (k s) H s anything).
  { specialize (Hp j H _ HH Hj). simpl in Hp. case_decide; [apply Hp, rtc_refl|]. apply Hp. split; [done|]. split; [|done].
    intros r Hr. apply (guar_refl raw false [] s Hi); set_solver. }
  assert (Hoth : forall s1 H', guar raw false H H' s s1 ->
    binv s1 /\ apart (<[j := H']> Hs) /\ (forall j' H1 r, <[j := H']> Hs !! j' = Some H1 -> r ∈ H1 -> mine s1 r) /\
    forall j' H1 p cur', j' <> j -> cur' = None \/ (exists w, cur' = Some (j, w)) -> Hs !! j' = Some H1 -> ps !! j' = Some p -> proc_ok s1 cur' j' H1 p).
  { intros s1 H' (Hi1 & Hk & Ho).
    assert (Hkept : forall j' H1 r, j' <> j -> Hs !! j' = Some H1 -> r ∈ H1 -> kept s s1 r).
    { intros j' H1 r Hne HH1 Hr. apply Hk. intros Hr'. apply Hne. by eapply Ha. }
    assert (Hnew : forall j' H1 r, j' <> j -> Hs !! j' = Some H1 -> r ∈ H1 -> r ∉ H').
    { intros j' H1 r Hne HH1 Hr Hr'. destruct (Ho r Hr') as [_ [Hin|Hn]]; [|by apply Hn, (Hm j' H1)].
      apply Hne. by eapply Ha. }
    split; [done|]. split; [|split].
    - intros j1 j2 H1 H2 r. rewrite !list_lookup_insert_Some. intros [(<- & <- & _)|[N1 E1]] [(<- & <- & _)|[N2 E2]] R1 R2; try done.
      + exfalso. by eapply (Hnew j2).
      + exfalso. by eapply (Hnew j1).
      + by eapply Ha.
    - intros j' H1 r. rewrite list_lookup_insert_Some. intros [(<- & <- & _)|[N1 E1]] Hr; [by apply Ho|].
      eapply kept_mine; [by eapply Hkept|by eapply Hm].
    - intros j' H1 p cur' Hne Hc' HH1 Hpj. specialize (Hp j' H1 p HH1 Hpj). destruct p as [|k'| |]; try done. simpl in *.
      rewrite decide_False in Hp by (destruct Hcur as [->|[w ->]]; simpl; congruence).
      rewrite decide_False by (destruct Hc' as [->|[w ->]]; simpl; congruence).
      intros s2 H2. apply Hp. eapply rely_trans; [done| |done]. split; [done|]. split; [|done]. intros; by eapply Hkept. }
  assert (Hfin : forall s1 H' cur' p, guar raw false H H' s s1 -> cur' = None \/ (exists w, cur' = Some (j, w)) ->
    proc_ok s1 cur' j H' p -> sys_inv (Conf s1 cur' (<[j := p]> ps))).
  { intros s1 H' cur' p Hg Hc' Hpo. destruct (Hoth s1 H' Hg) as (Hi1 & Ha1 & Hm1 & Hp1). split; [done|].
    exists (<[j := H']> Hs). split; [simpl; by rewrite !length_insert|]. split; [done|]. split; [done|]. simpl.
    intros j' H1 p'. rewrite !list_lookup_insert_Some.
    intros [(<- & <- & _)|[N1 E1]] [(E2 & <- & _)|[N2 E2]]; try done. by eapply Hp1. }
  destruct (k s) as [a u s1|w s1 k'|ch pri s1 k'|msg| |]; simpl in Hwp |- *; try done.
  - destruct Hwp as (H' & Hg & _). eapply Hfin; [done|by left|done].
  - destruct Hwp as (H' & Hg & Hw). eapply Hfin; [done|by right; exists w|]. simpl. by rewrite decide_True.
  - destruct Hwp as (H' & Hg & Hw). eapply Hfin; [done|by left|]. simpl. done.
  - apply (Hfin s H None Starved); [apply guar_refl; [done|]|by left|done]. intros r Hr. by eapply Hm.
Qed.

Lemma sys_inv_reachable c c' : sys_inv c -> rtc sys_step c c' -> sys_inv c'.
Proof.
  intros Hc Hr. induction Hr as [|c1 c2 c3 Hst Hr IH]; [done|]. apply IH. clear IH Hr.
  destruct Hst; [by eapply sys_inv_intr|by eapply sys_inv_go].
Qed.

End System.

(** The machine after [binit], with a process for each list of calls. *)
Definition start_conf (refuse : Z -> buf -> bool) (p : Z -> Z -> Z) (fuel : nat) (css : list (list call)) :
    conf (list (option (list Z))) :=
  Conf (binit (bst0 p)) None ((fun cs => At (do_calls refuse fuel cs (Upriv 0 0 0 0 0 0 [] 0))) <$> css).

Lemma start_inv raw refuse p fuel css : Forall (Forall (call_ok raw)) css -> sys_inv raw (start_conf refuse p fuel css).
Proof.
  intros Hok. split; [apply binit_binv|]. exists (replicate (length css) []). split_and!; simpl.
  - by rewrite length_replicate, length_fmap.
  - intros j1 j2 H1 H2 r [-> _]%lookup_replicate _ Hr. by apply not_elem_of_nil in Hr.
  - intros j H r [-> _]%lookup_replicate Hr. by apply not_elem_of_nil in Hr.
  - intros j H q [-> _]%lookup_replicate Hq. rewrite list_lookup_fmap in Hq.
    destruct (css !! j) as [cs|] eqn:E; simplify_eq/=. intros s (Hi & _). 
    eapply wp_mono; [|eapply (calls_spec refuse raw false)]; [done|done| |].
    + by eapply Forall_lookup_1.
    + split; [done|]. intros r Hr. by apply not_elem_of_nil in Hr.
Qed.

(** C8. The buffer cache is safe under any interleaving.  Let any number of processes read,
    read ahead, write and flush any blocks, let interrupts come at any time the priority
    allows, and let transfers fail, but not in the few instructions of [getblk] between its
    search and its [spl6()]: in every state that can be reached the invariant holds (each
    buffer is on one chain and, exactly when it is not busy, on the available list, no two
    buffers are for one block, a clean available buffer has what is on the device), and no
    process has panicked or followed a wild pointer. *)
Theorem cache_interleaving raw refuse p fuel css c :
  Forall (Forall (call_ok raw)) css -> rtc sys_step (start_conf refuse p fuel css) c ->
  binv raw false (shared c) /\ Crashed ∉ procs c.
Proof.
  intros Hok Hr. apply (sys_inv_reachable raw) in Hr; [|by apply start_inv].
  destruct Hr as (Hi & Hs & Hl & _ & _ & Hp). split; [done|]. intros [j Hj]%list_elem_of_lookup.
  destruct (lookup_lt_is_Some_2 Hs j) as [H HH]; [rewrite Hl; by eapply lookup_lt_Some|].
  exact (Hp j H _ HH Hj).
Qed.

(** The configuration after the first process got the processor. *)
Definition two_procs : list (list call) := [[Read 0 5]; [Write Delayed 0 5 (replicate 512 7); Flush NODEV]].

Definition first_turn : conf (list (option (list Z))) :=
  let c := start_conf (fun _ _ => false) (fun _ _ => 0) 100 two_procs in
  settle 0 (do_calls (fun _ _ => false) 100 [Read 0 5] (Upriv 0 0 0 0 0 0 [] 0) (shared c)) (shared c) (procs c).

Lemma first_turn_reached : rtc sys_step (start_conf (fun _ _ => false) (fun _ _ => 0) 100 two_procs) first_turn.
Proof. apply rtc_once, sys_go; [by left|reflexivity]. Qed.

Lemma two_procs_ok : Forall (Forall (call_ok (fun _ _ => false))) two_procs.
Proof. repeat constructor; vm_compute; congruence. Qed.

Lemma cache_interleaving_witness : binv (fun _ _ => false) false (shared first_turn) /\ Crashed ∉ procs first_turn.
Proof.
  exact (cache_interleaving (fun _ _ => false) (fun _ _ => false) (fun _ _ => 0) 100 two_procs first_turn
    two_procs_ok first_turn_reached).
Defined.
