(* ===== verification/Bseq.v ===== *)
(** * The buffer cache: one process

    When one process runs and no transfer fails, every routine of [Bio] returns with the
    fuel given here, and the cache with the devices below is a memory of blocks that the
    calls read and write in order. *)

From stdpp Require Import relations.
From S2P Require Import Prelude Param Utab Kern Ring Bio Bcache Bspec Bsys.

Implicit Types (s : bst) (r : ref) (i j : nat) (H : list ref).

(** ** The work left to the devices

    A request in a queue, and twice for a delayed write that is not yet one: every sleep
    and every delayed write that is started leaves less. *)

Definition weight s i : nat :=
  if decide (Bufp i ∈ dq s) then 1
  else if negb (flag s i B_BUSY) && flag s i B_DELWRI then 2 else 0.

Definition work s : nat := sum_list_with (weight s) (seq 0 NBUF).

(** Enough for any loop of one process. *)
Definition FUEL : nat := 2 * NBUF + 1.

Lemma sum_bound (f : nat -> nat) k l : (forall i, (f i <= k)%nat) -> (sum_list_with f l <= k * length l)%nat.
Proof. intros Hf. induction l as [|i l IH]; simpl; [lia|]. specialize (Hf i). nia. Qed.

Lemma work_bound s : (work s < FUEL)%nat.
Proof.
  unfold work, FUEL. pose proof (sum_bound (weight s) 2 (seq 0 NBUF)) as Hb. rewrite length_seq in Hb.
  assert ((forall i, weight s i <= 2)%nat) as Hw by (intros i; unfold weight; repeat case_match; lia).
  specialize (Hb Hw). lia.
Qed.

Lemma sum_same (f g : nat -> nat) l : (forall i, i ∈ l -> f i = g i) -> sum_list_with f l = sum_list_with g l.
Proof.
  induction l as [|i l IH]; intros He; simpl; [done|]. rewrite (He i) by set_solver. f_equal. apply IH. set_solver.
Qed.

Lemma sum_less (f g : nat -> nat) i l : NoDup l -> i ∈ l -> (forall j, j <> i -> f j = g j) -> (f i < g i)%nat ->
  (sum_list_with f l < sum_list_with g l)%nat.
Proof.
  intros Hnd Hi He Hlt. apply list_elem_of_split in Hi as (l1 & l2 & ->).
  apply NoDup_app in Hnd as (_ & Hd & Hnd). apply NoDup_cons in Hnd as [Hn2 _].
  assert (i ∉ l1) by (intros Hin; apply (Hd i Hin); set_solver).
  assert (E : forall (h : nat -> nat), sum_list_with h (l1 ++ i :: l2) = (sum_list_with h l1 + h i + sum_list_with h l2)%nat).
  { intros h. clear. induction l1 as [|a l1 IH]; simpl in *; [done|]. rewrite IH. lia. }
  rewrite !E.
  rewrite (sum_same f g l1), (sum_same f g l2); [lia|..]; intros j Hj; apply He; by intros ->.
Qed.

Lemma weight_other i s s' j : frame (Bufp i) s s' -> j <> i -> weight s' j = weight s j.
Proof.
  intros Hf Hne. assert (Hj : Bufp j <> Bufp i) by congruence. unfold weight, flag.
  rewrite !(frame_flag _ _ _ _ _ Hf Hj) by done. pose proof (fr_dq _ _ _ Hf _ Hj) as Hq.
  destruct (decide (Bufp j ∈ dq s')), (decide (Bufp j ∈ dq s)); tauto.
Qed.

Lemma work_less i s s' : frame (Bufp i) s s' -> (i < NBUF)%nat -> (weight s' i < weight s i)%nat -> (work s' < work s)%nat.
Proof.
  intros Hf Hi Hw. apply (sum_less _ _ i); [apply NoDup_seq|apply elem_of_seq; lia| |done].
  intros j Hj. by apply (weight_other i).
Qed.

(** ** Only what the process has is busy, but for writes and reads ahead *)

Record lone H s : Prop := {
  lo_busy i : (i < NBUF)%nat -> flag s i B_BUSY = true -> Bufp i ∈ H \/ (Bufp i ∈ dq s /\ flag s i B_ASYNC = true);
  lo_dq r : r ∈ dq s -> exists i, r = Bufp i;
}.

Lemma lone_step i H H' s s' : lone H s -> frame (Bufp i) s s' -> (forall r, r <> Bufp i -> r ∈ H -> r ∈ H') ->
  (flag s' i B_BUSY = true -> Bufp i ∈ H' \/ (Bufp i ∈ dq s' /\ flag s' i B_ASYNC = true)) -> lone H' s'.
Proof.
  intros [Hb Hq] Hf Hsub Hi. split.
  - intros j Hj. destruct (decide (j = i)) as [->|Hne]; [done|]. assert (Hr : Bufp j <> Bufp i) by congruence.
    unfold flag. rewrite !(frame_flag _ _ _ _ _ Hf Hr), (fr_dq _ _ _ Hf _ Hr) by done. intros Hbj.
    destruct (Hb j Hj Hbj) as [?|?]; [left; by apply Hsub|by right].
  - intros r Hr. destruct (decide (r = Bufp i)) as [->|Hne]; [eauto|]. apply Hq. by apply (fr_dq _ _ _ Hf _ Hne).
Qed.

(** A step that changes flags only in [SOFT]. *)
Lemma lone_soft H s s' : (forall x, alike (hd s x) (hd s' x)) -> dq s' = dq s -> lone H s -> lone H s' /\ work s' = work s.
Proof.
  intros Ha Eq [Hb Hq].
  assert (Hf : forall j m, Z.land (Z.lnot SOFT) m = m -> flag s' j m = flag s j m) by (intros j m Hm; by apply alike_flag).
  split.
  - split; rewrite Eq; [|done]. intros j Hj. rewrite !Hf by done. by apply Hb.
  - apply sum_same. intros j _. unfold weight. by rewrite Eq, !Hf.
Qed.

Section One.
Context (raw : Z -> Z -> bool) (refuse : Z -> buf -> bool).
Context (nofault : forall m h, refuse m h = false).
Abbreviation binv := (binv raw true).
Abbreviation owned := (owned raw true).
Abbreviation holds := (holds raw true).
Abbreviation wp := (wp raw true).
Abbreviation ioq := (ioq true).

(** A transfer that ends leaves less to do. *)
Lemma lone_finish H s r : binv s -> lone H s -> r ∈ dq s -> lone H (finish r None s) /\ (work (finish r None s) < work s)%nat.
Proof.
  intros (av & cl & _ & Hs) Hl Hr. destruct (lo_dq _ _ Hl r Hr) as [i ->].
  destruct (so_req _ _ _ _ _ Hs _ Hr) as (Hb & _ & _ & Hi & _ & _ & Hdw).
  pose proof (finish_frame (Bufp i) None s) as Hf. destruct (finish_rest (Bufp i) None s) as (_ & Eq & _).
  rewrite donehd_dq in Eq. 
  assert (Hfl : forall m, flag (donehd (Bufp i) None s) i m = flag s i m || (B_DONE &? m)) by (intros m; apply donehd_flag).
  assert (Hnq : Bufp i ∉ dq (finish (Bufp i) None s)) by (rewrite Eq; by intros [? _]%list_elem_of_filter).
  assert (E : flag (finish (Bufp i) None s) i B_DELWRI = false /\
    (flag (finish (Bufp i) None s) i B_BUSY = true -> Bufp i ∈ H)).
  { rewrite finish_done. cbv zeta. fold (flag (donehd (Bufp i) None s) i B_ASYNC). 
    set (s1 := donehd (Bufp i) None s) in *. clearbody s1. destruct (flag s1 i B_ASYNC) eqn:Ha.
    - pose proof (pay_fields _ _ _ _ _ _ _ _ (brelse_pay (Bufp i) s1 ltac:(done))) as (Ef & _).
      unfold flag, has. rewrite Ef, tst_clr_other, (tst_clr_same _ REL B_BUSY) by done. split; [|done].
      fold (has s1 (Bufp i) B_DELWRI) (flag s1 i B_DELWRI). by rewrite Hfl, Hdw.
    - rewrite Hfl, orb_false_r in Ha. split.
      + unfold flag, has, bwakeup, bclr. simpl. rewrite decide_True by done. simpl. rewrite tst_clr_other by done.
        fold (has s1 (Bufp i) B_DELWRI) (flag s1 i B_DELWRI). by rewrite Hfl, Hdw.
      + intros _. destruct (lo_busy _ _ Hl i Hi Hb) as [?|[_ ?]]; [done|]. congruence. }
  destruct E as [E1 E2]. split.
  - eapply lone_step; [done|done|done|]. intros Hb'. left. by apply E2.
  - eapply work_less; [done|done|]. unfold weight. rewrite (decide_False (P := Bufp i ∈ dq (finish _ _ _))) by done.
    rewrite (decide_True (P := Bufp i ∈ dq s)) by done. rewrite E1, andb_false_r. lia.
Qed.

(** ** Runs that return *)

Abbreviation without H r := (filter (.≠ r) H).

Definition smooth (h : buf) : option Z := None.

Definition tw {A} (x : bres A) (Q : A -> upriv -> bst -> Prop) : Prop :=
  exists a u s, alone smooth x = Some (a, u, s) /\ Q a u s.

Lemma tw_bind {A C} (x : bres A) (f : A -> B C) Q : tw x (fun a u s => tw (f a u s) Q) -> tw (bres_bind x f) Q.
Proof.
  intros (a & u & s & E & Hq). induction x as [a' u' s'|w s' k IH|c p s' k IH|m| |]; cbn [alone] in E; try done.
  - by injection E as -> -> ->.
  - apply (IH s'), E.
  - unfold tw. cbn [alone bres_bind]. destruct (dq s') as [|r q]; [done|]. apply (IH (finish r (smooth (hd s' r)) s')), E.
Qed.

Lemma tw_mono {A} (x : bres A) (P Q : A -> upriv -> bst -> Prop) : tw x P -> (forall a u s, P a u s -> Q a u s) -> tw x Q.
Proof. intros (a & u & s & E & Hp) Hpq. exists a, u, s. auto. Qed.

Lemma tw_ret {A} (a : A) u s (Q : A -> upriv -> bst -> Prop) : Q a u s -> tw (Val a u s) Q.
Proof. intros Hq. by exists a, u, s. Qed.

Lemma tw_intr {C} w (f : unit -> B C) u s Q : tw (f tt u s) Q -> tw ((interrupts w ≫= f) u s) Q.
Proof. done. Qed.

(** What holds however a computation runs holds of this run. *)
Lemma wp_alone {A} (x : bres A) H s (P : A -> upriv -> list ref -> bst -> Prop) a u s' : binv s -> wp x H s P ->
  alone smooth x = Some (a, u, s') -> exists H', owned H' s' /\ P a u H' s'.
Proof.
  revert H s. induction x as [a' u' s1|w s1 k IH|c p s1 k IH|m| |]; intros H s Hi Hw E; cbn [alone Bcache.wp] in Hw, E; try done.
  - injection E as -> -> ->. destruct Hw as (H' & Hg & Hp). exists H'. split; [by eapply owned_guar|done].
  - destruct Hw as (H' & Hg & Hk). apply (IH s1 H' s1); [apply Hg|apply Hk, rtc_refl|done].
  - destruct Hw as (H' & Hg & Hk). destruct (dq s1) as [|r q] eqn:Eq; [done|].
    assert (Hio : ioq s1 (finish r None s1)) by (apply rtc_once, ioq_finish; [rewrite Eq; by left|done|done]).
    destruct (io_facts raw true _ _ (proj1 Hg) Hio) as (Hi2 & Hkp & _).
    apply (IH (finish r None s1) H' (finish r None s1)); [done| |done]. apply Hk. split; [done|]. split; [by intros|].
    by eapply ioq_calm; [apply Hg|].
Qed.

Lemma tw_wp {A} (x : bres A) H s P (Q : A -> upriv -> bst -> Prop) : binv s -> wp x H s P -> tw x Q ->
  tw x (fun a u s' => Q a u s' /\ exists H', owned H' s' /\ P a u H' s').
Proof.
  intros Hi Hw (a & u & s' & E & Hq). exists a, u, s'. split; [done|]. split; [done|]. by eapply wp_alone.
Qed.

(** A sleep with something to wait for. *)
Lemma tw_sleep {C} (f : unit -> B C) c p u H s Q : owned H s -> lone H s -> dq s <> [] ->
  (forall s', owned H s' -> lone H s' -> (work s' < work s)%nat -> ioq s s' -> tw (f tt u s') Q) ->
  tw ((bsleep c p ≫= f) u s) Q.
Proof.
  intros Ho Hl Hne Hk. unfold tw, mbind, b_bind, bsleep. cbn [alone bres_bind]. destruct (dq s) as [|r q] eqn:Eq; [done|].
  assert (Hr : r ∈ dq s) by (rewrite Eq; by left).
  assert (Hio : ioq s (finish r None s)) by (by apply rtc_once, ioq_finish).
  destruct (lone_finish _ _ _ (proj1 Ho) Hl Hr) as [Hl' Hw]. apply (Hk (finish r None s)); try done. by eapply owned_io.
Qed.

Lemma tw_want {C} (f : unit -> B C) x c p u H s Q : owned H s -> lone H s -> dq s <> [] ->
  (forall s', owned H s' -> lone H s' -> (work s' < work s)%nat -> ioq (bor x B_WANTED s) s' -> tw (f tt u s') Q) ->
  tw (((bput (bor x B_WANTED);; bsleep c p) ≫= f) u s) Q.
Proof.
  intros Ho Hl Hne Hk. destruct (guar_soft raw true H s x B_WANTED eq_refl Ho) as [Hg _].
  destruct (lone_soft H s (bor x B_WANTED s)) as [Hl' Hw]; [|done|done|].
  { intros z. unfold bor. rewrite hd_upd. case_decide; subst; [by apply alike_soft|apply alike_refl]. }
  apply (tw_sleep f c p u H (bor x B_WANTED s) Q); [by eapply owned_guar|done|done|]. intros s' Ho' Hl2 Hw2. apply Hk; try done. lia.
Qed.

(** Waiting for a request of the process. *)
Definition pending s i : Prop := Bufp i ∈ dq s \/ flag s i B_DONE = true.

Lemma pending_io s s' i H : owned H s -> Bufp i ∈ H -> held s (Bufp i) \/ Bufp i ∈ dq s -> pending s i -> ioq s s' ->
  pending s' i /\ (held s' (Bufp i) \/ Bufp i ∈ dq s').
Proof.
  intros Ho Hin Hh Hp Hio. destruct (io_facts raw true _ _ (proj1 Ho) Hio) as (_ & Hk & _). destruct (Hk (Bufp i)) as [K1 K2].
  destruct (decide (Bufp i ∈ dq s)) as [Hq|Hq].
  - destruct (proj2 Ho _ Hin) as [_ Ha]. destruct (K2 Hq (Ha Hq)) as [(Hq' & _)|(Hh' & err & He)].
    + split; [by left|by right].
    + split; [|by left]. right. unfold flag. rewrite (ended_flag _ _ _ _ B_DONE He) by done. destruct err; by rewrite orb_true_r.
  - destruct Hp as [?|Hd]; [done|]. destruct Hh as [Hh|?]; [|done]. destruct (K1 Hh) as (Hh' & Hal & _).
    split; [|by left]. right. unfold flag, has. by rewrite (alike_flag _ _ B_DONE Hal).
Qed.

Lemma await_tw fuel i pri u H s : owned H s -> lone H s -> Bufp i ∈ H -> pending s i -> (work s < fuel)%nat ->
  tw (await fuel (Bufp i) pri u s) (fun _ _ s' => owned H s' /\ lone H s').
Proof.
  revert s. induction fuel as [|fuel IH]; intros s Ho Hl Hin Hp Hw; [lia|]. cbn [await]. steps.
  destruct (has s (Bufp i) B_DONE) eqn:Hd; [by apply tw_ret|].
  assert (Hq : Bufp i ∈ dq s) by (destruct Hp as [?|Hd']; [done|unfold flag in Hd'; congruence]).
  eapply (tw_sleep (fun _ => await fuel (Bufp i) pri)); [done|done|by intros E; rewrite E in Hq; apply not_elem_of_nil in Hq|].
  intros s' Ho' Hl' Hw' Hio. apply IH; try done; [|lia].
  by destruct (pending_io s s' i H) as [? _]; auto.
Qed.

Lemma iowait_tw fuel i u H s : owned H s -> lone H s -> Bufp i ∈ H -> pending s i -> (FUEL <= fuel)%nat ->
  tw (iowait fuel (Bufp i) u s) (fun _ _ s' => owned H s' /\ lone H s').
Proof.
  intros Ho Hl Hin Hp Hf. pose proof (work_bound s). apply tw_bind. eapply tw_mono; [apply (await_tw _ _ _ _ H); try done; lia|].
  intros [] u' s' [Ho' Hl']. apply (tw_intr false). rewrite geterror_run. by apply tw_ret.
Qed.

(** ** Writes *)

Lemma lone_enqueued H H' s i : lone H s -> (forall x, x <> Bufp i -> x ∈ H -> x ∈ H') ->
  Bufp i ∈ H' \/ flag s i B_ASYNC = true -> lone H' (enqueued i s) /\ Bufp i ∈ dq (enqueued i s).
Proof.
  intros Hl Hsub Hi. assert (Hq : Bufp i ∈ dq (enqueued i s)) by (simpl; set_solver). split; [|done].
  eapply (lone_step i); [done| |done|].
  - split; [intros; apply alike_refl|done|]. intros x Hx. simpl. set_solver.
  - intros _. destruct Hi as [?|?]; [by left|by right].
Qed.

Lemma lone_brelse H s i : lone H s -> lone (without H (Bufp i)) (brelse (Bufp i) s).
Proof.
  intros Hl. eapply (lone_step i); [done|apply brelse_frame|by intros r Hr Hin; apply list_elem_of_filter|].
  pose proof (pay_fields _ _ _ _ _ _ _ _ (brelse_pay (Bufp i) s ltac:(done))) as (Ef & _).
  unfold flag, has. by rewrite Ef, (tst_clr_same _ REL B_BUSY).
Qed.

(** A header the process has stays one it has. *)
Lemma lone_own H s s' i : lone H s -> frame (Bufp i) s s' -> Bufp i ∈ H -> lone H s'.
Proof. intros Hl Hf Hin. eapply lone_step; [done|done|done|]. by left. Qed.

Lemma launched m r s : launch refuse m r s = set_dq (dq s ++ [r]) s.
Proof. unfold launch. by rewrite nofault. Qed.

Lemma bwrite_tw fuel i u H s : holds H s i -> lone H s -> bdev s i <> NODEV -> (FUEL <= fuel)%nat ->
  tw (bwrite refuse fuel (Bufp i) u s) (fun _ _ s' => lone (without H (Bufp i)) s').
Proof.
  intros Hh Hl Hd Hf. rewrite (bwrite_run raw true refuse H) by done. rewrite launched. fold (enqueued i (outgoing i s)). apply (tw_intr false).
  destruct (outgoing_holds raw true _ _ _ Hh) as [_ Hh1]. pose proof (outgoing_req raw true _ _ _ Hh Hd) as Hreq.
  destruct (enqueued_ok raw true _ _ _ Hh1 Hreq) as (_ & _ & Hg).
  assert (Hin : Bufp i ∈ H) by apply Hh.
  pose proof (lone_own _ _ _ _ Hl (outgoing_frame i s) Hin) as Hl1.
  assert (Ha1 : flag (outgoing i s) i B_ASYNC = flag s i B_ASYNC) by (rewrite outgoing_flag; by apply tst_clr_other).
  destruct (flag s i B_ASYNC) eqn:Ha; cbn [negb].
  - destruct (lone_enqueued H (without H (Bufp i)) (outgoing i s) i Hl1) as [Hl2 _]; [by intros x ? ?; apply list_elem_of_filter|by right|].
    destruct (flag s i B_DELWRI).
    + apply tw_ret. apply (lone_soft _ (enqueued i (outgoing i s))); [|done|done].
      intros z. unfold bor. rewrite hd_upd. case_decide; subst; [by apply alike_soft|apply alike_refl].
    + rewrite geterror_run. by apply tw_ret.
  - destruct (lone_enqueued H H (outgoing i s) i Hl1) as [Hl2 Hq]; [done|by left|].
    apply tw_bind. eapply tw_mono; [apply (iowait_tw _ _ _ H); [|done|done|by left|done]|].
    + by eapply owned_guar, Hg.
    + intros [] u' s3 [_ Hl3]. apply tw_ret. by apply lone_brelse.
Qed.

Lemma bawrite_tw fuel i u H s : holds H s i -> lone H s -> bdev s i <> NODEV -> (FUEL <= fuel)%nat ->
  tw (bawrite refuse fuel (Bufp i) u s) (fun _ _ s' => lone (without H (Bufp i)) s').
Proof.
  intros Hh Hl Hd Hf. unfold bawrite. steps. destruct (set_bits raw true H s i B_ASYNC Hh eq_refl eq_refl) as (_ & Hh' & Hfr & Ed & _).
  apply bwrite_tw; [done| |congruence|done]. eapply lone_own; [done|done|apply Hh].
Qed.

Lemma bdwrite_tw fuel i u H s : holds H s i -> lone H s -> bdev s i <> NODEV -> (FUEL <= fuel)%nat ->
  tw (bdwrite refuse fuel (Bufp i) u s) (fun _ _ s' => lone (without H (Bufp i)) s').
Proof.
  intros Hh Hl Hd Hf. unfold bdwrite. steps. case_match; [by apply bawrite_tw|]. steps. apply tw_ret, lone_brelse.
  destruct (set_bits raw true H s i (B_DELWRI |: B_DONE) Hh eq_refl eq_refl) as (_ & _ & Hfr & _).
  eapply lone_own; [done|done|apply Hh].
Qed.

(** ** Taking a buffer *)

(** Some buffer is on its way when the process has not all of them and none is available. *)
Lemma all_busy H s : binv s -> lone H s -> (length H < NBUF)%nat -> av_forw (hd s Bfreelist) = Bfreelist -> dq s <> [].
Proof.
  intros (av & cl & Hl & Hs) Hlo Hlen Hav Hq. apply (ring_empty _ _ _ _ (ln_av _ _ _ Hl)) in Hav.
  assert (Hsub : (Bufp <$> seq 0 NBUF) ⊆+ H).
  { apply NoDup_submseteq; [apply NoDup_fmap_2; [by intros ? ? [=]|apply NoDup_seq]|].
    intros r (i & -> & Hi%elem_of_seq)%list_elem_of_fmap.
    destruct (lo_busy _ _ Hlo i) as [?|[Hin _]]; [lia| |done|by rewrite Hq in Hin; apply not_elem_of_nil in Hin].
    destruct (flag s i B_BUSY) eqn:Hb; [done|]. apply (fi_av _ _ _ _ _ _ (so_fit _ _ _ _ _ Hs i ltac:(lia))) in Hb.
    destruct av; [by apply not_elem_of_nil in Hb|done]. }
  apply submseteq_length in Hsub. rewrite length_fmap, length_seq in Hsub. lia.
Qed.

(** The write of a buffer that was available is started. *)
Lemma behind_tw fuel i u H s s2 : owned H s -> lone H s -> (i < NBUF)%nat -> flag s i B_BUSY = false -> flag s i B_DELWRI = true ->
  holds (Bufp i :: H) s2 i -> frame (Bufp i) s s2 -> bdev s2 i <> NODEV -> flag s2 i B_ASYNC = true -> flag s2 i B_DELWRI = true ->
  tw (bwrite refuse fuel (Bufp i) u s2) (fun _ _ s' => lone H s' /\ (work s' < work s)%nat /\
    (forall d b j, names s' d b j -> names s2 d b j)).
Proof.
  intros Ho Hl Hi Hb Hd Hh Hfr Hnd Ha2 Hd2. destruct (idle_ready raw true _ _ (proj1 Ho) Hi Hb) as (_ & _ & _ & Hnq).
  assert (Hni : Bufp i ∉ H) by (by eapply (not_mine raw true)).
  rewrite (bwrite_run raw true refuse (Bufp i :: H)), Ha2, Hd2, launched by done. cbn [negb]. apply (tw_intr false).
  fold (enqueued i (outgoing i s2)). apply tw_ret.
  pose proof (outgoing_frame i s2) as Hfr3. destruct (outgoing_names i s2) as [Ed3 Eb3].
  assert (Hl3 : lone (Bufp i :: H) (outgoing i s2)).
  { eapply (lone_step i); [exact Hl|by eapply frame_trans|set_solver|left; set_solver]. }
  assert (Ha3 : flag (outgoing i s2) i B_ASYNC = true) by (rewrite outgoing_flag, tst_clr_other by done; exact Ha2).
  destruct (lone_enqueued (Bufp i :: H) H (outgoing i s2) i Hl3) as [Hl4 Hq4]; [set_solver|by right|].
  assert (Hfr4 : frame (Bufp i) (outgoing i s2) (enqueued i (outgoing i s2))).
  { split; [intros; apply alike_refl|done|]. intros x Hx. simpl. set_solver. }
  set (s4 := enqueued i (outgoing i s2)) in *.
  assert (Hsoft : forall z, alike (hd s4 z) (hd (bor (Bufp i) B_AGE s4) z)).
  { intros z. unfold bor. rewrite hd_upd. case_decide; subst; [by apply alike_soft|apply alike_refl]. }
  destruct (lone_soft H s4 (bor (Bufp i) B_AGE s4) Hsoft eq_refl Hl4) as [Hl5 ->].
  assert (Hfall : frame (Bufp i) s2 s4) by (by eapply frame_trans).
  split; [done|]. split.
  - eapply (work_less i); [by eapply frame_trans|done|]. unfold weight. rewrite (decide_True (P := Bufp i ∈ dq s4)) by done.
    rewrite (decide_False (P := Bufp i ∈ dq s)) by done. rewrite Hb, Hd. simpl. lia.
  - intros d b j (Hd' & Ed & Eb). destruct (alike_names _ _ (Hsoft (Bufp j))) as [E1 E2]. unfold bdev, bblk in Ed, Eb.
    rewrite E1 in Ed. rewrite E2 in Eb. fold (bdev s4 j) in Ed. fold (bblk s4 j) in Eb. split; [done|].
    destruct (decide (j = i)) as [->|Hne].
    + change (bdev s4 i) with (bdev (outgoing i s2) i) in Ed. change (bblk s4 i) with (bblk (outgoing i s2) i) in Eb.
      split; congruence.
    + destruct (frame_names (Bufp i) s2 s4 j Hfall) as [F1 F2]; [congruence|]. split; congruence.
Qed.

(** [oldest]: a buffer, or one write less to start. *)
Lemma oldest_tw fuel u H s : owned H s -> lone H s -> av_forw (hd s Bfreelist) <> Bfreelist -> (FUEL <= fuel)%nat ->
  tw (oldest refuse fuel u s) (fun o _ s' =>
    match o with
    | Some r => lone (r :: H) s'
    | None => lone H s' /\ (work s' < work s)%nat /\ forall d b j, names s' d b j -> names s d b j
    end).
Proof.
  intros Ho Hl Hav Hf. destruct (first_avail raw true _ (proj1 Ho)) as [|(i & Ei & Hi & Hb)]; [done|].
  destruct (notavail_guar raw true refuse (fun _ => nofault) _ _ _ Ho Hi Hb) as (_ & Hh & _ & Hr & Hfl & Hn).
  pose proof (notavail_frame (Bufp i) s) as Hfr. unfold oldest. steps. rewrite Ei.
  change (has (notavail (Bufp i) s) (Bufp i) B_DELWRI) with (flag (notavail (Bufp i) s) i B_DELWRI).
  set (s1 := notavail (Bufp i) s) in *.
  assert (Hl1 : lone (Bufp i :: H) s1) by (eapply lone_step; [done|done|set_solver|left; set_solver]).
  destruct (flag s1 i B_DELWRI) eqn:Hdw; [|by apply tw_ret]. steps. assert (Hds : flag s i B_DELWRI = true) by (by rewrite <- Hfl).
  destruct (set_async raw true _ _ _ Hh Hr Hdw) as (_ & Hh2 & Hr2 & Hdw2 & Ha2 & _).
  destruct (set_bits raw true _ s1 i B_ASYNC Hh eq_refl eq_refl) as (_ & _ & Hfr2 & Ed2 & Eb2 & _).
  set (s2 := bor (Bufp i) B_ASYNC s1) in *. destruct (proj1 Hr2 Hdw2) as (_ & _ & Hnd).
  assert (Hfs : frame (Bufp i) s s2) by (by eapply frame_trans).
  apply tw_bind. eapply tw_mono; [by apply (behind_tw fuel i u H s s2)|]. intros [] u' s' (Hl' & Hw & Hnm). apply tw_ret.
  split; [done|]. split; [done|]. intros d b j Hj. apply Hn. destruct (Hnm d b j Hj) as (Hd & Ed & Eb). split; [done|].
  destruct (decide (j = i)) as [->|Hne]; [split; congruence|].
  destruct (frame_names (Bufp i) s1 s2 j Hfr2) as [F1 F2]; [congruence|]. split; congruence.
Qed.

Abbreviation nf := (fun _ => nofault).

(** The buffers the process has are for other blocks. *)
Definition elsewhere H s (dev blkno : Z) : Prop := forall i, (i < NBUF)%nat -> Bufp i ∈ H -> ~ names s dev blkno i.

Lemma elsewhere_mono H s s' dev blkno : (forall i, names s' dev blkno i -> names s dev blkno i) ->
  elsewhere H s dev blkno -> elsewhere H s' dev blkno.
Proof. intros Hn He i Hlt Hi Hi'. by apply (He i Hlt Hi), Hn. Qed.

Lemma names_soft x s dev blkno i : names (bor x B_WANTED s) dev blkno i <-> names s dev blkno i.
Proof.
  unfold names, bdev, bblk, bor. rewrite hd_upd. destruct (decide (Bufp i = x)) as [<-|]; by simpl.
Qed.

Lemma elsewhere_want H s s' x dev blkno : owned H s -> ioq (bor x B_WANTED s) s' -> elsewhere H s dev blkno ->
  elsewhere H s' dev blkno.
Proof.
  intros Ho Hio. destruct (guar_soft raw true H s x B_WANTED eq_refl Ho) as [Hg _].
  destruct (io_facts raw true _ _ (proj1 Hg) Hio) as (_ & _ & _ & Hn). apply elsewhere_mono. intros i Hi.
  by apply (names_soft x), Hn.
Qed.

Lemma lone_grab H s i h g : lone (Bufp i :: H) s ->
  lone (Bufp i :: H) (upd_hd (Bufp i) g (enchain h (Bufp i) (unchain (Bufp i) (upd_hd (Bufp i) (set_b_flags B_BUSY) s)))).
Proof.
  intros Hl. eapply (lone_own _ _ _ i); [exact Hl| |set_solver]. eapply frame_trans; [|apply frame_upd].
  eapply frame_trans; [|apply enchain_frame]. eapply frame_trans; [|apply unchain_frame]. apply frame_upd.
Qed.

Lemma getblk_loop_tw H s dev blkno fuel u : owned H s -> lone H s -> (length H < NBUF)%nat -> elsewhere H s dev blkno ->
  0 <= major dev < nblkdev -> (FUEL + work s < fuel)%nat ->
  tw (getblk_loop refuse fuel dev blkno u s) (fun r _ s' => lone (r :: H) s').
Proof.
  intros Ho Hl Hlen He Hm. revert s Ho Hl He. induction fuel as [|fuel IH]; intros s Ho Hl He Hf; [lia|].
  cbn [getblk_loop]. apply (tw_intr false). destruct (d_tab_valid raw dev Hm) as [Et _]. rewrite Et. cbv zeta.
  rewrite decide_False by done. steps.
  destruct (find_blk_spec raw true s dev blkno (proj1 Ho) Hm) as [(i & -> & Hi & Hn)|(-> & Hno)];
    (apply (tw_intr true); steps).
  - destruct (has s (Bufp i) B_BUSY) eqn:Hb; steps.
    + eapply (tw_want (fun _ => getblk_loop refuse fuel dev blkno) _ _ _ _ H s); [done|done| |].
      * destruct (lo_busy _ _ Hl i Hi Hb) as [Hin|[Hq _]]; [by destruct (He i Hi Hin)|].
        intros E. rewrite E in Hq. by apply not_elem_of_nil in Hq.
      * intros s' Ho' Hl' Hw Hio. apply IH; try done; [eapply elsewhere_want; [exact Ho|exact Hio|exact He]|lia].
    + apply (tw_intr false). steps. apply tw_ret. set (s1 := count_depth (Bufp i) s).
      assert (E1 : hd s1 = hd s /\ dq s1 = dq s) by (unfold s1, count_depth; cbv zeta; by case_match).
      destruct (lone_soft H s s1) as [Hl1 _]; [intros x; rewrite (proj1 E1); apply alike_refl|apply E1|done|].
      eapply lone_step; [exact Hl1|apply notavail_frame|set_solver|left; set_solver].
  - case_decide as Hav; steps.
    + eapply (tw_want (fun _ => getblk_loop refuse fuel dev blkno) _ _ _ _ H s); [done|done|by apply (all_busy H); [apply Ho|..]|].
      intros s' Ho' Hl' Hw Hio. apply IH; try done; [eapply elsewhere_want; [exact Ho|exact Hio|exact He]|lia].
    + apply (tw_intr false). apply tw_bind. eapply tw_mono.
      { eapply (tw_wp _ H s); [apply Ho|by apply (oldest_spec raw true refuse nf)|apply (oldest_tw _ _ H); try done; lia]. }
      intros [r|] u' s' [HQ (H' & Ho' & -> & _ & HP)].
      * destruct HP as (i & -> & _). apply tw_ret. by apply lone_grab.
      * subst H'. destruct HQ as (Hl' & Hw & Hn). apply IH; try done; [|lia]. by eapply elsewhere_mono; [intros i; apply Hn|].
Qed.

(** Room for any call. *)
Definition CALL_FUEL : nat := 2 * FUEL.

Lemma getblk_tw H s dev blkno fuel u : owned H s -> lone H s -> (length H < NBUF)%nat -> elsewhere H s dev blkno ->
  0 <= major dev < nblkdev -> raw dev blkno = false -> (CALL_FUEL <= fuel)%nat ->
  tw (getblk refuse fuel dev blkno u s) (fun r u' s' => lone (r :: H) s' /\ exists H', got raw true dev blkno s u H r u' H' s').
Proof.
  intros Ho Hl Hlen He Hm Hraw Hf. eapply tw_mono.
  - eapply (tw_wp _ H s); [apply Ho|by apply (getblk_spec raw true refuse nf)|]. unfold getblk.
    assert (E : (major dev <? 0) || (nblkdev <=? major dev) = false) by (bool_cases; simpl; lia). rewrite E.
    apply (getblk_loop_tw H); try done. pose proof (work_bound s). unfold CALL_FUEL in *. lia.
  - intros r u' s' [HQ (H' & _ & HP)]. split; [done|]. by exists H'.
Qed.

(** ** Reads *)

(** A read the process started. *)
Lemma started_read {C} (k : B C) H s i dev blkno f u Q : unread raw true dev blkno (Bufp i :: H) s i -> lone (Bufp i :: H) s ->
  0 <= major dev < nblkdev ->
  (forall s', owned (Bufp i :: H) s' -> lone (Bufp i :: H) s' -> pending s' i -> tw (k u s') Q) ->
  tw (bres_bind (start_read refuse dev (Bufp i) B_READ u s) (fun _ u s => k u (set_io_info (f (io_info s)) s))) Q.
Proof.
  intros Hun Hl Hm Hk. destruct (launched_read raw true refuse nf _ _ _ _ _ Hun Hm) as (Hg & _ & _).
  rewrite start_read_run by done. apply Hk.
  - destruct (guar_count raw true (Bufp i :: H) (launch refuse (major dev) (Bufp i) (incoming B_READ i s))
      (set_io_info (f (io_info (launch refuse (major dev) (Bufp i) (incoming B_READ i s))))
        (launch refuse (major dev) (Bufp i) (incoming B_READ i s)))) as [Hg3 _]; [done|done|by eapply owned_guar|by eapply owned_guar].
  - rewrite launched. destruct (lone_enqueued (Bufp i :: H) (Bufp i :: H) (incoming B_READ i s) i) as [Hl' Hq]; [|done|left; set_solver|].
    { eapply (lone_own _ _ _ i); [done| |set_solver]. unfold incoming. frames. }
    by apply (lone_soft _ (enqueued i (incoming B_READ i s))); [intros x; apply alike_refl|..].
  - left. rewrite launched. simpl. set_solver.
Qed.

Lemma bread_tw H s dev blkno fuel u : owned H s -> lone H s -> (length H < NBUF)%nat -> elsewhere H s dev blkno ->
  0 <= major dev < nblkdev -> raw dev blkno = false -> (CALL_FUEL <= fuel)%nat ->
  tw (bread refuse fuel dev blkno u s) (fun r _ s' => lone (r :: H) s').
Proof.
  intros Ho Hl Hlen He Hm Hraw Hf. apply tw_bind. eapply tw_mono; [by apply (getblk_tw H)|].
  intros r u' s1 [Hl1 (H' & i & -> & -> & -> & Hni & Hh & Hn & Hr & Hne & Ha & _)]. steps.
  change (has s1 (Bufp i) B_DONE) with (flag s1 i B_DONE). destruct (flag s1 i B_DONE) eqn:Hd.
  - apply tw_ret. by apply (lone_soft _ s1); [intros x; apply alike_refl|..].
  - assert (Hun : unread raw true dev blkno (Bufp i :: H) s1 i) by (by split_and!).
    eapply (started_read (iowait fuel (Bufp i);; mret (Bufp i)) _ _ _ _ _ (fun c => set_nread (nread c + 1) c)); [done|done|done|].
    intros s2 Ho2 Hl2 Hp2. apply tw_bind. eapply tw_mono; [apply (iowait_tw _ _ _ (Bufp i :: H)); try done; [set_solver|unfold CALL_FUEL in *; lia]|].
    intros [] u' s' [_ Hl']. by apply tw_ret.
Qed.

Lemma ahead_tw H s dev rablkno fuel u : owned H s -> lone H s -> (length H < NBUF)%nat ->
  0 <= major dev < nblkdev -> (rablkno <> 0 -> raw dev rablkno = false) -> (CALL_FUEL <= fuel)%nat ->
  tw (breada_ahead refuse fuel dev rablkno u s) (fun _ _ s' => lone H s').
Proof.
  intros Ho Hl Hlen Hm Hraw Hf. unfold breada_ahead. destruct (Z.eqb_spec rablkno 0); [by apply tw_ret|].
  unfold incore, mbind, b_bind, bget. cbn [bres_bind].
  destruct (find_blk_spec raw true s dev rablkno (proj1 Ho) Hm) as [(i & -> & Hi & Hn)|(-> & Hno)]; [by apply tw_ret|].
  cbn [mret b_ret bres_bind]. rewrite bool_decide_eq_false_2 by auto.
  assert (He : elsewhere H s dev rablkno) by (intros i Hi _; by apply Hno).
  apply tw_bind. eapply tw_mono; [by apply (getblk_tw H); auto|].
  intros r u' s1 [Hl1 (H' & i & -> & -> & -> & Hni & Hh & Hn & Hr & Hne & Ha & _)]. cbn [bres_bind bget].
  assert (Ew : without (Bufp i :: H) (Bufp i) = H) by (by apply filter_ne_cons).
  destruct (has s1 (Bufp i) B_DONE).
  - apply tw_ret. rewrite <- Ew. by apply lone_brelse.
  - unfold mbind, b_bind. rewrite start_read_run by done. apply (tw_intr false (fun _ => count _)). rewrite count_run, launched. apply tw_ret.
    fold (enqueued i (incoming (B_READ |: B_ASYNC) i s1)).
    destruct (lone_enqueued (Bufp i :: H) H (incoming (B_READ |: B_ASYNC) i s1) i) as [Hl' _].
    + eapply (lone_own _ _ _ i); [done| |set_solver]. unfold incoming. frames.
    + set_solver.
    + right. rewrite incoming_flag. by rewrite orb_true_r.
    + by apply (lone_soft _ (enqueued i (incoming (B_READ |: B_ASYNC) i s1))); [intros x; apply alike_refl|..].
Qed.

Lemma reading_pending H s i dev blkno : reading raw true dev blkno H s i -> pending s i.
Proof.
  intros (_ & s0 & _ & _ & _ & _ & _ & Hu). destruct (flag s i B_DONE) eqn:Hd; [by right|].
  left. by eapply underway_wait.
Qed.

Lemma breada_tw s dev blkno rablkno fuel u : owned [] s -> lone [] s -> 0 <= major dev < nblkdev -> raw dev blkno = false ->
  (rablkno <> 0 -> raw dev rablkno = false) -> (CALL_FUEL <= fuel)%nat ->
  tw (breada refuse fuel dev blkno rablkno u s) (fun r _ s' => lone [r] s').
Proof.
  intros Ho Hl Hm Hraw Hrr Hf.
  assert (Hfirst : tw (breada_first refuse fuel dev blkno u s) (fun o _ s' => lone (option_list o) s')).
  { unfold breada_first. destruct (incore_run raw true s dev blkno u (proj1 Ho) Hm) as [here E].
    unfold mbind, b_bind at 1. rewrite E. cbn [bres_bind]. destruct here; [by apply tw_ret|].
    apply tw_bind. eapply tw_mono; [apply (getblk_tw []); try done; [unfold NBUF; simpl; lia|intros ? _ []%not_elem_of_nil]|].
    intros r u' s1 [Hl1 (H' & i & -> & -> & -> & Hni & Hh & Hn & Hr & Hne & Ha & _)]. steps.
    change (has s1 (Bufp i) B_DONE) with (flag s1 i B_DONE). destruct (flag s1 i B_DONE) eqn:Hd; [by apply tw_ret|].
    assert (Hun : unread raw true dev blkno [Bufp i] s1 i) by (by split_and!).
    apply tw_bind. eapply (started_read (mret tt) _ _ _ _ _ (fun c => set_nread (nread c + 1) c)); [done|done|done|].
    intros s2 _ Hl2 _. by apply tw_ret, tw_ret. }
  apply tw_bind. eapply tw_mono; [eapply (tw_wp _ [] s); [apply Ho|by apply (first_spec raw true refuse nf)|exact Hfirst]|].
  intros [r|] u1 s1 [Hl1 (H1 & Ho1 & -> & _ & Hq)]; apply tw_bind.
  - destruct Hq as (i & -> & -> & Hni & Hi & Hmi & Hst).
    assert (Ho0 : owned [] s1) by (split; [apply Ho1|intros ? []%not_elem_of_nil]).
    eapply tw_mono.
    { eapply (tw_wp _ [Bufp i] s1); [apply Ho1| |apply (ahead_tw [Bufp i]); try done; unfold NBUF; simpl; lia].
      apply (wp_aside raw true refuse nf); [apply Ho1|done|done|]. by apply (ahead_spec raw true refuse nf). }
    intros [] u' s2 [Hl2 (H' & Ho2 & H0 & -> & _ & (_ & -> & _) & Hk)].
    apply tw_bind. eapply tw_mono; [apply (iowait_tw _ _ _ [Bufp i]); [done|done|set_solver| |unfold CALL_FUEL in *; lia]|].
    + destruct Hst as [Hp|Hrd].
      * destruct (present_kept raw true _ _ _ _ _ _ Hp Ho2 Hk) as (_ & _ & _ & _ & _ & Hd). by right.
      * eapply reading_pending, reading_kept; [apply Ho1|done|done|done].
    + intros [] u2 s3 [_ Hl3]. by apply tw_ret.
  - subst H1. eapply tw_mono.
    { eapply (tw_wp _ [] s1); [apply Ho1|by apply (ahead_spec raw true refuse nf)|].
      apply (ahead_tw []); try done; unfold NBUF; simpl; lia. }
    intros [] u' s2 [Hl2 (H' & Ho2 & _ & -> & _)]. apply (bread_tw []); try done; [unfold NBUF; simpl; lia|].
    intros ? _ []%not_elem_of_nil.
Qed.

(** ** Flushing *)

Lemma bflush_tw H s dev fuel u : owned H s -> lone H s -> (FUEL + work s < fuel)%nat ->
  tw (bflush refuse fuel dev u s) (fun _ _ s' => lone H s').
Proof.
  revert s. induction fuel as [|fuel IH]; intros s Ho Hl Hf; [lia|]. cbn [bflush]. steps.
  pose proof (proj1 Ho) as (av & cl & Hln & Hs). destruct (avail_short raw true _ _ _ Hln Hs) as [_ Hsh].
  destruct (ln_av _ _ _ Hln) as [_ Hsg].
  destruct (due_spec raw true refuse nf s av Bfreelist NBUF dev Hsg Hsh) as [(i & -> & Hi & Hd)|(-> & Hno)]; [|by apply tw_ret].
  steps. pose proof (so_av _ _ _ _ _ Hs i Hi) as Hlt.
  assert (Hb : flag s i B_BUSY = false) by (by apply (fi_av _ _ _ _ _ _ (so_fit _ _ _ _ _ Hs i Hlt))).
  destruct (notavail_guar raw true refuse nf _ _ _ Ho Hlt Hb) as (_ & Hh1 & _ & Hr1 & Hf1 & _).
  assert (Hd1 : flag (notavail (Bufp i) s) i B_DELWRI = true) by (by rewrite Hf1).
  destruct (set_async raw true _ _ _ Hh1 Hr1 Hd1) as (_ & Hh2 & Hr2 & Hd2 & Ha2 & _).
  destruct (async_notavail s i) as (Hpay & Hlk & Hrs).
  set (s2 := bor (Bufp i) B_ASYNC (notavail (Bufp i) s)) in *.
  set (s3 := notavail (Bufp i) (bor (Bufp i) B_ASYNC s)) in *.
  destruct (soft_step raw true s2 s3) as (Hi3 & Hk3 & _); [apply Hh2|intros x; by apply pay_alike|done|done|].
  pose proof (guar_all raw true _ _ _ (proj1 Hh2) Hi3 Hk3) as Hg3. pose proof (owned_guar _ _ _ _ _ _ Hg3) as Ho3.
  destruct (holds_kept raw true _ _ _ _ Hh2 Ho3 (Hk3 _)) as (Hh3 & _ & Hr3 & Hf3 & _).
  assert (Hfr : frame (Bufp i) s s3) by (eapply frame_trans; [apply frame_upd|apply notavail_frame]).
  assert (Hni : Bufp i ∉ H) by (by eapply (not_mine raw true)).
  assert (Hd3 : flag s3 i B_DELWRI = true) by (by rewrite Hf3). assert (Ha3 : flag s3 i B_ASYNC = true) by (by rewrite Hf3).
  pose proof (Hr3 Hr2) as Hrd. destruct (proj1 Hrd Hd3) as (_ & _ & Hnd).
  apply tw_bind. eapply tw_mono.
  { eapply (tw_wp _ (Bufp i :: H) s3); [apply Hh3| |by apply (behind_tw fuel i u H s s3)].
    by apply (write_behind raw true refuse nf). }
  intros [] u' s4 [(Hl4 & Hw4 & _) (H' & Ho4 & -> & -> & _)]. apply IH; try done. lia.
Qed.

(** ** A memory of blocks *)

Definition bmem : Type := Z -> Z -> list Z.

Definition mem_call (c : call) (m : bmem) : option (list Z) * bmem :=
  match c with
  | Read d b | Reada d b _ => (Some (m d b), m)
  | Write _ d b x => (None, fun d' b' => if (d' =? d) && (b' =? b) then x else m d' b')
  | Flush _ => (None, m)
  end.

Fixpoint mem_calls (cs : list call) (m : bmem) : list (option (list Z)) * bmem :=
  match cs with
  | [] => ([], m)
  | c :: cs => let (a, m1) := mem_call c m in let (l, m2) := mem_calls cs m1 in (a :: l, m2)
  end.

(** The blocks read as [m] has them. *)
Definition reads_as (m : bmem) s : Prop := forall d b, d <> NODEV -> raw d b = false -> view s d b = m d b.

(** Between two calls of the only process. *)
Definition settled (m : bmem) s : Prop := owned [] s /\ lone [] s /\ reads_as m s.

Lemma reads_as_result c s s' a m : call_ok raw c -> reads_as m s -> call_result raw c s a s' ->
  a = fst (mem_call c m) /\ reads_as (snd (mem_call c m)) s'.
Proof.
  intros Hok Hm. assert (Hv : forall s', viewsame raw s s' -> reads_as m s').
  { intros s1 Hv d b Hd Hraw. rewrite (Hv d b Hd Hraw). by apply Hm. }
  destruct c as [d b|d b ra|h d b x|d]; simpl.
  - intros [-> Hv']. split; [|by apply Hv]. destruct Hok as [Hmj Hraw]. f_equal. apply Hm; [|done]. by apply (major_nodev d); lia.
  - intros [-> Hv']. split; [|by apply Hv]. destruct Hok as [[Hmj Hraw] _]. f_equal. apply Hm; [|done]. by apply (major_nodev d); lia.
  - intros [-> Hw]. split; [done|]. intros d' b' Hd Hraw. rewrite (Hw d' b' Hd Hraw). case_match; [done|]. by apply Hm.
  - intros (-> & Hv' & _). split; [done|]. by apply Hv.
Qed.

Lemma release_tw H u s r : lone (r :: H) s -> (exists i, r = Bufp i /\ Bufp i ∉ H) -> tw (release r u s) (fun _ _ s' => lone H s').
Proof.
  intros Hl (i & -> & Hni). unfold release. steps. apply tw_ret.
  rewrite <- (filter_ne_cons (Bufp i) H Hni). by apply lone_brelse.
Qed.

Lemma put_block_tw h fuel i u H s : holds H s i -> lone H s -> bdev s i <> NODEV -> (FUEL <= fuel)%nat ->
  tw (put_block refuse h fuel (Bufp i) u s) (fun _ _ s' => lone (without H (Bufp i)) s').
Proof. destruct h; [apply bwrite_tw|apply bdwrite_tw|apply bawrite_tw]. Qed.

Lemma call_returns fuel c s u : (CALL_FUEL <= fuel)%nat -> owned [] s -> lone [] s -> call_ok raw c ->
  tw (do_call refuse fuel c u s) (fun _ _ s' => lone [] s').
Proof.
  assert (H0 : (length (@nil ref) < NBUF)%nat) by (unfold NBUF; simpl; lia).
  assert (He : forall s d b, elsewhere [] s d b) by (intros ? ? ? ? _ []%not_elem_of_nil).
  intros Hfu Ho Hl Hok. destruct c as [d b|d b ra|h d b x|d]; simpl do_call; apply tw_bind.
  - destruct Hok as [Hm Hraw]. eapply tw_mono.
    { eapply (tw_wp _ [] s); [apply Ho|by apply (bread_spec raw true refuse nf)|by apply (bread_tw [])]. }
    intros r u' s1 [Hl1 (H' & _ & i & -> & -> & Hni & _)]. apply release_tw; eauto.
  - destruct Hok as [[Hm Hraw] Hra]. eapply tw_mono.
    { eapply (tw_wp _ [] s); [apply Ho|by apply (breada_spec raw true refuse nf)|by apply breada_tw]. }
    intros r u' s1 [Hl1 (H' & _ & i & -> & -> & Hni & _)]. apply release_tw; eauto.
  - destruct Hok as [[Hm Hraw] Hx]. eapply tw_mono; [by apply (getblk_tw [])|].
    intros r u' s1 [Hl1 (H' & i & -> & -> & -> & Hni & Hh & Hn & Hr & Hne & Ha & _)]. steps.
    destruct (fill_holds raw true [Bufp i] s1 i x Hh Hx Hne) as (_ & Hh2 & Hfr & _). destruct Hn as (Hnd & Ed & _).
    apply tw_bind. eapply tw_mono; [apply (put_block_tw h fuel i u [Bufp i]); [done| | |unfold CALL_FUEL in *; lia]|].
    + eapply lone_own; [done|done|set_solver].
    + change (bdev s1 i <> NODEV). congruence.
    + intros [] u' s3 Hl3. apply tw_ret. by rewrite (filter_ne_cons (Bufp i) []) in Hl3.
  - eapply tw_mono; [apply (bflush_tw []); [done|done|pose proof (work_bound s); unfold CALL_FUEL in *; lia]|].
    intros [] u' s' Hl'. by apply tw_ret.
Qed.

Lemma call_refines fuel c m s u : (CALL_FUEL <= fuel)%nat -> settled m s -> call_ok raw c ->
  tw (do_call refuse fuel c u s) (fun a _ s' => a = fst (mem_call c m) /\ settled (snd (mem_call c m)) s').
Proof.
  intros Hfu (Ho & Hl & Hm) Hok. eapply tw_mono.
  { eapply (tw_wp _ [] s); [apply Ho|by apply (call_spec refuse raw true nf)|by apply call_returns]. }
  intros a u' s' [Hl' (H' & Ho' & -> & Hr)]. specialize (Hr eq_refl).
  by destruct (reads_as_result c s s' a m Hok Hm Hr) as [Ha Hm'].
Qed.

Lemma calls_refine fuel cs m s u : (CALL_FUEL <= fuel)%nat -> settled m s -> Forall (call_ok raw) cs ->
  tw (do_calls refuse fuel cs u s) (fun l _ s' => l = fst (mem_calls cs m) /\ settled (snd (mem_calls cs m)) s').
Proof.
  intros Hfu. revert m s u. induction cs as [|c cs IH]; intros m s u Hs Hok; [by apply tw_ret|].
  apply Forall_cons in Hok as [Hc Hcs]. apply tw_bind. eapply tw_mono; [by apply (call_refines fuel c m)|].
  intros a u1 s1 (-> & Hs1). simpl. destruct (mem_call c m) as [a m1]. simpl in *.
  apply tw_bind. eapply tw_mono; [by apply (IH m1)|]. intros l u2 s2 (-> & Hs2). apply tw_ret.
  by destruct (mem_calls cs m1) as [l m2].
Qed.

(** What [binit] leaves. *)
Definition disk (p : Z -> Z -> Z) : bmem := block (bst0 p).

Lemma binit_settled p : settled (disk p) (binit (bst0 p)).
Proof.
  pose proof (binit_binv raw true p) as Hi. pose proof (binit_header p) as Hh.
  assert (Hq : dq (binit (bst0 p)) = []) by (vm_compute; reflexivity).
  assert (Hp : platter (binit (bst0 p)) = p) by (vm_compute; reflexivity).
  revert Hi Hh Hq Hp. generalize (binit (bst0 p)). intros s Hi Hh Hq Hp. split_and!.
  - split; [done|]. intros r []%not_elem_of_nil.
  - split; [|rewrite Hq; intros r []%not_elem_of_nil]. intros i Hlt Hb. destruct (Hh i Hlt) as [? _]. congruence.
  - intros d b Hd Hraw. rewrite view_block; [by apply block_same|]. intros i Hlt (_ & Ed & _). destruct (Hh i Hlt) as (_ & E & _). congruence.
Qed.

(** ** The end of a flush *)

Lemma lone_io H s s' : binv s -> ioq s s' -> lone H s -> lone H s'.
Proof.
  intros Hi Hio. revert Hi. induction Hio as [|s1 s2 s3 [r err Hr Hqe Hk] Hio IH]; [done|]. intros Hi Hl.
  rewrite (Hqe eq_refl) in *. apply IH; [by eapply io_binv|]. by apply lone_finish.
Qed.

(** Every queue can be emptied. *)
Lemma drains s : binv s -> exists s', ioq s s' /\ dq s' = [].
Proof.
  remember (length (dq s)) as n eqn:En. revert s En. induction n as [n IH] using lt_wf_ind. intros s -> Hi.
  destruct (dq s) as [|r q] eqn:Eq; [exists s; split; [apply rtc_refl|done]|].
  assert (Hr : r ∈ dq s) by (rewrite Eq; by left).
  assert (Hlt : (length (dq (finish r None s)) < length (r :: q))%nat).
  { destruct (finish_rest r None s) as (_ & -> & _). rewrite donehd_dq, Eq. rewrite filter_cons_False by (intros Hx; by apply Hx).
    simpl. apply Nat.lt_succ_r, length_filter. }
  destruct (IH _ Hlt _ eq_refl) as (s' & Hio & Hq); [by apply io_binv|]. exists s'. split; [|done].
  by eapply rtc_l; [apply ioq_finish|].
Qed.

(** With nothing busy and no write due the devices have what the cache has. *)
Lemma clean_block m s d b : settled m s -> dq s = [] -> flushed NODEV s -> d <> NODEV -> raw d b = false -> block s d b = m d b.
Proof.
  intros ([(av & cl & Hl & Hs) _] & Hlo & Hm) Hq Hfl Hd Hraw. rewrite <- (Hm d b Hd Hraw). unfold view.
  destruct (holder s d b) as [i|] eqn:Eh; [|done]. unfold holder in Eh. apply fmap_Some in Eh as ([k z] & Hf & ->).
  apply list_find_Some in Hf as (Hk & [(_ & Ed & Eb) Hv] & _). apply lookup_seq in Hk as [-> Hlt]. simpl in *.
  assert (Hb : flag s k B_BUSY = false).
  { destruct (flag s k B_BUSY) eqn:Hb; [|done]. destruct (lo_busy _ _ Hlo k Hlt Hb) as [Hin|[Hin _]].
    - by apply not_elem_of_nil in Hin.
    - rewrite Hq in Hin. by apply not_elem_of_nil in Hin. }
  assert (Hdw : flag s k B_DELWRI = false).
  { destruct (flag s k B_DELWRI) eqn:Hd'; [|done]. by destruct (Hfl k Hlt Hb Hd'). }
  rewrite valid_held in Hv by (rewrite Hq; apply not_elem_of_nil). apply andb_true_iff in Hv as [Hv _].
  pose proof (so_fit _ _ _ _ _ Hs k Hlt) as F. rewrite (fi_clean _ _ _ _ _ _ F); [by rewrite Ed, Eb| |congruence|done|done].
  by apply (fi_av _ _ _ _ _ _ F).
Qed.

End One.

(** ** Results *)

(** No block is kept for raw transfers. *)
Definition cached (d b : Z) : bool := false.

Definition user0 : upriv := Upriv 0 0 0 0 0 0 [] 0.

(** C1. The buffer cache is a memory of blocks.  After [binit], with one process and no
    transfer failing, any calls of [bread], [breada], [bwrite], [bdwrite], [bawrite] and
    [bflush] on blocks of the devices all return, each read has the words last written to
    its block or else those on the device, and at the end every block reads as the last
    write left it, whatever is still delayed or in a queue. *)
Theorem cache_is_memory refuse p fuel cs : (forall m h, refuse m h = false) -> (CALL_FUEL <= fuel)%nat ->
  Forall (call_ok cached) cs ->
  exists u s, alone smooth (do_calls refuse fuel cs user0 (binit (bst0 p))) = Some (fst (mem_calls cs (disk p)), u, s) /\
    forall d b, d <> NODEV -> view s d b = snd (mem_calls cs (disk p)) d b.
Proof.
  intros Hn Hf Hok. destruct (calls_refine cached refuse Hn fuel cs (disk p) (binit (bst0 p)) user0) as (l & u & s & E & -> & Hs);
    [done|apply binit_settled|done|]. exists u, s. split; [done|]. intros d b Hd. by apply Hs.
Qed.

Definition sevens : list Z := replicate 512 7.
Definition two_calls : list call := [Write Delayed 0 5 sevens; Reada 0 5 6].

Lemma two_calls_ok : Forall (call_ok cached) two_calls.
Proof. repeat constructor; vm_compute; congruence. Qed.

Lemma cache_is_memory_witness : exists u s,
  alone smooth (do_calls (fun _ _ => false) CALL_FUEL two_calls user0 (binit (bst0 (fun _ _ => 0)))) = Some ([None; Some sevens], u, s) /\
  forall d b, d <> NODEV -> view s d b = snd (mem_calls two_calls (disk (fun _ _ => 0))) d b.
Proof. exact (cache_is_memory (fun _ _ => false) (fun _ _ => 0) CALL_FUEL two_calls (fun _ _ => eq_refl) (le_n _) two_calls_ok). Defined.

(** C9. A flush is durable.  After the same calls and a [bflush] of all devices, as
    [update] makes it, the transfers left in the queues can be brought to an end, and in
    whatever order they end the devices then have every block as the last write left it. *)
Theorem flush_is_durable refuse p fuel cs : (forall m h, refuse m h = false) -> (CALL_FUEL <= fuel)%nat ->
  Forall (call_ok cached) cs ->
  exists u s, alone smooth ((do_calls refuse fuel cs;; bflush refuse fuel NODEV) user0 (binit (bst0 p))) = Some (tt, u, s) /\
    (exists s', ioq true s s' /\ dq s' = []) /\
    forall s', ioq true s s' -> dq s' = [] -> forall d b, d <> NODEV -> block s' d b = snd (mem_calls cs (disk p)) d b.
Proof.
  intros Hn Hf Hok. assert (Ht : tw ((do_calls refuse fuel cs;; bflush refuse fuel NODEV) user0 (binit (bst0 p)))
    (fun _ _ s => settled cached (snd (mem_calls cs (disk p))) s /\ flushed NODEV s)).
  { apply tw_bind. eapply tw_mono; [by apply (calls_refine cached refuse Hn fuel cs (disk p)); [|apply binit_settled|]|].
    intros l u s (_ & Ho & Hl & Hm). eapply tw_mono.
    - eapply (tw_wp cached _ [] s); [apply Ho|by apply (bflush_spec cached true refuse (fun _ => Hn))|].
      apply (bflush_tw cached refuse Hn []); [done|done|]. pose proof (work_bound s). unfold CALL_FUEL in *. lia.
    - intros [] u' s' [Hl' (H' & Ho' & _ & -> & Hc & Hfl)]. split; [|done]. split; [done|]. split; [done|].
      intros d b Hd Hr. rewrite (Hc eq_refl d b Hd Hr). by apply Hm. }
  destruct Ht as ([] & u & s & E & (Ho & Hl & Hm) & Hfl). exists u, s. split; [done|].
  split; [by eapply drains, Ho|]. intros s' Hio Hq d b Hd.
  eapply (clean_block cached); [|done|by eapply flushed_io; [apply Ho|..]|done|done].
  split; [by eapply owned_io|]. split; [by eapply lone_io; [apply Ho|..]|].
  intros d' b' Hd' Hr'. rewrite (ioq_calm cached true _ _ (proj1 Ho) Hio eq_refl d' b' Hd' Hr'). by apply Hm.
Qed.

Lemma flush_is_durable_witness : exists u s,
  alone smooth ((do_calls (fun _ _ => false) CALL_FUEL two_calls;; bflush (fun _ _ => false) CALL_FUEL NODEV) user0
    (binit (bst0 (fun _ _ => 0)))) = Some (tt, u, s) /\
  (exists s', ioq true s s' /\ dq s' = []) /\
  forall s', ioq true s s' -> dq s' = [] -> forall d b, d <> NODEV ->
    block s' d b = snd (mem_calls two_calls (disk (fun _ _ => 0))) d b.
Proof. exact (flush_is_durable (fun _ _ => false) (fun _ _ => 0) CALL_FUEL two_calls (fun _ _ => eq_refl) (le_n _) two_calls_ok). Defined.

(** ** A transfer that fails at the wrong time *)

(** A computation with the interrupts that come at its [Intr] points, one for each. *)
Fixpoint steered {A} (ints : list (option (ref * option Z))) (x : bres A) : bres A :=
  match x, ints with
  | Intr _ s k, None :: l => steered l (k s)
  | Intr _ s k, Some (r, err) :: l => if decide (r ∈ dq s) then steered l (k (finish r err s)) else x
  | _, _ => x
  end.

(** Block 6 is being read ahead. *)
Definition read_ahead : bst :=
  match alone smooth (breada_ahead (fun _ _ => false) CALL_FUEL 0 6 user0 (binit (bst0 (fun _ _ => 0)))) with
  | Some (_, _, s) => s
  | None => bst0 (fun _ _ => 0)
  end.

(** What an asynchronous transfer that fails leaves of its buffer. *)
Lemma failed_hd i k s : has s (Bufp i) B_ASYNC = true ->
  b_dev (hd (finish (Bufp i) (Some k) s) (Bufp i)) = NODEV /\ has (finish (Bufp i) (Some k) s) (Bufp i) B_BUSY = false.
Proof.
  intros Ha. unfold finish. set (s1 := upd_hd _ _ _). assert (E1 : has s1 (Bufp i) B_ASYNC = true /\ has s1 (Bufp i) B_ERROR = true).
  { unfold s1, has. rewrite hd_upd, decide_True by done. cbn [set_b_resid b_flags]. unfold bor. rewrite hd_upd, decide_True by done. cbn [set_b_flags b_flags].
    rewrite !tst_lor. assert (Et : hd (transfer (Bufp i) k (set_dq (filter (.≠ Bufp i) (dq s)) s)) (Bufp i) = hd s (Bufp i))
      by (unfold transfer, to_core, to_platter; repeat case_match; done). rewrite Et. unfold has in Ha. by rewrite Ha, orb_true_r. }
  clearbody s1. destruct E1 as [A1 A2]. unfold iodone. set (s2 := bor _ B_DONE s1). assert (E2 : has s2 (Bufp i) B_ASYNC = true /\ has s2 (Bufp i) B_ERROR = true).
  { unfold s2, has, bor in *. rewrite hd_upd, decide_True by done. cbn [set_b_flags b_flags]. by rewrite !tst_lor, A1, A2. }
  clearbody s2. destruct E2 as [-> B2]. unfold brelse. cbv zeta. set (s3 := if has s2 (Bufp i) B_WANTED then _ else s2).
  assert (E3 : hd s3 = hd s2) by (unfold s3; by case_match). set (s4 := if has s3 Bfreelist B_WANTED then _ else s3).
  assert (E4 : hd s4 (Bufp i) = hd s2 (Bufp i)).
  { unfold s4. case_match; [|by rewrite E3]. unfold bwakeup, bclr. cbn [set_wakes hd]. rewrite hd_upd, decide_False by done. by rewrite E3. }
  clearbody s4. replace (has s4 (Bufp i) B_ERROR) with true by (unfold has in *; by rewrite E4). set (s5 := upd_hd _ (set_b_dev NODEV) s4).
  set (s6 := if has s5 (Bufp i) B_AGE then _ else _). assert (E6 : b_dev (hd s6 (Bufp i)) = NODEV).
  { assert (E5 : b_dev (hd s5 (Bufp i)) = NODEV) by (unfold s5; by rewrite hd_upd, decide_True by done).
    unfold s6. case_match; unfold av_first, av_last; cbv zeta; by rewrite !(hd_upd_field b_dev). }
  clearbody s6. unfold bclr, has. split; [by rewrite (hd_upd_field b_dev)|]. rewrite hd_upd, decide_True by done. cbn [set_b_flags b_flags].
  unfold tst. apply negb_false_iff, Z.eqb_eq. unfold clr. rewrite <- Z.land_assoc. by rewrite Z.land_0_r.
Qed.

(** C36. [getblk] looks at [b_dev] before it raises the priority and not again after.  Whenever
    the block it finds is that of an asynchronous transfer, a read ahead, that fails between
    the two, [iodone] gives the buffer up, with [b_dev] set to [NODEV], and [getblk] returns it
    all the same as the buffer for the block; a write of it then indexes [bdevsw] with the
    major number of [NODEV]. *)
Theorem getblk_race refuse fuel dev blkno i k u s : 0 <= major dev < nblkdev -> find_blk dev blkno s = Some (Some (Bufp i)) ->
  Bufp i ∈ dq s -> has s (Bufp i) B_ASYNC = true ->
  exists s', steered [None; Some (Bufp i, Some k); None] (getblk refuse (S fuel) dev blkno u s) = Val (Bufp i) u s' /\
    has s' (Bufp i) B_BUSY = true /\ b_dev (hd s' (Bufp i)) = NODEV /\ forall fuel' u', bwrite refuse fuel' (Bufp i) u' s' = BWild.
Proof.
  intros Hm Hf Hq Ha. destruct (failed_hd i k s Ha) as [F1 F2]. unfold getblk.
  replace ((major dev <? 0) || (nblkdev <=? major dev)) with false by (symmetry; apply orb_false_iff; split; [apply Z.ltb_ge|apply Z.leb_gt]; lia).
  cbn [getblk_loop]. unfold mbind, b_bind, spl0, interrupts, bget. cbn [bres_bind steered].
  assert (Hd : d_tab (major dev) <> NoBuf) by (unfold d_tab; by rewrite (proj2 (Z.leb_le _ _) (proj1 Hm)), (proj2 (Z.ltb_lt _ _) (proj2 Hm))).
  rewrite decide_False by done. cbn [bres_bind]. rewrite Hf. cbn [bres_bind steered]. rewrite decide_True by done. cbn [bres_bind steered].
  rewrite F2. cbn [bres_bind steered bput mret b_ret]. set (s1 := finish _ _ s) in *. clearbody s1. set (s2 := notavail _ _).
  assert (E2 : b_dev (hd s2 (Bufp i)) = NODEV).
  { unfold s2, notavail, bor. cbv zeta. rewrite !(hd_upd_field b_dev) by done. unfold count_depth. by case_match. }
  exists s2. split; [done|]. split; [|split; [done|]].
  - unfold s2, notavail, bor, has. cbv zeta. rewrite hd_upd, decide_True by done. cbn [set_b_flags b_flags]. by rewrite tst_lor, orb_true_r.
  - intros fuel' u'. unfold bwrite, mbind, b_bind, bget, bput, count. cbn [bres_bind]. set (s3 := upd_hd _ (set_b_wcount BSIZEW) _).
    assert (E3 : b_dev (hd s3 (Bufp i)) = NODEV) by (unfold s3, bclr; by rewrite !(hd_upd_field b_dev)). cbn [bput bres_bind set_io_info hd]. by rewrite E3.
Qed.

Lemma getblk_race_witness : exists s', steered [None; Some (Bufp 0, Some 0); None] (getblk (fun _ _ => false) CALL_FUEL 0 6 user0 read_ahead) = Val (Bufp 0) user0 s' /\
  b_dev (hd s' (Bufp 0)) = NODEV.
Proof.
  destruct (getblk_race (fun _ _ => false) (pred CALL_FUEL) 0 6 0 0 user0 read_ahead) as (s' & E & _ & Hd & _);
    [by vm_compute|by vm_compute|by vm_compute; left|by vm_compute|]. exists s'. by split.
Defined.
