(* ===== verification/Tty.v ===== *)
(** * Terminals: [kernel/dev/tty.c] and [kernel/dev/sc.c]

    A line has three character queues: what was typed ([t_rawq]), lines after erase and
    kill ([t_canq]), and what is to be printed ([t_outq]).  They are used through the
    interface [Queues], which the clists of [Clist] implement ([Tqueue]).  A routine that runs
    at interrupt level is a function on states; one that may sleep is a computation that
    gives its state away in [TSleep] and goes on from the state it is resumed in, so an
    interrupt comes between two calls or while a process sleeps; an access outside of
    [canonb] has the result [TWild].  A [char]
    field of [struct tty] counts modulo 256. *)

From S2P Require Import Prelude Param.

(** ** Numbers *)

Definition TANDEM : Z := 1.
Definition CBREAK : Z := 2.
Definition LCASE : Z := 4.
Definition ECHO : Z := 8.
Definition CRMOD : Z := 16.
Definition RAW : Z := 32.
Definition TBDELAY : Z := 3072.
Definition XTABS : Z := 3072.

Definition WOPEN : Z := 2.
Definition ISOPEN : Z := 4.
Definition CARR_ON : Z := 16.
Definition BUSY : Z := 32.
Definition ASLEEP : Z := 64.
Definition XCLUDE : Z := 128.
Definition TTSTOP : Z := 256.
Definition HUPCLS : Z := 512.
Definition TBLOCK : Z := 1024.

Definition CERASE : Z := 127.
Definition CEOT : Z := 4.
Definition CKILL : Z := 21.
Definition CQUIT : Z := 28.
Definition CINTR : Z := 3.
Definition CSTOP : Z := 19.
Definition CSTART : Z := 17.
Definition CBRK : Z := 255.

Definition TTHIWAT : Z := 100.
Definition TTLOWAT : Z := 50.
Definition TTYHOG : Z := 256.
Definition CANBSIZ : Z := 256.
Definition TTIPRI : Z := 28.
Definition TTOPRI : Z := 29.
Definition NSC : Z := 2.
Definition SIGINT : Z := 2.
Definition SIGQUIT : Z := 3.
Definition ENOTTY : Z := 25.
Definition ENXIO : Z := 6.
Definition EFAULT : Z := 14.

(** The line delimiter of the raw queue. *)
Definition DELIM : Z := 255.
Definition NL : Z := 10.
Definition CR : Z := 13.
Definition BS : Z := 8.
Definition TAB : Z := 9.
Definition SP : Z := 32.
Definition BACKSLASH : Z := 92.

(** A store into a [char]. *)
Definition byte (x : Z) : Z := x mod 256.

(** Lines 30-48: the table as its entries that are not zero. *)
Definition maptab (c : Z) : Z :=
  if c =? 33 then 124 else if c =? 39 then 96 else if c =? 40 then 123 else if c =? 41 then 125
  else if c =? 94 then 126 else if (97 <=? c) && (c <=? 122) then c - 32 else 0.

(** [partab[c] & 077] of [kernel/dev/partab.c]: the class of a character. *)
Definition partab (c : Z) : Z :=
  if c =? 8 then 2 else if c =? 9 then 4 else if c =? 10 then 3 else if c =? 12 then 5 else if c =? 13 then 6
  else if c <? 32 then 1 else if c =? 127 then 1 else 0.

(** ** Queues of characters *)

Inductive queue := Rawq | Canq | Outq.
#[global] Instance queue_eq_dec : EqDecision queue.
Proof. solve_decision. Defined.

(** What the line routines ask of [getc] and [putc]: a queue each, and room that is used
    up by one character at a time; a [putc] may fail once little room is left, and then goes
    on failing. *)
Class Queues (T : Type) := {
  q_chars : T -> queue -> list Z;
  q_room : T -> Z;
  q_getc : queue -> T -> Z * T;
  q_putc : Z -> queue -> T -> Z * T;
  q_bytes : forall s q, Forall (fun c => 0 <= c < 256) (q_chars s q);
  q_getc_one : forall q s, match q_chars s q with
    | [] => (q_getc q s).1 = -1 /\ q_chars (q_getc q s).2 q = []
    | c :: l => (q_getc q s).1 = c /\ q_chars (q_getc q s).2 q = l
    end;
  q_getc_other : forall q s x, x <> q -> q_chars (q_getc q s).2 x = q_chars s x;
  q_getc_room : forall q s, q_room s <= q_room (q_getc q s).2;
  q_putc_one : forall c q s, ((q_putc c q s).1 = 0 /\ q_chars (q_putc c q s).2 q = q_chars s q ++ [Z.land c 255]) \/
    ((q_putc c q s).1 = -1 /\ q_chars (q_putc c q s).2 q = q_chars s q);
  q_putc_other : forall c q s x, x <> q -> q_chars (q_putc c q s).2 x = q_chars s x;
  q_putc_room : forall c q s, 58 < q_room s ->
    (q_putc c q s).1 = 0 /\ q_room s - 1 <= q_room (q_putc c q s).2;
  q_putc_dry : forall c c' q s, (q_putc c q s).1 = -1 -> (q_putc c' q (q_putc c q s).2).1 = -1;
}.

(** ** The line *)

(** [struct tty], less its queues, its routines, which are those of [sc.c], and [t_addr], the line. *)
Record tty := Mktty {
  t_dev : Z;
  t_flags : Z;  (* mode, settable by ioctl *)
  t_state : Z;  (* internal state *)
  t_pgrp : Z;
  t_delct : Z;  (* char: delimiters in the raw queue *)
  t_line : Z;  (* char: line discipline *)
  t_col : Z;  (* char: printing column *)
  t_erase : Z;  (* char *)
  t_kill : Z;  (* char *)
  t_char : Z;  (* char *)
  t_ispeed : Z;  (* char *)
  t_ospeed : Z;  (* char *)
  t_echoct : Z;  (* char: columns that may be rubbed out *)
  t_intrc : Z;  (* t_un.t_tc, six chars *)
  t_quitc : Z;
  t_startc : Z;
  t_stopc : Z;
  t_eofc : Z;
  t_brkc : Z
}.

Definition set_t_dev (v : Z) (r : tty) : tty :=
  Mktty v (t_flags r) (t_state r) (t_pgrp r) (t_delct r) (t_line r) (t_col r) (t_erase r) (t_kill
  r) (t_char r) (t_ispeed r) (t_ospeed r) (t_echoct r) (t_intrc r) (t_quitc r) (t_startc r)
  (t_stopc r) (t_eofc r) (t_brkc r).
Definition set_t_flags (v : Z) (r : tty) : tty :=
  Mktty (t_dev r) v (t_state r) (t_pgrp r) (t_delct r) (t_line r) (t_col r) (t_erase r) (t_kill r)
  (t_char r) (t_ispeed r) (t_ospeed r) (t_echoct r) (t_intrc r) (t_quitc r) (t_startc r) (t_stopc
  r) (t_eofc r) (t_brkc r).
Definition set_t_state (v : Z) (r : tty) : tty :=
  Mktty (t_dev r) (t_flags r) v (t_pgrp r) (t_delct r) (t_line r) (t_col r) (t_erase r) (t_kill r)
  (t_char r) (t_ispeed r) (t_ospeed r) (t_echoct r) (t_intrc r) (t_quitc r) (t_startc r) (t_stopc
  r) (t_eofc r) (t_brkc r).
Definition set_t_pgrp (v : Z) (r : tty) : tty :=
  Mktty (t_dev r) (t_flags r) (t_state r) v (t_delct r) (t_line r) (t_col r) (t_erase r) (t_kill
  r) (t_char r) (t_ispeed r) (t_ospeed r) (t_echoct r) (t_intrc r) (t_quitc r) (t_startc r)
  (t_stopc r) (t_eofc r) (t_brkc r).
Definition set_t_delct (v : Z) (r : tty) : tty :=
  Mktty (t_dev r) (t_flags r) (t_state r) (t_pgrp r) v (t_line r) (t_col r) (t_erase r) (t_kill r)
  (t_char r) (t_ispeed r) (t_ospeed r) (t_echoct r) (t_intrc r) (t_quitc r) (t_startc r) (t_stopc
  r) (t_eofc r) (t_brkc r).
Definition set_t_line (v : Z) (r : tty) : tty :=
  Mktty (t_dev r) (t_flags r) (t_state r) (t_pgrp r) (t_delct r) v (t_col r) (t_erase r) (t_kill
  r) (t_char r) (t_ispeed r) (t_ospeed r) (t_echoct r) (t_intrc r) (t_quitc r) (t_startc r)
  (t_stopc r) (t_eofc r) (t_brkc r).
Definition set_t_col (v : Z) (r : tty) : tty :=
  Mktty (t_dev r) (t_flags r) (t_state r) (t_pgrp r) (t_delct r) (t_line r) v (t_erase r) (t_kill
  r) (t_char r) (t_ispeed r) (t_ospeed r) (t_echoct r) (t_intrc r) (t_quitc r) (t_startc r)
  (t_stopc r) (t_eofc r) (t_brkc r).
Definition set_t_erase (v : Z) (r : tty) : tty :=
  Mktty (t_dev r) (t_flags r) (t_state r) (t_pgrp r) (t_delct r) (t_line r) (t_col r) v (t_kill r)
  (t_char r) (t_ispeed r) (t_ospeed r) (t_echoct r) (t_intrc r) (t_quitc r) (t_startc r) (t_stopc
  r) (t_eofc r) (t_brkc r).
Definition set_t_kill (v : Z) (r : tty) : tty :=
  Mktty (t_dev r) (t_flags r) (t_state r) (t_pgrp r) (t_delct r) (t_line r) (t_col r) (t_erase r)
  v (t_char r) (t_ispeed r) (t_ospeed r) (t_echoct r) (t_intrc r) (t_quitc r) (t_startc r)
  (t_stopc r) (t_eofc r) (t_brkc r).
Definition set_t_char (v : Z) (r : tty) : tty :=
  Mktty (t_dev r) (t_flags r) (t_state r) (t_pgrp r) (t_delct r) (t_line r) (t_col r) (t_erase r)
  (t_kill r) v (t_ispeed r) (t_ospeed r) (t_echoct r) (t_intrc r) (t_quitc r) (t_startc r)
  (t_stopc r) (t_eofc r) (t_brkc r).
Definition set_t_ispeed (v : Z) (r : tty) : tty :=
  Mktty (t_dev r) (t_flags r) (t_state r) (t_pgrp r) (t_delct r) (t_line r) (t_col r) (t_erase r)
  (t_kill r) (t_char r) v (t_ospeed r) (t_echoct r) (t_intrc r) (t_quitc r) (t_startc r) (t_stopc
  r) (t_eofc r) (t_brkc r).
Definition set_t_ospeed (v : Z) (r : tty) : tty :=
  Mktty (t_dev r) (t_flags r) (t_state r) (t_pgrp r) (t_delct r) (t_line r) (t_col r) (t_erase r)
  (t_kill r) (t_char r) (t_ispeed r) v (t_echoct r) (t_intrc r) (t_quitc r) (t_startc r) (t_stopc
  r) (t_eofc r) (t_brkc r).
Definition set_t_echoct (v : Z) (r : tty) : tty :=
  Mktty (t_dev r) (t_flags r) (t_state r) (t_pgrp r) (t_delct r) (t_line r) (t_col r) (t_erase r)
  (t_kill r) (t_char r) (t_ispeed r) (t_ospeed r) v (t_intrc r) (t_quitc r) (t_startc r) (t_stopc
  r) (t_eofc r) (t_brkc r).
Definition set_t_intrc (v : Z) (r : tty) : tty :=
  Mktty (t_dev r) (t_flags r) (t_state r) (t_pgrp r) (t_delct r) (t_line r) (t_col r) (t_erase r)
  (t_kill r) (t_char r) (t_ispeed r) (t_ospeed r) (t_echoct r) v (t_quitc r) (t_startc r) (t_stopc
  r) (t_eofc r) (t_brkc r).
Definition set_t_quitc (v : Z) (r : tty) : tty :=
  Mktty (t_dev r) (t_flags r) (t_state r) (t_pgrp r) (t_delct r) (t_line r) (t_col r) (t_erase r)
  (t_kill r) (t_char r) (t_ispeed r) (t_ospeed r) (t_echoct r) (t_intrc r) v (t_startc r) (t_stopc
  r) (t_eofc r) (t_brkc r).
Definition set_t_startc (v : Z) (r : tty) : tty :=
  Mktty (t_dev r) (t_flags r) (t_state r) (t_pgrp r) (t_delct r) (t_line r) (t_col r) (t_erase r)
  (t_kill r) (t_char r) (t_ispeed r) (t_ospeed r) (t_echoct r) (t_intrc r) (t_quitc r) v (t_stopc
  r) (t_eofc r) (t_brkc r).
Definition set_t_stopc (v : Z) (r : tty) : tty :=
  Mktty (t_dev r) (t_flags r) (t_state r) (t_pgrp r) (t_delct r) (t_line r) (t_col r) (t_erase r)
  (t_kill r) (t_char r) (t_ispeed r) (t_ospeed r) (t_echoct r) (t_intrc r) (t_quitc r) (t_startc
  r) v (t_eofc r) (t_brkc r).
Definition set_t_eofc (v : Z) (r : tty) : tty :=
  Mktty (t_dev r) (t_flags r) (t_state r) (t_pgrp r) (t_delct r) (t_line r) (t_col r) (t_erase r)
  (t_kill r) (t_char r) (t_ispeed r) (t_ospeed r) (t_echoct r) (t_intrc r) (t_quitc r) (t_startc
  r) (t_stopc r) v (t_brkc r).
Definition set_t_brkc (v : Z) (r : tty) : tty :=
  Mktty (t_dev r) (t_flags r) (t_state r) (t_pgrp r) (t_delct r) (t_line r) (t_col r) (t_erase r)
  (t_kill r) (t_char r) (t_ispeed r) (t_ospeed r) (t_echoct r) (t_intrc r) (t_quitc r) (t_startc
  r) (t_stopc r) (t_eofc r) v.

(** A line, and what its routines use beside it. *)
Record line (T : Type) := Mkline {
  tp : tty;
  qs : T;  (* the three queues *)
  canonb : list Z;  (* canonb[CANBSIZ] *)
  tk_nin : Z;
  tk_nout : Z;
  printed : list Z;  (* bytes handed to the typewriter *)
  wakes : list queue;  (* wakeup()s of &t_rawq and &t_outq *)
  sigs : list (Z * Z);  (* signal()s: group and number *)
  u_base : Z;  (* a byte of the user *)
  u_count : Z;
  u_offset : Z;
  u_segflg : Z;
  u_error : Z;
  umem : Z -> Z;  (* bytes the user has *)
  umap : Z -> bool;  (* whether they can be touched *)
  p_pid : Z;
  p_pgrp : Z;
  u_ttyd : option Z  (* u_ttyp and u_ttyd *)
}.
Arguments Mkline {T}.
Arguments tp {T}.
Arguments qs {T}.
Arguments canonb {T}.
Arguments tk_nin {T}.
Arguments tk_nout {T}.
Arguments printed {T}.
Arguments wakes {T}.
Arguments sigs {T}.
Arguments u_base {T}.
Arguments u_count {T}.
Arguments u_offset {T}.
Arguments u_segflg {T}.
Arguments u_error {T}.
Arguments umem {T}.
Arguments umap {T}.
Arguments p_pid {T}.
Arguments p_pgrp {T}.
Arguments u_ttyd {T}.

Definition set_tp {T : Type} (v : tty) (r : line T) : line T :=
  Mkline v (qs r) (canonb r) (tk_nin r) (tk_nout r) (printed r) (wakes r) (sigs r) (u_base r)
  (u_count r) (u_offset r) (u_segflg r) (u_error r) (umem r) (umap r) (p_pid r) (p_pgrp r) (u_ttyd
  r).
Definition set_qs {T : Type} (v : T) (r : line T) : line T :=
  Mkline (tp r) v (canonb r) (tk_nin r) (tk_nout r) (printed r) (wakes r) (sigs r) (u_base r)
  (u_count r) (u_offset r) (u_segflg r) (u_error r) (umem r) (umap r) (p_pid r) (p_pgrp r) (u_ttyd
  r).
Definition set_canonb {T : Type} (v : list Z) (r : line T) : line T :=
  Mkline (tp r) (qs r) v (tk_nin r) (tk_nout r) (printed r) (wakes r) (sigs r) (u_base r) (u_count
  r) (u_offset r) (u_segflg r) (u_error r) (umem r) (umap r) (p_pid r) (p_pgrp r) (u_ttyd r).
Definition set_tk_nin {T : Type} (v : Z) (r : line T) : line T :=
  Mkline (tp r) (qs r) (canonb r) v (tk_nout r) (printed r) (wakes r) (sigs r) (u_base r) (u_count
  r) (u_offset r) (u_segflg r) (u_error r) (umem r) (umap r) (p_pid r) (p_pgrp r) (u_ttyd r).
Definition set_tk_nout {T : Type} (v : Z) (r : line T) : line T :=
  Mkline (tp r) (qs r) (canonb r) (tk_nin r) v (printed r) (wakes r) (sigs r) (u_base r) (u_count
  r) (u_offset r) (u_segflg r) (u_error r) (umem r) (umap r) (p_pid r) (p_pgrp r) (u_ttyd r).
Definition set_printed {T : Type} (v : list Z) (r : line T) : line T :=
  Mkline (tp r) (qs r) (canonb r) (tk_nin r) (tk_nout r) v (wakes r) (sigs r) (u_base r) (u_count
  r) (u_offset r) (u_segflg r) (u_error r) (umem r) (umap r) (p_pid r) (p_pgrp r) (u_ttyd r).
Definition set_wakes {T : Type} (v : list queue) (r : line T) : line T :=
  Mkline (tp r) (qs r) (canonb r) (tk_nin r) (tk_nout r) (printed r) v (sigs r) (u_base r)
  (u_count r) (u_offset r) (u_segflg r) (u_error r) (umem r) (umap r) (p_pid r) (p_pgrp r) (u_ttyd
  r).
Definition set_sigs {T : Type} (v : list (Z * Z)) (r : line T) : line T :=
  Mkline (tp r) (qs r) (canonb r) (tk_nin r) (tk_nout r) (printed r) (wakes r) v (u_base r)
  (u_count r) (u_offset r) (u_segflg r) (u_error r) (umem r) (umap r) (p_pid r) (p_pgrp r) (u_ttyd
  r).
Definition set_u_base {T : Type} (v : Z) (r : line T) : line T :=
  Mkline (tp r) (qs r) (canonb r) (tk_nin r) (tk_nout r) (printed r) (wakes r) (sigs r) v (u_count
  r) (u_offset r) (u_segflg r) (u_error r) (umem r) (umap r) (p_pid r) (p_pgrp r) (u_ttyd r).
Definition set_u_count {T : Type} (v : Z) (r : line T) : line T :=
  Mkline (tp r) (qs r) (canonb r) (tk_nin r) (tk_nout r) (printed r) (wakes r) (sigs r) (u_base r)
  v (u_offset r) (u_segflg r) (u_error r) (umem r) (umap r) (p_pid r) (p_pgrp r) (u_ttyd r).
Definition set_u_offset {T : Type} (v : Z) (r : line T) : line T :=
  Mkline (tp r) (qs r) (canonb r) (tk_nin r) (tk_nout r) (printed r) (wakes r) (sigs r) (u_base r)
  (u_count r) v (u_segflg r) (u_error r) (umem r) (umap r) (p_pid r) (p_pgrp r) (u_ttyd r).
Definition set_u_segflg {T : Type} (v : Z) (r : line T) : line T :=
  Mkline (tp r) (qs r) (canonb r) (tk_nin r) (tk_nout r) (printed r) (wakes r) (sigs r) (u_base r)
  (u_count r) (u_offset r) v (u_error r) (umem r) (umap r) (p_pid r) (p_pgrp r) (u_ttyd r).
Definition set_u_error {T : Type} (v : Z) (r : line T) : line T :=
  Mkline (tp r) (qs r) (canonb r) (tk_nin r) (tk_nout r) (printed r) (wakes r) (sigs r) (u_base r)
  (u_count r) (u_offset r) (u_segflg r) v (umem r) (umap r) (p_pid r) (p_pgrp r) (u_ttyd r).
Definition set_umem {T : Type} (v : Z -> Z) (r : line T) : line T :=
  Mkline (tp r) (qs r) (canonb r) (tk_nin r) (tk_nout r) (printed r) (wakes r) (sigs r) (u_base r)
  (u_count r) (u_offset r) (u_segflg r) (u_error r) v (umap r) (p_pid r) (p_pgrp r) (u_ttyd r).
Definition set_umap {T : Type} (v : Z -> bool) (r : line T) : line T :=
  Mkline (tp r) (qs r) (canonb r) (tk_nin r) (tk_nout r) (printed r) (wakes r) (sigs r) (u_base r)
  (u_count r) (u_offset r) (u_segflg r) (u_error r) (umem r) v (p_pid r) (p_pgrp r) (u_ttyd r).
Definition set_p_pid {T : Type} (v : Z) (r : line T) : line T :=
  Mkline (tp r) (qs r) (canonb r) (tk_nin r) (tk_nout r) (printed r) (wakes r) (sigs r) (u_base r)
  (u_count r) (u_offset r) (u_segflg r) (u_error r) (umem r) (umap r) v (p_pgrp r) (u_ttyd r).
Definition set_p_pgrp {T : Type} (v : Z) (r : line T) : line T :=
  Mkline (tp r) (qs r) (canonb r) (tk_nin r) (tk_nout r) (printed r) (wakes r) (sigs r) (u_base r)
  (u_count r) (u_offset r) (u_segflg r) (u_error r) (umem r) (umap r) (p_pid r) v (u_ttyd r).
Definition set_u_ttyd {T : Type} (v : option Z) (r : line T) : line T :=
  Mkline (tp r) (qs r) (canonb r) (tk_nin r) (tk_nout r) (printed r) (wakes r) (sigs r) (u_base r)
  (u_count r) (u_offset r) (u_segflg r) (u_error r) (umem r) (umap r) (p_pid r) (p_pgrp r) v.

Section Line.
Context {T : Type} `{Queues T}.
Implicit Types (s : line T).

Definition on_tp (f : tty -> tty) s : line T := set_tp (f (tp s)) s.
Definition tst_flags s (m : Z) : bool := t_flags (tp s) &? m.
Definition tst_state s (m : Z) : bool := t_state (tp s) &? m.
Definition state_on (m : Z) : line T -> line T := on_tp (fun t => set_t_state (t_state t |: m) t).
Definition state_off (m : Z) : line T -> line T := on_tp (fun t => set_t_state (t_state t &~ m) t).

Definition chars s (q : queue) : list Z := q_chars (qs s) q.
Definition c_cc s (q : queue) : Z := Z.of_nat (length (chars s q)).
Definition getc (q : queue) s : Z * line T := let (c, x) := q_getc q (qs s) in (c, set_qs x s).
Definition putc (c : Z) (q : queue) s : Z * line T := let (r, x) := q_putc c q (qs s) in (r, set_qs x s).
Definition wakeup (q : queue) s : line T := set_wakes (wakes s ++ [q]) s.

(** [while (getc(q) >= 0);] *)
Fixpoint drain (n : nat) (q : queue) s : line T :=
  match n with
  | O => s
  | S n => let (c, s) := getc q s in if c <? 0 then s else drain n q s
  end.
Definition empty (q : queue) s : line T := drain (S (length (chars s q))) q s.

Fixpoint b_to_q (cp : list Z) (q : queue) s : Z * line T :=
  match cp with
  | [] => (0, s)
  | c :: cp' => let (r, s) := putc c q s in if r <? 0 then (Z.of_nat (length cp), s) else b_to_q cp' q s
  end.

(** ** Output *)

(** Lines 179-198 of [sc.c]: the typewriter gets one character. *)
Definition scstart s : line T :=
  if tst_state s (BUSY |: TTSTOP) then s
  else
    let (c, s) := getc Outq s in
    if c <? 0 then s
    else
      let s := on_tp (set_t_char (byte c)) s in
      let s := state_on BUSY s in
      let s := set_printed (printed s ++ [Z.land c 255]) s in
      if (c_cc s Outq <=? TTLOWAT) && tst_state s ASLEEP then wakeup Outq (state_off ASLEEP s) else s.

Definition ttstart s : line T := if tst_state s (TTSTOP |: BUSY) then s else scstart s.

(** The tail of [ttyoutput]: where a character leaves the carriage. *)
Definition column (c col : Z) : Z :=
  if 128 <=? c then if negb (Z.land c 192 =? 128) then byte (col + 1) else col
  else match partab c with
  | 0 => byte (col + 1)
  | 2 => if col =? 0 then col else byte (col - 1)
  | 3 => 0
  | 4 => byte (Z.lor col 7 + 1)
  | 6 => 0
  | _ => col
  end.

(** The pairs of the string in [ttyoutput]: the character sent, and for which. *)
Definition escapes : list (Z * Z) := [(40, 123); (41, 125); (33, 124); (94, 126); (39, 96)].

Fixpoint escape (l : list (Z * Z)) (c : Z) : option Z :=
  match l with
  | [] => None
  | (o, i) :: l => if c =? i then Some o else escape l c
  end.

(** The loop for a tab; [out] is [ttyoutput] itself. *)
Fixpoint tab_loop (out : Z -> line T -> line T) (n : nat) s : line T :=
  let s := out SP s in
  match n with
  | O => s
  | S n => if Z.land (t_col (tp s)) 7 =? 0 then s else tab_loop out n s
  end.

(** [fuel] bounds the calls of [ttyoutput] by itself, which only go two deep. *)
Fixpoint ttyoutput_f (fuel : nat) (c : Z) s : line T :=
  match fuel with
  | O => s
  | S fuel =>
      let s := set_tk_nout (tk_nout s + 1) s in
      if tst_flags s RAW then (putc c Outq s).2
      else
        let c := Z.land c 255 in
        if c =? CEOT then s
        else if (c =? TAB) && (Z.land (t_flags (tp s)) TBDELAY =? XTABS) then tab_loop (ttyoutput_f fuel) 8 s
        else
          let '(c, s) :=
            if tst_flags s LCASE then
              let '(c, s) := match escape escapes c with
                             | Some o => (o, ttyoutput_f fuel BACKSLASH s)
                             | None => (c, s)
                             end in
              (if (97 <=? c) && (c <=? 122) then c - 32 else c, s)
            else (c, s) in
          let s := if (c =? NL) && tst_flags s CRMOD then ttyoutput_f fuel CR s else s in
          let s := (putc c Outq s).2 in
          on_tp (fun t => set_t_col (column c (t_col t)) t) s
  end.
Definition ttyoutput : Z -> line T -> line T := ttyoutput_f 3.

(** ** Input *)

(** [d_stop] of this line is [nulldstop]. *)
Definition d_stop s : line T := s.

Definition flushtty s : line T :=
  let s := empty Canq s in
  let s := wakeup Rawq s in
  let s := wakeup Outq s in
  let s := state_off TTSTOP s in
  let s := d_stop s in
  let s := empty Outq s in
  let s := empty Rawq s in
  on_tp (fun t => set_t_echoct 0 (set_t_delct 0 t)) s.

Definition ttyblock s : line T :=
  let x := c_cc s Rawq + c_cc s Canq in
  let s := if TTYHOG <? c_cc s Rawq then state_off TBLOCK (flushtty s) else s in
  if TTYHOG / 2 <=? x then
    let (r, s) := putc (t_stopc (tp s)) Outq s in
    if r =? 0 then ttstart (on_tp (fun t => set_t_char (byte (t_char t + 1)) t) (state_on TBLOCK s)) else s
  else s.

(** [signal(tp->t_pgrp, n)]. *)
Definition signal (n : Z) s : line T := set_sigs (sigs s ++ [(t_pgrp (tp s), n)]) s.

(** Lines 409-437: a control character; [None] when it was acted on, else the character
    that goes on. *)
Definition control (c : Z) (tf : Z) s : option Z * line T :=
  let t := tp s in
  let passed s :=
    if (c =? t_quitc t) || (c =? t_intrc t) then
      (None, signal (if c =? t_intrc t then SIGINT else SIGQUIT) (flushtty s))
    else (Some (if (c =? CR) && (tf &? CRMOD) then NL else c), s) in
  if c =? DELIM then (None, s)
  else if tst_state s TTSTOP then
    if c =? t_startc t then (None, ttstart (state_off TTSTOP s))
    else if c =? t_stopc t then (None, s)
    else passed (ttstart (state_off TTSTOP s))
  else if c =? t_stopc t then (None, d_stop (state_on TTSTOP s))
  else if c =? t_startc t then (None, s)
  else passed s.

(** Lines 451-504: the echo of [c]. *)
Definition echo (c : Z) (tf : Z) s : line T :=
  let s :=
    if (c =? t_erase (tp s)) && negb (tf &? (RAW |: CBREAK)) then
      if t_echoct (tp s) =? 0 then s
      else on_tp (fun t => set_t_echoct (byte (t_echoct t - 1)) t)
             (ttyoutput BS (ttyoutput SP (ttyoutput BS s)))
    else
      let col := t_col (tp s) in
      let s := ttyoutput c s in
      let s := if (c =? t_kill (tp s)) && negb (tf &? (RAW |: CBREAK)) then ttyoutput NL s else s in
      let t := tp s in
      if (c =? NL) || (c =? t_eofc t) || (c =? t_brkc t) || (c =? t_kill t) then on_tp (set_t_echoct 0) s
      else if (col <? t_col t) && (t_echoct t <? 255) then on_tp (set_t_echoct (byte (t_echoct t + 1))) s
      else s in
  ttstart s.

(** Lines 445-450: the character goes on the raw queue, a line gets its delimiter. *)
Definition enter (c : Z) (tf : Z) s : line T :=
  let s := (putc c Rawq s).2 in
  let t := tp s in
  if (tf &? (RAW |: CBREAK)) || (c =? NL) || (c =? t_eofc t) || (c =? t_brkc t) then
    let s :=
      if negb (tf &? (RAW |: CBREAK)) then
        let (r, s) := putc DELIM Rawq s in
        if r =? 0 then on_tp (fun t => set_t_delct (byte (t_delct t + 1)) t) s else s
      else s in
    wakeup Rawq s
  else s.

Definition ttyinput (c : Z) s : line T :=
  let s := set_tk_nin (tk_nin s + 1) s in
  let c := Z.land c 255 in
  let tf := t_flags (tp s) in
  let s := if tf &? TANDEM then ttyblock s else s in
  let (r, s) := if tf &? RAW then (Some c, s) else control c tf s in
  match r with
  | None => s
  | Some c =>
      if TTYHOG <? c_cc s Rawq then flushtty s
      else
        let c := if (tf &? LCASE) && ((65 <=? c) && (c <=? 90)) then c + 32 else c in
        let s := enter c tf s in
        if tf &? ECHO then echo c tf s else s
  end.

(** A block of input, from [pb] to [pe]. *)
Definition ttyrend (p : list Z) s : line T :=
  let tandem := Z.land (t_flags (tp s)) TANDEM in
  let s :=
    if tst_flags s RAW then wakeup Rawq (b_to_q p Rawq s).2
    else
      let s := on_tp (fun t => set_t_flags (t_flags t &~ TANDEM) t) s in
      let s := fold_left (fun s c => ttyinput c s) p s in
      on_tp (fun t => set_t_flags (t_flags t |: tandem) t) s in
  if tandem =? 0 then s else ttyblock s.

(** ** Computations that may sleep *)

Inductive tres (A : Type) :=
  | TDone (a : A) (s : line T)
  | TSleep (q : queue) (pri : Z) (s : line T) (k : line T -> tres A)
  | TNoFuel
  | TWild.
Arguments TDone {A} a s.
Arguments TSleep {A} q pri s k.
Arguments TNoFuel {A}.
Arguments TWild {A}.

Definition M (A : Type) : Type := line T -> tres A.

Fixpoint tres_bind {A B} (x : tres A) (f : A -> M B) : tres B :=
  match x with
  | TDone a s => f a s
  | TSleep q p s k => TSleep q p s (fun s => tres_bind (k s) f)
  | TNoFuel => TNoFuel
  | TWild => TWild
  end.

#[global] Instance tty_ret : MRet M := fun A a s => TDone a s.
#[global] Instance tty_bind : MBind M := fun A B f m s => tres_bind (m s) f.

Definition tget {A} (f : line T -> A) : M A := fun s => TDone (f s) s.
Definition tput (f : line T -> line T) : M unit := fun s => TDone tt (f s).
Definition trun {A} (f : line T -> A * line T) : M A := fun s => let (a, s) := f s in TDone a s.
Definition ttry {A} (f : line T -> option (A * line T)) : M A := fun s => match f s with Some (a, s) => TDone a s | None => TWild end.
Definition tsleep (q : queue) (pri : Z) : M unit := fun s => TSleep q pri s (fun s => TDone tt s).

(** [wflushtty]: its loop, then [flushtty]. *)
Fixpoint wflushtty (fuel : nat) : M unit :=
  match fuel with
  | O => fun _ => TNoFuel
  | S fuel =>
      wait ← tget (fun s => negb (c_cc s Outq =? 0) && tst_state s CARR_ON);
      if (wait : bool) then
        tput scstart;;
        tput (state_on ASLEEP);;
        tsleep Outq TTOPRI;;
        wflushtty fuel
      else tput flushtty
  end.

(** ** Lines *)

Definition cooked s : bool := negb (tst_flags s (RAW |: CBREAK)).

(** [*bp] of [canonb], and the store; outside of it there is no result. *)
Definition canon_at s (bp : Z) : option Z := if bp <? 0 then None else canonb s !! Z.to_nat bp.
Definition canon_put (bp c : Z) s : option (line T) :=
  if (0 <=? bp) && (bp <? Z.of_nat (length (canonb s))) then Some (set_canonb (<[Z.to_nat bp := byte c]> (canonb s)) s) else None.

(** [while (bp > &canonb[2] && (bp[-1] & 0300) == 0200) bp--], then one more; [n] is more than the bytes of [canonb]. *)
Fixpoint rubout (n : nat) (bp : Z) s : option Z :=
  if bp <=? 2 then Some bp
  else
    last ← canon_at s (bp - 1);
    match n with
    | O => None
    | S n => if Z.land last 192 =? 128 then rubout n (bp - 1) s else Some (bp - 1)
    end.

(** What a character does to the line so far: the new end, and with [Some c] a [c] that is stored there. *)
Definition canon_char (c bp : Z) s : option (Z * option Z) :=
  let t := tp s in
  if negb (cooked s) then Some (bp, Some c)
  else
    last ← canon_at s (bp - 1);
    if negb (last =? BACKSLASH) then
      if c =? t_erase t then bp ← rubout (Z.to_nat CANBSIZ) bp s; Some (bp, None)
      else if c =? t_kill t then Some (2, None)
      else if c =? t_eofc t then Some (bp, None)
      else Some (bp, Some c)
    else
      let mc := if c <? 128 then maptab c else 0 in
      let mc := if (c =? t_erase t) || (c =? t_kill t) then c else mc in
      if negb (mc =? 0) && ((mc =? c) || tst_flags s LCASE) then
        prev ← canon_at s (bp - 2);
        Some (bp - 1, Some (if negb (prev =? BACKSLASH) then mc else c))
      else Some (bp, Some c).

(** The loop of [canon]; [n] is more than the characters of the raw queue. *)
Fixpoint canon_loop (n : nat) (bp : Z) s : option (Z * line T) :=
  match n with
  | O => None
  | S n =>
      let (c, s) := getc Rawq s in
      if c <? 0 then Some (bp, s)
      else if cooked s && (c =? DELIM) then
        Some (bp, on_tp (fun t => set_t_delct (byte (t_delct t - 1)) t) s)
      else
        match canon_char c bp s with
        | None => None
        | Some (bp, None) => canon_loop n bp s
        | Some (bp, Some c) =>
            match canon_put bp c s with
            | None => None
            | Some s => if CANBSIZ <=? bp + 1 then Some (bp + 1, s) else canon_loop n (bp + 1) s
            end
        end
  end.

(** Lines 355-361: the other side may send again. *)
Definition unblock s : line T :=
  if tst_state s TBLOCK && (c_cc s Rawq <? TTYHOG / 5) then
    let (r, s) := putc (t_startc (tp s)) Outq s in
    let s := if r =? 0 then ttstart (state_off TBLOCK s) else s in
    on_tp (set_t_char 0) s
  else s.

(** From the label [loop] on. *)
Definition canon_line s : option (Z * line T) :=
  match canon_loop (S (length (chars s Rawq))) 2 s with
  | None => None
  | Some (bp, s) =>
      let s := (b_to_q (take (Z.to_nat (bp - 2)) (drop 2 (canonb s))) Canq s).2 in
      Some (bp - 2, unblock s)
  end.

Fixpoint canon (fuel : nat) : M Z :=
  match fuel with
  | O => fun _ => TNoFuel
  | S fuel =>
      wait ← tget (fun s => if cooked s then t_delct (tp s) =? 0 else c_cc s Rawq =? 0);
      if (wait : bool) then
        carr ← tget (fun s => tst_state s CARR_ON);
        if (carr : bool) then tsleep Rawq TTIPRI;; canon fuel else mret 0
      else ttry canon_line
  end.

(** ** Reading and writing *)

Definition user_next s : line T :=
  set_u_base (u_base s + 1) (set_u_offset (u_offset s + 1) (set_u_count (u_count s - 1) s)).

Definition passc (c : Z) s : Z * line T :=
  if (u_segflg s =? 0) && negb (umap s (u_base s)) then (-1, set_u_error EFAULT s)
  else
    let b := u_base s in
    let s := user_next (set_umem (fun a => if a =? b then byte c else umem s a) s) in
    (if u_count s =? 0 then -1 else 0, s).

Definition cpass s : Z * line T :=
  if u_count s =? 0 then (-1, s)
  else if (u_segflg s =? 0) && negb (umap s (u_base s)) then (-1, set_u_error EFAULT s)
  else let c := umem s (u_base s) in (Z.land c 255, user_next s).

(** [while (tp->t_canq.c_cc && passc(getc(&tp->t_canq)) >= 0);] *)
Fixpoint take_line (n : nat) s : line T :=
  match n with
  | O => s
  | S n =>
      if c_cc s Canq =? 0 then s
      else
        let (c, s) := getc Canq s in
        let (r, s) := passc c s in
        if r <? 0 then s else take_line n s
  end.

Definition ttread (fuel : nat) : M Z :=
  carr ← tget (fun s => tst_state s CARR_ON);
  if negb carr then mret 0
  else
    have ← tget (fun s => negb (c_cc s Canq =? 0));
    n ← (if (have : bool) then mret 1 else canon fuel);
    (if n =? 0 then mret tt else tput (fun s => take_line (length (chars s Canq)) s));;
    tget (fun s => c_cc s Rawq + c_cc s Canq).

(** Lines 662-668: wait until the output queue is short. *)
Fixpoint wait_low (fuel : nat) : M unit :=
  match fuel with
  | O => fun _ => TNoFuel
  | S fuel =>
      high ← tget (fun s => TTHIWAT <? c_cc s Outq);
      if (high : bool) then
        tput ttstart;;
        none ← tget (fun s => c_cc s Outq =? 0);
        if (none : bool) then mret tt
        else tput (state_on ASLEEP);; tsleep Outq TTOPRI;; wait_low fuel
      else mret tt
  end.

Fixpoint ttwrite_loop (fuel : nat) : M unit :=
  match fuel with
  | O => fun _ => TNoFuel
  | S fuel =>
      n ← tget u_count;
      if n =? 0 then mret tt
      else
        wait_low fuel;;
        c ← trun cpass;
        if c <? 0 then mret tt else tput (ttyoutput c);; ttwrite_loop fuel
  end.

Definition ttwrite (fuel : nat) : M unit :=
  carr ← tget (fun s => tst_state s CARR_ON);
  if negb carr then mret tt else ttwrite_loop fuel;; tput ttstart.

(** ** Opening, closing, and [ioctl] *)

Definition ttyopen (dev : Z) s : line T :=
  let s := on_tp (set_t_dev dev) s in
  let s :=
    if p_pgrp s =? 0 then
      let s := set_u_ttyd (Some dev) s in
      let s := if t_pgrp (tp s) =? 0 then on_tp (set_t_pgrp (p_pid s)) s else s in
      set_p_pgrp (t_pgrp (tp s)) s
    else s in
  state_on ISOPEN (state_off WOPEN s).

Definition ttychars : line T -> line T := on_tp (fun t =>
  set_t_kill CKILL (set_t_erase CERASE (set_t_brkc CBRK (set_t_eofc CEOT
    (set_t_stopc CSTOP (set_t_startc CSTART (set_t_quitc CQUIT (set_t_intrc CINTR t)))))))).

Definition ttyclose (fuel : nat) : M unit :=
  tput (on_tp (set_t_pgrp 0));;
  wflushtty fuel;;
  tput (on_tp (set_t_state 0)).

(** A request of [ioctl] with its argument: [None] for one that cannot be copied. *)
Inductive com :=
  | TIOCGETD (dst : bool)
  | TIOCSETD (src : option Z)
  | TIOCEXCL
  | TIOCNXCL
  | TIOCSETP (src : option (list Z))
  | TIOCSETN (src : option (list Z))
  | TIOCGETP (dst : bool)
  | TIOCHPCL
  | TIOCFLUSH
  | DIOCSETP
  | DIOCGETP
  | TIOCSETC (src : option (list Z))
  | TIOCGETC (dst : bool)
  | Other.

(** [struct sgttyb] and [struct tchars] as their members in order. *)
Definition set_sgttyb (l : list Z) (t : tty) : tty :=
  match l with
  | [i; o; e; k; f] => set_t_flags f (set_t_kill (byte k) (set_t_erase (byte e) (set_t_ospeed (byte o) (set_t_ispeed (byte i) t))))
  | _ => t
  end.
Definition get_sgttyb (t : tty) : list Z := [t_ispeed t; t_ospeed t; t_erase t; t_kill t; t_flags t].
Definition set_tchars (l : list Z) (t : tty) : tty :=
  match l with
  | [i; q; st; sp; e; b] => set_t_brkc (byte b) (set_t_eofc (byte e) (set_t_stopc (byte sp) (set_t_startc (byte st)
      (set_t_quitc (byte q) (set_t_intrc (byte i) t)))))
  | _ => t
  end.
Definition get_tchars (t : tty) : list Z := [t_intrc t; t_quitc t; t_startc t; t_stopc t; t_eofc t; t_brkc t].

Definition nldisp : Z := 1.

(** The answer, with what is copied out. *)
Definition answer (ok : bool) (l : line T -> list Z) : M (Z * list Z) :=
  if ok then r ← tget l; mret (1, r) else tput (set_u_error EFAULT);; mret (1, []).
Definition accept {A} (src : option A) (f : A -> tty -> tty) : M (Z * list Z) :=
  match src with
  | Some x => tput (on_tp (f x));; mret (1, [])
  | None => tput (set_u_error EFAULT);; mret (1, [])
  end.

(** [linesw] has one row, whose routines for a change of discipline do nothing here. *)
Definition ttioccomm (fuel : nat) (c : com) : M (Z * list Z) :=
  match c with
  | TIOCGETD ok => answer ok (fun s => [t_line (tp s)])
  | TIOCSETD (Some t) =>
      if (t <? 0) || (nldisp <=? t) then tput (set_u_error ENXIO);; mret (1, [])
      else e ← tget u_error; (if e =? 0 then tput (on_tp (set_t_line t)) else mret tt);; mret (1, [])
  | TIOCSETD None => tput (set_u_error EFAULT);; mret (1, [])
  | TIOCEXCL => tput (state_on XCLUDE);; mret (1, [])
  | TIOCNXCL => tput (state_off XCLUDE);; mret (1, [])
  | TIOCSETP src => wflushtty fuel;; accept src set_sgttyb
  | TIOCSETN src => accept src set_sgttyb
  | TIOCGETP ok => answer ok (fun s => get_sgttyb (tp s))
  | TIOCHPCL => tput (state_on HUPCLS);; mret (1, [])
  | TIOCFLUSH => tput flushtty;; mret (1, [])
  | DIOCSETP | DIOCGETP => mret (1, [])
  | TIOCSETC src => accept src set_tchars
  | TIOCGETC ok => answer ok (fun s => get_tchars (tp s))
  | Other => mret (0, [])
  end.

(** ** The console driver *)

Definition scopen (dev : Z) s : line T :=
  if NSC <=? minor dev then set_u_error ENXIO s
  else
    let s :=
      if tst_state s ISOPEN then s
      else
        let s := on_tp (set_t_state (ISOPEN |: CARR_ON)) s in
        let s := on_tp (set_t_flags (ECHO |: CRMOD |: XTABS)) s in
        ttychars s in
    ttyopen dev s.

Definition scioctl (fuel : nat) (c : com) : M (list Z) :=
  r ← ttioccomm fuel c;
  let '(a, l) := r in
  (if a =? 0 then tput (set_u_error ENOTTY) else mret tt);; mret l.

(** What a line does at an interrupt: a byte was typed, a character has printed. *)
Definition scintr (input : option Z) (done : bool) s : line T :=
  if negb (tst_state s ISOPEN) then s
  else
    let s := match input with Some c => ttyinput (Z.land c 255) s | None => s end in
    if done then ttstart (state_off BUSY s) else s.

End Line.

Arguments TDone {T A} a s.
Arguments TSleep {T A} q pri s k.
Arguments TNoFuel {T A}.
Arguments TWild {T A}.

