(* ===== verification/Tqueue.v ===== *)
(** * The queues of a line as clists

    Three clists that share one pool implement the interface [Queues]: the blocks of the
    three and the free list are apart, so an operation on one leaves the others alone. *)

From S2P Require Import Prelude Tty.
From S2P Require Import Clist.

Record cset := Cset { c_pool : pool; c_q : queue -> clist }.
Implicit Types (x : cset) (q r : queue).

Definition queues : list queue := [Rawq; Canq; Outq].

Record apart x (bs : queue -> list nat) (fs : list nat) (cs : queue -> list Z) : Prop := {
  ap_holds q : holds (cfree (c_pool x)) (c_q x q) (bs q) (cs q);
  ap_free : chain (cfree (c_pool x)) (cfreelist (c_pool x)) fs;
  ap_nodup q : NoDup (bs q ++ fs);
  ap_other q r b : q <> r -> b ∈ bs q -> b ∉ bs r;
}.

Definition cset_ok x : Prop := exists bs fs cs, apart x bs fs cs.

Definition set_q q (v : clist) (pl : pool) x : cset := Cset pl (fun r => if decide (r = q) then v else c_q x r).

Definition cset_getc q x : Z * cset :=
  match getc (c_pool x) (c_q x q) with
  | Some (c, pl, v) => (c, set_q q v pl x)
  | None => (-1, x)
  end.
Definition cset_putc (c : Z) q x : Z * cset :=
  match putc c (c_pool x) (c_q x q) with
  | Some (r, pl, v) => (r, set_q q v pl x)
  | None => (-1, x)
  end.

(** What a clist holds, taken off it in order. *)
Definition cset_chars x q : list Z :=
  match q_to_b (Z.to_nat (c_cc (c_q x q))) (c_pool x) (c_q x q) with
  | Some (l, _, _) => l
  | None => []
  end.

(** Free slots: those of the free blocks and those left in the last block of each clist. *)
Fixpoint walk (cf : list cblock) (n : nat) (p : option nat) : Z :=
  match n, p with
  | S n, Some b => 1 + match cf !! b with Some k => walk cf n (c_next k) | None => 0 end
  | _, _ => 0
  end.
Definition slack (v : clist) : Z := match c_tl v with Some _ => CBSIZE - c_tix v | None => 0 end.
Definition cset_room x : Z :=
  CBSIZE * walk (cfree (c_pool x)) (length (cfree (c_pool x))) (cfreelist (c_pool x)) +
  slack (c_q x Rawq) + slack (c_q x Canq) + slack (c_q x Outq).

(** ** Lemmas *)

Lemma apart_inv x bs fs cs q : apart x bs fs cs -> inv (c_pool x) (c_q x q) (bs q) fs (cs q).
Proof. intros [Hh Hf Hn _]. by split. Qed.

Lemma holds_agree cf cf' v bs cs : (forall b, b ∈ bs -> cf' !! b = cf !! b) -> holds cf v bs cs -> holds cf' v bs cs.
Proof.
  intros Ha [H1 H2 H3 H4 H5 H6 H7]. split; try done.
  - eapply chain_agree; done.
  - rewrite (flat_agree cf cf'); [done|]. intros b Hb. unfold info. by rewrite Ha.
Qed.

Lemma walk_chain cf p fs n : chain cf p fs -> (length fs <= n)%nat -> walk cf n p = Z.of_nat (length fs).
Proof.
  revert p n. induction fs as [|b fs IH]; intros p n Hc Hn; simpl in Hc.
  - subst p. by destruct n.
  - destruct Hc as (-> & k & Hk & _ & Hc). destruct n as [|n]; simpl in Hn; [lia|]. simpl. rewrite Hk, (IH _ n Hc) by lia. lia.
Qed.

Lemma chain_length cf p bs : chain cf p bs -> NoDup bs -> (length bs <= length cf)%nat.
Proof.
  intros Hc Hn. rewrite <- (length_seq (length cf) 0). apply submseteq_length, NoDup_submseteq; [done|].
  intros b Hb. apply elem_of_seq. destruct (cblocks_in _ _ _ _ Hc Hb) as (k & Hk & _). apply lookup_lt_Some in Hk. lia.
Qed.

Lemma room_is x bs fs cs : apart x bs fs cs -> cset_room x =
  CBSIZE * Z.of_nat (length fs) + slack (c_q x Rawq) + slack (c_q x Canq) + slack (c_q x Outq).
Proof.
  intros Hap. unfold cset_room. rewrite (walk_chain _ _ fs); [done|apply Hap|].
  eapply chain_length; [apply Hap|]. pose proof (ap_nodup _ _ _ _ Hap Rawq) as Hn. by apply NoDup_app in Hn as (_ & _ & ?).
Qed.

Lemma slack_bound v cf bs cs : holds cf v bs cs -> 0 <= slack v <= 29.
Proof.
  intros Hh. unfold slack. pose proof (h_last _ _ _ _ Hh) as Hl. destruct (c_tl v) eqn:Et; [|lia].
  assert (Hne : bs <> []) by (intros ->; done). destruct (h_ix _ _ _ _ Hh Hne) as (_ & Ht & _). unfold CBSIZE in *. lia.
Qed.

(** The slack by the characters held. *)
Lemma slack_is v cf bs cs : holds cf v bs cs -> bs <> [] ->
  slack v = CBSIZE * Z.of_nat (length bs) - c_hix v - Z.of_nat (length cs).
Proof.
  intros Hh Hne. unfold slack. pose proof (h_last _ _ _ _ Hh) as Hl. destruct (c_tl v) as [t|] eqn:Et.
  - destruct (h_ix _ _ _ _ Hh Hne) as (_ & _ & Hp). lia.
  - symmetry in Hl. by apply last_None in Hl.
Qed.

Lemma slack_nil v cf cs : holds cf v [] cs -> slack v = 0.
Proof. intros Hh. unfold slack. by rewrite (h_last _ _ _ _ Hh). Qed.

(** After an operation on [q] within its blocks and the free ones. *)
Lemma apart_step x bs fs cs q pl v bs' fs' cs' : apart x bs fs cs -> inv pl v bs' fs' cs' -> bs' ++ fs' ≡ₚ bs q ++ fs ->
  agree_off (bs q ++ fs) (cfree (c_pool x)) (cfree pl) ->
  apart (set_q q v pl x) (fun r => if decide (r = q) then bs' else bs r) fs' (fun r => if decide (r = q) then cs' else cs r).
Proof.
  intros [Hh Hf Hn Ho] [Hh' Hf' Hn'] Hp Hag.
  assert (Hout : forall r b, r <> q -> b ∈ bs r -> b ∉ bs' ++ fs').
  { intros r b Hne Hb. rewrite Hp, elem_of_app. intros [Hb'|Hb']; [by apply (Ho r q b)|].
    specialize (Hn r). apply NoDup_app in Hn as (_ & Hd & _). by apply (Hd b). }
  split; simpl.
  - intros r. case_decide; [by subst|]. eapply holds_agree; [|apply Hh]. intros b Hb. apply Hag. rewrite <- Hp. by apply (Hout r).
  - done.
  - intros r. case_decide; [done|]. apply NoDup_app. split; [by apply (NoDup_app (bs r) fs), Hn|]. split.
    + intros b Hb Hb'. apply (Hout r b); [done|done|]. set_solver.
    + by apply NoDup_app in Hn' as (_ & _ & ?).
  - intros r1 r2 b Hne. repeat case_decide; subst; try done; intros Hb Hb'.
    + apply (Hout r2 b); [done|done|set_solver].
    + apply (Hout r1 b); [done|done|set_solver].
    + by apply (Ho r1 r2 b).
Qed.

Lemma chars_is x bs fs cs q : apart x bs fs cs -> cset_chars x q = cs q.
Proof.
  intros Hap. unfold cset_chars. pose proof (apart_inv _ _ _ _ q Hap) as Hi.
  destruct (q_to_b_spec (Z.to_nat (c_cc (c_q x q))) _ _ _ _ _ Hi) as (? & ? & ? & ? & -> & _).
  rewrite (h_cc _ _ _ _ (inv_holds _ _ _ _ _ Hi)), Nat2Z.id. apply take_ge. lia.
Qed.

(** The free slots, seen from [q]. *)
Definition others x q : Z :=
  match q with
  | Rawq => slack (c_q x Canq) + slack (c_q x Outq)
  | Canq => slack (c_q x Rawq) + slack (c_q x Outq)
  | Outq => slack (c_q x Rawq) + slack (c_q x Canq)
  end.

Lemma room_split x bs fs cs q : apart x bs fs cs ->
  cset_room x = CBSIZE * Z.of_nat (length fs) + slack (c_q x q) + others x q /\ 0 <= others x q <= 58.
Proof.
  intros Hap. rewrite (room_is _ _ _ _ Hap). pose proof (fun r => slack_bound _ _ _ _ (ap_holds _ _ _ _ Hap r)) as Hb.
  pose proof (Hb Rawq). pose proof (Hb Canq). pose proof (Hb Outq). destruct q; unfold others; lia.
Qed.

Lemma others_set x q v pl : others (set_q q v pl x) q = others x q.
Proof. by destruct q. Qed.

Lemma getc_tix pl v c pl' v' : getc pl v = Some (c, pl', v') -> c_tix v' = c_tix v.
Proof.
  unfold getc. case_match; [by intros [= <- <- <-]|]. intros E.
  destruct (c_hd v) as [b|]; simpl in E; [|done]. destruct (cfree pl !! b) as [k|]; simpl in E; [|done].
  destruct (c_info k !! _) as [ch|]; simpl in E; [|done]. case_match; [destruct (cb_release pl b); simpl in E; by simplify_eq/=|].
  case_match; [destruct (cb_release pl b); simpl in E; by simplify_eq/=|by simplify_eq/=].
Qed.

Lemma getc_ok x bs fs cs q : apart x bs fs cs -> exists bs' fs' cs', apart (cset_getc q x).2 bs' fs' cs' /\
  (forall r, r <> q -> cs' r = cs r) /\ cset_room x <= cset_room (cset_getc q x).2 /\
  match cs q with
  | [] => (cset_getc q x).1 = -1 /\ cs' q = []
  | c :: l => (cset_getc q x).1 = c /\ cs' q = l
  end.
Proof.
  intros Hap. pose proof (apart_inv _ _ _ _ q Hap) as Hi. pose proof (getc_spec _ _ _ _ _ Hi) as Hg. unfold cset_getc.
  pose proof (inv_holds _ _ _ _ _ Hi) as Hh. destruct (room_split _ _ _ _ q Hap) as [Hr Hob]. destruct (cs q) as [|c l] eqn:Ec.
  - destruct Hg as (v' & E & Hi'). rewrite E. simpl. pose proof (h_empty _ _ _ _ Hh eq_refl) as Eb.
    assert (Hap' : apart (set_q q v' (c_pool x) x) (fun r => if decide (r = q) then [] else bs r) fs
      (fun r => if decide (r = q) then [] else cs r)).
    { eapply apart_step; [done|done|by rewrite Eb|]. by intros b _. }
    eexists _, _, _. split; [exact Hap'|]. split; [intros r Hne; by rewrite decide_False|]. split; [|by rewrite decide_True].
    destruct (room_split _ _ _ _ q Hap') as [Hr' _]. rewrite Hr, Hr', others_set. unfold set_q. simpl. rewrite decide_True by done.
    rewrite Eb in Hh. rewrite (slack_nil _ _ _ Hh), (slack_nil _ _ _ (inv_holds _ _ _ _ _ Hi')). lia.
  - destruct Hg as (pl' & v' & bs' & fs' & E & Hi' & Hp & Hag). rewrite E. simpl.
    pose proof (apart_step _ _ _ _ _ _ _ _ _ _ Hap Hi' Hp Hag) as Hap'. eexists _, _, _. split; [exact Hap'|].
    split; [intros r Hne; by rewrite decide_False|]. split; [|by rewrite decide_True].
    destruct (room_split _ _ _ _ q Hap') as [Hr' _]. rewrite Hr, Hr', others_set. unfold set_q. simpl. rewrite decide_True by done.
    assert (Hne : bs q <> []).
    { intros Eb. pose proof (h_chars _ _ _ _ Hh) as Hc. rewrite Eb in Hc. unfold flat in Hc. simpl in Hc. by rewrite drop_nil in Hc. }
    pose proof (slack_bound _ _ _ _ Hh) as Hsb. destruct (h_ix _ _ _ _ Hh Hne) as (Hx1 & Hx2 & Hx3).
    apply Permutation_length in Hp. rewrite !length_app in Hp. pose proof (inv_holds _ _ _ _ _ Hi') as Hh'.
    assert (Hlb : (1 <= length (bs q))%nat) by (destruct (bs q); [done|simpl; lia]). unfold CBSIZE in *. simpl in Hx3.
    destruct (decide (bs' = [])) as [->|Hne'].
    + rewrite (slack_nil _ _ _ Hh'). simpl in Hp. lia.
    + destruct (h_ix _ _ _ _ Hh' Hne') as (Hy1 & Hy2 & Hy3). pose proof (getc_tix _ _ _ _ _ E) as Et.
      assert (Es : slack v' = slack (c_q x q)).
      { unfold slack. rewrite (h_last _ _ _ _ Hh'), (h_last _ _ _ _ Hh), Et.
        destruct (last bs') eqn:E1; [|by apply last_None in E1]. destruct (last (bs q)) eqn:E2; [done|by apply last_None in E2]. }
      unfold CBSIZE in *. rewrite Es. assert ((length bs' <= length (bs q))%nat) by lia. lia.
Qed.

Lemma putc_hix c pl v pl' v' : putc c pl v = Some (0, pl', v') -> c_hix v' = match c_tl v with Some _ => c_hix v | None => 0 end.
Proof.
  assert (Hst : forall p w, cb_store p w c = Some (0, pl', v') -> c_hix v' = c_hix w).
  { intros p w. unfold cb_store. destruct (c_tl w) as [b|]; simpl; [|done]. destruct (cfree p !! b); simpl; [|done].
    destruct (c_info _ !! _); simpl; [|done]. by intros [= <- <-]. }
  unfold putc, cb_grow. destruct (c_tl v) as [t|] eqn:Et; simpl.
  - case_match; [|by apply Hst]. destruct (cfreelist pl) as [b|]; simpl; [|done].
    destruct (cfree pl !! b) as [k|]; simpl; [|done]. destruct (set_next (cfree pl) b None) as [cf|]; simpl; [|done].
    destruct (set_next cf t (Some b)); simpl; [|done]. intros E. by apply Hst in E.
  - destruct (cfreelist pl) as [b|]; simpl; [|done].
    destruct (cfree pl !! b) as [k|]; simpl; [|done]. destruct (set_next (cfree pl) b None) as [cf|]; simpl; [|done].
    intros E. by apply Hst in E.
Qed.

Lemma putc_ok c x bs fs cs q : apart x bs fs cs -> exists bs' fs' cs', apart (cset_putc c q x).2 bs' fs' cs' /\
  (forall r, r <> q -> cs' r = cs r) /\
  (((cset_putc c q x).1 = 0 /\ cs' q = cs q ++ [Z.land c 255] /\ cset_room (cset_putc c q x).2 = cset_room x - 1) \/
   ((cset_putc c q x).1 = -1 /\ cs' q = cs q /\ cset_room x <= 58)).
Proof.
  intros Hap. pose proof (apart_inv _ _ _ _ q Hap) as Hi. pose proof (inv_holds _ _ _ _ _ Hi) as Hh.
  destruct (room_split _ _ _ _ q Hap) as [Hr Hob]. unfold cset_putc.
  destruct (putc_spec c _ _ _ _ _ Hi) as [(E & Ef & Hfull)|(pl' & v' & bs' & fs' & E & Hi' & Hp & Hag)]; rewrite E; simpl.
  - assert (Hap' : apart (set_q q (c_q x q) (c_pool x) x) (fun r => if decide (r = q) then bs q else bs r) fs
      (fun r => if decide (r = q) then cs q else cs r)).
    { eapply apart_step; [done|done|done|]. by intros b _. }
    eexists _, _, _. split; [exact Hap'|]. split; [intros r Hne; by rewrite decide_False|]. right. rewrite decide_True by done.
    split; [done|]. split; [done|]. rewrite Hr, Ef. destruct Hfull as [Eb|Et].
    + rewrite Eb in Hh. rewrite (slack_nil _ _ _ Hh). simpl. lia.
    + unfold slack. rewrite Et. case_match; simpl; lia.
  - assert (Hp' : bs' ++ fs' ≡ₚ bs q ++ fs) by (by rewrite Hp).
    pose proof (apart_step _ _ _ _ _ _ _ _ _ _ Hap Hi' Hp' Hag) as Hap'. eexists _, _, _. split; [exact Hap'|].
    split; [intros r Hne; by rewrite decide_False|]. left. rewrite decide_True by done. split; [done|]. split; [done|].
    destruct (room_split _ _ _ _ q Hap') as [Hr' _]. rewrite Hr, Hr', others_set. unfold set_q. simpl. rewrite decide_True by done.
    pose proof (inv_holds _ _ _ _ _ Hi') as Hh'. pose proof (putc_hix _ _ _ _ _ E) as Ex.
    apply (f_equal length) in Hp. rewrite !length_app in Hp.
    assert (Hne' : bs' <> []).
    { intros Eb. rewrite Eb in Hh'. pose proof (h_chars _ _ _ _ Hh') as Hc. unfold flat in Hc. simpl in Hc. rewrite drop_nil, take_nil in Hc.
      by apply app_nil in Hc as []. }
    rewrite (slack_is _ _ _ _ Hh' Hne'), Ex, length_app. rewrite (h_last _ _ _ _ Hh). simpl.
    destruct (decide (bs q = [])) as [Eb|Hne].
    + rewrite Eb in *. rewrite (slack_nil _ _ _ Hh). simpl in Hp |- *.
      assert (cs q = []) as -> by (pose proof (h_chars _ _ _ _ Hh) as Hc; unfold flat in Hc; simpl in Hc; rewrite drop_nil, take_nil in Hc; done).
      simpl. lia.
    + rewrite (slack_is _ _ _ _ Hh Hne). destruct (last (bs q)) eqn:El; [|by apply last_None in El]. lia.
Qed.

(** A [putc] that failed changes nothing, so the next one fails as well. *)
Lemma putc_full c pl v bs fs cs : inv pl v bs fs cs -> fs = [] -> bs = [] \/ c_tix v = CBSIZE -> putc c pl v = Some (-1, pl, v).
Proof.
  intros Hi -> Hf. unfold putc. pose proof (inv_free _ _ _ _ _ Hi) as Hc. simpl in Hc.
  assert (E : bool_decide (c_tl v = None) || (c_tix v =? CBSIZE) = true).
  { destruct Hf as [-> | ->]; [|by rewrite Z.eqb_refl, orb_true_r]. rewrite (h_last _ _ _ _ (inv_holds _ _ _ _ _ Hi)). done. }
  rewrite E. unfold cb_grow. by rewrite Hc.
Qed.

Lemma putc_again c c' x bs fs cs q : apart x bs fs cs -> (cset_putc c q x).1 = -1 -> (cset_putc c' q (cset_putc c q x).2).1 = -1.
Proof.
  intros Hap. pose proof (apart_inv _ _ _ _ q Hap) as Hi. unfold cset_putc at 1 3.
  destruct (putc_spec c _ _ _ _ _ Hi) as [(E & Ef & Hfull)|(pl' & v' & bs' & fs' & E & _)]; rewrite E; simpl; [|done].
  intros _. unfold cset_putc, set_q. simpl. rewrite decide_True by done. by rewrite (putc_full c' _ _ _ _ _ Hi Ef Hfull).
Qed.

(** ** The interface *)

Definition lines : Type := { x : cset | cset_ok x }.

Lemma cset_getc_ok q x : cset_ok x -> cset_ok (cset_getc q x).2.
Proof. intros (bs & fs & cs & Hap). destruct (getc_ok _ _ _ _ q Hap) as (bs' & fs' & cs' & Hap' & _). by exists bs', fs', cs'. Qed.

Lemma cset_putc_ok c q x : cset_ok x -> cset_ok (cset_putc c q x).2.
Proof. intros (bs & fs & cs & Hap). destruct (putc_ok c _ _ _ _ q Hap) as (bs' & fs' & cs' & Hap' & _). by exists bs', fs', cs'. Qed.

(** [getc] and [putc] of [kernel/prim.c] keep the promises of [Queues]. *)
#[global, refine] Instance lines_queues : Queues lines := {|
  q_chars := fun s q => cset_chars (`s) q;
  q_room := fun s => cset_room (`s);
  q_getc := fun q s => ((cset_getc q (`s)).1, (cset_getc q (`s)).2 ↾ cset_getc_ok q (`s) (proj2_sig s));
  q_putc := fun c q s => ((cset_putc c q (`s)).1, (cset_putc c q (`s)).2 ↾ cset_putc_ok c q (`s) (proj2_sig s));
|}.
Proof.
  - intros [x (bs & fs & cs & Hap)] q. simpl. rewrite (chars_is _ _ _ _ q Hap). apply Hap.
  - intros q [x (bs & fs & cs & Hap)]. simpl. destruct (getc_ok _ _ _ _ q Hap) as (bs' & fs' & cs' & Hap' & _ & _ & Hm).
    rewrite (chars_is _ _ _ _ q Hap), (chars_is _ _ _ _ q Hap'). done.
  - intros q [x (bs & fs & cs & Hap)] r Hne. simpl. destruct (getc_ok _ _ _ _ q Hap) as (bs' & fs' & cs' & Hap' & Ho & _).
    rewrite (chars_is _ _ _ _ r Hap), (chars_is _ _ _ _ r Hap'). by apply Ho.
  - intros q [x (bs & fs & cs & Hap)]. simpl. by destruct (getc_ok _ _ _ _ q Hap) as (bs' & fs' & cs' & Hap' & _ & Hr & _).
  - intros c q [x (bs & fs & cs & Hap)]. simpl. destruct (putc_ok c _ _ _ _ q Hap) as (bs' & fs' & cs' & Hap' & _ & Hm).
    rewrite (chars_is _ _ _ _ q Hap), (chars_is _ _ _ _ q Hap'). destruct Hm as [(-> & -> & _)|(-> & -> & _)]; auto.
  - intros c q [x (bs & fs & cs & Hap)] r Hne. simpl. destruct (putc_ok c _ _ _ _ q Hap) as (bs' & fs' & cs' & Hap' & Ho & _).
    rewrite (chars_is _ _ _ _ r Hap), (chars_is _ _ _ _ r Hap'). by apply Ho.
  - intros c q [x (bs & fs & cs & Hap)] Hroom. simpl in *. destruct (putc_ok c _ _ _ _ q Hap) as (bs' & fs' & cs' & Hap' & _ & Hm).
    destruct Hm as [(-> & _ & ->)|(_ & _ & ?)]; [split; [done|lia]|lia].
  - intros c c' q [x (bs & fs & cs & Hap)]. simpl. apply (putc_again c c' _ _ _ _ q Hap).
Defined.

(** ** A line at the start *)

(** A pool of [n] blocks as [cinit] leaves it, the queues empty. *)
Definition fresh_pool (n : nat) : pool :=
  match cinit (Pool (replicate n blank) None) [] with
  | Some (pl, _) => pl
  | None => Pool [] None
  end.
Definition fresh (n : nat) : cset := Cset (fresh_pool n) (fun _ => empty_clist).

Lemma fresh_ok n : cset_ok (fresh n).
Proof.
  destruct (cinit_frees_all (replicate n blank) []) as (pl & E & _ & Hi); [by apply Forall_replicate|].
  exists (fun _ => []), (rev (seq 0 (length (replicate n blank)))), (fun _ => []). unfold fresh, fresh_pool. rewrite E.
  split; simpl; [intros q; apply clist_nil|apply Hi|intros q; apply Hi|intros q r b _ Hb; by apply not_elem_of_nil in Hb].
Qed.

(** A line that was never open, with a pool of forty blocks, and a process that asks for a hundred bytes at 1000. *)
Definition unopened : line lines :=
  Mkline (Mktty 0 0 0 0 0 0 0 0 0 0 0 0 0 0 0 0 0 0 0) (fresh 40 ↾ fresh_ok 40) (replicate 256 0) 0 0 [] [] []
    1000 100 0 0 0 (fun _ => 0) (fun _ => true) 7 0 None.

(** The console after its first open. *)
Definition console : line lines := scopen 0 unopened.
