(* ===== verification/Tline.v ===== *)
(** * Lines typed, edited and read

    The line discipline against an editor of characters: keys push a character, an erase
    takes the last one off, a kill starts over, and what the program reads is the text that
    is left.  Proved for any [Queues]. *)

From S2P Require Import Prelude Param Tty Tqueue.

(** ** The queues of a line *)

Section Lines.
Context {T : Type} `{Queues T}.
Implicit Types (s : line T) (t : tty) (q : queue).

Abbreviation room s := (q_room (qs s)).

Lemma putc_run c q s : 58 < room s -> exists x, putc c q s = (0, set_qs x s) /\ q_chars x q = chars s q ++ [Z.land c 255] /\
  (forall r, r <> q -> q_chars x r = chars s r) /\ room s - 1 <= q_room x.
Proof.
  intros Hr. unfold putc, chars. pose proof (q_putc_one c q (qs s)) as H1. pose proof (q_putc_other c q (qs s)) as H2.
  destruct (q_putc_room c q (qs s) Hr) as [H3 H4]. destruct (q_putc c q (qs s)) as [z x]. simpl in *. subst z.
  exists x. destruct H1 as [[_ H1]|[? _]]; [|lia]. done.
Qed.

Lemma getc_run q s c l : chars s q = c :: l -> exists x, getc q s = (c, set_qs x s) /\ q_chars x q = l /\
  (forall r, r <> q -> q_chars x r = chars s r) /\ room s <= q_room x.
Proof.
  intros Hc. unfold getc, chars in *. pose proof (q_getc_one q (qs s)) as H1. pose proof (q_getc_other q (qs s)) as H2.
  pose proof (q_getc_room q (qs s)) as H3. rewrite Hc in H1. destruct (q_getc q (qs s)) as [z x]. simpl in *.
  destruct H1 as [-> H1]. by exists x.
Qed.

Lemma getc_none q s : chars s q = [] -> exists x, getc q s = (-1, set_qs x s) /\
  (forall r, q_chars x r = chars s r) /\ room s <= q_room x.
Proof.
  intros Hc. unfold getc, chars in *. pose proof (q_getc_one q (qs s)) as H1. pose proof (q_getc_other q (qs s)) as H2.
  pose proof (q_getc_room q (qs s)) as H3. rewrite Hc in H1. destruct (q_getc q (qs s)) as [z x]. simpl in *.
  destruct H1 as [-> H1]. exists x. split; [done|]. split; [|done]. intros r. destruct (decide (r = q)) as [->|]; [congruence|auto].
Qed.

(** ** Steps that only print

    [quiet k]: the input queues, the settings and the user are as before, and at most [k]
    characters of room are used. *)

Definition setup t := (t_flags t, t_delct t, t_erase t, t_kill t, (t_intrc t, t_quitc t, t_startc t, t_stopc t, t_eofc t, t_brkc t)).
Definition user s := (umem s, umap s, u_base s, u_count s, u_segflg s, u_error s).
Definition OUT : Z := BUSY |: ASLEEP.

Record quiet (k : Z) s s' : Prop := {
  qt_raw : chars s' Rawq = chars s Rawq;
  qt_can : chars s' Canq = chars s Canq;
  qt_room : room s - k <= room s';
  qt_set : setup (tp s') = setup (tp s);
  qt_state : t_state (tp s') &~ OUT = t_state (tp s) &~ OUT;
  qt_buf : canonb s' = canonb s;
  qt_user : user s' = user s;
}.

Lemma hush_refl s : quiet 0 s s.
Proof. split; try done. lia. Qed.

Lemma hush_trans k1 k2 s1 s2 s3 : quiet k1 s1 s2 -> quiet k2 s2 s3 -> quiet (k1 + k2) s1 s3.
Proof. intros [] []. split; try congruence. lia. Qed.

Lemma quiet_mono k k' s s' : k <= k' -> quiet k s s' -> quiet k' s s'.
Proof. intros Hk []. split; try done. lia. Qed.

Lemma quiet_flags k s s' m : quiet k s s' -> tst_flags s' m = tst_flags s m.
Proof. intros Hq. unfold tst_flags. pose proof (qt_set _ _ _ Hq) as E. injection E as E. by rewrite E. Qed.

Lemma quiet_stopped k s s' : quiet k s s' -> tst_state s' TTSTOP = tst_state s TTSTOP.
Proof.
  intros Hq. unfold tst_state. rewrite <- (tst_clr_other _ OUT TTSTOP) by done. rewrite (qt_state _ _ _ Hq). by apply tst_clr_other.
Qed.

(** A change of the line that keeps these. *)
Lemma quiet_tp s f : (forall t, setup (f t) = setup t) -> (forall t, t_state (f t) &~ OUT = t_state t &~ OUT) ->
  quiet 0 s (on_tp f s).
Proof. intros H1 H2. split; try done; [simpl; lia|apply H1|apply H2]. Qed.

Lemma quiet_put c s : 58 < room s -> quiet 1 s (putc c Outq s).2 /\ tp (putc c Outq s).2 = tp s.
Proof.
  intros Hr. destruct (putc_run c Outq s Hr) as (x & -> & H1 & H2 & H3). split; [|done].
  split; try done; unfold chars; simpl; by rewrite ?H2 by done.
Qed.

Definition carriage s := (t_col (tp s), t_echoct (tp s)).

Lemma quiet_scstart s : quiet 0 s (scstart s) /\ carriage (scstart s) = carriage s.
Proof.
  unfold scstart. destruct (tst_state s (BUSY |: TTSTOP)); [split; [apply hush_refl|done]|].
  assert (Hg : exists c x, getc Outq s = (c, set_qs x s) /\ quiet 0 s (set_qs x s)).
  { destruct (chars s Outq) as [|c l] eqn:Ec.
    - destruct (getc_none _ _ Ec) as (x & -> & H1 & H2). exists (-1), x. split; [done|]. split; try done; unfold chars; simpl; try apply H1. lia.
    - destruct (getc_run _ _ _ _ Ec) as (x & -> & H1 & H2 & H3). exists c, x. split; [done|].
      split; try done; unfold chars; simpl; rewrite ?H2 by done; try done. lia. }
  destruct Hg as (c & x & -> & Hq). destruct (c <? 0); [done|]. cbv zeta.
  set (s1 := set_qs x s) in *. set (s2 := set_printed _ _).
  assert (Hq2 : quiet 0 s s2 /\ carriage s2 = carriage s).
  { split; [|done]. eapply (hush_trans 0 0); [exact Hq|]. split; try done; [simpl; lia|].
    simpl. unfold clr. apply Z.bits_inj'. intros n Hn. unfold OUT. rewrite !Z.land_spec, !(Z.lnot_spec _ n Hn), !Z.lor_spec. by repeat match goal with |- context [Z.testbit ?a n] => destruct (Z.testbit a n) end. }
  destruct Hq2 as [Hq2 Hc2]. case_match; [|done]. split; [|done].
  eapply (hush_trans 0 0); [exact Hq2|]. split; try done; [simpl; lia|].
  simpl. unfold clr. apply Z.bits_inj'. intros n Hn. unfold OUT. rewrite !Z.land_spec, !(Z.lnot_spec _ n Hn), !Z.lor_spec. by repeat match goal with |- context [Z.testbit ?a n] => destruct (Z.testbit a n) end.
Qed.

Lemma quiet_ttstart s : quiet 0 s (ttstart s) /\ carriage (ttstart s) = carriage s.
Proof. unfold ttstart. case_match; [split; [apply hush_refl|done]|apply quiet_scstart]. Qed.

(** ** Output of a character *)

(** No mode but those the console has, and output running. *)
Record plain s : Prop := {
  pl_raw : tst_flags s (RAW |: CBREAK) = false;
  pl_case : tst_flags s LCASE = false;
  pl_tandem : tst_flags s TANDEM = false;
  pl_stop : tst_state s TTSTOP = false;
}.

Lemma plain_raw s : plain s -> tst_flags s RAW = false /\ tst_flags s CBREAK = false.
Proof.
  intros [Hr _ _ _]. unfold tst_flags, tst in *. apply negb_false_iff, Z.eqb_eq in Hr.
  assert (E : forall m, Z.land (RAW |: CBREAK) m = m -> Z.land (t_flags (tp s)) m = 0).
  { intros m Em. by rewrite <- Em, Z.land_assoc, Hr. }
  split; apply negb_false_iff, Z.eqb_eq, E; done.
Qed.

Lemma plain_quiet k s s' : quiet k s s' -> plain s -> plain s'.
Proof.
  intros Hq [H1 H2 H3 H4]. split; rewrite ?(quiet_flags _ _ _ _ Hq), ?(quiet_stopped _ _ _ Hq); done.
Qed.

Definition bump s : line T := set_tk_nout (tk_nout s + 1) s.

Lemma quiet_bump s : quiet 0 s (bump s).
Proof. split; try done. simpl. lia. Qed.

(** A character that stands for itself. *)
Lemma output_char n c s : plain s -> 58 < room s -> 0 <= c < 256 -> c <> CEOT -> c <> NL -> c <> TAB ->
  quiet 1 s (ttyoutput_f (S n) c s) /\ carriage (ttyoutput_f (S n) c s) = (column c (t_col (tp s)), t_echoct (tp s)).
Proof.
  intros Hp Hr Hc H1 H2 H3. cbn [ttyoutput_f]. fold (bump s). pose proof (quiet_bump s) as Hb.
  destruct (plain_raw _ (plain_quiet _ _ _ Hb Hp)) as [-> _].
  assert (Ec : Z.land c 255 = c) by (change 255 with (Z.ones 8); rewrite Z.land_ones by lia; apply Z.mod_small; lia). rewrite Ec.
  rewrite (proj2 (Z.eqb_neq c CEOT)), (proj2 (Z.eqb_neq c TAB)) by done. cbn [andb].
  rewrite (pl_case _ (plain_quiet _ _ _ Hb Hp)). cbv zeta beta iota. rewrite (proj2 (Z.eqb_neq c NL)) by done. cbn [andb].
  destruct (quiet_put c (bump s)) as [Hq Ht]; [simpl; lia|]. split.
  - eapply (quiet_mono (0 + 1 + 0)); [lia|]. eapply hush_trans; [eapply hush_trans; [exact Hb|exact Hq]|]. by apply quiet_tp.
  - unfold carriage, on_tp. simpl. by rewrite Ht.
Qed.

Lemma output_nl n s : plain s -> 59 < room s ->
  quiet 2 s (ttyoutput_f (S (S n)) NL s) /\ carriage (ttyoutput_f (S (S n)) NL s) = (0, t_echoct (tp s)).
Proof.
  intros Hp Hr. change (ttyoutput_f (S (S n)) NL s) with
    (if tst_flags (bump s) RAW then (putc NL Outq (bump s)).2 else
      let '(c, s1) := if tst_flags (bump s) LCASE then (10, bump s) else (NL, bump s) in
      let s2 := if (c =? NL) && tst_flags s1 CRMOD then ttyoutput_f (S n) CR s1 else s1 in
      on_tp (fun t => set_t_col (column c (t_col t)) t) (putc c Outq s2).2).
  pose proof (quiet_bump s) as Hb. pose proof (plain_quiet _ _ _ Hb Hp) as Hpb.
  destruct (plain_raw _ Hpb) as [-> _]. rewrite (pl_case _ Hpb). cbv zeta beta iota. change (NL =? NL) with true. cbn [andb].
  set (s2 := if tst_flags (bump s) CRMOD then _ else _).
  assert (Hs2 : quiet 1 (bump s) s2 /\ t_echoct (tp s2) = t_echoct (tp s)).
  { unfold s2. destruct (tst_flags (bump s) CRMOD).
    - destruct (output_char n CR (bump s) Hpb) as [Hq Hc]; [simpl; lia|done..|]. split; [done|]. exact (f_equal snd Hc).
    - split; [|done]. eapply quiet_mono; [|apply hush_refl]. lia. }
  destruct Hs2 as [Hq2 He2]. pose proof (qt_room _ _ _ Hq2). simpl in *.
  destruct (quiet_put NL s2) as [Hq Ht]; [lia|]. split.
  - eapply (quiet_mono (0 + 1 + 1 + 0)); [lia|]. eapply hush_trans; [|by apply quiet_tp].
    eapply hush_trans; [|exact Hq]. eapply hush_trans; [exact Hb|exact Hq2].
  - unfold carriage, on_tp. simpl. by rewrite Ht, He2.
Qed.

(** ** A character typed *)

(** The characters [l] are added to the raw queue, and otherwise as [quiet]. *)
Record entered (k : Z) (l : list Z) s s' : Prop := {
  en_raw : chars s' Rawq = chars s Rawq ++ l;
  en_can : chars s' Canq = chars s Canq;
  en_room : room s - k <= room s';
  en_set : setup (tp s') = setup (tp s);
  en_state : t_state (tp s') &~ OUT = t_state (tp s) &~ OUT;
  en_buf : canonb s' = canonb s;
  en_user : user s' = user s;
}.

Lemma quiet_entered k s s' : quiet k s s' -> entered k [] s s'.
Proof. intros []. split; try done. by rewrite app_nil_r. Qed.

Lemma entered_refl s : entered 0 [] s s.
Proof. apply quiet_entered, hush_refl. Qed.

Lemma entered_trans k1 k2 l1 l2 s1 s2 s3 : entered k1 l1 s1 s2 -> entered k2 l2 s2 s3 -> entered (k1 + k2) (l1 ++ l2) s1 s3.
Proof. intros [] []. split; try congruence; [|lia]. rewrite app_assoc. congruence. Qed.

Lemma entered_quiet k1 k2 l s1 s2 s3 : entered k1 l s1 s2 -> quiet k2 s2 s3 -> entered (k1 + k2) l s1 s3.
Proof. intros He Hq%quiet_entered. rewrite <- (app_nil_r l). by eapply entered_trans. Qed.

Lemma entered_mono k k' l s s' : k <= k' -> entered k l s s' -> entered k' l s s'.
Proof. intros Hk []. split; try done. lia. Qed.

Lemma entered_plain k l s s' : entered k l s s' -> plain s -> plain s'.
Proof.
  intros He [H1 H2 H3 H4].
  assert (Hf : forall m, tst_flags s' m = tst_flags s m) by (intros m; unfold tst_flags; pose proof (en_set _ _ _ _ He) as E; injection E as E; by rewrite E).
  split; rewrite ?Hf; try done. unfold tst_state. rewrite <- (tst_clr_other _ OUT TTSTOP) by done.
  rewrite (en_state _ _ _ _ He), tst_clr_other by done. exact H4.
Qed.

(** Settings a terminal can be used with. *)
Record sane t : Prop := {
  sn_keys : Forall (fun c => 0 < c < 128 /\ c ∉ [t_intrc t; t_quitc t; t_startc t; t_stopc t; t_eofc t; NL; CR; TAB; CEOT])
    [t_erase t; t_kill t; BACKSLASH];
  sn_apart : NoDup [t_erase t; t_kill t; BACKSLASH];
  sn_nl : NL ∉ [t_intrc t; t_quitc t; t_startc t; t_stopc t; t_eofc t];
  sn_brk : t_brkc t = CBRK;
  sn_eof : t_eofc t = CEOT /\ CEOT ∉ [t_intrc t; t_quitc t; t_startc t; t_stopc t];
}.

Lemma sane_setup t t' : setup t' = setup t -> sane t -> sane t'.
Proof. intros E []. injection E as E1 E2 E3 E4 E5 E6 E7 E8 E9 E10.
  split; rewrite ?E3, ?E4, ?E5, ?E6, ?E7, ?E8, ?E9, ?E10; assumption. Qed.

(** Characters that neither control the line nor end it. *)
Definition typable t (c : Z) : Prop := 0 <= c < 256 /\ c ∉ [t_intrc t; t_quitc t; t_startc t; t_stopc t; t_eofc t; NL; CR; DELIM].

Lemma typable_setup t t' c : setup t' = setup t -> typable t c -> typable t' c.
Proof. intros E. injection E as E1 E2 E3 E4 E5 E6 E7 E8 E9 E10. unfold typable. congruence. Qed.

Ltac neqb := repeat match goal with
  | |- context [?a =? ?b] => rewrite (proj2 (Z.eqb_neq a b)) by (first [assumption|congruence|set_solver])
  end.

Lemma control_typable c s : plain s -> typable (tp s) c -> control c (t_flags (tp s)) s = (Some c, s).
Proof.
  intros Hp [_ Hc]. unfold control. rewrite (pl_stop _ Hp). cbv zeta. neqb. done.
Qed.

Lemma ttyoutput_char c s : plain s -> 58 < room s -> 0 <= c < 256 -> c <> CEOT -> c <> NL -> c <> TAB ->
  quiet 1 s (ttyoutput c s) /\ carriage (ttyoutput c s) = (column c (t_col (tp s)), t_echoct (tp s)).
Proof. exact (output_char 2 c s). Qed.

Lemma ttyoutput_nl s : plain s -> 59 < room s -> quiet 2 s (ttyoutput NL s) /\ carriage (ttyoutput NL s) = (0, t_echoct (tp s)).
Proof. exact (output_nl 1 s). Qed.

(** What the echo of [c] does to the column and to what may be rubbed out. *)
Definition echo_count t (c : Z) (x : Z * Z) : Z * Z :=
  let (col, n) := x in
  if c =? t_erase t then if n =? 0 then (col, n) else (column BS (column SP (column BS col)), byte (n - 1))
  else if c =? t_kill t then (0, 0)
  else let col' := column c col in (col', if (col <? col') && (n <? 255) then byte (n + 1) else n).

Lemma echo_char c s : plain s -> sane (tp s) -> typable (tp s) c -> c <> TAB -> c <> CEOT -> 62 < room s ->
  quiet 3 s (echo c (t_flags (tp s)) s) /\ carriage (echo c (t_flags (tp s)) s) = echo_count (tp s) c (carriage s).
Proof.
  intros Hp Hs [Hc Hno] Ht He Hr. unfold echo. cbv zeta. pose proof (pl_raw _ Hp) as Hraw. unfold tst_flags in Hraw. rewrite Hraw. cbn [negb].
  rewrite !andb_true_r. unfold echo_count, carriage at 2. destruct (Z.eqb_spec c (t_erase (tp s))) as [->|Hce].
  - destruct (Z.eqb_spec (t_echoct (tp s)) 0) as [E0|E0].
    + destruct (quiet_ttstart s) as [Hq Hcar]. split; [eapply quiet_mono; [|exact Hq]; lia|]. by rewrite Hcar.
    + destruct (ttyoutput_char BS s Hp) as [Q1 C1]; [lia|done..|]. set (s1 := ttyoutput BS s) in *.
      pose proof (qt_room _ _ _ Q1). destruct (ttyoutput_char SP s1 (plain_quiet _ _ _ Q1 Hp)) as [Q2 C2]; [lia|done..|]. set (s2 := ttyoutput SP s1) in *. pose proof (qt_room _ _ _ Q2).
      destruct (ttyoutput_char BS s2 (plain_quiet _ _ _ Q2 (plain_quiet _ _ _ Q1 Hp))) as [Q3 C3]; [lia|done..|]. set (s3 := ttyoutput BS s2) in *.
      assert (Q4 : quiet 0 s3 (on_tp (fun t => set_t_echoct (byte (t_echoct t - 1)) t) s3)) by (by apply quiet_tp).
      set (s4 := on_tp _ s3) in *. destruct (quiet_ttstart s4) as [Q5 C5]. split.
      * eapply (quiet_mono (1 + (1 + (1 + (0 + 0))))); [lia|]. eapply hush_trans; [exact Q1|]. eapply hush_trans; [exact Q2|].
        eapply hush_trans; [exact Q3|]. eapply hush_trans; [exact Q4|exact Q5].
      * rewrite C5. unfold carriage in *. unfold s4, on_tp. simpl. injection C1 as E1 E1'. injection C2 as E2 E2'. injection C3 as E3 E3'.
        by rewrite E3, E3', E2, E2', E1, E1'.
  - destruct (ttyoutput_char c s Hp) as [Q1 C1]; [lia|done|done|set_solver|done|]. set (s1 := ttyoutput c s) in *.
    pose proof (qt_room _ _ _ Q1). pose proof (qt_set _ _ _ Q1) as E. injection E as E1 E2 E3 E4 E5 E6 E7 E8 E9 E10. rewrite E4.
    injection C1 as K1 K2. destruct (Z.eqb_spec c (t_kill (tp s))) as [->|Hck].
    + destruct (ttyoutput_nl s1 (plain_quiet _ _ _ Q1 Hp)) as [Q2 C2]; [lia|]. set (s2 := ttyoutput NL s1) in *.
      pose proof (qt_set _ _ _ Q2) as E. injection E as F1 F2 F3 F4 F5 F6 F7 F8 F9 F10. injection C2 as L1 L2.
      replace (t_kill (tp s) =? t_kill (tp s2)) with true by (symmetry; apply Z.eqb_eq; congruence). rewrite !orb_true_r.
      assert (Q3 : quiet 0 s2 (on_tp (set_t_echoct 0) s2)) by (by apply quiet_tp). destruct (quiet_ttstart (on_tp (set_t_echoct 0) s2)) as [Q4 C4]. split.
      * eapply (quiet_mono (1 + (2 + (0 + 0)))); [lia|]. eapply hush_trans; [exact Q1|]. eapply hush_trans; [exact Q2|].
        eapply hush_trans; [exact Q3|exact Q4].
      * rewrite C4. unfold carriage, on_tp. simpl. by rewrite L1.
    + rewrite E9, E10, E4, (sn_brk _ Hs). unfold CBRK in *.
      replace ((c =? NL) || (c =? t_eofc (tp s)) || (c =? 255) || (c =? t_kill (tp s))) with false
        by (symmetry; unfold DELIM in *; neqb; done).
      rewrite K1, K2.
      set (s2 := if _ && _ then _ else s1).
      assert (Q2 : quiet 0 s1 s2 /\ carriage s2 = (column c (t_col (tp s)),
        if (t_col (tp s) <? column c (t_col (tp s))) && (t_echoct (tp s) <? 255) then byte (t_echoct (tp s) + 1) else t_echoct (tp s))).
      { unfold s2, carriage. case_match.
        - split; [by apply quiet_tp|]. simpl. by rewrite K1.
        - split; [apply hush_refl|]. by rewrite K1, K2. }
      destruct Q2 as [Q2 C2]. destruct (quiet_ttstart s2) as [Q3 C3]. split; [|by rewrite C3].
      eapply (quiet_mono (1 + (0 + 0))); [lia|]. eapply hush_trans; [exact Q1|]. eapply hush_trans; [exact Q2|exact Q3].
Qed.

Definition typed (l : list Z) s : line T := fold_left (fun s c => ttyinput c s) l s.

Lemma typed_app l1 l2 s : typed (l1 ++ l2) s = typed l2 (typed l1 s).
Proof. apply fold_left_app. Qed.

Definition bump_in s : line T := set_tk_nin (tk_nin s + 1) s.

(** A typable character goes to the raw queue and is echoed. *)
Lemma input_char c s : plain s -> sane (tp s) -> typable (tp s) c -> c <> TAB -> c <> CEOT -> 63 < room s -> c_cc s Rawq <= TTYHOG ->
  entered 4 [c] s (ttyinput c s) /\
  (tst_flags s ECHO = true -> carriage (ttyinput c s) = echo_count (tp s) c (carriage s)).
Proof.
  intros Hp Hs Hty Ht He Hr Hl. unfold ttyinput. fold (bump_in s). cbv zeta.
  assert (Ec : Z.land c 255 = c).
  { change 255 with (Z.ones 8). rewrite Z.land_ones by lia. apply Z.mod_small. apply Hty. }
  rewrite Ec. assert (Qb : quiet 0 s (bump_in s)) by (split; try done; simpl; lia).
  pose proof (plain_quiet _ _ _ Qb Hp) as Hpb. destruct (plain_raw _ Hpb) as [Hraw _]. pose proof (pl_tandem _ Hpb) as Htan.
  pose proof (pl_case _ Hpb) as Hcase. pose proof (pl_raw _ Hpb) as Hrc. unfold tst_flags in Hraw, Htan, Hcase, Hrc.
  rewrite Htan, Hraw. rewrite (control_typable c (bump_in s) Hpb Hty).
  destruct (Z.ltb_spec TTYHOG (c_cc (bump_in s) Rawq)) as [Hlt|_]; [unfold c_cc, chars in *; simpl in *; lia|]. rewrite Hcase. cbn [andb].
  assert (Een : enter c (t_flags (tp (bump_in s))) (bump_in s) = (putc c Rawq (bump_in s)).2).
  { unfold enter. destruct (putc_run c Rawq (bump_in s)) as (x & -> & _); [simpl; lia|]. cbv zeta. simpl.
    simpl in Hrc. rewrite Hrc, (sn_brk _ Hs). destruct Hty as [_ Hno]. unfold CBRK, DELIM in *.
    neqb. done. }
  rewrite Een. destruct (putc_run c Rawq (bump_in s)) as (x & -> & X1 & X2 & X3); [simpl; lia|]. simpl snd.
  set (s1 := set_qs x (bump_in s)).
  assert (E1 : entered 1 [c] s s1).
  { split; try done; unfold chars; simpl; [by rewrite X1, Ec|by rewrite X2]. }
  pose proof (entered_plain _ _ _ _ E1 Hp) as Hp1.
  change (t_flags (tp (bump_in s)) &? ECHO) with (tst_flags s ECHO). destruct (tst_flags s ECHO); cycle 1.
  { split; [|done]. eapply entered_mono; [|exact E1]. lia. }
  destruct (echo_char c s1 Hp1 Hs Hty Ht He) as [Q2 C2]; [simpl in X3; simpl; lia|].
  split; [|intros _; exact C2]. eapply (entered_mono (1 + 3)); [lia|]. by eapply entered_quiet.
Qed.

(** ** Keys and the editor *)

Inductive key := Char (e : list Z) | Erase | Kill | Quote (k : bool).

(** The bytes a key sends; [Quote] is a backslash before the erase or the kill character. *)
Definition key_bytes t (k : key) : list Z :=
  match k with
  | Char e => e
  | Erase => [t_erase t]
  | Kill => [t_kill t]
  | Quote b => [BACKSLASH; if b then t_erase t else t_kill t]
  end.

Definition key_text t (ks : list key) : list Z := mjoin (key_bytes t <$> ks).

(** A character with the line so far, as a list of characters. *)
Definition edit_key t (st : list (list Z)) (k : key) : list (list Z) :=
  match k with
  | Char e => st ++ [e]
  | Erase => removelast st
  | Kill => []
  | Quote b => st ++ [[if b then t_erase t else t_kill t]]
  end.

Definition edit t (ks : list key) (st : list (list Z)) : list (list Z) := fold_left (edit_key t) ks st.

(** A printing ASCII character, or a lead byte of UTF-8 with its continuation bytes. *)
Definition is_char (e : list Z) : Prop :=
  match e with
  | [] => False
  | c :: l => (32 <= c < 127 /\ l = []) \/ (192 <= c < 255 /\ Forall (fun b => 128 <= b < 192) l)
  end.

Definition special t (c : Z) : Prop := c ∈ [t_erase t; t_kill t; t_intrc t; t_quitc t; t_startc t; t_stopc t; t_eofc t; BACKSLASH].

Definition key_ok t (k : key) : Prop :=
  match k with
  | Char e => is_char e /\ Forall (fun c => ~ special t c) e
  | _ => True
  end.

(** What the bytes of a character are. *)
Lemma char_bytes e c : is_char e -> c ∈ e -> 32 <= c < 255 /\ c <> 127.
Proof.
  destruct e as [|a l]; [done|]. intros [[Ha ->]|[Ha Hl]] [->|Hc]%elem_of_cons; [lia|by apply not_elem_of_nil in Hc|lia|].
  rewrite Forall_forall in Hl. specialize (Hl c Hc). simpl in Hl. lia.
Qed.

Lemma sane_special t c : sane t -> c ∈ [t_erase t; t_kill t; BACKSLASH] -> typable t c /\ c <> TAB /\ c <> CEOT.
Proof.
  intros Hs Hc. pose proof (sn_keys _ Hs) as Hk. rewrite Forall_forall in Hk. destruct (Hk c Hc) as [Hr Hn].
  rewrite !not_elem_of_cons in Hn. destruct_and!. split; [|done]. split; [lia|].
  rewrite !not_elem_of_cons. split_and!; try done; try apply not_elem_of_nil; unfold DELIM; lia.
Qed.

Lemma key_typable t k c : sane t -> key_ok t k -> c ∈ key_bytes t k -> typable t c /\ c <> TAB /\ c <> CEOT.
Proof.
  intros Hs Hk Hc. destruct k as [e| | |b]; simpl in Hc.
  - destruct Hk as [He Hf]. destruct (char_bytes e c He Hc) as [Hr H7]. rewrite Forall_forall in Hf. specialize (Hf c Hc).
    unfold special in Hf. split; [|unfold TAB, CEOT; lia]. split; [lia|]. unfold DELIM, NL, CR.
    rewrite !not_elem_of_cons in Hf |- *. destruct_and!. split_and!; try assumption; lia.
  - apply list_elem_of_singleton in Hc as ->. destruct (sane_special t (t_erase t) Hs) as (? & ? & ?); [set_solver|done].
  - apply list_elem_of_singleton in Hc as ->. destruct (sane_special t (t_kill t) Hs) as (? & ? & ?); [set_solver|done].
  - destruct (sane_special t c Hs) as (? & ? & ?); [|done]. destruct b; set_solver.
Qed.

(** ** The line buffer *)

(** [canonb] holds [l] from [canonb[2]] on, and no backslash before it. *)
Definition held (l : list Z) s : Prop :=
  exists a b r, canonb s = a :: b :: l ++ r /\ b <> BACKSLASH /\ Z.of_nat (length (canonb s)) = CANBSIZ.

(** The end of the line in [canonb]. *)
Definition bp_of (l : list Z) : Z := 2 + Z.of_nat (length l).

(** The byte before the end of the line is not a backslash. *)
Definition ends_clear (l : list Z) s : Prop := exists x, canon_at s (bp_of l - 1) = Some x /\ x <> BACKSLASH.

(** The last byte stored. *)
Lemma held_last l x s : held (l ++ [x]) s -> canon_at s (bp_of (l ++ [x]) - 1) = Some x.
Proof.
  intros (a & b & r & E & _). unfold canon_at, bp_of. rewrite E, length_app. simpl length. rewrite (proj2 (Z.ltb_ge _ 0)) by lia.
  replace (Z.to_nat _) with (S (S (length l))) by lia. simpl. rewrite <- app_assoc. apply list_lookup_middle. done.
Qed.

Lemma held_first s : held [] s -> ends_clear [] s.
Proof. intros (a & b & r & E & Hb & _). exists b. split; [|done]. unfold canon_at, bp_of. by rewrite E. Qed.

(** The byte before the last one can be read. *)
Lemma held_before l x s : held (l ++ [x]) s -> exists y, canon_at s (bp_of (l ++ [x]) - 2) = Some y.
Proof.
  intros (a & b & r & E & _). unfold canon_at, bp_of. rewrite length_app. simpl length. rewrite (proj2 (Z.ltb_ge _ 0)) by lia.
  apply lookup_lt_is_Some. rewrite E. simpl. rewrite !length_app. simpl. lia.
Qed.

Lemma held_prefix l1 l2 s : held (l1 ++ l2) s -> held l1 s.
Proof. intros (a & b & r & E & Hb & Hl). exists a, b, (l2 ++ r). by rewrite app_assoc. Qed.

Lemma held_put l c s : held l s -> 0 <= c < 256 -> bp_of l < CANBSIZ ->
  exists s', canon_put (bp_of l) c s = Some s' /\ held (l ++ [c]) s' /\ qs s' = qs s /\ tp s' = tp s /\ user s' = user s.
Proof.
  intros (a & b & r & E & Hb & Hl) Hc Hlen. unfold canon_put. unfold bp_of, CANBSIZ in *.
  rewrite (proj2 (Z.leb_le 0 _)), (proj2 (Z.ltb_lt _ _)) by lia. eexists. split; [done|]. split; [|done].
  pose proof Hl as Hl'. rewrite E in Hl. simpl in Hl. rewrite length_app in Hl.
  destruct r as [|y r]; [simpl in Hl; lia|]. exists a, b, r. split; [|split; [done|]].
  - simpl. rewrite E. replace (Z.to_nat (2 + Z.of_nat (length l))) with (S (S (length l))) by lia. simpl.
    rewrite insert_app_r_alt by lia. rewrite Nat.sub_diag. simpl. rewrite <- app_assoc. simpl. unfold byte. by rewrite Z.mod_small.
  - simpl. by rewrite length_insert.
Qed.

(** A byte that goes on with a character of UTF-8. *)
Lemma continues c : 0 <= c < 256 -> (Z.land c 192 =? 128) = (128 <=? c) && (c <? 192).
Proof.
  intros Hc. assert (Hall : forallb (fun i => Bool.eqb (Z.land (Z.of_nat i) 192 =? 128) ((128 <=? Z.of_nat i) && (Z.of_nat i <? 192))) (seq 0 256) = true) by (by vm_compute).
  rewrite forallb_forall in Hall. specialize (Hall (Z.to_nat c)). rewrite Z2Nat.id in Hall by lia. apply eqb_prop, Hall.
  apply in_seq. lia.
Qed.

(** An erase takes off a whole character. *)
Lemma rubout_char n l c cs s : held (l ++ c :: cs) s -> 0 <= c < 256 -> ~ 128 <= c < 192 -> Forall (fun b => 128 <= b < 192) cs ->
  (length cs < n)%nat -> rubout n (bp_of (l ++ c :: cs)) s = Some (bp_of l).
Proof.
  intros Hh Hc Hc' Hcs. revert n. induction cs as [|d cs IH] using rev_ind; intros n Hn.
  - destruct n as [|n]; [lia|]. cbn [rubout]. rewrite (held_last l c s Hh). simpl. rewrite continues by done.
    unfold bp_of. rewrite length_app. simpl length. rewrite (proj2 (Z.leb_gt _ 2)) by lia.
    replace ((128 <=? c) && (c <? 192)) with false by lia. f_equal. lia.
  - apply Forall_app in Hcs as [Hcs [Hd _]%Forall_cons]. destruct n as [|n]; [lia|].
    rewrite app_comm_cons, app_assoc in Hh |- *. cbn [rubout]. rewrite (held_last _ d s Hh). simpl. rewrite (continues d) by lia.
    rewrite (proj2 (Z.leb_gt _ 2)) by (unfold bp_of; rewrite length_app; simpl; lia). replace ((128 <=? d) && (d <? 192)) with true by lia.
    rewrite length_app in Hn. simpl in Hn. replace (bp_of ((l ++ c :: cs) ++ [d]) - 1) with (bp_of (l ++ c :: cs)).
    + apply IH; [by eapply held_prefix|done|lia].
    + unfold bp_of. rewrite !length_app. simpl. lia.
Qed.

Lemma rubout_none n s : rubout n 2 s = Some 2.
Proof. by destruct n. Qed.

(** ** From the raw queue to the buffer *)

(** [s'] is [s] after some of the raw queue was taken; [l] is what it then has. *)
Record taken (l : list Z) s s' : Prop := {
  tk_raw : chars s' Rawq = l;
  tk_can : chars s' Canq = chars s Canq;
  tk_room : room s <= room s';
  tk_tp : tp s' = tp s;
  tk_user : user s' = user s;
}.

Lemma taken_trans l1 l2 s1 s2 s3 : taken l1 s1 s2 -> taken l2 s2 s3 -> taken l2 s1 s3.
Proof. intros [] []. split; try congruence. lia. Qed.

Lemma raw_get s c l : chars s Rawq = c :: l -> exists x, getc Rawq s = (c, set_qs x s) /\ taken l s (set_qs x s).
Proof.
  intros E. destruct (getc_run _ _ _ _ E) as (x & Hg & H1 & H2 & H3). exists x. split; [done|].
  split; try done. unfold chars. simpl. by rewrite H2.
Qed.

Lemma rubout_qs n bp x s : rubout n bp (set_qs x s) = rubout n bp s.
Proof.
  revert bp. induction n as [|n IH]; intros bp; [done|]. cbn [rubout]. change (canon_at (set_qs x s) (bp - 1)) with (canon_at s (bp - 1)).
  destruct (bp <=? 2); [done|]. destruct (canon_at s (bp - 1)); [|done]. simpl. by rewrite IH.
Qed.

Lemma canon_char_qs c bp x s : canon_char c bp (set_qs x s) = canon_char c bp s.
Proof. unfold canon_char. rewrite rubout_qs. done. Qed.

(** A byte that is stored. *)
Lemma canon_store n c l k k' s : chars s Rawq = c :: l -> cooked s = true -> held k s -> c <> DELIM -> 0 <= c < 256 ->
  canon_char c (bp_of k) s = Some (bp_of k', Some c) -> held k' s -> bp_of k' + 1 < CANBSIZ ->
  exists s', canon_loop (S n) (bp_of k) s = canon_loop n (bp_of (k' ++ [c])) s' /\ taken l s s' /\ held (k' ++ [c]) s'.
Proof.
  intros E Hco Hk Hd Hc Hch Hk' Hlen. destruct (raw_get _ _ _ E) as (x & Hg & Ht). set (s1 := set_qs x s) in *. cbn [canon_loop]. rewrite Hg.
  replace (c <? 0) with false by lia. change (cooked s1) with (cooked s). rewrite Hco, (proj2 (Z.eqb_neq c DELIM)) by done. cbn [andb].
  unfold s1. rewrite canon_char_qs, Hch. fold s1.
  destruct (held_put k' c s1) as (s2 & -> & K2 & Q2 & P2 & U2); [done|done|lia|]. replace (CANBSIZ <=? bp_of k' + 1) with false by lia.
  exists s2. split; [|split; [|done]].
  - f_equal. unfold bp_of. rewrite length_app. simpl. lia.
  - eapply taken_trans; [exact Ht|]. split; unfold chars; rewrite ?Q2; try done. apply Ht.
Qed.

(** A byte that only moves the end. *)
Lemma canon_move n c l k k' s : chars s Rawq = c :: l -> cooked s = true -> held k s -> c <> DELIM -> 0 <= c ->
  canon_char c (bp_of k) s = Some (bp_of k', None) -> held k' s ->
  exists s', canon_loop (S n) (bp_of k) s = canon_loop n (bp_of k') s' /\ taken l s s' /\ held k' s'.
Proof.
  intros E Hco Hk Hd Hc Hch Hk'. destruct (raw_get _ _ _ E) as (x & Hg & Ht). set (s1 := set_qs x s) in *. cbn [canon_loop]. rewrite Hg.
  replace (c <? 0) with false by lia. change (cooked s1) with (cooked s). rewrite Hco, (proj2 (Z.eqb_neq c DELIM)) by done. cbn [andb].
  unfold s1. rewrite canon_char_qs, Hch. fold s1. by exists s1.
Qed.

(** ** Keys *)

(** What a stored character can be. *)
Definition stored t (e : list Z) : Prop :=
  (is_char e /\ Forall (fun c => ~ special t c) e) \/ e = [t_erase t] \/ e = [t_kill t].

Lemma stored_char t e : sane t -> stored t e -> exists c cs, e = c :: cs /\ 0 <= c < 256 /\ ~ 128 <= c < 192 /\
  Forall (fun b => 128 <= b < 192) cs.
Proof.
  intros Hs He. pose proof (sn_keys _ Hs) as Hk. rewrite !Forall_cons in Hk. destruct Hk as ([K1 _] & [K2 _] & _).
  destruct He as [[He _]|[-> | ->]].
  - destruct e as [|c cs]; [done|]. exists c, cs. destruct He as [[? ->]|[? ?]]; split_and!; try done; try lia; by constructor.
  - exists (t_erase t), []. split_and!; try done; try lia; by constructor.
  - exists (t_kill t), []. split_and!; try done; try lia; by constructor.
Qed.

(** No stored character ends in a backslash. *)
Lemma stored_no_slash t e l x : sane t -> stored t e -> e = l ++ [x] -> x <> BACKSLASH.
Proof.
  intros Hs He E. pose proof (sn_apart _ Hs) as Hn. rewrite !NoDup_cons in Hn. destruct He as [[_ Hf]|[He|He]].
  - rewrite E, Forall_app, Forall_cons in Hf. destruct Hf as (_ & Hx & _). unfold special in Hx. set_solver.
  - rewrite He in E. destruct l as [|y [|z l]]; simplify_eq/=. set_solver.
  - rewrite He in E. destruct l as [|y [|z l]]; simplify_eq/=. set_solver.
Qed.

Lemma text_no_slash t st s : sane t -> Forall (stored t) st -> held (mjoin st) s ->
  ends_clear (mjoin st) s.
Proof.
  intros Hs Hst Hh. destruct st as [|e st _] using rev_ind; [by apply held_first|]. rewrite join_app in Hh |- *. simpl in Hh |- *. rewrite app_nil_r in Hh |- *.
  apply Forall_app in Hst as [_ [He _]%Forall_cons]. destruct (stored_char _ _ Hs He) as (c & cs & -> & _).
  destruct (exists_last (l := c :: cs)) as (l & x & E); [done|]. rewrite E, app_assoc in Hh |- *.
  exists x. split; [by apply held_last|]. by eapply stored_no_slash.
Qed.

(** The bytes of a character are stored one by one. *)
Lemma canon_bytes n e l k s : sane (tp s) -> cooked s = true -> chars s Rawq = e ++ l -> held k s ->
  ends_clear k s -> Forall (fun c => 0 <= c < 255 /\ ~ special (tp s) c) e ->
  bp_of (k ++ e) < CANBSIZ ->
  exists s', canon_loop (length e + n) (bp_of k) s = canon_loop n (bp_of (k ++ e)) s' /\ taken l s s' /\ held (k ++ e) s'.
Proof.
  intros Hs. revert k s Hs. induction e as [|c e IH]; intros k s Hs Hco E Hk Hb He Hlen.
  { exists s. rewrite app_nil_r. done. }
  apply Forall_cons in He as [[Hc Hsp] He]. unfold special in Hsp. rewrite !not_elem_of_cons in Hsp. destruct_and! Hsp.
  unfold bp_of in Hlen. rewrite length_app in Hlen. simpl in Hlen.
  destruct (canon_store (length e + n) c (e ++ l) k k s E Hco Hk) as (s1 & R1 & T1 & K1);
    [unfold DELIM; lia|lia| |done|unfold bp_of; lia|].
  { destruct Hb as (x & Ex & Hx). unfold canon_char. rewrite Hco, Ex. cbn [negb mbind option_bind]. rewrite (proj2 (Z.eqb_neq _ _) Hx). cbn [negb].
    rewrite !(proj2 (Z.eqb_neq c _)) by assumption. done. }
  destruct (IH (k ++ [c]) s1) as (s2 & R2 & T2 & K2).
  - by rewrite (tk_tp _ _ _ T1).
  - unfold cooked, tst_flags. by rewrite (tk_tp _ _ _ T1).
  - apply T1.
  - done.
  - exists c. split; [by apply held_last|done].
  - by rewrite (tk_tp _ _ _ T1).
  - unfold bp_of. rewrite !length_app. simpl. lia.
  - exists s2. rewrite <- app_assoc in R2, K2. simpl in *. split_and!; try done; [by rewrite R1|by eapply taken_trans].
Qed.

Lemma edit_stored t k st : sane t -> key_ok t k -> Forall (stored t) st -> Forall (stored t) (edit_key t st k).
Proof.
  intros Hs Hk Hst. destruct k as [e| | |b]; simpl.
  - apply Forall_app. split; [done|]. apply Forall_singleton. by left.
  - destruct st as [|e st _] using rev_ind; [done|]. rewrite removelast_last. by apply Forall_app in Hst as [? _].
  - constructor.
  - apply Forall_app. split; [done|]. apply Forall_singleton. destruct b; right; [by left|by right].
Qed.

Lemma special_keys t c : sane t -> c ∈ [t_erase t; t_kill t; BACKSLASH] -> 0 < c < 128 /\ c <> DELIM /\ c <> t_eofc t.
Proof.
  intros Hs Hc. pose proof (sn_keys _ Hs) as Hk. rewrite Forall_forall in Hk. destruct (Hk c Hc) as [Hr Hn].
  split_and!; [lia|lia|unfold DELIM; lia|set_solver].
Qed.

(** The line so far, after a key. *)
Lemma canon_key n k l st s : sane (tp s) -> key_ok (tp s) k -> cooked s = true -> chars s Rawq = key_bytes (tp s) k ++ l ->
  Forall (stored (tp s)) st -> held (mjoin st) s -> bp_of (mjoin st ++ key_bytes (tp s) k) < CANBSIZ ->
  exists s', canon_loop (length (key_bytes (tp s) k) + n) (bp_of (mjoin st)) s =
      canon_loop n (bp_of (mjoin (edit_key (tp s) st k))) s' /\
    taken l s s' /\ held (mjoin (edit_key (tp s) st k)) s'.
Proof.
  intros Hs Hk Hco E Hst Hh Hlen. destruct (text_no_slash _ _ _ Hs Hst Hh) as (z & Ez & Hb).
  pose proof (special_keys _ (t_erase (tp s)) Hs) as [De1 [De2 De3]]; [set_solver|].
  pose proof (special_keys _ (t_kill (tp s)) Hs) as [Dk1 [Dk2 Dk3]]; [set_solver|].
  assert (Hap : t_erase (tp s) <> t_kill (tp s) /\ t_erase (tp s) <> BACKSLASH /\ t_kill (tp s) <> BACKSLASH).
  { pose proof (sn_apart _ Hs) as Hn. rewrite !NoDup_cons in Hn. set_solver. }
  destruct Hap as (Hek & Hes & Hks). destruct k as [e| | |b]; simpl key_bytes in *; simpl edit_key.
  - rewrite join_app. simpl. rewrite app_nil_r. apply canon_bytes; try done; [by exists z|]. destruct Hk as [He Hf].
    rewrite Forall_forall in Hf |- *. intros c Hc. destruct (char_bytes e c He Hc). split; [lia|by apply Hf].
  - apply (canon_move n (t_erase (tp s)) l (mjoin st)); try done; [lia| |].
    + unfold canon_char. rewrite Hco, Ez. cbn [negb mbind option_bind]. rewrite (proj2 (Z.eqb_neq _ _) Hb), Z.eqb_refl. cbn [negb].
      enough (E0 : rubout (Z.to_nat CANBSIZ) (bp_of (mjoin st)) s = Some (bp_of (mjoin (removelast st)))) by (by rewrite E0).
      generalize (eq_refl (Z.to_nat CANBSIZ)). generalize (Z.to_nat CANBSIZ) at 1 3. intros m Em.
      destruct st as [|e st _] using rev_ind; [by rewrite rubout_none|]. rewrite removelast_last.
      rewrite join_app in Hh |- *. simpl in Hh |- *. rewrite app_nil_r in Hh |- *.
      apply Forall_app in Hst as [_ [He _]%Forall_cons]. destruct (stored_char _ _ Hs He) as (c & cs & -> & Hc & Hc' & Hcs).
      apply rubout_char; [done..|]. subst m. unfold bp_of, CANBSIZ in *. rewrite join_app, !length_app in Hlen. simpl in Hlen. rewrite length_app in Hlen. simpl in Hlen. lia.
    + destruct st as [|e st _] using rev_ind; [done|]. rewrite removelast_last. rewrite join_app in Hh. by eapply held_prefix.
  - apply (canon_move n (t_kill (tp s)) l (mjoin st)); try done; [lia| |].
    + unfold canon_char. rewrite Hco, Ez. cbn [negb mbind option_bind]. rewrite (proj2 (Z.eqb_neq _ _) Hb), (proj2 (Z.eqb_neq (t_kill (tp s)) (t_erase (tp s)))), Z.eqb_refl by congruence. done.
    + by apply (held_prefix [] (mjoin st)).
  - set (c := if b then t_erase (tp s) else t_kill (tp s)) in *.
    assert (Hc : 0 < c < 128 /\ c <> DELIM /\ c <> BACKSLASH) by (unfold c; destruct b; lia).
    assert (Hcs : (c =? t_erase (tp s)) || (c =? t_kill (tp s)) = true) by (unfold c; destruct b; rewrite Z.eqb_refl, ?orb_true_r; done).
    clearbody c. pose proof (special_keys _ BACKSLASH Hs) as [Db1 [Db2 Db3]]; [set_solver|].
    assert (Hl2 : bp_of (mjoin st) + 2 < CANBSIZ) by (unfold bp_of, CANBSIZ in *; rewrite length_app in Hlen; simpl in Hlen; lia).
    destruct (canon_store (S n) BACKSLASH (c :: l) (mjoin st) (mjoin st) s) as (s1 & R1 & T1 & K1); try done; [|lia|].
    { unfold canon_char. rewrite Hco, Ez. cbn [negb mbind option_bind]. rewrite (proj2 (Z.eqb_neq _ _) Hb). cbn [negb]. neqb. done. }
    destruct (canon_store n c l (mjoin st ++ [BACKSLASH]) (mjoin st) s1) as (s2 & R2 & T2 & K2).
    + apply T1.
    + unfold cooked, tst_flags. by rewrite (tk_tp _ _ _ T1).
    + done.
    + apply Hc.
    + lia.
    + unfold canon_char. unfold cooked, tst_flags in Hco |- *. rewrite (tk_tp _ _ _ T1), Hco. cbn [negb].
      rewrite (held_last _ _ _ K1). cbn [mbind option_bind]. change (BACKSLASH =? BACKSLASH) with true. cbn [negb]. rewrite Hcs, Z.eqb_refl, (proj2 (Z.eqb_neq c 0)) by lia. cbn [orb andb negb].
      destruct (held_before _ _ _ K1) as (y & ->). cbn [mbind option_bind]. f_equal. f_equal; [unfold bp_of; rewrite length_app; simpl; lia|]. f_equal. by case_match.
    + by eapply held_prefix.
    + lia.
    + exists s2. rewrite join_app. change (mjoin [[c]]) with [c]. change (length [BACKSLASH; c] + n)%nat with (S (S n)). split_and!; [by rewrite R1, R2| |done]. by eapply taken_trans.
Qed.

Lemma edit_shorter t k st : (length (mjoin (edit_key t st k)) <= length (mjoin st ++ key_bytes t k))%nat.
Proof.
  rewrite length_app. destruct k as [e| | |b]; simpl; [rewrite join_app, length_app; simpl; rewrite app_nil_r; lia| |lia|rewrite join_app, length_app; simpl; lia].
  destruct st as [|e st _] using rev_ind; [simpl; lia|]. rewrite removelast_last, join_app, length_app. lia.
Qed.

Lemma key_text_cons t k ks : key_text t (k :: ks) = key_bytes t k ++ key_text t ks.
Proof. done. Qed.

Lemma canon_keys n ks l st s : sane (tp s) -> Forall (key_ok (tp s)) ks -> cooked s = true -> chars s Rawq = key_text (tp s) ks ++ l ->
  Forall (stored (tp s)) st -> held (mjoin st) s -> bp_of (mjoin st ++ key_text (tp s) ks) < CANBSIZ ->
  exists s', canon_loop (length (key_text (tp s) ks) + n) (bp_of (mjoin st)) s =
      canon_loop n (bp_of (mjoin (edit (tp s) ks st))) s' /\
    taken l s s' /\ held (mjoin (edit (tp s) ks st)) s' /\ Forall (stored (tp s)) (edit (tp s) ks st).
Proof.
  revert st s. induction ks as [|k ks IH]; intros st s Hs Hk Hco E Hst Hh Hlen; [by exists s|].
  apply Forall_cons in Hk as [Hk Hks]. rewrite key_text_cons in E, Hlen |- *.
  rewrite <- app_assoc in E. unfold bp_of in Hlen. rewrite !length_app in Hlen.
  pose proof (edit_shorter (tp s) k st) as Hsh. rewrite length_app in Hsh.
  destruct (canon_key (length (key_text (tp s) ks) + n) k (key_text (tp s) ks ++ l) st s) as (s1 & R1 & T1 & K1); try done;
    [unfold bp_of, CANBSIZ in *; rewrite length_app; lia|]. pose proof (tk_tp _ _ _ T1) as Et.
  destruct (IH (edit_key (tp s) st k) s1) as (s2 & R2 & T2 & K2 & F2); rewrite ?Et; try done.
  - unfold cooked, tst_flags. by rewrite Et.
  - apply T1.
  - by apply edit_stored.
  - unfold bp_of, CANBSIZ in *. rewrite length_app. lia.
  - exists s2. rewrite Et in R2, K2, F2. split_and!; try done; [|by eapply taken_trans].
    rewrite length_app, <- Nat.add_assoc, R1. exact R2.
Qed.

(** ** The end of a line *)

Definition ending t (e : bool) : Z := if e then NL else t_eofc t.
Definition kept (e : bool) : list Z := if e then [NL] else [].

Lemma end_keys t e : sane t -> ending t e <> t_erase t /\ ending t e <> t_kill t /\ 0 <= ending t e < 128 /\
  ending t e ∉ [t_intrc t; t_quitc t; t_startc t; t_stopc t; CR; TAB; DELIM].
Proof.
  intros Hs. destruct (sn_eof _ Hs) as [Heof He]. pose proof (sn_nl _ Hs) as Hn. pose proof (sn_keys _ Hs) as Hk. rewrite !Forall_cons in Hk.
  destruct Hk as ([_ N1] & [_ N2] & _). rewrite !not_elem_of_cons in N1. rewrite !not_elem_of_cons in N2. rewrite !not_elem_of_cons in Hn. rewrite !not_elem_of_cons in He. rewrite !not_elem_of_cons. destruct_and!.
  destruct e; simpl; rewrite ?Heof; split_and!; try done; try congruence; apply not_elem_of_nil.
Qed.

Lemma canon_end n e l k s : sane (tp s) -> cooked s = true -> chars s Rawq = ending (tp s) e :: DELIM :: l -> held k s ->
  ends_clear k s -> bp_of k + 1 < CANBSIZ ->
  exists s', canon_loop (S (S n)) (bp_of k) s =
      Some (bp_of (k ++ kept e), on_tp (fun t => set_t_delct (byte (t_delct t - 1)) t) s') /\
    taken l s s' /\ held (k ++ kept e) s'.
Proof.
  intros Hs Hco E Hk Hb Hlen. destruct (end_keys _ e Hs) as (Ne & Nk & Hc & _).
  assert (Hch : canon_char (ending (tp s) e) (bp_of k) s = Some (bp_of k, if e then Some (ending (tp s) e) else None)).
  { destruct Hb as (z & Ez & Hb). unfold canon_char. rewrite Hco, Ez. cbn [negb mbind option_bind]. rewrite (proj2 (Z.eqb_neq _ _) Hb), (proj2 (Z.eqb_neq _ _) Ne), (proj2 (Z.eqb_neq _ _) Nk). cbn [negb].
    destruct e; simpl ending; [|by rewrite Z.eqb_refl]. rewrite (proj1 (sn_eof _ Hs)). done. }
  assert (Hstep : exists s', canon_loop (S (S n)) (bp_of k) s = canon_loop (S n) (bp_of (k ++ kept e)) s' /\
    taken (DELIM :: l) s s' /\ held (k ++ kept e) s').
  { assert (Hd : ending (tp s) e <> DELIM) by (unfold DELIM; lia). destruct e; simpl kept.
    - apply (canon_store (S n) NL (DELIM :: l) k k); try done.
    - rewrite app_nil_r. apply (canon_move (S n) (ending (tp s) false) (DELIM :: l) k k); try done. lia. }
  destruct Hstep as (s1 & R1 & T1 & K1). destruct (raw_get _ _ _ (tk_raw _ _ _ T1)) as (x & Hg & T2).
  exists (set_qs x s1). split_and!; [|by eapply taken_trans|done]. rewrite R1. cbn [canon_loop]. rewrite Hg.
  change (DELIM <? 0) with false. change (DELIM =? DELIM) with true. unfold cooked, tst_flags in Hco |- *.
  change (tp (set_qs x s1)) with (tp s1). by rewrite (tk_tp _ _ _ T1), Hco.
Qed.

Lemma b_to_q_run l q s : Forall (fun c => 0 <= c < 256) l -> 58 + Z.of_nat (length l) <= room s ->
  exists x, b_to_q l q s = (0, set_qs x s) /\ q_chars x q = chars s q ++ l /\ (forall r, r <> q -> q_chars x r = chars s r) /\
    room s - Z.of_nat (length l) <= q_room x.
Proof.
  revert s. induction l as [|c l IH]; intros s Hl Hr.
  { exists (qs s). rewrite app_nil_r. split_and!; try done; [by destruct s|simpl; lia]. }
  apply Forall_cons in Hl as [Hc Hl]. simpl in Hr. destruct (putc_run c q s) as (x & Hp & X1 & X2 & X3); [lia|]. cbn [b_to_q]. rewrite Hp. simpl.
  destruct (IH (set_qs x s) Hl) as (y & -> & Y1 & Y2 & Y3); [simpl; lia|]. exists y. split_and!; [done| | |simpl in *; lia].
  - rewrite Y1. unfold chars at 1. simpl. rewrite X1, <- app_assoc. simpl. do 2 f_equal.
    change 255 with (Z.ones 8). rewrite Z.land_ones by lia. by apply Z.mod_small.
  - intros r Hq. rewrite Y2 by done. unfold chars at 1. simpl. auto.
Qed.

(** What an edited line holds. *)
Definition line_text t (ks : list key) (e : bool) : list Z := mjoin (edit t ks []) ++ kept e.

Lemma stored_bytes t e : sane t -> stored t e -> Forall (fun c => 0 <= c < 256) e.
Proof.
  intros Hs He. destruct (stored_char _ _ Hs He) as (c & cs & -> & Hc & _ & Hcs). constructor; [done|].
  eapply Forall_impl; [exact Hcs|]. simpl. lia.
Qed.

Lemma kept_bytes e : Forall (fun c => 0 <= c < 256) (kept e).
Proof. destruct e; repeat constructor; unfold NL; lia. Qed.

Lemma text_bytes t st : sane t -> Forall (stored t) st -> Forall (fun c => 0 <= c < 256) (mjoin st).
Proof. intros Hs Hst. induction Hst; simpl; [constructor|]. apply Forall_app. split; [by eapply stored_bytes|done]. Qed.

Lemma held_text l s : held l s -> take (length l) (drop 2 (canonb s)) = l.
Proof. intros (a & b & r & -> & _). change (take (length l) (l ++ r) = l). apply take_app_length. Qed.

Lemma edit_length t ks st : (length (mjoin (edit t ks st)) <= length (mjoin st) + length (key_text t ks))%nat.
Proof.
  revert st. induction ks as [|k ks IH]; intros st; simpl; [lia|]. rewrite key_text_cons, length_app.
  pose proof (edit_shorter t k st) as Hk. rewrite length_app in Hk. specialize (IH (edit_key t st k)). fold (edit t ks (edit_key t st k)). lia.
Qed.

(** A line on the raw queue goes to the other queue as it was edited. *)
Lemma canon_whole ks e s : sane (tp s) -> Forall (key_ok (tp s)) ks -> cooked s = true -> tst_state s TBLOCK = false ->
  chars s Rawq = key_text (tp s) ks ++ [ending (tp s) e; DELIM] -> chars s Canq = [] -> held [] s ->
  Z.of_nat (length (key_text (tp s) ks)) <= CANBSIZ - 4 -> 59 + Z.of_nat (length (key_text (tp s) ks)) <= room s ->
  exists s', canon_line s = Some (Z.of_nat (length (line_text (tp s) ks e)), s') /\ chars s' Rawq = [] /\
    chars s' Canq = line_text (tp s) ks e /\ tp s' = set_t_delct (byte (t_delct (tp s) - 1)) (tp s) /\ user s' = user s /\ held [] s'.
Proof.
  intros Hs Hk Hco Htb E Hcan Hh Hlen Hroom. unfold canon_line. rewrite E, length_app. simpl length.
  replace (S (length (key_text (tp s) ks) + 2))%nat with (length (key_text (tp s) ks) + 3)%nat by lia.
  destruct (canon_keys 3 ks [ending (tp s) e; DELIM] [] s) as (s1 & R1 & T1 & K1 & F1); try done; [unfold bp_of; simpl in *; lia|].
  pose proof (edit_length (tp s) ks []) as Hel. simpl in Hel. change (bp_of (mjoin [])) with 2 in R1. rewrite R1.
  pose proof (tk_tp _ _ _ T1) as Et. destruct (canon_end 1 e [] (mjoin (edit (tp s) ks [])) s1) as (s2 & R2 & T2 & K2); rewrite ?Et; try done.
  - unfold cooked, tst_flags. by rewrite Et.
  - apply T1.
  - by eapply text_no_slash.
  - unfold bp_of in *. lia.
  - rewrite R2. fold (line_text (tp s) ks e) in *. set (txt := line_text (tp s) ks e) in *. cbv zeta beta iota.
    set (s3 := on_tp _ s2). change (canonb s3) with (canonb s2). replace (bp_of txt - 2) with (Z.of_nat (length txt)) by (unfold bp_of; lia).
    rewrite Nat2Z.id, (held_text _ _ K2). pose proof (taken_trans _ _ _ _ _ T1 T2) as T3. pose proof (tk_room _ _ _ T3).
    destruct (b_to_q_run txt Canq s3) as (x & -> & X1 & X2 & X3).
    + apply Forall_app. split; [by eapply text_bytes|apply kept_bytes].
    + change (room s3) with (room s2). unfold txt, line_text. rewrite length_app. destruct e; simpl in *; lia.
    + cbn [snd]. unfold unblock. change (tst_state (set_qs x s3) TBLOCK) with (tst_state s2 TBLOCK). unfold tst_state in Htb |- *.
      rewrite (tk_tp _ _ _ T3), Htb. cbn [andb]. exists (set_qs x s3). split; [done|]. split_and!.
      * unfold chars. simpl. rewrite X2 by done. apply T3.
      * unfold chars. simpl. rewrite X1. change (chars s3 Canq) with (chars s2 Canq). by rewrite (tk_can _ _ _ T3), Hcan.
      * simpl. by rewrite (tk_tp _ _ _ T3).
      * exact (tk_user _ _ _ T3).
      * by apply (held_prefix [] txt).
Qed.

(** ** To the program *)

(** Memory with the bytes [l] at [b]. *)
Definition poke (b : Z) (l : list Z) (m : Z -> Z) : Z -> Z :=
  fun a => if b <=? a then default (m a) (l !! Z.to_nat (a - b)) else m a.

Lemma poke_nil b m a : poke b [] m a = m a.
Proof. unfold poke. by destruct (b <=? a). Qed.

Lemma poke_cons b c l m a : poke (b + 1) l (fun x => if x =? b then c else m x) a = poke b (c :: l) m a.
Proof.
  unfold poke. destruct (Z.leb_spec b a), (Z.leb_spec (b + 1) a); try lia.
  - replace (Z.to_nat (a - b)) with (S (Z.to_nat (a - (b + 1)))) by lia. simpl. by rewrite (proj2 (Z.eqb_neq a b)) by lia.
  - replace a with b by lia. rewrite Z.sub_diag, Z.eqb_refl. done.
  - by rewrite (proj2 (Z.eqb_neq a b)) by lia.
Qed.

(** What the program has after it took [n] of the bytes [l] of a line. *)
Record passed (n : nat) (l : list Z) s s' : Prop := {
  ps_raw : chars s' Rawq = chars s Rawq;
  ps_can : chars s' Canq = drop n l;
  ps_tp : tp s' = tp s;
  ps_buf : canonb s' = canonb s;
  ps_mem : forall a, umem s' a = poke (u_base s) (take n l) (umem s) a;
  ps_count : u_count s' = u_count s - Z.of_nat n;
  ps_base : u_base s' = u_base s + Z.of_nat n;
  ps_error : u_error s' = u_error s;
}.

Lemma take_line_passed l m s : chars s Canq = l -> (length l <= m)%nat -> 0 < u_count s -> Forall (fun c => 0 <= c < 256) l ->
  (forall a, u_base s <= a < u_base s + u_count s -> umap s a = true) ->
  passed (length l `min` Z.to_nat (u_count s)) l s (take_line m s).
Proof.
  revert m s. induction l as [|c l IH]; intros m s E Hm Hc Hl Hu.
  { destruct m; cbn [take_line]; unfold c_cc; rewrite ?E; simpl; split; simpl; try done; try lia; intros a; by rewrite poke_nil. }
  destruct m as [|m]; [simpl in Hm; lia|]. cbn [take_line]. unfold c_cc. rewrite E. simpl length. cbn [Z.of_nat Z.eqb].
  apply Forall_cons in Hl as [Hc1 Hl]. destruct (getc_run _ _ _ _ E) as (x & -> & X1 & X2 & X3). set (s1 := set_qs x s).
  unfold passc. change (umap s1 (u_base s1)) with (umap s (u_base s)). rewrite Hu by lia. cbn [negb]. rewrite andb_false_r. cbv zeta.
  set (s2 := user_next _). assert (E2 : byte c = c) by (unfold byte; by apply Z.mod_small).
  assert (Hr : chars s2 Rawq = chars s Rawq) by (unfold chars; simpl; by apply X2).
  change (u_count s2) with (u_count s - 1). destruct (Z.eqb_spec (u_count s - 1) 0) as [E0|E0]; simpl.
  - replace (Z.to_nat (u_count s)) with 1%nat by lia. simpl Nat.min. rewrite Nat.min_0_r.
    split; try done; simpl; try lia. intros a. rewrite <- poke_cons, E2. by rewrite poke_nil.
  - assert (H2 : passed (length l `min` Z.to_nat (u_count s2)) l s2 (take_line m s2)).
    { apply IH; try done; simpl in *; try lia. intros a Ha. apply Hu. lia. }
    change (u_count s2) with (u_count s - 1) in H2. destruct (Z.to_nat (u_count s)) as [|n] eqn:En; [lia|].
    replace (Z.to_nat (u_count s - 1)) with n in H2 by lia. destruct H2 as [P1 P2 P3 P4 P5 P6 P7 P8].
    simpl Nat.min. split; [by rewrite P1|exact P2|exact P3|exact P4| |rewrite P6; simpl; lia|rewrite P7; simpl; lia|exact P8].
    intros a. rewrite P5. simpl. by rewrite E2, poke_cons.
Qed.

(** ** A whole line *)

Lemma fold_left_same {A B} (f g : A -> B -> A) l x : (forall b a, f a b = g a b) -> fold_left f l x = fold_left g l x.
Proof. intros E. revert x. induction l as [|b l IH]; intros x; simpl; [done|]. by rewrite E, IH. Qed.

(** Characters typed one after another. *)
Lemma typed_bytes l s : plain s -> sane (tp s) -> Forall (fun c => typable (tp s) c /\ c <> TAB /\ c <> CEOT) l ->
  63 + 4 * Z.of_nat (length l) <= room s -> c_cc s Rawq + Z.of_nat (length l) <= TTYHOG + 1 ->
  entered (4 * Z.of_nat (length l)) l s (typed l s) /\
  (tst_flags s ECHO = true -> carriage (typed l s) = fold_left (fun x c => echo_count (tp s) c x) l (carriage s)).
Proof.
  revert s. induction l as [|c l IH]; intros s Hp Hs Hl Hr Hc; [split; [apply entered_refl|done]|].
  apply Forall_cons in Hl as [(H1 & H2 & H3) Hl]. simpl length in *.
  destruct (input_char c s Hp Hs H1 H2 H3) as [E1 C1]; [lia|lia|]. set (s1 := ttyinput c s) in *. pose proof (en_set _ _ _ _ E1) as Es.
  change (typed (c :: l) s) with (typed l s1). assert (Ee : forall x y, echo_count (tp s1) x y = echo_count (tp s) x y).
  { injection Es as _ _ F1 F2 _. intros x y. unfold echo_count. by rewrite F1, F2. }
  destruct (IH s1) as [E2 C2].
  - by eapply entered_plain.
  - by eapply sane_setup.
  - eapply Forall_impl; [exact Hl|]. intros x (X1 & X2). split; [|done]. by eapply typable_setup.
  - pose proof (en_room _ _ _ _ E1). lia.
  - unfold c_cc in *. rewrite (en_raw _ _ _ _ E1), length_app. simpl. lia.
  - split; [eapply (entered_mono (4 + 4 * Z.of_nat (length l))); [lia|]; by eapply (entered_trans _ _ [c])|].
    intros He. rewrite C2, C1; [|done|injection Es as F _; unfold tst_flags in *; by rewrite F]. cbn [fold_left].
    apply fold_left_same, Ee.
Qed.

Lemma keys_typable t ks : sane t -> Forall (key_ok t) ks -> Forall (fun c => typable t c /\ c <> TAB /\ c <> CEOT) (key_text t ks).
Proof.
  intros Hs Hk. induction Hk as [|k ks Hk _ IH]; [constructor|]. rewrite key_text_cons. apply Forall_app. split; [|done].
  apply Forall_forall. intros c Hc. by eapply key_typable.
Qed.

(** The echo of the end of a line. *)
Lemma echo_end e s : plain s -> sane (tp s) -> 62 < room s -> quiet 3 s (echo (ending (tp s) e) (t_flags (tp s)) s).
Proof.
  intros Hp Hs Hr. destruct (end_keys _ e Hs) as (Ne & Nk & Hc & _). unfold echo. cbv zeta.
  rewrite (proj2 (Z.eqb_neq _ _) Ne). cbn [andb]. set (s1 := ttyoutput (ending (tp s) e) s).
  assert (Q1 : quiet 2 s s1).
  { unfold s1. destruct e; simpl ending; [apply (ttyoutput_nl s Hp); lia|]. rewrite (proj1 (sn_eof _ Hs)).
    change (ttyoutput CEOT s) with (if tst_flags (bump s) RAW then (putc CEOT Outq (bump s)).2 else bump s).
    pose proof (quiet_bump s) as Hb. destruct (plain_raw _ (plain_quiet _ _ _ Hb Hp)) as [-> _]. eapply quiet_mono; [|exact Hb]. lia. }
  clearbody s1. pose proof (qt_set _ _ _ Q1) as E. injection E as E1 E2 E3 E4 E5 E6 E7 E8 E9 E10.
  rewrite E4, (proj2 (Z.eqb_neq _ _) Nk). cbn [andb]. set (s2 := if _ || _ then _ else _).
  assert (Q2 : quiet 0 s1 s2) by (unfold s2; repeat case_match; try apply hush_refl; by apply quiet_tp).
  destruct (quiet_ttstart s2) as [Q3 _]. eapply (quiet_mono (2 + (0 + 0))); [lia|].
  eapply hush_trans; [exact Q1|]. eapply hush_trans; [exact Q2|exact Q3].
Qed.

(** The character that ends a line. *)
Lemma input_end e s : plain s -> sane (tp s) -> 66 < room s -> c_cc s Rawq <= TTYHOG ->
  entered 5 [ending (tp s) e; DELIM] (on_tp (fun t => set_t_delct (byte (t_delct t + 1)) t) s) (ttyinput (ending (tp s) e) s).
Proof.
  intros Hp Hs Hr Hl. destruct (end_keys _ e Hs) as (Ne & Nk & Hc & Hno). rewrite !not_elem_of_cons in Hno. destruct_and! Hno.
  unfold ttyinput. fold (bump_in s). cbv zeta. set (c := ending (tp s) e) in *.
  assert (Ec : Z.land c 255 = c) by (change 255 with (Z.ones 8); rewrite Z.land_ones by lia; apply Z.mod_small; lia).
  assert (Hend : (c =? NL) || (c =? t_eofc (tp s)) = true) by (unfold c; destruct e; [done|]; simpl ending; by rewrite Z.eqb_refl, orb_true_r).
  rewrite Ec. assert (Qb : quiet 0 s (bump_in s)) by (split; try done; simpl; lia).
  pose proof (plain_quiet _ _ _ Qb Hp) as Hpb. destruct (plain_raw _ Hpb) as [Hraw _]. pose proof (pl_tandem _ Hpb) as Htan.
  pose proof (pl_case _ Hpb) as Hcase. pose proof (pl_raw _ Hpb) as Hrc. unfold tst_flags in Hraw, Htan, Hcase, Hrc.
  rewrite Htan, Hraw. assert (Ectl : control c (t_flags (tp (bump_in s))) (bump_in s) = (Some c, bump_in s)).
  { unfold control. rewrite (pl_stop _ Hpb). cbv zeta. simpl. rewrite !(proj2 (Z.eqb_neq c _)) by assumption. done. }
  rewrite Ectl. destruct (Z.ltb_spec TTYHOG (c_cc (bump_in s) Rawq)) as [Hlt|_]; [unfold c_cc, chars in *; simpl in *; lia|]. rewrite Hcase. cbn [andb].
  unfold enter. destruct (putc_run c Rawq (bump_in s)) as (x & -> & X1 & X2 & X3); [simpl; lia|]. cbv zeta. cbn [snd].
  change (tp (set_qs x (bump_in s))) with (tp s). change (tp (bump_in s)) with (tp s) in *. rewrite Hrc. cbn [orb negb]. rewrite Hend. cbn [orb].
  destruct (putc_run DELIM Rawq (set_qs x (bump_in s))) as (y & -> & Y1 & Y2 & Y3); [simpl in *; lia|]. cbn [Z.eqb].
  set (s1 := wakeup Rawq _). set (s0 := on_tp _ s).
  assert (E1 : entered 2 [c; DELIM] s0 s1).
  { split; try done; unfold chars; simpl; simpl in *.
    - rewrite Y1. unfold chars. simpl. rewrite X1, Ec, <- app_assoc. done.
    - rewrite Y2 by done. unfold chars. simpl. by rewrite X2.
    - lia. }
  assert (Hp0 : plain s0) by (destruct Hp; by split). pose proof (entered_plain _ _ _ _ E1 Hp0) as Hp1.
  case_match; [|eapply entered_mono; [|exact E1]; lia].
  eapply (entered_mono (2 + 3)); [lia|]. eapply entered_quiet; [exact E1|].
  change (t_flags (tp s)) with (t_flags (tp s1)). replace c with (ending (tp s1) e) by done. apply echo_end; [done| |simpl in *; lia].
  change (tp s1) with (set_t_delct (byte (t_delct (tp s) + 1)) (tp s)). destruct Hs; by split.
Qed.

(** A line that waits for someone to type. *)
Record idle s : Prop := {
  id_carr : tst_state s CARR_ON = true;
  id_block : tst_state s TBLOCK = false;
  id_raw : chars s Rawq = [];
  id_can : chars s Canq = [];
  id_delct : t_delct (tp s) = 0;
  id_buf : held [] s;
}.

Lemma state_kept k l s s' m : entered k l s s' -> Z.land (Z.lnot OUT) m = m -> tst_state s' m = tst_state s m.
Proof.
  intros E Hm. unfold tst_state. rewrite <- (tst_clr_other _ OUT m) by done. rewrite (en_state _ _ _ _ E). by apply tst_clr_other.
Qed.

(** Keys mean the same under the same settings. *)
Lemma setup_keys t t' ks e : setup t' = setup t -> key_text t' ks = key_text t ks /\ ending t' e = ending t e /\
  line_text t' ks e = line_text t ks e /\ (Forall (key_ok t) ks -> Forall (key_ok t') ks).
Proof.
  intros E. injection E as _ _ G3 G4 G5 G6 G7 G8 G9 _. split_and!.
  - unfold key_text. f_equal. apply list_fmap_ext. intros _ [] _; simpl; by rewrite ?G3, ?G4.
  - destruct e; simpl; congruence.
  - unfold line_text. do 2 f_equal. apply fold_left_same. intros [] a; simpl; by rewrite ?G3, ?G4.
  - intros Hk. eapply Forall_impl; [exact Hk|]. intros [] Hx; try done. destruct Hx as [Hx1 Hx2]. split; [done|].
    eapply Forall_impl; [exact Hx2|]. intros c. unfold special. by rewrite G3, G4, G5, G6, G7, G8, G9.
Qed.

(** The program gets the line in [t_canq], if canon() made one. *)
Lemma line_passed l s : chars s Canq = l -> 0 < u_count s -> (forall a, u_base s <= a < u_base s + u_count s -> umap s a = true) ->
  passed (length l `min` Z.to_nat (u_count s)) l s (if Z.of_nat (length l) =? 0 then s else take_line (length (chars s Canq)) s).
Proof.
  intros E Hc Hu. destruct (Z.eqb_spec (Z.of_nat (length l)) 0) as [E0|E0].
  - assert (E1 : l = []) by (apply length_zero_iff_nil; lia). rewrite E1 in *. split; simpl; try done; try lia. intros a. by rewrite poke_nil.
  - rewrite E. apply take_line_passed; try done. rewrite <- E. apply q_bytes.
Qed.

(** The queues and the settings once a line has been typed. *)
Lemma typed_line ks e s : plain s -> sane (tp s) -> idle s -> Forall (key_ok (tp s)) ks ->
  Z.of_nat (length (key_text (tp s) ks)) <= TTYHOG -> 67 + 4 * Z.of_nat (length (key_text (tp s) ks)) <= room s ->
  entered (4 * Z.of_nat (length (key_text (tp s) ks)) + 5) (key_text (tp s) ks ++ [ending (tp s) e; DELIM])
    (on_tp (set_t_delct 1) s) (typed (key_text (tp s) ks ++ [ending (tp s) e]) s).
Proof.
  intros Hp Hs Hi Hk Hlen Hr. set (kt := key_text (tp s) ks) in *.
  destruct (typed_bytes kt s Hp Hs (keys_typable _ _ Hs Hk)) as [E1 _]; [lia|unfold c_cc; rewrite (id_raw _ Hi); simpl; lia|].
  rewrite typed_app. set (s1 := typed kt s) in *. simpl. pose proof (en_set _ _ _ _ E1) as Es.
  assert (Een : ending (tp s) e = ending (tp s1) e) by (injection Es as _ _ _ _ _ _ _ _ F _; destruct e; simpl; congruence).
  rewrite Een. change (typed [ending (tp s1) e] s1) with (ttyinput (ending (tp s1) e) s1).
  pose proof (en_room _ _ _ _ E1). opose proof* (input_end e s1) as E2.
  - by eapply entered_plain.
  - by eapply sane_setup.
  - lia.
  - unfold c_cc. rewrite (en_raw _ _ _ _ E1), (id_raw _ Hi). simpl. lia.
  - eapply entered_trans; [|exact E2]. destruct E1 as [F1 F2 F3 F4 F5 F6 F7]. split; try done. simpl.
    injection F4 as G1 G2 G3 G4 G5 G6 G7 G8 G9 G10. unfold setup. simpl. by rewrite G1, G2, G3, G4, G5, G6, G7, G8, G9, G10, (id_delct _ Hi).
Qed.

(** C12. What is typed is what is read, after editing: characters (of one or more bytes in
    UTF-8), erases and kills, plain or after a backslash, then a newline or the end of file,
    typed on an idle line in cooked mode, with a read() at any time after it.  The read ends
    without sleeping, the program gets the bytes of the characters that an editor of
    characters has left, with the newline, as far as it asked for them, the rest stays for the
    next read, nothing else of its memory changes, and the line is ready for the next line. *)
Theorem line_typed_read ks e fuel s : plain s -> sane (tp s) -> idle s -> Forall (key_ok (tp s)) ks ->
  Z.of_nat (length (key_text (tp s) ks)) <= CANBSIZ - 4 -> 67 + 5 * Z.of_nat (length (key_text (tp s) ks)) <= room s ->
  0 < u_count s -> (forall a, u_base s <= a < u_base s + u_count s -> umap s a = true) ->
  let l := line_text (tp s) ks e in
  let n := (length l `min` Z.to_nat (u_count s))%nat in
  exists s', ttread (S fuel) (typed (key_text (tp s) ks ++ [ending (tp s) e]) s) = TDone (Z.of_nat (length (drop n l))) s' /\
    (forall a, umem s' a = poke (u_base s) (take n l) (umem s) a) /\ u_count s' = u_count s - Z.of_nat n /\ u_error s' = u_error s /\
    chars s' Rawq = [] /\ chars s' Canq = drop n l /\ setup (tp s') = setup (tp s) /\ canonb s' !! 1%nat <> Some BACKSLASH.
Proof.
  intros Hp Hs Hi Hk Hlen Hr Hc Hu l n. opose proof* (typed_line ks e s Hp Hs Hi Hk) as E; [unfold TTYHOG, CANBSIZ in *; lia|lia|].
  set (s1 := typed _ s) in *. set (s0 := on_tp (set_t_delct 1) s) in *.
  assert (Hp1 : plain s1) by (eapply entered_plain; [exact E|]; destruct Hp; by split).
  pose proof (en_set _ _ _ _ E) as Es. pose proof (en_room _ _ _ _ E) as Er. change (room s0) with (room s) in Er.
  assert (Hs1 : sane (tp s1)) by (eapply sane_setup; [exact Es|]; destruct Hs; by split).
  destruct (setup_keys (tp s0) (tp s1) ks e Es) as (Ekt & Een & Elt & Hk1). change (line_text (tp s0) ks e) with l in Elt.
  change (key_text (tp s0) ks) with (key_text (tp s) ks) in Ekt. change (ending (tp s0) e) with (ending (tp s) e) in Een.
  injection Es as G1 G2 G3 G4 G5 G6 G7 G8 G9 G10. simpl in G1, G2, G3, G4, G9.
  assert (Hco : cooked s1 = true) by (unfold cooked; by rewrite (pl_raw _ Hp1)).
  destruct (canon_whole ks e s1) as (s2 & R2 & C1 & C2 & C3 & C4 & C5); try done.
  - by apply Hk1.
  - rewrite (state_kept _ _ _ _ TBLOCK E) by done. apply Hi.
  - rewrite Ekt, Een, (en_raw _ _ _ _ E). change (chars s0 Rawq) with (chars s Rawq). by rewrite (id_raw _ Hi).
  - rewrite (en_can _ _ _ _ E). apply Hi.
  - destruct (id_buf _ Hi) as (a & b & r & Hb). exists a, b, r. by rewrite (en_buf _ _ _ _ E).
  - by rewrite Ekt.
  - rewrite Ekt. lia.
  - rewrite Elt in R2, C2. pose proof (en_user _ _ _ _ E) as Eu. rewrite Eu in C4. injection C4 as U1 U2 U3 U4 U5 U6. simpl in U1, U2, U3, U4, U5, U6.
    assert (Hrun : ttread (S fuel) s1 = let s3 := if Z.of_nat (length l) =? 0 then s2 else take_line (length (chars s2 Canq)) s2 in
      TDone (c_cc s3 Rawq + c_cc s3 Canq) s3).
    { unfold ttread, mbind, tty_bind, tget. simpl. rewrite (state_kept _ _ _ _ CARR_ON E) by done.
      change (tst_state s0 CARR_ON) with (tst_state s CARR_ON). rewrite (id_carr _ Hi). simpl. unfold c_cc at 1. rewrite (en_can _ _ _ _ E).
      change (chars s0 Canq) with (chars s Canq). rewrite (id_can _ Hi). simpl. unfold mbind, tty_bind, tget. simpl. rewrite Hco, G2. simpl.
      unfold ttry. rewrite R2. simpl. by case_match. }
    assert (P : passed n l s2 (if Z.of_nat (length l) =? 0 then s2 else take_line (length (chars s2 Canq)) s2)).
    { unfold n. rewrite <- U4. apply line_passed; [done|by rewrite U4|by rewrite U2, U3, U4]. }
    cbv zeta in Hrun. set (s3 := if _ =? 0 then s2 else _) in *. exists s3. destruct P as [P1 P2 P3 P4 P5 P6 P7 P8]. split_and!.
    + rewrite Hrun. unfold c_cc. by rewrite P1, P2, C1.
    + intros a. by rewrite P5, U1, U3.
    + by rewrite P6, U4.
    + by rewrite P8.
    + by rewrite P1.
    + done.
    + rewrite P3, C3. unfold setup. simpl. rewrite G1, G2, G3, G4, G5, G6, G7, G8, G9, G10. by rewrite (id_delct _ Hi).
    + rewrite P4. destruct C5 as (a & b & r & -> & Hb & _). simpl. congruence.
Qed.

(** ** What the screen shows *)

(** A key whose echo tells what it does; a quoted erase does not, as the source says. *)
Definition shown (k : key) : bool := match k with Quote _ => false | _ => true end.
Definition is_kill (k : key) : bool := match k with Kill => true | _ => false end.

Lemma column_lead c col : 32 <= c < 255 -> c <> 127 -> ~ 128 <= c < 192 -> column c col = byte (col + 1).
Proof.
  intros Hc H7 Hn. unfold column. destruct (Z.leb_spec 128 c).
  - rewrite continues by lia. by replace ((128 <=? c) && (c <? 192)) with false by lia.
  - unfold partab. repeat (rewrite (proj2 (Z.eqb_neq c _)) by lia). by rewrite (proj2 (Z.ltb_ge c 32)) by lia.
Qed.

Lemma column_continues c col : 128 <= c < 192 -> column c col = col.
Proof.
  intros Hc. unfold column. replace (128 <=? c) with true by lia. rewrite continues by lia.
  by replace ((128 <=? c) && (c <? 192)) with true by lia.
Qed.

Lemma byte_small x : 0 <= x < 256 -> byte x = x.
Proof. apply Z.mod_small. Qed.

(** The echo of a character counts one, whatever its length. *)
Lemma echo_one t e col n : is_char e -> Forall (fun c => ~ special t c) e -> 0 <= n <= col -> col < 255 ->
  fold_left (fun x c => echo_count t c x) e (col, n) = (col + 1, n + 1).
Proof.
  intros He Hf Hn Hc. destruct e as [|c e]; [done|]. apply Forall_cons in Hf as [H1 Hf].
  assert (Hl : 32 <= c < 255 /\ c <> 127 /\ ~ 128 <= c < 192 /\ Forall (fun b => 128 <= b < 192) e).
  { destruct He as [[Ha ->]|[Ha He]]; split_and!; try lia; done. }
  destruct Hl as (L1 & L2 & L3 & L4). cbn [fold_left]. unfold special in H1. rewrite !not_elem_of_cons in H1. destruct_and! H1.
  unfold echo_count at 2. rewrite (proj2 (Z.eqb_neq c (t_erase t))), (proj2 (Z.eqb_neq c (t_kill t))) by done.
  rewrite column_lead, (byte_small (col + 1)), (byte_small (n + 1)) by (done || lia). cbv zeta.
  rewrite (proj2 (Z.ltb_lt _ _)), (proj2 (Z.ltb_lt _ _)) by lia. cbn [andb].
  clear -Hf L4. induction e as [|d e IH]; [done|]. apply Forall_cons in Hf as [H1 Hf]. apply Forall_cons in L4 as [Hd L4].
  cbn [fold_left]. unfold echo_count at 2. unfold special in H1. rewrite !not_elem_of_cons in H1. destruct_and! H1.
  rewrite (proj2 (Z.eqb_neq d (t_erase t))), (proj2 (Z.eqb_neq d (t_kill t))) by done. cbv zeta.
  rewrite column_continues, Z.ltb_irrefl by done. cbn [andb]. by apply IH.
Qed.

Lemma echo_key t k b st : sane t -> key_ok t k -> shown k = true -> 0 <= b -> b + Z.of_nat (length st) < 255 ->
  fold_left (fun x c => echo_count t c x) (key_bytes t k) (b + Z.of_nat (length st), Z.of_nat (length st)) =
  ((if is_kill k then 0 else b) + Z.of_nat (length (edit_key t st k)), Z.of_nat (length (edit_key t st k))).
Proof.
  intros Hs Hk Hsh Hb Hc. destruct k as [e| | |q]; simpl key_bytes; simpl edit_key; simpl is_kill; [| | |done]; cbv iota.
  - destruct Hk as [He Hf]. rewrite echo_one by (done || lia). rewrite length_app. simpl. f_equal; lia.
  - cbn [fold_left]. unfold echo_count. rewrite Z.eqb_refl. destruct st as [|e st _] using rev_ind; [done|].
    rewrite removelast_last. rewrite length_app in Hc |- *. simpl length in *. rewrite (proj2 (Z.eqb_neq _ 0)) by lia.
    assert (Hbs : forall x, 0 < x < 256 -> column BS x = x - 1).
    { intros x Hx. unfold column. simpl. rewrite (proj2 (Z.eqb_neq x 0)) by lia. apply byte_small. lia. }
    rewrite (Hbs (b + Z.of_nat (length st + 1))) by lia. change (column SP ?x) with (byte (x + 1)). rewrite (byte_small (_ + 1)), Hbs, byte_small by lia. f_equal; lia.
  - pose proof (sn_apart _ Hs) as Hn. rewrite !NoDup_cons in Hn. cbn [fold_left]. unfold echo_count.
    rewrite (proj2 (Z.eqb_neq (t_kill t) (t_erase t))), Z.eqb_refl by set_solver. done.
Qed.

Lemma edit_key_length t k st : (length (edit_key t st k) <= length st + 1)%nat.
Proof. destruct k; simpl; rewrite ?length_app; simpl; try lia. destruct st using rev_ind; [simpl; lia|]. rewrite removelast_last, length_app. lia. Qed.

Lemma echo_keys t ks b st : sane t -> Forall (key_ok t) ks -> forallb shown ks = true -> 0 <= b ->
  b + Z.of_nat (length st) + Z.of_nat (length ks) <= 255 ->
  fold_left (fun x c => echo_count t c x) (key_text t ks) (b + Z.of_nat (length st), Z.of_nat (length st)) =
  ((if existsb is_kill ks then 0 else b) + Z.of_nat (length (edit t ks st)), Z.of_nat (length (edit t ks st))).
Proof.
  intros Hs. revert b st. induction ks as [|k ks IH]; intros b st Hk Hsh Hb Hc; [done|].
  apply Forall_cons in Hk as [Hk Hks]. simpl in Hsh. apply andb_true_iff in Hsh as [Hsh Hshs]. simpl length in Hc.
  rewrite key_text_cons, fold_left_app, echo_key by (done || lia). pose proof (edit_key_length t k st).
  rewrite IH; [|done|done|destruct (is_kill k); lia|destruct (is_kill k); lia]. simpl. destruct (is_kill k); simpl; by destruct (existsb is_kill ks).
Qed.

(** The screen agrees with the editor: while characters, erases and kills are typed at an
    echoing line in cooked mode, [t_echoct], what may still be rubbed out, is the number of
    characters in the line that canon() will make of what was typed, one for a character of
    UTF-8 whatever its length, and the carriage stands that far from where the line
    began. *)
Theorem echo_agrees ks s : plain s -> sane (tp s) -> tst_flags s ECHO = true -> t_echoct (tp s) = 0 -> 0 <= t_col (tp s) ->
  Forall (key_ok (tp s)) ks -> forallb shown ks = true -> t_col (tp s) + Z.of_nat (length ks) <= 255 ->
  63 + 4 * Z.of_nat (length (key_text (tp s) ks)) <= room s -> c_cc s Rawq + Z.of_nat (length (key_text (tp s) ks)) <= TTYHOG + 1 ->
  let t := tp (typed (key_text (tp s) ks) s) in
  let n := Z.of_nat (length (edit (tp s) ks [])) in
  t_echoct t = n /\ t_col t = (if existsb is_kill ks then 0 else t_col (tp s)) + n.
Proof.
  intros Hp Hs He H0 Hcol Hk Hsh Hc Hr Hl t n. destruct (typed_bytes _ s Hp Hs (keys_typable _ _ Hs Hk) Hr Hl) as [_ Hcar].
  specialize (Hcar He). unfold carriage at 2 in Hcar. rewrite H0 in Hcar.
  pose proof (echo_keys (tp s) ks (t_col (tp s)) [] Hs Hk Hsh Hcol) as Hfold. simpl length in Hfold. change (Z.of_nat 0) with 0 in Hfold. rewrite !Z.add_0_r in Hfold.
  rewrite Hfold in Hcar by lia. injection Hcar as E1 E2. split; [exact E2|exact E1].
Qed.

End Lines.

(** ** A session at the console *)

Lemma console_plain : plain console.
Proof. by split. Qed.

Lemma console_sane : sane (tp console).
Proof.
  split.
  - repeat constructor; unfold BACKSLASH; simpl; try lia; by apply (bool_decide_unpack _).
  - by apply (bool_decide_unpack _).
  - by apply (bool_decide_unpack _).
  - done.
  - split; [done|]. by apply (bool_decide_unpack _).
Qed.

Lemma console_idle : idle console.
Proof.
  split; try (by vm_compute). exists 0, 0, (replicate 254 0). by split_and!; vm_compute.
Qed.

(** The word for peace, in Russian, with a letter too many, and a quoted erase. *)
Definition session : list key :=
  [Char [97]; Kill; Char [208; 188]; Char [208; 184]; Char [209; 128]; Char [209; 128]; Erase; Quote true].

Lemma session_ok : Forall (key_ok (tp console)) session.
Proof.
  assert (Hs : forall l, forallb (fun c => bool_decide (c ∉ [t_erase (tp console); t_kill (tp console); t_intrc (tp console); t_quitc (tp console);
      t_startc (tp console); t_stopc (tp console); t_eofc (tp console); BACKSLASH])) l = true -> Forall (fun c => ~ special (tp console) c) l).
  { intros l Hl. apply Is_true_eq_left, forallb_True in Hl. eapply Forall_impl; [exact Hl|]. simpl. intros c Hc. by apply bool_decide_unpack in Hc. }
  assert (Hc : forall c, 32 <= c < 127 -> is_char [c]) by (intros c Hr; by left).
  assert (Hu : forall c d, 192 <= c < 255 -> 128 <= d < 192 -> is_char [c; d]) by (intros c d Hr Hd; right; split; [done|by constructor]).
  unfold session. rewrite !Forall_cons. split_and!; try done; (split; [first [apply Hc; lia|apply Hu; lia]|by apply Hs]).
Qed.

(** After it the program has read the three letters, the erase character and the newline. *)
Lemma line_typed_read_witness : exists s', ttread 1 (typed (key_text (tp console) session ++ [NL]) console) = TDone 0 s' /\
  umem s' 1000 = 208 /\ umem s' 1006 = CERASE /\ umem s' 1007 = NL /\ u_count s' = 92.
Proof.
  destruct (line_typed_read session true 0 console) as (s' & E1 & E2 & E3 & _).
  - exact console_plain.
  - exact console_sane.
  - exact console_idle.
  - exact session_ok.
  - by vm_compute.
  - by vm_compute.
  - by vm_compute.
  - done.
  - exists s'. split; [exact E1|]. rewrite !E2, E3. clear. by vm_compute.
Defined.

Lemma echo_agrees_witness : let t := tp (typed (key_text (tp console) (take 7 session)) console) in t_echoct t = 3 /\ t_col t = 3.
Proof.
  apply (echo_agrees (take 7 session) console).
  - exact console_plain.
  - exact console_sane.
  - done.
  - done.
  - by vm_compute.
  - apply Forall_take, session_ok.
  - done.
  - by vm_compute.
  - by vm_compute.
  - by vm_compute.
Defined.
