(* ===== verification/Tcount.v ===== *)
(** * The count of the delimiters of a line

    [t_delct] tells canon() whether a whole line waits in the raw queue.  Here is what each
    part of the line routines does to that count: nothing ([same]), throw the input away
    ([flushed]), or keep it the number of the delimiters in the queue and of those canon()
    has taken and not yet counted ([K]).  [Tspl] puts the parts together. *)

From S2P Require Import Prelude Param Tty Tqueue Tline.

Section Count.
Context {T : Type} `{Queues T}.
Implicit Types (s : line T) (t : tty) (q : queue).

(** ** Steps that leave the input alone *)

Record same s s' : Prop := {
  sm_raw : chars s' Rawq = chars s Rawq;
  sm_delct : t_delct (tp s') = t_delct (tp s);
  sm_flags : t_flags (tp s') = t_flags (tp s);
  sm_open : tst_state s' ISOPEN = tst_state s ISOPEN;
  sm_buf : canonb s' = canonb s;
}.

#[export] Instance same_refl : Reflexive same.
Proof. by split. Qed.
#[export] Instance same_trans : Transitive same.
Proof. intros s1 s2 s3 [] []. split; congruence. Qed.

Lemma same_qs x s : q_chars x Rawq = chars s Rawq -> same s (set_qs x s).
Proof. by split. Qed.

Lemma same_getc q s : q <> Rawq -> same s (getc q s).2.
Proof. intros Hq. unfold getc. destruct (q_getc q (qs s)) as [c x] eqn:E. apply same_qs. change x with (c, x).2. rewrite <- E. by apply q_getc_other. Qed.

Lemma same_putc c q s : q <> Rawq -> same s (putc c q s).2.
Proof. intros Hq. unfold putc. destruct (q_putc c q (qs s)) as [r x] eqn:E. apply same_qs. change x with (r, x).2. rewrite <- E. by apply q_putc_other. Qed.

Lemma same_on m s : m &? ISOPEN = false -> same s (state_on m s).
Proof. intros Hm. split; try done. unfold tst_state. simpl. by rewrite tst_lor, Hm, orb_false_r. Qed.

Lemma same_off m s : Z.land (Z.lnot m) ISOPEN = ISOPEN -> same s (state_off m s).
Proof. intros Hm. split; try done. unfold tst_state. simpl. by apply tst_clr_other. Qed.

(** [same] through what a routine is made of. *)
Ltac keep := lazymatch goal with
  | |- same ?s ?s => reflexivity
  | |- same _ (state_on _ ?s) => transitivity s; [|by apply same_on]
  | |- same _ (state_off _ ?s) => transitivity s; [|by apply same_off]
  | |- same _ (on_tp _ ?s) => transitivity s; [|generalize s; clear; intros; by split]
  | |- same _ (wakeup _ ?s) => transitivity s; [|generalize s; clear; intros; by split]
  | |- same _ (set_printed _ ?s) => transitivity s; [|generalize s; clear; intros; by split]
  | |- same _ (set_tk_nout _ ?s) => transitivity s; [|generalize s; clear; intros; by split]
  | |- same _ (set_tk_nin _ ?s) => transitivity s; [|generalize s; clear; intros; by split]
  | |- same _ (set_canonb _ ?s) => transitivity s; [|generalize s; clear; intros; by split]
  | |- same _ (set_u_error _ ?s) => transitivity s; [|generalize s; clear; intros; by split]
  | |- same _ (signal _ ?s) => transitivity s; [|generalize s; clear; intros; by split]
  | |- same _ (putc _ _ ?s).2 => transitivity s; [|by apply same_putc]
  | |- same _ (getc _ ?s).2 => transitivity s; [|by apply same_getc]
  end.

Lemma same_scstart s : same s (scstart s).
Proof.
  unfold scstart. destruct (tst_state s _); [reflexivity|]. pose proof (same_getc Outq s) as Hg. destruct (getc Outq s) as [c s1]. simpl in Hg.
  destruct (c <? 0); [by apply Hg|]. transitivity s1; [by apply Hg|]. case_match; repeat keep.
Qed.

Lemma same_ttstart s : same s (ttstart s).
Proof. unfold ttstart. case_match; [reflexivity|apply same_scstart]. Qed.

Lemma same_tab out n s : (forall c s, same s (out c s)) -> same s (tab_loop out n s).
Proof.
  intros Ho. revert s. induction n as [|n IH]; intros s; simpl; [apply Ho|]. case_match; [apply Ho|]. etransitivity; [apply Ho|apply IH].
Qed.

Lemma same_output_f n c s : same s (ttyoutput_f n c s).
Proof.
  revert c s. induction n as [|n IH]; intros c s; [reflexivity|]. cbn [ttyoutput_f]. transitivity (set_tk_nout (tk_nout s + 1) s); [by split|].
  set (s1 := set_tk_nout _ s). clearbody s1. cbv zeta. case_match; [by apply same_putc|]. case_match; [reflexivity|]. case_match; [by apply same_tab|].
  set (p := if tst_flags s1 LCASE then _ else _). assert (Hp : same s1 p.2).
  { unfold p. case_match; [|reflexivity]. destruct (escape escapes _); simpl; [apply IH|reflexivity]. }
  destruct p as [d s2]. simpl in Hp. transitivity s2; [done|]. repeat keep. case_match; [apply IH|reflexivity].
Qed.

Lemma same_output c s : same s (ttyoutput c s).
Proof. apply same_output_f. Qed.

Lemma same_echo c f s : same s (echo c f s).
Proof.
  unfold echo. cbv zeta. etransitivity; [|apply same_ttstart]. case_match.
  - case_match; [reflexivity|]. keep. repeat (etransitivity; [|apply same_output]). reflexivity.
  - set (s1 := ttyoutput c s). transitivity s1; [apply same_output|]. clearbody s1. set (s2 := if _ && _ then _ else _).
    assert (H2 : same s1 s2) by (unfold s2; case_match; [apply same_output|reflexivity]). transitivity s2; [done|]. repeat case_match; repeat keep.
Qed.

(** ** Flushing *)

Lemma drain_empty n q s : (length (chars s q) < n)%nat -> chars (drain n q s) q = [].
Proof.
  revert s. induction n as [|n IH]; intros s Hn; [lia|]. simpl. destruct (chars s q) as [|c l] eqn:E.
  - destruct (getc_none _ _ E) as (x & -> & X1 & _). simpl. unfold chars. simpl. by rewrite X1.
  - destruct (getc_run _ _ _ _ E) as (x & -> & X1 & X2 & X3). pose proof (q_bytes (qs s) q) as Hb. unfold chars in E. rewrite E in Hb.
    apply Forall_cons in Hb as [Hc _]. rewrite (proj2 (Z.ltb_ge c 0)) by lia. apply IH. unfold chars. simpl in *. rewrite X1. lia.
Qed.

Lemma drain_tp n q s : tp (drain n q s) = tp s /\ canonb (drain n q s) = canonb s.
Proof.
  revert s. induction n as [|n IH]; intros s; [done|]. simpl. unfold getc. destruct (q_getc q (qs s)) as [c x]. case_match; [done|]. apply (IH (set_qs x s)).
Qed.

(** Nothing waits in the raw queue. *)
Definition clear s : Prop := chars s Rawq = [] /\ t_delct (tp s) = 0.

(** The input was thrown away, and little else. *)
Record flushed s s' : Prop := {
  fl_clear : clear s';
  fl_flags : t_flags (tp s') = t_flags (tp s);
  fl_open : tst_state s' ISOPEN = tst_state s ISOPEN;
  fl_buf : canonb s' = canonb s;
}.

Lemma flush_clear s : flushed s (flushtty s).
Proof.
  unfold flushtty, d_stop, empty. cbv zeta. set (s1 := drain _ Canq s). set (s2 := state_off _ _). set (s3 := drain _ Outq s2).
  set (s4 := drain _ Rawq s3). destruct (drain_tp (S (length (chars s Canq))) Canq s) as [T1 B1]. fold s1 in T1, B1.
  destruct (drain_tp (S (length (chars s2 Outq))) Outq s2) as [T3 B3]. fold s3 in T3, B3.
  destruct (drain_tp (S (length (chars s3 Rawq))) Rawq s3) as [T4 B4]. fold s4 in T4, B4. split.
  - split; [|done]. change (chars s4 Rawq = []). apply drain_empty. lia.
  - change (t_flags (tp s4) = t_flags (tp s)). rewrite T4, T3. simpl. by rewrite T1.
  - change (tst_state s4 ISOPEN = tst_state s ISOPEN). unfold tst_state. rewrite T4, T3. unfold s2. simpl.
    rewrite tst_clr_other by done. by rewrite T1.
  - change (canonb s4 = canonb s). rewrite B4, B3. simpl. by rewrite B1.
Qed.

(** ** The count *)

Definition delims (l : list Z) : Z := Z.of_nat (length (filter (fun c => c = DELIM) l)).

(** No two delimiters side by side. *)
Fixpoint sparse (l : list Z) : Prop :=
  match l with
  | [] => True
  | a :: l => (a = DELIM -> head l <> Some DELIM) /\ sparse l
  end.

Lemma delims_nil : delims [] = 0.
Proof. done. Qed.

Lemma delims_cons c l : delims (c :: l) = (if decide (c = DELIM) then 1 else 0) + delims l.
Proof. unfold delims. rewrite filter_cons. case_decide; simpl; lia. Qed.

Lemma delims_app l1 l2 : delims (l1 ++ l2) = delims l1 + delims l2.
Proof. unfold delims. rewrite filter_app, length_app. lia. Qed.

Lemma sparse_bound l : sparse l -> 0 <= 2 * delims l <= Z.of_nat (length l) + (if decide (head l = Some DELIM) then 1 else 0).
Proof.
  induction l as [|a l IH]; intros Hs; [by rewrite delims_nil|]. destruct Hs as [Ha Hs]. specialize (IH Hs). rewrite delims_cons. simpl length.
  repeat case_decide; simpl in *; simplify_eq; try lia; try (exfalso; by apply Ha).
Qed.

Lemma sparse_snoc l c : sparse l -> c <> DELIM -> sparse (l ++ [c]).
Proof.
  induction l as [|a l IH]; intros Hs Hc; [done|]. destruct Hs as [Ha Hs]. split; [|by apply IH]. intros E. destruct l; simpl; [congruence|auto].
Qed.

Lemma sparse_end l c : sparse l -> c <> DELIM -> sparse (l ++ [c; DELIM]).
Proof.
  induction l as [|a l IH]; intros Hs Hc; [simpl; split; [done|by split]|]. destruct Hs as [Ha Hs]. split; [|by apply IH]. intros E. destruct l; simpl; [congruence|auto].
Qed.

(** [n] delimiters are off the queue and not off the count: none, or the one canon() has just taken. *)
Record counted (n : Z) s : Prop := {
  ct_delct : t_delct (tp s) = delims (chars s Rawq) + n;
  ct_sparse : sparse (chars s Rawq);
  ct_short : c_cc s Rawq <= TTYHOG + 2;
}.

Lemma clear_counted s : clear s -> counted 0 s.
Proof. intros [E1 E2]. split; unfold c_cc; rewrite ?E1, ?E2; done. Qed.

(** [canonb] is whole, and there is no backslash before the place where a line starts. *)
Definition buffer s : Prop := Z.of_nat (length (canonb s)) = CANBSIZ /\ canonb s !! 1%nat <> Some BACKSLASH.

(** What always holds: a line in cooked mode is counted, a closed one is empty. *)
Record J (n : Z) s : Prop := {
  J_cooked : cooked s = true -> counted n s;
  J_closed : tst_state s ISOPEN = false -> clear s;
  J_buffer : buffer s;
}.

Lemma same_cooked s s' : t_flags (tp s') = t_flags (tp s) -> cooked s' = cooked s.
Proof. intros E. unfold cooked, tst_flags. by rewrite E. Qed.

Lemma J_same n s s' : same s s' -> J n s -> J n s'.
Proof.
  intros [E1 E2 E3 E4 E5] [Hc Hz Hb]. split.
  - intros Hk. rewrite (same_cooked _ _ E3) in Hk. destruct (Hc Hk) as [C1 C2 C3]. split; unfold c_cc in *; rewrite ?E1, ?E2; done.
  - intros Ho. rewrite E4 in Ho. destruct (Hz Ho) as [Z1 Z2]. split; congruence.
  - unfold buffer in *. by rewrite E5.
Qed.

Lemma J_switch n s s' : tp s' = tp s -> qs s' = qs s -> buffer s' -> J n s -> J n s'.
Proof.
  intros E1 E2 Hb [K1 K2 _]. split; [| |done]; unfold cooked, tst_flags, tst_state in *; rewrite E1.
  - intros Hc. destruct (K1 Hc) as [C1 C2 C3]. split; unfold c_cc, chars in *; by rewrite ?E1, ?E2.
  - intros Ho. destruct (K2 Ho) as [Z1 Z2]. split; unfold chars in *; by rewrite ?E1, ?E2.
Qed.

Lemma J_clear s : clear s -> buffer s -> J 0 s.
Proof. intros Hz Hb. split; [|done|done]. intros _. by apply clear_counted. Qed.

Lemma clear_same s s' : same s s' -> clear s -> clear s'.
Proof. intros E [E1 E2]. split; [by rewrite (sm_raw _ _ E)|by rewrite (sm_delct _ _ E)]. Qed.

Lemma flushed_same s s1 s2 : flushed s s1 -> same s1 s2 -> flushed s s2.
Proof. intros [F1 F2 F3 F4] E. pose proof (clear_same _ _ E F1). destruct E. split; [done|congruence..]. Qed.

Lemma same_flushed s s1 s2 : same s s1 -> flushed s1 s2 -> flushed s s2.
Proof. intros [] [F1 F2 F3 F4]. split; [done|congruence..]. Qed.

Lemma J_flushed s s' : flushed s s' -> buffer s -> J 0 s'.
Proof. intros [F1 F2 F3 F4] Hb. apply J_clear; [done|]. unfold buffer. by rewrite F4. Qed.

(** The line is open. *)
Definition K n s : Prop := J n s /\ tst_state s ISOPEN = true.

Lemma K_same n s s' : same s s' -> K n s -> K n s'.
Proof. intros E [HJ Ho]. split; [by eapply J_same|]. by rewrite (sm_open _ _ E). Qed.

Lemma K_flushed n s s' : flushed s s' -> K n s -> K 0 s'.
Proof. intros F [Hs Ho]. split; [eapply J_flushed; [done|apply Hs]|by rewrite (fl_open _ _ F)]. Qed.

(** ttyblock() flushes only a queue that is full. *)
Lemma block_effect s : same s (ttyblock s) \/ (TTYHOG < c_cc s Rawq /\ flushed s (ttyblock s)).
Proof.
  unfold ttyblock. cbv zeta. set (s1 := if TTYHOG <? c_cc s Rawq then _ else s). set (s2 := if _ <=? _ then _ else s1). assert (E : same s1 s2).
  { unfold s2. case_match; [|reflexivity]. pose proof (same_putc (t_stopc (tp s1)) Outq s1) as Hp. destruct (putc _ Outq s1) as [r s3]. simpl in Hp.
    specialize (Hp ltac:(done)). case_match; [|done]. etransitivity; [|apply same_ttstart]. repeat keep. done. }
  clearbody s2. unfold s1 in E. destruct (Z.ltb_spec TTYHOG (c_cc s Rawq)); [right|by left]. split; [done|].
  eapply flushed_same; [apply flush_clear|]. etransitivity; [|exact E]. by apply same_off.
Qed.

Lemma control_effect c tf s : same s (control c tf s).2 \/ (flushed s (control c tf s).2 /\ (control c tf s).1 = None).
Proof.
  unfold control. cbv zeta. set (p := fun x : line T => if (c =? t_quitc (tp s)) || (c =? t_intrc (tp s)) then
      (None, signal (if c =? t_intrc (tp s) then SIGINT else SIGQUIT) (flushtty x))
    else (Some (if (c =? CR) && (tf &? CRMOD) then NL else c), x)).
  assert (Hp : forall x, same s x -> same s (p x).2 \/ (flushed s (p x).2 /\ (p x).1 = None)).
  { intros x Hx. unfold p. case_match; [|by left]. right. simpl. split; [|done]. eapply same_flushed; [exact Hx|]. eapply flushed_same; [apply flush_clear|]. repeat keep. }
  assert (Hst : same s (ttstart (state_off TTSTOP s))) by (etransitivity; [|apply same_ttstart]; repeat keep).
  case_match; [by left|]. case_match.
  - case_match; [by left|]. case_match; [by left|]. by apply Hp.
  - case_match; [left; unfold d_stop; simpl; by repeat keep|]. case_match; [by left|]. by apply Hp.
Qed.

Lemma control_char c tf s d : 0 <= c < 256 -> (control c tf s).1 = Some d -> 0 <= d < 256 /\ d <> DELIM.
Proof.
  intros Hc. unfold control. cbv zeta. set (p := fun x : line T => if (c =? t_quitc (tp s)) || (c =? t_intrc (tp s)) then
      (None, signal (if c =? t_intrc (tp s) then SIGINT else SIGQUIT) (flushtty x))
    else (Some (if (c =? CR) && (tf &? CRMOD) then NL else c), x)).
  destruct (Z.eqb_spec c DELIM) as [|Hd]; [done|].
  assert (Hp : forall s, (p s).1 = Some d -> 0 <= d < 256 /\ d <> DELIM).
  { intros x Hx. unfold p in Hx. case_match; [done|]. simpl in Hx. case_match; simplify_eq; [by unfold NL, DELIM|done]. }
  repeat case_match; try done; apply Hp.
Qed.

(** ** Input *)

Lemma land_255 c : 0 <= c < 256 -> Z.land c 255 = c.
Proof. intros Hc. change 255 with (Z.ones 8). rewrite Z.land_ones by lia. by apply Z.mod_small. Qed.

Lemma byte_255 c : 0 <= Z.land c 255 < 256.
Proof. change 255 with (Z.ones 8). rewrite Z.land_ones by lia. apply Z.mod_pos_bound. lia. Qed.

(** A character and its delimiter are both put, or only the character, or none. *)
Lemma two_putc c s : 0 <= c < 256 -> exists s1 s2 r r', putc c Rawq s = (r, s1) /\ putc DELIM Rawq s1 = (r', s2) /\ tp s1 = tp s /\ tp s2 = tp s /\ canonb s1 = canonb s /\ canonb s2 = canonb s /\
  ((r' = 0 /\ chars s2 Rawq = chars s Rawq ++ [c; DELIM]) \/
   (r' = -1 /\ (chars s2 Rawq = chars s Rawq ++ [c] \/ chars s2 Rawq = chars s Rawq))).
Proof.
  intros Hc. unfold putc, chars. pose proof (q_putc_one c Rawq (qs s)) as H1. pose proof (q_putc_dry c DELIM Rawq (qs s)) as Hd.
  destruct (q_putc c Rawq (qs s)) as [r x]. simpl in *. pose proof (q_putc_one DELIM Rawq x) as H2. change (qs (set_qs x s)) with x.
  destruct (q_putc DELIM Rawq x) as [r' y] eqn:Ey. simpl in *.
  exists (set_qs x s), (set_qs y (set_qs x s)), r, r'. split_and!; try done; [simpl; by rewrite Ey|]. simpl. rewrite land_255 in H1 by done.
  change (Z.land DELIM 255) with DELIM in H2. destruct H1 as [[-> E1]|[-> E1]].
  - rewrite E1 in H2. destruct H2 as [[-> E2]|[-> E2]]; [left|right]; (split; [done|]); [|by left]. by rewrite E2, <- app_assoc.
  - right. rewrite E1 in H2. specialize (Hd eq_refl). subst r'. destruct H2 as [[? _]|[_ E2]]; [lia|]. split; [done|by right].
Qed.

Lemma K_of n s s' : buffer s -> canonb s' = canonb s -> tst_state s' ISOPEN = true -> (cooked s' = true -> counted n s') -> K n s'.
Proof. intros Hb Eb Ho Hc. split; [|done]. split; [done|congruence|]. unfold buffer. by rewrite Eb. Qed.

Lemma K_putc n c s : 0 <= c < 256 -> c <> DELIM -> K n s -> c_cc s Rawq <= TTYHOG -> K n (putc c Rawq s).2.
Proof.
  intros Hc Hd [[Hk _ Hbf] Ho] Hl. unfold putc. pose proof (q_putc_one c Rawq (qs s)) as H1. rewrite land_255 in H1 by done.
  destruct (q_putc c Rawq (qs s)) as [r x]. simpl in *. apply (K_of _ s); [done..|].
  intros Hco. destruct (Hk Hco) as [C1 C2 C3]. destruct H1 as [[_ E]|[_ E]].
  - split; unfold c_cc, chars in *; simpl; rewrite E.
    + rewrite delims_app, delims_cons, decide_False by done. rewrite delims_nil. simpl. lia.
    + by apply sparse_snoc.
    + rewrite length_app. simpl. lia.
  - split; unfold c_cc, chars in *; simpl; rewrite E; done.
Qed.

Lemma K_enter n c s : 0 <= n <= 1 -> 0 <= c < 256 -> c <> DELIM \/ tst_flags s RAW = true -> K n s -> c_cc s Rawq <= TTYHOG -> K n (enter c (t_flags (tp s)) s).
Proof.
  intros Hn Hc Hd Hs Hl. unfold enter. destruct (two_putc c s Hc) as (s1 & s2 & r & r' & E1 & E2 & T1 & T2 & B1 & B2 & Hq). rewrite E1. cbv zeta. simpl snd.
  change (t_flags (tp s) &? (RAW |: CBREAK)) with (tst_flags s (RAW |: CBREAK)). destruct (tst_flags s (RAW |: CBREAK)) eqn:Er.
  { cbn [orb negb]. apply (K_same _ s1); [by split|]. destruct Hs as [[_ _ Hbf] Ho].
    apply (K_of _ s); [done|done|unfold tst_state; by rewrite T1|]. unfold cooked, tst_flags in *. by rewrite T1, Er. }
  assert (Hnd : c <> DELIM).
  { destruct Hd as [|Hd]; [done|]. unfold tst_flags in *. apply negb_false_iff, Z.eqb_eq in Er. unfold tst in Hd.
    assert (E0 : Z.land (t_flags (tp s)) RAW = 0) by (change RAW with (Z.land (RAW |: CBREAK) RAW); by rewrite Z.land_assoc, Er). by rewrite E0 in Hd. }
  cbn [orb negb]. pose proof (K_putc n c s Hc Hnd Hs Hl) as H1. rewrite E1 in H1. simpl in H1.
  case_match; [|done]. rewrite E2. match goal with |- K _ (wakeup _ ?x) => apply (K_same _ x); [by split|] end. destruct Hs as [[Hk _ Hbf] Ho].
  assert (Hco : cooked s = true) by (unfold cooked; by rewrite Er). destruct (Hk Hco) as [C1 C2 C3]. pose proof (sparse_bound _ C2) as Hb.
  assert (Hdl : 0 <= delims (chars s Rawq) < 200) by (unfold c_cc, TTYHOG in *; case_decide; lia).
  destruct Hq as [[-> Eq]|[-> Eq]]; simpl.
  - apply (K_of _ s); [done|done|unfold tst_state; simpl; by rewrite T2|]. intros _. split; unfold c_cc, chars in *; simpl; rewrite Eq.
    + rewrite delims_app, !delims_cons, decide_False, decide_True, delims_nil by done. rewrite T2, C1. unfold byte. rewrite Z.mod_small; lia.
    + by apply sparse_end.
    + rewrite length_app. simpl. lia.
  - apply (K_of _ s); [done|done|unfold tst_state; by rewrite T2|]. intros _.
    destruct Eq as [Eq|Eq]; (split; unfold c_cc in *; rewrite ?Eq, ?T2; [| |rewrite ?length_app; simpl; lia]); try done; [|by apply sparse_snoc].
    rewrite delims_app, delims_cons, decide_False, delims_nil by done. lia.
Qed.

Lemma enter_flags c tf s : t_flags (tp (enter c tf s)) = t_flags (tp s).
Proof.
  unfold enter. unfold putc. destruct (q_putc c Rawq (qs s)) as [r x]. cbn [snd]. cbv zeta. case_match; [|done]. case_match; [|done].
  change (qs (set_qs x s)) with x. destruct (q_putc DELIM Rawq x) as [r' y]. by case_match.
Qed.

Lemma enter_length c tf s : c_cc (enter c tf s) Rawq <= c_cc s Rawq + 2.
Proof.
  assert (Hl : forall c x, Z.of_nat (length (q_chars (q_putc c Rawq x).2 Rawq)) <= Z.of_nat (length (q_chars x Rawq)) + 1).
  { intros d x. destruct (q_putc_one d Rawq x) as [[_ ->]|[_ ->]]; rewrite ?length_app; simpl; lia. }
  unfold enter, putc, c_cc, chars. pose proof (Hl c (qs s)) as H1. destruct (q_putc c Rawq (qs s)) as [r x]. cbn [snd] in *. cbv zeta.
  pose proof (Hl DELIM x) as H2. change (qs (set_qs x s)) with x. destruct (q_putc DELIM Rawq x) as [r' y]. cbn [snd] in *.
  case_match; [case_match; [case_match|]|]; simpl; lia.
Qed.

(** A character that is not acted on at once. *)
Definition typed_in (d f : Z) s : line T :=
  if TTYHOG <? c_cc s Rawq then flushtty s
  else
    let d := if (f &? LCASE) && ((65 <=? d) && (d <=? 90)) then d + 32 else d in
    let s := enter d f s in
    if f &? ECHO then echo d f s else s.

Lemma K_typed n d s : 0 <= n <= 1 -> 0 <= d < 256 -> d <> DELIM \/ tst_flags s RAW = true -> K n s ->
  flushed s (typed_in d (t_flags (tp s)) s) \/
  (K n (typed_in d (t_flags (tp s)) s) /\ t_flags (tp (typed_in d (t_flags (tp s)) s)) = t_flags (tp s) /\ c_cc (typed_in d (t_flags (tp s)) s) Rawq <= c_cc s Rawq + 2).
Proof.
  intros Hn Hb Hr Hs. unfold typed_in. destruct (Z.ltb_spec TTYHOG (c_cc s Rawq)); [left; apply flush_clear|right]. set (d' := if _ && _ then d + 32 else d).
  assert (Hd' : 0 <= d' < 256 /\ (d' <> DELIM \/ tst_flags s RAW = true)).
  { unfold d'. unfold DELIM in *. destruct (t_flags (tp s) &? LCASE); cbn [andb]; [|done].
    destruct (Z.leb_spec 65 d), (Z.leb_spec d 90); cbn [andb]; try done. split; [lia|left; lia]. }
  pose proof (K_enter n d' s Hn (proj1 Hd') (proj2 Hd') Hs ltac:(lia)) as H4. pose proof (enter_length d' (t_flags (tp s)) s) as H5.
  pose proof (enter_flags d' (t_flags (tp s)) s) as H6. set (s4 := enter d' _ s) in *. clearbody s4. cbv zeta. case_match; [|done].
  pose proof (same_echo d' (t_flags (tp s)) s4) as E. split_and!; [by eapply K_same|by rewrite (sm_flags _ _ E)|]. unfold c_cc in *. by rewrite (sm_raw _ _ E).
Qed.

(** What a character typed does: either all is kept, or the input was thrown away, before it
    when the queue was full, or because of it. *)
Definition spoiled s s' : Prop := clear s' \/ (TTYHOG < c_cc s Rawq /\ c_cc s' Rawq <= 2).

Lemma K_input n c s : 0 <= n <= 1 -> K n s ->
  t_flags (tp (ttyinput c s)) = t_flags (tp s) /\ (K n (ttyinput c s) \/ (K 0 (ttyinput c s) /\ spoiled s (ttyinput c s))).
Proof.
  intros Hn Hs. unfold ttyinput. cbv zeta. set (s1 := set_tk_nin _ s). assert (E1 : same s s1) by done.
  pose proof (K_same _ _ _ E1 Hs) as H1. change (t_flags (tp s)) with (t_flags (tp s1)). unfold spoiled. change (c_cc s Rawq) with (c_cc s1 Rawq). clearbody s1. clear E1 Hs s.
  set (f := t_flags (tp s1)). set (s2 := if f &? TANDEM then _ else _).
  assert (H2 : same s1 s2 \/ (TTYHOG < c_cc s1 Rawq /\ flushed s1 s2)) by (unfold s2; case_match; [apply block_effect|by left]).
  assert (Ef : t_flags (tp s2) = f) by (destruct H2 as [E|[_ E]]; [apply (sm_flags _ _ E)|apply (fl_flags _ _ E)]).
  clearbody s2. set (p := if f &? RAW then _ else _).
  assert (Hp : (same s2 p.2 \/ (flushed s2 p.2 /\ p.1 = None)) /\ (forall d, p.1 = Some d -> 0 <= d < 256 /\ (d <> DELIM \/ f &? RAW = true))).
  { unfold p. destruct (f &? RAW).
    - split; [by left|]. intros d [= <-]. split; [apply byte_255|by right].
    - split; [apply control_effect|]. intros d Hd. apply control_char in Hd as [? ?]; [auto|apply byte_255]. }
  destruct p as [o s3]. simpl in Hp. destruct Hp as [H3 Hd].
  assert (H4 : same s1 s3 \/ (flushed s1 s3 /\ (o = None \/ TTYHOG < c_cc s1 Rawq))).
  { destruct H2 as [E2|[Hl E2]], H3 as [E|[E Eo]].
    - left. by transitivity s2.
    - right. split; [by eapply same_flushed|by left].
    - right. split; [by eapply flushed_same|by right].
    - right. split; [|by left]. destruct E, E2. split; [done|congruence..]. }
  clear H2 H3. assert (E3 : t_flags (tp s3) = f) by (destruct H4 as [E|[E _]]; [apply (sm_flags _ _ E)|apply (fl_flags _ _ E)]).
  destruct o as [d|]; [|split; [done|]; destruct H4 as [E|[E _]]; [left; by eapply K_same|right; split; [by eapply K_flushed|left; apply E]]].
  destruct (Hd d eq_refl) as [Hb Hr]. fold (typed_in d f s3). change (f &? RAW) with (f &? RAW) in Hr. rewrite <- E3 in *.
  destruct H4 as [E|[E [?|Hl]]]; [|done|].
  - pose proof (K_same _ _ _ E H1) as Ks. destruct (K_typed n d s3 Hn Hb Hr Ks) as [F|(F1 & F2 & _)]; [|by auto].
    split; [apply F|right]. split; [by eapply K_flushed|left; apply F].
  - pose proof (K_flushed _ _ _ E H1) as Ks. destruct (K_typed 0 d s3 ltac:(lia) Hb Hr Ks) as [F|(F1 & F2 & F3)].
    + split; [apply F|right]. split; [by eapply K_flushed|left; apply F].
    + split; [done|right]. split; [done|right]. split; [done|]. destruct (fl_clear _ _ E) as [E0 _]. unfold c_cc in F3 at 2. rewrite E0 in F3. simpl in F3. lia.
Qed.

(** ** Reading *)

(** A character taken off the raw queue by canon(): a delimiter is still to be counted. *)
Lemma J_take c l x s : chars s Rawq = c :: l -> q_chars x Rawq = l -> J 0 s -> K (if cooked s && (c =? DELIM) then 1 else 0) (set_qs x s).
Proof.
  intros E Ex [Hk Hz Hbf]. assert (Ho : tst_state s ISOPEN = true).
  { destruct (tst_state s ISOPEN) eqn:Eo; [done|]. destruct (Hz eq_refl) as [Ez _]. congruence. }
  apply (K_of _ s); [done|done|done|]. intros Hco. change (cooked s = true) in Hco. rewrite Hco. cbn [andb].
  destruct (Hk Hco) as [C1 C2 C3]. unfold c_cc in C3. rewrite E in C1, C2, C3. destruct C2 as [_ C2]. rewrite delims_cons in C1. simpl length in *.
  split; unfold chars, c_cc; simpl; unfold chars; simpl; rewrite ?Ex; [|done|lia].
  destruct (Z.eqb_spec c DELIM); [rewrite decide_True in C1 by done|rewrite decide_False in C1 by done]; lia.
Qed.

(** [t_delct--]. *)
Lemma K_less s : K 1 s -> K 0 (on_tp (set_t_delct (byte (t_delct (tp s) - 1))) s).
Proof.
  intros [[Hk Hz Hb] Ho]. apply (K_of _ s); [done|done|done|]. intros Hco. destruct (Hk Hco) as [C1 C2 C3]. pose proof (sparse_bound _ C2) as Hd. split; [|done|done].
  simpl. change (chars (on_tp _ s) Rawq) with (chars s Rawq). unfold byte. unfold c_cc, TTYHOG in *. rewrite C1, Z.mod_small; [lia|]. case_decide; lia.
Qed.

(** Every byte of [canonb] canon() touches is there. *)
Lemma canon_at_some s bp : buffer s -> 0 <= bp < CANBSIZ -> exists c, canon_at s bp = Some c.
Proof. intros [Hl _] Hb. unfold canon_at. rewrite (proj2 (Z.ltb_ge _ 0)) by lia. apply lookup_lt_is_Some. lia. Qed.

Lemma rubout_some n bp s : buffer s -> 2 <= bp <= CANBSIZ -> bp - 2 <= Z.of_nat n -> exists bp', rubout n bp s = Some bp' /\ 2 <= bp' <= bp.
Proof.
  intros Hs. revert bp. induction n as [|n IH]; intros bp Hb Hn; cbn [rubout].
  - rewrite (proj2 (Z.leb_le bp 2)) by lia. exists bp. split; [done|lia].
  - destruct (Z.leb_spec bp 2); [exists bp; split; [done|lia]|]. destruct (canon_at_some s (bp - 1) Hs) as (c & ->); [lia|]. cbn [mbind option_bind].
    case_match; [|exists (bp - 1); split; [done|lia]]. destruct (IH (bp - 1)) as (bp' & -> & ?); [lia|lia|]. exists bp'. split; [done|lia].
Qed.

Lemma canon_char_some c bp s : buffer s -> 2 <= bp < CANBSIZ -> exists bp' o, canon_char c bp s = Some (bp', o) /\ 2 <= bp' <= bp.
Proof.
  intros Hs Hb. unfold canon_char. destruct (cooked s); cbn [negb]; [|exists bp, (Some c); split; [done|lia]].
  destruct (canon_at_some s (bp - 1) Hs) as (l & El); [lia|]. rewrite El. cbn [mbind option_bind].
  destruct (Z.eqb_spec l BACKSLASH) as [->|Hl]; cbn [negb].
  - assert (Hb3 : 3 <= bp).
    { destruct (Z.eq_dec bp 2) as [->|]; [|lia]. destruct Hs as [_ H1]. by change (canonb s !! 1%nat = Some BACKSLASH) in El. }
    destruct (canon_at_some s (bp - 2) Hs) as (p & ->); [lia|]. cbn [mbind option_bind].
    case_match; eexists _, _; (split; [done|lia]).
  - destruct (rubout_some (Z.to_nat CANBSIZ) bp s Hs) as (bp' & -> & ?); [lia|unfold CANBSIZ in *; lia|]. cbn [mbind option_bind].
    repeat case_match; eexists _, _; (split; [done|lia]).
Qed.

Lemma same_b_to_q l q s : q <> Rawq -> same s (b_to_q l q s).2.
Proof.
  intros Hq. revert s. induction l as [|c l IH]; intros s; [reflexivity|]. simpl. pose proof (same_putc c q s Hq) as Hp.
  destruct (putc c q s) as [r s1]. simpl in Hp. case_match; [done|]. etransitivity; [exact Hp|apply IH].
Qed.

Lemma same_unblock s : same s (unblock s).
Proof.
  unfold unblock. case_match; [|reflexivity]. pose proof (same_putc (t_startc (tp s)) Outq s ltac:(done)) as Hp.
  destruct (putc _ Outq s) as [r s1]. simpl in Hp. keep. case_match; [|done]. etransitivity; [|apply same_ttstart]. keep. done.
Qed.

Lemma J_put n bp c s : J n s -> 2 <= bp < CANBSIZ -> exists s', canon_put bp c s = Some s' /\ J n s' /\ tst_state s' ISOPEN = tst_state s ISOPEN.
Proof.
  intros Hs Hb. destruct (J_buffer _ _ Hs) as [Hlen Hsl]. unfold canon_put. rewrite (proj2 (Z.leb_le 0 bp)), (proj2 (Z.ltb_lt bp _)) by lia. cbn [andb].
  eexists. split; [done|]. split; [|done]. apply (J_switch n s); [done|done| |done]. split; simpl; [by rewrite length_insert|]. by rewrite list_lookup_insert_ne by lia.
Qed.

Lemma same_passc c s : same s (passc c s).2.
Proof. unfold passc. case_match; simpl; by split. Qed.
Lemma same_cpass s : same s (cpass s).2.
Proof. unfold cpass. repeat case_match; simpl; by split. Qed.

Lemma same_take_line n s : same s (take_line n s).
Proof.
  revert s. induction n as [|n IH]; intros s; [reflexivity|]. simpl. case_match; [reflexivity|]. pose proof (same_getc Canq s ltac:(done)) as Hg.
  destruct (getc Canq s) as [c s1]. simpl in Hg. pose proof (same_passc c s1) as Hp. destruct (passc c s1) as [r s2]. simpl in Hp.
  transitivity s2; [by transitivity s1|]. case_match; [reflexivity|apply IH].
Qed.

End Count.
