(* ===== verification/Tspl.v ===== *)
(** * A line under interrupts: the priority of canon(), ttread() and ttwrite()

    The routines of [Tty] that run at priority 0 can be interrupted between any two of their
    statements; here they are with a point at each place, and the line, the process that is
    in one of them, those that sleep in others and the interrupts are a system of steps.  Of
    the points two kinds are dangerous: between [getc] of a delimiter and [t_delct--] in
    canon(), and between the load and the store of [t_delct--].  When no interrupt throws
    the input away at the first, and none changes the count at the second, the count is
    right everywhere; [canon_flush_race] shows what a flush at the first one does.  *)

From stdpp Require Import relations.
From S2P Require Import Prelude Param Tty Tqueue Tline Tcount.

(** What an interrupt at a point may spoil. *)
Inductive danger := Free | Taken | Loaded.

Section Spl.
Context {T : Type} `{Queues T}.
Implicit Types (s : line T) (d : danger).

(** ** Computations that may be interrupted *)

Inductive ires (A : Type) :=
  | IDone (a : A) (s : line T)
  | ISleep (q : queue) (pri : Z) (s : line T) (k : line T -> ires A)
  | IPoint (d : danger) (s : line T) (k : line T -> ires A)
  | INoFuel
  | IWild.
Arguments IDone {A} a s.
Arguments ISleep {A} q pri s k.
Arguments IPoint {A} d s k.
Arguments INoFuel {A}.
Arguments IWild {A}.

Definition I (A : Type) : Type := line T -> ires A.

Fixpoint ires_bind {A B} (x : ires A) (f : A -> I B) : ires B :=
  match x with
  | IDone a s => f a s
  | ISleep q p s k => ISleep q p s (fun s => ires_bind (k s) f)
  | IPoint d s k => IPoint d s (fun s => ires_bind (k s) f)
  | INoFuel => INoFuel
  | IWild => IWild
  end.

#[export] Instance ires_ret : MRet I := fun A a s => IDone a s.
#[export] Instance ires_mbind : MBind I := fun A B f m s => ires_bind (m s) f.

(** What runs with the interrupts of the line off. *)
Fixpoint masked {A} (x : tres A) : ires A :=
  match x with
  | TDone a s => IDone a s
  | TSleep q p s k => ISleep q p s (fun s => masked (k s))
  | TNoFuel => INoFuel
  | TWild => IWild
  end.
Definition spl5 {A} (m : M A) : I A := fun s => masked (m s).

Definition ilook {A} (f : line T -> A) : I A := fun s => IDone (f s) s.
Definition iset (f : line T -> line T) : I unit := fun s => IDone tt (f s).
Definition irun {A} (f : line T -> A * line T) : I A := fun s => let (a, s) := f s in IDone a s.
Definition ipoint d : I unit := fun s => IPoint d s (fun s => IDone tt s).

(** A run in which no interrupt comes at a point. *)
Fixpoint undisturbed {A} (x : ires A) : tres A :=
  match x with
  | IDone a s => TDone a s
  | ISleep q p s k => TSleep q p s (fun s => undisturbed (k s))
  | IPoint _ s k => undisturbed (k s)
  | INoFuel => TNoFuel
  | IWild => TWild
  end.

(** ** The routines *)

Definition canon_char_i (c bp : Z) : I (Z * option Z) := fun s => match canon_char c bp s with Some r => IDone r s | None => IWild end.
Definition canon_put_i (bp c : Z) : I unit := fun s => match canon_put bp c s with Some s => IDone tt s | None => IWild end.

(** Lines 310-351; [n] bounds the characters taken, of which there may come ever more. *)
Fixpoint canon_loop_i (n : nat) (bp : Z) : I Z :=
  match n with
  | O => fun _ => INoFuel
  | S n =>
      c ← irun (getc Rawq);
      delim ← ilook (fun s => cooked s && (c =? DELIM));
      ipoint (if delim : bool then Taken else Free);;
      if c <? 0 then mret bp
      else
        delim ← ilook (fun s => cooked s && (c =? DELIM));
        if delim : bool then
          x ← ilook (fun s => t_delct (tp s));
          ipoint Loaded;;
          iset (on_tp (set_t_delct (byte (x - 1))));;
          mret bp
        else
          r ← canon_char_i c bp;
          ipoint Free;;
          match r with
          | (bp, None) => canon_loop_i n bp
          | (bp, Some c) =>
              canon_put_i bp c;;
              ipoint Free;;
              if CANBSIZ <=? bp + 1 then mret (bp + 1) else canon_loop_i n (bp + 1)
          end
  end.

Definition canon_line_i (n : nat) : I Z :=
  bp ← canon_loop_i n 2;
  ipoint Free;;
  iset (fun s => (b_to_q (take (Z.to_nat (bp - 2)) (drop 2 (canonb s))) Canq s).2);;
  ipoint Free;;
  iset unblock;;
  ipoint Free;;
  mret (bp - 2).

(** The wait is at priority 5. *)
Fixpoint canon_i (n fuel : nat) : I Z :=
  match fuel with
  | O => fun _ => INoFuel
  | S fuel =>
      wait ← ilook (fun s => if cooked s then t_delct (tp s) =? 0 else c_cc s Rawq =? 0);
      if wait : bool then
        carr ← ilook (fun s => tst_state s CARR_ON);
        if carr : bool then spl5 (tsleep Rawq TTIPRI);; canon_i n fuel else mret 0
      else ipoint Free;; canon_line_i n
  end.

Fixpoint take_line_i (n : nat) : I unit :=
  match n with
  | O => fun _ => INoFuel
  | S n =>
      none ← ilook (fun s => c_cc s Canq =? 0);
      ipoint Free;;
      if none : bool then mret tt
      else
        c ← irun (getc Canq);
        ipoint Free;;
        r ← irun (passc c);
        ipoint Free;;
        if r <? 0 then mret tt else take_line_i n
  end.

Definition ttread_i (n fuel : nat) : I Z :=
  carr ← ilook (fun s => tst_state s CARR_ON);
  ipoint Free;;
  if negb carr then mret 0
  else
    have ← ilook (fun s => negb (c_cc s Canq =? 0));
    ipoint Free;;
    m ← (if have : bool then mret 1 else canon_i n fuel);
    (if m =? 0 then mret tt else take_line_i n);;
    ipoint Free;;
    ilook (fun s => c_cc s Rawq + c_cc s Canq).

(** [ttyoutput] is one step here: it does not touch the input. *)
Fixpoint ttwrite_loop_i (fuel : nat) : I unit :=
  match fuel with
  | O => fun _ => INoFuel
  | S fuel =>
      n ← ilook u_count;
      ipoint Free;;
      if n =? 0 then mret tt
      else
        spl5 (wait_low fuel);;
        ipoint Free;;
        c ← irun cpass;
        ipoint Free;;
        if c <? 0 then mret tt else iset (ttyoutput c);; ipoint Free;; ttwrite_loop_i fuel
  end.

Definition ttwrite_i (fuel : nat) : I unit :=
  carr ← ilook (fun s => tst_state s CARR_ON);
  ipoint Free;;
  if negb carr then mret tt else ttwrite_loop_i fuel;; spl5 (tput ttstart).

(** ** The line and those who use it *)

Inductive call := Open (dev : Z) | Read | Write | Close | Ioctl (c : com).

(** [scopen], [scread], [scwrite], [scclose] and [scioctl]. *)
Definition run_call (n fuel : nat) (c : call) : I unit :=
  match c with
  | Open dev => iset (scopen dev)
  | Read => ttread_i n fuel;; mret tt
  | Write => ttwrite_i fuel
  | Close => spl5 (ttyclose fuel)
  | Ioctl c => spl5 (scioctl fuel c);; mret tt
  end.

(** ** Routines that may sleep

    Whenever one gives the line away it leaves it in [J], and it may count on [J] when it
    gets it back; at its end the line is as [Q] says. *)

Fixpoint safe {A} (Q : A -> line T -> Prop) (r : tres A) : Prop :=
  match r with
  | TDone a s => Q a s
  | TSleep _ _ s k => J 0 s /\ forall s', J 0 s' -> safe Q (k s')
  | TNoFuel => True
  | TWild => False
  end.

Definition keeps {A} (Q : A -> line T -> Prop) (m : M A) : Prop := forall s, J 0 s -> safe Q (m s).
Definition still {A} : A -> line T -> Prop := fun _ => J 0.

Lemma safe_bind {A B} (Q : A -> line T -> Prop) (R : B -> line T -> Prop) (r : tres A) (f : A -> M B) :
  safe Q r -> (forall a s, Q a s -> safe R (f a s)) -> safe R (tres_bind r f).
Proof. intros Hr Hf. induction r as [a s|q p s k IH| |]; simpl in *; [by apply Hf| |done|done]. destruct Hr as [Hs Hk]. split; [done|]. intros s' Hs'. apply IH. by apply Hk. Qed.

Lemma keeps_seq {A B} Q (R : B -> line T -> Prop) (m : M A) (f : A -> M B) : keeps Q m -> (forall a s, Q a s -> safe R (f a s)) -> keeps R (m ≫= f).
Proof. intros Hm Hf s Hs. eapply safe_bind; [by apply Hm|done]. Qed.

Lemma keeps_then {A B} (R : B -> line T -> Prop) (m : M A) (f : A -> M B) : keeps still m -> (forall a, keeps R (f a)) -> keeps R (m ≫= f).
Proof. intros Hm Hf. eapply keeps_seq; [exact Hm|]. intros a s Hs. by apply Hf. Qed.

Lemma keeps_get {A} (g : line T -> A) : keeps still (tget g).
Proof. by intros s Hs. Qed.
Lemma keeps_mret {A} (a : A) : keeps still (mret a).
Proof. by intros s Hs. Qed.
Lemma keeps_put f : (forall s, same s (f s)) -> keeps still (tput f).
Proof. intros Hf s Hs. simpl. eapply J_same; [apply Hf|done]. Qed.
Lemma keeps_tsleep q p : keeps still (tsleep q p).
Proof. intros s Hs. simpl. auto. Qed.

(** One step of a routine that does not touch the input. *)
Ltac plainly := lazymatch goal with
  | |- keeps still (mret _) => apply keeps_mret
  | |- keeps still (tget _) => apply keeps_get
  | |- keeps still (tsleep _ _) => apply keeps_tsleep
  | |- keeps still (tput _) => apply keeps_put; intros ?
  | |- keeps _ (_ ≫= _) => apply keeps_then; [|intros ?]
  | |- keeps _ (if ?b then _ else _) => destruct b
  end.

Lemma keeps_flush n : keeps (fun _ s => clear s /\ buffer s) (wflushtty n).
Proof.
  induction n as [|n IH]; [by intros s Hs|]. cbn [wflushtty]. apply keeps_then; [plainly|]. intros b. destruct b.
  - repeat (apply keeps_then; [plainly|intros ?]); [apply same_scstart|by apply same_on|exact IH].
  - intros s Hs. destruct (flush_clear s) as [Hz _ _ E]. split; [exact Hz|]. unfold buffer. rewrite E. apply Hs.
Qed.

Lemma keeps_low n : keeps still (wait_low n).
Proof.
  induction n as [|n IH]; [by intros s Hs|]. cbn [wait_low]. repeat plainly; [apply same_ttstart|by apply same_on|exact IH].
Qed.

Lemma keeps_close n : keeps still (ttyclose n).
Proof.
  unfold ttyclose. apply keeps_then; [plainly; by split|intros _]. eapply keeps_seq; [apply keeps_flush|].
  intros a s [[E1 E2] Hb]. simpl. apply J_clear; [by split|done].
Qed.

Lemma J_open dev s : J 0 s -> J 0 (scopen dev s).
Proof.
  intros Hs. unfold scopen. case_match; [eapply J_same; [|exact Hs]; by split|]. cbv zeta.
  set (s1 := if tst_state s ISOPEN then s else _).
  assert (H1 : J 0 s1 /\ tst_state s1 ISOPEN = true).
  { unfold s1. destruct (tst_state s ISOPEN) eqn:Eo; [done|]. destruct Hs as [_ Hz Hb]. destruct (Hz Eo) as [E1 E2].
    split; [apply J_clear; by split; try apply Hb|done]. }
  destruct H1 as [H1 Ho]. clearbody s1. unfold ttyopen. cbv zeta. set (s2 := if _ =? 0 then _ else _).
  assert (E2 : same s1 s2) by (unfold s2; repeat case_match; by split).
  pose proof (J_same _ _ _ E2 H1) as H2. rewrite <- (sm_open _ _ E2) in Ho. clearbody s2.
  eapply J_same; [|exact H2]. transitivity (state_off WOPEN s2); [by apply same_off|]. split; try done.
  unfold tst_state in *. simpl. rewrite tst_lor, tst_clr_other by done. by rewrite Ho.
Qed.

(** [TIOCSETN] may not lead from another mode to cooked mode. *)
Definition allowed (c : com) s : bool :=
  match c with
  | TIOCSETN (Some l) => negb (cooked (on_tp (set_sgttyb l) s)) || cooked s
  | _ => true
  end.

Lemma set_sgttyb_kept l t : t_delct (set_sgttyb l t) = t_delct t /\ t_state (set_sgttyb l t) = t_state t.
Proof. by destruct l as [|? [|? [|? [|? [|? [|? ?]]]]]]. Qed.

Lemma set_tchars_kept l t : t_delct (set_tchars l t) = t_delct t /\ t_state (set_tchars l t) = t_state t /\ t_flags (set_tchars l t) = t_flags t.
Proof. by destruct l as [|? [|? [|? [|? [|? [|? [|? ?]]]]]]]. Qed.

Lemma keeps_ioctl n c s : J 0 s -> allowed c s = true -> safe still (ttioccomm n c s).
Proof.
  intros Hs Ha. assert (Hans : forall b (g : line T -> list Z), keeps still (answer b g)) by (intros b g; unfold answer; repeat plainly; by split).
  assert (Herr : forall e, keeps still (tput (set_u_error e);; mret (1, ([] : list Z)))) by (intros e; repeat plainly; by split).
  destruct c as [b|[t|]| | |src|src|b| | | | |src|b|]; cbn [ttioccomm].
  - by apply Hans.
  - destruct (_ || _); [by apply Herr|]. clear Ha. revert s Hs.
    change (keeps still (e ← tget u_error; (if e =? 0 then tput (on_tp (set_t_line t)) else mret tt);; mret (1, ([] : list Z)))).
    repeat plainly. by split.
  - by apply Herr.
  - simpl. eapply J_same; [by apply same_on|done].
  - simpl. eapply J_same; [by apply same_off|done].
  - eapply safe_bind; [apply (keeps_flush n s Hs)|]. intros u s1 [Hz Hb]. destruct src as [l|]; [|by apply Herr, J_clear].
    simpl. apply J_clear; [|done]. destruct Hz as [E1 E2]. split; [done|]. simpl. by rewrite (proj1 (set_sgttyb_kept l _)).
  - destruct src as [l|]; [|by apply Herr]. simpl. simpl in Ha. destruct Hs as [Hk Hz Hb]. destruct (set_sgttyb_kept l (tp s)) as [F1 F2]. split; [| |done].
    + intros Hc. unfold cooked, tst_flags in *. simpl in *. rewrite Hc in Ha. simpl in Ha. destruct (Hk Ha) as [C1 C2 C3]. split; try done. simpl. by rewrite F1.
    + unfold tst_state. simpl. rewrite F2. intros Ho. destruct (Hz Ho) as [Z1 Z2]. split; [done|]. simpl. by rewrite F1.
  - by apply Hans.
  - simpl. eapply J_same; [by apply same_on|done].
  - simpl. eapply J_flushed; [apply flush_clear|apply Hs].
  - done.
  - done.
  - destruct src as [l|]; [|by apply Herr]. simpl. destruct (set_tchars_kept l (tp s)) as (F1 & F2 & F3). eapply J_same; [|exact Hs].
    split; try done; unfold tst_state; simpl; by rewrite ?F2.
  - by apply Hans.
  - done.
Qed.

(** ** Routines that may be interrupted

    The same, with the rely at each kind of point: an interrupt keeps the mode, and the count
    as the kind of point asks. *)

Definition holds d s : Prop := match d with Free => J 0 s | Taken | Loaded => K 1 s end.

Record after d s s' : Prop := {
  af_flags : t_flags (tp s') = t_flags (tp s);
  af_delct : d = Loaded -> t_delct (tp s') = t_delct (tp s);
}.

Fixpoint isafe {A} (Q : A -> line T -> Prop) (r : ires A) : Prop :=
  match r with
  | IDone a s => Q a s
  | ISleep _ _ s k => J 0 s /\ forall s', J 0 s' -> isafe Q (k s')
  | IPoint d s k => holds d s /\ forall s', holds d s' -> after d s s' -> isafe Q (k s')
  | INoFuel => True
  | IWild => False
  end.

Definition ikeeps {A} (Q : A -> line T -> Prop) (m : I A) : Prop := forall s, J 0 s -> isafe Q (m s).

Lemma isafe_bind {A B} (Q : A -> line T -> Prop) (R : B -> line T -> Prop) (r : ires A) (f : A -> I B) :
  isafe Q r -> (forall a s, Q a s -> isafe R (f a s)) -> isafe R (ires_bind r f).
Proof.
  intros Hr Hf. induction r as [a s|q p s k IH|d s k IH| |]; simpl in *; [by apply Hf| | |done|done]; destruct Hr as [Hs Hk]; (split; [done|]).
  - intros s' Hs'. apply IH. by apply Hk.
  - intros s' Hs' Ha. apply IH. by apply Hk.
Qed.

Lemma ikeeps_seq {A B} Q (R : B -> line T -> Prop) (m : I A) (f : A -> I B) : ikeeps Q m -> (forall a s, Q a s -> isafe R (f a s)) -> ikeeps R (m ≫= f).
Proof. intros Hm Hf s Hs. eapply isafe_bind; [by apply Hm|done]. Qed.

Lemma ikeeps_then {A B} (R : B -> line T -> Prop) (m : I A) (f : A -> I B) : ikeeps still m -> (forall a, ikeeps R (f a)) -> ikeeps R (m ≫= f).
Proof. intros Hm Hf. eapply ikeeps_seq; [exact Hm|]. intros a s Hs. by apply Hf. Qed.

Lemma isafe_masked {A} (Q : A -> line T -> Prop) (r : tres A) : safe Q r -> isafe Q (masked r).
Proof. induction r as [a s|q p s k IH| |]; simpl; try done. intros [Hs Hk]. split; [done|]. intros s' Hs'. by apply IH, Hk. Qed.

Lemma ikeeps_look {A} (g : line T -> A) : ikeeps still (ilook g).
Proof. by intros s Hs. Qed.
Lemma ikeeps_mret {A} (a : A) : ikeeps still (mret a : I A).
Proof. by intros s Hs. Qed.
Lemma ikeeps_set f : (forall s, same s (f s)) -> ikeeps still (iset f).
Proof. intros Hf s Hs. simpl. eapply J_same; [apply Hf|done]. Qed.
Lemma ikeeps_run {A} (f : line T -> A * line T) : (forall s, same s (f s).2) -> ikeeps still (irun f).
Proof. intros Hf s Hs. unfold irun. specialize (Hf s). destruct (f s) as [a s1]. simpl. by eapply J_same. Qed.
Lemma ikeeps_point : ikeeps still (ipoint Free).
Proof. intros s Hs. simpl. auto. Qed.
Lemma ikeeps_spl5 {A} (Q : A -> line T -> Prop) (m : M A) : keeps Q m -> ikeeps Q (spl5 m).
Proof. intros Hm s Hs. by apply isafe_masked, Hm. Qed.

Ltac iplainly := lazymatch goal with
  | |- ikeeps still (mret _) => apply ikeeps_mret
  | |- ikeeps still (ilook _) => apply ikeeps_look
  | |- ikeeps still (ipoint Free) => apply ikeeps_point
  | |- ikeeps still (spl5 _) => apply ikeeps_spl5
  | |- ikeeps still (iset _) => apply ikeeps_set; intros ?
  | |- ikeeps still (irun _) => apply ikeeps_run; intros ?
  | |- ikeeps _ (_ ≫= _) => apply ikeeps_then; [|intros ?]
  | |- ikeeps _ (if ?b then _ else _) => destruct b
  end.

Lemma J_get s : J 0 s -> let (c, s') := getc Rawq s in
  holds (if cooked s' && (c =? DELIM) then Taken else Free) s' /\ (c < 0 -> cooked s' && (c =? DELIM) = false).
Proof.
  intros Hs. destruct (chars s Rawq) as [|c l] eqn:E.
  - destruct (getc_none _ _ E) as (x & -> & X1 & _). replace (-1 =? DELIM) with false by done. rewrite andb_false_r.
    split; [|done]. eapply J_same; [|exact Hs]. apply same_qs. apply X1.
  - destruct (getc_run _ _ _ _ E) as (x & -> & X1 & _). pose proof (q_bytes (qs s) Rawq) as Hb. unfold chars in E. rewrite E in Hb.
    apply Forall_cons in Hb as [Hc _]. pose proof (J_take c l x s E X1 Hs) as Ht. change (cooked (set_qs x s)) with (cooked s).
    split; [|lia]. destruct (cooked s && (c =? DELIM)); [exact Ht|apply Ht].
Qed.

(** The line in canon() ends inside of [canonb]. *)
Definition within (bp : Z) s : Prop := J 0 s /\ 2 <= bp <= CANBSIZ.

Lemma safe_canon_loop n bp s : J 0 s -> 2 <= bp < CANBSIZ -> isafe within (canon_loop_i n bp s).
Proof.
  revert bp s. induction n as [|n IH]; intros bp s Hs Hbp; [done|]. cbn [canon_loop_i]. pose proof (J_get s Hs) as Hg.
  unfold mbind, ires_mbind, irun. destruct (getc Rawq s) as [c s1]. destruct Hg as [Hg Hneg]. cbn [ires_bind ilook ipoint isafe].
  split; [done|]. intros s2 H2 [Ef _]. assert (Ec : cooked s2 = cooked s1) by (by apply same_cooked). rewrite <- Ec in H2, Hneg. clear Hg Ec Ef s1 Hs s.
  destruct (Z.ltb_spec c 0) as [Hlt|Hge].
  { rewrite Hneg in H2 by done. simpl. split; [exact H2|lia]. }
  cbn [ires_bind ilook]. destruct (cooked s2 && (c =? DELIM)) eqn:Ed; cbn [ires_bind ipoint isafe iset mret ires_ret].
  { split; [exact H2|]. intros s3 H3 [_ Eq]. rewrite <- (Eq eq_refl). split; [apply K_less, H3|lia]. }
  simpl in H2. unfold canon_char_i. destruct (canon_char_some c bp s2 (J_buffer _ _ H2) Hbp) as (bp' & o & -> & Hbp').
  cbn [ires_bind ipoint isafe]. split; [exact H2|]. intros s3 H3 _. simpl in H3. destruct o as [e|]; [|apply IH; [done|lia]].
  unfold canon_put_i. destruct (J_put 0 bp' e s3 H3 ltac:(lia)) as (s4 & E4 & H4 & _). cbn [ires_bind]. rewrite E4. cbn [ires_bind ipoint isafe].
  split; [exact H4|]. intros s5 H5 _. destruct (Z.leb_spec CANBSIZ (bp' + 1)); [split; [exact H5|lia]|]. apply IH; [exact H5|lia].
Qed.

Lemma ikeeps_canon n fuel : ikeeps still (canon_i n fuel).
Proof.
  induction fuel as [|fuel IH]; [by intros s Hs|]. cbn [canon_i]. repeat iplainly; [apply keeps_tsleep|exact IH|].
  unfold canon_line_i. eapply ikeeps_seq; [intros s Hs; apply safe_canon_loop; [done|unfold CANBSIZ; lia]|]. intros bp s [Hs _]. revert s Hs.
  match goal with |- forall s, J 0 s -> isafe still (?m s) => change (ikeeps still m) end. repeat iplainly; [by apply same_b_to_q|apply same_unblock].
Qed.

Lemma ikeeps_take n : ikeeps still (take_line_i n).
Proof.
  induction n as [|n IH]; [by intros s Hs|]. cbn [take_line_i]. repeat iplainly; [by apply same_getc|apply same_passc|exact IH].
Qed.

Lemma ikeeps_read n fuel : ikeeps still (ttread_i n fuel).
Proof. unfold ttread_i. repeat iplainly; [apply ikeeps_canon|apply ikeeps_take]. Qed.

Lemma ikeeps_write fuel : ikeeps still (ttwrite_i fuel).
Proof.
  assert (Hl : ikeeps still (ttwrite_loop_i fuel)).
  { induction fuel as [|fuel IH]; [by intros s Hs|]. cbn [ttwrite_loop_i]. repeat iplainly; [apply keeps_low|apply same_cpass|apply same_output|exact IH]. }
  unfold ttwrite_i. repeat iplainly; [exact Hl|]. apply keeps_put. intros s. apply same_ttstart.
Qed.

Definition permitted (c : call) s : bool := match c with Ioctl c => allowed c s | _ => true end.

Lemma safe_call n fuel c s : J 0 s -> permitted c s = true -> isafe still (run_call n fuel c s).
Proof.
  intros Hs Hp. destruct c as [dev| | | |c]; cbn [run_call].
  - by apply J_open.
  - eapply isafe_bind; [by apply ikeeps_read|]. by intros.
  - by apply ikeeps_write.
  - by apply isafe_masked, keeps_close.
  - eapply isafe_bind; [|by intros; apply H0]. apply isafe_masked. unfold scioctl. eapply safe_bind; [by apply keeps_ioctl|]. intros [a l] s1 Hs1.
    simpl. destruct (a =? 0); simpl; [eapply J_same; [|exact Hs1]; by split|done].
Qed.

(** The line, the process that was in a call when the last interrupt came, and those that sleep. *)
Definition running : Type := option (danger * (line T -> ires unit)).
Definition tsys : Type := line T * running * list (line T -> ires unit).

(** How a call or its continuation leaves the processor: it is over, sleeps, or can be interrupted. *)
Inductive leaves : ires unit -> line T -> running -> list (line T -> ires unit) -> Prop :=
  | leaves_done s : leaves (IDone tt s) s None []
  | leaves_asleep q p s k : leaves (ISleep q p s k) s None [k]
  | leaves_point d s k : leaves (IPoint d s k) s (Some (d, k)) [].

(** What an interrupt must not do at a point: throw input away when a delimiter is taken and
    not counted, or change a count that is loaded. *)
Definition spares d s s' : Prop :=
  match d with
  | Free => True
  | Taken => t_delct (tp s) <= t_delct (tp s') /\ chars s Rawq `prefix_of` chars s' Rawq
  | Loaded => t_delct (tp s') = t_delct (tp s) /\ chars s Rawq `prefix_of` chars s' Rawq
  end.

Definition at_risk (r : running) : danger := match r with Some (d, _) => d | None => Free end.

(** While a process runs in the kernel no other does; [switch] is what others do to the rest. *)
Inductive tstep : tsys -> tsys -> Prop :=
  | step_call n fuel c s s' r k ks : permitted c s = true -> leaves (run_call n fuel c s) s' r k -> tstep (s, None, ks) (s', r, k ++ ks)
  | step_go s s' d k r' k' ks : leaves (k s) s' r' k' -> tstep (s, Some (d, k), ks) (s', r', k' ++ ks)
  | step_resume s s' k r' k' l1 l2 : leaves (k s) s' r' k' -> tstep (s, None, l1 ++ k :: l2) (s', r', k' ++ l1 ++ l2)
  | step_intr input done s r ks : spares (at_risk r) s (scintr input done s) -> tstep (s, r, ks) (scintr input done s, r, ks)
  | step_switch s s' ks : tp s' = tp s -> qs s' = qs s -> buffer s' -> tstep (s, None, ks) (s', None, ks).

Definition good_k (k : line T -> ires unit) : Prop := forall s, J 0 s -> isafe still (k s).

Definition good_run (r : running) s : Prop :=
  match r with
  | None => J 0 s
  | Some (d, k) => holds d s /\ forall s', holds d s' -> after d s s' -> isafe still (k s')
  end.

Definition good (x : tsys) : Prop := good_run x.1.2 x.1.1 /\ Forall good_k x.2.

Lemma safe_leaves x s' r k : isafe still x -> leaves x s' r k -> good_run r s' /\ Forall good_k k.
Proof. intros Hx Hl. destruct Hl; simpl in Hx; [split; [done|constructor]| |by split]. destruct Hx as [Hs Hk]. split; [done|by repeat constructor]. Qed.

(** An interrupt, with [n] delimiters taken and not counted. *)
Lemma K_intr n i dn s : 0 <= n <= 1 -> K n s ->
  t_flags (tp (scintr i dn s)) = t_flags (tp s) /\ (K n (scintr i dn s) \/ (K 0 (scintr i dn s) /\ spoiled s (scintr i dn s))).
Proof.
  intros Hn Hs. unfold scintr. rewrite (proj2 Hs). cbn [negb]. cbv zeta. set (s1 := match i with Some c => _ | None => s end).
  assert (H1 : t_flags (tp s1) = t_flags (tp s) /\ (K n s1 \/ (K 0 s1 /\ spoiled s s1))) by (unfold s1; destruct i; [by apply K_input|by auto]).
  clearbody s1. destruct dn; [|done]. assert (E : same s1 (ttstart (state_off BUSY s1))).
  { transitivity (state_off BUSY s1); [by apply same_off|apply same_ttstart]. }
  destruct H1 as [H1 H2]. split; [by rewrite (sm_flags _ _ E)|]. destruct H2 as [H2|[H2 H3]]; [left; by eapply K_same|right]. split; [by eapply K_same|].
  destruct H3 as [H3|H3]; [left; by eapply clear_same|right]. unfold c_cc in *. by rewrite (sm_raw _ _ E).
Qed.

Lemma J_intr i dn s : J 0 s -> J 0 (scintr i dn s) /\ t_flags (tp (scintr i dn s)) = t_flags (tp s).
Proof.
  intros Hs. destruct (tst_state s ISOPEN) eqn:Eo.
  - destruct (K_intr 0 i dn s ltac:(lia) (conj Hs Eo)) as [E [Hk|[Hk _]]]; (split; [apply Hk|done]).
  - unfold scintr. by rewrite Eo.
Qed.

(** An interrupt that spares the input keeps the delimiter that is not counted. *)
Lemma K_spared d i dn s : d <> Free -> spares d s (scintr i dn s) -> K 1 s -> K 1 (scintr i dn s).
Proof.
  intros Hd Hsp Hs. destruct (K_intr 1 i dn s ltac:(lia) Hs) as [E [Hk|[Hk Hspoil]]]; [done|]. set (s' := scintr i dn s) in *. clearbody s'.
  destruct Hk as [[Kc Kz Kb] Ko]. split; [|done]. split; [|done|done]. intros Hco. exfalso.
  assert (Hco' : cooked s = true) by (by rewrite <- (same_cooked _ _ E)). destruct Hs as [[Hc _ _] _]. destruct (Hc Hco') as [C1 C2 C3].
  pose proof (sparse_bound _ C2) as Hb. assert (Hpre : t_delct (tp s) <= t_delct (tp s') /\ chars s Rawq `prefix_of` chars s' Rawq)
    by (destruct d; [done|done|destruct Hsp as [-> ?]; split; [lia|done]]).
  destruct Hpre as [Hle Hpre]. destruct Hspoil as [[_ E0]|[L1 L2]]; [lia|]. apply prefix_length in Hpre. unfold c_cc, TTYHOG in *. lia.
Qed.

Lemma tstep_good x y : tstep x y -> good x -> good y.
Proof.
  intros Hst [Hs Hk]. destruct Hst as [n fuel c s s' r k ks Hp Hl|s s' d k r' k' ks Hl|s s' k r' k' l1 l2 Hl|i dn s r ks Hsp|s s' ks E1 E2 Hb]; simpl in *.
  - destruct (safe_leaves _ _ _ _ (safe_call n fuel c s Hs Hp) Hl) as [H1 H2]. split; [done|]. simpl. by apply Forall_app.
  - destruct Hs as [Hs Hc]. destruct (safe_leaves _ _ _ _ (Hc s Hs ltac:(by split)) Hl) as [H1 H2]. split; [done|]. simpl. by apply Forall_app.
  - apply Forall_app in Hk as [K1 [K2 K3]%Forall_cons]. destruct (safe_leaves _ _ _ _ (K2 s Hs) Hl) as [H1 H2]. split; [done|]. simpl. by rewrite !Forall_app.
  - split; [|done]. simpl. destruct r as [[d k]|]; simpl in *; [|by apply J_intr]. destruct Hs as [Hs Hc].
    assert (Hi : t_flags (tp (scintr i dn s)) = t_flags (tp s) /\ holds d (scintr i dn s)).
    { destruct d; simpl in Hs |- *; [by destruct (J_intr i dn s Hs)|..]; (split; [by apply (K_intr 1); [lia|]|]); [by apply (K_spared Taken)|by apply (K_spared Loaded)]. }
    destruct Hi as [Ef Hh]. split; [done|]. intros s' Hs' [A1 A2]. apply Hc; [done|]. split; [congruence|]. intros ->. rewrite (A2 eq_refl). apply Hsp.
  - split; [|done]. by eapply J_switch.
Qed.

Lemma tsteps_good x y : rtc tstep x y -> good x -> good y.
Proof. intros Hr. induction Hr as [|x y z Hxy _ IH]; [done|]. intros Hx. apply IH. by eapply tstep_good. Qed.

(** The delimiters that are off the queue and not off the count. *)
Definition pending (r : running) : Z := match at_risk r with Free => 0 | Taken | Loaded => 1 end.

Lemma delims_zero l : delims l = 0 <-> DELIM ∉ l.
Proof.
  induction l as [|c l IH]; [split; [intros _; apply not_elem_of_nil|done]|]. rewrite delims_cons, not_elem_of_cons.
  unfold delims in *. case_decide as Hd; [split; [lia|]; intros [E _]; congruence|]. rewrite Z.add_0_l, IH. split; [intros Hx; split; congruence|tauto].
Qed.

(** C13. However the calls of several processes, their sleeps, and the interrupts of the line
    interleave, interrupts between any two statements of canon(), ttread() and ttwrite() at
    priority 0 included, in cooked mode [t_delct] is the number of delimiters in the raw
    queue, and of the one canon() has just taken and is about to count; a closed line is
    empty; and no call, nor any process that sleeps or was interrupted in one, goes on to
    touch a byte outside of [canonb].  The premises in [tstep]: [TIOCSETN] never leads from
    raw or cbreak mode to cooked mode; between [getc] of a delimiter and the load of
    [t_delct--] no interrupt throws the input away, and between its load and its store none
    changes the count; opening, closing and the ioctls are each one step, but for their sleeps. *)
Theorem delimiters_counted s0 s r ks : clear s0 -> buffer s0 -> rtc tstep (s0, None, []) (s, r, ks) ->
  (cooked s = true -> t_delct (tp s) = delims (chars s Rawq) + pending r /\ c_cc s Rawq <= TTYHOG + 2 /\
    (pending r = 0 -> t_delct (tp s) = 0 <-> DELIM ∉ chars s Rawq)) /\
  (tst_state s ISOPEN = false -> chars s Rawq = [] /\ t_delct (tp s) = 0) /\
  match r with
  | None => forall n fuel c, permitted c s = true -> run_call n fuel c s <> IWild
  | Some (_, k) => k s <> IWild
  end /\ (r = None -> Forall (fun k => k s <> IWild) ks).
Proof.
  intros H0 Hb0 Hr. destruct (tsteps_good _ _ Hr) as [Hg Hks]; [split; [by apply J_clear|constructor]|]. simpl in *.
  assert (HJ : J (pending r) s) by (destruct r as [[[] k]|]; apply Hg).
  split_and!.
  - intros Hco. destruct (J_cooked _ _ HJ Hco) as [C1 C2 C3]. split_and!; [done|done|]. intros E. rewrite C1, E, Z.add_0_r. apply delims_zero.
  - apply (J_closed _ _ HJ).
  - destruct r as [[d k]|]; simpl in Hg; [|intros n fuel c Hp]; intros E.
    + destruct Hg as [Hs Hc]. specialize (Hc s Hs ltac:(by split)). by rewrite E in Hc.
    + pose proof (safe_call n fuel c s Hg Hp) as Hc. by rewrite E in Hc.
  - intros ->. eapply Forall_impl; [exact Hks|]. intros k Hk E. specialize (Hk s Hg). by rewrite E in Hk.
Qed.

(** ** With no interrupt at a point the routines are those of [Tty] *)

Lemma undisturbed_bind {A B} (x : ires A) (f : A -> I B) a s : undisturbed x = TDone a s -> undisturbed (ires_bind x f) = undisturbed (f a s).
Proof. induction x as [b s'|q p s' k IH|d s' k IH| |]; simpl; try done; [by intros [= -> ->]|apply IH]. Qed.

Lemma canon_loop_undisturbed n m bp s bp' s' : canon_loop m bp s = Some (bp', s') -> (m <= n)%nat -> undisturbed (canon_loop_i n bp s) = TDone bp' s'.
Proof.
  revert m bp s. induction n as [|n IH]; intros [|m] bp s E Hn; try done; [lia|]. cbn [canon_loop_i canon_loop] in *.
  unfold mbind, ires_mbind, irun. destruct (getc Rawq s) as [c s1]. cbn [ires_bind ilook ipoint undisturbed].
  destruct (c <? 0); [by injection E as -> ->|]. cbn [ires_bind ilook].
  destruct (cooked s1 && (c =? DELIM)); cbn [ires_bind ipoint undisturbed iset mret ires_ret]; [by injection E as -> <-|].
  unfold canon_char_i. destruct (canon_char c bp s1) as [[b [e|]]|]; [|apply (IH m); [done|lia]|done]. cbn [ires_bind ipoint undisturbed].
  unfold canon_put_i. cbn [ires_bind]. destruct (canon_put b e s1) as [s2|]; [|done]. cbn [ires_bind ipoint undisturbed].
  destruct (CANBSIZ <=? b + 1); [by injection E as -> ->|]. apply (IH m); [done|lia].
Qed.

Lemma canon_undisturbed fuel s m s' : canon fuel s = TDone m s' -> exists n0, forall n, (n0 <= n)%nat -> undisturbed (canon_i n fuel s) = TDone m s'.
Proof.
  destruct fuel as [|fuel]; [done|]. cbn [canon canon_i]. unfold mbind, tty_bind, ires_mbind, tget, ilook. cbn [tres_bind ires_bind].
  destruct (if cooked s then _ else _).
  - cbn [tres_bind ires_bind]. destruct (tst_state s CARR_ON); [done|]. intros [= <- <-]. by exists O.
  - intros E. unfold ttry in E. destruct (canon_line s) as [[m' s1]|] eqn:El; [|done]. injection E as -> ->. unfold canon_line in El.
    destruct (canon_loop _ 2 s) as [[bp s2]|] eqn:Ell; [|done]. injection El as <- <-. exists (S (length (chars s Rawq))). intros n Hn.
    cbn [ipoint ires_bind undisturbed]. unfold canon_line_i. unfold mbind, ires_mbind. by rewrite (undisturbed_bind _ _ _ _ (canon_loop_undisturbed _ _ _ _ _ _ Ell Hn)).
Qed.

Lemma getc_length q s : q = Canq -> (length (chars s q) <> 0)%nat -> length (chars s q) = S (length (chars (getc q s).2 q)).
Proof.
  intros -> Hl. destruct (chars s Canq) as [|c l] eqn:E; [done|]. destruct (getc_run _ _ _ _ E) as (x & -> & X1 & _). simpl. unfold chars. simpl. by rewrite X1.
Qed.

Lemma take_line_undisturbed m n s : (length (chars s Canq) <= m)%nat -> (m < n)%nat -> undisturbed (take_line_i n s) = TDone tt (take_line m s).
Proof.
  revert n s. induction m as [|m IH]; intros [|n] s Hl Hn; try lia; cbn [take_line_i take_line]; unfold mbind, ires_mbind, ilook, irun; cbn [ires_bind ipoint undisturbed].
  - unfold c_cc. replace (length (chars s Canq)) with O by lia. done.
  - destruct (Z.eqb_spec (c_cc s Canq) 0) as [E|E]; [done|]. unfold c_cc in E. pose proof (getc_length Canq s eq_refl ltac:(lia)) as Hg. cbn [ires_bind].
    destruct (getc Canq s) as [c s1]. cbn [ires_bind ipoint undisturbed snd] in *.
    assert (Hp : chars (passc c s1).2 Canq = chars s1 Canq) by (unfold passc; by case_match).
    destruct (passc c s1) as [r s2]. cbn [ires_bind ipoint undisturbed snd] in *. case_match; [done|]. apply IH; [rewrite Hp; lia|lia].
Qed.

(** A read() that does not sleep is, when no interrupt comes, that of [Tty]. *)
Lemma ttread_undisturbed fuel s r s' : ttread fuel s = TDone r s' -> exists n0, forall n, (n0 <= n)%nat -> undisturbed (ttread_i n fuel s) = TDone r s'.
Proof.
  unfold ttread, ttread_i, mbind, tty_bind, ires_mbind, tget, ilook. cbn [tres_bind ires_bind].
  destruct (tst_state s CARR_ON); cbn [negb tres_bind ires_bind ipoint undisturbed]; [|intros [= <- <-]; by exists O].
  assert (Hrest : forall m s1, tres_bind ((if m =? 0 then mret tt else tput (fun s => take_line (length (chars s Canq)) s)) s1)
      (fun _ s => TDone (c_cc s Rawq + c_cc s Canq) s) = TDone r s' ->
    exists n0, forall n, (n0 <= n)%nat -> undisturbed (ires_bind ((if m =? 0 then mret tt else take_line_i n) s1)
      (fun _ s => ires_bind (ipoint Free s) (fun _ s => IDone (c_cc s Rawq + c_cc s Canq) s))) = TDone r s').
  { intros m s1. destruct (m =? 0); cbn [tput tres_bind mret tty_ret]; intros E; [by exists O|]. exists (S (length (chars s1 Canq))). intros n Hn.
    rewrite (undisturbed_bind _ _ tt (take_line (length (chars s1 Canq)) s1)); [exact E|]. by apply take_line_undisturbed; [|lia]. }
  destruct (negb (c_cc s Canq =? 0)).
  - cbn [tres_bind ires_bind mret tty_ret ires_ret]. apply Hrest.
  - intros E. destruct (canon fuel s) as [m s1| | |] eqn:Ec; try done. cbn [tres_bind] in E.
    destruct (canon_undisturbed _ _ _ _ Ec) as (n1 & H1). destruct (Hrest m s1 E) as (n2 & H2). exists (n1 + n2)%nat. intros n Hn.
    rewrite (undisturbed_bind _ _ m s1) by (apply H1; lia). apply H2. lia.
Qed.

(** ** A count of lines that are not there

    A delimiter counted when it is not in the queue makes canon() return no byte, which a
    program takes for the end of its input, and nothing takes it off the count again. *)

Record phantom s : Prop := {
  ph_cooked : cooked s = true;
  ph_raw : chars s Rawq = [];
  ph_can : chars s Canq = [];
  ph_delct : t_delct (tp s) <> 0;
  ph_carr : tst_state s CARR_ON = true;
}.

(** [n] calls of read() one after another, each of which returns at once and gives the user nothing. *)
Fixpoint ends_of_file (n : nat) s : Prop :=
  match n with
  | O => True
  | S n => exists s', ttread 1 s = TDone 0 s' /\ user s' = user s /\ ends_of_file n s'
  end.

Lemma unblock_rest s : chars (unblock s) Canq = chars s Canq /\ user (unblock s) = user s /\ tst_state (unblock s) CARR_ON = tst_state s CARR_ON.
Proof.
  unfold unblock. case_match; [|done]. unfold putc. pose proof (q_putc_other (t_startc (tp s)) Outq (qs s) Canq ltac:(done)) as Hp.
  destruct (q_putc _ Outq (qs s)) as [r x]. cbn [snd] in Hp. set (s1 := set_qs x s). destruct (r =? 0); [|done].
  destruct (quiet_ttstart (state_off TBLOCK s1)) as [Q _]. set (s2 := ttstart _) in *. clearbody s2.
  change (chars s2 Canq = chars s Canq /\ user s2 = user s /\ tst_state s2 CARR_ON = tst_state s CARR_ON).
  rewrite (qt_can _ _ _ Q), (qt_user _ _ _ Q). split_and!; [exact Hp|done|]. pose proof (qt_state _ _ _ Q) as E. unfold tst_state.
  rewrite <- (tst_clr_other (t_state (tp s2)) OUT CARR_ON), E, !tst_clr_other by done. simpl. by rewrite tst_clr_other.
Qed.

Lemma phantom_read s : phantom s -> exists s', ttread 1 s = TDone 0 s' /\ user s' = user s /\ phantom s'.
Proof.
  intros [P1 P2 P3 P4 P5]. unfold ttread, mbind, tty_bind, tget. cbn [tres_bind]. rewrite P5. cbn [negb tres_bind]. unfold c_cc at 1. rewrite P3.
  change (negb (Z.of_nat (length (@nil Z)) =? 0)) with false. cbn [canon]. unfold mbind, tty_bind, tget. cbn [tres_bind].
  rewrite P1, (proj2 (Z.eqb_neq _ 0) P4). cbn [tres_bind].
  unfold ttry, canon_line. rewrite P2. cbn [length canon_loop]. destruct (getc_none _ _ P2) as (x & -> & X1 & _).
  change (-1 <? 0) with true. cbn [b_to_q take snd Z.sub]. set (s1 := set_qs x s). change (b_to_q (take (Z.to_nat (2 - 2)) (drop 2 (canonb s1))) Canq s1) with (0, s1).
  cbn [snd tres_bind]. destruct (unblock_rest s1) as (U1 & U2 & U3). pose proof (same_unblock s1) as [E1 E2 E3 _ _]. set (s2 := unblock s1) in *. clearbody s2.
  change (2 - 2 =? 0) with true. cbn [mret tty_ret tres_bind]. exists s2. assert (R2 : chars s2 Rawq = []) by (rewrite E1; unfold chars; simpl; rewrite X1; exact P2).
  assert (C2 : chars s2 Canq = []) by (rewrite U1; unfold chars; simpl; rewrite X1; exact P3). unfold c_cc. rewrite R2, C2. split_and!; [done|exact U2|].
  split; [by rewrite (same_cooked _ _ E3)|done|done|by rewrite E2|by rewrite U3].
Qed.

Lemma phantom_ends n s : phantom s -> ends_of_file n s.
Proof. revert s. induction n as [|n IH]; intros s Hs; [done|]. destruct (phantom_read s Hs) as (s' & E1 & E2 & E3). exists s'. split_and!; [done|done|by apply IH]. Qed.

(** In raw or cbreak mode a read() leaves the count alone. *)
Lemma b_to_q_tp l q s : tp (b_to_q l q s).2 = tp s.
Proof. revert s. induction l as [|c l IH]; intros s; [done|]. simpl. unfold putc. destruct (q_putc c q (qs s)) as [r x]. case_match; [done|]. by rewrite IH. Qed.

Lemma take_line_tp n s : tp (take_line n s) = tp s.
Proof.
  revert s. induction n as [|n IH]; intros s; [done|]. simpl. case_match; [done|]. unfold getc. destruct (q_getc Canq (qs s)) as [c x].
  assert (Hp : tp (passc c (set_qs x s)).2 = tp s) by (unfold passc; by case_match). destruct (passc c _) as [r s2]. simpl in Hp. case_match; [done|]. by rewrite IH.
Qed.

Lemma canon_loop_raw n bp s bp' s' : cooked s = false -> canon_loop n bp s = Some (bp', s') -> tp s' = tp s.
Proof.
  revert bp s. induction n as [|n IH]; intros bp s Hc E; [done|]. cbn [canon_loop] in E. unfold getc in E. destruct (q_getc Rawq (qs s)) as [c x].
  destruct (c <? 0); [by injection E as _ <-|]. change (cooked (set_qs x s)) with (cooked s) in E. rewrite Hc in E. cbn [andb] in E.
  destruct (canon_char c bp _) as [[b [e|]]|]; [|by apply IH in E|done]. unfold canon_put in E. destruct (_ && _); [|done].
  destruct (CANBSIZ <=? b + 1); [by injection E as _ <-|]. by apply IH in E.
Qed.

Lemma raw_read fuel s r s' : cooked s = false -> tst_state s CARR_ON = true -> ttread fuel s = TDone r s' ->
  t_delct (tp s') = t_delct (tp s) /\ tst_state s' CARR_ON = true.
Proof.
  intros Hc Hcar. unfold ttread, mbind, tty_bind, tget. cbn [tres_bind]. rewrite Hcar. cbn [negb tres_bind].
  assert (Hrest : forall m s1, t_delct (tp s1) = t_delct (tp s) /\ tst_state s1 CARR_ON = true ->
    tres_bind ((if m =? 0 then mret tt else tput (fun s => take_line (length (chars s Canq)) s)) s1) (fun _ s => TDone (c_cc s Rawq + c_cc s Canq) s) = TDone r s' ->
    t_delct (tp s') = t_delct (tp s) /\ tst_state s' CARR_ON = true).
  { intros m s1 H1. destruct (m =? 0); cbn [tput tres_bind mret tty_ret]; intros [= _ <-]; [done|]. unfold tst_state in *. by rewrite take_line_tp. }
  destruct (negb _); cbn [tres_bind mret tty_ret]; [by apply Hrest|]. destruct fuel as [|fuel]; [done|]. cbn [canon]. unfold mbind, tty_bind, tget. cbn [tres_bind].
  rewrite Hc. destruct (c_cc s Rawq =? 0); [cbn [tres_bind]; by rewrite Hcar|]. unfold ttry, canon_line.
  destruct (canon_loop _ 2 s) as [[bp s1]|] eqn:E; [|done]. apply canon_loop_raw in E; [|done]. cbn [tres_bind].
  set (s2 := (b_to_q _ Canq s1).2). assert (E2 : tp s2 = tp s) by (unfold s2; by rewrite b_to_q_tp). clearbody s2. apply Hrest.
  destruct (unblock_rest s2) as (_ & _ & U3). rewrite (sm_delct _ _ (same_unblock s2)), U3. unfold tst_state. by rewrite E2.
Qed.

(** C37. [TIOCSETN] changes the mode and keeps the queues with [t_delct].  Whenever whole lines
    wait in cooked mode, raw or cbreak mode is set with it, a read() takes all that was
    typed, delimiters included, and cooked mode is set again with it, the count stays what
    it was over an empty queue, and each read() from then on returns at once with no byte, an
    end of file nobody typed, as often as the program tries. *)
Theorem setn_end_of_file fuel l1 l2 s s1 s2 s3 a r b : tst_state s CARR_ON = true -> t_delct (tp s) <> 0 ->
  scioctl fuel (TIOCSETN (Some l1)) s = TDone a s1 -> cooked s1 = false ->
  ttread fuel s1 = TDone r s2 -> chars s2 Rawq = [] -> chars s2 Canq = [] ->
  scioctl fuel (TIOCSETN (Some l2)) s2 = TDone b s3 -> cooked s3 = true ->
  chars s3 Rawq = [] /\ t_delct (tp s3) = t_delct (tp s) /\ forall n, ends_of_file n s3.
Proof.
  intros Hcar Hd E1 Hc1 E2 Hr Hq E3 Hc3. injection E1 as _ <-. injection E3 as _ <-. destruct (set_sgttyb_kept l1 (tp s)) as [A1 A2].
  destruct (raw_read _ _ _ _ Hc1 ltac:(unfold tst_state in *; simpl; by rewrite A2) E2) as [R1 R2]. simpl in R1. rewrite A1 in R1.
  destruct (set_sgttyb_kept l2 (tp s2)) as [B1 B2]. assert (Ed : t_delct (tp (on_tp (set_sgttyb l2) s2)) = t_delct (tp s)) by (simpl; congruence).
  split_and!; [done|done|]. intros n. apply phantom_ends. split; try done; [by rewrite Ed|]. unfold tst_state in *. simpl. by rewrite B2.
Qed.

(** An interrupt or quit character throws the input away. *)
Lemma control_interrupt c tf s : c = t_intrc (tp s) \/ c = t_quitc (tp s) -> c ∉ [DELIM; t_stopc (tp s); t_startc (tp s)] ->
  flushed s (control c tf s).2 /\ (control c tf s).1 = None.
Proof.
  intros Hc Hn. rewrite !not_elem_of_cons in Hn. destruct Hn as (N1 & N2 & N3 & _). assert (E : (c =? t_quitc (tp s)) || (c =? t_intrc (tp s)) = true).
  { destruct Hc as [<-|<-]; rewrite Z.eqb_refl; [apply orb_true_r|done]. }
  unfold control. cbv zeta. rewrite E, (proj2 (Z.eqb_neq _ _) N1), (proj2 (Z.eqb_neq _ _) N2), (proj2 (Z.eqb_neq _ _) N3).
  assert (Ef : forall m (x : line T), flushed x (signal m (flushtty x))) by (intros m x; eapply flushed_same; [apply flush_clear|by split]).
  case_match; (split; [|done]); [|apply Ef]. eapply same_flushed; [|apply Ef]. transitivity (state_off TTSTOP s); [by apply same_off|apply same_ttstart].
Qed.

(** C38. A count that wraps: when canon() has taken the delimiter of a line off the raw queue
    and the interrupt or the quit character is typed before [t_delct--], [flushtty] sets
    the count to 0 and the decrement that follows stores 255, over an empty queue; a read()
    that finds nothing in [t_canq] then returns at once with no byte, as often as it is tried. *)
Theorem canon_flush_race n bp s l c dn : cooked s = true -> tst_state s ISOPEN = true -> tst_flags s TANDEM = false -> chars s Rawq = DELIM :: l ->
  0 <= c < 256 -> c = t_intrc (tp s) \/ c = t_quitc (tp s) -> c ∉ [DELIM; t_stopc (tp s); t_startc (tp s)] ->
  exists s1 k, canon_loop_i (S n) bp s = IPoint Taken s1 k /\ chars s1 Rawq = l /\
    exists s3, undisturbed (k (scintr (Some c) dn s1)) = TDone bp s3 /\ cooked s3 = true /\ chars s3 Rawq = [] /\ t_delct (tp s3) = 255 /\
      (chars s3 Canq = [] -> tst_state s3 CARR_ON = true -> forall m, ends_of_file m s3).
Proof.
  intros Hc Ho Ht E Hb Hi Hn. cbn [canon_loop_i]. unfold mbind, ires_mbind, irun. destruct (getc_run _ _ _ _ E) as (x & -> & X1 & _).
  cbn [ires_bind ilook]. set (s1 := set_qs x s). change (cooked s1) with (cooked s). rewrite Hc. change (DELIM =? DELIM) with true. cbn [andb ipoint ires_bind].
  eexists s1, _. split; [done|]. split; [exact X1|]. set (s2 := scintr (Some c) dn s1). assert (F : flushed s1 s2).
  { unfold s2, scintr. change (tst_state s1 ISOPEN) with (tst_state s ISOPEN). rewrite Ho. cbn [negb]. cbv zeta.
    assert (F : flushed s1 (ttyinput (Z.land c 255) s1)).
    { unfold ttyinput. cbv zeta. rewrite !land_255 by (rewrite ?land_255; done). set (s0 := set_tk_nin _ s1).
      change (t_flags (tp s0) &? TANDEM) with (tst_flags s TANDEM). rewrite Ht. assert (Er : t_flags (tp s0) &? RAW = false).
      { change (tst_flags s RAW = false). unfold cooked, tst_flags, tst in *. apply negb_true_iff, negb_false_iff, Z.eqb_eq in Hc.
        apply negb_false_iff, Z.eqb_eq. change RAW with (Z.land (RAW |: CBREAK) RAW). by rewrite Z.land_assoc, Hc. }
      rewrite Er. destruct (control_interrupt c (t_flags (tp s0)) s0 Hi Hn) as [F1 F2]. destruct (control c _ s0) as [o s4]. simpl in F1, F2. subst o.
      eapply same_flushed; [|exact F1]. by split. }
    destruct dn; [|exact F]. eapply flushed_same; [exact F|]. etransitivity; [by apply (same_off BUSY)|apply same_ttstart]. }
  clearbody s2. destruct F as [[F1 F2] F3 _ _]. assert (Hc2 : cooked s2 = true) by (by rewrite (same_cooked _ _ F3)).
  cbn [undisturbed ires_bind]. change (DELIM <? 0) with false. cbn [ires_bind undisturbed ilook]. rewrite Hc2. cbn [andb ires_bind ipoint undisturbed iset mret ires_ret].
  rewrite F2. eexists. split; [done|]. set (s3 := on_tp _ s2). split_and!; [exact Hc2|exact F1|done|]. intros G1 G2 m. by apply phantom_ends.
Qed.

End Spl.

Arguments IDone {T A} a s.
Arguments ISleep {T A} q pri s k.
Arguments IPoint {T A} d s k.
Arguments INoFuel {T A}.
Arguments IWild {T A}.

(** ** Witnesses *)

Definition is_done {T A} (r : tres (T := T) A) : bool := match r with TDone _ _ => true | _ => false end.
Definition final {T A} (s : line T) (r : tres (T := T) A) : line T := match r with TDone _ s => s | _ => s end.

Lemma final_done {T A} (s : line T) (r : tres (T := T) A) : is_done r = true -> exists a, r = TDone a (final s r).
Proof. destruct r as [a s'| | |]; try done. by exists a. Qed.

(** Two lines typed at the console. *)
Definition two_lines : line lines := foldl (fun s c => scintr (Some c) true s) console [97; NL; 98; NL].

(** The process that is in a call goes on to its next point. *)
Definition go1 (x : tsys (T := lines)) : option (tsys (T := lines)) :=
  match x with
  | (s, Some (_, k), ks) =>
      match k s with
      | IDone _ s' => Some (s', None, ks)
      | ISleep _ _ s' k' => Some (s', None, k' :: ks)
      | IPoint d s' k' => Some (s', Some (d, k'), ks)
      | _ => None
      end
  | _ => None
  end.
Fixpoint go (n : nat) (x : tsys (T := lines)) : option (tsys (T := lines)) := match n with O => Some x | S n => y ← go1 x; go n y end.

Lemma go_steps n x y : go n x = Some y -> rtc tstep x y.
Proof.
  revert x. induction n as [|n IH]; intros x E; [injection E as ->; apply rtc_refl|]. simpl in E. destruct (go1 x) as [z|] eqn:E1; [|done].
  eapply rtc_l; [|by apply IH]. destruct x as [[s [[d k]|]] ks]; [|done]. simpl in E1. destruct (k s) as [[] s'|q p s' k'|d' s' k'| |] eqn:Ek; try done; injection E1 as <-.
  - apply (step_go _ _ _ _ None []). rewrite Ek. constructor.
  - apply (step_go _ _ _ _ None [k']). rewrite Ek. constructor.
  - apply (step_go _ _ _ _ (Some (d', k')) []). rewrite Ek. constructor.
Qed.

(** A read() of the first line, at its first point. *)
Definition reader : tsys (T := lines) := match run_call 10 1 Read two_lines with IPoint d s k => (s, Some (d, k), []) | _ => (two_lines, None, []) end.

Lemma reader_reached : rtc tstep (unopened, None, []) reader.
Proof.
  eapply rtc_l; [apply (step_call 0 0 (Open 0) unopened console None [] []); [done|constructor]|].
  eapply rtc_r; [|apply (step_call 10 1 Read two_lines _ _ [] []); [done|constructor]].
  unfold two_lines. cbn [foldl app]. do 4 (eapply rtc_r; [|by apply (step_intr _ true)]). apply rtc_refl.
Qed.

(** The reader has the delimiter of the first line and has not counted it. *)
Lemma delimiters_counted_witness : exists s r ks, go 9 reader = Some (s, r, ks) /\ pending r = 1 /\ t_delct (tp s) = delims (chars s Rawq) + pending r /\ t_delct (tp s) = 2.
Proof.
  assert (Hv : match go 9 reader with
    | Some (s, r, _) => bool_decide ((cooked s, pending r, t_delct (tp s)) = (true, 1, 2))
    | None => false
    end = true) by (by vm_compute).
  pose proof (go_steps 9 reader) as Hg. destruct (go 9 reader) as [[[s r] ks]|]; [|done]. specialize (Hg _ eq_refl).
  apply bool_decide_eq_true in Hv. injection Hv as V1 V2 V3. exists s, r, ks. split; [done|]. split; [exact V2|]. split; [|exact V3].
  apply (delimiters_counted unopened s r ks); [by vm_compute|by vm_compute| |exact V1]. etransitivity; [apply reader_reached|exact Hg].
Defined.

(** A line typed in cooked mode, read in cbreak mode. *)
Definition cbreak : list Z := [0; 0; CERASE; CKILL; ECHO |: CRMOD |: XTABS |: CBREAK].
Definition plainly_cooked : list Z := [0; 0; CERASE; CKILL; ECHO |: CRMOD |: XTABS].
Definition one_line : line lines := typed [97; NL] console.
Definition in_cbreak : line lines := final one_line (scioctl 1 (TIOCSETN (Some cbreak)) one_line).
Definition drained : line lines := final in_cbreak (ttread 1 in_cbreak).
Definition confused : line lines := final drained (scioctl 1 (TIOCSETN (Some plainly_cooked)) drained).

Lemma setn_done l (s : line lines) : scioctl 1 (TIOCSETN (Some l)) s = TDone [] (final s (scioctl 1 (TIOCSETN (Some l)) s)).
Proof. done. Qed.

Lemma setn_end_of_file_witness : t_delct (tp confused) = 1 /\ ends_of_file 3 confused.
Proof.
  destruct (final_done in_cbreak (ttread 1 in_cbreak)) as (r & E); [by vm_compute|].
  destruct (setn_end_of_file 1 cbreak plainly_cooked one_line in_cbreak drained confused [] r []) as (_ & H2 & H3);
    [by vm_compute|by vm_compute|apply setn_done|by vm_compute|exact E|by vm_compute|by vm_compute|apply setn_done|by vm_compute|].
  split; [|apply H3]. rewrite H2. by vm_compute.
Defined.

(** The delimiter of a line is next, and the interrupt character comes. *)
Definition at_delim : line lines := (getc Rawq (getc Rawq one_line).2).2.

Lemma at_delim_ready : cooked at_delim = true /\ tst_state at_delim ISOPEN = true /\ tst_flags at_delim TANDEM = false /\ chars at_delim Rawq = [DELIM] /\
  0 <= CINTR < 256 /\ CINTR = t_intrc (tp at_delim) /\ CINTR ∉ [DELIM; t_stopc (tp at_delim); t_startc (tp at_delim)].
Proof.
  split; [by vm_compute|]. split; [by vm_compute|]. split; [by vm_compute|]. split; [by vm_compute|]. split; [by unfold CINTR|]. split; [by vm_compute|].
  replace (t_stopc (tp at_delim)) with CSTOP by (by vm_compute). replace (t_startc (tp at_delim)) with CSTART by (by vm_compute).
  rewrite !not_elem_of_cons. split_and!; try done. apply not_elem_of_nil.
Qed.

Lemma canon_flush_race_witness : exists s1 k, canon_loop_i 1 4 at_delim = IPoint Taken s1 k /\
  exists s3, undisturbed (k (scintr (Some CINTR) false s1)) = TDone 4 s3 /\ t_delct (tp s3) = 255.
Proof.
  destruct at_delim_ready as (H1 & H2 & H3 & H4 & H5 & H6 & H7).
  pose proof (canon_flush_race 0 4 at_delim [] CINTR false H1 H2 H3 H4 H5 (or_introl H6) H7) as (s1 & k & E1 & _ & s3 & E3 & _ & _ & E4 & _).
  exists s1, k. split; [exact E1|]. exists s3. split; [exact E3|exact E4].
Defined.
