(* ===== verification/Qsort.v ===== *)
(** * Sorting in the C library: [lib/libc/gen/qsort.c]

    An array is a run of elements of [es] cells each, a cell being a byte, or a word when
    the size and the address allow it; addresses count cells.  The partition is the loop of
    [qs1] as a machine with its two labels, [qs1] itself takes the depth its recursion
    may reach and the turns it may make, and the theorems show that the logarithm of
    the number of elements and that number itself are enough. *)

From Stdlib Require Import Sorting.Sorted ZifyBool.
From S2P Require Import Prelude.

Section Qsort.
Context {C : Type}.
Implicit Types (m : Z -> C).

(** ** Exchanges *)

Definition store (a : Z) (v : C) m : Z -> C := fun x => if x =? a then v else m x.

(** [n] cells from [i] and [j] on. *)
Fixpoint qsexc (n : nat) (i j : Z) m : Z -> C :=
  match n with
  | O => m
  | S n =>
      let w := m i in
      let m := store i (m j) m in
      let m := store j w m in
      qsexc n (i + 1) (j + 1) m
  end.

Fixpoint qstexc (n : nat) (i j k : Z) m : Z -> C :=
  match n with
  | O => m
  | S n =>
      let w := m i in
      let m := store i (m k) m in
      let m := store k (m j) m in
      let m := store j w m in
      qstexc n (i + 1) (j + 1) (k + 1) m
  end.

(** ** The sort *)

(** [qses] or [qsws], and the caller's comparison, which reads two elements. *)
Context (es : nat) (qscmp : list C -> list C -> Z).

Definition elt m (p : Z) : list C := (fun t => m (p + t)) <$> seqZ 0 (Z.of_nat es).
Definition cmp m (p q : Z) : Z := qscmp (elt m p) (elt m q).
Definition w : Z := Z.of_nat es.

(** Where the loop of [qs1] is: at its head, or at the label [loop]. *)
Inductive label := Head | Loop.

(** The loop, to the end of the partition; the result has [lp] and [hp] with the memory. *)
Fixpoint partition (fuel : nat) (at_ : label) (i j lp hp : Z) m : option (Z * Z * (Z -> C)) :=
  match fuel with
  | O => None
  | S fuel =>
      match at_ with
      | Head =>
          if i <? lp then
            let c := cmp m i lp in
            if c =? 0 then partition fuel Head i j (lp - w) hp (qsexc es i (lp - w) m)
            else if c <? 0 then partition fuel Head (i + w) j lp hp m
            else partition fuel Loop i j lp hp m
          else partition fuel Loop i j lp hp m
      | Loop =>
          if hp <? j then
            let c := cmp m hp j in
            if c =? 0 then partition fuel Loop i j lp (hp + w) (qsexc es (hp + w) j m)
            else if 0 <? c then
              if i =? lp then partition fuel Loop (lp + w) j (lp + w) (hp + w) (qstexc es i (hp + w) j m)
              else partition fuel Head (i + w) (j - w) lp hp (qsexc es i j m)
            else partition fuel Loop i (j - w) lp hp m
          else if i =? lp then Some (lp, hp, m)
          else partition fuel Head i (hp - w) (lp - w) (hp - w) (qstexc es j (lp - w) i m)
      end
  end.

(** [depth] bounds the calls inside calls, [fuel] the turns from [start] on. *)
Fixpoint qs1 (fuel depth : nat) (a l : Z) m : option (Z -> C) :=
  match fuel with
  | O => None
  | S fuel =>
      let n := l - a in
      if n <=? w then Some m
      else
        let mid := a + w * (n / (2 * w)) in
        match partition (2 * Z.to_nat n + 2) Head a (l - w) mid mid m with
        | None => None
        | Some (lp, hp, m) =>
            match depth with
            | O => None
            | S d =>
                if l - hp <=? lp - a then
                  match qs1 fuel d (hp + w) l m with
                  | None => None
                  | Some m => qs1 fuel depth a lp m
                  end
                else
                  match qs1 fuel d a lp m with
                  | None => None
                  | Some m => qs1 fuel depth (hp + w) l m
                  end
            end
        end
  end.

Definition qsort (fuel depth : nat) (base n : Z) m : option (Z -> C) := qs1 fuel depth base (base + n * w) m.

(** ** Elements *)

Context (Hes : (0 < es)%nat).

Lemma seqZ_nth n t : 0 <= t < n -> seqZ 0 n !! Z.to_nat t = Some t.
Proof. intros Ht. apply lookup_seqZ. lia. Qed.

Lemma elt_ext m m' p p' : (forall t, 0 <= t < w -> m' (p' + t) = m (p + t)) -> elt m' p' = elt m p.
Proof. intros E. unfold elt. apply list_fmap_ext. intros i t Ht. apply lookup_seqZ in Ht as [-> Hi]. apply E. unfold w. lia. Qed.

(** What an exchange does; the elements are apart or the same. *)
Lemma qsexc_spec n i j m x : i = j \/ Z.of_nat n <= Z.abs (i - j) ->
  qsexc n i j m x = if (i <=? x) && (x <? i + Z.of_nat n) then m (x - i + j)
                    else if (j <=? x) && (x <? j + Z.of_nat n) then m (x - j + i) else m x.
Proof.
  revert i j m. induction n as [|n IH]; intros i j m Hij.
  { cbn [qsexc]. replace ((i <=? x) && (x <? i + Z.of_nat 0)) with false by lia.
    replace ((j <=? x) && (x <? j + Z.of_nat 0)) with false by lia. done. }
  cbn [qsexc]. cbv zeta. rewrite IH by lia. unfold store.
  destruct (Z.leb_spec i x), (Z.ltb_spec x (i + Z.of_nat (S n))), (Z.leb_spec j x), (Z.ltb_spec x (j + Z.of_nat (S n))),
    (Z.leb_spec (i + 1) x), (Z.ltb_spec x (i + 1 + Z.of_nat n)), (Z.leb_spec (j + 1) x), (Z.ltb_spec x (j + 1 + Z.of_nat n));
    cbn [andb]; try lia;
    repeat match goal with |- context [?a =? ?b] => destruct (Z.eqb_spec a b); try lia end; try (f_equal; lia); congruence.
Qed.

Lemma qstexc_spec n i j k m x : Z.of_nat n <= Z.abs (i - j) -> Z.of_nat n <= Z.abs (i - k) -> j = k \/ Z.of_nat n <= Z.abs (j - k) ->
  qstexc n i j k m x = if (j <=? x) && (x <? j + Z.of_nat n) then m (x - j + i)
                       else if (i <=? x) && (x <? i + Z.of_nat n) then m (x - i + k)
                       else if (k <=? x) && (x <? k + Z.of_nat n) then m (x - k + j) else m x.
Proof.
  revert i j k m. induction n as [|n IH]; intros i j k m Hij Hik Hjk.
  { cbn [qstexc]. replace ((i <=? x) && (x <? i + Z.of_nat 0)) with false by lia.
    replace ((j <=? x) && (x <? j + Z.of_nat 0)) with false by lia. by replace ((k <=? x) && (x <? k + Z.of_nat 0)) with false by lia. }
  cbn [qstexc]. cbv zeta. rewrite IH by lia. unfold store.
  destruct (Z.leb_spec j x), (Z.ltb_spec x (j + Z.of_nat (S n))), (Z.leb_spec (j + 1) x), (Z.ltb_spec x (j + 1 + Z.of_nat n)); cbn [andb]; try lia;
  destruct (Z.leb_spec i x), (Z.ltb_spec x (i + Z.of_nat (S n))), (Z.leb_spec (i + 1) x), (Z.ltb_spec x (i + 1 + Z.of_nat n)); cbn [andb]; try lia;
  destruct (Z.leb_spec k x), (Z.ltb_spec x (k + Z.of_nat (S n))), (Z.leb_spec (k + 1) x), (Z.ltb_spec x (k + 1 + Z.of_nat n)); cbn [andb]; try lia;
    repeat match goal with |- context [?a =? ?b] => destruct (Z.eqb_spec a b); try lia end; try (f_equal; lia); congruence.
Qed.

(** The array starts at [base]; [at k] is the address of element [k], [el k] the element. *)
Context (base : Z).
Definition at_ (k : Z) : Z := base + k * w.
Definition el m (k : Z) : list C := elt m (at_ k).

(** The elements from [a] up to [l]. *)
Definition seg {A} (f : Z -> A) (a l : Z) : list A := f <$> seqZ a (l - a).
Definition sub m : Z -> Z -> list (list C) := seg (el m).

Lemma at_lt i j : (at_ i <? at_ j) = (i <? j).
Proof. unfold at_, w. destruct (Z.ltb_spec i j); [apply Z.ltb_lt|apply Z.ltb_ge]; nia. Qed.
Lemma at_eq i j : (at_ i =? at_ j) = (i =? j).
Proof. unfold at_, w. destruct (Z.eqb_spec i j); [apply Z.eqb_eq; by subst|apply Z.eqb_neq; nia]. Qed.
Lemma at_succ i : at_ i + w = at_ (i + 1).
Proof. unfold at_. lia. Qed.
Lemma at_pred i : at_ i - w = at_ (i - 1).
Proof. unfold at_. lia. Qed.
Lemma at_apart i j : i = j \/ w <= Z.abs (at_ i - at_ j).
Proof. destruct (Z.eq_dec i j) as [|Hne]; [by left|right]. unfold at_, w. nia. Qed.

(** An address inside an element belongs to no other. *)
Lemma at_inside k t i : 0 <= t < w -> (at_ i <=? at_ k + t) && (at_ k + t <? at_ i + w) = (i =? k).
Proof. intros Ht. unfold at_ in *. destruct (Z.eqb_spec i k) as [->|Hne]; [lia|]. destruct (Z.lt_ge_cases i k); nia. Qed.

Lemma exc_el i j m k : el (qsexc es (at_ i) (at_ j) m) k = if k =? i then el m j else if k =? j then el m i else el m k.
Proof.
  assert (Hap : at_ i = at_ j \/ Z.of_nat es <= Z.abs (at_ i - at_ j)) by (destruct (at_apart i j); [left; congruence|by right]).
  destruct (Z.eqb_spec k i) as [->|Hi].
  { apply elt_ext. intros t Ht. rewrite qsexc_spec by done. fold w. rewrite at_inside, Z.eqb_refl by done. f_equal. lia. }
  destruct (Z.eqb_spec k j) as [->|Hj]; apply elt_ext; intros t Ht; rewrite qsexc_spec by done; fold w; rewrite !at_inside by done.
  - rewrite (proj2 (Z.eqb_neq i j)), Z.eqb_refl by congruence. f_equal. lia.
  - by rewrite (proj2 (Z.eqb_neq i k)), (proj2 (Z.eqb_neq j k)) by congruence.
Qed.

Lemma texc_el i j k m x : i <> j -> i <> k ->
  el (qstexc es (at_ i) (at_ j) (at_ k) m) x = if x =? j then el m i else if x =? i then el m k else if x =? k then el m j else el m x.
Proof.
  intros Hij Hik. pose proof (at_apart i j) as [|A1]; [done|]. pose proof (at_apart i k) as [|A2]; [done|].
  assert (A3 : at_ j = at_ k \/ Z.of_nat es <= Z.abs (at_ j - at_ k)) by (destruct (at_apart j k); [left; congruence|by right]).
  destruct (Z.eqb_spec x j) as [->|Hj]; [|destruct (Z.eqb_spec x i) as [->|Hi]; [|destruct (Z.eqb_spec x k) as [->|Hk]]];
    apply elt_ext; intros t Ht; rewrite qstexc_spec by done; fold w; rewrite !at_inside by done;
    rewrite ?Z.eqb_refl, ?(proj2 (Z.eqb_neq j i)), ?(proj2 (Z.eqb_neq j k)), ?(proj2 (Z.eqb_neq i k)), ?(proj2 (Z.eqb_neq j x)),
      ?(proj2 (Z.eqb_neq i x)), ?(proj2 (Z.eqb_neq k x)) by congruence; try done; f_equal; lia.
Qed.

(** Cells outside of the elements from [a] up to [l] are as they were. *)
Definition outside (a l : Z) m m' : Prop := forall x, x < at_ a \/ at_ l <= x -> m' x = m x.

Lemma outside_trans a l m1 m2 m3 : outside a l m1 m2 -> outside a l m2 m3 -> outside a l m1 m3.
Proof. intros H1 H2 x Hx. rewrite H2, H1 by done. done. Qed.

Lemma outside_mono a l a' l' m m' : a' <= a -> l <= l' -> outside a l m m' -> outside a' l' m m'.
Proof. intros Ha Hl Ho x Hx. apply Ho. unfold at_, w in *. destruct Hx; [left|right]; nia. Qed.

Lemma exc_outside a l i j m : a <= i < l -> a <= j < l -> outside a l m (qsexc es (at_ i) (at_ j) m).
Proof.
  intros Hi Hj x Hx. rewrite qsexc_spec by (destruct (at_apart i j); [left; congruence|by right]). unfold at_, w in *.
  replace ((base + i * Z.of_nat es <=? x) && (x <? base + i * Z.of_nat es + Z.of_nat es)) with false by nia.
  by replace ((base + j * Z.of_nat es <=? x) && (x <? base + j * Z.of_nat es + Z.of_nat es)) with false by nia.
Qed.

Lemma texc_outside a l i j k m : i <> j -> i <> k -> a <= i < l -> a <= j < l -> a <= k < l -> outside a l m (qstexc es (at_ i) (at_ j) (at_ k) m).
Proof.
  intros Hij Hik Hi Hj Hk x Hx. pose proof (at_apart i j) as [|A1]; [done|]. pose proof (at_apart i k) as [|A2]; [done|].
  rewrite qstexc_spec by (done || (destruct (at_apart j k); [left; congruence|by right])). unfold at_, w in *.
  replace ((base + i * Z.of_nat es <=? x) && (x <? base + i * Z.of_nat es + Z.of_nat es)) with false by nia.
  replace ((base + j * Z.of_nat es <=? x) && (x <? base + j * Z.of_nat es + Z.of_nat es)) with false by nia.
  by replace ((base + k * Z.of_nat es <=? x) && (x <? base + k * Z.of_nat es + Z.of_nat es)) with false by nia.
Qed.

(** ** Permutations *)

Section Seg.
Context {A : Type}.
Implicit Types (f g : Z -> A).

Lemma seg_split f a k l : a <= k <= l -> seg f a l = seg f a k ++ seg f k l.
Proof. intros Hk. unfold seg. rewrite <- fmap_app. f_equal. replace (l - a) with ((k - a) + (l - k)) by lia. rewrite seqZ_app by lia. do 2 f_equal. lia. Qed.

Lemma seg_nil f a l : l <= a -> seg f a l = [].
Proof. intros Hl. unfold seg. by rewrite seqZ_nil by lia. Qed.

Lemma seg_one f a : seg f a (a + 1) = [f a].
Proof. unfold seg. replace (a + 1 - a) with 1 by lia. by rewrite seqZ_cons by lia. Qed.

Lemma seg_cons f a l : a < l -> seg f a l = f a :: seg f (a + 1) l.
Proof. intros Hl. rewrite (seg_split f a (a + 1) l) by lia. by rewrite seg_one. Qed.

Lemma segment_ext f g a l : (forall k, a <= k < l -> g k = f k) -> seg g a l = seg f a l.
Proof. intros E. apply list_fmap_ext. intros i k Hk. apply lookup_seqZ in Hk as [-> Hi]. apply E. lia. Qed.

Lemma seg_length f a l : a <= l -> length (seg f a l) = Z.to_nat (l - a).
Proof. intros Hl. unfold seg. by rewrite length_fmap, length_seqZ. Qed.

Lemma seg_Forall (P : A -> Prop) f a l : Forall P (seg f a l) <-> forall k, a <= k < l -> P (f k).
Proof.
  unfold seg. rewrite Forall_fmap, Forall_forall. split; intros Hp k Hk; [apply Hp, elem_of_seqZ; lia|]. apply elem_of_seqZ in Hk. apply Hp. lia.
Qed.

(** [f] with the values at [i] and [j] exchanged. *)
Definition swapped (i j : Z) f : Z -> A := fun k => if k =? i then f j else if k =? j then f i else f k.

Lemma seg_swapped_lt f a l i j : a <= i -> i < j -> j < l -> seg (swapped i j f) a l ≡ₚ seg f a l.
Proof.
  intros Hi Hij Hj. assert (Hs : forall g, seg g a l = seg g a i ++ g i :: seg g (i + 1) j ++ g j :: seg g (j + 1) l).
  { intros g. rewrite (seg_split g a i l), (seg_cons g i l), (seg_split g (i + 1) j l), (seg_cons g j l) by lia. done. }
  rewrite (Hs (swapped i j f)), (Hs f).
  assert (Ei : swapped i j f i = f j) by (unfold swapped; by rewrite Z.eqb_refl).
  assert (Ej : swapped i j f j = f i) by (unfold swapped; rewrite (proj2 (Z.eqb_neq j i)), Z.eqb_refl by lia; done). rewrite Ei, Ej.
  rewrite (segment_ext f (swapped i j f) a i), (segment_ext f (swapped i j f) (i + 1) j), (segment_ext f (swapped i j f) (j + 1) l);
    try (intros k Hk; unfold swapped; by rewrite (proj2 (Z.eqb_neq k i)), (proj2 (Z.eqb_neq k j)) by lia).
  apply Permutation_app_head. rewrite <- !Permutation_middle. apply Permutation_swap.
Qed.

Lemma seg_swapped f a l i j : a <= i < l -> a <= j < l -> seg (swapped i j f) a l ≡ₚ seg f a l.
Proof.
  intros Hi Hj. destruct (Z.lt_trichotomy i j) as [Hlt|[->|Hlt]].
  - apply seg_swapped_lt; lia.
  - rewrite (segment_ext f (swapped j j f)); [done|]. intros k _. unfold swapped. destruct (Z.eqb_spec k j); congruence.
  - rewrite (segment_ext (swapped j i f) (swapped i j f)).
    + apply seg_swapped_lt; lia.
    + intros k _. unfold swapped. destruct (Z.eqb_spec k i), (Z.eqb_spec k j); congruence.
Qed.

End Seg.

Lemma exc_sub a l i j m : a <= i < l -> a <= j < l -> sub (qsexc es (at_ i) (at_ j) m) a l ≡ₚ sub m a l.
Proof.
  intros Hi Hj. unfold sub. rewrite <- (seg_swapped (el m) a l i j Hi Hj). erewrite segment_ext; [done|]. intros k _. apply exc_el.
Qed.

Lemma texc_sub a l i j k m : i <> j -> i <> k -> a <= i < l -> a <= j < l -> a <= k < l ->
  sub (qstexc es (at_ i) (at_ j) (at_ k) m) a l ≡ₚ sub m a l.
Proof.
  intros Hij Hik Hi Hj Hk. unfold sub. destruct (Z.eq_dec j k) as [->|Hjk].
  - rewrite <- (seg_swapped (el m) a l i k Hi Hk). erewrite segment_ext; [done|]. intros x _. rewrite texc_el by done. unfold swapped.
    destruct (Z.eqb_spec x k), (Z.eqb_spec x i); congruence.
  - rewrite <- (seg_swapped (el m) a l i j Hi Hj), <- (seg_swapped (swapped i j (el m)) a l i k Hi Hk). erewrite segment_ext; [done|].
    intros x _. rewrite texc_el by done. unfold swapped.
    destruct (Z.eqb_spec x j), (Z.eqb_spec x i), (Z.eqb_spec x k), (Z.eqb_spec k i), (Z.eqb_spec k j), (Z.eqb_spec i j); subst; try congruence; rewrite ?Z.eqb_refl; congruence.
Qed.

(** ** The partition *)

(** What qsort(3) asks of the comparison. *)
Context (cmp_sym : forall x y, Z.sgn (qscmp y x) = - Z.sgn (qscmp x y))
  (cmp_trans : forall x y z, qscmp x y <= 0 -> qscmp y z <= 0 -> qscmp x z <= 0).

Lemma cmp_flip x y : qscmp x y <= 0 <-> 0 <= qscmp y x.
Proof. pose proof (cmp_sym x y). lia. Qed.

Lemma cmp_same x y z : qscmp y z = 0 -> Z.sgn (qscmp x y) = Z.sgn (qscmp x z) /\ Z.sgn (qscmp y x) = Z.sgn (qscmp z x).
Proof.
  intros E. pose proof (cmp_sym y z). pose proof (cmp_sym x y). pose proof (cmp_sym x z).
  pose proof (cmp_trans x y z). pose proof (cmp_trans x z y). pose proof (cmp_trans y z x). pose proof (cmp_trans z y x). lia.
Qed.

(** The partition so far, around elements like [p]. *)
Record split_up (p : list C) (a l i j lp hp : Z) m : Prop := {
  sp_order : a <= i <= lp /\ lp <= hp <= j /\ j < l;
  sp_low k : a <= k < i -> qscmp (el m k) p < 0;
  sp_mid k : lp <= k <= hp -> qscmp (el m k) p = 0;
  sp_high k : j < k < l -> 0 < qscmp (el m k) p;
}.

(** The array is split in elements less than [p], like [p], and greater. *)
Record parted (p : list C) (a l lp hp : Z) m m' : Prop := {
  pt_order : a <= lp <= hp /\ hp < l;
  pt_low k : a <= k < lp -> qscmp (el m' k) p < 0;
  pt_mid k : lp <= k <= hp -> qscmp (el m' k) p = 0;
  pt_high k : hp < k < l -> 0 < qscmp (el m' k) p;
  pt_perm : sub m' a l ≡ₚ sub m a l;
  pt_outside : outside a l m m';
}.

Lemma parted_from p a l lp hp m m1 m' : sub m1 a l ≡ₚ sub m a l -> outside a l m m1 -> parted p a l lp hp m1 m' -> parted p a l lp hp m m'.
Proof. intros Hp Ho []. split; try done; [by etransitivity|by eapply outside_trans]. Qed.

Lemma parted_exc p a l lp hp i j m m' : a <= i < l -> a <= j < l ->
  parted p a l lp hp (qsexc es (at_ i) (at_ j) m) m' -> parted p a l lp hp m m'.
Proof. intros Hi Hj. apply parted_from; [by apply exc_sub|by apply exc_outside]. Qed.

Lemma parted_texc p a l lp hp i j k m m' : i <> j -> i <> k -> a <= i < l -> a <= j < l -> a <= k < l ->
  parted p a l lp hp (qstexc es (at_ i) (at_ j) (at_ k) m) m' -> parted p a l lp hp m m'.
Proof. intros Hij Hik Hi Hj Hk. apply parted_from; [by apply texc_sub|by apply texc_outside]. Qed.

(** The cases of an element that was moved. *)
Ltac where_is := repeat match goal with |- context [?a =? ?b] => destruct (Z.eqb_spec a b); subst; try lia end.

Lemma partition_spec fuel lab p a l i j lp hp m : split_up p a l i j lp hp m ->
  (lab = Loop -> i = lp \/ 0 < qscmp (el m i) p) ->
  2 * ((lp - i) + (j - hp)) + (match lab with Head => 1 | Loop => 0 end) < Z.of_nat fuel ->
  exists lp' hp' m', partition fuel lab (at_ i) (at_ j) (at_ lp) (at_ hp) m = Some (at_ lp', at_ hp', m') /\ parted p a l lp' hp' m m'.
Proof.
  revert lab i j lp hp m. induction fuel as [|fuel IH]; intros lab i j lp hp m [Ho Hlo Hmi Hhi] Hlab Hf; [destruct lab; lia|].
  cbn [partition]. destruct lab.
  - rewrite at_lt, at_pred, at_succ. destruct (Z.ltb_spec i lp) as [Hi|Hi]; cycle 1.
    { apply IH; [by split|left; lia|lia]. }
    change (cmp m (at_ i) (at_ lp)) with (qscmp (el m i) (el m lp)). destruct (cmp_same (el m i) (el m lp) p) as [Es _]; [apply Hmi; lia|].
    destruct (Z.eqb_spec (qscmp (el m i) (el m lp)) 0) as [E0|E0].
    + destruct (IH Head i j (lp - 1) hp (qsexc es (at_ i) (at_ (lp - 1)) m)) as (lp' & hp' & m' & -> & Hp); [|done|lia|].
      * split; [lia|..]; intros k Hk; rewrite exc_el; where_is; first [apply Hlo; lia|apply Hmi; lia|apply Hhi; lia|lia|replace (lp - 1) with i by lia; lia].
      * exists lp', hp', m'. split; [done|]. eapply parted_exc; [| |exact Hp]; lia.
    + destruct (Z.ltb_spec (qscmp (el m i) (el m lp)) 0) as [E1|E1].
      * apply IH; [|done|lia]. split; [lia|..]; intros k Hk; [|first [apply Hlo; lia|apply Hmi; lia|apply Hhi; lia]..]. destruct (Z.eq_dec k i) as [->|]; [lia|apply Hlo; lia].
      * apply IH; [by split|right; lia|lia].
  - rewrite at_lt, at_eq, !at_pred, !at_succ. specialize (Hlab eq_refl). destruct (Z.ltb_spec hp j) as [Hj|Hj].
    + change (cmp m (at_ hp) (at_ j)) with (qscmp (el m hp) (el m j)). destruct (cmp_same (el m j) (el m hp) p) as [_ Es]; [apply Hmi; lia|].
      pose proof (cmp_sym p (el m j)) as Esy.
      destruct (Z.eqb_spec (qscmp (el m hp) (el m j)) 0) as [E0|E0].
      * destruct (IH Loop i j lp (hp + 1) (qsexc es (at_ (hp + 1)) (at_ j) m)) as (lp' & hp' & m' & -> & Hp); [| |lia|].
        -- split; [lia|..]; intros k Hk; rewrite exc_el; where_is; first [apply Hlo; lia|apply Hmi; lia|apply Hhi; lia|lia].
        -- intros _. rewrite exc_el. destruct Hlab; [by left|right]. where_is; first [apply Hlo; lia|apply Hmi; lia|apply Hhi; lia|lia].
        -- exists lp', hp', m'. split; [done|]. eapply parted_exc; [| |exact Hp]; lia.
      * destruct (Z.ltb_spec 0 (qscmp (el m hp) (el m j))) as [E1|E1].
        -- destruct (Z.eqb_spec i lp) as [->|Hi].
           ++ destruct (IH Loop (lp + 1) j (lp + 1) (hp + 1) (qstexc es (at_ lp) (at_ (hp + 1)) (at_ j) m)) as (lp' & hp' & m' & -> & Hp); [|by left|lia|].
              ** split; [lia|..]; intros k Hk; rewrite texc_el by lia; where_is; first [apply Hlo; lia|apply Hmi; lia|apply Hhi; lia|lia].
              ** exists lp', hp', m'. split; [done|]. eapply parted_texc; [| | | | |exact Hp]; lia.
           ++ destruct Hlab as [|Hbig]; [done|].
              destruct (IH Head (i + 1) (j - 1) lp hp (qsexc es (at_ i) (at_ j) m)) as (lp' & hp' & m' & -> & Hp); [|done|lia|].
              ** split; [lia|..]; intros k Hk; rewrite exc_el; where_is; first [apply Hlo; lia|apply Hmi; lia|apply Hhi; lia|lia].
              ** exists lp', hp', m'. split; [done|]. eapply parted_exc; [| |exact Hp]; lia.
        -- apply IH; [|by intros _|lia]. split; [lia|..]; intros k Hk; [first [apply Hlo; lia|apply Hmi; lia|apply Hhi; lia]..|]. destruct (Z.eq_dec k j) as [->|]; [lia|apply Hhi; lia].
    + assert (j = hp) as -> by lia. destruct (Z.eqb_spec i lp) as [->|Hi].
      * exists lp, hp, m. split; [done|]. split; try done. lia.
      * destruct Hlab as [|Hbig]; [done|].
        destruct (IH Head i (hp - 1) (lp - 1) (hp - 1) (qstexc es (at_ hp) (at_ (lp - 1)) (at_ i) m)) as (lp' & hp' & m' & -> & Hp); [|done|lia|].
        -- split; [lia|..]; intros k Hk; rewrite texc_el by lia; where_is; first [apply Hlo; lia|apply Hmi; lia|apply Hhi; lia|lia].
        -- exists lp', hp', m'. split; [done|]. eapply parted_texc; [| | | | |exact Hp]; lia.
Qed.

(** ** The sort *)

Definition le (x y : list C) : Prop := qscmp x y <= 0.

Lemma sorted_app l1 l2 : StronglySorted le l1 -> StronglySorted le l2 -> (forall x y, x ∈ l1 -> y ∈ l2 -> le x y) -> StronglySorted le (l1 ++ l2).
Proof.
  intros H1 H2 Hxy. induction H1 as [|x l1 H1 IH Hx]; simpl; [done|]. constructor; [apply IH; intros; apply Hxy; [by apply list_elem_of_further|done]|].
  apply Forall_app. split; [done|]. apply Forall_forall. intros y Hy. apply Hxy; [by apply list_elem_of_here|done].
Qed.

Lemma outside_el a l m m' k : outside a l m m' -> k < a \/ l <= k -> el m' k = el m k.
Proof. intros Ho Hk. apply elt_ext. intros t Ht. apply Ho. unfold at_, w in *. destruct Hk; [left|right]; nia. Qed.

Lemma outside_sub a l m m' x y : outside a l m m' -> y <= a \/ l <= x -> sub m' x y = sub m x y.
Proof. intros Ho Hxy. apply segment_ext. intros k Hk. eapply outside_el; [done|lia]. Qed.

(** The elements from [a] up to [l] are sorted, and nothing else has changed. *)
Record sorts (a l : Z) m m' : Prop := {
  so_sorted : StronglySorted le (sub m' a l);
  so_perm : sub m' a l ≡ₚ sub m a l;
  so_outside : outside a l m m';
}.

(** Elements between [lp] and [hp] are like [p], so they are in order. *)
Lemma mid_sorted p lp hp m : (forall k, lp <= k < hp -> qscmp (el m k) p = 0) -> StronglySorted le (sub m lp hp).
Proof.
  intros Hp. destruct (Z.le_gt_cases hp lp) as [|Hl]; [unfold sub; rewrite seg_nil by done; constructor|].
  remember (Z.to_nat (hp - lp)) as n eqn:En. revert lp Hp Hl En. induction n as [|n IH]; intros lp Hp Hl En; [lia|].
  unfold sub. rewrite seg_cons by lia. assert (Hall : Forall (le (el m lp)) (seg (el m) (lp + 1) hp)).
  { apply seg_Forall. intros k Hk. unfold le. destruct (cmp_same (el m lp) (el m k) p) as [E _]; [apply Hp; lia|].
    rewrite (Hp lp) in E by lia. simpl in E. lia. }
  constructor; [|done]. destruct (Z.eq_dec (lp + 1) hp) as [->|]; [rewrite seg_nil by lia; constructor|].
  apply (IH (lp + 1)); [intros; apply Hp; lia|lia|lia].
Qed.

(** Both sides sorted, the whole is. *)
Lemma parted_sorted p a l lp hp m m1 m' : parted p a l lp hp m m1 -> sub m' lp (hp + 1) = sub m1 lp (hp + 1) ->
  sub m' a lp ≡ₚ sub m1 a lp -> StronglySorted le (sub m' a lp) ->
  sub m' (hp + 1) l ≡ₚ sub m1 (hp + 1) l -> StronglySorted le (sub m' (hp + 1) l) -> outside a l m1 m' -> sorts a l m m'.
Proof.
  intros [Ho Hlo Hmi Hhi Hpe Hou] Em P1 S1 P2 S2 Ho1.
  assert (Hs : forall x, sub x a l = sub x a lp ++ sub x lp (hp + 1) ++ sub x (hp + 1) l).
  { intros x. unfold sub. rewrite (seg_split _ a lp l), (seg_split _ lp (hp + 1) l) by lia. done. }
  assert (F1 : forall x, x ∈ sub m' a lp -> qscmp x p < 0).
  { intros x Hx. rewrite P1 in Hx. revert x Hx. apply Forall_forall, seg_Forall. intros; apply Hlo; lia. }
  assert (F2 : forall x, x ∈ sub m1 lp (hp + 1) -> qscmp x p = 0) by (apply Forall_forall, seg_Forall; intros; apply Hmi; lia).
  assert (F3 : forall x, x ∈ sub m' (hp + 1) l -> 0 < qscmp x p).
  { intros x Hx. rewrite P2 in Hx. revert x Hx. apply Forall_forall, seg_Forall. intros; apply Hhi; lia. }
  split; [| |by eapply outside_trans].
  - rewrite Hs, Em. apply sorted_app; [done|apply sorted_app; [|done|]|].
    + apply (mid_sorted p). intros k Hk. apply Hmi. lia.
    + intros x y Hx Hy. specialize (F2 x Hx). specialize (F3 y Hy). pose proof (cmp_sym y p). apply (cmp_trans x p y); lia.
    + intros x y Hx Hy. specialize (F1 x Hx). apply elem_of_app in Hy as [Hy|Hy]; [specialize (F2 y Hy)|specialize (F3 y Hy)];
        pose proof (cmp_sym y p); apply (cmp_trans x p y); lia.
  - rewrite <- Hpe, (Hs m'), (Hs m1), Em, P1, P2. done.
Qed.

Lemma mid_at a l : a <= l -> at_ a + w * ((at_ l - at_ a) / (2 * w)) = at_ (a + (l - a) / 2).
Proof.
  intros Hl. unfold at_. replace (base + l * w - (base + a * w)) with ((l - a) * w) by lia.
  rewrite Z.div_mul_cancel_r by (unfold w; lia). lia.
Qed.

Lemma qs1_spec fuel depth a l m : a <= l -> l - a < Z.of_nat fuel -> l - a < 2 ^ (Z.of_nat depth + 1) ->
  exists m', qs1 fuel depth (at_ a) (at_ l) m = Some m' /\ sorts a l m m'.
Proof.
  revert depth a l m. induction fuel as [|fuel IH]; intros depth a l m Hal Hf Hd; [lia|]. cbn [qs1].
  destruct (Z.leb_spec (at_ l - at_ a) w) as [Hn|Hn].
  { exists m. split; [done|]. assert (l - a <= 1) by (unfold at_, w in *; nia). split; [|done|done]. unfold sub.
    destruct (Z.eq_dec a l) as [->|]; [rewrite seg_nil by lia; constructor|]. replace l with (a + 1) by lia. rewrite seg_one. by repeat constructor. }
  assert (H2 : 2 <= l - a) by (unfold at_, w in *; nia). rewrite mid_at, at_pred by lia. set (mid := a + (l - a) / 2).
  assert (Hmid : a <= mid < l) by (unfold mid; pose proof (Z.div_lt (l - a) 2); pose proof (Z.div_pos (l - a) 2); lia).
  destruct (partition_spec (2 * Z.to_nat (at_ l - at_ a) + 2) Head (el m mid) a l a (l - 1) mid mid m) as (lp & hp & m1 & -> & Hp).
  - split; [lia|intros; lia| |intros; lia]. intros k Hk. replace k with mid by lia. pose proof (cmp_sym (el m mid) (el m mid)). lia.
  - done.
  - unfold at_, w in *. nia.
  - pose proof (pt_order _ _ _ _ _ _ _ Hp) as Ho. destruct depth as [|d]; [simpl in Hd; lia|].
    replace (Z.of_nat (S d) + 1) with (Z.of_nat d + 1 + 1) in Hd by lia. rewrite Z.pow_add_r in Hd by lia.
    rewrite !at_succ. assert (Hc : (at_ l - at_ hp <=? at_ lp - at_ a) = (l - hp <=? lp - a)).
    { unfold at_, w. destruct (Z.leb_spec (l - hp) (lp - a)); [apply Z.leb_le|apply Z.leb_gt]; nia. }
    rewrite Hc. replace (Z.of_nat (S d) + 1) with (Z.of_nat d + 1 + 1) in * by lia.
    destruct (Z.leb_spec (l - hp) (lp - a)) as [Hl|Hl].
    + destruct (IH d (hp + 1) l m1) as (m2 & -> & [S2 P2 O2]); [lia|lia|lia|].
      destruct (IH (S d) a lp m2) as (m3 & -> & [S3 P3 O3]); [lia|lia|rewrite Nat2Z.inj_succ, <- Z.add_1_r, Z.pow_add_r by lia; lia|].
      exists m3. split; [done|]. eapply (parted_sorted _ _ _ _ _ _ m1); [done|..].
      * rewrite (outside_sub a lp m2 m3), (outside_sub (hp + 1) l m1 m2) by (done || lia). done.
      * rewrite P3, (outside_sub (hp + 1) l m1 m2) by (done || lia). done.
      * done.
      * rewrite (outside_sub a lp m2 m3) by (done || lia). done.
      * rewrite (outside_sub a lp m2 m3) by (done || lia). done.
      * eapply outside_trans; (eapply outside_mono; [| |done]); lia.
    + destruct (IH d a lp m1) as (m2 & -> & [S2 P2 O2]); [lia|lia|lia|].
      destruct (IH (S d) (hp + 1) l m2) as (m3 & -> & [S3 P3 O3]); [lia|lia|rewrite Nat2Z.inj_succ, <- Z.add_1_r, Z.pow_add_r by lia; lia|].
      exists m3. split; [done|]. eapply (parted_sorted _ _ _ _ _ _ m1); [done|..].
      * rewrite (outside_sub (hp + 1) l m2 m3), (outside_sub a lp m1 m2) by (done || lia). done.
      * rewrite (outside_sub (hp + 1) l m2 m3) by (done || lia). done.
      * rewrite (outside_sub (hp + 1) l m2 m3) by (done || lia). done.
      * rewrite P3, (outside_sub a lp m1 m2) by (done || lia). done.
      * done.
      * eapply outside_trans; (eapply outside_mono; [| |done]); lia.
Qed.

(** C11. qsort() with a consistent comparison returns, for elements of any size, with the
    elements in order, the same elements as before, and not a cell outside of the array
    changed; its calls are nested no deeper than the logarithm of the number of elements, and
    no call goes round its loop more often than there are elements. *)
Theorem qsort_sorts n m : 0 <= n ->
  exists m', qsort (S (Z.to_nat n)) (Z.to_nat (Z.log2 n)) base n m = Some m' /\
    StronglySorted le (sub m' 0 n) /\ sub m' 0 n ≡ₚ sub m 0 n /\ (forall x, x < base \/ base + n * w <= x -> m' x = m x).
Proof.
  intros Hn. destruct (qs1_spec (S (Z.to_nat n)) (Z.to_nat (Z.log2 n)) 0 n m) as (m' & E & [S1 P1 O1]); [done|lia| |].
  - rewrite Z2Nat.id by apply Z.log2_nonneg. destruct (Z.eq_dec n 0) as [->|]; [done|]. rewrite Z.sub_0_r. apply Z.log2_spec. lia.
  - exists m'. unfold at_ in E. rewrite Z.mul_0_l, Z.add_0_r in E. split; [exact E|]. split_and!; [done|done|].
    intros x Hx. apply O1. unfold at_. lia.
Qed.

End Qsort.

(** ** Numbers in pairs of cells, by the first *)

Definition first_cell (x y : list Z) : Z := default 0 (head x) - default 0 (head y).
Definition five : Z -> Z := fun x => default 0 ([3; 0; 1; 1; 2; 2; 1; 3; 0; 4] !! Z.to_nat x).

Lemma qsort_sorts_witness : exists m', qsort 2 first_cell 6 2 0 5 five = Some m' /\
  StronglySorted (le first_cell) (sub 2 0 m' 0 5) /\ sub 2 0 m' 0 5 ≡ₚ [[3; 0]; [1; 1]; [2; 2]; [1; 3]; [0; 4]].
Proof.
  destruct (qsort_sorts 2 first_cell ltac:(lia) 0 ltac:(unfold first_cell; lia) ltac:(unfold first_cell; lia) 5 five ltac:(lia))
    as (m' & E & H1 & H2 & _).
  exists m'. split; [exact E|]. split; [exact H1|exact H2].
Defined.
