(* ===== verification/Cal.v ===== *)
(** * Dates in the C library: [lib/libc/gen/ctime.c] and [mktime.c]

    Seconds since 1970 to a date and back.  [/] and [%] of C are [Z.quot] and [Z.rem].  A
    [time_t] has 41 bits and is a [Z] here; [time_ok] bounds a time so that neither it nor
    anything that is computed from it leaves them.  The loops over the years take fuel, and
    [YEARS], more than the years a [time_t] can be away from 1970, is enough for any.
    [ftime()] answers with [timezone] and [dstflag].

    The calendar these are held against is its own: the rule for leap years, the lengths of the
    months, the number of a day from its date, and a week of seven days from a Thursday. *)

From Stdlib Require Import ZifyBool.
From S2P Require Import Prelude.

(** ** The code *)

Record tm := Mktm {
  tm_sec : Z; tm_min : Z; tm_hour : Z; tm_mday : Z; tm_mon : Z;
  tm_year : Z; tm_wday : Z; tm_yday : Z; tm_isdst : Z
}.

Definition dmsize (i : Z) : Z := default 0 ([31; 28; 31; 30; 31; 30; 31; 31; 30; 31; 30; 31] !! Z.to_nat i).

Definition dysize (y : Z) : Z :=
  let y := y + 1900 in
  if negb (Z.rem y 4 =? 0) then 365
  else if negb (Z.rem y 100 =? 0) then 366
  else if negb (Z.rem y 400 =? 0) then 365
  else 366.

Definition sunday (t : tm) (d : Z) : Z :=
  let d := if 58 <=? d then d + (dysize (tm_year t) - 365) else d in
  d - Z.rem (d - tm_yday t + tm_wday t + 700) 7.

Definition YEARS : nat := Z.to_nat 40000.

(** [for (d1 = 70; day >= dysize(d1); d1++) day -= dysize(d1);] *)
Fixpoint years_up (fuel : nat) (d1 day : Z) : option (Z * Z) :=
  match fuel with
  | O => None
  | S fuel => if dysize d1 <=? day then years_up fuel (d1 + 1) (day - dysize d1) else Some (d1, day)
  end.

(** [for (d1 = 70; day < 0; d1--) day += dysize(d1 - 1);] *)
Fixpoint years_down (fuel : nat) (d1 day : Z) : option (Z * Z) :=
  match fuel with
  | O => None
  | S fuel => if day <? 0 then years_down fuel (d1 - 1) (day + dysize (d1 - 1)) else Some (d1, day)
  end.

(** The length of a month, as the loop over the months has it. *)
Definition mlen (year d1 : Z) : Z := if (d1 =? 1) && (dysize year =? 366) then 29 else dmsize d1.

(** [fuel] is more than the months; past December the table is left. *)
Fixpoint months (fuel : nat) (year d1 d0 : Z) : option (Z * Z) :=
  match fuel with
  | O => None
  | S fuel =>
      if 12 <=? d1 then None
      else if d0 <? mlen year d1 then Some (d1, d0) else months fuel year (d1 + 1) (d0 - mlen year d1)
  end.

Definition gmtime (clk : Z) : option tm :=
  let hms := Z.rem clk 86400 in
  let day := Z.quot clk 86400 in
  let '(hms, day) := if hms <? 0 then (hms + 86400, day - 1) else (hms, day) in
  match (if 0 <=? day then years_up YEARS 70 day else years_down YEARS 70 day) with
  | None => None
  | Some (year, yday) =>
      match months 13 year 0 yday with
      | None => None
      | Some (mon, d0) =>
          Some (Mktm (Z.rem hms 60) (Z.rem (Z.quot hms 60) 60) (Z.quot hms 3600) (d0 + 1) mon year
            (Z.rem (day + 7340036) 7) yday 0)
      end
  end.

(** [daylb] and [dayle] of [daytab], and those of the other years. *)
Definition daylight (year : Z) : Z * Z :=
  if year =? 74 then (5, 333) else if year =? 75 then (58, 303) else (119, 303).

Definition localtime (timezone dstflag clk : Z) : option tm :=
  let copyt := clk - timezone * 60 in
  match gmtime copyt with
  | None => None
  | Some ct =>
      let dayno := tm_yday ct in
      let '(daylbegin, daylend) := daylight (tm_year ct) in
      let daylbegin := sunday ct daylbegin in
      let daylend := sunday ct daylend in
      if negb (dstflag =? 0) &&
         ((daylbegin <? dayno) || ((dayno =? daylbegin) && (2 <=? tm_hour ct))) &&
         ((dayno <? daylend) || ((dayno =? daylend) && (tm_hour ct <? 1)))
      then
        match gmtime (copyt + 1 * 60 * 60) with
        | None => None
        | Some ct => Some (Mktm (tm_sec ct) (tm_min ct) (tm_hour ct) (tm_mday ct) (tm_mon ct) (tm_year ct) (tm_wday ct)
                        (tm_yday ct) (tm_isdst ct + 1))
        end
      else Some ct
  end.

(** The sum of [f] from [i] on, [n] terms. *)
Fixpoint sum_from (f : Z -> Z) (i : Z) (n : nat) : Z :=
  match n with
  | O => 0
  | S n => f i + sum_from f (i + 1) n
  end.

Definition daysto (year mon : Z) : Z :=
  let d :=
    if 70 <=? year then sum_from dysize 70 (Z.to_nat (year - 70))
    else - sum_from dysize year (Z.to_nat (70 - year)) in
  d + sum_from (fun i => if (i =? 1) && (dysize year =? 366) then dmsize i + 1 else dmsize i) 0 (Z.to_nat mon).

(** The answer, and what is left in [*tp]. *)
Definition mktime (timezone dstflag : Z) (tp : tm) : option (Z * tm) :=
  let mon := tm_mon tp in
  let year := tm_year tp + Z.quot mon 12 in
  let mon := Z.rem mon 12 in
  let '(mon, year) := if mon <? 0 then (mon + 12, year - 1) else (mon, year) in
  let t := daysto year mon + (tm_mday tp - 1) in
  let t := t * 86400 + tm_hour tp * 3600 + tm_min tp * 60 + tm_sec tp in
  let t := t + timezone * 60 in
  let t1 :=
    if tm_isdst tp <? 0 then
      match localtime timezone dstflag t with
      | None => None
      | Some ct => Some (if 0 <? tm_isdst ct then t - 3600 else t)
      end
    else if 0 <? tm_isdst tp then Some (t - 3600)
    else Some t in
  match t1 with
  | None => None
  | Some t => match localtime timezone dstflag t with None => None | Some ct => Some (t, ct) end
  end.

(** ** The calendar *)

(** The rule, and days before the first of January of a year, counted from 1900, and then to the
    first of a month. *)
Definition leap (y : Z) : bool := (y mod 4 =? 0) && (negb (y mod 100 =? 0) || (y mod 400 =? 0)).
Definition leaps (y : Z) : Z := y / 4 - y / 100 + y / 400.
Definition year_start (y : Z) : Z := 365 * (y - 70) + leaps (y + 1899) - leaps 1969.
Definition month_days (y mon : Z) : Z :=
  default 0 ([31; if leap (y + 1900) then 29 else 28; 31; 30; 31; 30; 31; 31; 30; 31; 30; 31] !! Z.to_nat mon).
Definition month_start (y mon : Z) : Z :=
  default 0 ([0; 31; 59; 90; 120; 151; 181; 212; 243; 273; 304; 334; 365] !! Z.to_nat mon) +
  (if (2 <=? mon) && leap (y + 1900) then 1 else 0).
Definition day_number (y mon mday : Z) : Z := year_start y + month_start y mon + (mday - 1).
(** Sunday is 0; 1 January 1970 was a Thursday. *)
Definition weekday (day : Z) : Z := (day + 4) mod 7.

Lemma dysize_is y : dysize y = 365 + (leaps (y + 1900) - leaps (y + 1899)).
Proof.
  unfold dysize, leaps. set (z := y + 1900). replace (y + 1899) with (z - 1) by lia. rewrite !Z.rem_mod by lia.
  assert (Hs : forall n, 0 < n -> (Z.sgn z * (Z.abs z mod Z.abs n) =? 0) = (z mod n =? 0)).
  { intros n Hn. rewrite (Z.abs_eq n) by lia. destruct (Z.eqb_spec (z mod n) 0) as [E|E].
    - apply Z.eqb_eq. apply Z.mod_divide in E; [|lia]. assert (Ha : (n | Z.abs z)) by (by apply Z.divide_abs_r).
      apply Z.mod_divide in Ha; [|lia]. rewrite Ha. lia.
    - apply Z.eqb_neq. intros E'. apply E. destruct (Z.eq_dec z 0) as [->|Hz]; [by rewrite Z.mod_0_l by lia|].
      assert (Ha : Z.abs z mod n = 0) by nia. apply Z.mod_divide in Ha; [|lia]. apply (proj1 (Z.divide_abs_r n z)) in Ha. apply Z.mod_divide; [lia|done]. }
  rewrite !Hs by lia. repeat match goal with |- context [?a =? 0] => destruct (Z.eqb_spec a 0) end; cbn [negb]; Z.div_mod_to_equations; lia.
Qed.

Lemma dysize_leap y : dysize y = if leap (y + 1900) then 366 else 365.
Proof.
  rewrite dysize_is. unfold leap, leaps. set (z := y + 1900). replace (y + 1899) with (z - 1) by lia.
  repeat match goal with |- context [?a =? 0] => destruct (Z.eqb_spec a 0) end; cbn [negb orb andb]; Z.div_mod_to_equations; lia.
Qed.

Lemma dysize_366 y : (dysize y =? 366) = leap (y + 1900).
Proof. rewrite dysize_leap. by destruct (leap (y + 1900)). Qed.

Lemma dysize_range y : 365 <= dysize y <= 366.
Proof. unfold dysize. repeat case_match; lia. Qed.

Lemma year_next y : year_start (y + 1) = year_start y + dysize y.
Proof. rewrite dysize_is. unfold year_start. replace (y + 1 + 1899) with (y + 1900) by lia. lia. Qed.

Lemma year_70 : year_start 70 = 0.
Proof. done. Qed.

(** ** The loops *)

Lemma years_up_spec fuel d1 day : 0 <= day < 365 * Z.of_nat fuel ->
  exists y yd, years_up fuel d1 day = Some (y, yd) /\ 0 <= yd < dysize y /\ year_start d1 + day = year_start y + yd.
Proof.
  revert d1 day. induction fuel as [|fuel IH]; intros d1 day Hd; [lia|]. cbn [years_up]. pose proof (dysize_range d1).
  destruct (Z.leb_spec (dysize d1) day); [|exists d1, day; split_and!; done || lia].
  destruct (IH (d1 + 1) (day - dysize d1)) as (y & yd & -> & Hy & E); [lia|]. exists y, yd. split_and!; try done; [lia..|]. rewrite year_next in E. lia.
Qed.

Lemma years_down_spec fuel d1 day : day < dysize d1 -> - day <= 365 * Z.of_nat fuel ->
  exists y yd, years_down (S fuel) d1 day = Some (y, yd) /\ 0 <= yd < dysize y /\ year_start d1 + day = year_start y + yd.
Proof.
  revert d1 day. induction fuel as [|fuel IH]; intros d1 day Hd Hf; cbn [years_down]; (destruct (Z.ltb_spec day 0); [|exists d1, day; split_and!; done || lia]).
  - lia.
  - pose proof (dysize_range (d1 - 1)). destruct (IH (d1 - 1) (day + dysize (d1 - 1))) as (y & yd & E1 & Hy & E2); [lia|lia|].
    cbn [years_down] in E1. rewrite E1. exists y, yd. split_and!; try done; [lia..|]. pose proof (year_next (d1 - 1)) as E.
    replace (d1 - 1 + 1) with d1 in E by lia. lia.
Qed.

(** A month by its number. *)
Ltac each_month d := let H := fresh in assert (H : d = 0 \/ d = 1 \/ d = 2 \/ d = 3 \/ d = 4 \/ d = 5 \/ d = 6 \/ d = 7 \/ d = 8 \/ d = 9 \/ d = 10 \/ d = 11) by lia;
  destruct H as [-> |[-> |[-> |[-> |[-> |[-> |[-> |[-> |[-> |[-> |[-> | ->]]]]]]]]]]].

Lemma month_next y d : 0 <= d < 12 -> month_start y (d + 1) = month_start y d + mlen y d.
Proof. intros Hd. unfold month_start, mlen. rewrite dysize_366. generalize (leap (y + 1900)). intros b. each_month d; by destruct b. Qed.

Lemma mlen_days y d : 0 <= d < 12 -> mlen y d = month_days y d.
Proof. intros Hd. unfold month_days, mlen. rewrite dysize_366. generalize (leap (y + 1900)). intros b. each_month d; by destruct b. Qed.

Lemma month_12 y : month_start y 12 = dysize y.
Proof. rewrite dysize_leap. unfold month_start. by destruct (leap (y + 1900)). Qed.

Lemma mlen_pos y d : 0 <= d < 12 -> 28 <= mlen y d <= 31.
Proof. intros Hd. unfold mlen. generalize (dysize y =? 366). intros b. each_month d; by destruct b. Qed.

Lemma months_spec fuel y d1 d0 : 0 <= d1 <= 12 -> 12 - d1 < Z.of_nat fuel -> 0 <= d0 < dysize y - month_start y d1 ->
  exists mon d, months fuel y d1 d0 = Some (mon, d) /\ 0 <= mon < 12 /\ 0 <= d < mlen y mon /\ month_start y d1 + d0 = month_start y mon + d.
Proof.
  revert d1 d0. induction fuel as [|fuel IH]; intros d1 d0 Hd Hf H0; [lia|]. cbn [months].
  destruct (Z.leb_spec 12 d1); [replace d1 with 12 in H0 by lia; rewrite month_12 in H0; lia|].
  destruct (Z.ltb_spec d0 (mlen y d1)); [exists d1, d0; split_and!; done || lia|]. pose proof (month_next y d1 ltac:(lia)) as En.
  destruct (IH (d1 + 1) (d0 - mlen y d1)) as (mon & d & -> & Hm & Hdd & E); [lia|lia|lia|]. exists mon, d. split_and!; try done; lia.
Qed.

(** ** Dates *)

(** The fields but the day of the week have the values they should. *)
Record in_range (t : tm) : Prop := {
  cn_sec : 0 <= tm_sec t < 60;
  cn_min : 0 <= tm_min t < 60;
  cn_hour : 0 <= tm_hour t < 24;
  cn_mon : 0 <= tm_mon t < 12;
  cn_mday : 1 <= tm_mday t <= month_days (tm_year t) (tm_mon t);
  cn_yday : tm_yday t = month_start (tm_year t) (tm_mon t) + (tm_mday t - 1);
}.

Definition tm_day (t : tm) : Z := day_number (tm_year t) (tm_mon t) (tm_mday t).
Definition seconds (t : tm) : Z := 86400 * tm_day t + 3600 * tm_hour t + 60 * tm_min t + tm_sec t.

(** All fields have. *)
Definition canonical (t : tm) : Prop := in_range t /\ tm_wday t = weekday (tm_day t).

Definition SPAN : Z := 365 * 39999 * 86400.

Lemma gmtime_spec clk : - SPAN <= clk < SPAN -> exists t, gmtime clk = Some t /\ in_range t /\ seconds t = clk /\
  tm_isdst t = 0 /\ tm_wday t = Z.rem (tm_day t + 7340036) 7.
Proof.
  intros Hclk. unfold gmtime. cbv zeta.
  assert (Hsplit : (if Z.rem clk 86400 <? 0 then (Z.rem clk 86400 + 86400, Z.quot clk 86400 - 1) else (Z.rem clk 86400, Z.quot clk 86400)) =
    (clk mod 86400, clk / 86400)).
  { pose proof (Z.quot_rem' clk 86400). pose proof (Z.rem_bound_abs clk 86400). pose proof (Z.div_mod clk 86400). pose proof (Z.mod_pos_bound clk 86400).
    destruct (Z.ltb_spec (Z.rem clk 86400) 0); f_equal; nia. }
  rewrite Hsplit. set (day := clk / 86400). set (hms := clk mod 86400).
  assert (Hh : 0 <= hms < 86400) by (apply Z.mod_pos_bound; lia). assert (Hc : clk = 86400 * day + hms) by (apply Z.div_mod; lia).
  assert (Hy : exists y yd, (if 0 <=? day then years_up YEARS 70 day else years_down YEARS 70 day) = Some (y, yd) /\ 0 <= yd < dysize y /\
    day = year_start y + yd).
  { unfold YEARS, SPAN in *. destruct (Z.leb_spec 0 day).
    - destruct (years_up_spec (Z.to_nat 40000) 70 day) as (y & yd & E1 & E2 & E3); [lia|]. exists y, yd. rewrite year_70 in E3. done.
    - replace (Z.to_nat 40000) with (S (Z.to_nat 39999)) by lia. pose proof (dysize_range 70).
      destruct (years_down_spec (Z.to_nat 39999) 70 day) as (y & yd & E1 & E2 & E3); [lia|lia|]. exists y, yd. rewrite year_70 in E3. done. }
  destruct Hy as (y & yd & -> & Hyd & Eday).
  destruct (months_spec 13 y 0 yd) as (mon & d & -> & Hm & Hd & Em); [lia|lia|change (month_start y 0) with 0; lia|].
  change (month_start y 0) with 0 in Em. rewrite Z.add_0_l in Em. eexists. split; [done|]. unfold seconds, tm_day, day_number. simpl.
  rewrite !Z.rem_mod_nonneg, !Z.quot_div_nonneg by (try apply Z.quot_pos; lia).
  split; [|split; [|split; [done|]]].
  - rewrite (mlen_days y mon Hm) in Hd. split; simpl; try lia.
    + apply Z.mod_pos_bound. lia.
    + apply Z.mod_pos_bound. lia.
    + split; [apply Z.div_pos; lia|apply Z.div_lt_upper_bound; lia].
  - rewrite Hc, Eday, Em. Z.div_mod_to_equations. lia.
  - f_equal. lia.
Qed.

(** ** From a date to seconds *)

Lemma sum_years i n : sum_from dysize i n = year_start (i + Z.of_nat n) - year_start i.
Proof.
  revert i. induction n as [|n IH]; intros i; cbn [sum_from]; [rewrite Z.add_0_r; lia|]. rewrite IH, year_next.
  replace (i + 1 + Z.of_nat n) with (i + Z.of_nat (S n)) by lia. lia.
Qed.

Lemma sum_months y i n : 0 <= i -> i + Z.of_nat n <= 12 ->
  sum_from (fun i => if (i =? 1) && (dysize y =? 366) then dmsize i + 1 else dmsize i) i n = month_start y (i + Z.of_nat n) - month_start y i.
Proof.
  revert i. induction n as [|n IH]; intros i Hi Hn; cbn [sum_from]; [rewrite Z.add_0_r; lia|]. rewrite IH, month_next by lia.
  replace (i + 1 + Z.of_nat n) with (i + Z.of_nat (S n)) by lia. unfold mlen. destruct (Z.eqb_spec i 1) as [->|]; cbn [andb]; [|lia].
  change (dmsize 1) with 28. case_match; lia.
Qed.

(** [daysto] agrees with the rule of the calendar, before 1970 too. *)
Lemma daysto_is y mon : 0 <= mon < 12 -> daysto y mon = year_start y + month_start y mon.
Proof.
  intros Hm. unfold daysto. cbv zeta. rewrite sum_months by lia. change (month_start y 0) with 0. rewrite Z2Nat.id by lia.
  destruct (Z.leb_spec 70 y); rewrite sum_years, Z2Nat.id by lia; rewrite ?year_70.
  - replace (70 + (y - 70)) with y by lia. rewrite ?year_70, ?Z.add_0_l. lia.
  - replace (y + (70 - y)) with 70 by lia. rewrite ?year_70, ?Z.add_0_l. lia.
Qed.

Lemma year_far y n : 365 * Z.of_nat n <= year_start (y + Z.of_nat n) - year_start y.
Proof. rewrite <- sum_years. revert y. induction n as [|n IH]; intros y; cbn [sum_from]; [lia|]. specialize (IH (y + 1)). pose proof (dysize_range y). lia. Qed.

Lemma year_mono y y' : y <= y' -> year_start y <= year_start y'.
Proof. intros Hy. pose proof (year_far y (Z.to_nat (y' - y))) as Hf. rewrite Z2Nat.id in Hf by lia. replace (y + (y' - y)) with y' in Hf by lia. lia. Qed.

Lemma yday_range t : in_range t -> 0 <= tm_yday t < dysize (tm_year t).
Proof.
  intros [_ _ _ Hmon Hmd ->].
  split.
  - assert (0 <= month_start (tm_year t) (tm_mon t)); [|lia]. unfold month_start. generalize (leap (tm_year t + 1900)). intros b.
    revert Hmon. generalize (tm_mon t). intros m Hmon. each_month m; by destruct b.
  - pose proof (month_next (tm_year t) (tm_mon t) Hmon) as En. rewrite (mlen_days _ _ Hmon) in En. enough (month_start (tm_year t) (tm_mon t + 1) <= dysize (tm_year t)) by lia.
    rewrite <- (month_12 (tm_year t)). unfold month_start. generalize (leap (tm_year t + 1900)). intros b.
    revert Hmon. generalize (tm_mon t). intros m Hmon. each_month m; by destruct b.
Qed.

(** The year a day is in. *)
Lemma tm_year_range t y1 y2 : in_range t -> year_start y1 <= tm_day t < year_start y2 -> y1 <= tm_year t < y2.
Proof.
  intros C Hd. pose proof (cn_yday t C) as Hy. unfold tm_day, day_number in Hd.
  pose proof (yday_range t C) as Hyd. rewrite Hy in Hyd.
  pose proof (year_next (tm_year t)) as En. split.
  - destruct (Z.le_gt_cases y1 (tm_year t)); [done|]. pose proof (year_mono (tm_year t + 1) y1). lia.
  - destruct (Z.lt_ge_cases (tm_year t) y2); [done|]. pose proof (year_mono y2 (tm_year t)). lia.
Qed.

(** ** Daylight saving time *)

(** The last Sunday up to a day. *)
Definition last_sunday (day : Z) : Z := day - weekday day.

(** From the last Sunday of April, at two o'clock standard time, to the last of October, at one;
    in 1974 from the sixth of January to the last Sunday of November, and in 1975 from the last
    Sunday of February. *)
Definition dst_begin (y : Z) : Z :=
  last_sunday (if y =? 74 then day_number y 0 6 else if y =? 75 then day_number y 1 28 else day_number y 3 30).
Definition dst_end (y : Z) : Z := last_sunday (if y =? 74 then day_number y 10 30 else day_number y 9 31).
Definition dst (dstflag y std : Z) : Z :=
  if negb (dstflag =? 0) && (86400 * dst_begin y + 7200 <=? std) && (std <? 86400 * dst_end y + 3600) then 1 else 0.

(** sunday() gives the day of the year of the Sunday up to the day. *)
Lemma sunday_spec t d : canonical t -> 0 <= d -> year_start (tm_year t) + sunday t d =
  last_sunday (year_start (tm_year t) + d + (if (58 <=? d) && leap (tm_year t + 1900) then 1 else 0)).
Proof.
  intros [C Hw] Hd. pose proof (yday_range t C) as Hy. rewrite dysize_leap in Hy. unfold sunday, last_sunday, weekday. rewrite dysize_leap.
  assert (Hwd : tm_wday t = (year_start (tm_year t) + tm_yday t + 4) mod 7).
  { rewrite Hw, (cn_yday t C). unfold weekday, tm_day, day_number. f_equal. lia. }
  assert (Hb : 0 <= tm_wday t < 7) by (rewrite Hwd; apply Z.mod_pos_bound; lia). revert Hwd Hy.
  generalize (year_start (tm_year t)). intros ys Hwd Hy.
  set (e := if (58 <=? d) && leap (tm_year t + 1900) then 1 else 0).
  assert (E : (if 58 <=? d then d + ((if leap (tm_year t + 1900) then 366 else 365) - 365) else d) = d + e)
    by (unfold e; destruct (58 <=? d), (leap (tm_year t + 1900)); cbn [andb]; lia).
  assert (He : 0 <= e) by (unfold e; destruct ((58 <=? d) && leap (tm_year t + 1900)); lia).
  assert (Hy' : tm_yday t < 366) by (destruct (leap (tm_year t + 1900)); lia). clear Hy.
  rewrite E. clearbody e. rewrite Z.rem_mod_nonneg by lia. Z.div_mod_to_equations. lia.
Qed.

Lemma month_starts y : let l := if leap (y + 1900) then 1 else 0 in
  month_start y 0 = 0 /\ month_start y 1 = 31 /\ month_start y 3 = 90 + l /\ month_start y 9 = 273 + l /\ month_start y 10 = 304 + l.
Proof. by split_and!. Qed.

(** Both Sundays are in the year, and not at its end. *)
Lemma dst_in_year y : year_start y <= dst_begin y /\ dst_end y + 1 < year_start (y + 1).
Proof.
  rewrite year_next, dysize_leap. unfold dst_begin, dst_end, last_sunday, weekday, day_number.
  destruct (month_starts y) as (-> & -> & -> & -> & ->).
  destruct (Z.eqb_spec y 74) as [-> |]; [by vm_compute|]. destruct (Z.eqb_spec y 75) as [-> |]; [by vm_compute|].
  generalize (year_start y). intros ys. destruct (leap (y + 1900)); Z.div_mod_to_equations; lia.
Qed.

(** What localtime() tests is the rule. *)
Lemma dst_test dstflag ct std : canonical ct -> seconds ct = std ->
  let '(b, e) := daylight (tm_year ct) in
  (negb (dstflag =? 0) &&
     ((sunday ct b <? tm_yday ct) || ((tm_yday ct =? sunday ct b) && (2 <=? tm_hour ct))) &&
     ((tm_yday ct <? sunday ct e) || ((tm_yday ct =? sunday ct e) && (tm_hour ct <? 1)))) = (dst dstflag (tm_year ct) std =? 1).
Proof.
  intros C Hs. pose proof (sunday_spec ct) as Hsun. destruct (daylight (tm_year ct)) as [b e] eqn:Ed.
  assert (Hbe : 0 <= b /\ 0 <= e /\ dst_begin (tm_year ct) = year_start (tm_year ct) + sunday ct b /\ dst_end (tm_year ct) = year_start (tm_year ct) + sunday ct e).
  { unfold daylight in Ed. unfold dst_begin, dst_end, day_number.
    destruct (month_starts (tm_year ct)) as (-> & -> & -> & -> & ->).
    destruct (Z.eqb_spec (tm_year ct) 74) as [E|]; [|destruct (Z.eqb_spec (tm_year ct) 75) as [E|]]; injection Ed as <- <-;
      (split; [lia|]; split; [lia|]); rewrite !Hsun by (done || lia); rewrite ?E; [by vm_compute..|].
    split; f_equal; change (58 <=? 119) with true; change (58 <=? 303) with true; destruct (leap (tm_year ct + 1900)); cbn [andb]; lia. }
  destruct Hbe as (Hb & He & Eb & Ee). unfold dst. rewrite Eb, Ee.
  assert (Hstd : std = 86400 * (year_start (tm_year ct) + tm_yday ct) + 3600 * tm_hour ct + 60 * tm_min ct + tm_sec ct).
  { rewrite <- Hs. unfold seconds, tm_day, day_number. rewrite (cn_yday ct (proj1 C)). lia. }
  destruct C as [[Hsec Hmin Hhour _ _ _] _]. rewrite Hstd. generalize (year_start (tm_year ct)), (sunday ct b), (sunday ct e). intros ys sb se.
  destruct (negb (dstflag =? 0)); cbn [andb]; [|done]. case_match eqn:E; lia.
Qed.

(** ** Local time *)

(** The first day whose weekday gmtime() has right. *)
Definition DAY0 : Z := -7340036.

(** A time that is a [time_t] together with what is computed from it, and not before [DAY0]. *)
Definition time_ok (timezone clk : Z) : Prop :=
  86400 * DAY0 <= clk - timezone * 60 < 2 ^ 40 - 3600 /\ - 2 ^ 40 <= clk < 2 ^ 40 - 3600.

(** [t] is the date of [clk] in the zone, by the calendar. *)
Definition local_date (timezone dstflag clk : Z) (t : tm) : Prop :=
  canonical t /\ tm_isdst t = dst dstflag (tm_year t) (clk - timezone * 60) /\
  seconds t = clk - timezone * 60 + 3600 * tm_isdst t.

Lemma gmtime_date clk : 86400 * DAY0 <= clk < 2 ^ 40 -> exists t, gmtime clk = Some t /\ canonical t /\ seconds t = clk /\ tm_isdst t = 0.
Proof.
  intros Hc. unfold DAY0 in Hc. destruct (gmtime_spec clk) as (t & E & C & Hs & Hd & Hw); [unfold SPAN; lia|]. exists t. split; [done|].
  split; [|done]. split; [done|]. assert (Hday : -7340036 <= tm_day t) by (destruct C; unfold seconds in Hs; lia).
  rewrite Hw, Z.rem_mod_nonneg by lia. unfold weekday. replace (tm_day t + 7340036) with (tm_day t + 4 + 1048576 * 7) by lia. apply Z.mod_add. lia.
Qed.

Lemma localtime_spec timezone dstflag clk : 86400 * DAY0 <= clk - timezone * 60 < 2 ^ 40 - 3600 ->
  exists t, localtime timezone dstflag clk = Some t /\ local_date timezone dstflag clk t.
Proof.
  intros Hc. unfold localtime. cbv zeta. set (std := clk - timezone * 60) in *. destruct (gmtime_date std) as (ct & -> & C & Hs & Hd); [lia|].
  pose proof (dst_test dstflag ct std C Hs) as Ht. destruct (daylight (tm_year ct)) as [b e]. rewrite Ht. clear Ht.
  destruct (Z.eqb_spec (dst dstflag (tm_year ct) std) 1) as [E1|E1].
  2:{ exists ct. split; [done|]. unfold local_date. fold std. rewrite Hd. split; [done|].
      assert (E0 : dst dstflag (tm_year ct) std = 0) by (unfold dst in *; by case_match). rewrite E0. lia. }
  destruct (gmtime_date (std + 1 * 60 * 60)) as (c2 & -> & C2 & Hs2 & Hd2); [lia|]. eexists. split; [done|].
  assert (Hy : tm_year c2 = tm_year ct).
  { destruct (dst_in_year (tm_year ct)) as [H1 H2]. unfold dst in E1. case_match eqn:E; [|done].
    assert (Hday : year_start (tm_year ct) <= tm_day c2 < year_start (tm_year ct + 1)).
    { destruct C2 as [[] _]. unfold seconds in Hs2. lia. }
    pose proof (tm_year_range c2 (tm_year ct) (tm_year ct + 1) (proj1 C2) Hday). lia. }
  set (c3 := Mktm _ _ _ _ _ _ _ _ _). assert (H3 : seconds c3 = seconds c2 /\ tm_year c3 = tm_year c2 /\ tm_isdst c3 = tm_isdst c2 + 1) by done.
  assert (C3 : canonical c3) by (destruct C2 as [[] Hw2]; by split). unfold local_date. fold std. destruct H3 as (-> & -> & ->).
  rewrite Hd2, Hy, E1. split; [done|]. lia.
Qed.

Lemma dst_01 dstflag y std : 0 <= dst dstflag y std <= 1.
Proof. unfold dst. case_match; lia. Qed.

(** What mktime() makes of a date in range, with the month in range. *)
Lemma mktime_seconds timezone dstflag tp : 0 <= tm_mon tp < 12 -> 0 <= tm_isdst tp ->
  mktime timezone dstflag tp =
    let t := seconds tp + timezone * 60 - (if 0 <? tm_isdst tp then 3600 else 0) in
    match localtime timezone dstflag t with None => None | Some ct => Some (t, ct) end.
Proof.
  intros Hm Hd. unfold mktime. cbv zeta. rewrite Z.quot_small, Z.rem_small by lia. replace (tm_mon tp <? 0) with false by lia.
  rewrite Z.add_0_r, daysto_is by lia. replace (tm_isdst tp <? 0) with false by lia. unfold seconds, tm_day, day_number.
  destruct (Z.ltb_spec 0 (tm_isdst tp)).
  - match goal with |- match localtime _ _ ?a with _ => _ end = match localtime _ _ ?b with _ => _ end => replace a with b by lia end. done.
  - match goal with |- match localtime _ _ ?a with _ => _ end = match localtime _ _ ?b with _ => _ end => replace a with b by lia end. done.
Qed.

(** C39. localtime() and mktime() are inverse: for any zone, with daylight saving or without,
    and for every time from [DAY0] on that fits a [time_t] with an hour to spare, localtime()
    gives the date of the calendar, every field canonical, the day of the week and of the year included, and
    mktime() of that date is the time it was made from, with the date as it was. *)
Theorem mktime_localtime timezone dstflag clk : time_ok timezone clk ->
  exists t, localtime timezone dstflag clk = Some t /\ local_date timezone dstflag clk t /\ mktime timezone dstflag t = Some (clk, t).
Proof.
  intros [Hc _]. destruct (localtime_spec timezone dstflag clk Hc) as (t & E & L). exists t. split; [done|]. split; [done|].
  destruct L as ([C _] & Hd & Hs). pose proof (dst_01 dstflag (tm_year t) (clk - timezone * 60)).
  rewrite mktime_seconds by (apply C || lia). cbv zeta.
  replace (seconds t + timezone * 60 - (if 0 <? tm_isdst t then 3600 else 0)) with clk; [by rewrite E|]. rewrite Hs. case_match; lia.
Qed.

(** Moscow with daylight saving time, on the day of the first flight of Gagarin, in the morning. *)
Lemma mktime_localtime_witness : exists t, localtime (-180) 1 (-275248380) = Some t /\ local_date (-180) 1 (-275248380) t /\
  mktime (-180) 1 t = Some (-275248380, t).
Proof. apply (mktime_localtime (-180) 1 (-275248380)). unfold time_ok, DAY0. lia. Defined.

(** ** Text *)

Definition chars (s : string) : list Z := (fun c => Z.of_N (Ascii.N_of_ascii c)) <$> String.list_ascii_of_string s.

(** [&s[i]] and the three characters copied from there: [None] outside of the string. *)
Definition three (s : list Z) (i : Z) : option (list Z) :=
  if (i <? 0) || (Z.of_nat (length s) <? i + 3) then None else Some (take 3 (drop (Z.to_nat i) s)).

Definition digit (n : Z) : Z := n + 48.

(** The two characters of [ct_numb]. *)
Definition ct_numb (n : Z) : list Z := [if 10 <=? n then digit (Z.rem (Z.quot n 10) 10) else 32; digit (Z.rem n 10)].

(** [cbuf] with [l] stored at [i]. *)
Definition put (i : nat) (l : list Z) (cbuf : list Z) : list Z := take i cbuf ++ l ++ drop (i + length l) cbuf.

Definition DAYS : list Z := chars "SunMonTueWedThuFriSat".
Definition MONTHS : list Z := chars "JanFebMarAprMayJunJulAugSepOctNovDec".

Definition asctime (t : tm) : option (list Z) :=
  let cbuf := chars "Day Mon 00 00:00:00 1900" ++ [10; 0] in
  match three DAYS (3 * tm_wday t), three MONTHS (3 * tm_mon t) with
  | Some d, Some m =>
      let cbuf := put 4 m (put 0 d cbuf) in
      let cbuf := put 8 (ct_numb (tm_mday t)) cbuf in
      let cbuf := put 11 (ct_numb (tm_hour t + 100)) cbuf in
      let cbuf := put 14 (ct_numb (tm_min t + 100)) cbuf in
      let cbuf := put 17 (ct_numb (tm_sec t + 100)) cbuf in
      let year := tm_year t + 1900 in
      let year := if year <? 0 then - year else year in
      let year := Z.rem year 10000 in
      Some (put 20 [digit (Z.quot year 1000); digit (Z.rem (Z.quot year 100) 10); digit (Z.rem (Z.quot year 10) 10); digit (Z.rem year 10)] cbuf)
  | _, _ => None
  end.

Definition ctime (timezone dstflag clk : Z) : option (list Z) :=
  match localtime timezone dstflag clk with None => None | Some t => asctime t end.

(** The date as it is written: two digits, or four. *)
Definition two (n : Z) : list Z := [digit (n / 10); digit (n mod 10)].
Definition four (n : Z) : list Z := two (n / 100) ++ two (n mod 100).
Definition day_name (n : Z) : list Z :=
  default [] (((fun s => chars s) <$> ["Sun"; "Mon"; "Tue"; "Wed"; "Thu"; "Fri"; "Sat"]%string) !! Z.to_nat n).
Definition month_name (n : Z) : list Z :=
  default [] (((fun s => chars s) <$> ["Jan"; "Feb"; "Mar"; "Apr"; "May"; "Jun"; "Jul"; "Aug"; "Sep"; "Oct"; "Nov"; "Dec"]%string) !! Z.to_nat n).
Definition date_text (t : tm) : list Z :=
  day_name (tm_wday t) ++ [32] ++ month_name (tm_mon t) ++ [32] ++
  (if 10 <=? tm_mday t then two (tm_mday t) else [32; digit (tm_mday t)]) ++ [32] ++
  two (tm_hour t) ++ [58] ++ two (tm_min t) ++ [58] ++ two (tm_sec t) ++ [32] ++ four (tm_year t + 1900) ++ [10; 0].

Lemma ct_numb_padded n : 0 <= n < 100 -> ct_numb (n + 100) = two n.
Proof.
  intros Hn. unfold ct_numb, two. rewrite (proj2 (Z.leb_le 10 (n + 100))) by lia. rewrite !Z.rem_mod_nonneg, Z.quot_div_nonneg by (try apply Z.quot_pos; lia).
  unfold digit. f_equal; [|f_equal]; Z.div_mod_to_equations; lia.
Qed.

Lemma ct_numb_blank n : 0 <= n < 100 -> ct_numb n = if 10 <=? n then two n else [32; digit n].
Proof.
  intros Hn. unfold ct_numb, two. rewrite !Z.rem_mod_nonneg, Z.quot_div_nonneg by (try apply Z.quot_pos; lia).
  unfold digit. destruct (Z.leb_spec 10 n); [f_equal|do 2 f_equal]; Z.div_mod_to_equations; lia.
Qed.

Lemma asctime_text t : in_range t -> 0 <= tm_wday t < 7 -> 0 <= tm_year t + 1900 < 10000 -> asctime t = Some (date_text t).
Proof.
  intros [Hs Hm Hh Hmon Hmd _] Hw Hy. unfold asctime.
  assert (Ed : three DAYS (3 * tm_wday t) = Some (day_name (tm_wday t))).
  { assert (Hc : tm_wday t = 0 \/ tm_wday t = 1 \/ tm_wday t = 2 \/ tm_wday t = 3 \/ tm_wday t = 4 \/ tm_wday t = 5 \/ tm_wday t = 6) by lia.
    by destruct Hc as [-> |[-> |[-> |[-> |[-> |[-> | ->]]]]]]. }
  assert (Em : three MONTHS (3 * tm_mon t) = Some (month_name (tm_mon t))).
  { revert Hmon. generalize (tm_mon t). intros m Hmon. each_month m; reflexivity. }
  assert (Ld : length (day_name (tm_wday t)) = 3%nat /\ length (month_name (tm_mon t)) = 3%nat).
  { split.
    - revert Hw. generalize (tm_wday t). intros d Hw. assert (Hc : d = 0 \/ d = 1 \/ d = 2 \/ d = 3 \/ d = 4 \/ d = 5 \/ d = 6) by lia.
      by destruct Hc as [-> |[-> |[-> |[-> |[-> |[-> | ->]]]]]].
    - revert Hmon. generalize (tm_mon t). intros m Hmon. each_month m; reflexivity. }
  rewrite Ed, Em. cbv zeta. f_equal. pose proof (mlen_pos (tm_year t) (tm_mon t) Hmon) as Hml. rewrite (mlen_days _ _ Hmon) in Hml. rewrite !ct_numb_padded, ct_numb_blank by lia.
  replace (tm_year t + 1900 <? 0) with false by lia. rewrite Z.rem_small by lia. unfold date_text.
  destruct (day_name (tm_wday t)) as [|d1 [|d2 [|d3 [|]]]]; try (simpl in Ld; lia).
  destruct (month_name (tm_mon t)) as [|m1 [|m2 [|m3 [|]]]]; try (simpl in Ld; lia).
  assert (Ey : [digit (Z.quot (tm_year t + 1900) 1000); digit (Z.rem (Z.quot (tm_year t + 1900) 100) 10);
    digit (Z.rem (Z.quot (tm_year t + 1900) 10) 10); digit (Z.rem (tm_year t + 1900) 10)] = four (tm_year t + 1900)).
  { unfold four, two. simpl. rewrite !Z.rem_mod_nonneg, !Z.quot_div_nonneg by (try apply Z.quot_pos; lia).
    unfold digit. f_equal; [|do 2 f_equal; [|f_equal]]; Z.div_mod_to_equations; lia. }
  rewrite Ey. unfold four, two. by destruct (10 <=? tm_mday t).
Qed.

Lemma put_length i l b : length b = 26%nat -> (i + length l <= 26)%nat -> length (put i l b) = 26%nat.
Proof. intros Hb Hl. unfold put. rewrite !length_app, length_take, length_drop. lia. Qed.

Lemma three_length s i l : three s i = Some l -> length l = 3%nat.
Proof. unfold three. case_match eqn:E; [done|]. intros [= <-]. rewrite length_take, length_drop. lia. Qed.

(** What is stored stays inside of [cbuf]. *)
Lemma asctime_length t l : asctime t = Some l -> length l = 26%nat.
Proof.
  unfold asctime. destruct (three DAYS _) as [d|] eqn:Ed; [|done]. destruct (three MONTHS _) as [m|] eqn:Em; [|done].
  apply three_length in Ed, Em. intros [= <-]. repeat apply put_length; rewrite ?Ed, ?Em; simpl; done || lia.
Qed.

(** C40. ctime() of any time from 1970 to the end of the year 9999 is, in the twenty-six
    characters of its buffer, the text of the date of the calendar: the one whose day number,
    hours, minutes and seconds make the local time, with its day of the week, and with the
    hour of daylight saving added exactly when the rule of the year says so. *)
Theorem ctime_text timezone dstflag clk : 0 <= clk - timezone * 60 < year_start 8100 * 86400 - 3600 ->
  exists t, local_date timezone dstflag clk t /\ 70 <= tm_year t < 8100 /\
    ctime timezone dstflag clk = Some (date_text t) /\ length (date_text t) = 26%nat.
Proof.
  intros Hc. assert (E9 : year_start 8100 = 2932897) by (by vm_compute). rewrite E9 in Hc.
  destruct (localtime_spec timezone dstflag clk) as (t & E & L); [unfold DAY0; lia|]. exists t. split; [done|].
  destruct L as ([C Hw] & Hd & Hs). pose proof (dst_01 dstflag (tm_year t) (clk - timezone * 60)).
  assert (Hday : 0 <= tm_day t < 2932897) by (destruct C; unfold seconds in Hs; lia).
  assert (Hy : 70 <= tm_year t < 8100) by (apply tm_year_range; [done|rewrite year_70, E9; done]).
  assert (Hw7 : 0 <= tm_wday t < 7) by (rewrite Hw; apply Z.mod_pos_bound; lia).
  pose proof (asctime_text t C Hw7 ltac:(lia)) as Ea. split; [done|]. split; [unfold ctime; by rewrite E|].
  apply asctime_length in Ea. done.
Qed.

Lemma ctime_text_witness : ctime (-180) 0 1000000000 = Some (chars "Sun Sep  9 04:46:40 2001" ++ [10; 0]) /\
  exists t, local_date (-180) 0 1000000000 t /\ ctime (-180) 0 1000000000 = Some (date_text t).
Proof.
  split; [by vm_compute|]. destruct (ctime_text (-180) 0 1000000000) as (t & L & _ & E & _); [by vm_compute|]. by exists t.
Defined.

(** A [time_t] reaches further back than gmtime() was made for: at the start of a day
    eighteen thousand years before our era it gives the day of the week -1, and asctime()
    takes its name from before the table. *)
Theorem ctime_before_table : let clk := - 86400 * 7340037 in - 2 ^ 40 <= clk /\
  exists t, gmtime clk = Some t /\ tm_wday t = -1 /\ asctime t = None.
Proof.
  split; [done|]. destruct (gmtime_spec (- 86400 * 7340037)) as (t & E & C & Hs & _ & Hw); [unfold SPAN; lia|]. exists t.
  assert (Hday : tm_day t = -7340037) by (destruct C; unfold seconds in Hs; lia). rewrite Hday in Hw.
  split; [exact E|]. split; [exact Hw|]. unfold asctime. by rewrite Hw.
Qed.
