(* ===== verification/Heap.v ===== *)
(** * Storage allocation in the C library: [lib/libc/gen/malloc.c] and [lib/libc/sys/sbrk.c]

    Memory is a word for every word address.  The arena is a ring of headers in ascending
    order: the word at a header is the address of the next one, with the bit [BUSY] when the
    block is in use.  [NULL] is 0.  Whether the system moves the break to an address is
    [grant]; [end_] is the end of the program, and [alloca] the sentinel below it. *)

From Stdlib Require Import ZifyBool.
From S2P Require Import Prelude.

(** ** The code *)

Definition WORD : Z := 6.
Definition PAGE : Z := 1024.
Definition BLOCK : Z := PAGE.
Definition FRAG : Z := PAGE.
Definition BUSY : Z := 32768.
Definition NWORDS : Z := 32768.

Definition testbusy (p : Z) : bool := negb (Z.land p BUSY =? 0).
Definition setbusy (p : Z) : Z := Z.lor p BUSY.
Definition clearbusy (p : Z) : Z := Z.land p (Z.lnot BUSY).

Record heap := Heap {
  mem : Z -> Z;
  allocb : Z;  (* arena base *)
  allocp : Z;  (* search ptr *)
  allocx : Z;  (* for benefit of realloc *)
  curbrk : Z  (* the break, a word address; 0 before its first use *)
}.
Definition set_mem (v : Z -> Z) (h : heap) : heap := Heap v (allocb h) (allocp h) (allocx h) (curbrk h).
Definition set_allocb (v : Z) (h : heap) : heap := Heap (mem h) v (allocp h) (allocx h) (curbrk h).
Definition set_allocp (v : Z) (h : heap) : heap := Heap (mem h) (allocb h) v (allocx h) (curbrk h).
Definition set_allocx (v : Z) (h : heap) : heap := Heap (mem h) (allocb h) (allocp h) v (curbrk h).
Definition set_curbrk (v : Z) (h : heap) : heap := Heap (mem h) (allocb h) (allocp h) (allocx h) v.

Definition poke (a v : Z) (m : Z -> Z) : Z -> Z := fun x => if x =? a then v else m x.

(** [p->ptr = v]. *)
Definition link (p v : Z) (h : heap) : heap := set_mem (poke p v (mem h)) h.

Section Heap.
Context (alloca end_ : Z) (grant : Z -> bool).

(** A byte increment in words. *)
Definition words (incr : Z) : Z := if incr <? 0 then Z.quot incr WORD else Z.quot (incr + 5) WORD.

(** A pointer has 15 bits of address. *)
Definition sbrk (incr : Z) (h : heap) : Z * heap :=
  let h := if curbrk h =? 0 then set_curbrk end_ h else h in
  let old := curbrk h in
  let new := (old + words incr) mod NWORDS in
  if (0 <? incr) && (new <=? old) then (0, h)
  else if negb (grant new) then (0, h)
  else (old, set_curbrk new h).

(** [addr] is a byte address: six for each word below it. *)
Definition brk (addr : Z) (h : heap) : Z * heap :=
  let h := if curbrk h =? 0 then set_curbrk end_ h else h in
  let (p, h) := sbrk (addr - curbrk h * WORD) h in
  (if p =? 0 then -1 else 0, h).

(** [for (p = allocb;; p = s)] of [ialloc]: the last cell before the new block, and the first after it. *)
Fixpoint place (fuel : nat) (m : Z -> Z) (base q r p : Z) : option (Z * Z) :=
  match fuel with
  | O => None
  | S fuel =>
      let s := clearbusy (m p) in
      if s =? base then Some (p, s)
      else if (r <? s) && (p <? q) then Some (p, s)
      else place fuel m base q r s
  end.

Definition ialloc (fuel : nat) (q nbytes : Z) (h : heap) : option heap :=
  let r := q + Z.quot nbytes WORD - 1 in
  let h := link q r h in
  let h := if mem h alloca =? 0 then link alloca alloca h else h in
  match place fuel (mem h) (allocb h) q r (allocb h) with
  | None => None
  | Some (p, s) =>
      let h := link p (if q =? p + 1 then q else setbusy q) h in
      let h := link r (if s =? r + 1 then s else setbusy s) h in
      Some (if q <? allocb h then set_allocb q h else h)
  end.

(** [while (!testbusy((q = p->ptr)->ptr)) p->ptr = q->ptr;] *)
Fixpoint coalesce (fuel : nat) (p : Z) (m : Z -> Z) : option (Z * (Z -> Z)) :=
  match fuel with
  | O => None
  | S fuel => let q := m p in if testbusy (m q) then Some (q, m) else coalesce fuel p (poke p (m q) m)
  end.

(** How the search ends: a block [p] that ends at [q], an arena that is broken, or no block large enough. *)
Inductive outcome := Found (p q : Z) (m : Z -> Z) | Broken (m : Z -> Z) | Full (m : Z -> Z).

Fixpoint search (fuel : nat) (base nw temp p : Z) (m : Z -> Z) : option outcome :=
  match fuel with
  | O => None
  | S fuel =>
      match (if testbusy (m p) then Some (0, m) else coalesce fuel p m) with
      | None => None
      | Some (q, m1) =>
          if negb (testbusy (m p)) && ((p + nw <=? q) && (p <=? p + nw)) then Some (Found p q m1)
          else
            let q := p in
            let p := clearbusy (m1 p) in
            if p <=? q then
              if negb (p =? base) then Some (Broken m1)
              else if 1 <? temp + 1 then Some (Full m1)
              else search fuel base nw (temp + 1) p m1
            else search fuel base nw temp p m1
      end
  end.

(** The inner loop that asks for more, a page less each time it is refused. *)
Fixpoint more (fuel : nat) (nw temp : Z) (h : heap) : option (option (Z * Z) * heap) :=
  match fuel with
  | O => None
  | S fuel =>
      let (q, h) := sbrk (temp * WORD) h in
      if negb (q =? 0) then Some (Some (q, temp), h)
      else
        let temp := temp - FRAG in
        if temp <=? nw then Some (None, h) else more fuel nw temp h
  end.

Definition take_block (p q nw : Z) (h : heap) : Z * heap :=
  let h := set_allocp (p + nw) h in
  let h := if allocp h <? q then link (allocp h) (mem h p) (set_allocx (mem h (allocp h)) h) else h in
  (p + 1, link p (setbusy (allocp h)) h).

(** Nothing in the arena fits: grow it.  [false] when the break does not move. *)
Definition grow (fuel : nat) (nw : Z) (h : heap) : option (bool * heap) :=
  let temp := Z.quot (nw + BLOCK) BLOCK * BLOCK in
  let (p, h) := sbrk 0 h in
  if p + temp <=? p then Some (false, h)
  else
    match more fuel nw temp h with
    | None => None
    | Some (None, h) => Some (false, h)
    | Some (Some (q, temp), h) =>
        match ialloc fuel q (temp * WORD) h with
        | None => None
        | Some h => Some (true, set_allocp (allocb h) h)
        end
    end.

(** [n] is the turns of [for (;;)] that are left. *)
Fixpoint malloc_loop (n fuel : nat) (nw : Z) (h : heap) : option (Z * heap) :=
  match n with
  | O => None
  | S n =>
      match (if mem h alloca =? 0 then Some (Full (mem h)) else search fuel (allocb h) nw 0 (allocp h) (mem h)) with
      | None => None
      | Some (Found p q m) => Some (take_block p q nw (set_mem m h))
      | Some (Broken m) => Some (0, set_mem m h)
      | Some (Full m) =>
          match grow fuel nw (set_mem m h) with
          | None => None
          | Some (false, h) => Some (0, h)
          | Some (true, h) => malloc_loop n fuel nw h
          end
      end
  end.

Definition malloc (fuel : nat) (nbytes : Z) (h : heap) : option (Z * heap) :=
  if NWORDS * WORD <=? nbytes then Some (0, h)
  else malloc_loop 2 fuel (Z.quot (nbytes + WORD + WORD - 1) WORD) h.

(** [ap] is the address of the first word. *)
Definition free (ap : Z) (h : heap) : heap :=
  if ap =? 0 then h
  else
    let p := ap - 1 in
    let h := set_allocp p h in
    link p (clearbusy (mem h p)) h.

(** [while (onw-- != 0) *t++ = *s++;] *)
Fixpoint copy_words (n : nat) (s t : Z) (h : heap) : heap :=
  match n with
  | O => h
  | S n => copy_words n (s + 1) (t + 1) (link t (mem h s) h)
  end.

Definition realloc (fuel : nat) (pp nbytes : Z) (h : heap) : option (Z * heap) :=
  if pp =? 0 then malloc fuel nbytes h
  else
    let p := pp in
    let h := if testbusy (mem h (p - 1)) then free p h else h in
    let onw := mem h (p - 1) - p in
    match malloc fuel nbytes h with
    | None => None
    | Some (q, h) =>
        if q =? 0 then Some (0, h)
        else if q =? p then Some (pp, h)
        else
          let nw := Z.quot (nbytes + WORD - 1) WORD in
          let onw := if nw <? onw then nw else onw in
          let h := copy_words (Z.to_nat onw) p q h in
          let h := if (q <? p) && (p <=? q + nw) then link (q + (q + nw - p)) (allocx h) h else h in
          Some (q, h)
    end.
End Heap.
