(* ===== verification/Arena.v ===== *)
(** * The arena of [malloc] as a ring of blocks

    A block is a header, its kind and the address where it stops, which is the next header.
    A [Used] block belongs to a caller; [Fixed] ones are the gaps the arena notes as busy. *)

From Stdlib Require Import ZifyBool.
From S2P Require Import Prelude Heap.

(** ** The busy bit *)

Lemma land_busy x : 0 <= x < NWORDS -> Z.land x BUSY = 0.
Proof.
  intros Hx. apply Z.bits_inj'. intros i Hi. change BUSY with (2 ^ 15).
  rewrite Z.land_spec, Z.pow2_bits_eqb, Z.bits_0 by lia.
  destruct (Z.eqb_spec 15 i) as [<- |]; [|apply andb_false_r]. rewrite andb_true_r.
  apply (Z.testbit_false x 15); [lia|]. rewrite Z.div_small by (unfold NWORDS in Hx; lia). done.
Qed.

Lemma testbusy_idle x : 0 <= x < NWORDS -> testbusy x = false.
Proof. intros Hx. unfold testbusy. by rewrite land_busy. Qed.

Lemma testbusy_setbusy x : testbusy (setbusy x) = true.
Proof.
  unfold testbusy, setbusy. apply negb_true_iff, Z.eqb_neq. intros H.
  apply (f_equal (fun y => Z.testbit y 15)) in H. rewrite Z.land_spec, Z.lor_spec in H.
  change (Z.testbit BUSY 15) with true in H. by rewrite orb_true_r in H.
Qed.

Lemma clearbusy_idle x : 0 <= x < NWORDS -> clearbusy x = x.
Proof. intros Hx. unfold clearbusy. rewrite <- Z.ldiff_land.
  pose proof (land_busy x Hx) as E. pose proof (Z.lor_ldiff_and x BUSY) as L. by rewrite E, Z.lor_0_r in L. Qed.

Lemma clearbusy_setbusy x : 0 <= x < NWORDS -> clearbusy (setbusy x) = x.
Proof.
  intros Hx. unfold clearbusy, setbusy. rewrite Z.land_lor_distr_l.
  change (Z.land BUSY (Z.lnot BUSY)) with 0. rewrite Z.lor_0_r. by apply clearbusy_idle.
Qed.

Lemma setbusy_neq_0 x : setbusy x <> 0.
Proof. intros E. pose proof (testbusy_setbusy x) as T. by rewrite E in T. Qed.

(** ** Blocks and chains *)

Inductive kind := Free | Used | Fixed.
Record block := Blk { start : Z; sort : kind; stop : Z }.

#[global] Instance kind_eq_dec : EqDecision kind.
Proof. solve_decision. Defined.

Definition mark (k : kind) (n : Z) : Z := match k with Free => n | _ => setbusy n end.

(** The headers from [p] to [z], for the blocks [bs]. *)
Fixpoint chain (m : Z -> Z) (p : Z) (bs : list block) (z : Z) : Prop :=
  match bs with
  | [] => p = z
  | b :: bs => start b = p /\ p < stop b /\ m p = mark (sort b) (stop b) /\ chain m (stop b) bs z
  end.

Definition used (bs : list block) : list block := filter (fun b => sort b = Used) bs.
Definition freed (bs : list block) : list block := filter (fun b => sort b = Free) bs.

Lemma blocks_app m p xs ys z : chain m p (xs ++ ys) z <-> exists q, chain m p xs q /\ chain m q ys z.
Proof.
  revert p. induction xs as [|x xs IH]; intros p; simpl.
  - split; [by exists p|by intros (q & -> & ?)].
  - rewrite IH. naive_solver.
Qed.

Lemma blocks_le m p bs z : chain m p bs z -> p <= z.
Proof. revert p. induction bs as [|b bs IH]; intros p; simpl; [lia|]. intros (? & ? & ? & H%IH). lia. Qed.

Lemma blocks_in m p bs z b :
  chain m p bs z -> b ∈ bs -> p <= start b < stop b /\ stop b <= z /\ m (start b) = mark (sort b) (stop b).
Proof.
  intros H (xs & ys & ->)%list_elem_of_split. apply blocks_app in H as (q & H1 & (<- & ? & ? & H2)).
  apply blocks_le in H1, H2. lia.
Qed.

(** Two blocks of a chain are the same or apart. *)
Lemma blocks_apart m p bs z b c :
  chain m p bs z -> b ∈ bs -> c ∈ bs -> b = c \/ stop b <= start c \/ stop c <= start b.
Proof.
  intros H (xs & ys & ->)%list_elem_of_split Hc. apply blocks_app in H as (q & H1 & (<- & ? & ? & H2)).
  apply elem_of_app in Hc as [Hc | [-> | Hc]%elem_of_cons]; [|by left|].
  - apply (blocks_in _ _ _ _ _ H1) in Hc. lia.
  - apply (blocks_in _ _ _ _ _ H2) in Hc. lia.
Qed.

Lemma blocks_NoDup m p bs z : chain m p bs z -> NoDup bs.
Proof.
  revert p. induction bs as [|b bs IH]; intros p H; [constructor|]. destruct H as (_ & ? & _ & H).
  constructor; [|by eapply IH]. intros Hin. apply (blocks_in _ _ _ _ _ H) in Hin. lia.
Qed.

Lemma blocks_agree m m' p bs z :
  chain m p bs z -> (forall b, b ∈ bs -> m' (start b) = m (start b)) -> chain m' p bs z.
Proof.
  revert p. induction bs as [|b bs IH]; intros p; simpl; [done|]. intros (<- & ? & E & H) A.
  repeat split; [done|by rewrite A by left|]. apply IH; [done|]. intros c Hc. apply A. by right.
Qed.

Lemma blocks_poke m p bs z a v : chain m p bs z -> ~ (p <= a < z) -> chain (poke a v m) p bs z.
Proof.
  intros H Ha. apply (blocks_agree m); [done|]. intros b Hb. unfold poke. destruct (Z.eqb_spec (start b) a); [|done].
  apply (blocks_in _ _ _ _ _ H) in Hb. lia.
Qed.

(** A word that is not a header changes freely. *)
Lemma blocks_inside m p bs z b a v :
  chain m p bs z -> b ∈ bs -> start b < a < stop b -> chain (poke a v m) p bs z.
Proof.
  intros H Hb Ha. apply (blocks_agree m); [done|]. intros c Hc. unfold poke. destruct (Z.eqb_spec (start c) a); [|done].
  pose proof (blocks_in _ _ _ _ _ H Hc). destruct (blocks_apart _ _ _ _ _ _ H Hb Hc) as [-> | ?]; lia.
Qed.

Lemma used_app xs ys : used (xs ++ ys) = used xs ++ used ys.
Proof. apply filter_app. Qed.

Lemma elem_used b bs : b ∈ used bs <-> sort b = Used /\ b ∈ bs.
Proof. unfold used, freed. by rewrite list_elem_of_filter. Qed.

Lemma elem_freed b bs : b ∈ freed bs <-> sort b = Free /\ b ∈ bs.
Proof. unfold used, freed. by rewrite list_elem_of_filter. Qed.

(** ** The search coalesces idle blocks

    [coarser m bs m' bs']: idle neighbours were joined, and nothing but idle headers was written. *)
Record coarser (m : Z -> Z) (bs : list block) (m' : Z -> Z) (bs' : list block) : Prop := {
  co_used : used bs' = used bs;
  co_cover : forall b, b ∈ freed bs -> exists b', b' ∈ freed bs' /\ start b' <= start b /\ stop b <= stop b';
  co_head : forall b', b' ∈ freed bs' -> exists b, b ∈ freed bs /\ start b = start b';
  co_calm : forall a, (forall b, b ∈ freed bs -> a <> start b) -> m' a = m a
}.

Lemma coarser_refl m bs : coarser m bs m bs.
Proof. split; [done|intros b ?; exists b; auto with lia|intros b ?; by exists b|done]. Qed.

Lemma coarser_trans m1 b1 m2 b2 m3 b3 : coarser m1 b1 m2 b2 -> coarser m2 b2 m3 b3 -> coarser m1 b1 m3 b3.
Proof.
  intros [U1 C1 H1 A1] [U2 C2 H2 A2]. split.
  - by rewrite U2.
  - intros b (c & Hc & ? & ?)%C1. apply C2 in Hc as (d & Hd & ? & ?). exists d. split; [done|lia].
  - intros d (c & Hc & E)%H2. apply H1 in Hc as (b & Hb & ?). exists b. split; [done|congruence].
  - intros a Ha. rewrite A2, A1; [done|done|]. intros c (b & Hb & <-)%H1. auto.
Qed.

Lemma freed_app xs ys : freed (xs ++ ys) = freed xs ++ freed ys.
Proof. apply filter_app. Qed.

Lemma coarser_app xs m ys m' ys' : coarser m ys m' ys' -> coarser m (xs ++ ys) m' (xs ++ ys').
Proof.
  intros [U C H A]. split.
  - by rewrite !used_app, U.
  - intros b. rewrite !freed_app. intros [? | (b' & ? & ?)%C]%elem_of_app; [exists b|exists b'];
      rewrite elem_of_app; auto with lia.
  - intros b. rewrite !freed_app. intros [? | (b' & ? & ?)%H]%elem_of_app; [exists b|exists b'];
      rewrite elem_of_app; auto.
  - intros a Ha. apply A. intros b Hb. apply Ha. rewrite freed_app. apply elem_of_app. by right.
Qed.

(** Two idle neighbours joined. *)
Lemma coarser_join m p q r ys :
  p < q < r -> coarser m (Blk p Free q :: Blk q Free r :: ys) (poke p r m) (Blk p Free r :: ys).
Proof.
  intros ?. change (Blk p Free q :: Blk q Free r :: ys) with ([Blk p Free q; Blk q Free r] ++ ys).
  change (Blk p Free r :: ys) with ([Blk p Free r] ++ ys). split.
  - by rewrite !used_app.
  - intros b. rewrite !freed_app. intros [Hb | ?]%elem_of_app.
    + exists (Blk p Free r). split; [by left|].
      apply elem_of_cons in Hb as [-> | [-> | []%not_elem_of_nil]%elem_of_cons]; simpl; lia.
    + exists b. split; [|lia]. by right.
  - intros b. rewrite !freed_app. intros [Hb | ?]%elem_of_app; [|exists b; split; [|done]; by do 2 right].
    apply elem_of_cons in Hb as [-> | []%not_elem_of_nil]. exists (Blk p Free q). split; [by left|done].
  - intros a Ha. unfold poke. destruct (Z.eqb_spec a p) as [-> |]; [|done].
    by destruct (Ha (Blk p Free q)); [left|].
Qed.

Lemma poke_same a v m : poke a v m a = v.
Proof. unfold poke. by rewrite Z.eqb_refl. Qed.

Lemma poke_other a v m x : x <> a -> poke a v m x = m x.
Proof. unfold poke. intros H. by apply Z.eqb_neq in H as ->. Qed.


Lemma busy_header m p b bs z : chain m p (b :: bs) z -> sort b <> Free -> testbusy (m p) = true.
Proof. intros (_ & _ & -> & _) ?. destruct (sort b); [done|apply testbusy_setbusy..]. Qed.

Lemma coalesce_ok fuel m p q ys z :
  chain m p (Blk p Free q :: ys) z -> testbusy (m z) = true -> 0 <= p -> z < NWORDS -> (length ys < fuel)%nat ->
  exists q' m' ys', coalesce fuel p m = Some (q', m') /\ chain m' p (Blk p Free q' :: ys') z /\
    (length ys' <= length ys)%nat /\ coarser m (Blk p Free q :: ys) m' (Blk p Free q' :: ys').
Proof.
  revert m q ys. induction fuel as [|fuel IH]; intros m q ys H Hz Hp Hr Hf; [lia|].
  pose proof H as (_ & Hpq & Ep & H2). simpl in Hpq, Ep, H2. simpl. rewrite Ep.
  destruct (testbusy (m q)) eqn:T.
  { exists q, m, ys. auto using coarser_refl. }
  destruct ys as [|[q1 k r] ys]; [simpl in H2; congruence|].
  destruct (decide (k = Free)) as [-> |]; [|by rewrite (busy_header _ _ _ _ _ H2) in T].
  destruct H2 as (E & Hqr & Eq & H3). simpl in E, Hqr, Eq, H3. subst q1. rewrite Eq.
  pose proof (blocks_le _ _ _ _ H3) as Hle. simpl in Hf.
  destruct (IH (poke p r m) r ys) as (q' & m' & ys' & E1 & C1 & L1 & K1); [|rewrite poke_other by lia; done|lia..|].
  { split_and!; simpl; [done|lia|apply poke_same|]. apply blocks_poke; [done|lia]. }
  exists q', m', ys'. split; [done|]. split; [done|]. split; [simpl; lia|].
  eapply coarser_trans; [|exact K1]. apply coarser_join. lia.
Qed.

(** ** One pass of the search

    From [p] to the last header [z] the search finds an idle block of [nw] words, or comes to
    [z] and leaves none. *)

Lemma search_used fuel base nw temp m p b bs z :
  chain m p (b :: bs) z -> sort b <> Free -> 0 <= p -> z < NWORDS ->
  search (S fuel) base nw temp p m = search fuel base nw temp (stop b) m.
Proof.
  intros H K Hp Hz. simpl. rewrite (busy_header _ _ _ _ _ H K). simpl.
  destruct H as (E & L & Em & H). apply blocks_le in H. rewrite Em.
  replace (mark (sort b) (stop b)) with (setbusy (stop b)) by (by destruct (sort b)).
  rewrite clearbusy_setbusy by lia. by replace (stop b <=? p) with false by lia.
Qed.

Definition fits (nw : Z) (bs : list block) : Prop := exists b, b ∈ freed bs /\ nw <= stop b - start b.

Definition pass_found fuel base nw temp m p ys z : Prop :=
  exists b m' ys', search fuel base nw temp p m = Some (Found (start b) (stop b) m') /\
    b ∈ freed ys' /\ nw <= stop b - start b /\ chain m' p ys' z /\ coarser m ys m' ys'.

Definition pass_end fuel base nw temp m p ys z : Prop :=
  exists fuel' m' ys', search fuel base nw temp p m = search fuel' base nw temp z m' /\
    (length ys' <= length ys)%nat /\ (fuel - length ys <= fuel')%nat /\
    ~ fits nw ys' /\ chain m' p ys' z /\ coarser m ys m' ys'.

Lemma not_fits_cons nw b bs : (sort b = Free -> stop b - start b < nw) -> ~ fits nw bs -> ~ fits nw (b :: bs).
Proof.
  intros Hb Hn (c & [Hc Hin]%elem_freed & Hw). apply elem_of_cons in Hin as [-> | Hin].
  - specialize (Hb Hc). lia.
  - apply Hn. exists c. rewrite elem_freed. auto.
Qed.

(** Coalescing the end of a chain leaves its front alone. *)
Lemma coarser_front m p0 xs p ys z m' ys' :
  chain m p0 xs p -> chain m p ys z -> chain m' p ys' z -> coarser m ys m' ys' ->
  chain m' p0 (xs ++ ys') z /\ coarser m (xs ++ ys) m' (xs ++ ys').
Proof.
  intros Cx Cy Cy' K. split; [|by apply coarser_app]. apply blocks_app. exists p. split; [|done].
  apply (blocks_agree m); [done|]. intros b Hb. apply (co_calm _ _ _ _ K). intros c [_ Hc]%elem_freed.
  apply (blocks_in _ _ _ _ _ Cx) in Hb. apply (blocks_in _ _ _ _ _ Cy) in Hc. lia.
Qed.

(** A block that does not serve is left behind. *)
Lemma pass_step fuel base nw temp m m1 p b bs0 bs z :
  search (S fuel) base nw temp p m = search fuel base nw temp (stop b) m1 ->
  chain m1 p (b :: bs) z -> (length bs < length bs0)%nat ->
  (sort b = Free -> stop b - start b < nw) -> coarser m bs0 m1 (b :: bs) ->
  pass_found fuel base nw temp m1 (stop b) bs z \/ pass_end fuel base nw temp m1 (stop b) bs z ->
  pass_found (S fuel) base nw temp m p bs0 z \/ pass_end (S fuel) base nw temp m p bs0 z.
Proof.
  intros E (Eb & Lb & Em & H) L Hb K P.
  assert (forall m' ys', chain m' (stop b) ys' z -> coarser m1 bs m' ys' ->
    chain m' p (b :: ys') z /\ coarser m bs0 m' (b :: ys')) as Front.
  { intros m' ys' C1 K1. destruct (coarser_front m1 p [b] (stop b) bs z m' ys') as [C2 K2]; [by simpl|done..|].
    split; [done|]. by eapply coarser_trans. }
  destruct P as [(c & m' & ys' & E1 & Hc & Hw & C1 & K1) | (fuel' & m' & ys' & E1 & L1 & F1 & N1 & C1 & K1)].
  - left. exists c, m', (b :: ys'). destruct (Front m' ys') as [? ?]; [done..|]. rewrite E.
    split; [done|]. split; [|auto]. apply elem_freed in Hc as [? ?]. apply elem_freed. split; [done|by right].
  - right. exists fuel', m', (b :: ys'). destruct (Front m' ys') as [? ?]; [done..|]. rewrite E.
    split; [done|]. split; [simpl; lia|]. split; [lia|]. split; [by apply not_fits_cons|auto].
Qed.

Lemma search_pass fuel base nw temp m p ys z :
  chain m p ys z -> testbusy (m z) = true -> 0 <= p -> z < NWORDS -> 0 <= nw -> (length ys < fuel)%nat ->
  pass_found fuel base nw temp m p ys z \/ pass_end fuel base nw temp m p ys z.
Proof.
  revert m p ys. induction fuel as [|fuel IH]; intros m p ys H Tz Hp Hz Hw Hf; [lia|].
  destruct ys as [|b ys].
  { right. exists (S fuel), m, []. simpl in H. subst p. rewrite Nat.sub_0_r. split; [done|]. split; [done|].
    split; [done|]. split; [by intros (b & []%not_elem_of_nil & _)|]. split; [done|apply coarser_refl]. }
  simpl in Hf. destruct (decide (sort b = Free)) as [Kf|Kf].
  - destruct b as [p1 k q]. simpl in Kf. subst k. pose proof H as (E & Lb & Em & H1). simpl in E, Lb, Em, H1. subst p1.
    destruct (coalesce_ok fuel m p q ys z) as (q' & m' & ys' & Ec & Cc & Lc & Kc); [done..|lia|].
    pose proof Cc as (_ & Lq & Em' & Cq). simpl in Lq, Em', Cq. pose proof (blocks_le _ _ _ _ H1).
    pose proof (blocks_le _ _ _ _ Cq).
    destruct (Z.leb_spec (p + nw) q') as [Hfit|Hfit].
    + left. exists (Blk p Free q'), m', (Blk p Free q' :: ys'). split.
      { simpl. rewrite Em, testbusy_idle, Ec by lia. cbn [negb andb].
        replace (p + nw <=? q') with true by lia. by replace (p <=? p + nw) with true by lia. }
      split; [by left|]. simpl. split; [lia|]. by split.
    + apply (pass_step _ _ _ _ _ m' _ (Blk p Free q') _ ys'); [|done|simpl; lia|simpl; lia|done|].
      { simpl. rewrite Em, testbusy_idle, Ec by lia. cbn [negb andb]. replace (p + nw <=? q') with false by lia.
        cbn [andb]. rewrite Em', clearbusy_idle by lia. by replace (q' <=? p) with false by lia. }
      apply IH; [done| |simpl; lia..]. rewrite (co_calm _ _ _ _ Kc); [done|].
      intros c [_ Hc]%elem_freed. apply (blocks_in _ _ _ _ _ H) in Hc. lia.
  - apply (pass_step _ _ _ _ _ m _ b _ ys); [by eapply search_used|done|simpl; lia|done|apply coarser_refl|].
    destruct H as (E & Lb & _ & H). apply IH; [done..|lia|done|done|lia].
Qed.
