(* ===== verification/Aspec.v ===== *)
(** * What [malloc], [free] and [realloc] do to the arena

    [inv h bs z]: the arena of [h] is the ring of the blocks [bs] with [z] its last header, and
    the search pointer is one of its headers. *)

From Stdlib Require Import ZifyBool.
From S2P Require Import Prelude Heap Arena.

Section Spec.
Context (alloca end_ : Z) (grant : Z -> bool).
Hypothesis Hends : 0 < alloca < end_ /\ end_ < NWORDS.

Notation sbrk := (sbrk end_ grant).
Notation more := (more end_ grant).
Notation ialloc := (ialloc alloca).
Notation grow := (grow alloca end_ grant).
Notation malloc_loop := (malloc_loop alloca end_ grant).
Notation malloc := (malloc alloca end_ grant).
Notation realloc := (realloc alloca end_ grant).

Definition on_ring (bs : list block) (z p : Z) : Prop := p = z \/ exists b, b ∈ bs /\ start b = p.

Record inv (h : heap) (bs : list block) (z : Z) : Prop := {
  in_chain : chain (mem h) alloca bs z;
  in_last : mem h z = setbusy alloca;
  in_base : allocb h = alloca;
  in_ptr : on_ring bs z (allocp h);
  in_brk : end_ <= curbrk h < NWORDS;
  in_top : z < curbrk h
}.

(** Before the first request the sentinel is 0 and the break is perhaps not yet asked for. *)
Record untouched (h : heap) : Prop := {
  un_mem : mem h alloca = 0;
  un_base : allocb h = alloca;
  un_ptr : allocp h = alloca;
  un_brk : curbrk h = 0 \/ end_ <= curbrk h < NWORDS
}.

Definition arena (h : heap) (bs : list block) (z : Z) : Prop :=
  inv h bs z \/ untouched h /\ bs = [] /\ z = alloca.

(** ** The break *)

Definition brk_of (h : heap) : Z := if curbrk h =? 0 then end_ else curbrk h.

Lemma seed_eq h : (if curbrk h =? 0 then set_curbrk end_ h else h) = set_curbrk (brk_of h) h.
Proof. unfold brk_of. destruct (curbrk h =? 0); [done|]. by destruct h. Qed.

Lemma words_exact n : 0 <= n -> words (n * WORD) = n.
Proof.
  intros Hn. unfold words, WORD. replace (n * 6 <? 0) with false by lia.
  rewrite Z.quot_div_nonneg by lia. symmetry. apply Z.div_unique with 5; lia.
Qed.

Lemma brk_of_range h bs z : arena h bs z -> end_ <= brk_of h < NWORDS /\ z < brk_of h.
Proof.
  unfold brk_of. intros [[] | [[] [-> ->]]]; destruct (Z.eqb_spec (curbrk h) 0); lia.
Qed.

Lemma sbrk_0 h : end_ <= brk_of h < NWORDS -> exists p, sbrk 0 h = (p, set_curbrk (brk_of h) h) /\ 0 <= p.
Proof.
  intros Hb. unfold Heap.sbrk. rewrite seed_eq. cbn [curbrk set_curbrk]. change (words 0) with 0.
  rewrite Z.add_0_r, Z.mod_small by lia. cbn. destruct (grant (brk_of h)); eexists; (split; [done|]); simpl; lia.
Qed.

Definition granted (new : Z) : Prop := new < NWORDS /\ grant new = true.

(** Growth either fails or moves the break by the words asked for, in one address space. *)
Lemma sbrk_grow h temp : end_ <= brk_of h < NWORDS -> 0 < temp <= NWORDS ->
  (sbrk (temp * WORD) h = (0, set_curbrk (brk_of h) h) /\ ~ granted (brk_of h + temp)) \/
  (sbrk (temp * WORD) h = (brk_of h, set_curbrk (brk_of h + temp) h) /\ brk_of h + temp < NWORDS).
Proof.
  intros Hb Ht. unfold Heap.sbrk. rewrite seed_eq. cbn [curbrk set_curbrk]. rewrite words_exact by lia.
  replace (0 <? temp * WORD) with true by (unfold WORD; lia). cbn [andb]. destruct (Z.ltb_spec (brk_of h + temp) NWORDS) as [Hs|Hs].
  - rewrite Z.mod_small by lia. replace (brk_of h + temp <=? brk_of h) with false by lia.
    unfold granted. destruct (grant (brk_of h + temp)); [by right|left]. split; [done|]. by intros [_ ?].
  - left. split; [|intros [? _]; lia]. replace ((brk_of h + temp) mod NWORDS) with (brk_of h + temp - NWORDS).
    + by replace (brk_of h + temp - NWORDS <=? brk_of h) with true by lia.
    + apply Z.mod_unique with 1; unfold NWORDS in *; lia.
Qed.

(** ** A new piece at the end of the arena *)

Lemma place_end fuel m bs z q r p :
  chain m p bs z -> alloca <= p -> z < q <= r -> r < NWORDS -> clearbusy (m z) = alloca -> (length bs < fuel)%nat ->
  place fuel m alloca q r p = Some (z, alloca).
Proof.
  revert p bs. induction fuel as [|fuel IH]; intros p bs H Hp Hq Hr Hz Hf; [lia|]. simpl.
  destruct bs as [|b bs]; simpl in H, Hf.
  - subst p. rewrite Hz, Z.eqb_refl. done.
  - destruct H as (_ & L & E & H). pose proof (blocks_le _ _ _ _ H). rewrite E.
    replace (clearbusy (mark (sort b) (stop b))) with (stop b)
      by (destruct (sort b); simpl; rewrite ?clearbusy_setbusy, ?clearbusy_idle by lia; done).
    replace (stop b =? alloca) with false by lia. replace (r <? stop b) with false by lia. cbn [andb].
    apply (IH _ bs); [done|lia..].
Qed.

Definition gap (z q : Z) : block := Blk z (if q =? z + 1 then Free else Fixed) q.

(** The arena, or the sentinel that becomes one. *)
Lemma ialloc_end fuel q temp h bs z :
  chain (mem h) alloca bs z -> (mem h z = setbusy alloca \/ mem h alloca = 0 /\ bs = []) -> allocb h = alloca ->
  z < q -> 2 <= temp -> q + temp < NWORDS -> (length bs < fuel)%nat ->
  let r := q + temp - 1 in
  exists h', ialloc fuel q (temp * WORD) h = Some h' /\
    chain (mem h') alloca (bs ++ [gap z q; Blk q Free r]) r /\ mem h' r = setbusy alloca /\
    (forall a, a <> z -> a < q -> mem h' a = mem h a) /\
    allocb h' = alloca /\ allocx h' = allocx h /\ curbrk h' = curbrk h.
Proof.
  intros C Hz Hb Hq Ht Hr Hf r. unfold Heap.ialloc. rewrite Z.quot_mul by done. fold r.
  assert (r = q + temp - 1) as Er by done. clearbody r.
  pose proof (blocks_le _ _ _ _ C) as Haz.
  set (h1 := if mem (link q r h) alloca =? 0 then link alloca alloca (link q r h) else link q r h).
  assert (chain (mem h1) alloca bs z /\ clearbusy (mem h1 z) = alloca /\ mem h1 q = r /\ allocb h1 = alloca /\
    allocx h1 = allocx h /\ curbrk h1 = curbrk h /\ forall a, a <> z -> a < q -> mem h1 a = mem h a)
    as (C1 & Z1 & Q1 & B1 & X1 & K1 & M1).
  { unfold h1. cbn [link set_mem mem]. rewrite poke_other by lia. destruct Hz as [Hz | [Hz ->]].
    - destruct (Z.eqb_spec (mem h alloca) 0) as [E|_].
      + destruct bs as [|b bs]; [simpl in C; subst z; by rewrite Hz in E; apply setbusy_neq_0 in E|].
        destruct C as (_ & L & Em & _). rewrite E in Em. destruct (sort b); simpl in Em; [lia|symmetry in Em; by apply setbusy_neq_0 in Em..].
      + cbn. rewrite poke_same, poke_other, Hz by lia. split; [apply blocks_poke; [done|lia]|].
        rewrite clearbusy_setbusy by lia. split_and!; try done. intros a _ ?. by rewrite poke_other by lia.
    - simpl in C. subst z. rewrite Hz. cbn. rewrite poke_same, (poke_other _ _ _ q), poke_same, clearbusy_idle by lia.
      split_and!; try done. intros a ? ?. by rewrite !poke_other by lia. }
  clearbody h1. rewrite B1, (place_end _ _ bs z) by (done || lia).
  replace (alloca =? r + 1) with false by lia. cbn [link set_mem mem allocb]. rewrite B1.
  replace (q <? alloca) with false by lia. eexists. split; [done|]. cbn. split.
  - apply blocks_app. exists z. split.
    + do 2 (apply blocks_poke; [|lia]). done.
    + simpl. rewrite poke_other, poke_same by lia. rewrite !poke_other, Q1 by lia. split_and!; try (done || lia). by destruct (q =? z + 1).
  - rewrite poke_same. split_and!; try done. intros a ? ?. rewrite !poke_other by lia. by apply M1.
Qed.

Lemma more_once fuel nw temp h : temp - FRAG <= nw ->
  more (S fuel) nw temp h =
    let (q, h) := sbrk (temp * WORD) h in Some (if q =? 0 then None else Some (q, temp), h).
Proof.
  intros Ht. simpl. destruct (sbrk (temp * WORD) h) as [q h1]. destruct (q =? 0); [|done]. cbn [negb].
  by replace (temp - FRAG <=? nw) with true by lia.
Qed.

Definition chunk (nw : Z) : Z := Z.quot (nw + BLOCK) BLOCK * BLOCK.

Lemma chunk_range nw : 1 <= nw < NWORDS -> nw < chunk nw <= nw + 1024 /\ chunk nw <= NWORDS.
Proof.
  intros Hw. unfold chunk, BLOCK, PAGE, NWORDS in *. rewrite Z.quot_div_nonneg by lia.
  pose proof (Z.div_mod (nw + 1024) 1024). pose proof (Z.mod_pos_bound (nw + 1024) 1024). lia.
Qed.

(** The break is refused, or the arena is longer by an idle block of [nw] words or more. *)
Lemma grow_ok fuel nw h bs z :
  chain (mem h) alloca bs z -> (mem h z = setbusy alloca \/ mem h alloca = 0 /\ bs = []) -> allocb h = alloca ->
  end_ <= brk_of h < NWORDS -> z < brk_of h -> 1 <= nw < NWORDS -> (length bs < fuel)%nat ->
  (grow fuel nw h = Some (false, set_curbrk (brk_of h) h) /\ ~ granted (brk_of h + chunk nw)) \/
  exists h' r, grow fuel nw h = Some (true, h') /\ let q := brk_of h in nw <= r - q /\
    inv h' (bs ++ [gap z q; Blk q Free r]) r /\ allocp h' = alloca /\ allocx h' = allocx h /\
    (forall a, a <> z -> a < q -> mem h' a = mem h a).
Proof.
  intros C Hz Hb Hk Ht Hw Hf. pose proof (chunk_range nw Hw) as Hc. unfold Heap.grow. fold (chunk nw).
  destruct (sbrk_0 h Hk) as (p & -> & Hp). replace (p + chunk nw <=? p) with false by lia.
  destruct fuel as [|fuel]; [lia|]. rewrite more_once by (unfold FRAG, PAGE; lia).
  set (h0 := set_curbrk (brk_of h) h).
  assert (brk_of h0 = brk_of h) as E0 by (unfold h0, brk_of at 1; cbn; by replace (brk_of h =? 0) with false by lia).
  destruct (sbrk_grow h0 (chunk nw)) as [[-> Hg] | [-> Hr]]; [rewrite E0; lia|lia|rewrite E0 in *; by left|]. right.
  rewrite E0 in *. replace (brk_of h =? 0) with false by lia. 
  change (set_curbrk (brk_of h + chunk nw) h0) with (set_curbrk (brk_of h + chunk nw) h).
  destruct (ialloc_end (S fuel) (brk_of h) (chunk nw) (set_curbrk (brk_of h + chunk nw) h) bs z)
    as (h' & E & C' & L' & M' & B' & X' & K'); [done..|lia|lia|lia|lia|].
  rewrite E. exists (set_allocp (allocb h') h'), (brk_of h + chunk nw - 1).
  split; [done|]. cbn [set_allocp mem allocb allocp allocx curbrk]. rewrite B', X'. split; [lia|]. split; [|by split_and!].
  split; cbn [set_allocp mem allocb allocp allocx curbrk]; [done..| |rewrite K'; cbn; lia|rewrite K'; cbn; lia].
  right. destruct bs as [|b bs].
  - exists (gap z (brk_of h)). split; [by left|]. simpl in C. by symmetry.
  - exists b. split; [by left|]. by destruct C.
Qed.

(** ** The search of the ring *)

Lemma on_ring_split m bs z p : chain m alloca bs z -> on_ring bs z p ->
  exists xs ys, bs = xs ++ ys /\ chain m alloca xs p /\ chain m p ys z.
Proof.
  intros C [-> | (b & (xs & ys & ->)%list_elem_of_split & <-)].
  - exists bs, []. rewrite app_nil_r. by split_and!.
  - apply blocks_app in C as (q & C1 & C2). pose proof C2 as (-> & _). by exists xs, (b :: ys).
Qed.

Lemma search_last fuel nw temp m z : m z = setbusy alloca -> alloca <= z ->
  search (S fuel) alloca nw temp z m = if 1 <? temp + 1 then Some (Full m) else search fuel alloca nw (temp + 1) alloca m.
Proof.
  intros E Hz. simpl. rewrite E, testbusy_setbusy. cbn [negb andb]. rewrite E, clearbusy_setbusy by lia.
  replace (alloca <=? z) with true by lia. by rewrite Z.eqb_refl.
Qed.

(** Coalescing does not touch the last header. *)
Lemma coarser_last m p bs z m' bs' : chain m p bs z -> coarser m bs m' bs' -> m' z = m z.
Proof. intros C K. apply (co_calm _ _ _ _ K). intros b [_ Hb]%elem_freed. apply (blocks_in _ _ _ _ _ C) in Hb. lia. Qed.

(** The search finds a block in the ring with its idle neighbours joined, or there is none. *)
Definition searched nw m bs z m' bs' (o : option outcome) : Prop :=
  chain m' alloca bs' z /\ coarser m bs m' bs' /\
  ((exists b, o = Some (Found (start b) (stop b) m') /\ b ∈ freed bs' /\ nw <= stop b - start b)
   \/ o = Some (Full m') /\ ~ fits nw bs' /\ (length bs' <= length bs)%nat).

Lemma search_again fuel nw m bs z :
  chain m alloca bs z -> m z = setbusy alloca -> z < NWORDS -> 0 <= nw -> (length bs < fuel)%nat ->
  exists m' bs', searched nw m bs z m' bs' (search fuel alloca nw 1 alloca m).
Proof.
  intros C E Hz Hw Hf.
  destruct (search_pass fuel alloca nw 1 m alloca bs z) as [(b & m' & bs' & Es & Hb & Hn & C' & K) |
    (fuel' & m' & bs' & Es & L & F & N & C' & K)]; [done|by rewrite E, testbusy_setbusy|lia..| |].
  - exists m', bs'. split; [done|]. split; [done|]. left. by exists b.
  - exists m', bs'. split; [done|]. split; [done|]. right. split; [|by split]. rewrite Es.
    pose proof (blocks_le _ _ _ _ C). destruct fuel' as [|fuel']; [lia|].
    rewrite search_last; [done|by rewrite (coarser_last _ _ _ _ _ _ C K)|lia].
Qed.

Lemma search_ring fuel nw m bs z p :
  chain m alloca bs z -> m z = setbusy alloca -> on_ring bs z p -> z < NWORDS -> 0 <= nw ->
  (2 * length bs + 1 < fuel)%nat ->
  exists m' bs', searched nw m bs z m' bs' (search fuel alloca nw 0 p m).
Proof.
  intros C E Hp Hz Hw Hf. destruct (on_ring_split _ _ _ _ C Hp) as (xs & ys & -> & Cx & Cy).
  rewrite length_app in Hf. pose proof (blocks_le _ _ _ _ Cx). pose proof (blocks_le _ _ _ _ Cy).
  destruct (search_pass fuel alloca nw 0 m p ys z) as [(b & m' & ys' & Es & Hb & Hn & C' & K) |
    (fuel' & m' & ys' & Es & L & F & N & C' & K)]; [done|by rewrite E, testbusy_setbusy|lia..| |];
    destruct (coarser_front _ _ _ _ _ _ _ _ Cx Cy C' K) as [C2 K2].
  - exists m', (xs ++ ys'). split; [done|]. split; [done|]. left. exists b. split; [done|]. split; [|done].
    rewrite freed_app. apply elem_of_app. by right.
  - assert (m' z = setbusy alloca) as E' by (by rewrite (coarser_last _ _ _ _ _ _ Cy K)).
    destruct fuel' as [|fuel']; [lia|]. destruct (search_again fuel' nw m' (xs ++ ys') z) as (m2 & bs2 & C3 & K3 & R);
      [done..|rewrite length_app; lia|].
    exists m2, bs2. rewrite Es, search_last by (done || lia). split; [done|]. split; [by eapply coarser_trans|].
    destruct R as [R | (R & N2 & L2)]; [by left|right]. split; [done|]. split; [done|]. rewrite length_app in *. lia.
Qed.

(** ** The arena as the search and the growth leave it

    [m], [bs'] against the memory [m0] and the blocks [bs] at the call; [z0] was the last
    header and [top] the break. *)
Record evolved (m0 : Z -> Z) (bs : list block) (z0 top : Z) (m : Z -> Z) (bs' : list block) : Prop := {
  ev_used : used bs' = used bs;
  ev_cover : forall b, b ∈ freed bs -> exists b', b' ∈ freed bs' /\ start b' <= start b /\ stop b <= stop b';
  ev_head : forall b', b' ∈ freed bs' -> (exists b, b ∈ freed bs /\ start b = start b') \/ start b' = z0 \/ top <= start b';
  ev_keep : forall a, a < top -> a <> z0 -> (forall b, b ∈ freed bs -> a <> start b) -> m a = m0 a
}.

Lemma evolved_refl m bs z0 top : evolved m bs z0 top m bs.
Proof. split; [done|intros b ?; exists b; auto with lia|eauto|done]. Qed.

Lemma evolved_coarser m0 bs z0 top m1 b1 m2 b2 :
  evolved m0 bs z0 top m1 b1 -> coarser m1 b1 m2 b2 -> evolved m0 bs z0 top m2 b2.
Proof.
  intros [U1 C1 H1 A1] [U2 C2 H2 A2]. split.
  - by rewrite U2.
  - intros b (c & Hc & ? & ?)%C1. apply C2 in Hc as (d & Hd & ? & ?). exists d. split; [done|lia].
  - intros d (c & Hc & E)%H2. rewrite <- E. by apply H1.
  - intros a Ht Hz Ha. rewrite A2, A1; [done..|]. intros c [(b & Hb & <-) | [-> | ?]]%H1; [auto|done|lia].
Qed.

Lemma evolved_grow m0 bs z0 top m1 b1 m2 r :
  evolved m0 bs z0 top m1 b1 -> (forall a, a <> z0 -> a < top -> m2 a = m1 a) ->
  evolved m0 bs z0 top m2 (b1 ++ [gap z0 top; Blk top Free r]).
Proof.
  intros [U C H A] M. split.
  - rewrite used_app, U. unfold gap. destruct (top =? z0 + 1); apply app_nil_r.
  - intros b (c & Hc & ?)%C. exists c. rewrite freed_app, elem_of_app. auto.
  - intros b. rewrite freed_app, elem_of_app. intros [? | Hb]; [auto|]. right. apply elem_freed in Hb as [_ Hb].
    apply elem_of_cons in Hb as [-> | [-> | []%not_elem_of_nil]%elem_of_cons]; simpl; lia.
  - intros a ? ? ?. rewrite M by done. auto.
Qed.

(** ** The block found *)

Lemma take_ok h bs z b nw :
  chain (mem h) alloca bs z -> mem h z = setbusy alloca -> allocb h = alloca -> end_ <= curbrk h < NWORDS -> z < curbrk h ->
  b ∈ freed bs -> 1 <= nw <= stop b - start b ->
  let e := start b + nw in
  exists h' bs', take_block (start b) (stop b) nw h = (start b + 1, h') /\ inv h' bs' z /\
    used bs' ≡ₚ Blk (start b) Used e :: used bs /\
    (forall a, a <> start b -> a <> e -> mem h' a = mem h a) /\ (e < stop b -> allocx h' = mem h e).
Proof.
  intros C Hz Hb Hk Ht [Kb (xs & ys & ->)%list_elem_of_split]%elem_freed Hw e.
  destruct b as [s k t]. simpl in *. subst k.
  assert (forall bs1, used (xs ++ Blk s Used e :: bs1) ≡ₚ Blk s Used e :: used (xs ++ bs1)) as Pu.
  { intros bs1. rewrite !used_app. symmetry. apply Permutation_middle. }
  apply blocks_app in C as (q & Cx & (Es & L & Em & Cy)). simpl in Es, L, Em, Cy. subst q.
  pose proof (blocks_le _ _ _ _ Cx). pose proof (blocks_le _ _ _ _ Cy). unfold take_block. cbn [set_allocp allocp]. fold e.
  destruct (Z.ltb_spec e t) as [Hs|Hs]; cbn [link set_mem set_allocx mem allocp allocb allocx curbrk].
  - eexists _, (xs ++ Blk s Used e :: Blk e Free t :: ys). split; [done|]. split; [|split; [|split]].
    + split; cbn; try done.
      * apply blocks_app. exists s. split; [do 2 (apply blocks_poke; [|lia]); done|]. simpl.
        rewrite poke_same, poke_other, poke_same by lia. split_and!; try (done || lia).
        do 2 (apply blocks_poke; [|lia]). done.
      * rewrite !poke_other by lia. done.
      * right. exists (Blk e Free t). split; [|done]. set_solver.
    + rewrite Pu. by rewrite !used_app.
    + intros a ? ?. cbn. by rewrite !poke_other.
    + done.
  - assert (e = t) as Et by lia. eexists _, (xs ++ Blk s Used e :: ys). split; [done|]. split; [|split; [|split]].
    + split; cbn; try done.
      * apply blocks_app. exists s. split; [apply blocks_poke; [done|lia]|]. simpl. rewrite poke_same.
        split_and!; try (done || lia). rewrite Et. apply blocks_poke; [done|lia].
      * rewrite !poke_other by lia. done.
      * destruct ys as [|c ys]; [left; simpl in Cy; congruence|right]. exists c. split; [set_solver|].
        destruct Cy as [-> _]. congruence.
    + rewrite Pu. by rewrite !used_app.
    + intros a ? ?. cbn. by rewrite !poke_other.
    + intros ?. lia.
Qed.

(** ** [malloc] *)

(** Header and payload, in words. *)
Definition units (nbytes : Z) : Z := Z.quot (nbytes + WORD + WORD - 1) WORD.

(** The block [v] of [nw] words, header included, was allocated in the arena of [h]. *)
Record allocated (h : heap) (bs : list block) (z v nw : Z) (h' : heap) (bs' : list block) : Prop := {
  al_new : used bs' ≡ₚ Blk (v - 1) Used (v - 1 + nw) :: used bs;
  al_keep : forall a, a < brk_of h -> a <> z -> (forall b, b ∈ freed bs -> a <> start b) -> a <> v - 1 + nw ->
    mem h' a = mem h a;
  al_side : forall b, b ∈ freed bs -> v - 1 <= start b \/ stop b <= v - 1;
  al_split : forall b, b ∈ freed bs -> start b < v - 1 + nw < stop b -> allocx h' = mem h (v - 1 + nw)
}.

Lemma blocks_freed_start m p bs z b c a :
  chain m p bs z -> b ∈ freed bs -> c ∈ freed bs -> start b < a < stop b -> a <> start c.
Proof.
  intros C [_ Hb]%elem_freed [_ Hc]%elem_freed Ha ->. pose proof (blocks_in _ _ _ _ _ C Hc).
  destruct (blocks_apart _ _ _ _ _ _ C Hb Hc) as [-> | ?]; lia.
Qed.

Lemma take_allocated h bs z h1 b1 z1 b nw :
  chain (mem h) alloca bs z -> z < brk_of h -> evolved (mem h) bs z (brk_of h) (mem h1) b1 ->
  chain (mem h1) alloca b1 z1 -> mem h1 z1 = setbusy alloca -> allocb h1 = alloca ->
  end_ <= curbrk h1 < NWORDS -> z1 < curbrk h1 -> b ∈ freed b1 -> 1 <= nw <= stop b - start b ->
  exists v h' bs', take_block (start b) (stop b) nw h1 = (v, h') /\ v <> 0 /\ inv h' bs' z1 /\ allocated h bs z v nw h' bs'.
Proof.
  intros C0 Hz0 V C Hz Hb Hk Ht Hin Hw. pose proof Hin as [_ Hin']%elem_freed.
  pose proof (blocks_in _ _ _ _ _ C Hin') as (Hs & Hst & _).
  destruct (take_ok h1 b1 z1 b nw) as (h' & bs' & E & I & U & M & X); [done..|].
  exists (start b + 1), h', bs'. split; [done|]. split; [lia|]. split; [done|].
  replace (start b + 1 - 1 + nw) with (start b + nw) by lia.
  split; replace (start b + 1 - 1) with (start b) by lia.
  - by rewrite U, (ev_used _ _ _ _ _ _ V).
  - intros a Ha Hz' Hf He. rewrite M; [by apply (ev_keep _ _ _ _ _ _ V)| |done].
    intros ->. destruct (ev_head _ _ _ _ _ _ V b Hin) as [(c & Hc & Ec) | [? | ?]]; [by apply (Hf c)|done|lia].
  - intros c (d & Hd & ? & ?)%(ev_cover _ _ _ _ _ _ V). apply elem_freed in Hd as [_ Hd].
    destruct (blocks_apart _ _ _ _ _ _ C Hin' Hd) as [<- | ?]; lia.
  - intros c Hc He. pose proof Hc as (d & Hd & ? & ?)%(ev_cover _ _ _ _ _ _ V). apply elem_freed in Hd as [_ Hd].
    pose proof (blocks_in _ _ _ _ _ C0 (proj2 (proj1 (elem_freed _ _) Hc))).
    destruct (blocks_apart _ _ _ _ _ _ C Hin' Hd) as [<- | ?]; [|lia]. rewrite X by lia.
    apply (ev_keep _ _ _ _ _ _ V); [lia..|]. intros b2 Hb2. by apply (blocks_freed_start _ _ _ _ c _ _ C0).
Qed.

Lemma sentinel_set h bs z : inv h bs z -> mem h alloca <> 0.
Proof.
  intros [C Hz _ _ _ _]. destruct bs as [|b bs]; [simpl in C; subst z; rewrite Hz; apply setbusy_neq_0|].
  destruct C as (_ & ? & -> & _). destruct (sort b); [simpl; lia|apply setbusy_neq_0..].
Qed.

Definition regrow (n fuel : nat) (nw : Z) (h : heap) : option (Z * heap) :=
  match grow fuel nw h with
  | None => None
  | Some (false, h) => Some (0, h)
  | Some (true, h) => malloc_loop n fuel nw h
  end.

Definition served (h : heap) (bs : list block) (z nw : Z) (o : option (Z * heap)) : Prop :=
  exists v h' bs' z', o = Some (v, h') /\ v <> 0 /\ inv h' bs' z' /\ allocated h bs z v nw h' bs'.

(** A turn in the ring [b1] finds a block, or the arena has to grow. *)
Lemma malloc_turn n fuel nw h bs z h1 b1 r :
  chain (mem h) alloca bs z -> z < brk_of h -> evolved (mem h) bs z (brk_of h) (mem h1) b1 -> inv h1 b1 r ->
  1 <= nw -> (2 * length b1 + 1 < fuel)%nat ->
  served h bs z nw (malloc_loop (S n) fuel nw h1) \/
  exists m b2, malloc_loop (S n) fuel nw h1 = regrow n fuel nw (set_mem m h1) /\ chain m alloca b2 r /\
    m r = setbusy alloca /\ coarser (mem h1) b1 m b2 /\ (length b2 <= length b1)%nat /\ ~ fits nw b2.
Proof.
  intros C0 Hz0 V I Hw Hf. pose proof I as [C Hz Hb Hp Hk Ht]. simpl.
  destruct (search_ring fuel nw (mem h1) b1 r (allocp h1)) as (m & b2 & C2 & K & R); [done..|lia|lia|done|].
  pose proof (sentinel_set _ _ _ I) as N. replace (mem h1 alloca =? 0) with false by lia. rewrite Hb.
  assert (m r = setbusy alloca) as Er by (by rewrite (coarser_last _ _ _ _ _ _ C K)).
  destruct R as [(b & -> & Hbin & Hbw) | (-> & Nf & L)]; [left|right].
  - destruct (take_allocated h bs z (set_mem m h1) b2 r b nw) as (v & h' & bs' & -> & ? & ? & ?);
      cbn [set_mem mem allocb curbrk]; try done.
    + by eapply evolved_coarser.
    + by exists v, h', bs', r.
  - exists m, b2. by split_and!.
Qed.

Lemma units_range nbytes : 0 <= nbytes -> units nbytes < NWORDS -> 1 <= units nbytes /\ nbytes < NWORDS * WORD.
Proof.
  unfold units, WORD, NWORDS. intros Hn. rewrite Z.quot_div_nonneg by lia.
  pose proof (Z.mod_pos_bound (nbytes + 6 + 6 - 1) 6). pose proof (Z.div_mod (nbytes + 6 + 6 - 1) 6). lia.
Qed.

(** Growth serves the request at the second turn, or the break was refused. *)
Lemma regrow_ok fuel nw h bs z m b1 :
  chain (mem h) alloca bs z -> end_ <= brk_of h < NWORDS -> z < brk_of h ->
  chain m alloca b1 z -> (m z = setbusy alloca \/ m alloca = 0 /\ b1 = []) -> allocb h = alloca ->
  evolved (mem h) bs z (brk_of h) m b1 -> 1 <= nw < NWORDS -> (2 * length b1 + 5 < fuel)%nat ->
  served h bs z nw (regrow 1 fuel nw (set_mem m h)) \/
  (exists h', regrow 1 fuel nw (set_mem m h) = Some (0, h')) /\ ~ granted (brk_of h + chunk nw).
Proof.
  intros C0 Hr Hz C Hm Hb V Hw Hf. unfold regrow.
  destruct (grow_ok fuel nw (set_mem m h) b1 z) as [[-> G] | (h1 & r & -> & Hq & I & _ & _ & M)]; try done; [lia|right|left].
  - split; [by eexists|done].
  - change (brk_of (set_mem m h)) with (brk_of h) in *. set (q := brk_of h) in *.
    destruct (malloc_turn 0 fuel nw h bs z h1 (b1 ++ [gap z q; Blk q Free r]) r) as [S | (m2 & b2 & _ & _ & _ & K & _ & N)];
      [done..|by apply (evolved_grow _ _ _ _ m)|done|lia|rewrite length_app; simpl; lia|done|].
    destruct N. destruct (co_cover _ _ _ _ K (Blk q Free r)) as (d & Hd & ? & ?); simpl in *.
    { rewrite freed_app. apply elem_of_app. right. apply elem_freed. split; [done|]. by right; left. }
    exists d. split; [done|lia].
Qed.

(** [malloc] returns.  It allocates a block in the arena, or the break cannot move as far as it needs. *)
Lemma malloc_arena fuel nbytes h bs z :
  arena h bs z -> 0 <= nbytes -> units nbytes < NWORDS -> (2 * length bs + 5 < fuel)%nat ->
  served h bs z (units nbytes) (malloc fuel nbytes h) \/
  (exists h', malloc fuel nbytes h = Some (0, h')) /\ ~ granted (brk_of h + chunk (units nbytes)).
Proof.
  intros A Hn Hu Hf. pose proof (brk_of_range _ _ _ A) as [Hr Hz]. destruct (units_range _ Hn Hu) as [Hw Hs].
  unfold Heap.malloc. replace (NWORDS * WORD <=? nbytes) with false by lia. fold (units nbytes).
  destruct A as [I | ([Hm Hb _ _] & -> & ->)].
  - destruct (malloc_turn 1 fuel (units nbytes) h bs z h bs z) as [S | (m & b1 & -> & C & E & K & L & _)];
      [apply I|done|apply evolved_refl|done|done|lia|by left|].
    apply (regrow_ok _ _ _ _ _ _ b1); try done; [apply I|by left|apply I| |lia].
    by eapply evolved_coarser; [apply evolved_refl|].
  - simpl malloc_loop. rewrite Hm. apply (regrow_ok _ _ _ _ _ (mem h) []); try done; [by right|apply evolved_refl].
Qed.

(** The new block is apart from those in use. *)
Lemma allocated_apart h bs z v nw h' bs' z' c :
  inv h' bs' z' -> allocated h bs z v nw h' bs' -> c ∈ used bs ->
  0 < nw /\ (stop c <= v - 1 \/ v - 1 + nw <= start c).
Proof.
  intros I' [U _ _ _] Hc. pose proof (in_chain _ _ _ I') as C. pose proof (blocks_NoDup _ _ _ _ C) as N.
  apply (NoDup_filter (fun b => sort b = Used)) in N. fold (used bs') in N. rewrite U in N. apply NoDup_cons in N as [N _].
  assert (c ∈ used bs') as [_ Hc']%elem_used by (rewrite U; by right).
  assert (Blk (v - 1) Used (v - 1 + nw) ∈ used bs') as [_ Hn]%elem_used by (rewrite U; by left).
  pose proof (blocks_in _ _ _ _ _ C Hn) as [L _]. simpl in L. split; [lia|].
  destruct (blocks_apart _ _ _ _ _ _ C Hc' Hn) as [-> | ?]; [done|auto].
Qed.

(** A block in use keeps its words. *)
Lemma allocated_payload h bs z v nw h' bs' z' c a :
  arena h bs z -> allocated h bs z v nw h' bs' -> inv h' bs' z' -> c ∈ used bs -> start c < a < stop c -> mem h' a = mem h a.
Proof.
  intros [I | (_ & -> & _)] A I' Hc Ha; [|by apply not_elem_of_nil in Hc]. pose proof I as [C _ _ _ Hk Ht].
  pose proof Hc as [Hcu Hci]%elem_used. pose proof (blocks_in _ _ _ _ _ C Hci).
  assert (curbrk h = brk_of h) as Ek by (unfold brk_of; destruct (Z.eqb_spec (curbrk h) 0); lia).
  apply (al_keep _ _ _ _ _ _ _ A); [lia|lia| |].
  - intros d [Hd Hdi]%elem_freed. pose proof (blocks_in _ _ _ _ _ C Hdi).
    destruct (blocks_apart _ _ _ _ _ _ C Hci Hdi) as [<- | ?]; [congruence|lia].
  - pose proof (allocated_apart _ _ _ _ _ _ _ _ _ I' A Hc). lia.
Qed.

(** ** [free] *)

Definition idle (b : block) : block := Blk (start b) Free (stop b).

Lemma free_arena h bs z b : inv h bs z -> b ∈ used bs ->
  exists bs', inv (free (start b + 1) h) bs' z /\ used bs ≡ₚ b :: used bs' /\ idle b ∈ freed bs' /\
    length bs' = length bs /\ (forall a, a <> start b -> mem (free (start b + 1) h) a = mem h a).
Proof.
  intros [C Hz Hb Hp Hk Ht] [Kb (xs & ys & ->)%list_elem_of_split]%elem_used.
  exists (xs ++ idle b :: ys). unfold free.
  pose proof C as C'. apply blocks_app in C' as (q & Cx & (Es & L & Em & Cy)). subst q. rewrite Kb in Em. simpl in Em.
  pose proof (blocks_le _ _ _ _ Cx). pose proof (blocks_le _ _ _ _ Cy).
  replace (start b + 1 =? 0) with false by lia. replace (start b + 1 - 1) with (start b) by lia.
  cbn [set_allocp link set_mem mem]. rewrite Em, clearbusy_setbusy by lia. split; [split|]; cbn; try done.
  - apply blocks_app. exists (start b). split; [apply blocks_poke; [done|lia]|]. simpl. rewrite poke_same.
    split_and!; try done. apply blocks_poke; [done|lia].
  - rewrite poke_other by lia. done.
  - right. exists (idle b). split; [set_solver|done].
  - split; [|split; [|split]].
    + rewrite !used_app. unfold used at 2 4. rewrite filter_cons_True by done. symmetry. apply Permutation_middle.
    + apply elem_freed. split; [done|set_solver].
    + by rewrite !length_app.
    + intros a ?. by rewrite poke_other.
Qed.

(** ** Writes inside a block in use *)

Lemma inv_inside h bs z b h' : inv h bs z -> b ∈ used bs -> (forall a, ~ (start b < a < stop b) -> mem h' a = mem h a) ->
  allocb h' = allocb h -> allocp h' = allocp h -> curbrk h' = curbrk h -> inv h' bs z.
Proof.
  intros [C Hz Hb Hp Hk Ht] [_ Hin]%elem_used M Eb Ep Ek. pose proof (blocks_in _ _ _ _ _ C Hin).
  split; rewrite ?Eb, ?Ep, ?Ek; try done.
  - apply (blocks_agree (mem h)); [done|]. intros c Hc. apply M. pose proof (blocks_in _ _ _ _ _ C Hc).
    destruct (blocks_apart _ _ _ _ _ _ C Hin Hc) as [<- | ?]; lia.
  - rewrite M by lia. done.
Qed.

Lemma copy_words_ok n s t h : t < s \/ s + Z.of_nat n <= t ->
  let h' := copy_words n s t h in
  (forall i, 0 <= i < Z.of_nat n -> mem h' (t + i) = mem h (s + i)) /\
  (forall a, ~ (t <= a < t + Z.of_nat n) -> mem h' a = mem h a) /\
  allocb h' = allocb h /\ allocp h' = allocp h /\ allocx h' = allocx h /\ curbrk h' = curbrk h.
Proof.
  revert s t h. induction n as [|n IH]; intros s t h Hst; simpl.
  - split_and!; try done. intros. lia.
  - destruct (IH (s + 1) (t + 1) (link t (mem h s) h)) as (Hin & Hout & Hb & Hp & Hx & Hk); [lia|].
    cbn in Hin, Hout, Hb, Hp, Hx, Hk. split_and!; try done.
    + intros i Hi. destruct (Z.eq_dec i 0) as [-> |].
      * rewrite Hout, !Z.add_0_r by lia. apply poke_same.
      * replace (t + i) with (t + 1 + (i - 1)) by lia. rewrite Hin, poke_other by lia. f_equal. lia.
    + intros a Ha. rewrite Hout, poke_other by lia. done.
Qed.

(** ** [realloc] *)

Definition recopy (p q nw onw : Z) (h : heap) : heap :=
  let onw := if nw <? onw then nw else onw in
  let h := copy_words (Z.to_nat onw) p q h in
  if (q <? p) && (p <=? q + nw) then link (q + (q + nw - p)) (allocx h) h else h.

Lemma kept_word h bs z v nw h' bs' b a :
  inv h bs z -> allocated h bs z v nw h' bs' -> b ∈ freed bs -> start b < a < stop b -> a <> v - 1 + nw -> mem h' a = mem h a.
Proof.
  intros [C _ _ _ Hk Ht] [_ K _ _] Hb Ha Hn. pose proof (blocks_in _ _ _ _ _ C (proj2 (proj1 (elem_freed _ _) Hb))).
  assert (curbrk h = brk_of h) as Ek by (unfold brk_of; destruct (Z.eqb_spec (curbrk h) 0); lia).
  apply K; [lia|lia| |done]. intros c Hc. by apply (blocks_freed_start _ _ _ _ b _ _ C).
Qed.

(** The copy reads the old words, the one under the new header from [allocx]. *)
Lemma recopy_ok h bs z b v nw h' bs' z' :
  inv h bs z -> b ∈ freed bs -> allocated h bs z v nw h' bs' -> inv h' bs' z' -> 1 <= nw -> v <> start b + 1 ->
  let p := start b + 1 in
  let h2 := recopy p v (nw - 1) (stop b - p) h' in
  inv h2 bs' z' /\ (forall i, 0 <= i < Z.min (nw - 1) (stop b - p) -> mem h2 (v + i) = mem h (p + i)) /\
  (forall a, ~ (v - 1 < a < v - 1 + nw) -> mem h2 a = mem h' a).
Proof.
  intros I Hb A I' Hw Hv p h2. pose proof (al_side _ _ _ _ _ _ _ A b Hb) as Side.
  pose proof (blocks_in _ _ _ _ _ (in_chain _ _ _ I) (proj2 (proj1 (elem_freed _ _) Hb))) as (Hbs & _).
  assert (Blk (v - 1) Used (v - 1 + nw) ∈ used bs') as Hn by (rewrite (al_new _ _ _ _ _ _ _ A); by left).
  set (n := if nw - 1 <? stop b - p then nw - 1 else stop b - p).
  assert (n = Z.min (nw - 1) (stop b - p)) as En by (unfold n; destruct (Z.ltb_spec (nw - 1) (stop b - p)); lia).
  destruct (copy_words_ok (Z.to_nat n) p v h') as (Cin & Cout & Eb & Ep & Ex & Ek); [lia|].
  rewrite Z2Nat.id in Cin, Cout by lia.
  assert (h2 = let h3 := copy_words (Z.to_nat n) p v h' in
    if (v <? p) && (p <=? v + (nw - 1)) then link (v + (v + (nw - 1) - p)) (allocx h3) h3 else h3) as E2 by done.
  clearbody n h2. set (h3 := copy_words (Z.to_nat n) p v h') in *. clearbody h3. cbv zeta in E2.
  assert (forall a, ~ (v - 1 < a < v - 1 + nw) -> mem h2 a = mem h' a) as Out.
  { intros a Ha. subst h2. destruct (_ && _) eqn:T; [|apply Cout; lia]. cbn. rewrite poke_other by lia. apply Cout. lia. }
  assert (allocb h2 = allocb h' /\ allocp h2 = allocp h' /\ curbrk h2 = curbrk h') as (? & ? & ?)
    by (subst h2; destruct (_ && _); done).
  split; [by eapply inv_inside|]. split; [|done]. intros i Hi. subst h2.
  destruct (Z.eq_dec (p + i) (v - 1 + nw)) as [Ei|Ei].
  - replace ((v <? p) && (p <=? v + (nw - 1))) with true by lia. replace (v + (v + (nw - 1) - p)) with (v + i) by lia.
    cbn. rewrite poke_same, Ex, Ei. apply (al_split _ _ _ _ _ _ _ A b Hb). lia.
  - transitivity (mem h3 (v + i)).
    + destruct (_ && _); [|done]. cbn. by rewrite poke_other by lia.
    + rewrite Cin by lia. eapply kept_word; [done..|lia|done].
Qed.

Lemma units_pred nbytes : 0 <= nbytes -> Z.quot (nbytes + WORD - 1) WORD = units nbytes - 1.
Proof.
  intros Hn. unfold units, WORD. rewrite !Z.quot_div_nonneg by lia.
  replace (nbytes + 6 + 6 - 1) with (nbytes + 6 - 1 + 1 * 6) by lia. rewrite Z.div_add by lia. lia.
Qed.

(** The block [b] became the block [v] of [nw] words with the same contents. *)
Record moved (h : heap) (bs : list block) (b : block) (v nw : Z) (h' : heap) (bs' : list block) : Prop := {
  mv_used : exists us, used bs ≡ₚ b :: us /\ used bs' ≡ₚ Blk (v - 1) Used (v - 1 + nw) :: us;
  mv_words : forall i, 0 <= i < Z.min (nw - 1) (stop b - start b - 1) -> mem h' (v + i) = mem h (start b + 1 + i);
  mv_others : forall c a, c ∈ used bs -> c <> b -> start c < a < stop c -> mem h' a = mem h a
}.

Lemma realloc_arena fuel nbytes h bs z b :
  inv h bs z -> b ∈ used bs -> 0 <= nbytes -> units nbytes < NWORDS -> (2 * length bs + 5 < fuel)%nat ->
  (exists v h' bs' z', realloc fuel (start b + 1) nbytes h = Some (v, h') /\ v <> 0 /\ inv h' bs' z' /\
     moved h bs b v (units nbytes) h' bs') \/
  (exists h', realloc fuel (start b + 1) nbytes h = Some (0, h')).
Proof.
  intros I Hb Hn Hu Hf. pose proof Hb as [Kb Hin]%elem_used.
  pose proof (blocks_in _ _ _ _ _ (in_chain _ _ _ I) Hin) as (Hs & Hst & Em). rewrite Kb in Em. simpl in Em.
  destruct (units_range _ Hn Hu) as [Hw _]. destruct (free_arena h bs z b I Hb) as (b1 & I1 & U1 & F1 & L1 & M1).
  unfold Heap.realloc. replace (start b + 1 =? 0) with false by lia. replace (start b + 1 - 1) with (start b) by lia.
  rewrite Em, testbusy_setbusy. set (h1 := free (start b + 1) h) in *. clearbody h1.
  pose proof (blocks_in _ _ _ _ _ (in_chain _ _ _ I1) (proj2 (proj1 (elem_freed _ _) F1))) as (_ & _ & E1).
  simpl in E1. rewrite E1.
  destruct (malloc_arena fuel nbytes h1 b1 z) as [(v & h2 & b2 & z2 & -> & Hv & I2 & A) | [(h2 & ->) _]];
    [by left|done|done|lia| |right; by eexists].
  left. replace (v =? 0) with false by lia. rewrite units_pred by done.
  assert (forall h3, (forall a, ~ (v - 1 < a < v - 1 + units nbytes) -> mem h3 a = mem h2 a) ->
    (forall i, 0 <= i < Z.min (units nbytes - 1) (stop b - start b - 1) -> mem h3 (v + i) = mem h1 (start b + 1 + i)) ->
    moved h bs b v (units nbytes) h3 b2) as Mv.
  { intros h3 Out In. split.
    - exists (used b1). split; [done|apply A].
    - intros i Hi. rewrite In by done. apply M1. lia.
    - intros c a Hc Hne Ha. pose proof Hc as Hc1. rewrite U1 in Hc1. apply elem_of_cons in Hc1 as [-> | Hc1]; [done|].
      rewrite Out.
      + rewrite (allocated_payload _ _ _ _ _ _ _ _ _ _ (or_introl I1) A I2 Hc1 Ha). apply M1.
        apply elem_used in Hc as [_ Hc]. destruct (blocks_apart _ _ _ _ _ _ (in_chain _ _ _ I) Hin Hc) as [-> | ?]; [done|lia].
      + pose proof (allocated_apart _ _ _ _ _ _ _ _ _ I2 A Hc1). lia. }
  destruct (Z.eqb_spec v (start b + 1)) as [Ev|Ev].
  - exists (start b + 1), h2, b2, z2. rewrite <- Ev in *. split; [done|]. split; [done|]. split; [done|]. apply Mv; [done|].
    intros i Hi. eapply kept_word; [done..|simpl; lia|lia].
  - destruct (recopy_ok h1 b1 z (idle b) v (units nbytes) h2 b2 z2) as (I3 & In & Out); [done..|]. simpl in I3, In, Out.
    eexists v, _, b2, z2. split; [reflexivity|]. split; [done|]. split; [exact I3|]. apply Mv; [exact Out|].
    intros i Hi. apply In. lia.
Qed.
End Spec.

(** The wrap test of [sbrk] stops a request for up to one address space and no larger one: asked for
    the whole space and [k] words more, it moves the break by [k] words and reports success.
    [malloc] makes such a request for sizes its own test lets through. *)
Theorem sbrk_past_space end_ grant h k : 0 < end_ <= brk_of end_ h -> 0 < k -> granted grant (brk_of end_ h + k) ->
  sbrk end_ grant ((NWORDS + k) * WORD) h = (brk_of end_ h, set_curbrk (brk_of end_ h + k) h) /\
  (forall nbytes, NWORDS * WORD - 11 <= nbytes < NWORDS * WORD -> chunk (units nbytes) = NWORDS + PAGE).
Proof.
  intros He Hk [Hs G]. split.
  - unfold sbrk. rewrite seed_eq. cbn [curbrk set_curbrk]. rewrite words_exact by (unfold NWORDS in *; lia).
    replace ((brk_of end_ h + (NWORDS + k)) mod NWORDS) with (brk_of end_ h + k)
      by (apply Z.mod_unique with 1; unfold NWORDS in *; lia).
    replace (brk_of end_ h + k <=? brk_of end_ h) with false by lia. by rewrite andb_false_r, G.
  - unfold chunk, units, BLOCK, PAGE, NWORDS, WORD. intros nbytes Hn. 
    rewrite (Z.quot_div_nonneg (nbytes + 6 + 6 - 1)) by lia.
    pose proof (Z.mod_pos_bound (nbytes + 6 + 6 - 1) 6). pose proof (Z.div_mod (nbytes + 6 + 6 - 1) 6).
    set (u := (nbytes + 6 + 6 - 1) / 6) in *. assert (32768 <= u <= 32769) by lia.
    rewrite Z.quot_div_nonneg by lia. assert ((u + 1024) / 1024 = 33) as -> by (symmetry; apply Z.div_unique with (u - 32768); lia). lia.
Qed.

(** A break at word 200 of which the system allows 30000. *)
Lemma sbrk_past_space_witness :
  sbrk 200 (fun new => new <=? 30000) ((NWORDS + PAGE) * WORD) (Heap (fun _ => 0) 100 100 0 0) =
    (200, Heap (fun _ => 0) 100 100 0 1224) /\
  (forall nbytes, NWORDS * WORD - 11 <= nbytes < NWORDS * WORD -> chunk (units nbytes) = NWORDS + PAGE).
Proof.
  apply (sbrk_past_space 200 (fun new => new <=? 30000) (Heap (fun _ => 0) 100 100 0 0) PAGE);
    [by vm_compute|by vm_compute|by vm_compute].
Defined.
