(* ===== verification/Amap.v ===== *)
(** * The allocator as a map from pointers to contents

    [runs h A]: the calls of a program have led to the heap [h], and [A] is what the program
    knows: the blocks it has, each with the words it holds. *)

From Stdlib Require Import ZifyBool.
From stdpp Require Import gmap.
From S2P Require Import Prelude Heap Arena Aspec.

Section Map.
Context (alloca end_ : Z) (grant : Z -> bool) (fuel : nat).
Hypothesis Hends : 0 < alloca < end_ /\ end_ < NWORDS.
Hypothesis Hfuel : 2 * NWORDS + 6 <= Z.of_nat fuel.

Notation inv := (inv alloca end_).
Notation arena := (arena alloca end_).
Notation untouched := (untouched alloca end_).
Notation malloc := (malloc alloca end_ grant fuel).
Notation realloc := (realloc alloca end_ grant fuel).

Definition contents (h : heap) (v n : Z) : list Z := mem h <$> seqZ v n.

(** The words a request of [nbytes] gets. *)
Definition size (nbytes : Z) : Z := units nbytes - 1.

Inductive runs : heap -> gmap Z (list Z) -> Prop :=
  | runs_start h : untouched h -> runs h ∅
  | runs_malloc h A nbytes v h' : runs h A -> 0 <= nbytes -> units nbytes < NWORDS ->
      malloc nbytes h = Some (v, h') -> v <> 0 -> runs h' (<[v := contents h' v (size nbytes)]> A)
  | runs_write h A v c i x : runs h A -> A !! v = Some c -> (i < length c)%nat ->
      runs (link (v + Z.of_nat i) x h) (<[v := <[i := x]> c]> A)
  | runs_free h A v c : runs h A -> A !! v = Some c -> runs (free v h) (delete v A)
  | runs_realloc h A v c nbytes w h' : runs h A -> A !! v = Some c -> 0 <= nbytes -> units nbytes < NWORDS ->
      realloc v nbytes h = Some (w, h') -> w <> 0 ->
      let k := Z.min (size nbytes) (Z.of_nat (length c)) in
      runs h' (<[w := take (Z.to_nat k) c ++ contents h' (w + k) (size nbytes - k)]> (delete v A)).

(** ** What the map has to do with the arena *)

Definition words_of (b : block) : Z := stop b - start b - 1.

Record view (A : gmap Z (list Z)) (h : heap) (bs : list block) : Prop := {
  vw_block : forall v c, A !! v = Some c -> exists b, b ∈ used bs /\ v = start b + 1 /\ c = contents h v (words_of b);
  vw_known : forall b, b ∈ used bs -> is_Some (A !! (start b + 1))
}.

Lemma length_contents h v n : length (contents h v n) = Z.to_nat n.
Proof. unfold contents. by rewrite length_fmap, length_seqZ. Qed.

Lemma contents_lookup h v n i : Z.of_nat i < n -> contents h v n !! i = Some (mem h (v + Z.of_nat i)).
Proof. intros Hi. unfold contents. by rewrite list_lookup_fmap, lookup_seqZ_lt. Qed.

Lemma contents_eq h v n c : length c = Z.to_nat n ->
  (forall i, Z.of_nat i < n -> c !! i = Some (mem h (v + Z.of_nat i))) -> c = contents h v n.
Proof.
  intros L H. apply list_eq. intros i. destruct (decide (Z.of_nat i < n)).
  - by rewrite H, contents_lookup.
  - rewrite !lookup_ge_None_2; [done|rewrite length_contents; lia|lia].
Qed.

Lemma contents_agree h v h' v' n :
  (forall i, 0 <= i < n -> mem h' (v' + i) = mem h (v + i)) -> contents h v n = contents h' v' n.
Proof. intros H. apply contents_eq; [apply length_contents|]. intros i Hi. rewrite contents_lookup, H by lia. done. Qed.

Lemma contents_app h v n k : 0 <= k <= n -> contents h v n = contents h v k ++ contents h (v + k) (n - k).
Proof.
  intros Hk. unfold contents. rewrite <- fmap_app, <- seqZ_app by lia. do 2 f_equal. lia.
Qed.

Lemma blocks_length m p bs z : chain m p bs z -> Z.of_nat (length bs) <= z - p.
Proof. revert p. induction bs as [|b bs IH]; intros p; simpl; [lia|]. intros (_ & ? & _ & H%IH). lia. Qed.

Lemma fuel_enough h bs z : arena h bs z -> (2 * length bs + 5 < fuel)%nat.
Proof. intros [[C _ _ _ Hk Ht] | (_ & -> & _)]; [|simpl; lia]. apply blocks_length in C. lia. Qed.


Lemma used_start m p bs z b c : chain m p bs z -> b ∈ used bs -> c ∈ used bs -> start b = start c -> b = c.
Proof.
  intros C [_ Hb]%elem_used [_ Hc]%elem_used E.
  pose proof (blocks_in _ _ _ _ _ C Hb). pose proof (blocks_in _ _ _ _ _ C Hc).
  destruct (blocks_apart _ _ _ _ _ _ C Hb Hc) as [-> | ?]; [done|lia].
Qed.

(** The header of a block in use is not that of any other. *)
Lemma used_other m p bs z b us c : chain m p bs z -> used bs ≡ₚ b :: us -> c ∈ us -> c ∈ used bs /\ start c <> start b.
Proof.
  intros C U Hc. assert (c ∈ used bs) as Hc' by (rewrite U; by right). split; [done|]. intros E.
  assert (c = b) as -> by (apply (used_start _ _ _ _ _ _ C); [done|rewrite U; by left|done]).
  pose proof (blocks_NoDup _ _ _ _ C) as N. apply (NoDup_filter (fun b => sort b = Used)) in N.
  fold (used bs) in N. rewrite U in N. by apply NoDup_cons in N as [? _].
Qed.

(** The words of two blocks in use are apart. *)
Lemma used_apart m p bs z b c : chain m p bs z -> b ∈ used bs -> c ∈ used bs -> b = c \/ stop b <= start c \/ stop c <= start b.
Proof. intros C [_ Hb]%elem_used [_ Hc]%elem_used. by apply (blocks_apart _ _ _ _ _ _ C). Qed.

(** The blocks other than [v] have their words still, at [v] the map has the words of a block. *)
Lemma view_insert A h h' bs' b' v c :
  v = start b' + 1 -> b' ∈ used bs' -> c = contents h' v (words_of b') ->
  (forall w d, w <> v -> A !! w = Some d -> exists b, b ∈ used bs' /\ w = start b + 1 /\ d = contents h w (words_of b) /\
    forall a, start b < a < stop b -> mem h' a = mem h a) ->
  (forall b, b ∈ used bs' -> start b + 1 <> v -> is_Some (A !! (start b + 1))) ->
  view (<[v := c]> A) h' bs'.
Proof.
  intros -> Hb' -> H1 H2. split.
  - intros w d Hw. destruct (decide (w = start b' + 1)) as [-> |N].
    + rewrite lookup_insert_eq in Hw. injection Hw as <-. by exists b'.
    + rewrite lookup_insert_ne in Hw by done. destruct (H1 w d N Hw) as (b & Hb & -> & -> & M).
      exists b. split; [done|]. split; [done|]. apply contents_agree. unfold words_of. intros i Hi. apply M. lia.
  - intros b Hb. destruct (decide (start b + 1 = start b' + 1)) as [-> |N].
    + rewrite lookup_insert_eq. by eexists.
    + rewrite lookup_insert_ne by done. by apply H2.
Qed.

Lemma view_malloc A h bs z v nw h' bs' z' :
  arena h bs z -> view A h bs -> inv h' bs' z' -> allocated end_ h bs z v nw h' bs' ->
  A !! v = None /\ view (<[v := contents h' v (nw - 1)]> A) h' bs'.
Proof.
  intros Ha V I' Al. pose proof (al_new _ _ _ _ _ _ _ _ Al) as U.
  assert (forall w d, A !! w = Some d -> exists b, b ∈ used bs /\ w = start b + 1 /\ d = contents h w (words_of b) /\
    start b < stop b /\ 0 < nw /\ (stop b <= v - 1 \/ v - 1 + nw <= start b)) as Old.
  { intros w d Hw. destruct (vw_block _ _ _ V w d Hw) as (b & Hb & E1 & E2). exists b. split_and!; try done.
    2-3: by eapply allocated_apart.
    assert (b ∈ used bs') as [_ Hb']%elem_used by (rewrite U; by right).
    apply (blocks_in _ _ _ _ _ (in_chain _ _ _ _ _ I') Hb'). }
  split.
  - destruct (A !! v) as [d|] eqn:E; [|done]. destruct (Old v d E) as (b & _ & -> & _ & ? & ? & ?). lia.
  - apply (view_insert A h h' bs' (Blk (v - 1) Used (v - 1 + nw))); [simpl; lia|rewrite U; by left| | |].
    + unfold words_of. simpl. f_equal. lia.
    + intros w d _ Hw. destruct (Old w d Hw) as (b & Hb & -> & -> & _). exists b. split; [rewrite U; by right|].
      split; [done|]. split; [done|]. intros a Hin. by eapply allocated_payload.
    + intros b Hb Hne. rewrite U in Hb. apply elem_of_cons in Hb as [-> | Hb]; [simpl in Hne; lia|]. by apply (vw_known _ _ _ V).
Qed.

Lemma view_write A h bs z v c i x : inv h bs z -> view A h bs -> A !! v = Some c -> (i < length c)%nat ->
  inv (link (v + Z.of_nat i) x h) bs z /\ view (<[v := <[i := x]> c]> A) (link (v + Z.of_nat i) x h) bs.
Proof.
  intros I V Hv Hi. destruct (vw_block _ _ _ V v c Hv) as (b & Hb & -> & ->).
  rewrite length_contents in Hi. unfold words_of in Hi.
  set (h' := link (start b + 1 + Z.of_nat i) x h).
  assert (forall a, a <> start b + 1 + Z.of_nat i -> mem h' a = mem h a) as M by (intros a ?; by apply poke_other).
  split.
  - eapply inv_inside; try done. intros a Ha. apply M. lia.
  - eapply (view_insert A h h' bs b); [done|done| | |intros; by apply (vw_known _ _ _ V)].
    + apply contents_eq; [by rewrite length_insert, length_contents|]. intros j Hj. destruct (decide (i = j)) as [<- |N].
      * rewrite list_lookup_insert_eq by (rewrite length_contents; unfold words_of; lia).
        unfold h'. cbn. by rewrite poke_same.
      * rewrite list_lookup_insert_ne, contents_lookup, M by (done || lia). done.
    + intros w d Hw Hd. destruct (vw_block _ _ _ V w d Hd) as (c & Hc & -> & ->). exists c. split_and!; try done.
      intros a Ha. apply M. intros ->. pose proof (in_chain _ _ _ _ _ I) as C.
      destruct (used_apart _ _ _ _ _ _ C Hb Hc) as [-> | ?]; [done|lia].
Qed.

Lemma view_free A h bs z b : inv h bs z -> view A h bs -> b ∈ used bs ->
  exists bs', inv (free (start b + 1) h) bs' z /\ view (delete (start b + 1) A) (free (start b + 1) h) bs'.
Proof.
  intros I V Hb. edestruct free_arena as (bs' & I' & U & _ & _ & M); [done..|].
  exists bs'. split; [done|]. pose proof (in_chain _ _ _ _ _ I) as C. split.
  - intros w d [Hw Hd]%lookup_delete_Some. destruct (vw_block _ _ _ V w d Hd) as (c & Hc & -> & ->). exists c.
    split.
    { pose proof Hc as Hc'. rewrite U in Hc'. apply elem_of_cons in Hc' as [-> | ?]; [done|done]. }
    split; [done|]. apply contents_agree. unfold words_of. intros i Hi. apply M. intros E.
    destruct (used_apart _ _ _ _ _ _ C Hb Hc) as [-> | ?]; [done|].
    pose proof (blocks_in _ _ _ _ _ C (proj2 (proj1 (elem_used _ _) Hb))). lia.
  - intros c Hc. destruct (used_other _ _ _ _ _ _ _ C U Hc). rewrite lookup_delete_ne by lia. by apply (vw_known _ _ _ V).
Qed.

Lemma view_realloc A h bs z b v nw h' bs' z' :
  inv h bs z -> view A h bs -> b ∈ used bs -> inv h' bs' z' -> moved h bs b v nw h' bs' -> 1 <= nw ->
  let c := contents h (start b + 1) (words_of b) in
  let k := Z.min (nw - 1) (Z.of_nat (length c)) in
  view (<[v := take (Z.to_nat k) c ++ contents h' (v + k) (nw - 1 - k)]> (delete (start b + 1) A)) h' bs'.
Proof.
  intros I V Hb I' [(us & U & U') W O] Hw c k. pose proof (in_chain _ _ _ _ _ I) as C.
  assert (Z.of_nat (length c) = words_of b) as Lc.
  { unfold c. rewrite length_contents. pose proof (blocks_in _ _ _ _ _ C (proj2 (proj1 (elem_used _ _) Hb))). unfold words_of. lia. }
  apply (view_insert _ h h' bs' (Blk (v - 1) Used (v - 1 + nw))); [simpl; lia|rewrite U'; by left| | |].
  - transitivity (contents h' v (nw - 1)); [|unfold words_of; simpl; f_equal; lia].
    rewrite (contents_app h' v (nw - 1) k) by lia. f_equal. unfold c. rewrite (contents_app h _ (words_of b) k) by lia.
    rewrite take_app_length' by (rewrite length_contents; lia). apply contents_agree. intros i Hi. apply W. unfold words_of in *. lia.
  - intros w d _ [Hw' Hd]%lookup_delete_Some. destruct (vw_block _ _ _ V w d Hd) as (e & He & -> & ->). exists e.
    assert (e <> b) as Ne by (intros ->; done).
    split; [|split; [done|split; [done|intros a Ha; by apply (O e)]]].
    pose proof He as He'. rewrite U in He'. apply elem_of_cons in He' as [-> | ?]; [done|]. rewrite U'. by right.
  - intros e He Ne. rewrite U' in He. apply elem_of_cons in He as [-> | He]; [simpl in Ne; lia|].
    destruct (used_other _ _ _ _ _ _ _ C U He). rewrite lookup_delete_ne by lia. by apply (vw_known _ _ _ V).
Qed.

Lemma arena_used h bs z b : arena h bs z -> b ∈ used bs -> inv h bs z.
Proof. intros [? | (_ & -> & _)]; [done|]. by intros ?%not_elem_of_nil. Qed.

Lemma runs_view h A : runs h A -> exists bs z, arena h bs z /\ view A h bs.
Proof.
  induction 1 as [h U | h A nbytes v h' _ (bs & z & Ar & V) Hn Hu E Hv | h A v c i x _ (bs & z & Ar & V) Hv Hi
    | h A v c _ (bs & z & Ar & V) Hv | h A v c nbytes w h' _ (bs & z & Ar & V) Hv Hn Hu E Hw k].
  - exists [], alloca. split; [by right|]. split; [done|]. by intros b ?%not_elem_of_nil.
  - edestruct malloc_arena as [(v' & h1 & bs' & z' & E' & _ & I & Al) | [(h1 & E') _]];
      [done|exact Ar|done|done|by eapply fuel_enough| |rewrite E in E'; naive_solver].
    rewrite E in E'. injection E' as <- <-. exists bs', z'. split; [by left|].
    eapply view_malloc; [exact Ar|done|exact I|exact Al].
  - destruct (vw_block _ _ _ V v c Hv) as (b & Hb & _). pose proof (arena_used _ _ _ _ Ar Hb) as I.
    destruct (view_write A h bs z v c i x I V Hv Hi). exists bs, z. split; [by left|done].
  - destruct (vw_block _ _ _ V v c Hv) as (b & Hb & -> & _). pose proof (arena_used _ _ _ _ Ar Hb) as I.
    destruct (view_free A h bs z b I V Hb) as (bs' & I' & V'). exists bs', z. split; [by left|done].
  - destruct (vw_block _ _ _ V v c Hv) as (b & Hb & -> & ->). pose proof (arena_used _ _ _ _ Ar Hb) as I.
    edestruct realloc_arena as [(v' & h1 & bs' & z' & E' & _ & I' & Mv) | (h1 & E')];
      [done|exact I|exact Hb|done|done|by eapply fuel_enough| |rewrite E in E'; naive_solver].
    rewrite E in E'. injection E' as <- <-. exists bs', z'. split; [by left|].
    apply (view_realloc A h bs z b w (units nbytes) h' bs' z'); try done. by apply units_range.
Qed.

(** The blocks of a program are where the map says. *)
Lemma runs_apart h A : runs h A ->
  (forall v c, A !! v = Some c ->
     c = contents h v (Z.of_nat (length c)) /\ alloca < v /\ v + Z.of_nat (length c) < brk_of end_ h) /\
  (forall v c w d, A !! v = Some c -> A !! w = Some d -> v <> w ->
     v + Z.of_nat (length c) < w \/ w + Z.of_nat (length d) < v).
Proof.
  intros (bs & z & Ar & V)%runs_view. edestruct brk_of_range as [_ Hz]; [done|exact Ar|].
  assert (forall v c, A !! v = Some c -> exists b, b ∈ used bs /\ inv h bs z /\ v = start b + 1 /\
    alloca <= start b < stop b /\ stop b <= z /\ c = contents h v (words_of b) /\ Z.of_nat (length c) = words_of b) as Known.
  { intros v c Hv. destruct (vw_block _ _ _ V v c Hv) as (b & Hb & -> & ->). exists b.
    pose proof (arena_used _ _ _ _ Ar Hb) as I. rewrite length_contents.
    pose proof (blocks_in _ _ _ _ _ (in_chain _ _ _ _ _ I) (proj2 (proj1 (elem_used _ _) Hb))).
    unfold words_of. split_and!; try (done || lia). }
  split.
  - intros v c Hv. destruct (Known v c Hv) as (b & _ & _ & -> & ? & ? & E & L). rewrite L. unfold words_of in *.
    split; [done|lia].
  - intros v c w d Hv Hw N. destruct (Known v c Hv) as (b & Hb & I & -> & ? & ? & _ & ->).
    destruct (Known w d Hw) as (e & He & _ & -> & ? & ? & _ & ->). unfold words_of.
    destruct (used_apart _ _ _ _ _ _ (in_chain _ _ _ _ _ I) Hb He) as [-> | ?]; [done|lia].
Qed.


Lemma size_room nbytes : 0 <= nbytes -> nbytes <= size nbytes * WORD.
Proof.
  intros Hn. unfold size. rewrite <- units_pred, Z.quot_div_nonneg by (unfold WORD; lia). unfold WORD.
  pose proof (Z.mod_pos_bound (nbytes + 6 - 1) 6). pose proof (Z.div_mod (nbytes + 6 - 1) 6). lia.
Qed.

(** C23. [malloc] returns, after at most two turns over the arena, for any request of which the
    words with their header are fewer than the address space has, or the bytes are as many as it
    has.  The latter it refuses, leaving everything as it is.  The former it refuses only when the break
    cannot move by the chunk it takes; otherwise it gets a block that the program does not have, with room for all its bytes, inside the break,
    apart from all blocks of the program, whose words stay as they were. *)
Theorem malloc_serves h A nbytes : runs h A -> 0 <= nbytes ->
  (NWORDS * WORD <= nbytes -> malloc nbytes h = Some (0, h)) /\
  (units nbytes < NWORDS -> exists v h', malloc nbytes h = Some (v, h') /\
    (v = 0 -> ~ granted grant (brk_of end_ h + chunk (units nbytes))) /\
    (v <> 0 -> A !! v = None /\ nbytes <= size nbytes * WORD /\ alloca < v /\ v + size nbytes < brk_of end_ h' /\
       forall w d, A !! w = Some d -> (v + size nbytes < w \/ w + Z.of_nat (length d) < v) /\ d = contents h' w (Z.of_nat (length d)))).
Proof.
  intros Hr Hn. split.
  { intros Hbig. unfold Heap.malloc. by replace (NWORDS * WORD <=? nbytes) with true by lia. }
  intros Hu. pose proof (runs_view h A Hr) as (bs & z & Ar & V).
  edestruct malloc_arena as [(v & h' & bs' & z' & E & Hv & I & Al) | [(h' & E) N]];
    [done|exact Ar|done|done|by eapply fuel_enough| |exists 0, h'; by split_and!].
  exists v, h'. split; [exact E|]. split; [done|]. intros _. assert (A !! v = None) as Hnew by (eapply view_malloc; [exact Ar|done|exact I|exact Al]).
  pose proof (runs_malloc h A nbytes v h' Hr Hn Hu E Hv) as Hr'. destruct (runs_apart _ _ Hr') as [H1 H2].
  assert (0 <= size nbytes) as Hsz by (destruct (units_range _ Hn Hu); unfold size; lia).
  destruct (H1 v _ (lookup_insert_eq _ _ _)) as (_ & Ha & Hb). rewrite length_contents, Z2Nat.id in Hb by done.
  split; [done|]. split; [by apply size_room|]. split; [done|]. split; [done|]. intros w d Hd.
  assert (v <> w) as Hne by (intros ->; by rewrite Hnew in Hd).
  assert (<[v := contents h' v (size nbytes)]> A !! w = Some d) as Hd' by (by rewrite lookup_insert_ne). split.
  - destruct (H2 v _ w d (lookup_insert_eq _ _ _) Hd' Hne) as [H|H]; rewrite ?length_contents in H; lia.
  - by destruct (H1 w d Hd').
Qed.
End Map.

(** ** A program, call by call *)

(** [Give k] frees the result of call [k]. *)
Inductive call := Ask (nbytes : Z) | Give (k : nat).

Fixpoint play (alloca end_ : Z) (grant : Z -> bool) (fuel : nat) (cs : list call) (rs : list Z) (h : heap) : option (list Z) :=
  match cs with
  | [] => Some rs
  | Ask n :: cs =>
      match malloc alloca end_ grant fuel n h with
      | None => None
      | Some (v, h) => play alloca end_ grant fuel cs (rs ++ [v]) h
      end
  | Give k :: cs => play alloca end_ grant fuel cs (rs ++ [0]) (free (default 0 (rs !! k)) h)
  end.

Definition heap0 (alloca : Z) : heap := Heap (fun _ => 0) alloca alloca 0 0.

(** After a request was refused the search pointer may be a header that the search
    joined to the block before it.  The next request of that size gets that block although the
    ring has it no more, and a larger one then gets a block around it: of three blocks in use two
    overlap. *)
Example malloc_overlap : exists a b c,
  play 100 200 (fun new => new <=? 1300) 40
    [Ask 60; Ask 60; Ask 6000; Give 0; Give 1; Ask 7000; Ask 60; Ask 120] [] (heap0 100) =
    Some [a; b; c; 0; 0; 0; b; a] /\ a < b < a + size 120.
Proof. exists 201, 212, 223. by vm_compute. Qed.

(** ** Witnesses *)

Definition W : nat := Z.to_nat 65542.
Definition pointer (o : option (Z * heap)) : Z := from_option fst 0 o.
Definition result (o : option (Z * heap)) : heap := from_option snd (heap0 100) o.

Lemma result_eq (o : option (Z * heap)) : (if o is Some _ then true else false) = true -> o = Some (pointer o, result o).
Proof. by destruct o as [[]|]. Qed.

Definition call1 : option (Z * heap) := malloc 100 200 (fun _ => true) W 12 (heap0 100).
Definition state1 : heap := link (201 + Z.of_nat 1) 7 (result call1).
Definition call2 : option (Z * heap) := malloc 100 200 (fun _ => true) W 6 state1.
Definition call3 : option (Z * heap) := realloc 100 200 (fun _ => true) W 201 24 (result call2).

Definition words1 : list Z := contents (result call1) 201 (size 12).
Definition view1 : gmap Z (list Z) := <[201 := <[1%nat := 7]> words1]> (<[201 := words1]> ∅).
Definition view2 : gmap Z (list Z) := <[204 := contents (result call2) 204 (size 6)]> view1.
Definition kept : Z := Z.min (size 24) (Z.of_nat (length (<[1%nat := 7]> words1))).
Definition view3 : gmap Z (list Z) :=
  <[206 := take (Z.to_nat kept) (<[1%nat := 7]> words1) ++ contents (result call3) (206 + kept) (size 24 - kept)]> (delete 201 view2).

Lemma W_enough : 2 * NWORDS + 6 <= Z.of_nat W.
Proof. by vm_compute. Qed.

(** Two blocks, a word written, and the first block made larger, which moves it. *)
Lemma state3_runs : runs 100 200 (fun _ => true) W (result call3) view3.
Proof.
  assert (runs 100 200 (fun _ => true) W (result call1) (<[201 := words1]> ∅)) as R1.
  { apply (runs_malloc _ _ _ _ (heap0 100)); [apply runs_start; split; [done..|by left]|done|done| |done].
    replace 201 with (pointer call1) by (by vm_compute). apply result_eq. by vm_compute. }
  assert (runs 100 200 (fun _ => true) W state1 view1) as R2.
  { apply runs_write; [done|by rewrite lookup_insert_eq|unfold words1; rewrite length_contents; vm_compute; lia]. }
  assert (runs 100 200 (fun _ => true) W (result call2) view2) as R3.
  { apply (runs_malloc _ _ _ _ state1); [done|done|done| |done].
    replace 204 with (pointer call2) by (by vm_compute). apply result_eq. by vm_compute. }
  apply (runs_realloc _ _ _ _ (result call2) view2 201 (<[1%nat := 7]> words1) 24 206 _ R3); [|done|done| |done].
  - unfold view2, view1. rewrite lookup_insert_ne by done. by rewrite lookup_insert_eq.
  - replace 206 with (pointer call3) by (by vm_compute). apply result_eq. by vm_compute.
Qed.


Lemma malloc_serves_witness : exists v h', malloc 100 200 (fun _ => true) W 600 (result call3) = Some (v, h') /\ v <> 0 /\
  view3 !! v = None /\ 600 <= size 600 * WORD.
Proof.
  destruct (malloc_serves 100 200 (fun _ => true) W) with (h := result call3) (A := view3) (nbytes := 600) as [_ H]; [done|apply W_enough|apply state3_runs|lia|].
  assert (units 600 < NWORDS) as Hu by (by vm_compute). destruct (H Hu) as (v & h' & E & H0 & H1). exists v, h'.
  assert (granted (fun _ => true) (brk_of 200 (result call3) + chunk (units 600))) as G by (split; by vm_compute).
  assert (v <> 0) as Hv by (intros Hv; by apply (H0 Hv)). destruct (H1 Hv) as (? & ? & _). by split_and!.
Defined.
