(* ===== verification/Image.v ===== *)
(** * The image of a process: [expand] and [swapin] of [kernel/slp.c], [xswap] of [kernel/text.c],
    [grow] of [kernel/sig.c], [sbreak] of [kernel/sys1.c]

    The image is one run of core: the u page, the data, the stack.  Physical memory and the swap
    area are a word for every address; block [b] of the swap area is its words from [512 * b].
    [Utab.utab] is the current process's map with its sizes, [p_addr] and [x_caddr].  [uflush]
    is the copy of the live u-area to its home, in assembly; [ioerr b] says that the exchange of
    block [b] fails. *)

From Stdlib Require Import ZifyBool.
From S2P Require Import Prelude Param Resmap Utab.
From S2P Require Proc.

Import Resmap.Code.

(** ** State *)

Definition XWRIT : Z := 2.
Definition XLOAD : Z := 4.
Definition XLOCK : Z := 8.
Definition XWANT : Z := 16.
Definition NOUHOME : Z := 0.
Definition SINCR : Z := PGSZ.

(** The shared text of the process; [x_caddr] is in the map. *)
Record text := Text { x_daddr : Z; x_size : Z; x_ccount : Z; x_flag : Z }.

Inductive channel := Runin | Runout | TextChan.

Record st := St {
  mem : Z -> Z;
  swp : Z -> Z;
  coremap : list map;
  swapmap : list map;
  ut : utab;
  p_size : Z;
  p_flag : Z;
  p_time : Z;
  p_textp : option text;
  uhome : Z;
  runin : Z;
  runout : Z;
  woken : list channel  (* the channels wakeup() was called on *)
}.

Definition set_mem (v : Z -> Z) (s : st) : st :=
  St v (swp s) (coremap s) (swapmap s) (ut s) (p_size s) (p_flag s) (p_time s) (p_textp s) (uhome s) (runin s) (runout s) (woken s).
Definition set_swp (v : Z -> Z) (s : st) : st :=
  St (mem s) v (coremap s) (swapmap s) (ut s) (p_size s) (p_flag s) (p_time s) (p_textp s) (uhome s) (runin s) (runout s) (woken s).
Definition set_coremap (v : list map) (s : st) : st :=
  St (mem s) (swp s) v (swapmap s) (ut s) (p_size s) (p_flag s) (p_time s) (p_textp s) (uhome s) (runin s) (runout s) (woken s).
Definition set_swapmap (v : list map) (s : st) : st :=
  St (mem s) (swp s) (coremap s) v (ut s) (p_size s) (p_flag s) (p_time s) (p_textp s) (uhome s) (runin s) (runout s) (woken s).
Definition set_ut (v : utab) (s : st) : st :=
  St (mem s) (swp s) (coremap s) (swapmap s) v (p_size s) (p_flag s) (p_time s) (p_textp s) (uhome s) (runin s) (runout s) (woken s).
Definition set_p_size (v : Z) (s : st) : st :=
  St (mem s) (swp s) (coremap s) (swapmap s) (ut s) v (p_flag s) (p_time s) (p_textp s) (uhome s) (runin s) (runout s) (woken s).
Definition set_p_flag (v : Z) (s : st) : st :=
  St (mem s) (swp s) (coremap s) (swapmap s) (ut s) (p_size s) v (p_time s) (p_textp s) (uhome s) (runin s) (runout s) (woken s).
Definition set_p_time (v : Z) (s : st) : st :=
  St (mem s) (swp s) (coremap s) (swapmap s) (ut s) (p_size s) (p_flag s) v (p_textp s) (uhome s) (runin s) (runout s) (woken s).
Definition set_p_textp (v : option text) (s : st) : st :=
  St (mem s) (swp s) (coremap s) (swapmap s) (ut s) (p_size s) (p_flag s) (p_time s) v (uhome s) (runin s) (runout s) (woken s).
Definition set_uhome (v : Z) (s : st) : st :=
  St (mem s) (swp s) (coremap s) (swapmap s) (ut s) (p_size s) (p_flag s) (p_time s) (p_textp s) v (runin s) (runout s) (woken s).
Definition set_runin (v : Z) (s : st) : st :=
  St (mem s) (swp s) (coremap s) (swapmap s) (ut s) (p_size s) (p_flag s) (p_time s) (p_textp s) (uhome s) v (runout s) (woken s).
Definition set_runout (v : Z) (s : st) : st :=
  St (mem s) (swp s) (coremap s) (swapmap s) (ut s) (p_size s) (p_flag s) (p_time s) (p_textp s) (uhome s) (runin s) v (woken s).
Definition set_woken (v : list channel) (s : st) : st :=
  St (mem s) (swp s) (coremap s) (swapmap s) (ut s) (p_size s) (p_flag s) (p_time s) (p_textp s) (uhome s) (runin s) (runout s) v.

Definition set_addr (v : Z) (u : utab) : utab :=
  Utab (u_upt u) (u_tsize u) (u_dsize u) (u_ssize u) (u_error u) v (x_caddr u) (maxmem u) (rp u) (rz u).
Definition set_caddr (v : Z) (u : utab) : utab :=
  Utab (u_upt u) (u_tsize u) (u_dsize u) (u_ssize u) (u_error u) (p_addr u) (Some v) (maxmem u) (rp u) (rz u).

(** A computation ends, sleeps on the lock of the text, panics, or leaves an array. *)
Inductive out (A : Type) : Type :=
  | Done (a : A) (s : st)
  | Asleep (s : st)
  | Dies (msg : string)
  | Stray.
Arguments Done {A} a s.
Arguments Asleep {A} s.
Arguments Dies {A} msg.
Arguments Stray {A}.

Definition M (A : Type) : Type := st -> out A.
#[global] Instance M_ret : MRet M := fun A a s => Done a s.
#[global] Instance M_bind : MBind M := fun A B f m s =>
  match m s with Done a s => f a s | Asleep s => Asleep s | Dies msg => Dies msg | Stray => Stray end.
Definition get {A} (f : st -> A) : M A := fun s => Done (f s) s.
Definition upd (f : st -> st) : M unit := fun s => Done tt (f s).
Definition the {A} (o : option A) : M A := fun s => match o with Some a => Done a s | None => Stray end.
Definition dies {A} (msg : string) : M A := fun _ => Dies msg.
Definition stray {A} : M A := fun _ => Stray.
Notation "m ;; k" := (mbind (fun _ => k) m) (at level 100, right associativity).

(** ** Pages *)

Definition copy_page (s d : Z) (m : Z -> Z) : Z -> Z := fun x => if (d <=? x) && (x <? d + PGSZ) then m (s + (x - d)) else m x.
Definition clear_page (d : Z) (m : Z -> Z) : Z -> Z := fun x => if (d <=? x) && (x <? d + PGSZ) then 0 else m x.
Definition copyseg (s d : Z) : M unit := upd (fun x => set_mem (copy_page s d (mem x)) x).
Definition clearseg (d : Z) : M unit := upd (fun x => set_mem (clear_page d (mem x)) x).

(** ** The maps *)

Definition core_malloc (size : Z) : M Z := fun s =>
  match malloc (coremap s) size with Some (a, mp) => Done a (set_coremap mp s) | None => Stray end.
Definition swap_malloc (size : Z) : M Z := fun s =>
  match malloc (swapmap s) size with Some (a, mp) => Done a (set_swapmap mp s) | None => Stray end.
Definition core_mfree (size a : Z) : M unit := fun s =>
  match mfree true (runin s) (coremap s) size a with
  | Some (Mfreed mp r w) =>
      Done tt (set_coremap mp (set_runin r (if (w : bool) then set_woken (woken s ++ [Runin]) s else s)))
  | None => Stray
  end.
Definition swap_mfree (size a : Z) : M unit := fun s =>
  match mfree false (runin s) (swapmap s) size a with
  | Some (Mfreed mp _ _) => Done tt (set_swapmap mp s)
  | None => Stray
  end.

Section Code.
Context (uflush : (Z -> Z) -> Z -> Z -> Z) (ioerr : Z -> bool).

(** [n] words between core from [core] and the swap area from block [blk].  The headers [swap]
    moves them with, and its sleeps, are in [Bio]; here is what it moves. *)
Definition exchange (blk core n : Z) (write : bool) (s : st) : st :=
  let w := BSIZEW * blk in
  if write then set_swp (fun x => if (w <=? x) && (x <? w + n) then mem s (core + (x - w)) else swp s x) s
  else set_mem (fun x => if (core <=? x) && (x <? core + n) then swp s (w + (x - core)) else mem s x) s.

(** The loop of [swap], a page a turn; the result is the error latch. *)
Fixpoint swap_loop (fuel : nat) (blkno coreaddr count : Z) (write err : bool) : M bool :=
  if count =? 0 then mret err
  else
    match fuel with
    | O => stray
    | S fuel =>
        let tcount := if PGSZ <? count then PGSZ else count in
        upd (exchange blkno coreaddr tcount write);;
        swap_loop fuel (blkno + wtodb tcount) (coreaddr + tcount) (count - tcount) write (err || ioerr blkno)
    end.

Definition swap (blkno coreaddr count : Z) (write : bool) : M unit :=
  err ← swap_loop (Z.to_nat count) blkno coreaddr count write false;
  if (err : bool) then dies "IO err in swap" else mret tt.

(** ** The text *)

Definition mod_text (f : text -> text) : M unit := upd (fun s => set_p_textp (f <$> p_textp s) s).
Definition set_x_ccount (v : Z) (x : text) : text := Text (x_daddr x) (x_size x) v (x_flag x).
Definition set_x_flag (v : Z) (x : text) : text := Text (x_daddr x) (x_size x) (x_ccount x) v.

(** The test of the [while]; the process sleeps with the lock wanted and then tries again. *)
Definition xlock (xp : text) : M unit := fun s =>
  if x_flag xp &? XLOCK then Asleep (set_p_textp (Some (set_x_flag (x_flag xp |: XWANT) xp)) s)
  else Done tt (set_p_textp (Some (set_x_flag (x_flag xp |: XLOCK) xp)) s).

Definition xunlock : M unit :=
  o ← get p_textp;
  xp ← the o;
  (if x_flag xp &? XWANT then upd (fun s => set_woken (woken s ++ [TextChan]) s) else mret tt);;
  mod_text (fun xp => set_x_flag (x_flag xp &~ (XLOCK |: XWANT)) xp).

(** A text that was written is brought up to date on the swap area. *)
Definition write_text (xp : text) (caddr : Z) : M unit :=
  if x_flag xp &? XWRIT then
    mod_text (fun xp => set_x_flag (x_flag xp &~ XWRIT) xp);;
    swap (x_daddr xp) caddr (x_size xp) true
  else mret tt.

Definition xccdec : M unit :=
  o ← get p_textp;
  match o with
  | None => mret tt
  | Some xp =>
      if x_ccount xp =? 0 then mret tt
      else
        xlock xp;;
        mod_text (fun xp => set_x_ccount (dec8 (x_ccount xp)) xp);;
        u ← get ut;
        caddr ← the (x_caddr u);
        (if dec8 (x_ccount xp) =? 0 then
           write_text xp caddr;;
           core_mfree (x_size xp) caddr
         else mret tt);;
        xunlock
  end.

(** ** Out and in *)

(** The tail of a slot that is larger than the core there is: zeros, from the page that is freed next. *)
Fixpoint clear_tail (fuel : nat) (ff : bool) (a n : Z) : M unit :=
  size ← get p_size;
  if n <? size then
    match fuel with
    | O => stray
    | S fuel =>
        u ← get ut;
        (if ff then clearseg (p_addr u) else mret tt);;
        swap (a + wtodb n) (p_addr u) PGSZ true;;
        clear_tail fuel ff a (n + PGSZ)
    end
  else mret tt.

Definition xswap (ff : bool) (os : Z) : M unit :=
  size ← get p_size;
  let os := if os =? 0 then size else os in
  a ← swap_malloc (wtodb size);
  if a =? 0 then dies "out of swap space"
  else
    upd (fun s => set_p_flag (p_flag s |: Proc.SLOCK) s);;
    xccdec;;
    u ← get ut;
    upd (fun s => if p_addr u =? uhome s then set_mem (uflush (mem s) (uhome s)) s else s);;
    swap a (p_addr u) os true;;
    clear_tail (Z.to_nat (size - os)) ff a os;;
    (if ff then
       core_mfree os (p_addr u);;
       upd (fun s => if p_addr u =? uhome s then set_uhome NOUHOME s else s)
     else mret tt);;
    upd (fun s => set_ut (set_addr a (ut s))
      (set_p_flag (p_flag s &~ (Proc.SLOAD |: Proc.SLOCK)) (set_p_time 0 s)));;
    upd (fun s => if runout s =? 0 then s else set_woken (woken s ++ [Runout]) (set_runout 0 s)).

(** The text comes in first, unless another process has it in core; [false] when there is no core for it. *)
Definition text_in_core (xp : text) (size a : Z) : M bool :=
  xlock xp;;
  ok ← (if x_ccount xp =? 0 then
          x ← core_malloc (x_size xp);
          if x =? 0 then xunlock;; core_mfree size a;; mret false
          else
            upd (fun s => set_ut (set_caddr x (ut s)) s);;
            (if x_flag xp &? XLOAD then mret tt else swap (x_daddr xp) x (x_size xp) false);;
            mret true
        else mret true);
  if (ok : bool) then mod_text (fun xp => set_x_ccount (inc8 (x_ccount xp)) xp);; xunlock;; mret true
  else mret false.

Definition swapin : M Z :=
  size ← get p_size;
  a ← core_malloc size;
  if a =? 0 then mret 0
  else
    o ← get p_textp;
    ok ← match o with None => mret true | Some xp => text_in_core xp size a end;
    if (ok : bool) then
      u ← get ut;
      swap (p_addr u) a size false;;
      swap_mfree (wtodb size) (p_addr u);;
      upd (fun s => set_ut (set_addr a (ut s)) (set_p_flag (p_flag s |: Proc.SLOAD) (set_p_time 0 s)));;
      mret 1
    else mret 0.

Definition sureg_ : M unit := u ← get ut; u ← the (sureg u); upd (set_ut u).

(** Where [save(u.u_ssav)] returns for the second time, after [swtch] has loaded the u-area. *)
Definition resumed : M unit :=
  upd (fun s => set_uhome (p_addr (ut s)) (set_p_flag (p_flag s &~ Proc.SSWAP) s));;
  sureg_.

(** ** Growth *)

Fixpoint copy_image (fuel : nat) (a1 a2 i n : Z) : M unit :=
  if i <? n then
    match fuel with
    | O => stray
    | S fuel => copyseg (a1 + i) (a2 + i);; copy_image fuel a1 a2 (i + PGSZ) n
    end
  else mret tt.

(** [false]: the process is on its way out, and goes on at [resumed] once it is in core again. *)
Definition expand (newsize : Z) : M bool :=
  n ← get p_size;
  upd (set_p_size newsize);;
  u ← get ut;
  let a1 := p_addr u in
  if newsize <=? n then core_mfree (n - newsize) (a1 + newsize);; mret true
  else
    a2 ← core_malloc newsize;
    if a2 =? 0 then
      xswap true n;;
      upd (fun s => set_p_flag (p_flag s |: Proc.SSWAP) s);;
      mret false
    else
      upd (fun s => set_ut (set_addr a2 (ut s)) s);;
      copy_image (Z.to_nat n) a1 a2 PGSZ n;;
      upd (set_uhome a2);;
      core_mfree n a1;;
      sureg_;;
      mret true.

Definition estabur_ (nt nd ns : Z) : M Z :=
  u ← get ut;
  ru ← the (estabur nt nd ns u);
  upd (set_ut (snd ru));;
  mret (fst ru).

(** What is left to do when the process is in core again. *)
Inductive rest := Finished | Bigger (d n : Z) | Clear (si : Z).

(** [for (n = u.u_ssize; n > 0; n -= PGSZ)] of the branch that shrinks, and of the one that grows. *)
Fixpoint copy_down (fuel : nat) (d a n : Z) : M unit :=
  if 0 <? n then
    match fuel with
    | O => stray
    | S fuel => copyseg (a - d) a;; copy_down fuel d (a + PGSZ) (n - PGSZ)
    end
  else mret tt.

Fixpoint copy_up (fuel : nat) (d a n : Z) : M Z :=
  if 0 <? n then
    match fuel with
    | O => stray
    | S fuel => let a := a - PGSZ in copyseg (a - d) a;; copy_up fuel d a (n - PGSZ)
    end
  else mret a.

Fixpoint clear_down (fuel : nat) (a d : Z) : M unit :=
  if 0 <? d then
    match fuel with
    | O => stray
    | S fuel => let a := a - PGSZ in clearseg a;; clear_down fuel a (d - PGSZ)
    end
  else mret tt.

Definition bigger (d n : Z) : M unit :=
  u ← get ut;
  a ← copy_up (Z.to_nat (u_ssize u)) d (p_addr u + n) (u_ssize u);
  clear_down (Z.to_nat d) a d.

Definition sbreak (nsiz : Z) : M rest :=
  u ← get ut;
  let n := pground (ptrword nsiz) - u_tsize u in
  let n := if n <? 0 then 0 else n in
  let d := n - u_dsize u in
  let n := n + (USIZE + u_ssize u) in
  r ← estabur_ (u_tsize u) (u_dsize u + d) (u_ssize u);
  if negb (r =? 0) then mret Finished
  else if 0 <? d then
    here ← expand n;
    if (here : bool) then bigger d n;; mret Finished else mret (Bigger d n)
  else
    u ← get ut;
    copy_down (Z.to_nat (u_ssize u)) d (p_addr u + n - u_ssize u) (u_ssize u);;
    expand n;;
    mret Finished.

Fixpoint clear_up (fuel : nat) (a i : Z) : M unit :=
  if 0 <? i then
    match fuel with
    | O => stray
    | S fuel => clearseg a;; clear_up fuel (a + PGSZ) (i - PGSZ)
    end
  else mret tt.

Definition clear_new (si : Z) : M unit :=
  u ← get ut;
  size ← get p_size;
  clear_up (Z.to_nat si) (p_addr u + size - si) si.

(** [0] when the stack did not grow. *)
Definition grow (pg : Z) : M (Z * rest) :=
  if (pg <? USTKPAGE) || (NPAGE <=? pg) then mret (0, Finished)
  else
    u ← get ut;
    let si := (pg - USTKPAGE + 1) * PGSZ - u_ssize u in
    if si <=? 0 then mret (0, Finished)
    else
      let si := if si <? SINCR then SINCR else si in
      r ← estabur_ (u_tsize u) (u_dsize u) (u_ssize u + si);
      if negb (r =? 0) then mret (0, Finished)
      else
        size ← get p_size;
        here ← expand (size + si);
        if (here : bool) then clear_new si;; mret (1, Finished) else mret (1, Clear si).

(** The process goes on. *)
Definition proceed (r : rest) : M unit :=
  match r with
  | Finished => mret tt
  | Bigger d n => resumed;; bigger d n
  | Clear si => resumed;; clear_new si
  end.
End Code.
