(* ===== verification/Ispec.v ===== *)
(** * What growth, shrinking and swapping leave of a process image

    [sbreak], [grow] and the swapper move the image about in core and on the swap area; the words
    the process sees stay what they were, and new pages are zero. *)

From Stdlib Require Import ZifyBool.
From S2P Require Import Prelude Param Resmap Utab Image.
From S2P Require Proc.

Import Resmap.Code.

(** ** Runs of pages *)

Lemma bind_done {A B} (m : M A) (f : A -> M B) s a s1 : m s = Done a s1 -> (m ≫= f) s = f a s1.
Proof. unfold mbind, M_bind. by intros ->. Qed.

Lemma bind_get {A B} (f : st -> A) (k : A -> M B) s : (get f ≫= k) s = k (f s) s.
Proof. done. Qed.

Lemma bind_upd {B} (f : st -> st) (k : unit -> M B) s : (upd f ≫= k) s = k tt (f s).
Proof. done. Qed.

Lemma bind_ret {A B} (a : A) (k : A -> M B) s : (mret a ≫= k) s = k a s.
Proof. done. Qed.

(** [go] runs reads and writes of the state. *)
Ltac go := repeat first [rewrite bind_get | rewrite bind_upd | rewrite bind_ret]; cbv beta.

Definition within (a n x : Z) : Prop := a <= x < a + n.

#[local] Instance within_dec a n x : Decision (within a n x).
Proof. unfold within. apply _. Defined.

(** [m'] is [m] with the [n] words from [d] on taken from [src]. *)
Definition filled (m : Z -> Z) (d n : Z) (src : Z -> Z) (m' : Z -> Z) : Prop :=
  forall x, m' x = if decide (within d n x) then src x else m x.

Definition pages (k : nat) : Z := PGSZ * Z.of_nat k.

Lemma filled_in m d n src m' x : filled m d n src m' -> within d n x -> m' x = src x.
Proof. intros H Hx. rewrite H. by rewrite decide_True. Qed.

Lemma filled_out m d n src m' x : filled m d n src m' -> ~ within d n x -> m' x = m x.
Proof. intros H Hx. rewrite H. by rewrite decide_False. Qed.

Lemma filled_none m d src : filled m d 0 src m.
Proof. intros x. rewrite decide_False; [done|]. unfold within. lia. Qed.

(** Two runs next to each other. *)
Lemma filled_join m d n1 n2 src m1 m2 :
  0 <= n1 -> 0 <= n2 -> filled m d n1 src m1 -> (forall x, within (d + n1) n2 x -> m2 x = src x) ->
  (forall x, ~ within (d + n1) n2 x -> m2 x = m1 x) -> filled m d (n1 + n2) src m2.
Proof.
  intros ? ? H1 H2 H3 x. destruct (decide (within (d + n1) n2 x)) as [Hx|Hx].
  - rewrite decide_True by (unfold within in *; lia). auto.
  - rewrite H3, H1 by done. unfold within in *. repeat case_decide; done || lia.
Qed.

Lemma copy_page_filled s d m : filled m d PGSZ (fun x => m (s + (x - d))) (copy_page s d m).
Proof. intros x. unfold copy_page, within. case_decide; destruct ((d <=? x) && (x <? d + PGSZ)) eqn:E; done || lia. Qed.

Lemma clear_page_filled d m : filled m d PGSZ (fun _ => 0) (clear_page d m).
Proof. intros x. unfold clear_page, within. case_decide; destruct ((d <=? x) && (x <? d + PGSZ)) eqn:E; done || lia. Qed.

Lemma pages_S k : pages (S k) = PGSZ + pages k.
Proof. unfold pages. lia. Qed.

Lemma pages_pos k : 0 <= pages k.
Proof. unfold pages, PGSZ. lia. Qed.

#[local] Hint Resolve pages_pos : core.

Ltac within := unfold within, PGSZ in *; lia.

(** The loops of the page copies.  A copy downwards may overlap its source. *)
Lemma copy_down_ok k : forall fuel d a s, (k <= fuel)%nat -> d = 0 \/ d <= - PGSZ ->
  exists m', copy_down fuel d a (pages k) s = Done tt (set_mem m' s) /\ filled (mem s) a (pages k) (fun x => mem s (x - d)) m'.
Proof.
  induction k as [|k IH]; intros fuel d a s Hf Hd.
  - exists (mem s). destruct fuel, s; (split; [done|apply filled_none]).
  - destruct fuel as [|fuel]; [lia|]. rewrite pages_S.
    set (m1 := copy_page (a - d) a (mem s)).
    destruct (IH fuel d (a + PGSZ) (set_mem m1 s)) as (m' & E & F); [lia|done|].
    exists m'. split.
    + cbn [copy_down]. replace (0 <? PGSZ + pages k) with true by (pose proof (pages_pos k); unfold PGSZ in *; lia).
      cbn [mbind M_bind copyseg upd]. fold m1. replace (PGSZ + pages k - PGSZ) with (pages k) by lia. exact E.
    + pose proof (copy_page_filled (a - d) a (mem s)) as F1. fold m1 in F1. pose proof (pages_pos k).
      apply (filled_join _ _ _ _ _ m1); [unfold PGSZ; lia|done| | |].
      * intros x. rewrite F1. case_decide; [|done]. f_equal. lia.
      * intros x Hx. rewrite (filled_in _ _ _ _ _ _ F Hx). cbn [mem set_mem].
        destruct Hd as [-> |Hd]; [|apply (filled_out _ _ _ _ _ _ F1); within].
        rewrite F1. case_decide; [within|]. f_equal; lia.
      * intros x Hx. by rewrite (filled_out _ _ _ _ _ _ F Hx).
Qed.

Lemma copy_image_ok k : forall fuel a1 a2 i s, (k <= fuel)%nat ->
  a1 + i + pages k <= a2 + i \/ a2 + i + pages k <= a1 + i ->
  exists m', copy_image fuel a1 a2 i (i + pages k) s = Done tt (set_mem m' s) /\
    filled (mem s) (a2 + i) (pages k) (fun x => mem s (a1 + (x - a2))) m'.
Proof.
  induction k as [|k IH]; intros fuel a1 a2 i s Hf Hd.
  - exists (mem s). assert ((i <? i + pages 0) = false) as E by (unfold pages; lia).
    destruct fuel; simpl; rewrite E; (split; [by destruct s|apply filled_none]).
  - destruct fuel as [|fuel]; [lia|]. rewrite pages_S in *.
    set (m1 := copy_page (a1 + i) (a2 + i) (mem s)). pose proof (pages_pos k).
    destruct (IH fuel a1 a2 (i + PGSZ) (set_mem m1 s)) as (m' & E & F); [lia|unfold PGSZ in *; lia|].
    exists m'. split.
    + cbn [copy_image]. replace (i <? i + (PGSZ + pages k)) with true by (unfold PGSZ; lia).
      cbn [mbind M_bind copyseg upd]. fold m1. by replace (i + (PGSZ + pages k)) with (i + PGSZ + pages k) by lia.
    + pose proof (copy_page_filled (a1 + i) (a2 + i) (mem s)) as F1. fold m1 in F1.
      replace (a2 + (i + PGSZ)) with (a2 + i + PGSZ) in F by lia.
      apply (filled_join _ _ _ _ _ m1); [unfold PGSZ; lia|done| | |].
      * intros x. rewrite F1. case_decide; [|done]. f_equal. lia.
      * intros x Hx. rewrite (filled_in _ _ _ _ _ _ F Hx). cbn [mem set_mem].
        apply (filled_out _ _ _ _ _ _ F1). within.
      * intros x Hx. by rewrite (filled_out _ _ _ _ _ _ F Hx).
Qed.

Lemma filled_below m d n1 n2 src m1 m2 :
  0 <= n1 -> 0 <= n2 -> filled m d n1 src m1 -> (forall x, within (d - n2) n2 x -> m2 x = src x) ->
  (forall x, ~ within (d - n2) n2 x -> m2 x = m1 x) -> filled m (d - n2) (n1 + n2) src m2.
Proof.
  intros ? ? H1 H2 H3 x. destruct (decide (within (d - n2) n2 x)) as [Hx|Hx].
  - rewrite decide_True by within. auto.
  - rewrite H3, H1 by done. unfold within in *. repeat case_decide; done || lia.
Qed.

Lemma copy_up_ok k : forall fuel d a s, (k <= fuel)%nat -> PGSZ <= d ->
  exists m', copy_up fuel d a (pages k) s = Done (a - pages k) (set_mem m' s) /\
    filled (mem s) (a - pages k) (pages k) (fun x => mem s (x - d)) m'.
Proof.
  induction k as [|k IH]; intros fuel d a s Hf Hd.
  - exists (mem s). replace (a - pages 0) with a by (unfold pages; lia). destruct fuel, s; (split; [done|apply filled_none]).
  - destruct fuel as [|fuel]; [lia|]. rewrite pages_S. pose proof (pages_pos k).
    set (m1 := copy_page (a - PGSZ - d) (a - PGSZ) (mem s)).
    destruct (IH fuel d (a - PGSZ) (set_mem m1 s)) as (m' & E & F); [lia|done|].
    exists m'. split.
    + cbn [copy_up]. replace (0 <? PGSZ + pages k) with true by (unfold PGSZ in *; lia).
      change (copy_up fuel d (a - PGSZ) (PGSZ + pages k - PGSZ) (set_mem m1 s) = Done (a - (PGSZ + pages k)) (set_mem m' s)).
      replace (PGSZ + pages k - PGSZ) with (pages k) by lia. rewrite E. f_equal; lia.
    + pose proof (copy_page_filled (a - PGSZ - d) (a - PGSZ) (mem s)) as F1. fold m1 in F1.
      replace (a - (PGSZ + pages k)) with (a - PGSZ - pages k) by lia.
      apply (filled_below _ _ _ _ _ m1); [unfold PGSZ; lia|done| | |].
      * intros x. rewrite F1. case_decide; [|done]. f_equal. lia.
      * intros x Hx. rewrite (filled_in _ _ _ _ _ _ F Hx). cbn [mem set_mem]. apply (filled_out _ _ _ _ _ _ F1). within.
      * intros x Hx. by rewrite (filled_out _ _ _ _ _ _ F Hx).
Qed.

Lemma clear_down_ok k : forall fuel a s, (k <= fuel)%nat ->
  exists m', clear_down fuel a (pages k) s = Done tt (set_mem m' s) /\ filled (mem s) (a - pages k) (pages k) (fun _ => 0) m'.
Proof.
  induction k as [|k IH]; intros fuel a s Hf.
  - exists (mem s). destruct fuel, s; (split; [done|apply filled_none]).
  - destruct fuel as [|fuel]; [lia|]. rewrite pages_S. pose proof (pages_pos k).
    set (m1 := clear_page (a - PGSZ) (mem s)). destruct (IH fuel (a - PGSZ) (set_mem m1 s)) as (m' & E & F); [lia|].
    exists m'. split.
    + cbn [clear_down]. replace (0 <? PGSZ + pages k) with true by (unfold PGSZ in *; lia).
      cbn [mbind M_bind clearseg upd]. fold m1. replace (PGSZ + pages k - PGSZ) with (pages k) by lia. exact E.
    + replace (a - (PGSZ + pages k)) with (a - PGSZ - pages k) by lia.
      apply (filled_below _ _ _ _ _ m1); [unfold PGSZ; lia|done|apply clear_page_filled| |].
      * intros x Hx. by rewrite (filled_in _ _ _ _ _ _ F Hx).
      * intros x Hx. by rewrite (filled_out _ _ _ _ _ _ F Hx).
Qed.

Lemma clear_up_ok k : forall fuel a s, (k <= fuel)%nat ->
  exists m', clear_up fuel a (pages k) s = Done tt (set_mem m' s) /\ filled (mem s) a (pages k) (fun _ => 0) m'.
Proof.
  induction k as [|k IH]; intros fuel a s Hf.
  - exists (mem s). destruct fuel, s; (split; [done|apply filled_none]).
  - destruct fuel as [|fuel]; [lia|]. rewrite pages_S. pose proof (pages_pos k).
    set (m1 := clear_page a (mem s)). destruct (IH fuel (a + PGSZ) (set_mem m1 s)) as (m' & E & F); [lia|].
    exists m'. split.
    + cbn [clear_up]. replace (0 <? PGSZ + pages k) with true by (unfold PGSZ in *; lia).
      cbn [mbind M_bind clearseg upd]. fold m1. replace (PGSZ + pages k - PGSZ) with (pages k) by lia. exact E.
    + apply (filled_join _ _ _ _ _ m1); [unfold PGSZ; lia|done|apply clear_page_filled| |].
      * intros x Hx. by rewrite (filled_in _ _ _ _ _ _ F Hx).
      * intros x Hx. by rewrite (filled_out _ _ _ _ _ _ F Hx).
Qed.

Section Spec.
Context (uflush : (Z -> Z) -> Z -> Z -> Z) (ioerr : Z -> bool).
Hypothesis no_ioerr : forall b, ioerr b = false.
(** At most the page of the home is written. *)
Hypothesis uflush_page : forall m a x, ~ within a PGSZ x -> uflush m a x = m x.

Notation swap_loop := (swap_loop ioerr).
Notation swap := (swap ioerr).
Notation xswap := (xswap uflush ioerr).
Notation swapin := (swapin ioerr).
Notation expand := (expand uflush ioerr).
Notation xccdec := (xccdec ioerr).
Notation clear_tail := (clear_tail ioerr).

(** ** The swap area *)

Definition at_blk (b : Z) : Z := BSIZEW * b.

Lemma wtodb_page : wtodb PGSZ = 2.
Proof. reflexivity. Qed.

Lemma at_blk_next b : at_blk (b + 2) = at_blk b + PGSZ.
Proof. unfold at_blk, BSIZEW, PGSZ. lia. Qed.

Lemma swap_loop_step fuel blk core k write s :
  swap_loop (S fuel) blk core (pages (S k)) write false s =
  swap_loop fuel (blk + 2) (core + PGSZ) (pages k) write false (exchange blk core PGSZ write s).
Proof.
  pose proof (pages_pos k). rewrite pages_S. cbn [Image.swap_loop].
  replace (PGSZ + pages k =? 0) with false by (unfold PGSZ; lia).
  replace (if PGSZ <? PGSZ + pages k then PGSZ else PGSZ + pages k) with PGSZ
    by (destruct (Z.ltb_spec PGSZ (PGSZ + pages k)); [done|lia]).
  rewrite no_ioerr, wtodb_page. by replace (PGSZ + pages k - PGSZ) with (pages k) by lia.
Qed.

Lemma swap_write_loop k : forall fuel blk core s, (k <= fuel)%nat ->
  exists w', swap_loop fuel blk core (pages k) true false s = Done false (set_swp w' s) /\
    filled (swp s) (at_blk blk) (pages k) (fun x => mem s (core + (x - at_blk blk))) w'.
Proof.
  induction k as [|k IH]; intros fuel blk core s Hf.
  - exists (swp s). destruct fuel, s; (split; [done|apply filled_none]).
  - destruct fuel as [|fuel]; [lia|]. rewrite swap_loop_step. set (s1 := exchange blk core PGSZ true s).
    destruct (IH fuel (blk + 2) (core + PGSZ) s1) as (w' & E & F); [lia|]. exists w'. split; [exact E|].
    assert (filled (swp s) (at_blk blk) PGSZ (fun x => mem s (core + (x - at_blk blk))) (swp s1)) as F1.
    { intros x. unfold s1, exchange, within, at_blk. cbn [set_swp swp].
      case_decide; destruct ((BSIZEW * blk <=? x) && (x <? BSIZEW * blk + PGSZ)) eqn:T; done || lia. }
    rewrite pages_S. rewrite at_blk_next in F. apply (filled_join _ _ _ _ _ (swp s1)); [done|done|done| |].
    + intros x Hx. rewrite (filled_in _ _ _ _ _ _ F Hx). change (mem s1) with (mem s). f_equal. lia.
    + intros x Hx. by rewrite (filled_out _ _ _ _ _ _ F Hx).
Qed.

Lemma swap_read_loop k : forall fuel blk core s, (k <= fuel)%nat ->
  exists m', swap_loop fuel blk core (pages k) false false s = Done false (set_mem m' s) /\
    filled (mem s) core (pages k) (fun x => swp s (at_blk blk + (x - core))) m'.
Proof.
  induction k as [|k IH]; intros fuel blk core s Hf.
  - exists (mem s). destruct fuel, s; (split; [done|apply filled_none]).
  - destruct fuel as [|fuel]; [lia|]. rewrite swap_loop_step. set (s1 := exchange blk core PGSZ false s).
    destruct (IH fuel (blk + 2) (core + PGSZ) s1) as (m' & E & F); [lia|]. exists m'. split; [exact E|].
    assert (filled (mem s) core PGSZ (fun x => swp s (at_blk blk + (x - core))) (mem s1)) as F1.
    { intros x. unfold s1, exchange, within, at_blk. cbn [set_mem mem].
      case_decide; destruct ((core <=? x) && (x <? core + PGSZ)) eqn:T; done || lia. }
    rewrite pages_S. apply (filled_join _ _ _ _ _ (mem s1)); [done|done|done| |].
    + intros x Hx. rewrite (filled_in _ _ _ _ _ _ F Hx), at_blk_next. change (swp s1) with (swp s). f_equal. lia.
    + intros x Hx. by rewrite (filled_out _ _ _ _ _ _ F Hx).
Qed.

Lemma pages_fuel k : (k <= Z.to_nat (pages k))%nat.
Proof. unfold pages, PGSZ. lia. Qed.

Lemma swap_out_ok blk core k s : exists w', swap blk core (pages k) true s = Done tt (set_swp w' s) /\
  filled (swp s) (at_blk blk) (pages k) (fun x => mem s (core + (x - at_blk blk))) w'.
Proof.
  destruct (swap_write_loop k _ blk core s (pages_fuel k)) as (w' & E & F). exists w'. split; [|done].
  unfold Image.swap. by rewrite (bind_done _ _ _ _ _ E).
Qed.

Lemma swap_in_ok blk core k s : exists m', swap blk core (pages k) false s = Done tt (set_mem m' s) /\
  filled (mem s) core (pages k) (fun x => swp s (at_blk blk + (x - core))) m'.
Proof.
  destruct (swap_read_loop k _ blk core s (pages_fuel k)) as (m' & E & F). exists m'. split; [|done].
  unfold Image.swap. by rewrite (bind_done _ _ _ _ _ E).
Qed.

(** ** The maps of core and swap space

    [pool mp l n]: [l] are the free runs, and the table has room for [n] more. *)
Definition pool (mp l : list map) (n : nat) : Prop := wf_map mp l /\ (length l + n < length mp)%nat.

Lemma malloc_pool mp l n size : pool mp l n -> 0 < size ->
  malloc mp size = Some (0, mp) \/
  exists a mp' l', malloc mp size = Some (a, mp') /\ 0 < a /\ pool mp' l' n /\ contains l size a /\ minus l' l size a /\
    exists e, e ∈ l /\ m_addr e = a.
Proof.
  intros [W L] Hs. pose proof (wf_asc _ _ W) as Asc. destruct (fit l size) as [[a l']|] eqn:F; [right|left; by eapply malloc_nofit].
  destruct (malloc_fit _ _ _ _ _ W Hs F) as (mp' & E & W' & L'). destruct (fit_spec _ _ _ _ _ Asc Hs F) as (_ & ? & ? & ?).
  exists a, mp', l'. pose proof (fit_length _ _ _ _ F). split; [done|]. split; [done|]. split; [split; [done|lia]|].
  split; [done|]. split; [done|]. destruct (fit_first _ _ _ _ F) as (l1 & e & l2 & -> & <- & _). exists e. split; [apply elem_of_app; right; by left|done].
Qed.

Lemma mfree_pool c r mp l n size a : pool mp l (S n) -> 0 < size -> 0 < a -> disjoint l size a ->
  exists mp' l' r' w, mfree c r mp size a = Some (Mfreed mp' r' w) /\ pool mp' l' n /\ plus l' l size a.
Proof.
  intros [W L] Hs Ha D. destruct (give_spec 0 l size a (wf_asc _ _ W) Ha Hs D) as [Asc P]. pose proof (give_length l size a).
  destruct (mfree_map_spec mp l size a W Hs) as (tail & E & Len & T & Z); [lia|].
  exists (give l size a ++ tail), (give l size a). unfold mfree. rewrite E. do 2 eexists. split; [reflexivity|].
  split; [|done]. split; [split; [by exists tail|done]|lia].
Qed.

(** Nothing freed is nothing changed. *)
Lemma mfree_zero c r mp l a : wf_map mp l -> exists r' w, mfree c r mp 0 a = Some (Mfreed mp r' w).
Proof.
  intros [(tail & -> & Htl & Hz) Asc]. unfold mfree. destruct (split_at a 0 l Asc) as (l1 & l2 & -> & H1 & H2).
  destruct tail as [|t rest]; [done|]. apply Forall_cons_iff in Hz as [Ht _].
  destruct (ascending_app _ _ _ Asc) as (_ & hi & _ & Asc2). pose proof (ascending_nonzero _ _ Asc2) as Hnz2.
  set (mp := (l1 ++ l2) ++ t :: rest). assert (mfree_map mp 0 a = Some mp) as ->; [|by do 2 eexists].
  assert (forall fuel pre, mfree_insert fuel (pre ++ l2 ++ t :: rest) (length pre) 0 a = Some (pre ++ l2 ++ t :: rest)) as Ins.
  { intros fuel pre. unfold mfree_insert. destruct l2 as [|e l2]; cbn [app]; rewrite lookup_app_here; cbn [mbind option_bind].
    - rewrite Ht, andb_false_r. done.
    - destruct (_ && _); [|done]. rewrite insert_app_here, Z.add_0_r, Z.sub_0_r. by destruct e. }
  unfold mfree_map. cbv zeta. assert (length l1 < S (length mp))%nat as Hf by (unfold mp; rewrite !length_app; lia).
  assert (0 < S (length mp))%nat as Hf0 by lia. revert Hf Hf0. generalize (S (length mp)). intros fuel Hf Hf0.
  assert (mfree_scan fuel mp 0 a = Some (length l1)) as ->.
  { unfold mp. rewrite <- app_assoc. destruct l2 as [|e l2].
    - apply (mfree_scan_spec _ [] l1 t rest a); [done | by right | lia].
    - apply (mfree_scan_spec _ [] l1 e (l2 ++ t :: rest) a); [done | by left | lia]. }
  cbn [mbind option_bind]. unfold mp. rewrite <- app_assoc. destruct l1 as [|p l1 _] using rev_ind; [apply (Ins _ [])|].
  rewrite length_snoc, <- app_assoc. cbn [app]. rewrite lookup_app_here. cbn [mbind option_bind].
  destruct (Z.eqb_spec (m_addr p + m_size p) a) as [E|E].
  - unfold mfree_merge. rewrite lookup_app_here. cbn [mbind option_bind]. rewrite !Z.add_0_r.
    assert (Map (m_size p) (m_addr p) = p) as -> by (by destruct p).
    destruct l2 as [|e l2]; cbn [app]; rewrite lookup_app_next; cbn [mbind option_bind]; rewrite insert_app_here.
    + rewrite Ht, ?Z.add_0_r. destruct (a =? m_addr t); [|done]. destruct fuel; [lia|]. simpl.
      rewrite insert_app_here, lookup_app_next. simpl. rewrite Ht. simpl. by destruct p.
    + simpl in H2. by replace (a =? m_addr e) with false by lia.
  - advance p l1. rewrite Ins. by rewrite <- !app_assoc.
Qed.

(** Free core is whole pages. *)
Definition paged (l : list map) : Prop :=
  (forall x y, x / PGSZ = y / PGSZ -> holds l x -> holds l y) /\ (forall x, holds l x -> PGSZ <= x < PGSZ * PGSZ).

Lemma before_free lo l e : ascending lo l -> e ∈ l -> lo < m_addr e /\ ~ holds l (m_addr e - 1).
Proof.
  revert lo. induction l as [|c l IH]; intros lo A He; [by apply not_elem_of_nil in He|].
  destruct A as (? & ? & A). rewrite holds_cons. apply elem_of_cons in He as [-> | He].
  - split; [done|]. intros [? | Hx%(holds_above _ _ _ A)]; unfold end_of in *; lia.
  - destruct (IH _ A He) as [? N]. unfold end_of in *. split; [lia|]. intros [? | Hx]; [lia|done].
Qed.

Lemma ascending_size lo l e : ascending lo l -> e ∈ l -> 0 < m_size e.
Proof.
  revert lo. induction l as [|c l IH]; intros lo A He; [by apply not_elem_of_nil in He|].
  destruct A as (_ & ? & A). apply elem_of_cons in He as [-> | He]; [done|]. by eapply IH.
Qed.

Lemma paged_start l e : ascending 0 l -> paged l -> e ∈ l -> m_addr e mod PGSZ = 0.
Proof.
  intros A [P B] He. destruct (before_free _ _ _ A He) as [_ N].
  destruct (Z.eq_dec (m_addr e mod PGSZ) 0) as [|Hne]; [done|]. destruct N.
  apply (P (m_addr e)).
  - unfold PGSZ in *. rewrite (Z.div_mod (m_addr e) 1024) at 2 by lia. pose proof (Z.mod_pos_bound (m_addr e) 1024).
    apply Z.div_unique with (m_addr e mod 1024 - 1); lia.
  - exists e. split; [done|]. unfold end_of. pose proof (ascending_size _ _ _ A He). lia.
Qed.

Lemma div_page p i : 0 <= i < PGSZ -> (PGSZ * p + i) / PGSZ = p.
Proof. intros H. symmetry. apply Z.div_unique with i; lia. Qed.

Lemma run_page p n x y : x / PGSZ = y / PGSZ -> within (PGSZ * p) (PGSZ * n) x -> within (PGSZ * p) (PGSZ * n) y.
Proof.
  unfold within, PGSZ. intros E. pose proof (Z.div_mod x 1024). pose proof (Z.div_mod y 1024).
  pose proof (Z.mod_pos_bound x 1024). pose proof (Z.mod_pos_bound y 1024). lia.
Qed.

Lemma paged_minus l l' p n : paged l -> minus l' l (PGSZ * n) (PGSZ * p) -> paged l'.
Proof.
  intros [P B] M. split.
  - intros x y E. rewrite !(M _). intros [H N]. split; [by apply (P x)|]. intros Hy. apply N.
    by apply (run_page p n y x).
  - intros x [H _]%M. auto.
Qed.

Lemma paged_plus l l' p n : paged l -> 0 < p -> p + n <= PGSZ -> plus l' l (PGSZ * n) (PGSZ * p) -> paged l'.
Proof.
  intros [P B] Hp Hn M. split.
  - intros x y E. rewrite !(M _). intros [H | H]; [left; by apply (P x)|right]. by apply (run_page p n x y).
  - intros x [H | H]%M; [auto|]. unfold PGSZ in *. lia.
Qed.

(** ** A process in core, and on the swap area

    [t] is the text: its first page in core and its pages.  [dp] is the page where the image
    begins and [1 + k] its pages.  [l] and [ls] are free core and free swap space.  [T] are the words of
    the text and [I] those of the image; its first page, the u page, is not among them. *)

Definition clean_flag (xp : text) : Prop := x_flag xp = 0 \/ x_flag xp = XWRIT.

(** The text's copy on the swap area is good unless the text was written. *)
Record text_slot (s : st) (xp : text) (tn : Z) (ls : list map) (T : Z -> Z) : Prop := {
  tx_size : x_size xp = PGSZ * tn;
  tx_some : 0 < tn;
  tx_flag : clean_flag xp;
  tx_slot : 0 < x_daddr xp /\ disjoint ls (2 * tn) (x_daddr xp);
  tx_copy : x_flag xp = 0 -> forall i, within 0 (PGSZ * tn) i -> swp s (at_blk (x_daddr xp) + i) = T i
}.

Definition text_core (s : st) (tp tn : Z) (l : list map) (T : Z -> Z) : Prop :=
  0 < tp /\ tp + tn <= PGSZ /\ disjoint l (PGSZ * tn) (PGSZ * tp) /\
  forall i, within 0 (PGSZ * tn) i -> mem s (PGSZ * tp + i) = T i.

Definition apart (a n b m : Z) : Prop := a + n <= b \/ b + m <= a.

Record text_in (s : st) (xp : text) (tp tn dp k : Z) (l ls : list map) (T : Z -> Z) : Prop := {
  ti_slot : text_slot s xp tn ls T;
  ti_core : text_core s tp tn l T;
  ti_count : 0 < x_ccount xp <= 255;
  ti_caddr : x_caddr (ut s) = Some (PGSZ * tp);
  ti_apart : apart tp tn dp (1 + k)
}.

Record resident (s : st) (t : option (Z * Z)) (dp k : Z) (n : nat) (l : list map) (j : nat) (ls : list map) (T I : Z -> Z) : Prop := {
  re_addr : p_addr (ut s) = PGSZ * dp;
  re_size : p_size s = PGSZ * (1 + k);
  re_pos : 0 < dp /\ 0 <= k /\ dp + 1 + k <= PGSZ;
  re_core : pool (coremap s) l n;
  re_paged : paged l;
  re_img : disjoint l (PGSZ * (1 + k)) (PGSZ * dp);
  re_swap : pool (swapmap s) ls j;
  re_words : forall i, PGSZ <= i < PGSZ * (1 + k) -> mem s (PGSZ * dp + i) = I i;
  re_text : match t, p_textp s with
            | Some (tp, tn), Some xp => text_in s xp tp tn dp k l ls T
            | None, None => x_caddr (ut s) = None
            | _, _ => False
            end
}.

Definition text_out (s : st) (xp : text) (tn : Z) (l ls : list map) (T : Z -> Z) : Prop :=
  text_slot s xp tn ls T /\
  (x_ccount xp = 0 /\ x_flag xp = 0 \/
   0 < x_ccount xp < 255 /\ exists tp, x_caddr (ut s) = Some (PGSZ * tp) /\ text_core s tp tn l T).

(** [t] is the number of pages of the text. *)
Record outside (s : st) (t : option Z) (k : Z) (n : nat) (l : list map) (j : nat) (ls : list map) (T I : Z -> Z) : Prop := {
  ou_size : p_size s = PGSZ * (1 + k);
  ou_pos : 0 <= k;
  ou_core : pool (coremap s) l n;
  ou_paged : paged l;
  ou_swap : pool (swapmap s) ls j;
  ou_slot : 0 < p_addr (ut s) /\ disjoint ls (2 * (1 + k)) (p_addr (ut s));
  ou_words : forall i, PGSZ <= i < PGSZ * (1 + k) -> swp s (at_blk (p_addr (ut s)) + i) = I i;
  ou_text : match t, p_textp s with
            | Some tn, Some xp => text_out s xp tn l ls T /\ apart (x_daddr xp) (2 * tn) (p_addr (ut s)) (2 * (1 + k))
            | None, None => x_caddr (ut s) = None
            | _, _ => False
            end
}.

(** ** Steps of the code *)

Lemma core_malloc_ok s l n size : pool (coremap s) l n -> 0 < size ->
  (core_malloc size s = Done 0 (set_coremap (coremap s) s)) \/
  exists a mp' l', core_malloc size s = Done a (set_coremap mp' s) /\ 0 < a /\ pool mp' l' n /\ contains l size a /\
    minus l' l size a /\ exists e, e ∈ l /\ m_addr e = a.
Proof.
  intros P Hs. unfold core_malloc. destruct (malloc_pool _ _ _ _ P Hs) as [-> | (a & mp' & l' & -> & ?)]; [by left|right].
  by exists a, mp', l'.
Qed.

(** Core from a map of whole pages. *)
Lemma core_malloc_page s l n k : pool (coremap s) l n -> paged l -> 0 < k ->
  core_malloc (PGSZ * k) s = Done 0 (set_coremap (coremap s) s) \/
  exists p mp' l', core_malloc (PGSZ * k) s = Done (PGSZ * p) (set_coremap mp' s) /\ 0 < p /\ p + k <= PGSZ /\
    pool mp' l' n /\ paged l' /\ contains l (PGSZ * k) (PGSZ * p) /\ minus l' l (PGSZ * k) (PGSZ * p).
Proof.
  intros P G Hk. destruct (core_malloc_ok s l n (PGSZ * k) P) as [E | (a & mp' & l' & E & Ha & P' & C & M & e & He & <-)];
    [unfold PGSZ; lia|by left|right].
  pose proof (paged_start _ _ (wf_asc _ _ (proj1 P)) G He) as E0. apply Z.mod_divide in E0 as [p Ep]; [|unfold PGSZ; lia].
  replace (m_addr e) with (PGSZ * p) in * by (rewrite Ep; apply Z.mul_comm). exists p, mp', l'.
  pose proof (proj2 G (PGSZ * p) (C (PGSZ * p) ltac:(unfold PGSZ; lia))) as B1.
  pose proof (proj2 G (PGSZ * p + PGSZ * k - 1) (C (PGSZ * p + PGSZ * k - 1) ltac:(unfold PGSZ; lia))) as B2.
  unfold PGSZ in B1, B2. split; [done|]. split; [lia|]. split; [unfold PGSZ; lia|]. split; [done|]. split; [by eapply paged_minus|done].
Qed.

Lemma core_mfree_ok s l n size a : pool (coremap s) l (S n) -> 0 < size -> 0 < a -> disjoint l size a ->
  exists mp' l' r w, core_mfree size a s = Done tt (set_coremap mp' (set_runin r (set_woken w s))) /\
    pool mp' l' n /\ plus l' l size a.
Proof.
  intros P Hs Ha D. unfold core_mfree. destruct (mfree_pool true (runin s) _ _ _ _ _ P Hs Ha D) as (mp' & l' & r & w & -> & ? & ?).
  exists mp', l', r, (if w then woken s ++ [Runin] else woken s). split; [|done]. by destruct w, s.
Qed.

Lemma core_mfree_0 s l a : wf_map (coremap s) l ->
  exists r w, core_mfree 0 a s = Done tt (set_coremap (coremap s) (set_runin r (set_woken w s))).
Proof.
  intros W. unfold core_mfree. destruct (mfree_zero true (runin s) _ _ a W) as (r & w & ->).
  exists r, (if w then woken s ++ [Runin] else woken s). by destruct w, s.
Qed.

(** ** The map of an image *)

Definition img (t : option (Z * Z)) (dp dn sn : Z) : image :=
  match t with Some (tp, tn) => Image tp dp tn dn sn | None => Image dp dp 0 dn sn end.

Lemma sureg_total m u : image_fits m -> describes m u -> exists u', sureg u = Some u' /\ describes m u' /\
  (image_ok m -> maps m (u_upt u')) /\ x_caddr u' = x_caddr u /\ u_error u' = u_error u /\ maxmem u' = maxmem u.
Proof.
  intros Ok D. destruct (sureg_walk m u Ok D) as (pg & prot & E & Hpg). eexists. split; [exact E|]. cbn.
  split; [exact D|]. split; [|done]. intros Hi. apply table_maps; [done|]. intros v Hv. by apply Hpg.
Qed.

Lemma sureg_ok m u : image_ok m -> describes m u -> exists u', sureg u = Some u' /\ describes m u' /\ maps m (u_upt u') /\
  x_caddr u' = x_caddr u /\ u_error u' = u_error u /\ maxmem u' = maxmem u.
Proof.
  intros Ok D. destruct (sureg_total m u (image_ok_fits m Ok) D) as (u' & E & D' & Mp & X). exists u'. split_and!; try apply X; auto.
Qed.

(** ** Residence is a matter of a few words of the state *)

Lemma pool_weaken mp l n : pool mp l (S n) -> pool mp l n.
Proof. intros [? ?]. split; [done|lia]. Qed.

Lemma text_slot_eq s s' xp tn ls T : text_slot s xp tn ls T -> swp s' = swp s -> text_slot s' xp tn ls T.
Proof. intros [A B C D E] W. split; try done. by rewrite W. Qed.

Lemma text_in_eq s s' xp tp tn dp k l ls T dp' k' l' :
  text_in s xp tp tn dp k l ls T -> swp s' = swp s -> x_caddr (ut s') = x_caddr (ut s) ->
  (forall x, within (PGSZ * tp) (PGSZ * tn) x -> mem s' x = mem s x) ->
  disjoint l' (PGSZ * tn) (PGSZ * tp) -> apart tp tn dp' (1 + k') -> text_in s' xp tp tn dp' k' l' ls T.
Proof.
  intros [A (B1 & B2 & B3 & B4) C D E] W X Mm Dj Ap. split; try done; [by eapply text_slot_eq| |by rewrite X].
  split_and!; try done. intros i Hi. rewrite Mm; [by apply B4|]. within.
Qed.

Lemma disjoint_plus l l' size a p n : plus l' l size a -> disjoint l (PGSZ * n) (PGSZ * p) ->
  (forall x, within (PGSZ * p) (PGSZ * n) x -> ~ within a size x) -> disjoint l' (PGSZ * n) (PGSZ * p).
Proof. intros P D A x Hx [H | H]%P; [by apply (D x)|]. by apply (A x). Qed.

Lemma disjoint_minus l l' size a n p : minus l' l size a -> disjoint l n p -> disjoint l' n p.
Proof. intros P D x Hx [H _]%P. by apply (D x). Qed.

Lemma disjoint_taken l l' n p : minus l' l n p -> disjoint l' n p.
Proof. intros P x Hx [_ H]%P. done. Qed.

Lemma disjoint_sub l n p n' p' : disjoint l n p -> p <= p' -> p' + n' <= p + n -> disjoint l n' p'.
Proof. intros D ? ? x Hx. apply D. lia. Qed.

(** What is free and what is not are apart. *)
Lemma free_apart l p n q k : contains l (PGSZ * n) (PGSZ * p) -> disjoint l (PGSZ * k) (PGSZ * q) -> 0 < n -> 0 < k -> apart p n q k.
Proof.
  intros C D Hn Hk. unfold apart. destruct (Z_le_gt_dec (p + n) q), (Z_le_gt_dec (q + k) p); [lia..|].
  exfalso. apply (D (PGSZ * Z.max p q)); [unfold PGSZ; lia|]. apply C. unfold PGSZ. lia.
Qed.

Lemma resident_same s s' t dp k n l j ls T I : resident s t dp k n l j ls T I ->
  mem s' = mem s -> swp s' = swp s -> coremap s' = coremap s -> swapmap s' = swapmap s -> ut s' = ut s ->
  p_size s' = p_size s -> p_textp s' = p_textp s -> resident s' t dp k n l j ls T I.
Proof.
  intros [Ra Rs Rp Rc Rg Ri Rw Rx Rt] Em Es Ec Ew Eu Ez Et.
  split; rewrite ?Ec, ?Ew, ?Eu, ?Ez, ?Em, ?Et; try done.
  - destruct t as [[tp tn]|], (p_textp s) as [xp|]; try done.
    pose proof Rt as [_ (_ & _ & ? & _) _ _ ?]. eapply text_in_eq; [exact Rt|done|by rewrite Eu|by rewrite Em|done..].
Qed.

Lemma resident_slack s t dp k n l j ls T I : resident s t dp k (S n) l j ls T I -> resident s t dp k n l j ls T I.
Proof. intros [Ra Rs Rp Rc Rg Ri Rw Rx Rt]. split; try done. by apply pool_weaken. Qed.

(** ** [expand] *)

Lemma expand_shrink s t dp k n l j ls T I k' : resident s t dp k (S n) l j ls T I -> 0 <= k' <= k ->
  exists s' l', expand (PGSZ * (1 + k')) s = Done true s' /\ resident s' t dp k' n l' j ls T I /\ ut s' = ut s.
Proof.
  intros R Hk. pose proof R as [Ra Rs Rp Rc Rg Ri Rw Rx Rt]. unfold Image.expand.
  go. rewrite Rs. cbn [ut set_p_size]. rewrite Ra. replace (PGSZ * (1 + k') <=? PGSZ * (1 + k)) with true by (unfold PGSZ; lia).
  set (s1 := set_p_size (PGSZ * (1 + k')) s).
  destruct (Z.eq_dec k' k) as [-> |Hne].
  - replace (PGSZ * (1 + k) - PGSZ * (1 + k)) with 0 by lia.
    destruct (core_mfree_0 s1 l (PGSZ * dp + PGSZ * (1 + k)) (proj1 Rc)) as (r & w & E). rewrite (bind_done _ _ _ _ _ E).
    eexists _, l. split; [reflexivity|]. split; [|done].
    apply resident_slack. eapply resident_same; [exact R|done..].
  - replace (PGSZ * (1 + k) - PGSZ * (1 + k')) with (PGSZ * (k - k')) by lia.
    replace (PGSZ * dp + PGSZ * (1 + k')) with (PGSZ * (dp + 1 + k')) by lia.
    destruct (core_mfree_ok s1 l n (PGSZ * (k - k')) (PGSZ * (dp + 1 + k'))) as (mp' & l' & r & w & E & P & M);
      [done|unfold PGSZ; lia|unfold PGSZ; lia|apply (disjoint_sub _ _ _ _ _ Ri); unfold PGSZ; lia|].
    rewrite (bind_done _ _ _ _ _ E). eexists _, l'. split; [reflexivity|]. split; [|done]. split; cbn; try done.
    + unfold PGSZ in *; lia.
    + eapply paged_plus; [done| | |exact M]; unfold PGSZ in *; lia.
    + eapply disjoint_plus; [exact M|apply (disjoint_sub _ _ _ _ _ Ri); unfold PGSZ; lia|within].
    + intros i Hi. apply Rx. unfold PGSZ in *; lia.
    + destruct t as [[tp tn]|], (p_textp s) as [xp|]; try done. eapply text_in_eq; [exact Rt|done..| |].
      * eapply disjoint_plus; [exact M|apply (ti_core _ _ _ _ _ _ _ _ _ Rt)|].
        pose proof (ti_apart _ _ _ _ _ _ _ _ _ Rt). unfold apart in *. within.
      * pose proof (ti_apart _ _ _ _ _ _ _ _ _ Rt). unfold apart in *. lia.
Qed.

(** The sizes in the u-area are those of an image at any page [p] with room for it. *)
Definition sized (u : utab) (t : option (Z * Z)) (k dn sn : Z) : Prop :=
  forall p, 0 < p -> p + 1 + k <= PGSZ -> image_ok (img t p dn sn) /\ describes (img t p dn sn) (set_addr (PGSZ * p) u).

(** In core, the map set up for it. *)
Definition mapped (s : st) (t : option (Z * Z)) (dp dn sn : Z) : Prop :=
  image_ok (img t dp dn sn) /\ describes (img t dp dn sn) (ut s) /\ maps (img t dp dn sn) (u_upt (ut s)).

Lemma sureg_mapped s t dp dn sn : image_ok (img t dp dn sn) -> describes (img t dp dn sn) (ut s) ->
  exists u', sureg_ s = Done tt (set_ut u' s) /\ mapped (set_ut u' s) t dp dn sn /\
    x_caddr u' = x_caddr (ut s) /\ p_addr u' = p_addr (ut s) /\ u_error u' = u_error (ut s).
Proof.
  intros Ok D. destruct (sureg_ok _ _ Ok D) as (u' & E & D' & Mp & Xc & Xe & _). exists u'. unfold sureg_. go. rewrite E.
  split; [done|]. split; [by split_and!|]. split; [done|]. split; [|done]. destruct D as (_ & _ & _ & -> & _). by destruct D' as (_ & _ & _ & -> & _).
Qed.

Definition keeps (k : Z) (I I' : Z -> Z) : Prop := forall i, PGSZ <= i < PGSZ * (1 + k) -> I' i = I i.

(** The image has moved to page [p]: the words are copied, the old core is free. *)
Lemma resident_moved s s' t dp k n l j ls T I k' p m' mp' l' mp2 l2 :
  resident s t dp k n l j ls T I -> 0 <= k <= k' ->
  0 < p -> p + (1 + k') <= PGSZ -> contains l (PGSZ * (1 + k')) (PGSZ * p) -> minus l' l (PGSZ * (1 + k')) (PGSZ * p) ->
  filled (mem s) (PGSZ * p + PGSZ) (PGSZ * k) (fun x => mem s (PGSZ * dp + (x - PGSZ * p))) m' ->
  pool mp' l' n -> pool mp2 l2 n -> plus l2 l' (PGSZ * (1 + k)) (PGSZ * dp) ->
  mem s' = m' -> swp s' = swp s -> coremap s' = mp2 -> swapmap s' = swapmap s -> p_addr (ut s') = PGSZ * p ->
  x_caddr (ut s') = x_caddr (ut s) -> p_size s' = PGSZ * (1 + k') -> p_textp s' = p_textp s ->
  exists I', resident s' t p k' n l2 j ls T I' /\ keeps k I I'.
Proof.
  intros [Ra Rs Rp Rc Rg Ri Rw Rx Rt] Hk Hp Hpk C M F P1 P2 Pl Em Es Ec Ew Ea Ex Ez Et.
  pose proof (free_apart _ _ _ _ _ C Ri ltac:(lia) ltac:(lia)) as Ap.
  exists (fun i => m' (PGSZ * p + i)). split.
  - split; rewrite ?Em, ?Ec, ?Ew, ?Ez, ?Et; try done; [lia| | |].
    + eapply paged_plus; [eapply paged_minus; [exact Rg|exact M]| | |exact Pl]; lia.
    + eapply disjoint_plus; [exact Pl|by eapply disjoint_taken|]. unfold apart in *. within.
    + destruct t as [[tp tn]|], (p_textp s) as [xp|]; try done; [|by rewrite Ex].
      pose proof Rt as [Sl (Tp & Tb & Td & Tw) Tc Ta Tap]. pose proof (tx_some _ _ _ _ _ Sl).
      pose proof (free_apart _ _ _ _ _ C Td ltac:(lia) ltac:(lia)) as Ap2.
      eapply text_in_eq; [exact Rt|done|done| | |unfold apart in *; lia].
      * intros x Hx. rewrite Em, (filled_out _ _ _ _ _ _ F); [done|]. unfold apart in *. within.
      * eapply disjoint_plus; [exact Pl|by eapply disjoint_minus|]. unfold apart in *. within.
  - intros i Hi. rewrite (filled_in _ _ _ _ _ _ F) by within. rewrite <- Rx by done. f_equal. lia.
Qed.

Lemma expand_move s t dp k n l j ls T I k' dn sn p mp' l' : resident s t dp k (S n) l j ls T I -> 0 <= k < k' -> sized (ut s) t k' dn sn ->
  core_malloc (PGSZ * (1 + k')) (set_p_size (PGSZ * (1 + k')) s) = Done (PGSZ * p) (set_coremap mp' (set_p_size (PGSZ * (1 + k')) s)) ->
  0 < p -> p + (1 + k') <= PGSZ -> pool mp' l' (S n) -> contains l (PGSZ * (1 + k')) (PGSZ * p) -> minus l' l (PGSZ * (1 + k')) (PGSZ * p) ->
  exists s' l2 I', expand (PGSZ * (1 + k')) s = Done true s' /\ resident s' t p k' n l2 j ls T I' /\ keeps k I I' /\ mapped s' t p dn sn /\
    u_error (ut s') = u_error (ut s).
Proof.
  intros R Hk Hz E Hp Hpk P C M. pose proof R as [Ra Rs Rp Rc Rg Ri Rw Rx Rt]. unfold Image.expand.
  go. rewrite Rs. cbn [ut set_p_size]. rewrite Ra. replace (PGSZ * (1 + k') <=? PGSZ * (1 + k)) with false by (unfold PGSZ; lia).
  rewrite (bind_done _ _ _ _ _ E). cbv beta. replace (PGSZ * p =? 0) with false by (unfold PGSZ; lia). go.
  pose proof (free_apart _ _ _ _ _ C Ri ltac:(lia) ltac:(lia)) as Ap.
  set (s1 := set_ut _ _).
  assert (PGSZ * (1 + k) = PGSZ + pages (Z.to_nat k)) as Ek by (unfold pages, PGSZ; lia).
  destruct (copy_image_ok (Z.to_nat k) (Z.to_nat (PGSZ * (1 + k))) (PGSZ * dp) (PGSZ * p) PGSZ s1) as (m' & E1 & F1);
    [clear -Hk; unfold PGSZ; lia|clear -Ap Hk; unfold apart, pages, PGSZ in *; lia|].
  rewrite <- Ek in E1. rewrite (bind_done _ _ _ _ _ E1). go.
  set (s2 := set_uhome _ _).
  destruct (core_mfree_ok s2 l' n (PGSZ * (1 + k)) (PGSZ * dp)) as (mp2 & l2 & r & w & E2 & P2 & Pl);
    [done|unfold PGSZ; lia|unfold PGSZ; lia|by eapply disjoint_minus|].
  rewrite (bind_done _ _ _ _ _ E2). set (s3 := set_coremap _ _).
  destruct (Hz p Hp ltac:(lia)) as [Ok D].
  destruct (sureg_mapped s3 t p dn sn Ok D) as (u' & E3 & Mp & Xc & Xa & Xe). rewrite (bind_done _ _ _ _ _ E3).
  destruct (resident_moved s (set_ut u' s3) t dp k n l j ls T I k' p m' mp' l' mp2 l2) as (I' & R' & K); try done;
    [by apply resident_slack|lia| |by apply pool_weaken|].
  { replace (PGSZ * k) with (pages (Z.to_nat k)) by (unfold pages, PGSZ; lia). exact F1. }
  eexists _, l2, I'. split; [reflexivity|]. by split_and!.
Qed.

(** ** The text when a process leaves core *)

Lemma dec8_pos c : 0 < c <= 255 -> dec8 c = c - 1.
Proof. intros H. unfold dec8. apply Z.mod_small. lia. Qed.

Lemma inc8_small c : 0 <= c < 255 -> inc8 c = c + 1.
Proof. intros H. unfold inc8. apply Z.mod_small. lia. Qed.

(** What [xccdec] leaves alone. *)
Definition same_but_text (s s' : st) : Prop :=
  mem s' = mem s /\ ut s' = ut s /\ swapmap s' = swapmap s /\ p_size s' = p_size s /\ uhome s' = uhome s.

Lemma xlock_free xp s : clean_flag xp -> xlock xp s = Done tt (set_p_textp (Some (set_x_flag (x_flag xp |: XLOCK) xp)) s).
Proof. intros [E | E]; unfold xlock; by rewrite E. Qed.

Lemma mod_text_ok f s xp : p_textp s = Some xp -> mod_text f s = Done tt (set_p_textp (Some (f xp)) s).
Proof. intros E. unfold mod_text, upd. by rewrite E. Qed.

Lemma bind_the {A B} (a : A) (k : A -> M B) s : (the (Some a) ≫= k) s = k a s.
Proof. done. Qed.

Lemma xunlock_ok s xp : p_textp s = Some xp -> (x_flag xp &? XWANT) = false ->
  xunlock s = Done tt (set_p_textp (Some (set_x_flag (x_flag xp &~ (XLOCK |: XWANT)) xp)) s).
Proof. intros E F. unfold xunlock. go. rewrite E, bind_the, F. go. exact (mod_text_ok _ _ _ E). Qed.

Definition lock (xp : text) : text := set_x_flag (x_flag xp |: XLOCK) xp.
Definition unlock (xp : text) : text := set_x_flag (x_flag xp &~ (XLOCK |: XWANT)) xp.

(** The copy on the swap area is good, whether it had to be written or not. *)
Lemma write_text_ok s xp xq tp tn l ls T : text_slot s xp tn ls T -> text_core s tp tn l T -> p_textp s = Some xq ->
  exists w' fl, write_text ioerr xp (PGSZ * tp) s = Done tt (set_swp w' (set_p_textp (Some (set_x_flag fl xq)) s)) /\
    (x_flag xq = x_flag xp |: XLOCK -> fl = XLOCK) /\
    (forall i, within 0 (PGSZ * tn) i -> w' (at_blk (x_daddr xp) + i) = T i) /\
    (forall x, ~ within (at_blk (x_daddr xp)) (PGSZ * tn) x -> w' x = swp s x).
Proof.
  intros [Sz So [Fl | Fl] Sl Cp] (_ & _ & _ & Tw) E; unfold write_text; rewrite Fl.
  - exists (swp s), (x_flag xq). split_and!; [|by intros ->|by apply Cp|done]. destruct s, xq. cbn in E. by subst.
  - change (XWRIT &? XWRIT) with true. cbv iota. rewrite (bind_done _ _ _ _ _ (mod_text_ok _ _ _ E)).
    assert (PGSZ * tn = pages (Z.to_nat tn)) as Et by (unfold pages, PGSZ; lia). rewrite Sz, Et.
    destruct (swap_out_ok (x_daddr xp) (PGSZ * tp) (Z.to_nat tn) (set_p_textp (Some (set_x_flag (x_flag xq &~ XWRIT) xq)) s)) as (w' & Ew & F).
    exists w', (x_flag xq &~ XWRIT). split; [exact Ew|]. split; [by intros ->|]. split.
    + intros i Hi. rewrite (filled_in _ _ _ _ _ _ F) by within. rewrite <- Tw by (by rewrite Et).
      cbn. f_equal. lia.
    + intros x Hx. by rewrite (filled_out _ _ _ _ _ _ F Hx).
Qed.

(** A process less in core: the last one leaves the text in its slot, and the core free. *)
Lemma xccdec_ok s xp tp tn dp k n l ls T : p_textp s = Some xp -> text_in s xp tp tn dp k l ls T ->
  pool (coremap s) l (S n) -> paged l ->
  exists s' xp' l', xccdec s = Done tt s' /\ p_textp s' = Some xp' /\ x_daddr xp' = x_daddr xp /\ text_out s' xp' tn l' ls T /\
    pool (coremap s') l' n /\ paged l' /\ (l' = l \/ plus l' l (PGSZ * tn) (PGSZ * tp)) /\ same_but_text s s' /\
    (forall x, ~ within (at_blk (x_daddr xp)) (PGSZ * tn) x -> swp s' x = swp s x).
Proof.
  intros Ex Ti P G. pose proof Ti as [Sl Co Cc Ca Ap]. pose proof Co as (Tp & Tb & Td & Tw). pose proof (tx_some _ _ _ _ _ Sl).
  unfold Image.xccdec. go. rewrite Ex. replace (x_ccount xp =? 0) with false by lia.
  rewrite (bind_done _ _ _ _ _ (xlock_free xp s (tx_flag _ _ _ _ _ Sl))). fold (lock xp).
  rewrite (bind_done _ _ _ _ _ (mod_text_ok _ (set_p_textp (Some (lock xp)) s) (lock xp) eq_refl)). go.
  cbn [ut set_p_textp]. rewrite Ca, bind_the, dec8_pos by done. set (xq := set_x_ccount _ _).
  assert (xq = set_x_ccount (x_ccount xp - 1) (lock xp)) as Eq by (unfold xq; by rewrite <- dec8_pos).
  set (s1 := set_p_textp (Some xq) _). clearbody xq.
  destruct (Z.eqb_spec (x_ccount xp - 1) 0) as [E0|E0].
  - destruct (write_text_ok s1 xp xq tp tn l ls T) as (w' & fl & Ew & Hfl & W1 & W2); [by eapply text_slot_eq|done|done|].
    rewrite Hfl in Ew by (by rewrite Eq). set (s2 := set_swp w' _) in Ew.
    destruct (core_mfree_ok s2 l n (PGSZ * tn) (PGSZ * tp)) as (mp' & l' & r & w & Em & P' & Pl);
      [done|unfold PGSZ; lia|unfold PGSZ; lia|done|].
    rewrite <- (tx_size _ _ _ _ _ Sl) in Em at 1.
    assert ((write_text ioerr xp (PGSZ * tp);; core_mfree (x_size xp) (PGSZ * tp)) s1 = _) as E3
      by (rewrite (bind_done _ _ _ _ _ Ew); exact Em).
    rewrite (bind_done _ _ _ _ _ E3). set (s3 := set_coremap _ _).
    rewrite (xunlock_ok s3 (set_x_flag XLOCK xq)) by done. eexists _, _, l'. split; [reflexivity|]. split; [reflexivity|].
    rewrite Eq. split; [done|]. split; [|split; [done|split; [|split; [by right|split; [done|exact W2]]]]].
    + destruct Sl as [S1 S2 S3 S4 S5]. split; [|left; by rewrite <- E0]. split; try done. by left.
    + eapply paged_plus; [exact G| | |exact Pl]; lia.
  - rewrite bind_ret. assert (x_flag (unlock xq) = x_flag xp) as Eu.
    { unfold unlock. rewrite Eq. cbn. destruct (tx_flag _ _ _ _ _ Sl) as [-> | ->]; done. }
    rewrite (xunlock_ok s1 xq eq_refl) by (rewrite Eq; cbn; destruct (tx_flag _ _ _ _ _ Sl) as [-> | ->]; done).
    fold (unlock xq). eexists _, _, l. split; [reflexivity|]. split; [reflexivity|]. split; [by rewrite Eq|].
    split; [|split; [by apply pool_weaken|split; [done|split; [by left|by split]]]].
    destruct Sl as [S1 S2 S3 S4 S5]. split.
    + split; [by rewrite Eq|done|unfold clean_flag; by rewrite Eu|by rewrite Eq|].
      rewrite Eu. intros Hf. rewrite Eq. exact (S5 Hf).
    + right. rewrite Eq. cbn. split; [lia|]. exists tp. split; [done|]. by split_and!.
Qed.

(** ** [xswap] *)

Lemma at_blk_page a c : 0 <= c -> at_blk (a + wtodb (PGSZ * c)) = at_blk a + PGSZ * c.
Proof.
  intros Hc. unfold at_blk, wtodb, PGSZ, BSIZEW. rewrite Z.shiftr_div_pow2 by lia. change (2 ^ 9) with 512.
  replace (1024 * c) with (2 * c * 512) by lia. rewrite Z.div_mul by lia. lia.
Qed.

Lemma wtodb_pages c : wtodb (PGSZ * c) = 2 * c.
Proof.
  unfold wtodb, PGSZ. rewrite Z.shiftr_div_pow2 by lia. change (2 ^ 9) with 512.
  replace (1024 * c) with (2 * c * 512) by lia. by rewrite Z.div_mul by lia.
Qed.

Lemma clear_tail_ok q : forall fuel a c s, (q <= fuel)%nat -> 0 <= c -> p_size s = PGSZ * (c + Z.of_nat q) ->
  exists m' w', clear_tail fuel true a (PGSZ * c) s = Done tt (set_swp w' (set_mem m' s)) /\
    (forall x, ~ within (p_addr (ut s)) PGSZ x -> m' x = mem s x) /\
    filled (swp s) (at_blk a + PGSZ * c) (pages q) (fun _ => 0) w'.
Proof.
  induction q as [|q IH]; intros fuel a c s Hf Hc Hz.
  - exists (mem s), (swp s). split; [|split; [done|apply filled_none]].
    destruct fuel; cbn [Image.clear_tail]; go; rewrite Hz; replace (PGSZ * c <? PGSZ * (c + Z.of_nat 0)) with false by lia; by destruct s.
  - destruct fuel as [|fuel]; [lia|]. cbn [Image.clear_tail]. go. rewrite Hz.
    replace (PGSZ * c <? PGSZ * (c + Z.of_nat (S q))) with true by (unfold PGSZ; lia). cbn beta iota. go. unfold clearseg. go.
    set (s1 := set_mem _ s). cbn [ut set_mem] in s1.
    destruct (swap_out_ok (a + wtodb (PGSZ * c)) (p_addr (ut s)) 1 s1) as (w1 & E1 & F1).
    change (pages 1) with PGSZ in E1, F1. rewrite (bind_done _ _ _ _ _ E1).
    destruct (IH fuel a (c + 1) (set_swp w1 s1)) as (m' & w' & E2 & M2 & F2); [lia|lia|cbn; rewrite Hz; lia|].
    replace (PGSZ * c + PGSZ) with (PGSZ * (c + 1)) by lia. exists m', w'. split; [exact E2|]. split.
    + intros x Hx. rewrite M2 by done. cbn. pose proof (clear_page_filled (p_addr (ut s)) (mem s)) as Fc.
      by rewrite (filled_out _ _ _ _ _ _ Fc Hx).
    + rewrite at_blk_page in F1 by done. rewrite pages_S. cbn [swp set_swp set_mem] in F1, F2.
      replace (at_blk a + PGSZ * (c + 1)) with (at_blk a + PGSZ * c + PGSZ) in F2 by lia.
      apply (filled_join _ _ _ _ _ w1); [done|done| | |].
      * intros x. rewrite F1. case_decide as Hx; [|done]. unfold s1. cbn.
        pose proof (clear_page_filled (p_addr (ut s)) (mem s)) as Fc. rewrite (filled_in _ _ _ _ _ _ Fc); [done|]. within.
      * intros x Hx. by rewrite (filled_in _ _ _ _ _ _ F2 Hx).
      * intros x Hx. by rewrite (filled_out _ _ _ _ _ _ F2 Hx).
Qed.

Definition extended (k : Z) (I : Z -> Z) : Z -> Z := fun i => if i <? PGSZ * (1 + k) then I i else 0.

Lemma swap_malloc_ok s l n size : pool (swapmap s) l n -> 0 < size ->
  (swap_malloc size s = Done 0 (set_swapmap (swapmap s) s)) \/
  exists a mp' l', swap_malloc size s = Done a (set_swapmap mp' s) /\ 0 < a /\ pool mp' l' n /\ contains l size a /\ minus l' l size a.
Proof.
  intros P Hs. unfold swap_malloc. destruct (malloc_pool _ _ _ _ P Hs) as [-> | (a & mp' & l' & -> & ? & ? & ? & ? & _)]; [by left|right].
  by exists a, mp', l'.
Qed.

Lemma slot_apart l n a m b : contains l n a -> disjoint l m b -> 0 < n -> 0 < m -> apart a n b m.
Proof.
  intros C D Hn Hm. unfold apart. destruct (Z_le_gt_dec (a + n) b), (Z_le_gt_dec (b + m) a); [lia..|].
  exfalso. apply (D (Z.max a b)); [lia|]. apply C. lia.
Qed.

(** The end of [xswap], once the text is done with: the image goes to the slot [a]. *)
Definition put_out (a size os : Z) (ff : bool) : M unit :=
  u ← get ut;
  upd (fun s => if p_addr u =? uhome s then set_mem (uflush (mem s) (uhome s)) s else s);;
  swap a (p_addr u) os true;;
  clear_tail (Z.to_nat (size - os)) ff a os;;
  (if ff then
     core_mfree os (p_addr u);;
     upd (fun s => if p_addr u =? uhome s then set_uhome NOUHOME s else s)
   else mret tt);;
  upd (fun s => set_ut (set_addr a (ut s))
    (set_p_flag (p_flag s &~ (Proc.SLOAD |: Proc.SLOCK)) (set_p_time 0 s)));;
  upd (fun s => if runout s =? 0 then s else set_woken (woken s ++ [Runout]) (set_runout 0 s)).

Lemma put_out_ok s a dp k k' n l I :
  p_addr (ut s) = PGSZ * dp -> 0 < dp -> 0 <= k <= k' -> p_size s = PGSZ * (1 + k') ->
  pool (coremap s) l (S n) -> disjoint l (PGSZ * (1 + k)) (PGSZ * dp) ->
  (forall i, PGSZ <= i < PGSZ * (1 + k) -> mem s (PGSZ * dp + i) = I i) ->
  exists s' l', put_out a (PGSZ * (1 + k')) (PGSZ * (1 + k)) true s = Done tt s' /\
    pool (coremap s') l' n /\ plus l' l (PGSZ * (1 + k)) (PGSZ * dp) /\ swapmap s' = swapmap s /\ p_size s' = p_size s /\
    p_textp s' = p_textp s /\ ut s' = set_addr a (ut s) /\
    (forall x, ~ within (PGSZ * dp) PGSZ x -> mem s' x = mem s x) /\
    (forall x, ~ within (at_blk a) (PGSZ * (1 + k')) x -> swp s' x = swp s x) /\
    (forall i, PGSZ <= i < PGSZ * (1 + k') -> swp s' (at_blk a + i) = extended k I i).
Proof.
  intros Ea Hd Hk Hz P D W. unfold put_out. go. rewrite Ea.
  set (s1 := if PGSZ * dp =? uhome s then _ else s).
  assert (exists m1, s1 = set_mem m1 s /\ forall x, ~ within (PGSZ * dp) PGSZ x -> m1 x = mem s x) as (m1 & -> & M1).
  { unfold s1. destruct (Z.eqb_spec (PGSZ * dp) (uhome s)) as [E|E]; [|exists (mem s); by destruct s].
    eexists. split; [reflexivity|]. rewrite <- E. apply uflush_page. }
  replace (PGSZ * (1 + k)) with (pages (Z.to_nat (1 + k))) by (unfold pages, PGSZ; lia).
  destruct (swap_out_ok a (PGSZ * dp) (Z.to_nat (1 + k)) (set_mem m1 s)) as (w1 & E1 & F1).
  rewrite (bind_done _ _ _ _ _ E1). replace (pages (Z.to_nat (1 + k))) with (PGSZ * (1 + k)) in * by (unfold pages, PGSZ; lia).
  destruct (clear_tail_ok (Z.to_nat (k' - k)) (Z.to_nat (PGSZ * (1 + k') - PGSZ * (1 + k))) a (1 + k) (set_swp w1 (set_mem m1 s)))
    as (m2 & w2 & E2 & M2 & F2); [unfold PGSZ; lia|lia|cbn; rewrite Hz; unfold PGSZ; lia|].
  rewrite (bind_done _ _ _ _ _ E2). set (s2 := set_swp w2 _). cbn [ut set_swp set_mem] in M2. rewrite Ea in M2.
  destruct (core_mfree_ok s2 l n (PGSZ * (1 + k)) (PGSZ * dp)) as (mp' & l' & r & w & E3 & P' & Pl);
    [done|unfold PGSZ; lia|unfold PGSZ; lia|done|].
  set (s3 := set_coremap _ _) in E3.
  assert (exists s4, (core_mfree (PGSZ * (1 + k)) (PGSZ * dp);;
      upd (fun s => if PGSZ * dp =? uhome s then set_uhome NOUHOME s else s)) s2 = Done tt (set_uhome s4 s3)) as (h & E4).
  { rewrite (bind_done _ _ _ _ _ E3). exists (if PGSZ * dp =? uhome s3 then NOUHOME else uhome s3).
    unfold upd. by destruct (PGSZ * dp =? uhome s3). }
  rewrite (bind_done _ _ _ _ _ E4). go. set (s5 := set_ut _ _).
  assert (forall x, ~ within (PGSZ * dp) PGSZ x -> m2 x = mem s x) as Mm by (intros x Hx; rewrite M2 by done; by apply M1).
  assert (forall x, ~ within (at_blk a) (PGSZ * (1 + k')) x -> w2 x = swp s x) as Wo.
  { intros x Hx. rewrite (filled_out _ _ _ _ _ _ F2); [cbn; rewrite (filled_out _ _ _ _ _ _ F1); [done|]|]; unfold pages; within. }
  assert (forall i, PGSZ <= i < PGSZ * (1 + k') -> w2 (at_blk a + i) = extended k I i) as Wi.
  { intros i Hi. unfold extended. destruct (Z.ltb_spec i (PGSZ * (1 + k))) as [Hs|Hs].
    - rewrite (filled_out _ _ _ _ _ _ F2) by (unfold pages; within). cbn. rewrite (filled_in _ _ _ _ _ _ F1) by within.
      cbn. replace (at_blk a + i - at_blk a) with i by lia. rewrite M1 by within. apply W. lia.
    - by rewrite (filled_in _ _ _ _ _ _ F2) by (unfold pages; within). }
  exists (if runout s5 =? 0 then s5 else set_woken (woken s5 ++ [Runout]) (set_runout 0 s5)), l'.
  split; [done|]. destruct (runout s5 =? 0); by split_and!.
Qed.

Lemma xswap_unfold size os s : p_size s = size -> os <> 0 ->
  xswap true os s = (a ← swap_malloc (wtodb size);
    if a =? 0 then dies "out of swap space"
    else upd (fun s => set_p_flag (p_flag s |: Proc.SLOCK) s);; xccdec;; put_out a size os true) s.
Proof. intros E Ho. unfold Image.xswap. go. rewrite E. by replace (os =? 0) with false by lia. Qed.

Definition pages_of (t : option (Z * Z)) : option Z := snd <$> t.

(** The text stays where it is while the image goes out. *)
Lemma text_out_eq s s' xp tn l l' ls T dp k tp a n :
  text_out s xp tn l ls T -> x_caddr (ut s) = Some (PGSZ * tp) -> apart tp tn dp (1 + k) -> 0 <= k ->
  plus l' l (PGSZ * (1 + k)) (PGSZ * dp) -> x_caddr (ut s') = x_caddr (ut s) ->
  (forall x, ~ within (PGSZ * dp) PGSZ x -> mem s' x = mem s x) ->
  apart a n (x_daddr xp) (2 * tn) -> (forall x, ~ within (at_blk a) (BSIZEW * n) x -> swp s' x = swp s x) ->
  text_out s' xp tn l' ls T.
Proof.
  intros [[S1 S2 S3 S4 S5] O] Ec Ap Hk Pl Ex Mm Aw Wo. split.
  - split; try done. intros Hf i Hi. rewrite Wo; [by apply S5|]. unfold at_blk, BSIZEW, apart in *. within.
  - destruct O as [? | (Hc & tp' & Et & B1 & B2 & B3 & B4)]; [by left|right]. split; [done|].
    rewrite Ec in Et. assert (tp' = tp) as -> by (injection Et; unfold PGSZ; lia).
    exists tp. rewrite Ex. split; [done|]. split_and!; try done.
    + eapply disjoint_plus; [exact Pl|done|]. unfold apart in *. within.
    + intros i Hi. rewrite Mm; [by apply B4|]. unfold apart in *. within.
Qed.

(** A process of [k] pages that is to have [k'] goes out with the new pages zero. *)
Lemma xswap_ok s t dp k n l j ls T I k' :
  resident s t dp k (S (S n)) l j ls T I -> 0 <= k <= k' ->
  xswap true (PGSZ * (1 + k)) (set_p_size (PGSZ * (1 + k')) s) = Dies "out of swap space" \/
  exists s' l' ls', xswap true (PGSZ * (1 + k)) (set_p_size (PGSZ * (1 + k')) s) = Done tt s' /\
    outside s' (pages_of t) k' n l' j ls' T (extended k I) /\ exists a, ut s' = set_addr a (ut s).
Proof.
  intros R Hk. pose proof R as [Ra Rs Rp Rc Rg Ri Rw Rx Rt].
  rewrite (xswap_unfold (PGSZ * (1 + k'))) by (done || unfold PGSZ; lia). rewrite wtodb_pages. set (s0 := set_p_size _ s).
  destruct (swap_malloc_ok s0 ls j (2 * (1 + k')) Rw) as [E | (a & mp & ls' & E & Ha & Ps & C & M)]; [lia|left|right];
    rewrite (bind_done _ _ _ _ _ E); [done|]. cbv beta. replace (a =? 0) with false by lia. go. set (s1 := set_p_flag _ _).
  assert (exists s2 l2, xccdec s1 = Done tt s2 /\ pool (coremap s2) l2 (S n) /\ paged l2 /\ disjoint l2 (PGSZ * (1 + k)) (PGSZ * dp) /\
    same_but_text s1 s2 /\
    match t, p_textp s2 with
    | Some (tp, tn), Some xp => text_out s2 xp tn l2 ls' T /\ apart a (2 * (1 + k')) (x_daddr xp) (2 * tn) /\
        x_caddr (ut s2) = Some (PGSZ * tp) /\ apart tp tn dp (1 + k)
    | None, None => x_caddr (ut s2) = None
    | _, _ => False
    end) as (s2 & l2 & E2 & P2 & G2 & D2 & (Sm & Su & Sw & Sz & _) & Tx).
  { destruct t as [[tp tn]|], (p_textp s) as [xp|] eqn:Ex; try done.
    - pose proof Rt as [Sl (_ & _ & Td & _) _ Ca Ap]. pose proof (tx_some _ _ _ _ _ Sl).
      assert (text_in s1 xp tp tn dp k l ls' T) as Ti.
      { destruct Rt as [[Z1 Z2 Z3 [Z4 Z5] Z6] Z7 Z8 Z9 Z10]. split; try done. split; try done. split; [done|by eapply disjoint_minus]. }
      destruct (xccdec_ok s1 xp tp tn dp k (S n) l ls' T) as (s2 & xp' & l2 & E2 & Ex2 & Ed & To & P2 & G2 & Hl & Sb & _); [done..|].
      exists s2, l2. rewrite Ex2. split_and!; try done.
      + destruct Hl as [-> | Pl]; [done|]. eapply disjoint_plus; [exact Pl|done|]. unfold apart in *. within.
      + rewrite Ed. apply (slot_apart _ _ _ _ _ C (proj2 (tx_slot _ _ _ _ _ Sl))); lia.
      + destruct Sb as (_ & -> & _). exact Ca.
    - exists s1, l. assert (xccdec s1 = Done tt s1) as -> by (unfold Image.xccdec; go; cbn; by rewrite Ex).
      cbn. rewrite Ex. split_and!; try done. by apply pool_weaken. }
  rewrite (bind_done _ _ _ _ _ E2).
  destruct (put_out_ok s2 a dp k k' n l2 I) as (s3 & l3 & E3 & P3 & Pl & Ew & Ez & Et & Eu & Mm & Wo & Wi);
    [by rewrite Su|lia|done|by rewrite Sz|done|done|by rewrite Sm|].
  exists s3, l3, ls'. split; [exact E3|]. split; [|exists a; by rewrite Eu, Su].
  split; rewrite ?Ez, ?Ew, ?Sw, ?Et; try done; [lia| | | |].
  - eapply paged_plus; [exact G2| | |exact Pl]; lia.
  - rewrite Eu. split; [done|by eapply disjoint_taken].
  - rewrite Eu. exact Wi.
  - destruct t as [[tp tn]|], (p_textp s2) as [xp|]; try done; [|by rewrite Eu]. destruct Tx as (To & Aw & Ca & Ap). split.
    + eapply text_out_eq; [exact To|done|exact Ap|lia|exact Pl|by rewrite Eu|exact Mm|exact Aw|].
      replace (BSIZEW * (2 * (1 + k'))) with (PGSZ * (1 + k')) by (unfold BSIZEW, PGSZ; lia). exact Wo.
    + rewrite Eu. cbn. unfold apart in *. lia.
Qed.

(** ** [swapin] *)

Lemma swap_mfree_ok s l n size a : pool (swapmap s) l (S n) -> 0 < size -> 0 < a -> disjoint l size a ->
  exists mp' l', swap_mfree size a s = Done tt (set_swapmap mp' s) /\ pool mp' l' n /\ plus l' l size a.
Proof.
  intros P Hs Ha D. unfold swap_mfree. destruct (mfree_pool false (runin s) _ _ _ _ _ P Hs Ha D) as (mp' & l' & r & w & -> & ? & ?).
  by exists mp', l'.
Qed.

(** What bringing the text in leaves alone: of core only free pages change. *)
Definition same_but_core (s s' : st) (l l' : list map) : Prop :=
  swp s' = swp s /\ swapmap s' = swapmap s /\ p_size s' = p_size s /\
  (exists c, ut s' = set_caddr c (ut s)) /\ forall n p, disjoint l n p -> disjoint l' n p.

Lemma lock_count xp s : clean_flag xp -> p_textp s = Some (lock xp) -> 0 <= x_ccount xp < 255 ->
  (mod_text (fun xp => set_x_ccount (inc8 (x_ccount xp)) xp);; xunlock;; mret true) s =
  Done true (set_p_textp (Some (set_x_ccount (x_ccount xp + 1) xp)) s).
Proof.
  intros Fl E Hc. rewrite (bind_done _ _ _ _ _ (mod_text_ok _ _ _ E)). set (xq := set_x_ccount _ _).
  assert (xq = set_x_ccount (x_ccount xp + 1) (lock xp)) as Eq by (unfold xq; by rewrite inc8_small).
  assert ((x_flag xq &? XWANT) = false) as F by (rewrite Eq; cbn; destruct Fl as [-> | ->]; done).
  rewrite (bind_done _ _ _ _ _ (xunlock_ok (set_p_textp (Some xq) s) xq eq_refl F)).
  assert (set_x_flag (x_flag xq &~ (XLOCK |: XWANT)) xq = set_x_ccount (x_ccount xp + 1) xp) as ->; [|done].
  rewrite Eq. destruct xp as [d sz c f]. unfold lock, set_x_ccount, set_x_flag. cbn. f_equal.
  destruct Fl as [E1 | E1]; cbn in E1; by subst.
Qed.

Lemma text_in_core_ok s xp tn n l ls T size a : p_textp s = Some xp -> text_out s xp tn l ls T -> pool (coremap s) l (S n) -> paged l ->
  0 < size -> 0 < a -> disjoint l size a ->
  (exists s', text_in_core ioerr xp size a s = Done false s') \/
  exists s' tp l' xp', text_in_core ioerr xp size a s = Done true s' /\ p_textp s' = Some xp' /\ x_daddr xp' = x_daddr xp /\ pool (coremap s') l' n /\ paged l' /\
    text_slot s' xp' tn ls T /\ text_core s' tp tn l' T /\ 0 < x_ccount xp' <= 255 /\ x_caddr (ut s') = Some (PGSZ * tp) /\
    same_but_core s s' l l' /\ (x_ccount xp <> 0 /\ x_caddr (ut s) = Some (PGSZ * tp) \/ contains l (PGSZ * tn) (PGSZ * tp)).
Proof.
  intros Ex [Sl O] P G Hs Ha D. pose proof (tx_some _ _ _ _ _ Sl) as Ht. pose proof (tx_flag _ _ _ _ _ Sl) as Fl.
  unfold text_in_core. rewrite (bind_done _ _ _ _ _ (xlock_free xp s Fl)). fold (lock xp). set (s1 := set_p_textp _ s).
  destruct O as [[Ec Ef] | (Hc & tp & Ec & Co)].
  - rewrite Ec. cbn [Z.eqb]. rewrite (tx_size _ _ _ _ _ Sl).
    destruct (core_malloc_page s1 l (S n) tn P G Ht) as [E | (p & mp' & l' & E & Hp & Hb & P' & G' & C & M)]; [left|right].
    + set (s2 := set_coremap _ s1) in E. assert ((x_flag (lock xp) &? XWANT) = false) as F by (cbn; by rewrite Ef).
      pose proof (xunlock_ok s2 (lock xp) eq_refl F) as E2. set (s3 := set_p_textp _ s2) in E2.
      destruct (core_mfree_ok s3 l n size a) as (mp' & l' & r & w & E3 & _ & _); [done..|].
      eexists. rewrite (bind_done _ _ _ false (set_coremap mp' (set_runin r (set_woken w s3)))); [reflexivity|].
      rewrite (bind_done _ _ _ _ _ E). cbn [Z.eqb]. by rewrite (bind_done _ _ _ _ _ E2), (bind_done _ _ _ _ _ E3).
    + set (s2 := set_coremap mp' s1) in E. set (s3 := set_ut (set_caddr (PGSZ * p) (ut s2)) s2).
      destruct (swap_in_ok (x_daddr xp) (PGSZ * p) (Z.to_nat tn) s3) as (m' & E3 & F3).
      replace (pages (Z.to_nat tn)) with (PGSZ * tn) in * by (unfold pages, PGSZ; lia). set (s4 := set_mem m' s3) in E3.
      eexists _, p, l', _. split.
      { rewrite (bind_done _ _ _ true s4); [apply (lock_count xp s4); [done|done|lia]|].
        rewrite (bind_done _ _ _ _ _ E). replace (PGSZ * p =? 0) with false by (unfold PGSZ; lia). go. fold s3.
        rewrite Ef. change (0 &? XLOAD) with false. cbv iota. by rewrite (bind_done _ _ _ _ _ E3). }
      split; [reflexivity|]. split; [done|]. split; [by apply pool_weaken|]. split; [done|].
      split; [destruct Sl as [Z1 Z2 Z3 Z4 Z5]; by split|].
      split; [split_and!; [done|done|by eapply disjoint_taken|]|].
      { intros i Hi. cbn. rewrite (filled_in _ _ _ _ _ _ F3) by within. cbn.
        replace (PGSZ * p + i - PGSZ * p) with i by lia. by apply Sl. }
      split; [cbn; lia|]. split; [done|]. split; [|by right].
      split_and!; try done; [by exists (PGSZ * p)|]. intros q r Hd. by eapply disjoint_minus.
  - right. replace (x_ccount xp =? 0) with false by lia. go. rewrite (lock_count xp s1) by (done || lia).
    eexists _, tp, l, _. split; [reflexivity|]. split; [reflexivity|]. split; [done|]. split; [by apply pool_weaken|]. split; [done|].
    split; [destruct Sl as [Z1 Z2 Z3 Z4 Z5]; by split|]. split; [done|]. split; [cbn; lia|]. split; [done|]. split; [|left; split; [lia|done]].
    split_and!; try done. exists (PGSZ * tp). cbn. destruct (ut s). cbn in Ec. by subst.
Qed.

Definition same_sizes (u u' : utab) : Prop :=
  u_tsize u' = u_tsize u /\ u_dsize u' = u_dsize u /\ u_ssize u' = u_ssize u /\ u_error u' = u_error u /\ maxmem u' = maxmem u.

(** The words of the slot are in core, and the slot is free. *)
Lemma bring_in_ok s a p k n l j ls T I t :
  pool (coremap s) l n -> paged l -> 0 < p -> p + (1 + k) <= PGSZ -> 0 <= k -> disjoint l (PGSZ * (1 + k)) (PGSZ * p) ->
  p_addr (ut s) = a -> 0 < a -> pool (swapmap s) ls (S j) -> disjoint ls (2 * (1 + k)) a -> p_size s = PGSZ * (1 + k) ->
  (forall i, PGSZ <= i < PGSZ * (1 + k) -> swp s (at_blk a + i) = I i) ->
  match t, p_textp s with
  | Some (tp, tn), Some xp => text_in s xp tp tn p k l ls T /\ apart (x_daddr xp) (2 * tn) a (2 * (1 + k))
  | None, None => x_caddr (ut s) = None
  | _, _ => False
  end ->
  exists s' ls', (swap a (PGSZ * p) (PGSZ * (1 + k)) false;; swap_mfree (wtodb (PGSZ * (1 + k))) a;;
      upd (fun s => set_ut (set_addr (PGSZ * p) (ut s)) (set_p_flag (p_flag s |: Proc.SLOAD) (set_p_time 0 s)));; mret 1) s = Done 1 s' /\
    resident s' t p k n l j ls' T I /\ ut s' = set_addr (PGSZ * p) (ut s).
Proof.
  intros P G Hp Hb Hk D Ea Ha Ps Ds Ez W Tx.
  destruct (swap_in_ok a (PGSZ * p) (Z.to_nat (1 + k)) s) as (m' & E1 & F1).
  replace (pages (Z.to_nat (1 + k))) with (PGSZ * (1 + k)) in * by (unfold pages, PGSZ; lia). rewrite (bind_done _ _ _ _ _ E1).
  rewrite wtodb_pages. destruct (swap_mfree_ok (set_mem m' s) ls j (2 * (1 + k)) a) as (mp' & ls' & E2 & P2 & Pl); [done|lia|done|done|].
  rewrite (bind_done _ _ _ _ _ E2). go. eexists _, ls'. split; [reflexivity|]. split; [|done].
  split; cbn; try done; [lia| |].
  - intros i Hi. rewrite (filled_in _ _ _ _ _ _ F1) by within. rewrite <- W by done. f_equal. lia.
  - destruct t as [[tp tn]|], (p_textp s) as [xp|]; try done. destruct Tx as [[[Z1 Z2 Z3 [Z4 Z5] Z6] Z7 Z8 Z9 Z10] Aw].
    split; try done.
    + split; try done. split; [done|]. intros x Hx [Hh | Hh]%Pl; [by apply (Z5 x)|]. unfold apart in Aw. lia.
    + destruct Z7 as (? & ? & ? & Tw). split_and!; try done. intros i Hi. cbn. rewrite (filled_out _ _ _ _ _ _ F1); [by apply Tw|].
      unfold apart in Z10. within.
Qed.

Lemma swapin_ok s t k n l j ls T I : outside s t k (S n) l (S j) ls T I ->
  (exists s', swapin s = Done 0 s') \/
  exists s' t' p l' ls', swapin s = Done 1 s' /\ pages_of t' = t /\ resident s' t' p k n l' j ls' T I /\ same_sizes (ut s) (ut s').
Proof.
  intros [Oz Ok Oc Og Os [Oa Od] Ow Ot]. unfold Image.swapin. go. rewrite Oz.
  destruct (core_malloc_page s l (S n) (1 + k) Oc Og) as [E | (p & mp & l1 & E & Hp & Hb & P1 & G1 & C & M)];
    [lia|left; by rewrite (bind_done _ _ _ _ _ E); eexists|].
  rewrite (bind_done _ _ _ _ _ E). cbv beta. replace (PGSZ * p =? 0) with false by (unfold PGSZ; lia). go. set (s1 := set_coremap mp s).
  destruct t as [tn|], (p_textp s) as [xp|] eqn:Ex; try done; change (p_textp s1) with (p_textp s); rewrite Ex.
  - destruct Ot as [To Aw].
    assert (text_out s1 xp tn l1 ls T) as To1.
    { destruct To as [[Z1 Z2 Z3 Z4 Z5] O]. split; [by split|]. destruct O as [? | (? & tp & ? & ? & ? & Dj & ?)]; [by left|right].
      split; [done|]. exists tp. split; [done|]. split_and!; try done. by eapply disjoint_minus. }
    destruct (text_in_core_ok s1 xp tn n l1 ls T (PGSZ * (1 + k)) (PGSZ * p)) as [(s2 & E2) |
      (s2 & tp & l2 & xp' & E2 & Ex2 & Ed2 & P2 & G2 & Sl2 & Co2 & Cc2 & Ca2 & (Ew & Em & Ez & (c & Eu) & Dl) & Wh)];
      [done|done|done|done|unfold PGSZ; lia|unfold PGSZ; lia|by eapply disjoint_taken|left; rewrite (bind_done _ _ _ _ _ E2); by eexists|right].
    rewrite (bind_done _ _ _ _ _ E2). cbv beta iota. go.
    assert (apart tp tn p (1 + k)) as Ap.
    { pose proof (tx_some _ _ _ _ _ Sl2). destruct Wh as [[Hc Ec] | Ct].
      - destruct To as [_ [[? _] | (_ & tp' & Ec' & _ & _ & Dj & _)]]; [lia|]. change (x_caddr (ut s1)) with (x_caddr (ut s)) in Ec.
        rewrite Ec in Ec'. assert (tp' = tp) as -> by (injection Ec'; unfold PGSZ; lia).
        pose proof (free_apart _ _ _ _ _ C Dj ltac:(lia) ltac:(lia)). unfold apart in *. lia.
      - apply (free_apart _ _ _ _ _ Ct (disjoint_taken _ _ _ _ M)); lia. }
    destruct (bring_in_ok s2 (p_addr (ut s)) p k n l2 j ls T I (Some (tp, tn))) as (s' & ls' & E3 & R & Eu3); try done;
      [by apply Dl, (disjoint_taken _ _ _ _ M)|by rewrite Eu|by rewrite Em|by rewrite Ez|by rewrite Ew| |].
    { rewrite Ex2. split; [by split|]. by rewrite Ed2. }
    exists s', (Some (tp, tn)), p, l2, ls'. replace (p_addr (ut s2)) with (p_addr (ut s)) by (by rewrite Eu).
    split; [exact E3|]. split; [done|]. split; [done|]. by rewrite Eu3, Eu.
  - right. go. destruct (bring_in_ok s1 (p_addr (ut s)) p k n l1 j ls T I None) as (s' & ls' & E3 & R & Eu); try done;
      [by apply pool_weaken|by eapply disjoint_taken|cbn; by rewrite Ex|].
    exists s', None, p, l1, ls'. split; [exact E3|]. split; [done|]. split; [done|]. rewrite Eu. done.
Qed.
End Spec.
