(* ===== verification/Ibreak.v ===== *)
(** * The break and the stack: [sbreak] and [grow] as the process sees them *)

From Stdlib Require Import ZifyBool.
From S2P Require Import Prelude Param Resmap Utab Image Ispec.
From S2P Require Proc.

Import Resmap.Code.

(** ** What the process sees *)

(** The word at a virtual address, through the map the kernel has set up. *)
Definition user (s : st) (va : Z) : option Z :=
  a ← physaddr (u_upt (ut s)) va;
  if a =? 0 then None else Some (mem s a).

Definition text_pages (t : option (Z * Z)) : Z := default 0 (pages_of t).

(** A virtual space of [tn] pages of text, [dn] of data and [sn] of stack. *)
Definition space (tn dn sn : Z) (T I : Z -> Z) (va : Z) : option Z :=
  if va <? PGSZ * tn then Some (T va)
  else if va <? PGSZ * (tn + dn) then Some (I (PGSZ + (va - PGSZ * tn)))
  else if (PGSZ * USTKPAGE <=? va) && (va <? PGSZ * (USTKPAGE + sn)) then Some (I (PGSZ * (1 + dn) + (va - PGSZ * USTKPAGE)))
  else None.

(** A process in core with its map set up. *)
Record ready (s : st) (t : option (Z * Z)) (dp dn sn : Z) (n : nat) (l : list map) (j : nat) (ls : list map) (T I : Z -> Z) : Prop := {
  rd_resident : resident s t dp (dn + sn) n l j ls T I;
  rd_mapped : mapped s t dp dn sn
}.

Lemma img_tn t dp dn sn : tn (img t dp dn sn) = text_pages t.
Proof. by destruct t as [[? ?]|]. Qed.

Lemma img_dn t dp dn sn : Utab.dn (img t dp dn sn) = dn.
Proof. by destruct t as [[? ?]|]. Qed.

Lemma img_sn t dp dn sn : Utab.sn (img t dp dn sn) = sn.
Proof. by destruct t as [[? ?]|]. Qed.

Lemma img_dp t dp dn sn : Utab.dp (img t dp dn sn) = dp.
Proof. by destruct t as [[? ?]|]. Qed.

Lemma user_ready s t dp dn sn n l j ls T I va : ready s t dp dn sn n l j ls T I -> 0 <= va < MAXMEM ->
  user s va = space (text_pages t) dn sn T I va.
Proof.
  intros [[Ra Rs Rp Rc Rg Ri Rw Rx Rt] (Ok & D & Mp)] Hva. unfold user.
  destruct (physaddr_image _ _ va Ok Mp Hva) as [-> _]. cbn [mbind option_bind].
  pose proof Ok as (Htp & Hdp & Htn & Hdn & Hsn & Htd & Hs & _). unfold image_word, space.
  rewrite ?img_tn, ?img_dn, ?img_sn, ?img_dp in *. destruct (Z.ltb_spec va (PGSZ * text_pages t)) as [H1|H1].
  - destruct t as [[tp tn]|]; [|change (text_pages None) with 0 in H1; lia]. change (text_pages (Some (tp, tn))) with tn in *.
    destruct (p_textp s) as [xp|]; [|done]. simpl in Htp. change (Utab.tp (img (Some (tp, tn)) dp dn sn)) with tp.
    pose proof Rt as [_ (_ & _ & _ & Tw) _ _ _]. replace (PGSZ * tp + va =? 0) with false by (unfold PGSZ; lia).
    rewrite Tw; [done|]. unfold within. lia.
  - destruct (Z.ltb_spec va (PGSZ * (text_pages t + dn))) as [H2|H2].
    + replace (PGSZ * dp + USIZE + (va - PGSZ * text_pages t) =? 0) with false by (unfold PGSZ, USIZE in *; lia).
      rewrite <- Rx; [f_equal; f_equal; unfold USIZE, PGSZ; lia|unfold PGSZ in *; lia].
    + destruct ((PGSZ * USTKPAGE <=? va) && (va <? PGSZ * (USTKPAGE + sn))) eqn:H3; [|done].
      replace (PGSZ * dp + USIZE + PGSZ * dn + (va - PGSZ * USTKPAGE) =? 0) with false by (unfold PGSZ, USIZE in *; lia).
      rewrite <- Rx; [f_equal; f_equal; unfold USIZE, PGSZ; lia|unfold PGSZ in *; lia].
Qed.

Lemma ptrword_range p : 0 <= ptrword p < 32768.
Proof. unfold ptrword. change 32767 with (Z.ones 15). rewrite Z.land_ones by lia. apply Z.mod_pos_bound. lia. Qed.

(** The whole pages below the break [nsiz]. *)
Definition break_pages (nsiz : Z) : Z := (ptrword nsiz + 1023) / 1024.

Lemma break_pages_range nsiz : 0 <= break_pages nsiz <= 32.
Proof.
  unfold break_pages. pose proof (ptrword_range nsiz). split; [apply Z.div_pos; lia|].
  apply Z.lt_succ_r, Z.div_lt_upper_bound; lia.
Qed.

Section Break.
Context (uflush : (Z -> Z) -> Z -> Z -> Z) (ioerr : Z -> bool).
Hypothesis no_ioerr : forall b, ioerr b = false.
Hypothesis uflush_page : forall m a x, ~ within a PGSZ x -> uflush m a x = m x.

Notation expand := (expand uflush ioerr).
Notation swapin := (swapin ioerr).
Notation sbreak := (sbreak uflush ioerr).
Notation grow := (grow uflush ioerr).

(** ** New sizes *)

Definition set_error (v : Z) (u : utab) : utab :=
  Utab (u_upt u) (u_tsize u) (u_dsize u) (u_ssize u) v (p_addr u) (x_caddr u) (maxmem u) (rp u) (rz u).

Lemma estabur_refuses s nt nd ns : ~ fits nt nd ns (maxmem (ut s)) ->
  estabur_ nt nd ns s = Done (-1) (set_ut (set_error ENOMEM (ut s)) s).
Proof.
  intros N. unfold estabur_. go. unfold estabur.
  replace (_ || _ || _ || _) with true by (symmetry; unfold fits in N; bool_cases; try done; tauto). done.
Qed.

Lemma estabur_accepts s t dp dn sn dn' sn' :
  image_ok (img t dp dn sn) -> describes (img t dp dn sn) (ut s) -> 0 <= dn' -> 0 <= sn' ->
  fits (PGSZ * text_pages t) (PGSZ * dn') (PGSZ * sn') (maxmem (ut s)) ->
  exists u', estabur_ (PGSZ * text_pages t) (PGSZ * dn') (PGSZ * sn') s = Done 0 (set_ut u' s) /\
    image_fits (img t dp dn' sn') /\ describes (img t dp dn' sn') u' /\
    (image_ok (img t dp dn' sn') -> maps (img t dp dn' sn') (u_upt u')) /\
    x_caddr u' = x_caddr (ut s) /\ u_error u' = u_error (ut s) /\ maxmem u' = maxmem (ut s).
Proof.
  intros Ok D Hd Hs F. set (u1 := Utab (u_upt (ut s)) (PGSZ * text_pages t) (PGSZ * dn') (PGSZ * sn') (u_error (ut s)) (p_addr (ut s))
    (x_caddr (ut s)) (maxmem (ut s)) (rp (ut s)) (rz (ut s))).
  assert (image_fits (img t dp dn' sn')) as Fi.
  { unfold image_fits. rewrite img_tn, img_dn, img_sn. destruct Ok as (_ & _ & Ht & _). rewrite img_tn in Ht.
    unfold fits, MAXMEM, USTKPAGE, NPAGE, PGSZ, USIZE in *. lia. }
  assert (describes (img t dp dn' sn') u1) as D1.
  { destruct D as (_ & _ & _ & D4 & D5). unfold describes. rewrite img_tn, img_dn, img_sn, img_dp in *. split_and!; try done.
    by destruct t as [[? ?]|]. }
  destruct (sureg_total _ _ Fi D1) as (u' & E & D' & Mp & Xc & Xe & Xm). exists u'. split; [|by split_and!].
  unfold estabur_. go. unfold estabur. fold u1.
  replace (_ || _ || _ || _) with false by (symmetry; unfold fits in F; bool_cases; try done; lia).
  assert (sureg u1 ≫= (fun u => Some (0, u)) = Some (0, u')) as -> by (apply (obind_step _ _ _ _ E); reflexivity). done.
Qed.

(** The sizes say where an image of them would be, wherever it is put. *)
Lemma describes_sized s t dp k n l j ls T I dn sn : resident s t dp k n l j ls T I ->
  image_fits (img t dp dn sn) -> describes (img t dp dn sn) (ut s) -> sized (ut s) t (dn + sn) dn sn.
Proof.
  intros [Ra Rs Rp Rc Rg Ri Rw Rx Rt] (F1 & F2 & F3 & F4 & F5) (D1 & D2 & D3 & D4 & D5) p Hp Hb.
  rewrite img_tn, img_dn, img_sn in *. split.
  - unfold image_ok. rewrite img_tn, img_dn, img_sn, img_dp. destruct t as [[tp tn]|]; simpl.
    + destruct (p_textp s) as [xp|]; [|done]. destruct Rt as [_ (? & ? & _) _ _ _]. cbn in *. unfold PGSZ in *. lia.
    + cbn in *. unfold PGSZ in *. lia.
  - unfold describes. rewrite img_tn, img_dn, img_sn, img_dp. split_and!; try done. destruct t as [[tp tn]|]; cbn.
    + destruct (p_textp s) as [xp|]; [|done]. by rewrite (ti_caddr _ _ _ _ _ _ _ _ _ Rt).
    + destruct (p_textp s) as [xp|]; [done|]. by rewrite Rt.
Qed.

Lemma resident_ut s t dp k n l j ls T I u' : resident s t dp k n l j ls T I ->
  p_addr u' = p_addr (ut s) -> x_caddr u' = x_caddr (ut s) -> resident (set_ut u' s) t dp k n l j ls T I.
Proof.
  intros [Ra Rs Rp Rc Rg Ri Rw Rx Rt] Ea Ec. split; try done; [cbn; by rewrite Ea|].
  cbn. destruct t as [[tp tn]|], (p_textp s) as [xp|]; try done; [|by rewrite Ec].
  pose proof Rt as [_ (_ & _ & ? & _) _ _ ?]. eapply text_in_eq; [exact Rt|done|exact Ec|done..].
Qed.

Lemma resident_set_mem s t dp k n l j ls T I m' I' : resident s t dp k n l j ls T I ->
  (forall x, ~ within (PGSZ * dp) (PGSZ * (1 + k)) x -> m' x = mem s x) ->
  (forall i, PGSZ <= i < PGSZ * (1 + k) -> m' (PGSZ * dp + i) = I' i) -> resident (set_mem m' s) t dp k n l j ls T I'.
Proof.
  intros [Ra Rs Rp Rc Rg Ri Rw Rx Rt] Hout Hin. split; try done.
  cbn. destruct t as [[tp tn]|], (p_textp s) as [xp|]; try done.
  pose proof Rt as [_ (_ & _ & ? & _) _ _ Ap]. eapply text_in_eq; [exact Rt|done|done| |done|done].
  intros x Hx. apply Hout. unfold apart in Ap. unfold within, PGSZ in *. lia.
Qed.

(** ** The image in core again *)

Lemma resident_describes s t p k n l j ls T I dn sn : resident s t p k n l j ls T I ->
  u_tsize (ut s) = PGSZ * text_pages t -> u_dsize (ut s) = PGSZ * dn -> u_ssize (ut s) = PGSZ * sn ->
  describes (img t p dn sn) (ut s).
Proof.
  intros [Ra _ _ _ _ _ _ _ Rt] H1 H2 H3. unfold describes. rewrite img_tn, img_dn, img_sn, img_dp. split_and!; try done.
  destruct t as [[tp tn]|], (p_textp s) as [xp|]; try done; cbn.
  - by rewrite (ti_caddr _ _ _ _ _ _ _ _ _ Rt).
  - by rewrite Rt.
Qed.

Lemma image_fits_at t t' p p' dn sn : text_pages t' = text_pages t -> image_fits (img t p dn sn) -> image_fits (img t' p' dn sn).
Proof. intros E. unfold image_fits. by rewrite !img_tn, !img_dn, !img_sn, E. Qed.

(** The map of a resident image of these sizes can be set up. *)
Lemma resident_image_ok s t p n l j ls T I dn sn : resident s t p (dn + sn) n l j ls T I ->
  image_fits (img t p dn sn) -> describes (img t p dn sn) (ut s) -> image_ok (img t p dn sn).
Proof.
  intros R F D. pose proof (re_pos _ _ _ _ _ _ _ _ _ _ R). destruct (describes_sized _ _ _ _ _ _ _ _ _ _ dn sn R F D p); [lia..|done].
Qed.

Lemma resumed_ok s t p n l j ls T I dn sn : resident s t p (dn + sn) n l j ls T I ->
  u_tsize (ut s) = PGSZ * text_pages t -> u_dsize (ut s) = PGSZ * dn -> u_ssize (ut s) = PGSZ * sn ->
  image_fits (img t p dn sn) ->
  exists s', resumed s = Done tt s' /\ ready s' t p dn sn n l j ls T I /\ u_error (ut s') = u_error (ut s).
Proof.
  intros R H1 H2 H3 F. pose proof (resident_describes _ _ _ _ _ _ _ _ _ _ dn sn R H1 H2 H3) as D.
  pose proof (resident_image_ok _ _ _ _ _ _ _ _ _ _ _ R F D) as Ok. unfold resumed. go. set (s1 := set_uhome _ _).
  destruct (sureg_mapped s1 t p dn sn Ok D) as (u' & E & Mp & Xc & Xa & Xe). rewrite E. eexists. split; [reflexivity|].
  split; [|done]. split; [|done]. apply resident_ut; [|done|done]. eapply resident_same; [exact R|done..].
Qed.

(** Memory written inside the image only. *)
Lemma ready_set_mem s t dp dn sn n l j ls T I m' I' : ready s t dp dn sn n l j ls T I ->
  (forall x, ~ within (PGSZ * dp) (PGSZ * (1 + (dn + sn))) x -> m' x = mem s x) ->
  (forall i, PGSZ <= i < PGSZ * (1 + (dn + sn)) -> m' (PGSZ * dp + i) = I' i) -> ready (set_mem m' s) t dp dn sn n l j ls T I'.
Proof. intros [R Mp] H1 H2. split; [by eapply resident_set_mem|done]. Qed.

(** ** [expand] upwards *)

Lemma outside_flag s f t k n l j ls T I : outside s t k n l j ls T I -> outside (set_p_flag f s) t k n l j ls T I.
Proof.
  intros [Q1 Q2 Q3 Q4 Q5 Q6 Q7 Q8]. split; try done. cbn. destruct t as [tn|], (p_textp s) as [xp|]; try done.
  destruct Q8 as [[Sl O] Ap]. split; [|done]. split; [by eapply text_slot_eq|done].
Qed.

(** In core at once, or out with the new pages zero; there may be no room at all. *)
Lemma expand_grow s t dp k n l j ls T I k' dn sn : resident s t dp k (S (S n)) l j ls T I -> 0 <= k < k' -> sized (ut s) t k' dn sn ->
  expand (PGSZ * (1 + k')) s = Dies "out of swap space" \/
  (exists s' p l' I', expand (PGSZ * (1 + k')) s = Done true s' /\ resident s' t p k' n l' j ls T I' /\ keeps k I I' /\
    mapped s' t p dn sn /\ u_error (ut s') = u_error (ut s)) \/
  (exists s' l' ls' a, expand (PGSZ * (1 + k')) s = Done false s' /\ outside s' (pages_of t) k' n l' j ls' T (extended k I) /\
    ut s' = set_addr a (ut s)).
Proof.
  intros R Hk Hz. pose proof R as [Ra Rs Rp Rc Rg Ri Rw Rx Rt]. set (s0 := set_p_size (PGSZ * (1 + k')) s).
  destruct (core_malloc_page s0 l (S (S n)) (1 + k') Rc Rg) as [E | (p & mp' & l' & E & Hp & Hb & P & G & C & M)]; [lia| |].
  - assert (expand (PGSZ * (1 + k')) s = (xswap uflush ioerr true (PGSZ * (1 + k));;
      upd (fun s => set_p_flag (p_flag s |: Proc.SSWAP) s);; mret false) s0) as ->.
    { unfold Image.expand. go. rewrite Rs. replace (PGSZ * (1 + k') <=? PGSZ * (1 + k)) with false by (unfold PGSZ; lia).
      fold s0. rewrite (bind_done _ _ _ _ _ E). done. }
    destruct (xswap_ok uflush ioerr no_ioerr uflush_page s t dp k n l j ls T I k' R) as [X | (s' & l' & ls' & X & O & a & Ea)]; [lia| |].
    + left. unfold mbind, M_bind. fold s0 in X. by rewrite X.
    + right; right. rewrite (bind_done _ _ _ _ _ X). go. eexists _, l', ls', a. split; [reflexivity|]. split; [|done].
      by apply outside_flag.
  - right; left. destruct (expand_move uflush ioerr s t dp k (S n) l j ls T I k' dn sn p mp' l') as (s' & l2 & I' & X & R' & K & Mp & Xe);
      try done.
    exists s', p, l2, I'. split; [done|]. split; [by apply resident_slack|]. by split_and!.
Qed.

(** ** The pages of data and stack in their places *)

(** The image with [dn'] pages of data for [dn]: the stack keeps its words, new data is zero. *)
Definition moved_break (dn dn' : Z) (I : Z -> Z) (i : Z) : Z :=
  if i <? PGSZ * (1 + Z.min dn dn') then I i
  else if i <? PGSZ * (1 + dn') then 0
  else I (i - PGSZ * (dn' - dn)).

Lemma pages_of_nat x : 0 <= x -> pages (Z.to_nat x) = PGSZ * x.
Proof. intros H. unfold pages. by rewrite Z2Nat.id. Qed.

Lemma bigger_ok s t p n l j ls T I I' dn dn' sn : ready s t p dn' sn n l j ls T I' -> keeps (dn + sn) I I' ->
  0 <= dn < dn' -> 0 <= sn ->
  exists s', bigger (PGSZ * (dn' - dn)) (PGSZ * (1 + dn' + sn)) s = Done tt s' /\
    ready s' t p dn' sn n l j ls T (moved_break dn dn' I) /\ u_error (ut s') = u_error (ut s).
Proof.
  intros R K Hd Hs. pose proof R as [[Ra _ _ _ _ _ _ Rx _] (_ & (_ & _ & Es & _) & _)]. rewrite img_sn in Es.
  unfold bigger. go. rewrite Ra, Es.
  destruct (copy_up_ok (Z.to_nat sn) (Z.to_nat (PGSZ * sn)) (PGSZ * (dn' - dn)) (PGSZ * p + PGSZ * (1 + dn' + sn)) s)
    as (m1 & E1 & F1); [unfold PGSZ; lia|unfold PGSZ; lia|].
  rewrite (pages_of_nat sn) in E1, F1 by done. rewrite (bind_done _ _ _ _ _ E1). cbv beta.
  set (a := PGSZ * p + PGSZ * (1 + dn' + sn) - PGSZ * sn).
  destruct (clear_down_ok (Z.to_nat (dn' - dn)) (Z.to_nat (PGSZ * (dn' - dn))) a (set_mem m1 s)) as (m2 & E2 & F2); [unfold PGSZ; lia|].
  rewrite (pages_of_nat (dn' - dn)) in E2, F2 by lia. rewrite E2. eexists. split; [reflexivity|]. split; [|done].
  change (set_mem m2 (set_mem m1 s)) with (set_mem m2 s). cbn [mem set_mem] in F2.
  eapply ready_set_mem; [exact R| |].
  - intros x Hx. rewrite (filled_out _ _ _ _ _ _ F2), (filled_out _ _ _ _ _ _ F1) by (unfold a; within). done.
  - intros i Hi. rewrite Z.add_assoc in Hi. unfold moved_break. replace (Z.min dn dn') with dn by lia.
    destruct (Z.ltb_spec i (PGSZ * (1 + dn))) as [H1|H1].
    { rewrite (filled_out _ _ _ _ _ _ F2), (filled_out _ _ _ _ _ _ F1) by (unfold a; within).
      rewrite Rx by (unfold PGSZ in *; lia). apply K. unfold PGSZ in *; lia. }
    destruct (Z.ltb_spec i (PGSZ * (1 + dn'))) as [H2|H2].
    { by rewrite (filled_in _ _ _ _ _ _ F2) by (unfold a; within). }
    rewrite (filled_out _ _ _ _ _ _ F2), (filled_in _ _ _ _ _ _ F1) by (unfold a; within).
    rewrite <- Z.add_sub_assoc, Rx by (unfold PGSZ in *; lia). apply K. unfold PGSZ in *; lia.
Qed.

Lemma clear_new_ok s t p n l j ls T I I' dn sn sn' : ready s t p dn sn' n l j ls T I' -> keeps (dn + sn) I I' ->
  0 <= dn -> 0 <= sn < sn' ->
  exists s', clear_new (PGSZ * (sn' - sn)) s = Done tt s' /\
    ready s' t p dn sn' n l j ls T (extended (dn + sn) I) /\ u_error (ut s') = u_error (ut s).
Proof.
  intros R K Hd Hs. pose proof R as [[Ra Rs _ _ _ _ _ Rx _] _]. unfold clear_new. go. rewrite Ra, Rs.
  set (a := PGSZ * p + _ - _).
  destruct (clear_up_ok (Z.to_nat (sn' - sn)) (Z.to_nat (PGSZ * (sn' - sn))) a s) as (m' & E & F); [unfold PGSZ; lia|].
  rewrite (pages_of_nat (sn' - sn)) in E, F by lia. rewrite E. eexists. split; [reflexivity|]. split; [|done].
  eapply ready_set_mem; [exact R| |].
  - intros x Hx. apply (filled_out _ _ _ _ _ _ F). unfold a; within.
  - intros i Hi. unfold extended. destruct (Z.ltb_spec i (PGSZ * (1 + (dn + sn)))) as [H1|H1].
    + rewrite (filled_out _ _ _ _ _ _ F) by (unfold a; within). rewrite Rx by done. apply K. lia.
    + by rewrite (filled_in _ _ _ _ _ _ F) by (unfold a; within).
Qed.

(** The branch that shrinks: the stack comes down, then the tail is given back. *)
Lemma shrink_ok s t p n l j ls T I dn dn' sn : resident s t p (dn + sn) (S n) l j ls T I -> mapped s t p dn' sn ->
  0 <= dn' <= dn -> 0 <= sn ->
  exists s' l', (copy_down (Z.to_nat (PGSZ * sn)) (PGSZ * (dn' - dn)) (PGSZ * p + PGSZ * (1 + dn' + sn) - PGSZ * sn) (PGSZ * sn);;
      expand (PGSZ * (1 + dn' + sn));; mret Finished) s = Done Finished s' /\
    ready s' t p dn' sn n l' j ls T (moved_break dn dn' I) /\ u_error (ut s') = u_error (ut s).
Proof.
  intros R Mp Hd Hs. pose proof R as [Ra _ _ _ _ _ _ Rx _]. set (a := PGSZ * p + _ - _).
  destruct (copy_down_ok (Z.to_nat sn) (Z.to_nat (PGSZ * sn)) (PGSZ * (dn' - dn)) a s) as (m1 & E1 & F1); [unfold PGSZ; lia|unfold PGSZ; lia|].
  rewrite (pages_of_nat sn) in E1, F1 by done. rewrite (bind_done _ _ _ _ _ E1).
  assert (resident (set_mem m1 s) t p (dn + sn) (S n) l j ls T (fun i => m1 (PGSZ * p + i))) as R1.
  { eapply resident_set_mem; [exact R| |done]. intros x Hx. apply (filled_out _ _ _ _ _ _ F1). unfold a; within. }
  destruct (expand_shrink uflush ioerr _ _ _ _ _ _ _ _ _ _ (dn' + sn) R1) as (s' & l' & E2 & R2 & Eu); [lia|].
  replace (1 + dn' + sn) with (1 + (dn' + sn)) by lia. rewrite (bind_done _ _ _ _ _ E2). exists s', l'. split; [done|].
  split; [|by rewrite Eu]. split; [|unfold mapped; rewrite Eu; exact Mp]. destruct R2 as [Q1 Q2 Q3 Q4 Q5 Q6 Q7 Q8 Q9]. split; try done.
  intros i Hi. rewrite Q8 by done. unfold moved_break. replace (Z.min dn dn') with dn' by lia.
  destruct (Z.ltb_spec i (PGSZ * (1 + dn'))) as [H1|H1].
  - rewrite (filled_out _ _ _ _ _ _ F1) by (unfold a; within). apply Rx. unfold PGSZ in *; lia.
  - rewrite (filled_in _ _ _ _ _ _ F1) by (unfold a; within). rewrite <- Z.add_sub_assoc. apply Rx. unfold PGSZ in *; lia.
Qed.

(** ** What the process sees afterwards *)

Definition seen (v : Z -> option Z) (s : st) : Prop := forall va, 0 <= va < MAXMEM -> user s va = v va.

(** The pages between the old break and the new are zero, or gone; nothing else has changed. *)
Definition after_break (s : st) (tn dn dn' va : Z) : option Z :=
  if (PGSZ * (tn + Z.min dn dn') <=? va) && (va <? PGSZ * (tn + Z.max dn dn')) then if dn <? dn' then Some 0 else None
  else user s va.

(** The pages above the old stack are zero; nothing else has changed. *)
Definition after_grow (s : st) (sn sn' va : Z) : option Z :=
  if (PGSZ * (USTKPAGE + sn) <=? va) && (va <? PGSZ * (USTKPAGE + sn')) then Some 0 else user s va.

Lemma ready_bounds s t p dn sn n l j ls T I : ready s t p dn sn n l j ls T I ->
  0 <= dn /\ 0 <= sn /\ text_pages t + dn <= USTKPAGE /\ 0 <= text_pages t.
Proof. intros [_ ((_ & _ & H1 & H2 & H3 & H4 & _) & _)]. rewrite img_tn, img_dn, img_sn in *. lia. Qed.

Lemma break_seen s s' t t' p p' dn dn' sn n n' l l' j j' ls ls' T I :
  ready s t p dn sn n l j ls T I -> ready s' t' p' dn' sn n' l' j' ls' T (moved_break dn dn' I) -> text_pages t' = text_pages t ->
  seen (after_break s (text_pages t) dn dn') s'.
Proof.
  intros R R' Et va Hva. pose proof (ready_bounds _ _ _ _ _ _ _ _ _ _ _ R) as B. pose proof (ready_bounds _ _ _ _ _ _ _ _ _ _ _ R') as B'.
  rewrite Et in B'. rewrite (user_ready _ _ _ _ _ _ _ _ _ _ _ _ R') by done. unfold after_break.
  rewrite (user_ready _ _ _ _ _ _ _ _ _ _ _ _ R) by done. rewrite Et. set (tn := text_pages t) in *. clearbody tn.
  clear R R' Et Hva. unfold space, moved_break, USTKPAGE, PGSZ in *.
  repeat match goal with |- context [if ?b then _ else _] => destruct b eqn:? end; try (exfalso; lia); try done; do 2 f_equal; lia.
Qed.

Lemma grow_seen s s' t t' p p' dn sn sn' n n' l l' j j' ls ls' T I : sn <= sn' ->
  ready s t p dn sn n l j ls T I -> ready s' t' p' dn sn' n' l' j' ls' T (extended (dn + sn) I) -> text_pages t' = text_pages t ->
  seen (after_grow s sn sn') s'.
Proof.
  intros Hs R R' Et va Hva. pose proof (ready_bounds _ _ _ _ _ _ _ _ _ _ _ R) as B. pose proof (ready_bounds _ _ _ _ _ _ _ _ _ _ _ R') as B'.
  rewrite Et in B'. rewrite (user_ready _ _ _ _ _ _ _ _ _ _ _ _ R') by done. unfold after_grow.
  rewrite (user_ready _ _ _ _ _ _ _ _ _ _ _ _ R) by done. rewrite Et. set (tn := text_pages t) in *. clearbody tn.
  clear R R' Et Hva. unfold space, extended, USTKPAGE, PGSZ in *.
  repeat match goal with |- context [if ?b then _ else _] => destruct b eqn:? end; try (exfalso; lia); try done; do 2 f_equal; lia.
Qed.

(** Out of core with [r] to do: whenever [swapin] brings the image in, the process goes on to see [v]. *)
Definition goes_on (r : rest) (u : utab) (t : option Z) (k : Z) (T I : Z -> Z) (v : Z -> option Z) : Prop :=
  forall s2 n l j ls, outside s2 t k (S n) l (S j) ls T I -> same_sizes u (ut s2) ->
    (exists s3, swapin s2 = Done 0 s3) \/
    exists s3 s4, swapin s2 = Done 1 s3 /\ proceed r s3 = Done tt s4 /\ seen v s4 /\ u_error (ut s4) = u_error u.

(** The common part: in core again, with the map of the sizes that were accepted. *)
Lemma back_in_core r u t k T I v dp dn sn : k = dn + sn -> image_fits (img t dp dn sn) ->
  u_tsize u = PGSZ * text_pages t -> u_dsize u = PGSZ * dn -> u_ssize u = PGSZ * sn ->
  (forall s3 s4 t' p n l j ls, text_pages t' = text_pages t -> resumed s3 = Done tt s4 -> ready s4 t' p dn sn n l j ls T I ->
    exists s5, proceed r s3 = Done tt s5 /\ seen v s5 /\ u_error (ut s5) = u_error (ut s4)) ->
  goes_on r u (pages_of t) k T I v.
Proof.
  intros -> F H1 H2 H3 Next s2 n l j ls O (Z1 & Z2 & Z3 & Z4 & _).
  destruct (swapin_ok ioerr no_ioerr _ _ _ _ _ _ _ _ _ O) as [? | (s3 & t' & p & l' & ls' & E & Et & R & Y1 & Y2 & Y3 & Y4 & _)]; [by left|right].
  assert (text_pages t' = text_pages t) as Ht by (unfold text_pages; by rewrite Et).
  destruct (resumed_ok s3 t' p n l' j ls' T I dn sn R) as (s4 & E4 & R4 & X4); [congruence..|by eapply image_fits_at|].
  destruct (Next s3 s4 t' p n l' j ls' Ht E4 R4) as (s5 & E5 & V & X5). exists s3, s5. split_and!; try done. congruence.
Qed.

(** ** [sbreak] *)

Lemma sbreak_unfold s t p dn sn n l j ls T I nsiz : ready s t p dn sn n l j ls T I ->
  let tn := text_pages t in
  let dn' := Z.max 0 (break_pages nsiz - tn) in
  sbreak nsiz s = (
    r ← estabur_ (PGSZ * tn) (PGSZ * dn') (PGSZ * sn);
    if negb (r =? 0) then mret Finished
    else if 0 <? PGSZ * (dn' - dn) then
      here ← expand (PGSZ * (1 + dn' + sn));
      if (here : bool) then bigger (PGSZ * (dn' - dn)) (PGSZ * (1 + dn' + sn));; mret Finished
      else mret (Bigger (PGSZ * (dn' - dn)) (PGSZ * (1 + dn' + sn)))
    else
      u ← get ut;
      copy_down (Z.to_nat (u_ssize u)) (PGSZ * (dn' - dn)) (p_addr u + PGSZ * (1 + dn' + sn) - u_ssize u) (u_ssize u);;
      expand (PGSZ * (1 + dn' + sn));; mret Finished) s.
Proof.
  intros [_ (_ & (D1 & D2 & D3 & _) & _)] tn dn'. rewrite img_tn, img_dn, img_sn in *. unfold Image.sbreak. go.
  rewrite D1, D2, D3, pground_pages. fold (break_pages nsiz). fold tn.
  replace (if PGSZ * break_pages nsiz - PGSZ * tn <? 0 then 0 else PGSZ * break_pages nsiz - PGSZ * tn) with (PGSZ * dn')
    by (unfold dn', PGSZ; destruct (Z.ltb_spec (1024 * break_pages nsiz - 1024 * tn) 0); lia).
  replace (PGSZ * dn + (PGSZ * dn' - PGSZ * dn)) with (PGSZ * dn') by lia.
  replace (PGSZ * dn' - PGSZ * dn) with (PGSZ * (dn' - dn)) by lia.
  by replace (PGSZ * dn' + (USIZE + PGSZ * sn)) with (PGSZ * (1 + dn' + sn)) by (unfold USIZE, PGSZ; lia).
Qed.

(** The outcomes of [sbreak] when the sizes are accepted. *)
Definition break_done (s : st) (t : option (Z * Z)) (dn sn dn' : Z) (n j : nat) (T I : Z -> Z) (o : out rest) : Prop :=
  (exists s' p l ls, o = Done Finished s' /\ ready s' t p dn' sn n l j ls T (moved_break dn dn' I) /\
     seen (after_break s (text_pages t) dn dn') s' /\ u_error (ut s') = u_error (ut s)) \/
  dn < dn' /\
  (o = Dies "out of swap space" \/
   exists s' r l ls, o = Done r s' /\ outside s' (pages_of t) (dn' + sn) n l j ls T (extended (dn + sn) I) /\
     goes_on r (ut s') (pages_of t) (dn' + sn) T (extended (dn + sn) I) (after_break s (text_pages t) dn dn') /\
     u_error (ut s') = u_error (ut s)).

Lemma keeps_extended k I : keeps k I (extended k I).
Proof. intros i Hi. unfold extended. by replace (i <? PGSZ * (1 + k)) with true by lia. Qed.

Lemma bigger_branch s s1 t p n l j ls T I dn sn dn' : ready s t p dn sn (S (S n)) l j ls T I ->
  resident s1 t p (dn + sn) (S (S n)) l j ls T I -> image_fits (img t p dn' sn) -> describes (img t p dn' sn) (ut s1) ->
  u_error (ut s1) = u_error (ut s) -> dn < dn' ->
  break_done s t dn sn dn' n j T I ((here ← expand (PGSZ * (1 + dn' + sn));
    if (here : bool) then bigger (PGSZ * (dn' - dn)) (PGSZ * (1 + dn' + sn));; mret Finished
    else mret (Bigger (PGSZ * (dn' - dn)) (PGSZ * (1 + dn' + sn)))) s1).
Proof.
  intros R R1 F D Ee Hd. pose proof (ready_bounds _ _ _ _ _ _ _ _ _ _ _ R) as B.
  pose proof (describes_sized _ _ _ _ _ _ _ _ _ _ dn' sn R1 F D) as Z.
  destruct (expand_grow _ _ _ _ _ _ _ _ _ _ (dn' + sn) dn' sn R1) as
    [X | [(s2 & q & l2 & I2 & X & R2 & K & Mp & X2) | (s2 & l2 & ls2 & a & X & O & Eu)]]; [lia|done|right|left|right];
    replace (1 + (dn' + sn)) with (1 + dn' + sn) in X by lia.
  - split; [done|]. left. unfold mbind, M_bind. by rewrite X.
  - rewrite (bind_done _ _ _ _ _ X). cbv beta iota.
    destruct (bigger_ok s2 t q n l2 j ls T I I2 dn dn' sn) as (s3 & E3 & R3 & X3); [by split|done|lia|lia|].
    rewrite (bind_done _ _ _ _ _ E3). exists s3, q, l2, ls. split_and!; [done|done|by eapply break_seen|congruence].
  - split; [done|]. right. rewrite (bind_done _ _ _ _ _ X). eexists _, _, l2, ls2. split; [reflexivity|]. split; [done|].
    split; [|by rewrite Eu]. destruct D as (D1 & D2 & D3 & _). rewrite img_tn, img_dn, img_sn in *.
    eapply back_in_core; [done|exact F|by rewrite Eu..|].
    intros s3 s4 t' q n3 l3 j3 ls3 Ht E4 R4. cbn [proceed].
    destruct (bigger_ok s4 t' q n3 l3 j3 ls3 T I _ dn dn' sn R4 (keeps_extended _ _)) as (s5 & E5 & R5 & X5); [lia|lia|].
    exists s5. rewrite (bind_done _ _ _ _ _ E4). split_and!; [done|by eapply break_seen|done].
Qed.

(** C14. [sbreak] moves the break to the whole pages below its argument, never below the text.
    When the sizes do not fit it fails with [ENOMEM] and changes nothing else.  When they fit, the
    process afterwards sees, through the map the kernel set up, zeros in the pages between the old
    break and the new one (or no pages there, when the break went down), and every other word of
    its text, data and stack as before -- though the stack is moved in physical memory, and the
    whole image may be.  If there is no core for the larger image it goes out to the swap area,
    and whenever [swapin] brings it back the rest of the call gives that same view; if there is
    no swap space either, the system stops with "out of swap space". *)
Theorem sbreak_correct s t p dn sn n l j ls T I nsiz : ready s t p dn sn (S (S n)) l j ls T I ->
  let tn := text_pages t in
  let dn' := Z.max 0 (break_pages nsiz - tn) in
  (~ fits (PGSZ * tn) (PGSZ * dn') (PGSZ * sn) (maxmem (ut s)) ->
    sbreak nsiz s = Done Finished (set_ut (set_error ENOMEM (ut s)) s)) /\
  (fits (PGSZ * tn) (PGSZ * dn') (PGSZ * sn) (maxmem (ut s)) -> break_done s t dn sn dn' n j T I (sbreak nsiz s)).
Proof.
  intros R tn dn'. rewrite (sbreak_unfold _ _ _ _ _ _ _ _ _ _ _ _ R). fold tn dn'. pose proof (ready_bounds _ _ _ _ _ _ _ _ _ _ _ R) as B. split.
  { intros N. by rewrite (bind_done _ _ _ _ _ (estabur_refuses _ _ _ _ N)). }
  intros Fi. pose proof R as [Rs (Ok & D & _)].
  destruct (estabur_accepts s t p dn sn dn' sn Ok D ltac:(lia) ltac:(lia) Fi) as (u' & E & F & D' & Mp & Xc & Xe & _).
  rewrite (bind_done _ _ _ _ _ E). cbn [Z.eqb negb]. set (s1 := set_ut u' s).
  assert (resident s1 t p (dn + sn) (S (S n)) l j ls T I) as R1.
  { apply resident_ut; [done| |done]. destruct D as (_ & _ & _ & -> & _), D' as (_ & _ & _ & -> & _). by rewrite !img_dp. }
  destruct (Z.ltb_spec 0 (PGSZ * (dn' - dn))) as [Hd|Hd].
  { eapply bigger_branch; try done. unfold PGSZ in Hd; lia. }
  go. left. assert (u_ssize (ut s1) = PGSZ * sn /\ p_addr (ut s1) = PGSZ * p) as [-> ->].
  { destruct D' as (_ & _ & D3 & D4 & _). by rewrite img_sn, img_dp in *. }
  assert (dn' <= dn) as Hle by (unfold PGSZ in Hd; lia).
  assert (image_ok (img t p dn' sn)) as Ok'.
  { pose proof (re_pos _ _ _ _ _ _ _ _ _ _ R1). destruct (describes_sized _ _ _ _ _ _ _ _ _ _ dn' sn R1 F D' p); [lia..|done]. }
  destruct (shrink_ok s1 t p (S n) l j ls T I dn dn' sn) as (s2 & l2 & E2 & [R2 Mp2] & X2); [done|split_and!; auto|lia|lia|].
  rewrite E2. exists s2, p, l2, ls. split; [done|]. assert (ready s2 t p dn' sn n l2 j ls T (moved_break dn dn' I)) as R3
    by (split; [by apply resident_slack|done]).
  split_and!; [done|by eapply break_seen|by rewrite X2].
Qed.

(** ** [grow] *)

(** The outcomes of [grow] when it gives the stack [sn'] pages for [sn]. *)
Definition grow_done (s : st) (t : option (Z * Z)) (dn sn sn' : Z) (n j : nat) (T I : Z -> Z) (o : out (Z * rest)) : Prop :=
  (exists s' p l ls, o = Done (1, Finished) s' /\ ready s' t p dn sn' n l j ls T (extended (dn + sn) I) /\
     seen (after_grow s sn sn') s' /\ u_error (ut s') = u_error (ut s)) \/
  o = Dies "out of swap space" \/
  exists s' r l ls, o = Done (1, r) s' /\ outside s' (pages_of t) (dn + sn') n l j ls T (extended (dn + sn) I) /\
    goes_on r (ut s') (pages_of t) (dn + sn') T (extended (dn + sn) I) (after_grow s sn sn') /\
    u_error (ut s') = u_error (ut s).

Lemma grow_branch s s1 t p n l j ls T I dn sn sn' : ready s t p dn sn (S (S n)) l j ls T I ->
  resident s1 t p (dn + sn) (S (S n)) l j ls T I -> image_fits (img t p dn sn') -> describes (img t p dn sn') (ut s1) ->
  u_error (ut s1) = u_error (ut s) -> sn < sn' ->
  grow_done s t dn sn sn' n j T I ((size ← get p_size; here ← expand (size + PGSZ * (sn' - sn));
    if (here : bool) then clear_new (PGSZ * (sn' - sn));; mret (1, Finished) else mret (1, Clear (PGSZ * (sn' - sn)))) s1).
Proof.
  intros R R1 F D Ee Hs. pose proof (ready_bounds _ _ _ _ _ _ _ _ _ _ _ R) as B.
  pose proof (describes_sized _ _ _ _ _ _ _ _ _ _ dn sn' R1 F D) as Z. go. rewrite (re_size _ _ _ _ _ _ _ _ _ _ R1).
  destruct (expand_grow _ _ _ _ _ _ _ _ _ _ (dn + sn') dn sn' R1) as
    [X | [(s2 & q & l2 & I2 & X & R2 & K & Mp & X2) | (s2 & l2 & ls2 & a & X & O & Eu)]]; [lia|done|right; left|left|right; right];
    replace (PGSZ * (1 + (dn + sn'))) with (PGSZ * (1 + (dn + sn)) + PGSZ * (sn' - sn)) in X by lia.
  - unfold mbind, M_bind. by rewrite X.
  - rewrite (bind_done _ _ _ _ _ X). cbv beta iota.
    destruct (clear_new_ok s2 t q n l2 j ls T I I2 dn sn sn') as (s3 & E3 & R3 & X3); [by split|done|lia|lia|].
    rewrite (bind_done _ _ _ _ _ E3). exists s3, q, l2, ls. split_and!; [done|done|eapply grow_seen; [|done..]; lia|congruence].
  - rewrite (bind_done _ _ _ _ _ X). eexists _, _, l2, ls2. split; [reflexivity|]. split; [done|].
    split; [|by rewrite Eu]. destruct D as (D1 & D2 & D3 & _). rewrite img_tn, img_dn, img_sn in *.
    eapply back_in_core; [done|exact F|by rewrite Eu..|].
    intros s3 s4 t' q n3 l3 j3 ls3 Ht E4 R4. cbn [proceed].
    destruct (clear_new_ok s4 t' q n3 l3 j3 ls3 T I _ dn sn sn' R4 (keeps_extended _ _)) as (s5 & E5 & R5 & X5); [lia|lia|].
    exists s5. rewrite (bind_done _ _ _ _ _ E4). split_and!; [done|eapply grow_seen; [|done..]; lia|done].
Qed.

(** C18. [grow], called for a fault on virtual page [pg], refuses a page that is not a stack page or
    that the process has, with nothing changed, and a stack that does not fit, with [ENOMEM].
    Otherwise it returns 1 and the process sees its stack up to and including that page: the new
    pages zero, every word it had before unchanged -- at once, or, when there was no core, as soon
    as [swapin] has brought the image back from the swap area. *)
Theorem grow_correct s t p dn sn n l j ls T I pg : ready s t p dn sn (S (S n)) l j ls T I ->
  let sn' := pg - USTKPAGE + 1 in
  let ok := fits (PGSZ * text_pages t) (PGSZ * dn) (PGSZ * sn') (maxmem (ut s)) in
  (pg < USTKPAGE \/ NPAGE <= pg \/ sn' <= sn -> grow pg s = Done (0, Finished) s) /\
  (USTKPAGE <= pg < NPAGE -> sn < sn' -> ~ ok -> grow pg s = Done (0, Finished) (set_ut (set_error ENOMEM (ut s)) s)) /\
  (USTKPAGE <= pg < NPAGE -> sn < sn' -> ok -> grow_done s t dn sn sn' n j T I (grow pg s)).
Proof.
  intros R sn' ok. pose proof (ready_bounds _ _ _ _ _ _ _ _ _ _ _ R) as B. pose proof R as [Rs (Ok & D & _)].
  pose proof D as (D1 & D2 & D3 & D4 & _). rewrite img_tn, img_dn, img_sn, img_dp in *. unfold Image.grow.
  destruct ((pg <? USTKPAGE) || (NPAGE <=? pg)) eqn:Ep; [split_and!; try done; lia|]. go.
  rewrite D1, D2, D3. fold sn'. replace (sn' * PGSZ - PGSZ * sn) with (PGSZ * (sn' - sn)) by lia.
  destruct (Z.leb_spec (PGSZ * (sn' - sn)) 0) as [Hs|Hs]; [split_and!; try done; unfold PGSZ in Hs; lia|].
  replace (PGSZ * (sn' - sn) <? SINCR) with false by (unfold SINCR, PGSZ in *; lia).
  replace (PGSZ * sn + PGSZ * (sn' - sn)) with (PGSZ * sn') by lia. split; [unfold PGSZ in Hs; lia|]. split.
  { intros _ _ N. by rewrite (bind_done _ _ _ _ _ (estabur_refuses _ _ _ _ N)). }
  intros _ Hn Fi.
  destruct (estabur_accepts s t p dn sn dn sn' Ok D ltac:(lia) ltac:(lia) Fi) as (u' & E & F & D' & Mp & Xc & Xe & _).
  rewrite (bind_done _ _ _ _ _ E). cbn [Z.eqb negb].
  eapply grow_branch; try done. apply resident_ut; [done| |done]. destruct D' as (_ & _ & _ & -> & _). by rewrite img_dp.
Qed.
End Break.

(** ** A process *)

Module Sample.
(** One page of text at page 20, two of data and one of stack at page 10; every word holds its address. *)
Definition text1 : option (Z * Z) := Some (20, 1).
Definition free_core : list map := [Map (PGSZ * 60) (PGSZ * 40)].
Definition free_swap : list map := [Map 100 100].
Definition sizes : utab :=
  Utab (replicate 8 0) PGSZ (PGSZ * 2) PGSZ 0 (PGSZ * 10) (Some (PGSZ * 20)) (PGSZ * 64) (replicate 8 0) (replicate 4 0).
Definition start (core : list map) : st :=
  St (fun x => x) (fun x => x + 17920) (core ++ replicate 3 (Map 0 0)) (free_swap ++ replicate 3 (Map 0 0))
    (default sizes (sureg sizes)) (PGSZ * 4) 0 0 (Some (Text 5 PGSZ 1 0)) (PGSZ * 10) 0 0 [].
Definition T (i : Z) : Z := PGSZ * 20 + i.
Definition I (i : Z) : Z := PGSZ * 10 + i.

Lemma holds_one z a x : holds [Map z a] x <-> a <= x < a + z.
Proof. rewrite holds_cons, holds_nil. unfold end_of. cbn. lia. Qed.

Lemma pool_one z a : 0 < z -> 0 < a -> pool ([Map z a] ++ replicate 3 (Map 0 0)) [Map z a] 2.
Proof. intros Hz Ha. split; [split|cbn; lia]; [exists (replicate 3 (Map 0 0)); split_and!; [done|done|repeat constructor]|cbn; lia]. Qed.

Lemma sample_paged z a : 0 < a -> a + z <= PGSZ -> paged [Map (PGSZ * z) (PGSZ * a)].
Proof.
  intros Ha Hz. split.
  - intros x y E H. apply holds_one in H. apply holds_one. exact (run_page _ _ _ _ E H).
  - intros x H%holds_one. unfold PGSZ in *. lia.
Qed.

Lemma sizes_set_up : image_ok (img text1 10 2 1) /\ describes (img text1 10 2 1) (default sizes (sureg sizes)) /\
  maps (img text1 10 2 1) (u_upt (default sizes (sureg sizes))) /\ x_caddr (default sizes (sureg sizes)) = Some (PGSZ * 20).
Proof.
  assert (image_ok (img text1 10 2 1)) as Ok by (unfold image_ok, img, text1, USTKPAGE, NPAGE; cbn; lia).
  destruct (sureg_ok (img text1 10 2 1) sizes Ok) as (u & E & D & Mp & Xc & _); [done|]. rewrite E. by split_and!.
Qed.

Lemma sample_ready z a : 0 < z -> 40 <= a -> a + z <= PGSZ ->
  ready (start [Map (PGSZ * z) (PGSZ * a)]) text1 10 2 1 2 [Map (PGSZ * z) (PGSZ * a)] 2 free_swap T I.
Proof.
  intros Hz Ha Hb. destruct sizes_set_up as (Ok & D & Mp & Xc). split; [|by split_and!].
  split; try done.
  - apply pool_one; unfold PGSZ; lia.
  - apply sample_paged; lia.
  - intros x Hx H%holds_one. unfold PGSZ in *. lia.
  - apply pool_one; lia.
  - cbn. split; [split| | |exact Xc|].
    + done.
    + lia.
    + by left.
    + split; [cbn; lia|]. intros x Hx H%holds_one. cbn in *. lia.
    + intros _ i Hi. cbn. unfold T, at_blk, BSIZEW, PGSZ. lia.
    + split; [lia|]. split; [unfold PGSZ; lia|]. split; [|done]. intros x Hx H%holds_one. unfold PGSZ in *. lia.
    + cbn. lia.
    + unfold apart. lia.
Qed.

Definition no_flush (m : Z -> Z) (a : Z) : Z -> Z := m.
Definition no_err (b : Z) : bool := false.
End Sample.

(** To seven pages: the argument is the address of a word. *)
Lemma sbreak_correct_witness :
  break_done Sample.no_err (Sample.start Sample.free_core) Sample.text1 2 1 6 0 2 Sample.T Sample.I
    (sbreak Sample.no_flush Sample.no_err 7000 (Sample.start Sample.free_core)).
Proof.
  assert (fits (PGSZ * 1) (PGSZ * 6) (PGSZ * 1) (maxmem (ut (Sample.start Sample.free_core)))) as F
    by (change (maxmem _) with (PGSZ * 64); unfold fits, MAXMEM, USTKPAGE, NPAGE, PGSZ, USIZE; lia).
  exact (proj2 (sbreak_correct Sample.no_flush Sample.no_err (fun _ => eq_refl) (fun _ _ _ _ => eq_refl) _ _ _ _ _ _ _ _ _ _ _ 7000
    (Sample.sample_ready 60 40 ltac:(lia) ltac:(lia) ltac:(unfold PGSZ; lia))) F).
Defined.

Lemma grow_correct_witness :
  grow_done Sample.no_err (Sample.start Sample.free_core) Sample.text1 2 1 3 0 2 Sample.T Sample.I
    (grow Sample.no_flush Sample.no_err 30 (Sample.start Sample.free_core)).
Proof.
  assert (fits (PGSZ * 1) (PGSZ * 2) (PGSZ * 3) (maxmem (ut (Sample.start Sample.free_core)))) as F
    by (change (maxmem _) with (PGSZ * 64); unfold fits, MAXMEM, USTKPAGE, NPAGE, PGSZ, USIZE; lia).
  exact (proj2 (proj2 (grow_correct Sample.no_flush Sample.no_err (fun _ => eq_refl) (fun _ _ _ _ => eq_refl) _ _ _ _ _ _ _ _ _ _ _ 30
    (Sample.sample_ready 60 40 ltac:(lia) ltac:(lia) ltac:(unfold PGSZ; lia)))) ltac:(unfold USTKPAGE, NPAGE; lia)
    ltac:(unfold USTKPAGE; lia) F).
Defined.

(** With two pages of core free, the image goes out; with the core of others free again it comes
    back, and the rest of [sbreak] leaves the stack's words where the process expects them. *)
Example sbreak_by_way_of_swap :
  match sbreak Sample.no_flush Sample.no_err 7000 (Sample.start [Map (PGSZ * 2) (PGSZ * 40)]) with
  | Done r s2 =>
      match swapin Sample.no_err (set_coremap (Sample.free_core ++ replicate 3 (Map 0 0)) s2) with
      | Done 1 s3 =>
          match proceed r s3 with
          | Done _ s4 => (r, p_addr (ut s4), user s4 5, user s4 1500, user s4 4000, user s4 (PGSZ * 28 + 7), user s4 7168)
          | _ => (Finished, 0, None, None, None, None, None)
          end
      | _ => (Finished, 0, None, None, None, None, None)
      end
  | _ => (Finished, 0, None, None, None, None, None)
  end = (Bigger 4096 8192, PGSZ * 40, Some (PGSZ * 20 + 5), Some (PGSZ * 10 + 1500), Some 0, Some (PGSZ * 13 + 7), None).
Proof. vm_compute. reflexivity. Qed.
