(* ===== verification/Family.v ===== *)
(** * Parents and children: [fork], [exit] and [wait] of [kernel/sys1.c], [stop] of [kernel/sig.c]

    The process table is [Proc.sys]; each process has a u-area, of which the fields these calls
    use are kept by slot.  What [fork] and [exit] do to files, directories and texts is in the
    models of those; where the copy of the image goes is an argument. *)

From Stdlib Require Import ZifyBool.
From S2P Require Import Prelude Param Resmap Utab Proc Sched.
From S2P Require Sig.

Import Resmap.Code.

Definition MAXUPRC : Z := 25.
Definition AFORK : Z := 1.
Definition PWAIT : Z := 30.
Definition ECHILD : Z := 10.
Definition EAGAIN : Z := 11.
Definition SWTED : Z := Proc.SWTED.

Record uarea := Uarea {
  u_uid : Z;
  u_error : Z;
  r_val1 : Z;
  r_val2 : Z;
  u_start : Z;
  u_utime : Z;
  u_stime : Z;
  u_cutime : Z;
  u_cstime : Z;
  u_acflag : Z
}.

Record fam := Fam {
  ps : sys;
  areas : list uarea;  (* by slot of the process table *)
  coremap : list map;
  swapmap : list map;
  uhome : Z;
  time : Z;
  idl : list (nat * nat)  (* the new slot and the [rip] of each [newproc] that waits for [xswap] *)
}.

Definition set_ps (v : sys) (f : fam) : fam := Fam v (areas f) (coremap f) (swapmap f) (uhome f) (time f) (idl f).
Definition set_areas (v : list uarea) (f : fam) : fam := Fam (ps f) v (coremap f) (swapmap f) (uhome f) (time f) (idl f).
Definition set_coremap (v : list map) (f : fam) : fam := Fam (ps f) (areas f) v (swapmap f) (uhome f) (time f) (idl f).
Definition set_swapmap (v : list map) (f : fam) : fam := Fam (ps f) (areas f) (coremap f) v (uhome f) (time f) (idl f).
Definition set_uhome (v : Z) (f : fam) : fam := Fam (ps f) (areas f) (coremap f) (swapmap f) v (time f) (idl f).
Definition set_idl (v : list (nat * nat)) (f : fam) : fam := Fam (ps f) (areas f) (coremap f) (swapmap f) (uhome f) (time f) v.

(** The u-area of the current process. *)
Definition me (f : fam) : nat := u_procp (ps f).
Definition u_ (f : fam) : res uarea := access (areas f) (me f).
Definition mod_u (g : uarea -> uarea) (f : fam) : fam := set_areas (alter g (me f) (areas f)) f.
Definition set_error (e : Z) (u : uarea) : uarea :=
  Uarea (u_uid u) e (r_val1 u) (r_val2 u) (u_start u) (u_utime u) (u_stime u) (u_cutime u) (u_cstime u) (u_acflag u).
Definition set_rval (v1 v2 : Z) (u : uarea) : uarea :=
  Uarea (u_uid u) (u_error u) v1 v2 (u_start u) (u_utime u) (u_stime u) (u_cutime u) (u_cstime u) (u_acflag u).
Definition add_ctimes (ut st : Z) (u : uarea) : uarea :=
  Uarea (u_uid u) (u_error u) (r_val1 u) (r_val2 u) (u_start u) (u_utime u) (u_stime u) (u_cutime u + ut) (u_cstime u + st) (u_acflag u).

(** ** The entry of a process that has ended

    [struct xproc] lies over [struct proc]: the status, the user time and the system time of
    the dead are in the words of [p_addr], [p_size] and [p_wchan]. *)

Definition xp_xstat (x : proc) : Z := p_addr x.
Definition xp_utime (x : proc) : Z := p_size x.
Definition xp_stime (x : proc) : Z := p_wchan x.
Definition zombie (rv ut st : Z) (x : proc) : proc :=
  set_p_wchan st (set_p_size ut (set_p_addr rv (set_p_stat SZOMB x))).

(** The slot as [wait] leaves it. *)
Definition laid_to_rest (x : proc) : proc :=
  set_p_stat 0 (set_p_wchan 0 (set_p_flag 0 (set_p_sig 0 (set_p_pgrp 0 (set_p_ppid 0 (set_p_pid 0 x)))))).

Section Family.
Context (runin_chan runout_chan : Z) (proc_chan : nat -> Z).

Notation wakeup := (wakeup runout_chan).
Notation setrun := (setrun runout_chan).
Notation sleep := (sleep runin_chan runout_chan).

(** ** [wait] *)

Inductive found := Dead (p : nat) | Stopped (p : nat) | Others | NoChild.

(** The scan of the table for children of [pid]; [f] says that one was seen. *)
Fixpoint wait_scan (i : nat) (l : list proc) (pid : Z) (f : bool) : found :=
  match l with
  | [] => if f then Others else NoChild
  | x :: l =>
      if p_ppid x =? pid then
        if p_stat x =? SZOMB then Dead i
        else if (p_stat x =? SSTOP) && negb (p_flag x &? SWTED) then Stopped i
        else wait_scan (S i) l pid true
      else wait_scan (S i) l pid f
  end.

(** From the label [loop], where the process comes back to after its sleep with [seen] set;
    [Some] when it has gone to sleep, or was interrupted there. *)
Definition wait_loop (seen : bool) (f : fam) : res (option slept * fam) :=
  cur ← getp (me f) (ps f);
  match wait_scan 0 (proc_tab (ps f)) (p_pid cur) seen with
  | Dead p =>
      x ← getp p (ps f);
      Ok (None, set_ps (modp p laid_to_rest (ps f))
        (mod_u (fun u => add_ctimes (xp_utime x) (xp_stime x) (set_rval (p_pid x) (xp_xstat x) u)) f))
  | Stopped p =>
      x ← getp p (ps f);
      Ok (None, set_ps (modp p (fun x => set_p_flag (p_flag x |: SWTED) x) (ps f))
        (mod_u (set_rval (p_pid x) (Z.shiftl (fsig x) 8 |: 127)) f))
  | Others =>
      '(r, s) ← sleep (proc_chan (me f)) PWAIT (ps f);
      Ok (Some r, set_ps s f)
  | NoChild => Ok (None, mod_u (set_error ECHILD) f)
  end.

Definition wait (f : fam) : res (option slept * fam) := wait_loop false f.

(** ** [exit] *)

(** [exit] up to the files: untraced, no alarm, every signal ignored. *)
Definition exit_begin (f : fam) : fam :=
  let s := modp (me f) (fun x => set_p_clktim 0 (set_p_flag (p_flag x &~ (STRC |: SULOCK)) x)) (ps f) in
  set_ps (set_u_signal (replicate (Z.to_nat NSIG) 1) s) f.

(** The children from slot [q] on get process 1 for a parent. *)
Fixpoint disown (n q : nat) (pid : Z) (s : sys) : res sys :=
  match n with
  | O => Ok s
  | S n =>
      x ← getp q s;
      s ← (if p_ppid x =? pid then
             s ← wakeup (proc_chan 1) s;
             let s := modp q (set_p_ppid 1) s in
             x ← getp q s;
             if p_stat x =? SSTOP then setrun q s else Ok s
           else Ok s);
      disown n (S q) pid s
  end.

(** The parent is told: the first process with the id, from slot [q] on. *)
Fixpoint tell_parent (n q : nat) (ppid : Z) (s : sys) : res sys :=
  match n with
  | O => Ok s
  | S n =>
      x ← getp q s;
      if p_pid x =? ppid then wakeup (proc_chan q) s else tell_parent n (S q) ppid s
  end.

(** [exit] from the release of the image on, to the [swtch] it does not return from. *)
Definition exit_end (rv : Z) (f : fam) : res fam :=
  let p := me f in
  x ← getp p (ps f);
  u ← u_ f;
  match mfree true (runin (ps f)) (coremap f) (p_size x) (p_addr x) with
  | None => Wild
  | Some (Mfreed mp r w) =>
      s ← (if (w : bool) then wakeup runin_chan (set_runin r (ps f)) else Ok (set_runin r (ps f)));
      let s := modp p (zombie rv (u_cutime u + u_utime u) (u_cstime u + u_stime u)) s in
      s ← disown (length (proc_tab s)) 0 (p_pid x) s;
      y ← getp p s;
      s ← tell_parent (length (proc_tab s)) 0 (p_ppid y) s;
      Ok (set_ps s (set_coremap mp (if p_addr x =? uhome f then set_uhome 0 f else f)))
  end.

(** The status that [rexit] makes of its argument. *)
Definition exit_status (rval : Z) : Z := Z.shiftl (Z.land rval 255) 8.

(** ** [stop], up to its [swtch]; [false] when there is no parent to tell and the process exits. *)

Fixpoint stop_scan (n q : nat) (ppid : Z) (cp : nat) (s : sys) : res (bool * sys) :=
  match n with
  | O => Ok (false, s)
  | S n =>
      x ← getp q s;
      if p_pid x =? ppid then
        s ← wakeup (proc_chan q) s;
        Ok (true, modp cp (set_p_stat SSTOP) s)
      else stop_scan n (S q) ppid cp s
  end.

Definition stop (s : sys) : res (bool * sys) :=
  x ← getp (u_procp s) s;
  if p_ppid x =? 1 then Ok (false, s)
  else stop_scan (length (proc_tab s)) 0 (p_ppid x) (u_procp s) s.

(** ** [fork] *)

(** The scan for a free slot; a process of the user's counts from there on too. *)
Fixpoint fork_scan (i : nat) (l : list proc) (uid : Z) (p2 : option nat) (a : Z) : option nat * Z :=
  match l with
  | [] => (p2, a)
  | x :: l =>
      if (p_stat x =? 0) && bool_decide (p2 = None) then fork_scan (S i) l uid (Some i) a
      else fork_scan (S i) l uid p2 (if (p_uid x =? uid) && negb (p_stat x =? 0) then a + 1 else a)
  end.

(** [newproc] for the parent: the entry, the copy of the u-area, the run queue.  The image is
    copied to core at [a]; with no core free, the parent becomes [SIDL] and goes on in the name of
    the new slot, whose image is the parent's, until [xswap] has written it out: it sleeps on
    the way, and this is where the first part ends. *)
Definition newproc (core : bool) (a : Z) (f : fam) : res fam :=
  '(c, s) ← newproc_entry (ps f);
  rip ← getp (me f) s;
  u ← u_ f;
  let s := modp c (set_p_size (p_size rip)) s in
  let f := set_areas (<[c := u]> (areas f)) f in
  if core then
    s ← setrq c (modp c (set_p_addr a) s);
    Ok (set_ps (modp c (fun x => set_p_flag (p_flag x |: SSWAP) x) s) f)
  else
    let s := modp (me f) (set_p_stat SIDL) s in
    let s := modp c (fun x => set_p_flag (p_flag x |: SLOCK) (set_p_addr (p_addr rip) x)) s in
    Ok (set_idl ((c, me f) :: idl f) (set_ps (set_u_procp c s) f)).

(** The second part, when the image is in the swap area at [a]: the end of [xswap], and
    the parent is itself again. *)
Definition newproc_out (a : Z) (f : fam) : res fam :=
  match list_find (fun e => e.1 = me f) (idl f) with
  | None => Wild
  | Some (k, (c, rip)) =>
      u ← u_ f;
      let s := modp c (fun x => set_p_time 0 (set_p_flag (p_flag x &~ (SLOAD |: SLOCK)) (set_p_addr a x))) (ps f) in
      s ← (if runout s =? 0 then Ok s else wakeup runout_chan (set_runout 0 s));
      s ← setrq c (set_u_procp rip (modp rip (set_p_stat SRUN) s));
      Ok (set_idl (delete k (idl f))
        (set_ps (modp c (fun x => set_p_flag (p_flag x |: SSWAP) x) s) (set_areas (<[rip := u]> (areas f)) f)))
  end.

Definition fork (core : bool) (a : Z) (f : fam) : res fam :=
  match malloc (swapmap f) (wtodb MAXMEM) with
  | None => Wild
  | Some (0, _) => Ok (mod_u (set_error ENOMEM) f)
  | Some (b, mp) =>
      match mfree false 0 mp (wtodb MAXMEM) b with
      | None => Wild
      | Some (Mfreed mp _ _) =>
          let f := set_swapmap mp f in
          u ← u_ f;
          let '(p2, n) := fork_scan 0 (proc_tab (ps f)) (u_uid u) None 0 in
          match p2 with
          | None => Ok (mod_u (set_error EAGAIN) f)
          | Some p2 =>
              if negb (u_uid u =? 0) && (bool_decide (S p2 = length (proc_tab (ps f))) || (MAXUPRC <? n))
              then Ok (mod_u (set_error EAGAIN) f)
              else
                f ← newproc core a f;
                if core then
                  x ← getp p2 (ps f);
                  Ok (mod_u (set_rval (p_pid x) 0) f)
                else Ok f
          end
      end
  end.

(** The rest of [fork] for a parent whose image had to go out. *)
Definition fork_out (a : Z) (f : fam) : res fam :=
  let p2 := me f in
  f ← newproc_out a f;
  x ← getp p2 (ps f);
  Ok (mod_u (set_rval (p_pid x) 0) f).

(** Where [newproc] returns 1: the child, on the processor for the first time. *)
Definition fork_child (p1 : nat) (f : fam) : res fam :=
  x ← getp p1 (ps f);
  Ok (mod_u (fun u => Uarea (u_uid u) (u_error u) (p_pid x) 1 (time f) 0 0 0 0 AFORK) f).
End Family.
