(* ===== verification/Kin.v ===== *)
(** * The family of processes under [fork], [exit], [wait] and [stop]

    [sound] is what the queues promise, [tree] what ids and parents do.  Other processes run
    between two steps of one; [calm] is what they leave of the tree. *)

From Stdlib Require Import ZifyBool.
From stdpp Require Import relations.
From S2P Require Import Prelude Param Resmap Utab Proc Sched Family.
From S2P Require Sig.

Import Resmap.Code.

(** The flag and the slots are objects of the program: their addresses are different and not
    0.  Nothing is said of the buckets they hash to. *)
Class layout (runin_chan : Z) (proc_chan : nat -> Z) : Prop := Layout {
  runin_chan_0 : runin_chan <> 0;
  proc_chan_0 : forall i, (i < Z.to_nat NPROC)%nat -> proc_chan i <> 0;
  proc_chan_inj : forall i j, (i < Z.to_nat NPROC)%nat -> (j < Z.to_nat NPROC)%nat -> proc_chan i = proc_chan j -> i = j;
  proc_chan_runin : forall i, (i < Z.to_nat NPROC)%nat -> proc_chan i <> runin_chan
}.

Section Kin.
Context (runin_chan runout_chan : Z) (proc_chan : nat -> Z) {La : layout runin_chan proc_chan}.
(** The parents whose [newproc] waits for [xswap]. *)
Context (P : list nat).

Notation wakeup := (wakeup runout_chan).
Notation setrun := (setrun runout_chan).
Notation sleep := (sleep runin_chan runout_chan).
Notation disown := (disown runout_chan proc_chan).
Notation tell_parent := (tell_parent runout_chan proc_chan).
Notation exit_end := (exit_end runin_chan runout_chan proc_chan).
Notation wait_loop := (wait_loop runin_chan runout_chan proc_chan).
Notation stop := (stop runout_chan proc_chan).
Notation newproc := (newproc runout_chan).
Notation fork := (fork runout_chan).

(** ** The queues *)

Definition parked (x : proc) : Prop := p_stat x = 0 \/ p_stat x = SZOMB \/ p_stat x = SSTOP \/ p_stat x = SIDL.

(** On the address of a slot only the process of the slot sleeps, in [wait]; on [runin] only
    process 0 does, the swapper. *)
Definition own_chan (i : nat) (x : proc) : Prop :=
  (forall k, (k < Z.to_nat NPROC)%nat -> p_wchan x = proc_chan k -> i = k) /\ (p_wchan x = runin_chan -> i = 0%nat).

(** [b]: a process has the processor. *)
Record sound (b : bool) (s : sys) (R : list nat) (Q : Z -> list nat) : Prop := {
  so_len : (length (proc_tab s) <= Z.to_nat NPROC)%nat;
  so_queues : wfq s R Q;
  so_asleep : Sig.sleepers_queued s Q;
  so_parked : forall i x, proc_tab s !! i = Some x -> parked x -> off_queues i R Q;
  so_idle : forall i x, proc_tab s !! i = Some x -> p_stat x = 0 \/ p_stat x = SSTOP \/ p_stat x = SIDL -> p_wchan x = 0;
  so_idl : forall i, i ∈ P -> exists x, proc_tab s !! i = Some x /\ p_stat x = SIDL;
  so_own : forall i x, proc_tab s !! i = Some x -> p_stat x <> SZOMB -> own_chan i x;
  so_sigs : (forall i x, proc_tab s !! i = Some x -> sigset (p_sig x)) /\ length (u_signal s) = 17%nat;
  so_cur : b = true -> off_queues (u_procp s) R Q /\
    exists x, proc_tab s !! u_procp s = Some x /\ p_stat x = SRUN /\ p_wchan x = 0
}.

(** ** The tree *)

Definition alive (x : proc) : Prop := p_stat x <> 0 /\ p_stat x <> SZOMB.

(** Asleep in [wait]. *)
Definition waiting (i : nat) (x : proc) : Prop := p_stat x = SSLEEP /\ p_wchan x = proc_chan i.

Record tree (tab : list proc) : Prop := {
  t_swapper : exists x, tab !! 0%nat = Some x /\ alive x /\ p_pid x = 0 /\ p_ppid x = 0;
  t_init : exists x, tab !! 1%nat = Some x /\ alive x /\ p_pid x = 1;
  t_free : forall i x, tab !! i = Some x -> p_stat x = 0 -> p_pid x = 0 /\ p_ppid x = 0;
  t_pid : forall i x, tab !! i = Some x -> p_stat x <> 0 -> i <> 0%nat -> 0 < p_pid x;
  t_unique : forall i j x y, tab !! i = Some x -> tab !! j = Some y -> p_stat x <> 0 -> p_stat y <> 0 ->
    p_pid x = p_pid y -> i = j;
  t_parent : forall i x, tab !! i = Some x -> p_stat x <> 0 -> exists j y, tab !! j = Some y /\ alive y /\ p_pid y = p_ppid x;
  t_wait : forall i x c y, tab !! i = Some x -> waiting i x -> tab !! c = Some y -> p_ppid y = p_pid x -> p_stat y <> SZOMB
}.

(** What the dead leave. *)
Definition estate (x : proc) : Z * Z * Z := (xp_xstat x, xp_utime x, xp_stime x).

(** What a step that is none of the family's leaves of an entry. *)
Definition calm_entry (i : nat) (x x' : proc) : Prop :=
  p_pid x' = p_pid x /\ p_ppid x' = p_ppid x /\ (p_stat x' = 0 <-> p_stat x = 0) /\ (p_stat x' = SZOMB <-> p_stat x = SZOMB) /\
  (waiting i x' -> waiting i x) /\ (p_stat x = SZOMB -> estate x' = estate x).

Definition calm (t t' : list proc) : Prop :=
  length t' = length t /\ forall i x, t !! i = Some x -> exists x', t' !! i = Some x' /\ calm_entry i x x'.

Lemma calm_back t t' i x' : calm t t' -> t' !! i = Some x' -> exists x, t !! i = Some x /\ calm_entry i x x'.
Proof.
  intros [L H] Hx. destruct (lookup_lt_is_Some_2 t i) as [x E]; [rewrite <- L; by eapply lookup_lt_Some|].
  destruct (H i x E) as (y & Hy & C). exists x. split; [done|]. by simplify_eq.
Qed.

Lemma calm_self t : calm t t.
Proof. split; [done|]. intros i x Hx. exists x. by split_and!. Qed.

Lemma calm_then t1 t2 t3 : calm t1 t2 -> calm t2 t3 -> calm t1 t3.
Proof.
  intros [L1 H1] [L2 H2]. split; [congruence|]. intros i x Hx. destruct (H1 i x Hx) as (y & Hy & C1 & C2 & C3 & C4 & C5 & C6).
  destruct (H2 i y Hy) as (z & Hz & D1 & D2 & D3 & D4 & D5 & D6). exists z. split; [done|]. unfold calm_entry.
  split_and!; [congruence|congruence|tauto|tauto|tauto|]. intros E. rewrite D6, C6; tauto.
Qed.

Lemma calm_alive i x x' : calm_entry i x x' -> (alive x <-> alive x').
Proof. intros (_ & _ & E0 & Ez & _). unfold alive. tauto. Qed.

(** Ids, parents and the dead stay as they are; who is now in [wait] has no dead child. *)
Lemma tree_keep t t' : tree t -> length t' = length t ->
  (forall i x, t !! i = Some x -> exists x', t' !! i = Some x' /\ p_pid x' = p_pid x /\ p_ppid x' = p_ppid x /\
     (p_stat x' = 0 <-> p_stat x = 0) /\ (p_stat x' = SZOMB <-> p_stat x = SZOMB) /\
     (waiting i x' -> forall c y, t !! c = Some y -> p_ppid y = p_pid x -> p_stat y <> SZOMB)) -> tree t'.
Proof.
  intros [Ts Ti Tf Tp Tu Ta Tw] L H.
  assert (forall i x', t' !! i = Some x' -> exists x, t !! i = Some x /\ p_pid x' = p_pid x /\ p_ppid x' = p_ppid x /\
     (p_stat x' = 0 <-> p_stat x = 0) /\ (p_stat x' = SZOMB <-> p_stat x = SZOMB) /\
     (waiting i x' -> forall c y, t !! c = Some y -> p_ppid y = p_pid x -> p_stat y <> SZOMB)) as B.
  { intros i x' Hx. destruct (lookup_lt_is_Some_2 t i) as [x E]; [rewrite <- L; by eapply lookup_lt_Some|].
    destruct (H i x E) as (y & Hy & C). exists x. split; [done|]. by simplify_eq. }
  split.
  - destruct Ts as (x & Hx & A & E1 & E2). destruct (H _ _ Hx) as (x' & Hx' & F1 & F2 & F3 & F4 & _). exists x'.
    unfold alive in *. rewrite F1, F2. tauto.
  - destruct Ti as (x & Hx & A & E1). destruct (H _ _ Hx) as (x' & Hx' & F1 & F2 & F3 & F4 & _). exists x'.
    unfold alive in *. rewrite F1. tauto.
  - intros i x' Hx' E0. destruct (B i x' Hx') as (x & Hx & -> & -> & E & _). by eapply Tf, E.
  - intros i x' Hx' E0 Hi. destruct (B i x' Hx') as (x & Hx & -> & _ & E & _). apply (Tp i x); tauto.
  - intros i j x' y' Hx' Hy' E1 E2 Ep. destruct (B i x' Hx') as (x & Hx & Ex & _ & F1 & _).
    destruct (B j y' Hy') as (y & Hy & Ey & _ & F2 & _). apply (Tu i j x y); try done; [tauto|tauto|congruence].
  - intros i x' Hx' E0. destruct (B i x' Hx') as (x & Hx & _ & -> & E & _).
    destruct (Ta i x Hx ltac:(tauto)) as (j & y & Hy & A & Ep). destruct (H j y Hy) as (y' & Hy' & F1 & F2 & F3 & F4 & _). exists j, y'.
    unfold alive in *. rewrite F1. tauto.
  - intros i x' c y' Hx' W Hy' Ep. destruct (B i x' Hx') as (x & Hx & Ex & _ & _ & _ & Ew).
    destruct (B c y' Hy') as (y & Hy & _ & Ey & _ & Ez & _). rewrite Ez. apply (Ew W c y); congruence.
Qed.

Lemma tree_calm t t' : tree t -> calm t t' -> tree t'.
Proof.
  intros Tr [L H]. apply (tree_keep t t' Tr L). intros i x Hx. destruct (H i x Hx) as (x' & Hx' & E1 & E2 & E3 & E4 & E5 & _).
  exists x'. split_and!; try done. intros W c y. apply (t_wait _ Tr i x c y Hx (E5 W)).
Qed.

(** ** [wakeup] and [setrun] *)

Lemma own_0 i x : p_wchan x = 0 -> own_chan i x.
Proof. intros E. split; [intros k Hk; rewrite E; intros E'; by destruct (proc_chan_0 k Hk)|rewrite E; intros E'; by destruct runin_chan_0]. Qed.

Lemma not_idl b s R Q i x : sound b s R Q -> proc_tab s !! i = Some x -> p_stat x <> SIDL -> i ∉ P.
Proof. intros So Hx Hn Hi. destruct (so_idl _ _ _ _ So i Hi) as (y & Hy & E). congruence. Qed.

(** So a wakeup of either reaches its sleeper, whatever is in the bucket. *)
Lemma sole_own s R Q chan i : wfq s R Q -> (forall j x, proc_tab s !! j = Some x -> p_stat x <> SZOMB -> p_wchan x = chan -> j = i) ->
  sole s chan (Q (HASH chan)).
Proof.
  intros Hq Ho. assert (forall p, p ∈ Q (HASH chan) -> waits s chan p = true -> p = i) as H; [|intros p q Hp Hp' W W'; by rewrite (H p), (H q)].
  intros p Hp W. unfold waits in W. destruct (proc_tab s !! p) as [x|] eqn:Hx; [|done]. apply Z.eqb_eq in W. apply (Ho p x Hx); [|done].
  by destruct (q_slp_waits _ _ _ _ Hq _ p x (HASH_range chan) Hp Hx) as (_ & _ & _ & ?).
Qed.

Lemma sole_proc b s R Q k : sound b s R Q -> (k < Z.to_nat NPROC)%nat -> sole s (proc_chan k) (Q (HASH (proc_chan k))).
Proof. intros So Hk. apply (sole_own s R Q _ k (so_queues _ _ _ _ So)). intros j x Hx Hz E. by apply (proj1 (so_own _ _ _ _ So j x Hx Hz)). Qed.

Lemma sole_runin b s R Q : sound b s R Q -> sole s runin_chan (Q (HASH runin_chan)).
Proof. intros So. apply (sole_own s R Q _ 0%nat (so_queues _ _ _ _ So)). intros j x Hx Hz E. by apply (proj2 (so_own _ _ _ _ So j x Hx Hz)). Qed.

Lemma unlinked_fields x y : unlinked x = unlinked y ->
  p_stat x = p_stat y /\ p_pid x = p_pid y /\ p_ppid x = p_ppid y /\ p_wchan x = p_wchan y /\ p_sig x = p_sig y.
Proof. intros E. destruct x, y. unfold unlinked in E. simpl in *. by simplify_eq. Qed.

Lemma unlinked_estate x y : unlinked x = unlinked y -> p_addr x = p_addr y /\ p_size x = p_size y /\ p_wchan x = p_wchan y.
Proof. intros E. destruct x, y. unfold unlinked in E. simpl in *. by simplify_eq. Qed.

(** Some processes of [W] are made runnable: nothing else changes but links. *)
Lemma sound_awakened b s R Q s' W R' Q' : sound b s R Q -> wfq s' R' Q' -> awakened W s s' -> quiet s s' ->
  (forall p x, p ∈ W -> proc_tab s !! p = Some x -> alive x /\ p_stat x <> SIDL) -> (b = true -> u_procp s ∉ W) ->
  (forall i x, i ∉ W -> proc_tab s !! i = Some x -> parked x \/ i = u_procp s -> off_queues i R Q -> off_queues i R' Q') -> (forall i j, i ∉ W -> i ∈ Q j -> i ∈ Q' j) ->
  sound b s' R' Q' /\ calm (proc_tab s) (proc_tab s').
Proof.
  intros S Hq' [L Ha] (_ & _ & _ & _ & _ & Hu & Hus) HW Hcur Off On.
  assert (forall i x', proc_tab s' !! i = Some x' -> exists x, proc_tab s !! i = Some x /\
    ((i ∉ W /\ p_stat x' = p_stat x /\ p_wchan x' = p_wchan x) \/ (i ∈ W /\ alive x /\ p_stat x' = SRUN /\ p_wchan x' = 0)) /\
    p_pid x' = p_pid x /\ p_ppid x' = p_ppid x /\ p_sig x' = p_sig x /\ (p_stat x = SZOMB -> estate x' = estate x)) as Hx.
  { intros i x' Hx'. destruct (lookup_lt_is_Some_2 (proc_tab s) i) as [x E]; [rewrite <- L; by eapply lookup_lt_Some|]. exists x. split; [done|].
    destruct (Ha i x E) as (y & Hy & Ey). rewrite Hx' in Hy. injection Hy as <-. destruct (unlinked_fields _ _ Ey) as (E1 & E2 & E3 & E4 & E5).
    destruct (decide (i ∈ W)) as [Hi|Hi]; [split; [right; split; [done|]; split; [by eapply HW|done]|]|split; [by left|]]; (split_and!; [done..|]).
    - intros Ez. by destruct (HW i x Hi E) as [[_ ?] _].
    - intros _. unfold estate, xp_xstat, xp_utime, xp_stime. by destruct (unlinked_estate _ _ Ey) as (-> & -> & ->). }
  split; [split|split; [done|]].
  - rewrite L. apply S.
  - done.
  - intros i x' Hx' Hs. destruct (Hx i x' Hx') as (x & E & [(Hi & E1 & E2)|(_ & _ & E1 & _)] & _); [|rewrite E1 in Hs; done].
    rewrite E2. apply On; [done|]. apply (so_asleep _ _ _ _ S); congruence.
  - intros i x' Hx' Hp. destruct (Hx i x' Hx') as (x & E & [(Hi & E1 & _)|(_ & _ & E1 & _)] & _).
    + assert (parked x) as Px by (unfold parked in *; by rewrite <- E1). apply (Off i x Hi E); [by left|]. by apply (so_parked _ _ _ _ S i x E).
    + unfold parked in Hp. rewrite E1 in Hp. unfold SRUN, SZOMB, SSTOP, SIDL in Hp. lia.
  - intros i x' Hx' Hp. destruct (Hx i x' Hx') as (x & E & [(Hi & E1 & ->)|(_ & _ & _ & ->)] & _); [|done].
    apply (so_idle _ _ _ _ S i x E). by rewrite <- E1.
  - intros i Hi. destruct (so_idl _ _ _ _ S i Hi) as (x & E & Es). destruct (Ha i x E) as (x' & Hx' & Ey).
    exists x'. split; [done|]. rewrite decide_False in Ey by (intros HiW; by destruct (HW i x HiW E)).
    by destruct (unlinked_fields _ _ Ey) as (-> & _).
  - intros i x' Hx' Hz. destruct (Hx i x' Hx') as (x & E & [(Hi & E1 & E2)|(_ & _ & _ & E2)] & _); [|by apply own_0].
    unfold own_chan. rewrite E2. apply (so_own _ _ _ _ S i x E). by rewrite <- E1.
  - split; [|rewrite Hus; apply S]. intros i x' Hx'. destruct (Hx i x' Hx') as (x & E & _ & _ & _ & -> & _). by apply (proj1 (so_sigs _ _ _ _ S) i x).
  - intros Hb. destruct (so_cur _ _ _ _ S Hb) as (Ho & x & E & Es & Ew). rewrite Hu. split; [by apply (Off _ x (Hcur Hb) E); [right|]|].
    destruct (Ha _ _ E) as (x' & Hx' & Ey). rewrite decide_False in Ey by auto. destruct (unlinked_fields _ _ Ey) as (E1 & _ & _ & E4 & _).
    exists x'. split_and!; [done|congruence|congruence].
  - intros i x E. destruct (Ha i x E) as (x' & Hx' & _). exists x'. split; [done|]. destruct (Hx i x' Hx') as (y & Ey & D & E1 & E2 & _ & Ee).
    rewrite E in Ey. injection Ey as <-. unfold calm_entry, waiting. split_and!; [done|done| | | |exact Ee].
    + destruct D as [(_ & -> & _)|(_ & [? _] & -> & _)]; [done|]. unfold SRUN. lia.
    + destruct D as [(_ & -> & _)|(_ & [_ ?] & -> & _)]; [done|]. unfold SRUN, SZOMB in *. lia.
    + destruct D as [(_ & -> & ->)|(_ & _ & -> & _)]; [done|]. unfold SRUN, SSLEEP. lia.
Qed.

Lemma off_out W i R Q : i ∉ W -> off_queues i R Q -> off_queues i (W ++ R) (fun j => out W (Q j)).
Proof. intros Hi [Hr Ho]. split; [set_solver|]. intros j Hj Hin. apply (Ho j Hj). unfold out in Hin. apply elem_of_filter_b in Hin. tauto. Qed.

(** Nobody is left asleep on the channel. *)
Lemma sound_woke b s R Q chan s' W : sound b s R Q -> woke runout_chan chan s R Q s' W ->
  sound b s' (W ++ R) (fun j => out W (Q j)) /\ calm (proc_tab s) (proc_tab s') /\ quiet s s' /\
  (forall i x', proc_tab s' !! i = Some x' -> p_stat x' = SSLEEP -> p_wchan x' <> chan).
Proof.
  intros So (Hq & Ha & Hqt & Hall & HW).
  assert (forall p, p ∈ W -> exists i, 0 <= i < 64 /\ p ∈ Q i) as HQ.
  { intros p Hp. destruct (HW p Hp) as [[? _]|[? _]]; eauto using HASH_range. }
  destruct (sound_awakened b s R Q s' W (W ++ R) (fun j => out W (Q j)) So Hq Ha Hqt) as [S' C].
  { intros p x Hp Hx. destruct (HQ p Hp) as (i & Hi & Hin). destruct (q_slp_waits _ _ _ _ (so_queues _ _ _ _ So) i p x Hi Hin Hx) as (_ & _ & ? & ?).
    split; [done|]. intros Ei. destruct (so_parked _ _ _ _ So p x Hx) as [_ Ho]; [unfold parked; tauto|]. by apply (Ho i). }
  { intros Hb Hp. destruct (so_cur _ _ _ _ So Hb) as ([_ Ho] & _). destruct (HQ _ Hp) as (i & Hi & Hin). by apply (Ho i). }
  { intros i x Hi _ _. by apply off_out. }
  { intros i j Hi Hin. apply elem_of_filter_b. split; [by rewrite bool_decide_false|done]. }
  split_and!; try done. intros i x' Hx' Hs Hw.
  destruct Ha as [L Ha]. destruct (lookup_lt_is_Some_2 (proc_tab s) i) as [x Ex]; [rewrite <- L; by eapply lookup_lt_Some|].
  destruct (Ha i x Ex) as (y & Hy & Ey). rewrite Hx' in Hy. injection Hy as <-. destruct (unlinked_fields _ _ Ey) as (E1 & _ & _ & E4 & _).
  destruct (decide (i ∈ W)) as [Hi|Hi]; [by rewrite E1 in Hs|]. apply Hi, Hall.
  - rewrite <- Hw, E4. apply (so_asleep _ _ _ _ So); congruence.
  - unfold waits. rewrite Ex, <- E4, Hw. apply Z.eqb_refl.
Qed.

Lemma sound_wakeup b s R Q chan : sound b s R Q -> reaches runout_chan chan s Q ->
  exists s' R' Q', wakeup chan s = Ok s' /\ sound b s' R' Q' /\ calm (proc_tab s) (proc_tab s') /\ quiet s s' /\
    (forall i x', proc_tab s' !! i = Some x' -> p_stat x' = SSLEEP -> p_wchan x' <> chan).
Proof.
  intros So Hh. destruct (wakeup_woke runout_chan chan s R Q (so_queues _ _ _ _ So) Hh) as (s' & W & E & HW).
  exists s', (W ++ R), (fun j => out W (Q j)). split; [done|]. by apply (sound_woke b s R Q chan s' W).
Qed.

Lemma sound_runout b s R Q v : sound b s R Q -> sound b (set_runout v s) R Q.
Proof. intros [Hl [] ? ? ? ? ? ? ?]. by split. Qed.

Lemma sound_runin b s R Q v : sound b s R Q -> sound b (set_runin v s) R Q.
Proof. intros [Hl [] ? ? ? ? ? ? ?]. by split. Qed.

(** A stopped process goes on. *)
Lemma sound_setrun b s R Q p x : sound b s R Q -> proc_tab s !! p = Some x -> p_stat x = SSTOP ->
  exists s' R' Q', setrun p s = Ok s' /\ sound b s' R' Q' /\ calm (proc_tab s) (proc_tab s') /\ quiet s s'.
Proof.
  intros S Hx Es. pose proof (so_parked _ _ _ _ S p x Hx ltac:(by right; right; left)) as Hoff.
  destruct (setrun_plain runout_chan wakeup p s R Q x (so_queues _ _ _ _ S) Hoff Hx) as (s1 & Ha & Hq & Hqt & Hro & E);
    [by apply (so_idle _ _ _ _ S p x Hx); right; left|by rewrite Es|by rewrite Es|].
  destruct (sound_awakened b s R Q s1 [p] (p :: R) Q S Hq Ha Hqt) as [S1 C1]; [| | |done|].
  { intros q y ->%list_elem_of_singleton Hy. simplify_eq. unfold alive. by rewrite Es. }
  { intros Hb Hp%list_elem_of_singleton. destruct (so_cur _ _ _ _ S Hb) as (_ & y & Hy & Ey & _). rewrite Hp, Hx in Hy. injection Hy as <-. by rewrite Es in Ey. }
  { intros i y Hi _ _ [Hr Ho]. split; [set_solver|done]. }
  unfold Sched.setrun. rewrite E. destruct (negb (runout s =? 0) && negb (p_flag x &? SLOAD)).
  - destruct (sound_wakeup b (set_runout 0 s1) (p :: R) Q runout_chan) as (s2 & R2 & Q2 & E2 & S2 & C2 & Hq2 & _);
      [by apply sound_runout|by left|]. exists s2, R2, Q2. split_and!; [done|done|by eapply calm_then|].
    eapply quiet_trans; [exact Hqt|]. done.
  - exists s1, (p :: R), Q. by split_and!.
Qed.

Lemma modp_back p f s i x' : proc_tab (modp p f s) !! i = Some x' ->
  exists x, proc_tab s !! i = Some x /\ (i <> p /\ x' = x \/ i = p /\ x' = f x).
Proof.
  unfold modp. cbn [proc_tab set_proc_tab]. destruct (decide (i = p)) as [->|Hi].
  - rewrite list_lookup_alter_eq. destruct (proc_tab s !! p) as [x|]; [|done]. intros [= <-]. exists x. split; [done|by right].
  - rewrite list_lookup_alter_ne by done. intros Hx. exists x'. split; [done|by left].
Qed.

Lemma lookup_modp_ne p f s i : i <> p -> proc_tab (modp p f s) !! i = proc_tab s !! i.
Proof. intros Hi. unfold modp. cbn. by rewrite list_lookup_alter_ne. Qed.

(** A change of an entry that is on no queue. *)
Lemma sound_modp b b' s R Q p f : sound b s R Q -> off_queues p R Q ->
  (forall x, proc_tab s !! p = Some x -> p_stat (f x) <> SSLEEP /\ (p_stat (f x) <> SZOMB -> p_wchan (f x) = 0) /\
    (p ∈ P -> p_stat (f x) = SIDL) /\ sigset (p_sig (f x)) /\ (b' = true -> b = true /\ (p = u_procp s -> p_stat (f x) = SRUN /\ p_wchan (f x) = 0))) ->
  (exists x, proc_tab s !! p = Some x) -> sound b' (modp p f s) R Q.
Proof.
  intros S Ho Hf [x0 Hx0]. split.
  - unfold modp. cbn. rewrite length_alter. apply S.
  - apply queues_modp_off; [apply S|done].
  - intros i x' (x & Hx & [[Hi ->]|[-> ->]])%modp_back Hs; [by apply (so_asleep _ _ _ _ S)|]. by destruct (Hf x Hx).
  - intros i x' (x & Hx & [[Hi ->]|[-> ->]])%modp_back Hp; [by apply (so_parked _ _ _ _ S i x)|done].
  - intros i x' (x & Hx & [[Hi ->]|[-> ->]])%modp_back Hp; [by apply (so_idle _ _ _ _ S i x)|]. destruct (Hf x Hx) as (_ & Hw & _).
    apply Hw. unfold SSTOP, SZOMB, SIDL in *. lia.
  - intros i Hi. destruct (so_idl _ _ _ _ S i Hi) as (x & Hx & Es). destruct (decide (i = p)) as [->|Hn].
    + exists (f x). split; [by apply Sig.lookup_modp|]. destruct (Hf x Hx) as (_ & _ & H & _). auto.
    + exists x. by rewrite lookup_modp_ne.
  - intros i x' (x & Hx & [[Hi ->]|[-> ->]])%modp_back Hp; [by apply (so_own _ _ _ _ S i x)|]. destruct (Hf x Hx) as (_ & Hw & _).
    by apply own_0, Hw.
  - split; [|apply S]. intros i x' (x & Hx & [[Hi ->]|[-> ->]])%modp_back; [by apply (proj1 (so_sigs _ _ _ _ S) i)|]. by destruct (Hf x Hx) as (_ & _ & _ & ? & _).
  - intros Hb'. destruct (Hf x0 Hx0) as (_ & _ & _ & _ & Hc). destruct (Hc Hb') as [Hb Hcur].
    destruct (so_cur _ _ _ _ S Hb) as (Hoff & x & Hx & Es & Ew). split; [done|]. change (u_procp (modp p f s)) with (u_procp s).
    destruct (decide (p = u_procp s)) as [->|Hp].
    + exists (f x0). split; [by apply Sig.lookup_modp|]. by apply Hcur.
    + exists x. split; [by rewrite lookup_modp_ne|done].
Qed.

(** A change of an entry's flags or parent. *)
Lemma sound_flag b s R Q p f : sound b s R Q ->
  (forall x, p_link (f x) = p_link x /\ p_wchan (f x) = p_wchan x /\ p_stat (f x) = p_stat x /\ p_sig (f x) = p_sig x) ->
  sound b (modp p f s) R Q.
Proof.
  intros S Hf.
  assert (forall i x', proc_tab (modp p f s) !! i = Some x' -> exists x, proc_tab s !! i = Some x /\
    p_wchan x' = p_wchan x /\ p_stat x' = p_stat x /\ p_sig x' = p_sig x) as Hx.
  { intros i x' (x & Hx & [[Hi ->]|[-> ->]])%modp_back; exists x; [done|]. split; [done|]. by destruct (Hf x) as (_ & ? & ? & ?). }
  split.
  - unfold modp. cbn. rewrite length_alter. apply S.
  - apply queues_flag; [apply S|]. intros x. by destruct (Hf x) as (? & ? & ? & ?).
  - intros i x' (x & E & -> & -> & _)%Hx. by apply (so_asleep _ _ _ _ S).
  - intros i x' (x & E & _ & E2 & _)%Hx. unfold parked. rewrite E2. by apply (so_parked _ _ _ _ S).
  - intros i x' (x & E & -> & -> & _)%Hx. by apply (so_idle _ _ _ _ S i).
  - intros i Hi. destruct (so_idl _ _ _ _ S i Hi) as (x & E & Es). destruct (decide (i = p)) as [->|Hn].
    + exists (f x). split; [by apply Sig.lookup_modp|]. by destruct (Hf x) as (_ & _ & -> & _).
    + exists x. by rewrite lookup_modp_ne.
  - intros i x' (x & E & E1 & -> & _)%Hx. unfold own_chan. rewrite E1. by apply (so_own _ _ _ _ S i).
  - split; [|apply S]. intros i x' (x & E & _ & _ & ->)%Hx. by apply (proj1 (so_sigs _ _ _ _ S) i).
  - intros Hb. destruct (so_cur _ _ _ _ S Hb) as (Ho & x & E & E1 & E2). split; [done|]. change (u_procp (modp p f s)) with (u_procp s).
    destruct (decide (u_procp s = p)) as [Hp|Hp].
    + exists (f x). split; [rewrite <- Hp; by apply Sig.lookup_modp|]. destruct (Hf x) as (_ & -> & -> & _). done.
    + exists x. split; [by rewrite lookup_modp_ne|done].
Qed.

Lemma calm_modp p f s : (forall x, calm_entry p x (f x)) -> calm (proc_tab s) (proc_tab (modp p f s)).
Proof.
  intros Hf. split; [unfold modp; cbn; by rewrite length_alter|]. intros i x Hx. destruct (decide (i = p)) as [->|Hi].
  - exists (f x). split; [by apply Sig.lookup_modp|done].
  - exists x. split; [by rewrite lookup_modp_ne|by split_and!].
Qed.

Lemma sound_idle b s R Q : sound b s R Q -> sound false s R Q.
Proof. intros []. by split. Qed.

(** ** [exit]: the children *)

(** The slots below [q] whose parent was [pid] are children of process 1, which is then not asleep. *)
Definition disowned (q : nat) (pid : Z) (t t' : list proc) : Prop :=
  length t' = length t /\
  (forall i x, t !! i = Some x -> exists x', t' !! i = Some x' /\ p_pid x' = p_pid x /\
    p_ppid x' = (if bool_decide (i < q)%nat && (p_ppid x =? pid) then 1 else p_ppid x) /\
    (p_stat x' = 0 <-> p_stat x = 0) /\ (p_stat x' = SZOMB <-> p_stat x = SZOMB) /\ (waiting i x' -> waiting i x) /\
    (p_stat x = SZOMB -> estate x' = estate x)) /\
  (forall i x y, t !! i = Some x -> (i < q)%nat -> p_ppid x = pid -> t' !! 1%nat = Some y -> ~ waiting 1 y).

Lemma disowned_0 pid t : disowned 0 pid t t.
Proof. split; [done|]. split; [|intros; lia]. intros i x Hx. exists x. by split_and!. Qed.

Lemma disowned_calm q pid t t1 t2 : disowned q pid t t1 -> calm t1 t2 -> disowned q pid t t2.
Proof.
  intros (L & H & Hw) C. pose proof C as [L2 H2]. split; [congruence|]. split.
  - intros i x Hx. destruct (H i x Hx) as (y & Hy & E1 & E2 & E3 & E4 & E5 & E6). destruct (H2 i y Hy) as (z & Hz & D1 & D2 & D3 & D4 & D5 & D6).
    exists z. split_and!; try done; [congruence|congruence|tauto|tauto|tauto|]. intros E. rewrite D6, E6; tauto.
  - intros i x z Hx Hi Hp Hz Wz. destruct (calm_back _ _ _ _ C Hz) as (y & Hy & _ & _ & _ & _ & W & _). apply (Hw i x y Hx Hi Hp Hy). auto.
Qed.

(** One slot more, its parent changed if it was [pid]. *)
Lemma disowned_next q pid t t1 x : disowned q pid t t1 -> t !! q = Some x -> p_ppid x <> pid -> disowned (S q) pid t t1.
Proof.
  intros (L & H & Hw) Hq Hp. split; [done|]. split.
  - intros i y Hy. destruct (H i y Hy) as (z & Hz & E1 & E2 & E). exists z. split_and!; [done|done| |tauto..].
    rewrite E2. destruct (decide (i = q)) as [->|Hi]; [simplify_eq; by replace (p_ppid x =? pid) with false by lia; rewrite !andb_false_r|].
    by replace (bool_decide (i < S q)%nat) with (bool_decide (i < q)%nat) by (apply bool_decide_ext; lia).
  - intros i y z Hy Hi. destruct (decide (i = q)) as [->|Hn]; [by simplify_eq|]. apply (Hw i y z Hy). lia.
Qed.

Lemma disowned_take q pid t s1 x : disowned q pid t (proc_tab s1) -> t !! q = Some x ->
  (forall y, proc_tab s1 !! 1%nat = Some y -> ~ waiting 1 y) ->
  disowned (S q) pid t (proc_tab (modp q (set_p_ppid (if p_ppid x =? pid then 1 else p_ppid x)) s1)).
Proof.
  intros (L & H & Hw) Hq H1. split; [unfold modp; cbn; by rewrite length_alter|]. split.
  - intros i y Hy. destruct (H i y Hy) as (z & Hz & E1 & E2 & E). destruct (decide (i = q)) as [->|Hi].
    + simplify_eq. eexists. split; [by apply Sig.lookup_modp|]. split; [done|]. split; [|done].
      rewrite bool_decide_true by lia. done.
    + exists z. rewrite lookup_modp_ne by done. split_and!; [done|done| |tauto..]. rewrite E2.
      by replace (bool_decide (i < S q)%nat) with (bool_decide (i < q)%nat) by (apply bool_decide_ext; lia).
  - intros i y z Hy Hi Hp Hz. apply modp_back in Hz as (w & Hz & [[_ ->]|[_ ->]]); apply (H1 w Hz).
Qed.

Lemma disown_ok pid t n : forall q s R Q, sound false s R Q -> disowned q pid t (proc_tab s) -> length t = (q + n)%nat ->
  exists s' R' Q', disown n q pid s = Ok s' /\ sound false s' R' Q' /\ disowned (length t) pid t (proc_tab s') /\ quiet s s'.
Proof.
  induction n as [|n IH]; intros q s R Q So D L.
  { exists s, R, Q. cbn. rewrite L, Nat.add_0_r. by split_and!. }
  destruct (lookup_lt_is_Some_2 t q) as [x Hx]; [lia|]. destruct D as (DL & DH & DW).
  destruct (DH q x Hx) as (y & Hy & _ & Ey & _). rewrite bool_decide_false in Ey by lia. cbn [andb] in Ey.
  cbn [Family.disown]. unfold getp. rewrite (access_Ok _ _ _ Hy). run. rewrite Ey.
  destruct (Z.eqb_spec (p_ppid x) pid) as [Hp|Hp].
  2:{ run. apply (IH (S q) s R Q); [done| |lia]. by apply (disowned_next q pid t _ x). }
  destruct (sound_wakeup false s R Q (proc_chan 1) So) as (s1 & R1 & Q1 & E1 & S1 & C1 & Qt1 & N1); [right; right; right; apply (sole_proc false s R Q 1 So); unfold NPROC; lia|]. rewrite E1. run.
  pose proof (disowned_calm _ _ _ _ _ (conj DL (conj DH DW)) C1) as D1.
  pose proof (disowned_take q pid t s1 x D1 Hx) as D2. rewrite Hp, Z.eqb_refl in D2.
  specialize (D2 ltac:(intros z Hz [W1 W2]; by apply (N1 1%nat z))). set (s2 := modp q (set_p_ppid 1) s1) in *.
  assert (sound false s2 R1 Q1) as S2 by (by apply sound_flag).
  pose proof C1 as [_ C1']. destruct (C1' q y Hy) as (y1 & Hy1 & _).
  assert (proc_tab s2 !! q = Some (set_p_ppid 1 y1)) as Hy2 by (by apply Sig.lookup_modp). rewrite (access_Ok _ _ _ Hy2). run.
  destruct (Z.eqb_spec (p_stat (set_p_ppid 1 y1)) SSTOP) as [Es|_].
  - destruct (sound_setrun false s2 R1 Q1 q _ S2 Hy2 Es) as (s3 & R3 & Q3 & E3 & S3 & C3 & Qt3). rewrite E3. run.
    destruct (IH (S q) s3 R3 Q3 S3) as (s' & R' & Q' & E & S' & D' & Qt'); [by eapply disowned_calm|lia|].
    exists s', R', Q'. split_and!; try done. by do 2 (eapply quiet_trans; [eassumption|]).
  - run. destruct (IH (S q) s2 R1 Q1 S2 D2) as (s' & R' & Q' & E & S' & D' & Qt'); [lia|].
    exists s', R', Q'. split_and!; try done. by eapply quiet_trans; [eassumption|].
Qed.

(** The first process with the id, if there is one, is not asleep in [wait] afterwards. *)
Lemma tell_parent_ok ppid n : forall q s R Q, sound false s R Q -> length (proc_tab s) = (q + n)%nat ->
  exists s' R' Q', tell_parent n q ppid s = Ok s' /\ sound false s' R' Q' /\ calm (proc_tab s) (proc_tab s') /\ quiet s s' /\
    (forall j x x', proc_tab s !! j = Some x -> p_pid x = ppid -> (q <= j)%nat ->
       (forall i y, (q <= i < j)%nat -> proc_tab s !! i = Some y -> p_pid y <> ppid) -> proc_tab s' !! j = Some x' -> ~ waiting j x').
Proof.
  induction n as [|n IH]; intros q s R Q So L.
  { exists s, R, Q. cbn. split_and!; try done; [apply calm_self|]. intros j x x' Hx _ Hj. apply lookup_lt_Some in Hx. lia. }
  destruct (lookup_lt_is_Some_2 (proc_tab s) q) as [y Hy]; [lia|]. cbn [Family.tell_parent]. unfold getp. rewrite (access_Ok _ _ _ Hy). run.
  destruct (Z.eqb_spec (p_pid y) ppid) as [Hp|Hp].
  - destruct (sound_wakeup false s R Q (proc_chan q) So) as (s1 & R1 & Q1 & E1 & S1 & C1 & Qt1 & N1); [right; right; right; apply (sole_proc false s R Q q So); pose proof (so_len _ _ _ _ So); lia|].
    exists s1, R1, Q1. split_and!; try done. intros j x x' Hx Hpx Hj First Hx' [W1 W2].
    destruct (decide (j = q)) as [->|Hn]; [by apply (N1 q x')|]. apply (First q y); [lia|done..].
  - destruct (IH (S q) s R Q So) as (s1 & R1 & Q1 & E1 & S1 & C1 & Qt1 & N1); [lia|]. exists s1, R1, Q1. split_and!; try done.
    intros j x x' Hx Hpx Hj First. apply (N1 j x x' Hx Hpx); [|intros i z Hi; apply First; lia].
    destruct (decide (j = q)) as [->|]; [by simplify_eq|lia].
Qed.

(** ** [exit]: the tree *)

(** The table when [p] has exited: its children are process 1's, and who has a new zombie is not asleep. *)
Record exited (p : nat) (pid : Z) (t t' : list proc) : Prop := {
  ex_len : length t' = length t;
  ex_entry : forall i x, t !! i = Some x -> exists x', t' !! i = Some x' /\ p_pid x' = p_pid x /\
    p_ppid x' = (if p_ppid x =? pid then 1 else p_ppid x) /\ (p_stat x' = 0 <-> p_stat x = 0) /\
    (p_stat x' = SZOMB <-> i = p \/ p_stat x = SZOMB) /\ (waiting i x' -> waiting i x) /\
    (p_stat x = SZOMB -> i <> p -> estate x' = estate x);
  ex_init : forall c x y, t !! c = Some x -> p_ppid x = pid -> t' !! 1%nat = Some y -> ~ waiting 1 y;
  ex_parent : forall x j y, t' !! p = Some x -> t' !! j = Some y -> p_stat y <> 0 -> p_pid y = p_ppid x -> ~ waiting j y
}.

Lemma exited_back p pid t t' i x' : exited p pid t t' -> t' !! i = Some x' -> exists x, t !! i = Some x /\ p_pid x' = p_pid x /\
  p_ppid x' = (if p_ppid x =? pid then 1 else p_ppid x) /\ (p_stat x' = 0 <-> p_stat x = 0) /\
  (p_stat x' = SZOMB <-> i = p \/ p_stat x = SZOMB) /\ (waiting i x' -> waiting i x) /\
  (p_stat x = SZOMB -> i <> p -> estate x' = estate x).
Proof.
  intros [L H _ _] Hx. destruct (lookup_lt_is_Some_2 t i) as [x E]; [rewrite <- L; by eapply lookup_lt_Some|].
  destruct (H i x E) as (y & Hy & C). exists x. split; [done|]. by simplify_eq.
Qed.

Lemma tree_exit p x t t' : tree t -> t !! p = Some x -> p_stat x <> 0 -> p <> 0%nat -> p <> 1%nat -> exited p (p_pid x) t t' -> tree t'.
Proof.
  intros [Ts Ti Tf Tp Tu Ta Tw] Hp Hs H0 H1 Ex. pose proof (exited_back p (p_pid x) t t') as B. pose proof Ex as [L H Ei Ep].
  pose proof (Tp p x Hp Hs H0) as Hpos.
  assert (forall i y, t !! i = Some y -> alive y -> i <> p -> exists y', t' !! i = Some y' /\ alive y' /\ p_pid y' = p_pid y) as Keep.
  { intros i y Hy [A1 A2] Hi. destruct (H i y Hy) as (y' & Hy' & E1 & _ & E3 & E4 & _). exists y'. unfold alive. tauto. }
  assert (exists y, t' !! 1%nat = Some y /\ alive y /\ p_pid y = 1) as Init.
  { destruct Ti as (y & Hy & A & E1). destruct (Keep 1%nat y Hy A ltac:(done)) as (y' & ? & ? & ?). exists y'. split; [done|]. split; [done|congruence]. }
  split; [|exact Init|..].
  - destruct Ts as (y & Hy & A & E1 & E2). destruct (Keep 0%nat y Hy A ltac:(done)) as (y' & Hy' & A' & Ey'). exists y'.
    split; [done|]. split; [done|]. split; [congruence|]. destruct (B 0%nat y' Ex Hy') as (z & Hz & _ & -> & _). simplify_eq. rewrite E2.
    by replace (0 =? p_pid x) with false by lia.
  - intros i y' Hy' E0. destruct (B i y' Ex Hy') as (y & Hy & -> & -> & E & _). destruct (Tf i y Hy ltac:(tauto)) as [-> ->].
    by replace (0 =? p_pid x) with false by lia.
  - intros i y' Hy' E0 Hi. destruct (B i y' Ex Hy') as (y & Hy & -> & _ & E & _). apply (Tp i y); tauto.
  - intros i j y' z' Hy' Hz' E1 E2 E3. destruct (B i y' Ex Hy') as (y & Hy & Ey & _ & F1 & _). destruct (B j z' Ex Hz') as (z & Hz & Ez & _ & F2 & _).
    apply (Tu i j y z); try done; [tauto|tauto|congruence].
  - intros i y' Hy' E0. destruct (B i y' Ex Hy') as (y & Hy & _ & Epp & E & _). destruct (Z.eqb_spec (p_ppid y) (p_pid x)) as [Hc|Hc].
    + destruct Init as (w & Hw & Aw & Ew). exists 1%nat, w. split; [done|]. split; [done|congruence].
    + destruct (Ta i y Hy ltac:(tauto)) as (j & w & Hw & Aw & Ew). destruct (decide (j = p)) as [->|Hj]; [simplify_eq; congruence|].
      destruct (Keep j w Hw Aw Hj) as (w' & Hw' & Aw' & Ew'). exists j, w'. split; [done|]. split; [done|congruence].
  - intros i y' c z' Hy' W Hz' Ec. destruct (B i y' Ex Hy') as (y & Hy & Ey & _ & F1 & _ & Fw & _). destruct (B c z' Ex Hz') as (z & Hz & Ez & Ezp & _ & Fz & _).
    rewrite Fz. intros [-> | Dead].
    + apply (Ep z' i y' Hz' Hy'); [|done|done]. destruct W as [-> _]. done.
    + destruct (Z.eqb_spec (p_ppid z) (p_pid x)) as [Hc|Hc].
      * assert (i = 1%nat) as ->; [|by apply (Ei c z y' Hz Hc Hy')]. destruct Init as (w & Hw & [Aw _] & Ew).
        destruct (B 1%nat w Ex Hw) as (w0 & Hw0 & Ew0 & _ & F & _). apply (Tu i 1%nat y w0 Hy Hw0); [|tauto|congruence].
        destruct (Fw W) as [-> _]. done.
      * apply (Tw i y c z Hy (Fw W) Hz); [congruence|done].
Qed.

Lemma sound_signals b s R Q l : sound b s R Q -> length l = 17%nat -> sound b (set_u_signal l s) R Q.
Proof. intros [Ln [] S2 S3 S4 So S4' [S5 _] S6] Hl. by split. Qed.

Lemma exit_begin_ok b f R Q : sound b (ps f) R Q ->
  sound b (ps (exit_begin f)) R Q /\ calm (proc_tab (ps f)) (proc_tab (ps (exit_begin f))).
Proof.
  intros So. split; [apply sound_signals; [by apply sound_flag|done]|]. by apply calm_modp.
Qed.

(** The steps of the end of [exit], as one change of the table. *)
Lemma exited_steps p x g s1 t s3 t4 : tree t -> t !! p = Some x -> p_stat x <> 0 -> calm t (proc_tab s1) ->
  (forall z, p_pid (g z) = p_pid z /\ p_ppid (g z) = p_ppid z /\ p_stat (g z) = SZOMB) ->
  let t2 := proc_tab (modp p g s1) in
  disowned (length t2) (p_pid x) t2 (proc_tab s3) -> calm (proc_tab s3) t4 ->
  (forall y j w w', proc_tab s3 !! p = Some y -> proc_tab s3 !! j = Some w -> p_pid w = p_ppid y ->
     (forall i z, (i < j)%nat -> proc_tab s3 !! i = Some z -> p_pid z <> p_ppid y) -> t4 !! j = Some w' -> ~ waiting j w') ->
  exited p (p_pid x) t t4.
Proof.
  intros Tr Hp Hs C1 Hg t2 (L3 & D3 & W3) C4 Told. pose proof C1 as [L1 H1]. pose proof C4 as [L4 H4].
  assert (length t2 = length t) as L2 by (unfold t2, modp; cbn; by rewrite length_alter).
  assert (forall i z, t !! i = Some z -> exists z3, proc_tab s3 !! i = Some z3 /\ p_pid z3 = p_pid z /\
    p_ppid z3 = (if p_ppid z =? p_pid x then 1 else p_ppid z) /\ (p_stat z3 = 0 <-> p_stat z = 0) /\
    (p_stat z3 = SZOMB <-> i = p \/ p_stat z = SZOMB) /\ (waiting i z3 -> waiting i z) /\
    (p_stat z = SZOMB -> i <> p -> estate z3 = estate z)) as H3.
  { intros i z Hz. destruct (H1 i z Hz) as (z1 & Hz1 & C). pose proof C as (E1 & E2 & E3 & E4 & E5 & E6).
    assert (exists z2, t2 !! i = Some z2 /\ (i <> p /\ z2 = z1 \/ i = p /\ z2 = g z1)) as (z2 & Hz2 & Hc).
    { destruct (decide (i = p)) as [->|Hi]; [exists (g z1); split; [by apply Sig.lookup_modp|by right]|].
      exists z1. unfold t2. rewrite lookup_modp_ne by done. split; [done|by left]. }
    destruct (D3 i z2 Hz2) as (z3 & Hz3 & F1 & F2 & F3 & F4 & F5 & F6). rewrite bool_decide_true in F2 by (by eapply lookup_lt_Some).
    cbn [andb] in F2. exists z3. split; [done|]. destruct (Hg z1) as (G1 & G2 & G3). destruct Hc as [[Hi ->]|[-> ->]].
    - rewrite F1, F2, E1, E2. split_and!; try done; [tauto|tauto|tauto|]. intros Ez _. rewrite F6, E6; tauto.
    - rewrite F1, F2, G1, G2, E1, E2. rewrite G3 in F3, F4. rewrite Hp in Hz. injection Hz as <-. unfold SZOMB in *.
      split_and!; try done; [lia|lia|]. intros W. destruct (F5 W) as [W1 _]. rewrite G3 in W1. done. }
  assert (forall i w, proc_tab s3 !! i = Some w -> exists z, t !! i = Some z) as Back3.
  { intros i w Hw. apply lookup_lt_is_Some_2. rewrite <- L2, <- L3. by eapply lookup_lt_Some. }
  destruct Tr as [_ _ Tf Tp Tu _ _]. split.
  - by rewrite L4, L3.
  - intros i z Hz. destruct (H3 i z Hz) as (z3 & Hz3 & F1 & F2 & F3 & F4 & F5 & F6). destruct (H4 i z3 Hz3) as (z4 & Hz4 & E1 & E2 & E3 & E4 & E5 & E6).
    exists z4. rewrite E1, E2. split_and!; try done; [tauto|tauto|tauto|]. intros Ez Hi. rewrite E6, F6; tauto.
  - intros c z y Hz Hc Hy W. destruct (calm_back _ _ _ _ C4 Hy) as (y3 & Hy3 & _ & _ & _ & _ & Wy & _).
    destruct (H1 c z Hz) as (z1 & Hz1 & _ & E2 & _).
    assert (exists z2, t2 !! c = Some z2 /\ p_ppid z2 = p_ppid z1) as (z2 & Hz2 & Ez2).
    { destruct (decide (c = p)) as [->|Hi]; [exists (g z1); split; [by apply Sig.lookup_modp|apply Hg]|].
      exists z1. unfold t2. by rewrite lookup_modp_ne. }
    apply (W3 c z2 y3 Hz2); [by eapply lookup_lt_Some|congruence|done|auto].
  - intros y4 j w4 Hy4 Hw4 Hl Ew. destruct (calm_back _ _ _ _ C4 Hy4) as (y & Hy & _ & Ey & _).
    destruct (calm_back _ _ _ _ C4 Hw4) as (w & Hw & Ew1 & _ & Ew0 & _). apply (Told y j w w4 Hy Hw); [congruence| |done].
    intros i z Hi Hz Ez. destruct (Back3 i z Hz) as [zi Hzi]. destruct (Back3 j w Hw) as [wj Hwj].
    destruct (H3 i zi Hzi) as (z' & Hz' & A1 & _ & _). destruct (H3 j wj Hwj) as (w' & Hw' & B1 & _ & B3 & _). simplify_eq.
    assert (p_stat wj <> 0) as Lj by tauto. assert (p_pid zi = p_pid wj) as Eij by congruence.
    pose proof (Tp j wj Hwj Lj ltac:(lia)) as Hpos. assert (i = j); [|lia]. apply (Tu i j zi wj); try done.
    intros E0. destruct (Tf i zi Hzi E0) as [E1 _]. lia.
Qed.

Lemma exit_end_ok rv f R Q x u mp r w : sound true (ps f) R Q -> tree (proc_tab (ps f)) -> me f <> 0%nat -> me f <> 1%nat ->
  proc_tab (ps f) !! me f = Some x -> areas f !! me f = Some u ->
  mfree true (runin (ps f)) (coremap f) (p_size x) (p_addr x) = Some (Mfreed mp r w) ->
  exists f' R' Q', exit_end rv f = Ok f' /\ sound false (ps f') R' Q' /\ tree (proc_tab (ps f')) /\
    exited (me f) (p_pid x) (proc_tab (ps f)) (proc_tab (ps f')) /\ mpid (ps f') = mpid (ps f) /\ areas f' = areas f /\ idl f' = idl f /\
    exists z, proc_tab (ps f') !! me f = Some z /\ estate z = (rv, u_cutime u + u_utime u, u_cstime u + u_stime u).
Proof.
  intros So Tr H0 H1 Hx Hu Em. unfold Family.exit_end, getp, u_. rewrite (access_Ok _ _ _ Hx), (access_Ok _ _ _ Hu). run. rewrite Em.
  destruct (so_cur _ _ _ _ So eq_refl) as (Hoff & x' & Hx' & Ecur & _). fold (me f) in Hoff, Hx'. rewrite Hx in Hx'. injection Hx' as <-.
  assert (exists s1 R1 Q1, (if (w : bool) then wakeup runin_chan (set_runin r (ps f)) else Ok (set_runin r (ps f))) = Ok s1 /\
    sound true s1 R1 Q1 /\ calm (proc_tab (ps f)) (proc_tab s1) /\ mpid s1 = mpid (ps f) /\ u_procp s1 = me f) as (s1 & R1 & Q1 & E1 & S1 & C1 & M1 & P1).
  { destruct w; [|eexists _, R, Q; split_and!; [reflexivity|by apply sound_runin|apply calm_self|done..]].
    destruct (sound_wakeup true _ R Q runin_chan (sound_runin _ _ _ _ r So)) as (s1 & R1 & Q1 & E1 & S1 & C1 & Qt1 & _); [right; right; right; by eapply sole_runin, sound_runin|].
    exists s1, R1, Q1. destruct Qt1 as (_ & _ & ? & _ & _ & ? & _). by split_and!. }
  rewrite E1. run. set (g := zombie _ _ _). set (s2 := modp (me f) g s1).
  destruct (so_cur _ _ _ _ S1 eq_refl) as (Ho1 & x1 & Hx1 & Es1 & _). rewrite P1 in Ho1, Hx1.
  assert (sound false s2 R1 Q1) as S2.
  { eapply sound_modp; [exact S1|exact Ho1| |by exists x1]. intros y Hy.
    assert (me f ∉ P) as Hme by (apply (not_idl true s1 R1 Q1 _ x1 S1 Hx1); by rewrite Es1).
    split_and!; try done. apply (proj1 (so_sigs _ _ _ _ S1) _ _ Hy). }
  destruct (disown_ok (p_pid x) (proc_tab s2) (length (proc_tab s2)) 0 s2 R1 Q1 S2 (disowned_0 _ _) eq_refl) as (s3 & R3 & Q3 & E3 & S3 & D3 & Qt3).
  rewrite E3. run. pose proof D3 as (_ & D3' & _).
  destruct (D3' (me f) (g x1)) as (y & Hy & _ & _ & _ & _ & _ & Ey); [by apply Sig.lookup_modp|].
  rewrite (access_Ok _ _ _ Hy). run.
  destruct (tell_parent_ok (p_ppid y) (length (proc_tab s3)) 0 s3 R3 Q3 S3 eq_refl) as (s4 & R4 & Q4 & E4 & S4 & C4 & Qt4 & Told).
  rewrite E4. run. eexists _, R4, Q4. split; [reflexivity|]. cbn [ps set_ps]. split; [done|].
  assert (exited (me f) (p_pid x) (proc_tab (ps f)) (proc_tab s4)) as Ex.
  { apply (exited_steps (me f) x g s1 (proc_tab (ps f)) s3 (proc_tab s4) Tr Hx); try done; [by rewrite Ecur|].
    intros y' j v v' Hy' Hv Ev First. rewrite Hy in Hy'. injection Hy' as <-. apply (Told j v v' Hv Ev); [lia|]. intros i z Hi. apply First. lia. }
  split; [apply (tree_exit (me f) x (proc_tab (ps f))); try done; by rewrite Ecur|]. split; [done|].
  split; [destruct Qt4 as (_ & _ & -> & _); destruct Qt3 as (_ & _ & -> & _); done|]. split; [by destruct (p_addr x =? uhome f)|]. split; [by destruct (p_addr x =? uhome f)|].
  destruct C4 as [_ C4]. destruct (C4 _ _ Hy) as (z & Hz & _ & _ & _ & _ & _ & Ez). exists z. split; [done|].
  rewrite Ez, Ey; [done|done|]. destruct (D3' (me f) (g x1)) as (y2 & Hy2 & _ & _ & _ & F & _); [by apply Sig.lookup_modp|].
  rewrite Hy in Hy2. injection Hy2 as <-. by apply F.
Qed.

(** ** [wait] *)

(** A child with something to tell. *)
Definition tells (pid : Z) (x : proc) : bool :=
  (p_ppid x =? pid) && ((p_stat x =? SZOMB) || (p_stat x =? SSTOP) && negb (p_flag x &? SWTED)).

Lemma wait_scan_spec pid l : forall i f,
  match list_find (fun x => tells pid x = true) l with
  | Some (k, x) => wait_scan i l pid f = if p_stat x =? SZOMB then Dead (i + k) else Stopped (i + k)
  | None => wait_scan i l pid f = if f || existsb (fun x => p_ppid x =? pid) l then Others else NoChild
  end.
Proof.
  induction l as [|x l IH]; intros i f; [cbn; by rewrite orb_false_r|]. cbn [wait_scan list_find existsb].
  destruct (decide (tells pid x = true)) as [T|T]; unfold tells in T;
    destruct (p_ppid x =? pid) eqn:E1, (p_stat x =? SZOMB) eqn:E2, ((p_stat x =? SSTOP) && negb (p_flag x &? SWTED)) eqn:E3; cbn in T; try done;
    cbn; rewrite ?E2, ?Nat.add_0_r; try done.
  all: [> specialize (IH (S i) true) | specialize (IH (S i) f)..]; cbn [orb] in *; rewrite ?orb_true_r; (destruct (list_find _ l) as [[k y]|]; cbn; [by rewrite Nat.add_succ_r|exact IH]).
Qed.

Lemma tree_reap t p x : tree t -> t !! p = Some x -> p_stat x = SZOMB -> tree (alter laid_to_rest p t).
Proof.
  intros [Ts Ti Tf Tp Tu Ta Tw] Hp Hz.
  assert (forall i y, alter laid_to_rest p t !! i = Some y -> i <> p /\ t !! i = Some y \/ i = p /\ y = laid_to_rest x) as B.
  { intros i y. destruct (decide (i = p)) as [->|Hi]; [rewrite list_lookup_alter_eq, Hp; intros [= <-]; by right|].
    rewrite list_lookup_alter_ne by done. by left. }
  assert (forall i y, t !! i = Some y -> alive y -> alter laid_to_rest p t !! i = Some y) as K.
  { intros i y Hy [_ A]. rewrite list_lookup_alter_ne; [done|]. intros ->. by simplify_eq. }
  split.
  - destruct Ts as (y & Hy & A & E). exists y. split; [by apply K|done].
  - destruct Ti as (y & Hy & A & E). exists y. split; [by apply K|done].
  - intros i y [[Hi Hy]|[-> ->]]%B E; [by apply (Tf i)|done].
  - intros i y [[Hi Hy]|[-> ->]]%B E; [by apply (Tp i)|done].
  - intros i j y z [[Hi Hy]|[-> ->]]%B [[Hj Hw]|[-> ->]]%B E1 E2 E3; [by apply (Tu i j y z)|done..].
  - intros i y [[Hi Hy]|[-> ->]]%B E; [|done]. destruct (Ta i y Hy E) as (j & z & Hj & A & Ez). exists j, z. split; [by apply K|done].
  - intros i y c z [[Hi Hy]|[-> ->]]%B W [[Hc Hw]|[-> ->]]%B E; [by apply (Tw i y c z)|done|by destruct W|done].
Qed.

(** A process at the head of the queue it sleeps on. *)
Lemma sound_enqueued s R Q p chan s1 x' : sound true s R Q -> wfq s1 R (enqueued p (HASH chan) Q) -> same_but p s s1 ->
  proc_tab s1 !! p = Some x' -> p_stat x' = SSLEEP -> p_wchan x' = chan -> sigset (p_sig x') -> own_chan p x' -> p ∉ P ->
  sound false s1 R (enqueued p (HASH chan) Q).
Proof.
  intros So Hq (Sb1 & _ & Sb3 & _ & _ & Sb6 & _) Hx' Es' Ew' Hsig Hown Hcur.
  assert (forall i y, proc_tab s1 !! i = Some y -> i <> p /\ proc_tab s !! i = Some y \/ i = p /\ y = x') as B.
  { intros i y Hy. destruct (decide (i = p)) as [->|Hi]; [right; split; [done|congruence]|left; split; [done|]]. by rewrite <- Sb1. }
  split.
  - rewrite Sb3. apply So.
  - done.
  - intros i y [[Hi Hy]|[-> ->]]%B Hs; unfold enqueued; [|rewrite Ew', Z.eqb_refl; by left].
    pose proof (so_asleep _ _ _ _ So i y Hy Hs). by destruct (_ =? _); [right|].
  - intros i y [[Hi Hy]|[-> ->]]%B Hs; [|unfold parked in Hs; rewrite Es' in Hs; unfold SSLEEP, SZOMB, SSTOP, SIDL in Hs; lia].
    destruct (so_parked _ _ _ _ So i y Hy Hs) as [H1 H2]. split; [done|]. intros j Hj. unfold enqueued. destruct (_ =? _); [|by apply H2].
    intros [-> | Hin]%elem_of_cons; [done|]. by apply (H2 j).
  - intros i y [[Hi Hy]|[-> ->]]%B Hs; [by apply (so_idle _ _ _ _ So i y)|]. rewrite Es' in Hs. unfold SSLEEP, SSTOP, SIDL in Hs. lia.
  - intros i Hi. destruct (so_idl _ _ _ _ So i Hi) as (x & Hx & Ei). exists x. rewrite Sb1; [done|]. intros ->. by apply Hcur.
  - intros i y [[Hi Hy]|[-> ->]]%B Hs; [by apply (so_own _ _ _ _ So i y)|done].
  - split; [|rewrite Sb6; apply So]. intros i y [[Hi Hy]|[-> ->]]%B; [exact (proj1 (so_sigs _ _ _ _ So) i y Hy)|done].
  - done.
Qed.

(** [sleep] of the current process, as [sound] and [tree] see it. *)
Lemma sound_sleep chan pri s R Q : sound true s R Q -> chan <> 0 -> chan <> runin_chan ->
  (forall k, (k < Z.to_nat NPROC)%nat -> chan = proc_chan k -> u_procp s = k) -> 0 <= pri < 256 ->
  exists r s' R' Q', sleep chan pri s = Ok (r, s') /\ sound (match r with ToQsav => true | ToSwtch => false end) s' R' Q' /\
    length (proc_tab s') = length (proc_tab s) /\ mpid s' = mpid s /\
    (forall i x, proc_tab s !! i = Some x -> exists x', proc_tab s' !! i = Some x' /\ p_pid x' = p_pid x /\ p_ppid x' = p_ppid x /\
       (p_stat x' = 0 <-> p_stat x = 0) /\ (p_stat x' = SZOMB <-> p_stat x = SZOMB) /\
       (waiting i x' -> waiting i x \/ i = u_procp s /\ chan = proc_chan i) /\ (p_stat x = SZOMB -> estate x' = estate x)).
Proof.
  intros So Hc Hcr Hck Hp. destruct (so_cur _ _ _ _ So eq_refl) as (Hoff & x & Hx & Es & Ew). destruct (so_sigs _ _ _ _ So) as [Sg Sl].
  destruct (sleep_spec runin_chan runout_chan chan pri s R Q x) as (r & s' & E & H); try done;
    [apply So|exact (Sg _ x Hx)|right; right; split; [done|right; by eapply sole_runin]|].
  exists r, s'. set (p := u_procp s) in *. destruct r.
  - destruct H as (_ & Hq & _ & (x' & Hx' & Es' & Ew') & (Sb1 & Sb2 & Sb3 & Sb4 & Sb5 & Sb6 & _)). exists R, Q. split; [done|].
    destruct (Sb2 x Hx) as (x2 & Hx2 & F1 & F2 & F3). rewrite Hx' in Hx2. injection Hx2 as <-.
    assert (forall i y, proc_tab s' !! i = Some y -> i <> p /\ proc_tab s !! i = Some y \/ i = p /\ y = x') as B.
    { intros i y Hy. destruct (decide (i = p)) as [->|Hi]; [right; split; [done|congruence]|left; split; [done|]]. by rewrite <- Sb1. }
    split; [split|split; [done|split; [done|]]].
    + rewrite Sb3. apply So.
    + done.
    + intros i y [[Hi Hy]|[-> ->]]%B Hs; [by apply (so_asleep _ _ _ _ So)|by rewrite Es' in Hs].
    + intros i y [[Hi Hy]|[-> ->]]%B Hs; [by apply (so_parked _ _ _ _ So i y)|done].
    + intros i y [[Hi Hy]|[-> ->]]%B Hs; [by apply (so_idle _ _ _ _ So i y)|done].
    + intros i Hi. destruct (so_idl _ _ _ _ So i Hi) as (y & Hy & Ei). exists y. rewrite Sb1; [done|]. intros ->. fold p in Hx. rewrite Hx in Hy. injection Hy as <-. by rewrite Es in Ei.
    + intros i y [[Hi Hy]|[-> ->]]%B Hs; [by apply (so_own _ _ _ _ So i y)|by apply own_0].
    + split; [|by rewrite Sb6]. intros i y [[Hi Hy]|[-> ->]]%B; [exact (Sg i y Hy)|]. exact (F3 (Sg p x Hx)).
    + intros _. rewrite Sb5. split; [done|]. by exists x'.
    + intros i y Hy. destruct (decide (i = p)) as [->|Hi]; [|exists y; rewrite Sb1 by done; split_and!; auto].
      rewrite Hx in Hy. injection Hy as <-. exists x'. rewrite F1, F2, Es, Es'. unfold waiting. rewrite Es'. split_and!; try done. by intros [? _].
  - destruct H as (s1 & Hq & Hri & (x' & Hx' & Es' & Ew' & _) & Sb & Hsame & Hwoke). pose proof Sb as (Sb1 & Sb2 & Sb3 & Sb4 & _).
    destruct (Sb2 x Hx) as (x2 & Hx2 & F1 & F2 & F3). rewrite Hx' in Hx2. injection Hx2 as <-. pose proof (HASH_range chan) as Hh.
    assert (p ∉ P) as HpP by (apply (not_idl true s R Q p x So Hx); by rewrite Es).
    assert (sound false s1 R (enqueued p (HASH chan) Q)) as S1 by (apply (sound_enqueued s R Q p chan s1 x'); try done; [exact (F3 (Sg p x Hx))|];
      split; rewrite Ew'; [apply Hck|done]).
    assert (exists R' Q', sound false s' R' Q' /\ calm (proc_tab s1) (proc_tab s') /\ mpid s' = mpid s) as (R' & Q' & S' & C' & M').
    { destruct (decide (pri <= PZERO \/ runin s = 0)) as [Hn|Hn].
      - rewrite (Hsame Hn). eexists _, _. split_and!; [exact S1|apply calm_self|done].
      - destruct (Hwoke ltac:(lia) ltac:(lia)) as (W & HW). destruct (sound_woke false _ _ _ _ _ _ (sound_runin _ _ _ _ 0 S1) HW) as (S2 & C2 & Qt & _).
        eexists _, _. split; [exact S2|]. split; [exact C2|]. destruct Qt as (_ & _ & -> & _). done. }
    exists R', Q'. split; [done|]. split; [done|]. destruct C' as [L' H']. split; [by rewrite L', Sb3|]. split; [done|].
    intros i y Hy. assert (exists y1, proc_tab s1 !! i = Some y1 /\ (i <> p /\ y1 = y \/ i = p /\ y1 = x' /\ y = x)) as (y1 & Hy1 & D).
    { destruct (decide (i = p)) as [->|Hi]; [exists x'; split; [done|right; split_and!; congruence]|]. exists y. rewrite Sb1 by done. auto. }
    destruct (H' i y1 Hy1) as (y2 & Hy2 & G1 & G2 & G3 & G4 & G5 & G6). exists y2. split; [done|]. destruct D as [[Hi ->]|(-> & -> & ->)]; [split_and!; auto|].
    rewrite G1, G2, F1, F2, G3, G4, Es, Es'. split_and!; try done. intros Wt. right. split; [done|]. destruct (G5 Wt) as [_ <-]. done.
Qed.

(** The dead of the table, but for slot [o], are as they were. *)
Definition dead_kept (o : option nat) (t t' : list proc) : Prop :=
  forall c y, t !! c = Some y -> p_stat y = SZOMB -> o <> Some c ->
    exists y', t' !! c = Some y' /\ p_stat y' = SZOMB /\ p_pid y' = p_pid y /\ estate y' = estate y.

Lemma calm_dead t t' : calm t t' -> dead_kept None t t'.
Proof.
  intros [_ H] c y Hy Hz _. destruct (H c y Hy) as (y' & Hy' & E1 & _ & _ & E4 & _ & E6). exists y'. split_and!; auto. tauto.
Qed.

(** Who [wait] finds. *)
Definition child (f : fam) (x : proc) : option (nat * proc) := list_find (fun y => tells (p_pid x) y = true) (proc_tab (ps f)).

(** The outcome of [wait] by a process with entry [x]. *)
Definition waited (seen : bool) (f : fam) (x : proc) (r : option slept) (f' : fam) : Prop :=
  match child f x with
  | Some (c, y) =>
      r = None /\
      if p_stat y =? SZOMB then
        f' = set_ps (modp c laid_to_rest (ps f))
          (mod_u (fun u => add_ctimes (xp_utime y) (xp_stime y) (set_rval (p_pid y) (xp_xstat y) u)) f)
      else
        f' = set_ps (modp c (fun y => set_p_flag (p_flag y |: SWTED) y) (ps f))
          (mod_u (set_rval (p_pid y) (Z.shiftl (fsig y) 8 |: 127)) f)
  | None =>
      if seen || existsb (fun y => p_ppid y =? p_pid x) (proc_tab (ps f))
      then exists k s, r = Some k /\ f' = set_ps s f
      else r = None /\ f' = mod_u (set_error ECHILD) f
  end.

Lemma wait_ok seen f R Q x : sound true (ps f) R Q -> tree (proc_tab (ps f)) -> proc_tab (ps f) !! me f = Some x ->
  exists r f' R' Q', wait_loop seen f = Ok (r, f') /\ waited seen f x r f' /\
    sound (match r with Some ToSwtch => false | _ => true end) (ps f') R' Q' /\ tree (proc_tab (ps f')) /\ mpid (ps f') = mpid (ps f) /\
    length (proc_tab (ps f')) = length (proc_tab (ps f)) /\ dead_kept (fst <$> child f x) (proc_tab (ps f)) (proc_tab (ps f')).
Proof.
  intros So Tr Hx. unfold Family.wait_loop, getp, waited. rewrite (access_Ok _ _ _ Hx). run.
  assert (me f < Z.to_nat NPROC)%nat as Hme by (pose proof (so_len _ _ _ _ So); apply lookup_lt_Some in Hx; lia).
  pose proof (wait_scan_spec (p_pid x) (proc_tab (ps f)) 0 seen) as Sc. fold (child f x) in Sc. destruct (child f x) as [[c y]|] eqn:Ec; rewrite Sc.
  - unfold child in Ec. apply list_find_Some in Ec as (Hy & Ht & _). cbn [Nat.add]. destruct (Z.eqb_spec (p_stat y) SZOMB) as [Hz|Hz].
    + rewrite (access_Ok _ _ _ Hy). run. eexists None, _, R, Q. split; [reflexivity|]. split; [done|]. cbn [ps set_ps]. split_and!.
      * eapply sound_modp; [exact So|by apply (so_parked _ _ _ _ So c y Hy); right; left| |by exists y].
        assert (c ∉ P) as Hcp by (apply (not_idl true (ps f) R Q c y So Hy); by rewrite Hz).
        intros z Hzz. split_and!; try done. intros _. split; [done|]. intros ->. exfalso.
        destruct (so_cur _ _ _ _ So eq_refl) as (_ & w & Hw & Es & _). fold (me f) in *. rewrite Hw in Hy. injection Hy as <-. by rewrite Hz in Es.
      * by apply (tree_reap _ c y).
      * done.
      * unfold modp. cbn. apply length_alter.
      * intros i z Hi Hzi Hn. exists z. rewrite lookup_modp_ne by (intros ->; by destruct Hn). done.
    + rewrite (access_Ok _ _ _ Hy). run. eexists None, _, R, Q. split; [reflexivity|]. split; [done|]. cbn [ps set_ps].
      assert (calm (proc_tab (ps f)) (proc_tab (modp c (fun y => set_p_flag (p_flag y |: SWTED) y) (ps f)))) as C by (by apply calm_modp).
      split; [by apply sound_flag|]. split; [by eapply tree_calm|]. split; [done|]. split; [apply C|].
      intros i z Hi Hzi _. by apply (calm_dead _ _ C).
  - unfold child in Ec. apply list_find_None in Ec. destruct (seen || existsb _ _).
    + destruct (sound_sleep (proc_chan (me f)) PWAIT (ps f) R Q So) as (r & s' & R' & Q' & E & S' & L & M & H); [apply proc_chan_0, Hme|apply proc_chan_runin, Hme|intros k Hk E; by apply proc_chan_inj|done|].
      rewrite E. run. eexists (Some r), _, R', Q'. split; [reflexivity|]. split; [by eexists _, _|]. cbn [ps set_ps]. split; [by destruct r|].
      split; [|split; [done|split; [done|]]].
      * apply (tree_keep _ _ Tr L). intros i y Hy. destruct (H i y Hy) as (y' & Hy' & E1 & E2 & E3 & E4 & E5 & _). exists y'. split_and!; try done.
        intros W c z Hz Ezp Ez. destruct (E5 W) as [Wy|[-> _]]; [by apply (t_wait _ Tr i y c z)|].
        rewrite Forall_lookup in Ec. apply (Ec c z Hz). unfold tells. fold (me f) in Hy. rewrite Hx in Hy. injection Hy as <-.
        by rewrite Ezp, Z.eqb_refl, Ez.
      * intros c y Hy Hz _. destruct (H c y Hy) as (y' & Hy' & E1 & _ & _ & E4 & _ & E6). exists y'. split_and!; auto. tauto.
    + eexists None, _, R, Q. split; [reflexivity|]. split; [done|]. cbn [ps mod_u set_areas]. split_and!; try done. by apply calm_dead, calm_self.
Qed.

(** ** [stop] *)

Lemma stop_ok s R Q : sound true s R Q -> tree (proc_tab s) ->
  exists b s' R' Q', stop s = Ok (b, s') /\ sound (negb b) s' R' Q' /\ calm (proc_tab s) (proc_tab s') /\ mpid s' = mpid s.
Proof.
  intros So Tr. destruct (so_cur _ _ _ _ So eq_refl) as (Hoff & x & Hx & Es & Ew). unfold Family.stop, getp. rewrite (access_Ok _ _ _ Hx). run.
  destruct (p_ppid x =? 1); [exists false, s, R, Q; split_and!; try done; apply calm_self|]. set (ppid := p_ppid x).
  assert (forall n q, length (proc_tab s) = (q + n)%nat -> exists b s' R' Q', stop_scan runout_chan proc_chan n q ppid (u_procp s) s = Ok (b, s') /\
    sound (negb b) s' R' Q' /\ calm (proc_tab s) (proc_tab s') /\ mpid s' = mpid s) as Hscan.
  { induction n as [|n IH]; intros q L; [exists false, s, R, Q; split_and!; try done; apply calm_self|].
    destruct (lookup_lt_is_Some_2 (proc_tab s) q) as [y Hy]; [lia|]. cbn [stop_scan]. unfold getp. rewrite (access_Ok _ _ _ Hy). run.
    destruct (p_pid y =? ppid); [|by apply IH; lia].
    destruct (sound_wakeup true s R Q (proc_chan q) So) as (s1 & R1 & Q1 & E1 & S1 & C1 & Qt1 & _); [right; right; right; apply (sole_proc true s R Q q So); pose proof (so_len _ _ _ _ So); lia|]. rewrite E1. run.
    eexists true, _, R1, Q1. split; [reflexivity|]. destruct (so_cur _ _ _ _ S1 eq_refl) as (Ho1 & x1 & Hx1 & Es1 & Ew1).
    destruct Qt1 as (_ & _ & M & _ & _ & U & _). rewrite U in Ho1, Hx1. split_and!; [|split|done].
    - eapply sound_modp; [exact S1|exact Ho1| |by exists x1]. intros z Hz. rewrite Hx1 in Hz. injection Hz as <-. cbn.
      assert (u_procp s ∉ P) as Hme by (apply (not_idl true s R Q _ x So Hx); by rewrite Es). split_and!; try done.
      apply (proj1 (so_sigs _ _ _ _ S1) _ _ Hx1).
    - unfold modp. cbn. rewrite length_alter. apply C1.
    - intros i z Hz. destruct (proj2 C1 i z Hz) as (z1 & Hz1 & C). destruct (decide (i = u_procp s)) as [->|Hi]; [|exists z1; by rewrite lookup_modp_ne].
      exists (set_p_stat SSTOP z1). split; [by apply Sig.lookup_modp|]. rewrite Hx in Hz. injection Hz as <-. destruct C as (C1' & C2 & _).
      unfold calm_entry, waiting. cbn. rewrite Es. split_and!; try done. by intros [? _]. }
  by apply Hscan.
Qed.

(** ** [fork] *)

Lemma fork_scan_some l uid : forall i q a, fst (fork_scan i l uid (Some q) a) = Some q.
Proof.
  induction l as [|x l IH]; intros i q a; [done|]. cbn [fork_scan]. rewrite bool_decide_false, andb_false_r by done. apply IH.
Qed.

(** The slot [fork] looks at is the one [newproc] takes. *)
Lemma fork_scan_first l uid : forall i a, fst (fork_scan i l uid None a) = (fun k => i + k)%nat <$> first_free l.
Proof.
  unfold first_free. induction l as [|x l IH]; intros i a; [done|]. cbn [fork_scan list_find]. rewrite bool_decide_true, andb_true_r by done.
  destruct (Z.eqb_spec (p_stat x) 0) as [E|E].
  - rewrite decide_True by done. cbn. by rewrite fork_scan_some, Nat.add_0_r.
  - rewrite decide_False by done. rewrite IH. destruct (list_find _ l) as [[k y]|]; cbn; [|done]. by rewrite Nat.add_succ_r.
Qed.

Lemma tree_fork t c r x rip j : tree t -> t !! c = Some r -> p_stat r = 0 -> t !! j = Some rip -> alive rip ->
  1 <= p_pid x -> p_pid x ∉ ids t -> p_ppid x = p_pid rip -> p_stat x = SRUN -> tree (<[c := x]> t).
Proof.
  intros [Ts Ti Tf Tp Tu Ta Tw] Hc Hr Hj Aj Hpos Hnew Hpp Hs.
  assert (c < length t)%nat as Lc by (by eapply lookup_lt_Some).
  assert (forall i y, <[c := x]> t !! i = Some y -> i <> c /\ t !! i = Some y \/ i = c /\ y = x) as B.
  { intros i y. destruct (decide (i = c)) as [->|Hi]; [rewrite list_lookup_insert_eq by done; intros [= <-]; by right|].
    rewrite list_lookup_insert_ne by done. by left. }
  assert (forall i y, t !! i = Some y -> p_stat y <> 0 -> <[c := x]> t !! i = Some y) as K.
  { intros i y Hy A. rewrite list_lookup_insert_ne; [done|]. intros ->. by simplify_eq. }
  assert (forall i y, t !! i = Some y -> p_pid y <> p_pid x) as New.
  { intros i y Hy E. apply Hnew. unfold ids. apply elem_of_app. left. apply list_elem_of_fmap. exists y. split; [done|]. by apply list_elem_of_lookup_2 with i. }
  split.
  - destruct Ts as (y & Hy & A & E). exists y. split; [by apply K, A|done].
  - destruct Ti as (y & Hy & A & E). exists y. split; [by apply K, A|done].
  - intros i y [[Hi Hy]|[-> ->]]%B E; [by apply (Tf i)|]. by rewrite Hs in E.
  - intros i y [[Hi Hy]|[-> ->]]%B E H0; [by apply (Tp i)|lia].
  - intros i k y z [[Hi Hy]|[-> ->]]%B [[Hk Hz]|[-> ->]]%B E1 E2 E3; [by apply (Tu i k y z)| | |done].
    + by destruct (New i y Hy).
    + by destruct (New k z Hz).
  - intros i y [[Hi Hy]|[-> ->]]%B E; [|exists j, rip; split; [by apply K, Aj|done]].
    destruct (Ta i y Hy E) as (k & z & Hk & A & Ez). exists k, z. split; [by apply K, A|done].
  - intros i y d z [[Hi Hy]|[-> ->]]%B W [[Hd Hz]|[-> ->]]%B E; [by apply (Tw i y d z)|by rewrite Hs| |by rewrite Hs].
    destruct W as [W _]. by rewrite Hs in W.
Qed.

Lemma sound_setrq s R Q p x : sound true s R Q -> off_queues p R Q -> proc_tab s !! p = Some x -> p_stat x = SRUN -> p_wchan x = 0 ->
  p <> u_procp s ->
  exists s', setrq p s = Ok s' /\ sound true s' (p :: R) Q /\ calm (proc_tab s) (proc_tab s') /\ quiet s s'.
Proof.
  intros So Ho Hx Es Ew Hp. destruct (setrq_spec p s R Q x (so_queues _ _ _ _ So) Ho Hx Ew) as (s' & E & Hq & Ha & _ & _ & Qt).
  exists s'. split; [done|].
  destruct (sound_awakened true s R Q s' [] (p :: R) Q So Hq Ha Qt) as [S' C]; [set_solver|set_solver| |done|by split_and!].
  intros i y _ Hy Hc [H1 H2]. split; [|done]. intros [-> | Hi]%elem_of_cons; [|done]. destruct Hc as [Pk | ->]; [|done].
  rewrite Hx in Hy. injection Hy as <-. unfold parked in Pk. rewrite Es in Pk. unfold SRUN, SZOMB, SSTOP, SIDL in Pk. lia.
Qed.

(** A new entry [c], not yet on the run queue. *)
Definition born (c : nat) (rip : proc) (s : sys) (R : list nat) (Q : Z -> list nat) : Prop :=
  sound true s R Q /\ tree (proc_tab s) /\ off_queues c R Q /\ c <> u_procp s /\
  exists x, proc_tab s !! c = Some x /\ p_stat x = SRUN /\ p_wchan x = 0 /\ p_pid x = mpid s /\ p_ppid x = p_pid rip.

Lemma born_modp c rip s R Q f : born c rip s R Q ->
  (forall x, p_stat (f x) = p_stat x /\ p_wchan (f x) = p_wchan x /\ p_pid (f x) = p_pid x /\ p_ppid (f x) = p_ppid x /\ p_sig (f x) = p_sig x) ->
  born c rip (modp c f s) R Q.
Proof.
  intros (So & Tr & Ho & Hc & x & Hx & E1 & E2 & E3 & E4) Hf. destruct (Hf x) as (F1 & F2 & F3 & F4 & F5).
  split_and!; [| |apply Ho..|done|exists (f x); rewrite F1, F2, F3, F4; split_and!; try done; by apply Sig.lookup_modp].
  - eapply sound_modp; [exact So|exact Ho| |by exists x]. intros y Hy. rewrite Hx in Hy. injection Hy as <-. rewrite F1, F2, F5, E1, E2.
    assert (c ∉ P) as Hcp by (apply (not_idl true s R Q c x So Hx); by rewrite E1).
    split_and!; try done. apply (proj1 (so_sigs _ _ _ _ So) c x Hx).
  - apply (tree_keep _ _ Tr); [unfold modp; cbn; apply length_alter|]. intros i y Hy. destruct (decide (i = c)) as [->|Hi].
    + rewrite Hx in Hy. injection Hy as <-. exists (f x). split; [by apply Sig.lookup_modp|]. unfold waiting. rewrite F1, F3, F4, E1.
      split_and!; try done. by intros [? _].
    + exists y. rewrite lookup_modp_ne by done. split_and!; try done. intros W d z. by apply (t_wait _ Tr i y d z).
Qed.

Lemma dead_trans t1 t2 t3 o : dead_kept o t1 t2 -> dead_kept None t2 t3 -> dead_kept o t1 t3.
Proof.
  intros H1 H2 c y Hy Hz Ho. destruct (H1 c y Hy Hz Ho) as (y2 & Hy2 & Z2 & P2 & E2).
  destruct (H2 c y2 Hy2 Z2 ltac:(done)) as (y3 & Hy3 & Z3 & P3 & E3). exists y3. split_and!; [done|done|congruence|congruence].
Qed.

Lemma born_wakeup c rip s R Q : born c rip s R Q -> exists s' R' Q', wakeup runout_chan (set_runout 0 s) = Ok s' /\
  born c rip s' R' Q' /\ calm (proc_tab s) (proc_tab s') /\ quiet s s'.
Proof.
  intros (So & Tr & Ho & Hc & x & Hx & E1 & E2 & E3 & E4). pose proof (sound_runout _ _ _ _ 0 So) as S0.
  destruct (wakeup_woke runout_chan runout_chan _ R Q (so_queues _ _ _ _ S0) ltac:(by left)) as (s' & W & E & HW).
  destruct (sound_woke true _ R Q _ s' W S0 HW) as (S' & C & Qt & _). destruct HW as (_ & [_ Ha] & _ & _ & HW).
  assert (c ∉ W) as Hn. { intros Hin. destruct (HW c Hin) as [[Hq _]|[Hq _]]; by apply (proj2 Ho _ (HASH_range _)) in Hq. }
  pose proof Qt as (_ & _ & M & _ & _ & U & _). exists s', (W ++ R), (fun j => out W (Q j)). split; [done|]. split; [|by split].
  split; [done|]. split; [by eapply tree_calm|]. split; [by apply off_out|]. split; [by rewrite U|].
  destruct (Ha c x Hx) as (x' & Hx' & Ex). rewrite decide_False in Ex by done. destruct (unlinked_fields _ _ Ex) as (G1 & G2 & G3 & G4 & _).
  exists x'. rewrite G1, G2, G3, G4, M. by split_and!.
Qed.

Lemma alter_const {A} (x : A) c (l : list A) : alter (fun _ => x) c l = <[c := x]> l.
Proof.
  apply list_eq. intros i. destruct (decide (i = c)) as [->|Hi]; [|by rewrite list_lookup_alter_ne, list_lookup_insert_ne].
  rewrite list_lookup_alter_eq. destruct (l !! c) eqn:E; cbn.
  - by rewrite list_lookup_insert_eq by (by eapply lookup_lt_Some).
  - symmetry. apply lookup_ge_None. rewrite length_insert. by apply lookup_ge_None.
Qed.

Definition mpid_ok (s : sys) : Prop := 0 <= mpid s <= 29999 /\ 2 * Z.of_nat (length (proc_tab s)) < 29999.

(** The entry that [newproc] makes. *)
Lemma entry_born s R Q rip c : sound true s R Q -> tree (proc_tab s) -> mpid_ok s -> proc_tab s !! u_procp s = Some rip ->
  first_free (proc_tab s) = Some c ->
  exists s1, newproc_entry s = Ok (c, s1) /\ born c rip s1 R Q /\ mpid_ok s1 /\ 1 <= mpid s1 /\ mpid s1 ∉ ids (proc_tab s) /\
    proc_tab s1 !! u_procp s = Some rip /\ u_procp s1 = u_procp s /\ length (proc_tab s1) = length (proc_tab s) /\
    dead_kept None (proc_tab s) (proc_tab s1).
Proof.
  intros So Tr [Hm Hl] Hrip Hf. pose proof (newproc_correct s rip Hm Hl Hrip) as H. rewrite Hf in H.
  destruct H as (s1 & r & x & E & Hr & Hr0 & Hm1 & Hnew & Ht & Ep & Epp & Es & _ & _ & _ & Ew & Eq). exists s1. injection Ew as Ew Esig.
  assert (c <> u_procp s) as Hc.
  { intros ->. destruct (so_cur _ _ _ _ So eq_refl) as (_ & y & Hy & Ey & _). rewrite Hr in Hy. injection Hy as ->. by rewrite Hr0 in Ey. }
  assert (s1 = modp c (fun _ => x) (set_mpid (mpid s1) s)) as Es1.
  { rewrite Eq at 1. unfold modp. cbn [proc_tab set_mpid]. by rewrite alter_const, <- Ht. }
  assert (sound true s1 R Q /\ off_queues c R Q) as [S1 Ho].
  { assert (off_queues c R Q) as Ho by (apply (so_parked _ _ _ _ So c r Hr); by left). split; [|done]. rewrite Es1.
    eapply (sound_modp true true (set_mpid (mpid s1) s)); [destruct So as [? [] ? ? ? ? ? ? ?]; by split|exact Ho| |by exists r].
    intros z Hz. cbn in Hz. rewrite Hr in Hz. injection Hz as <-. rewrite Es, Ew, Esig.
    pose proof (proj1 (so_sigs _ _ _ _ So) c r Hr) as Hsig. assert (p_wchan r = 0) as Hw0 by (apply (so_idle _ _ _ _ So c r Hr); by left).
    assert (c ∉ P) as Hcp by (apply (not_idl true s R Q c r So Hr); by rewrite Hr0). by split_and!. }
  assert (u_procp s1 = u_procp s) as Eu by (by rewrite Eq).
  assert (length (proc_tab s1) = length (proc_tab s)) as L1 by (by rewrite Ht, length_insert).
  split; [done|]. split; [|split; [split; lia|]; split; [lia|]; split; [done|]; split; [|split; [done|]; split; [done|]]].
  - split; [done|]. split; [rewrite Ht; apply (tree_fork _ c r x rip (u_procp s)); try done; [|lia|by rewrite Ep]|].
    + destruct (so_cur _ _ _ _ So eq_refl) as (_ & y & Hy & Ey & _). rewrite Hrip in Hy. injection Hy as <-. unfold alive. by rewrite Ey.
    + split; [done|]. split; [by rewrite Eu|]. exists x. rewrite Ht, list_lookup_insert_eq by (by eapply lookup_lt_Some).
      split_and!; try done. rewrite Ew. apply (so_idle _ _ _ _ So c r Hr). by left.
  - rewrite Ht, list_lookup_insert_ne by done. done.
  - intros i y Hy Hz _. exists y. rewrite Ht, list_lookup_insert_ne; [done|]. intros ->. rewrite Hr in Hy. injection Hy as ->. by rewrite Hr0 in Hz.
Qed.

(** The end of [newproc]: the new slot on the run queue. *)
Lemma born_queued c rip s R Q : born c rip s R Q ->
  exists s', setrq c s = Ok s' /\ let s2 := modp c (fun x => set_p_flag (p_flag x |: SSWAP) x) s' in
    sound true s2 (c :: R) Q /\ tree (proc_tab s2) /\ calm (proc_tab s) (proc_tab s2) /\ mpid s2 = mpid s /\ u_procp s2 = u_procp s /\
    exists x, proc_tab s2 !! c = Some x /\ p_pid x = mpid s /\ p_ppid x = p_pid rip.
Proof.
  intros (So & Tr & Ho & Hc & x & Hx & Es & Ew & Ep & Epp).
  destruct (sound_setrq s R Q c x So Ho Hx Es Ew Hc) as (s' & E & S' & C & Qt). exists s'. split; [done|]. cbv zeta.
  set (h := fun x => set_p_flag _ x). assert (calm (proc_tab s') (proc_tab (modp c h s'))) as C' by (by apply calm_modp).
  pose proof (calm_then _ _ _ C C') as C2. destruct (proj2 C2 c x Hx) as (x' & Hx' & F1 & F2 & _). destruct Qt as (_ & _ & M & _ & _ & U & _).
  split; [by apply sound_flag|]. split; [by eapply tree_calm|]. split; [done|]. split; [done|]. split; [done|].
  exists x'. split_and!; congruence.
Qed.

Lemma born_dead c rip s R Q h : born c rip s R Q -> dead_kept None (proc_tab s) (proc_tab (modp c h s)).
Proof.
  intros (_ & _ & _ & _ & x & Hx & Ex & _) i y Hy Hz _. exists y. rewrite lookup_modp_ne; [done|].
  intros ->. rewrite Hx in Hy. injection Hy as ->. by rewrite Hz in Ex.
Qed.

(** A change of one entry that is there. *)
Lemma calm_one p f s x : proc_tab s !! p = Some x -> calm_entry p x (f x) -> calm (proc_tab s) (proc_tab (modp p f s)).
Proof.
  intros Hx Hc. split; [unfold modp; cbn; by rewrite length_alter|]. intros i y Hy. destruct (decide (i = p)) as [->|Hi].
  - exists (f y). split; [by apply Sig.lookup_modp|]. congruence.
  - exists y. split; [by rewrite lookup_modp_ne|by split_and!].
Qed.

(** A live process stays one, and is not put to sleep. *)
Lemma calm_live p f x : alive x -> alive (f x) -> p_pid (f x) = p_pid x -> p_ppid (f x) = p_ppid x -> p_stat (f x) <> SSLEEP -> calm_entry p x (f x).
Proof. intros [A1 A2] [B1 B2] E1 E2 E3. unfold calm_entry. split_and!; try done; by intros [? _]. Qed.
End Kin.

Arguments so_len {_ _ _} _ _ _ _ _.
Arguments so_queues {_ _ _} _ _ _ _ _.
Arguments so_asleep {_ _ _} _ _ _ _ _.
Arguments so_parked {_ _ _} _ _ _ _ _.
Arguments so_idle {_ _ _} _ _ _ _ _.
Arguments so_own {_ _ _} _ _ _ _ _.
Arguments so_idl {_ _ _} _ _ _ _ _.
Arguments so_sigs {_ _ _} _ _ _ _ _.
Arguments so_cur {_ _ _} _ _ _ _ _.
Arguments ex_len {_} _ _ _ _ _.
Arguments ex_entry {_} _ _ _ _ _.
Arguments t_wait {_} _ _.
Arguments sound_wakeup {_} _ {_ _ _} _ _ _ _ _ _ _.
Arguments sound_flag {_ _ _} _ _ _ _ _ _ _ _.
Arguments sound_runout {_ _ _} _ _ _ _ _ _.
Arguments sound_sleep {_} _ {_ _ _} _ _ _ _ _ _.
Arguments sound_setrq {_ _ _ _} _ _ _ _ _.
Arguments sole_runin {_ _ _} _ _ _ _ _.
Arguments exit_end_ok {_} _ {_ _ _} _ _ _ _ _ _ _ _ _.
Arguments exit_begin_ok {_ _ _} _ _ _ _ _.
Arguments wait_ok {_} _ {_ _ _} _ _ _ _ _.
Arguments stop_ok {_} _ {_ _ _} _ _ _.
Arguments entry_born {_ _ _ _} _ _ _ _ _.
Arguments born_queued {_ _ _ _} _ _ _ _ _.
Arguments born_dead {_ _ _} _ _ _ _ _ _.
Arguments born_modp {_ _ _ _} _ _ _ _ _ _.
Arguments not_idl {_ _ _} _ _ _ _ _ _.
Arguments calm_self {_} _.
Arguments calm_then {_} _ _ _.
Arguments calm_dead {_} _ _.
Arguments calm_modp {_} _ _ _.
Arguments calm_one {_} _ _ _ _.
Arguments calm_live {_} _ _ _.
Arguments calm_back {_} _ _ _ _.
Arguments tree_calm {_} _ _.
Arguments own_0 {_ _ _} _ _.

(** ** [newproc] *)

Section Steps.
Context (runin_chan runout_chan : Z) (proc_chan : nat -> Z) {La : layout runin_chan proc_chan}.

Notation wakeup := (wakeup runout_chan).
Notation sleep := (sleep runin_chan runout_chan).
Notation exit_end := (exit_end runin_chan runout_chan proc_chan).
Notation wait_loop := (wait_loop runin_chan runout_chan proc_chan).
Notation stop := (stop runout_chan proc_chan).
Notation newproc_out := (newproc_out runout_chan).
Notation fork_out := (fork_out runout_chan).
Notation sound := (Kin.sound runin_chan proc_chan).
Notation tree := (Kin.tree proc_chan).
Notation calm := (Kin.calm proc_chan).
Notation waiting := (Kin.waiting proc_chan).
Notation calm_entry := (Kin.calm_entry proc_chan).
Notation born := (Kin.born runin_chan proc_chan).
Notation exited := (Kin.exited proc_chan).

Lemma fmap_delete {A B} (g : A -> B) k (l : list A) : g <$> delete k l = delete k (g <$> l).
Proof. revert k. induction l as [|x l IH]; intros [|k]; [done..|]. cbn. by rewrite IH. Qed.

Definition parents (f : fam) : list nat := (idl f).*2.

(** The current process goes on in the name of [c]. *)
Lemma sound_hand P s R Q c x : sound P true s R Q -> off_queues c R Q -> c <> u_procp s -> proc_tab s !! c = Some x ->
  p_stat x = SRUN -> p_wchan x = 0 -> sound (u_procp s :: P) true (set_u_procp c (modp (u_procp s) (set_p_stat SIDL) s)) R Q.
Proof.
  intros So Ho Hc Hx Es Ew. destruct (so_cur _ _ _ _ So eq_refl) as (Hop & y & Hy & Ey & Ewy). set (p := u_procp s) in *.
  assert (forall i z', proc_tab (modp p (set_p_stat SIDL) s) !! i = Some z' ->
    i <> p /\ proc_tab s !! i = Some z' \/ i = p /\ z' = set_p_stat SIDL y) as B.
  { intros i z' (z & Hz & [[Hi ->]|[-> ->]])%modp_back; [by left|right]. split; [done|congruence]. }
  split.
  - unfold modp. cbn. rewrite length_alter. apply So.
  - destruct (queues_modp_off HASH s R Q p (set_p_stat SIDL) (so_queues _ _ _ _ So) Hop). by split.
  - intros i z [[Hi Hz]|[-> ->]]%B Hs; [by apply (so_asleep _ _ _ _ So)|done].
  - intros i z [[Hi Hz]|[-> ->]]%B Hs; [by apply (so_parked _ _ _ _ So i z)|done].
  - intros i z [[Hi Hz]|[-> ->]]%B Hs; [by apply (so_idle _ _ _ _ So i z)|done].
  - intros i [->|Hi]%elem_of_cons.
    + exists (set_p_stat SIDL y). split; [by apply (Sig.lookup_modp p)|done].
    + destruct (so_idl _ _ _ _ So i Hi) as (z & Hz & Ez). exists z. split; [|done]. cbn [proc_tab set_u_procp]. rewrite lookup_modp_ne; [done|].
      intros ->. rewrite Hy in Hz. injection Hz as <-. by rewrite Ey in Ez.
  - intros i z [[Hi Hz]|[-> ->]]%B Hs; [by apply (so_own _ _ _ _ So i z)|by apply own_0].
  - split; [|apply So]. intros i z [[Hi Hz]|[-> ->]]%B; [by apply (proj1 (so_sigs _ _ _ _ So) i z)|]. by apply (proj1 (so_sigs _ _ _ _ So) p y).
  - intros _. split; [done|]. exists x. split; [|done]. cbn [proc_tab set_u_procp u_procp]. by rewrite lookup_modp_ne.
Qed.

(** The parent is itself again. *)
Lemma sound_back P P' s R Q rip : sound P true s R Q -> rip ∈ P -> (forall i, i ∈ P' -> i ∈ P /\ i <> rip) ->
  sound P' true (set_u_procp rip (modp rip (set_p_stat SRUN) s)) R Q /\ u_procp s <> rip.
Proof.
  intros So Hin HP. destruct (so_idl _ _ _ _ So rip Hin) as (y & Hy & Ey). destruct (so_cur _ _ _ _ So eq_refl) as (Hop & x & Hx & Es & Ew).
  assert (u_procp s <> rip) as Hne by (intros E; rewrite E, Hy in Hx; injection Hx as <-; by rewrite Ey in Es).
  pose proof (so_parked _ _ _ _ So rip y Hy ltac:(unfold parked; tauto)) as Hoff. pose proof (so_idle _ _ _ _ So rip y Hy ltac:(tauto)) as Ewy.
  assert (forall i z', proc_tab (modp rip (set_p_stat SRUN) s) !! i = Some z' ->
    i <> rip /\ proc_tab s !! i = Some z' \/ i = rip /\ z' = set_p_stat SRUN y) as B.
  { intros i z' (z & Hz & [[Hi ->]|[-> ->]])%modp_back; [by left|right]. split; [done|congruence]. }
  split; [|done]. split.
  - unfold modp. cbn. rewrite length_alter. apply So.
  - destruct (queues_modp_off HASH s R Q rip (set_p_stat SRUN) (so_queues _ _ _ _ So) Hoff). by split.
  - intros i z [[Hi Hz]|[-> ->]]%B Hs; [by apply (so_asleep _ _ _ _ So)|done].
  - intros i z [[Hi Hz]|[-> ->]]%B Hs; [by apply (so_parked _ _ _ _ So i z)|done].
  - intros i z [[Hi Hz]|[-> ->]]%B Hs; [by apply (so_idle _ _ _ _ So i z)|done].
  - intros i [Hi Hn]%HP. destruct (so_idl _ _ _ _ So i Hi) as (z & Hz & Ez). exists z. split; [|done]. cbn [proc_tab set_u_procp]. by rewrite lookup_modp_ne.
  - intros i z [[Hi Hz]|[-> ->]]%B Hs; [by apply (so_own _ _ _ _ So i z)|by apply own_0].
  - split; [|apply So]. intros i z [[Hi Hz]|[-> ->]]%B; [by apply (proj1 (so_sigs _ _ _ _ So) i z)|]. by apply (proj1 (so_sigs _ _ _ _ So) rip y).
  - intros _. split; [done|]. exists (set_p_stat SRUN y). split; [by apply (Sig.lookup_modp rip)|done].
Qed.

Lemma newproc_ok core a f R Q rip c u : sound (parents f) true (ps f) R Q -> tree (proc_tab (ps f)) -> mpid_ok (ps f) ->
  proc_tab (ps f) !! me f = Some rip -> areas f !! me f = Some u -> first_free (proc_tab (ps f)) = Some c ->
  exists f' R' Q' x, newproc core a f = Ok f' /\ sound (parents f') true (ps f') R' Q' /\ tree (proc_tab (ps f')) /\ mpid_ok (ps f') /\
    proc_tab (ps f') !! c = Some x /\ p_pid x = mpid (ps f') /\ p_ppid x = p_pid rip /\ 1 <= p_pid x /\ p_pid x ∉ ids (proc_tab (ps f)) /\
    areas f' = <[c := u]> (areas f) /\ me f' = (if core then me f else c) /\
    idl f' = (if core then idl f else (c, me f) :: idl f) /\ dead_kept None (proc_tab (ps f)) (proc_tab (ps f')) /\
    length (proc_tab (ps f')) = length (proc_tab (ps f)).
Proof.
  intros So Tr Hm Hrip Hu Hf. destruct (entry_born _ R Q rip c So Tr Hm Hrip Hf) as (s1 & E & B1 & M1 & P1 & N1 & Hr1 & U1 & L1 & K1).
  unfold newproc, u_. rewrite E. run. unfold getp, me. rewrite (access_Ok _ _ _ Hr1). run. unfold me in Hu. rewrite (access_Ok _ _ _ Hu). run.
  destruct M1 as [M1 M2]. destruct core.
  - set (s2 := modp c (set_p_addr a) (modp c (set_p_size (p_size rip)) s1)).
    assert (born (parents f) c rip s2 R Q) as B2 by (apply born_modp; [by apply born_modp|done]).
    destruct (born_queued c rip s2 R Q B2) as (s3 & E3 & S3 & T3 & C3 & Em & Eu & x & Hx & Ep & Epp). rewrite E3. run.
    assert (length (proc_tab s2) = length (proc_tab s1)) as L2 by (unfold s2, modp; cbn; by rewrite !length_alter).
    eexists _, (c :: R), Q, x. split; [reflexivity|]. cbn [ps set_ps areas set_areas]. split; [exact S3|]. split; [exact T3|].
    pose proof (proj1 C3) as L3. split; [unfold mpid_ok; rewrite Em, L3, L2; done|]. split; [done|]. rewrite Em, Ep, Epp.
    do 5 (split; [done|]). split; [unfold me; cbn [ps set_ps]; by rewrite Eu, <- U1|]. split; [done|]. split; [|by rewrite L3, L2, L1].
    eapply dead_trans; [exact K1|]. eapply dead_trans; [|exact (calm_dead _ _ C3)]. unfold s2.
    eapply dead_trans; [by eapply born_dead|]. eapply born_dead. by apply born_modp.
  - set (s2 := modp c (set_p_size (p_size rip)) s1). assert (born (parents f) c rip s2 R Q) as B2 by (by apply born_modp).
    pose proof B2 as (S2 & T2 & Ho2 & Hc2 & x & Hx & Es & Ew & Ep & Epp). assert (u_procp s2 = u_procp (ps f)) as U2 by exact U1.
    destruct (so_cur _ _ _ _ S2 eq_refl) as (_ & y & Hy & Ey & _). rewrite U2 in *.
    pose proof (sound_hand _ s2 R Q c x S2 Ho2 ltac:(by rewrite U2) Hx Es Ew) as S3. rewrite U2 in S3.
    set (s3 := modp (u_procp (ps f)) (set_p_stat SIDL) s2) in *. set (h := fun x => set_p_flag _ _).
    assert (calm (proc_tab s2) (proc_tab s3)) as C3 by (apply (calm_one _ _ _ y Hy), calm_live; unfold alive; cbn; by rewrite ?Ey).
    assert (proc_tab s3 !! c = Some x) as Hx3 by (unfold s3; by rewrite lookup_modp_ne).
    assert (calm (proc_tab s3) (proc_tab (modp c h s3))) as C4 by (apply (calm_one _ _ _ x Hx3), calm_live; unfold alive; cbn; by rewrite ?Es).
    pose proof (calm_then _ _ _ C3 C4) as C. assert (length (proc_tab s2) = length (proc_tab s1)) as L2 by (unfold s2, modp; cbn; by rewrite !length_alter).
    eexists _, R, Q, (h x). split; [reflexivity|]. cbn [ps set_ps set_idl areas set_areas proc_tab set_u_procp mpid].
    split; [exact (sound_flag true (set_u_procp c s3) R Q c h S3 ltac:(done))|]. split; [by eapply tree_calm|].
    split; [split; [exact M1|change (2 * Z.of_nat (length (proc_tab (modp c h s3))) < 29999); by rewrite (proj1 C), L2]|]. split; [by apply Sig.lookup_modp|].
    change (p_pid (h x)) with (p_pid x). change (p_ppid (h x)) with (p_ppid x). rewrite Ep, Epp. do 7 (split; [done|]).
    split; [|change (length (proc_tab (modp c h s3)) = length (proc_tab (ps f))); by rewrite (proj1 C), L2, L1].
    eapply dead_trans; [exact K1|]. eapply dead_trans; [by eapply born_dead|exact (calm_dead _ _ C)].
Qed.

(** The second part: the child is on the run queue and the parent is itself. *)
Lemma newproc_out_ok a f R Q k c rip u : sound (parents f) true (ps f) R Q -> tree (proc_tab (ps f)) -> NoDup (parents f) ->
  list_find (fun e => e.1 = me f) (idl f) = Some (k, (c, rip)) -> areas f !! me f = Some u ->
  exists f' R' Q', newproc_out a f = Ok f' /\ sound (parents f') true (ps f') R' Q' /\ calm (proc_tab (ps f)) (proc_tab (ps f')) /\
    mpid (ps f') = mpid (ps f) /\ me f' = rip /\ NoDup (parents f') /\ areas f' = <[rip := u]> (areas f).
Proof.
  intros So Tr Nd Hfind Hu. unfold Family.newproc_out. rewrite Hfind. apply list_find_Some in Hfind as (Hk & Hc & _). cbn in Hc. subst c.
  unfold u_. rewrite (access_Ok _ _ _ Hu). run. destruct (so_cur _ _ _ _ So eq_refl) as (Ho & x & Hx & Es & Ew). fold (me f) in *.
  set (g := fun x => set_p_time 0 _). set (s1 := modp (me f) g (ps f)).
  assert (sound (parents f) true s1 R Q) as S1 by (by apply sound_flag).
  assert (calm (proc_tab (ps f)) (proc_tab s1)) as C1 by (apply (calm_one _ _ _ x Hx), calm_live; unfold alive; cbn; by rewrite ?Es).
  assert (exists s2 R2 Q2, (if runout s1 =? 0 then Ok s1 else wakeup runout_chan (set_runout 0 s1)) = Ok s2 /\ sound (parents f) true s2 R2 Q2 /\
    calm (proc_tab s1) (proc_tab s2) /\ quiet s1 s2) as (s2 & R2 & Q2 & E2 & S2 & C2 & Qt2).
  { destruct (runout s1 =? 0); [exists s1, R, Q; split_and!; try done; apply calm_self|].
    destruct (sound_wakeup runout_chan true _ R Q runout_chan (sound_runout _ _ _ _ 0 S1)) as (s2 & R2 & Q2 & E2 & S2 & C2 & Qt2 & _); [by left|].
    exists s2, R2, Q2. by split_and!. }
  rewrite E2. run. destruct Qt2 as (_ & _ & M2 & _ & _ & U2 & _). change (u_procp s1) with (me f) in U2.
  assert (forall i, i ∈ (delete k (idl f)).*2 -> i ∈ parents f /\ i <> rip) as Hdel.
  { intros i ((c', j) & -> & Hj)%list_elem_of_fmap. apply list_elem_of_lookup in Hj as [n Hn].
    assert (exists m, m <> k /\ idl f !! m = Some (c', j)) as (m & Hm & Hlm).
    { destruct (decide (n < k)%nat) as [Hlt|Hge]; [rewrite list_lookup_delete_lt in Hn by done; exists n; split; [lia|done]|].
      rewrite list_lookup_delete_ge in Hn by lia. exists (S n). split; [lia|done]. }
    assert (parents f !! m = Some j) as Hpm by (unfold parents; by rewrite list_lookup_fmap, Hlm). cbn. split; [by apply list_elem_of_lookup_2 in Hpm|].
    intros ->. apply Hm, (NoDup_lookup (parents f) m k rip); try done. unfold parents. by rewrite list_lookup_fmap, Hk. }
  assert (rip ∈ parents f) as Hrip by (apply list_elem_of_fmap; exists (me f, rip); split; [done|by apply list_elem_of_lookup_2 in Hk]).
  destruct (so_cur _ _ _ _ S2 eq_refl) as (Ho2 & x2 & Hx2 & Es2 & Ew2). rewrite U2 in *.
  destruct (sound_back (parents f) ((delete k (idl f)).*2) s2 R2 Q2 rip S2 Hrip Hdel) as [S3 Hne]. rewrite U2 in Hne.
  set (s3 := set_u_procp rip _) in *. assert (proc_tab s3 !! me f = Some x2) as Hx3 by (unfold s3; cbn [proc_tab set_u_procp]; by rewrite lookup_modp_ne).
  assert (calm (proc_tab s2) (proc_tab s3)) as C3.
  { destruct (so_idl _ _ _ _ S2 rip Hrip) as (y & Hy & Ey). apply (calm_one _ _ _ y Hy), calm_live; unfold alive; cbn; by rewrite ?Ey. }
  destruct (sound_setrq s3 R2 Q2 (me f) x2 S3 Ho2 Hx3 Es2 Ew2 Hne) as (s4 & E4 & S4 & C4 & Qt4). rewrite E4. run.
  destruct Qt4 as (_ & _ & M4 & _ & _ & U4 & _). set (h := fun x => set_p_flag _ x).
  assert (calm (proc_tab s4) (proc_tab (modp (me f) h s4))) as C5 by (by apply calm_modp).
  eexists _, (me f :: R2), Q2. split; [reflexivity|]. unfold parents. cbn [ps set_ps set_idl idl areas set_areas]. split; [by apply sound_flag|].
  split; [eapply calm_then, calm_then, calm_then, calm_then; eassumption|]. split; [change (mpid s4 = mpid (ps f)); rewrite M4; exact M2|].
  split; [exact U4|]. split; [|done]. rewrite fmap_delete. eapply sublist_NoDup; [|apply sublist_delete]. exact Nd.
Qed.

(** [fork] by the process with entry [x] and u-area [u]: an error, or a child that shares
    nothing but the u-area; without core the parent goes on in its name for now. *)
Definition forked (core : bool) (f : fam) (x : proc) (u : uarea) (f' : fam) : Prop :=
  (ps f' = ps f /\ exists e, areas f' !! me f = Some (set_error e u) /\ (e = ENOMEM \/ e = EAGAIN)) \/
  exists c r y, proc_tab (ps f) !! c = Some r /\ p_stat r = 0 /\ proc_tab (ps f') !! c = Some y /\ p_ppid y = p_pid x /\
    1 <= p_pid y /\ p_pid y ∉ ids (proc_tab (ps f)) /\ areas f' !! c = Some u /\
    if core then areas f' !! me f = Some (set_rval (p_pid y) 0 u) else me f' = c /\ (c, me f) ∈ idl f'.

Lemma fork_ok core a f R Q x u l : sound (parents f) true (ps f) R Q -> tree (proc_tab (ps f)) -> mpid_ok (ps f) ->
  length (areas f) = length (proc_tab (ps f)) -> proc_tab (ps f) !! me f = Some x -> areas f !! me f = Some u -> wf_map (swapmap f) l ->
  exists f' R' Q', fork core a f = Ok f' /\ forked core f x u f' /\ sound (parents f') true (ps f') R' Q' /\ tree (proc_tab (ps f')) /\ mpid_ok (ps f') /\
    length (areas f') = length (proc_tab (ps f')) /\ dead_kept None (proc_tab (ps f)) (proc_tab (ps f')) /\
    (idl f' = idl f \/ exists c, idl f' = (c, me f) :: idl f).
Proof.
  intros So Tr Hm La' Hx Hu W. unfold fork.
  assert (0 < wtodb MAXMEM) as Hpos by done.
  assert (forall e g, ps g = ps f -> areas g = areas f -> idl g = idl f -> (e = ENOMEM \/ e = EAGAIN) -> exists f' R' Q', Ok (mod_u (set_error e) g) = Ok f' /\
    forked core f x u f' /\ sound (parents f') true (ps f') R' Q' /\ tree (proc_tab (ps f')) /\ mpid_ok (ps f') /\
    length (areas f') = length (proc_tab (ps f')) /\ dead_kept None (proc_tab (ps f)) (proc_tab (ps f')) /\
    (idl f' = idl f \/ exists c, idl f' = (c, me f) :: idl f)) as Err.
  { intros e g Eg Ea Ei He. eexists _, R, Q. split; [reflexivity|]. unfold mod_u, me. cbn [ps set_areas areas]. rewrite Eg, Ea.
    split; [left; split; [done|]; exists e; split; [|done]; cbn [areas set_areas]; unfold me; rewrite list_lookup_alter_eq; unfold me in Hu; by rewrite Hu|].
    unfold parents. cbn [idl set_areas]. rewrite Ei. split; [done|]. split; [done|]. split; [done|]. split; [by rewrite length_alter|].
    split; [exact (calm_dead (proc_chan := proc_chan) _ _ (calm_self _))|by left]. }
  destruct (fit l (wtodb MAXMEM)) as [[b l']|] eqn:Fl.
  2:{ rewrite (malloc_nofit _ _ _ W Fl). apply Err; auto. }
  destruct (malloc_fit _ _ _ _ _ W Hpos Fl) as (mp' & Em & _). rewrite Em.
  destruct (fit_spec _ _ _ _ _ (wf_asc _ _ W) Hpos Fl) as (_ & Hb & _).
  destruct b as [|b|b]; [lia| |lia].
  destruct (malloc_mfree_roundtrip false 0 (swapmap f) l _ _ mp' W Hpos Em) as (mp2 & E2 & _); [done|].
  destruct (mfree false 0 mp' (wtodb MAXMEM) (Z.pos b)) as [[mp3 r3 w3]|]; [|done].
  set (g := set_swapmap mp3 f). unfold u_. change (areas g) with (areas f). change (me g) with (me f). rewrite (access_Ok _ _ _ Hu). run.
  change (ps g) with (ps f).
  destruct (fork_scan 0 (proc_tab (ps f)) (u_uid u) None 0) as [p2 n] eqn:Fs.
  pose proof (fork_scan_first (proc_tab (ps f)) (u_uid u) 0 0) as Ff. rewrite Fs in Ff. cbn in Ff. destruct p2 as [c|]; [|apply Err; auto].
  destruct (negb (u_uid u =? 0) && _); [apply Err; auto|].
  destruct (first_free (proc_tab (ps f))) as [c'|] eqn:Efree; [|done]. injection Ff as ->.
  destruct (newproc_ok core a g R Q x c' u So Tr Hm Hx Hu Efree) as (f1 & R1 & Q1 & y & En & S1 & T1 & M1 & Hy & Ep & Epp & P1 & N1 & A1 & E1 & I1 & K1 & L1).
  rewrite En. run. pose proof Efree as Efr. unfold first_free in Efr. destruct (list_find _ (proc_tab (ps f))) as [[k r]|] eqn:Elf; [|done]. injection Efr as ->.
  apply list_find_Some in Elf as (Hr & Hr0 & _).
  assert (c' <> me f) as Hc. { intros ->. destruct (so_cur _ _ _ _ So eq_refl) as (_ & z & Hz & Ez & _). fold (me f) in Hz. rewrite Hr in Hz. injection Hz as ->. by rewrite Hr0 in Ez. }
  assert (areas f1 !! c' = Some u) as Ac by (rewrite A1, list_lookup_insert_eq; [done|]; change (areas g) with (areas f); rewrite La'; by eapply lookup_lt_Some).
  assert (length (areas f1) = length (proc_tab (ps f1))) as L2 by (rewrite A1, length_insert, L1; done). destruct core.
  - unfold getp. rewrite (access_Ok _ _ _ Hy). run. eexists _, R1, Q1. split; [reflexivity|]. change (me g) with (me f) in E1.
    unfold mod_u, parents. cbn [ps set_areas areas idl]. rewrite E1.
    split; [|split; [exact S1|split; [done|split; [done|split; [by rewrite length_alter|split; [done|by left]]]]]].
    right. exists c', r, y. do 6 (split; [done|]). cbn [areas set_areas]. rewrite A1. change (areas g) with (areas f).
    split; [rewrite list_lookup_alter_ne by done; change (areas g) with (areas f) in A1; by rewrite <- A1|].
    by rewrite list_lookup_alter_eq, list_lookup_insert_ne, Hu.
  - exists f1, R1, Q1. split; [done|]. split; [|split; [exact S1|split; [done|split; [done|split; [done|split; [done|right; by exists c']]]]]].
    right. exists c', r, y. do 6 (split; [done|]). split; [done|]. split; [done|]. rewrite I1. by left.
Qed.

(** ** Any interleaving *)

Record fine (b : bool) (f : fam) : Prop := {
  fi_sound : exists R Q, sound (parents f) b (ps f) R Q;
  fi_tree : tree (proc_tab (ps f));
  fi_mpid : mpid_ok (ps f);
  fi_areas : length (areas f) = length (proc_tab (ps f));
  fi_idl : NoDup (parents f)
}.

(** What the rest of the kernel may do in between, on behalf of any process, in interrupts and in
    the dispatcher: it keeps the queues in order, and it leaves ids, parents and the entries of the dead as they are, makes
    nobody a zombie or a free slot, and puts nobody to sleep in [wait]. *)
Definition others (b : bool) (f : fam) (b' : bool) (f' : fam) : Prop :=
  (exists R Q, sound (parents f) b' (ps f') R Q) /\ calm (proc_tab (ps f)) (proc_tab (ps f')) /\ mpid (ps f') = mpid (ps f) /\
  length (areas f') = length (areas f) /\ idl f' = idl f.

(** The current process is not in the middle of a [newproc]. *)
Definition itself (f : fam) : Prop := me f ∉ (idl f).*1.

(** [true]: the current process is on the processor. *)
Inductive step : bool * fam -> bool * fam -> Prop :=
  | Forks core a f f' l : itself f -> wf_map (swapmap f) l -> fork core a f = Ok f' -> step (true, f) (true, f')
  | Forked a f f' : fork_out a f = Ok f' -> step (true, f) (true, f')
  | Waits seen f r f' : itself f -> wait_loop seen f = Ok (r, f') -> step (true, f) (match r with Some ToSwtch => false | _ => true end, f')
  | Exiting f : itself f -> step (true, f) (true, exit_begin f)
  | Exits rv f f' : itself f -> me f <> 0%nat -> me f <> 1%nat -> exit_end rv f = Ok f' -> step (true, f) (false, f')
  | Stops f b s' : itself f -> stop (ps f) = Ok (b, s') -> step (true, f) (negb b, set_ps s' f)
  | Runs b f b' f' : others b f b' f' -> step (b, f) (b', f').

Lemma mpid_same s s' : mpid_ok s -> mpid s' = mpid s -> length (proc_tab s') = length (proc_tab s) -> mpid_ok s'.
Proof. unfold mpid_ok. by intros ? -> ->. Qed.

Lemma fine_current f : fine true f -> exists R Q x u, sound (parents f) true (ps f) R Q /\ proc_tab (ps f) !! me f = Some x /\
  p_stat x = SRUN /\ areas f !! me f = Some u.
Proof.
  intros [(R & Q & So) _ _ Ha _]. destruct (so_cur _ _ _ _ So eq_refl) as (_ & x & Hx & Es & _).
  destruct (lookup_lt_is_Some_2 (areas f) (me f)) as [u Hu]; [rewrite Ha; by eapply lookup_lt_Some|]. by exists R, Q, x, u.
Qed.

(** A step that leaves the tree alone. *)
Lemma fine_calm b f b' f' R Q : fine b f -> sound (parents f) b' (ps f') R Q -> calm (proc_tab (ps f)) (proc_tab (ps f')) ->
  mpid (ps f') = mpid (ps f) -> length (areas f') = length (areas f) -> parents f' = parents f ->
  fine b' f' /\ dead_kept None (proc_tab (ps f)) (proc_tab (ps f')).
Proof.
  intros [_ Tr Mp Ha Nd] So C M L E. split; [|exact (calm_dead _ _ C)]. split; rewrite ?E; [by exists R, Q|by eapply tree_calm| | |done].
  - apply (mpid_same (ps f) _ Mp M). apply C.
  - rewrite L, Ha. symmetry. apply C.
Qed.

Lemma exits_ok rv f f' : fine true f -> me f <> 0%nat -> me f <> 1%nat -> exit_end rv f = Ok f' ->
  fine false f' /\ dead_kept None (proc_tab (ps f)) (proc_tab (ps f')) /\
  exists x u z, proc_tab (ps f) !! me f = Some x /\ areas f !! me f = Some u /\ proc_tab (ps f') !! me f = Some z /\ p_stat z = SZOMB /\
    p_pid z = p_pid x /\ estate z = (rv, u_cutime u + u_utime u, u_cstime u + u_stime u).
Proof.
  intros Fi H0 H1 E. destruct (fine_current f Fi) as (R & Q & x & u & So & Hx & Es & Hu). destruct Fi as [_ Tr Mp Ha Nd].
  assert (mfree true (runin (ps f)) (coremap f) (p_size x) (p_addr x) <> None) as Hmf.
  { intros Em. unfold Family.exit_end, getp, u_ in E. rewrite (access_Ok _ _ _ Hx), (access_Ok _ _ _ Hu) in E. cbn [mbind res_bind] in E. by rewrite Em in E. }
  destruct (mfree true (runin (ps f)) (coremap f) (p_size x) (p_addr x)) as [[mp r w]|] eqn:Em; [|done].
  destruct (exit_end_ok runout_chan rv f R Q x u mp r w So Tr H0 H1 Hx Hu Em) as (f2 & R2 & Q2 & E2 & S2 & T2 & Ex & M2 & A2 & I2 & z & Hz & Ez).
  rewrite E in E2. injection E2 as <-. pose proof (ex_len _ _ _ _ Ex) as L2.
  split; [split; unfold parents; rewrite ?I2; [by exists R2, Q2|done|by apply (mpid_same (ps f))|by rewrite A2, L2|done]|]. split.
  - intros c y Hy Hd _. destruct (ex_entry _ _ _ _ Ex c y Hy) as (y' & Hy' & F1 & _ & _ & F4 & _ & F6).
    exists y'. split; [done|]. split; [tauto|]. split; [done|]. apply F6; [done|]. intros ->. rewrite Hx in Hy. injection Hy as <-. by rewrite Es in Hd.
  - exists x, u, z. destruct (ex_entry _ _ _ _ Ex (me f) x Hx) as (z' & Hz' & F1 & _ & _ & F4 & _). rewrite Hz in Hz'. injection Hz' as <-.
    split_and!; try done. by apply F4; left.
Qed.

Lemma fork_out_ok a f f' : fine true f -> fork_out a f = Ok f' -> fine true f' /\ dead_kept None (proc_tab (ps f)) (proc_tab (ps f')).
Proof.
  intros Fi E. destruct (fine_current f Fi) as (R & Q & x & u & So & Hx & _ & Hu). pose proof Fi as [_ Tr Mp Ha Nd]. unfold Family.fork_out in E.
  destruct (list_find (fun e => e.1 = me f) (idl f)) as [[k [c rip]]|] eqn:Ef; [|unfold Family.newproc_out in E; by rewrite Ef in E].
  destruct (newproc_out_ok a f R Q k c rip u So Tr Nd Ef Hu) as (g & R2 & Q2 & E2 & S2 & C2 & M2 & U2 & N2 & A2). rewrite E2 in E. cbn [mbind res_bind] in E.
  destruct (proj2 C2 (me f) x Hx) as (y & Hy & _). unfold getp in E. rewrite (access_Ok _ _ _ Hy) in E. cbn [mbind res_bind] in E. injection E as <-.
  split; [|exact (calm_dead _ _ C2)]. split; cbn [ps mod_u set_areas areas]; [by exists R2, Q2|by eapply tree_calm|apply (mpid_same (ps f) _ Mp M2), C2| |done].
  rewrite length_alter, A2, length_insert, Ha. symmetry. apply C2.
Qed.

(** Every step keeps the family in order, and the dead; only [wait] lays one to rest. *)
Lemma step_fine b f b' f' : fine b f -> step (b, f) (b', f') ->
  fine b' f' /\
  (dead_kept None (proc_tab (ps f)) (proc_tab (ps f')) \/
   exists seen x u r, b = true /\ proc_tab (ps f) !! me f = Some x /\ areas f !! me f = Some u /\ wait_loop seen f = Ok (r, f') /\ waited seen f x r f' /\
     b' = match r with Some ToSwtch => false | _ => true end /\ dead_kept (fst <$> child f x) (proc_tab (ps f)) (proc_tab (ps f'))).
Proof.
  intros Fi St. remember (b, f) as bf eqn:E1. remember (b', f') as bf' eqn:E2.
  destruct St as [core a g g' l _ W Ef|a g g' Ef|seen g r g' _ Ew|g _|rv g g' _ H0 H1 Ee|g c s' _ Es|c g c' g' Ho]; injection E1 as <- <-; injection E2 as <- <-.
  - destruct (fine_current g Fi) as (R & Q & x & u & So & Hx & Es & Hu). destruct Fi as [_ Tr Mp Ha Nd].
    destruct (fork_ok core a g R Q x u l So Tr Mp Ha Hx Hu W) as (g2 & R2 & Q2 & E & _ & S2 & T2 & M2 & L2 & K2 & I2).
    rewrite Ef in E. injection E as <-. split; [split; [by exists R2, Q2|done..|]|by left].
    unfold parents. destruct I2 as [-> |[c ->]]; [done|]. cbn. apply NoDup_cons. split; [|done]. apply (not_idl true (ps g) R Q _ x So Hx). by rewrite Es.
  - destruct (fork_out_ok a g g' Fi Ef) as [F K]. split; [done|by left].
  - destruct (fine_current g Fi) as (R & Q & x & u & So & Hx & _ & Hu). destruct Fi as [_ Tr Mp Ha Nd].
    destruct (wait_ok runout_chan seen g R Q x So Tr Hx) as (r2 & g2 & R2 & Q2 & E & Wd & S2 & T2 & M2 & L2 & K2). rewrite Ew in E. injection E as <- <-.
    split; [|right; by exists seen, x, u, r].
    assert (length (areas g') = length (areas g) /\ idl g' = idl g) as [La' Li].
    { unfold waited in Wd. destruct (child g x) as [[c y]|]; [destruct Wd as [_ Wd]; destruct (p_stat y =? SZOMB)|destruct (seen || existsb _ _); [destruct Wd as (k & s & _ & Wd)|destruct Wd as [_ Wd]]];
        rewrite Wd; unfold mod_u; cbn; by rewrite ?length_alter. }
    split; unfold parents; rewrite ?Li; [by exists R2, Q2|done|by apply (mpid_same (ps g))|by rewrite L2, La'|done].
  - destruct (fine_current g Fi) as (R & Q & x & u & So & _). destruct (exit_begin_ok true g R Q So) as [S1 C1].
    destruct (fine_calm true g true (exit_begin g) R Q Fi S1 C1) as [F K]; [done..|]. split; [done|by left].
  - destruct (exits_ok rv g g' Fi H0 H1 Ee) as (F2 & K2 & _). split; [done|by left].
  - destruct (fine_current g Fi) as (R & Q & x & u & So & _). destruct (stop_ok runout_chan (ps g) R Q So (fi_tree _ _ Fi)) as (c2 & s2 & R2 & Q2 & E & S2 & C2 & M2).
    rewrite Es in E. injection E as <- <-. destruct (fine_calm true g (negb c) (set_ps s' g) R2 Q2 Fi S2 C2) as [F K]; [done..|]. split; [done|by left].
  - destruct Ho as ((R & Q & So) & C & M & L & I). destruct (fine_calm c g c' g' R Q Fi So C M L) as [F K]; [unfold parents; by rewrite I|]. split; [done|by left].
Qed.

Lemma steps_fine p q : rtc step p q -> fine p.1 p.2 -> fine q.1 q.2.
Proof.
  induction 1 as [|[b f] [b1 f1] q St _ IH]; [done|]. intros Fi. apply IH. by destruct (step_fine _ _ _ _ Fi St).
Qed.

(** C15. Whatever processes [fork] (with core for the child or by way of the swap area, where the parent
    sleeps in the middle), begin to exit, exit, [wait] and stop, in whatever order, with the rest of the kernel running
    in between as [others] allows, process ids stay unique, free slots stay clean, every process
    has a living parent (a child whose parent exits becomes process 1's), and a process asleep in
    [wait] has no dead child: no wakeup is lost between the scan and the sleep, nor when a dead
    child changes hands, in whatever buckets the sleepers and [runout] are. *)
Theorem family_kept b f b' f' : fine b f -> rtc step (b, f) (b', f') -> fine b' f'.
Proof. intros Fi St. exact (steps_fine _ _ St Fi). Qed.

(** A dead process until it is laid to rest, over any steps. *)
Lemma dead_until_waited p q : rtc step p q -> forall c y, fine p.1 p.2 -> proc_tab (ps p.2) !! c = Some y -> p_stat y = SZOMB ->
  (exists y', proc_tab (ps q.2) !! c = Some y' /\ p_stat y' = SZOMB /\ p_pid y' = p_pid y /\ estate y' = estate y) \/
  exists seen g g' x y' u, rtc step p (true, g) /\ wait_loop seen g = Ok (None, g') /\ rtc step (true, g') q /\
    proc_tab (ps g) !! me g = Some x /\ proc_tab (ps g) !! c = Some y' /\ p_ppid y' = p_pid x /\ areas g !! me g = Some u /\
    areas g' !! me g = Some (add_ctimes (xp_utime y) (xp_stime y) (set_rval (p_pid y) (xp_xstat y) u)).
Proof.
  induction 1 as [[b f]|[b f] [b1 f1] q St Sts IH]; intros c y Fi Hy Hz.
  { left. exists y. by split_and!. }
  cbn [fst snd] in *. destruct (step_fine _ _ _ _ Fi St) as [F1 H].
  assert (forall y1, proc_tab (ps f1) !! c = Some y1 -> p_stat y1 = SZOMB -> p_pid y1 = p_pid y -> estate y1 = estate y ->
    (exists y', proc_tab (ps q.2) !! c = Some y' /\ p_stat y' = SZOMB /\ p_pid y' = p_pid y /\ estate y' = estate y) \/
    exists seen g g' x y' u, rtc step (b, f) (true, g) /\ wait_loop seen g = Ok (None, g') /\ rtc step (true, g') q /\
      proc_tab (ps g) !! me g = Some x /\ proc_tab (ps g) !! c = Some y' /\ p_ppid y' = p_pid x /\ areas g !! me g = Some u /\
      areas g' !! me g = Some (add_ctimes (xp_utime y) (xp_stime y) (set_rval (p_pid y) (xp_xstat y) u))) as Later.
  { intros y1 Hy1 Z1 P1 E1. injection E1 as X1 X2 X3. destruct (IH c y1 F1 Hy1 Z1) as [(y2 & Hy2 & Z2 & P2 & E2)|(seen & g & g' & x & y2 & u & G1 & G2 & G3 & G4 & G5 & G6 & G7 & G8)].
    - left. exists y2. split_and!; [done|done|congruence|]. rewrite E2. unfold estate. congruence.
    - right. exists seen, g, g', x, y2, u. split; [by eapply rtc_l|]. rewrite P1, X1, X2, X3 in G8. by split_and!. }
  destruct H as [K|(seen & x & u & r & -> & Hx & Hu & Ew & Wd & -> & K)].
  - destruct (K c y Hy Hz ltac:(done)) as (y1 & Hy1 & Z1 & P1 & E1). by apply (Later y1).
  - destruct (decide (fst <$> child f x = Some c)) as [Hc|Hc]; [|destruct (K c y Hy Hz Hc) as (y1 & Hy1 & Z1 & P1 & E1); by apply (Later y1)].
    right. unfold waited in Wd. destruct (child f x) as [[c' y']|] eqn:Ech; [|done]. cbn in Hc. injection Hc as ->.
    pose proof Ech as Ech'. unfold child in Ech'. apply list_find_Some in Ech' as (Hy' & Ht & _). rewrite Hy in Hy'. injection Hy' as <-.
    rewrite Hz in Wd. cbn in Wd. destruct Wd as [-> Wd]. exists seen, f, f1, x, y, u. split; [apply rtc_refl|]. split; [done|]. split; [done|]. split; [done|].
    split; [done|]. split; [unfold tells in Ht; apply andb_true_iff in Ht as [Ht _]; lia|]. split; [done|].
    rewrite Wd. unfold mod_u. cbn. fold (me f). by rewrite list_lookup_alter_eq, Hu.
Qed.

(** C16. The status of a process that exits reaches the process that is its parent when it is laid to
    rest, and no other: however processes go on to fork, exit, wait and stop, at any later
    time it is still there, with its status and times, or some [wait] in between, by that
    parent, has returned the id and the status and added the times.  (Of the rest of the kernel
    [others] asks that it leaves the dead alone.) *)
Theorem status_delivered rv f f1 b2 f2 : fine true f -> me f <> 0%nat -> me f <> 1%nat -> exit_end rv f = Ok f1 ->
  rtc step (false, f1) (b2, f2) ->
  exists x w, proc_tab (ps f) !! me f = Some x /\ areas f !! me f = Some w /\
    let ut := u_cutime w + u_utime w in
    let st := u_cstime w + u_stime w in
    (exists y, proc_tab (ps f2) !! me f = Some y /\ p_stat y = SZOMB /\ p_pid y = p_pid x /\ estate y = (rv, ut, st)) \/
    exists seen g g' px y u, rtc step (false, f1) (true, g) /\ wait_loop seen g = Ok (None, g') /\ rtc step (true, g') (b2, f2) /\
      proc_tab (ps g) !! me g = Some px /\ proc_tab (ps g) !! me f = Some y /\ p_ppid y = p_pid px /\ areas g !! me g = Some u /\
      areas g' !! me g = Some (add_ctimes ut st (set_rval (p_pid x) rv u)).
Proof.
  intros Fi H0 H1 E Sts. destruct (exits_ok rv f f1 Fi H0 H1 E) as (F1 & _ & x & w & z & Hx & Hw & Hz & Zz & Pz & Ez).
  exists x, w. split; [done|]. split; [done|]. cbv zeta. unfold estate in Ez. injection Ez as X1 X2 X3. rewrite <- X1, <- X2, <- X3, <- Pz.
  exact (dead_until_waited _ _ Sts (me f) z F1 Hz Zz).
Qed.

(** ** The rest of the kernel: a wakeup, a sleep, the dispatcher *)

Lemma others_wakeup b f chan : fine b f -> runout (ps f) = 0 \/ HASH runout_chan <> HASH chan \/ chan = runin_chan ->
  exists s, wakeup chan (ps f) = Ok s /\ others b f b (set_ps s f).
Proof.
  intros [(R & Q & So) _ _ _ _] Hc. destruct (sound_wakeup runout_chan b (ps f) R Q chan So) as (s & R' & Q' & E & S' & C & Qt & _).
  { destruct Hc as [Hc|[Hc| ->]]; [by left|right; by left|right; right; right; exact (sole_runin _ _ _ _ So)]. }
  exists s. split; [done|]. split; [by exists R', Q'|]. split; [done|]. split; [|done]. by destruct Qt as (_ & _ & ? & _).
Qed.

(** A sleep on anything but a slot of the table or [runin]. *)
Lemma others_sleep f chan pri : fine true f -> chan <> 0 -> chan <> runin_chan ->
  (forall k, (k < Z.to_nat NPROC)%nat -> chan <> proc_chan k) -> 0 <= pri < 256 ->
  exists r s, sleep chan pri (ps f) = Ok (r, s) /\ others true f (match r with ToQsav => true | ToSwtch => false end) (set_ps s f).
Proof.
  intros [(R & Q & So) _ _ _ _] H0 Hr Hk Hp.
  destruct (sound_sleep runout_chan chan pri (ps f) R Q So H0 Hr) as (r & s & R' & Q' & E & S' & L & M & H); [intros k Hlt Ec; by destruct (Hk k Hlt)|done|].
  exists r, s. split; [done|]. split; [by exists R', Q'|]. split; [|done]. split; [done|]. intros i x Hx.
  destruct (H i x Hx) as (x' & Hx' & E1 & E2 & E3 & E4 & E5 & E6). exists x'. split; [done|]. split_and!; try done; try tauto.
  intros W. destruct (E5 W) as [?|[_ Ec]]; [done|]. destruct (Hk i); [|done].
  pose proof (so_len _ _ _ _ So). apply lookup_lt_Some in Hx. lia.
Qed.

(** The dispatcher: with nobody on the processor, a runnable process gets it. *)
Lemma others_switch f sigs : fine false f -> length sigs = 17%nat ->
  exists r s, swtch_turn (ps f) = Ok (r, s) /\
    match r with
    | None => others false f false (set_ps s f)
    | Some (p, _) => others false f true (set_ps (set_u_signal sigs (set_u_procp p s)) f)
    end.
Proof.
  intros [(R & Q & So) _ _ _ _] Hl. destruct (swtch_spec (ps f) R Q (so_queues _ _ _ _ So)) as (r & s & E & H). exists r, s. split; [done|].
  destruct r as [[p ssav]|].
  2:{ destruct H as [-> _]. split; [|split; [apply calm_self|done]]. exists R, Q. destruct So as [? [] ? ? ? ? ? ? ?]. by split. }
  destruct H as (a & b & n & HR & (y & Hy & Ey & _) & _ & _ & _ & Hq & Hoff & _ & _ & _ & x & x' & Hx & Hx' & _ & _ & (L & D & M & _ & _)).
  assert (forall i z', proc_tab s !! i = Some z' -> exists z, proc_tab (ps f) !! i = Some z /\ p_stat z' = p_stat z /\ p_wchan z' = p_wchan z /\
    p_sig z' = p_sig z /\ calm_entry i z z') as B.
  { intros i z' Hz'. destruct (lookup_lt_is_Some_2 (proc_tab (ps f)) i) as [z Hz]; [rewrite <- L; by eapply lookup_lt_Some|].
    destruct (D i z Hz) as (w & Hw & Ew). rewrite Hz' in Hw. injection Hw as <-. exists z. split; [done|].
    assert (p_stat z' = p_stat z /\ p_wchan z' = p_wchan z /\ p_sig z' = p_sig z /\ p_pid z' = p_pid z /\ p_ppid z' = p_ppid z /\ estate z' = estate z)
      as (G1 & G2 & G3 & G4 & G5 & G6).
    { destruct (unlinked_fields _ _ Ew) as (-> & -> & -> & -> & ->). unfold estate, xp_xstat, xp_utime, xp_stime.
      destruct (unlinked_estate _ _ Ew) as (-> & -> & ->). by destruct (decide (i = p)). }
    split_and!; try done. unfold calm_entry, waiting. by rewrite G1, G2, G4, G5, G6. }
  split; [|split; [split; [done|]|by rewrite <- M]].
  - exists (a ++ b), Q. split.
    + cbn. rewrite L. apply So.
    + by destruct Hq.
    + intros i z' Hz' Hs. destruct (B i z' Hz') as (z & Hz & G1 & -> & _). apply (so_asleep _ _ _ _ So); congruence.
    + intros i z' Hz' Hs. destruct (B i z' Hz') as (z & Hz & G1 & _). unfold parked in Hs. rewrite G1 in Hs.
      destruct (so_parked _ _ _ _ So i z Hz Hs) as [H1 H2]. split; [|done]. rewrite HR in H1. set_solver.
    + intros i z' Hz' Hs. destruct (B i z' Hz') as (z & Hz & G1 & -> & _). apply (so_idle _ _ _ _ So i z Hz). by rewrite <- G1.
    + intros i Hi. destruct (so_idl _ _ _ _ So i Hi) as (z & Hz & Ei). destruct (D i z Hz) as (z' & Hz' & _). exists z'. split; [done|].
      destruct (B i z' Hz') as (w & Hw & -> & _). congruence.
    + intros i z' Hz' Hs. destruct (B i z' Hz') as (z & Hz & G1 & G2 & _). unfold own_chan. rewrite G2. apply (so_own _ _ _ _ So i z Hz). by rewrite <- G1.
    + split; [|done]. intros i z' Hz'. destruct (B i z' Hz') as (z & Hz & _ & _ & -> & _). exact (proj1 (so_sigs _ _ _ _ So) i z Hz).
    + intros _. split; [done|]. exists x'. split; [done|]. destruct (B p x' Hx') as (z & Hz & G1 & G2 & _). rewrite Hy in Hz. injection Hz as <-.
      split; [by rewrite G1|]. rewrite G2. apply (q_run_idle _ _ _ _ (so_queues _ _ _ _ So) p y); [rewrite HR; set_solver|done].
  - intros i z Hz. destruct (D i z Hz) as (z' & Hz' & _). exists z'. split; [done|]. destruct (B i z' Hz') as (w & Hw & _ & _ & _ & C). by simplify_eq.
Qed.
End Steps.

(** ** A family *)

Module Family1.
(** The two flags one after the other, as in the source, in a bucket that slots of the table hash
    to. *)
Definition runin_chan : Z := 6144.
Definition runout_chan : Z := 6145.
Definition proc_chan (i : nat) : Z := 4096 + 12 * Z.of_nat i.

(** The swapper, process 1, a shell with id 5 and its child 6, which runs; two free slots. *)
Definition entry (stat pid ppid : Z) : proc := Proc stat 1 50 0 0 20 0 0 0 pid ppid 0 0 0 None None 0.
Definition table : list proc := [entry SRUN 0 0; entry SRUN 1 0; entry SRUN 5 1; set_p_size 2048 (set_p_addr 10240 (entry SRUN 6 5)); entry 0 0 0; entry 0 0 0].
Definition area : uarea := Uarea 0 0 0 0 0 30 40 1 2 0.
Definition start : fam :=
  Fam (Sys table (replicate 64 None) (Some 2%nat) 6 0 0 0 50 0 0 3 (replicate 17 0)) (replicate 6 area)
    [Map 1024 20480; Map 0 0; Map 0 0] [Map 500 100; Map 0 0; Map 0 0] 10240 1000 [].
Abbreviation wait := (Family.wait runin_chan runout_chan proc_chan).
Abbreviation exit_end := (Family.exit_end runin_chan runout_chan proc_chan).
Abbreviation step := (Kin.step runin_chan runout_chan proc_chan).
Abbreviation fine := (Kin.fine runin_chan proc_chan).

(** The child exits with status 3; the shell gets the processor and waits. *)
Definition after_exit : fam := match exit_end (exit_status 3) (exit_begin start) with Ok f => f | _ => start end.
Definition shell : fam :=
  match swtch_turn (ps after_exit) with
  | Ok (Some (p, _), s) => set_ps (set_u_signal (replicate 17 0) (set_u_procp p s)) after_exit
  | _ => start
  end.
Definition reaped : fam := match wait shell with Ok (_, f) => f | _ => start end.

#[global] Instance objects : layout runin_chan proc_chan.
Proof. split; unfold runin_chan, proc_chan, NPROC; lia. Qed.

(** A slot of the table, one by one. *)
Ltac slot H := cbn in H; repeat (match type of H with _ !! ?i = _ => destruct i as [|i]; cbn in H end; [injection H as <-|]); [..|done].

Lemma start_queues : wfq (ps start) [2%nat] (fun _ => []).
Proof.
  split; try done.
  - split; [done|]. by exists (entry SRUN 5 1).
  - apply NoDup_singleton.
  - intros p x ->%list_elem_of_singleton [= <-]. done.
  - intros i Hi. exists None. split; [|done]. cbn [slpque ps start]. apply lookup_replicate_2. lia.
  - intros i _. apply NoDup_nil_2.
  - intros i p x _ H. by apply not_elem_of_nil in H.
Qed.

Lemma start_tree : tree proc_chan table.
Proof.
  split.
  - by eexists.
  - by eexists.
  - intros i x Hx. slot Hx; done.
  - intros i x Hx. slot Hx; done.
  - intros i j x y Hx Hy. slot Hx; slot Hy; done.
  - intros i x Hx. slot Hx; try done; intros _; [exists 0%nat|exists 0%nat|exists 1%nat|exists 2%nat]; by eexists.
  - intros i x c y Hx [W _]. slot Hx; done.
Qed.

Lemma start_fine : fine true start.
Proof.
  split; [|exact start_tree|unfold mpid_ok; cbn; lia|done|constructor]. exists [2%nat], (fun _ => []). split.
  - cbn. unfold NPROC. lia.
  - exact start_queues.
  - intros i x Hx. slot Hx; done.
  - intros i x Hx [Hp|[Hp|[Hp|Hp]]]; slot Hx; try done; (split; [|intros j _; apply not_elem_of_nil]); rewrite list_elem_of_singleton; done.
  - intros i x Hx. slot Hx; done.
  - intros i Hi. by apply not_elem_of_nil in Hi.
  - intros i x Hx _. apply own_0. slot Hx; done.
  - split; [|done]. intros i x Hx. slot Hx; done.
  - intros _. split; [split; [by rewrite list_elem_of_singleton|intros j _; apply not_elem_of_nil]|]. by eexists.
Qed.

Lemma begun_fine : fine true (exit_begin start).
Proof. refine (proj1 (step_fine runin_chan runout_chan proc_chan true start true (exit_begin start) start_fine _)). constructor. by apply not_elem_of_nil. Qed.

Lemma exits : exit_end (exit_status 3) (exit_begin start) = Ok after_exit.
Proof. vm_compute. reflexivity. Qed.

Lemma after_exit_fine : fine false after_exit.
Proof. exact (proj1 (exits_ok runin_chan runout_chan proc_chan (exit_status 3) (exit_begin start) after_exit begun_fine ltac:(done) ltac:(done) exits)). Qed.

Lemma exit_steps : rtc step (true, start) (false, after_exit).
Proof.
  eapply rtc_l; [apply Exiting; by apply not_elem_of_nil|]. apply rtc_once. apply (Exits _ _ _ (exit_status 3)); [by apply not_elem_of_nil|done|done|exact exits].
Qed.

(** The dispatcher, then the [wait] of the shell. *)
Lemma shell_waits : rtc step (false, after_exit) (true, reaped).
Proof.
  eapply rtc_l; [apply (Runs _ _ _ false after_exit true shell)|].
  - destruct (others_switch runin_chan proc_chan after_exit (replicate 17 0) after_exit_fine ltac:(done)) as (r & s & E & H).
    assert (exists b, r = Some (2%nat, b)) as [b ->] by (vm_compute in E; injection E as <- _; by eexists). unfold shell. rewrite E. exact H.
  - apply rtc_once. apply (Waits _ _ _ false shell None reaped); [by apply not_elem_of_nil|]. vm_compute. reflexivity.
Qed.
End Family1.

Lemma family_kept_witness : Family1.fine true Family1.reaped.
Proof.
  apply (family_kept Family1.runin_chan Family1.runout_chan Family1.proc_chan
    true Family1.start true Family1.reaped Family1.start_fine).
  etrans; [exact Family1.exit_steps|exact Family1.shell_waits].
Defined.

Lemma status_delivered_witness : (areas Family1.reaped !! 2%nat) = Some (add_ctimes 31 42 (set_rval 6 (exit_status 3) Family1.area)) /\
  exists x w, proc_tab (ps Family1.start) !! 3%nat = Some x /\ areas Family1.start !! 3%nat = Some w.
Proof.
  split; [vm_compute; reflexivity|].
  destruct (status_delivered Family1.runin_chan Family1.runout_chan Family1.proc_chan
    (exit_status 3) (exit_begin Family1.start) Family1.after_exit true Family1.reaped Family1.begun_fine ltac:(done) ltac:(done) Family1.exits Family1.shell_waits) as (x & w & Hx & Hw & _).
  by exists x, w.
Defined.

(** A user with [MAXUPRC] processes gets one more. *)
Definition crowd : fam :=
  let mine := (fun i => set_p_uid 7 (Family1.entry SRUN (10 + Z.of_nat i) 1)) <$> seq 0 (Z.to_nat MAXUPRC) in
  let tab := Family1.entry SRUN 0 0 :: Family1.entry SRUN 1 0 :: mine ++ replicate 3 (Family1.entry 0 0 0) in
  Fam (Sys tab (replicate 64 None) None 34 0 0 0 50 0 0 2 (replicate 17 0))
    (replicate 30 (Uarea 7 0 0 0 0 0 0 0 0 0)) [Map 0 0] [Map 500 100; Map 0 0; Map 0 0] 0 0 [].

Example fork_past_limit :
  match fork true 40960 crowd with
  | Ok f => (r_val1 <$> areas f !! 2%nat, length (List.filter (fun x => (p_uid x =? 7) && negb (p_stat x =? 0)) (proc_tab (ps f))))
  | _ => (None, 0%nat)
  end = (Some 35, 26%nat).
Proof. vm_compute. reflexivity. Qed.
