(* ===== verification/Args.v ===== *)
(** * Arguments of a new program: [exece] and the sizes of [getxfile] ([kernel/sys1.c])

    [exece] reads the caller's strings byte by byte through the caller's map into two blocks of
    the swap area, builds the new image, and then writes the argument count, the vectors and the
    strings at the base of the new stack through the new map.  The caller's image is gone in
    between, so all that reaches the program went through the blocks.

    The blocks are here what the buffer cache makes of them: [getblk] gives a buffer that holds
    whatever it held ([junk]), [bawrite] puts its contents on the area and [bread] gets them back.
    A transfer does not fail, as the code does not ask. *)

From S2P Require Import Prelude Param Bytes Utab Ucopy.

Definition NCARGS : Z := 5120.
Definition SSIZE : Z := PGSZ.
Definition BADDR : Z := 8.
Definition E2BIG : Z := 7.
Definition EFAULT : Z := 14.
Definition ENOEXEC : Z := 8.
Definition ETXTBSY : Z := 26.
Definition FMAGIC : Z := 0x4245534d0107.
Definition NMAGIC : Z := 0x4245534d0108.

(** ** Staging, lines 76-137

    [nc] bytes so far; the buffer in hand with its block number, and the cursor in it as a byte
    number; the blocks written. *)
Record sfile := Sfile { nc : Z; cp : Z; bp : option (Z * list Z); swp : Z -> list Z }.

Definition block_out (f : sfile) : Z -> list Z :=
  match bp f with
  | Some (b, l) => fun x => if x =? b then l else swp f x
  | None => swp f
  end.

Section Staging.
Context (upt : list Z) (m : mem) (junk : Z -> list Z) (first : Z).   (* [first] is [swplo + bno] *)

Definition put_arg (c : Z) (f : sfile) : option sfile :=
  let f :=
    if Z.rem (nc f) BSIZE =? 0 then
      let b := first + Z.quot (nc f) BSIZE in Sfile (nc f) 0 (Some (b, junk b)) (block_out f)
    else f in
  '(b, l) ← bp f;
  if cp f <? BSIZE then Some (Sfile (nc f + 1) (cp f + 1) (Some (b, putb l (cp f) c)) (swp f)) else None.

(** The [do] loop; [inl] is [u.u_error] on the way to [bad].  Fuel: every turn adds a byte. *)
Fixpoint stage_string (fuel : nat) (up e : Z) (f : sfile) : option (Z + sfile) :=
  match fuel with
  | O => None
  | S fuel =>
      let e := if NCARGS - 1 <=? nc f then E2BIG else e in
      c ← fubyte upt m up;
      let e := if c <? 0 then EFAULT else e in
      if negb (e =? 0) then Some (inl e)
      else
        f ← put_arg c f;
        if 0 <? c then stage_string fuel (padd up 1) e f else Some (inr f)
  end.

(** The head of the [for] loop: the next pointer, with [argp], [envp] and [ne] after it;
    [None] breaks. *)
Definition next_arg (argp envp ne : Z) : option (option (Z * Z * Z * Z)) :=
  '(ap, argp) ← (if argp =? 0 then Some (0, argp) else ap ← fuword upt m (fat argp 0); Some (ap, argp + 1));
  if (ap =? 0) && negb (envp =? 0) then
    ap ← fuword upt m (fat envp 0);
    Some (if ap =? 0 then None else Some (ap, 0, envp + 1, ne + 1))
  else Some (if ap =? 0 then None else Some (ap, argp, envp, ne)).

Fixpoint stage_loop (fuel : nat) (argp envp na ne : Z) (f : sfile) : option (Z + (Z * Z * sfile)) :=
  match fuel with
  | O => None
  | S fuel =>
      r ← next_arg argp envp ne;
      match r with
      | None => Some (inr (na, ne, f))
      | Some (ap, argp, envp, ne) =>
          let na := na + 1 in
          let e := if ap =? mone then EFAULT else 0 in
          r ← stage_string (Z.to_nat NCARGS) ap e f;
          match r with
          | inl e => Some (inl e)
          | inr f => stage_loop fuel argp envp na ne f
          end
      end
  end.

(** What staging leaves: the counts, the size rounded up to words, the blocks. *)
Record staged := Staged { g_na : Z; g_ne : Z; g_nc : Z; g_swp : Z -> list Z }.

Definition stage (argp envp : Z) (blocks : Z -> list Z) : option (Z + staged) :=
  let f := Sfile 0 0 None blocks in
  r ← (if argp =? 0 then Some (inr (0, 0, f)) else stage_loop (Z.to_nat NCARGS) argp envp 0 0 f);
  Some (match r with
        | inl e => inl e
        | inr (na, ne, f) => inr (Staged na ne (wtob (btow (nc f))) (block_out f))
        end).

End Staging.

(** The stack that [exece] asks [getxfile] for, in bytes. *)
Definition nargc (g : staged) : Z := g_nc g + (g_na g + 4) * NBPW.

(** ** Sizes of the new image: [getxfile], lines 251-292

    A sum of [int]s that does not fit 41 bits wraps, which is what its tests of [lsize] are
    about. *)
Definition int41 (x : Z) : Z := (x + 2 ^ 40) mod 2 ^ 41 - 2 ^ 40.

(** The fields of [u.u_exdata] that the sizes come from. *)
Record exdata := Exdata { ux_mag : Z; ux_csize : Z; ux_tsize : Z; ux_dsize : Z; ux_bsize : Z }.

(** An impure program has no text of its own; [inl] is [u.u_error]. *)
Definition fold_impure (x : exdata) : Z + exdata :=
  if ux_mag x =? FMAGIC then
    let lsize := int41 (int41 (ux_csize x + ux_tsize x) + ux_dsize x) in
    if lsize <? 0 then inl ENOMEM else inr (Exdata (ux_mag x) 0 0 lsize (ux_bsize x))
  else if negb (ux_mag x =? NMAGIC) then inl ENOEXEC
  else inr x.

(** [busy] is [(ip->i_flag & ITEXT) == 0 && ip->i_count != 1]; the result is [ts], [ds] and [ss]. *)
Definition xsizes (x : exdata) (busy : bool) (nargc : Z) : Z + (Z * Z * Z) :=
  if (ux_csize x <? 0) || (ux_tsize x <? 0) || (ux_dsize x <? 0) || (ux_bsize x <? 0) then inl ENOEXEC
  else
    match fold_impure x with
    | inl e => inl e
    | inr x =>
        if negb (ux_tsize x =? 0) && busy then inl ETXTBSY
        else
          let ts := if negb (ux_tsize x =? 0) then pground (BADDR + btow (int41 (ux_csize x + ux_tsize x))) else 0 in
          let lsize := int41 (ux_dsize x + ux_bsize x) in
          if lsize <? 0 then inl ENOMEM
          else
            let ds := pground (btow lsize + (if negb (ts =? 0) then 0 else BADDR)) in
            let ss := SSIZE + pground (btow nargc) in
            inr (ts, ds, ss)
    end.

(** ** Delivery, lines 173-206 *)

Section Delivery.
Context (upt : list Z) (first : Z) (blocks : Z -> list Z).

(** The cursors of the copy back: bytes taken, place in the buffer, the buffer, [up]. *)
Record dfile := Dfile { d_nc : Z; d_cp : Z; d_bp : option (list Z); d_up : Z }.

(** The [do] loop.  Fuel: every turn takes a byte. *)
Fixpoint give_string (fuel : nat) (d : dfile) (m : mem) : option (dfile * mem) :=
  match fuel with
  | O => None
  | S fuel =>
      let '(cp, bp) :=
        if Z.rem (d_nc d) BSIZE =? 0 then (0, Some (blocks (first + Z.quot (d_nc d) BSIZE)))
        else (d_cp d, d_bp d) in
      l ← bp;
      if BSIZE <=? cp then None
      else
        let c := getb l cp in
        '(_, m) ← subyte upt (d_up d) c m;
        let d := Dfile (d_nc d + 1) (cp + 1) (Some l) (padd (d_up d) 1) in
        if negb (Z.land c 255 =? 0) then give_string fuel d m else Some (d, m)
  end.

Fixpoint give_loop (fuel : nat) (ap na ne : Z) (d : dfile) (m : mem) : option (Z * dfile * mem) :=
  match fuel with
  | O => None
  | S fuel =>
      let ap := ap + 1 in
      '(ap, m) ← (if na =? ne then '(_, m) ← suword upt ap 0 m; Some (ap + 1, m) else Some (ap, m));
      let na := na - 1 in
      if na <? 0 then Some (ap, d, m)
      else
        '(_, m) ← suword upt ap (d_up d) m;
        '(d, m) ← give_string (Z.to_nat NCARGS) d m;
        give_loop fuel ap na ne d m
  end.

(** The new [r15], and memory. *)
Definition deliver (na ne : Z) (m : mem) : option (Z * mem) :=
  let ap := USTKPAGE * PGSZ in
  let ucp := ap + 1 + na + 2 in
  let up := fat ucp 0 in
  '(_, m) ← suword upt ap (na - ne) m;
  '(ap, d, m) ← give_loop (Z.to_nat NCARGS) ap na ne (Dfile 0 0 None up) m;
  '(_, m) ← suword upt ap 0 m;
  let ucp := ptrword (d_up d) in
  let ucp := if negb (ptrbyte (d_up d) =? 5) then ucp + 1 else ucp in
  '(_, m) ← suword upt ucp 0 m;
  Some (ucp + 1, m).

End Delivery.

(** ** Strings and vectors in a user's memory *)

Definition terminated (s : list Z) : list Z := s ++ [0].
Definition packed (ss : list (list Z)) : list Z := concat (terminated <$> ss).

(** The C string [s] from byte [B], as the user's own loads find it. *)
Definition string_at (upt : list Z) (m : mem) (B : Z) (s : list Z) : Prop :=
  0 <= B /\ B + Z.of_nat (length s) < NBPW * KREACH /\ Forall (fun c => 0 < c < 256) s /\
  forall i c, terminated s !! i = Some c -> fubyte upt m (fat_at (B + Z.of_nat i)) = Some c.

(** A vector of pointers to strings from word [a], closed by [NULL]. *)
Fixpoint vector_at (upt : list Z) (m : mem) (a : Z) (ss : list (list Z)) : Prop :=
  match ss with
  | [] => fuword upt m (fat a 0) = Some 0
  | s :: ss =>
      (exists B, fuword upt m (fat a 0) = Some (fat_at B) /\ string_at upt m B s) /\ vector_at upt m (a + 1) ss
  end.

(** A null environment is an empty one. *)
Definition vector_or_null (upt : list Z) (m : mem) (a : Z) (ss : list (list Z)) : Prop :=
  if a =? 0 then ss = [] else vector_at upt m a ss.

Lemma packed_cons s ss : packed (s :: ss) = terminated s ++ packed ss.
Proof. done. Qed.

Lemma packed_app ss ss' : packed (ss ++ ss') = packed ss ++ packed ss'.
Proof. unfold packed. by rewrite fmap_app, concat_app. Qed.

Lemma packed_length ss : (length ss <= length (packed ss))%nat.
Proof.
  induction ss as [|s ss IH]; [done|]. rewrite packed_cons. unfold terminated. rewrite !length_app. simpl. lia.
Qed.

(** ** The bytes staged so far *)

Section Staged.
Context (junk : Z -> list Z) (first : Z) (Hjunk : forall b, length (junk b) = Z.to_nat BSIZEW).

(** Byte [j] of the arguments is byte [j mod BSIZE] of block [j / BSIZE]. *)
Definition on_blocks (blocks : Z -> list Z) (bs : list Z) : Prop :=
  forall j c, bs !! j = Some c -> getb (blocks (first + Z.of_nat j / BSIZE)) (Z.of_nat j mod BSIZE) = c.

Definition holds (f : sfile) (bs : list Z) : Prop :=
  nc f = Z.of_nat (length bs) /\ on_blocks (block_out f) bs /\
  match bp f with
  | None => bs = []
  | Some (b, l) =>
      0 < nc f /\ b = first + (nc f - 1) / BSIZE /\ length l = Z.to_nat BSIZEW /\ cp f = (nc f - 1) mod BSIZE + 1
  end.

Lemma in_block l k : length l = Z.to_nat BSIZEW -> 0 <= k < BSIZE -> inside l k.
Proof. unfold inside, NBPW, BSIZEW, BSIZE. intros -> Hk. lia. Qed.

(** One byte more, into block [n / BSIZE] whose earlier bytes [l] has. *)
Lemma on_blocks_snoc blocks blocks' bs c l : 0 <= c < 256 ->
  length l = Z.to_nat BSIZEW ->
  blocks' (first + Z.of_nat (length bs) / BSIZE) = putb l (Z.of_nat (length bs) mod BSIZE) c ->
  (forall q, 0 <= q < Z.of_nat (length bs) / BSIZE -> blocks' (first + q) = blocks (first + q)) ->
  (Z.of_nat (length bs) mod BSIZE <> 0 -> blocks (first + Z.of_nat (length bs) / BSIZE) = l) ->
  on_blocks blocks bs -> on_blocks blocks' (bs ++ [c]).
Proof.
  intros Hc Hl Hnew Hold Hsame H j x Hj. set (n := Z.of_nat (length bs)) in *.
  pose proof (div_mod_range n BSIZE ltac:(done)) as [Hn1 Hn2].
  pose proof (div_mod_range (Z.of_nat j) BSIZE ltac:(done)) as [Hj1 Hj2].
  apply lookup_app_Some in Hj as [Hj|[Hge Hj]].
  - pose proof (lookup_lt_Some _ _ _ Hj) as Hlt. unfold BSIZE in *.
    pose proof (Z.div_mod (Z.of_nat j) 3072). pose proof (Z.div_mod n 3072).
    destruct (Z.eqb_spec (Z.of_nat j / 3072) (n / 3072)) as [E|E].
    + rewrite E, Hnew, getb_putb by (by apply in_block). destruct (Z.eqb_spec (Z.of_nat j mod 3072) (n mod 3072)); [lia|].
      rewrite <- Hsame, <- E by lia. by apply H.
    + rewrite Hold by lia. by apply H.
  - apply list_lookup_singleton_Some in Hj as [Hj <-]. assert (Z.of_nat j = n) as E by lia.
    rewrite E, Hnew, getb_putb, Z.eqb_refl by (by apply in_block).
    change 255 with (Z.ones 8). rewrite Z.land_ones by lia. apply Z.mod_small. lia.
Qed.

Lemma put_arg_spec c f bs : 0 <= c < 256 -> holds f bs ->
  exists f', put_arg junk first c f = Some f' /\ holds f' (bs ++ [c]).
Proof.
  intros Hc (Hn & Hb & Hbp). set (n := Z.of_nat (length bs)) in *.
  pose proof (div_mod_range n BSIZE ltac:(done)) as [Hn1 Hn2].
  unfold put_arg. rewrite Hn, Z.rem_mod_nonneg, Z.quot_div_nonneg by (unfold BSIZE; lia).
  assert (forall k, k = n mod BSIZE -> (n + 1 - 1) / BSIZE = n / BSIZE /\ k + 1 = (n + 1 - 1) mod BSIZE + 1) as Hk.
  { intros k ->. by replace (n + 1 - 1) with n by lia. }
  destruct (Z.eqb_spec (n mod BSIZE) 0) as [E|E].
  - cbn [bp mbind option_bind cp]. eexists. split; [reflexivity|].
    split_and!; cbn [nc bp cp]; [rewrite length_snoc; lia| |].
    + eapply (on_blocks_snoc (block_out f) _ bs c (junk (first + n / BSIZE))); try done; unfold block_out at 1; cbn [bp].
      * rewrite Z.eqb_refl. fold n. by rewrite E.
      * intros q Hq. destruct (Z.eqb_spec (first + q) (first + n / BSIZE)); [fold n in Hq; lia|done].
    + destruct (Hk 0) as [-> <-]; [done|]. rewrite putb_len. split_and!; try done. lia.
  - destruct (bp f) as [[b l]|] eqn:Eb; [|by subst bs]. destruct Hbp as (Hp & Hbb & Hl & Hcp).
    assert ((n - 1) / BSIZE = n / BSIZE /\ (n - 1) mod BSIZE = n mod BSIZE - 1) as [E1 E2].
    { unfold BSIZE in *. pose proof (Z.div_mod n 3072). split; symmetry.
      - apply (Z.div_unique_pos _ _ _ (n mod 3072 - 1)); lia.
      - apply (Z.mod_unique_pos _ _ (n / 3072)); lia. }
    rewrite Hn, E1 in Hbb. rewrite Hn, E2 in Hcp. cbn [mbind option_bind].
    destruct (Z.ltb_spec (cp f) BSIZE); [|lia]. eexists. split; [reflexivity|].
    split_and!; cbn [nc bp cp]; [rewrite length_snoc; lia| |].
    + eapply (on_blocks_snoc (block_out f) _ bs c l); try done; unfold block_out; cbn [bp swp]; rewrite ?Eb, Hbb.
      * rewrite Z.eqb_refl. fold n. f_equal. lia.
      * intros q Hq. fold n in Hq. by destruct (Z.eqb_spec (first + q) (first + n / BSIZE)); [lia|].
      * intros _. by rewrite Z.eqb_refl.
    + rewrite Hn. destruct (Hk (cp f)) as [-> <-]; [lia|]. rewrite putb_len. split_and!; try done; lia.
Qed.

Section Caller.
Context (upt : list Z) (m : mem).

Lemma string_at_head B c s : string_at upt m B (c :: s) ->
  0 < c < 256 /\ fubyte upt m (fat_at B) = Some c /\ padd (fat_at B) 1 = fat_at (B + 1) /\ string_at upt m (B + 1) s.
Proof.
  intros (H0 & Hl & Hc & Hs). cbn [length] in Hl. apply Forall_cons in Hc as [Hc Hf]. split; [lia|]. split_and!.
  - rewrite <- (Z.add_0_r B). by apply (Hs 0%nat).
  - apply padd_at. unfold nameable. lia.
  - split; [lia|]. split_and!; [lia|done|]. intros i x Hi. replace (B + 1 + Z.of_nat i) with (B + Z.of_nat (S i)) by lia. by apply Hs.
Qed.

Lemma string_at_end B : string_at upt m B [] -> fubyte upt m (fat_at B) = Some 0.
Proof. intros (_ & _ & _ & Hs). rewrite <- (Z.add_0_r B). by apply (Hs 0%nat). Qed.

(** A string is staged if it ends before [NCARGS - 1] bytes are, and refused otherwise. *)
Lemma stage_string_spec s : forall fuel B f bs, holds f bs -> string_at upt m B s ->
  Z.of_nat (length bs) <= NCARGS - 1 -> NCARGS <= Z.of_nat (fuel + length bs) ->
  (Z.of_nat (length (bs ++ terminated s)) <= NCARGS - 1 ->
     exists f', stage_string upt m junk first fuel (fat_at B) 0 f = Some (inr f') /\ holds f' (bs ++ terminated s)) /\
  (NCARGS - 1 < Z.of_nat (length (bs ++ terminated s)) ->
     stage_string upt m junk first fuel (fat_at B) 0 f = Some (inl E2BIG)).
Proof.
  induction s as [|c s IH]; intros fuel B f bs Hf Hs Hlen Hfuel;
    (destruct fuel as [|fuel]; [lia|]); cbn [stage_string]; rewrite (proj1 Hf).
  - rewrite (string_at_end _ Hs). cbn [mbind option_bind]. change (0 <? 0) with false. cbv iota zeta.
    unfold terminated. rewrite !length_app. simpl length. destruct (Z.leb_spec (NCARGS - 1) (Z.of_nat (length bs))).
    + split; [lia|done].
    + split; [|lia]. intros _. destruct (put_arg_spec 0 f bs ltac:(lia) Hf) as (f' & -> & Hf').
      exists f'. split; [done|exact Hf'].
  - destruct (string_at_head _ _ _ Hs) as (Hc & -> & -> & Hs'). cbn [mbind option_bind].
    destruct (Z.ltb_spec c 0); [lia|]. destruct (Z.ltb_spec 0 c); [|lia]. cbv iota zeta.
    replace (bs ++ terminated (c :: s)) with ((bs ++ [c]) ++ terminated s) by (by rewrite <- app_assoc).
    destruct (Z.leb_spec (NCARGS - 1) (Z.of_nat (length bs))).
    + split; [|done]. rewrite !length_app. simpl length. lia.
    + destruct (put_arg_spec c f bs ltac:(lia) Hf) as (f' & -> & Hf'). cbn [mbind option_bind Z.eqb negb].
      apply (IH fuel (B + 1) f' (bs ++ [c])); rewrite ?length_app; simpl length; done || lia.
Qed.

(** ** The two vectors *)

Definition source (argp envp : Z) (args envs : list (list Z)) : Prop :=
  0 <= argp /\ 0 <= envp /\ vector_or_null upt m argp args /\ vector_or_null upt m envp envs.

Lemma fat_at_large B : 0 <= B -> 2 ^ 47 <= fat_at B.
Proof. intros H. unfold fat_at, fat, NBPW. pose proof (div_mod_range B 6). lia. Qed.

Lemma next_arg_spec argp envp ne args envs : source argp envp args envs ->
  match args ++ envs with
  | [] => next_arg upt m argp envp ne = Some None
  | s :: ss =>
      exists B argp' envp' ne' args' envs',
        next_arg upt m argp envp ne = Some (Some (fat_at B, argp', envp', ne')) /\ string_at upt m B s /\
        source argp' envp' args' envs' /\ args' ++ envs' = ss /\
        ne' + Z.of_nat (length envs') = ne + Z.of_nat (length envs)
  end.
Proof.
  intros (Ha & He & Va & Ve). unfold next_arg, vector_or_null in *.
  assert (forall B, (exists s, string_at upt m B s) -> (fat_at B =? 0) = false) as Hnz.
  { intros B HB. apply Z.eqb_neq. assert (0 <= B) by (destruct HB as [? []]; done). pose proof (fat_at_large B). lia. }
  destruct args as [|s args].
  - assert (match (if argp =? 0 then Some (0, argp) else ap ← fuword upt m (fat argp 0); Some (ap, argp + 1)) with
            | Some (ap, _) => ap = 0 | None => False end) as Hap.
    { destruct (argp =? 0); [done|]. cbn [vector_at] in Va. by rewrite Va. }
    destruct (if argp =? 0 then _ else _) as [[ap argp']|]; [|done]. subst ap. cbn [mbind option_bind].
    cbn [app]. change (0 =? 0) with true. cbn [andb]. destruct (Z.eqb_spec envp 0) as [->|Hne]; [by subst envs|]. cbn [negb].
    destruct envs as [|s envs]; cbn [vector_at] in Ve; [by rewrite Ve|].
    destruct Ve as [(B & -> & Hs) Ve]. cbn [mbind option_bind]. rewrite Hnz by eauto.
    exists B, 0, (envp + 1), (ne + 1), [], envs. unfold source. split_and!; try done; try lia.
    + unfold vector_or_null. destruct (Z.eqb_spec (envp + 1) 0); [lia|done].
    + simpl length. lia.
  - destruct (Z.eqb_spec argp 0); [done|]. cbn [vector_at] in Va. destruct Va as [(B & -> & Hs) Va].
    cbn [mbind option_bind app]. rewrite Hnz by eauto. cbn [andb].
    exists B, (argp + 1), envp, ne, args, envs. unfold source. split_and!; try done; try lia.
    unfold vector_or_null. destruct (Z.eqb_spec (argp + 1) 0); [lia|done].
Qed.

Lemma stage_loop_spec : forall fuel argp envp args envs na ne f bs,
  holds f bs -> source argp envp args envs ->
  Z.of_nat (length bs) <= NCARGS - 1 -> NCARGS <= Z.of_nat (fuel + length bs) ->
  (Z.of_nat (length (bs ++ packed (args ++ envs))) <= NCARGS - 1 ->
     exists f', stage_loop upt m junk first fuel argp envp na ne f =
         Some (inr (na + Z.of_nat (length (args ++ envs)), ne + Z.of_nat (length envs), f')) /\
       holds f' (bs ++ packed (args ++ envs))) /\
  (NCARGS - 1 < Z.of_nat (length (bs ++ packed (args ++ envs))) ->
     stage_loop upt m junk first fuel argp envp na ne f = Some (inl E2BIG)).
Proof.
  induction fuel as [|fuel IH]; intros argp envp args envs na ne f bs Hf Hsrc Hlen Hfuel; [lia|].
  pose proof (next_arg_spec argp envp ne args envs Hsrc) as Hn. cbn [stage_loop].
  destruct (args ++ envs) as [|s ss] eqn:Ess.
  { apply app_eq_nil in Ess as [-> ->]. rewrite Hn. cbn [mbind option_bind packed fmap list_fmap concat length].
    rewrite app_nil_r, !Z.add_0_r. split; [intros _; by exists f|lia]. }
  destruct Hn as (B & argp' & envp' & ne' & args' & envs' & -> & Hs & Hsrc' & Happ & Hne). cbn [mbind option_bind].
  assert ((fat_at B =? mone) = false) as ->.
  { apply Z.eqb_neq. pose proof (fat_at_large B (proj1 Hs)). unfold mone. change (Z.ones 41) with (2 ^ 41 - 1). lia. }
  rewrite packed_cons, app_assoc.
  assert (1 <= length (terminated s))%nat by (unfold terminated; rewrite length_app; simpl; lia).
  destruct (stage_string_spec s (Z.to_nat NCARGS) B f bs Hf Hs Hlen) as [Hok Hbig]; [lia|].
  destruct (Z.leb_spec (Z.of_nat (length (bs ++ terminated s))) (NCARGS - 1)) as [Hl|Hl].
  - destruct (Hok Hl) as (f' & -> & Hf'). cbn [mbind option_bind].
    destruct (IH argp' envp' args' envs' (na + 1) ne' f' (bs ++ terminated s) Hf' Hsrc' Hl) as [H1 H2];
      [rewrite length_app; lia|]. rewrite Happ in H1, H2. split; [|exact H2].
    intros Hle. destruct (H1 Hle) as (f'' & -> & Hf''). exists f''. split; [|done]. rewrite Hne. cbn [length].
    by replace (na + Z.of_nat (S (length ss))) with (na + 1 + Z.of_nat (length ss)) by lia.
  - rewrite (Hbig Hl). split; [|done]. rewrite (length_app (bs ++ terminated s)). lia.
Qed.

(** Staging as a whole. *)
Lemma stage_spec argp envp args envs blocks : argp <> 0 -> source argp envp args envs ->
  let bs := packed (args ++ envs) in
  (Z.of_nat (length bs) <= NCARGS - 1 ->
     exists g, stage upt m junk first argp envp blocks = Some (inr g) /\
       g_na g = Z.of_nat (length (args ++ envs)) /\ g_ne g = Z.of_nat (length envs) /\
       g_nc g = 6 * ((Z.of_nat (length bs) + 5) / 6) /\ on_blocks (g_swp g) bs) /\
  (NCARGS - 1 < Z.of_nat (length bs) -> stage upt m junk first argp envp blocks = Some (inl E2BIG)).
Proof.
  intros Hargp Hsrc bs. unfold stage. destruct (Z.eqb_spec argp 0); [done|].
  destruct (stage_loop_spec (Z.to_nat NCARGS) argp envp args envs 0 0 (Sfile 0 0 None blocks) []) as [H1 H2];
    [by split_and!|done|done|done|]. simpl app in H1, H2. fold bs in H1, H2. split; intros Hl.
  - destruct (H1 Hl) as (f & -> & Hnc & Hb & _). eexists. split; [reflexivity|]. cbn [g_na g_ne g_nc g_swp].
    split_and!; try done. unfold wtob, btow. rewrite Hnc, Z.quot_div_nonneg by lia. lia.
  - by rewrite (H2 Hl).
Qed.
End Caller.
End Staged.
