(* ===== verification/Exec.v ===== *)
(** * Arguments delivered: what [exece] leaves on the new stack

    The bytes staged by [Args] written back through the new map.  Only the words of the argument
    block change; they form the two vectors that the caller passed. *)

From S2P Require Import Prelude Param Bytes Utab Ucopy Args.

Lemma lookup_after {A} (l1 l2 : list A) i : (l1 ++ l2) !! (length l1 + i)%nat = l2 !! i.
Proof. rewrite lookup_app_r by lia. f_equal. lia. Qed.

(** ** Writes to the block

    The block has words [lo, hi) of the new map.  [area a vs B cs]: words [vs] were stored from
    word [a], bytes [cs] from byte [B], and nothing else. *)

Section Block.
Context (upt : list Z) (lo hi : Z) (Hlo : 0 < lo) (Hhi : hi <= 32768) (Hreach : reachable upt lo hi)
  (Hinj : forall v v', lo <= v < hi -> lo <= v' < hi -> utr upt v = utr upt v' -> v = v').

Definition area (a : Z) (vs : list Z) (B : Z) (cs : list Z) (m m' : mem) : Prop :=
  words (pm m') /\
  (forall X, 6 * lo <= X < 6 * hi ->
     view_byte (utr upt) (pm m') X =
       if (6 * a <=? X) && (X <? 6 * (a + Z.of_nat (length vs))) then byte_of (vs !!! Z.to_nat (X / 6 - a)) (5 - X mod 6)
       else if (B <=? X) && (X <? B + Z.of_nat (length cs)) then cs !!! Z.to_nat (X - B)
       else view_byte (utr upt) (pm m) X) /\
  (forall pa, (forall v, lo <= v < hi -> utr upt v <> pa) -> pm m' pa = pm m pa).

Lemma area_refl a B m : words (pm m) -> area a [] B [] m m.
Proof. intros Hm. split_and!; try done. intros X HX. simpl length. bool_cases; simpl; lia || done. Qed.

Lemma area_trans a vs B cs vs' cs' m m1 m2 :
  6 * (a + Z.of_nat (length (vs ++ vs'))) <= B -> area a vs B cs m m1 ->
  area (a + Z.of_nat (length vs)) vs' (B + Z.of_nat (length cs)) cs' m1 m2 -> area a (vs ++ vs') B (cs ++ cs') m m2.
Proof.
  rewrite length_app. intros HB (Hw1 & H1 & F1) (Hw2 & H2 & F2).
  split_and!; [done| |by intros pa Hpa; rewrite F2, F1].
  intros X HX. rewrite H2, H1, !length_app by done. pose proof (div_mod_range X 6).
  destruct (Z.leb_spec (6 * (a + Z.of_nat (length vs))) X), (Z.ltb_spec X (6 * (a + Z.of_nat (length vs) + Z.of_nat (length vs')))),
    (Z.leb_spec (6 * a) X), (Z.ltb_spec X (6 * (a + Z.of_nat (length vs)))),
    (Z.ltb_spec X (6 * (a + Z.of_nat (length vs + length vs')))); cbn [andb]; try lia.
  1: { f_equal. rewrite lookup_total_app_r by lia. f_equal. lia. }
  all: destruct (Z.leb_spec (B + Z.of_nat (length cs)) X), (Z.ltb_spec X (B + Z.of_nat (length cs) + Z.of_nat (length cs'))),
    (Z.leb_spec B X), (Z.ltb_spec X (B + Z.of_nat (length cs))), (Z.ltb_spec X (B + Z.of_nat (length cs + length cs')));
    cbn [andb]; try lia; try done.
  all: (rewrite lookup_total_app_l by lia; done) || (rewrite lookup_total_app_r by lia; f_equal; lia).
Qed.

Lemma suword_area v x B m : lo <= v < hi -> word x -> words (pm m) ->
  exists m', suword upt v x m = Some (0, m') /\ area v [x] B [] m m'.
Proof.
  intros Hv Hx Hm. assert (6 * v / 6 = v) as Ev by (rewrite Z.mul_comm; by apply Z.div_mul).
  assert (suword upt v x m = suword upt (fat_at (6 * v)) x m) as ->.
  { unfold suword. rewrite ptrword_at, Ev by (unfold nameable, NBPW, KREACH; lia).
    unfold ptrword. change 32767 with (Z.ones 15). by rewrite Z.land_ones, Z.mod_small by lia. }
  rewrite (suword_at upt lo hi) by (done || lia). rewrite Ev. eexists. split; [reflexivity|]. split_and!; cbn [pm].
  - by apply store_words.
  - intros X HX. pose proof (div_mod_range X 6). unfold view_byte at 1. rewrite (load_store (utr upt) lo hi) by (done || lia).
    simpl length. unfold view_byte. destruct (Z.eqb_spec (X / 6) v) as [E|E].
    + replace (X / 6 - v) with 0 by lia. bool_cases; simpl; lia || done.
    + bool_cases; simpl; lia || done.
  - intros pa Hpa. by eapply store_frame.
Qed.

Lemma subyte_area B c a m : 6 * lo <= B < 6 * hi -> 0 <= c < 256 -> words (pm m) ->
  exists m', subyte upt (fat_at B) c m = Some (0, m') /\ area a [] B [c] m m'.
Proof.
  intros HB Hc Hm. rewrite (subyte_at upt lo hi) by (done || lia). pose proof (div_mod_range B 6).
  eexists. split; [reflexivity|]. split_and!; cbn [pm].
  - apply store_words; [done|]. apply set_byte_word; [by apply load_word|lia].
  - intros X HX. pose proof (div_mod_range X 6). unfold view_byte at 1. rewrite (load_store (utr upt) lo hi) by (done || lia).
    simpl length. pose proof (Z.div_mod X 6). pose proof (Z.div_mod B 6). destruct (Z.eqb_spec (X / 6) (B / 6)) as [E|E].
    + rewrite byte_set_byte by lia. unfold view_byte. rewrite <- E. destruct (Z.eqb_spec (5 - X mod 6) (5 - B mod 6)).
      * assert (X = B) as -> by lia. replace (B - B) with 0 by lia. bool_cases; simpl; try lia;
          change 255 with (Z.ones 8); rewrite Z.land_ones by lia; apply Z.mod_small; lia.
      * bool_cases; simpl; lia || done.
    + unfold view_byte. bool_cases; simpl; try lia; try done.
  - intros pa Hpa. eapply store_frame; [|done]. lia.
Qed.

(** ** The strings *)

Section Strings.
Context (first : Z) (blocks : Z -> list Z) (bs : list Z) (Hbs : on_blocks first blocks bs)
  (Hbyte : Forall (fun c => 0 <= c < 256) bs).

(** [n] bytes are taken and the next goes to byte [B]. *)
Definition cursor (d : dfile) (n B : Z) : Prop :=
  d_nc d = n /\ d_up d = fat_at B /\
  (n mod BSIZE <> 0 -> d_cp d = n mod BSIZE /\ d_bp d = Some (blocks (first + n / BSIZE))).

Lemma next_byte n : 0 <= n -> (n + 1) mod BSIZE <> 0 ->
  (n + 1) mod BSIZE = n mod BSIZE + 1 /\ (n + 1) / BSIZE = n / BSIZE.
Proof.
  unfold BSIZE. intros Hn H. pose proof (Z.div_mod n 3072). pose proof (div_mod_range n 3072).
  destruct (Z.eqb_spec (n mod 3072) 3071) as [E|E].
  - destruct H. symmetry. apply (Z.mod_unique_pos _ _ (n / 3072 + 1)); lia.
  - split; symmetry; [apply (Z.mod_unique_pos _ _ (n / 3072))|apply (Z.div_unique_pos _ _ _ (n mod 3072 + 1))]; lia.
Qed.

(** One turn of the [do] loop. *)
Lemma give_byte fuel d n B c a m : cursor d (Z.of_nat n) B -> bs !! n = Some c -> 6 * lo <= B < 6 * hi ->
  words (pm m) ->
  exists d' m', area a [] B [c] m m' /\ cursor d' (Z.of_nat n + 1) (B + 1) /\
    give_string upt first blocks (S fuel) d m =
      if negb (c =? 0) then give_string upt first blocks fuel d' m' else Some (d', m').
Proof.
  intros (Hn & Hup & Hin) Hc HB Hm. pose proof (Hbs n c Hc) as Hg.
  assert (0 <= c < 256) as Hr by (rewrite Forall_lookup in Hbyte; by eapply Hbyte).
  destruct (subyte_area B c a m HB Hr Hm) as (m' & E & Ha).
  set (k := Z.of_nat n) in *. pose proof (div_mod_range k BSIZE ltac:(done)) as [_ Hk].
  exists (Dfile (k + 1) (k mod BSIZE + 1) (Some (blocks (first + k / BSIZE))) (fat_at (B + 1))), m'.
  split; [done|]. split.
  - split_and!; try done. intros H. destruct (next_byte k) as [-> ->]; [lia|done|]. done.
  - cbn [give_string]. rewrite Hn, Z.rem_mod_nonneg, Z.quot_div_nonneg by (unfold BSIZE; lia).
    assert ((if k mod BSIZE =? 0 then (0, Some (blocks (first + k / BSIZE))) else (d_cp d, d_bp d)) =
            (k mod BSIZE, Some (blocks (first + k / BSIZE)))) as ->.
    { destruct (Z.eqb_spec (k mod BSIZE) 0) as [->|Hne]; [done|]. by destruct (Hin Hne) as [-> ->]. }
    cbn [mbind option_bind]. destruct (Z.leb_spec BSIZE (k mod BSIZE)); [lia|]. rewrite Hg, Hup, E.
    cbn [mbind option_bind]. rewrite padd_at by (unfold nameable, NBPW, KREACH; lia).
    assert (Z.land c 255 = c) as ->; [|done].
    change 255 with (Z.ones 8). rewrite Z.land_ones by lia. apply Z.mod_small. lia.
Qed.

Lemma give_string_spec s : forall fuel d n B a m, cursor d (Z.of_nat n) B ->
  (forall i c, terminated s !! i = Some c -> bs !! (n + i)%nat = Some c) -> Forall (fun c => 0 < c < 256) s ->
  6 * lo <= B -> 6 * a <= B -> B + Z.of_nat (length (terminated s)) <= 6 * hi -> words (pm m) -> (length s < fuel)%nat ->
  exists d' m', give_string upt first blocks fuel d m = Some (d', m') /\
    cursor d' (Z.of_nat (n + length (terminated s))) (B + Z.of_nat (length (terminated s))) /\
    area a [] B (terminated s) m m'.
Proof.
  unfold terminated. induction s as [|c s IH]; intros fuel d n B a m Hd Hs Hc HB1 Ha1 HB2 Hm Hf;
    (destruct fuel as [|fuel]; [lia|]); rewrite length_app in *; cbn [length app] in *.
  - destruct (give_byte fuel d n B 0 a m) as (d' & m' & Ha & Hd' & ->); [done| |lia|done|].
    { rewrite <- (Nat.add_0_r n). by apply Hs. }
    exists d', m'. split; [done|]. split; [|done]. by replace (Z.of_nat (n + (0 + 1))) with (Z.of_nat n + 1) by lia.
  - apply Forall_cons in Hc as [Hc Hcs]. destruct (give_byte fuel d n B c a m) as (d1 & m1 & Ha & Hd1 & ->); [done| |lia|done|].
    { rewrite <- (Nat.add_0_r n). by apply Hs. }
    destruct (Z.eqb_spec c 0); [lia|]. cbn [negb].
    destruct (IH fuel d1 (S n) (B + 1) a m1) as (d2 & m2 & -> & Hd2 & Ha2);
      [by replace (Z.of_nat (S n)) with (Z.of_nat n + 1) by lia| |done|lia|lia|rewrite ?length_app; cbn [length]; lia|apply Ha|lia|].
    { intros i x Hi. replace (S n + i)%nat with (n + S i)%nat by lia. by apply Hs. }
    rewrite ?length_app in Hd2. cbn [length] in Hd2. exists d2, m2. split; [done|]. split.
    + replace (n + (S (length s) + 1))%nat with (S n + (length s + 1))%nat by lia.
      by replace (B + Z.of_nat (S (length s) + 1)) with (B + 1 + Z.of_nat (length s + 1)) by lia.
    + apply (area_trans a [] B [c] [] (s ++ [0]) m m1 m2); [simpl length; lia|done|]. by rewrite Z.add_0_r.
Qed.

(** ** The vectors

    The words stored for the strings [ss] from byte [B]: a [NULL] where [ne] are left. *)
Fixpoint vec (ne : nat) (B : Z) (ss : list (list Z)) : list Z :=
  (if bool_decide (length ss = ne) then [0] else []) ++
  match ss with
  | [] => []
  | s :: ss => fat_at B :: vec ne (B + Z.of_nat (length (terminated s))) ss
  end.

Definition chars (s : list Z) : Prop := Forall (fun c => 0 < c < 256) s.

Lemma fat_at_word B : 0 <= B < NBPW * KREACH -> word (fat_at B).
Proof.
  unfold NBPW, KREACH, word, WORD, fat_at, fat. intros H. pose proof (div_mod_range B 6). unfold NBPW. lia.
Qed.

(** The [NULL] that may come before a pointer. *)
Lemma null_spec na ne ap B (ss : list (list Z)) m : na = Z.of_nat (length ss) -> words (pm m) ->
  let z := if bool_decide (length ss = ne) then [0] else [] in
  lo <= ap -> ap + Z.of_nat (length z) <= hi ->
  exists m', (if na =? Z.of_nat ne then '(_, m) ← suword upt ap 0 m; Some (ap + 1, m) else Some (ap, m)) =
      Some (ap + Z.of_nat (length z), m') /\ area ap z B [] m m'.
Proof.
  intros -> Hm z H1 H2. subst z. case_bool_decide as E; destruct (Z.eqb_spec (Z.of_nat (length ss)) (Z.of_nat ne)); try lia.
  - cbn [length] in *. destruct (suword_area ap 0 B m) as (m' & -> & Ha); [lia|unfold word, WORD; lia|done|].
    by exists m'.
  - exists m. rewrite Z.add_0_r. split; [done|]. by apply area_refl.
Qed.

Lemma arg_fuel : exists F, Z.to_nat NCARGS = F /\ NCARGS <= Z.of_nat F.
Proof. eexists. split; [reflexivity|lia]. Qed.

Lemma give_loop_spec ne ss : forall fuel ap n B d m, cursor d (Z.of_nat n) B ->
  (forall i c, packed ss !! i = Some c -> bs !! (n + i)%nat = Some c) -> Forall chars ss ->
  Z.of_nat (length (packed ss)) < NCARGS -> (length ss < fuel)%nat -> words (pm m) ->
  lo <= ap + 1 -> 6 * (ap + 1 + Z.of_nat (length (vec ne B ss))) <= B ->
  B + Z.of_nat (length (packed ss)) <= 6 * hi ->
  exists d' m', give_loop upt first blocks fuel ap (Z.of_nat (length ss)) (Z.of_nat ne) d m =
      Some (ap + 1 + Z.of_nat (length (vec ne B ss)), d', m') /\
    cursor d' (Z.of_nat (n + length (packed ss))) (B + Z.of_nat (length (packed ss))) /\
    area (ap + 1) (vec ne B ss) B (packed ss) m m'.
Proof.
  induction ss as [|s ss IH]; intros fuel ap n B d m Hd Hs Hc HN Hf Hm Hap HB1 HB2;
    (destruct fuel as [|fuel]; [lia|]); cbn [give_loop vec] in *; rewrite length_app in HB1; cbv zeta;
    destruct arg_fuel as (F & EF & HF); rewrite EF; clear EF.
  - destruct (null_spec (Z.of_nat 0) ne (ap + 1) B [] m) as (m1 & E & Ha); [done|done|lia|simpl in *; lia|].
    cbn [length] in E |- *. rewrite E. cbn [mbind option_bind]. exists d, m1. rewrite app_nil_r. split; [done|].
    cbn. by rewrite Nat.add_0_r, Z.add_0_r.
  - apply Forall_cons in Hc as [Hc Hcs]. rewrite packed_cons, length_app in HN, HB2.
    set (z := if bool_decide (length (s :: ss) = ne) then [0] else []) in *. cbn [length] in HB1.
    assert (1 <= length (terminated s))%nat as Ht by (unfold terminated; rewrite length_app; simpl; lia).
    destruct (null_spec (Z.of_nat (length (s :: ss))) ne (ap + 1) B (s :: ss) m) as (m1 & E & Ha1); [done|done|lia|fold z; lia|].
    rewrite E. cbn [mbind option_bind]. fold z in Ha1 |- *. clear E. clearbody z.
    destruct (Z.ltb_spec (Z.of_nat (length (s :: ss)) - 1) 0); [cbn [length] in *; lia|].
    rewrite (proj1 (proj2 Hd)).
    destruct (suword_area (ap + 1 + Z.of_nat (length z)) (fat_at B) B m1) as (m2 & -> & Ha2);
      [lia|apply fat_at_word; unfold NBPW, KREACH; lia|apply Ha1|]. cbn [mbind option_bind].
    destruct (give_string_spec s F d n B (ap + 1 + Z.of_nat (length z) + 1) m2) as (d3 & m3 & -> & Hd3 & Ha3);
      [done| |done|lia|lia|lia|apply Ha2|unfold terminated in *; rewrite length_app in *; lia|].
    { intros i c Hi. apply Hs. rewrite packed_cons. by apply lookup_app_l_Some. }
    cbn [mbind option_bind]. replace (Z.of_nat (length (s :: ss)) - 1) with (Z.of_nat (length ss)) by (cbn [length]; lia).
    destruct (IH fuel (ap + 1 + Z.of_nat (length z)) _ _ d3 m3 Hd3) as (d4 & m4 & -> & Hd4 & Ha4);
      [|done|lia|cbn [length] in *; lia|apply Ha3|lia|lia|lia|].
    { intros i c Hi. rewrite <- Nat.add_assoc. apply Hs. rewrite packed_cons.
      by rewrite lookup_after. }
    exists d4, m4. rewrite packed_cons, !length_app. cbn [length]. split; [|split].
    + do 2 f_equal. f_equal. lia.
    + rewrite Nat.add_assoc. by replace (B + Z.of_nat (length (terminated s) + length (packed ss)))
        with (B + Z.of_nat (length (terminated s)) + Z.of_nat (length (packed ss))) by lia.
    + set (w := vec ne (B + Z.of_nat (length (terminated s))) ss) in *.
      eapply (area_trans _ z B [] (fat_at B :: w) (terminated s ++ packed ss)); [rewrite length_app; cbn [length]; lia|exact Ha1|].
      rewrite Z.add_0_r.
      eapply (area_trans _ [fat_at B] B [] w (terminated s ++ packed ss)); [cbn [length app]; lia|exact Ha2|].
      rewrite Z.add_0_r. eapply (area_trans _ [] B (terminated s) w); [cbn [length app]; lia|exact Ha3|].
      rewrite Z.add_0_r. exact Ha4.
Qed.
End Strings.

(** The vector is the arguments' pointers, [NULL], the environment's. *)
Fixpoint ptrs (B : Z) (ss : list (list Z)) : list Z :=
  match ss with
  | [] => []
  | s :: ss => fat_at B :: ptrs (B + Z.of_nat (length (terminated s))) ss
  end.

Lemma ptrs_length ss : forall B, length (ptrs B ss) = length ss.
Proof. induction ss as [|s ss IH]; intros B; [done|]. simpl. by rewrite IH. Qed.

Lemma vec_past ne ss : forall B, (length ss < ne)%nat -> vec ne B ss = ptrs B ss.
Proof.
  induction ss as [|s ss IH]; intros B H; cbn [vec ptrs length] in *; rewrite bool_decide_false by lia; [done|].
  cbn [app]. by rewrite IH by lia.
Qed.

Lemma vec_split args envs : forall B,
  vec (length envs) B (args ++ envs) = ptrs B args ++ 0 :: ptrs (B + Z.of_nat (length (packed args))) envs.
Proof.
  induction args as [|s args IH]; intros B.
  - cbn [app ptrs packed fmap list_fmap concat length]. rewrite Z.add_0_r.
    destruct envs as [|s envs]; cbn [vec ptrs length]; rewrite bool_decide_true by done; [done|].
    cbn [app]. by rewrite vec_past by lia.
  - cbn [app vec ptrs]. rewrite bool_decide_false by (cbn [length]; rewrite length_app; lia).
    cbn [app]. rewrite IH, packed_cons, length_app. do 4 f_equal. lia.
Qed.

(** The words of the block before the strings. *)
Definition block_words (B : Z) (args envs : list (list Z)) : list Z :=
  Z.of_nat (length args) :: (ptrs B args ++ [0]) ++ (ptrs (B + Z.of_nat (length (packed args))) envs ++ [0]).

Lemma block_words_vec B args envs :
  block_words B args envs = Z.of_nat (length args) :: vec (length envs) B (args ++ envs) ++ [0].
Proof. unfold block_words. by rewrite vec_split, <- !app_assoc. Qed.

Lemma block_words_length B args envs : length (block_words B args envs) = (length (args ++ envs) + 3)%nat.
Proof. unfold block_words. cbn [length]. rewrite !length_app, !ptrs_length. simpl. lia. Qed.

Lemma packed_chars ss : Forall chars ss -> Forall (fun c => 0 <= c < 256) (packed ss).
Proof.
  induction 1 as [|s ss Hs _ IH]; [constructor|]. rewrite packed_cons. apply Forall_app. split; [|done].
  unfold terminated. apply Forall_app. split; [|by repeat constructor].
  eapply Forall_impl; [exact Hs|]. simpl. lia.
Qed.

(** ** Delivery as a whole *)
Lemma deliver_spec first blocks args envs m :
  let ss := args ++ envs in
  let bs := packed ss in
  let B := 6 * (lo + Z.of_nat (length ss) + 3) in
  let top := (B + Z.of_nat (length bs) + 5) / 6 in
  lo = USTKPAGE * PGSZ -> on_blocks first blocks bs -> Forall chars ss -> Z.of_nat (length bs) <= NCARGS - 1 ->
  top < hi -> words (pm m) ->
  exists m1 m2, deliver upt first blocks (Z.of_nat (length ss)) (Z.of_nat (length envs)) m = Some (top + 1, m2) /\
    area lo (block_words B args envs) B bs m m1 /\
    area top [0] (6 * hi) [] m1 m2.
Proof.
  intros ss bs B top El Hbs Hc HN Htop Hm. unfold deliver. rewrite <- El. assert (B = 6 * (lo + Z.of_nat (length ss) + 3)) as EB by done.
  pose proof (packed_length ss) as Hss. fold bs in Hss.
  assert (Z.of_nat (length ss) - Z.of_nat (length envs) = Z.of_nat (length args)) as -> by (subst ss; rewrite length_app; lia).
  assert (length (vec (length envs) B ss) = S (length ss)) as Hvl.
  { subst ss. rewrite vec_split, !length_app. cbn [length]. rewrite !ptrs_length. lia. }
  pose proof (div_mod_range (B + Z.of_nat (length bs) + 5) 6 ltac:(lia)) as [Ht _]. fold top in Ht.
  destruct (suword_area lo (Z.of_nat (length args)) B m) as (m1 & -> & Ha1);
    [lia|unfold word, WORD; subst ss; rewrite length_app in *; unfold NCARGS in *; lia|done|]. cbn [mbind option_bind].
  replace (fat (lo + 1 + Z.of_nat (length ss) + 2) 0) with (fat_at B).
  2:{ unfold fat_at, NBPW. subst B. rewrite Z.mul_comm, Z.div_mul, Z.mod_mul by lia. f_equal. lia. }
  destruct arg_fuel as (F & -> & HF).
  destruct (give_loop_spec first blocks bs Hbs (packed_chars _ Hc) (length envs) ss F lo 0 B (Dfile 0 0 None (fat_at B)) m1)
    as (d & m2 & -> & Hd & Ha2); [done|done|done|fold bs; lia|lia|apply Ha1|lia|lia|fold bs; lia|].
  fold bs in Hd, Ha2.
  cbn [mbind option_bind]. rewrite Hvl.
  destruct (suword_area (lo + 1 + Z.of_nat (S (length ss))) 0 (B + Z.of_nat (length bs)) m2) as (m3 & -> & Ha3);
    [lia|unfold word, WORD; lia|apply Ha2|]. cbn [mbind option_bind].
  assert ((if negb (ptrbyte (d_up d) =? 5) then ptrword (d_up d) + 1 else ptrword (d_up d)) = top) as ->.
  { destruct Hd as (_ & -> & _). assert (nameable (B + Z.of_nat (length bs))) as Hna by (unfold nameable, NBPW, KREACH; lia).
    rewrite ptrword_at, ptrbyte_at by done. pose proof (Z.div_mod (B + Z.of_nat (length bs)) 6).
    pose proof (div_mod_range (B + Z.of_nat (length bs)) 6).
    destruct (Z.eqb_spec (5 - (B + Z.of_nat (length bs)) mod 6) 5); cbn [negb]; lia. }
  destruct (suword_area top 0 (6 * hi) m3) as (m4 & -> & Ha4); [lia|unfold word, WORD; lia|apply Ha3|]. cbn [mbind option_bind].
  exists m3, m4. split; [done|]. split; [|done].
  rewrite block_words_vec. fold ss.
  rewrite <- (app_nil_r bs).
  eapply (area_trans lo [_] B [] (vec (length envs) B ss ++ [0]) (bs ++ [])); [simpl length; rewrite length_app; simpl length; lia|exact Ha1|].
  rewrite Z.add_0_r. eapply (area_trans _ _ B bs [0] []); [rewrite length_app; simpl length; lia|exact Ha2|].
  rewrite Hvl. exact Ha3.
Qed.

(** ** What the program reads

    [m2] agrees below word [top] with the memory [m1] that the area describes. *)

Section Read.
Context (a : Z) (vs : list Z) (B : Z) (cs : list Z) (m m1 m2 : mem) (top : Z).
Context (Ha : area a vs B cs m m1) (Hw2 : words (pm m2)) (Hvs : Forall word vs).
Context (Hla : lo <= a) (Hab : 6 * (a + Z.of_nat (length vs)) <= B)
  (Hbt : B + Z.of_nat (length cs) <= 6 * top) (Hth : top <= hi).
Context (Hsame : forall X, 6 * lo <= X < 6 * top -> view_byte (utr upt) (pm m2) X = view_byte (utr upt) (pm m1) X).

Lemma word_read i x : vs !! i = Some x -> fuword upt m2 (fat (a + Z.of_nat i) 0) = Some x.
Proof.
  intros Hi. pose proof (lookup_lt_Some _ _ _ Hi) as Hlt. set (v := a + Z.of_nat i).
  assert (6 * v / 6 = v) as Ev by (rewrite Z.mul_comm; by apply Z.div_mul).
  replace (fat v 0) with (fat_at (6 * v)).
  2:{ unfold fat_at, NBPW. rewrite Ev, Z.mul_comm, Z.mod_mul by lia. done. }
  rewrite (fuword_at upt lo hi) by (done || lia). rewrite Ev. f_equal.
  apply word_bytes; [by apply load_word|rewrite Forall_lookup in Hvs; by eapply Hvs|]. intros off Hoff.
  assert ((6 * v + (5 - off)) / 6 = v /\ (6 * v + (5 - off)) mod 6 = 5 - off) as [E1 E2].
  { split; symmetry; [apply (Z.div_unique_pos _ _ _ (5 - off))|apply (Z.mod_unique_pos _ _ v)]; lia. }
  destruct Ha as (_ & Hv & _). specialize (Hv (6 * v + (5 - off)) ltac:(lia)). rewrite <- Hsame in Hv by lia.
  unfold view_byte at 1 in Hv. rewrite E1, E2 in Hv. replace (5 - (5 - off)) with off in Hv by lia. rewrite Hv.
  destruct (Z.leb_spec (6 * a) (6 * v + (5 - off))), (Z.ltb_spec (6 * v + (5 - off)) (6 * (a + Z.of_nat (length vs)))); try lia.
  cbn [andb]. replace (Z.to_nat (v - a)) with i by lia. by rewrite (list_lookup_total_correct _ _ _ Hi).
Qed.

Lemma byte_read j c : cs !! j = Some c -> fubyte upt m2 (fat_at (B + Z.of_nat j)) = Some c.
Proof.
  intros Hj. pose proof (lookup_lt_Some _ _ _ Hj) as Hlt.
  rewrite (fubyte_at upt lo hi) by (done || lia). f_equal. rewrite Hsame by lia.
  destruct Ha as (_ & Hv & _). rewrite Hv by lia.
  destruct (Z.leb_spec (6 * a) (B + Z.of_nat j)), (Z.ltb_spec (B + Z.of_nat j) (6 * (a + Z.of_nat (length vs)))),
    (Z.leb_spec B (B + Z.of_nat j)), (Z.ltb_spec (B + Z.of_nat j) (B + Z.of_nat (length cs))); cbn [andb]; try lia.
  replace (Z.to_nat (B + Z.of_nat j - B)) with j by lia. by apply list_lookup_total_correct.
Qed.
End Read.
End Block.

(** Pointers and bytes in place are a vector of strings. *)
Lemma vector_of upt m ss : forall a B, 0 <= B -> B + Z.of_nat (length (packed ss)) <= NBPW * KREACH -> Forall chars ss ->
  (forall i x, (ptrs B ss ++ [0]) !! i = Some x -> fuword upt m (fat (a + Z.of_nat i) 0) = Some x) ->
  (forall j c, packed ss !! j = Some c -> fubyte upt m (fat_at (B + Z.of_nat j)) = Some c) -> vector_at upt m a ss.
Proof.
  induction ss as [|s ss IH]; intros a B HB Hl Hc Hp Hs; cbn [vector_at ptrs] in *.
  { rewrite <- (Z.add_0_r a). by apply (Hp 0%nat). }
  apply Forall_cons in Hc as [Hc Hcs]. rewrite packed_cons, length_app in Hl. split.
  - exists B. split; [rewrite <- (Z.add_0_r a); by apply (Hp 0%nat)|]. split; [done|]. split; [|split; [done|]].
    + unfold terminated in Hl. rewrite length_app in Hl. cbn [length] in Hl. lia.
    + intros i c Hi. apply Hs. rewrite packed_cons. by apply lookup_app_l_Some.
  - eapply IH; [| |done| |].
    3:{ intros i x Hi. replace (a + 1 + Z.of_nat i) with (a + Z.of_nat (S i)) by lia. apply Hp. exact Hi. }
    1,2: lia.
    intros j c Hj. rewrite <- Z.add_assoc, <- Nat2Z.inj_add. apply Hs. rewrite packed_cons.
    by rewrite lookup_after.
Qed.

Lemma vector_chars upt m ss : forall a, vector_at upt m a ss -> Forall chars ss.
Proof.
  induction ss as [|s ss IH]; intros a H; [constructor|]. destruct H as [(B & _ & Hs) H].
  constructor; [apply Hs|by eapply IH].
Qed.

Lemma source_chars upt m argp envp args envs : source upt m argp envp args envs -> Forall chars (args ++ envs).
Proof.
  intros (_ & _ & H1 & H2). unfold vector_or_null in *. apply Forall_app.
  split; [destruct (argp =? 0)|destruct (envp =? 0)]; by subst || by eapply vector_chars.
Qed.

Lemma ptrs_words ss : forall B, 0 <= B -> B + Z.of_nat (length (packed ss)) < NBPW * KREACH -> Forall word (ptrs B ss).
Proof.
  induction ss as [|s ss IH]; intros B HB Hl; [constructor|]. rewrite packed_cons, length_app in Hl. cbn [ptrs].
  constructor; [apply fat_at_word; lia|]. apply IH; lia.
Qed.

Lemma block_words_words B args envs : 0 <= B -> B + Z.of_nat (length (packed (args ++ envs))) < NBPW * KREACH ->
  Forall word (block_words B args envs).
Proof.
  intros HB Hl. rewrite packed_app, length_app in Hl. pose proof (packed_length args). unfold block_words.
  assert (word 0) by done. constructor; [unfold word, WORD; unfold NBPW, KREACH in Hl; lia|].
  apply Forall_app; split; apply Forall_app; split; (by repeat constructor) || (apply ptrs_words; lia).
Qed.

(** Count, arguments and environment, from word [lo]. *)
Definition received (upt : list Z) (m : mem) (lo : Z) (args envs : list (list Z)) : Prop :=
  fuword upt m (fat lo 0) = Some (Z.of_nat (length args)) /\
  vector_at upt m (lo + 1) args /\ vector_at upt m (lo + 1 + Z.of_nat (length args) + 1) envs.

Lemma received_of upt m lo B args envs : 0 <= B -> B + Z.of_nat (length (packed (args ++ envs))) <= NBPW * KREACH ->
  Forall chars (args ++ envs) ->
  (forall i x, block_words B args envs !! i = Some x -> fuword upt m (fat (lo + Z.of_nat i) 0) = Some x) ->
  (forall j c, packed (args ++ envs) !! j = Some c -> fubyte upt m (fat_at (B + Z.of_nat j)) = Some c) ->
  received upt m lo args envs.
Proof.
  intros HB Hl Hc Hword Hbyte. rewrite packed_app in *. rewrite length_app in Hl. apply Forall_app in Hc as [Hca Hce].
  split_and!.
  - rewrite <- (Z.add_0_r lo). by apply (Hword 0%nat).
  - apply (vector_of _ _ _ _ B); [lia|lia|done| |].
    + intros i x Hi. replace (lo + 1 + Z.of_nat i) with (lo + Z.of_nat (S i)) by lia. apply Hword.
      unfold block_words. rewrite lookup_cons. by apply lookup_app_l_Some.
    + intros j c Hj. apply Hbyte. by apply lookup_app_l_Some.
  - apply (vector_of _ _ _ _ (B + Z.of_nat (length (packed args)))); [lia|lia|done| |].
    + intros i x Hi. replace (lo + 1 + Z.of_nat (length args) + 1 + Z.of_nat i) with (lo + Z.of_nat (S (length (ptrs B args ++ [0]) + i)))
        by (rewrite length_app, ptrs_length; simpl length; lia). apply Hword.
      unfold block_words. by rewrite lookup_cons, lookup_after.
    + intros j c Hj. rewrite <- Z.add_assoc, <- Nat2Z.inj_add. apply Hbyte.
      by rewrite lookup_after.
Qed.

(** The words of the block, from the base of the stack. *)
Definition block_size (args envs : list (list Z)) : Z :=
  Z.of_nat (length (args ++ envs)) + 4 + (Z.of_nat (length (packed (args ++ envs))) + 5) / 6.

Lemma deliver_received upt first blocks args envs m :
  let lo := USTKPAGE * PGSZ in
  let hi := lo + block_size args envs in
  hi <= 32768 -> reachable upt lo hi ->
  (forall v v', lo <= v < hi -> lo <= v' < hi -> utr upt v = utr upt v' -> v = v') ->
  on_blocks first blocks (packed (args ++ envs)) -> Forall chars (args ++ envs) ->
  Z.of_nat (length (packed (args ++ envs))) <= NCARGS - 1 -> words (pm m) ->
  exists m', deliver upt first blocks (Z.of_nat (length (args ++ envs))) (Z.of_nat (length envs)) m = Some (hi, m') /\
    received upt m' lo args envs /\
    forall pa, (forall v, lo <= v < hi -> utr upt v <> pa) -> pm m' pa = pm m pa.
Proof.
  intros lo hi Hhi Hr Hinj Hb Hc HN Hm. assert (lo = 28672) as El by done.
  pose proof (deliver_spec upt lo hi ltac:(lia) Hhi Hr Hinj first blocks args envs m) as Hds. cbv zeta in Hds.
  remember (6 * (lo + Z.of_nat (length (args ++ envs)) + 3)) as B eqn:EB.
  assert (hi = lo + block_size args envs) as Eh by done. clearbody hi. unfold block_size in Eh.
  set (bs := packed (args ++ envs)) in *.
  assert ((B + Z.of_nat (length bs) + 5) / 6 = hi - 1) as Et.
  { rewrite EB, <- Z.add_assoc, Z.mul_comm, Z.div_add_l by lia. lia. }
  pose proof (div_mod_range (Z.of_nat (length bs) + 5) 6 ltac:(lia)) as [Hd _].
  rewrite Et in Hds. destruct Hds as (m1 & m2 & E & Ha & Ht); [done..|lia|done|].
  replace (hi - 1 + 1) with hi in E by lia. exists m2. split; [done|]. clearbody lo.
  pose proof (block_words_length B args envs) as Evs.
  assert (forall X, 6 * lo <= X < 6 * (hi - 1) -> view_byte (utr upt) (pm m2) X = view_byte (utr upt) (pm m1) X) as Hsame.
  { intros X HX. destruct Ht as (_ & -> & _); [|lia]. simpl length. bool_cases; simpl; lia || done. }
  split.
  - apply (received_of _ _ _ B); [lia|fold bs; unfold NBPW, KREACH; lia|done| |].
    + apply (word_read upt lo hi ltac:(lia) Hhi Hr lo _ B bs m m1 m2 (hi - 1) Ha (proj1 Ht)); [|lia..|exact Hsame].
      apply block_words_words; [lia|]. fold bs. unfold NBPW, KREACH. lia.
    + apply (byte_read upt lo hi ltac:(lia) Hhi Hr lo _ B bs m m1 m2 (hi - 1) Ha); [lia..|exact Hsame].
  - intros pa Hpa. destruct Ha as (_ & _ & F1), Ht as (_ & _ & F2). by rewrite F2, F1.
Qed.

(** ** The new stack *)

(** Where the stack of an image starts. *)
Definition stack_base (im : image) : Z := PGSZ * dp im + USIZE + PGSZ * dn im.

Lemma stack_block im upt size : image_ok im -> maps im upt -> length upt = 8%nat -> 0 <= size <= PGSZ * sn im ->
  let lo := USTKPAGE * PGSZ in
  reachable upt lo (lo + size) /\ forall v, lo <= v < lo + size -> utr upt v = stack_base im + (v - lo).
Proof.
  intros Ok Mp Hl Hs lo. assert (lo = 28672) as El by done. pose proof Ok as (H1 & H2 & H3 & H4 & H5 & H6 & H7 & _).
  unfold USTKPAGE, NPAGE, PGSZ in *.
  assert (forall v, lo <= v < lo + size -> physaddr upt v = Some (stack_base im + (v - lo))) as Hpa.
  { intros v Hv. destruct (physaddr_image im upt v Ok Mp ltac:(unfold MAXMEM, NPAGE, PGSZ; lia)) as [-> _].
    f_equal. unfold image_word, stack_base, USTKPAGE, PGSZ, USIZE. bool_cases; simpl; lia. }
  split; [|intros v Hv; unfold utr; by rewrite Hpa].
  apply range_reachable; [done|lia|]. split; [unfold MAXMEM, NPAGE, PGSZ; lia|].
  intros i Hi. rewrite Hpa by lia. unfold stack_base, PGSZ, USIZE. intros [= E]. lia.
Qed.

(** The process with the sizes that [estabur] is asked for. *)
Definition resized (nt nd ns : Z) (u : utab) : utab :=
  Utab (u_upt u) nt nd ns (u_error u) (p_addr u) (x_caddr u) (maxmem u) (rp u) (rz u).

Lemma estabur_length im nt nd ns u u' : image_ok im -> describes im (resized nt nd ns u) ->
  estabur nt nd ns u = Some (0, u') -> length (u_upt u') = 8%nat.
Proof.
  intros Ok De. destruct (sureg_walk im _ (image_ok_fits _ Ok) De) as (pg & prot & Hs & _).
  unfold estabur. fold (resized nt nd ns u). rewrite Hs. destruct (_ || _); [done|]. intros E.
  apply (inj Some), (f_equal (fun p => length (u_upt p.2))) in E. cbn [snd] in E. rewrite <- E. cbn [u_upt]. by rewrite length_fmap.
Qed.

Lemma estabur_maps im nt nd ns u u' : image_ok im -> describes im (resized nt nd ns u) ->
  estabur nt nd ns u = Some (0, u') -> maps im (u_upt u').
Proof.
  intros Ok De E. destruct (estabur_correct im nt nd ns u Ok De) as [Hyes Hno].
  destruct (decide (fits nt nd ns (maxmem u))) as [F|F].
  - destruct (Hyes F) as (u'' & E' & _ & Mp & _). rewrite E' in E. by injection E as ->.
  - destruct (Hno F) as (u'' & E' & _). rewrite E' in E. done.
Qed.

(** The stack that is asked for has the block, and a page above it. *)
Lemma stack_room x busy n ts ds ss : 0 <= n -> xsizes x busy (NBPW * n) = inr (ts, ds, ss) -> SSIZE + n <= ss.
Proof.
  intros Hn H. assert (ss = SSIZE + pground (btow (NBPW * n))) as ->.
  { unfold xsizes in H. destruct (_ || _); [done|]. destruct (fold_impure x); [done|].
    destruct (_ && _); [done|]. cbv zeta in H. destruct (_ <? 0); [done|]. by simplify_eq. }
  unfold btow, NBPW. rewrite pground_pages, Z.quot_div_nonneg by lia. unfold PGSZ.
  replace ((6 * n + 5) / 6) with n by (apply (Z.div_unique_pos _ _ _ 5); lia).
  pose proof (div_mod_range (n + 1023) 1024). lia.
Qed.

(** C17. The arguments and the environment of [exec] reach the new program unchanged.  The caller's
    two vectors of strings are staged through swap blocks, or refused with [E2BIG] when they have
    more than [NCARGS - 1] bytes.  If [getxfile] then accepts the sizes of the program, asked for
    the room that [exece] computes, and [estabur] maps them, delivery leaves the count at the base of the new
    stack, above it a vector of pointers to the same argument strings and one to the same
    environment, sets [r15] above all of it with a page of stack to spare, and stores nothing
    outside that block. *)
Theorem args_delivered upt m junk first blocks argp envp args envs :
  (forall b, length (junk b) = Z.to_nat BSIZEW) -> argp <> 0 -> source upt m argp envp args envs ->
  let size := Z.of_nat (length (packed (args ++ envs))) in
  let lo := USTKPAGE * PGSZ in
  (NCARGS - 1 < size -> stage upt m junk first argp envp blocks = Some (inl E2BIG)) /\
  (size <= NCARGS - 1 ->
   exists g, stage upt m junk first argp envp blocks = Some (inr g) /\ nargc g = NBPW * block_size args envs /\
   forall x busy ts ds ss im u u' m1,
     xsizes x busy (nargc g) = inr (ts, ds, ss) -> image_ok im -> describes im (resized ts ds ss u) ->
     estabur ts ds ss u = Some (0, u') -> words (pm m1) ->
     exists r15 m2, deliver (u_upt u') first (g_swp g) (g_na g) (g_ne g) m1 = Some (r15, m2) /\
       received (u_upt u') m2 lo args envs /\ r15 + SSIZE <= lo + ss /\
       forall pa, ~ (stack_base im <= pa < stack_base im + (r15 - lo)) -> pm m2 pa = pm m1 pa).
Proof.
  intros Hj Ha Hs size lo. destruct (stage_spec junk first Hj upt m argp envp args envs blocks Ha Hs) as [Hok Hbig].
  split; [exact Hbig|]. intros Hle. destruct (Hok Hle) as (g & E & Ena & Ene & Enc & Hb). exists g. split; [done|].
  pose proof (div_mod_range (size + 5) 6 ltac:(lia)) as [Hd _]. fold size in Enc.
  assert (nargc g = NBPW * block_size args envs) as En.
  { unfold nargc, block_size. rewrite Enc, Ena. fold size. unfold NBPW. lia. }
  split; [done|]. intros x busy ts ds ss im u u' m1 Hx Ok De Ee Hm1. rewrite En in Hx.
  assert (0 <= block_size args envs) as Hbs by (unfold block_size; fold size; lia).
  pose proof (stack_room _ _ _ _ _ _ Hbs Hx) as Hroom. pose proof (estabur_maps _ _ _ _ _ _ Ok De Ee) as Mp.
  pose proof (estabur_length _ _ _ _ _ _ Ok De Ee) as Hl.
  assert (ss = PGSZ * sn im) as Ess by apply De.
  pose proof Ok as (_ & _ & _ & _ & _ & _ & Hsn & _). unfold SSIZE, NPAGE, USTKPAGE, PGSZ in *.
  destruct (stack_block im _ (block_size args envs) Ok Mp Hl ltac:(unfold PGSZ; lia)) as [Hr Hu].
  rewrite Ena, Ene. destruct (deliver_received (u_upt u') first (g_swp g) args envs m1) as (m2 & -> & Hrec & Hf);
    [unfold USTKPAGE, PGSZ in *; lia|done| |done|by eapply source_chars|done|done|].
  { intros v v' Hv Hv'. rewrite !Hu by done. lia. }
  eexists _, m2. split; [reflexivity|]. split; [done|]. split; [unfold USTKPAGE, PGSZ in *; lia|].
  intros pa Hpa. apply Hf. intros v Hv E'. apply Hpa. rewrite Hu in E' by done. unfold USTKPAGE, PGSZ in *. lia.
Qed.

(** A shell: [sh -c] with [A=1] in the environment; the vectors at words 10 and 13, the strings packed from word 20. *)
Definition caller_mem : mem :=
  let text := [115; 104; 0; 45; 99; 0; 65; 61; 49; 0; 0; 0] in
  Mem (fun pa =>
    let v := pa - 40960 in
    if v =? 10 then fat_at 120 else if v =? 11 then fat_at 123 else if v =? 13 then fat_at 126
    else if (v =? 20) || (v =? 21) then putbs [0; 0] 0 text !!! Z.to_nat (v - 20) else 0) 0 0 0.
Definition sh_args : list (list Z) := [[115; 104]; [45; 99]].
Definition sh_envs : list (list Z) := [[65; 61; 49]].

(** The new image: no text, a page of data, two of stack. *)
Definition exec_utab : utab := Utab (replicate 8 0) 0 0 0 0 102400 None 100000 [] [].
Definition exec_utab' : utab := default exec_utab (snd <$> estabur 0 1024 2048 exec_utab).

Lemma args_delivered_witness :
  exists g r15 m2,
    stage upt0 caller_mem (fun _ => replicate 512 0) 100 10 13 (fun _ => []) = Some (inr g) /\
    deliver (u_upt exec_utab') 100 (g_swp g) (g_na g) (g_ne g) mem0 = Some (r15, m2) /\
    received (u_upt exec_utab') m2 28672 sh_args sh_envs.
Proof.
  destruct (args_delivered upt0 caller_mem (fun _ => replicate 512 0) 100 (fun _ => []) 10 13 sh_args sh_envs)
    as [_ Hok]; [done|done| |].
  - split_and!; [done|done| |].
    + split; [|split; [|vm_compute; reflexivity]].
      * exists 120. split; [vm_compute; reflexivity|]. split_and!; [done|done|by repeat constructor|].
        intros [|[|[|i]]] c [= <-]; vm_compute; reflexivity.
      * exists 123. split; [vm_compute; reflexivity|]. split_and!; [done|done|by repeat constructor|].
        intros [|[|[|i]]] c [= <-]; vm_compute; reflexivity.
    + split; [|vm_compute; reflexivity].
      exists 126. split; [vm_compute; reflexivity|]. split_and!; [done|done|by repeat constructor|].
      intros [|[|[|[|i]]]] c [= <-]; vm_compute; reflexivity.
  - destruct (Hok ltac:(vm_compute; discriminate)) as (g & E & En & Hg).
    destruct (Hg (Exdata FMAGIC 0 600 60 100) false 0 1024 2048 (Image 100 100 0 1 2) exec_utab exec_utab' mem0)
      as (r15 & m2 & D & R & _).
    + rewrite En. vm_compute. reflexivity.
    + unfold image_ok, USTKPAGE, NPAGE. simpl. lia.
    + split_and!; reflexivity.
    + vm_compute. reflexivity.
    + exact mem0_words.
    + exists g, r15, m2. split; [exact E|]. split; [exact D|exact R].
Defined.

(** A vector that points outside the caller's map is refused. *)
Example stage_fault :
  stage upt0 (Mem (fun pa => if pa =? 40970 then fat_at 60000 else 0) 0 0 0) (fun _ => replicate 512 0) 100 10 0
    (fun _ => []) = Some (inl EFAULT).
Proof. vm_compute. reflexivity. Qed.

(** [getxfile] tests the sums that give the size of the data, but not [ux_csize + ux_tsize]: for a pure
    program whose constants and text have [2^39] bytes each, the sum wraps, the text gets a negative
    size, and [estabur] accepts it, since it only compares with what is too large. *)
Example text_sum_unchecked :
  match xsizes (Exdata NMAGIC (2 ^ 39) (2 ^ 39) 0 0) false 24 with
  | inr (ts, ds, ss) => (ts <? 0) = true /\ fst <$> estabur ts ds ss utab0 = Some 0
  | inl _ => False
  end.
Proof. vm_compute. split; reflexivity. Qed.
